(* ===== verification/_CoqProject ===== *)
-Q . S2P
Prelude.v
LcMem.v
Bloom.v
BfGdt.v
Mcast.v
Remote.v
DpActions.v
Datapath.v
LcNet.v
Reconnect.v
StpData.v
Stp.v
StpRel.v
StpInv.v
StpCalls.v
StpDelay.v
StpProps.v
Tag.v
Hash.v
Hmap.v
MacLearning.v
DList.v
Flow.v
ClsRule.v
ClsPut.v
ClsSet.v
Classifier.v
ClsCursor.v
ClsUpdate.v
ClsProps.v
SlaveMap.v
Lacp.v
LacpRep.v
LacpProps.v
LacpPeers.v
Bond.v
BondRep.v
BondUse.v
BondProps.v
BondTime.v
BondBalance.v
BondCalls.v
BondErrors.v
Packet.v
Csum.v
Extract.v
Compose.v
Rewrite.v
PacketIn.v
Reserved.v
Learning.v
