(* ===== verification/Prelude.v ===== *)
(** * LazyCtrl switches: verification library

    LazyCtrl splits the control of a data-centre network: a central controller keeps the
    grouping of edge switches, and the switches of one group forward packets between each
    other without asking it.  This library models the switch side, which lives in the Open
    vSwitch tree src/lcm/openvswitch-lc, and proves what it does.

    ** How the program works, and where it is modelled

    Every switch of a group keeps a table of Bloom filters, one per switch of the group, each
    holding the addresses of that switch's hosts.  There are two copies of the table: the
    daemon's (ovs-vswitchd) and the datapath's (kernel).  The daemon learns local hosts from
    flow misses, sends its own filter to the group by multicast, stores the filters it
    receives, and copies those to the datapath by netlink.  The datapath looks up the
    destination of a packet that matches no flow in its table, and sends it in an EtherIP
    packet to the switch whose filter has it.

    - LcMem.v: the structures of lib/bf.h and lib/bf-gdt.h in a heap of blocks, with malloc
      and free.  A wrong access, a double or invalid free is [Stuck]; so is a null pointer.
    - Bloom.v: lib/bf.c.  Filters, their two hashes, membership.
    - BfGdt.v: lib/bf-gdt.c.  The table.  [table_rep] relates it to a list of entries;
      the class [GroupTable] has the operations the clients use and [GroupTableLaws] their
      specification over lists.  The instance for the heap discharges it.
    - Mcast.v: vswitchd/ovs-mcast.c (mc_send, mc_recv), the LazyCtrl part of
      vswitchd/bridge.c (bridge_lc_init, bridge_update_local_bf) and of
      ofproto/ofproto-dpif.c (handle_miss_upcalls), over any [GroupTable].
    - Remote.v: datapath/remote.c and its callers.  Packets ([sk_buff]) and EtherIP.
    - DpActions.v: datapath/actions.c.  The interpreter of action lists and the loop limit.
    - Datapath.v: datapath/datapath.c, the link layer of datapath/flow.c and
      datapath/vport.c.  Reception of packets, the netlink commands of the group table.
    - LcNet.v: the switches of a group together.  A step relation with one constructor per
      event (a miss, a message sent, a message received and passed on to the datapath); a
      message sent stays in the channel, so that it may be lost, duplicated and reordered.
    - Reconnect.v: lib/reconnect.c.  The state machine behind the connections to the
      controller and to the database.
    - StpData.v, Stp.v: lib/stp.h and lib/stp.c.  The spanning tree that keeps the switches'
      ordinary forwarding free of loops.  StpRel.v, StpInv.v, StpCalls.v and
      StpDelay.v (how fast a port may advance) hold the reasoning about it and StpProps.v its
      properties.
    - Tag.v: lib/tag.c, the superimposed codes that mark what a flow depends on.  Hash.v and
      Hmap.v: lib/hash.c and lib/hmap.c.  MacLearning.v: lib/mac-learning.c, the table of
      learned addresses of ordinary forwarding, on top of these.  Learning.v: what
      update_learning_table and xlate_normal of ofproto/ofproto-dpif.c do with that table, and
      the flows that are cached from it.
    - DList.v: lib/list.c.  Rings of links in a store.
    - Flow.v: lib/flow.h and lib/flow.c, the keys of packets, and wildcards.  ClsRule.v,
      ClsPut.v and ClsSet.v: the rules of lib/classifier.c, which functions build them and what
      packets they match.  Classifier.v, ClsCursor.v, ClsUpdate.v and ClsProps.v: the
      classifier, with its search, its iteration, its changes and their properties; it uses
      DList.v and Hmap.v.
    - SlaveMap.v: the memory of the slaves of an aggregate, with the hash map over it.
      Lacp.v: every function of lib/lacp.c, link aggregation control.  LacpRep.v describes
      each over the list of slaves that the memory stands for and shows that the two agree;
      LacpProps.v has the properties of one switch, LacpPeers.v those of two switches joined
      by links.
    - Bond.v: lib/bond.c, links bonded into one, with the part of bundle_run of
      ofproto/ofproto-dpif.c that uses a bond.  It stands on SlaveMap.v, and on Tag.v, Flow.v
      and Lacp.v for tags, hashes of flows and the status of LACP.  BondRep.v has the
      invariant of a bond and what bond_run does, BondUse.v the choice of a slave,
      BondBalance.v rebalancing, BondTime.v delays, BondCalls.v all other functions and
      sequences of calls; BondProps.v has properties and BondErrors.v defects.
    - Packet.v: packets of the daemon in buffers of lib/ofpbuf.c: parsing into flows and
      building (flow_extract and flow_compose of lib/flow.c), checksums (lib/csum.c), changes
      of headers (lib/packets.c) and execute_controller_action of ofproto/ofproto-dpif.c, which
      puts them together.  Csum.v has the theory of checksums, Extract.v parsing, Compose.v
      building, Rewrite.v the changes, PacketIn.v what is sent to the controller.  Reserved.v:
      the reserved addresses of lib/packets.c, in a hash map of Hmap.v.

    Code that can fail at run time returns an [outcome]; stateful code is in the monad
    [cstate] over it, both of this file.  A machine integer is a [Z]; an unsigned operation
    that can leave its range is wrapped ([u8], [u32], ...), and a signed one is wrapped to what
    the compilers in use give ([s32]) or, in Reconnect.v, is the fault [Overflow] ([signed]).
    Bytes are lists of [Z].

    ** What the theorems show

    - Bloom filters: the test is exact over the bits the keys set, and a key added is always
      found (bloom_check_exact, bloom_no_false_negative).
    - The table refines an association list, every operation included; lookup finds the
      first filter that has the key; it is full at 64 (gdt_refines_map,
      lemmas gdt_check_first_match, gdt_update_full).
    - Distribution: what one switch learns reaches another's table, and nothing else does
      (mcast_copies_filter, learn_misses_records, lemma lc_init_ok).
    - Packets: a packet to a host of the group leaves encapsulated for that host's switch, an
      unknown one is sent to the daemon, and one that came from another switch is never
      sent back (group_packet_forwarded, unknown_packet_missed, remote_packet_not_bounced);
      encapsulation and the VLAN actions have their inverses (remote_roundtrip,
      pop_push_vlan), the delayed clone is not observable (delayed_clone_equiv), and nested
      execution stops at five levels (loop_limit).
    - Composition: the concrete network refines one of lists (net_refines); no table ever
      credits a switch with a host that it did not record (no_misdelivery); and a host
      learnt at one switch is reachable from another (group_learning_end_to_end).
    - Connections: the invariant of the state machine over any sequence of calls, which also
      never overflow (reconnect_invariant), agreement of reconnect_run with the timeout,
      back-off and keep-alive.
    - Spanning tree: the invariant of the tree over any sequence of calls, the best root port,
      a delay before a port forwards, the rate limit of BPDUs, adoption of superior
      information, completeness of the list of changed ports, the BPDU format, timers.
    - Hash maps: any sequence of operations keeps the multiset of nodes of a list, unless room
      for 2^61 nodes is asked for (hmap_refines_list, reserve_overflows), and every traversal ends and visits each node once (hmap_traversals); a hash
      step loses no information (lemma hash_mix_reversible).
    - MAC learning: the table refines a list in order of use (mac_learning_refines_lru), holds
      what was learned for the idle time and no longer (mac_learning_remembers).  Whatever
      packets are learned from, and whatever expires or is flushed, a cached flow either is
      revalidated or is the one that a lookup would give now (mac_tag_protocol), which rests
      on tag sets that never miss (tag_set_no_miss); a table with more addresses than room and a
      change of the flood VLANs break this (eviction_loses_tag, unflooded_vlan_keeps_flooding).
    - Lists: every function does to the sequence of elements what its comment says, and
      touches no other ring (dlist_refines_sequence).
    - Rules: every function that sets a field narrows the rule by that field
      (setter_narrows), any way of building a rule keeps the wildcarded bits zero
      (built_rule_ok), and a loose match is inclusion of packets (loose_match_inclusion).
    - Classifier: any sequence of changes refines a set of rules with one rule for each key
      (classifier_refines_rule_set); a lookup finds the highest priority
      (classifier_lookup_highest); exact search and overlap (classifier_queries); a cursor
      visits what it promises (cursor_complete).
    - Link aggregation: every function keeps the memory of the slaves well formed and does
      what its description over lists says.  All attached slaves have the same partner
      (lacp_one_partner); which are attached, and whether negotiation has succeeded, is
      decided exactly (update_attached_exact); a partner that falls silent is given up after
      two time-outs (lacp_silence); two switches come to agree in three exchanges
      (lacp_negotiates); the PDU format (lacp_pdu_roundtrip), and both ends of a link order
      their links in the same way (link_priority_agrees).  A slave that joins detaches those
      already attached (new_slave_detaches).
    - Bonding: any sequence of calls from bond_create to bond_destroy that respects the
      conditions of the interface returns, keeps the invariant and frees all memory
      (bond_calls_safe).  After bond_run every flow gets an enabled slave if there is one
      (bond_output_enabled); a flow whose slave is lost or changes has its tag in the set that
      is revalidated (bond_flow_revalidated); few flows move when a slave comes or goes
      (stb_minimal_disruption); a packet is not let in twice (bond_no_duplicates); a slave goes
      down when its delay is over and not before (bond_down_delay); rebalancing ends, and moves
      load from more to less loaded slaves (bond_rebalance_moves).  Defects:
      tcp_learning_faults, set_active_keeps_dead_flows, rebalance_overshoots.
    - Parsing: flow_extract is safe on any packet and its header pointers are right
      (flow_extract_safe); it reads what flow_compose builds (flow_compose_extract), which is
      not all of a flow (compose_incomplete).
    - Checksums: a stored checksum verifies (csum_verifies), the order of bytes does not matter
      (csum_byte_order), and an update is as good as a computation (recalc_csum16_exact).
    - Headers: rewriting keeps every valid checksum valid and changes only what it should
      (packet_set_ipv4_ok, packet_set_ports_ok), and preparing a packet for the controller never
      fails (controller_packet_safe).  The reserved addresses are those of the array
      (reserved_exact), which are not those of the standard (stp_not_reserved).
    - Defects: each is a theorem about the code as it is, listed with the findings.

    ** Bounds and fuel

    Loops of the code become structural recursion on the number of iterations, which the
    code's own bounds give: a table's nbf (at most 64), a filter's nfuncs, the entries of a
    message, the 255 ports of a bridge.  Where the code follows pointers or consumes a buffer
    there is fuel: the length of the buffer in Hash.v, the number of nodes or buckets in Hmap.v
    and of entries in MacLearning.v, the number of rules in Classifier.v, which the theorems of
    those files show to be enough.  The loops over the headers of IPv6 and the options of
    neighbour discovery have the size of the packet as fuel, which flow_extract_safe shows to be
    enough, and the folding of a checksum three rounds (lemma csum_fold_ok).  The hash map of slaves is traversed with its number of
    buckets and nodes as fuel.  The rounds of bond_rebalance's loop are bounded by the number
    of hash buckets and of enabled slaves, and running out of that bound is the fault
    [Endless], which bond_rebalance_moves excludes; so is hmap_random_node on an empty map,
    whose loop in the code does not end.
    What would be undefined in C is [Stuck], and the theorems about success say [Ret].  The
    allocator is an oracle, since malloc is not code of the repository: a theorem that
    needs memory says so.  stp_tick is followed for ticks of at most [MAX_TICK_MS], since
    beyond that its arithmetic overflows (stp_tick_overflow).  Times are milliseconds in a long
    long.  Reconnect.v, where times add up, checks every sum and difference, and its theorems ask
    for times below [TIME_MAX], about 2^63 - 2^32.  MacLearning.v, Lacp.v and Bond.v only
    add a short delay to the current time (timer_set_duration, the delays of a slave, the idle
    time); there a time is an unbounded [Z], which agrees with the code for all times but the
    last few before 2^63.
    The size of a hash map's buckets is a size_t, and xmalloc a block of that size: beyond 2^61
    nodes it is too small (Hmap.v), and so maps of nodes have fewer than 2^61 in the theorems, and
    maps of slaves fewer than 2^60.

    ** Not modelled

    The flow table and the layer-3 and layer-4 part of the flow key are parameters of
    Datapath.v, the checksum routines of the kernel parameters of Remote.v and DpActions.v.
    Left out: thread creation, sockets and log messages, which only transport what the model
    passes as arguments; the dump command of the group table; validation of actions; the
    counters of a datapath flow (ovs_flow_used); the text
    form of rules and of addresses; the list of all LACP objects
    and its administration commands, and the sending of an LACP PDU, which is an output of
    the model; the list of all bonds, the commands that print bonds and the parsing of command
    arguments; connectivity fault management; the
    rest of Open vSwitch (OpenFlow, OVSDB, devices), which LazyCtrl
    takes over unchanged; the controller, which is Java; and the grouping simulator with the
    vendored METIS.  Concurrency is modelled at the grain of the mutex that protects the
    daemon's table: learn_miss does not take it in the code, and is atomic here. *)
From stdpp Require Export base numbers gmap list.

Local Open Scope Z_scope.

Create HintDb cint.
Create HintDb clist.

(** ** Machine integers

    A C integer of width [w] is the [Z] it denotes.  An unsigned operation is
    followed by the reduction [uN]; a conversion to a signed type by [sN]. *)

Definition wrap (w : Z) (z : Z) : Z := z `mod` 2 ^ w.

Definition swrap (w : Z) (z : Z) : Z :=
  let r := wrap w z in if r <? 2 ^ (w - 1) then r else r - 2 ^ w.

Abbreviation u8 := (wrap 8).
Abbreviation u16 := (wrap 16).
Abbreviation u32 := (wrap 32).
Abbreviation u64 := (wrap 64).
Abbreviation s32 := (swrap 32).
Abbreviation s64 := (swrap 64).

Abbreviation UINT_MAX := 4294967295.
Abbreviation INT_MAX := 2147483647.
Abbreviation INT_MIN := (-2147483648).
Abbreviation LLONG_MAX := 9223372036854775807.
Abbreviation LLONG_MIN := (-9223372036854775808).

Declare Scope c_scope.
Delimit Scope c_scope with C.
(** 32-bit unsigned arithmetic, as C writes it on [uint32_t] operands. *)
Infix "+" := (fun x y => u32 (x + y)) : c_scope.
Infix "-" := (fun x y => u32 (x - y)) : c_scope.
Infix "*" := (fun x y => u32 (x * y)) : c_scope.
Notation "x << k" := (u32 (Z.shiftl x k)) (at level 35) : c_scope.
Notation "x >> k" := (Z.shiftr x k) (at level 35) : c_scope.
Notation "x ^^ y" := (Z.lxor x y) (at level 37, left associativity) : c_scope.

Lemma wrap_bound w z : 0 <= w -> 0 <= wrap w z < 2 ^ w.
Proof. intros Hw. apply Z.mod_pos_bound. by apply Z.pow_pos_nonneg. Qed.

Lemma wrap_small w z : 0 <= z < 2 ^ w -> wrap w z = z.
Proof. apply Z.mod_small. Qed.

Lemma wrap_wrap w z : 0 <= w -> wrap w (wrap w z) = wrap w z.
Proof. intros Hw. by apply wrap_small, wrap_bound. Qed.

Lemma swrap_small w z : 0 < w -> - 2 ^ (w - 1) <= z < 2 ^ (w - 1) -> swrap w z = z.
Proof.
  intros Hw Hz. unfold swrap, wrap.
  assert (2 ^ w = 2 * 2 ^ (w - 1)) as E
    by (rewrite <- Z.pow_succ_r by lia; f_equal; lia).
  destruct (decide (0 <= z)) as [Hp|Hn].
  - rewrite Z.mod_small by lia. destruct (Z.ltb_spec z (2 ^ (w - 1))); lia.
  - assert (z `mod` 2 ^ w = z + 2 ^ w) as ->.
    { rewrite <- (Z.mod_add z 1) by lia. rewrite Z.mod_small; lia. }
    destruct (Z.ltb_spec (z + 2 ^ w) (2 ^ (w - 1))); lia.
Qed.

Lemma swrap_bound w z : 0 < w -> - 2 ^ (w - 1) <= swrap w z < 2 ^ (w - 1).
Proof.
  intros Hw. unfold swrap.
  assert (2 ^ w = 2 * 2 ^ (w - 1)) as E
    by (rewrite <- Z.pow_succ_r by lia; f_equal; lia).
  pose proof (wrap_bound w z ltac:(lia)).
  destruct (Z.ltb_spec (wrap w z) (2 ^ (w - 1))); lia.
Qed.

Lemma wrap_odd w z : 0 < w -> Z.odd (wrap w z) = Z.odd z.
Proof.
  intros Hw. unfold wrap. rewrite <- !Z.bit0_odd.
  apply Z.mod_pow2_bits_low. lia.
Qed.

#[export] Hint Resolve wrap_bound wrap_small swrap_bound : cint.

(** ** 32-bit words *)

Definition word (z : Z) : Prop := 0 <= z < 2 ^ 32.

Lemma word_high z i : word z -> 32 <= i -> Z.testbit z i = false.
Proof.
  intros Hz Hi. destruct (decide (z = 0)) as [->|Hn]; [apply Z.bits_0|].
  apply Z.bits_above_log2; [unfold word in Hz; lia|].
  assert (Z.log2 z < 32) by (apply Z.log2_lt_pow2; unfold word in Hz; lia). lia.
Qed.

Lemma word_lor a b : word a -> word b -> word (Z.lor a b).
Proof.
  intros Ha Hb. assert (0 <= Z.lor a b) as H0 by (apply Z.lor_nonneg; unfold word in *; lia).
  split; [done|]. destruct (decide (Z.lor a b = 0)) as [->|Hn]; [lia|].
  apply Z.log2_lt_pow2; [lia|]. rewrite Z.log2_lor by (unfold word in *; lia).
  apply Z.max_lub_lt; (destruct (decide (0 < a)), (decide (0 < b)); unfold word in *;
    try (apply Z.log2_lt_pow2; lia); rewrite Z.log2_nonpos by lia; lia).
Qed.

Lemma word_land a b : word a -> 0 <= b -> word (Z.land a b).
Proof.
  intros Ha Hb. assert (0 <= Z.land a b) by (apply Z.land_nonneg; unfold word in Ha; lia).
  split; [done|]. destruct (decide (Z.land a b = 0)) as [->|Hn]; [lia|].
  apply Z.log2_lt_pow2; [lia|]. pose proof (Z.log2_land a b ltac:(unfold word in Ha; lia) Hb).
  assert (a <> 0) by (intros E; by rewrite E, Z.land_0_l in Hn).
  assert (Z.log2 a < 32) by (apply Z.log2_lt_pow2; unfold word in Ha; lia). lia.
Qed.

Lemma word_lxor a b : word a -> word b -> word (Z.lxor a b).
Proof.
  intros Ha Hb. assert (0 <= Z.lxor a b) by (apply Z.lxor_nonneg; unfold word in *; lia).
  split; [done|]. destruct (decide (Z.lxor a b = 0)) as [->|]; [lia|].
  apply Z.log2_lt_pow2; [lia|]. eapply Z.le_lt_trans; [apply Z.log2_lxor; unfold word in *; lia|].
  apply Z.max_lub_lt; (destruct (decide (0 < a)), (decide (0 < b)); unfold word in *;
    try (apply Z.log2_lt_pow2; lia); rewrite Z.log2_nonpos by lia; lia).
Qed.

Lemma word_u32 z : word (u32 z).
Proof. apply (wrap_bound 32). lia. Qed.

Lemma word_shiftr z k : word z -> 0 <= k -> word (Z.shiftr z k).
Proof.
  intros Hz Hk. rewrite Z.shiftr_div_pow2 by done. assert (0 < 2 ^ k) by (apply Z.pow_pos_nonneg; lia).
  unfold word in *. split; [apply Z.div_pos; lia|].
  apply Z.div_lt_upper_bound; nia.
Qed.

#[export] Hint Resolve word_lor word_lxor word_u32 word_shiftr : cint.

(** ** Boolean case analysis

    [bcase] splits on the boolean comparisons and connectives that drive the
    control flow of a definition, keeping what each test says. *)

Ltac bcase1 :=
  match goal with
  | |- context [if ?b then _ else _] =>
      lazymatch b with
      | context [if _ then _ else _] => fail
      | _ => let E := fresh "E" in destruct b eqn:E
      end
  | H : context [if ?b then _ else _] |- _ =>
      lazymatch b with
      | context [if _ then _ else _] => fail
      | _ => let E := fresh "E" in destruct b eqn:E
      end
  end.
Ltac bcase := repeat (bcase1; simplify_eq/=).

(** ** Faults and outcomes

    What C leaves undefined is not a value: a definition that would reach it
    returns [Stuck] with the reason. *)

Inductive fault :=
  | NullDeref       (* load or store through a null pointer *)
  | DanglingPtr     (* through a pointer to no live block of the right type *)
  | OutOfBounds     (* array index past the end *)
  | InvalidFree     (* free of an address malloc did not return *)
  | DivideByZero
  | Overflow        (* result of signed arithmetic outside its type *)
  | AssertFail      (* assert() or NOT_REACHED() *)
  | Endless.        (* a loop that does not end *)

#[export] Instance fault_eq_dec : EqDecision fault.
Proof. solve_decision. Defined.

Inductive outcome (A : Type) :=
  | Ret (a : A)
  | Stuck (f : fault).
Arguments Ret {A} a.
Arguments Stuck {A} f.

Lemma Ret_inj {A} (a b : A) : Ret a = Ret b -> a = b.
Proof. congruence. Qed.

#[export] Instance outcome_ret : MRet outcome := fun A a => Ret a.
#[export] Instance outcome_bind : MBind outcome := fun A B k m =>
  match m with Ret a => k a | Stuck f => Stuck f end.

#[export] Instance outcome_fmap : FMap outcome := fun A B f m =>
  match m with Ret a => Ret (f a) | Stuck e => Stuck e end.

Definition returns {A} (m : outcome A) : Prop := exists a, m = Ret a.

Lemma outcome_bind_ret_inv {A B} (m : outcome A) (k : A -> outcome B) b :
  m ≫= k = Ret b <-> exists a, m = Ret a /\ k a = Ret b.
Proof. destruct m; naive_solver. Qed.

Definition of_option {A} (f : fault) (o : option A) : outcome A :=
  match o with Some a => Ret a | None => Stuck f end.

(** The result of signed arithmetic on [w] bits, which C leaves undefined when it does not fit. *)
Definition signed (w x : Z) : outcome Z :=
  if (- 2 ^ (w - 1) <=? x) && (x <? 2 ^ (w - 1)) then Ret x else Stuck Overflow.

Abbreviation int := (signed 32).
Abbreviation llong := (signed 64).

Lemma signed_ok w x : - 2 ^ (w - 1) <= x < 2 ^ (w - 1) -> signed w x = Ret x.
Proof.
  intros Hx. unfold signed. destruct (Z.leb_spec (- 2 ^ (w - 1)) x), (Z.ltb_spec x (2 ^ (w - 1))); done || lia.
Qed.

Lemma int_ok x : INT_MIN <= x <= INT_MAX -> int x = Ret x.
Proof. intros Hx. apply signed_ok. lia. Qed.

Lemma llong_ok x : LLONG_MIN <= x <= LLONG_MAX -> llong x = Ret x.
Proof. intros Hx. apply signed_ok. lia. Qed.

(** A stateful C computation over a store [S]. *)
Definition cstate (S A : Type) : Type := S -> outcome (A * S).

#[export] Instance cstate_ret {S} : MRet (cstate S) := fun A a s => Ret (a, s).
#[export] Instance cstate_bind {S} : MBind (cstate S) := fun A B k m s =>
  match m s with Ret (a, s') => k a s' | Stuck f => Stuck f end.

Definition fails {S A} (f : fault) : cstate S A := fun _ => Stuck f.
Definition get {S} : cstate S S := fun s => Ret (s, s).
Definition gets {S A} (g : S -> A) : cstate S A := fun s => Ret (g s, s).
Definition put {S} (s : S) : cstate S unit := fun _ => Ret (tt, s).
Definition lift {S A} (o : outcome A) : cstate S A := fun s =>
  match o with Ret a => Ret (a, s) | Stuck f => Stuck f end.

Lemma cstate_bind_step {S A B} (m : cstate S A) (k : A -> cstate S B) s a s' :
  m s = Ret (a, s') -> (m ≫= k) s = k a s'.
Proof. intros E. unfold mbind, cstate_bind. by rewrite E. Qed.

Lemma cstate_bind_assoc {S A B C} (m : cstate S A) (k : A -> cstate S B) (h : B -> cstate S C) s :
  ((m ≫= k) ≫= h) s = (m ≫= (fun a => k a ≫= h)) s.
Proof. unfold mbind, cstate_bind. by destruct (m s) as [[]|]. Qed.

Lemma cstate_bind_inv {S A B} (m : cstate S A) (k : A -> cstate S B) s b s'' :
  (m ≫= k) s = Ret (b, s'') ->
  exists a s', m s = Ret (a, s') /\ k a s' = Ret (b, s'').
Proof.
  unfold mbind, cstate_bind. destruct (m s) as [[a s']|f] eqn:E; [eauto|done].
Qed.

(** ** Byte strings *)

Definition is_byte (b : Z) : Prop := 0 <= b < 256.
Definition bytes (l : list Z) : Prop := Forall is_byte l.

(** Big-endian (network order) image of [z] on [n] bytes, and its reading. *)
Fixpoint be_bytes (n : nat) (z : Z) : list Z :=
  match n with
  | O => []
  | S n' => u8 (Z.shiftr z (8 * Z.of_nat n')) :: be_bytes n' z
  end.

Definition be_value (l : list Z) : Z := fold_left (fun acc b => acc * 256 + b) l 0.

Lemma length_be_bytes n z : length (be_bytes n z) = n.
Proof. induction n; simpl; congruence. Qed.

Lemma be_bytes_bytes n z : bytes (be_bytes n z).
Proof.
  induction n; simpl; constructor; [|done].
  apply (wrap_bound 8). lia.
Qed.

Lemma be_value_fold l acc :
  fold_left (fun acc b => acc * 256 + b) l acc
  = acc * 256 ^ Z.of_nat (length l) + be_value l.
Proof.
  unfold be_value. revert acc. induction l as [|b l IH]; intros acc.
  { simpl. lia. }
  cbn [fold_left length]. rewrite IH, (IH (0 * 256 + b)).
  rewrite Nat2Z.inj_succ, Z.pow_succ_r by lia. nia.
Qed.

Lemma be_value_cons b l : be_value (b :: l) = b * 256 ^ Z.of_nat (length l) + be_value l.
Proof.
  replace (be_value (b :: l)) with (fold_left (fun acc b => acc * 256 + b) l b)
    by reflexivity.
  by rewrite be_value_fold.
Qed.

Lemma be_value_bytes n z : be_value (be_bytes n z) = z `mod` 256 ^ Z.of_nat n.
Proof.
  induction n as [|n IH].
  { cbn. by rewrite Z.mod_1_r. }
  cbn [be_bytes]. rewrite be_value_cons, IH, length_be_bytes.
  unfold wrap. rewrite Z.shiftr_div_pow2 by lia.
  replace (2 ^ (8 * Z.of_nat n)) with (256 ^ Z.of_nat n)
    by (rewrite Z.pow_mul_r by lia; reflexivity).
  change (2 ^ 8) with 256.
  rewrite Nat2Z.inj_succ, Z.pow_succ_r by lia.
  rewrite (Z.mul_comm 256).
  rewrite Z.rem_mul_r by lia. lia.
Qed.

Lemma be_value_bytes_small n z :
  0 <= z < 256 ^ Z.of_nat n -> be_value (be_bytes n z) = z.
Proof. intros H. rewrite be_value_bytes. by apply Z.mod_small. Qed.

Lemma be_value_bound l : bytes l -> 0 <= be_value l < 256 ^ Z.of_nat (length l).
Proof.
  induction 1 as [|b l Hb _ IH]; [done|].
  rewrite be_value_cons. cbn [length]. rewrite Nat2Z.inj_succ, Z.pow_succ_r by lia.
  unfold is_byte in Hb. nia.
Qed.

(** [memset(dst, 0, n)], [memcpy(dst, src, n)] and [memcmp(a, b, n) == 0]; a count past
    the end of an operand is undefined. *)
Definition memset0 (dst : list Z) (n : Z) : outcome (list Z) :=
  if Z.of_nat (length dst) <? n then Stuck OutOfBounds
  else Ret (replicate (Z.to_nat n) 0 ++ drop (Z.to_nat n) dst).

Definition memcpy (dst src : list Z) (n : Z) : outcome (list Z) :=
  if (Z.of_nat (length dst) <? n) || (Z.of_nat (length src) <? n) then Stuck OutOfBounds
  else Ret (take (Z.to_nat n) src ++ drop (Z.to_nat n) dst).

Definition memeq (a b : list Z) (n : Z) : outcome bool :=
  if (Z.of_nat (length a) <? n) || (Z.of_nat (length b) <? n) then Stuck OutOfBounds
  else Ret (bool_decide (take (Z.to_nat n) a = take (Z.to_nat n) b)).

Lemma memset0_ok dst n :
  n <= Z.of_nat (length dst) ->
  memset0 dst n = Ret (replicate (Z.to_nat n) 0 ++ drop (Z.to_nat n) dst).
Proof. intros H. unfold memset0. by destruct (Z.ltb_spec (Z.of_nat (length dst)) n); [lia|]. Qed.

Lemma memcpy_ok dst src n :
  n <= Z.of_nat (length dst) -> n <= Z.of_nat (length src) ->
  memcpy dst src n = Ret (take (Z.to_nat n) src ++ drop (Z.to_nat n) dst).
Proof.
  intros H1 H2. unfold memcpy.
  destruct (Z.ltb_spec (Z.of_nat (length dst)) n); [lia|].
  by destruct (Z.ltb_spec (Z.of_nat (length src)) n); [lia|].
Qed.

Lemma memeq_ok a b n :
  n <= Z.of_nat (length a) -> n <= Z.of_nat (length b) ->
  memeq a b n = Ret (bool_decide (take (Z.to_nat n) a = take (Z.to_nat n) b)).
Proof.
  intros H1 H2. unfold memeq.
  destruct (Z.ltb_spec (Z.of_nat (length a)) n); [lia|].
  by destruct (Z.ltb_spec (Z.of_nat (length b)) n); [lia|].
Qed.

(** ** Lists *)

Lemma list_lookup_insert_spec {A} (l : list A) i j x :
  (i < length l)%nat ->
  <[i:=x]> l !! j = if decide (i = j) then Some x else l !! j.
Proof.
  intros Hi. case_decide as E.
  - subst. by apply list_lookup_insert_eq.
  - by apply list_lookup_insert_ne.
Qed.

(** First element that passes a test, as a C search loop returns it. *)
Fixpoint find_first {A} (p : A -> bool) (l : list A) : option A :=
  match l with
  | [] => None
  | x :: l' => if p x then Some x else find_first p l'
  end.

Lemma find_first_Some {A} (p : A -> bool) l x :
  find_first p l = Some x -> p x = true /\ x ∈ l.
Proof.
  induction l as [|y l IH]; simpl; [done|].
  destruct (p y) eqn:E; intros H; simplify_eq.
  - split; [done|left].
  - destruct (IH H). split; [done|by right].
Qed.

Lemma find_first_None {A} (p : A -> bool) l :
  find_first p l = None <-> forall x, x ∈ l -> p x = false.
Proof.
  split.
  - induction l as [|y l IH]; simpl; intros H x Hx; [by apply not_elem_of_nil in Hx|].
    destruct (p y) eqn:E; [done|].
    apply elem_of_cons in Hx as [->|Hx]; auto.
  - induction l as [|y l IH]; simpl; intros H; [done|].
    rewrite H by left. apply IH. intros x Hx. apply H. by right.
Qed.

(** The same search with the position of the hit. *)
Fixpoint find_pos {A} (p : A -> bool) (l : list A) : option (nat * A) :=
  match l with
  | [] => None
  | x :: l' => if p x then Some (O, x)
               else (fun y => (S y.1, y.2)) <$> find_pos p l'
  end.

Lemma find_first_pos {A} (p : A -> bool) l : find_first p l = snd <$> find_pos p l.
Proof.
  induction l as [|x l IH]; simpl; [done|]. destruct (p x); [done|].
  rewrite IH. by destruct (find_pos p l).
Qed.

Lemma find_pos_Some {A} (p : A -> bool) l i x :
  find_pos p l = Some (i, x) -> l !! i = Some x /\ p x = true.
Proof.
  revert i. induction l as [|y l IH]; intros i; simpl; [done|].
  destruct (p y) eqn:E; intros H; simplify_eq; [done|].
  destruct (find_pos p l) as [[j z]|]; simplify_eq/=. by apply IH.
Qed.

Lemma find_first_fmap {A B} (f : A -> B) (p : B -> bool) l :
  find_first p (f <$> l) = f <$> find_first (fun x => p (f x)) l.
Proof. induction l as [|x l IH]; simpl; [done|]. by destruct (p (f x)). Qed.

Lemma find_pos_first {A} (p : A -> bool) l i x j y :
  find_pos p l = Some (i, x) -> (j < i)%nat -> l !! j = Some y -> p y = false.
Proof.
  revert i j. induction l as [|z l IH]; intros i j; simpl; [done|].
  destruct (p z) eqn:E; intros H Hj Hy; simplify_eq; [lia|].
  destruct (find_pos p l) as [[k w]|]; simplify_eq/=.
  destruct j as [|j]; simplify_eq/=; [done|]. eapply (IH k j); [done|lia|done].
Qed.

Lemma find_pos_unique {A} (p : A -> bool) l i x :
  l !! i = Some x -> p x = true ->
  (forall j y, l !! j = Some y -> p y = true -> j = i) -> find_pos p l = Some (i, x).
Proof.
  intros Hi Hx Hu. destruct (find_pos p l) as [[j y]|] eqn:E.
  - apply find_pos_Some in E as [Hj Hy]. assert (j = i) as -> by eauto. congruence.
  - exfalso. destruct (find_pos p l) eqn:E'; [done|].
    assert (forall z, z ∈ l -> p z = false) as Hn.
    { clear -E'. induction l as [|z l IH]; intros w Hw; [by apply not_elem_of_nil in Hw|].
      simpl in E'. destruct (p z) eqn:Ez; [done|].
      apply elem_of_cons in Hw as [->|Hw]; [done|]. apply IH; [|done].
      by destruct (find_pos p l). }
    rewrite (Hn x) in Hx; [done|]. by eapply list_elem_of_lookup_2.
Qed.

Lemma find_pos_fmap {A B} (f : A -> B) (p : B -> bool) l :
  find_pos p (f <$> l) = (fun y => (y.1, f y.2)) <$> find_pos (fun x => p (f x)) l.
Proof.
  induction l as [|x l IH]; csimpl; [done|]. destruct (p (f x)); csimpl; [done|].
  rewrite IH. by destruct (find_pos _ l).
Qed.

Lemma find_first_ext {A} (p q : A -> bool) l :
  (forall x, x ∈ l -> p x = q x) -> find_first p l = find_first q l.
Proof.
  induction l as [|x l IH]; intros H; simpl; [done|].
  rewrite (H x) by left. destruct (q x); [done|]. apply IH. intros y Hy. apply H. by right.
Qed.

Lemma find_pos_None {A} (p : A -> bool) l :
  find_pos p l = None <-> forall x, x ∈ l -> p x = false.
Proof.
  rewrite <- find_first_None, find_first_pos. by destruct (find_pos p l).
Qed.

Lemma filter_all {A} (P : A -> Prop) `{!forall x, Decision (P x)} l :
  Forall P l -> filter P l = l.
Proof. induction 1; [done|]. rewrite filter_cons, decide_True by done. by f_equal. Qed.

Lemma filter_none {A} (P : A -> Prop) `{!forall x, Decision (P x)} l :
  (forall x, x ∈ l -> ~ P x) -> filter P l = [].
Proof.
  induction l as [|x l IH]; intros Hl; [done|].
  rewrite filter_cons_False by (apply Hl; left). apply IH. intros y Hy. apply Hl. by right.
Qed.

(** Removal that moves the last element into the hole. *)
Definition swap_remove {A} (i : nat) (l : list A) : list A :=
  match last l with
  | Some z => take (length l - 1) (<[i := z]> l)
  | None => []
  end.

Lemma swap_remove_lookup {A} (l : list A) i j :
  (i < length l)%nat ->
  swap_remove i l !! j
  = if decide (j < length l - 1)%nat
    then if decide (i = j) then l !! (length l - 1)%nat else l !! j
    else None.
Proof.
  intros Hi. unfold swap_remove. rewrite last_lookup.
  replace (pred (length l)) with (length l - 1)%nat by lia.
  destruct (lookup_lt_is_Some_2 l (length l - 1)) as [z Hz]; [lia|].
  rewrite Hz. case_decide as E.
  - rewrite lookup_take_lt by done. by rewrite list_lookup_insert_spec by done.
  - by rewrite lookup_take_ge by lia.
Qed.

Lemma length_swap_remove {A} (l : list A) i :
  length (swap_remove i l) = (length l - 1)%nat.
Proof.
  unfold swap_remove. destruct (last l) eqn:E.
  - rewrite length_take, length_insert. lia.
  - apply last_None in E. by subst.
Qed.

Lemma swap_remove_perm {A} (l : list A) i x :
  l !! i = Some x -> x :: swap_remove i l ≡ₚ l.
Proof.
  intros (l1 & l2 & -> & ->)%list_elem_of_split_length. unfold swap_remove.
  destruct l2 as [|z l2 _] using rev_ind.
  - rewrite last_snoc, insert_app_r_alt by lia. rewrite Nat.sub_diag, length_app. simpl.
    rewrite Nat.add_sub, take_app_length. apply Permutation_cons_append.
  - rewrite app_comm_cons, app_assoc, last_snoc.
    rewrite insert_app_l by (rewrite length_app; simpl; lia).
    rewrite insert_app_r_alt by lia. rewrite Nat.sub_diag, !length_app. cbn [insert list_insert].
    rewrite take_app_le by (rewrite !length_app; simpl; lia).
    rewrite take_ge by (rewrite !length_app; simpl; lia).
    rewrite <- app_assoc, <- app_comm_cons.
    etransitivity; [apply Permutation_middle|]. apply Permutation_app_head. constructor.
    apply Permutation_cons_append.
Qed.

#[export] Hint Resolve length_be_bytes be_bytes_bytes : clist.
