(* ===== verification/LcMem.v ===== *)
(** * Memory of the group tables

    The structures of lib/bf.h and lib/bf-gdt.h, the heap that holds them and
    the allocator interface.  A pointer is [option nat]: [None] is NULL, [Some b]
    the base address of block [b].  [malloc]/[kmalloc] are not code of the
    repository: the section variable [alloc] says, for the n-th allocation,
    whether it succeeds and what bytes the fresh memory holds. *)
From S2P Require Import Prelude.

Local Open Scope Z_scope.

(** The two entries of the [hashFunctions] table of lib/bf.c: a function pointer
    is the name of the function it points to. *)
Inductive hashfunc := SAX | SDBM.

#[export] Instance hashfunc_eq_dec : EqDecision hashfunc.
Proof. solve_decision. Defined.

Definition ptr : Type := option nat.

(** lib/bf.h:43, [struct bloom_filter]. *)
Record bloom_filter := MkBf {
  bf_id : Z;
  len : Z;
  port_no : Z;
  array : list Z;      (* u8 array[128] *)
  nfuncs : Z;
  funcs : ptr
}.

(** lib/bf-gdt.h:35, [struct bf_gdt]. *)
Record bf_gdt := MkGdt {
  gid : Z;
  nbf : Z;
  bf_array : ptr
}.

Definition SIZE_CHAR : Z := 8.
Definition LC_BF_DFT_LEN : Z := 1024.
Definition LC_BF_LOCAL_ID : Z := 0xc0a8390a.
Definition LC_BF_LOCAL_PORT : Z := 0xfffe.
Definition LC_BF_REMOTE_PORT : Z := 1.
Definition BF_GDT_MAX_FILTERS : Z := 64.
Definition LC_GROUP_DFT_ID : Z := 0.

(** Bytes in the embedded array, and its offset in [struct bloom_filter]
    (two [u32] and a [u16] come first). *)
Definition ARRAY_BYTES : nat := 128.
Definition OFFSET_ARRAY : Z := 10.

Definition set_array (bf : bloom_filter) (a : list Z) : bloom_filter :=
  MkBf (bf_id bf) (len bf) (port_no bf) a (nfuncs bf) (funcs bf).
Definition set_len (bf : bloom_filter) (l : Z) : bloom_filter :=
  MkBf (bf_id bf) l (port_no bf) (array bf) (nfuncs bf) (funcs bf).
Definition set_port_no (bf : bloom_filter) (p : Z) : bloom_filter :=
  MkBf (bf_id bf) (len bf) p (array bf) (nfuncs bf) (funcs bf).

Inductive block :=
  | BFilter (bf : bloom_filter)
  | BFuncs (fs : list (option hashfunc))   (* None: not yet assigned *)
  | BGdt (g : bf_gdt)
  | BPtrs (ps : list ptr).

Record mem := MkMem { m_next : nat; m_heap : gmap nat block }.

Definition mem_empty : mem := MkMem 0 ∅.

(** Every live block was handed out by an earlier allocation. *)
Definition mem_wf (m : mem) : Prop :=
  forall b, is_Some (m_heap m !! b) -> (b < m_next m)%nat.

Definition upd (m : mem) (b : nat) (k : block) : mem :=
  MkMem (m_next m) (<[b := k]> (m_heap m)).

Section Alloc.
Context (alloc : nat -> option (nat -> Z)).

(** [malloc(sizeof ...)]: [k] lays the fresh bytes out as a block. *)
Definition malloc (k : (nat -> Z) -> block) : cstate mem ptr := fun m =>
  match alloc (m_next m) with
  | None => Ret (None, MkMem (S (m_next m)) (m_heap m))
  | Some junk =>
      Ret (Some (m_next m),
           MkMem (S (m_next m)) (<[m_next m := k junk]> (m_heap m)))
  end.
End Alloc.

Lemma malloc_ok alloc k m junk :
  alloc (m_next m) = Some junk ->
  malloc alloc k m
  = Ret (Some (m_next m), MkMem (S (m_next m)) (<[m_next m := k junk]> (m_heap m))).
Proof. intros H. unfold malloc. by rewrite H. Qed.

Lemma malloc_fail alloc k m :
  alloc (m_next m) = None ->
  malloc alloc k m = Ret (None, MkMem (S (m_next m)) (m_heap m)).
Proof. intros H. unfold malloc. by rewrite H. Qed.

Definition fresh_array (junk : nat -> Z) : list Z :=
  map (fun i => u8 (junk i)) (seq 0 ARRAY_BYTES).

(** [free(p)] of an address given as block and byte offset. *)
Definition free (a : option (nat * Z)) : cstate mem unit := fun m =>
  match a with
  | None => Ret (tt, m)
  | Some (b, off) =>
      match m_heap m !! b with
      | Some _ =>
          if off =? 0 then Ret (tt, MkMem (m_next m) (delete b (m_heap m)))
          else Stuck InvalidFree
      | None => Stuck InvalidFree
      end
  end.

Definition base (p : ptr) : option (nat * Z) := (fun b => (b, 0)) <$> p.

Definition deref {A} (sel : block -> option A) (p : ptr) : cstate mem A := fun m =>
  match p with
  | None => Stuck NullDeref
  | Some b =>
      match m_heap m !! b ≫= sel with
      | Some a => Ret (a, m)
      | None => Stuck DanglingPtr
      end
  end.

Definition load_filter : ptr -> cstate mem bloom_filter :=
  deref (fun k => match k with BFilter bf => Some bf | _ => None end).
Definition load_funcs : ptr -> cstate mem (list (option hashfunc)) :=
  deref (fun k => match k with BFuncs f => Some f | _ => None end).
Definition load_gdt : ptr -> cstate mem bf_gdt :=
  deref (fun k => match k with BGdt g => Some g | _ => None end).
Definition load_ptrs : ptr -> cstate mem (list ptr) :=
  deref (fun k => match k with BPtrs ps => Some ps | _ => None end).

Definition store (p : ptr) (k : block) : cstate mem unit := fun m =>
  match p with
  | None => Stuck NullDeref
  | Some b =>
      match m_heap m !! b with
      | Some _ => Ret (tt, upd m b k)
      | None => Stuck DanglingPtr
      end
  end.

(** ** Stepping lemmas *)

Lemma load_filter_ok m b bf :
  m_heap m !! b = Some (BFilter bf) -> load_filter (Some b) m = Ret (bf, m).
Proof. intros H. unfold load_filter, deref. by rewrite H. Qed.

Lemma load_funcs_ok m b fs :
  m_heap m !! b = Some (BFuncs fs) -> load_funcs (Some b) m = Ret (fs, m).
Proof. intros H. unfold load_funcs, deref. by rewrite H. Qed.

Lemma load_gdt_ok m b g :
  m_heap m !! b = Some (BGdt g) -> load_gdt (Some b) m = Ret (g, m).
Proof. intros H. unfold load_gdt, deref. by rewrite H. Qed.

Lemma load_ptrs_ok m b ps :
  m_heap m !! b = Some (BPtrs ps) -> load_ptrs (Some b) m = Ret (ps, m).
Proof. intros H. unfold load_ptrs, deref. by rewrite H. Qed.

Lemma store_ok m b k k' :
  m_heap m !! b = Some k' -> store (Some b) k m = Ret (tt, upd m b k).
Proof. intros H. unfold store. by rewrite H. Qed.

Lemma upd_heap m b k : m_heap (upd m b k) = <[b := k]> (m_heap m).
Proof. done. Qed.

Lemma upd_wf m b k : mem_wf m -> is_Some (m_heap m !! b) -> mem_wf (upd m b k).
Proof.
  intros Hw Hb b' Hb'. simpl in *. destruct (decide (b = b')) as [->|Hne].
  - by apply Hw.
  - rewrite lookup_insert_ne in Hb' by done. by apply Hw.
Qed.

Lemma mem_wf_fresh m : mem_wf m -> m_heap m !! m_next m = None.
Proof.
  intros Hw. destruct (m_heap m !! m_next m) eqn:E; [|done].
  specialize (Hw (m_next m)). rewrite E in Hw. pose proof (Hw ltac:(eauto)). lia.
Qed.

Lemma mem_wf_grow m b k :
  mem_wf m -> b = m_next m -> mem_wf (MkMem (S (m_next m)) (<[b := k]> (m_heap m))).
Proof.
  intros Hw -> b' Hb'. simpl in *. destruct (decide (m_next m = b')) as [->|Hne]; [lia|].
  rewrite lookup_insert_ne in Hb' by done. specialize (Hw _ Hb'). lia.
Qed.

Lemma length_fresh_array junk : length (fresh_array junk) = ARRAY_BYTES.
Proof. unfold fresh_array. by rewrite length_map, length_seq. Qed.

Lemma fresh_array_bytes junk : bytes (fresh_array junk).
Proof.
  unfold fresh_array, bytes. apply Forall_map, Forall_true. intros i.
  apply (wrap_bound 8). lia.
Qed.

(** Run one load or store whose target is known. *)
Ltac mem_step :=
  first
    [ erewrite cstate_bind_step; [| first [ by apply load_filter_ok; eauto
                                           | by apply load_funcs_ok; eauto
                                           | by apply load_gdt_ok; eauto
                                           | by apply load_ptrs_ok; eauto
                                           | by eapply store_ok; eauto ]]
    | done ].
