(* ===== verification/Bloom.v ===== *)
(** * Bloom filters (lib/bf.c)

    The two string hashes, the bit-array macros and the operations on one
    [struct bloom_filter] living in the heap of [LcMem].  The theorems are the
    absence of false negatives and the exact membership test. *)
From S2P Require Import Prelude LcMem.

Local Open Scope Z_scope.

(** ** Definitions *)

(** [while (key[0]) h ^= (h<<5)+(h>>2)+(unsigned char) key[0], key++;] A key is the byte
    sequence before its terminating NUL. *)
Fixpoint sax_from (h : Z) (key : list Z) : Z :=
  match key with
  | [] => h
  | c :: key' =>
      if c =? 0 then h
      else sax_from (h ^^ ((h << 5) + (h >> 2) + c))%C key'
  end.
Definition sax_hash (key : list Z) : Z := sax_from 0 key.

(** [while (key[0]) h = (unsigned char) key[0], key++ + (h<<6) + (h<<16) - h;] *)
Fixpoint sdbm_from (h : Z) (key : list Z) : Z :=
  match key with
  | [] => h
  | c :: key' =>
      if c =? 0 then h
      else sdbm_from (c + (h << 6) + (h << 16) - h)%C key'
  end.
Definition sdbm_hash (key : list Z) : Z := sdbm_from 0 key.

Definition hashFunctions : list hashfunc := [SAX; SDBM].

Definition run_hash (f : hashfunc) (key : list Z) : Z :=
  match f with SAX => sax_hash key | SDBM => sdbm_hash key end.

Definition SETBIT (a : list Z) (i : Z) : outcome (list Z) :=
  match a !! Z.to_nat (i / SIZE_CHAR) with
  | Some b => Ret (<[Z.to_nat (i / SIZE_CHAR) :=
                     Z.lor b (Z.shiftl 1 (i `mod` SIZE_CHAR))]> a)
  | None => Stuck OutOfBounds
  end.

Definition GETBIT (a : list Z) (i : Z) : outcome Z :=
  match a !! Z.to_nat (i / SIZE_CHAR) with
  | Some b => Ret (Z.land b (Z.shiftl 1 (i `mod` SIZE_CHAR)))
  | None => Stuck OutOfBounds
  end.

(** [bf->funcs[i](s) % bf->len] *)
Definition bit_index (fs : list (option hashfunc)) (i : nat) (key : list Z) (l : Z)
  : outcome Z :=
  match fs !! i with
  | Some (Some f) => if l =? 0 then Stuck DivideByZero else Ret (run_hash f key `mod` l)
  | _ => Stuck OutOfBounds
  end.

Section Create.
Context (alloc : nat -> option (nat -> Z)).

Definition bf_create (id l port nf : Z) : cstate mem ptr :=
  bf ← malloc alloc (fun junk => BFilter (MkBf 0 0 0 (fresh_array junk) 0 None));
  match bf with
  | None => mret None
  | Some b =>
      fp ← malloc alloc (fun _ => BFuncs (replicate (Z.to_nat nf) None));
      match fp with
      | None =>
          _ ← free (Some (b, OFFSET_ARRAY));   (* free(bf->array) *)
          _ ← free (base bf);
          mret None
      | Some _ =>
          fs ← lift (mapM (fun i => of_option OutOfBounds (hashFunctions !! i))
                          (seq 0 (Z.to_nat nf)));
          _ ← store fp (BFuncs (Some <$> fs));
          x ← load_filter bf;
          a ← lift (memset0 (array x) (l / SIZE_CHAR));
          _ ← store bf (BFilter (MkBf id l port a nf fp));
          mret bf
      end
  end.
End Create.

Definition bf_destroy (bf : ptr) : cstate mem Z :=
  match bf with
  | None => fails NullDeref
  | Some b =>
      _ ← free (Some (b, OFFSET_ARRAY));         (* free(bf->array) *)
      x ← load_filter bf;
      _ ← free (base (funcs x));
      _ ← free (base bf);
      mret 0
  end.

Fixpoint bf_add_loop (bf : ptr) (key : list Z) (n i : nat) : cstate mem Z :=
  match n with
  | O => mret 0
  | S n' =>
      x ← load_filter bf;
      fs ← load_funcs (funcs x);
      k ← lift (bit_index fs i key (len x));
      a ← lift (SETBIT (array x) k);
      _ ← store bf (BFilter (set_array x a));
      bf_add_loop bf key n' (S i)
  end.

Definition bf_add (bf : ptr) (key : list Z) : cstate mem Z :=
  match bf with
  | None => mret (-1)
  | Some _ => x ← load_filter bf; bf_add_loop bf key (Z.to_nat (nfuncs x)) 0
  end.

Fixpoint bf_check_loop (bf : ptr) (key : list Z) (n i : nat) : cstate mem Z :=
  match n with
  | O => mret 1
  | S n' =>
      x ← load_filter bf;
      fs ← load_funcs (funcs x);
      k ← lift (bit_index fs i key (len x));
      g ← lift (GETBIT (array x) k);
      if g =? 0 then mret 0 else bf_check_loop bf key n' (S i)
  end.

(** [bf->array] is an embedded array: the second test of the guard never holds. *)
Definition bf_check (bf : ptr) (key : list Z) : cstate mem Z :=
  match bf with
  | None => mret 0
  | Some _ => x ← load_filter bf; bf_check_loop bf key (Z.to_nat (nfuncs x)) 0
  end.

Definition bf_set_array (bf : ptr) (src : option (list Z)) (l : Z) : cstate mem Z :=
  match bf, src with
  | Some _, Some src =>
      x ← load_filter bf;
      a ← lift (memcpy (array x) src (u32 (l + SIZE_CHAR - 1) / SIZE_CHAR));
      _ ← store bf (BFilter (set_len (set_array x a) l));
      mret 0
  | _, _ => mret (-1)
  end.

(** A client that records a sequence of keys. *)
Fixpoint bf_add_all (bf : ptr) (keys : list (list Z)) : cstate mem unit :=
  match keys with
  | [] => mret tt
  | k :: keys' => _ ← bf_add bf k; bf_add_all bf keys'
  end.

(** ** Bits of a byte array *)

Definition bit_at (a : list Z) (i : Z) : bool :=
  match a !! Z.to_nat (i / 8) with Some b => Z.testbit b (i `mod` 8) | None => false end.

Definition set_bit (a : list Z) (i : Z) : list Z :=
  match a !! Z.to_nat (i / 8) with
  | Some b => <[Z.to_nat (i / 8) := Z.lor b (Z.shiftl 1 (i `mod` 8))]> a
  | None => a
  end.

Definition in_array (a : list Z) (i : Z) : Prop := 0 <= i < 8 * Z.of_nat (length a).

Lemma in_array_lookup a i : in_array a i -> is_Some (a !! Z.to_nat (i / 8)).
Proof.
  intros [H0 H1]. apply lookup_lt_is_Some_2.
  apply Z.div_lt_upper_bound in H1; [|lia].
  pose proof (Z.div_pos i 8 H0 ltac:(lia)). lia.
Qed.

Lemma SETBIT_ok a i : in_array a i -> SETBIT a i = Ret (set_bit a i).
Proof.
  intros H. unfold SETBIT, set_bit, SIZE_CHAR.
  by destruct (in_array_lookup _ _ H) as [b ->].
Qed.

Lemma testbit_pow2 k j : 0 <= k -> Z.testbit (Z.shiftl 1 k) j = bool_decide (k = j).
Proof.
  intros Hk. rewrite Z.shiftl_1_l. case_bool_decide as E.
  - subst. by apply Z.pow2_bits_true.
  - by apply Z.pow2_bits_false.
Qed.

Lemma land_pow2_eqb b k : 0 <= k -> (Z.land b (Z.shiftl 1 k) =? 0) = negb (Z.testbit b k).
Proof.
  intros Hk. destruct (Z.testbit b k) eqn:E; simpl.
  - apply Z.eqb_neq. intros H. apply (f_equal (fun z => Z.testbit z k)) in H.
    rewrite Z.land_spec, testbit_pow2, E, Z.bits_0 in H by done.
    by rewrite bool_decide_true in H.
  - apply Z.eqb_eq, Z.bits_inj. intros j. rewrite Z.land_spec, testbit_pow2, Z.bits_0 by done.
    case_bool_decide as D; [subst; by rewrite E|by rewrite andb_false_r].
Qed.

Lemma GETBIT_ok a i :
  in_array a i -> exists g, GETBIT a i = Ret g /\ (g =? 0) = negb (bit_at a i).
Proof.
  intros H. unfold GETBIT, bit_at, SIZE_CHAR.
  destruct (in_array_lookup _ _ H) as [b ->]. eexists. split; [done|].
  apply land_pow2_eqb. apply Z.mod_pos_bound. lia.
Qed.

Lemma length_set_bit a i : length (set_bit a i) = length a.
Proof. unfold set_bit. case_match; [apply length_insert|done]. Qed.

Lemma div_mod_8_inj i j : i / 8 = j / 8 -> i `mod` 8 = j `mod` 8 -> i = j.
Proof. intros. rewrite (Z.div_mod i 8), (Z.div_mod j 8) by lia. congruence. Qed.

Lemma bit_at_set_bit a i j :
  in_array a i -> 0 <= j -> bit_at (set_bit a i) j = bool_decide (i = j) || bit_at a j.
Proof.
  intros H Hj. unfold bit_at, set_bit. destruct (in_array_lookup _ _ H) as [b Hb].
  rewrite Hb, list_lookup_insert_spec by (by apply lookup_lt_Some in Hb).
  pose proof (Z.div_pos i 8 (proj1 H) ltac:(lia)) as Hi8.
  pose proof (Z.div_pos j 8 Hj ltac:(lia)) as Hj8.
  case_decide as E.
  - assert (i / 8 = j / 8) as E' by lia. rewrite <- E, Hb.
    rewrite Z.lor_spec, testbit_pow2 by (apply Z.mod_pos_bound; lia).
    rewrite orb_comm. f_equal. apply bool_decide_ext. split; intros D; [|by subst].
    by apply div_mod_8_inj.
  - rewrite bool_decide_false by (intros ->; done). done.
Qed.

Lemma set_bit_bytes a i : in_array a i -> bytes a -> bytes (set_bit a i).
Proof.
  intros H Ha. unfold set_bit. destruct (in_array_lookup _ _ H) as [b Hb]. rewrite Hb.
  apply Forall_insert; [done|].
  assert (is_byte b) as Hby by (by eapply Forall_lookup_1 in Hb).
  pose proof (Z.mod_pos_bound i 8 ltac:(lia)) as Hm.
  unfold is_byte in *. change 256 with (2 ^ 8) in *. split.
  - apply Z.lor_nonneg. split; [lia|]. by apply Z.shiftl_nonneg.
  - destruct (Z.eq_dec b 0) as [->|Hn].
    { rewrite Z.lor_0_l, Z.shiftl_1_l. apply Z.pow_lt_mono_r; lia. }
    apply Z.log2_lt_pow2.
    { assert (0 <= Z.lor b (Z.shiftl 1 (i `mod` 8))) by
        (apply Z.lor_nonneg; split; [lia|by apply Z.shiftl_nonneg]).
      assert (Z.lor b (Z.shiftl 1 (i `mod` 8)) <> 0); [|lia].
      intros E. apply Z.lor_eq_0_iff in E. lia. }
    rewrite Z.log2_lor by (try apply Z.shiftl_nonneg; lia).
    rewrite Z.shiftl_1_l, Z.log2_pow2 by lia.
    apply Z.max_lub_lt; [|lia]. apply Z.log2_lt_pow2; lia.
Qed.

(** ** The filter as the code keeps it *)

(** A live filter: 128 bytes, at most 1024 bits in use, both hash functions. *)
Record filter_ok (m : mem) (b : nat) (x : bloom_filter) : Prop := {
  fo_at : m_heap m !! b = Some (BFilter x);
  fo_len : 0 < len x <= LC_BF_DFT_LEN;
  fo_bytes : bytes (array x);
  fo_size : length (array x) = ARRAY_BYTES;
  fo_nfuncs : nfuncs x = 2;
  fo_funcs : exists f, funcs x = Some f /\
               m_heap m !! f = Some (BFuncs (Some <$> hashFunctions))
}.

(** The bit a hash selects, the array after a key is recorded, and the
    membership test, as pure functions of length and array. *)
Definition key_bit (l : Z) (f : hashfunc) (key : list Z) : Z := run_hash f key `mod` l.
Definition insert_key (l : Z) (a : list Z) (key : list Z) : list Z :=
  set_bit (set_bit a (key_bit l SAX key)) (key_bit l SDBM key).
Definition has_key (l : Z) (a : list Z) (key : list Z) : bool :=
  bit_at a (key_bit l SAX key) && bit_at a (key_bit l SDBM key).
Definition insert_keys (l : Z) (a : list Z) (keys : list (list Z)) : list Z :=
  fold_left (insert_key l) keys a.

Lemma key_bit_nonneg l f key : 0 < l -> 0 <= key_bit l f key.
Proof. intros H. by apply Z.mod_pos_bound. Qed.

Lemma key_bit_in l f key a :
  0 < l <= LC_BF_DFT_LEN -> length a = ARRAY_BYTES -> in_array a (key_bit l f key).
Proof.
  intros Hl Ha. unfold in_array, key_bit. rewrite Ha.
  pose proof (Z.mod_pos_bound (run_hash f key) l ltac:(lia)).
  unfold LC_BF_DFT_LEN, ARRAY_BYTES in *. lia.
Qed.

Lemma length_insert_key l a key : length (insert_key l a key) = length a.
Proof. unfold insert_key. by rewrite !length_set_bit. Qed.

Lemma length_insert_keys l keys a : length (insert_keys l a keys) = length a.
Proof.
  revert a. induction keys as [|k keys IH]; intros a; [done|].
  unfold insert_keys in *. simpl. by rewrite IH, length_insert_key.
Qed.

Lemma insert_key_bytes l a key :
  0 < l <= LC_BF_DFT_LEN -> length a = ARRAY_BYTES -> bytes a -> bytes (insert_key l a key).
Proof.
  intros Hl Ha Hb. unfold insert_key.
  apply set_bit_bytes; [apply key_bit_in; [done|by rewrite length_set_bit]|].
  apply set_bit_bytes; [by apply key_bit_in|done].
Qed.

Lemma insert_keys_bytes l keys a :
  0 < l <= LC_BF_DFT_LEN -> length a = ARRAY_BYTES -> bytes a -> bytes (insert_keys l a keys).
Proof.
  intros Hl. revert a. induction keys as [|k ks IH]; intros a Hs Ha; [done|].
  apply IH; [by rewrite length_insert_key|by apply insert_key_bytes].
Qed.

Lemma bit_at_insert_key l a key j :
  0 < l <= LC_BF_DFT_LEN -> length a = ARRAY_BYTES -> 0 <= j ->
  bit_at (insert_key l a key) j
  = bool_decide (key_bit l SAX key = j \/ key_bit l SDBM key = j) || bit_at a j.
Proof.
  intros Hl Ha Hj. unfold insert_key.
  rewrite bit_at_set_bit; [|apply key_bit_in; [done|by rewrite length_set_bit]|done].
  rewrite bit_at_set_bit; [|by apply key_bit_in|done].
  rewrite bool_decide_or, orb_assoc. f_equal. apply orb_comm.
Qed.

Lemma bit_at_insert_keys l keys a j :
  0 < l <= LC_BF_DFT_LEN -> length a = ARRAY_BYTES -> 0 <= j ->
  bit_at (insert_keys l a keys) j = true <->
  bit_at a j = true \/ exists t f, t ∈ keys /\ key_bit l f t = j.
Proof.
  intros Hl. revert a. induction keys as [|k keys IH]; intros a Ha Hj;
    [|change (insert_keys l a (k :: keys)) with (insert_keys l (insert_key l a k) keys)].
  { simpl. split; [auto|intros [?|(t & f & Ht & _)]; [done|]]. by apply not_elem_of_nil in Ht. }
  rewrite IH by (try rewrite length_insert_key; done).
  rewrite bit_at_insert_key, orb_true_iff, bool_decide_eq_true by done.
  split.
  - intros [[[E|E]|E]|(t & f & Ht & E)].
    + right. exists k, SAX. split; [by left|done].
    + right. exists k, SDBM. split; [by left|done].
    + by left.
    + right. exists t, f. split; [by right|done].
  - intros [E|(t & f & Ht & E)]; [by left; right|].
    apply elem_of_cons in Ht as [->|Ht]; [|right; eauto].
    left; left. destruct f; auto.
Qed.

(** *** Running the operations *)

Lemma filter_ok_set m b x a :
  filter_ok m b x -> bytes a -> length a = ARRAY_BYTES ->
  filter_ok (upd m b (BFilter (set_array x a))) b (set_array x a).
Proof.
  intros [Hat Hl Hb Hs Hn (f & Hf & Hfs)] Ha Hla. split; try done; simpl.
  - apply lookup_insert_eq.
  - exists f. split; [done|]. rewrite lookup_insert_ne; [done|]. congruence.
Qed.

Lemma has_key_insert l a key k :
  0 < l <= LC_BF_DFT_LEN -> length a = ARRAY_BYTES ->
  has_key l (insert_key l a key) k = true <->
  has_key l a k = true
  \/ ((key_bit l SAX key = key_bit l SAX k \/ key_bit l SDBM key = key_bit l SAX k
        \/ bit_at a (key_bit l SAX k) = true)
      /\ (key_bit l SAX key = key_bit l SDBM k \/ key_bit l SDBM key = key_bit l SDBM k
          \/ bit_at a (key_bit l SDBM k) = true)).
Proof.
  intros Hl Ha. unfold has_key.
  rewrite !bit_at_insert_key by (done || (apply key_bit_nonneg; lia)).
  rewrite !andb_true_iff, !orb_true_iff, !bool_decide_eq_true. tauto.
Qed.

Lemma has_key_insert_self l a key :
  0 < l <= LC_BF_DFT_LEN -> length a = ARRAY_BYTES -> has_key l (insert_key l a key) key = true.
Proof. intros Hl Ha. apply (has_key_insert l a key key Hl Ha). right. split; [by left|by right; left]. Qed.

(** Inclusion of bit arrays. *)
Definition sub_bits (a b : list Z) : Prop :=
  forall j, 0 <= j -> bit_at a j = true -> bit_at b j = true.

#[export] Instance sub_bits_preorder : PreOrder sub_bits.
Proof. split; [by intros a j|intros a b c H1 H2 j Hj H; auto]. Qed.

Lemma sub_bits_insert l a key :
  0 < l <= LC_BF_DFT_LEN -> length a = ARRAY_BYTES -> sub_bits a (insert_key l a key).
Proof.
  intros Hl Ha j Hj H. rewrite bit_at_insert_key by done. by rewrite H, orb_true_r.
Qed.

Lemma has_key_sub l a b key :
  0 < l -> sub_bits a b -> has_key l a key = true -> has_key l b key = true.
Proof.
  intros Hl Hs [H1 H2]%andb_true_iff. unfold has_key. apply andb_true_iff.
  split; (apply Hs; [by apply key_bit_nonneg|done]).
Qed.

Lemma sub_bits_zeros n a : sub_bits (replicate n 0) a.
Proof.
  intros j _ H. unfold bit_at in H. destruct (replicate n 0 !! _) eqn:E; [|done].
  apply lookup_replicate in E as [-> _]. by rewrite Z.bits_0 in H.
Qed.

Lemma has_key_insert_keys l a keys key :
  0 < l <= LC_BF_DFT_LEN -> length a = ARRAY_BYTES -> key ∈ keys ->
  has_key l (insert_keys l a keys) key = true.
Proof.
  intros Hl Ha Hin. unfold has_key. apply andb_true_iff.
  split; (apply bit_at_insert_keys; [done|done|apply key_bit_nonneg; lia|]); right; eauto.
Qed.

Lemma filter_ok_insert_keys m b x keys :
  filter_ok m b x ->
  filter_ok (upd m b (BFilter (set_array x (insert_keys (len x) (array x) keys)))) b
            (set_array x (insert_keys (len x) (array x) keys)).
Proof.
  intros Hok. apply filter_ok_set; [done|apply insert_keys_bytes; apply Hok|].
  rewrite length_insert_keys. apply Hok.
Qed.

Lemma upd_upd m b k k' : upd (upd m b k) b k' = upd m b k'.
Proof. unfold upd. simpl. by rewrite insert_insert_eq. Qed.

Lemma bit_index_ok fs i f l key :
  0 < l -> fs !! i = Some (Some f) -> bit_index fs i key l = Ret (key_bit l f key).
Proof. intros Hl H. unfold bit_index. rewrite H. destruct (Z.eqb_spec l 0); [lia|done]. Qed.

Lemma lift_bind_ok {S A B} (o : outcome A) a (k : A -> cstate S B) s :
  o = Ret a -> (lift o ≫= k) s = k a s.
Proof. intros ->. done. Qed.

(** One pass of the add loop for the hash function in slot [i]. *)
Lemma bf_add_loop_step m b x key n i f :
  filter_ok m b x -> hashFunctions !! i = Some f ->
  bf_add_loop (Some b) key (S n) i m
  = bf_add_loop (Some b) key n (S i)
      (upd m b (BFilter (set_array x (set_bit (array x) (key_bit (len x) f key))))).
Proof.
  intros Hok Hf. destruct Hok as [Hat Hl Hb Hs Hn (fb & Hfb & Hfs)].
  cbn [bf_add_loop]. mem_step. rewrite Hfb. mem_step.
  rewrite (lift_bind_ok _ (key_bit (len x) f key))
    by (apply bit_index_ok; [lia|by rewrite list_lookup_fmap, Hf]).
  erewrite lift_bind_ok by (apply SETBIT_ok, key_bit_in; [lia|done]).
  by mem_step.
Qed.

Lemma bf_add_ok m b x key :
  filter_ok m b x ->
  bf_add (Some b) key m
  = Ret (0, upd m b (BFilter (set_array x (insert_key (len x) (array x) key)))).
Proof.
  intros Hok. unfold bf_add. rewrite (cstate_bind_step _ _ _ x m)
    by (apply load_filter_ok, Hok).
  rewrite (fo_nfuncs _ _ _ Hok). change (Z.to_nat 2) with 2%nat.
  rewrite (bf_add_loop_step _ _ x _ _ _ SAX) by done.
  rewrite (bf_add_loop_step _ _ (set_array x (set_bit (array x) (key_bit (len x) SAX key)))
             _ _ _ SDBM); [|apply filter_ok_set; [done| |]|done].
  - cbn. by rewrite upd_upd.
  - apply set_bit_bytes; [apply key_bit_in|]; apply Hok.
  - rewrite length_set_bit. apply Hok.
Qed.

Lemma filter_ok_insert_key m b x key :
  filter_ok m b x ->
  filter_ok (upd m b (BFilter (set_array x (insert_key (len x) (array x) key)))) b
            (set_array x (insert_key (len x) (array x) key)).
Proof.
  intros Hok. apply filter_ok_set; [done|apply insert_key_bytes; apply Hok|].
  rewrite length_insert_key. apply Hok.
Qed.

Lemma bf_add_all_ok m b x keys :
  filter_ok m b x ->
  bf_add_all (Some b) keys m
  = Ret (tt, upd m b (BFilter (set_array x (insert_keys (len x) (array x) keys)))).
Proof.
  revert m x. induction keys as [|k keys IH]; intros m x Hok; cbn [bf_add_all].
  - cbn. unfold mret, cstate_ret. f_equal. f_equal. unfold upd. destruct m as [nx h]. simpl.
    rewrite insert_id; [done|]. destruct x. apply Hok.
  - rewrite (cstate_bind_step _ _ _ 0 _ (bf_add_ok _ _ _ _ Hok)).
    rewrite (IH _ _ (filter_ok_insert_key _ _ _ _ Hok)). by rewrite upd_upd.
Qed.

Lemma bf_check_loop_step m b x key n i f :
  filter_ok m b x -> hashFunctions !! i = Some f ->
  bf_check_loop (Some b) key (S n) i m
  = if bit_at (array x) (key_bit (len x) f key)
    then bf_check_loop (Some b) key n (S i) m else Ret (0, m).
Proof.
  intros Hok Hf. destruct Hok as [Hat Hl Hb Hs Hn (fb & Hfb & Hfs)].
  cbn [bf_check_loop]. mem_step. rewrite Hfb. mem_step.
  rewrite (lift_bind_ok _ (key_bit (len x) f key))
    by (apply bit_index_ok; [lia|by rewrite list_lookup_fmap, Hf]).
  destruct (GETBIT_ok (array x) (key_bit (len x) f key)) as (g & Hg & Eg);
    [by apply key_bit_in|].
  rewrite (lift_bind_ok _ _ _ _ Hg), Eg. by destruct (bit_at _ _).
Qed.

Lemma bf_check_ok m b x key :
  filter_ok m b x ->
  bf_check (Some b) key m = Ret (Z.b2z (has_key (len x) (array x) key), m).
Proof.
  intros Hok. unfold bf_check. rewrite (cstate_bind_step _ _ _ x m)
    by (apply load_filter_ok, Hok).
  rewrite (fo_nfuncs _ _ _ Hok). change (Z.to_nat 2) with 2%nat.
  rewrite (bf_check_loop_step _ _ x _ _ _ SAX) by done.
  rewrite (bf_check_loop_step _ _ x _ _ _ SDBM) by done.
  unfold has_key. by destruct (bit_at _ (key_bit _ SAX _)), (bit_at _ (key_bit _ SDBM _)).
Qed.

(** *** Creation *)

Definition created (m : mem) (id l port : Z) (junk : nat -> Z) : bloom_filter :=
  MkBf id l port
    (replicate (Z.to_nat (l / 8)) 0 ++ drop (Z.to_nat (l / 8)) (fresh_array junk))
    2 (Some (S (m_next m))).

Definition after_create (m : mem) (x : bloom_filter) : mem :=
  MkMem (S (S (m_next m)))
    (<[m_next m := BFilter x]>
      (<[S (m_next m) := BFuncs (Some <$> hashFunctions)]> (m_heap m))).

Lemma bf_create_ok alloc m id l port j1 j2 :
  alloc (m_next m) = Some j1 -> alloc (S (m_next m)) = Some j2 ->
  0 <= l <= LC_BF_DFT_LEN ->
  bf_create alloc id l port 2 m
  = Ret (Some (m_next m), after_create m (created m id l port j1)).
Proof.
  intros H1 H2 Hl. unfold bf_create.
  rewrite (cstate_bind_step _ _ _ _ _ (malloc_ok alloc _ m j1 H1)).
  rewrite (cstate_bind_step _ _ _ _ _ (malloc_ok alloc _ (MkMem (S (m_next m)) _) j2 H2)).
  rewrite (lift_bind_ok _ hashFunctions) by reflexivity.
  rewrite (cstate_bind_step _ _ _ tt
    (upd (MkMem (S (S (m_next m))) (<[S (m_next m) := BFuncs (replicate (Z.to_nat 2) None)]>
           (<[m_next m := BFilter (MkBf 0 0 0 (fresh_array j1) 0 None)]> (m_heap m))))
       (S (m_next m)) (BFuncs (Some <$> hashFunctions))))
    by (eapply store_ok; simpl; apply lookup_insert_eq).
  rewrite (cstate_bind_step _ _ _ (MkBf 0 0 0 (fresh_array j1) 0 None) _)
    by (apply load_filter_ok; simpl; rewrite lookup_insert_ne, lookup_insert_ne by lia;
        apply lookup_insert_eq).
  rewrite (lift_bind_ok _ (array (created m id l port j1))).
  2:{ unfold SIZE_CHAR, LC_BF_DFT_LEN in *. rewrite memset0_ok; [done|].
      cbn [array]. rewrite length_fresh_array. unfold ARRAY_BYTES.
      pose proof (Z.div_le_mono l 1024 8 ltac:(lia) ltac:(lia)) as Hd.
      change (1024 / 8) with 128 in Hd. lia. }
  erewrite cstate_bind_step.
  2:{ eapply store_ok. simpl. rewrite lookup_insert_ne, lookup_insert_ne by lia.
      apply lookup_insert_eq. }
  unfold mret, cstate_ret, upd, after_create. simpl. do 3 f_equal.
  rewrite insert_insert_eq. rewrite (insert_insert_ne _ (S (m_next m)) (m_next m)) by lia.
  by rewrite insert_insert_eq.
Qed.

Lemma created_array_size m id l port j :
  0 <= l <= LC_BF_DFT_LEN -> length (array (created m id l port j)) = ARRAY_BYTES.
Proof.
  intros Hl. simpl. rewrite length_app, length_replicate, length_drop, length_fresh_array.
  pose proof (Z.div_le_mono l 1024 8 ltac:(lia) ltac:(unfold LC_BF_DFT_LEN in *; lia)) as Hd.
  change (1024 / 8) with 128 in Hd. unfold ARRAY_BYTES. lia.
Qed.

Lemma created_ok m id l port j :
  0 < l <= LC_BF_DFT_LEN ->
  filter_ok (after_create m (created m id l port j)) (m_next m) (created m id l port j).
Proof.
  intros Hl. split; try done.
  - apply lookup_insert_eq.
  - simpl. apply Forall_app. split.
    + apply Forall_replicate. unfold is_byte. lia.
    + apply Forall_drop, fresh_array_bytes.
  - apply created_array_size. lia.
  - exists (S (m_next m)). split; [done|]. simpl.
    rewrite lookup_insert_ne by lia. apply lookup_insert_eq.
Qed.

(** A length that is a whole number of bytes leaves no stale bit in use. *)
Lemma created_bits m id l port j i :
  0 < l <= LC_BF_DFT_LEN -> (8 | l) -> 0 <= i < l ->
  bit_at (array (created m id l port j)) i = false.
Proof.
  intros Hl [q ->] Hi. unfold bit_at. simpl.
  rewrite Z.div_mul by lia.
  assert (0 <= i / 8 < q) as Hq
    by (split; [apply Z.div_pos; lia|apply Z.div_lt_upper_bound; lia]).
  rewrite lookup_app_l by (rewrite length_replicate; lia).
  rewrite lookup_replicate_2 by lia. apply Z.bits_0.
Qed.

(** ** Properties *)

(** A key recorded with bf_add is found by bf_check, however many other keys are
    recorded before and after it: the filter has no false negatives, and none of the
    calls faults. *)
Theorem bloom_no_false_negative m b x keys key :
  filter_ok m b x -> key ∈ keys ->
  exists m', bf_add_all (Some b) keys m = Ret (tt, m')
          /\ bf_check (Some b) key m' = Ret (1, m').
Proof.
  intros Hok Hin. eexists. split; [by apply bf_add_all_ok|].
  pose proof (filter_ok_insert_keys _ _ _ keys Hok) as Hok'.
  rewrite (bf_check_ok _ _ _ _ Hok'). do 3 f_equal. unfold has_key. simpl.
  destruct Hok as [_ Hl Hb Hs _ _].
  assert (forall f, bit_at (insert_keys (len x) (array x) keys) (key_bit (len x) f key) = true)
    as H; [|by rewrite !H].
  intros f. apply bit_at_insert_keys; [done|done|by apply key_bit_nonneg; lia|]. right; eauto.
Qed.

Example bloom_no_false_negative_witness :
  exists m', bf_add_all (Some 0%nat) [[0x30]; [0x31; 0x32]]
               (after_create mem_empty (created mem_empty 7 1024 1 (fun _ => 165)))
             = Ret (tt, m')
          /\ bf_check (Some 0%nat) [0x31; 0x32] m' = Ret (1, m').
Proof.
  eapply bloom_no_false_negative.
  - apply created_ok. unfold LC_BF_DFT_LEN. lia.
  - right. left.
Defined.

(** C37: the answer of bf_check is exact.  On a filter freshly made by bf_create (length a
    whole number of bytes) into which [keys] were recorded, bf_check says yes to [key]
    exactly when each of its two bits is a bit of some recorded key: those and only those
    are the false positives. *)
Theorem bloom_check_exact alloc m id l port j1 j2 keys key :
  alloc (m_next m) = Some j1 -> alloc (S (m_next m)) = Some j2 ->
  0 < l <= LC_BF_DFT_LEN -> (8 | l) ->
  exists b m1 m2 r,
    bf_create alloc id l port 2 m = Ret (Some b, m1)
    /\ bf_add_all (Some b) keys m1 = Ret (tt, m2)
    /\ bf_check (Some b) key m2 = Ret (r, m2)
    /\ (r = 1 <-> forall f, exists t f', t ∈ keys /\ key_bit l f' t = key_bit l f key).
Proof.
  intros H1 H2 Hl H8. do 4 eexists. split; [by eapply bf_create_ok; [done|done|lia]|].
  pose proof (created_ok m id l port j1 Hl) as Hok.
  split; [by apply bf_add_all_ok|]. split.
  { by apply bf_check_ok, filter_ok_insert_keys. }
  assert (forall f, bit_at (insert_keys l (array (created m id l port j1)) keys)
                      (key_bit l f key) = true
                    <-> exists t f', t ∈ keys /\ key_bit l f' t = key_bit l f key) as Hbit.
  { intros f. rewrite bit_at_insert_keys;
      [|done|apply created_array_size; lia|apply key_bit_nonneg; lia].
    rewrite created_bits by (try done; apply Z.mod_pos_bound; lia). naive_solver. }
  change (Z.b2z (has_key l (insert_keys l (array (created m id l port j1)) keys) key) = 1
          <-> forall f, exists t f', t ∈ keys /\ key_bit l f' t = key_bit l f key).
  unfold has_key.
  transitivity (forall f, bit_at (insert_keys l (array (created m id l port j1)) keys)
                      (key_bit l f key) = true); [|by setoid_rewrite Hbit].
  split.
  - intros E f. destruct (bit_at _ (key_bit l SAX key)) eqn:E1,
      (bit_at _ (key_bit l SDBM key)) eqn:E2; destruct f; done.
  - intros E. by rewrite (E SAX), (E SDBM).
Qed.

Example bloom_check_exact_witness :
  exists b m1 m2 r,
    bf_create (fun _ => Some (fun _ => 165)) 7 1024 1 2 mem_empty = Ret (Some b, m1)
    /\ bf_add_all (Some b) [[0x30]] m1 = Ret (tt, m2)
    /\ bf_check (Some b) [0x31] m2 = Ret (r, m2)
    /\ (r = 1 <-> forall f, exists t f', t ∈ [[0x30]] /\ key_bit 1024 f' t = key_bit 1024 f [0x31]).
Proof.
  apply (bloom_check_exact (fun _ => Some (fun _ => 165)) mem_empty 7 1024 1
           (fun _ => 165) (fun _ => 165)); try reflexivity.
  - unfold LC_BF_DFT_LEN. lia.
  - exists 128. reflexivity.
Defined.

(** Bf_destroy cannot be run: the bit array is embedded in the structure, so its
    first statement hands free() an address inside the block and every call on a live
    filter has undefined behaviour. *)
Theorem bf_destroy_invalid_free m b x :
  m_heap m !! b = Some (BFilter x) -> bf_destroy (Some b) m = Stuck InvalidFree.
Proof. intros H. unfold bf_destroy, mbind, cstate_bind, free. by rewrite H. Qed.

Example bf_destroy_invalid_free_witness :
  bf_destroy (Some 0%nat)
    (after_create mem_empty (created mem_empty 7 1024 1 (fun _ => 165))) = Stuck InvalidFree.
Proof. eapply bf_destroy_invalid_free. apply lookup_insert_eq. Defined.

(** bf_set_array has no bound check: on a live filter it overwrites the array and the
    length when the new length fits the 128 embedded bytes (and the source has that many),
    and writes past the array, undefined behaviour, for every longer one. *)
Theorem bf_set_array_bounds m b x src l :
  filter_ok m b x -> 0 <= l <= 4294967288 ->
  bf_set_array (Some b) (Some src) l m
  = if ((l + 7) / 8 <=? 128) && ((l + 7) / 8 <=? Z.of_nat (length src))
    then Ret (0, upd m b (BFilter (set_len (set_array x
                  (take (Z.to_nat ((l + 7) / 8)) src
                   ++ drop (Z.to_nat ((l + 7) / 8)) (array x))) l)))
    else Stuck OutOfBounds.
Proof.
  intros Hok Hl. unfold bf_set_array, SIZE_CHAR.
  rewrite (cstate_bind_step _ _ _ x m) by (apply load_filter_ok, Hok).
  rewrite (wrap_small 32) by (change (2 ^ 32) with 4294967296; lia).
  replace (l + 8 - 1) with (l + 7) by lia.
  pose proof (fo_size _ _ _ Hok) as Hs. unfold ARRAY_BYTES in Hs.
  destruct (Z.leb_spec ((l + 7) / 8) 128), (Z.leb_spec ((l + 7) / 8) (Z.of_nat (length src)));
    cbn [andb].
  1: { rewrite (lift_bind_ok _ _ _ _ (memcpy_ok (array x) src ((l + 7) / 8) ltac:(lia) ltac:(lia))).
       erewrite cstate_bind_step; [done|]. eapply store_ok, Hok. }
  all: unfold memcpy; rewrite Hs; change (Z.of_nat 128) with 128;
    destruct (Z.ltb_spec 128 ((l + 7) / 8)); try lia; try done;
    by destruct (Z.ltb_spec (Z.of_nat (length src)) ((l + 7) / 8)); try lia.
Qed.

Example bf_set_array_bounds_witness :
  exists m' r, m' = after_create mem_empty (created mem_empty 7 1024 1 (fun _ => 165))
    /\ bf_set_array (Some 0%nat) (Some (replicate 200 255)) 1032 m' = r
    /\ r = Stuck OutOfBounds.
Proof.
  do 2 eexists. split; [reflexivity|]. split.
  - eapply bf_set_array_bounds; [apply created_ok; unfold LC_BF_DFT_LEN; lia|lia].
  - reflexivity.
Defined.
