(* ===== verification/BfGdt.v ===== *)
(** * The group distribution table (lib/bf-gdt.c)

    A [struct bf_gdt] is an array of at most 64 pointers to Bloom filters, one per
    switch of the local control group.  The definitions are the functions of
    lib/bf-gdt.c over the heap of [LcMem]; [gdt_ok] is the invariant the
    operations keep; [GroupTable] is what the table promises to the switch code
    (Mcast, Datapath, LcNet), which is proved against that interface only. *)
From S2P Require Import Prelude LcMem Bloom.

Local Open Scope Z_scope.

(** ** Definitions *)

(** [gdt->bf_array[i]], and its assignment. *)
Definition load_slot (g : bf_gdt) (i : nat) : cstate mem ptr :=
  ps ← load_ptrs (bf_array g);
  lift (of_option OutOfBounds (ps !! i)).

Definition store_slot (g : bf_gdt) (i : nat) (p : ptr) : cstate mem unit :=
  ps ← load_ptrs (bf_array g);
  if bool_decide (i < length ps)%nat then store (bf_array g) (BPtrs (<[i := p]> ps))
  else fails OutOfBounds.

(** The search loop of bf_gdt_find_filter; [n] iterations are left, [i] is next. *)
Fixpoint find_loop (g : bf_gdt) (id : Z) (n i : nat) : cstate mem ptr :=
  match n with
  | O => mret None
  | S n' =>
      p ← load_slot g i;
      x ← load_filter p;
      if bf_id x =? id then load_slot g i else find_loop g id n' (S i)
  end.

Definition bf_gdt_find_filter (gdt : ptr) (id : Z) : cstate mem ptr :=
  match gdt with
  | None => mret None
  | Some _ => g ← load_gdt gdt; find_loop g id (Z.to_nat (nbf g)) 0
  end.

Fixpoint check_loop (g : bf_gdt) (key : list Z) (n i : nat) : cstate mem ptr :=
  match n with
  | O => mret None
  | S n' =>
      p ← load_slot g i;
      r ← bf_check p key;
      if r =? 0 then check_loop g key n' (S i) else load_slot g i
  end.

Definition bf_gdt_check (gdt : ptr) (key : list Z) : cstate mem ptr :=
  match gdt with
  | None => mret None
  | Some _ =>
      g ← load_gdt gdt;
      match bf_array g with
      | None => mret None
      | Some _ => check_loop g key (Z.to_nat (nbf g)) 0
      end
  end.

Fixpoint add_item_loop (g : bf_gdt) (id : Z) (key : list Z) (n i : nat) : cstate mem Z :=
  match n with
  | O => mret (-1)
  | S n' =>
      bf ← load_slot g i;
      x ← load_filter bf;
      if bf_id x =? id then bf_add bf key else add_item_loop g id key n' (S i)
  end.

Definition bf_gdt_add_item (gdt : ptr) (id : Z) (key : list Z) : cstate mem Z :=
  match gdt with
  | None => mret (-1)
  | Some _ =>
      g ← load_gdt gdt;
      match bf_array g with
      | None => mret (-1)
      | Some _ => add_item_loop g id key (Z.to_nat (nbf g)) 0
      end
  end.

Fixpoint del_loop (gdt : ptr) (id : Z) (n i : nat) : cstate mem Z :=
  match n with
  | O => mret 1
  | S n' =>
      g ← load_gdt gdt;
      p ← load_slot g i;
      x ← load_filter p;
      if bf_id x =? id then
        _ ← free (base p);
        let last := Z.to_nat (u32 (nbf g - 1)) in
        _ ← (if Z.of_nat i =? u32 (nbf g - 1) then mret tt
             else q ← load_slot g last; store_slot g i q);
        _ ← store_slot g last None;
        _ ← store gdt (BGdt (MkGdt (gid g) (u32 (nbf g - 1)) (bf_array g)));
        mret 0
      else del_loop gdt id n' (S i)
  end.

Definition bf_gdt_del_filter (gdt : ptr) (id : Z) : cstate mem Z :=
  match gdt with
  | None => mret (-1)
  | Some _ => g ← load_gdt gdt; del_loop gdt id (Z.to_nat (nbf g)) 0
  end.

Fixpoint destroy_loop (g : bf_gdt) (n i : nat) : cstate mem unit :=
  match n with
  | O => mret tt
  | S n' => p ← load_slot g i; _ ← bf_destroy p; destroy_loop g n' (S i)
  end.

Definition bf_gdt_destroy (gdt : ptr) : cstate mem Z :=
  match gdt with
  | None => mret 0
  | Some _ =>
      g ← load_gdt gdt;
      _ ← (match bf_array g with
           | None => mret tt
           | Some _ => destroy_loop g (Z.to_nat (nbf g)) 0
           end);
      _ ← free (base (bf_array g));
      _ ← free (base gdt);
      mret 0
  end.

Section Create.
Context (alloc : nat -> option (nat -> Z)).

Definition bf_gdt_init (group : Z) : cstate mem ptr :=
  gdt ← malloc alloc (fun _ => BGdt (MkGdt 0 0 None));
  match gdt with
  | None => mret None
  | Some _ =>
      arr ← malloc alloc (fun _ => BPtrs (replicate (Z.to_nat BF_GDT_MAX_FILTERS) None));
      match arr with
      | None => mret None
      | Some _ => _ ← store gdt (BGdt (MkGdt group 0 arr)); mret gdt
      end
  end.

Definition bf_gdt_add_filter (gdt : ptr) (id port l : Z) : cstate mem ptr :=
  match gdt with
  | None => mret None
  | Some _ =>
      g ← load_gdt gdt;
      if BF_GDT_MAX_FILTERS <=? nbf g then mret None
      else
        bf ← bf_create alloc id l port 2;
        match bf with
        | None => mret None
        | Some _ =>
            _ ← store_slot g (Z.to_nat (nbf g)) bf;
            _ ← store gdt (BGdt (MkGdt (gid g) (u32 (nbf g + 1)) (bf_array g)));
            mret bf
        end
  end.

(** The filter argument is read only: it is passed by value ([None] for NULL). *)
Definition bf_gdt_insert_filter (gdt : ptr) (bf : option bloom_filter) : cstate mem ptr :=
  match gdt, bf with
  | Some _, Some bf =>
      new_bf ← bf_gdt_add_filter gdt (bf_id bf) (port_no bf) (len bf);
      match new_bf with
      | None => mret None
      | Some _ =>
          x ← load_filter new_bf;
          a ← lift (memcpy (array x) (array bf) (len x / SIZE_CHAR));
          _ ← store new_bf (BFilter (set_array x a));
          mret new_bf
      end
  | _, _ => mret None
  end.

Definition bf_gdt_update_filter (gdt : ptr) (bf : option bloom_filter) : cstate mem Z :=
  match gdt, bf with
  | Some _, Some bf' =>
      matched ← bf_gdt_find_filter gdt (bf_id bf');
      match matched with
      | Some _ =>
          x ← load_filter matched;
          same ← lift (memeq (array x) (array bf') (len x / SIZE_CHAR));
          if (same : bool) then mret (-1)
          else
            a ← lift (memcpy (array x) (array bf') (len x / SIZE_CHAR));
            _ ← store matched (BFilter (set_array x a));
            mret 1
      | None => _ ← bf_gdt_insert_filter gdt bf; mret 2
      end
  | _, _ => mret (-1)
  end.
End Create.

(** ** The table invariant *)

Definition slots (fs : list (nat * bloom_filter)) : list ptr :=
  (Some <$> fs.*1) ++ replicate (64 - length fs) None.

(** [fs] lists the live filters in slot order, each with its block. *)
Record gdt_ok (m : mem) (g : nat) (gd : bf_gdt) (fs : list (nat * bloom_filter)) : Prop := {
  go_at : m_heap m !! g = Some (BGdt gd);
  go_arr : exists arr, bf_array gd = Some arr /\ m_heap m !! arr = Some (BPtrs (slots fs));
  go_nbf : nbf gd = Z.of_nat (length fs);
  go_max : (length fs <= 64)%nat;
  go_nodup : NoDup fs.*1;
  go_filters : forall b x, (b, x) ∈ fs -> filter_ok m b x
}.

Lemma slots_lookup fs i :
  slots fs !! i = match fs !! i with
                  | Some (b, _) => Some (Some b)
                  | None => if decide (i < Nat.max 64 (length fs))%nat then Some None else None
                  end.
Proof.
  unfold slots. destruct (fs !! i) as [[b x]|] eqn:E.
  - rewrite lookup_app_l by (rewrite !length_fmap; by apply lookup_lt_Some in E).
    by rewrite !list_lookup_fmap, E.
  - apply lookup_ge_None in E.
    rewrite lookup_app_r by (rewrite !length_fmap; lia). rewrite !length_fmap.
    case_decide; [apply lookup_replicate_2|apply lookup_replicate_None]; lia.
Qed.

Lemma length_slots fs : (length fs <= 64)%nat -> length (slots fs) = 64%nat.
Proof.
  intros H. unfold slots. rewrite length_app, length_replicate, !length_fmap. lia.
Qed.

Lemma load_slot_ok m g gd fs i b x :
  gdt_ok m g gd fs -> fs !! i = Some (b, x) -> load_slot gd i m = Ret (Some b, m).
Proof.
  intros [_ (arr & Ha & Hs) _ _ _ _] Hi. unfold load_slot. rewrite Ha. mem_step.
  by rewrite slots_lookup, Hi.
Qed.

Lemma gdt_filter_at m g gd fs i b x :
  gdt_ok m g gd fs -> fs !! i = Some (b, x) -> filter_ok m b x.
Proof. intros Hok Hi. eapply go_filters; [done|]. by eapply list_elem_of_lookup_2. Qed.

(** The searches visit the live slots in order: with [n] slots left from [i] on. *)
Lemma slots_left_cons {A} (fs : list A) n i :
  (i + S n = length fs)%nat ->
  exists y, fs !! i = Some y /\ drop i fs = y :: drop (S i) fs.
Proof.
  intros H. destruct (lookup_lt_is_Some_2 fs i) as [y Hy]; [lia|].
  exists y. split; [done|]. by apply drop_S.
Qed.

Lemma find_loop_ok m g gd fs id n i :
  gdt_ok m g gd fs -> (i + n = length fs)%nat ->
  find_loop gd id n i m
  = Ret (fst <$> find_first (fun p => bf_id p.2 =? id) (drop i fs), m).
Proof.
  intros Hok. revert i. induction n as [|n IH]; intros i Hn; cbn [find_loop].
  { by rewrite drop_ge by lia. }
  destruct (slots_left_cons fs n i Hn) as ([b x] & Hi & ->).
  rewrite (cstate_bind_step _ _ _ _ _ (load_slot_ok _ _ _ _ _ _ _ Hok Hi)).
  rewrite (cstate_bind_step _ _ _ x m)
    by (apply load_filter_ok, (gdt_filter_at _ _ _ _ _ _ _ Hok Hi)).
  cbn [find_first snd]. destruct (bf_id x =? id).
  - by rewrite (load_slot_ok _ _ _ _ _ _ _ Hok Hi).
  - apply IH. lia.
Qed.

Lemma gdt_find_ok m g gd fs id :
  gdt_ok m g gd fs ->
  bf_gdt_find_filter (Some g) id m
  = Ret (fst <$> find_first (fun p => bf_id p.2 =? id) fs, m).
Proof.
  intros Hok. unfold bf_gdt_find_filter.
  rewrite (cstate_bind_step _ _ _ gd m) by (apply load_gdt_ok, Hok).
  rewrite (go_nbf _ _ _ _ Hok), Nat2Z.id.
  by rewrite (find_loop_ok _ _ _ _ _ _ _ Hok).
Qed.

Lemma check_loop_ok m g gd fs key n i :
  gdt_ok m g gd fs -> (i + n = length fs)%nat ->
  check_loop gd key n i m
  = Ret (fst <$> find_first (fun p => has_key (len p.2) (array p.2) key) (drop i fs), m).
Proof.
  intros Hok. revert i. induction n as [|n IH]; intros i Hn; cbn [check_loop].
  { by rewrite drop_ge by lia. }
  destruct (slots_left_cons fs n i Hn) as ([b x] & Hi & ->).
  rewrite (cstate_bind_step _ _ _ _ _ (load_slot_ok _ _ _ _ _ _ _ Hok Hi)).
  rewrite (cstate_bind_step _ _ _ _ _
             (bf_check_ok _ _ _ key (gdt_filter_at _ _ _ _ _ _ _ Hok Hi))).
  cbn [find_first snd]. destruct (has_key (len x) (array x) key); cbn [Z.b2z Z.eqb].
  - by rewrite (load_slot_ok _ _ _ _ _ _ _ Hok Hi).
  - apply IH. lia.
Qed.

Lemma gdt_check_ok m g gd fs key :
  gdt_ok m g gd fs ->
  bf_gdt_check (Some g) key m
  = Ret (fst <$> find_first (fun p => has_key (len p.2) (array p.2) key) fs, m).
Proof.
  intros Hok. unfold bf_gdt_check.
  rewrite (cstate_bind_step _ _ _ gd m) by (apply load_gdt_ok, Hok).
  destruct (go_arr _ _ _ _ Hok) as (arr & -> & _).
  rewrite (go_nbf _ _ _ _ Hok), Nat2Z.id.
  by rewrite (check_loop_ok _ _ _ _ _ _ _ Hok).
Qed.

(** Overwriting the array of the filter in slot [i]. *)
Definition put_array (fs : list (nat * bloom_filter)) (i : nat) (a : list Z)
  : list (nat * bloom_filter) :=
  match fs !! i with
  | Some (b, x) => <[i := (b, set_array x a)]> fs
  | None => fs
  end.

Lemma put_array_fst fs i a : (put_array fs i a).*1 = fs.*1.
Proof.
  unfold put_array. destruct (fs !! i) as [[b x]|] eqn:E; [|done].
  rewrite list_fmap_insert. apply list_insert_id. by rewrite list_lookup_fmap, E.
Qed.

Lemma length_put_array fs i a : length (put_array fs i a) = length fs.
Proof. unfold put_array. case_match; [case_match; apply length_insert|done]. Qed.

Lemma put_array_slots fs i a : slots (put_array fs i a) = slots fs.
Proof. unfold slots. by rewrite put_array_fst, length_put_array. Qed.

Lemma filter_ok_frame m b x b' k y :
  filter_ok m b x -> b <> b' -> m_heap m !! b' = Some (BFilter y) ->
  filter_ok (upd m b' k) b x.
Proof.
  intros [Hat Hl Hb Hs Hn (f & Hf & Hfs)] Hne Hy. split; try done; simpl.
  - by rewrite lookup_insert_ne.
  - exists f. split; [done|]. rewrite lookup_insert_ne; [done|]. congruence.
Qed.

Lemma gdt_ok_put_array m g gd fs i b x a :
  gdt_ok m g gd fs -> fs !! i = Some (b, x) -> bytes a -> length a = ARRAY_BYTES ->
  gdt_ok (upd m b (BFilter (set_array x a))) g gd (put_array fs i a).
Proof.
  intros Hok Hi Ha Hla. pose proof (gdt_filter_at _ _ _ _ _ _ _ Hok Hi) as Hx.
  pose proof (fo_at _ _ _ Hx) as Hb.
  destruct Hok as [Hat (arr & Harr & Hs) Hn Hm Hnd Hfs]. split.
  - simpl. rewrite lookup_insert_ne; [done|congruence].
  - exists arr. split; [done|]. simpl. rewrite put_array_slots, lookup_insert_ne; [done|congruence].
  - by rewrite length_put_array.
  - by rewrite length_put_array.
  - by rewrite put_array_fst.
  - intros b' x' Hin. unfold put_array in Hin. rewrite Hi in Hin.
    apply list_elem_of_lookup in Hin as [j Hj].
    rewrite list_lookup_insert_spec in Hj by (by eapply lookup_lt_Some).
    case_decide as E; simplify_eq; [by apply filter_ok_set|].
    eapply filter_ok_frame; [|  |done].
    + apply Hfs. by eapply list_elem_of_lookup_2.
    + intros ->. apply E. eapply NoDup_lookup; [exact Hnd| |];
        rewrite list_lookup_fmap; [by rewrite Hi|by rewrite Hj].
Qed.

Lemma add_item_loop_ok m g gd fs id key n i :
  gdt_ok m g gd fs -> (i + n = length fs)%nat ->
  add_item_loop gd id key n i m
  = match find_first (fun p => bf_id p.2 =? id) (drop i fs) with
    | None => Ret (-1, m)
    | Some (b, x) =>
        Ret (0, upd m b (BFilter (set_array x (insert_key (len x) (array x) key))))
    end.
Proof.
  intros Hok. revert i. induction n as [|n IH]; intros i Hn; cbn [add_item_loop].
  { by rewrite drop_ge by lia. }
  destruct (slots_left_cons fs n i Hn) as ([b x] & Hi & ->).
  rewrite (cstate_bind_step _ _ _ _ _ (load_slot_ok _ _ _ _ _ _ _ Hok Hi)).
  pose proof (gdt_filter_at _ _ _ _ _ _ _ Hok Hi) as Hx.
  rewrite (cstate_bind_step _ _ _ x m) by (apply load_filter_ok, Hx).
  cbn [find_first snd]. destruct (bf_id x =? id); [by apply bf_add_ok|]. apply IH. lia.
Qed.

Lemma gdt_add_item_ok m g gd fs id key :
  gdt_ok m g gd fs ->
  bf_gdt_add_item (Some g) id key m
  = match find_first (fun p => bf_id p.2 =? id) fs with
    | None => Ret (-1, m)
    | Some (b, x) =>
        Ret (0, upd m b (BFilter (set_array x (insert_key (len x) (array x) key))))
    end.
Proof.
  intros Hok. unfold bf_gdt_add_item.
  rewrite (cstate_bind_step _ _ _ gd m) by (apply load_gdt_ok, Hok).
  destruct (go_arr _ _ _ _ Hok) as (arr & -> & _).
  rewrite (go_nbf _ _ _ _ Hok), Nat2Z.id.
  by rewrite (add_item_loop_ok _ _ _ _ _ _ _ _ Hok).
Qed.

(** *** Insertion *)

Lemma store_slot_ok m g gd fs i p arr :
  gdt_ok m g gd fs -> (i < 64)%nat -> bf_array gd = Some arr ->
  store_slot gd i p m = Ret (tt, upd m arr (BPtrs (<[i := p]> (slots fs)))).
Proof.
  intros Hok Hi Ha. destruct (go_arr _ _ _ _ Hok) as (arr' & Ha' & Hs).
  simplify_eq. unfold store_slot. rewrite Ha. mem_step.
  rewrite length_slots by apply Hok. rewrite bool_decide_true by done. by eapply store_ok.
Qed.

Lemma slots_snoc fs b x :
  (length fs < 64)%nat -> slots (fs ++ [(b, x)]) = <[length fs := Some b]> (slots fs).
Proof.
  intros H. apply list_eq. intros j.
  rewrite list_lookup_insert_spec by (rewrite length_slots; lia).
  rewrite !slots_lookup, length_app. simpl.
  destruct (decide (length fs = j)) as [<-|Hne].
  - by rewrite list_lookup_middle.
  - destruct (decide (j < length fs)%nat).
    + rewrite lookup_app_l by lia.
      by destruct (lookup_lt_is_Some_2 fs j) as [[? ?] ->].
    + rewrite !lookup_ge_None_2 by (rewrite ?length_app; simpl; lia).
      repeat case_decide; done || lia.
Qed.

(** The memory after bf_gdt_add_filter put a fresh filter [x] in the next slot. *)
Definition after_add (m : mem) (g : nat) (gd : bf_gdt) (arr : nat)
    (fs : list (nat * bloom_filter)) (x : bloom_filter) : mem :=
  upd (upd (after_create m x) arr (BPtrs (slots (fs ++ [(m_next m, x)]))))
      g (BGdt (MkGdt (gid gd) (nbf gd + 1) (bf_array gd))).

Lemma filter_ok_fresh m b x y :
  mem_wf m -> filter_ok m b x -> filter_ok (after_create m y) b x.
Proof.
  intros Hw [Hat Hl Hb Hs Hn (f & Hf & Hfs)].
  assert (b < m_next m)%nat by (apply Hw; by rewrite Hat).
  assert (f < m_next m)%nat by (apply Hw; by rewrite Hfs).
  split; try done; simpl.
  - by rewrite !lookup_insert_ne by lia.
  - exists f. by rewrite !lookup_insert_ne by lia.
Qed.

Lemma filter_ok_other m b x c k :
  filter_ok m b x -> (forall y, m_heap m !! c <> Some (BFilter y)) ->
  (forall fs, m_heap m !! c <> Some (BFuncs fs)) -> filter_ok (upd m c k) b x.
Proof.
  intros [Hat Hl Hb Hs Hn (f & Hf & Hfs)] H1 H2. split; try done; simpl.
  - rewrite lookup_insert_ne; [done|]. intros ->. by eapply H1.
  - exists f. rewrite lookup_insert_ne; [done|]. intros ->. by eapply H2.
Qed.

Lemma gdt_ok_after_add m g gd arr fs x :
  mem_wf m -> gdt_ok m g gd fs -> bf_array gd = Some arr -> (length fs < 64)%nat ->
  filter_ok (after_create m x) (m_next m) x ->
  gdt_ok (after_add m g gd arr fs x) g (MkGdt (gid gd) (nbf gd + 1) (bf_array gd))
         (fs ++ [(m_next m, x)]).
Proof.
  intros Hw Hok Harr Hlt Hx.
  destruct Hok as [Hat (arr' & Harr' & Hs) Hn Hm Hnd Hfs].
  rewrite Harr in Harr'. injection Harr' as <-.
  assert (g < m_next m)%nat by (apply Hw; by rewrite Hat).
  assert (arr < m_next m)%nat by (apply Hw; by rewrite Hs).
  assert (g <> arr) by congruence.
  split; simpl.
  - apply lookup_insert_eq.
  - exists arr. split; [done|]. rewrite lookup_insert_ne by done. apply lookup_insert_eq.
  - rewrite length_app. simpl. lia.
  - rewrite length_app. simpl. lia.
  - rewrite fmap_app. simpl. apply NoDup_app. split; [done|]. split; [|apply NoDup_singleton].
    intros b Hb%list_elem_of_fmap Hin%list_elem_of_singleton.
    destruct Hb as ([b' y] & -> & Hy). simpl in *. subst.
    pose proof (fo_at _ _ _ (Hfs _ _ Hy)) as Hy'.
    assert (m_next m < m_next m)%nat; [apply Hw; by rewrite Hy'|lia].
  - intros b y Hin. unfold after_add.
    assert (filter_ok (after_create m x) b y) as Hy.
    { apply elem_of_app in Hin as [Hin|Hin].
      - apply filter_ok_fresh; [done|by apply Hfs].
      - apply list_elem_of_singleton in Hin. by simplify_eq. }
    apply filter_ok_other; [apply filter_ok_other; [done| |]| |];
      intros z; simpl; rewrite ?lookup_insert_ne by (done || lia); congruence.
Qed.

Lemma after_create_old m x b :
  (b < m_next m)%nat -> m_heap (after_create m x) !! b = m_heap m !! b.
Proof. intros H. simpl. by rewrite !lookup_insert_ne by lia. Qed.

Lemma mem_wf_after_create m x : mem_wf m -> mem_wf (after_create m x).
Proof.
  intros Hw b Hb. simpl in *. destruct (decide (b < S (S (m_next m)))%nat); [done|].
  rewrite !lookup_insert_ne in Hb by lia. specialize (Hw b Hb). lia.
Qed.

Lemma mem_wf_after_add m g gd arr fs x :
  mem_wf m -> gdt_ok m g gd fs -> bf_array gd = Some arr -> mem_wf (after_add m g gd arr fs x).
Proof.
  intros Hw Hok Harr. pose proof (go_at _ _ _ _ Hok) as Hg.
  destruct (go_arr _ _ _ _ Hok) as (arr' & Harr' & Hs).
  rewrite Harr in Harr'. injection Harr' as <-.
  assert (g < m_next m)%nat by (apply Hw; by rewrite Hg).
  assert (arr < m_next m)%nat by (apply Hw; by rewrite Hs).
  apply upd_wf; [apply upd_wf; [by apply mem_wf_after_create|]|].
  - rewrite after_create_old by done. eauto.
  - simpl. rewrite lookup_insert_ne by congruence.
    rewrite (after_create_old m x) by done. eauto.
Qed.

Lemma gdt_add_filter_ok alloc m g gd fs arr id port l j1 j2 :
  mem_wf m -> gdt_ok m g gd fs -> bf_array gd = Some arr ->
  alloc (m_next m) = Some j1 -> alloc (S (m_next m)) = Some j2 ->
  0 < l <= LC_BF_DFT_LEN ->
  bf_gdt_add_filter alloc (Some g) id port l m
  = if decide (length fs = 64%nat) then Ret (None, m)
    else Ret (Some (m_next m), after_add m g gd arr fs (created m id l port j1)).
Proof.
  intros Hw Hok Harr H1 H2 Hl. unfold bf_gdt_add_filter.
  rewrite (cstate_bind_step _ _ _ gd m) by (apply load_gdt_ok, Hok).
  pose proof (go_nbf _ _ _ _ Hok) as Hn. pose proof (go_max _ _ _ _ Hok) as Hm.
  rewrite Hn. unfold BF_GDT_MAX_FILTERS.
  case_decide as E; destruct (Z.leb_spec 64 (Z.of_nat (length fs))); try lia; [done|].
  rewrite (cstate_bind_step _ _ _ _ _ (bf_create_ok alloc m id l port j1 j2 H1 H2 ltac:(lia))).
  set (x := created m id l port j1).
  destruct (go_arr _ _ _ _ Hok) as (arr' & Harr' & Hs).
  rewrite Harr in Harr'. injection Harr' as <-.
  pose proof (go_at _ _ _ _ Hok) as Hg.
  assert (g < m_next m)%nat by (apply Hw; by rewrite Hg).
  assert (arr < m_next m)%nat by (apply Hw; by rewrite Hs).
  assert (m_heap (after_create m x) !! arr = Some (BPtrs (slots fs))) as Hs'
    by (by rewrite after_create_old).
  rewrite Nat2Z.id.
  rewrite (cstate_bind_step _ _ _ tt
    (upd (after_create m x) arr (BPtrs (slots (fs ++ [(m_next m, x)]))))).
  2:{ unfold store_slot. rewrite Harr. mem_step.
      rewrite length_slots, bool_decide_true by (done || lia).
      rewrite slots_snoc by lia. by eapply store_ok. }
  erewrite cstate_bind_step.
  2:{ eapply store_ok. simpl. rewrite lookup_insert_ne by congruence.
      rewrite (after_create_old m x) by done. exact Hg. }
  unfold mret, cstate_ret, after_add. rewrite Harr, Hn.
  by rewrite (wrap_small 32) by (change (2 ^ 32) with 4294967296; lia).
Qed.

(** *** Update *)

(** A filter that can be put in the table: what mc_send sends and the netlink
    handler accepts. *)
Record valid_filter (x : bloom_filter) : Prop := {
  vf_len : 0 < len x <= LC_BF_DFT_LEN;
  vf_bytes : bytes (array x);
  vf_size : length (array x) = ARRAY_BYTES
}.

Definition copy_array (l : Z) (dst src : list Z) : list Z :=
  take (Z.to_nat (l / 8)) src ++ drop (Z.to_nat (l / 8)) dst.

Lemma length_copy_array l dst src :
  length dst = ARRAY_BYTES -> length src = ARRAY_BYTES -> 0 <= l <= LC_BF_DFT_LEN ->
  length (copy_array l dst src) = ARRAY_BYTES.
Proof.
  intros Hd Hs Hl. unfold copy_array. rewrite length_app, length_take, length_drop.
  pose proof (Z.div_le_mono l 1024 8 ltac:(lia) ltac:(unfold LC_BF_DFT_LEN in *; lia)) as Hq.
  change (1024 / 8) with 128 in Hq. unfold ARRAY_BYTES in *. lia.
Qed.

Lemma copy_array_bytes l dst src : bytes dst -> bytes src -> bytes (copy_array l dst src).
Proof. intros Hd Hs. apply Forall_app. split; [by apply Forall_take|by apply Forall_drop]. Qed.

(** A whole-array copy: the default length covers all 128 bytes. *)
Lemma copy_array_full dst src :
  length dst = ARRAY_BYTES -> length src = ARRAY_BYTES ->
  copy_array LC_BF_DFT_LEN dst src = src.
Proof.
  intros Hd Hs. unfold copy_array, ARRAY_BYTES in *.
  change (Z.to_nat (LC_BF_DFT_LEN / 8)) with 128%nat.
  rewrite take_ge, drop_ge by lia. apply app_nil_r.
Qed.

Lemma div8_fits l n :
  0 < l <= LC_BF_DFT_LEN -> n = ARRAY_BYTES -> l / SIZE_CHAR <= Z.of_nat n.
Proof.
  intros Hl ->. unfold LC_BF_DFT_LEN, SIZE_CHAR, ARRAY_BYTES in *.
  pose proof (Z.div_le_mono l 1024 8 ltac:(lia) ltac:(lia)) as Hq.
  change (1024 / 8) with 128 in Hq. lia.
Qed.

(** The filter bf_gdt_insert_filter leaves in the new slot. *)
Definition inserted (m : mem) (bf : bloom_filter) (junk : nat -> Z) : bloom_filter :=
  let x := created m (bf_id bf) (len bf) (port_no bf) junk in
  set_array x (copy_array (len bf) (array x) (array bf)).

Lemma after_add_filter_at m g gd arr fs x :
  mem_wf m -> gdt_ok m g gd fs -> bf_array gd = Some arr -> (length fs < 64)%nat ->
  filter_ok (after_create m x) (m_next m) x ->
  filter_ok (after_add m g gd arr fs x) (m_next m) x.
Proof.
  intros Hw Hok Harr Hlt Hx.
  eapply go_filters; [by apply gdt_ok_after_add|]. apply elem_of_app. right. by left.
Qed.

Lemma put_array_snoc fs b x a :
  put_array (fs ++ [(b, x)]) (length fs) a = fs ++ [(b, set_array x a)].
Proof.
  unfold put_array. rewrite list_lookup_middle by done.
  rewrite insert_app_r_alt by lia. by rewrite Nat.sub_diag.
Qed.

Lemma gdt_insert_filter_ok alloc m g gd fs arr bf j1 j2 :
  mem_wf m -> gdt_ok m g gd fs -> bf_array gd = Some arr ->
  alloc (m_next m) = Some j1 -> alloc (S (m_next m)) = Some j2 -> valid_filter bf ->
  bf_gdt_insert_filter alloc (Some g) (Some bf) m
  = if decide (length fs = 64%nat) then Ret (None, m)
    else Ret (Some (m_next m),
              upd (after_add m g gd arr fs (created m (bf_id bf) (len bf) (port_no bf) j1))
                  (m_next m) (BFilter (inserted m bf j1))).
Proof.
  intros Hw Hok Harr H1 H2 [Hl Hb Hs]. unfold bf_gdt_insert_filter.
  set (x := created m (bf_id bf) (len bf) (port_no bf) j1).
  pose proof (gdt_add_filter_ok alloc m g gd fs arr (bf_id bf) (port_no bf) (len bf)
                j1 j2 Hw Hok Harr H1 H2 Hl) as E.
  pose proof (go_max _ _ _ _ Hok). revert E. case_decide as D; intros E.
  { by rewrite (cstate_bind_step _ _ _ _ _ E). }
  rewrite (cstate_bind_step _ _ _ _ _ E). fold x.
  assert (filter_ok (after_add m g gd arr fs x) (m_next m) x) as Hx.
  { apply after_add_filter_at; [done|done|done|lia|]. by apply created_ok. }
  rewrite (cstate_bind_step _ _ _ x _) by (apply load_filter_ok, Hx).
  rewrite (lift_bind_ok _ (copy_array (len bf) (array x) (array bf))).
  2:{ change (len x) with (len bf). apply memcpy_ok; apply div8_fits; try done. apply Hx. }
  erewrite cstate_bind_step; [done|]. eapply store_ok, Hx.
Qed.

(** ** The table as a list of entries *)

(** What a slot means to the rest of the switch: a filter without its pointers. *)
Record entry := MkEntry { e_id : Z; e_port : Z; e_array : list Z }.

#[export] Instance entry_eq_dec : EqDecision entry.
Proof. solve_decision. Defined.

Definition entry_of (x : bloom_filter) : entry := MkEntry (bf_id x) (port_no x) (array x).

Definition with_array (e : entry) (a : list Z) : entry := MkEntry (e_id e) (e_port e) a.

Definition entry_has (e : entry) (key : list Z) : bool :=
  has_key LC_BF_DFT_LEN (e_array e) key.

Abbreviation table := (list entry).

Definition tab_find (t : table) (id : Z) : option entry :=
  find_first (fun e => e_id e =? id) t.

Definition tab_check (t : table) (key : list Z) : option entry :=
  find_first (fun e => entry_has e key) t.

Definition tab_add_filter (t : table) (id port : Z) : bool * table :=
  if decide (length t = 64%nat) then (false, t)
  else (true, t ++ [MkEntry id port (replicate ARRAY_BYTES 0)]).

Definition tab_update (t : table) (e : entry) : Z * table :=
  match find_pos (fun e' => e_id e' =? e_id e) t with
  | Some (i, e') =>
      if decide (e_array e' = e_array e) then (-1, t)
      else (1, <[i := with_array e' (e_array e)]> t)
  | None => if decide (length t = 64%nat) then (2, t) else (2, t ++ [e])
  end.

Definition tab_add_item (t : table) (id : Z) (key : list Z) : Z * table :=
  match find_pos (fun e => e_id e =? id) t with
  | Some (i, e) => (0, <[i := with_array e (insert_key LC_BF_DFT_LEN (e_array e) key)]> t)
  | None => (-1, t)
  end.

(** Deletion moves the last entry into the hole. *)
Definition tab_del (t : table) (id : Z) : Z * table :=
  match find_pos (fun e => e_id e =? id) t with
  | Some (i, _) => (0, swap_remove i t)
  | None => (1, t)
  end.

Definition valid_entry (e : entry) : Prop :=
  bytes (e_array e) /\ length (e_array e) = ARRAY_BYTES.

(** The memory holds table [t] at [g]: the invariant, and every filter at the default
    length, which is the only one the program uses. *)
Definition table_rep (m : mem) (g : nat) (t : table) : Prop :=
  exists gd fs, gdt_ok m g gd fs /\ mem_wf m
    /\ (forall b x, (b, x) ∈ fs -> len x = LC_BF_DFT_LEN)
    /\ t = (fun p => entry_of p.2) <$> fs.

Lemma entry_of_set_array x a : entry_of (set_array x a) = with_array (entry_of x) a.
Proof. done. Qed.

Lemma rep_put_array m g gd fs i b x a :
  gdt_ok m g gd fs -> mem_wf m -> (forall b x, (b, x) ∈ fs -> len x = LC_BF_DFT_LEN) ->
  fs !! i = Some (b, x) -> bytes a -> length a = ARRAY_BYTES ->
  table_rep (upd m b (BFilter (set_array x a))) g
    (<[i := with_array (entry_of x) a]> ((fun p => entry_of p.2) <$> fs)).
Proof.
  intros Hok Hw Hlen Hi Ha Hla. exists gd, (put_array fs i a). split_and!.
  - by apply gdt_ok_put_array.
  - apply upd_wf; [done|]. pose proof (gdt_filter_at _ _ _ _ _ _ _ Hok Hi) as Hx.
    rewrite (fo_at _ _ _ Hx). eauto.
  - intros b' x' Hin. unfold put_array in Hin. rewrite Hi in Hin.
    apply list_elem_of_lookup in Hin as [j Hj].
    rewrite list_lookup_insert_spec in Hj by (by eapply lookup_lt_Some).
    case_decide; simplify_eq.
    + simpl. eapply Hlen. by eapply list_elem_of_lookup_2.
    + eapply Hlen. by eapply list_elem_of_lookup_2.
  - unfold put_array. rewrite Hi, list_fmap_insert. done.
Qed.

Lemma filter_ok_valid m b x : filter_ok m b x -> valid_filter x.
Proof. intros [? ? ? ? ? ?]. by split. Qed.

Lemma rep_check m g t key :
  table_rep m g t ->
  exists p, bf_gdt_check (Some g) key m = Ret (p, m)
    /\ match tab_check t key with
       | Some e => exists b x, p = Some b /\ load_filter p m = Ret (x, m) /\ entry_of x = e
                    /\ valid_filter x /\ len x = LC_BF_DFT_LEN
       | None => p = None
       end.
Proof.
  intros (gd & fs & Hok & Hw & Hlen & ->). eexists.
  split; [by eapply gdt_check_ok|]. unfold tab_check. rewrite find_first_fmap.
  rewrite (find_first_ext (fun p : nat * bloom_filter => has_key (len p.2) (array p.2) key)
                          (fun p => entry_has (entry_of p.2) key)).
  2:{ intros [b x] Hin. simpl. by rewrite (Hlen _ _ Hin). }
  destruct (find_first _ fs) as [[b x]|] eqn:E; [|done].
  apply find_first_Some in E as [_ Hin]. exists b, x.
  split_and!; [done| |done| |by eapply Hlen].
  - apply load_filter_ok. by eapply Hok.
  - by eapply filter_ok_valid, Hok.
Qed.

Lemma rep_find m g t id :
  table_rep m g t ->
  exists p, bf_gdt_find_filter (Some g) id m = Ret (p, m)
    /\ match tab_find t id with
       | Some e => exists b x, p = Some b /\ load_filter p m = Ret (x, m) /\ entry_of x = e
                    /\ valid_filter x /\ len x = LC_BF_DFT_LEN
       | None => p = None
       end.
Proof.
  intros (gd & fs & Hok & Hw & Hlen & ->). eexists.
  split; [by eapply gdt_find_ok|]. unfold tab_find. rewrite find_first_fmap. simpl.
  destruct (find_first _ fs) as [[b x]|] eqn:E; [|done].
  apply find_first_Some in E as [_ Hin]. exists b, x.
  split_and!; [done| |done| |by eapply Hlen].
  - apply load_filter_ok. by eapply Hok.
  - by eapply filter_ok_valid, Hok.
Qed.

Lemma rep_add_item m g t id key :
  table_rep m g t ->
  exists m', bf_gdt_add_item (Some g) id key m = Ret ((tab_add_item t id key).1, m')
          /\ table_rep m' g (tab_add_item t id key).2.
Proof.
  intros (gd & fs & Hok & Hw & Hlen & ->). rewrite (gdt_add_item_ok _ _ _ _ _ _ Hok).
  unfold tab_add_item. rewrite find_pos_fmap, find_first_pos. simpl.
  destruct (find_pos _ fs) as [[i [b x]]|] eqn:E; simpl.
  - apply find_pos_Some in E as [Hi _].
    pose proof (gdt_filter_at _ _ _ _ _ _ _ Hok Hi) as Hx.
    assert (len x = LC_BF_DFT_LEN) as El
      by (eapply Hlen; by eapply list_elem_of_lookup_2).
    eexists. split; [done|]. rewrite El. apply rep_put_array with (gd := gd); try done.
    + apply insert_key_bytes; [unfold LC_BF_DFT_LEN; lia| |]; apply Hx.
    + rewrite length_insert_key. apply Hx.
  - eexists. split; [done|]. by exists gd, fs.
Qed.

(** Allocation never fails: the setting of the update and insertion results. *)
Definition alloc_succeeds (alloc : nat -> option (nat -> Z)) : Prop :=
  forall n, is_Some (alloc n).

Lemma rep_max m g t : table_rep m g t -> (length t <= 64)%nat.
Proof. intros (gd & fs & Hok & _ & _ & ->). rewrite length_fmap. apply Hok. Qed.

Lemma created_dft_array m id port j :
  array (created m id LC_BF_DFT_LEN port j) = replicate ARRAY_BYTES 0.
Proof.
  unfold created. cbn [array]. change (Z.to_nat (LC_BF_DFT_LEN / 8)) with ARRAY_BYTES.
  rewrite drop_ge; [apply app_nil_r|]. rewrite length_fresh_array. done.
Qed.

Lemma rep_after_add m g gd arr fs x :
  gdt_ok m g gd fs -> mem_wf m -> (forall b x, (b, x) ∈ fs -> len x = LC_BF_DFT_LEN) ->
  bf_array gd = Some arr -> (length fs < 64)%nat -> len x = LC_BF_DFT_LEN ->
  filter_ok (after_create m x) (m_next m) x ->
  table_rep (after_add m g gd arr fs x) g
    (((fun p => entry_of p.2) <$> fs) ++ [entry_of x]).
Proof.
  intros Hok Hw Hlen Harr Hlt Hx Hfo. do 2 eexists. split_and!.
  - by apply gdt_ok_after_add.
  - by eapply mem_wf_after_add.
  - intros b y [Hin|Hin]%elem_of_app; [by eapply Hlen|].
    apply list_elem_of_singleton in Hin. by simplify_eq.
  - by rewrite fmap_app.
Qed.

(** A pointer just returned, and the filter it leads to. *)
Definition read_new (p : ptr) (m : mem) (x : bloom_filter) : Prop :=
  p <> None /\ load_filter p m = Ret (x, m).

Lemma after_add_lookup m g gd arr fs x :
  mem_wf m -> is_Some (m_heap m !! g) -> is_Some (m_heap m !! arr) ->
  m_heap (after_add m g gd arr fs x) !! m_next m = Some (BFilter x).
Proof.
  intros Hw Hg Ha. pose proof (Hw _ Hg). pose proof (Hw _ Ha).
  unfold after_add, after_create. cbn [upd m_heap].
  rewrite !lookup_insert_ne by lia. apply lookup_insert_eq.
Qed.

(** Adding a filter leaves the other members of the table as they are. *)
Lemma rep_add_filter_gid alloc m g gd t id port p m' :
  alloc_succeeds alloc -> table_rep m g t -> m_heap m !! g = Some (BGdt gd) ->
  bf_gdt_add_filter alloc (Some g) id port LC_BF_DFT_LEN m = Ret (p, m') ->
  exists gd', m_heap m' !! g = Some (BGdt gd') /\ gid gd' = gid gd.
Proof.
  intros Hal (gd0 & fs & Hok & Hw & _ & _) Hg E.
  destruct (go_arr _ _ _ _ Hok) as (arr & Harr & _).
  destruct (Hal (m_next m)) as [j1 H1], (Hal (S (m_next m))) as [j2 H2].
  rewrite (gdt_add_filter_ok alloc m g gd0 fs arr id port LC_BF_DFT_LEN j1 j2 Hw Hok
             Harr H1 H2 ltac:(unfold LC_BF_DFT_LEN; lia)) in E.
  pose proof (go_at _ _ _ _ Hok) as Hg'. rewrite Hg in Hg'. injection Hg' as <-.
  revert E. case_decide; intros E; simplify_eq; [by exists gd|].
  eexists. split; [apply lookup_insert_eq|done].
Qed.

Lemma rep_add_filter alloc m g t id port :
  alloc_succeeds alloc -> table_rep m g t ->
  exists p m', bf_gdt_add_filter alloc (Some g) id port LC_BF_DFT_LEN m = Ret (p, m')
    /\ (if (tab_add_filter t id port).1
        then exists x, read_new p m' x
             /\ entry_of x = MkEntry id port (replicate ARRAY_BYTES 0)
        else p = None)
    /\ table_rep m' g (tab_add_filter t id port).2.
Proof.
  intros Hal Hrep. pose proof Hrep as (gd & fs & Hok & Hw & Hlen & ->).
  destruct (go_arr _ _ _ _ Hok) as (arr & Harr & Hat).
  destruct (Hal (m_next m)) as [j1 H1], (Hal (S (m_next m))) as [j2 H2].
  pose proof (gdt_add_filter_ok alloc m g gd fs arr id port LC_BF_DFT_LEN j1 j2 Hw Hok
                Harr H1 H2 ltac:(unfold LC_BF_DFT_LEN; lia)) as E.
  unfold tab_add_filter. rewrite length_fmap. pose proof (go_max _ _ _ _ Hok).
  revert E. case_decide; intros E; do 2 eexists; (split; [exact E|]); [done|].
  split.
  - cbn [fst]. eexists. split; [split; [done|]|].
    + apply load_filter_ok. apply after_add_lookup; [done|..].
      * rewrite (go_at _ _ _ _ Hok). eauto.
      * rewrite Hat. eauto.
    + unfold entry_of. by rewrite created_dft_array.
  - cbn [snd]. rewrite <- (created_dft_array m id port j1).
    apply rep_after_add; try done; [lia|]. by apply created_ok.
Qed.

Lemma find_pos_rep id fs :
  find_pos (fun e => e_id e =? id) ((fun p : nat * bloom_filter => entry_of p.2) <$> fs)
  = (fun y => (y.1, entry_of y.2.2)) <$> find_pos (fun p => bf_id p.2 =? id) fs.
Proof. by rewrite find_pos_fmap. Qed.

Lemma take_dft (a : list Z) : length a = ARRAY_BYTES -> take (Z.to_nat (LC_BF_DFT_LEN / 8)) a = a.
Proof. intros H. by rewrite take_ge by (by rewrite H). Qed.

Lemma rep_update alloc m g t bf :
  alloc_succeeds alloc -> table_rep m g t -> valid_filter bf -> len bf = LC_BF_DFT_LEN ->
  exists m', bf_gdt_update_filter alloc (Some g) (Some bf) m
             = Ret ((tab_update t (entry_of bf)).1, m')
          /\ table_rep m' g (tab_update t (entry_of bf)).2.
Proof.
  intros Hal Hrep Hbf Hl. pose proof Hrep as (gd & fs & Hok & Hw & Hlen & ->).
  unfold bf_gdt_update_filter, tab_update.
  rewrite (cstate_bind_step _ _ _ _ _ (gdt_find_ok _ _ _ _ _ Hok)), find_first_pos.
  rewrite find_pos_rep. simpl e_id.
  destruct (find_pos _ fs) as [[i [b x]]|] eqn:E; cbn [fmap option_fmap option_map fst snd].
  - apply find_pos_Some in E as [Hi _].
    pose proof (gdt_filter_at _ _ _ _ _ _ _ Hok Hi) as Hx.
    assert (len x = LC_BF_DFT_LEN) as El
      by (eapply Hlen; by eapply list_elem_of_lookup_2).
    rewrite (cstate_bind_step _ _ _ x m) by (apply load_filter_ok, Hx).
    erewrite lift_bind_ok
      by (apply memeq_ok; apply div8_fits; rewrite ?El; try apply Hx; try apply Hbf;
          unfold LC_BF_DFT_LEN; lia).
    rewrite El. unfold SIZE_CHAR.
    rewrite !take_dft by (apply Hx || apply Hbf).
    rewrite bool_decide_decide. cbn [entry_of e_array].
    destruct (decide (array x = array bf)) as [Ea|Ea]; cbn [fst snd].
    { eexists. split; [done|]. exact Hrep. }
    erewrite lift_bind_ok
      by (apply memcpy_ok; apply (div8_fits LC_BF_DFT_LEN);
          try apply Hx; try apply Hbf; unfold LC_BF_DFT_LEN; lia).
    fold (copy_array LC_BF_DFT_LEN (array x) (array bf)).
    rewrite copy_array_full by (apply Hx || apply Hbf).
    eexists. split; [erewrite cstate_bind_step; [done|]; eapply store_ok, Hx|].
    apply rep_put_array with (gd := gd); try done; apply Hbf.
  - destruct (go_arr _ _ _ _ Hok) as (arr & Harr & _).
    destruct (Hal (m_next m)) as [j1 H1], (Hal (S (m_next m))) as [j2 H2].
    pose proof (gdt_insert_filter_ok alloc m g gd fs arr bf j1 j2 Hw Hok Harr H1 H2 Hbf) as Ei.
    rewrite length_fmap. pose proof (go_max _ _ _ _ Hok).
    revert Ei. case_decide as D; intros Ei; rewrite (cstate_bind_step _ _ _ _ _ Ei).
    { eexists. split; [done|]. exact Hrep. }
    eexists. split; [done|]. cbn [snd].
    set (x := created m (bf_id bf) (len bf) (port_no bf) j1).
    assert (filter_ok (after_create m x) (m_next m) x) as Hx by (apply created_ok, Hbf).
    assert (entry_of bf = entry_of (set_array x (array bf))) as -> by done.
    replace (inserted m bf j1) with (set_array x (array bf)).
    2:{ unfold inserted. fold x. f_equal. symmetry. rewrite Hl. apply copy_array_full;
          [apply Hx|apply Hbf]. }
    pose proof (gdt_ok_after_add m g gd arr fs x Hw Hok Harr ltac:(lia) Hx) as Hok'.
    pose proof (rep_put_array (after_add m g gd arr fs x) g _ _ (length fs) (m_next m) x (array bf)
      Hok' (mem_wf_after_add _ _ _ _ _ _ Hw Hok Harr)) as R.
    assert (((fun p => entry_of p.2) <$> fs) ++ [entry_of (set_array x (array bf))]
      = <[length fs := with_array (entry_of x) (array bf)]>
          ((fun p : nat * bloom_filter => entry_of p.2) <$> fs ++ [(m_next m, x)])) as ->.
    { rewrite fmap_app, insert_app_r_alt by (rewrite length_fmap; lia).
      by rewrite length_fmap, Nat.sub_diag. }
    apply R; [|by rewrite list_lookup_middle|apply Hbf|apply Hbf].
    intros b y [Hin|Hin]%elem_of_app; [by eapply Hlen|].
    apply list_elem_of_singleton in Hin. by simplify_eq.
Qed.

(** *** Deletion *)

Lemma slots_swap_remove fs i :
  (length fs <= 64)%nat -> (i < length fs)%nat ->
  <[(length fs - 1)%nat := None]>
    (match fs !! (length fs - 1)%nat with
     | Some z => <[i := Some z.1]> (slots fs) | None => slots fs end)
  = slots (swap_remove i fs).
Proof.
  intros Hm Hi. destruct (lookup_lt_is_Some_2 fs (length fs - 1)) as [[b x] Hz]; [lia|].
  rewrite Hz. apply list_eq. intros j.
  rewrite list_lookup_insert_spec by (rewrite length_insert, length_slots; lia).
  rewrite list_lookup_insert_spec by (rewrite length_slots; lia).
  rewrite !slots_lookup, swap_remove_lookup, length_swap_remove, Hz by done.
  destruct (decide (length fs - 1 = j)%nat) as [<-|Hne].
  - rewrite (decide_False (P := (length fs - 1 < length fs - 1)%nat)) by lia.
    by rewrite decide_True by lia.
  - destruct (decide (j < length fs - 1)%nat) as [Hj|Hj].
    + destruct (decide (i = j)) as [<-|]; [done|].
      by destruct (lookup_lt_is_Some_2 fs j) as [[? ?] ->]; [lia|].
    + rewrite decide_False by lia. rewrite lookup_ge_None_2 by lia.
      repeat case_decide; done || lia.
Qed.

Definition after_del (m : mem) (g : nat) (gd : bf_gdt) (arr : nat)
    (fs : list (nat * bloom_filter)) (i b : nat) : mem :=
  upd (upd (MkMem (m_next m) (delete b (m_heap m))) arr (BPtrs (slots (swap_remove i fs))))
      g (BGdt (MkGdt (gid gd) (nbf gd - 1) (bf_array gd))).

(** The assignments of the hit branch, for the filter [x] in slot [i]. *)
Lemma del_hit m g gd fs arr i b x :
  gdt_ok m g gd fs -> bf_array gd = Some arr -> fs !! i = Some (b, x) ->
  (_ ← free (base (Some b));
   let last := Z.to_nat (u32 (nbf gd - 1)) in
   _ ← (if Z.of_nat i =? u32 (nbf gd - 1) then mret tt
        else q ← load_slot gd last; store_slot gd i q);
   _ ← store_slot gd last None;
   _ ← store (Some g) (BGdt (MkGdt (gid gd) (u32 (nbf gd - 1)) (bf_array gd)));
   mret 0) m
  = Ret (0, after_del m g gd arr fs i b).
Proof.
  intros Hok Harr Hi. pose proof (lookup_lt_Some _ _ _ Hi) as Hlt.
  pose proof (fo_at _ _ _ (gdt_filter_at _ _ _ _ _ _ _ Hok Hi)) as Hb.
  destruct (go_arr _ _ _ _ Hok) as (arr' & Ha' & Hs). rewrite Harr in Ha'. injection Ha' as <-.
  pose proof (go_at _ _ _ _ Hok) as Hg. pose proof (go_max _ _ _ _ Hok) as Hm.
  rewrite (go_nbf _ _ _ _ Hok).
  rewrite (wrap_small 32) by (change (2 ^ 32) with 4294967296; lia).
  replace (Z.to_nat (Z.of_nat (length fs) - 1)) with (length fs - 1)%nat by lia.
  set (m1 := MkMem (m_next m) (delete b (m_heap m))).
  rewrite (cstate_bind_step _ _ _ tt m1) by (unfold free; simpl; by rewrite Hb).
  assert (m_heap m1 !! arr = Some (BPtrs (slots fs))) as Hs1
    by (simpl; rewrite lookup_delete_ne by congruence; done).
  assert (m_heap m1 !! g = Some (BGdt gd)) as Hg1
    by (simpl; rewrite lookup_delete_ne by congruence; done).
  destruct (lookup_lt_is_Some_2 fs (length fs - 1)) as [[c z] Hz]; [lia|].
  set (ps := <[i := Some c]> (slots fs)).
  assert (forall mm qs, m_heap mm !! arr = Some (BPtrs qs) -> forall j p, (j < length qs)%nat ->
    store_slot gd j p mm = Ret (tt, upd mm arr (BPtrs (<[j := p]> qs)))) as Hstore.
  { intros mm qs Hq j p Hj. unfold store_slot. rewrite Harr. mem_step.
    rewrite bool_decide_true by done. by eapply store_ok. }
  rewrite (cstate_bind_step _ _ _ tt (upd m1 arr (BPtrs ps))).
  2:{ assert (slots fs !! i = Some (Some b)) as Hib by (by rewrite slots_lookup, Hi).
      destruct (Z.eqb_spec (Z.of_nat i) (Z.of_nat (length fs) - 1)) as [E|E].
      - assert (i = (length fs - 1)%nat) as -> by lia. rewrite Hi in Hz. simplify_eq.
        unfold ps. rewrite list_insert_id by done. unfold mret, cstate_ret, upd. do 2 f_equal.
        unfold m1. simpl. f_equal. symmetry. by apply insert_id.
      - rewrite (cstate_bind_step _ _ _ (Some c) m1).
        2:{ unfold load_slot. rewrite Harr. mem_step. by rewrite slots_lookup, Hz. }
        apply Hstore; [done|]. rewrite length_slots; lia. }
  erewrite cstate_bind_step.
  2:{ apply (Hstore _ ps); [apply lookup_insert_eq|].
      unfold ps. rewrite length_insert, length_slots; lia. }
  erewrite cstate_bind_step.
  2:{ eapply store_ok. simpl. rewrite !lookup_insert_ne by congruence. exact Hg1. }
  unfold mret, cstate_ret, after_del, upd. simpl. rewrite insert_insert_eq.
  rewrite <- (slots_swap_remove fs i Hm Hlt), Hz, (go_nbf _ _ _ _ Hok). done.
Qed.

Lemma del_loop_ok m g gd fs arr id n i :
  gdt_ok m g gd fs -> bf_array gd = Some arr -> (i + n = length fs)%nat ->
  del_loop (Some g) id n i m
  = match find_pos (fun p => bf_id p.2 =? id) (drop i fs) with
    | Some (k, (b, _)) => Ret (0, after_del m g gd arr fs (i + k) b)
    | None => Ret (1, m)
    end.
Proof.
  intros Hok Harr. revert i. induction n as [|n IH]; intros i Hn; cbn [del_loop].
  { by rewrite drop_ge by lia. }
  destruct (slots_left_cons fs n i Hn) as ([b x] & Hi & ->).
  rewrite (cstate_bind_step _ _ _ gd m) by (apply load_gdt_ok, Hok).
  rewrite (cstate_bind_step _ _ _ _ _ (load_slot_ok _ _ _ _ _ _ _ Hok Hi)).
  rewrite (cstate_bind_step _ _ _ x m)
    by (apply load_filter_ok, (gdt_filter_at _ _ _ _ _ _ _ Hok Hi)).
  cbn [find_pos snd fst]. destruct (bf_id x =? id).
  - rewrite Nat.add_0_r. by eapply del_hit.
  - rewrite IH by lia. destruct (find_pos _ (drop (S i) fs)) as [[k [c y]]|]; [|done].
    cbn. by rewrite Nat.add_succ_r.
Qed.

Lemma swap_remove_elem {A} (l : list A) i x : x ∈ swap_remove i l -> x ∈ l.
Proof.
  intros Hx. destruct (lookup_lt_is_Some_2 (swap_remove i l) 0) as [? ?].
  { destruct (swap_remove i l); [by apply not_elem_of_nil in Hx|simpl; lia]. }
  destruct (decide (i < length l)%nat) as [Hi|Hi].
  - destruct (lookup_lt_is_Some_2 l i Hi) as [y Hy].
    rewrite <- (swap_remove_perm l i y Hy). by right.
  - unfold swap_remove in Hx. destruct (last l) eqn:E; [|by apply not_elem_of_nil in Hx].
    rewrite list_insert_ge in Hx by lia.
    apply (subseteq_take (length l - 1) l) in Hx. done.
Qed.

Lemma gdt_ok_after_del m g gd fs arr i b x :
  gdt_ok m g gd fs -> bf_array gd = Some arr -> fs !! i = Some (b, x) ->
  gdt_ok (after_del m g gd arr fs i b) g (MkGdt (gid gd) (nbf gd - 1) (bf_array gd))
         (swap_remove i fs).
Proof.
  intros Hok Harr Hi. pose proof (lookup_lt_Some _ _ _ Hi) as Hlt.
  pose proof (fo_at _ _ _ (gdt_filter_at _ _ _ _ _ _ _ Hok Hi)) as Hb.
  destruct Hok as [Hat (arr' & Ha' & Hs) Hn Hm Hnd Hfs].
  rewrite Harr in Ha'. injection Ha' as <-.
  pose proof (swap_remove_perm fs i _ Hi) as Hperm.
  assert (NoDup ((b, x) :: swap_remove i fs).*1) as Hnd' by (by rewrite Hperm).
  split.
  - apply lookup_insert_eq.
  - exists arr. split; [done|]. simpl. rewrite lookup_insert_ne by congruence.
    apply lookup_insert_eq.
  - rewrite length_swap_remove. simpl. lia.
  - rewrite length_swap_remove. lia.
  - by apply NoDup_cons in Hnd' as [_ ?].
  - intros c y Hin. assert (c <> b) as Hne.
    { intros ->. apply NoDup_cons in Hnd' as [Hnot _]. apply Hnot.
      apply list_elem_of_fmap. by exists (b, y). }
    pose proof (Hfs c y (swap_remove_elem _ _ _ Hin)) as Hy.
    assert (filter_ok (MkMem (m_next m) (delete b (m_heap m))) c y) as Hy1.
    { destruct Hy as [Hcat Hl Hby Hsz Hnf (f & Hf & Hff)]. split; try done; simpl.
      - by rewrite lookup_delete_ne by done.
      - exists f. rewrite lookup_delete_ne by congruence. done. }
    unfold after_del. apply filter_ok_other; [apply filter_ok_other; [done| |]| |];
      intros z; simpl; rewrite ?lookup_insert_ne, ?lookup_delete_ne by congruence; congruence.
Qed.

Lemma rep_del m g t id :
  table_rep m g t ->
  exists m', bf_gdt_del_filter (Some g) id m = Ret ((tab_del t id).1, m')
          /\ table_rep m' g (tab_del t id).2.
Proof.
  intros (gd & fs & Hok & Hw & Hlen & ->).
  destruct (go_arr _ _ _ _ Hok) as (arr & Harr & Hs).
  unfold bf_gdt_del_filter, tab_del. rewrite find_pos_rep.
  rewrite (cstate_bind_step _ _ _ gd m) by (apply load_gdt_ok, Hok).
  rewrite (go_nbf _ _ _ _ Hok), Nat2Z.id.
  rewrite (del_loop_ok _ _ _ _ _ id _ _ Hok Harr) by done. rewrite drop_0.
  destruct (find_pos _ fs) as [[i [b x]]|] eqn:E; cbn [fmap option_fmap option_map fst snd].
  - apply find_pos_Some in E as [Hi _]. eexists. split; [done|].
    do 2 eexists. split_and!.
    + by eapply gdt_ok_after_del.
    + pose proof (fo_at _ _ _ (gdt_filter_at _ _ _ _ _ _ _ Hok Hi)) as Hb.
      pose proof (go_at _ _ _ _ Hok) as Hg.
      apply upd_wf; [apply upd_wf|].
      * intros c Hc. simpl in *. apply Hw. rewrite lookup_delete in Hc. by case_decide.
      * simpl. rewrite lookup_delete_ne by congruence. eauto.
      * simpl. rewrite lookup_insert_ne, lookup_delete_ne by congruence. eauto.
    + intros c y Hin%swap_remove_elem. by eapply Hlen.
    + apply list_eq. intros j. rewrite list_lookup_fmap, !swap_remove_lookup, !list_lookup_fmap, length_fmap
        by (try rewrite length_fmap; by apply lookup_lt_Some in Hi).
      by repeat case_decide.
  - eexists. split; [done|]. by exists gd, fs.
Qed.

Lemma rep_init alloc group :
  alloc_succeeds alloc ->
  exists g m', bf_gdt_init alloc group mem_empty = Ret (Some g, m')
    /\ (exists arr, m_heap m' !! g = Some (BGdt (MkGdt group 0 (Some arr))))
    /\ table_rep m' g [].
Proof.
  intros Hal. destruct (Hal 0%nat) as [j0 H0], (Hal 1%nat) as [j1 H1].
  exists 0%nat. eexists. split.
  - unfold bf_gdt_init.
    rewrite (cstate_bind_step _ _ _ _ _ (malloc_ok alloc _ mem_empty j0 H0)).
    rewrite (cstate_bind_step _ _ _ _ _ (malloc_ok alloc _ (MkMem 1 _) j1 H1)).
    erewrite cstate_bind_step; [done|]. eapply store_ok. reflexivity.
  - split; [by exists 1%nat|]. exists (MkGdt group 0 (Some 1%nat)), []. split_and!.
    + split; [reflexivity| | | | |].
      * exists 1%nat. split; reflexivity.
      * reflexivity.
      * simpl. lia.
      * constructor.
      * intros b x Hin. by apply not_elem_of_nil in Hin.
    + intros b Hb. destruct b as [|[|b]]; simpl; [lia|lia|].
      exfalso. revert Hb. simpl. rewrite !lookup_insert_ne by lia. intros [? E].
      by rewrite lookup_empty in E.
    + intros b x Hin. by apply not_elem_of_nil in Hin.
    + done.
Qed.

(** ** The table as a finite map

    With distinct switch ids, the list is a representation of a map from id to
    port and bit array; the slot order is not observable through the map. *)

Definition tab_map (t : table) : gmap Z (Z * list Z) :=
  list_to_map ((fun e => (e_id e, (e_port e, e_array e))) <$> t).

Definition tab_ids (t : table) : list Z := e_id <$> t.

Lemma tab_map_lookup t id :
  tab_map t !! id = (fun e => (e_port e, e_array e)) <$> tab_find t id.
Proof.
  unfold tab_find. induction t as [|e t IH]; [done|].
  unfold tab_map in *. csimpl. rewrite lookup_insert.
  case_decide as E; destruct (Z.eqb_spec (e_id e) id); done.
Qed.

Lemma tab_find_pos t id : tab_find t id = snd <$> find_pos (fun e => e_id e =? id) t.
Proof. apply find_first_pos. Qed.

Lemma tab_map_keys t :
  ((fun e => (e_id e, (e_port e, e_array e))) <$> t).*1 = tab_ids t.
Proof. unfold tab_ids. by rewrite <- list_fmap_compose. Qed.

Lemma tab_map_size t : NoDup (tab_ids t) -> size (tab_map t) = length t.
Proof.
  intros H. unfold tab_map. rewrite map_size_list_to_map by (by rewrite tab_map_keys).
  apply length_fmap.
Qed.

Lemma tab_map_put t id i e a :
  find_pos (fun e => e_id e =? id) t = Some (i, e) ->
  tab_map (<[i := with_array e a]> t) = <[id := (e_port e, a)]> (tab_map t).
Proof.
  unfold tab_map. revert i. induction t as [|e' t IH]; intros i; csimpl; [done|].
  destruct (Z.eqb_spec (e_id e') id) as [<-|Hne]; intros H; simplify_eq.
  - csimpl. by rewrite insert_insert_eq.
  - destruct (find_pos _ t) as [[j z]|]; simplify_eq/=. csimpl.
    rewrite (IH j) by done. by rewrite insert_insert_ne by done.
Qed.

Lemma tab_ids_put t id i e a :
  find_pos (fun e => e_id e =? id) t = Some (i, e) ->
  tab_ids (<[i := with_array e a]> t) = tab_ids t.
Proof.
  intros [Hi _]%find_pos_Some. unfold tab_ids. rewrite list_fmap_insert. simpl.
  apply list_insert_id. by rewrite list_lookup_fmap, Hi.
Qed.

Lemma tab_map_snoc t e :
  tab_find t (e_id e) = None ->
  tab_map (t ++ [e]) = <[e_id e := (e_port e, e_array e)]> (tab_map t).
Proof.
  unfold tab_find, tab_map. induction t as [|e' t IH]; csimpl; [done|].
  destruct (Z.eqb_spec (e_id e') (e_id e)) as [|Hne]; [done|]. intros H. csimpl.
  rewrite IH by done. by rewrite insert_insert_ne by done.
Qed.

Lemma tab_find_not_in t id : tab_find t id = None <-> id ∉ tab_ids t.
Proof.
  unfold tab_find, tab_ids. rewrite find_first_None. split.
  - intros H (e & -> & Hin)%list_elem_of_fmap. specialize (H _ Hin). lia.
  - intros H e Hin. apply Z.eqb_neq. intros <-. apply H, list_elem_of_fmap. eauto.
Qed.

(** *** What the searches find after an operation *)

Lemma tab_find_id t id e : tab_find t id = Some e -> e_id e = id.
Proof. intros [H _]%find_first_Some. lia. Qed.

Lemma tab_find_put t id i e a id' :
  find_pos (fun e => e_id e =? id) t = Some (i, e) ->
  tab_find (<[i := with_array e a]> t) id'
  = if decide (id' = id) then Some (with_array e a) else tab_find t id'.
Proof.
  unfold tab_find. revert i. induction t as [|e' t IH]; intros i; csimpl; [done|].
  destruct (Z.eqb_spec (e_id e') id) as [E|Hne]; intros H; simplify_eq/=.
  - case_decide as D; subst; [by rewrite Z.eqb_refl|].
    by destruct (Z.eqb_spec (e_id e) id').
  - destruct (find_pos _ t) as [[j w]|]; simplify_eq/=. rewrite (IH j) by done.
    case_decide as D; subst; [|done]. destruct (Z.eqb_spec (e_id e') id); [lia|done].
Qed.

Lemma tab_find_snoc t e id :
  tab_find (t ++ [e]) id
  = match tab_find t id with Some x => Some x | None => if e_id e =? id then Some e else None end.
Proof.
  unfold tab_find. induction t as [|e' t IH]; csimpl; [done|].
  by destruct (Z.eqb_spec (e_id e') id).
Qed.

Lemma tab_update_find t e id :
  is_Some (tab_find t (e_id e)) \/ length t <> 64%nat ->
  tab_find (tab_update t e).2 id
  = if decide (id = e_id e)
    then Some (with_array (default e (tab_find t (e_id e))) (e_array e))
    else tab_find t id.
Proof.
  rewrite tab_find_pos. unfold tab_update.
  destruct (find_pos (fun e' => e_id e' =? e_id e) t) as [[i e']|] eqn:E; simpl; intros Hroom.
  - case_decide as Ha; simpl; [|by apply tab_find_put].
    case_decide as D; [|done]. subst id.
    rewrite tab_find_pos, E. simpl. f_equal. destruct e'; unfold with_array; simpl in *. congruence.
  - destruct Hroom as [[? ?]|Hroom]; [done|].
    rewrite decide_False by done. cbn [snd].
    assert (tab_find t (e_id e) = None) as Hn by (by rewrite tab_find_pos, E).
    rewrite tab_find_snoc. case_decide as D.
    + subst id. rewrite Hn, Z.eqb_refl. by destruct e.
    + destruct (Z.eqb_spec (e_id e) id); [congruence|]. by destruct (tab_find t id).
Qed.

Lemma tab_add_item_find t id key id' :
  tab_find (tab_add_item t id key).2 id'
  = if decide (id' = id)
    then (fun e => with_array e (insert_key LC_BF_DFT_LEN (e_array e) key)) <$> tab_find t id
    else tab_find t id'.
Proof.
  unfold tab_add_item. rewrite (tab_find_pos t id).
  destruct (find_pos (fun e => e_id e =? id) t) as [[i e']|] eqn:E; simpl.
  - by apply tab_find_put.
  - case_decide; [subst|done]. by rewrite tab_find_pos, E.
Qed.

Lemma tab_add_filter_find t id port id' :
  length t <> 64%nat ->
  tab_find (tab_add_filter t id port).2 id'
  = match tab_find t id' with
    | Some e => Some e
    | None => if id =? id' then Some (MkEntry id port (replicate ARRAY_BYTES 0)) else None
    end.
Proof. intros Hl. unfold tab_add_filter. rewrite decide_False by done. apply tab_find_snoc. Qed.

Lemma tab_check_Some t key e : tab_check t key = Some e -> entry_has e key = true /\ e ∈ t.
Proof. apply (find_first_Some (fun e => entry_has e key)). Qed.

Lemma tab_check_hit t e key :
  e ∈ t -> entry_has e key = true -> exists e', tab_check t key = Some e'.
Proof.
  intros Hin Hk. destruct (tab_check t key) as [e'|] eqn:E; [eauto|].
  apply find_first_None with (x := e) in E; [congruence|done].
Qed.

Lemma tab_find_elem t id e : tab_find t id = Some e -> e ∈ t.
Proof. intros H. by apply find_first_Some in H as [_ ?]. Qed.

Lemma tab_map_del t i e :
  NoDup (tab_ids t) -> t !! i = Some e ->
  tab_map (swap_remove i t) = delete (e_id e) (tab_map t)
  /\ NoDup (tab_ids (swap_remove i t)).
Proof.
  intros Hnd Hi. pose proof (swap_remove_perm t i e Hi) as Hp.
  assert (NoDup (tab_ids (e :: swap_remove i t))) as Hnd'
    by (unfold tab_ids in *; by rewrite Hp).
  assert (tab_map t = tab_map (e :: swap_remove i t)) as ->.
  { unfold tab_map. apply list_to_map_proper; [by rewrite tab_map_keys|by rewrite Hp]. }
  apply NoDup_cons in Hnd' as [Hnot Hnd']. split; [|done].
  unfold tab_map at 2. csimpl. symmetry. apply delete_insert_id.
  fold (tab_map (swap_remove i t)). rewrite tab_map_lookup.
  by apply tab_find_not_in in Hnot as ->.
Qed.

(** The operations whose effect on the map the program relies on. *)
Inductive gdt_op :=
  | OpUpdate (e : entry)
  | OpAddItem (id : Z) (key : list Z)
  | OpDel (id : Z).

Definition filter_of (e : entry) : bloom_filter :=
  MkBf (e_id e) LC_BF_DFT_LEN (e_port e) (e_array e) 2 None.

Definition run_op (alloc : nat -> option (nat -> Z)) (g : nat) (o : gdt_op) : cstate mem Z :=
  match o with
  | OpUpdate e => bf_gdt_update_filter alloc (Some g) (Some (filter_of e))
  | OpAddItem id key => bf_gdt_add_item (Some g) id key
  | OpDel id => bf_gdt_del_filter (Some g) id
  end.

Fixpoint run_ops (alloc : nat -> option (nat -> Z)) (g : nat) (os : list gdt_op)
  : cstate mem (list Z) :=
  match os with
  | [] => mret []
  | o :: os' => r ← run_op alloc g o; rs ← run_ops alloc g os'; mret (r :: rs)
  end.

(** The specification: a map of bounded size. *)
Definition map_op (o : gdt_op) (M : gmap Z (Z * list Z)) : Z * gmap Z (Z * list Z) :=
  match o with
  | OpUpdate e =>
      match M !! e_id e with
      | Some (p, a) =>
          if decide (a = e_array e) then (-1, M) else (1, <[e_id e := (p, e_array e)]> M)
      | None => if decide (size M = 64%nat) then (2, M)
                else (2, <[e_id e := (e_port e, e_array e)]> M)
      end
  | OpAddItem id key =>
      match M !! id with
      | Some (p, a) => (0, <[id := (p, insert_key LC_BF_DFT_LEN a key)]> M)
      | None => (-1, M)
      end
  | OpDel id => match M !! id with Some _ => (0, delete id M) | None => (1, M) end
  end.

Fixpoint map_ops (os : list gdt_op) (M : gmap Z (Z * list Z))
  : list Z * gmap Z (Z * list Z) :=
  match os with
  | [] => ([], M)
  | o :: os' => ((map_op o M).1 :: (map_ops os' (map_op o M).2).1, (map_ops os' (map_op o M).2).2)
  end.

Definition tab_op (o : gdt_op) (t : table) : Z * table :=
  match o with
  | OpUpdate e => tab_update t e
  | OpAddItem id key => tab_add_item t id key
  | OpDel id => tab_del t id
  end.

Definition valid_op (o : gdt_op) : Prop :=
  match o with OpUpdate e => valid_entry e | _ => True end.

Lemma tab_op_map o t :
  NoDup (tab_ids t) ->
  map_op o (tab_map t) = ((tab_op o t).1, tab_map (tab_op o t).2)
  /\ NoDup (tab_ids (tab_op o t).2).
Proof.
  intros Hnd. destruct o as [e|id key|id]; simpl;
    unfold tab_update, tab_add_item, tab_del;
    rewrite tab_map_lookup, tab_find_pos; destruct (find_pos _ t) as [[i e']|] eqn:E; simpl.
  - case_decide; simpl; [done|]. erewrite tab_map_put, tab_ids_put by done. done.
  - assert (tab_find t (e_id e) = None) as Hn by (by rewrite tab_find_pos, E).
    rewrite tab_map_size by done. case_decide; simpl; [done|].
    rewrite tab_map_snoc by done. split; [done|].
    apply tab_find_not_in in Hn. unfold tab_ids in *. rewrite fmap_app. simpl.
    apply NoDup_app. split_and!; [done| |apply NoDup_singleton].
    intros x Hx ->%list_elem_of_singleton. done.
  - erewrite tab_map_put, tab_ids_put by done. done.
  - done.
  - apply find_pos_Some in E as [Hi He]. apply Z.eqb_eq in He as <-.
    destruct (tab_map_del t i e' Hnd Hi) as [-> ?]. done.
  - done.
Qed.

Lemma run_op_ok alloc m g t o :
  alloc_succeeds alloc -> table_rep m g t -> valid_op o ->
  exists m', run_op alloc g o m = Ret ((tab_op o t).1, m') /\ table_rep m' g (tab_op o t).2.
Proof.
  intros Hal Hr Hv. destruct o as [e|id key|id]; cbn [run_op tab_op].
  - replace (tab_update t e) with (tab_update t (entry_of (filter_of e))) by (by destruct e).
    apply rep_update; [done|done| |done]. destruct Hv. split; [|done|done].
    simpl. unfold LC_BF_DFT_LEN. lia.
  - by apply rep_add_item.
  - by apply rep_del.
Qed.

(** The table view of a sequence of operations. *)
Definition tab_ops (os : list gdt_op) (t : table) : table :=
  foldl (fun t o => (tab_op o t).2) t os.

Lemma run_ops_rep alloc m g t os :
  alloc_succeeds alloc -> table_rep m g t -> Forall valid_op os ->
  exists rs m', run_ops alloc g os m = Ret (rs, m') /\ table_rep m' g (tab_ops os t).
Proof.
  intros Hal Hr Hv. revert m t Hr. induction Hv as [|o os Ho _ IH]; intros m t Hr.
  { by exists [], m. }
  destruct (run_op_ok alloc m g t o Hal Hr Ho) as (m1 & E1 & Hr1).
  destruct (IH _ _ Hr1) as (rs & m' & E2 & Hr2). eexists _, m'. split; [|exact Hr2].
  cbn [run_ops]. rewrite (cstate_bind_step _ _ _ _ _ E1).
  by rewrite (cstate_bind_step _ _ _ _ _ E2).
Qed.

(** ** The interface of the table

    What ovs-vswitchd and the datapath use of a [struct bf_gdt]: the calls they make, with
    filters read through the returned pointers, and laws stated on the list of entries. *)

Class GroupTable (T : Type) := {
  gt_find : Z -> cstate T (option bloom_filter);
  gt_check : list Z -> cstate T (option bloom_filter);
  gt_update : bloom_filter -> cstate T Z;
  gt_add_filter : Z -> Z -> Z -> cstate T (option bloom_filter);
  gt_add_item : Z -> list Z -> cstate T Z;
  gt_del : Z -> cstate T Z;
  gt_destroy : cstate T Z
}.

Definition reads_entry (r : option bloom_filter) (o : option entry) : Prop :=
  entry_of <$> r = o /\ forall x, r = Some x -> valid_filter x /\ len x = LC_BF_DFT_LEN.

Class GroupTableLaws (T : Type) `{GroupTable T} := {
  gt_rep : T -> table -> Prop;
  gt_find_ok s t id :
    gt_rep s t -> exists r, gt_find id s = Ret (r, s) /\ reads_entry r (tab_find t id);
  gt_check_ok s t key :
    gt_rep s t -> exists r, gt_check key s = Ret (r, s) /\ reads_entry r (tab_check t key);
  gt_update_ok s t bf :
    gt_rep s t -> valid_filter bf -> len bf = LC_BF_DFT_LEN ->
    exists s', gt_update bf s = Ret ((tab_update t (entry_of bf)).1, s')
            /\ gt_rep s' (tab_update t (entry_of bf)).2;
  gt_add_filter_ok s t id port :
    gt_rep s t ->
    exists r s', gt_add_filter id port LC_BF_DFT_LEN s = Ret (r, s')
      /\ entry_of <$> r = (if (tab_add_filter t id port).1
                           then Some (MkEntry id port (replicate ARRAY_BYTES 0)) else None)
      /\ gt_rep s' (tab_add_filter t id port).2;
  gt_add_item_ok s t id key :
    gt_rep s t ->
    exists s', gt_add_item id key s = Ret ((tab_add_item t id key).1, s')
            /\ gt_rep s' (tab_add_item t id key).2;
  gt_del_ok s t id :
    gt_rep s t ->
    exists s', gt_del id s = Ret ((tab_del t id).1, s') /\ gt_rep s' (tab_del t id).2;
  gt_rep_fun s t1 t2 : gt_rep s t1 -> gt_rep s t2 -> t1 = t2
}.

(** The heap implementation: a memory and the address of the table in it. *)
Definition heap_table : Type := mem * nat.

Definition on_heap {A} (f : ptr -> cstate mem A) : cstate heap_table A := fun s =>
  match f (Some s.2) s.1 with Ret (a, m) => Ret (a, (m, s.2)) | Stuck e => Stuck e end.

(** [p = f(gdt)] followed by the reads of [*p]. *)
Definition read_filter (c : cstate mem ptr) : cstate mem (option bloom_filter) :=
  p ← c;
  match p with
  | None => mret None
  | Some _ => x ← load_filter p; mret (Some x)
  end.

Definition heap_GroupTable (alloc : nat -> option (nat -> Z)) : GroupTable heap_table := {|
  gt_find id := on_heap (fun g => read_filter (bf_gdt_find_filter g id));
  gt_check key := on_heap (fun g => read_filter (bf_gdt_check g key));
  gt_update bf := on_heap (fun g => bf_gdt_update_filter alloc g (Some bf));
  gt_add_filter id port l :=
    on_heap (fun g => read_filter (bf_gdt_add_filter alloc g id port l));
  gt_add_item id key := on_heap (fun g => bf_gdt_add_item g id key);
  gt_del id := on_heap (fun g => bf_gdt_del_filter g id);
  gt_destroy := on_heap bf_gdt_destroy
|}.

Lemma on_heap_ok {A} (f : ptr -> cstate mem A) m g a m' :
  f (Some g) m = Ret (a, m') -> on_heap f (m, g) = Ret (a, (m', g)).
Proof. intros E. unfold on_heap. simpl. by rewrite E. Qed.

Lemma read_filter_ok c m p m' x :
  c m = Ret (p, m') -> p <> None -> load_filter p m' = Ret (x, m') ->
  read_filter c m = Ret (Some x, m').
Proof.
  intros Hc Hp Hx. unfold read_filter. rewrite (cstate_bind_step _ _ _ _ _ Hc).
  destruct p; [|done]. by rewrite (cstate_bind_step _ _ _ _ _ Hx).
Qed.

Lemma read_filter_none c m m' : c m = Ret (None, m') -> read_filter c m = Ret (None, m').
Proof. intros Hc. unfold read_filter. by rewrite (cstate_bind_step _ _ _ _ _ Hc). Qed.

Lemma read_filter_rep c m (o : option entry) p :
  c m = Ret (p, m) ->
  match o with
  | Some e => exists b x, p = Some b /\ load_filter p m = Ret (x, m) /\ entry_of x = e
                /\ valid_filter x /\ len x = LC_BF_DFT_LEN
  | None => p = None
  end ->
  exists r, read_filter c m = Ret (r, m) /\ reads_entry r o.
Proof.
  intros Hc Ho. destruct o as [e|].
  - destruct Ho as (b & x & -> & Hl & He & Hv & Hlen). exists (Some x).
    split; [by eapply read_filter_ok|]. split; [by rewrite <- He|].
    intros y [= <-]. done.
  - subst p. exists None. split; [by apply read_filter_none|]. by split.
Qed.

Definition heap_rep (s : heap_table) (t : table) : Prop := table_rep s.1 s.2 t.

(** A heap represents one table. *)
Lemma slots_inj fs1 fs2 : length fs1 = length fs2 -> slots fs1 = slots fs2 -> fs1.*1 = fs2.*1.
Proof.
  unfold slots. intros Hl E. rewrite Hl in E.
  apply app_inj_1 in E as [E _]; [|by rewrite !length_fmap].
  by apply (inj (fmap Some)) in E.
Qed.

Lemma gdt_ok_fun m g gd1 gd2 fs1 fs2 :
  gdt_ok m g gd1 fs1 -> gdt_ok m g gd2 fs2 -> fs1 = fs2.
Proof.
  intros Hok1 Hok2. pose proof (go_at _ _ _ _ Hok1) as Hg. rewrite (go_at _ _ _ _ Hok2) in Hg.
  injection Hg as ->.
  assert (length fs1 = length fs2) as Hl
    by (apply Nat2Z.inj; by rewrite <- (go_nbf _ _ _ _ Hok1), <- (go_nbf _ _ _ _ Hok2)).
  destruct (go_arr _ _ _ _ Hok1) as (a1 & Ha1 & Hs1), (go_arr _ _ _ _ Hok2) as (a2 & Ha2 & Hs2).
  rewrite Ha1 in Ha2. injection Ha2 as <-. rewrite Hs1 in Hs2. injection Hs2 as Hs.
  pose proof (slots_inj _ _ Hl Hs) as Hf. apply list_eq. intros i.
  destruct (fs1 !! i) as [[b x]|] eqn:E1.
  - assert (fs2.*1 !! i = Some b) as Hb by (by rewrite <- Hf, list_lookup_fmap, E1).
    rewrite list_lookup_fmap in Hb. destruct (fs2 !! i) as [[b' y]|] eqn:E2; [|done].
    injection Hb as ->.
    pose proof (fo_at _ _ _ (gdt_filter_at _ _ _ _ _ _ _ Hok1 E1)) as F1.
    rewrite (fo_at _ _ _ (gdt_filter_at _ _ _ _ _ _ _ Hok2 E2)) in F1. by injection F1 as ->.
  - symmetry. apply lookup_ge_None. rewrite <- Hl. by apply lookup_ge_None.
Qed.

Lemma table_rep_fun m g t1 t2 : table_rep m g t1 -> table_rep m g t2 -> t1 = t2.
Proof.
  intros (gd1 & fs1 & H1 & _ & _ & ->) (gd2 & fs2 & H2 & _ & _ & ->).
  by rewrite (gdt_ok_fun _ _ _ _ _ _ H1 H2).
Qed.

Program Definition heap_GroupTableLaws (alloc : nat -> option (nat -> Z))
    (Hal : alloc_succeeds alloc) : @GroupTableLaws heap_table (heap_GroupTable alloc) :=
  {| gt_rep := heap_rep |}.
Next Obligation.
  intros alloc Hal [m g] t id Hr. destruct (rep_find _ _ _ id Hr) as (p & Hp & Hm).
  destruct (read_filter_rep _ _ _ _ Hp Hm) as (r & E & Hread).
  exists r. split; [by apply on_heap_ok|done].
Qed.
Next Obligation.
  intros alloc Hal [m g] t key Hr. destruct (rep_check _ _ _ key Hr) as (p & Hp & Hm).
  destruct (read_filter_rep _ _ _ _ Hp Hm) as (r & E & Hread).
  exists r. split; [by apply on_heap_ok|done].
Qed.
Next Obligation.
  intros alloc Hal [m g] t bf Hr Hv Hl.
  destruct (rep_update alloc m g t bf Hal Hr Hv Hl) as (m' & E & Hr').
  exists (m', g). split; [by apply on_heap_ok|done].
Qed.
Next Obligation.
  intros alloc Hal [m g] t id port Hr.
  destruct (rep_add_filter alloc m g t id port Hal Hr) as (p & m' & E & Hp & Hr').
  destruct (tab_add_filter t id port).1.
  - destruct Hp as (x & [Hne Hl] & He). exists (Some x), (m', g).
    split; [apply on_heap_ok; by eapply read_filter_ok|]. simpl. by rewrite He.
  - subst p. exists None, (m', g). split; [by apply on_heap_ok, read_filter_none|done].
Qed.
Next Obligation.
  intros alloc Hal [m g] t id key Hr. destruct (rep_add_item m g t id key Hr) as (m' & E & Hr').
  exists (m', g). split; [by apply on_heap_ok|done].
Qed.
Next Obligation.
  intros alloc Hal [m g] t id Hr. destruct (rep_del m g t id Hr) as (m' & E & Hr').
  exists (m', g). split; [by apply on_heap_ok|done].
Qed.

Next Obligation. intros alloc Hal [m g] t1 t2. apply table_rep_fun. Qed.

(** ** Properties *)

(** C4: lib/bf-gdt.c implements a map from switch id to filter.  From any table with
    distinct ids, a sequence of bf_gdt_update_filter, bf_gdt_add_item and
    bf_gdt_del_filter calls never faults, returns the codes of the map specification
    (-1 no change or unknown, 0 done, 1 updated or not found, 2 new), leaves the memory
    representing the resulting map, keeps the ids distinct, and bf_gdt_find_filter then
    finds exactly the ids in the map. *)
Theorem gdt_refines_map alloc m g t os :
  alloc_succeeds alloc -> table_rep m g t -> NoDup (tab_ids t) -> Forall valid_op os ->
  exists m' t',
    run_ops alloc g os m = Ret ((map_ops os (tab_map t)).1, m')
    /\ table_rep m' g t' /\ NoDup (tab_ids t')
    /\ tab_map t' = (map_ops os (tab_map t)).2
    /\ forall id, exists p, bf_gdt_find_filter (Some g) id m' = Ret (p, m')
         /\ (p = None <-> (map_ops os (tab_map t)).2 !! id = None).
Proof.
  intros Hal Hr Hnd Hv. revert m t Hr Hnd. induction Hv as [|o os Ho Hos IH]; intros m t Hr Hnd.
  - exists m, t. cbn [map_ops fst snd]. split_and!; try done. intros id.
    destruct (rep_find m g t id Hr) as (p & Hp & Hm). exists p. split; [done|].
    rewrite tab_map_lookup. destruct (tab_find t id); naive_solver.
  - destruct (run_op_ok alloc m g t o Hal Hr Ho) as (m1 & E1 & Hr1).
    destruct (tab_op_map o t Hnd) as [Em Hnd1].
    destruct (IH _ _ Hr1 Hnd1) as (m' & t' & E2 & Hr2 & Hnd2 & Et & Hfind).
    exists m', t'. cbn [map_ops fst snd]. rewrite Em. cbn [fst snd]. split_and!; try done.
    cbn [run_ops]. rewrite (cstate_bind_step _ _ _ _ _ E1).
    by rewrite (cstate_bind_step _ _ _ _ _ E2).
Qed.

Definition demo_alloc : nat -> option (nat -> Z) := fun _ => Some (fun _ => 165).
Definition demo_entry (id : Z) : entry := MkEntry id 1 (replicate ARRAY_BYTES 7).

Lemma demo_entry_valid id : valid_entry (demo_entry id).
Proof. split; [apply Forall_replicate; unfold is_byte; lia|reflexivity]. Qed.

Lemma demo_alloc_succeeds : alloc_succeeds demo_alloc.
Proof. intros n. eexists. reflexivity. Qed.

(** A table just made by bf_gdt_init, for witnesses. *)
Definition demo_mem : mem :=
  match bf_gdt_init demo_alloc 0 mem_empty with Ret (_, m) => m | Stuck _ => mem_empty end.

Lemma demo_rep : table_rep demo_mem 0 [].
Proof.
  destruct (rep_init demo_alloc 0 demo_alloc_succeeds) as (g & m' & E & _ & Hr).
  unfold demo_mem. rewrite E. assert (g = 0%nat) as <-; [|done].
  revert E. vm_compute. congruence.
Qed.

(** The same table after some operations. *)
Definition demo_after (os : list gdt_op) : mem :=
  match run_ops demo_alloc 0 os demo_mem with Ret (_, m) => m | Stuck _ => demo_mem end.

Lemma demo_after_rep os : Forall valid_op os -> table_rep (demo_after os) 0 (tab_ops os []).
Proof.
  intros Hv.
  destruct (run_ops_rep demo_alloc demo_mem 0 [] os demo_alloc_succeeds demo_rep Hv)
    as (rs & m' & E & Hr).
  unfold demo_after. by rewrite E.
Qed.

Definition demo_updates (n : nat) : list gdt_op :=
  (fun i => OpUpdate (demo_entry (Z.of_nat i))) <$> seq 0 n.

Lemma demo_updates_valid n : Forall valid_op (demo_updates n).
Proof. apply Forall_fmap, Forall_true. intros i. apply demo_entry_valid. Qed.

Example gdt_refines_map_witness :
  let os := [OpUpdate (demo_entry 1); OpUpdate (demo_entry 2); OpAddItem 2 [0x41];
             OpUpdate (demo_entry 1); OpDel 1; OpDel 1] in
  exists m' t',
    run_ops demo_alloc 0 os demo_mem = Ret ((map_ops os (tab_map [])).1, m')
    /\ table_rep m' 0 t' /\ NoDup (tab_ids t')
    /\ tab_map t' = (map_ops os (tab_map [])).2
    /\ forall id, exists p, bf_gdt_find_filter (Some 0%nat) id m' = Ret (p, m')
         /\ (p = None <-> (map_ops os (tab_map [])).2 !! id = None).
Proof.
  apply (gdt_refines_map demo_alloc demo_mem 0 []);
    [apply demo_alloc_succeeds|apply demo_rep|constructor|].
  repeat (apply Forall_cons_2; [apply demo_entry_valid || exact I|]). apply Forall_nil_2.
Defined.

(** Bf_gdt_check never misses: when some filter of the table holds the key (all of
    its bits set), a filter is returned, it holds the key, and no filter in an earlier
    slot does; when none does, NULL is returned. *)
Theorem gdt_check_first_match m g t key :
  table_rep m g t ->
  exists p, bf_gdt_check (Some g) key m = Ret (p, m)
    /\ match p with
       | Some b => exists i e x, t !! i = Some e /\ entry_has e key = true
                    /\ load_filter (Some b) m = Ret (x, m) /\ entry_of x = e
                    /\ (forall j e', (j < i)%nat -> t !! j = Some e' -> entry_has e' key = false)
       | None => forall e, e ∈ t -> entry_has e key = false
       end.
Proof.
  intros Hr. destruct (rep_check m g t key Hr) as (p & Hp & Hm). exists p. split; [done|].
  unfold tab_check in Hm. rewrite find_first_pos in Hm.
  destruct (find_pos _ t) as [[i e]|] eqn:E; simpl in Hm.
  - destruct Hm as (b & x & -> & Hl & He & _). destruct (find_pos_Some _ _ _ _ E) as [Hi Hh].
    exists i, e, x. split_and!; try done. intros j e' Hj Hj'.
    exact (find_pos_first (fun e => entry_has e key) _ _ _ _ _ E Hj Hj').
  - subst p. by apply find_pos_None.
Qed.

Example gdt_check_first_match_witness :
  exists p, bf_gdt_check (Some 0%nat) [0x41] demo_mem = Ret (p, demo_mem)
    /\ match p with
       | Some b => exists i e x, @nil entry !! i = Some e /\ entry_has e [0x41] = true
                    /\ load_filter (Some b) demo_mem = Ret (x, demo_mem) /\ entry_of x = e
                    /\ (forall j e', (j < i)%nat -> @nil entry !! j = Some e' -> entry_has e' [0x41] = false)
       | None => forall e, e ∈ @nil entry -> entry_has e [0x41] = false
       end.
Proof. apply (gdt_check_first_match demo_mem 0 []). apply demo_rep. Defined.

(** A full table swallows new switches: with 64 filters and an id that is not among
    them, bf_gdt_update_filter inserts nothing and leaves the memory as it was, yet it
    returns 2, the code for "added". *)
Theorem gdt_update_full alloc m g t e :
  alloc_succeeds alloc -> table_rep m g t -> length t = 64%nat ->
  valid_entry e -> e_id e ∉ tab_ids t ->
  bf_gdt_update_filter alloc (Some g) (Some (filter_of e)) m = Ret (2, m).
Proof.
  intros Hal Hr Hlen He Hnot. pose proof Hr as (gd & fs & Hok & Hw & Hl & ->).
  apply tab_find_not_in in Hnot. unfold tab_find in Hnot.
  rewrite find_first_fmap in Hnot. unfold bf_gdt_update_filter.
  rewrite (cstate_bind_step _ _ _ _ _ (gdt_find_ok _ _ _ _ _ Hok)).
  change (find_first (fun p : nat * bloom_filter => e_id (entry_of p.2) =? e_id e) fs)
    with (find_first (fun p => bf_id p.2 =? bf_id (filter_of e)) fs) in Hnot.
  destruct (find_first _ fs); [done|]. cbn [fmap option_fmap option_map].
  destruct (go_arr _ _ _ _ Hok) as (arr & Harr & Hs).
  destruct (Hal (m_next m)) as [j1 H1], (Hal (S (m_next m))) as [j2 H2].
  rewrite length_fmap in Hlen.
  erewrite (cstate_bind_step _ _ _ (None : ptr) m); [done|].
  rewrite (gdt_insert_filter_ok alloc m g gd fs arr (filter_of e) j1 j2 Hw Hok Harr H1 H2).
  - by rewrite decide_True.
  - destruct He. split; [|done|done]. simpl. unfold LC_BF_DFT_LEN. lia.
Qed.

Example gdt_update_full_witness :
  bf_gdt_update_filter demo_alloc (Some 0%nat) (Some (filter_of (demo_entry 100)))
    (demo_after (demo_updates 64)) = Ret (2, demo_after (demo_updates 64)).
Proof.
  apply (gdt_update_full demo_alloc _ 0 (tab_ops (demo_updates 64) [])).
  - apply demo_alloc_succeeds.
  - apply demo_after_rep, demo_updates_valid.
  - vm_compute. reflexivity.
  - apply demo_entry_valid.
  - apply (bool_decide_unpack _). vm_compute. exact I.
Defined.

(** bf_gdt_destroy frees nothing useful once the table holds a filter: it reaches
    bf_destroy's invalid free, so destroying a bridge or a datapath, whose table always
    has the local filter, has undefined behaviour. *)
Theorem gdt_destroy_faults m g t :
  table_rep m g t -> t <> [] -> bf_gdt_destroy (Some g) m = Stuck InvalidFree.
Proof.
  intros (gd & fs & Hok & Hw & Hl & ->) Hne. unfold bf_gdt_destroy.
  rewrite (cstate_bind_step _ _ _ gd m) by (apply load_gdt_ok, Hok).
  destruct (go_arr _ _ _ _ Hok) as (arr & Harr & Hs). rewrite Harr.
  rewrite (go_nbf _ _ _ _ Hok), Nat2Z.id. destruct fs as [|[b x] fs]; [done|].
  unfold mbind at 1, cstate_bind at 1. cbn [length destroy_loop].
  rewrite (cstate_bind_step _ _ _ _ _ (load_slot_ok _ _ _ _ 0 b x Hok eq_refl)).
  unfold mbind at 1, cstate_bind at 1.
  pose proof (fo_at _ _ _ (gdt_filter_at _ _ _ _ 0 _ _ Hok eq_refl)) as Hb.
  unfold bf_destroy, mbind, cstate_bind, free. by rewrite Hb.
Qed.

Example gdt_destroy_faults_witness :
  bf_gdt_destroy (Some 0%nat) (demo_after (demo_updates 1)) = Stuck InvalidFree.
Proof.
  apply (gdt_destroy_faults _ 0 (tab_ops (demo_updates 1) [])).
  - apply demo_after_rep, demo_updates_valid.
  - vm_compute. discriminate.
Defined.

(** Bf_gdt_del_filter leaks: the block of hash-function pointers of the deleted
    filter is still live afterwards, although no filter of the table refers to it any
    more than before. *)
Theorem gdt_del_leaks_funcs m g gd fs i b x f :
  gdt_ok m g gd fs -> NoDup (bf_id <$> fs.*2) -> fs !! i = Some (b, x) -> funcs x = Some f ->
  exists m', bf_gdt_del_filter (Some g) (bf_id x) m = Ret (0, m')
    /\ m_heap m' !! b = None
    /\ m_heap m' !! f = Some (BFuncs (Some <$> hashFunctions)).
Proof.
  intros Hok Hnd Hi Hf. destruct (go_arr _ _ _ _ Hok) as (arr & Harr & Hs).
  unfold bf_gdt_del_filter.
  rewrite (cstate_bind_step _ _ _ gd m) by (apply load_gdt_ok, Hok).
  rewrite (go_nbf _ _ _ _ Hok), Nat2Z.id.
  rewrite (del_loop_ok _ _ _ _ _ (bf_id x) _ _ Hok Harr) by done. rewrite drop_0.
  assert (find_pos (fun p => bf_id p.2 =? bf_id x) fs = Some (i, (b, x))) as ->.
  { apply find_pos_unique; [done|by rewrite Z.eqb_refl|].
    intros j [c y] Hj Hy%Z.eqb_eq. simpl in Hy. eapply NoDup_lookup; [exact Hnd| |];
      rewrite !list_lookup_fmap; [by rewrite Hj|rewrite Hi; simpl; congruence]. }
  eexists. split; [done|]. rewrite Nat.add_0_l.
  pose proof (gdt_filter_at _ _ _ _ _ _ _ Hok Hi) as Hx.
  pose proof (fo_at _ _ _ Hx) as Hb. destruct (fo_funcs _ _ _ Hx) as (f' & Hf' & Hff).
  pose proof (go_at _ _ _ _ Hok) as Hg. rewrite Hf in Hf'. injection Hf' as <-.
  unfold after_del. simpl. split.
  - rewrite !lookup_insert_ne by congruence. apply lookup_delete_eq.
  - rewrite !lookup_insert_ne, lookup_delete_ne by congruence. done.
Qed.

Example gdt_del_leaks_funcs_witness :
  exists gd b x f m',
    m_heap (demo_after (demo_updates 1)) !! 0%nat = Some (BGdt gd)
    /\ m_heap (demo_after (demo_updates 1)) !! b = Some (BFilter x)
    /\ bf_gdt_del_filter (Some 0%nat) (bf_id x) (demo_after (demo_updates 1)) = Ret (0, m')
    /\ m_heap m' !! b = None
    /\ m_heap m' !! f = Some (BFuncs (Some <$> hashFunctions)).
Proof.
  pose proof (demo_after_rep (demo_updates 1) (demo_updates_valid 1))
    as (gd & fs & Hok & _ & _ & Et).
  destruct fs as [|[b x] fs]; [discriminate Et|].
  destruct fs; [|discriminate Et].
  destruct (fo_funcs _ _ _ (gdt_filter_at _ _ _ _ 0 _ _ Hok eq_refl)) as (f & Hf & _).
  destruct (gdt_del_leaks_funcs _ 0 gd [(b, x)] 0 b x f Hok (NoDup_singleton _) eq_refl Hf)
    as (m' & H1 & H2 & H3).
  exists gd, b, x, f, m'. split_and!; [apply Hok|apply (gdt_filter_at _ _ _ _ 0 _ _ Hok eq_refl)|done..].
Defined.
