(* ===== verification/Mcast.v ===== *)
(** * Group state distribution (vswitchd/ovs-mcast.c, vswitchd/bridge.c)

    The LazyCtrl part of ovs-vswitchd: the per-bridge set-up (bridge_lc_init), the bodies
    of the mc_send and mc_recv loops, and the learning of local hosts from flow misses
    (handle_miss_upcalls, bridge_update_local_bf).  Apart from the set-up, the code is
    modelled over the [GroupTable] interface of BfGdt.

    What the threads read from files (/tmp/lc_gid.dat, /tmp/stat.dat) is an argument:
    [None] when the file cannot be opened. *)
From S2P Require Import Prelude LcMem Bloom BfGdt.

Local Open Scope Z_scope.

(** ** Data *)

(** lib/stat.h *)
Definition LC_NUM_STAT_ENTRY : nat := 1.

Record stat_entry := MkStat { src_sw_id : Z; dst_sw_id : Z; st_bytes : Z }.

Record stat_base := MkStatBase { st_num : Z; st_entry : list stat_entry; st_cpu : Z }.

(** vswitchd/ovs-mcast.h *)
Record mcast_msg := MkMsg { msg_gid : Z; msg_bf : bloom_filter; msg_s : stat_base }.

(** The members of [struct mc_send_arg] / [struct mc_recv_arg] that the loops read, apart
    from the table itself. *)
Record mc_arg := MkArg { group_ip : Z; mc_port : Z; mc_local_id : Z; is_DDCM : Z }.

Definition get_cpu : Z := 10.

(** The key under which a host is recorded:
    [sprintf(buf, "%02x%02x%02x%02x%02x%02x", mac[0], ..., mac[5])]. *)
Definition hexdigit (n : Z) : Z := if n <? 10 then 48 + n else 87 + n.
Definition hex2 (b : Z) : list Z := [hexdigit (b / 16); hexdigit (b `mod` 16)].
Definition mac_string (mac : list Z) : list Z := mac ≫= hex2.

Definition valid_mac (mac : list Z) : Prop := bytes mac /\ length mac = 6%nat.

(** Byte order of the host: little endian.  [htonl] swaps the four bytes, and an address
    written as four numbers is read with the first in the low byte. *)
Definition htonl (z : Z) : Z := be_value (rev (be_bytes 4 z)).
Definition inet_addr (a b c d : Z) : Z := be_value (rev [a; b; c; d]).

Definition LC_MCAST_GROUP_IP : Z := inet_addr 239 0 0 1.
Definition LC_MCAST_GROUP_PORT : Z := 5000.

(** ** The loops *)

(** The group id a thread uses: the file's, or the table's. *)
Definition thread_gid (file : option Z) (gdt_gid : Z) : Z := default gdt_gid file.

Section Daemon.
Context {T : Type} `{GroupTable T}.

(** One iteration of mc_send: the message given to sendto, if the local filter exists.
    [stat_file] is what fscanf reads from /tmp/stat.dat. *)
Definition mc_send (gid : Z) (arg : mc_arg) (stat_file : option (Z * Z))
  : cstate T (option mcast_msg) :=
  bf ← gt_find (mc_local_id arg);
  match bf with
  | None => mret None
  | Some bf =>
      let '(port, stat) := default (0, 0) stat_file in
      mret (Some (MkMsg gid bf
                   (MkStatBase 1 [MkStat (mc_local_id arg) port stat] get_cpu)))
  end.

(** [fprintf(f_stat, ...)] for the entries [i .. num-1]. *)
Fixpoint stat_lines (s : stat_base) (n i : nat) : outcome (list stat_entry) :=
  match n with
  | O => Ret []
  | S n' =>
      match st_entry s !! i with
      | Some e => rest ← stat_lines s n' (S i); Ret (e :: rest)
      | None => Stuck OutOfBounds
      end
  end.

(** What one received message leads to. *)
Record recv_out := MkRecv {
  ro_warning : bool;                      (* the message is of another group *)
  ro_to_dp : option bloom_filter;         (* argument of bridge_update_bf_gdt_to_dp *)
  ro_lines : list stat_entry;             (* lines appended to /tmp/lc_stat.dat *)
  ro_counted : bool
}.

(** One iteration of mc_recv, after recvfrom has filled [msg]; [stat_ok] says whether
    /tmp/lc_stat.dat can be opened. *)
Definition mc_recv (gid : Z) (arg : mc_arg) (stat_ok : bool) (msg : mcast_msg)
  : cstate T recv_out :=
  let warn := negb (msg_gid msg =? gid) in
  if bf_id (msg_bf msg) =? mc_local_id arg then mret (MkRecv warn None [] false)
  else
    ret ← gt_update (msg_bf msg);
    let to_dp := if 0 <? ret then Some (set_port_no (msg_bf msg) LC_BF_REMOTE_PORT)
                 else None in
    if is_DDCM arg =? 0 then mret (MkRecv warn to_dp [] true)
    else if stat_ok then
      lines ← lift (stat_lines (msg_s msg) (Z.to_nat (st_num (msg_s msg))) 0);
      mret (MkRecv warn to_dp lines true)
    else mret (MkRecv warn to_dp [] false).

(** bridge_update_local_bf; [br] is [None] when the bridge or its table is NULL. *)
Definition bridge_update_local_bf (br : option mc_arg) (src_mac : list Z) : cstate T Z :=
  match br with
  | None => mret (-1)
  | Some arg =>
      bf ← gt_find (mc_local_id arg);
      bf ← match bf with
           | None => gt_add_filter (mc_local_id arg) LC_BF_REMOTE_PORT LC_BF_DFT_LEN
           | Some _ => mret bf
           end;
      match bf with
      | None => mret (-1)
      | Some bf => gt_add_item (bf_id bf) src_mac
      end
  end.

(** The LazyCtrl part of handle_miss_upcalls, for a miss of a new flow. *)
Definition OFPP_LOCAL : Z := 0xfffe.
Definition ETH_TYPE_IP : Z := 0x0800.

Definition learn_miss (br : option mc_arg) (in_port dl_type : Z) (dl_src : list Z)
  : cstate T unit :=
  if (in_port =? OFPP_LOCAL) && (dl_type =? ETH_TYPE_IP) then
    _ ← bridge_update_local_bf br (mac_string dl_src); mret tt
  else mret tt.
End Daemon.

(** ** Set-up *)

Section Init.
Context (alloc : nat -> option (nat -> Z)).

(** bridge_lc_init: the table and the arguments of the two threads.  [file] is the group
    id and mode in /tmp/lc_gid.dat, [edge_ip] the result of get_local_edge_ip. *)
Definition bridge_lc_init (file : option (Z * Z)) (edge_ip : Z)
  : cstate mem (ptr * mc_arg * mc_arg) :=
  let '(gid0, ddcm) := default (LC_GROUP_DFT_ID, 0) file in
  gdt ← bf_gdt_init alloc gid0;
  g ← load_gdt gdt;
  let send_arg := MkArg (u32 (LC_MCAST_GROUP_IP + htonl (gid g))) LC_MCAST_GROUP_PORT
                        edge_ip 0 in
  _ ← bf_gdt_add_filter alloc gdt edge_ip LC_BF_LOCAL_PORT LC_BF_DFT_LEN;
  g ← load_gdt gdt;
  let recv_arg := MkArg (u32 (LC_MCAST_GROUP_IP + gid g)) LC_MCAST_GROUP_PORT
                        edge_ip ddcm in
  mret (gdt, send_arg, recv_arg).
End Init.

(** ** Host keys *)

Lemma hexdigit_inj a b :
  0 <= a < 16 -> 0 <= b < 16 -> hexdigit a = hexdigit b -> a = b.
Proof. unfold hexdigit. destruct (Z.ltb_spec a 10), (Z.ltb_spec b 10); lia. Qed.

Lemma hex2_inj a b : is_byte a -> is_byte b -> hex2 a = hex2 b -> a = b.
Proof.
  unfold is_byte, hex2. intros Ha Hb [= E1 E2].
  pose proof (Z.mod_pos_bound a 16 ltac:(lia)). pose proof (Z.mod_pos_bound b 16 ltac:(lia)).
  apply hexdigit_inj in E1; [|split; [apply Z.div_pos|apply Z.div_lt_upper_bound]; lia..].
  apply hexdigit_inj in E2; [|done..].
  rewrite (Z.div_mod a 16), (Z.div_mod b 16) by lia. congruence.
Qed.

(** The key determines the address: distinct hosts have distinct keys. *)
Lemma mac_string_inj m1 m2 :
  bytes m1 -> bytes m2 -> mac_string m1 = mac_string m2 -> m1 = m2.
Proof.
  intros H1. revert m2. induction H1 as [|a m1 Ha H1 IH]; intros m2 H2 E.
  - destruct H2; [done|discriminate E].
  - destruct H2 as [|b m2 Hb H2]; [discriminate E|].
    cbn in E. injection E as E1 E2 E3. f_equal.
    + apply hex2_inj; [done..|]. unfold hex2. congruence.
    + by apply IH.
Qed.

(** ** The loops against the interface *)

Section DaemonSpec.
Context {T : Type} `{GroupTableLaws T}.
Implicit Types (s : T) (t : table).

(** [msg] carries switch [id]'s entry [e]. *)
Record msg_of (msg : mcast_msg) (e : entry) : Prop := {
  mo_entry : entry_of (msg_bf msg) = e;
  mo_valid : valid_filter (msg_bf msg);
  mo_len : len (msg_bf msg) = LC_BF_DFT_LEN;
  mo_num : st_num (msg_s msg) = 1 /\ length (st_entry (msg_s msg)) = 1%nat
}.

Lemma mc_send_ok gid arg stat s t :
  gt_rep s t ->
  exists r, mc_send gid arg stat s = Ret (r, s)
    /\ match tab_find t (mc_local_id arg) with
       | Some e => exists msg, r = Some msg /\ msg_of msg e /\ msg_gid msg = gid
       | None => r = None
       end.
Proof.
  intros Hr. destruct (gt_find_ok s t (mc_local_id arg) Hr) as (o & E & He & Hv).
  unfold mc_send. rewrite (cstate_bind_step _ _ _ _ _ E).
  destruct o as [bf|]; simpl in He; rewrite <- He; [|by eexists].
  destruct (default (0, 0) stat) as [p st]. eexists. split; [done|].
  eexists. split; [done|]. destruct (Hv bf eq_refl). split; [|done]. by split.
Qed.

(** What mc_recv does with a message of another switch. *)
Definition recv_spec (arg : mc_arg) (t : table) (e : entry) (out : recv_out) : Prop :=
  match ro_to_dp out with
  | Some x => 0 < (tab_update t e).1 /\ valid_filter x /\ len x = LC_BF_DFT_LEN
              /\ entry_of x = MkEntry (e_id e) LC_BF_REMOTE_PORT (e_array e)
  | None => (tab_update t e).1 <= 0
  end.

Lemma mc_recv_ok gid arg ok s t msg e :
  gt_rep s t -> msg_of msg e -> e_id e <> mc_local_id arg ->
  exists out s', mc_recv gid arg ok msg s = Ret (out, s')
    /\ gt_rep s' (tab_update t e).2 /\ recv_spec arg t e out.
Proof.
  intros Hr [He Hv Hl [Hn Hlen]] Hne. unfold mc_recv.
  destruct (Z.eqb_spec (bf_id (msg_bf msg)) (mc_local_id arg)) as [E|_];
    [subst e; by destruct Hne|].
  destruct (gt_update_ok s t _ Hr Hv Hl) as (s' & E & Hr'). rewrite He in E, Hr'.
  rewrite (cstate_bind_step _ _ _ _ _ E).
  assert (forall w l c, recv_spec arg t e
    (MkRecv w (if 0 <? (tab_update t e).1
               then Some (set_port_no (msg_bf msg) LC_BF_REMOTE_PORT) else None) l c)) as Hs.
  { intros w l c. unfold recv_spec. simpl. destruct (Z.ltb_spec 0 (tab_update t e).1); [|done].
    destruct Hv. split_and!; [done|done|done|]. subst e. done. }
  destruct (is_DDCM arg =? 0); [eexists _, s'; by split_and!|].
  destruct ok; [|eexists _, s'; by split_and!].
  rewrite Hn. change (Z.to_nat 1) with 1%nat. unfold stat_lines.
  destruct (st_entry (msg_s msg)) as [|e1 [|]]; [done| |done].
  eexists _, s'. by split_and!.
Qed.

Lemma mc_recv_own gid arg ok s msg :
  bf_id (msg_bf msg) = mc_local_id arg ->
  exists out, mc_recv gid arg ok msg s = Ret (out, s) /\ ro_to_dp out = None.
Proof. intros E. unfold mc_recv. rewrite E, Z.eqb_refl. eexists. by split. Qed.

(** The table after a local host with key [key] is recorded. *)
Definition tab_learn (id : Z) (t : table) (key : list Z) : table :=
  match tab_find t id with
  | Some _ => (tab_add_item t id key).2
  | None => if decide (length t = 64%nat) then t
            else (tab_add_item (tab_add_filter t id LC_BF_REMOTE_PORT).2 id key).2
  end.

Lemma update_local_bf_ok arg key s t :
  gt_rep s t ->
  exists r s', bridge_update_local_bf (Some arg) key s = Ret (r, s')
    /\ gt_rep s' (tab_learn (mc_local_id arg) t key)
    /\ (r < 0 <-> tab_find t (mc_local_id arg) = None /\ length t = 64%nat).
Proof.
  intros Hr. unfold bridge_update_local_bf, tab_learn. set (id := mc_local_id arg).
  destruct (gt_find_ok s t id Hr) as (o & E & He & _).
  rewrite (cstate_bind_step _ _ _ _ _ E).
  destruct (tab_find t id) as [e|] eqn:Ef.
  - destruct o as [bf|]; [|done]. injection He as He.
    rewrite (cstate_bind_step _ _ _ (Some bf) s) by done.
    assert (bf_id bf = id) as -> by (apply tab_find_id in Ef; by subst e).
    destruct (gt_add_item_ok s t id key Hr) as (s' & E' & Hr'). eexists _, s'.
    split; [exact E'|]. split; [done|]. split; [|by intros [? _]].
    rewrite tab_find_pos in Ef. unfold tab_add_item.
    destruct (find_pos _ t) as [[i e']|]; simpl; [lia|done].
  - destruct o; [done|].
    destruct (gt_add_filter_ok s t id LC_BF_REMOTE_PORT Hr) as (r & s' & E' & Hr1 & Hr').
    rewrite (cstate_bind_step _ _ _ _ _ E'). unfold tab_add_filter in Hr1, Hr' |- *.
    case_decide as D; simpl in Hr1, Hr'.
    + destruct r; [done|]. eexists _, s'. split_and!; [done|done|]. split; [done|lia].
    + destruct r as [bf|]; [|done]. injection Hr1 as Hb _ _. rewrite Hb.
      destruct (gt_add_item_ok s' _ id key Hr') as (s2 & E2 & Hr2). eexists _, s2.
      split; [exact E2|]. split; [done|]. split; [|by intros [_ ?]].
      intros Hneg. exfalso. revert Hneg. unfold tab_add_item.
      destruct (find_pos _ _) as [[i e']|] eqn:Ep; simpl; [lia|].
      apply find_pos_None with (x := MkEntry id LC_BF_REMOTE_PORT (replicate ARRAY_BYTES 0)) in Ep.
      * by rewrite Z.eqb_refl in Ep.
      * apply elem_of_app. right. by left.
Qed.

Lemma learn_miss_ok arg in_port dl_type mac s t :
  gt_rep s t ->
  exists s', learn_miss (Some arg) in_port dl_type mac s = Ret (tt, s')
    /\ gt_rep s' (if (in_port =? OFPP_LOCAL) && (dl_type =? ETH_TYPE_IP)
                  then tab_learn (mc_local_id arg) t (mac_string mac) else t).
Proof.
  intros Hr. unfold learn_miss. destruct (_ && _); [|by exists s].
  destruct (update_local_bf_ok arg (mac_string mac) s t Hr) as (r & s' & E & Hr' & _).
  exists s'. split; [|done]. by rewrite (cstate_bind_step _ _ _ _ _ E).
Qed.
End DaemonSpec.

(** A sequence of misses: ingress port, type and source address of each. *)
Record miss := MkMiss { ms_in_port : Z; ms_dl_type : Z; ms_dl_src : list Z }.

Definition recorded (ms : list miss) : list (list Z) :=
  (fun x => mac_string (ms_dl_src x)) <$>
    filter (fun x => ms_in_port x = OFPP_LOCAL /\ ms_dl_type x = ETH_TYPE_IP) ms.

Fixpoint learn_misses {T} `{GroupTable T} (br : option mc_arg) (ms : list miss)
  : cstate T unit :=
  match ms with
  | [] => mret tt
  | x :: ms' => _ ← learn_miss br (ms_in_port x) (ms_dl_type x) (ms_dl_src x);
                learn_misses br ms'
  end.

Lemma recorded_cons x ms :
  recorded (x :: ms)
  = (if (ms_in_port x =? OFPP_LOCAL) && (ms_dl_type x =? ETH_TYPE_IP)
     then [mac_string (ms_dl_src x)] else []) ++ recorded ms.
Proof.
  unfold recorded. rewrite filter_cons.
  destruct (Z.eqb_spec (ms_in_port x) OFPP_LOCAL), (Z.eqb_spec (ms_dl_type x) ETH_TYPE_IP);
    case_decide; naive_solver.
Qed.

Lemma tab_learn_find id t key e id' :
  tab_find t id = Some e ->
  tab_find (tab_learn id t key) id'
  = if decide (id' = id) then Some (with_array e (insert_key LC_BF_DFT_LEN (e_array e) key))
    else tab_find t id'.
Proof. intros E. unfold tab_learn. by rewrite E, tab_add_item_find, E. Qed.

(** ** Group addresses *)

Lemma htonl_small z : 0 <= z < 65536 ->
  htonl z = 65536 * (256 * (z `mod` 256) + z / 256).
Proof.
  intros Hz. unfold htonl. cbn -[Z.shiftr wrap Z.add Z.mul].
  unfold be_value. cbn -[Z.shiftr wrap Z.add Z.mul].
  change (8 * 3) with 24. change (8 * 2) with 16. change (8 * 1) with 8. change (8 * 0) with 0.
  rewrite !Z.shiftr_div_pow2 by lia. unfold wrap.
  simpl Z.pow. Z.div_mod_to_equations. lia.
Qed.

(** ** Properties *)

(** One mc_send/mc_recv exchange copies the sender's local filter.  With a filter for
    its own id the sender emits a message; a receiver with another id, and with a filter
    of the sender or a free slot, then holds the sender's bits under the sender's id and
    keeps every other filter; it passes the filter on to its datapath with the remote
    port, unless it already held these bits. *)
Theorem mcast_copies_filter {T} `{GroupTableLaws T} gidS gidR argS argR stat ok
    (sS sR : T) tS tR e :
  gt_rep sS tS -> gt_rep sR tR ->
  tab_find tS (mc_local_id argS) = Some e -> mc_local_id argS <> mc_local_id argR ->
  is_Some (tab_find tR (mc_local_id argS)) \/ length tR <> 64%nat ->
  exists msg out sR' tR',
    mc_send gidS argS stat sS = Ret (Some msg, sS)
    /\ mc_recv gidR argR ok msg sR = Ret (out, sR') /\ gt_rep sR' tR'
    /\ e_array <$> tab_find tR' (mc_local_id argS) = Some (e_array e)
    /\ (forall id, id <> mc_local_id argS -> tab_find tR' id = tab_find tR id)
    /\ match ro_to_dp out with
       | Some x => entry_of x = MkEntry (mc_local_id argS) LC_BF_REMOTE_PORT (e_array e)
       | None => e_array <$> tab_find tR (mc_local_id argS) = Some (e_array e)
       end.
Proof.
  intros HS HR Hf Hne Hroom. pose proof (tab_find_id _ _ _ Hf) as Hid.
  destruct (mc_send_ok gidS argS stat sS tS HS) as (r & Es & Hm). rewrite Hf in Hm.
  destruct Hm as (msg & -> & Hmsg & _).
  destruct (mc_recv_ok gidR argR ok sR tR msg e HR Hmsg ltac:(by rewrite Hid))
    as (out & sR' & Er & HR' & Hspec).
  exists msg, out, sR', (tab_update tR e).2. rewrite <- Hid in Hroom |- *.
  split; [done|]. split; [done|]. split; [done|].
  rewrite tab_update_find, decide_True by done.
  split; [done|]. split.
  - intros id Hi. by rewrite tab_update_find, decide_False.
  - unfold recv_spec in Hspec. destruct (ro_to_dp out); [by destruct Hspec as (_ & _ & _ & ?)|].
    unfold tab_update in Hspec. rewrite tab_find_pos.
    destruct (find_pos _ tR) as [[i e']|]; simpl in *; [case_decide|case_decide];
      simpl in *; [congruence|lia..].
Qed.

(** Local hosts are recorded and stay recorded.  From a table with the local filter,
    any sequence of flow misses runs without fault, adds to the local filter exactly the
    source addresses of the IPv4 misses from the local port, so that each of them is found
    in it, and changes no other filter. *)
Theorem learn_misses_records {T} `{GroupTableLaws T} arg ms (s : T) t e :
  gt_rep s t -> tab_find t (mc_local_id arg) = Some e -> length (e_array e) = ARRAY_BYTES ->
  exists s' t', learn_misses (Some arg) ms s = Ret (tt, s') /\ gt_rep s' t'
    /\ tab_find t' (mc_local_id arg)
       = Some (with_array e (insert_keys LC_BF_DFT_LEN (e_array e) (recorded ms)))
    /\ (forall x, x ∈ ms -> ms_in_port x = OFPP_LOCAL -> ms_dl_type x = ETH_TYPE_IP ->
          has_key LC_BF_DFT_LEN (insert_keys LC_BF_DFT_LEN (e_array e) (recorded ms))
                  (mac_string (ms_dl_src x)) = true)
    /\ (forall id, id <> mc_local_id arg -> tab_find t' id = tab_find t id).
Proof.
  intros Hr Hf Hlen.
  assert (exists s' t', learn_misses (Some arg) ms s = Ret (tt, s') /\ gt_rep s' t'
    /\ tab_find t' (mc_local_id arg)
       = Some (with_array e (insert_keys LC_BF_DFT_LEN (e_array e) (recorded ms)))
    /\ (forall id, id <> mc_local_id arg -> tab_find t' id = tab_find t id))
    as (s' & t' & E & Hr' & Hf' & Ho).
  { clear Hlen. revert s t e Hr Hf. induction ms as [|x ms IH]; intros s t e Hr Hf.
    { exists s, t. rewrite Hf. by destruct e. }
    destruct (learn_miss_ok arg (ms_in_port x) (ms_dl_type x) (ms_dl_src x) s t Hr)
      as (s1 & E1 & Hr1).
    rewrite recorded_cons. cbn [learn_misses]. rewrite (cstate_bind_step _ _ _ _ _ E1).
    destruct (_ && _); [|by apply IH].
    destruct (IH s1 _ _ Hr1 ltac:(rewrite (tab_learn_find _ _ _ e), decide_True by done; done))
      as (s' & t' & E & Hr' & Hf' & Ho).
    exists s', t'. split_and!; [done|done|exact Hf'|].
    intros id Hid. rewrite Ho by done. by rewrite (tab_learn_find _ _ _ e), decide_False. }
  exists s', t'. split_and!; [done..| |done].
  intros x Hx Hp Ht. assert (0 < LC_BF_DFT_LEN <= LC_BF_DFT_LEN) as HL by (unfold LC_BF_DFT_LEN; lia).
  apply has_key_insert_keys; [done..|].
  apply list_elem_of_fmap. exists x. split; [done|]. by apply list_elem_of_filter.
Qed.

(** Bridge_lc_init sets the bridge up with a table that holds one empty filter, for the
    switch itself, and thread arguments for this switch; but the group's switches do not
    share a multicast address.  It adds htonl(gid) to the base address for sending and the
    plain gid for receiving: on a little-endian host the two addresses differ for every
    group id from 1 to 65535. *)
Theorem lc_init_ok alloc file edge_ip :
  alloc_succeeds alloc ->
  exists g sa ra m',
    bridge_lc_init alloc file edge_ip mem_empty = Ret ((Some g, sa, ra), m')
    /\ table_rep m' g [MkEntry edge_ip LC_BF_LOCAL_PORT (replicate ARRAY_BYTES 0)]
    /\ mc_local_id sa = edge_ip /\ mc_local_id ra = edge_ip
    /\ is_DDCM ra = (default (LC_GROUP_DFT_ID, 0) file).2
    /\ (0 < (default (LC_GROUP_DFT_ID, 0) file).1 < 65536 -> group_ip sa <> group_ip ra).
Proof.
  intros Hal. unfold bridge_lc_init. destruct (default _ file) as [gid0 ddcm].
  destruct (rep_init alloc gid0 Hal) as (g & m0 & E0 & [arr Hg0] & Hr0).
  destruct (rep_add_filter alloc m0 g [] edge_ip LC_BF_LOCAL_PORT Hal Hr0)
    as (p & m1 & E1 & _ & Hr1).
  destruct (rep_add_filter_gid alloc m0 g _ [] _ _ _ _ Hal Hr0 Hg0 E1) as (gd1 & Hg1 & Hgid).
  exists g. do 3 eexists. split; [|split; [exact Hr1|]].
  - rewrite (cstate_bind_step _ _ _ _ _ E0).
    rewrite (cstate_bind_step _ _ _ _ _ (load_gdt_ok _ _ _ Hg0)).
    rewrite (cstate_bind_step _ _ _ _ _ E1).
    rewrite (cstate_bind_step _ _ _ _ _ (load_gdt_ok _ _ _ Hg1)). reflexivity.
  - split_and!; [done..|]. simpl. rewrite Hgid. simpl. intros Hgz.
    rewrite htonl_small by lia. unfold wrap. change (2 ^ 32) with 4294967296.
    change LC_MCAST_GROUP_IP with 16777455.
    Z.div_mod_to_equations. lia.
Qed.

(** Mc_recv trusts the entry count of a message.  In DDCM mode, a message of another
    switch that claims more than the one entry a [struct stat_base] holds makes the
    receiver read past the array. *)
Theorem recv_stat_overflow {T} `{GroupTableLaws T} gidR arg (s : T) t msg :
  gt_rep s t -> valid_filter (msg_bf msg) -> len (msg_bf msg) = LC_BF_DFT_LEN ->
  bf_id (msg_bf msg) <> mc_local_id arg -> is_DDCM arg <> 0 ->
  length (st_entry (msg_s msg)) = LC_NUM_STAT_ENTRY -> 1 < st_num (msg_s msg) ->
  mc_recv gidR arg true msg s = Stuck OutOfBounds.
Proof.
  intros Hr Hv Hl Hid Hd Hlen Hn. unfold mc_recv.
  destruct (Z.eqb_spec (bf_id (msg_bf msg)) (mc_local_id arg)); [done|].
  destruct (gt_update_ok s t _ Hr Hv Hl) as (s' & E & _).
  rewrite (cstate_bind_step _ _ _ _ _ E).
  destruct (Z.eqb_spec (is_DDCM arg) 0); [done|].
  destruct (Z.to_nat (st_num (msg_s msg))) as [|[|k]] eqn:En; [lia..|].
  destruct (st_entry (msg_s msg)) as [|e1 [|]] eqn:Ee; [done| |done].
  unfold mbind, cstate_bind. cbn [stat_lines]. rewrite Ee. reflexivity.
Qed.

(** ** Witnesses *)

(** Two switches on the heap implementation: 1 (the sender) and 2 (the receiver). *)
Definition demo_switch (id : Z) : heap_table :=
  (demo_after [OpUpdate (demo_entry id); OpAddItem id (mac_string [0; 1; 2; 3; 4; id])], 0%nat).
Definition demo_tab (id : Z) : table :=
  tab_ops [OpUpdate (demo_entry id); OpAddItem id (mac_string [0; 1; 2; 3; 4; id])] [].
Definition demo_arg (id : Z) : mc_arg := MkArg 0 5000 id 1.

Lemma demo_switch_rep id :
  @gt_rep _ _ (heap_GroupTableLaws demo_alloc demo_alloc_succeeds) (demo_switch id) (demo_tab id).
Proof.
  apply demo_after_rep.
  apply Forall_cons_2; [apply demo_entry_valid|]. apply Forall_cons_2; [exact I|apply Forall_nil_2].
Qed.

Definition demo_local (id : Z) : entry :=
  MkEntry id 1 (insert_key LC_BF_DFT_LEN (replicate ARRAY_BYTES 7)
                           (mac_string [0; 1; 2; 3; 4; id])).

Lemma demo_tab_find1 : tab_find (demo_tab 1) 1 = Some (demo_local 1).
Proof. vm_compute. reflexivity. Qed.

Example mcast_copies_filter_witness :
  exists msg out sR' tR',
    @mc_send _ (heap_GroupTable demo_alloc) 0 (demo_arg 1) None (demo_switch 1)
      = Ret (Some msg, demo_switch 1)
    /\ @mc_recv _ (heap_GroupTable demo_alloc) 0 (demo_arg 2) true msg (demo_switch 2)
       = Ret (out, sR')
    /\ heap_rep sR' tR' /\ e_array <$> tab_find tR' 1 = Some (e_array (demo_local 1))
    /\ (forall id, id <> 1 -> tab_find tR' id = tab_find (demo_tab 2) id)
    /\ match ro_to_dp out with
       | Some x => entry_of x = MkEntry 1 LC_BF_REMOTE_PORT (e_array (demo_local 1))
       | None => e_array <$> tab_find (demo_tab 2) 1 = Some (e_array (demo_local 1))
       end.
Proof.
  apply (@mcast_copies_filter _ _ (heap_GroupTableLaws demo_alloc demo_alloc_succeeds)
           0 0 (demo_arg 1) (demo_arg 2) None true _ _ (demo_tab 1) (demo_tab 2)).
  - apply demo_switch_rep.
  - apply demo_switch_rep.
  - apply demo_tab_find1.
  - discriminate.
  - right. vm_compute. discriminate.
Defined.

Example learn_misses_records_witness :
  let ms := [MkMiss OFPP_LOCAL ETH_TYPE_IP [2; 0; 0; 0; 0; 9]; MkMiss 3 ETH_TYPE_IP [2; 0; 0; 0; 0; 8]] in
  exists s' t',
    @learn_misses _ (heap_GroupTable demo_alloc) (Some (demo_arg 1)) ms (demo_switch 1) = Ret (tt, s')
    /\ heap_rep s' t'
    /\ tab_find t' 1 = Some (with_array (demo_local 1)
         (insert_keys LC_BF_DFT_LEN (e_array (demo_local 1)) (recorded ms)))
    /\ (forall x, x ∈ ms -> ms_in_port x = OFPP_LOCAL -> ms_dl_type x = ETH_TYPE_IP ->
          has_key LC_BF_DFT_LEN (insert_keys LC_BF_DFT_LEN (e_array (demo_local 1)) (recorded ms))
                  (mac_string (ms_dl_src x)) = true)
    /\ (forall id, id <> 1 -> tab_find t' id = tab_find (demo_tab 1) id).
Proof.
  apply (@learn_misses_records _ _ (heap_GroupTableLaws demo_alloc demo_alloc_succeeds)
           (demo_arg 1) _ _ (demo_tab 1)).
  - apply demo_switch_rep.
  - apply demo_tab_find1.
  - vm_compute. reflexivity.
Defined.

Example lc_init_ok_witness :
  exists g sa ra m',
    bridge_lc_init demo_alloc (Some (7, 1)) 0xc0a8390a mem_empty = Ret ((Some g, sa, ra), m')
    /\ table_rep m' g [MkEntry 0xc0a8390a LC_BF_LOCAL_PORT (replicate ARRAY_BYTES 0)]
    /\ mc_local_id sa = 0xc0a8390a /\ mc_local_id ra = 0xc0a8390a /\ is_DDCM ra = 1
    /\ (0 < 7 < 65536 -> group_ip sa <> group_ip ra).
Proof. apply (lc_init_ok demo_alloc (Some (7, 1)) 0xc0a8390a demo_alloc_succeeds). Defined.

Example recv_stat_overflow_witness :
  @mc_recv _ (heap_GroupTable demo_alloc) 0 (demo_arg 2) true
    (MkMsg 0 (filter_of (demo_entry 1)) (MkStatBase 2 [MkStat 1 0 0] 10)) (demo_switch 2)
  = Stuck OutOfBounds.
Proof.
  apply (@recv_stat_overflow _ _ (heap_GroupTableLaws demo_alloc demo_alloc_succeeds)
           0 (demo_arg 2) _ (demo_tab 2)).
  - apply demo_switch_rep.
  - split; [split; [reflexivity|discriminate]|apply (demo_entry_valid 1)|reflexivity].
  - reflexivity.
  - discriminate.
  - discriminate.
  - reflexivity.
  - reflexivity.
Defined.
