(* ===== verification/Remote.v ===== *)
(** * Packets between edge switches (datapath/remote.c)

    A packet sent to another switch of the group travels in EtherIP: a new Ethernet header,
    an IPv4 header of protocol 97 and the two-byte EtherIP header are put in front of it,
    and taken off by the receiving switch.  [sk_buff] holds the packet bytes from
    skb->data on, and the positions of the headers as offsets in the buffer, so that
    pushing and pulling move [sk_off] and leave them alone.

    The checksum routines of the kernel are parameters; no theorem depends on them. *)
From S2P Require Import Prelude.

Local Open Scope Z_scope.

(** ** Data *)

Inductive ip_summed := OVS_CSUM_NONE | OVS_CSUM_UNNECESSARY | OVS_CSUM_COMPLETE | OVS_CSUM_PARTIAL.

#[export] Instance ip_summed_eq_dec : EqDecision ip_summed.
Proof. solve_decision. Defined.

Record sk_buff := MkSkb {
  sk_data : list Z;          (* skb->data[0 .. skb->len - 1] *)
  sk_off : Z;                (* position of skb->data in the buffer *)
  mac_header : Z;
  network_header : Z;
  transport_header : Z;
  mac_len : Z;
  protocol : Z;              (* host byte order *)
  summed : ip_summed;
  csum : Z;
  vlan_tci : Z;              (* with VLAN_TAG_PRESENT when there is a tag *)
  priority : Z;
  tun_id : Z                 (* OVS_CB(skb)->tun_id *)
}.

Definition set_data (s : sk_buff) (d : list Z) (off : Z) : sk_buff :=
  MkSkb d off (mac_header s) (network_header s) (transport_header s) (mac_len s) (protocol s)
        (summed s) (csum s) (vlan_tci s) (priority s) (tun_id s).
Definition set_mac_header (s : sk_buff) (h : Z) : sk_buff :=
  MkSkb (sk_data s) (sk_off s) h (network_header s) (transport_header s) (mac_len s) (protocol s)
        (summed s) (csum s) (vlan_tci s) (priority s) (tun_id s).
Definition set_network_header (s : sk_buff) (h : Z) : sk_buff :=
  MkSkb (sk_data s) (sk_off s) (mac_header s) h (transport_header s) (mac_len s) (protocol s)
        (summed s) (csum s) (vlan_tci s) (priority s) (tun_id s).
Definition set_csum (s : sk_buff) (c : Z) : sk_buff :=
  MkSkb (sk_data s) (sk_off s) (mac_header s) (network_header s) (transport_header s) (mac_len s)
        (protocol s) (summed s) c (vlan_tci s) (priority s) (tun_id s).
Definition set_protocol (s : sk_buff) (p : Z) : sk_buff :=
  MkSkb (sk_data s) (sk_off s) (mac_header s) (network_header s) (transport_header s) (mac_len s)
        p (summed s) (csum s) (vlan_tci s) (priority s) (tun_id s).
Definition set_mac_len (s : sk_buff) (l : Z) : sk_buff :=
  MkSkb (sk_data s) (sk_off s) (mac_header s) (network_header s) (transport_header s) l
        (protocol s) (summed s) (csum s) (vlan_tci s) (priority s) (tun_id s).
Definition set_vlan_tci (s : sk_buff) (t : Z) : sk_buff :=
  MkSkb (sk_data s) (sk_off s) (mac_header s) (network_header s) (transport_header s) (mac_len s)
        (protocol s) (summed s) (csum s) t (priority s) (tun_id s).
Definition set_priority (s : sk_buff) (p : Z) : sk_buff :=
  MkSkb (sk_data s) (sk_off s) (mac_header s) (network_header s) (transport_header s) (mac_len s)
        (protocol s) (summed s) (csum s) (vlan_tci s) p (tun_id s).
Definition set_tun_id (s : sk_buff) (t : Z) : sk_buff :=
  MkSkb (sk_data s) (sk_off s) (mac_header s) (network_header s) (transport_header s) (mac_len s)
        (protocol s) (summed s) (csum s) (vlan_tci s) (priority s) t.

Definition sk_len (s : sk_buff) : Z := Z.of_nat (length (sk_data s)).

(** [skb_push]: [bs] are the bytes the caller then writes in the new space. *)
Definition skb_push (s : sk_buff) (bs : list Z) : sk_buff :=
  set_data s (bs ++ sk_data s) (sk_off s - Z.of_nat (length bs)).

(** [skb_pull]: nothing happens when the packet is shorter than [n]. *)
Definition skb_pull (s : sk_buff) (n : Z) : sk_buff :=
  if sk_len s <? n then s
  else set_data s (drop (Z.to_nat n) (sk_data s)) (sk_off s + n).

Definition ETH_HLEN : Z := 14.
Definition ETH_ALEN : Z := 6.
Definition ETH_IP_HLEN : Z := 2.
Definition IP_HLEN : Z := 20.
Definition ETH_P_IP : Z := 0x0800.
Definition LC_REMOTE_IP_PROTO : Z := 97.
Definition gw_mac : list Z := [0x0a; 0x00; 0x27; 0x00; 0x00; 0x01].

(** [l[i .. i+n-1]], undefined when it leaves the packet. *)
Definition slice (l : list Z) (i n : nat) : outcome (list Z) :=
  if (i + n <=? length l)%nat then Ret (take n (drop i l)) else Stuck OutOfBounds.

(** ** Encapsulation *)

Section Encap.
(** [ip_fast_csum], [csum_partial] and [csum_add] of the kernel. *)
Context (ip_fast_csum : list Z -> Z) (csum_partial : list Z -> Z) (csum_add : Z -> Z -> Z).

(** The IPv4 header with [check] as its checksum field. *)
Definition ip_header (tot_len saddr daddr check : Z) : list Z :=
  [0x45; 0] ++ be_bytes 2 tot_len ++ be_bytes 2 0 ++ [0; 0; 255; LC_REMOTE_IP_PROTO]
  ++ be_bytes 2 check ++ be_bytes 4 saddr ++ be_bytes 4 daddr.

(** __remote_encapulation: [cow_ok] is the result of skb_cow_head; [None] stands for the
    skb freed.  The returned number is the function's. *)
Definition remote_encapulation (local_ip : Z) (cow_ok : bool) (skb : sk_buff) (dst_ip : Z)
  : outcome (Z * option sk_buff) :=
  if negb cow_ok then Ret (-1, None)
  else
    (* the two bytes are written as one unsigned short, 0x3, little endian *)
    let skb := skb_push skb [0x3; 0x0] in
    let tot_len := sk_len skb + IP_HLEN in
    let check := ip_fast_csum (ip_header tot_len local_ip dst_ip 0) in
    let skb := skb_push skb (ip_header tot_len local_ip dst_ip check) in
    inner ← slice (sk_data skb) (Z.to_nat (ETH_IP_HLEN + IP_HLEN)) (Z.to_nat ETH_HLEN);
    (* the inner header is copied, then type and destination are overwritten *)
    let eth := gw_mac ++ take 6 (drop 6 inner) ++ be_bytes 2 ETH_P_IP in
    let skb := skb_push skb eth in
    Ret (0, Some (set_mac_header skb
                    (mac_header skb - (ETH_IP_HLEN + IP_HLEN + ETH_HLEN)))).

(** datapath/actions.c:do_remote_encapulation.  The use of a freed skb is undefined. *)
Definition do_remote_encapulation (local_ip : Z) (cow_ok : bool) (skb : sk_buff) (dst_ip : Z)
  : outcome (Z * option sk_buff) :=
  '(r, s) ← remote_encapulation local_ip cow_ok skb dst_ip;
  if r =? 0 then Ret (-1, s)
  else
    match s with
    | None => Stuck DanglingPtr
    | Some skb =>
        if decide (summed skb = OVS_CSUM_COMPLETE) then
          hdr ← slice (sk_data skb) 0 (Z.to_nat (ETH_HLEN + IP_HLEN + ETH_IP_HLEN));
          Ret (0, Some (set_csum skb (csum_add (csum skb) (csum_partial hdr))))
        else Ret (0, Some skb)
    end.
End Encap.

(** ** Decapsulation *)

(** __remote_decapulation; the Ethernet header stays in the buffer when it is pulled, so it
    can still be read and copied afterwards.  (The buffer before skb->data is [eth].) *)
Definition remote_decapulation (skb : sk_buff) : outcome (Z * sk_buff) :=
  let skb := set_mac_header skb (sk_off skb) in
  eth ← slice (sk_data skb) 0 (Z.to_nat ETH_HLEN);
  let skb := skb_pull skb (mac_len skb) in
  if negb (be_value (drop 12 eth) =? ETH_P_IP) then Ret (-1, skb)
  else
    let skb := set_network_header skb (sk_off skb) in
    iph ← slice (sk_data skb) 0 (Z.to_nat IP_HLEN);
    let skb := skb_pull skb IP_HLEN in
    if negb (default 0 (iph !! 9%nat) =? LC_REMOTE_IP_PROTO) then Ret (-1, skb)
    else
      let skb := skb_pull skb ETH_IP_HLEN in
      d ← memcpy (sk_data skb) eth (2 * ETH_ALEN);
      Ret (0, set_data skb d (sk_off skb)).

Definition ovs_execute_decapulation (skb : option sk_buff) : outcome (Z * option sk_buff) :=
  match skb with
  | None => Ret (-1, None)
  | Some s => '(r, s') ← remote_decapulation s; Ret (r, Some s')
  end.

(** datapath/vport.c:ovs_vport_get_ip_proto, and the flag ovs_vport_receive sets from it. *)
Definition ovs_vport_get_ip_proto (skb : option sk_buff) : outcome Z :=
  match skb with
  | None => Ret (-1)
  | Some s =>
      if negb (protocol s =? ETH_P_IP) then Ret (-1)
      else
        match sk_data s !! Z.to_nat (network_header s - sk_off s + 9) with
        | Some p => Ret p
        | None => Stuck OutOfBounds
        end
  end.

Definition receive_encaped (skb : sk_buff) : outcome Z :=
  p ← ovs_vport_get_ip_proto (Some skb);
  Ret (if p =? LC_REMOTE_IP_PROTO then 1 else 0).

(** ** Shapes *)

Lemma length_ip_header l s d c : length (ip_header l s d c) = 20%nat.
Proof. reflexivity. Qed.

Lemma slice_ok l i n : (i + n <= length l)%nat -> slice l i n = Ret (take n (drop i l)).
Proof. intros H. unfold slice. by destruct (Nat.leb_spec (i + n) (length l)); [|lia]. Qed.

Lemma slice_prefix a b n : length a = n -> slice (a ++ b) 0 n = Ret a.
Proof.
  intros <-. rewrite slice_ok by (rewrite length_app; lia). by rewrite drop_0, take_app_length.
Qed.

Lemma skb_pull_app skb a b n :
  sk_data skb = a ++ b -> Z.of_nat (length a) = n ->
  skb_pull skb n = set_data skb b (sk_off skb + n).
Proof.
  intros E <-. unfold skb_pull, sk_len. rewrite E, length_app, Nat2Z.id.
  destruct (Z.ltb_spec (Z.of_nat (length a + length b)) (Z.of_nat (length a))); [lia|].
  by rewrite drop_app_length.
Qed.

(** The bytes on the wire of an encapsulated packet. *)
Definition outer (csum_fn : list Z -> Z) (local_ip dst_ip : Z) (d : list Z) : list Z :=
  let tot := Z.of_nat (length d) + 22 in
  (gw_mac ++ take 6 (drop 6 d) ++ be_bytes 2 ETH_P_IP)
  ++ ip_header tot local_ip dst_ip (csum_fn (ip_header tot local_ip dst_ip 0))
  ++ [0x3; 0x0] ++ d.

Lemma encap_ok csum_fn local_ip skb dst_ip :
  (14 <= length (sk_data skb))%nat ->
  remote_encapulation csum_fn local_ip true skb dst_ip
  = Ret (0, Some (set_mac_header
                    (set_data skb (outer csum_fn local_ip dst_ip (sk_data skb)) (sk_off skb - 36))
                    (mac_header skb - 36))).
Proof.
  intros Hl. unfold remote_encapulation, outer.
  assert (forall bs, sk_data (skb_push skb bs) = bs ++ sk_data skb) as Hp by done.
  assert (sk_len (skb_push skb [0x3; 0x0]) + IP_HLEN = Z.of_nat (length (sk_data skb)) + 22) as ->
    by (unfold sk_len, IP_HLEN; rewrite Hp, length_app; simpl length; lia).
  set (tot := _ + 22). set (c := csum_fn _). cbn [negb].
  rewrite slice_ok.
  2:{ cbn [skb_push sk_data set_data]. rewrite !length_app, length_ip_header.
      unfold ETH_IP_HLEN, IP_HLEN, ETH_HLEN. simpl length. lia. }
  change (Z.to_nat (ETH_IP_HLEN + IP_HLEN)) with 22%nat. change (Z.to_nat ETH_HLEN) with 14%nat.
  assert (drop 22 (sk_data (skb_push (skb_push skb [3; 0]) (ip_header tot local_ip dst_ip c)))
          = sk_data skb) as -> by reflexivity.
  cbn [mbind outcome_bind]. f_equal.
  rewrite skipn_firstn_comm, firstn_firstn.
  unfold skb_push, set_data, set_mac_header, ETH_IP_HLEN, IP_HLEN, ETH_HLEN. cbn [sk_data sk_off mac_header].
  rewrite !length_app, length_ip_header, length_be_bytes.
  change (min 6 (14 - 6)) with 6%nat.
  rewrite length_take, length_drop, Nat.min_l by lia. simpl length.
  by replace (sk_off skb - _ - _ - _) with (sk_off skb - 36) by lia.
Qed.

(** Decapsulation of any packet of the right shape, whatever the outer addresses. *)
Lemma decap_ok skb eth iph eip d :
  sk_data skb = eth ++ iph ++ eip ++ d ->
  length eth = 14%nat -> length iph = 20%nat -> length eip = 2%nat -> (12 <= length d)%nat ->
  mac_len skb = 14 -> be_value (drop 12 eth) = ETH_P_IP -> iph !! 9%nat = Some LC_REMOTE_IP_PROTO ->
  remote_decapulation skb
  = Ret (0, set_network_header
              (set_mac_header (set_data skb (take 12 eth ++ drop 12 d) (sk_off skb + 36))
                 (sk_off skb)) (sk_off skb + 14)).
Proof.
  intros Hd He Hi Hp Hl Hm Hproto Hip. unfold remote_decapulation.
  change (Z.to_nat ETH_HLEN) with 14%nat. cbn [set_mac_header sk_data]. rewrite Hd.
  rewrite (slice_prefix eth) by done. cbn [mbind outcome_bind].
  rewrite Hproto, Z.eqb_refl. cbn [negb mac_len].
  rewrite (skb_pull_app (set_mac_header skb (sk_off skb)) eth (iph ++ eip ++ d)
             (mac_len (set_mac_header skb (sk_off skb))))
    by (exact Hd || (rewrite He; exact (eq_sym Hm))).
  cbn [set_network_header set_data sk_data]. change (Z.to_nat IP_HLEN) with 20%nat.
  rewrite (slice_prefix iph) by done. cbn [mbind outcome_bind].
  rewrite Hip. cbn [default]. rewrite Z.eqb_refl. cbn [negb].
  set (s1 := set_network_header _ _).
  rewrite (skb_pull_app s1 iph (eip ++ d) IP_HLEN) by (by rewrite ?Hi).
  set (s2 := set_data _ _ _).
  rewrite (skb_pull_app s2 eip d ETH_IP_HLEN) by (by rewrite ?Hp). subst s1 s2.
  cbn [set_data sk_data]. change (2 * ETH_ALEN) with 12. rewrite memcpy_ok by lia.
  cbn [mbind outcome_bind]. change (Z.to_nat 12) with 12%nat.
  unfold set_data, set_network_header, set_mac_header.
  cbn [sk_data sk_off mac_header network_header transport_header mac_len protocol summed csum
       vlan_tci priority tun_id].
  unfold IP_HLEN, ETH_IP_HLEN. rewrite Hm.
  by replace (sk_off skb + 14 + _ + _) with (sk_off skb + 36) by lia.
Qed.

(** What a receiver sees of a packet sent as [d]: the outer Ethernet addresses may have been
    replaced on the way, and the IP header keeps its length and protocol. *)
Record arrives (skb : sk_buff) (macs iph d : list Z) : Prop := {
  ar_data : sk_data skb = (macs ++ be_bytes 2 ETH_P_IP) ++ iph ++ [0x3; 0x0] ++ d;
  ar_macs : length macs = 12%nat;
  ar_iph : length iph = 20%nat;
  ar_proto : iph !! 9%nat = Some LC_REMOTE_IP_PROTO;
  ar_skb : mac_len skb = 14 /\ protocol skb = ETH_P_IP /\ network_header skb = sk_off skb + 14
}.

Lemma arrives_encaped r macs iph d : arrives r macs iph d -> receive_encaped r = Ret 1.
Proof.
  intros [Hd Hm Hi Hp (Hml & Hpr & Hn)].
  unfold receive_encaped, ovs_vport_get_ip_proto. rewrite Hpr, Z.eqb_refl. cbn [negb].
  rewrite Hn, Hd. replace (Z.to_nat (sk_off r + 14 - sk_off r + 9)) with 23%nat by lia.
  rewrite lookup_app_r by (rewrite length_app, length_be_bytes; lia).
  rewrite length_app, length_be_bytes, Hm. rewrite lookup_app_l by lia. simpl Nat.sub.
  by rewrite Hp.
Qed.

(** ** Properties *)

(** C39: the receiving switch recognises and unpacks a packet sent by another switch.  The
    packet built by __remote_encapulation has the shape of [arrives] with the gateway as
    destination; any packet of that shape is taken for encapsulated, decapsulation
    succeeds, and what remains is the inner packet with its two addresses replaced by the
    outer ones: all bytes from the Ethernet type on are intact. *)
Theorem remote_roundtrip csum_fn local_ip skb dst_ip r macs iph :
  (14 <= length (sk_data skb))%nat -> arrives r macs iph (sk_data skb) ->
  (exists s, remote_encapulation csum_fn local_ip true skb dst_ip = Ret (0, Some s)
     /\ exists iph0, length iph0 = 20%nat /\ iph0 !! 9%nat = Some LC_REMOTE_IP_PROTO
     /\ sk_data s = ((gw_mac ++ take 6 (drop 6 (sk_data skb))) ++ be_bytes 2 ETH_P_IP)
                    ++ iph0 ++ [0x3; 0x0] ++ sk_data skb)
  /\ receive_encaped r = Ret 1
  /\ exists r', ovs_execute_decapulation (Some r) = Ret (0, Some r')
       /\ sk_data r' = macs ++ drop 12 (sk_data skb).
Proof.
  intros Hl Ha. pose proof Ha as [Hd Hm Hi Hp (Hml & Hpr & Hn)]. split; [|split].
  - eexists. split; [by apply encap_ok|]. eexists (ip_header _ _ _ _). split_and!.
    + apply length_ip_header.
    + reflexivity.
    + reflexivity.
  - by eapply arrives_encaped.
  - eexists. split.
    + unfold ovs_execute_decapulation.
      rewrite (decap_ok r (macs ++ be_bytes 2 ETH_P_IP) iph [0x3; 0x0] (sk_data skb)); try done.
      * by rewrite length_app, Hm.
      * lia.
      * by rewrite drop_app_length'.
    + cbn [set_network_header set_mac_header set_data sk_data].
      by rewrite take_app_length'.
Qed.

(** The inner destination address does not survive.  A packet encapsulated and
    decapsulated unchanged comes out addressed to the gateway, so it is the packet that
    went in only when that was its destination already. *)
Theorem roundtrip_loses_destination csum_fn local_ip skb dst_ip s :
  (14 <= length (sk_data skb))%nat -> mac_len skb = 14 ->
  remote_encapulation csum_fn local_ip true skb dst_ip = Ret (0, Some s) ->
  exists r, remote_decapulation s = Ret (0, r)
    /\ sk_data r = gw_mac ++ drop 6 (sk_data skb)
    /\ (sk_data r = sk_data skb <-> take 6 (sk_data skb) = gw_mac).
Proof.
  intros Hl Hm E. rewrite encap_ok in E by done. injection E as <-.
  set (s := set_mac_header _ _). set (d := sk_data skb) in *.
  assert (exists r, remote_decapulation s = Ret (0, r) /\ sk_data r = gw_mac ++ drop 6 d)
    as (r & Hr & Hrd).
  { eexists. split.
    - eapply (decap_ok s (gw_mac ++ take 6 (drop 6 d) ++ be_bytes 2 ETH_P_IP)
               (ip_header (Z.of_nat (length d) + 22) local_ip dst_ip
                 (csum_fn (ip_header (Z.of_nat (length d) + 22) local_ip dst_ip 0))) [0x3; 0x0] d); try done.
      + rewrite !length_app, length_take, length_drop, length_be_bytes. simpl length. lia.
      + lia.
      + rewrite app_assoc, drop_app_length'; [done|].
        rewrite length_app, length_take, length_drop. simpl length. lia.
    - cbn [set_network_header set_mac_header set_data sk_data].
      rewrite app_assoc, take_app_length'
        by (rewrite length_app, length_take, length_drop; simpl length; lia).
      rewrite <- app_assoc. f_equal. rewrite <- (take_drop 6 (drop 6 d)) at 2.
      by rewrite drop_drop. }
  exists r. split_and!; [done|done|]. rewrite Hrd. split.
  - intros <-. reflexivity.
  - intros <-. apply take_drop.
Qed.

(** Do_remote_encapulation takes success for failure.  When __remote_encapulation
    succeeds it returns -1 and the complete checksum of the packet is left stale; when
    __remote_encapulation fails, and has freed the packet, it goes on to use it. *)
Theorem do_encapulation_inverted csum_fn csum_partial csum_add local_ip skb dst_ip :
  (14 <= length (sk_data skb))%nat ->
  (exists s, remote_encapulation csum_fn local_ip true skb dst_ip = Ret (0, Some s)
     /\ do_remote_encapulation csum_fn csum_partial csum_add local_ip true skb dst_ip
        = Ret (-1, Some s) /\ csum s = csum skb)
  /\ do_remote_encapulation csum_fn csum_partial csum_add local_ip false skb dst_ip
     = Stuck DanglingPtr.
Proof.
  intros Hl. split; [|done]. eexists. split; [by apply encap_ok|].
  unfold do_remote_encapulation. by rewrite encap_ok.
Qed.

(** ** Witnesses *)

Definition demo_skb : sk_buff :=
  MkSkb ([2; 0; 0; 0; 0; 9] ++ [2; 0; 0; 0; 0; 8] ++ be_bytes 2 ETH_P_IP ++ replicate 30 0xab)
        100 100 114 134 14 ETH_P_IP OVS_CSUM_COMPLETE 7 0 0 0.
Definition demo_macs : list Z := [2; 0; 0; 0; 1; 1; 2; 0; 0; 0; 1; 2].
Definition demo_iph : list Z := ip_header 66 0xc0a8390a 0xc0a83a0a 0.
Definition demo_received : sk_buff :=
  MkSkb ((demo_macs ++ be_bytes 2 ETH_P_IP) ++ demo_iph ++ [0x3; 0x0] ++ sk_data demo_skb)
        0 0 14 34 14 ETH_P_IP OVS_CSUM_NONE 0 0 0 0.

Example remote_roundtrip_witness :
  (exists s, remote_encapulation (fun _ => 0) 0xc0a8390a true demo_skb 0xc0a83a0a = Ret (0, Some s)
     /\ exists iph0, length iph0 = 20%nat /\ iph0 !! 9%nat = Some LC_REMOTE_IP_PROTO
     /\ sk_data s = ((gw_mac ++ take 6 (drop 6 (sk_data demo_skb))) ++ be_bytes 2 ETH_P_IP)
                    ++ iph0 ++ [0x3; 0x0] ++ sk_data demo_skb)
  /\ receive_encaped demo_received = Ret 1
  /\ exists r', ovs_execute_decapulation (Some demo_received) = Ret (0, Some r')
       /\ sk_data r' = demo_macs ++ drop 12 (sk_data demo_skb).
Proof.
  apply (remote_roundtrip (fun _ => 0) 0xc0a8390a demo_skb 0xc0a83a0a demo_received demo_macs demo_iph).
  - vm_compute. lia.
  - split; try reflexivity. by split_and!.
Defined.

Example roundtrip_loses_destination_witness :
  exists s r, remote_encapulation (fun _ => 0) 1 true demo_skb 2 = Ret (0, Some s)
    /\ remote_decapulation s = Ret (0, r)
    /\ sk_data r = gw_mac ++ drop 6 (sk_data demo_skb)
    /\ (sk_data r = sk_data demo_skb <-> take 6 (sk_data demo_skb) = gw_mac).
Proof.
  eexists. destruct (roundtrip_loses_destination (fun _ => 0) 1 demo_skb 2 _
                       ltac:(vm_compute; lia) eq_refl eq_refl) as (r & H).
  exists r. split; [reflexivity|exact H].
Defined.

Example do_encapulation_inverted_witness :
  (exists s, remote_encapulation (fun _ => 0) 1 true demo_skb 2 = Ret (0, Some s)
     /\ do_remote_encapulation (fun _ => 0) (fun _ => 0) Z.add 1 true demo_skb 2
        = Ret (-1, Some s) /\ csum s = csum demo_skb)
  /\ do_remote_encapulation (fun _ => 0) (fun _ => 0) Z.add 1 false demo_skb 2
     = Stuck DanglingPtr.
Proof. apply do_encapulation_inverted. vm_compute. lia. Defined.
