(* ===== verification/DpActions.v ===== *)
(** * Datapath actions (datapath/actions.c)

    The interpreter of a flow's action list: output with the delayed clone, encapsulation
    for a remote switch, VLAN push and pop, header rewriting, sampling, and the loop
    limit around it.  A packet is [Some skb] while it is live and [None] once it has been
    freed or handed to a device; touching or freeing a dead packet is stuck.

    The kernel's checksum helpers and the outcome of its atomic allocations are
    parameters ([kernel], and the oracle [atomic]: the n-th allocation succeeds).  What
    leaves the datapath is recorded in a log. *)
From S2P Require Import Prelude Remote.

Local Open Scope Z_scope.

(** ** Data *)

Inductive set_key :=
  | KEY_PRIORITY (p : Z)
  | KEY_TUN_ID (t : Z)
  | KEY_ETHERNET (src dst : list Z)
  | KEY_IPV4 (src dst : list Z) (tos ttl : Z)
  | KEY_TCP (src dst : list Z)
  | KEY_UDP (src dst : list Z).

(** [struct nlattr] actions, with their payloads decoded. *)
Inductive action :=
  | OUTPUT (port : Z)
  | REMOTE (payload : Z)
  | USERSPACE (pid : Z) (userdata : option Z)
  | PUSH_VLAN (tpid tci : Z)
  | POP_VLAN
  | SET (k : set_key)
  | SAMPLE (probability : Z) (actions : list action).

Inductive event :=
  | Sent (port : Z) (skb : sk_buff)
  | ToUser (pid : Z) (userdata : option Z) (skb : sk_buff)
  | Freed.

#[export] Instance event_ne_freed e : Decision (e <> Freed).
Proof. destruct e; [left; discriminate|left; discriminate|right; tauto]. Defined.

Record act_state := MkAct { tick : nat; log : list event }.

Definition ENOMEM : Z := 12.
Definition ENODEV : Z := 19.
Definition ELOOP : Z := 40.
Definition VLAN_HLEN : Z := 4.
Definition VLAN_ETH_HLEN : Z := 18.
Definition ETH_P_8021Q : Z := 0x8100.
Definition ETH_P_802_3 : Z := 1.
Definition ETH_P_802_2 : Z := 4.
Definition VLAN_TAG_PRESENT : Z := 0x1000.
Definition IPPROTO_TCP : Z := 6.
Definition IPPROTO_UDP : Z := 17.
Definition CSUM_MANGLED_0 : Z := 0xffff.

(** The kernel's checksum routines, and net_random(). *)
Record kernel := MkKernel {
  k_ip_fast_csum : list Z -> Z;
  k_csum_partial : list Z -> Z;
  k_csum_add : Z -> Z -> Z;
  k_csum_sub : Z -> Z -> Z;
  k_csum_replace : Z -> list Z -> list Z -> Z;
  (* new sum, and new skb->csum *)
  k_inet_proto_csum_replace : sk_buff -> Z -> list Z -> list Z -> bool -> Z * Z;
  k_random : nat -> Z
}.

Abbreviation act := (cstate act_state).

Definition emit (e : event) : act unit := fun s => Ret (tt, MkAct (tick s) (log s ++ [e])).

(** A live packet, [kfree_skb] and [consume_skb]. *)
Definition live (skb : option sk_buff) : act sk_buff := lift (of_option DanglingPtr skb).
Definition kfree_skb (skb : option sk_buff) : act unit :=
  match skb with Some _ => emit Freed | None => fails InvalidFree end.

(** [l[i ..] = bs] *)
Definition poke (l : list Z) (i : Z) (bs : list Z) : outcome (list Z) :=
  let n := Z.to_nat i in
  if (0 <=? i) && (n + length bs <=? length l)%nat
  then Ret (take n l ++ bs ++ drop (n + length bs) l) else Stuck OutOfBounds.
Definition peek (l : list Z) (i : Z) (n : nat) : outcome (list Z) :=
  if 0 <=? i then slice l (Z.to_nat i) n else Stuck OutOfBounds.

Section Actions.
Context (K : kernel) (atomic : nat -> bool).

(** One GFP_ATOMIC allocation. *)
Definition alloc_ok : act bool := fun s => Ret (atomic (tick s), MkAct (S (tick s)) (log s)).

Definition skb_clone (skb : sk_buff) : act (option sk_buff) :=
  ok ← alloc_ok; mret (if (ok : bool) then Some skb else None).

(** make_writable: the copy, when one is needed, may fail. *)
Definition make_writable : act Z := ok ← alloc_ok; mret (if (ok : bool) then 0 else - ENOMEM).

(** *** VLAN tags *)

Definition vlan_tx_tag_present (skb : sk_buff) : bool :=
  negb (Z.land (vlan_tci skb) VLAN_TAG_PRESENT =? 0).
Definition vlan_tx_tag_get (skb : sk_buff) : Z :=
  Z.land (vlan_tci skb) (Z.lnot VLAN_TAG_PRESENT).
Definition vlan_hwaccel_put_tag (skb : sk_buff) (tci : Z) : sk_buff :=
  set_vlan_tci skb (Z.lor VLAN_TAG_PRESENT tci).

(** __vlan_put_tag: on failure the packet has been freed. *)
Definition vlan_put_tag (skb : sk_buff) (tci : Z) : act (option sk_buff) :=
  ok ← alloc_ok;
  if negb ok then _ ← kfree_skb (Some skb); mret None
  else
    macs ← lift (slice (sk_data skb) 0 12);
    let d := macs ++ be_bytes 2 ETH_P_8021Q ++ be_bytes 2 tci ++ drop 12 (sk_data skb) in
    let skb := set_data skb d (sk_off skb - VLAN_HLEN) in
    let skb := set_mac_header skb (mac_header skb - VLAN_HLEN) in
    mret (Some (set_protocol skb ETH_P_8021Q)).

(** vlan_set_encap_proto, on the packet after the pull; [proto] is the encapsulated
    protocol of the removed header. *)
Definition vlan_set_encap_proto (skb : sk_buff) (proto : Z) : outcome sk_buff :=
  if 1536 <=? proto then Ret (set_protocol skb proto)
  else
    rawp ← slice (sk_data skb) 0 2;
    Ret (set_protocol skb (if be_value rawp =? 0xffff then ETH_P_802_3 else ETH_P_802_2)).

(** __pop_vlan_tci: error, packet, tag. *)
Definition pop_vlan_tci (skb : sk_buff) : act (Z * sk_buff * Z) :=
  err ← make_writable;
  if negb (err =? 0) then mret (err, skb, 0)
  else
    vhdr ← lift (slice (sk_data skb) 14 4);
    let skb := if decide (summed skb = OVS_CSUM_COMPLETE)
               then set_csum skb (k_csum_sub K (csum skb) (k_csum_partial K vhdr))
               else skb in
    let d := take 12 (sk_data skb) ++ drop 16 (sk_data skb) in
    let skb := set_data skb d (sk_off skb + VLAN_HLEN) in
    skb ← lift (vlan_set_encap_proto skb (be_value (drop 2 vhdr)));
    let skb := set_mac_header skb (mac_header skb + VLAN_HLEN) in
    let skb := set_mac_len skb (network_header skb - mac_header skb) in
    mret (0, skb, be_value (take 2 vhdr)).

Definition not_tagged (skb : sk_buff) : bool :=
  negb (protocol skb =? ETH_P_8021Q) || (sk_len skb <? VLAN_ETH_HLEN).

(** Second half of pop_vlan: move the next tag to the accelerated one. *)
Definition pop_vlan_next (skb : sk_buff) : act (Z * sk_buff) :=
  if not_tagged skb then mret (0, skb)
  else
    '(err, skb, tci) ← pop_vlan_tci skb;
    if negb (err =? 0) then mret (err, skb) else mret (0, vlan_hwaccel_put_tag skb tci).

Definition pop_vlan (skb : sk_buff) : act (Z * sk_buff) :=
  if vlan_tx_tag_present skb then pop_vlan_next (set_vlan_tci skb 0)
  else if not_tagged skb then mret (0, skb)
  else
    '(err, skb, _) ← pop_vlan_tci skb;
    if negb (err =? 0) then mret (err, skb) else pop_vlan_next skb.

Definition push_vlan (skb : sk_buff) (tci : Z) : act (Z * option sk_buff) :=
  let finish skb :=
    mret (0, Some (vlan_hwaccel_put_tag skb (Z.land tci (Z.lnot VLAN_TAG_PRESENT)))) in
  if vlan_tx_tag_present skb then
    r ← vlan_put_tag skb (vlan_tx_tag_get skb);
    match r with
    | None => mret (- ENOMEM, None)
    | Some skb =>
        if decide (summed skb = OVS_CSUM_COMPLETE) then
          vhdr ← lift (slice (sk_data skb) 14 4);
          finish (set_csum skb (k_csum_add K (csum skb) (k_csum_partial K vhdr)))
        else finish skb
    end
  else finish skb.

(** *** Header fields *)

Definition edit (skb : sk_buff) (pos : Z) (bs : list Z) : outcome sk_buff :=
  d ← poke (sk_data skb) (pos - sk_off skb) bs; Ret (set_data skb d (sk_off skb)).
Definition field (skb : sk_buff) (pos : Z) (n : nat) : outcome (list Z) :=
  peek (sk_data skb) (pos - sk_off skb) n.

Definition set_eth_addr (skb : sk_buff) (src dst : list Z) : act (Z * sk_buff) :=
  err ← make_writable;
  if negb (err =? 0) then mret (err, skb)
  else
    skb ← lift (edit skb (mac_header skb + 6) src);
    skb ← lift (edit skb (mac_header skb) dst);
    mret (0, skb).

(** inet_proto_csum_replace on the checksum at [pos]. *)
Definition proto_csum (skb : sk_buff) (pos : Z) (from to : list Z) (pseudo : bool)
  : outcome (Z * sk_buff) :=
  old ← field skb pos 2;
  let '(sum, c) := k_inet_proto_csum_replace K skb (be_value old) from to pseudo in
  skb ← edit skb pos (be_bytes 2 sum);
  Ret (sum, set_csum skb c).

(** set_ip_addr, the address being at offset [off] of the IP header. *)
Definition set_ip_addr (skb : sk_buff) (off : Z) (new_addr : list Z) : outcome sk_buff :=
  let nh := network_header skb in
  let th := transport_header skb in
  let transport_len := sk_len skb - (th - sk_off skb) in
  addr ← field skb (nh + off) 4;
  proto ← field skb (nh + 9) 1;
  skb ← (if be_value proto =? IPPROTO_TCP then
           if 20 <=? transport_len then
             '(_, skb) ← proto_csum skb (th + 16) addr new_addr true; Ret skb
           else Ret skb
         else if be_value proto =? IPPROTO_UDP then
           if 8 <=? transport_len then
             check ← field skb (th + 6) 2;
             if negb (be_value check =? 0) || bool_decide (summed skb = OVS_CSUM_PARTIAL) then
               '(sum, skb) ← proto_csum skb (th + 6) addr new_addr true;
               if sum =? 0 then edit skb (th + 6) (be_bytes 2 CSUM_MANGLED_0) else Ret skb
             else Ret skb
           else Ret skb
         else Ret skb);
  check ← field skb (nh + 10) 2;
  skb ← edit skb (nh + 10) (be_bytes 2 (k_csum_replace K (be_value check) addr new_addr));
  edit skb (nh + off) new_addr.

Definition set_ip_ttl (skb : sk_buff) (new_ttl : Z) : outcome sk_buff :=
  let nh := network_header skb in
  ttl ← field skb (nh + 8) 1;
  check ← field skb (nh + 10) 2;
  skb ← edit skb (nh + 10) (be_bytes 2 (k_csum_replace K (be_value check) (ttl ++ [0]) [new_ttl; 0]));
  edit skb (nh + 8) [new_ttl].

(** ipv4_change_dsfield(nh, 0, tos) of the kernel: the whole byte is replaced, with the
    header checksum. *)
Definition set_ip_tos (skb : sk_buff) (tos : Z) : outcome sk_buff :=
  let nh := network_header skb in
  old ← field skb (nh + 1) 1;
  check ← field skb (nh + 10) 2;
  skb ← edit skb (nh + 10) (be_bytes 2 (k_csum_replace K (be_value check) (0 :: old) [0; tos]));
  edit skb (nh + 1) [tos].

Definition set_ipv4 (skb : sk_buff) (src dst : list Z) (tos ttl : Z) : act (Z * sk_buff) :=
  err ← make_writable;
  if negb (err =? 0) then mret (err, skb)
  else
    let nh := network_header skb in
    saddr ← lift (field skb (nh + 12) 4);
    skb ← lift (if bool_decide (src = saddr) then Ret skb else set_ip_addr skb 12 src);
    daddr ← lift (field skb (nh + 16) 4);
    skb ← lift (if bool_decide (dst = daddr) then Ret skb else set_ip_addr skb 16 dst);
    otos ← lift (field skb (nh + 1) 1);
    skb ← lift (if bool_decide ([tos] = otos) then Ret skb else set_ip_tos skb tos);
    ottl ← lift (field skb (nh + 8) 1);
    skb ← lift (if bool_decide ([ttl] = ottl) then Ret skb else set_ip_ttl skb ttl);
    mret (0, skb).

Definition set_tp_port (skb : sk_buff) (pos : Z) (new_port : list Z) (check : Z)
  : outcome (Z * sk_buff) :=
  old ← field skb pos 2;
  '(sum, skb) ← proto_csum skb check old new_port false;
  skb ← edit skb pos new_port;
  Ret (sum, skb).

Definition set_udp_port (skb : sk_buff) (pos : Z) (new_port : list Z) : outcome sk_buff :=
  let check := transport_header skb + 6 in
  c ← field skb check 2;
  if negb (be_value c =? 0) && negb (bool_decide (summed skb = OVS_CSUM_PARTIAL)) then
    '(sum, skb) ← set_tp_port skb pos new_port check;
    if sum =? 0 then edit skb check (be_bytes 2 CSUM_MANGLED_0) else Ret skb
  else edit skb pos new_port.

Definition set_udp (skb : sk_buff) (src dst : list Z) : act (Z * sk_buff) :=
  err ← make_writable;
  if negb (err =? 0) then mret (err, skb)
  else
    let uh := transport_header skb in
    osrc ← lift (field skb uh 2);
    skb ← lift (if bool_decide (src = osrc) then Ret skb else set_udp_port skb uh src);
    odst ← lift (field skb (uh + 2) 2);
    skb ← lift (if bool_decide (dst = odst) then Ret skb else set_udp_port skb (uh + 2) dst);
    mret (0, skb).

Definition set_tcp (skb : sk_buff) (src dst : list Z) : act (Z * sk_buff) :=
  err ← make_writable;
  if negb (err =? 0) then mret (err, skb)
  else
    let th := transport_header skb in
    osrc ← lift (field skb th 2);
    skb ← lift (if bool_decide (src = osrc) then Ret skb
                else snd <$> set_tp_port skb th src (th + 16));
    odst ← lift (field skb (th + 2) 2);
    skb ← lift (if bool_decide (dst = odst) then Ret skb
                else snd <$> set_tp_port skb (th + 2) dst (th + 16));
    mret (0, skb).

Definition execute_set_action (skb : sk_buff) (k : set_key) : act (Z * sk_buff) :=
  match k with
  | KEY_PRIORITY p => mret (0, set_priority skb p)
  | KEY_TUN_ID t => mret (0, set_tun_id skb t)
  | KEY_ETHERNET src dst => set_eth_addr skb src dst
  | KEY_IPV4 src dst tos ttl => set_ipv4 skb src dst tos ttl
  | KEY_TCP src dst => set_tcp skb src dst
  | KEY_UDP src dst => set_udp skb src dst
  end.

(** *** The interpreter *)

(** The part of [struct datapath] the actions use. *)
Context (vports : Z -> bool) (local_ip : Z).

(** do_output; the packet it is given is gone afterwards.  Its result is never used. *)
Definition do_output (skb : option sk_buff) (out_port : Z) : act Z :=
  match skb with
  | None => mret (- ENOMEM)
  | Some s =>
      if vports out_port then _ ← emit (Sent out_port s); mret 0
      else _ ← kfree_skb skb; mret (- ENODEV)
  end.

(** The state of the loop of do_execute_actions: prev_port (-1 for none) and the packet. *)
Definition flush (prev_port : Z) (skb : option sk_buff) : act unit :=
  if prev_port =? -1 then mret tt
  else s ← live skb; c ← skb_clone s; _ ← do_output c prev_port; mret tt.

(** The loop, given the body of its switch: [exec a skb] returns err, prev_port, the
    packet and whether to return at once (push_vlan).  It ends with the error, and the
    packet when the caller keeps it. *)
Definition run_actions
    (exec : action -> option sk_buff -> act (Z * Z * option sk_buff * bool))
    (keep_skb : bool) : list action -> Z -> option sk_buff -> act (Z * option sk_buff) :=
  fix loop (acts : list action) (prev_port : Z) (skb : option sk_buff) :=
    match acts with
    | [] =>
        if negb (prev_port =? -1) then
          s ← live skb;
          if keep_skb then c ← skb_clone s; _ ← do_output c prev_port; mret (0, skb)
          else _ ← do_output skb prev_port; mret (0, None)
        else if keep_skb then mret (0, skb)
        else _ ← kfree_skb skb; mret (0, None)
    | a :: acts' =>
        _ ← flush prev_port skb;
        '(err, prev_port, skb, stop) ← exec a skb;
        if (stop : bool) then mret (err, skb)
        else if negb (err =? 0) then _ ← kfree_skb skb; mret (err, None)
        else loop acts' prev_port skb
    end.

(** The switch on nla_type(a). *)
Fixpoint exec_action (a : action) (skb : option sk_buff) : act (Z * Z * option sk_buff * bool) :=
  match a with
  | OUTPUT port => mret (0, s32 port, skb, false)
  | REMOTE payload =>
      let remote_ip := Z.land payload 0xffffffff in
      let prev_port := s32 (Z.land (Z.shiftr payload 32) 0xffffffff) in
      s ← live skb;
      cow ← alloc_ok;
      '(_, skb) ← lift (do_remote_encapulation (k_ip_fast_csum K) (k_csum_partial K)
                          (k_csum_add K) local_ip cow s remote_ip);
      mret (0, prev_port, skb, false)
  | USERSPACE pid userdata =>
      s ← live skb; _ ← emit (ToUser pid userdata s); mret (0, -1, skb, false)
  | PUSH_VLAN _ tci =>
      s ← live skb;
      '(err, skb) ← push_vlan s tci;
      mret (err, -1, skb, negb (err =? 0))
  | POP_VLAN =>
      s ← live skb; '(err, s) ← pop_vlan s; mret (err, -1, Some s, false)
  | SET k =>
      s ← live skb; '(err, s) ← execute_set_action s k; mret (err, -1, Some s, false)
  | SAMPLE probability actions =>
      fun st =>
      (if probability <=? k_random K (tick st) then mret (0, -1, skb, false)
       else
         '(err, skb) ← run_actions exec_action true actions (-1) skb;
         mret (err, -1, skb, false)) (MkAct (S (tick st)) (log st))
  end.

Definition do_execute_actions (acts : list action) (skb : option sk_buff) (keep_skb : bool)
  : act (Z * option sk_buff) :=
  run_actions exec_action keep_skb acts (-1) skb.
End Actions.

(** *** The loop limit *)

Definition MAX_LOOPS : Z := 5.

Record loop_counter := MkLoop { loop_count : Z; looping : bool }.

(** ovs_execute_actions around the interpreter [body]: what the counter is when the actions
    run and after.  [body] gets the counter (nested calls on this CPU change it) and returns
    it with its error; [None] means the flow was suppressed without running. *)
Definition loop_enter (l : loop_counter) : loop_counter :=
  let c := u8 (loop_count l + 1) in
  MkLoop c (if MAX_LOOPS <? c then true else looping l).
Definition loop_leave (l : loop_counter) : loop_counter :=
  let c := u8 (loop_count l - 1) in
  MkLoop c (if c =? 0 then false else looping l).

(** The result: error, whether the flow's actions were emptied (loop_suppress), counter. *)
Definition ovs_execute_actions (body : loop_counter -> Z * loop_counter) (l : loop_counter)
  : Z * bool * loop_counter :=
  let l := loop_enter l in
  if looping l then (- ELOOP, true, loop_leave l)
  else
    let '(error, l) := body l in
    if looping l then (- ELOOP, true, loop_leave l) else (error, false, loop_leave l).

(** ** Reference interpreter

    The same switch, with every output sent at once on a clone of the packet: what
    do_execute_actions avoids by delaying the last output. *)

Section Reference.
Context (K : kernel) (atomic : nat -> bool) (vports : Z -> bool) (local_ip : Z).
Notation flush := (flush atomic vports).
Notation exec_action := (exec_action K atomic vports local_ip).
Notation run_actions := (run_actions atomic vports).

Definition naive_actions
    (exec : action -> option sk_buff -> act (Z * Z * option sk_buff * bool))
    : list action -> option sk_buff -> act (Z * option sk_buff) :=
  fix loop (acts : list action) (skb : option sk_buff) :=
    match acts with
    | [] => mret (0, skb)
    | a :: acts' =>
        '(err, port, skb, stop) ← exec a skb;
        if (stop : bool) then mret (err, skb)
        else if negb (err =? 0) then _ ← kfree_skb skb; mret (err, None)
        else _ ← flush port skb; loop acts' skb
    end.

(** The switch with SAMPLE's list run this way as well. *)
Fixpoint naive_action (a : action) (skb : option sk_buff)
  : act (Z * Z * option sk_buff * bool) :=
  match a with
  | SAMPLE probability actions =>
      fun st =>
      (if probability <=? k_random K (tick st) then mret (0, -1, skb, false)
       else
         '(err, skb) ← naive_actions naive_action actions skb;
         mret (err, -1, skb, false)) (MkAct (S (tick st)) (log st))
  | _ => exec_action a skb
  end.

Definition finish (r : Z * option sk_buff) : act (Z * option sk_buff) :=
  let '(err, skb) := r in
  if negb (err =? 0) then mret (err, skb) else _ ← kfree_skb skb; mret (0, None).

(** Run, then free the packet if it was not lost to an error. *)
Definition naive_execute (acts : list action) (skb : option sk_buff)
  : act (Z * option sk_buff) :=
  r ← naive_actions naive_action acts skb; finish r.

Lemma cstate_bind_ext {S A B} (m : cstate S A) (f g : A -> cstate S B) s :
  (forall a s', f a s' = g a s') -> (m ≫= f) s = (m ≫= g) s.
Proof. intros H. unfold mbind, cstate_bind. destruct (m s) as [[? ?]|]; auto. Qed.

(** The delayed loop that keeps the packet is the naive one, a flush ahead. *)
Lemma run_keep exec acts prev skb st :
  run_actions exec true acts prev skb st
  = (_ ← flush prev skb; naive_actions exec acts skb) st.
Proof.
  revert prev skb st. induction acts as [|a acts IH]; intros prev skb st.
  - cbn [DpActions.run_actions naive_actions]. unfold DpActions.flush.
    destruct (prev =? -1); cbn [negb]; [done|].
    unfold mbind, cstate_bind. destruct (live skb st) as [[s st1]|]; [|done].
    destruct (skb_clone atomic s st1) as [[c st2]|]; [|done].
    by destruct (do_output vports c prev st2) as [[? ?]|].
  - cbn [DpActions.run_actions naive_actions].
    apply cstate_bind_ext. intros _ st1. apply cstate_bind_ext.
    intros [[[err port] skb'] stop] st2. destruct stop; [done|].
    destruct (negb (err =? 0)); [done|]. apply IH.
Qed.

Definition sent (l : list event) : list event :=
  filter (fun e => e <> Freed) l.

Definition same_sends (o1 o2 : outcome (Z * option sk_buff * act_state)) : Prop :=
  match o1, o2 with
  | Ret (r1, s1), Ret (r2, s2) => r1 = r2 /\ sent (log s1) = sent (log s2)
  | Stuck f1, Stuck f2 => f1 = f2
  | _, _ => False
  end.

Lemma bind_same_sends {A} (m : act A) f g st :
  (forall a s', same_sends (f a s') (g a s')) ->
  same_sends ((m ≫= f) st) ((m ≫= g) st).
Proof. intros H. unfold mbind, cstate_bind. by destruct (m st) as [[a s']|]; [apply H|]. Qed.

Lemma same_sends_refl o : same_sends o o.
Proof. destruct o as [[? ?]|]; done. Qed.

Definition stops_on_error (exec : action -> option sk_buff -> act (Z * Z * option sk_buff * bool)) :=
  forall a skb st err port skb' st', exec a skb st = Ret ((err, port, skb', true), st') -> err <> 0.

Lemma sent_app l e : sent (l ++ [e]) = sent l ++ (if decide (e <> Freed) then [e] else []).
Proof. unfold sent. rewrite filter_app. f_equal. Qed.

Lemma run_drop exec acts prev skb st :
  (forall n, atomic n = true) -> stops_on_error exec ->
  same_sends ((_ ← flush prev skb; r ← naive_actions exec acts skb; finish r) st)
             (run_actions exec false acts prev skb st).
Proof.
  intros Hat Hstop. revert prev skb st. induction acts as [|a acts IH]; intros prev skb st.
  - cbn [DpActions.run_actions naive_actions]. unfold DpActions.flush.
    destruct (Z.eqb_spec prev (-1)) as [->|Hne]; cbn [negb].
    + destruct skb; simpl; done.
    + destruct skb as [s|]; [|done].
      unfold mbind, cstate_bind, live, lift, of_option, skb_clone, alloc_ok. simpl.
      rewrite Hat. simpl. destruct (vports prev); simpl; split; try done; by rewrite !sent_app, app_nil_r.
  - cbn [DpActions.run_actions naive_actions]. apply bind_same_sends. intros _ st1.
    rewrite cstate_bind_assoc. unfold mbind, cstate_bind.
    destruct (exec a skb st1) as [[[[[err port] skb'] stop] st2]|] eqn:E; [|done].
    destruct stop.
    { apply Hstop in E. unfold mret, cstate_ret, finish.
      destruct (Z.eqb_spec err 0); [done|]. by apply same_sends_refl. }
    destruct (Z.eqb_spec err 0) as [->|He]; cbn [negb].
    + specialize (IH port skb' st2). rewrite <- (cstate_bind_assoc (A := unit)) in IH. exact IH.
    + destruct skb'; simpl; [|done]. destruct (Z.eqb_spec err 0); done.
Qed.

Lemma exec_stops_on_error : stops_on_error exec_action.
Proof.
  intros a skb st err port skb' st' E. destruct a; cbn [DpActions.exec_action] in E;
    repeat (apply cstate_bind_inv in E as (? & ? & _ & E); repeat case_match; simplify_eq/=);
    try (unfold mret, cstate_ret in E; simplify_eq/=).
  - destruct (Z.eqb_spec err 0); [simplify_eq/=|]; done.
  - case_match; simplify_eq/=.
    apply cstate_bind_inv in E as ([? ?] & ? & _ & E). by simplify_eq/=.
Qed.

Lemma push_vlan_err skb tci st err skb' st' :
  push_vlan K atomic skb tci st = Ret ((err, skb'), st') -> err <> 0 -> skb' = None.
Proof.
  intros E He. unfold push_vlan, mret, cstate_ret in E. case_match; [|simplify_eq/=; done].
  apply cstate_bind_inv in E as ([s|] & s1 & _ & E); [|simplify_eq/=; done].
  case_decide; [|simplify_eq/=; done].
  apply cstate_bind_inv in E as (v & s2 & _ & E). simplify_eq/=.
Qed.

Lemma exec_stop_freed a skb st err port skb' st' :
  exec_action a skb st = Ret ((err, port, skb', true), st') -> err <> 0 -> skb' = None.
Proof.
  intros E He. destruct a; cbn [DpActions.exec_action] in E;
    repeat (apply cstate_bind_inv in E as (? & ? & ? & E); repeat case_match; simplify_eq/=);
    try (unfold mret, cstate_ret in E; simplify_eq/=).
  - by eapply push_vlan_err.
  - case_match; simplify_eq/=.
    apply cstate_bind_inv in E as ([? ?] & ? & _ & E). by simplify_eq/=.
Qed.

Lemma naive_actions_ext e1 e2 acts skb st :
  Forall (fun a => forall skb st, e1 a skb st = e2 a skb st) acts ->
  naive_actions e1 acts skb st = naive_actions e2 acts skb st.
Proof.
  intros Hall. revert skb st. induction Hall as [|a acts Ha _ IH]; intros skb st; [done|].
  cbn [naive_actions]. unfold mbind, cstate_bind. rewrite Ha.
  destruct (e2 a skb st) as [[[[[err port] skb'] stop] st2]|]; [|done].
  destruct stop; [done|]. destruct (negb (err =? 0)); [done|].
  destruct (flush port skb' st2) as [[? ?]|]; auto.
Qed.

(** Induction over nested action lists. *)
Lemma action_nested_ind (P : action -> Prop) :
  (forall a, match a with SAMPLE _ _ => False | _ => True end -> P a) ->
  (forall p acts, Forall P acts -> P (SAMPLE p acts)) -> forall a, P a.
Proof.
  intros Hother Hsample. fix IH 1. intros a. destruct a as [| | | | | |p acts]; [by apply Hother..|].
  apply Hsample. induction acts as [|a acts IHacts]; constructor; [apply IH|exact IHacts].
Qed.

Lemma naive_action_ok a skb st : naive_action a skb st = exec_action a skb st.
Proof.
  revert skb st. induction a as [a Ha|p acts IH] using action_nested_ind; intros skb st.
  - by destruct a.
  - cbn [naive_action DpActions.exec_action]. destruct (_ <=? _); [done|].
    unfold mbind, cstate_bind. rewrite run_keep, (naive_actions_ext _ exec_action) by done.
    reflexivity.
Qed.
End Reference.

(** ** Tags *)

Lemma tag_present_or t : Z.land (Z.lor VLAN_TAG_PRESENT t) VLAN_TAG_PRESENT = VLAN_TAG_PRESENT.
Proof.
  apply Z.bits_inj. intros n. rewrite Z.land_spec, Z.lor_spec.
  by destruct (Z.testbit VLAN_TAG_PRESENT n), (Z.testbit t n).
Qed.

Lemma hwaccel_present skb t : vlan_tx_tag_present (vlan_hwaccel_put_tag skb t) = true.
Proof. unfold vlan_tx_tag_present, vlan_hwaccel_put_tag. simpl. by rewrite tag_present_or. Qed.

(** A tag read and put back. *)
Lemma tag_restore t :
  Z.land t VLAN_TAG_PRESENT <> 0 ->
  Z.lor VLAN_TAG_PRESENT (Z.land t (Z.lnot VLAN_TAG_PRESENT)) = t.
Proof.
  intros Ht. change VLAN_TAG_PRESENT with (Z.shiftl 1 12) in *.
  assert (Z.testbit t 12 = true) as Hb.
  { destruct (Z.testbit t 12) eqn:E; [done|]. destruct Ht. apply Z.bits_inj. intros n.
    rewrite Z.land_spec, Z.bits_0. rewrite Z.shiftl_1_l.
    destruct (decide (12 = n)) as [<-|Hn]; [by rewrite E|].
    by rewrite Z.pow2_bits_false, andb_false_r. }
  apply Z.bits_inj'. intros n Hn. rewrite Z.lor_spec, Z.land_spec, Z.lnot_spec by done.
  rewrite Z.shiftl_1_l. destruct (decide (12 = n)) as [<-|Hne].
  - by rewrite Z.pow2_bits_true, Hb.
  - rewrite Z.pow2_bits_false by done. simpl. by rewrite andb_true_r.
Qed.

Lemma tag_get_bound t : 0 <= t < 65536 -> 0 <= Z.land t (Z.lnot VLAN_TAG_PRESENT) < 65536.
Proof.
  intros Ht. set (x := Z.lnot _).
  assert (Z.land t x = Z.land t x `mod` 2 ^ 16) as ->.
  { rewrite <- Z.land_ones, <- Z.land_assoc, (Z.land_comm x), Z.land_assoc by lia.
    rewrite Z.land_ones by lia. by rewrite (Z.mod_small t). }
  apply Z.mod_pos_bound. lia.
Qed.

(** An untagged packet, or one whose only tag is in vlan_tci, as the receive path leaves
    it; the IP type and addresses are in the data. *)
Record well_formed (skb : sk_buff) : Prop := {
  wf_len : (14 <= length (sk_data skb))%nat;
  wf_proto : protocol skb = be_value (take 2 (drop 12 (sk_data skb)));
  wf_ethertype : 1536 <= protocol skb /\ protocol skb <> ETH_P_8021Q;
  wf_mac_len : mac_len skb = network_header skb - mac_header skb;
  wf_summed : summed skb <> OVS_CSUM_COMPLETE;
  wf_tci : vlan_tci skb = 0 \/ (0 <= vlan_tci skb < 65536 /\ Z.land (vlan_tci skb) VLAN_TAG_PRESENT <> 0)
}.

Lemma set_vlan_same skb : set_vlan_tci skb (vlan_tci skb) = skb.
Proof. by destruct skb. Qed.

(** The packet with a tag in its data. *)
Definition pushed (skb : sk_buff) (tci : Z) : sk_buff :=
  set_protocol
    (set_mac_header
       (set_data skb (take 12 (sk_data skb) ++ be_bytes 2 ETH_P_8021Q ++ be_bytes 2 tci
                      ++ drop 12 (sk_data skb)) (sk_off skb - 4))
       (mac_header skb - 4)) ETH_P_8021Q.

Lemma vlan_put_tag_ok atomic skb tci st :
  (forall n, atomic n = true) -> (14 <= length (sk_data skb))%nat ->
  exists st', vlan_put_tag atomic skb tci st = Ret (Some (pushed skb tci), st').
Proof.
  intros Hat Hl. unfold vlan_put_tag, alloc_ok. unfold mbind at 1, cstate_bind at 1.
  rewrite Hat. cbn [negb]. unfold mbind, cstate_bind, lift.
  rewrite slice_ok by lia. rewrite drop_0. by eexists.
Qed.

Lemma pop_vlan_tci_ok K atomic skb macs tag tci rest st :
  (forall n, atomic n = true) -> sk_data skb = macs ++ tag ++ tci ++ rest ->
  length macs = 12%nat -> length tag = 2%nat -> length tci = 2%nat -> (2 <= length rest)%nat ->
  1536 <= be_value (take 2 rest) -> summed skb <> OVS_CSUM_COMPLETE ->
  exists st', pop_vlan_tci K atomic skb st
    = Ret ((0, set_mac_len
                 (set_mac_header
                    (set_protocol (set_data skb (macs ++ rest) (sk_off skb + 4)) (be_value (take 2 rest)))
                    (mac_header skb + 4)) (network_header skb - (mac_header skb + 4)),
            be_value tci), st').
Proof.
  intros Hat Hd Hm Ht Hi Hr Hp Hs. unfold pop_vlan_tci, make_writable, alloc_ok.
  unfold mbind, cstate_bind, mret, cstate_ret. rewrite Hat. cbn [negb Z.eqb]. unfold lift.
  assert (drop 14 (sk_data skb) = tci ++ rest) as E.
  { rewrite Hd, app_assoc, drop_app_length'; [done|]. rewrite length_app. lia. }
  rewrite slice_ok by (rewrite Hd, !length_app; lia). rewrite E, decide_False by done.
  assert (take 4 (tci ++ rest) = tci ++ take 2 rest) as ->.
  { rewrite take_app_ge by lia. by rewrite Hi. }
  rewrite take_app_length', drop_app_length' by done.
  unfold vlan_set_encap_proto. destruct (Z.leb_spec 1536 (be_value (take 2 rest))); [|lia].
  eexists. rewrite Hd, take_app_length' by done.
  rewrite !app_assoc, drop_app_length' by (rewrite !length_app; lia). reflexivity.
Qed.

Lemma pushed_not_tagged skb tci : (14 <= length (sk_data skb))%nat -> not_tagged (pushed skb tci) = false.
Proof.
  intros Hl. unfold not_tagged, sk_len, pushed. cbn [set_protocol set_mac_header set_data sk_data protocol].
  rewrite !length_app, length_take, length_drop, !length_be_bytes, Z.eqb_refl. cbn [negb orb].
  unfold VLAN_ETH_HLEN. apply Z.ltb_ge. lia.
Qed.

(** Taking out the tag just pushed into the data. *)
Lemma pop_pushed K atomic skb tci t st :
  (forall n, atomic n = true) -> well_formed skb -> 0 <= tci < 65536 ->
  exists st', pop_vlan_tci K atomic (set_vlan_tci (pushed skb tci) t) st
              = Ret ((0, set_vlan_tci skb t, tci), st').
Proof.
  intros Hat [Hl Hp [Ht Hn] Hm Hs _] Htci.
  destruct (pop_vlan_tci_ok K atomic (set_vlan_tci (pushed skb tci) t) (take 12 (sk_data skb))
              (be_bytes 2 ETH_P_8021Q) (be_bytes 2 tci) (drop 12 (sk_data skb)) st)
    as [st' E]; try done.
  - rewrite length_take. lia.
  - rewrite length_drop. lia.
  - by rewrite <- Hp.
  - exists st'. rewrite E, be_value_bytes_small by (change (256 ^ Z.of_nat 2) with 65536; lia). rewrite take_drop, <- Hp.
    clear E. destruct skb. cbn -[be_value Z.add Z.sub take drop] in *. subst.
    unfold set_vlan_tci, set_mac_len, set_mac_header, set_protocol, set_data.
    cbn -[be_value Z.add Z.sub take drop]. by rewrite !Z.sub_add.
Qed.

(** The loop limit: a flow that makes the datapath run it again [d] more times (through a
    device that loops back); what the nested run returns is ignored, as do_output does. *)
Fixpoint nested (d : nat) (l : loop_counter) : Z * loop_counter :=
  match d with
  | O => (0, l)
  | S d' => let '(_, _, l') := ovs_execute_actions (nested d') l in (0, l')
  end.

Lemma nested_runs d c :
  0 <= c <= 5 ->
  ovs_execute_actions (nested d) (MkLoop c false)
  = if c + Z.of_nat d <? 5 then (0, false, MkLoop c false)
    else (- ELOOP, true, MkLoop c (negb (c =? 0))).
Proof.
  revert c. induction d as [|d IH]; intros c Hc; unfold ovs_execute_actions, loop_enter, loop_leave;
    cbn [loop_count looping]; rewrite (wrap_small 8 (c + 1)) by lia; unfold MAX_LOOPS;
    destruct (Z.ltb_spec 5 (c + 1)).
  - assert (c = 5) as -> by lia. reflexivity.
  - cbn [looping nested loop_count]. rewrite (wrap_small 8) by lia.
    replace (c + 1 - 1) with c by lia. destruct (Z.ltb_spec (c + Z.of_nat 0) 5); [|lia].
    by destruct (c =? 0).
  - assert (c = 5) as -> by lia. destruct (Z.ltb_spec (5 + Z.of_nat (S d)) 5); [lia|]. reflexivity.
  - cbn [looping nested loop_count]. rewrite IH by lia.
    replace (c + 1 + Z.of_nat d) with (c + Z.of_nat (S d)) by lia.
    destruct (Z.ltb_spec (c + Z.of_nat (S d)) 5); cbn [looping loop_count].
    + rewrite (wrap_small 8) by lia. replace (c + 1 - 1) with c by lia. by destruct (c =? 0).
    + destruct (Z.eqb_spec (c + 1) 0); [lia|]. cbn [negb looping loop_count].
      rewrite (wrap_small 8) by lia. replace (c + 1 - 1) with c by lia. by destruct (c =? 0).
Qed.

(** ** Properties *)

(** C8: delaying the last output loses nothing.  do_execute_actions hands out a clone for
    every output but the last, for which it gives the packet itself; when no allocation
    fails, the packets sent to ports and to userspace, their order, the result and every
    undefined behaviour are those of the interpreter that clones for each output and
    frees the packet at the end, for every list of actions, nested samples included. *)
Theorem delayed_clone_equiv K atomic vports local_ip acts skb st :
  (forall n, atomic n = true) ->
  same_sends (naive_execute K atomic vports local_ip acts skb st)
             (do_execute_actions K atomic vports local_ip acts skb false st).
Proof.
  intros Hat. unfold naive_execute, do_execute_actions.
  pose proof (run_drop atomic vports (exec_action K atomic vports local_ip) acts (-1) skb st Hat
                (exec_stops_on_error _ _ _ _)) as H.
  unfold flush in H. cbn [Z.eqb] in H.
  unfold mbind, cstate_bind, mret, cstate_ret in H |- *. simpl in H.
  rewrite (naive_actions_ext _ _ _ (exec_action K atomic vports local_ip)).
  - exact H.
  - apply Forall_true. intros a s t. apply naive_action_ok.
Qed.

(** An error inside a sample frees the packet twice.  A nested do_execute_actions frees
    the packet on error although its caller keeps it, and the caller frees it again: every
    action list whose SAMPLE is taken and fails inside ends in an invalid free. *)
Theorem sample_error_double_free K atomic vports local_ip p nested_acts acts skb keep st err skb' st' :
  k_random K (tick st) < p ->
  do_execute_actions K atomic vports local_ip nested_acts (Some skb) true
    (MkAct (S (tick st)) (log st)) = Ret ((err, skb'), st') -> err <> 0 ->
  do_execute_actions K atomic vports local_ip (SAMPLE p nested_acts :: acts) (Some skb) keep st
  = Stuck InvalidFree.
Proof.
  intros Hp Hn He. assert (skb' = None) as ->.
  { unfold do_execute_actions in Hn. revert Hn. generalize (MkAct (S (tick st)) (log st)) (Some skb) (-1).
    clear -He. induction nested_acts as [|a nested_acts IH]; intros st skb prev Hn;
      cbn [run_actions] in Hn.
    - destruct (negb (prev =? -1)).
      + apply cstate_bind_inv in Hn as (s & s1 & _ & Hn).
        apply cstate_bind_inv in Hn as (c & s2 & _ & Hn).
        apply cstate_bind_inv in Hn as (o & s3 & _ & Hn). unfold mret, cstate_ret in Hn. by simplify_eq.
      + unfold mret, cstate_ret in Hn. by simplify_eq.
    - apply cstate_bind_inv in Hn as (u & s1 & _ & Hn).
      apply cstate_bind_inv in Hn as ([[[e1 p1] sk1] stop] & s2 & Ea & Hn). destruct stop.
      + unfold mret, cstate_ret in Hn. simplify_eq. by eapply exec_stop_freed.
      + destruct (negb (e1 =? 0)).
        * apply cstate_bind_inv in Hn as (o & s3 & _ & Hn). unfold mret, cstate_ret in Hn. by simplify_eq.
        * by eapply IH. }
  assert (exec_action K atomic vports local_ip (SAMPLE p nested_acts) (Some skb) st
          = Ret ((err, -1, None, false), st')) as E.
  { cbn [exec_action]. destruct (Z.leb_spec p (k_random K (tick st))); [lia|].
    by rewrite (cstate_bind_step _ _ _ _ _ Hn). }
  unfold do_execute_actions. cbn [run_actions].
  rewrite (cstate_bind_step _ _ _ tt st) by done. rewrite (cstate_bind_step _ _ _ _ _ E).
  by destruct (Z.eqb_spec err 0).
Qed.

(** Pop_vlan undoes push_vlan.  On an untagged packet or one with an accelerated tag,
    with no allocation failing, pushing any tag and popping it gives back the packet:
    every byte, the header positions, the protocol and the tag it had. *)
Theorem pop_push_vlan K atomic skb tci st :
  (forall n, atomic n = true) -> well_formed skb ->
  exists s1 st1 st2,
    push_vlan K atomic skb tci st = Ret ((0, Some s1), st1)
    /\ pop_vlan K atomic s1 st1 = Ret ((0, skb), st2).
Proof.
  intros Hat Hw. pose proof Hw as [Hl Hp [Ht Hn] Hm Hs Htci].
  unfold push_vlan. set (x := Z.land tci _).
  destruct (vlan_tx_tag_present skb) eqn:Etag.
  - destruct Htci as [Hz|[Hb Hpres]].
    { unfold vlan_tx_tag_present in Etag. by rewrite Hz in Etag. }
    destruct (vlan_put_tag_ok atomic skb (vlan_tx_tag_get skb) st Hat Hl) as [st1 E1].
    rewrite (cstate_bind_step _ _ _ _ _ E1). rewrite decide_False by done.
    do 2 eexists. unfold pop_vlan. rewrite hwaccel_present.
    unfold vlan_hwaccel_put_tag.
    set (sp := pushed skb (vlan_tx_tag_get skb)).
    destruct (pop_pushed K atomic skb (vlan_tx_tag_get skb) 0 st1 Hat Hw (tag_get_bound _ Hb))
      as [st2 E2].
    exists st2. split; [reflexivity|]. unfold pop_vlan_next.
    pose proof (pushed_not_tagged skb (vlan_tx_tag_get skb) Hl) as Hnt.
    unfold not_tagged, sk_len in Hnt |- *. cbn [set_vlan_tci sk_data protocol].
    fold sp in Hnt |- *. rewrite Hnt.
    change (set_vlan_tci (set_vlan_tci sp _) 0) with (set_vlan_tci sp 0).
    rewrite (cstate_bind_step _ _ _ _ _ E2). cbn [negb Z.eqb].
    unfold vlan_hwaccel_put_tag. cbn [vlan_tci set_vlan_tci]. unfold vlan_tx_tag_get.
    rewrite tag_restore by done. f_equal. f_equal. by destruct skb.
  - destruct Htci as [Hz|[Hb Hpres]].
    2:{ unfold vlan_tx_tag_present in Etag. apply negb_false_iff, Z.eqb_eq in Etag. done. }
    do 3 eexists. split; [reflexivity|]. unfold pop_vlan. rewrite hwaccel_present.
    unfold pop_vlan_next, not_tagged. cbn [set_vlan_tci vlan_hwaccel_put_tag protocol].
    destruct (Z.eqb_spec (protocol skb) ETH_P_8021Q); [done|]. cbn [negb orb].
    unfold vlan_hwaccel_put_tag. unfold mret, cstate_ret. do 3 f_equal.
    destruct skb. cbn in *. by subst.
Qed.

(** A looping flow is cut at depth five and the counter always recovers.  Running a
    flow that re-enters ovs_execute_actions [d] times: up to four re-entries all runs
    succeed; from five on the call fails with ELOOP and the flow's actions are emptied; in
    both cases the per-CPU counter is back at its idle value, so later packets are not
    affected.  At depth five the actions are not run, whatever they are. *)
Theorem loop_limit d :
  ovs_execute_actions (nested d) (MkLoop 0 false)
  = (if (d <? 5)%nat then (0, false, MkLoop 0 false) else (- ELOOP, true, MkLoop 0 false))
  /\ forall body, ovs_execute_actions body (MkLoop MAX_LOOPS false)
                  = (- ELOOP, true, MkLoop MAX_LOOPS true).
Proof.
  split; [|intros body; reflexivity]. rewrite nested_runs by lia.
  destruct (Z.ltb_spec (0 + Z.of_nat d) 5), (Nat.ltb_spec d 5); try lia; reflexivity.
Qed.

(** ** Witnesses *)

Definition demo_kernel : kernel :=
  MkKernel (fun _ => 0) (fun _ => 0) Z.add Z.sub (fun s _ _ => s) (fun s c _ _ _ => (c, csum s))
           (fun _ => 0).
Definition demo_plain : sk_buff :=
  MkSkb (sk_data demo_skb) 100 100 114 134 14 ETH_P_IP OVS_CSUM_NONE 0 0x1064 0 0.
Definition demo_acts : list action :=
  [OUTPUT 1; SAMPLE 1 [PUSH_VLAN ETH_P_8021Q 0x1005; OUTPUT 2; POP_VLAN]; OUTPUT 3].

Example delayed_clone_equiv_witness :
  same_sends (naive_execute demo_kernel (fun _ => true) (fun _ => true) 1 demo_acts
                (Some demo_plain) (MkAct 0 []))
             (do_execute_actions demo_kernel (fun _ => true) (fun _ => true) 1 demo_acts
                (Some demo_plain) false (MkAct 0 []))
  /\ exists r st, do_execute_actions demo_kernel (fun _ => true) (fun _ => true) 1 demo_acts
                (Some demo_plain) false (MkAct 0 []) = Ret (r, st) /\ length (sent (log st)) = 3%nat.
Proof.
  split; [by apply delayed_clone_equiv|]. do 2 eexists. split; [vm_compute; reflexivity|reflexivity].
Defined.

Example sample_error_double_free_witness :
  do_execute_actions demo_kernel (fun _ => false) (fun _ => true) 1
    [SAMPLE 1 [SET (KEY_ETHERNET [0; 0; 0; 0; 0; 1] [0; 0; 0; 0; 0; 2])]] (Some demo_plain) false
    (MkAct 0 []) = Stuck InvalidFree.
Proof.
  eapply (sample_error_double_free demo_kernel (fun _ => false) (fun _ => true) 1 1
            [SET (KEY_ETHERNET [0; 0; 0; 0; 0; 1] [0; 0; 0; 0; 0; 2])] [] demo_plain false (MkAct 0 [])).
  - reflexivity.
  - vm_compute. reflexivity.
  - discriminate.
Defined.

Example pop_push_vlan_witness :
  exists s1 st1 st2,
    push_vlan demo_kernel (fun _ => true) demo_plain 0x1005 (MkAct 0 []) = Ret ((0, Some s1), st1)
    /\ pop_vlan demo_kernel (fun _ => true) s1 st1 = Ret ((0, demo_plain), st2).
Proof.
  apply pop_push_vlan; [done|]. split; try reflexivity; try discriminate.
  - vm_compute. lia.
  - vm_compute. split; discriminate.
  - right. split; [vm_compute; split; [discriminate|reflexivity]|vm_compute; discriminate].
Defined.
