(* ===== verification/Datapath.v ===== *)
(** * Packet reception in the datapath (datapath/datapath.c)

    The slow path of a received packet with the LazyCtrl shortcut: an encapsulated packet
    is unpacked first; a packet without a flow whose destination is in the group table is
    sent to the switch that owns it without asking userspace; everything else is a miss.
    Also the netlink commands that maintain the group table and its set-up.

    The flow table, the layer-3 and layer-4 part of the flow key and the allocator are
    parameters; the table is used through [GroupTable]. *)
From S2P Require Import Prelude LcMem Bloom BfGdt Mcast Remote DpActions.

Local Open Scope Z_scope.

(** ** Data *)

Definition ETH_P_ARP : Z := 0x0806.
Definition EINVAL : Z := 22.
Definition ENOENT : Z := 2.
Definition SIZEOF_BLOOM_FILTER : Z := 152.

Record dp_state (T R : Type) := MkDp {
  dp_gdt : option T;                         (* NULL after a flush *)
  dp_act : act_state;
  dp_missed : list (Z * R * sk_buff);        (* upcalls OVS_PACKET_CMD_MISS: pid, key, packet *)
  n_hit : Z;
  n_missed : Z;
  n_lost : Z
}.
Arguments MkDp {T R}.
Arguments dp_gdt {T R}.
Arguments dp_act {T R}.
Arguments dp_missed {T R}.
Arguments n_hit {T R}.
Arguments n_missed {T R}.
Arguments n_lost {T R}.

(** The link-layer part of [struct sw_flow_key]; [R] is the rest. *)
Record eth_key := MkEthKey { eth_src : list Z; eth_dst : list Z; eth_tci : Z; eth_type : Z }.

Record sw_flow_key (R : Type) := MkKey { k_in_port : Z; k_eth : eth_key; k_rest : R }.
Arguments MkKey {R}.
Arguments k_in_port {R}.
Arguments k_eth {R}.
Arguments k_rest {R}.

(** *** Flow extraction, link layer (datapath/flow.c) *)

Definition parse_vlan (d : list Z) (tci : Z) : outcome (Z * list Z) :=
  if (length d <? 6)%nat then Ret (tci, d)
  else q ← slice d 2 2; Ret (Z.lor (be_value q) VLAN_TAG_PRESENT, drop 4 d).

(** The type, 0 on failure, and what follows it. *)
Definition parse_ethertype (d : list Z) : outcome (Z * list Z) :=
  p ← slice d 0 2;
  let proto := be_value p in
  let d := drop 2 d in
  if 1536 <=? proto then Ret (proto, d)
  else if (length d <? 8)%nat then Ret (ETH_P_802_2, d)
  else
    llc ← slice d 0 8;
    if bool_decide (take 2 llc = [0xaa; 0xaa])
       && bool_decide (take 3 (drop 3 llc) = [0; 0; 0])
    then Ret (be_value (drop 6 llc), drop 8 d)
    else Ret (ETH_P_802_2, d).

(** ovs_flow_extract up to the network layer: the key, and the packet with its header
    positions set; [None] for an error. *)
Definition extract_eth (skb : sk_buff) : outcome (option (eth_key * sk_buff)) :=
  let skb := set_mac_header skb (sk_off skb) in
  eth ← slice (sk_data skb) 0 14;
  let d := drop 12 (sk_data skb) in
  '(tci, d) ← (if vlan_tx_tag_present skb then Ret (vlan_tci skb, d)
               else if be_value (drop 12 eth) =? ETH_P_8021Q then parse_vlan d 0
               else Ret (0, d));
  '(type, d) ← parse_ethertype d;
  if type =? 0 then Ret None
  else
    let nh := sk_off skb + Z.of_nat (length (sk_data skb) - length d) in
    Ret (Some (MkEthKey (take 6 (drop 6 eth)) (take 6 eth) tci type,
               set_network_header skb nh)).

Section Datapath.
Context {T R : Type} `{GroupTable T}.
Context (K : kernel) (atomic : nat -> bool) (vports : Z -> bool) (local_ip : Z).
(** Layers 3 and 4 of the key ([None]: error), the flow table, and whether an upcall
    can be queued. *)
Context (extract_rest : sk_buff -> eth_key -> option R)
        (flow_tbl_lookup : sw_flow_key R -> option (list action))
        (queue_ok : Z -> sk_buff -> bool).

Abbreviation dp := (cstate (dp_state T R)).

Definition on_act {A} (c : act A) : dp A := fun s =>
  match c (dp_act s) with
  | Ret (a, x) => Ret (a, MkDp (dp_gdt s) x (dp_missed s) (n_hit s) (n_missed s) (n_lost s))
  | Stuck f => Stuck f
  end.

(** A call on dp->gdt, which returns [dflt] when the pointer is NULL. *)
Definition on_gdt {A} (dflt : A) (c : cstate T A) : dp A := fun s =>
  match dp_gdt s with
  | None => Ret (dflt, s)
  | Some t =>
      match c t with
      | Ret (a, t') => Ret (a, MkDp (Some t') (dp_act s) (dp_missed s) (n_hit s) (n_missed s) (n_lost s))
      | Stuck f => Stuck f
      end
  end.

Definition count_hit : dp unit := fun s =>
  Ret (tt, MkDp (dp_gdt s) (dp_act s) (dp_missed s) (n_hit s + 1) (n_missed s) (n_lost s)).
Definition count_missed : dp unit := fun s =>
  Ret (tt, MkDp (dp_gdt s) (dp_act s) (dp_missed s) (n_hit s) (n_missed s + 1) (n_lost s)).

Definition ovs_flow_extract (skb : sk_buff) (in_port : Z)
  : outcome (option (sw_flow_key R * sk_buff)) :=
  e ← extract_eth skb;
  match e with
  | None => Ret None
  | Some (ek, skb) =>
      match extract_rest skb ek with
      | None => Ret None
      | Some r => Ret (Some (MkKey in_port ek r, skb))
      end
  end.

(** ovs_dp_upcall for a miss. *)
Definition ovs_dp_upcall (pid : Z) (key : R) (skb : sk_buff) : dp unit := fun s =>
  if negb (pid =? 0) && queue_ok pid skb then
    Ret (tt, MkDp (dp_gdt s) (dp_act s) (dp_missed s ++ [(pid, key, skb)])
                  (n_hit s) (n_missed s) (n_lost s))
  else
    Ret (tt, MkDp (dp_gdt s) (dp_act s) (dp_missed s) (n_hit s) (n_missed s) (n_lost s + 1)).

(** The end of ovs_dp_process_received_packet: run the flow's actions.  A call from a
    device is not nested, so the loop counter is idle.  The flow's own counters, which
    ovs_flow_used updates first, belong to the flow table and are not in the model. *)
Definition run_flow (acts : list action) (skb : sk_buff) : dp unit :=
  _ ← on_act (do_execute_actions K atomic vports local_ip acts
                (Some (set_tun_id skb 0)) false);
  count_hit.

(** The bit filter the packet may be sent through. *)
Definition gdt_match (encaped : bool) (key : sw_flow_key R) : dp (option bloom_filter) :=
  if negb encaped && negb (eth_type (k_eth key) =? ETH_P_ARP)
  then on_gdt None (gt_check (mac_string (eth_dst (k_eth key))))
  else mret None.

Definition remote_payload (bf : bloom_filter) : Z :=
  u64 (Z.shiftl (port_no bf) 32 + bf_id bf).

(** The packet of vport [in_port], whose upcalls go to [pid]; [encaped] and [flow] are the
    members of OVS_CB(skb).  kmalloc returns NULL on failure, which IS_ERR does not
    recognise: the flow is then written through a null pointer. *)
Definition process_unmatched (in_port pid : Z) (encaped : bool) (key : sw_flow_key R)
    (skb : sk_buff) : dp unit :=
  bf ← gdt_match encaped key;
  match bf with
  | Some bf =>
      flow ← on_act (alloc_ok atomic);
      if negb flow then fails NullDeref
      else
        sf_acts ← on_act (alloc_ok atomic);
        if negb sf_acts then fails NullDeref
        else run_flow [REMOTE (remote_payload bf)] skb
  | None =>
      _ ← ovs_dp_upcall pid (k_rest key) skb;
      _ ← on_act (kfree_skb (Some skb));
      count_missed
  end.

Definition process_plain (in_port pid : Z) (encaped : bool) (flow : option (list action))
    (skb : sk_buff) : dp unit :=
  match flow with
  | Some acts => run_flow acts skb
  | None =>
      e ← lift (ovs_flow_extract skb in_port);
      match e with
      | None => on_act (kfree_skb (Some skb))
      | Some (key, skb) =>
          match flow_tbl_lookup key with
          | Some acts => run_flow acts skb
          | None => process_unmatched in_port pid encaped key skb
          end
      end
  end.

Definition ovs_dp_process_received_packet (in_port pid : Z) (encaped : bool)
    (flow : option (list action)) (skb : sk_buff) : dp unit :=
  if encaped then
    '(error, skb) ← lift (ovs_execute_decapulation (Some skb));
    if error <? 0 then on_act (kfree_skb skb)
    else s ← on_act (live skb); process_plain in_port pid encaped flow s
  else process_plain in_port pid encaped flow skb.

(** ovs_vport_receive: the flag is set from the packet; the device has no flow of its own. *)
Definition ovs_vport_receive (in_port pid : Z) (skb : sk_buff) : dp unit :=
  e ← lift (receive_encaped skb);
  ovs_dp_process_received_packet in_port pid (negb (e =? 0)) None skb.

(** *** Netlink commands on the table *)

(** ovs_bf_gdt_cmd_new_or_set; [attr] is the length and content of OVS_BF_GDT_ATTR_BF. *)
Definition ovs_bf_gdt_cmd_new_or_set (attr : option (Z * bloom_filter)) : dp Z :=
  match attr with
  | None => mret (-1)
  | Some (l, bf) =>
      if negb (l =? SIZEOF_BLOOM_FILTER) then mret (-1)
      else _ ← on_gdt (-1) (gt_update bf); mret 0
  end.

(** ovs_bf_gdt_cmd_get: the error, and the filter of the reply. *)
Definition ovs_bf_gdt_cmd_get (attr_key : option Z) (reply_ok : bool)
  : dp (Z * option bloom_filter) :=
  match attr_key with
  | None => mret (- EINVAL, None)
  | Some id =>
      bf ← on_gdt None (gt_find id);
      match bf with
      | None => mret (- ENOENT, None)
      | Some bf => if reply_ok then mret (0, Some bf) else mret (- ENOMEM, None)
      end
  end.

Definition clear_gdt : dp unit := fun s =>
  Ret (tt, MkDp None (dp_act s) (dp_missed s) (n_hit s) (n_missed s) (n_lost s)).

Definition flush_bf_gdt : dp Z :=
  _ ← on_gdt 0 gt_destroy; _ ← clear_gdt; mret 0.

Definition ovs_bf_gdt_cmd_del (attr_key : option Z) (reply_ok : bool) : dp Z :=
  match attr_key with
  | None => flush_bf_gdt
  | Some id =>
      bf ← on_gdt None (gt_find id);
      match bf with
      | None => mret (- ENOENT)
      | Some _ =>
          if negb reply_ok then mret (- ENOMEM)
          else _ ← on_gdt (-1) (gt_del id); mret 0
      end
  end.
End Datapath.

(** ** Set-up (ovs_dp_cmd_new) *)

Section DpInit.
Context (alloc : nat -> option (nat -> Z)).

(** [file] is the group id in /tmp/lc_gid.dat.  The table, or ENOMEM. *)
Definition dp_lc_init (file : option Z) : cstate mem (Z + ptr) :=
  gdt ← bf_gdt_init alloc (default LC_GROUP_DFT_ID file);
  match gdt with
  | None => mret (inl (- ENOMEM))
  | Some _ =>
      bf ← bf_gdt_add_filter alloc gdt LC_BF_LOCAL_ID LC_BF_LOCAL_PORT LC_BF_DFT_LEN;
      match bf with
      | None => mret (inl (- ENOMEM))
      | Some _ => mret (inr gdt)
      end
  end.
End DpInit.

(** ** The remote action *)

Lemma payload_ip port ip :
  0 <= ip < 2 ^ 32 -> 0 <= port < 2 ^ 16 ->
  Z.land (u64 (Z.shiftl port 32 + ip)) 0xffffffff = ip
  /\ s32 (Z.land (Z.shiftr (u64 (Z.shiftl port 32 + ip)) 32) 0xffffffff) = port.
Proof.
  intros Hi Hp. rewrite Z.shiftl_mul_pow2 by lia. rewrite wrap_small by lia.
  change 0xffffffff with (Z.ones 32). rewrite !Z.land_ones by lia. split.
  - rewrite Z.add_comm, Z.mod_add by lia. by apply Z.mod_small.
  - rewrite Z.shiftr_div_pow2, Z.div_add_l, Z.div_small, Z.add_0_r by lia.
    rewrite Z.mod_small by lia. apply swrap_small; lia.
Qed.

(** Running the one-action flow made for a matched filter. *)
Lemma run_remote K atomic vports local_ip port ip skb st :
  0 <= ip < 2 ^ 32 -> 0 <= port < 2 ^ 16 -> (14 <= length (sk_data skb))%nat ->
  (forall n, atomic n = true) -> vports port = true ->
  exists s st',
    do_execute_actions K atomic vports local_ip [REMOTE (u64 (Z.shiftl port 32 + ip))]
      (Some skb) false st = Ret ((0, None), st')
    /\ log st' = log st ++ [Sent port s]
    /\ sk_data s = outer (k_ip_fast_csum K) local_ip ip (sk_data skb).
Proof.
  intros Hi Hp Hl Hat Hv. destruct (payload_ip port ip Hi Hp) as [E1 E2].
  unfold do_execute_actions. cbn [run_actions exec_action]. rewrite E1, E2.
  unfold flush, alloc_ok, live, lift, of_option, mbind, cstate_bind, mret, cstate_ret.
  change (-1 =? -1) with true. cbv beta iota. rewrite Hat. unfold do_remote_encapulation. rewrite encap_ok by done.
  cbn [mbind outcome_bind Z.eqb negb run_actions]. destruct (Z.eqb_spec port (-1)); [lia|].
  cbn [negb]. unfold do_output, emit, mbind, cstate_bind, mret, cstate_ret. rewrite Hv.
  do 2 eexists. split; [reflexivity|]. split; reflexivity.
Qed.

(** ** Stepping lemmas *)

Lemma extract_eth_data skb ek skb' :
  extract_eth skb = Ret (Some (ek, skb')) ->
  sk_data skb' = sk_data skb /\ (14 <= length (sk_data skb))%nat.
Proof.
  unfold extract_eth. intros (eth & E1 & E2)%outcome_bind_ret_inv.
  assert (14 <= length (sk_data skb))%nat as Hl.
  { unfold slice in E1. destruct (Nat.leb_spec (0 + 14) (length (sk_data (set_mac_header skb (sk_off skb)))));
      [done|discriminate E1]. }
  split; [|done].
  apply outcome_bind_ret_inv in E2 as ([tci d] & _ & E2).
  apply outcome_bind_ret_inv in E2 as ([ty d'] & _ & E2).
  destruct (ty =? 0); [discriminate E2|]. by simplify_eq/=.
Qed.

Section DatapathSpec.
Context {T R : Type} `{GroupTableLaws T}.
Context (K : kernel) (atomic : nat -> bool) (vports : Z -> bool) (local_ip : Z)
        (extract_rest : sk_buff -> eth_key -> option R)
        (flow_tbl_lookup : sw_flow_key R -> option (list action))
        (queue_ok : Z -> sk_buff -> bool).
Implicit Types (s : dp_state T R).

Notation extract := (ovs_flow_extract extract_rest).
Notation process := (ovs_dp_process_received_packet K atomic vports local_ip extract_rest
                       flow_tbl_lookup queue_ok).

(** The table of the datapath. *)
Definition dp_rep s (t : table) : Prop := exists x, dp_gdt s = Some x /\ gt_rep x t.

Lemma on_act_ok {A} (c : act A) s a st :
  c (dp_act s) = Ret (a, st) ->
  on_act c s = Ret (a, MkDp (dp_gdt s) st (dp_missed s) (n_hit s) (n_missed s) (n_lost s)).
Proof. intros E. unfold on_act. by rewrite E. Qed.

Lemma gdt_match_none encaped key s :
  encaped = true \/ eth_type (k_eth key) = ETH_P_ARP -> gdt_match encaped key s = Ret (None, s).
Proof.
  intros He. unfold gdt_match. destruct encaped; [done|]. destruct He as [|E]; [done|].
  by rewrite E, Z.eqb_refl.
Qed.

Lemma gdt_match_ok key s t :
  dp_rep s t -> eth_type (k_eth key) <> ETH_P_ARP ->
  exists r, gdt_match false key s = Ret (r, s)
    /\ entry_of <$> r = tab_check t (mac_string (eth_dst (k_eth key))).
Proof.
  intros (x & Hx & Hr) Ht. unfold gdt_match.
  destruct (Z.eqb_spec (eth_type (k_eth key)) ETH_P_ARP); [done|]. cbn [negb andb].
  destruct (gt_check_ok x t (mac_string (eth_dst (k_eth key))) Hr) as (r & E & Hread & _).
  exists r. split; [|done]. unfold on_gdt. rewrite Hx, E. destruct s; simpl in *; by subst.
Qed.

Lemma extract_data skb in_port key skb' :
  extract skb in_port = Ret (Some (key, skb')) ->
  sk_data skb' = sk_data skb /\ (14 <= length (sk_data skb))%nat.
Proof.
  unfold ovs_flow_extract. intros (e & E1 & E2)%outcome_bind_ret_inv.
  destruct e as [[ek sk]|]; [|done]. case_match; [|done]. simplify_eq/=.
  by apply extract_eth_data in E1.
Qed.

(** The outcome of a miss: one upcall, or one lost packet. *)
Definition upcalled (pid : Z) (key : R) (skb : sk_buff) s s' : Prop :=
  log (dp_act s') = log (dp_act s) ++ [Freed] /\ dp_gdt s' = dp_gdt s
  /\ n_hit s' = n_hit s /\ n_missed s' = n_missed s + 1
  /\ (if negb (pid =? 0) && queue_ok pid skb
      then dp_missed s' = dp_missed s ++ [(pid, key, skb)] /\ n_lost s' = n_lost s
      else dp_missed s' = dp_missed s /\ n_lost s' = n_lost s + 1).

Lemma process_unmatched_miss in_port pid encaped key skb s :
  gdt_match encaped key s = Ret (None, s) ->
  exists s', process_unmatched K atomic vports local_ip queue_ok in_port pid encaped key skb s
             = Ret (tt, s') /\ upcalled pid (k_rest key) skb s s'.
Proof.
  intros E. unfold process_unmatched. rewrite (cstate_bind_step _ _ _ _ _ E).
  unfold ovs_dp_upcall, upcalled, mbind, cstate_bind. destruct (_ && _); eexists; (split; [reflexivity|]);
    by split_and!.
Qed.

Lemma set_tun_id_data skb t : sk_data (set_tun_id skb t) = sk_data skb.
Proof. done. Qed.

Lemma process_unmatched_hit in_port pid key skb s t e :
  dp_rep s t -> eth_type (k_eth key) <> ETH_P_ARP ->
  tab_check t (mac_string (eth_dst (k_eth key))) = Some e ->
  0 <= e_id e < 2 ^ 32 -> 0 <= e_port e < 2 ^ 16 -> (14 <= length (sk_data skb))%nat ->
  (forall n, atomic n = true) -> vports (e_port e) = true ->
  exists s' p,
    process_unmatched K atomic vports local_ip queue_ok in_port pid false key skb s = Ret (tt, s')
    /\ dp_gdt s' = dp_gdt s /\ dp_missed s' = dp_missed s /\ n_lost s' = n_lost s
    /\ n_missed s' = n_missed s /\ n_hit s' = n_hit s + 1
    /\ log (dp_act s') = log (dp_act s) ++ [Sent (e_port e) p]
    /\ sk_data p = outer (k_ip_fast_csum K) local_ip (e_id e) (sk_data skb).
Proof.
  intros Hr Ht Hc Hid Hport Hl Hat Hv.
  destruct (gdt_match_ok key s t Hr Ht) as (r & E & Hread). rewrite Hc in Hread.
  destruct r as [bf|]; [|done]. injection Hread as He.
  unfold process_unmatched. rewrite (cstate_bind_step _ _ _ _ _ E).
  unfold alloc_ok. unfold mbind at 1, cstate_bind at 1, on_act at 1. rewrite Hat. cbn [negb].
  unfold mbind at 1, cstate_bind at 1, on_act at 1. rewrite Hat. cbn [negb].
  unfold run_flow.
  destruct (run_remote K atomic vports local_ip (e_port e) (e_id e) (set_tun_id skb 0)
              (MkAct (S (S (tick (dp_act s)))) (log (dp_act s))) Hid Hport Hl Hat Hv)
    as (p & st' & E' & Hlog & Hd).
  assert (remote_payload bf = u64 (Z.shiftl (e_port e) 32 + e_id e)) as Hpay by (by subst e).
  rewrite Hpay. do 2 eexists. split.
  - unfold mbind, cstate_bind, on_act. cbn [dp_act tick log]. rewrite E'. reflexivity.
  - split_and!; try done.
Qed.
End DatapathSpec.

(** ** Properties *)

(** C5: traffic inside the group bypasses userspace.  A local non-ARP packet without a flow
    whose destination is in the group table, with allocations succeeding and the port of
    the filter present, causes no upcall: it is sent once, through the port of the first
    filter that holds its destination, as the EtherIP packet for the switch that owns the
    filter, and counts as a hit. *)
Theorem group_packet_forwarded {T R} `{GroupTableLaws T} K atomic vports local_ip
    (extract_rest : sk_buff -> eth_key -> option R) flow_tbl_lookup queue_ok
    in_port pid key skb skb' (s : dp_state T R) t e :
  dp_rep s t ->
  ovs_flow_extract extract_rest skb in_port = Ret (Some (key, skb')) ->
  flow_tbl_lookup key = None -> eth_type (k_eth key) <> ETH_P_ARP ->
  tab_check t (mac_string (eth_dst (k_eth key))) = Some e ->
  0 <= e_id e < 2 ^ 32 -> 0 <= e_port e < 2 ^ 16 ->
  (forall n, atomic n = true) -> vports (e_port e) = true ->
  exists s' p,
    ovs_dp_process_received_packet K atomic vports local_ip extract_rest flow_tbl_lookup queue_ok
      in_port pid false None skb s = Ret (tt, s')
    /\ dp_gdt s' = dp_gdt s /\ dp_missed s' = dp_missed s /\ n_lost s' = n_lost s
    /\ n_missed s' = n_missed s /\ n_hit s' = n_hit s + 1
    /\ log (dp_act s') = log (dp_act s) ++ [Sent (e_port e) p]
    /\ sk_data p = outer (k_ip_fast_csum K) local_ip (e_id e) (sk_data skb).
Proof.
  intros Hr He Hf Ht Hc Hid Hport Hat Hv.
  destruct (extract_data extract_rest _ _ _ _ He) as [Hd Hl].
  unfold ovs_dp_process_received_packet, process_plain.
  rewrite (lift_bind_ok _ (Some (key, skb'))) by done. rewrite Hf, <- Hd.
  eapply process_unmatched_hit; try done. by rewrite Hd.
Qed.

(** Everything else is a miss, handled once.  A local packet without a flow that is ARP
    or whose destination no filter holds leads to exactly one upcall attempt (queued with
    its key, or counted as lost), is freed once, sends nothing and counts as missed. *)
Theorem unknown_packet_missed {T R} `{GroupTableLaws T} K atomic vports local_ip
    (extract_rest : sk_buff -> eth_key -> option R) flow_tbl_lookup queue_ok
    in_port pid key skb skb' (s : dp_state T R) t :
  dp_rep s t ->
  ovs_flow_extract extract_rest skb in_port = Ret (Some (key, skb')) ->
  flow_tbl_lookup key = None ->
  eth_type (k_eth key) = ETH_P_ARP \/ tab_check t (mac_string (eth_dst (k_eth key))) = None ->
  exists s',
    ovs_dp_process_received_packet K atomic vports local_ip extract_rest flow_tbl_lookup queue_ok
      in_port pid false None skb s = Ret (tt, s')
    /\ upcalled queue_ok pid (k_rest key) skb' s s'.
Proof.
  intros Hr He Hf Hno. unfold ovs_dp_process_received_packet, process_plain.
  rewrite (lift_bind_ok _ (Some (key, skb'))) by done. rewrite Hf.
  apply process_unmatched_miss. destruct (decide (eth_type (k_eth key) = ETH_P_ARP)) as [E|E].
  - apply gdt_match_none. by right.
  - destruct Hno as [|Hno]; [done|]. destruct (gdt_match_ok key s t Hr E) as (r & Eq & Hread).
    rewrite Hno in Hread. by destruct r.
Qed.

(** C7: a packet from another switch is never sent on through the group table, so two
    switches cannot bounce a packet between them.  Whatever the table holds, a packet that
    arrives encapsulated is unpacked (its inner bytes intact from the Ethernet type on)
    and, without a flow, goes to userspace and to no port. *)
Theorem remote_packet_not_bounced {T R} `{GroupTableLaws T} K atomic vports local_ip
    (extract_rest : sk_buff -> eth_key -> option R) flow_tbl_lookup queue_ok
    in_port pid key r skb' macs iph d (s : dp_state T R) :
  arrives r macs iph d -> (14 <= length d)%nat ->
  (forall r', remote_decapulation r = Ret (0, r') ->
     ovs_flow_extract extract_rest r' in_port = Ret (Some (key, skb'))) ->
  flow_tbl_lookup key = None ->
  exists s',
    ovs_vport_receive K atomic vports local_ip extract_rest flow_tbl_lookup queue_ok
      in_port pid r s = Ret (tt, s')
    /\ sk_data skb' = macs ++ drop 12 d
    /\ upcalled queue_ok pid (k_rest key) skb' s s'.
Proof.
  intros Ha Hl He Hf. pose proof Ha as [Hd Hm Hi Hp (Hml & Hpr & Hn)].
  assert (receive_encaped r = Ret 1) as Erecv by (by eapply arrives_encaped).
  pose proof (decap_ok r (macs ++ be_bytes 2 ETH_P_IP) iph [0x3; 0x0] d Hd
                ltac:(by rewrite length_app, Hm) Hi eq_refl ltac:(lia) Hml
                ltac:(by rewrite drop_app_length') Hp) as Edec.
  specialize (He _ Edec).
  unfold ovs_vport_receive. rewrite (lift_bind_ok _ 1) by done. change (negb (1 =? 0)) with true.
  unfold ovs_dp_process_received_packet, ovs_execute_decapulation. rewrite Edec.
  destruct (extract_data extract_rest _ _ _ _ He) as [Hd' _].
  destruct (process_unmatched_miss K atomic vports local_ip queue_ok in_port pid true key skb' s)
    as (s' & E & Hup).
  { apply gdt_match_none. by left. }
  exists s'. split; [|split; [|done]].
  - cbn [mbind outcome_bind]. unfold mbind at 1, cstate_bind at 1, lift at 1.
    change (0 <? 0) with false. cbv iota. unfold mbind at 1, cstate_bind at 1, on_act at 1, live, lift, of_option.
    unfold process_plain. destruct s; cbn [dp_gdt dp_act dp_missed n_hit n_missed n_lost].
    rewrite (lift_bind_ok _ (Some (key, skb'))) by done. by rewrite Hf.
  - rewrite Hd'. cbn [set_network_header set_mac_header set_data sk_data]. by rewrite take_app_length'.
Qed.

(** The netlink update keeps the datapath's table in step.  A well-formed
    OVS_BF_GDT_CMD_NEW or SET applies bf_gdt_update_filter to the table and reports 0; a
    missing attribute or one of the wrong size changes nothing and reports -1; a GET then
    returns the filter of an id, or ENOENT exactly when the table has none. *)
Theorem netlink_update_get {T R} `{GroupTableLaws T} (s : dp_state T R) t bf id :
  dp_rep s t -> valid_filter bf -> len bf = LC_BF_DFT_LEN ->
  (exists s', ovs_bf_gdt_cmd_new_or_set (Some (SIZEOF_BLOOM_FILTER, bf)) s = Ret (0, s')
     /\ dp_rep s' (tab_update t (entry_of bf)).2
     /\ exists r, ovs_bf_gdt_cmd_get (Some id) true s' = Ret (r, s')
          /\ match tab_find (tab_update t (entry_of bf)).2 id with
             | Some e => exists x, r = (0, Some x) /\ entry_of x = e
             | None => r = (- ENOENT, None)
             end)
  /\ ovs_bf_gdt_cmd_new_or_set None s = Ret (-1, s)
  /\ forall l, l <> SIZEOF_BLOOM_FILTER ->
       ovs_bf_gdt_cmd_new_or_set (Some (l, bf)) s = Ret (-1, s).
Proof.
  intros (x & Hx & Hr) Hv Hl. split; [|split; [done|]].
  - destruct (gt_update_ok x t bf Hr Hv Hl) as (x' & E & Hr').
    eexists. split; [|split].
    + unfold ovs_bf_gdt_cmd_new_or_set. rewrite Z.eqb_refl. cbn [negb].
      unfold mbind, cstate_bind, on_gdt. rewrite Hx, E. reflexivity.
    + by exists x'.
    + destruct (gt_find_ok x' _ id Hr') as (o & E2 & Hread & _).
      unfold ovs_bf_gdt_cmd_get, mbind, cstate_bind, on_gdt. cbn [dp_gdt]. rewrite E2, <- Hread.
      destruct o as [y|]; eexists; split; try reflexivity; by exists y.
  - intros l Hne. unfold ovs_bf_gdt_cmd_new_or_set. by destruct (Z.eqb_spec l SIZEOF_BLOOM_FILTER).
Qed.

Lemma dp_lc_init_ok alloc file :
  alloc_succeeds alloc ->
  exists g m', dp_lc_init alloc file mem_empty = Ret (inr (Some g), m')
    /\ table_rep m' g [MkEntry LC_BF_LOCAL_ID LC_BF_LOCAL_PORT (replicate ARRAY_BYTES 0)].
Proof.
  intros Hal. unfold dp_lc_init.
  destruct (rep_init alloc (default LC_GROUP_DFT_ID file) Hal) as (g & m0 & E0 & _ & Hr0).
  destruct (rep_add_filter alloc m0 g [] LC_BF_LOCAL_ID LC_BF_LOCAL_PORT Hal Hr0)
    as (p & m1 & E1 & (x & [Hp _] & _) & Hr1).
  exists g, m1. split; [|exact Hr1].
  rewrite (cstate_bind_step _ _ _ _ _ E0), (cstate_bind_step _ _ _ _ _ E1). by destruct p.
Qed.

(** ** Witnesses *)

Definition demo_dp : dp_state heap_table unit :=
  MkDp (Some (demo_switch 1)) (MkAct 0 []) [] 0 0 0.
Definition demo_packet (dst : list Z) (type : Z) : sk_buff :=
  MkSkb (dst ++ [2; 0; 0; 0; 0; 8] ++ be_bytes 2 type ++ replicate 30 0xab)
        100 100 114 134 14 type OVS_CSUM_NONE 0 0 0 0.

Lemma demo_dp_rep :
  @dp_rep _ unit _ (heap_GroupTableLaws demo_alloc demo_alloc_succeeds) demo_dp (demo_tab 1).
Proof. exists (demo_switch 1). split; [done|]. apply demo_switch_rep. Qed.

Abbreviation demo_process :=
  (@ovs_dp_process_received_packet _ unit (heap_GroupTable demo_alloc) demo_kernel (fun _ => true)
     (fun _ => true) 1 (fun _ _ => Some tt) (fun _ => None) (fun _ _ => true)).

Example group_packet_forwarded_witness :
  exists s' p,
    demo_process 3 77 false None (demo_packet [0; 1; 2; 3; 4; 1] ETH_P_IP) demo_dp = Ret (tt, s')
    /\ dp_gdt s' = dp_gdt demo_dp /\ dp_missed s' = [] /\ n_lost s' = 0
    /\ n_missed s' = 0 /\ n_hit s' = 0 + 1
    /\ log (dp_act s') = [] ++ [Sent 1 p]
    /\ sk_data p = outer (k_ip_fast_csum demo_kernel) 1 1
                     (sk_data (demo_packet [0; 1; 2; 3; 4; 1] ETH_P_IP)).
Proof.
  refine (@group_packet_forwarded heap_table unit _
            (heap_GroupTableLaws demo_alloc demo_alloc_succeeds) demo_kernel (fun _ => true)
            (fun _ => true) 1 (fun _ _ => Some tt) (fun _ => None) (fun _ _ => true) 3 77
            _ _ _ demo_dp (demo_tab 1) (demo_local 1) demo_dp_rep _ _ _ _ _ _ _ _).
  - vm_compute. reflexivity.
  - reflexivity.
  - vm_compute. discriminate.
  - vm_compute. reflexivity.
  - vm_compute. split; [discriminate|reflexivity].
  - vm_compute. split; [discriminate|reflexivity].
  - reflexivity.
  - reflexivity.
Defined.

Example unknown_packet_missed_witness :
  exists s',
    demo_process 3 77 false None (demo_packet [0; 1; 2; 3; 4; 1] ETH_P_ARP) demo_dp = Ret (tt, s')
    /\ upcalled (fun _ _ => true) 77 tt
         (set_network_header (demo_packet [0; 1; 2; 3; 4; 1] ETH_P_ARP) 114) demo_dp s'.
Proof.
  refine (@unknown_packet_missed heap_table unit _
            (heap_GroupTableLaws demo_alloc demo_alloc_succeeds) demo_kernel (fun _ => true)
            (fun _ => true) 1 (fun _ _ => Some tt) (fun _ => None) (fun _ _ => true) 3 77
            (MkKey 3 (MkEthKey [2; 0; 0; 0; 0; 8] [0; 1; 2; 3; 4; 1] 0 ETH_P_ARP) tt)
            _ _ demo_dp (demo_tab 1) demo_dp_rep _ _ _).
  - vm_compute. reflexivity.
  - reflexivity.
  - left. reflexivity.
Defined.

Example remote_packet_not_bounced_witness :
  exists skb' s',
    @ovs_vport_receive _ unit (heap_GroupTable demo_alloc) demo_kernel (fun _ => true)
      (fun _ => true) 1 (fun _ _ => Some tt) (fun _ => None) (fun _ _ => true) 1 77
      demo_received demo_dp = Ret (tt, s')
    /\ sk_data skb' = demo_macs ++ drop 12 (sk_data demo_skb)
    /\ upcalled (fun _ _ => true) 77 tt skb' demo_dp s'.
Proof.
  eexists. refine (@remote_packet_not_bounced heap_table unit _
            (heap_GroupTableLaws demo_alloc demo_alloc_succeeds) demo_kernel (fun _ => true)
            (fun _ => true) 1 (fun _ _ => Some tt) (fun _ => None) (fun _ _ => true) 1 77
            (MkKey 1 (MkEthKey (drop 6 demo_macs) (take 6 demo_macs) 0 ETH_P_IP) tt)
            demo_received _ demo_macs demo_iph (sk_data demo_skb) demo_dp _ _ _ _).
  - split; try reflexivity. by split_and!.
  - vm_compute. lia.
  - intros r' E. vm_compute in E. injection E as <-. vm_compute. reflexivity.
  - reflexivity.
Defined.

Example netlink_update_get_witness :
  (exists s', @ovs_bf_gdt_cmd_new_or_set _ unit (heap_GroupTable demo_alloc)
                (Some (SIZEOF_BLOOM_FILTER, filter_of (demo_entry 5))) demo_dp = Ret (0, s')
     /\ @dp_rep _ unit _ (heap_GroupTableLaws demo_alloc demo_alloc_succeeds) s'
          (tab_update (demo_tab 1) (demo_entry 5)).2
     /\ exists r, @ovs_bf_gdt_cmd_get _ unit (heap_GroupTable demo_alloc) (Some 5) true s' = Ret (r, s')
          /\ match tab_find (tab_update (demo_tab 1) (demo_entry 5)).2 5 with
             | Some e => exists x, r = (0, Some x) /\ entry_of x = e
             | None => r = (- ENOENT, None)
             end)
  /\ @ovs_bf_gdt_cmd_new_or_set _ unit (heap_GroupTable demo_alloc) None demo_dp = Ret (-1, demo_dp)
  /\ forall l, l <> SIZEOF_BLOOM_FILTER ->
       @ovs_bf_gdt_cmd_new_or_set _ unit (heap_GroupTable demo_alloc)
         (Some (l, filter_of (demo_entry 5))) demo_dp = Ret (-1, demo_dp).
Proof.
  apply (@netlink_update_get heap_table unit _ (heap_GroupTableLaws demo_alloc demo_alloc_succeeds)
           demo_dp (demo_tab 1) (filter_of (demo_entry 5)) 5 demo_dp_rep).
  - split; [split; [reflexivity|discriminate]|apply (demo_entry_valid 5)|reflexivity].
  - reflexivity.
Defined.
