(* ===== verification/LcNet.v ===== *)
(** * The local control group

    The switches of one group and the multicast channel between them.  The concrete network
    is made of the operations of Mcast and Datapath over any [GroupTable]; messages can be
    lost, duplicated, delayed and reordered.  The abstract network replaces every table by
    its list of entries.  The concrete network refines the abstract one, on which the
    invariants are proved: no switch ever credits another with a host the other does not
    record, and the datapath's table follows the daemon's. *)
From S2P Require Import Prelude LcMem Bloom BfGdt Mcast Remote DpActions Datapath.

Local Open Scope Z_scope.

(** ** Abstract network *)

Record asw := MkAsw { a_id : Z; a_t : table; a_d : table }.

(** The switches, and the entries multicast so far. *)
Record anet := MkAnet { a_sws : list asw; a_msgs : list entry }.

Definition a_recv (w : asw) (e : entry) : asw :=
  if e_id e =? a_id w then w
  else MkAsw (a_id w) (tab_update (a_t w) e).2
         (if 0 <? (tab_update (a_t w) e).1
          then (tab_update (a_d w) (MkEntry (e_id e) LC_BF_REMOTE_PORT (e_array e))).2
          else a_d w).

Definition a_learn (w : asw) (key : list Z) : asw :=
  MkAsw (a_id w) (tab_learn (a_id w) (a_t w) key) (a_d w).

Inductive astep : anet -> anet -> Prop :=
  | ALearn n i w key :
      a_sws n !! i = Some w ->
      astep n (MkAnet (<[i := a_learn w key]> (a_sws n)) (a_msgs n))
  | ASend n i w e :
      a_sws n !! i = Some w -> tab_find (a_t w) (a_id w) = Some e ->
      astep n (MkAnet (a_sws n) (a_msgs n ++ [e]))
  | ARecv n i w e :
      a_sws n !! i = Some w -> e ∈ a_msgs n ->
      astep n (MkAnet (<[i := a_recv w e]> (a_sws n)) (a_msgs n))
  | AStutter n : astep n n.

Definition local_entry (id : Z) : entry :=
  MkEntry id LC_BF_LOCAL_PORT (replicate ARRAY_BYTES 0).

(** Every table with just the switch's own empty filter, as bridge_lc_init and
    ovs_dp_cmd_new leave them. *)
Definition a_init (ids : list Z) : anet :=
  MkAnet ((fun id => MkAsw id [local_entry id] [local_entry id]) <$> ids) [].

(** ** Concrete network *)

Section Concrete.
Context {T R : Type} `{GroupTable T}.

Record sw := MkSw { sw_arg : mc_arg; sw_ovsd : T; sw_dp : dp_state T R }.
Record cnet := MkNet { c_sws : list sw; c_msgs : list mcast_msg }.

(** bridge_update_bf_gdt_to_dp, down to the datapath's command handler. *)
Definition update_dp (bf : option bloom_filter) : cstate (dp_state T R) unit :=
  match bf with
  | None => mret tt
  | Some bf => _ ← ovs_bf_gdt_cmd_new_or_set (Some (SIZEOF_BLOOM_FILTER, bf)); mret tt
  end.

Inductive step : cnet -> cnet -> Prop :=
  | Learn n i w x ov :
      c_sws n !! i = Some w ->
      learn_miss (Some (sw_arg w)) (ms_in_port x) (ms_dl_type x) (ms_dl_src x) (sw_ovsd w)
        = Ret (tt, ov) ->
      step n (MkNet (<[i := MkSw (sw_arg w) ov (sw_dp w)]> (c_sws n)) (c_msgs n))
  | Send n i w gid stat msg ov :
      c_sws n !! i = Some w ->
      mc_send gid (sw_arg w) stat (sw_ovsd w) = Ret (Some msg, ov) ->
      step n (MkNet (<[i := MkSw (sw_arg w) ov (sw_dp w)]> (c_sws n)) (c_msgs n ++ [msg]))
  | Recv n i w gid ok msg out ov dp :
      c_sws n !! i = Some w -> msg ∈ c_msgs n ->
      mc_recv gid (sw_arg w) ok msg (sw_ovsd w) = Ret (out, ov) ->
      update_dp (ro_to_dp out) (sw_dp w) = Ret (tt, dp) ->
      step n (MkNet (<[i := MkSw (sw_arg w) ov dp]> (c_sws n)) (c_msgs n)).
End Concrete.
Arguments sw : clear implicits.
Arguments cnet : clear implicits.

Section Refinement.
Context {T R : Type} `{GroupTableLaws T}.

Lemma MkAnet_eta a : MkAnet (a_sws a) (a_msgs a) = a.
Proof. by destruct a. Qed.

Record sw_rep (w : sw T R) (a : asw) : Prop := {
  sr_id : mc_local_id (sw_arg w) = a_id a;
  sr_ovsd : gt_rep (sw_ovsd w) (a_t a);
  sr_dp : dp_rep (sw_dp w) (a_d a)
}.

Record net_rep (n : cnet T R) (a : anet) : Prop := {
  nr_sws : Forall2 sw_rep (c_sws n) (a_sws a);
  nr_msgs : Forall2 msg_of (c_msgs n) (a_msgs a)
}.

Lemma update_dp_ok bf (s : dp_state T R) d :
  dp_rep s d -> (forall x, bf = Some x -> valid_filter x /\ len x = LC_BF_DFT_LEN) ->
  exists s', update_dp bf s = Ret (tt, s')
    /\ dp_rep s' (match bf with Some x => (tab_update d (entry_of x)).2 | None => d end).
Proof.
  intros (x & Hx & Hr) Hv. destruct bf as [y|]; [|exists s; split; [done|by exists x]].
  destruct (Hv y eq_refl) as [Hy Hl].
  destruct (gt_update_ok x d y Hr Hy Hl) as (x' & E & Hr').
  eexists. split.
  - unfold update_dp, ovs_bf_gdt_cmd_new_or_set. rewrite Z.eqb_refl. cbn [negb].
    unfold mbind, cstate_bind, on_gdt. rewrite Hx, E. reflexivity.
  - by exists x'.
Qed.

Lemma recv_to_dp arg t e out d :
  recv_spec arg t e out ->
  match ro_to_dp out with Some x => (tab_update d (entry_of x)).2 | None => d end
  = if 0 <? (tab_update t e).1
    then (tab_update d (MkEntry (e_id e) LC_BF_REMOTE_PORT (e_array e))).2 else d.
Proof.
  unfold recv_spec. destruct (ro_to_dp out) as [x|].
  - intros (Hlt & _ & _ & ->). by destruct (Z.ltb_spec 0 (tab_update t e).1); [|lia].
  - intros Hle. by destruct (Z.ltb_spec 0 (tab_update t e).1); [lia|].
Qed.

Lemma net_rep_lookup n a i w :
  net_rep n a -> c_sws n !! i = Some w -> exists b, a_sws a !! i = Some b /\ sw_rep w b.
Proof. intros Hr Hi. by eapply Forall2_lookup_l; [apply Hr|]. Qed.

Lemma net_rep_insert n a i w b :
  net_rep n a -> sw_rep w b ->
  net_rep (MkNet (<[i := w]> (c_sws n)) (c_msgs n)) (MkAnet (<[i := b]> (a_sws a)) (a_msgs a)).
Proof. intros [Hs Hm] Hw. split; [|done]. by apply Forall2_insert. Qed.

(** One reception, concretely and abstractly. *)
Lemma recv_sim (w : sw T R) b gid ok msg e :
  sw_rep w b -> msg_of msg e ->
  exists out ov dp,
    mc_recv gid (sw_arg w) ok msg (sw_ovsd w) = Ret (out, ov)
    /\ update_dp (ro_to_dp out) (sw_dp w) = Ret (tt, dp)
    /\ sw_rep (MkSw (sw_arg w) ov dp) (a_recv b e).
Proof.
  intros [Hid Hr Hd] Hmsg. pose proof (mo_entry _ _ Hmsg) as He. unfold a_recv.
  assert (bf_id (msg_bf msg) = e_id e) as Hbf by (by subst e).
  destruct (Z.eqb_spec (e_id e) (a_id b)) as [E|E].
  - destruct (mc_recv_own gid (sw_arg w) ok (sw_ovsd w) msg ltac:(congruence)) as (out & E1 & E2).
    exists out, (sw_ovsd w), (sw_dp w). rewrite E2. by split_and!.
  - destruct (mc_recv_ok gid (sw_arg w) ok (sw_ovsd w) (a_t b) msg e Hr Hmsg ltac:(congruence))
      as (out & ov & E1 & Hr' & Hspec).
    destruct (update_dp_ok (ro_to_dp out) (sw_dp w) (a_d b) Hd) as (dp & E2 & Hd').
    { intros x Hx. unfold recv_spec in Hspec. rewrite Hx in Hspec. naive_solver. }
    exists out, ov, dp. split_and!; [done..|]. split; [done|done|]. cbn [sw_dp a_d].
    by rewrite <- (recv_to_dp _ _ _ _ (a_d b) Hspec).
Qed.

Lemma step_sim n n' a : step n n' -> net_rep n a -> exists a', astep a a' /\ net_rep n' a'.
Proof.
  intros Hstep Hr. destruct Hstep as [n i w x ov Hi E|n i w gid stat msg ov Hi E
                                     |n i w gid ok msg out ov dp Hi Hin E1 E2];
    destruct (net_rep_lookup n a i w Hr Hi) as (b & Hb & Hw).
  - destruct (learn_miss_ok (sw_arg w) (ms_in_port x) (ms_dl_type x) (ms_dl_src x) _ _ (sr_ovsd _ _ Hw))
      as (ov' & E' & Hr'). rewrite E' in E. injection E as <-.
    destruct (_ && _).
    + eexists. split; [by eapply ALearn|]. apply net_rep_insert; [done|].
      destruct Hw as [Hid _ Hd]. split; [done| |done]. unfold a_learn; cbn; rewrite <- Hid; exact Hr'.
    + exists a. split; [constructor|].
      rewrite <- (MkAnet_eta a), <- (list_insert_id (a_sws a) i b Hb).
      apply net_rep_insert; [done|]. destruct Hw. by split.
  - destruct (mc_send_ok gid (sw_arg w) stat _ _ (sr_ovsd _ _ Hw)) as (r & E' & Hm).
    rewrite E' in E. injection E as -> <-. rewrite (sr_id _ _ Hw) in Hm.
    destruct (tab_find (a_t b) (a_id b)) as [e|] eqn:Ef; [|done].
    destruct Hm as (msg' & [= <-] & Hmsg & _).
    eexists. split; [by eapply ASend|]. destruct Hr as [Hs Hms]. split; cbn.
    + rewrite list_insert_id; [done|]. rewrite Hi. by destruct w.
    + apply Forall2_app; [done|]. by constructor.
  - apply list_elem_of_lookup in Hin as [k Hk].
    destruct (Forall2_lookup_l _ _ _ _ _ (nr_msgs _ _ Hr) Hk) as (e & He & Hmsg).
    destruct (recv_sim w b gid ok msg e Hw Hmsg) as (out' & ov' & dp' & E1' & E2' & Hw').
    rewrite E1' in E1. injection E1 as <- <-. rewrite E2' in E2. injection E2 as <-.
    eexists. split; [eapply ARecv; [done|by eapply list_elem_of_lookup_2]|].
    by apply net_rep_insert.
Qed.
End Refinement.

(** ** Invariants of the abstract network *)

(** Some switch owns the entry: its local filter contains the entry's bits. *)
Definition owned (a : anet) (e : entry) : Prop :=
  exists i w el, a_sws a !! i = Some w /\ a_id w = e_id e
    /\ tab_find (a_t w) (a_id w) = Some el /\ sub_bits (e_array e) (e_array el).

(** The datapath's table follows the daemon's. *)
Record synced (w : asw) : Prop := {
  sy_len : length (a_t w) = length (a_d w);
  sy_find id : id <> a_id w ->
    e_array <$> tab_find (a_t w) id = e_array <$> tab_find (a_d w) id;
  sy_port e : e ∈ a_d w -> e_id e <> a_id w -> e_port e = LC_BF_REMOTE_PORT;
  sy_own e : e ∈ a_d w -> e_id e = a_id w -> e_array e = replicate ARRAY_BYTES 0
}.

Record a_inv (a : anet) : Prop := {
  ai_local i w : a_sws a !! i = Some w ->
    exists el, tab_find (a_t w) (a_id w) = Some el /\ length (e_array el) = ARRAY_BYTES;
  ai_own_t i w e : a_sws a !! i = Some w -> e ∈ a_t w -> owned a e;
  ai_own_d i w e : a_sws a !! i = Some w -> e ∈ a_d w -> owned a e;
  ai_own_m e : e ∈ a_msgs a -> owned a e;
  ai_sync i w : a_sws a !! i = Some w -> synced w
}.

Lemma HDFT : 0 < LC_BF_DFT_LEN <= LC_BF_DFT_LEN.
Proof. unfold LC_BF_DFT_LEN. lia. Qed.

(** *** Entries after an operation *)

Lemma tab_update_elem t e x :
  x ∈ (tab_update t e).2 -> x ∈ t \/ (e_id x = e_id e /\ e_array x = e_array e
                                     /\ (x = e \/ exists y, y ∈ t /\ e_id y = e_id x /\ e_port y = e_port x)).
Proof.
  unfold tab_update. destruct (find_pos _ t) as [[i y]|] eqn:E.
  - apply find_pos_Some in E as [Hi Hy]. apply Z.eqb_eq in Hy.
    case_decide; simpl; [by left|]. intros (j & Hj)%list_elem_of_lookup.
    rewrite list_lookup_insert_spec in Hj by (by apply lookup_lt_Some in Hi). case_decide.
    + simplify_eq. right. split_and!; [done|done|]. right. exists y.
      split; [by eapply list_elem_of_lookup_2|done].
    + left. by eapply list_elem_of_lookup_2.
  - case_decide; simpl; [by left|]. rewrite elem_of_app, list_elem_of_singleton.
    intros [Hx| ->]; [by left|right; auto].
Qed.

Lemma tab_add_item_elem t id key x :
  x ∈ (tab_add_item t id key).2 ->
  x ∈ t \/ exists y, tab_find t id = Some y
                     /\ x = with_array y (insert_key LC_BF_DFT_LEN (e_array y) key).
Proof.
  unfold tab_add_item. rewrite tab_find_pos. destruct (find_pos _ t) as [[i y]|] eqn:E; simpl; [|by left].
  apply find_pos_Some in E as [Hi _]. intros (j & Hj)%list_elem_of_lookup.
  rewrite list_lookup_insert_spec in Hj by (by apply lookup_lt_Some in Hi). case_decide.
  - simplify_eq. right. by exists y.
  - left. by eapply list_elem_of_lookup_2.
Qed.

Lemma tab_update_find_ne t e id : id <> e_id e -> tab_find (tab_update t e).2 id = tab_find t id.
Proof.
  intros Hne. destruct (decide (is_Some (tab_find t (e_id e)) \/ length t <> 64%nat)) as [Hr|Hr].
  - by rewrite tab_update_find, decide_False.
  - unfold tab_update. destruct (find_pos (fun e' => e_id e' =? e_id e) t) as [[i y]|] eqn:E.
    + destruct Hr. left. rewrite tab_find_pos, E. by eexists.
    + rewrite decide_True; [done|]. destruct (decide (length t = 64%nat)); [done|]. destruct Hr. by right.
Qed.

Lemma tab_update_length t e :
  length (tab_update t e).2
  = if decide (tab_find t (e_id e) = None /\ length t <> 64%nat) then S (length t) else length t.
Proof.
  unfold tab_update. rewrite tab_find_pos. destruct (find_pos _ t) as [[i y]|] eqn:E; simpl.
  - case_decide; simpl; [done|apply length_insert].
  - case_decide as D; simpl.
    + rewrite decide_False by naive_solver. done.
    + rewrite decide_True by done. rewrite length_app. simpl. lia.
Qed.

Lemma tab_update_code t e :
  0 < (tab_update t e).1 <-> e_array <$> tab_find t (e_id e) <> Some (e_array e).
Proof.
  unfold tab_update. rewrite tab_find_pos. destruct (find_pos _ t) as [[i y]|]; simpl.
  - case_decide; simpl; split; try lia; congruence.
  - case_decide; simpl; (split; [done|lia]).
Qed.

(** *** Preservation *)

(** Replacing switch [i] by one with the same id and a local filter that only grew. *)
Lemma owned_mono a i w w' ms e :
  a_sws a !! i = Some w -> a_id w' = a_id w ->
  (forall el, tab_find (a_t w) (a_id w) = Some el ->
     exists el', tab_find (a_t w') (a_id w') = Some el' /\ sub_bits (e_array el) (e_array el')) ->
  owned a e -> owned (MkAnet (<[i := w']> (a_sws a)) ms) e.
Proof.
  intros Hi Hid Hgrow (j & v & el & Hj & Hv & Hf & Hs).
  destruct (decide (i = j)) as [<-|Hne].
  - rewrite Hi in Hj. injection Hj as <-. destruct (Hgrow el Hf) as (el' & Hf' & Hs').
    exists i, w', el'. cbn. rewrite list_lookup_insert_eq by (by apply lookup_lt_Some in Hi).
    split_and!; [done|congruence|done|]. by etransitivity.
  - exists j, v, el. cbn. by rewrite list_lookup_insert_ne.
Qed.

Lemma a_learn_grows w key el :
  tab_find (a_t w) (a_id w) = Some el -> length (e_array el) = ARRAY_BYTES ->
  exists el', tab_find (a_t (a_learn w key)) (a_id (a_learn w key)) = Some el'
    /\ sub_bits (e_array el) (e_array el') /\ length (e_array el') = ARRAY_BYTES.
Proof.
  intros Hf Hl. eexists. cbn [a_learn a_t a_id]. rewrite (tab_learn_find _ _ _ el), decide_True by done.
  split; [done|]. split; [apply sub_bits_insert; [apply HDFT|done]|]. by cbn; rewrite length_insert_key.
Qed.

Lemma a_recv_local w e : tab_find (a_t (a_recv w e)) (a_id (a_recv w e)) = tab_find (a_t w) (a_id w).
Proof.
  unfold a_recv. destruct (Z.eqb_spec (e_id e) (a_id w)); [done|]. cbn.
  apply tab_update_find_ne. congruence.
Qed.

Lemma a_recv_id w e : a_id (a_recv w e) = a_id w.
Proof. unfold a_recv. by destruct (_ =? _). Qed.

(** An entry with the same id and array as an owned one is owned. *)
Lemma owned_ext a e x : e_id x = e_id e -> e_array x = e_array e -> owned a e -> owned a x.
Proof. intros E1 E2. unfold owned. by rewrite E1, E2. Qed.

Lemma synced_learn w key el :
  tab_find (a_t w) (a_id w) = Some el -> synced w -> synced (a_learn w key).
Proof.
  intros Hf [Hl Hs Hp Ho]. split; cbn [a_learn a_t a_id a_d].
  - rewrite <- Hl. unfold tab_learn. rewrite Hf. unfold tab_add_item.
    destruct (find_pos _ _) as [[i y]|]; simpl; [apply length_insert|done].
  - intros id Hne. by rewrite (tab_learn_find _ _ _ el), decide_False, Hs.
  - done.
  - done.
Qed.

Lemma synced_recv w e : synced w -> synced (a_recv w e).
Proof.
  intros Hw. unfold a_recv. destruct (Z.eqb_spec (e_id e) (a_id w)) as [|Hne]; [done|].
  destruct Hw as [Hl Hs Hp Ho]. set (e' := MkEntry (e_id e) LC_BF_REMOTE_PORT (e_array e)).
  pose proof (Hs (e_id e) Hne) as Hse.
  assert (tab_find (a_t w) (e_id e) = None <-> tab_find (a_d w) (e_id e) = None) as Hnone
    by (destruct (tab_find (a_t w) (e_id e)), (tab_find (a_d w) (e_id e)); naive_solver).
  destruct (Z.ltb_spec 0 (tab_update (a_t w) e).1) as [Hc|Hc].
  - split; cbn [a_t a_d a_id].
    + rewrite !tab_update_length. cbn. rewrite <- Hl. repeat case_decide; naive_solver.
    + intros id Hid. destruct (decide (id = e_id e)) as [->|Hd].
      2:{ rewrite !tab_update_find_ne by (cbn; congruence). by apply Hs. }
      destruct (decide (is_Some (tab_find (a_t w) (e_id e)) \/ length (a_t w) <> 64%nat)) as [Hr|Hr].
      * rewrite !tab_update_find; [by rewrite !decide_True| |done]. cbn [e' e_id]. rewrite <- Hl.
        destruct Hr as [[y Hy]|]; [left|by right]. rewrite Hy in Hse.
        destruct (tab_find (a_d w) (e_id e)); [by eexists|done].
      * assert (tab_find (a_t w) (e_id e) = None) as Hn.
        { destruct (tab_find (a_t w) (e_id e)) eqn:E; [destruct Hr; left; by eexists|done]. }
        assert (length (a_t w) = 64%nat) as H64 by (destruct (decide (length (a_t w) = 64%nat)); tauto).
        pose proof (proj1 Hnone Hn) as Hn'. unfold tab_update. rewrite tab_find_pos in Hn, Hn'. cbn.
        destruct (find_pos _ (a_t w)); [done|]. destruct (find_pos _ (a_d w)); [done|].
        rewrite !decide_True by lia. by apply Hs.
    + intros x [Hx|(Hx1 & Hx2 & [->|(y & Hy & Hy1 & <-)])]%tab_update_elem Hid; [by apply Hp|done|].
      apply Hp; [done|]. congruence.
    + intros x [Hx|(Hx1 & _ & _)]%tab_update_elem Hid; [by apply Ho|].
      destruct Hne. by rewrite <- Hid, Hx1.
  - assert (e_array <$> tab_find (a_t w) (e_id e) = Some (e_array e)) as Hsame.
    { destruct (decide (e_array <$> tab_find (a_t w) (e_id e) = Some (e_array e))); [done|].
      apply tab_update_code in n. lia. }
    assert ((tab_update (a_t w) e).2 = a_t w) as ->; [|by split].
    unfold tab_update. rewrite tab_find_pos in Hsame.
    destruct (find_pos _ (a_t w)) as [[i y]|]; simpl in Hsame; [|done].
    injection Hsame as Hsame. by rewrite decide_True.
Qed.

Lemma a_inv_step a a' : astep a a' -> a_inv a -> a_inv a'.
Proof.
  intros Hstep Hinv. destruct Hstep as [n i w key Hi|n i w e Hi Hf|n i w e Hi Hm|n]; [| | |done].
  - destruct (ai_local _ Hinv _ _ Hi) as (el & Hel & Hlen).
    destruct (a_learn_grows w key el Hel Hlen) as (el' & Hel' & Hsub & Hlen').
    assert (forall e, owned n e -> owned (MkAnet (<[i := a_learn w key]> (a_sws n)) (a_msgs n)) e) as Hmono.
    { intros e. eapply owned_mono; [done|done|]. intros x Hx. exists el'. by simplify_eq. }
    split; cbn; [intros j v Hj|intros j v e Hj He|intros j v e Hj He|intros e He|intros j v Hj];
      try (rewrite list_lookup_insert_spec in Hj by (by apply lookup_lt_Some in Hi); case_decide; simplify_eq).
    + by exists el'.
    + by eapply Hinv.
    + cbn [a_learn a_t] in He. unfold tab_learn in He. rewrite Hel in He.
      apply tab_add_item_elem in He as [He|(y & Hy & ->)]; [apply Hmono; by eapply Hinv|].
      exists j, (a_learn w key), el'. cbn [a_sws].
      rewrite list_lookup_insert_eq by (by apply lookup_lt_Some in Hi).
      cbn [a_learn a_t a_id] in Hel' |- *. rewrite (tab_learn_find _ _ _ el), decide_True in Hel' by done.
      rewrite Hel in Hy. injection Hy as <-. injection Hel' as <-.
      split_and!; [done|by apply tab_find_id in Hel|by rewrite (tab_learn_find _ _ _ el), decide_True|done].
    + apply Hmono. by eapply Hinv.
    + apply Hmono. by eapply (ai_own_d _ Hinv j w).
    + apply Hmono. by eapply (ai_own_d _ Hinv j v).
    + apply Hmono. by apply (ai_own_m _ Hinv).
    + eapply synced_learn; [done|by eapply Hinv].
    + by eapply Hinv.
  - split; cbn; try by apply Hinv. intros e' [He|He%list_elem_of_singleton]%elem_of_app; [by apply Hinv|].
    subst e'. apply (ai_own_t _ Hinv i w); [done|]. by eapply tab_find_elem.
  - assert (forall e', owned n e' -> owned (MkAnet (<[i := a_recv w e]> (a_sws n)) (a_msgs n)) e') as Hmono.
    { intros e'. eapply owned_mono; [done|by rewrite a_recv_id|]. intros x Hx. exists x.
      by rewrite a_recv_local. }
    pose proof (ai_own_m _ Hinv _ Hm) as Hown.
    split; cbn; [intros j v Hj|intros j v x Hj Hx|intros j v x Hj Hx|intros x Hx|intros j v Hj];
      try (rewrite list_lookup_insert_spec in Hj by (by apply lookup_lt_Some in Hi); case_decide; simplify_eq).
    + rewrite a_recv_local. by eapply Hinv.
    + by eapply Hinv.
    + apply Hmono. unfold a_recv in Hx. destruct (e_id e =? a_id w); [by eapply Hinv|].
      cbn in Hx. apply tab_update_elem in Hx as [Hx|(E1 & E2 & _)]; [by eapply Hinv|].
      by eapply owned_ext.
    + apply Hmono. by eapply Hinv.
    + apply Hmono. unfold a_recv in Hx. destruct (e_id e =? a_id w); [by eapply (ai_own_d _ Hinv j w)|].
      cbn in Hx. destruct (0 <? _); [|by eapply (ai_own_d _ Hinv j w)].
      apply tab_update_elem in Hx as [Hx|(E1 & E2 & _)]; [by eapply (ai_own_d _ Hinv j w)|].
      by eapply (owned_ext _ e).
    + apply Hmono. by eapply (ai_own_d _ Hinv j v).
    + apply Hmono. by apply (ai_own_m _ Hinv).
    + apply synced_recv. by eapply Hinv.
    + by eapply Hinv.
Qed.

Lemma a_inv_init ids : a_inv (a_init ids).
Proof.
  assert (forall i w, a_sws (a_init ids) !! i = Some w ->
            w = MkAsw (a_id w) [local_entry (a_id w)] [local_entry (a_id w)]) as Hw.
  { intros i w. cbn. rewrite list_lookup_fmap. destruct (ids !! i); [|done]. by intros [= <-]. }
  assert (forall i w, a_sws (a_init ids) !! i = Some w -> owned (a_init ids) (local_entry (a_id w))) as Ho.
  { intros i w Hi. exists i, w, (local_entry (a_id w)). split_and!; [done|done| |done].
    rewrite (Hw _ _ Hi). unfold tab_find. cbn. by rewrite Z.eqb_refl. }
  split.
  - intros i w Hi. exists (local_entry (a_id w)). rewrite (Hw _ _ Hi). unfold tab_find. cbn.
    by rewrite Z.eqb_refl.
  - intros i w e Hi He. rewrite (Hw _ _ Hi) in He. cbn in He.
    apply list_elem_of_singleton in He as ->. by eapply Ho.
  - intros i w e Hi He. rewrite (Hw _ _ Hi) in He. cbn in He.
    apply list_elem_of_singleton in He as ->. by eapply Ho.
  - intros e He. by apply not_elem_of_nil in He.
  - intros i w Hi. rewrite (Hw _ _ Hi). split; cbn; [done| | |].
    + done.
    + intros e ->%list_elem_of_singleton. done.
    + intros e ->%list_elem_of_singleton. done.
Qed.

Lemma a_ids_step a a' : astep a a' -> a_id <$> a_sws a' = a_id <$> a_sws a.
Proof.
  intros [n i w key Hi|n i w e Hi Hf|n i w e Hi Hm|n]; [|done| |done];
    cbn [a_sws]; rewrite list_fmap_insert, ?a_recv_id; cbn [a_learn a_id];
    apply list_insert_id; by rewrite list_lookup_fmap, Hi.
Qed.

Lemma a_reach ids a :
  rtc astep (a_init ids) a -> a_inv a /\ a_id <$> a_sws a = ids.
Proof.
  intros Hr. apply (rtc_ind_r (R := astep) (fun a => a_inv a /\ a_id <$> a_sws a = ids) (a_init ids)); [| |done].
  - split; [apply a_inv_init|]. cbn. rewrite <- list_fmap_compose. apply list_fmap_id.
  - intros y z _ Hs [Hi Hids]. split; [by eapply a_inv_step|]. by rewrite (a_ids_step _ _ Hs).
Qed.

Lemma net_sim {T R} `{GroupTableLaws T} (n n' : cnet T R) a :
  rtc step n n' -> net_rep n a -> exists a', rtc astep a a' /\ net_rep n' a'.
Proof.
  intros Hs. revert a. induction Hs as [n|n m n' Hnm _ IH]; intros a Hr; [by exists a|].
  destruct (step_sim _ _ _ Hnm Hr) as (b & Hab & Hb). destruct (IH _ Hb) as (a' & Hba & Ha').
  exists a'. split; [by eapply rtc_l|done].
Qed.

(** No key is in an empty filter. *)
Lemma has_key_zeros l key : 0 < l -> has_key l (replicate ARRAY_BYTES 0) key = false.
Proof.
  intros Hl. apply not_true_iff_false. unfold has_key. intros [Hb _]%andb_true_iff.
  unfold bit_at in Hb. destruct (replicate _ _ !! _) eqn:E; [|done].
  apply lookup_replicate in E as [-> _]. by rewrite Z.bits_0 in Hb.
Qed.

(** A hit in a datapath's table: another switch, through the remote port. *)
Lemma hit_remote w key e :
  synced w -> tab_check (a_d w) key = Some e -> e_id e <> a_id w /\ e_port e = LC_BF_REMOTE_PORT.
Proof.
  intros Hw [Hk Hin]%tab_check_Some. assert (e_id e <> a_id w) as Hne.
  { intros E. unfold entry_has in Hk. rewrite (sy_own _ Hw e Hin E) in Hk.
    rewrite has_key_zeros in Hk; [done|reflexivity]. }
  split; [done|]. by apply (sy_port _ Hw).
Qed.

(** After a reception the datapath finds whatever the message held. *)
Lemma recv_finds w e key :
  synced w -> e_id e <> a_id w -> entry_has e key = true ->
  is_Some (tab_find (a_t w) (e_id e)) \/ length (a_t w) <> 64%nat ->
  exists e', tab_check (a_d (a_recv w e)) key = Some e'.
Proof.
  intros Hw Hne Hk Hroom. pose proof (synced_recv w e Hw) as Hw'.
  pose proof (sy_find _ Hw' (e_id e)) as Hf. rewrite a_recv_id in Hf. specialize (Hf Hne).
  unfold a_recv in Hf at 1. destruct (Z.eqb_spec (e_id e) (a_id w)); [done|]. cbn [a_t] in Hf.
  rewrite tab_update_find, decide_True in Hf by done.
  destruct (tab_find (a_d (a_recv w e)) (e_id e)) as [x|] eqn:E; [|done]. injection Hf as Hx.
  apply (tab_check_hit _ x); [by eapply tab_find_elem|]. unfold entry_has in *. by rewrite <- Hx.
Qed.

(** ** Properties *)

(** C3: the group behaves as its abstract network.  Every run of the concrete network
    (learning, multicast, reception with the datapath update, in any interleaving) is
    matched by a run of the abstract one, and no step can fail: any switch can receive any
    message sent so far, at any time and any number of times. *)
Theorem net_refines {T R} `{GroupTableLaws T} (n n' : cnet T R) a :
  net_rep n a -> rtc step n n' ->
  exists a', rtc astep a a' /\ net_rep n' a'
    /\ forall i w gid ok msg, c_sws n' !! i = Some w -> msg ∈ c_msgs n' ->
         exists out ov dp,
           mc_recv gid (sw_arg w) ok msg (sw_ovsd w) = Ret (out, ov)
           /\ update_dp (ro_to_dp out) (sw_dp w) = Ret (tt, dp)
           /\ step n' (MkNet (<[i := MkSw (sw_arg w) ov dp]> (c_sws n')) (c_msgs n')).
Proof.
  intros Hr Hs. destruct (net_sim _ _ _ Hs Hr) as (a' & Ha & Hr'). exists a'. split_and!; [done..|].
  intros i w gid ok msg Hi Hm. destruct (net_rep_lookup _ _ _ _ Hr' Hi) as (b & _ & Hw).
  pose proof Hm as [k Hk]%list_elem_of_lookup.
  destruct (Forall2_lookup_l _ _ _ _ _ (nr_msgs _ _ Hr') Hk) as (e & _ & Hmsg).
  destruct (recv_sim w b gid ok msg e Hw Hmsg) as (out & ov & dp & E1 & E2 & _).
  exists out, ov, dp. split_and!; [done..|]. by eapply Recv.
Qed.

(** C2: traffic is only ever sent to a switch that records its destination.  In every state
    reachable from the initial one, whatever messages were lost, repeated or reordered,
    each switch's datapath holds a table in which a key is found only under the id of
    another switch of the group whose own local filter holds that key, and only with the
    remote port. *)
Theorem no_misdelivery {T R} `{GroupTableLaws T} (n0 n : cnet T R) ids i w :
  net_rep n0 (a_init ids) -> rtc step n0 n -> c_sws n !! i = Some w ->
  exists d, dp_rep (sw_dp w) d
    /\ forall key e, tab_check d key = Some e ->
         e_port e = LC_BF_REMOTE_PORT /\ e_id e <> mc_local_id (sw_arg w)
         /\ exists j v t el, c_sws n !! j = Some v /\ mc_local_id (sw_arg v) = e_id e
              /\ gt_rep (sw_ovsd v) t /\ tab_find t (e_id e) = Some el
              /\ entry_has el key = true.
Proof.
  intros Hr Hs Hi. destruct (net_sim _ _ _ Hs Hr) as (a & Ha & Hr').
  destruct (a_reach _ _ Ha) as [Hinv _]. destruct (net_rep_lookup _ _ _ _ Hr' Hi) as (b & Hb & Hw).
  exists (a_d b). split; [apply Hw|]. intros key e Hc.
  destruct (hit_remote b key e (ai_sync _ Hinv _ _ Hb) Hc) as [Hid Hp].
  split; [done|]. rewrite (sr_id _ _ Hw). split; [done|].
  apply tab_check_Some in Hc as [Hk Hin].
  destruct (ai_own_d _ Hinv _ _ _ Hb Hin) as (j & v & el & Hj & Hv & Hf & Hsub).
  destruct (Forall2_lookup_r _ _ _ _ _ (nr_sws _ _ Hr') Hj) as (cv & Hcv & Hvr).
  exists j, cv, (a_t v), el. split_and!; [done| |apply Hvr|by rewrite <- Hv|].
  - by rewrite (sr_id _ _ Hvr).
  - unfold entry_has in *. eapply has_key_sub; [reflexivity|exact Hsub|done].
Qed.

(** C1: the group's purpose.  In any reachable state let switch [j] multicast its filter and
    another switch [i], which knows [j] or has a free slot, receive it and pass it on to its
    datapath.  Let a packet come in on a local port of [i] that has no flow, is not an ARP packet and is
    for a host in [j]'s filter, and let no allocation fail and the port for remote packets,
    LC_BF_REMOTE_PORT, exist.  The packet is then sent to a switch of the group, in an EtherIP packet on
    that port, and userspace is not involved.  Identifiers are 32-bit. *)
Theorem group_learning_end_to_end {T R} `{GroupTableLaws T} (n0 n : cnet T R) ids i j w v
    tw tv el gid gid' ok stat msg ov out ov' dp K atomic vports local_ip
    (extract_rest : sk_buff -> eth_key -> option R) flow_tbl_lookup queue_ok
    in_port pid key skb skb' :
  net_rep n0 (a_init ids) -> Forall (fun id => 0 <= id < 2 ^ 32) ids -> rtc step n0 n ->
  c_sws n !! i = Some w -> gt_rep (sw_ovsd w) tw ->
  c_sws n !! j = Some v -> gt_rep (sw_ovsd v) tv ->
  mc_local_id (sw_arg v) <> mc_local_id (sw_arg w) ->
  is_Some (tab_find tw (mc_local_id (sw_arg v))) \/ length tw <> 64%nat ->
  mc_send gid (sw_arg v) stat (sw_ovsd v) = Ret (Some msg, ov) ->
  mc_recv gid' (sw_arg w) ok msg (sw_ovsd w) = Ret (out, ov') ->
  update_dp (ro_to_dp out) (sw_dp w) = Ret (tt, dp) ->
  tab_find tv (mc_local_id (sw_arg v)) = Some el ->
  entry_has el (mac_string (eth_dst (k_eth key))) = true ->
  ovs_flow_extract extract_rest skb in_port = Ret (Some (key, skb')) ->
  flow_tbl_lookup key = None -> eth_type (k_eth key) <> ETH_P_ARP ->
  (forall n, atomic n = true) -> vports LC_BF_REMOTE_PORT = true ->
  exists dp' p id,
    ovs_dp_process_received_packet K atomic vports local_ip extract_rest flow_tbl_lookup queue_ok
      in_port pid false None skb dp = Ret (tt, dp')
    /\ dp_missed dp' = dp_missed dp /\ id ∈ ids
    /\ log (dp_act dp') = log (dp_act dp) ++ [Sent LC_BF_REMOTE_PORT p]
    /\ sk_data p = outer (k_ip_fast_csum K) local_ip id (sk_data skb).
Proof.
  intros Hr Hids Hs Hi Htw Hj Htv Hne Hroom Esend Erecv Edp Hel Hk Hext Hfl Harp Hat Hport.
  destruct (net_sim _ _ _ Hs Hr) as (a & Ha & Hr'). destruct (a_reach _ _ Ha) as [Hinv Hidl].
  destruct (net_rep_lookup _ _ _ _ Hr' Hi) as (b & Hb & Hw).
  destruct (net_rep_lookup _ _ _ _ Hr' Hj) as (c & Hc & Hv).
  pose proof (gt_rep_fun _ _ _ Htw (sr_ovsd _ _ Hw)) as ->.
  pose proof (gt_rep_fun _ _ _ Htv (sr_ovsd _ _ Hv)) as ->.
  destruct (mc_send_ok gid (sw_arg v) stat _ _ (sr_ovsd _ _ Hv)) as (r & Es & Hm).
  rewrite Esend in Es. injection Es as <- ->. rewrite Hel in Hm.
  destruct Hm as (m & [= <-] & Hmsg & _).
  destruct (recv_sim w b gid' ok msg el Hw Hmsg) as (o' & ov2 & dp2 & E1 & E2 & Hw').
  rewrite Erecv in E1. injection E1 as <- <-. rewrite Edp in E2. injection E2 as <-.
  pose proof (ai_sync _ Hinv _ _ Hb) as Hsy. pose proof (tab_find_id _ _ _ Hel) as Hide.
  rewrite (sr_id _ _ Hw) in Hne.
  destruct (recv_finds b el _ Hsy ltac:(by rewrite Hide) Hk ltac:(by rewrite Hide)) as (e' & Hchk).
  destruct (hit_remote _ _ _ (synced_recv b el Hsy) Hchk) as [_ Hp].
  assert (e_id e' ∈ ids) as Hin.
  { destruct (decide (e_id e' = e_id el)) as [E|E].
    - rewrite E, Hide, (sr_id _ _ Hv), <- Hidl. apply list_elem_of_fmap. exists c.
      split; [done|by eapply list_elem_of_lookup_2].
    - apply tab_check_Some in Hchk as [_ Hin]. unfold a_recv in Hin.
      assert (e' ∈ a_d b) as Hin'.
      { destruct (_ =? _); [done|]. cbn in Hin. destruct (0 <? _); [|done].
        apply tab_update_elem in Hin as [?|(E1 & _)]; done. }
      destruct (ai_own_d _ Hinv _ _ _ Hb Hin') as (k & x & y & Hk1 & Hk2 & _).
      rewrite <- Hk2, <- Hidl. apply list_elem_of_fmap. exists x.
      split; [done|by eapply list_elem_of_lookup_2]. }
  rewrite Forall_forall in Hids.
  destruct (extract_data extract_rest _ _ _ _ Hext) as [Hd Hl].
  destruct (process_unmatched_hit K atomic vports local_ip queue_ok in_port pid key skb' dp
              (a_d (a_recv b el)) e' (sr_dp _ _ Hw') Harp Hchk (Hids _ Hin))
    as (dp' & p & E & _ & Hmiss & _ & _ & _ & Hlog & Hdata);
    [rewrite Hp; by unfold LC_BF_REMOTE_PORT|by rewrite Hd|done|by rewrite Hp|].
  exists dp', p, (e_id e'). rewrite Hp in Hlog. rewrite Hd in Hdata. split_and!; try done.
  unfold ovs_dp_process_received_packet, process_plain.
  rewrite (lift_bind_ok _ (Some (key, skb'))) by done. by rewrite Hfl.
Qed.

(** ** Witnesses *)

(** A switch as bridge_lc_init and ovs_dp_cmd_new set it up, its id being [id]. *)
Definition init_heap (id : Z) : heap_table :=
  match (g ← bf_gdt_init demo_alloc 0;
         _ ← bf_gdt_add_filter demo_alloc g id LC_BF_LOCAL_PORT LC_BF_DFT_LEN; mret g) mem_empty with
  | Ret (Some g, m) => (m, g)
  | _ => (mem_empty, 0%nat)
  end.

Abbreviation demo_laws := (heap_GroupTableLaws demo_alloc demo_alloc_succeeds).
Abbreviation demo_GT := (heap_GroupTable demo_alloc).

Lemma init_heap_rep id : heap_rep (init_heap id) [local_entry id].
Proof.
  unfold init_heap. destruct (rep_init demo_alloc 0 demo_alloc_succeeds) as (g & m0 & E0 & _ & Hr0).
  destruct (rep_add_filter demo_alloc m0 g [] id LC_BF_LOCAL_PORT demo_alloc_succeeds Hr0)
    as (p & m1 & E1 & _ & Hr1).
  rewrite (cstate_bind_step _ _ _ _ _ E0), (cstate_bind_step _ _ _ _ _ E1). exact Hr1.
Qed.

Definition init_sw (id : Z) : sw heap_table unit :=
  MkSw (demo_arg id) (init_heap id) (MkDp (Some (init_heap id)) (MkAct 0 []) [] 0 0 0).
Definition demo_net : cnet heap_table unit := MkNet [init_sw 1; init_sw 2] [].

Lemma init_sw_rep id :
  @sw_rep _ unit demo_GT demo_laws (init_sw id) (MkAsw id [local_entry id] [local_entry id]).
Proof.
  split; [done|apply init_heap_rep|]. exists (init_heap id). split; [done|apply init_heap_rep].
Qed.

Lemma demo_net_rep : @net_rep _ unit demo_GT demo_laws demo_net (a_init [1; 2]).
Proof. split; [|constructor]. repeat (constructor; [apply init_sw_rep|]). constructor. Qed.

(** Switch 1 records a host. *)
Definition demo_mac : list Z := [2; 0; 0; 0; 0; 9].
Definition learned : heap_table :=
  match @learn_miss _ demo_GT (Some (demo_arg 1)) OFPP_LOCAL ETH_TYPE_IP demo_mac (init_heap 1) with
  | Ret (_, s) => s
  | Stuck _ => init_heap 1
  end.
Definition demo_net1 : cnet heap_table unit :=
  MkNet [MkSw (demo_arg 1) learned (sw_dp (init_sw 1)); init_sw 2] [].

Lemma demo_step1 : rtc (@step _ unit demo_GT) demo_net demo_net1.
Proof.
  apply rtc_once. apply (@Learn _ unit demo_GT demo_net 0 (init_sw 1) (MkMiss OFPP_LOCAL ETH_TYPE_IP demo_mac) learned).
  - reflexivity.
  - vm_compute. reflexivity.
Qed.

Example net_refines_witness :
  exists a', rtc astep (a_init [1; 2]) a' /\ @net_rep _ unit demo_GT demo_laws demo_net1 a'
    /\ forall i w gid ok msg, c_sws demo_net1 !! i = Some w -> msg ∈ c_msgs demo_net1 ->
         exists out ov dp,
           @mc_recv _ demo_GT gid (sw_arg w) ok msg (sw_ovsd w) = Ret (out, ov)
           /\ @update_dp _ unit demo_GT (ro_to_dp out) (sw_dp w) = Ret (tt, dp)
           /\ @step _ unit demo_GT demo_net1
                (MkNet (<[i := MkSw (sw_arg w) ov dp]> (c_sws demo_net1)) (c_msgs demo_net1)).
Proof.
  apply (@net_refines _ unit demo_GT demo_laws demo_net demo_net1).
  - apply demo_net_rep.
  - apply demo_step1.
Defined.

Example no_misdelivery_witness :
  exists d, @dp_rep _ unit demo_GT demo_laws (sw_dp (init_sw 2)) d
    /\ forall key e, tab_check d key = Some e ->
         e_port e = LC_BF_REMOTE_PORT /\ e_id e <> 2
         /\ exists j v t el, c_sws demo_net1 !! j = Some v /\ mc_local_id (sw_arg v) = e_id e
              /\ heap_rep (sw_ovsd v) t /\ tab_find t (e_id e) = Some el
              /\ entry_has el key = true.
Proof.
  apply (@no_misdelivery _ unit demo_GT demo_laws demo_net demo_net1 [1; 2] 1 (init_sw 2)).
  - apply demo_net_rep.
  - apply demo_step1.
  - reflexivity.
Defined.

(** The exchange of the filter of switch 1, and a packet at switch 2 for the host. *)
Definition demo_sent : option mcast_msg :=
  match @mc_send _ demo_GT 0 (demo_arg 1) None learned with Ret (r, _) => r | Stuck _ => None end.
Definition demo_msg : mcast_msg :=
  default (MkMsg 0 (filter_of (local_entry 1)) (MkStatBase 1 [MkStat 1 0 0] 10)) demo_sent.
Definition demo_recv : option (recv_out * heap_table) :=
  match @mc_recv _ demo_GT 0 (demo_arg 2) true demo_msg (init_heap 2) with
  | Ret r => Some r | Stuck _ => None end.
Definition demo_out : recv_out * heap_table :=
  default (MkRecv false None [] false, init_heap 2) demo_recv.
Definition demo_dp2 : dp_state heap_table unit :=
  match @update_dp _ unit demo_GT (ro_to_dp demo_out.1) (sw_dp (init_sw 2)) with
  | Ret (_, s) => s | Stuck _ => sw_dp (init_sw 2) end.

Example group_learning_end_to_end_witness :
  exists dp' p id,
    @ovs_dp_process_received_packet _ unit demo_GT demo_kernel (fun _ => true) (fun _ => true) 2
      (fun _ _ => Some tt) (fun _ => None) (fun _ _ => true)
      3 77 false None (demo_packet demo_mac ETH_P_IP) demo_dp2 = Ret (tt, dp')
    /\ dp_missed dp' = dp_missed demo_dp2 /\ id ∈ [1; 2]
    /\ log (dp_act dp') = log (dp_act demo_dp2) ++ [Sent LC_BF_REMOTE_PORT p]
    /\ sk_data p = outer (k_ip_fast_csum demo_kernel) 2 id (sk_data (demo_packet demo_mac ETH_P_IP)).
Proof.
  destruct (@learn_miss_ok _ demo_GT demo_laws (demo_arg 1) OFPP_LOCAL ETH_TYPE_IP demo_mac
              (init_heap 1) _ (init_heap_rep 1)) as (s & Es & Hrep).
  assert (s = learned) as -> by (unfold learned; by rewrite Es).
  refine (@group_learning_end_to_end _ unit demo_GT demo_laws demo_net demo_net1 [1; 2] 1 0
           (init_sw 2) (MkSw (demo_arg 1) learned (sw_dp (init_sw 1))) [local_entry 2] _ _
           0 0 true None demo_msg learned demo_out.1 demo_out.2 demo_dp2
           demo_kernel (fun _ => true) (fun _ => true) 2 (fun _ _ => Some tt) (fun _ => None)
           (fun _ _ => true) 3 77
           (MkKey 3 (MkEthKey [2; 0; 0; 0; 0; 8] demo_mac 0 ETH_P_IP) tt)
           (demo_packet demo_mac ETH_P_IP) (set_network_header (demo_packet demo_mac ETH_P_IP) 114)
           demo_net_rep _ demo_step1 eq_refl (init_heap_rep 2) eq_refl Hrep
           _ _ _ _ _ eq_refl _ _ eq_refl _ _ eq_refl).
  - repeat constructor; lia.
  - discriminate.
  - right. discriminate.
  - vm_compute. reflexivity.
  - vm_compute. reflexivity.
  - vm_compute. reflexivity.
  - vm_compute. reflexivity.
  - vm_compute. reflexivity.
  - vm_compute. discriminate.
  - done.
Defined.
