(* ===== verification/Reconnect.v ===== *)
(** * Connection management (lib/reconnect.c)

    The finite state machine that decides when an OpenFlow or OVSDB session connects,
    backs off, probes and gives up.  A time is a number of milliseconds; every function
    is given the current time, as in the code.  Times are long long, delays int: a sum or
    difference that does not fit is [Stuck Overflow], and the theorems are about times from
    0 to [TIME_MAX].  The log messages are left out (the times they print are differences of
    the same kind).  The theorems are the invariant over any sequence of calls, the coherence of
    reconnect_run with the timeout the client sleeps for, the back-off schedule, the
    keep-alive and the meaning of the sequence number. *)
From stdpp Require Import strings.
From S2P Require Import Prelude.

Local Open Scope Z_scope.

(** ** Data *)

Inductive state :=
  | S_VOID | S_BACKOFF | S_CONNECTING | S_ACTIVE | S_IDLE | S_RECONNECT | S_LISTENING.

#[export] Instance state_eq_dec : EqDecision state.
Proof. solve_decision. Defined.

Inductive vlog_level := VLL_INFO | VLL_DBG.

(** enum reconnect_action; [RECONNECT_NONE] is the 0 that reconnect_run returns. *)
Inductive reconnect_action :=
  | RECONNECT_NONE | RECONNECT_CONNECT | RECONNECT_DISCONNECT | RECONNECT_PROBE.

#[export] Instance reconnect_action_eq_dec : EqDecision reconnect_action.
Proof. solve_decision. Defined.

Definition RECONNECT_DEFAULT_MIN_BACKOFF : Z := 1000.
Definition RECONNECT_DEFAULT_MAX_BACKOFF : Z := 8000.
Definition RECONNECT_DEFAULT_PROBE_INTERVAL : Z := 5000.

(** [struct reconnect], and the assignment of each member. *)
Record reconnect := MkReconnect {
  name : string;
  min_backoff : Z;
  max_backoff : Z;
  probe_interval : Z;
  passive : bool;
  info : vlog_level;
  st : state;   (* fsm->state *)
  state_entered : Z;
  backoff : Z;
  last_received : Z;
  last_connected : Z;
  last_disconnected : Z;
  max_tries : Z;   (* unsigned int *)
  creation_time : Z;
  n_attempted : Z;   (* unsigned int *)
  n_successful : Z;   (* unsigned int *)
  total_connected_duration : Z;   (* unsigned int *)
  seqno : Z   (* unsigned int *)
}.

Definition set_name (v : string) (r : reconnect) : reconnect :=
  MkReconnect v (min_backoff r) (max_backoff r) (probe_interval r) (passive r) (info r) (st r)
    (state_entered r) (backoff r) (last_received r) (last_connected r) (last_disconnected r)
    (max_tries r) (creation_time r) (n_attempted r) (n_successful r)
    (total_connected_duration r) (seqno r).
Definition set_min_backoff (v : Z) (r : reconnect) : reconnect :=
  MkReconnect (name r) v (max_backoff r) (probe_interval r) (passive r) (info r) (st r)
    (state_entered r) (backoff r) (last_received r) (last_connected r) (last_disconnected r)
    (max_tries r) (creation_time r) (n_attempted r) (n_successful r)
    (total_connected_duration r) (seqno r).
Definition set_max_backoff (v : Z) (r : reconnect) : reconnect :=
  MkReconnect (name r) (min_backoff r) v (probe_interval r) (passive r) (info r) (st r)
    (state_entered r) (backoff r) (last_received r) (last_connected r) (last_disconnected r)
    (max_tries r) (creation_time r) (n_attempted r) (n_successful r)
    (total_connected_duration r) (seqno r).
Definition set_probe_interval (v : Z) (r : reconnect) : reconnect :=
  MkReconnect (name r) (min_backoff r) (max_backoff r) v (passive r) (info r) (st r)
    (state_entered r) (backoff r) (last_received r) (last_connected r) (last_disconnected r)
    (max_tries r) (creation_time r) (n_attempted r) (n_successful r)
    (total_connected_duration r) (seqno r).
Definition set_passive (v : bool) (r : reconnect) : reconnect :=
  MkReconnect (name r) (min_backoff r) (max_backoff r) (probe_interval r) v (info r) (st r)
    (state_entered r) (backoff r) (last_received r) (last_connected r) (last_disconnected r)
    (max_tries r) (creation_time r) (n_attempted r) (n_successful r)
    (total_connected_duration r) (seqno r).
Definition set_info (v : vlog_level) (r : reconnect) : reconnect :=
  MkReconnect (name r) (min_backoff r) (max_backoff r) (probe_interval r) (passive r) v (st r)
    (state_entered r) (backoff r) (last_received r) (last_connected r) (last_disconnected r)
    (max_tries r) (creation_time r) (n_attempted r) (n_successful r)
    (total_connected_duration r) (seqno r).
Definition set_st (v : state) (r : reconnect) : reconnect :=
  MkReconnect (name r) (min_backoff r) (max_backoff r) (probe_interval r) (passive r) (info r) v
    (state_entered r) (backoff r) (last_received r) (last_connected r) (last_disconnected r)
    (max_tries r) (creation_time r) (n_attempted r) (n_successful r)
    (total_connected_duration r) (seqno r).
Definition set_state_entered (v : Z) (r : reconnect) : reconnect :=
  MkReconnect (name r) (min_backoff r) (max_backoff r) (probe_interval r) (passive r) (info r)
    (st r) v (backoff r) (last_received r) (last_connected r) (last_disconnected r)
    (max_tries r) (creation_time r) (n_attempted r) (n_successful r)
    (total_connected_duration r) (seqno r).
Definition set_backoff (v : Z) (r : reconnect) : reconnect :=
  MkReconnect (name r) (min_backoff r) (max_backoff r) (probe_interval r) (passive r) (info r)
    (st r) (state_entered r) v (last_received r) (last_connected r) (last_disconnected r)
    (max_tries r) (creation_time r) (n_attempted r) (n_successful r)
    (total_connected_duration r) (seqno r).
Definition set_last_received (v : Z) (r : reconnect) : reconnect :=
  MkReconnect (name r) (min_backoff r) (max_backoff r) (probe_interval r) (passive r) (info r)
    (st r) (state_entered r) (backoff r) v (last_connected r) (last_disconnected r)
    (max_tries r) (creation_time r) (n_attempted r) (n_successful r)
    (total_connected_duration r) (seqno r).
Definition set_last_connected (v : Z) (r : reconnect) : reconnect :=
  MkReconnect (name r) (min_backoff r) (max_backoff r) (probe_interval r) (passive r) (info r)
    (st r) (state_entered r) (backoff r) (last_received r) v (last_disconnected r) (max_tries r)
    (creation_time r) (n_attempted r) (n_successful r) (total_connected_duration r) (seqno r).
Definition set_last_disconnected (v : Z) (r : reconnect) : reconnect :=
  MkReconnect (name r) (min_backoff r) (max_backoff r) (probe_interval r) (passive r) (info r)
    (st r) (state_entered r) (backoff r) (last_received r) (last_connected r) v (max_tries r)
    (creation_time r) (n_attempted r) (n_successful r) (total_connected_duration r) (seqno r).
Definition set_max_tries (v : Z) (r : reconnect) : reconnect :=
  MkReconnect (name r) (min_backoff r) (max_backoff r) (probe_interval r) (passive r) (info r)
    (st r) (state_entered r) (backoff r) (last_received r) (last_connected r)
    (last_disconnected r) v (creation_time r) (n_attempted r) (n_successful r)
    (total_connected_duration r) (seqno r).
Definition set_creation_time (v : Z) (r : reconnect) : reconnect :=
  MkReconnect (name r) (min_backoff r) (max_backoff r) (probe_interval r) (passive r) (info r)
    (st r) (state_entered r) (backoff r) (last_received r) (last_connected r)
    (last_disconnected r) (max_tries r) v (n_attempted r) (n_successful r)
    (total_connected_duration r) (seqno r).
Definition set_n_attempted (v : Z) (r : reconnect) : reconnect :=
  MkReconnect (name r) (min_backoff r) (max_backoff r) (probe_interval r) (passive r) (info r)
    (st r) (state_entered r) (backoff r) (last_received r) (last_connected r)
    (last_disconnected r) (max_tries r) (creation_time r) v (n_successful r)
    (total_connected_duration r) (seqno r).
Definition set_n_successful (v : Z) (r : reconnect) : reconnect :=
  MkReconnect (name r) (min_backoff r) (max_backoff r) (probe_interval r) (passive r) (info r)
    (st r) (state_entered r) (backoff r) (last_received r) (last_connected r)
    (last_disconnected r) (max_tries r) (creation_time r) (n_attempted r) v
    (total_connected_duration r) (seqno r).
Definition set_total_connected_duration (v : Z) (r : reconnect) : reconnect :=
  MkReconnect (name r) (min_backoff r) (max_backoff r) (probe_interval r) (passive r) (info r)
    (st r) (state_entered r) (backoff r) (last_received r) (last_connected r)
    (last_disconnected r) (max_tries r) (creation_time r) (n_attempted r) (n_successful r) v
    (seqno r).
Definition set_seqno (v : Z) (r : reconnect) : reconnect :=
  MkReconnect (name r) (min_backoff r) (max_backoff r) (probe_interval r) (passive r) (info r)
    (st r) (state_entered r) (backoff r) (last_received r) (last_connected r)
    (last_disconnected r) (max_tries r) (creation_time r) (n_attempted r) (n_successful r)
    (total_connected_duration r) v.

(** ** Operations *)

Definition is_connected_state (s : state) : bool :=
  match s with S_ACTIVE | S_IDLE => true | _ => false end.

(** [fsm->state & (A | B | ...)] *)
Definition state_in (fsm : reconnect) (l : list state) : bool := bool_decide (st fsm ∈ l).

Definition reconnect_create (now : Z) : reconnect :=
  MkReconnect "void" RECONNECT_DEFAULT_MIN_BACKOFF RECONNECT_DEFAULT_MAX_BACKOFF
    RECONNECT_DEFAULT_PROBE_INTERVAL false VLL_INFO
    S_VOID now 0 now LLONG_MAX LLONG_MAX UINT_MAX now 0 0 0 0.

Definition reconnect_transition (fsm : reconnect) (now : Z) (s : state) : outcome reconnect :=
  let fsm :=
    if decide (st fsm = S_CONNECTING) then
      let fsm := set_n_attempted (u32 (n_attempted fsm + 1)) fsm in
      if decide (s = S_ACTIVE) then set_n_successful (u32 (n_successful fsm + 1)) fsm else fsm
    else fsm in
  fsm ←
    (if negb (eqb (is_connected_state (st fsm)) (is_connected_state s)) then
       fsm ← (if is_connected_state (st fsm) then
                duration ← llong (now - last_connected fsm);
                total ← llong (total_connected_duration fsm + duration);
                Ret (set_total_connected_duration (u32 total) fsm)
              else Ret fsm);
       Ret (set_seqno (u32 (seqno fsm + 1)) fsm)
     else Ret fsm);
  Ret (set_state_entered now (set_st s fsm)).

Definition reconnect_may_retry (fsm : reconnect) : bool * reconnect :=
  let may_retry := 0 <? max_tries fsm in
  (may_retry,
   if may_retry && negb (max_tries fsm =? UINT_MAX)
   then set_max_tries (u32 (max_tries fsm - 1)) fsm else fsm).

Definition reconnect_set_quiet (fsm : reconnect) (quiet : bool) : reconnect :=
  set_info (if quiet then VLL_DBG else VLL_INFO) fsm.

Definition reconnect_get_name (fsm : reconnect) : string := name fsm.

Definition reconnect_set_name (fsm : reconnect) (n : option string) : reconnect :=
  set_name (default "void"%string n) fsm.

Definition reconnect_get_min_backoff (fsm : reconnect) : Z := min_backoff fsm.
Definition reconnect_get_max_backoff (fsm : reconnect) : Z := max_backoff fsm.
Definition reconnect_get_probe_interval (fsm : reconnect) : Z := probe_interval fsm.
Definition reconnect_set_max_tries (fsm : reconnect) (n : Z) : reconnect := set_max_tries n fsm.
Definition reconnect_get_max_tries (fsm : reconnect) : Z := max_tries fsm.

Definition reconnect_set_backoff (fsm : reconnect) (min max : Z) : reconnect :=
  let fsm := set_min_backoff (Z.max min 1000) fsm in
  let fsm := set_max_backoff (if max =? 0 then RECONNECT_DEFAULT_MAX_BACKOFF
                              else Z.max max 1000) fsm in
  let fsm := if max_backoff fsm <? min_backoff fsm
             then set_max_backoff (min_backoff fsm) fsm else fsm in
  if bool_decide (st fsm = S_BACKOFF) && (max <? backoff fsm) then set_backoff max fsm else fsm.

Definition reconnect_set_probe_interval (fsm : reconnect) (p : Z) : reconnect :=
  set_probe_interval (if p =? 0 then 0 else Z.max 1000 p) fsm.

Definition reconnect_is_passive (fsm : reconnect) : bool := passive fsm.

Definition reconnect_set_passive (fsm : reconnect) (p : bool) (now : Z) : outcome reconnect :=
  if eqb (passive fsm) p then Ret fsm
  else
    let fsm := set_passive p fsm in
    let '(go, fsm) :=
      if p then (state_in fsm [S_CONNECTING; S_RECONNECT], fsm)
      else if decide (st fsm = S_LISTENING) then reconnect_may_retry fsm else (false, fsm) in
    if (go : bool) then fsm ← reconnect_transition fsm now S_BACKOFF; Ret (set_backoff 0 fsm)
    else Ret fsm.

Definition reconnect_is_enabled (fsm : reconnect) : bool := bool_decide (st fsm <> S_VOID).

Definition reconnect_enable (fsm : reconnect) (now : Z) : outcome reconnect :=
  if decide (st fsm = S_VOID) then
    let '(go, fsm) := reconnect_may_retry fsm in
    if (go : bool) then fsm ← reconnect_transition fsm now S_BACKOFF; Ret (set_backoff 0 fsm)
    else Ret fsm
  else Ret fsm.

Definition reconnect_disable (fsm : reconnect) (now : Z) : outcome reconnect :=
  if decide (st fsm = S_VOID) then Ret fsm else reconnect_transition fsm now S_VOID.

Definition reconnect_force_reconnect (fsm : reconnect) (now : Z) : outcome reconnect :=
  if state_in fsm [S_CONNECTING; S_ACTIVE; S_IDLE]
  then reconnect_transition fsm now S_RECONNECT else Ret fsm.

(** The "Back off." part of reconnect_disconnected; [Z.quot] is C's division. *)
Definition back_off (fsm : reconnect) : outcome reconnect :=
  quick ← (if state_in fsm [S_ACTIVE; S_IDLE] then
             d ← llong (last_received fsm - last_connected fsm);
             Ret ((backoff fsm <=? d) || passive fsm)
           else Ret false);
  if (quick : bool) then Ret (set_backoff (if passive fsm then 0 else min_backoff fsm) fsm)
  else if backoff fsm <? min_backoff fsm then Ret (set_backoff (min_backoff fsm) fsm)
  else if Z.quot (max_backoff fsm) 2 <=? backoff fsm then Ret (set_backoff (max_backoff fsm) fsm)
  else b ← int (backoff fsm * 2); Ret (set_backoff b fsm).

(** The error number only selects the log message. *)
Definition reconnect_disconnected (fsm : reconnect) (now error : Z) : outcome reconnect :=
  if state_in fsm [S_BACKOFF; S_VOID] then Ret fsm
  else
    let fsm := if state_in fsm [S_ACTIVE; S_IDLE] then set_last_disconnected now fsm else fsm in
    fsm ← back_off fsm;
    let '(retry, fsm) := reconnect_may_retry fsm in
    reconnect_transition fsm now (if (retry : bool) then S_BACKOFF else S_VOID).

Definition reconnect_connecting (fsm : reconnect) (now : Z) : outcome reconnect :=
  if decide (st fsm = S_CONNECTING) then Ret fsm else reconnect_transition fsm now S_CONNECTING.

Definition reconnect_listening (fsm : reconnect) (now : Z) : outcome reconnect :=
  if decide (st fsm = S_LISTENING) then Ret fsm else reconnect_transition fsm now S_LISTENING.

Definition reconnect_listen_error (fsm : reconnect) (now error : Z) : outcome reconnect :=
  if decide (st fsm = S_LISTENING) then reconnect_disconnected fsm now error else Ret fsm.

Definition reconnect_connected (fsm : reconnect) (now : Z) : outcome reconnect :=
  if is_connected_state (st fsm) then Ret fsm
  else
    fsm ← reconnect_connecting fsm now;
    fsm ← reconnect_transition fsm now S_ACTIVE;
    Ret (set_last_connected now fsm).

Definition reconnect_connect_failed (fsm : reconnect) (now error : Z) : outcome reconnect :=
  fsm ← reconnect_connecting fsm now; reconnect_disconnected fsm now error.

Definition reconnect_received (fsm : reconnect) (now : Z) : outcome reconnect :=
  fsm ← (if decide (st fsm = S_ACTIVE) then Ret fsm else reconnect_transition fsm now S_ACTIVE);
  Ret (set_last_received now fsm).

Definition reconnect_deadline (fsm : reconnect) : outcome Z :=
  if state_entered fsm =? LLONG_MIN then Stuck AssertFail
  else
    match st fsm with
    | S_VOID | S_LISTENING => Ret LLONG_MAX
    | S_BACKOFF => llong (state_entered fsm + backoff fsm)
    | S_CONNECTING => llong (state_entered fsm + Z.max 1000 (backoff fsm))
    | S_ACTIVE =>
        if probe_interval fsm =? 0 then Ret LLONG_MAX
        else llong (Z.max (last_received fsm) (state_entered fsm) + probe_interval fsm)
    | S_IDLE =>
        if probe_interval fsm =? 0 then Ret LLONG_MAX
        else llong (state_entered fsm + probe_interval fsm)
    | S_RECONNECT => Ret (state_entered fsm)
    end.

Definition reconnect_run (fsm : reconnect) (now : Z) : outcome (reconnect_action * reconnect) :=
  d ← reconnect_deadline fsm;
  if d <=? now then
    match st fsm with
    | S_VOID => Ret (RECONNECT_NONE, fsm)
    | S_BACKOFF => Ret (RECONNECT_CONNECT, fsm)
    | S_CONNECTING => Ret (RECONNECT_DISCONNECT, fsm)
    | S_ACTIVE => fsm ← reconnect_transition fsm now S_IDLE; Ret (RECONNECT_PROBE, fsm)
    | S_IDLE => Ret (RECONNECT_DISCONNECT, fsm)
    | S_RECONNECT => Ret (RECONNECT_DISCONNECT, fsm)
    | S_LISTENING => Ret (RECONNECT_NONE, fsm)
    end
  else Ret (RECONNECT_NONE, fsm).

Definition reconnect_timeout (fsm : reconnect) (now : Z) : outcome Z :=
  d ← reconnect_deadline fsm;
  if d =? LLONG_MAX then Ret (-1)
  else remaining ← llong (d - now); Ret (Z.max 0 (Z.min INT_MAX remaining)).

(** reconnect_wait: the argument of poll_timer_wait, if it is called. *)
Definition reconnect_wait (fsm : reconnect) (now : Z) : outcome (option Z) :=
  t ← reconnect_timeout fsm now; Ret (if 0 <=? t then Some t else None).

Definition reconnect_is_connected (fsm : reconnect) : bool := is_connected_state (st fsm).

Definition reconnect_get_last_connect_elapsed (fsm : reconnect) (now : Z) : outcome Z :=
  if last_connected fsm =? LLONG_MAX then Ret UINT_MAX
  else d ← llong (now - last_connected fsm); Ret (u32 d).
Definition reconnect_get_last_disconnect_elapsed (fsm : reconnect) (now : Z) : outcome Z :=
  if last_disconnected fsm =? LLONG_MAX then Ret UINT_MAX
  else d ← llong (now - last_disconnected fsm); Ret (u32 d).

Record reconnect_stats := MkStats {
  rs_creation_time : Z;
  rs_last_received : Z;
  rs_last_connected : Z;
  rs_last_disconnected : Z;
  rs_backoff : Z;
  rs_seqno : Z;
  rs_is_connected : bool;
  rs_msec_since_connect : Z;
  rs_msec_since_disconnect : Z;
  rs_total_connected_duration : Z;
  rs_n_attempted_connections : Z;
  rs_n_successful_connections : Z;
  rs_state : state;
  rs_state_elapsed : Z
}.

Definition reconnect_get_stats (fsm : reconnect) (now : Z) : outcome reconnect_stats :=
  since_connect ← reconnect_get_last_connect_elapsed fsm now;
  since_disconnect ← reconnect_get_last_disconnect_elapsed fsm now;
  current ← (if is_connected_state (st fsm)
             then reconnect_get_last_connect_elapsed fsm now else Ret 0);
  elapsed ← llong (now - state_entered fsm);
  Ret (MkStats (creation_time fsm) (last_received fsm) (last_connected fsm) (last_disconnected fsm)
         (backoff fsm) (seqno fsm) (reconnect_is_connected fsm) since_connect since_disconnect
         (u32 (total_connected_duration fsm + current))
         (n_attempted fsm) (n_successful fsm) (st fsm) (u32 elapsed)).

Create HintDb reconnect.

(** *** Calls by the client *)

Inductive call :=
  | SetQuiet (q : bool) | SetName (n : option string) | SetMaxTries (n : Z)
  | SetBackoff (min max : Z) | SetProbeInterval (p : Z) | SetPassive (p : bool)
  | Enable | Disable | ForceReconnect | Disconnected (error : Z) | Connecting | Listening
  | ListenError (error : Z) | Connected | ConnectFailed (error : Z) | Received | Run.

Definition apply (c : call) (now : Z) (fsm : reconnect) : outcome reconnect :=
  match c with
  | SetQuiet q => Ret (reconnect_set_quiet fsm q)
  | SetName n => Ret (reconnect_set_name fsm n)
  | SetMaxTries n => Ret (reconnect_set_max_tries fsm n)
  | SetBackoff min max => Ret (reconnect_set_backoff fsm min max)
  | SetProbeInterval p => Ret (reconnect_set_probe_interval fsm p)
  | SetPassive p => reconnect_set_passive fsm p now
  | Enable => reconnect_enable fsm now
  | Disable => reconnect_disable fsm now
  | ForceReconnect => reconnect_force_reconnect fsm now
  | Disconnected e => reconnect_disconnected fsm now e
  | Connecting => reconnect_connecting fsm now
  | Listening => reconnect_listening fsm now
  | ListenError e => reconnect_listen_error fsm now e
  | Connected => reconnect_connected fsm now
  | ConnectFailed e => reconnect_connect_failed fsm now e
  | Received => reconnect_received fsm now
  | Run => '(_, fsm) ← reconnect_run fsm now; Ret fsm
  end.

Fixpoint apply_all (cs : list (call * Z)) (fsm : reconnect) : outcome reconnect :=
  match cs with
  | [] => Ret fsm
  | (c, now) :: cs' => fsm ← apply c now fsm; apply_all cs' fsm
  end.

(** The arguments the functions document. *)
Definition valid_call (c : call) : Prop :=
  match c with
  | SetMaxTries n => 0 <= n <= UINT_MAX
  | SetBackoff min max => min <= INT_MAX /\ 0 <= max <= INT_MAX
  | SetProbeInterval p => p <= INT_MAX
  | _ => True
  end.

(** ** Invariant *)

(** The times for which the arithmetic stays within long long: from 0 to 2^63 - 2^32 - 1
    milliseconds, room for a delay or a total of 32 bits. *)
Definition TIME_MAX : Z := LLONG_MAX - 2 ^ 32.
Definition time_ok (t : Z) : Prop := 0 <= t <= TIME_MAX.

(** A time that is LLONG_MAX until the event happens. *)
Definition event_ok (t : Z) : Prop := t = LLONG_MAX \/ time_ok t.

Record wf (f : reconnect) : Prop := {
  wf_min : 1000 <= min_backoff f;
  wf_max : min_backoff f <= max_backoff f <= INT_MAX;
  wf_backoff : 0 <= backoff f <= INT_MAX;
  wf_probe : probe_interval f = 0 \/ 1000 <= probe_interval f <= INT_MAX;
  wf_tries : 0 <= max_tries f <= UINT_MAX;
  wf_entered : time_ok (state_entered f);
  wf_received : time_ok (last_received f);
  wf_connected : event_ok (last_connected f);
  wf_disconnected : event_ok (last_disconnected f);
  wf_total : 0 <= total_connected_duration f <= UINT_MAX;
  wf_parity : is_connected_state (st f) = Z.odd (seqno f)
}.

(** The time from one event to another fits. *)
Lemma elapsed_ok t e : time_ok t -> event_ok e -> LLONG_MIN <= t - e <= TIME_MAX.
Proof. unfold event_ok, time_ok, TIME_MAX. lia. Qed.

Lemma odd_succ z : Z.odd (u32 (z + 1)) = negb (Z.odd z).
Proof. rewrite wrap_odd by lia. by rewrite Z.odd_add, xorb_true_r. Qed.

(** What a transition to [s] leaves alone, and what it sets. *)
Record moved (f : reconnect) (now : Z) (s : state) (f' : reconnect) : Prop := {
  mv_min : min_backoff f' = min_backoff f;
  mv_max : max_backoff f' = max_backoff f;
  mv_backoff : backoff f' = backoff f;
  mv_probe : probe_interval f' = probe_interval f;
  mv_tries : max_tries f' = max_tries f;
  mv_passive : passive f' = passive f;
  mv_received : last_received f' = last_received f;
  mv_connected : last_connected f' = last_connected f;
  mv_disconnected : last_disconnected f' = last_disconnected f;
  mv_st : st f' = s;
  mv_entered : state_entered f' = now;
  mv_total : 0 <= total_connected_duration f <= UINT_MAX ->
             0 <= total_connected_duration f' <= UINT_MAX;
  mv_seqno : seqno f' = if eqb (is_connected_state (st f)) (is_connected_state s)
                        then seqno f else u32 (seqno f + 1)
}.

(** A transition only computes with times when a connection ends. *)
Lemma transition_moved f now s :
  (is_connected_state (st f) = true -> is_connected_state s = false ->
   LLONG_MIN <= now - last_connected f <= TIME_MAX /\ 0 <= total_connected_duration f <= UINT_MAX) ->
  exists f', reconnect_transition f now s = Ret f' /\ moved f now s f'.
Proof.
  intros Ht. unfold reconnect_transition.
  set (f1 := if decide (st f = S_CONNECTING) then _ else f).
  assert (st f1 = st f /\ last_connected f1 = last_connected f
          /\ total_connected_duration f1 = total_connected_duration f) as (E1 & E2 & E3)
    by (unfold f1; by repeat case_decide).
  rewrite E1. destruct (eqb (is_connected_state (st f)) (is_connected_state s)) eqn:Ec; cbn [negb].
  - eexists. split; [reflexivity|]. split; (by rewrite ?Ec; unfold f1; repeat case_decide).
  - apply eqb_false_iff in Ec. destruct (is_connected_state (st f)) eqn:Ef.
    + destruct (is_connected_state s) eqn:Es; [done|]. destruct (Ht eq_refl eq_refl) as [H1 H2].
      rewrite E2, E3. unfold TIME_MAX in *. rewrite llong_ok by lia. cbn [mbind outcome_bind].
      rewrite llong_ok by lia. cbn [mbind outcome_bind]. eexists. split; [reflexivity|].
      split; try (by rewrite ?Ef, ?Es; unfold f1; repeat case_decide).
      intros _. pose proof (wrap_bound 32 (total_connected_duration f + (now - last_connected f)) ltac:(lia)).
      cbn. lia.
    + destruct (is_connected_state s) eqn:Es; [|done]. eexists. split; [reflexivity|].
      split; (by rewrite ?Ef, ?Es; unfold f1; repeat case_decide).
Qed.

Lemma moved_wf f now s f' : wf f -> time_ok now -> moved f now s f' -> wf f'.
Proof.
  intros [] Hn [E1 E2 E3 E4 E5 E6 E7 E8 E9 E10 E11 E12 E13].
  split; rewrite ?E1, ?E2, ?E3, ?E4, ?E5, ?E7, ?E8, ?E9, ?E10, ?E11; try done; [by apply E12|].
  rewrite E13. destruct (eqb _ _) eqn:E.
  - apply eqb_prop in E. congruence.
  - rewrite odd_succ, <- wf_parity0. apply eqb_false_iff in E.
    destruct (is_connected_state (st f)), (is_connected_state s); done.
Qed.

Lemma transition_ok f now s :
  wf f -> time_ok now -> exists f', reconnect_transition f now s = Ret f' /\ moved f now s f' /\ wf f'.
Proof.
  intros Hw Hn. destruct (transition_moved f now s) as (f' & E & Hm).
  - intros _ _. split; [|apply Hw]. apply elapsed_ok; [done|apply Hw].
  - exists f'. split_and!; [done..|by eapply moved_wf].
Qed.

(** An operation returns a well-formed state. *)
Definition keeps (o : outcome reconnect) : Prop := exists f, o = Ret f /\ wf f.

Lemma keeps_ret f : wf f -> keeps (Ret f).
Proof. intros. by exists f. Qed.

Lemma keeps_bind o k : keeps o -> (forall f, wf f -> keeps (k f)) -> keeps (f ← o; k f).
Proof. intros (f & -> & Hf) Hk. by apply Hk. Qed.

Lemma transition_wf f now s : wf f -> time_ok now -> keeps (reconnect_transition f now s).
Proof. intros Hw Hn. destruct (transition_ok f now s Hw Hn) as (f' & ? & _ & ?). by exists f'. Qed.

Lemma set_last_connected_wf now f : wf f -> time_ok now -> wf (set_last_connected now f).
Proof. intros [] ?. split; try done. by right. Qed.

Lemma set_last_disconnected_wf now f : wf f -> time_ok now -> wf (set_last_disconnected now f).
Proof. intros [] ?. split; try done. by right. Qed.

Lemma set_last_received_wf now f : wf f -> time_ok now -> wf (set_last_received now f).
Proof. intros [] ?. by split. Qed.

Lemma may_retry_wf f : wf f -> wf (reconnect_may_retry f).2.
Proof.
  intros []. unfold reconnect_may_retry. simpl. destruct (Z.ltb_spec 0 (max_tries f)); [|done].
  destruct (Z.eqb_spec (max_tries f) UINT_MAX); [done|]. split; try done. simpl.
  rewrite wrap_small; lia.
Qed.

Lemma may_retry_frame f :
  let f' := (reconnect_may_retry f).2 in
  st f' = st f /\ backoff f' = backoff f /\ passive f' = passive f /\ min_backoff f' = min_backoff f
  /\ max_backoff f' = max_backoff f.
Proof. unfold reconnect_may_retry. simpl. by destruct (_ && _). Qed.

Lemma set_backoff_wf f b : wf f -> 0 <= b <= INT_MAX -> wf (set_backoff b f).
Proof. intros []. by split. Qed.

#[export] Hint Resolve keeps_ret transition_wf may_retry_wf set_last_connected_wf
  set_last_disconnected_wf set_last_received_wf : reconnect.

(** The transition to [S_BACKOFF] that does not wait. *)
Lemma retry_now_wf f now :
  wf f -> time_ok now -> keeps (fsm ← reconnect_transition f now S_BACKOFF; Ret (set_backoff 0 fsm)).
Proof.
  intros. apply keeps_bind; [auto with reconnect|]. intros g Hg. apply keeps_ret, set_backoff_wf; [done|lia].
Qed.

(** The delay after a failure, when the connection did not stay up for the present delay. *)
Definition next_backoff (f : reconnect) : Z :=
  if backoff f <? min_backoff f then min_backoff f
  else if max_backoff f / 2 <=? backoff f then max_backoff f else backoff f * 2.

Lemma next_backoff_bound f :
  0 <= min_backoff f -> 0 <= max_backoff f <= INT_MAX -> min_backoff f <= INT_MAX ->
  0 <= next_backoff f <= INT_MAX.
Proof.
  intros. unfold next_backoff. destruct (Z.ltb_spec (backoff f) (min_backoff f)); [lia|].
  destruct (Z.leb_spec (max_backoff f / 2) (backoff f)); [lia|].
  pose proof (Z.mul_div_le (max_backoff f) 2 ltac:(lia)). lia.
Qed.

Lemma back_off_slow f :
  0 <= min_backoff f -> 0 <= max_backoff f <= INT_MAX ->
  (if backoff f <? min_backoff f then Ret (set_backoff (min_backoff f) f)
   else if Z.quot (max_backoff f) 2 <=? backoff f then Ret (set_backoff (max_backoff f) f)
   else b ← int (backoff f * 2); Ret (set_backoff b f)) = Ret (set_backoff (next_backoff f) f).
Proof.
  intros Hmin Hmax. unfold next_backoff. rewrite Z.quot_div_nonneg by lia.
  destruct (Z.ltb_spec (backoff f) (min_backoff f)); [done|].
  destruct (Z.leb_spec (max_backoff f / 2) (backoff f)); [done|].
  pose proof (Z.mul_div_le (max_backoff f) 2 ltac:(lia)). by rewrite int_ok by lia.
Qed.

(** back_off only changes the delay. *)
Lemma back_off_ok f : wf f -> exists b, back_off f = Ret (set_backoff b f) /\ 0 <= b <= INT_MAX.
Proof.
  intros Hw. pose proof Hw as []. unfold back_off.
  assert (exists q, (if state_in f [S_ACTIVE; S_IDLE] then
             d ← llong (last_received f - last_connected f); Ret ((backoff f <=? d) || passive f)
           else Ret false) = Ret q) as (q & ->).
  { destruct (state_in f _); [|by eexists]. pose proof (elapsed_ok _ _ wf_received0 wf_connected0).
    unfold TIME_MAX in *. rewrite llong_ok by lia. by eexists. }
  cbn [mbind outcome_bind]. destruct q.
  - exists (if passive f then 0 else min_backoff f). split; [done|]. destruct (passive f); lia.
  - exists (next_backoff f). rewrite back_off_slow by lia. split; [done|]. apply next_backoff_bound; lia.
Qed.

Lemma disconnected_wf f now e : wf f -> time_ok now -> keeps (reconnect_disconnected f now e).
Proof.
  intros Hw Hnow. unfold reconnect_disconnected. destruct (state_in f [S_BACKOFF; _]); [auto with reconnect|].
  set (f1 := if state_in f _ then _ else _).
  assert (wf f1) as H1 by (unfold f1; destruct (state_in f _); auto with reconnect).
  destruct (back_off_ok f1 H1) as (b & -> & Hb). cbn [mbind outcome_bind].
  pose proof (may_retry_wf _ (set_backoff_wf _ _ H1 Hb)) as H2.
  destruct (reconnect_may_retry (set_backoff b f1)) as [r f2]. auto with reconnect.
Qed.

Lemma connecting_wf f now : wf f -> time_ok now -> keeps (reconnect_connecting f now).
Proof. intros. unfold reconnect_connecting. case_decide; auto with reconnect. Qed.

#[export] Hint Resolve retry_now_wf disconnected_wf connecting_wf : reconnect.

Lemma set_backoff_call_wf f min max :
  wf f -> min <= INT_MAX -> 0 <= max <= INT_MAX -> wf (reconnect_set_backoff f min max).
Proof.
  intros Hw Hmin Hmax. pose proof Hw as []. unfold reconnect_set_backoff, RECONNECT_DEFAULT_MAX_BACKOFF.
  set (f1 := set_max_backoff _ _).
  assert (exists mx, mx <= INT_MAX /\ 1000 <= mx /\ f1 = set_max_backoff mx (set_min_backoff (Z.max min 1000) f))
    as (mx & Hmx & Hmx' & ->).
  { eexists. split; [|split; [|reflexivity]]; destruct (Z.eqb_spec max 0); lia. }
  cbn [max_backoff min_backoff set_min_backoff set_max_backoff].
  set (f2 := if mx <? _ then _ else _).
  assert (wf f2) as H2 by (unfold f2; destruct (Z.ltb_spec mx (Z.max min 1000)); split; try done; cbn; lia).
  destruct (_ && _); [by apply set_backoff_wf|done].
Qed.

Lemma set_passive_wf f p now : wf f -> time_ok now -> keeps (reconnect_set_passive f p now).
Proof.
  intros Hw Hn. unfold reconnect_set_passive. destruct (eqb _ _); [auto with reconnect|].
  assert (wf (set_passive p f)) as H1 by (destruct Hw; by split). destruct p.
  - destruct (state_in _ _); auto with reconnect.
  - destruct (decide _); [|auto with reconnect]. pose proof (may_retry_wf _ H1) as H2.
    destruct (reconnect_may_retry _) as [[] f2]; auto with reconnect.
Qed.

(** ** Stepping lemmas *)

Definition deadline_of (f : reconnect) : Z :=
  match st f with
  | S_VOID | S_LISTENING => LLONG_MAX
  | S_BACKOFF => state_entered f + backoff f
  | S_CONNECTING => state_entered f + Z.max 1000 (backoff f)
  | S_ACTIVE =>
      if probe_interval f =? 0 then LLONG_MAX
      else Z.max (last_received f) (state_entered f) + probe_interval f
  | S_IDLE => if probe_interval f =? 0 then LLONG_MAX else state_entered f + probe_interval f
  | S_RECONNECT => state_entered f
  end.

Lemma deadline_ok f : wf f -> reconnect_deadline f = Ret (deadline_of f) /\ 0 <= deadline_of f <= LLONG_MAX.
Proof.
  intros []. unfold reconnect_deadline, deadline_of, time_ok, TIME_MAX in *.
  destruct (Z.eqb_spec (state_entered f) LLONG_MIN); [lia|].
  destruct (st f); try destruct (Z.eqb_spec (probe_interval f) 0); rewrite ?llong_ok by lia; (split; [done|lia]).
Qed.

(** The deadline, and whether reaching it leads to an action. *)
Lemma run_before f now d : reconnect_deadline f = Ret d -> now < d -> reconnect_run f now = Ret (RECONNECT_NONE, f).
Proof.
  intros E Hn. unfold reconnect_run. rewrite E. cbn [mbind outcome_bind].
  by destruct (Z.leb_spec d now); [lia|].
Qed.

(** The probe of an active session leaves the session connected. *)
Lemma to_idle f now :
  st f = S_ACTIVE -> exists f', reconnect_transition f now S_IDLE = Ret f' /\ moved f now S_IDLE f'.
Proof. intros Hs. apply transition_moved. done. Qed.

Lemma run_after f now d :
  reconnect_deadline f = Ret d -> d <= now -> st f <> S_VOID -> st f <> S_LISTENING ->
  exists a f', reconnect_run f now = Ret (a, f') /\ a <> RECONNECT_NONE.
Proof.
  intros E Hn Hv Hl. unfold reconnect_run. rewrite E. cbn [mbind outcome_bind].
  destruct (Z.leb_spec d now); [|lia]. destruct (st f) eqn:Es; try done; try (do 2 eexists; by split).
  destruct (to_idle f now Es) as (f' & -> & _). do 2 eexists. by split.
Qed.

Lemma run_wf f now : wf f -> time_ok now -> exists a f', reconnect_run f now = Ret (a, f') /\ wf f'.
Proof.
  intros Hw Hn. unfold reconnect_run. destruct (deadline_ok f Hw) as [-> _]. cbn [mbind outcome_bind].
  destruct (_ <=? now); [|by do 2 eexists]. destruct (st f) eqn:Es; try (by do 2 eexists).
  destruct (transition_ok f now S_IDLE Hw Hn) as (f' & -> & _ & Hw'). by do 2 eexists.
Qed.

Lemma apply_wf c now f : wf f -> valid_call c -> time_ok now -> keeps (apply c now f).
Proof.
  intros Hw Hc Hnow. pose proof Hw as []. destruct c; cbn [apply valid_call] in *; auto with reconnect.
  - apply keeps_ret. by split.
  - apply keeps_ret. by split.
  - apply keeps_ret. by split.
  - destruct Hc. apply keeps_ret. by apply set_backoff_call_wf.
  - apply keeps_ret. unfold reconnect_set_probe_interval. destruct (Z.eqb_spec p 0); split; try done; simpl; lia.
  - by apply set_passive_wf.
  - unfold reconnect_enable. case_decide; [|auto with reconnect]. pose proof (may_retry_wf _ Hw) as H2.
    destruct (reconnect_may_retry _) as [[] f2]; auto with reconnect.
  - unfold reconnect_disable. case_decide; auto with reconnect.
  - unfold reconnect_force_reconnect. destruct (state_in _ _); auto with reconnect.
  - unfold reconnect_listening. case_decide; auto with reconnect.
  - unfold reconnect_listen_error. case_decide; auto with reconnect.
  - unfold reconnect_connected. destruct (is_connected_state (st f)); [auto with reconnect|].
    apply keeps_bind; [auto with reconnect|]. intros g Hg. apply keeps_bind; auto with reconnect.
  - unfold reconnect_connect_failed. apply keeps_bind; auto with reconnect.
  - unfold reconnect_received. apply keeps_bind; [case_decide|]; auto with reconnect.
  - destruct (run_wf f now Hw Hnow) as (a & f' & -> & Hw'). cbn [mbind outcome_bind]. auto with reconnect.
Qed.

Lemma timeout_ok f now : wf f -> time_ok now ->
  reconnect_timeout f now = Ret (if deadline_of f =? LLONG_MAX then -1
                                 else Z.max 0 (Z.min INT_MAX (deadline_of f - now))).
Proof.
  intros Hw Hn. unfold reconnect_timeout. destruct (deadline_ok f Hw) as [-> Hd]. cbn [mbind outcome_bind].
  destruct (Z.eqb_spec (deadline_of f) LLONG_MAX); [done|].
  unfold time_ok, TIME_MAX in Hn. by rewrite llong_ok by lia.
Qed.

(** The statistics can be read at any time. *)
Lemma stats_ok f now : wf f -> time_ok now -> returns (reconnect_get_stats f now).
Proof.
  intros Hw Hn. pose proof Hw as [].
  assert (exists c, reconnect_get_last_connect_elapsed f now = Ret c) as (c & E1).
  { unfold reconnect_get_last_connect_elapsed. destruct (_ =? _); [by eexists|].
    pose proof (elapsed_ok _ _ Hn wf_connected0). unfold TIME_MAX in *. rewrite llong_ok by lia. by eexists. }
  assert (exists c, reconnect_get_last_disconnect_elapsed f now = Ret c) as (d & E2).
  { unfold reconnect_get_last_disconnect_elapsed. destruct (_ =? _); [by eexists|].
    pose proof (elapsed_ok _ _ Hn wf_disconnected0). unfold TIME_MAX in *. rewrite llong_ok by lia. by eexists. }
  unfold reconnect_get_stats. rewrite E1, E2. cbn [mbind outcome_bind].
  pose proof (elapsed_ok now (state_entered f) Hn ltac:(by right)). unfold TIME_MAX in *.
  destruct (is_connected_state (st f)); rewrite ?llong_ok by lia; by eexists.
Qed.

(** One failed attempt in active mode. *)
Lemma connect_failed_ok f now e :
  st f = S_BACKOFF \/ st f = S_VOID -> passive f = false ->
  0 <= min_backoff f -> 0 <= max_backoff f <= INT_MAX ->
  exists f', reconnect_connect_failed f now e = Ret f'
  /\ st f' = (if 0 <? max_tries f then S_BACKOFF else S_VOID)
  /\ backoff f' = next_backoff f
  /\ max_tries f' = max_tries (reconnect_may_retry f).2
  /\ min_backoff f' = min_backoff f /\ max_backoff f' = max_backoff f /\ passive f' = false.
Proof.
  intros Hs Hp Hmin Hmax. unfold reconnect_connect_failed, reconnect_connecting.
  rewrite decide_False by (destruct Hs as [->| ->]; done).
  destruct (transition_moved f now S_CONNECTING) as (g & -> & G);
    [by destruct Hs as [->| ->]|]. cbn [mbind outcome_bind].
  destruct G as [G1 G2 G3 G4 G5 G6 _ _ _ G7 _ _ _].
  unfold reconnect_disconnected, back_off, state_in. rewrite G7.
  rewrite !bool_decide_false by (rewrite !elem_of_cons; rewrite ?elem_of_nil; naive_solver).
  rewrite G7. rewrite bool_decide_false by (rewrite !elem_of_cons; rewrite ?elem_of_nil; naive_solver).
  cbn [mbind outcome_bind]. rewrite back_off_slow by (rewrite ?G1, ?G2; lia). cbn [mbind outcome_bind].
  set (h := set_backoff (next_backoff g) g).
  pose proof (may_retry_frame h) as (M1 & M2 & M3 & M4 & M5).
  assert (max_tries (reconnect_may_retry h).2 = max_tries (reconnect_may_retry f).2) as M6
    by (unfold reconnect_may_retry, h; simpl; rewrite G5; by destruct (_ && _); simpl; rewrite ?G5).
  assert ((reconnect_may_retry h).1 = (0 <? max_tries f)) as M7
    by (unfold reconnect_may_retry, h; simpl; by rewrite G5).
  destruct (reconnect_may_retry h) as [r k]. cbn [fst snd] in *. subst r.
  assert (is_connected_state (st k) = false) as Hk by (by rewrite M1; unfold h; cbn [st set_backoff]; rewrite G7).
  destruct (transition_moved k now (if 0 <? max_tries f then S_BACKOFF else S_VOID)) as (f' & -> & F);
    [by rewrite Hk|].
  destruct F as [F1 F2 F3 _ F5 F6 _ _ _ F7 _ _ _]. exists f'. split; [done|].
  assert (next_backoff g = next_backoff f) as EN by (unfold next_backoff; by rewrite G1, G2, G3).
  unfold h in *. cbn [backoff passive min_backoff max_backoff set_backoff] in *.
  split_and!; congruence.
Qed.

(** Consecutive failed connection attempts at the given times. *)
Fixpoint failures (ts : list Z) (f : reconnect) : outcome reconnect :=
  match ts with
  | [] => Ret f
  | t :: ts' => f ← reconnect_connect_failed f t 0; failures ts' f
  end.

(** The delay after [k] further failures, starting from delay [b]. *)
Definition doubled (mx b : Z) (k : nat) : Z := Z.min mx (b * 2 ^ Z.of_nat k).

Lemma double_step mx b :
  Z.even mx = true -> 0 < b <= mx ->
  (if mx / 2 <=? b then mx else b * 2) = Z.min mx (b * 2).
Proof.
  intros He Hb. apply Z.even_spec in He as [h ->].
  rewrite Z.mul_comm, Z.div_mul by lia. destruct (Z.leb_spec h b); lia.
Qed.

Lemma failures_ok ts f :
  st f = S_BACKOFF \/ st f = S_VOID -> passive f = false ->
  Z.even (max_backoff f) = true -> 0 < min_backoff f <= max_backoff f -> max_backoff f <= INT_MAX ->
  min_backoff f <= backoff f <= max_backoff f -> 0 <= max_tries f <= UINT_MAX ->
  exists f', failures ts f = Ret f'
  /\ backoff f' = doubled (max_backoff f) (backoff f) (length ts)
  /\ max_tries f' = (if max_tries f =? UINT_MAX then UINT_MAX
                    else Z.max 0 (max_tries f - Z.of_nat (length ts)))
  /\ st f' = (if bool_decide (ts = []) then st f
              else if (max_tries f =? UINT_MAX) || (Z.of_nat (length ts) <=? max_tries f)
                   then S_BACKOFF else S_VOID).
Proof.
  revert f. induction ts as [|t ts IH]; intros f Hs Hp He Hm Hi Hb Ht.
  { cbn [failures length]. exists f. split; [done|]. unfold doubled. rewrite Z.mul_1_r.
    split; [lia|]. split; [|done]. destruct (Z.eqb_spec (max_tries f) UINT_MAX); lia. }
  cbn [failures]. destruct (connect_failed_ok f t 0 Hs Hp) as (g & -> & F1 & F2 & F3 & F4 & F5 & F6); [lia..|].
  cbn [mbind outcome_bind]. unfold next_backoff in F2.
  destruct (Z.ltb_spec (backoff f) (min_backoff f)); [lia|].
  rewrite double_step in F2 by (try done; lia).
  assert (max_tries g = if max_tries f =? UINT_MAX then UINT_MAX else Z.max 0 (max_tries f - 1)) as F3'.
  { rewrite F3. unfold reconnect_may_retry. simpl.
    destruct (Z.ltb_spec 0 (max_tries f)), (Z.eqb_spec (max_tries f) UINT_MAX); simpl; try lia.
    rewrite wrap_small; lia. }
  destruct (IH g) as (f' & -> & I1 & I2 & I3).
  - rewrite F1. destruct (0 <? max_tries f); auto.
  - done.
  - by rewrite F5.
  - by rewrite F4, F5.
  - by rewrite F5.
  - rewrite F4, F5, F2. lia.
  - rewrite F3'. destruct (_ =? _); lia.
  - exists f'. split; [done|]. rewrite I1, I2, I3, F5, F2, F3', F1. cbn [length].
    assert (0 < 2 ^ Z.of_nat (length ts)) by (apply Z.pow_pos_nonneg; lia).
    split; [unfold doubled; rewrite Nat2Z.inj_succ, Z.pow_succ_r by lia; nia|].
    rewrite (bool_decide_false (t :: ts = [])) by done.
    destruct (Z.eqb_spec (max_tries f) UINT_MAX) as [Hu|Hu].
    + rewrite Z.eqb_refl. cbn [orb]. split; [done|]. case_bool_decide; [|done].
      destruct (Z.ltb_spec 0 (max_tries f)); [done|lia].
    + destruct (Z.eqb_spec (Z.max 0 (max_tries f - 1)) UINT_MAX); [lia|]. cbn [orb].
      split; [lia|]. case_bool_decide as Hts.
      * subst ts. cbn [length]. destruct (Z.ltb_spec 0 (max_tries f)), (Z.leb_spec (Z.of_nat 1) (max_tries f)); done || lia.
      * assert (0 < Z.of_nat (length ts)) by (destruct ts; [done|simpl; lia]).
        destruct (Z.leb_spec (Z.of_nat (length ts)) (Z.max 0 (max_tries f - 1))),
                 (Z.leb_spec (Z.of_nat (S (length ts))) (max_tries f)); done || lia.
Qed.

(** ** Properties *)

(** C27: no sequence of calls breaks the machine.  From reconnect_create, any calls with the
    documented arguments, at times from 0 to 2^63 - 2^32 - 1 ms and in any order, return:
    no sum or difference of times, no doubling of the back-off and no total overflows its
    type, and no assertion fails.  The delays, the remaining tries and the stored times stay
    within their bounds; the session is connected exactly when seqno, the number of
    connections and disconnections, is odd; and at any such time the machine then has a
    timeout to wait for and its statistics can be read. *)
Theorem reconnect_invariant now0 cs :
  time_ok now0 -> Forall (fun p => valid_call p.1 /\ time_ok p.2) cs ->
  exists f, apply_all cs (reconnect_create now0) = Ret f /\ wf f
    /\ reconnect_is_connected f = Z.odd (seqno f)
    /\ forall now, time_ok now ->
         (exists t, reconnect_timeout f now = Ret t /\ -1 <= t <= INT_MAX)
         /\ returns (reconnect_get_stats f now).
Proof.
  intros Hnow Hcs.
  assert (wf (reconnect_create now0)) as Hw by (split; try (cbn; lia); try done; [by right|by left..]).
  revert Hw. generalize (reconnect_create now0). induction Hcs as [|[c t] cs [Hc Ht] _ IH]; intros f Hw.
  - exists f. split_and!; [done|done|apply Hw|]. intros now Hn. split; [|by apply stats_ok].
    rewrite timeout_ok by done. eexists. split; [done|]. destruct (_ =? _); lia.
  - destruct (apply_wf c t f Hw Hc Ht) as (f1 & E1 & Hw1). destruct (IH f1 Hw1) as (f' & E & Hf').
    exists f'. split; [|done]. cbn [apply_all]. by rewrite E1.
Qed.

(** The bound on times is needed: a session that is made active by data alone has no time of
    connection, and dropping it at a time before -1 subtracts LLONG_MAX from that time. *)
Lemma early_time_overflows :
  apply_all [(Received, 0); (Disconnected 0, -2)] (reconnect_create 0) = Stuck Overflow.
Proof. reflexivity. Qed.

(** A client that sleeps for reconnect_timeout misses nothing and never spins.  With
    timeout [t], reconnect_run does nothing before [t] ms have passed and asks for an
    action at that point (unless the timeout was cut off at INT_MAX); with a negative
    timeout it does nothing at any time. *)
Theorem run_timeout_coherent f now :
  wf f -> time_ok now ->
  exists t, reconnect_timeout f now = Ret t /\ -1 <= t <= INT_MAX
    /\ (t = -1 -> forall now', now' < LLONG_MAX -> reconnect_run f now' = Ret (RECONNECT_NONE, f))
    /\ (0 <= t ->
          (forall now', now <= now' < now + t -> reconnect_run f now' = Ret (RECONNECT_NONE, f))
          /\ (t < INT_MAX -> exists a f', reconnect_run f (now + t) = Ret (a, f') /\ a <> RECONNECT_NONE)).
Proof.
  intros Hw Hn. rewrite timeout_ok by done. destruct (deadline_ok f Hw) as [E _].
  destruct (Z.eqb_spec (deadline_of f) LLONG_MAX) as [Hd|Hd].
  - eexists. split; [reflexivity|]. split; [lia|]. split; [|lia].
    intros _ now' Hn'. apply (run_before _ _ _ E). lia.
  - eexists. split; [reflexivity|]. split; [lia|]. split; [lia|]. intros _. split.
    + intros now' Hn'. apply (run_before _ _ _ E). lia.
    + intros Ht. apply (run_after _ _ _ E); [lia| |]; intros Es; apply Hd; unfold deadline_of; by rewrite Es.
Qed.

(** Exponential back-off and the limit on tries.  In active mode, from a back-off of at
    least the minimum, [k] consecutive failed attempts multiply the delay by 2 to the [k],
    capped at the (even) maximum; with a finite number of tries left, each attempt uses
    one, and the machine backs off again exactly as long as tries are left and disables
    itself after that. *)
Theorem backoff_schedule ts f :
  st f = S_BACKOFF -> passive f = false -> Z.even (max_backoff f) = true ->
  0 < min_backoff f <= max_backoff f -> max_backoff f <= INT_MAX ->
  min_backoff f <= backoff f <= max_backoff f -> 0 <= max_tries f <= UINT_MAX ->
  exists f', failures ts f = Ret f'
  /\ backoff f' = Z.min (max_backoff f) (backoff f * 2 ^ Z.of_nat (length ts))
  /\ max_tries f' = (if max_tries f =? UINT_MAX then UINT_MAX
                    else Z.max 0 (max_tries f - Z.of_nat (length ts)))
  /\ st f' = (if (max_tries f =? UINT_MAX) || (Z.of_nat (length ts) <=? max_tries f)
              then S_BACKOFF else S_VOID).
Proof.
  intros Hs Hp He Hm Hi Hb Ht.
  destruct (failures_ok ts f (or_introl Hs) Hp He Hm Hi Hb Ht) as (f' & E & E1 & E2 & E3).
  exists f'. split_and!; [done..|]. rewrite E3. case_bool_decide; [|done]. subst ts. rewrite Hs. cbn [length].
  destruct (Z.leb_spec (Z.of_nat 0) (max_tries f)); [|lia]. by rewrite orb_true_r.
Qed.

(** Data on an idle connection makes it active and restarts the probe interval. *)
Lemma received_ok f t2 :
  wf f -> st f <> S_ACTIVE -> 0 < probe_interval f -> time_ok t2 ->
  exists g, reconnect_received f t2 = Ret g /\ st g = S_ACTIVE
  /\ forall t3, t3 < t2 + probe_interval f -> reconnect_run g t3 = Ret (RECONNECT_NONE, g).
Proof.
  intros Hw Hs Hp Ht. unfold reconnect_received. rewrite decide_False by done.
  destruct (transition_ok f t2 S_ACTIVE Hw Ht) as (g & -> & G & Hg). cbn [mbind outcome_bind].
  destruct (deadline_ok _ (set_last_received_wf t2 g Hg Ht)) as [D _].
  destruct G as [_ _ _ G4 _ _ _ _ _ G9 G10 _ _]. eexists. split; [reflexivity|]. split; [done|].
  intros t3 H3. unfold deadline_of in D. cbn [st probe_interval last_received state_entered set_last_received] in D.
  rewrite G9, G4, G10 in D. destruct (Z.eqb_spec (probe_interval f) 0); [lia|].
  apply (run_before _ _ _ D). lia.
Qed.

(** Keep-alive.  While connected with probe interval [p], reconnect_run asks for a probe
    once nothing has been received for [p] ms; if then nothing is received for another
    [p] ms it asks to disconnect, and not earlier; data received in between makes the
    session active again with a full interval ahead. *)
Theorem keepalive f t1 :
  wf f -> st f = S_ACTIVE -> 0 < probe_interval f ->
  Z.max (last_received f) (state_entered f) + probe_interval f <= t1 <= TIME_MAX ->
  exists f1, reconnect_run f t1 = Ret (RECONNECT_PROBE, f1) /\ st f1 = S_IDLE
    /\ (forall t2, t2 < t1 + probe_interval f -> reconnect_run f1 t2 = Ret (RECONNECT_NONE, f1))
    /\ (forall t2, t1 + probe_interval f <= t2 -> reconnect_run f1 t2 = Ret (RECONNECT_DISCONNECT, f1))
    /\ (forall t2, time_ok t2 ->
          exists g, reconnect_received f1 t2 = Ret g /\ st g = S_ACTIVE
          /\ forall t3, t3 < t2 + probe_interval f -> reconnect_run g t3 = Ret (RECONNECT_NONE, g)).
Proof.
  intros Hw Hs Hp Ht1. destruct (deadline_ok f Hw) as [E _]. unfold deadline_of in E. rewrite Hs in E.
  assert (time_ok t1) as Hn by (pose proof (wf_entered _ Hw) as [? _]; split; lia).
  destruct (Z.eqb_spec (probe_interval f) 0); [lia|].
  destruct (transition_ok f t1 S_IDLE Hw Hn) as (f1 & Ef & [_ _ _ E4 _ _ _ _ _ E9 E10 _ _] & Hw1).
  destruct (deadline_ok f1 Hw1) as [D1 _]. unfold deadline_of in D1. rewrite E9, E4, E10 in D1.
  destruct (Z.eqb_spec (probe_interval f) 0); [lia|].
  exists f1. split; [|split; [done|split; [|split]]].
  - unfold reconnect_run. rewrite E. cbn [mbind outcome_bind].
    match goal with |- context [?d <=? t1] => destruct (Z.leb_spec d t1) end; [|lia]. by rewrite Hs, Ef.
  - intros t2 Ht2. by apply (run_before _ _ _ D1).
  - intros t2 Ht2. unfold reconnect_run. rewrite D1. cbn [mbind outcome_bind].
    destruct (Z.leb_spec (t1 + probe_interval f) t2); [|lia]. by rewrite E9.
  - intros t2 Ht2. rewrite <- E4. apply received_ok; [done|by rewrite E9|by rewrite E4|done].
Qed.

(** Asking for the default maximum cancels a back-off.  reconnect_set_backoff caps the
    current delay with the argument instead of the value it stored, so passing 0, which
    stands for the default of 8 s, while the machine is backing off makes it retry at
    once although both stored limits are at least a second. *)
Theorem set_backoff_default_cancels f min now :
  wf f -> st f = S_BACKOFF -> 0 < backoff f -> state_entered f <= now ->
  let f' := reconnect_set_backoff f min 0 in
  backoff f' = 0 /\ 1000 <= min_backoff f' /\ RECONNECT_DEFAULT_MAX_BACKOFF <= max_backoff f'
  /\ exists g, reconnect_run f' now = Ret (RECONNECT_CONNECT, g).
Proof.
  intros Hw Hs Hb Hn. cbv zeta. pose proof Hw as []. unfold time_ok, TIME_MAX in *.
  unfold reconnect_set_backoff, RECONNECT_DEFAULT_MAX_BACKOFF.
  change (0 =? 0) with true. cbn [max_backoff min_backoff set_min_backoff set_max_backoff].
  destruct (Z.ltb_spec 8000 (Z.max min 1000));
    cbn [st backoff set_min_backoff set_max_backoff]; rewrite bool_decide_true by done;
    (destruct (Z.ltb_spec 0 (backoff f)); [|lia]); cbn [andb];
    (split; [done|split; [simpl; lia|split; [simpl; lia|]]]);
    unfold reconnect_run, reconnect_deadline; cbn [state_entered st set_backoff set_min_backoff set_max_backoff];
    (destruct (Z.eqb_spec (state_entered f) LLONG_MIN); [lia|]); rewrite Hs;
    cbn [backoff set_backoff]; rewrite llong_ok by lia; cbn [mbind outcome_bind];
    (match goal with |- context [?a <=? now] => destruct (Z.leb_spec a now); [|lia] end);
    by eexists.
Qed.

(** ** Witnesses *)

Definition run_demo (o : outcome reconnect) : reconnect :=
  match o with Ret f => f | Stuck _ => reconnect_create 0 end.

Definition demo_backing_off : reconnect :=
  run_demo (f ← reconnect_enable (reconnect_create 0) 0; failures [1000] f).
Definition demo_active : reconnect :=
  run_demo (f ← reconnect_enable (reconnect_create 0) 0; reconnect_connected f 10).

Lemma demo_backing_off_wf : wf demo_backing_off.
Proof.
  split; vm_compute; try (split; discriminate); try discriminate; try reflexivity;
    try (right; split; discriminate); by left.
Qed.
Lemma demo_active_wf : wf demo_active.
Proof.
  split; vm_compute; try (split; discriminate); try discriminate; try reflexivity;
    try (right; split; discriminate); by left.
Qed.

Example reconnect_invariant_witness :
  exists f, apply_all [(Enable, 1); (Run, 1); (Connecting, 2); (Connected, 3); (Run, 6000);
                       (Received, 6001); (Disconnected 0, 7000); (SetBackoff 0 0, 7001)]
              (reconnect_create 0) = Ret f /\ wf f /\ reconnect_is_connected f = Z.odd (seqno f)
    /\ forall now, time_ok now ->
         (exists t, reconnect_timeout f now = Ret t /\ -1 <= t <= INT_MAX)
         /\ returns (reconnect_get_stats f now).
Proof.
  apply reconnect_invariant; [by split|].
  repeat (constructor; [vm_compute; repeat split; discriminate|]). constructor.
Defined.

Example run_timeout_coherent_witness :
  exists t, reconnect_timeout demo_backing_off 1500 = Ret t /\ -1 <= t <= INT_MAX
    /\ (t = -1 -> forall now', now' < LLONG_MAX ->
          reconnect_run demo_backing_off now' = Ret (RECONNECT_NONE, demo_backing_off))
    /\ (0 <= t ->
          (forall now', 1500 <= now' < 1500 + t ->
             reconnect_run demo_backing_off now' = Ret (RECONNECT_NONE, demo_backing_off))
          /\ (t < INT_MAX -> exists a f', reconnect_run demo_backing_off (1500 + t) = Ret (a, f')
                                          /\ a <> RECONNECT_NONE)).
Proof.
  apply run_timeout_coherent; [apply demo_backing_off_wf|by split].
Defined.

Example backoff_schedule_witness :
  exists f', failures [3000; 6000; 11000; 20000] demo_backing_off = Ret f'
  /\ backoff f' = Z.min 8000 (1000 * 2 ^ 4) /\ max_tries f' = UINT_MAX /\ st f' = S_BACKOFF.
Proof.
  apply (backoff_schedule [3000; 6000; 11000; 20000] demo_backing_off);
    vm_compute; repeat split; discriminate.
Defined.

Example keepalive_witness :
  exists f1, reconnect_run demo_active 5010 = Ret (RECONNECT_PROBE, f1) /\ st f1 = S_IDLE
    /\ (forall t2, t2 < 5010 + probe_interval demo_active -> reconnect_run f1 t2 = Ret (RECONNECT_NONE, f1))
    /\ (forall t2, 5010 + probe_interval demo_active <= t2 -> reconnect_run f1 t2 = Ret (RECONNECT_DISCONNECT, f1))
    /\ (forall t2, time_ok t2 ->
          exists g, reconnect_received f1 t2 = Ret g /\ st g = S_ACTIVE
          /\ forall t3, t3 < t2 + probe_interval demo_active -> reconnect_run g t3 = Ret (RECONNECT_NONE, g)).
Proof.
  apply keepalive; [apply demo_active_wf|reflexivity|reflexivity|vm_compute; split; discriminate].
Defined.

Example set_backoff_default_cancels_witness :
  let f' := reconnect_set_backoff demo_backing_off 1000 0 in
  backoff f' = 0 /\ 1000 <= min_backoff f' /\ RECONNECT_DEFAULT_MAX_BACKOFF <= max_backoff f'
  /\ exists g, reconnect_run f' 1000 = Ret (RECONNECT_CONNECT, g).
Proof.
  apply set_backoff_default_cancels; [apply demo_backing_off_wf|reflexivity|reflexivity|vm_compute; discriminate].
Defined.
