(* ===== verification/StpData.v ===== *)
(** * Spanning tree data (lib/stp.h, the structures and BPDU formats of lib/stp.c)

    A port is an index into the bridge's array of ports ([fin]), so the [struct stp_port *]
    of the code, which always points into that array, cannot be out of range here; a null
    pointer is [None].  An int is a [Z]; sums that can leave the range of int are wrapped. *)
From stdpp Require Export vector strings.
From S2P Require Export Prelude.

Local Open Scope Z_scope.

(** ** Constants *)

Definition STP_PROTOCOL_ID : Z := 0.
Definition STP_PROTOCOL_VERSION : Z := 0.
Definition STP_TYPE_CONFIG : Z := 0.
Definition STP_TYPE_TCN : Z := 128.
Definition STP_CONFIG_TOPOLOGY_CHANGE_ACK : Z := 128.
Definition STP_CONFIG_TOPOLOGY_CHANGE : Z := 1.

Definition STP_LLC_SSAP : Z := 66.
Definition STP_LLC_DSAP : Z := 66.
Definition STP_LLC_CNTL : Z := 3.
Definition STP_DEFAULT_BRIDGE_PRIORITY : Z := 32768.
Definition STP_DEFAULT_PORT_PRIORITY : Z := 128.
Definition STP_DEFAULT_MAX_AGE : Z := 20000.
Definition STP_DEFAULT_HELLO_TIME : Z := 2000.
Definition STP_DEFAULT_FWD_DELAY : Z := 15000.
Definition MESSAGE_AGE_INCREMENT : Z := 1.
Definition eth_addr_stp : list Z := [1; 128; 194; 0; 0; 0].

Notation STP_MAX_PORTS := 255%nat.

(** enum stp_state: the code tests sets of states with bit masks.  A freshly allocated port
    holds 0, which is none of them. *)
Abbreviation STP_DISABLED := 1.
Abbreviation STP_LISTENING := 2.
Abbreviation STP_LEARNING := 4.
Abbreviation STP_FORWARDING := 8.
Abbreviation STP_BLOCKING := 16.

Inductive stp_role :=
  | STP_ROLE_ROOT | STP_ROLE_DESIGNATED | STP_ROLE_ALTERNATE | STP_ROLE_DISABLED.

#[export] Instance stp_role_eq_dec : EqDecision stp_role.
Proof. solve_decision. Defined.

Definition stp_forward_in_state (state : Z) : bool :=
  negb (Z.land state (Z.lor STP_DISABLED STP_FORWARDING) =? 0).
Definition stp_learn_in_state (state : Z) : bool :=
  negb (Z.land state (Z.lor (Z.lor STP_DISABLED STP_LEARNING) STP_FORWARDING) =? 0).

Definition stp_state_name (state : Z) : outcome string :=
  if state =? STP_DISABLED then Ret "disabled"%string
  else if state =? STP_LISTENING then Ret "listening"%string
  else if state =? STP_LEARNING then Ret "learning"%string
  else if state =? STP_FORWARDING then Ret "forwarding"%string
  else if state =? STP_BLOCKING then Ret "blocking"%string
  else Stuck AssertFail.

Definition stp_role_name (role : stp_role) : string :=
  match role with
  | STP_ROLE_ROOT => "root"
  | STP_ROLE_DESIGNATED => "designated"
  | STP_ROLE_ALTERNATE => "alternate"
  | STP_ROLE_DISABLED => "disabled"
  end.

(** ** Timers, in ticks of 1/256 s *)

Record stp_timer := MkTimer { t_active : bool; t_value : Z }.

Definition stp_start_timer (value : Z) (timer : stp_timer) : stp_timer := MkTimer true value.
Definition stp_stop_timer (timer : stp_timer) : stp_timer := MkTimer false (t_value timer).

(** The new timer, and whether it has just expired. *)
Definition stp_timer_expired (timer : stp_timer) (elapsed timeout : Z) : stp_timer * bool :=
  if t_active timer then
    let v := s32 (t_value timer + elapsed) in
    if timeout <=? v then (MkTimer false v, true) else (MkTimer true v, false)
  else (timer, false).

Definition ms_to_timer (ms : Z) : Z := Z.quot (s32 (ms * 256)) 1000.
Definition timer_to_ms (timer : Z) : Z := Z.quot (s32 (timer * 1000)) 256.
Definition clamp (x min max : Z) : Z := if x <? min then min else if max <? x then max else x.

Definition stp_convert_speed_to_cost (speed : Z) : Z :=
  if 10000 <=? speed then 2
  else if 1000 <=? speed then 4
  else if 100 <=? speed then 19
  else if 16 <=? speed then 62
  else if 10 <=? speed then 100
  else if 4 <=? speed then 250
  else 19.

(** ** Bridge and ports *)

Definition port_no : Set := fin STP_MAX_PORTS.

Record stp_port := MkPort {
  p_aux : Z;   (* client data; 0 is NULL *)
  p_port_id : Z;
  p_state : Z;   (* enum stp_state *)
  p_path_cost : Z;
  p_designated_root : Z;   (* uint64_t *)
  p_designated_cost : Z;   (* int *)
  p_designated_bridge : Z;   (* uint64_t *)
  p_designated_port : Z;
  p_topology_change_ack : bool;
  p_config_pending : bool;
  p_change_detection_enabled : bool;
  p_message_age_timer : stp_timer;
  p_forward_delay_timer : stp_timer;
  p_hold_timer : stp_timer;
  p_tx_count : Z;
  p_rx_count : Z;
  p_error_count : Z;
  p_state_changed : bool
}.

Definition with_p_aux (v : Z) (r : stp_port) : stp_port :=
  MkPort v (p_port_id r) (p_state r) (p_path_cost r) (p_designated_root r) (p_designated_cost r)
    (p_designated_bridge r) (p_designated_port r) (p_topology_change_ack r) (p_config_pending r)
    (p_change_detection_enabled r) (p_message_age_timer r) (p_forward_delay_timer r)
    (p_hold_timer r) (p_tx_count r) (p_rx_count r) (p_error_count r) (p_state_changed r).
Definition with_p_port_id (v : Z) (r : stp_port) : stp_port :=
  MkPort (p_aux r) v (p_state r) (p_path_cost r) (p_designated_root r) (p_designated_cost r)
    (p_designated_bridge r) (p_designated_port r) (p_topology_change_ack r) (p_config_pending r)
    (p_change_detection_enabled r) (p_message_age_timer r) (p_forward_delay_timer r)
    (p_hold_timer r) (p_tx_count r) (p_rx_count r) (p_error_count r) (p_state_changed r).
Definition with_p_state (v : Z) (r : stp_port) : stp_port :=
  MkPort (p_aux r) (p_port_id r) v (p_path_cost r) (p_designated_root r) (p_designated_cost r)
    (p_designated_bridge r) (p_designated_port r) (p_topology_change_ack r) (p_config_pending r)
    (p_change_detection_enabled r) (p_message_age_timer r) (p_forward_delay_timer r)
    (p_hold_timer r) (p_tx_count r) (p_rx_count r) (p_error_count r) (p_state_changed r).
Definition with_p_path_cost (v : Z) (r : stp_port) : stp_port :=
  MkPort (p_aux r) (p_port_id r) (p_state r) v (p_designated_root r) (p_designated_cost r)
    (p_designated_bridge r) (p_designated_port r) (p_topology_change_ack r) (p_config_pending r)
    (p_change_detection_enabled r) (p_message_age_timer r) (p_forward_delay_timer r)
    (p_hold_timer r) (p_tx_count r) (p_rx_count r) (p_error_count r) (p_state_changed r).
Definition with_p_designated_root (v : Z) (r : stp_port) : stp_port :=
  MkPort (p_aux r) (p_port_id r) (p_state r) (p_path_cost r) v (p_designated_cost r)
    (p_designated_bridge r) (p_designated_port r) (p_topology_change_ack r) (p_config_pending r)
    (p_change_detection_enabled r) (p_message_age_timer r) (p_forward_delay_timer r)
    (p_hold_timer r) (p_tx_count r) (p_rx_count r) (p_error_count r) (p_state_changed r).
Definition with_p_designated_cost (v : Z) (r : stp_port) : stp_port :=
  MkPort (p_aux r) (p_port_id r) (p_state r) (p_path_cost r) (p_designated_root r) v
    (p_designated_bridge r) (p_designated_port r) (p_topology_change_ack r) (p_config_pending r)
    (p_change_detection_enabled r) (p_message_age_timer r) (p_forward_delay_timer r)
    (p_hold_timer r) (p_tx_count r) (p_rx_count r) (p_error_count r) (p_state_changed r).
Definition with_p_designated_bridge (v : Z) (r : stp_port) : stp_port :=
  MkPort (p_aux r) (p_port_id r) (p_state r) (p_path_cost r) (p_designated_root r)
    (p_designated_cost r) v (p_designated_port r) (p_topology_change_ack r) (p_config_pending r)
    (p_change_detection_enabled r) (p_message_age_timer r) (p_forward_delay_timer r)
    (p_hold_timer r) (p_tx_count r) (p_rx_count r) (p_error_count r) (p_state_changed r).
Definition with_p_designated_port (v : Z) (r : stp_port) : stp_port :=
  MkPort (p_aux r) (p_port_id r) (p_state r) (p_path_cost r) (p_designated_root r)
    (p_designated_cost r) (p_designated_bridge r) v (p_topology_change_ack r)
    (p_config_pending r) (p_change_detection_enabled r) (p_message_age_timer r)
    (p_forward_delay_timer r) (p_hold_timer r) (p_tx_count r) (p_rx_count r) (p_error_count r)
    (p_state_changed r).
Definition with_p_topology_change_ack (v : bool) (r : stp_port) : stp_port :=
  MkPort (p_aux r) (p_port_id r) (p_state r) (p_path_cost r) (p_designated_root r)
    (p_designated_cost r) (p_designated_bridge r) (p_designated_port r) v (p_config_pending r)
    (p_change_detection_enabled r) (p_message_age_timer r) (p_forward_delay_timer r)
    (p_hold_timer r) (p_tx_count r) (p_rx_count r) (p_error_count r) (p_state_changed r).
Definition with_p_config_pending (v : bool) (r : stp_port) : stp_port :=
  MkPort (p_aux r) (p_port_id r) (p_state r) (p_path_cost r) (p_designated_root r)
    (p_designated_cost r) (p_designated_bridge r) (p_designated_port r)
    (p_topology_change_ack r) v (p_change_detection_enabled r) (p_message_age_timer r)
    (p_forward_delay_timer r) (p_hold_timer r) (p_tx_count r) (p_rx_count r) (p_error_count r)
    (p_state_changed r).
Definition with_p_change_detection_enabled (v : bool) (r : stp_port) : stp_port :=
  MkPort (p_aux r) (p_port_id r) (p_state r) (p_path_cost r) (p_designated_root r)
    (p_designated_cost r) (p_designated_bridge r) (p_designated_port r)
    (p_topology_change_ack r) (p_config_pending r) v (p_message_age_timer r)
    (p_forward_delay_timer r) (p_hold_timer r) (p_tx_count r) (p_rx_count r) (p_error_count r)
    (p_state_changed r).
Definition with_p_message_age_timer (v : stp_timer) (r : stp_port) : stp_port :=
  MkPort (p_aux r) (p_port_id r) (p_state r) (p_path_cost r) (p_designated_root r)
    (p_designated_cost r) (p_designated_bridge r) (p_designated_port r)
    (p_topology_change_ack r) (p_config_pending r) (p_change_detection_enabled r) v
    (p_forward_delay_timer r) (p_hold_timer r) (p_tx_count r) (p_rx_count r) (p_error_count r)
    (p_state_changed r).
Definition with_p_forward_delay_timer (v : stp_timer) (r : stp_port) : stp_port :=
  MkPort (p_aux r) (p_port_id r) (p_state r) (p_path_cost r) (p_designated_root r)
    (p_designated_cost r) (p_designated_bridge r) (p_designated_port r)
    (p_topology_change_ack r) (p_config_pending r) (p_change_detection_enabled r)
    (p_message_age_timer r) v (p_hold_timer r) (p_tx_count r) (p_rx_count r) (p_error_count r)
    (p_state_changed r).
Definition with_p_hold_timer (v : stp_timer) (r : stp_port) : stp_port :=
  MkPort (p_aux r) (p_port_id r) (p_state r) (p_path_cost r) (p_designated_root r)
    (p_designated_cost r) (p_designated_bridge r) (p_designated_port r)
    (p_topology_change_ack r) (p_config_pending r) (p_change_detection_enabled r)
    (p_message_age_timer r) (p_forward_delay_timer r) v (p_tx_count r) (p_rx_count r)
    (p_error_count r) (p_state_changed r).
Definition with_p_tx_count (v : Z) (r : stp_port) : stp_port :=
  MkPort (p_aux r) (p_port_id r) (p_state r) (p_path_cost r) (p_designated_root r)
    (p_designated_cost r) (p_designated_bridge r) (p_designated_port r)
    (p_topology_change_ack r) (p_config_pending r) (p_change_detection_enabled r)
    (p_message_age_timer r) (p_forward_delay_timer r) (p_hold_timer r) v (p_rx_count r)
    (p_error_count r) (p_state_changed r).
Definition with_p_rx_count (v : Z) (r : stp_port) : stp_port :=
  MkPort (p_aux r) (p_port_id r) (p_state r) (p_path_cost r) (p_designated_root r)
    (p_designated_cost r) (p_designated_bridge r) (p_designated_port r)
    (p_topology_change_ack r) (p_config_pending r) (p_change_detection_enabled r)
    (p_message_age_timer r) (p_forward_delay_timer r) (p_hold_timer r) (p_tx_count r) v
    (p_error_count r) (p_state_changed r).
Definition with_p_error_count (v : Z) (r : stp_port) : stp_port :=
  MkPort (p_aux r) (p_port_id r) (p_state r) (p_path_cost r) (p_designated_root r)
    (p_designated_cost r) (p_designated_bridge r) (p_designated_port r)
    (p_topology_change_ack r) (p_config_pending r) (p_change_detection_enabled r)
    (p_message_age_timer r) (p_forward_delay_timer r) (p_hold_timer r) (p_tx_count r)
    (p_rx_count r) v (p_state_changed r).
Definition with_p_state_changed (v : bool) (r : stp_port) : stp_port :=
  MkPort (p_aux r) (p_port_id r) (p_state r) (p_path_cost r) (p_designated_root r)
    (p_designated_cost r) (p_designated_bridge r) (p_designated_port r)
    (p_topology_change_ack r) (p_config_pending r) (p_change_detection_enabled r)
    (p_message_age_timer r) (p_forward_delay_timer r) (p_hold_timer r) (p_tx_count r)
    (p_rx_count r) (p_error_count r) v.

Record stp := MkStp {
  name : string;
  bridge_id : Z;   (* uint64_t *)
  max_age : Z;
  hello_time : Z;
  forward_delay : Z;
  bridge_max_age : Z;
  bridge_hello_time : Z;
  bridge_forward_delay : Z;
  rq_max_age : Z;
  rq_hello_time : Z;
  rq_forward_delay : Z;
  elapsed_remainder : Z;
  designated_root : Z;   (* uint64_t *)
  root_path_cost : Z;   (* unsigned int *)
  root_port : option port_no;
  topology_change_detected : bool;
  topology_change : bool;
  hello_timer : stp_timer;
  tcn_timer : stp_timer;
  topology_change_timer : stp_timer;
  ports : vec stp_port STP_MAX_PORTS;
  fdb_needs_flush : bool;
  first_changed_port : nat;   (* index; STP_MAX_PORTS is the end *)
  sent : list (port_no * list Z)   (* frames given to send_bpdu, in order *)
}.

Definition with_name (v : string) (r : stp) : stp :=
  MkStp v (bridge_id r) (max_age r) (hello_time r) (forward_delay r) (bridge_max_age r)
    (bridge_hello_time r) (bridge_forward_delay r) (rq_max_age r) (rq_hello_time r)
    (rq_forward_delay r) (elapsed_remainder r) (designated_root r) (root_path_cost r)
    (root_port r) (topology_change_detected r) (topology_change r) (hello_timer r) (tcn_timer r)
    (topology_change_timer r) (ports r) (fdb_needs_flush r) (first_changed_port r) (sent r).
Definition with_bridge_id (v : Z) (r : stp) : stp :=
  MkStp (name r) v (max_age r) (hello_time r) (forward_delay r) (bridge_max_age r)
    (bridge_hello_time r) (bridge_forward_delay r) (rq_max_age r) (rq_hello_time r)
    (rq_forward_delay r) (elapsed_remainder r) (designated_root r) (root_path_cost r)
    (root_port r) (topology_change_detected r) (topology_change r) (hello_timer r) (tcn_timer r)
    (topology_change_timer r) (ports r) (fdb_needs_flush r) (first_changed_port r) (sent r).
Definition with_max_age (v : Z) (r : stp) : stp :=
  MkStp (name r) (bridge_id r) v (hello_time r) (forward_delay r) (bridge_max_age r)
    (bridge_hello_time r) (bridge_forward_delay r) (rq_max_age r) (rq_hello_time r)
    (rq_forward_delay r) (elapsed_remainder r) (designated_root r) (root_path_cost r)
    (root_port r) (topology_change_detected r) (topology_change r) (hello_timer r) (tcn_timer r)
    (topology_change_timer r) (ports r) (fdb_needs_flush r) (first_changed_port r) (sent r).
Definition with_hello_time (v : Z) (r : stp) : stp :=
  MkStp (name r) (bridge_id r) (max_age r) v (forward_delay r) (bridge_max_age r)
    (bridge_hello_time r) (bridge_forward_delay r) (rq_max_age r) (rq_hello_time r)
    (rq_forward_delay r) (elapsed_remainder r) (designated_root r) (root_path_cost r)
    (root_port r) (topology_change_detected r) (topology_change r) (hello_timer r) (tcn_timer r)
    (topology_change_timer r) (ports r) (fdb_needs_flush r) (first_changed_port r) (sent r).
Definition with_forward_delay (v : Z) (r : stp) : stp :=
  MkStp (name r) (bridge_id r) (max_age r) (hello_time r) v (bridge_max_age r)
    (bridge_hello_time r) (bridge_forward_delay r) (rq_max_age r) (rq_hello_time r)
    (rq_forward_delay r) (elapsed_remainder r) (designated_root r) (root_path_cost r)
    (root_port r) (topology_change_detected r) (topology_change r) (hello_timer r) (tcn_timer r)
    (topology_change_timer r) (ports r) (fdb_needs_flush r) (first_changed_port r) (sent r).
Definition with_bridge_max_age (v : Z) (r : stp) : stp :=
  MkStp (name r) (bridge_id r) (max_age r) (hello_time r) (forward_delay r) v
    (bridge_hello_time r) (bridge_forward_delay r) (rq_max_age r) (rq_hello_time r)
    (rq_forward_delay r) (elapsed_remainder r) (designated_root r) (root_path_cost r)
    (root_port r) (topology_change_detected r) (topology_change r) (hello_timer r) (tcn_timer r)
    (topology_change_timer r) (ports r) (fdb_needs_flush r) (first_changed_port r) (sent r).
Definition with_bridge_hello_time (v : Z) (r : stp) : stp :=
  MkStp (name r) (bridge_id r) (max_age r) (hello_time r) (forward_delay r) (bridge_max_age r) v
    (bridge_forward_delay r) (rq_max_age r) (rq_hello_time r) (rq_forward_delay r)
    (elapsed_remainder r) (designated_root r) (root_path_cost r) (root_port r)
    (topology_change_detected r) (topology_change r) (hello_timer r) (tcn_timer r)
    (topology_change_timer r) (ports r) (fdb_needs_flush r) (first_changed_port r) (sent r).
Definition with_bridge_forward_delay (v : Z) (r : stp) : stp :=
  MkStp (name r) (bridge_id r) (max_age r) (hello_time r) (forward_delay r) (bridge_max_age r)
    (bridge_hello_time r) v (rq_max_age r) (rq_hello_time r) (rq_forward_delay r)
    (elapsed_remainder r) (designated_root r) (root_path_cost r) (root_port r)
    (topology_change_detected r) (topology_change r) (hello_timer r) (tcn_timer r)
    (topology_change_timer r) (ports r) (fdb_needs_flush r) (first_changed_port r) (sent r).
Definition with_rq_max_age (v : Z) (r : stp) : stp :=
  MkStp (name r) (bridge_id r) (max_age r) (hello_time r) (forward_delay r) (bridge_max_age r)
    (bridge_hello_time r) (bridge_forward_delay r) v (rq_hello_time r) (rq_forward_delay r)
    (elapsed_remainder r) (designated_root r) (root_path_cost r) (root_port r)
    (topology_change_detected r) (topology_change r) (hello_timer r) (tcn_timer r)
    (topology_change_timer r) (ports r) (fdb_needs_flush r) (first_changed_port r) (sent r).
Definition with_rq_hello_time (v : Z) (r : stp) : stp :=
  MkStp (name r) (bridge_id r) (max_age r) (hello_time r) (forward_delay r) (bridge_max_age r)
    (bridge_hello_time r) (bridge_forward_delay r) (rq_max_age r) v (rq_forward_delay r)
    (elapsed_remainder r) (designated_root r) (root_path_cost r) (root_port r)
    (topology_change_detected r) (topology_change r) (hello_timer r) (tcn_timer r)
    (topology_change_timer r) (ports r) (fdb_needs_flush r) (first_changed_port r) (sent r).
Definition with_rq_forward_delay (v : Z) (r : stp) : stp :=
  MkStp (name r) (bridge_id r) (max_age r) (hello_time r) (forward_delay r) (bridge_max_age r)
    (bridge_hello_time r) (bridge_forward_delay r) (rq_max_age r) (rq_hello_time r) v
    (elapsed_remainder r) (designated_root r) (root_path_cost r) (root_port r)
    (topology_change_detected r) (topology_change r) (hello_timer r) (tcn_timer r)
    (topology_change_timer r) (ports r) (fdb_needs_flush r) (first_changed_port r) (sent r).
Definition with_elapsed_remainder (v : Z) (r : stp) : stp :=
  MkStp (name r) (bridge_id r) (max_age r) (hello_time r) (forward_delay r) (bridge_max_age r)
    (bridge_hello_time r) (bridge_forward_delay r) (rq_max_age r) (rq_hello_time r)
    (rq_forward_delay r) v (designated_root r) (root_path_cost r) (root_port r)
    (topology_change_detected r) (topology_change r) (hello_timer r) (tcn_timer r)
    (topology_change_timer r) (ports r) (fdb_needs_flush r) (first_changed_port r) (sent r).
Definition with_designated_root (v : Z) (r : stp) : stp :=
  MkStp (name r) (bridge_id r) (max_age r) (hello_time r) (forward_delay r) (bridge_max_age r)
    (bridge_hello_time r) (bridge_forward_delay r) (rq_max_age r) (rq_hello_time r)
    (rq_forward_delay r) (elapsed_remainder r) v (root_path_cost r) (root_port r)
    (topology_change_detected r) (topology_change r) (hello_timer r) (tcn_timer r)
    (topology_change_timer r) (ports r) (fdb_needs_flush r) (first_changed_port r) (sent r).
Definition with_root_path_cost (v : Z) (r : stp) : stp :=
  MkStp (name r) (bridge_id r) (max_age r) (hello_time r) (forward_delay r) (bridge_max_age r)
    (bridge_hello_time r) (bridge_forward_delay r) (rq_max_age r) (rq_hello_time r)
    (rq_forward_delay r) (elapsed_remainder r) (designated_root r) v (root_port r)
    (topology_change_detected r) (topology_change r) (hello_timer r) (tcn_timer r)
    (topology_change_timer r) (ports r) (fdb_needs_flush r) (first_changed_port r) (sent r).
Definition with_root_port (v : option port_no) (r : stp) : stp :=
  MkStp (name r) (bridge_id r) (max_age r) (hello_time r) (forward_delay r) (bridge_max_age r)
    (bridge_hello_time r) (bridge_forward_delay r) (rq_max_age r) (rq_hello_time r)
    (rq_forward_delay r) (elapsed_remainder r) (designated_root r) (root_path_cost r) v
    (topology_change_detected r) (topology_change r) (hello_timer r) (tcn_timer r)
    (topology_change_timer r) (ports r) (fdb_needs_flush r) (first_changed_port r) (sent r).
Definition with_topology_change_detected (v : bool) (r : stp) : stp :=
  MkStp (name r) (bridge_id r) (max_age r) (hello_time r) (forward_delay r) (bridge_max_age r)
    (bridge_hello_time r) (bridge_forward_delay r) (rq_max_age r) (rq_hello_time r)
    (rq_forward_delay r) (elapsed_remainder r) (designated_root r) (root_path_cost r)
    (root_port r) v (topology_change r) (hello_timer r) (tcn_timer r) (topology_change_timer r)
    (ports r) (fdb_needs_flush r) (first_changed_port r) (sent r).
Definition with_topology_change (v : bool) (r : stp) : stp :=
  MkStp (name r) (bridge_id r) (max_age r) (hello_time r) (forward_delay r) (bridge_max_age r)
    (bridge_hello_time r) (bridge_forward_delay r) (rq_max_age r) (rq_hello_time r)
    (rq_forward_delay r) (elapsed_remainder r) (designated_root r) (root_path_cost r)
    (root_port r) (topology_change_detected r) v (hello_timer r) (tcn_timer r)
    (topology_change_timer r) (ports r) (fdb_needs_flush r) (first_changed_port r) (sent r).
Definition with_hello_timer (v : stp_timer) (r : stp) : stp :=
  MkStp (name r) (bridge_id r) (max_age r) (hello_time r) (forward_delay r) (bridge_max_age r)
    (bridge_hello_time r) (bridge_forward_delay r) (rq_max_age r) (rq_hello_time r)
    (rq_forward_delay r) (elapsed_remainder r) (designated_root r) (root_path_cost r)
    (root_port r) (topology_change_detected r) (topology_change r) v (tcn_timer r)
    (topology_change_timer r) (ports r) (fdb_needs_flush r) (first_changed_port r) (sent r).
Definition with_tcn_timer (v : stp_timer) (r : stp) : stp :=
  MkStp (name r) (bridge_id r) (max_age r) (hello_time r) (forward_delay r) (bridge_max_age r)
    (bridge_hello_time r) (bridge_forward_delay r) (rq_max_age r) (rq_hello_time r)
    (rq_forward_delay r) (elapsed_remainder r) (designated_root r) (root_path_cost r)
    (root_port r) (topology_change_detected r) (topology_change r) (hello_timer r) v
    (topology_change_timer r) (ports r) (fdb_needs_flush r) (first_changed_port r) (sent r).
Definition with_topology_change_timer (v : stp_timer) (r : stp) : stp :=
  MkStp (name r) (bridge_id r) (max_age r) (hello_time r) (forward_delay r) (bridge_max_age r)
    (bridge_hello_time r) (bridge_forward_delay r) (rq_max_age r) (rq_hello_time r)
    (rq_forward_delay r) (elapsed_remainder r) (designated_root r) (root_path_cost r)
    (root_port r) (topology_change_detected r) (topology_change r) (hello_timer r) (tcn_timer r)
    v (ports r) (fdb_needs_flush r) (first_changed_port r) (sent r).
Definition with_ports (v : vec stp_port STP_MAX_PORTS) (r : stp) : stp :=
  MkStp (name r) (bridge_id r) (max_age r) (hello_time r) (forward_delay r) (bridge_max_age r)
    (bridge_hello_time r) (bridge_forward_delay r) (rq_max_age r) (rq_hello_time r)
    (rq_forward_delay r) (elapsed_remainder r) (designated_root r) (root_path_cost r)
    (root_port r) (topology_change_detected r) (topology_change r) (hello_timer r) (tcn_timer r)
    (topology_change_timer r) v (fdb_needs_flush r) (first_changed_port r) (sent r).
Definition with_fdb_needs_flush (v : bool) (r : stp) : stp :=
  MkStp (name r) (bridge_id r) (max_age r) (hello_time r) (forward_delay r) (bridge_max_age r)
    (bridge_hello_time r) (bridge_forward_delay r) (rq_max_age r) (rq_hello_time r)
    (rq_forward_delay r) (elapsed_remainder r) (designated_root r) (root_path_cost r)
    (root_port r) (topology_change_detected r) (topology_change r) (hello_timer r) (tcn_timer r)
    (topology_change_timer r) (ports r) v (first_changed_port r) (sent r).
Definition with_first_changed_port (v : nat) (r : stp) : stp :=
  MkStp (name r) (bridge_id r) (max_age r) (hello_time r) (forward_delay r) (bridge_max_age r)
    (bridge_hello_time r) (bridge_forward_delay r) (rq_max_age r) (rq_hello_time r)
    (rq_forward_delay r) (elapsed_remainder r) (designated_root r) (root_path_cost r)
    (root_port r) (topology_change_detected r) (topology_change r) (hello_timer r) (tcn_timer r)
    (topology_change_timer r) (ports r) (fdb_needs_flush r) v (sent r).
Definition with_sent (v : list (port_no * list Z)) (r : stp) : stp :=
  MkStp (name r) (bridge_id r) (max_age r) (hello_time r) (forward_delay r) (bridge_max_age r)
    (bridge_hello_time r) (bridge_forward_delay r) (rq_max_age r) (rq_hello_time r)
    (rq_forward_delay r) (elapsed_remainder r) (designated_root r) (root_path_cost r)
    (root_port r) (topology_change_detected r) (topology_change r) (hello_timer r) (tcn_timer r)
    (topology_change_timer r) (ports r) (fdb_needs_flush r) (first_changed_port r) v.

Definition port (s : stp) (p : port_no) : stp_port := ports s !!! p.

(** Assignment to members of port [p]. *)
Definition upd_port (p : port_no) (f : stp_port -> stp_port) (s : stp) : stp :=
  with_ports (vinsert p (f (port s p)) (ports s)) s.

(** ** BPDUs *)

(** [struct stp_config_bpdu], its members in host byte order. *)
Record stp_config_bpdu := MkConfig {
  c_protocol_id : Z;
  c_protocol_version : Z;
  c_bpdu_type : Z;
  c_flags : Z;
  c_root_id : Z;
  c_root_path_cost : Z;
  c_bridge_id : Z;
  c_port_id : Z;
  c_message_age : Z;
  c_max_age : Z;
  c_hello_time : Z;
  c_forward_delay : Z
}.

(** The packed structure in network byte order, 35 bytes. *)
Definition config_bytes (c : stp_config_bpdu) : list Z :=
  be_bytes 2 (c_protocol_id c) ++ be_bytes 1 (c_protocol_version c) ++ be_bytes 1 (c_bpdu_type c)
  ++ be_bytes 1 (c_flags c) ++ be_bytes 8 (c_root_id c) ++ be_bytes 4 (c_root_path_cost c)
  ++ be_bytes 8 (c_bridge_id c) ++ be_bytes 2 (c_port_id c) ++ be_bytes 2 (c_message_age c)
  ++ be_bytes 2 (c_max_age c) ++ be_bytes 2 (c_hello_time c) ++ be_bytes 2 (c_forward_delay c).

(** Member of [n] bytes at offset [off]. *)
Definition be_field (off n : nat) (l : list Z) : Z := be_value (take n (drop off l)).

Definition config_of_bytes (l : list Z) : stp_config_bpdu :=
  {| c_protocol_id := be_field 0 2 l;
     c_protocol_version := be_field 2 1 l;
     c_bpdu_type := be_field 3 1 l;
     c_flags := be_field 4 1 l;
     c_root_id := be_field 5 8 l;
     c_root_path_cost := be_field 13 4 l;
     c_bridge_id := be_field 17 8 l;
     c_port_id := be_field 25 2 l;
     c_message_age := be_field 27 2 l;
     c_max_age := be_field 29 2 l;
     c_hello_time := be_field 31 2 l;
     c_forward_delay := be_field 33 2 l |}.

Definition tcn_bytes : list Z :=
  be_bytes 2 STP_PROTOCOL_ID ++ [STP_PROTOCOL_VERSION; STP_TYPE_TCN].

(** The frame that stp_send_bpdu builds around a BPDU: destination, zero source, length,
    LLC header. *)
Definition stp_frame (bpdu : list Z) : list Z :=
  eth_addr_stp ++ replicate 6 0 ++ be_bytes 2 (3 + Z.of_nat (length bpdu))
  ++ [STP_LLC_DSAP; STP_LLC_SSAP; STP_LLC_CNTL] ++ bpdu.
