(* ===== verification/Stp.v ===== *)
(** * Spanning tree operations (lib/stp.c)

    The bridge is passed as a value; an operation on a port takes its index [p].  Calls of
    the client's send_bpdu are recorded, in order, in [sent].  FOR_EACH_ENABLED_PORT visits
    the ports in index order and looks at a port's state when it reaches the port. *)
From stdpp Require Import finite.
From S2P Require Import Prelude StpData.

Local Open Scope Z_scope.

(** ** The loop over enabled ports *)

Definition enabled (s : stp) (p : port_no) : bool := negb (p_state (port s p) =? STP_DISABLED).

(** stp_next_enabled_port from index [k]. *)
Definition stp_next_enabled_port (s : stp) (k : nat) : option port_no :=
  find_first (fun p : port_no => (k <=? p)%nat && enabled s p) (enum port_no).

Definition for_each_enabled_port (body : port_no -> stp -> stp) (s : stp) : stp :=
  fold_left (fun s p => if enabled s p then body p s else s) (enum port_no) s.

(** ** Predicates *)

Definition stp_is_root_bridge (s : stp) : bool := bridge_id s =? designated_root s.

Definition stp_is_designated_port (s : stp) (p : port_no) : bool :=
  (p_designated_bridge (port s p) =? bridge_id s)
  && (p_designated_port (port s p) =? p_port_id (port s p)).

Definition stp_is_designated_for_some_port (s : stp) : bool :=
  existsb (fun p => enabled s p && (p_designated_bridge (port s p) =? bridge_id s)) (enum port_no).

Definition stp_supersedes_port_info (s : stp) (p : port_no) (config : stp_config_bpdu) : bool :=
  let q := port s p in
  if negb (c_root_id config =? p_designated_root q) then c_root_id config <? p_designated_root q
  else if negb (c_root_path_cost config =? u32 (p_designated_cost q)) then
    c_root_path_cost config <? u32 (p_designated_cost q)
  else if negb (c_bridge_id config =? p_designated_bridge q) then
    c_bridge_id config <? p_designated_bridge q
  else negb (c_bridge_id config =? bridge_id s) || (c_port_id config <=? p_designated_port q).

Definition stp_supersedes_root (s : stp) (root p : port_no) : bool :=
  let r := port s root in let q := port s p in
  let p_cost := s32 (p_designated_cost q + p_path_cost q) in
  let root_cost := s32 (p_designated_cost r + p_path_cost r) in
  if negb (p_designated_root q =? p_designated_root r) then p_designated_root q <? p_designated_root r
  else if negb (p_cost =? root_cost) then p_cost <? root_cost
  else if negb (p_designated_bridge q =? p_designated_bridge r) then
    p_designated_bridge q <? p_designated_bridge r
  else if negb (p_designated_port q =? p_designated_port r) then
    p_designated_port q <? p_designated_port r
  else p_port_id q <? p_port_id r.

(** ** Transmission *)

Definition stp_send_bpdu (p : port_no) (bpdu : list Z) (s : stp) : stp :=
  let s := with_sent (sent s ++ [(p, stp_frame bpdu)]) s in
  upd_port p (fun q => with_p_tx_count (p_tx_count q + 1) q) s.

(** The BPDU that stp_transmit_config fills in. *)
Definition config_of (s : stp) (p : port_no) : stp_config_bpdu :=
  {| c_protocol_id := STP_PROTOCOL_ID;
     c_protocol_version := STP_PROTOCOL_VERSION;
     c_bpdu_type := STP_TYPE_CONFIG;
     c_flags := Z.lor (if p_topology_change_ack (port s p) then STP_CONFIG_TOPOLOGY_CHANGE_ACK else 0)
                      (if topology_change s then STP_CONFIG_TOPOLOGY_CHANGE else 0);
     c_root_id := designated_root s;
     c_root_path_cost := root_path_cost s;
     c_bridge_id := bridge_id s;
     c_port_id := u16 (p_port_id (port s p));
     c_message_age :=
       if stp_is_root_bridge s then 0
       else match root_port s with
            | Some r => u16 (t_value (p_message_age_timer (port s r)) + MESSAGE_AGE_INCREMENT)
            | None => 0
            end;
     c_max_age := u16 (max_age s);
     c_hello_time := u16 (hello_time s);
     c_forward_delay := u16 (forward_delay s) |}.

Definition stp_transmit_config (p : port_no) (s : stp) : stp :=
  if negb (stp_is_root_bridge s) && bool_decide (root_port s = None) then s
  else if t_active (p_hold_timer (port s p)) then upd_port p (with_p_config_pending true) s
  else
    let config := config_of s p in
    if c_message_age config <? max_age s then
      let s := upd_port p (fun q => with_p_config_pending false (with_p_topology_change_ack false q)) s in
      let s := stp_send_bpdu p (config_bytes config) s in
      upd_port p (fun q => with_p_hold_timer (stp_start_timer 0 (p_hold_timer q)) q) s
    else s.

Definition stp_config_bpdu_generation (s : stp) : stp :=
  for_each_enabled_port (fun p s =>
    if stp_is_designated_port s p then stp_transmit_config p s else s) s.

Definition stp_transmit_tcn (s : stp) : stp :=
  match root_port s with
  | None => s
  | Some p => stp_send_bpdu p tcn_bytes s
  end.

(** ** Configuration update *)

(** One iteration of stp_root_selection; the candidate is the loop's [root]. *)
Definition root_step (s : stp) (root : option port_no) (p : port_no) : option port_no :=
  if negb (enabled s p) then root
  else if stp_is_designated_port s p || (bridge_id s <=? p_designated_root (port s p)) then root
  else match root with
       | Some r => if stp_supersedes_root s r p then Some p else root
       | None => Some p
       end.

Definition stp_root_selection (s : stp) : stp :=
  let root := fold_left (root_step s) (enum port_no) None in
  let s := with_root_port root s in
  match root with
  | None => with_root_path_cost 0 (with_designated_root (bridge_id s) s)
  | Some r =>
      with_root_path_cost (u32 (p_designated_cost (port s r) + p_path_cost (port s r)))
        (with_designated_root (p_designated_root (port s r)) s)
  end.

Definition stp_become_designated_port (p : port_no) (s : stp) : stp :=
  upd_port p (fun q =>
    with_p_designated_port (p_port_id q)
      (with_p_designated_bridge (bridge_id s)
        (with_p_designated_cost (s32 (root_path_cost s))
          (with_p_designated_root (designated_root s) q)))) s.

Definition stp_designated_port_selection (s : stp) : stp :=
  for_each_enabled_port (fun p s =>
    let q := port s p in
    if stp_is_designated_port s p
       || negb (p_designated_root q =? designated_root s)
       || (root_path_cost s <? u32 (p_designated_cost q))
       || ((root_path_cost s =? u32 (p_designated_cost q))
           && ((bridge_id s <? p_designated_bridge q)
               || ((bridge_id s =? p_designated_bridge q) && (p_port_id q <=? p_designated_port q))))
    then stp_become_designated_port p s else s) s.

Definition stp_configuration_update (s : stp) : stp :=
  stp_designated_port_selection (stp_root_selection s).

(** ** Port states *)

Definition stp_set_port_state (p : port_no) (state : Z) (s : stp) : stp :=
  let s :=
    if negb (state =? p_state (port s p)) && negb (p_state_changed (port s p)) then
      let s := upd_port p (with_p_state_changed true) s in
      if (p <? first_changed_port s)%nat then with_first_changed_port (fin_to_nat p) s else s
    else s in
  upd_port p (with_p_state state) s.

Definition stp_topology_change_detection (s : stp) : stp :=
  let s :=
    if stp_is_root_bridge s then
      let s := with_topology_change true s in
      with_topology_change_timer (stp_start_timer 0 (topology_change_timer s)) s
    else if negb (topology_change_detected s) then
      let s := stp_transmit_tcn s in
      with_tcn_timer (stp_start_timer 0 (tcn_timer s)) s
    else s in
  with_topology_change_detected true (with_fdb_needs_flush true s).

Definition stp_make_forwarding (p : port_no) (s : stp) : stp :=
  if p_state (port s p) =? STP_BLOCKING then
    let s := stp_set_port_state p STP_LISTENING s in
    upd_port p (fun q => with_p_forward_delay_timer (stp_start_timer 0 (p_forward_delay_timer q)) q) s
  else s.

Definition stp_make_blocking (p : port_no) (s : stp) : stp :=
  if Z.land (p_state (port s p)) (Z.lor STP_DISABLED STP_BLOCKING) =? 0 then
    let s :=
      if negb (Z.land (p_state (port s p)) (Z.lor STP_FORWARDING STP_LEARNING) =? 0) then
        if p_change_detection_enabled (port s p) then stp_topology_change_detection s else s
      else s in
    let s := stp_set_port_state p STP_BLOCKING s in
    upd_port p (fun q => with_p_forward_delay_timer (stp_stop_timer (p_forward_delay_timer q)) q) s
  else s.

Definition stp_port_state_selection (s : stp) : stp :=
  for_each_enabled_port (fun p s =>
    if bool_decide (root_port s = Some p) then
      let s := upd_port p (fun q => with_p_topology_change_ack false (with_p_config_pending false q)) s in
      stp_make_forwarding p s
    else if stp_is_designated_port s p then
      let s := upd_port p (fun q => with_p_message_age_timer (stp_stop_timer (p_message_age_timer q)) q) s in
      stp_make_forwarding p s
    else
      let s := upd_port p (fun q => with_p_topology_change_ack false (with_p_config_pending false q)) s in
      stp_make_blocking p s) s.

(** ** Received BPDUs *)

Definition stp_record_config_information (p : port_no) (config : stp_config_bpdu) (s : stp) : stp :=
  upd_port p (fun q =>
    with_p_message_age_timer (stp_start_timer (c_message_age config) (p_message_age_timer q))
      (with_p_designated_port (c_port_id config)
        (with_p_designated_bridge (c_bridge_id config)
          (with_p_designated_cost (s32 (c_root_path_cost config))
            (with_p_designated_root (c_root_id config) q))))) s.

Definition stp_record_config_timeout_values (config : stp_config_bpdu) (s : stp) : stp :=
  with_topology_change (negb (Z.land (c_flags config) STP_CONFIG_TOPOLOGY_CHANGE =? 0))
    (with_forward_delay (c_forward_delay config)
      (with_hello_time (c_hello_time config)
        (with_max_age (c_max_age config) s))).

Definition stp_topology_change_acknowledged (s : stp) : stp :=
  let s := with_topology_change_detected false s in
  with_tcn_timer (stp_stop_timer (tcn_timer s)) s.

Definition stp_acknowledge_topology_change (p : port_no) (s : stp) : stp :=
  stp_transmit_config p (upd_port p (with_p_topology_change_ack true) s).

Definition stp_received_config_bpdu (p : port_no) (config : stp_config_bpdu) (s : stp) : stp :=
  if c_max_age config <=? c_message_age config then s
  else if negb (p_state (port s p) =? STP_DISABLED) then
    let root := stp_is_root_bridge s in
    if stp_supersedes_port_info s p config then
      let s := stp_record_config_information p config s in
      let s := stp_configuration_update s in
      let s := stp_port_state_selection s in
      let s :=
        if negb (stp_is_root_bridge s) && root then
          let s := with_hello_timer (stp_stop_timer (hello_timer s)) s in
          if topology_change_detected s then
            let s := with_topology_change_timer (stp_stop_timer (topology_change_timer s)) s in
            let s := stp_transmit_tcn s in
            with_tcn_timer (stp_start_timer 0 (tcn_timer s)) s
          else s
        else s in
      if bool_decide (root_port s = Some p) then
        let s := stp_record_config_timeout_values config s in
        let s := stp_config_bpdu_generation s in
        let s :=
          if negb (Z.land (c_flags config) STP_CONFIG_TOPOLOGY_CHANGE_ACK =? 0)
          then stp_topology_change_acknowledged s else s in
        if negb (Z.land (c_flags config) STP_CONFIG_TOPOLOGY_CHANGE =? 0)
        then with_fdb_needs_flush true s else s
      else s
    else if stp_is_designated_port s p then stp_transmit_config p s
    else s
  else s.

Definition stp_received_tcn_bpdu (p : port_no) (s : stp) : stp :=
  if negb (p_state (port s p) =? STP_DISABLED) then
    if stp_is_designated_port s p then
      stp_acknowledge_topology_change p (stp_topology_change_detection s)
    else s
  else s.

Definition bpdu_error (p : port_no) : stp -> stp :=
  upd_port p (fun q => with_p_error_count (p_error_count q + 1) q).

Definition stp_received_bpdu (p : port_no) (bpdu : list Z) (s : stp) : stp :=
  let bpdu_size := Z.of_nat (length bpdu) in
  if p_state (port s p) =? STP_DISABLED then s
  else if bpdu_size <? 4 then bpdu_error p s
  else if negb (be_field 0 2 bpdu =? STP_PROTOCOL_ID) then bpdu_error p s
  else
    let bpdu_type := be_field 3 1 bpdu in
    let count s := upd_port p (fun q => with_p_rx_count (p_rx_count q + 1) q) s in
    if bpdu_type =? STP_TYPE_CONFIG then
      if bpdu_size <? 35 then bpdu_error p s
      else count (stp_received_config_bpdu p (config_of_bytes bpdu) s)
    else if bpdu_type =? STP_TYPE_TCN then
      if negb (bpdu_size =? 4) then bpdu_error p s
      else count (stp_received_tcn_bpdu p s)
    else bpdu_error p s.

(** ** Timer expiry *)

Definition stp_hello_timer_expiry (s : stp) : stp :=
  let s := stp_config_bpdu_generation s in
  with_hello_timer (stp_start_timer 0 (hello_timer s)) s.

Definition stp_become_root_bridge (s : stp) : stp :=
  let s := with_forward_delay (bridge_forward_delay s)
             (with_hello_time (bridge_hello_time s) (with_max_age (bridge_max_age s) s)) in
  let s := stp_topology_change_detection s in
  let s := with_tcn_timer (stp_stop_timer (tcn_timer s)) s in
  let s := stp_config_bpdu_generation s in
  with_hello_timer (stp_start_timer 0 (hello_timer s)) s.

(** The code repeats the body of stp_become_root_bridge. *)
Definition stp_message_age_timer_expiry (p : port_no) (s : stp) : stp :=
  let root := stp_is_root_bridge s in
  let s := stp_become_designated_port p s in
  let s := stp_configuration_update s in
  let s := stp_port_state_selection s in
  if stp_is_root_bridge s && negb root then
    let s := with_forward_delay (bridge_forward_delay s)
               (with_hello_time (bridge_hello_time s) (with_max_age (bridge_max_age s) s)) in
    let s := stp_topology_change_detection s in
    let s := with_tcn_timer (stp_stop_timer (tcn_timer s)) s in
    let s := stp_config_bpdu_generation s in
    with_hello_timer (stp_start_timer 0 (hello_timer s)) s
  else s.

Definition stp_forward_delay_timer_expiry (p : port_no) (s : stp) : stp :=
  if p_state (port s p) =? STP_LISTENING then
    let s := stp_set_port_state p STP_LEARNING s in
    upd_port p (fun q => with_p_forward_delay_timer (stp_start_timer 0 (p_forward_delay_timer q)) q) s
  else if p_state (port s p) =? STP_LEARNING then
    let s := stp_set_port_state p STP_FORWARDING s in
    if stp_is_designated_for_some_port s then
      if p_change_detection_enabled (port s p) then stp_topology_change_detection s else s
    else s
  else s.

Definition stp_tcn_timer_expiry (s : stp) : stp :=
  let s := stp_transmit_tcn s in
  with_tcn_timer (stp_start_timer 0 (tcn_timer s)) s.

Definition stp_topology_change_timer_expiry (s : stp) : stp :=
  with_topology_change false (with_topology_change_detected false s).

Definition stp_hold_timer_expiry (p : port_no) (s : stp) : stp :=
  if p_config_pending (port s p) then stp_transmit_config p s else s.

(** Ticks that [ms] more milliseconds make, and the milliseconds left over. *)
Definition tick_elapsed (ms remainder : Z) : Z * Z :=
  let ms := clamp ms 0 (INT_MAX - 1000) + remainder in
  let elapsed := ms_to_timer ms in
  (elapsed, ms - timer_to_ms elapsed).

Definition age_step (elapsed : Z) (p : port_no) (s : stp) : stp :=
  let (t, e) := stp_timer_expired (p_message_age_timer (port s p)) elapsed (max_age s) in
  let s := upd_port p (with_p_message_age_timer t) s in
  if e then stp_message_age_timer_expiry p s else s.

Definition delay_step (elapsed : Z) (p : port_no) (s : stp) : stp :=
  let (t, e) := stp_timer_expired (p_forward_delay_timer (port s p)) elapsed (forward_delay s) in
  let s := upd_port p (with_p_forward_delay_timer t) s in
  let s := if e then stp_forward_delay_timer_expiry p s else s in
  let (t, e) := stp_timer_expired (p_hold_timer (port s p)) elapsed (ms_to_timer 1000) in
  let s := upd_port p (with_p_hold_timer t) s in
  if e then stp_hold_timer_expiry p s else s.

Definition stp_tick (ms : Z) (s : stp) : stp :=
  let (elapsed, remainder) := tick_elapsed ms (elapsed_remainder s) in
  let s := with_elapsed_remainder remainder s in
  if elapsed =? 0 then s
  else
    let (t, e) := stp_timer_expired (hello_timer s) elapsed (hello_time s) in
    let s := with_hello_timer t s in
    let s := if e then stp_hello_timer_expiry s else s in
    let (t, e) := stp_timer_expired (tcn_timer s) elapsed (bridge_hello_time s) in
    let s := with_tcn_timer t s in
    let s := if e then stp_tcn_timer_expiry s else s in
    let (t, e) := stp_timer_expired (topology_change_timer s) elapsed (max_age s + forward_delay s) in
    let s := with_topology_change_timer t s in
    let s := if e then stp_topology_change_timer_expiry s else s in
    let s := for_each_enabled_port (age_step elapsed) s in
    for_each_enabled_port (delay_step elapsed) s.

(** ** Creation and configuration *)

Definition stp_initialize_port (p : port_no) (state : Z) (s : stp) : outcome stp :=
  if Z.land state (Z.lor STP_DISABLED STP_BLOCKING) =? 0 then Stuck AssertFail
  else
    let s := stp_become_designated_port p s in
    let s := stp_set_port_state p state s in
    Ret (upd_port p (fun q =>
      with_p_error_count 0 (with_p_rx_count 0 (with_p_tx_count 0
        (with_p_hold_timer (stp_stop_timer (p_hold_timer q))
          (with_p_forward_delay_timer (stp_stop_timer (p_forward_delay_timer q))
            (with_p_message_age_timer (stp_stop_timer (p_message_age_timer q))
              (with_p_aux 0 (with_p_change_detection_enabled true
                (with_p_config_pending false (with_p_topology_change_ack false q)))))))))) s).

Definition stp_update_bridge_timers (s : stp) : stp :=
  let ht := clamp (rq_hello_time s) 1000 10000 in
  let ma := clamp (rq_max_age s) (Z.max (2 * (ht + 1000)) 6000) 40000 in
  let fd := clamp (rq_forward_delay s) (Z.quot ma 2 + 1000) 30000 in
  let s := with_bridge_hello_time (ms_to_timer ht) s in
  let s := with_bridge_max_age (ms_to_timer ma) s in
  let s := with_bridge_forward_delay (ms_to_timer fd) s in
  if stp_is_root_bridge s then
    with_forward_delay (bridge_forward_delay s)
      (with_hello_time (bridge_hello_time s) (with_max_age (bridge_max_age s) s))
  else s.

(** What xzalloc returns. *)
Definition zero_timer : stp_timer := MkTimer false 0.
Definition zero_port : stp_port :=
  MkPort 0 0 0 0 0 0 0 0 false false false zero_timer zero_timer zero_timer 0 0 0 false.
Definition zero_stp : stp :=
  MkStp "" 0 0 0 0 0 0 0 0 0 0 0 0 0 None false false zero_timer zero_timer zero_timer
    (vreplicate STP_MAX_PORTS zero_port) false 0 [].

(** The loop over the ports in stp_create. *)
Definition create_ports (s : stp) : outcome stp :=
  fold_left (fun o (p : port_no) =>
    s ← o;
    let s := upd_port p (fun q =>
      with_p_path_cost 19
        (with_p_port_id (Z.lor (Z.of_nat p + 1) (Z.shiftl STP_DEFAULT_PORT_PRIORITY 8)) q)) s in
    stp_initialize_port p STP_DISABLED s) (enum port_no) (Ret s).

(** stp_create up to the loop over the ports. *)
Definition create_base (nm : string) (id : Z) : stp :=
  let s := with_name nm zero_stp in
  let s := with_bridge_id
    (if Z.shiftr id 48 =? 0 then Z.lor id (Z.shiftl STP_DEFAULT_BRIDGE_PRIORITY 48) else id) s in
  let s := with_rq_forward_delay STP_DEFAULT_FWD_DELAY
             (with_rq_hello_time STP_DEFAULT_HELLO_TIME (with_rq_max_age STP_DEFAULT_MAX_AGE s)) in
  let s := stp_update_bridge_timers s in
  let s := with_forward_delay (bridge_forward_delay s)
             (with_hello_time (bridge_hello_time s) (with_max_age (bridge_max_age s) s)) in
  let s := with_root_port None (with_root_path_cost 0 (with_designated_root (bridge_id s) s)) in
  let s := with_topology_change false (with_topology_change_detected false s) in
  let s := with_tcn_timer (stp_stop_timer (tcn_timer s)) s in
  let s := with_topology_change_timer (stp_stop_timer (topology_change_timer s)) s in
  let s := with_hello_timer (stp_start_timer 0 (hello_timer s)) s in
  with_first_changed_port STP_MAX_PORTS s.

Definition stp_create (nm : string) (id : Z) : outcome stp := create_ports (create_base nm id).

Definition set_bridge_id (new_bridge_id : Z) (s : stp) : stp :=
  if negb (new_bridge_id =? bridge_id s) then
    let root := stp_is_root_bridge s in
    let s := for_each_enabled_port (fun p s =>
      if stp_is_designated_port s p then upd_port p (with_p_designated_bridge new_bridge_id) s else s) s in
    let s := with_bridge_id new_bridge_id s in
    let s := stp_configuration_update s in
    let s := stp_port_state_selection s in
    if stp_is_root_bridge s && negb root then stp_become_root_bridge s else s
  else s.

Definition mac_bits : Z := Z.shiftl 1 48 - 1.

Definition stp_set_bridge_id (id : Z) (s : stp) : stp :=
  set_bridge_id (Z.lor (Z.land (bridge_id s) (u64 (Z.lnot mac_bits))) (Z.land id mac_bits)) s.

Definition stp_set_bridge_priority (new_priority : Z) (s : stp) : stp :=
  set_bridge_id (Z.lor (Z.land (bridge_id s) mac_bits) (Z.shiftl new_priority 48)) s.

Definition stp_set_hello_time (ms : Z) (s : stp) : stp :=
  stp_update_bridge_timers (with_rq_hello_time ms s).
Definition stp_set_max_age (ms : Z) (s : stp) : stp :=
  stp_update_bridge_timers (with_rq_max_age ms s).
Definition stp_set_forward_delay (ms : Z) (s : stp) : stp :=
  stp_update_bridge_timers (with_rq_forward_delay ms s).

(** ** Queries *)

Definition stp_get_name (s : stp) : string := name s.
Definition stp_get_bridge_id (s : stp) : Z := bridge_id s.
Definition stp_get_designated_root (s : stp) : Z := designated_root s.
Definition stp_get_root_path_cost (s : stp) : Z := s32 (root_path_cost s).
Definition stp_get_hello_time (s : stp) : Z := timer_to_ms (bridge_hello_time s).
Definition stp_get_max_age (s : stp) : Z := timer_to_ms (bridge_max_age s).
Definition stp_get_forward_delay (s : stp) : Z := timer_to_ms (bridge_forward_delay s).
Definition stp_get_root_port (s : stp) : option port_no := root_port s.

Definition stp_check_and_reset_fdb_flush (s : stp) : bool * stp :=
  (fdb_needs_flush s, with_fdb_needs_flush false s).

(** stp_get_port: the array index of a port number that passes the assertion. *)
Definition stp_get_port (n : Z) : outcome port_no :=
  match decide (0 <= n /\ (Z.to_nat n < STP_MAX_PORTS)%nat) with
  | left H => Ret (nat_to_fin (proj2 H))
  | right _ => Stuck AssertFail
  end.

Definition stp_port_no (p : port_no) : Z := Z.of_nat p.
Definition stp_port_get_aux (s : stp) (p : port_no) : Z := p_aux (port s p).
Definition stp_port_set_aux (p : port_no) (aux : Z) (s : stp) : stp := upd_port p (with_p_aux aux) s.
Definition stp_port_get_id (s : stp) (p : port_no) : Z := p_port_id (port s p).
Definition stp_port_get_state (s : stp) (p : port_no) : Z := p_state (port s p).
Definition stp_port_get_counts (s : stp) (p : port_no) : Z * Z * Z :=
  (p_tx_count (port s p), p_rx_count (port s p), p_error_count (port s p)).

Definition stp_port_get_role (s : stp) (p : port_no) : stp_role :=
  if match stp_get_root_port s with
     | Some r => p_port_id (port s r) =? p_port_id (port s p)
     | None => false
     end then STP_ROLE_ROOT
  else if stp_is_designated_port s p then STP_ROLE_DESIGNATED
  else if p_state (port s p) =? STP_DISABLED then STP_ROLE_DISABLED
  else STP_ROLE_ALTERNATE.

(** stp_get_changed_port: the port stored in [*portp], if any. *)
Definition stp_get_changed_port (s : stp) : option port_no * stp :=
  match find_first (fun p : port_no => (first_changed_port s <=? p)%nat && p_state_changed (port s p))
          (enum port_no) with
  | Some p =>
      let s := upd_port p (with_p_state_changed false) s in
      (Some p, with_first_changed_port (S p) s)
  | None => (None, with_first_changed_port STP_MAX_PORTS s)
  end.

(** ** Ports *)

Definition stp_port_disable (p : port_no) (s : stp) : stp :=
  if negb (p_state (port s p) =? STP_DISABLED) then
    let root := stp_is_root_bridge s in
    let s := stp_become_designated_port p s in
    let s := stp_set_port_state p STP_DISABLED s in
    let s := upd_port p (fun q =>
      with_p_forward_delay_timer (stp_stop_timer (p_forward_delay_timer q))
        (with_p_message_age_timer (stp_stop_timer (p_message_age_timer q))
          (with_p_config_pending false (with_p_topology_change_ack false q)))) s in
    let s := stp_configuration_update s in
    let s := stp_port_state_selection s in
    let s := if stp_is_root_bridge s && negb root then stp_become_root_bridge s else s in
    upd_port p (with_p_aux 0) s
  else s.

Definition stp_port_enable (p : port_no) (s : stp) : outcome stp :=
  if p_state (port s p) =? STP_DISABLED then
    stp_port_state_selection <$> stp_initialize_port p STP_BLOCKING s
  else Ret s.

Definition stp_port_set_priority (p : port_no) (new_priority : Z) (s : stp) : stp :=
  let new_port_id := u16 (Z.lor (Z.land (p_port_id (port s p)) 255) (Z.shiftl new_priority 8)) in
  if negb (p_port_id (port s p) =? new_port_id) then
    let s := if stp_is_designated_port s p then upd_port p (with_p_designated_port new_port_id) s else s in
    let s := upd_port p (with_p_port_id new_port_id) s in
    if (bridge_id s =? p_designated_bridge (port s p))
       && (p_port_id (port s p) <? p_designated_port (port s p))
    then stp_port_state_selection (stp_become_designated_port p s)
    else s
  else s.

Definition stp_port_set_path_cost (p : port_no) (path_cost : Z) (s : stp) : stp :=
  if negb (p_path_cost (port s p) =? path_cost) then
    let s := upd_port p (with_p_path_cost path_cost) s in
    stp_port_state_selection (stp_configuration_update s)
  else s.

Definition stp_port_set_speed (p : port_no) (speed : Z) (s : stp) : stp :=
  stp_port_set_path_cost p (stp_convert_speed_to_cost speed) s.

Definition stp_port_enable_change_detection (p : port_no) : stp -> stp :=
  upd_port p (with_p_change_detection_enabled true).
Definition stp_port_disable_change_detection (p : port_no) : stp -> stp :=
  upd_port p (with_p_change_detection_enabled false).

(** ** The list of instances and the stp/tcn command *)

Definition stp_find (nm : string) (all_stps : list stp) : option (nat * stp) :=
  find_pos (fun s => bool_decide (name s = nm)) all_stps.

(** [arg] is the optional bridge name; the result says whether the reply is OK. *)
Definition stp_unixctl_tcn (arg : option string) (all_stps : list stp) : bool * list stp :=
  match arg with
  | Some nm =>
      match stp_find nm all_stps with
      | Some (i, s) => (true, <[i := stp_topology_change_detection s]> all_stps)
      | None => (false, all_stps)
      end
  | None => (true, stp_topology_change_detection <$> all_stps)
  end.

(** ** Calls of a client *)

Inductive stp_call :=
  | Tick (ms : Z)
  | SetBridgeId (id : Z)
  | SetBridgePriority (new_priority : Z)
  | SetHelloTime (ms : Z)
  | SetMaxAge (ms : Z)
  | SetForwardDelay (ms : Z)
  | FdbFlush
  | GetChangedPort
  | ReceivedBpdu (p : port_no) (bpdu : list Z)
  | PortSetAux (p : port_no) (aux : Z)
  | PortDisable (p : port_no)
  | PortEnable (p : port_no)
  | PortSetPriority (p : port_no) (new_priority : Z)
  | PortSetPathCost (p : port_no) (path_cost : Z)
  | PortSetSpeed (p : port_no) (speed : Z)
  | PortChangeDetection (p : port_no) (on : bool)
  | UnixctlTcn.

Definition call (c : stp_call) (s : stp) : outcome stp :=
  match c with
  | Tick ms => Ret (stp_tick ms s)
  | SetBridgeId id => Ret (stp_set_bridge_id id s)
  | SetBridgePriority pri => Ret (stp_set_bridge_priority pri s)
  | SetHelloTime ms => Ret (stp_set_hello_time ms s)
  | SetMaxAge ms => Ret (stp_set_max_age ms s)
  | SetForwardDelay ms => Ret (stp_set_forward_delay ms s)
  | FdbFlush => Ret (stp_check_and_reset_fdb_flush s).2
  | GetChangedPort => Ret (stp_get_changed_port s).2
  | ReceivedBpdu p bpdu => Ret (stp_received_bpdu p bpdu s)
  | PortSetAux p aux => Ret (stp_port_set_aux p aux s)
  | PortDisable p => Ret (stp_port_disable p s)
  | PortEnable p => stp_port_enable p s
  | PortSetPriority p pri => Ret (stp_port_set_priority p pri s)
  | PortSetPathCost p c => Ret (stp_port_set_path_cost p c s)
  | PortSetSpeed p sp => Ret (stp_port_set_speed p sp s)
  | PortChangeDetection p true => Ret (stp_port_enable_change_detection p s)
  | PortChangeDetection p false => Ret (stp_port_disable_change_detection p s)
  | UnixctlTcn => Ret (stp_topology_change_detection s)
  end.

Fixpoint calls (cs : list stp_call) (s : stp) : outcome stp :=
  match cs with
  | [] => Ret s
  | c :: cs' => s' ← call c s; calls cs' s'
  end.
