(* ===== verification/StpRel.v ===== *)
(** * Reasoning about the spanning tree operations

    Most facts about lib/stp.c are of the form: a relation between the state before and
    after holds for every function, because it is reflexive, transitive and holds for the
    few places where the code writes the members the relation looks at.  [StpRel] lists
    those places; the derived lemmas carry any such relation through the composite
    functions. *)
From stdpp Require Import finite.
From S2P Require Import Prelude StpData Stp.

Local Open Scope Z_scope.

Create HintDb stp.

(** ** Ports *)

Lemma port_upd p f s q : port (upd_port p f s) q = if decide (p = q) then f (port s p) else port s q.
Proof.
  unfold port, upd_port. cbn [ports with_ports]. case_decide as E.
  - subst. apply vlookup_insert.
  - by apply vlookup_insert_ne.
Qed.

Lemma port_upd_eq p f s : port (upd_port p f s) p = f (port s p).
Proof. rewrite port_upd. by rewrite decide_True. Qed.

Lemma port_upd_ne p f s q : p <> q -> port (upd_port p f s) q = port s q.
Proof. intros. rewrite port_upd. by rewrite decide_False. Qed.

(** A member of a port that [f] leaves alone. *)
Lemma port_upd_get {A} (g : stp_port -> A) p f s q :
  (forall x, g (f x) = g x) -> g (port (upd_port p f s) q) = g (port s q).
Proof. intros H. rewrite port_upd. case_decide; [subst; apply H|done]. Qed.

Lemma send_get {A} (g : stp_port -> A) p bpdu s q :
  (forall v x, g (with_p_tx_count v x) = g x) -> g (port (stp_send_bpdu p bpdu s) q) = g (port s q).
Proof. intros H. unfold stp_send_bpdu. by rewrite (port_upd_get g). Qed.

#[export] Hint Rewrite port_upd_eq : stp.

(** ** Loops *)

Lemma for_each_ind (R : relation stp) `{!PreOrder R} body s :
  (forall p s, enabled s p = true -> R s (body p s)) -> R s (for_each_enabled_port body s).
Proof.
  intros Hb. unfold for_each_enabled_port. revert s.
  induction (enum port_no) as [|p l IH]; intros s; cbn [fold_left]; [done|].
  etransitivity; [|apply IH]. destruct (enabled s p) eqn:E; [auto|done].
Qed.

(** The loop visits every port once: what is before and after the visit of [i] are visits
    of other ports. *)
Lemma for_each_at (R : relation stp) `{!PreOrder R} body i s :
  (forall p s, p <> i -> enabled s p = true -> R s (body p s)) ->
  exists s1, R s s1 /\ R (if enabled s1 i then body i s1 else s1) (for_each_enabled_port body s).
Proof.
  intros Hb. unfold for_each_enabled_port.
  assert (forall l s, i ∉ l -> R s (fold_left (fun s p => if enabled s p then body p s else s) l s)) as Hl.
  { induction l as [|p l IH]; intros s0 Hi; cbn [fold_left]; [done|].
    apply not_elem_of_cons in Hi as [Hp Hi]. etransitivity; [|by apply IH].
    destruct (enabled s0 p) eqn:E; [by apply Hb|done]. }
  destruct (list_elem_of_split (enum port_no) i) as (l1 & l2 & E); [apply elem_of_enum|].
  pose proof (NoDup_enum port_no) as Hnd. rewrite E in Hnd |- *.
  apply NoDup_app in Hnd as (_ & H1 & H2). apply NoDup_cons in H2 as [H2 _].
  rewrite fold_left_app. cbn [fold_left]. eexists. split.
  - apply Hl. intros Hin. apply (H1 i Hin). by left.
  - by apply Hl.
Qed.

(** FOR_EACH_ENABLED_PORT as the code spells it: ask for the next enabled port from an
    index, run the body, and ask again from the index after it. *)
Fixpoint for_loop (fuel k : nat) (body : port_no -> stp -> stp) (s : stp) : option stp :=
  match fuel with
  | O => None
  | S fuel' =>
      match stp_next_enabled_port s k with
      | None => Some s
      | Some p => for_loop fuel' (S p) body (body p s)
      end
  end.

Lemma fin_enum_lookup n (p : fin n) : fin_enum n !! fin_to_nat p = Some p.
Proof.
  induction p as [n|n p IH]; [done|]. change (fin_enum (S n)) with (0%fin :: (FS <$> fin_enum n)).
  cbn [fin_to_nat]. rewrite lookup_cons_ne_0 by done. cbn [pred]. by rewrite list_lookup_fmap, IH.
Qed.

Lemma enum_port_lookup (p : port_no) : enum port_no !! fin_to_nat p = Some p.
Proof. apply fin_enum_lookup. Qed.

Lemma enum_port_lookup_inv k (p : port_no) : enum port_no !! k = Some p -> fin_to_nat p = k.
Proof.
  intros H. eapply NoDup_lookup; [apply (NoDup_enum port_no)|apply enum_port_lookup|done].
Qed.

(** The suffix of the port list from index [k]. *)
Definition ports_from (k : nat) : list port_no := drop k (enum port_no).

Lemma ports_from_cons k (p : port_no) l : ports_from k = p :: l -> fin_to_nat p = k /\ l = ports_from (S k).
Proof.
  intros E. assert (enum port_no !! k = Some p) as Hp.
  { rewrite <- (Nat.add_0_r k), <- lookup_drop. change (ports_from k !! 0%nat = Some p). by rewrite E. }
  split; [by apply enum_port_lookup_inv|].
  unfold ports_from in E. erewrite drop_S in E by exact Hp. exact (eq_sym (f_equal (@tail _) E)).
Qed.

Lemma find_from (f : port_no -> bool) k :
  find_first (fun p : port_no => (k <=? p)%nat && f p) (enum port_no) = find_first f (ports_from k).
Proof.
  unfold ports_from. rewrite <- (take_drop k (enum port_no)) at 1.
  assert (forall l1 l2, (forall p : port_no, p ∈ l1 -> (k <=? p)%nat && f p = false) ->
    (forall p : port_no, p ∈ l2 -> (k <=? p)%nat = true) ->
    find_first (fun p : port_no => (k <=? p)%nat && f p) (l1 ++ l2) = find_first f l2) as H.
  { induction l1 as [|p l1 IH]; intros l2 H1 H2; cbn [app find_first].
    - apply find_first_ext. intros p Hp. by rewrite (H2 p Hp).
    - rewrite (H1 p) by left. apply IH; [|done]. intros q Hq. apply H1. by right. }
  apply H; intros p Hp.
  - apply list_elem_of_lookup in Hp as [i Hi]. apply lookup_take_Some in Hi as [Hi Hk].
    apply enum_port_lookup_inv in Hi. destruct (Nat.leb_spec k p); [lia|done].
  - apply list_elem_of_lookup in Hp as [i Hi]. rewrite lookup_drop in Hi.
    apply enum_port_lookup_inv in Hi. apply Nat.leb_le. lia.
Qed.

Lemma next_from s k : stp_next_enabled_port s k = find_first (enabled s) (ports_from k).
Proof. apply find_from. Qed.

Lemma ports_from_ge k (p : port_no) : p ∈ ports_from k -> (k <= p)%nat.
Proof.
  intros Hp. apply list_elem_of_lookup in Hp as [i Hi]. unfold ports_from in Hi. rewrite lookup_drop in Hi.
  apply enum_port_lookup_inv in Hi. lia.
Qed.

Lemma ports_from_elem k (p : port_no) : (k <= p)%nat -> p ∈ ports_from k.
Proof.
  intros Hk. apply list_elem_of_lookup. exists (p - k)%nat. unfold ports_from. rewrite lookup_drop.
  replace (k + (p - k))%nat with (fin_to_nat p) by lia. apply enum_port_lookup.
Qed.

(** The first port from [k] that passes a test splits what passes it. *)
Lemma find_from_filter (f : port_no -> bool) k p :
  find_first f (ports_from k) = Some p ->
  filter (fun q => f q = true) (ports_from k) = p :: filter (fun q => f q = true) (ports_from (S p)).
Proof.
  remember (ports_from k) as l eqn:E. symmetry in E. revert k E.
  induction l as [|q l IH]; intros k E; cbn [find_first]; [done|].
  destruct (ports_from_cons _ _ _ E) as [Hq El]. destruct (f q) eqn:Ef.
  - intros [= <-]. rewrite filter_cons_True by done. by rewrite El, Hq.
  - intros H. rewrite filter_cons_False by (by rewrite Ef). by apply (IH (S k)).
Qed.

Lemma for_loop_from body l k s m :
  ports_from k = l -> (length l < m)%nat ->
  for_loop m k body s = Some (fold_left (fun s p => if enabled s p then body p s else s) l s).
Proof.
  revert k s m. induction l as [|p l IH]; intros k s [|m] E Hm; cbn [length] in Hm; try lia.
  { cbn [for_loop]. by rewrite next_from, E. }
  destruct (ports_from_cons _ _ _ E) as [Hp El]. cbn [fold_left]. destruct (enabled s p) eqn:Ep.
  - cbn [for_loop]. rewrite next_from, E. cbn [find_first]. rewrite Ep, Hp. apply IH; [done|lia].
  - rewrite <- (IH (S k) s (S m)) by (done || lia). cbn [for_loop]. rewrite !next_from, E, <- El.
    cbn [find_first]. by rewrite Ep.
Qed.

Lemma for_each_is_loop body s :
  for_loop 256 0 body s = Some (for_each_enabled_port body s).
Proof. by apply for_loop_from; [|vm_compute; lia]. Qed.

(** ** Relations kept by the operations *)

(** Same ports, output and view of the tree: only parameters, timers and flags of the
    bridge may differ. *)
Definition loose (s s' : stp) : Prop :=
  ports s' = ports s /\ sent s' = sent s /\ bridge_id s' = bridge_id s
  /\ designated_root s' = designated_root s /\ root_path_cost s' = root_path_cost s
  /\ root_port s' = root_port s /\ first_changed_port s' = first_changed_port s.

(** What the client has set, and the milliseconds left over from the last tick. *)
Definition settings (s : stp) : list Z :=
  [elapsed_remainder s; rq_max_age s; rq_hello_time s; rq_forward_delay s;
   bridge_max_age s; bridge_hello_time s; bridge_forward_delay s].

Definition quiet (s s' : stp) : Prop := loose s s' /\ settings s' = settings s.

(** An assignment to members of a port that no relation of this file looks at. *)
Definition quiet_port (f : stp_port -> stp_port) : Prop := forall q,
  p_state (f q) = p_state q /\ p_hold_timer (f q) = p_hold_timer q
  /\ p_forward_delay_timer (f q) = p_forward_delay_timer q
  /\ p_state_changed (f q) = p_state_changed q /\ p_designated_root (f q) = p_designated_root q.

Definition to_listening (p : port_no) (s : stp) : stp :=
  upd_port p (fun q => with_p_forward_delay_timer (stp_start_timer 0 (p_forward_delay_timer q)) q)
    (stp_set_port_state p STP_LISTENING s).
Definition to_blocking (p : port_no) (s : stp) : stp :=
  upd_port p (fun q => with_p_forward_delay_timer (stp_stop_timer (p_forward_delay_timer q)) q)
    (stp_set_port_state p STP_BLOCKING s).

(** The expiry of a message age timer repeats the body of stp_become_root_bridge. *)
Lemma message_age_expiry_eq p s :
  stp_message_age_timer_expiry p s
  = let s' := stp_port_state_selection (stp_configuration_update (stp_become_designated_port p s)) in
    if stp_is_root_bridge s' && negb (stp_is_root_bridge s) then stp_become_root_bridge s' else s'.
Proof. reflexivity. Qed.

(** A configuration update, for a relation that does not depend on the choice of a root. *)
Lemma update_keeps (R : relation stp) `{!PreOrder R} s :
  (forall p s, R s (stp_become_designated_port p s)) -> (forall s, R s (stp_root_selection s)) ->
  R s (stp_configuration_update s).
Proof.
  intros Hb Hr. unfold stp_configuration_update. etransitivity; [apply Hr|].
  unfold stp_designated_port_selection. apply (for_each_ind R). intros p s1 _. cbv zeta.
  destruct (_ || _); [apply Hb|reflexivity].
Qed.

(** A tick before the forward delay and hold timers. *)
Definition tick_start (elapsed : Z) (s : stp) : stp :=
  let (t, e) := stp_timer_expired (hello_timer s) elapsed (hello_time s) in
  let s := with_hello_timer t s in
  let s := if e then stp_hello_timer_expiry s else s in
  let (t, e) := stp_timer_expired (tcn_timer s) elapsed (bridge_hello_time s) in
  let s := with_tcn_timer t s in
  let s := if e then stp_tcn_timer_expiry s else s in
  let (t, e) := stp_timer_expired (topology_change_timer s) elapsed (max_age s + forward_delay s) in
  let s := with_topology_change_timer t s in
  let s := if e then stp_topology_change_timer_expiry s else s in
  for_each_enabled_port (age_step elapsed) s.

(** The laws of a relation kept by everything but the choice of a root. *)
Definition stp_base_laws (R : relation stp) : Prop :=
  PreOrder R
  /\ (forall s s', quiet s s' -> R s s')
  /\ (forall p f s, quiet_port f -> R s (upd_port p f s))
  /\ (forall p s, R s (stp_become_designated_port p s))
  /\ (forall p s, R s (stp_transmit_config p s))
  /\ (forall p s, R s (stp_send_bpdu p tcn_bytes s))
  /\ (forall p s, p_state (port s p) = STP_BLOCKING -> R s (to_listening p s))
  /\ (forall p s, Z.land (p_state (port s p)) (Z.lor STP_DISABLED STP_BLOCKING) = 0 ->
        R s (to_blocking p s)).

Class StpBase (R : relation stp) : Prop := base_laws : stp_base_laws R.

Definition stp_laws (R : relation stp) : Prop :=
  StpBase R /\ forall s, R s (stp_configuration_update s).

Class StpRel (R : relation stp) : Prop := rel_laws : stp_laws R.

#[export] Instance rel_base R `{H : !StpRel R} : StpBase R := proj1 H.

Ltac quiet := first [ by (split; [split_and!|]) | by intros [] ].

#[export] Instance rel_pre R `{H : !StpBase R} : PreOrder R := proj1 H.

Section laws.
Context (R : relation stp) `{!StpBase R}.

Local Ltac law := destruct StpBase0 as (L0 & L1 & L2 & L3 & L4 & L5 & L6 & L7).
Lemma rel_quiet s s' : quiet s s' -> R s s'.
Proof. law. apply L1. Qed.
Lemma rel_port p f s : quiet_port f -> R s (upd_port p f s).
Proof. law. apply L2. Qed.
Lemma rel_become p s : R s (stp_become_designated_port p s).
Proof. law. apply L3. Qed.
Lemma rel_transmit p s : R s (stp_transmit_config p s).
Proof. law. apply L4. Qed.
Lemma rel_tcn p s : R s (stp_send_bpdu p tcn_bytes s).
Proof. law. apply L5. Qed.
Lemma rel_listening p s : p_state (port s p) = STP_BLOCKING -> R s (to_listening p s).
Proof. law. apply L6. Qed.
Lemma rel_blocking p s :
  Z.land (p_state (port s p)) (Z.lor STP_DISABLED STP_BLOCKING) = 0 -> R s (to_blocking p s).
Proof. law. apply L7. Qed.
Lemma rel_quiet_after s s1 s2 : R s s1 -> quiet s1 s2 -> R s s2.
Proof. intros H Hq. etransitivity; [exact H|by apply rel_quiet]. Qed.
Lemma rel_set {A} (f : A -> stp -> stp) v s x : (forall v x, quiet x (f v x)) -> R s x -> R s (f v x).
Proof. intros Hq H. by eapply rel_quiet_after. Qed.
Lemma rel_port_after p f s s1 : R s s1 -> quiet_port f -> R s (upd_port p f s1).
Proof. intros H Hq. etransitivity; [exact H|by apply rel_port]. Qed.
Lemma rel_after f s s1 : (forall s, R s (f s)) -> R s s1 -> R s (f s1).
Proof. intros Hf H. etransitivity; [exact H|apply Hf]. Qed.
Lemma rel_after_if f s s1 (b : bool) :
  (forall s, R s (f s)) -> R s s1 -> R s (if b then f s1 else s1).
Proof. intros Hf H. destruct b; [by apply rel_after|done]. Qed.

End laws.

(** Peels one assignment to the bridge, one assignment to a port, or one call. *)
Ltac bridge_setter f :=
  lazymatch f with
  | with_topology_change_detected => idtac
  | with_topology_change => idtac
  | with_fdb_needs_flush => idtac
  | with_tcn_timer => idtac
  | with_hello_timer => idtac
  | with_topology_change_timer => idtac
  | with_max_age => idtac
  | with_hello_time => idtac
  | with_forward_delay => idtac
  end.
Ltac hopq1 :=
  lazymatch goal with
  | |- ?R ?s (?f ?v ?x) => bridge_setter f; apply (rel_set R f v s x); [intros ? ?; quiet|]
  end.
Ltac hopq := hopq1; repeat hopq1.
Ltac hopp := match goal with |- ?R ?s (upd_port ?p ?f ?x) => apply (rel_port_after R p f s x); [|quiet] end.
Tactic Notation "hop" constr(L) := match goal with |- ?R ?s (?f ?x) => apply (rel_after R f s x); [intros; apply L|] end.

Section base.
Context (R : relation stp) `{!StpBase R}.

Lemma transmit_tcn_rel s : R s (stp_transmit_tcn s).
Proof. unfold stp_transmit_tcn. destruct (root_port s); [apply (rel_tcn R)|reflexivity]. Qed.

Lemma generation_rel s : R s (stp_config_bpdu_generation s).
Proof.
  unfold stp_config_bpdu_generation. apply (for_each_ind R). intros p s1 _.
  destruct (stp_is_designated_port s1 p); [apply (rel_transmit R)|reflexivity].
Qed.

Lemma detection_rel s : R s (stp_topology_change_detection s).
Proof.
  unfold stp_topology_change_detection. hopq.
  destruct (stp_is_root_bridge s); [eapply (rel_quiet R); quiet|].
  destruct (negb _); [|reflexivity].
  hopq; apply transmit_tcn_rel.
Qed.

Lemma make_forwarding_rel p s : R s (stp_make_forwarding p s).
Proof.
  unfold stp_make_forwarding. destruct (Z.eqb_spec (p_state (port s p)) STP_BLOCKING); [|reflexivity].
  by apply (rel_listening R).
Qed.

Lemma detection_ports p s : p_state (port (stp_topology_change_detection s) p) = p_state (port s p).
Proof.
  unfold stp_topology_change_detection. destruct (stp_is_root_bridge s); [done|].
  destruct (negb _); [|done]. unfold stp_transmit_tcn. destruct (root_port s); [|done].
  exact (send_get p_state _ tcn_bytes s p (fun v x => eq_refl)).
Qed.

Lemma make_blocking_rel p s : R s (stp_make_blocking p s).
Proof.
  unfold stp_make_blocking.
  destruct (Z.eqb_spec (Z.land (p_state (port s p)) (Z.lor STP_DISABLED STP_BLOCKING)) 0) as [E|]; [|reflexivity].
  set (s1 := if negb _ then _ else _).
  assert (R s s1 /\ p_state (port s1 p) = p_state (port s p)) as [H1 H2].
  { unfold s1. repeat case_match; split; try reflexivity; [apply detection_rel|apply detection_ports]. }
  etransitivity; [exact H1|]. apply (rel_blocking R). by rewrite H2.
Qed.

Lemma state_selection_rel s : R s (stp_port_state_selection s).
Proof.
  unfold stp_port_state_selection. apply (for_each_ind R). intros p s1 _. case_bool_decide; [|destruct (stp_is_designated_port s1 p)].
  - hop make_forwarding_rel. apply (rel_port R). quiet.
  - hop make_forwarding_rel. apply (rel_port R). quiet.
  - hop make_blocking_rel. apply (rel_port R). quiet.
Qed.

Lemma become_root_rel s : R s (stp_become_root_bridge s).
Proof.
  unfold stp_become_root_bridge. hopq. hop generation_rel.
  hopq. hop detection_rel. apply (rel_quiet R). quiet.
Qed.

Lemma acknowledge_rel p s : R s (stp_acknowledge_topology_change p s).
Proof. unfold stp_acknowledge_topology_change. hop (rel_transmit R). apply (rel_port R). quiet. Qed.

Lemma received_tcn_rel p s : R s (stp_received_tcn_bpdu p s).
Proof.
  unfold stp_received_tcn_bpdu. repeat case_match; try reflexivity.
  hop acknowledge_rel; apply detection_rel.
Qed.

Lemma port_set_priority_rel p pri s : R s (stp_port_set_priority p pri s).
Proof.
  unfold stp_port_set_priority. cbv zeta. destruct (negb _); [|reflexivity].
  set (s1 := upd_port p (with_p_port_id _) _). assert (R s s1) as H1.
  { unfold s1. hopp. destruct (stp_is_designated_port s p); [|reflexivity].
    apply (rel_port R). quiet. }
  destruct (_ && _); [|done]. etransitivity; [exact H1|].
  hop state_selection_rel; apply (rel_become R).
Qed.
End base.

Section derived.
Context (R : relation stp) `{!StpRel R}.

Lemma rel_update s : R s (stp_configuration_update s).
Proof. exact (proj2 StpRel0 s). Qed.

Lemma message_age_expiry_rel p s : R s (stp_message_age_timer_expiry p s).
Proof.
  rewrite message_age_expiry_eq. cbv zeta. apply (rel_after_if R stp_become_root_bridge); [intros; apply (become_root_rel R)|].
  hop (state_selection_rel R). hop rel_update; apply (rel_become R).
Qed.

(** The handler of configuration BPDUs, given its first writes. *)
Lemma received_config_rel p c s :
  (p_state (port s p) <> STP_DISABLED ->
   R s (stp_configuration_update (stp_record_config_information p c s))) ->
  R s (stp_received_config_bpdu p c s).
Proof.
  intros Hr. unfold stp_received_config_bpdu. destruct (_ <=? _); [reflexivity|].
  destruct (Z.eqb_spec (p_state (port s p)) STP_DISABLED); [reflexivity|]. cbn [negb].
  destruct (stp_supersedes_port_info s p c).
  - set (s1 := stp_port_state_selection _). set (s2 := if _ && _ then _ else s1).
    assert (R s s1) as H1 by (unfold s1; hop (state_selection_rel R); by apply Hr).
    assert (R s s2) as H2.
    { unfold s2. destruct (_ && _); [|done].
      destruct (topology_change_detected _); [|hopq; exact H1].
      hopq. hop (transmit_tcn_rel R).
      hopq; exact H1. }
    case_bool_decide; [|done].
    assert (R s (stp_config_bpdu_generation (stp_record_config_timeout_values c s2))) as H3
      by (hop (generation_rel R); unfold stp_record_config_timeout_values; hopq; exact H2).
    clearbody s2; destruct (negb _), (negb _); unfold stp_topology_change_acknowledged; repeat hopq1; exact H3.
  - destruct (stp_is_designated_port s p); [apply (rel_transmit R)|reflexivity].
Qed.

Lemma received_rel p bpdu s :
  (p_state (port s p) <> STP_DISABLED ->
   R s (stp_configuration_update (stp_record_config_information p (config_of_bytes bpdu) s))) ->
  R s (stp_received_bpdu p bpdu s).
Proof.
  intros Hr. unfold stp_received_bpdu, bpdu_error. repeat case_match; try reflexivity;
    try (apply (rel_port R); quiet); (hopp).
  - by apply received_config_rel.
  - apply (received_tcn_rel R).
Qed.

Lemma tick_start_rel elapsed s : R s (tick_start elapsed s).
Proof.
  unfold tick_start. destruct (stp_timer_expired _ _ _) as [t1 e1].
  set (s1 := if e1 then _ else _). assert (R s s1) as H1.
  { unfold s1. apply (rel_after_if R stp_hello_timer_expiry); [|apply (rel_quiet R); quiet]. clear -StpRel0. intros s.
    unfold stp_hello_timer_expiry. hopq; apply (generation_rel R). }
  clearbody s1. destruct (stp_timer_expired _ _ _) as [t2 e2].
  set (s2 := if e2 then _ else _). assert (R s s2) as H2.
  { unfold s2. apply (rel_after_if R stp_tcn_timer_expiry); [|hopq; exact H1]. clear -StpRel0. intros s.
    unfold stp_tcn_timer_expiry. hopq; apply (transmit_tcn_rel R). }
  clearbody s2. destruct (stp_timer_expired _ _ _) as [t3 e3].
  set (s3 := if e3 then _ else _). assert (R s s3) as H3.
  { unfold s3. destruct e3; unfold stp_topology_change_timer_expiry; hopq; exact H2. }
  clearbody s3. etransitivity; [exact H3|]. apply (for_each_ind R). intros p s4 _.
  unfold age_step. destruct (stp_timer_expired _ _ _) as [t4 e4].
  apply (rel_after_if R (stp_message_age_timer_expiry p)); [apply message_age_expiry_rel|]. apply (rel_port R). quiet.
Qed.

Lemma port_set_path_cost_rel p c s : R s (stp_port_set_path_cost p c s).
Proof.
  unfold stp_port_set_path_cost. destruct (negb _); [|reflexivity].
  hop (state_selection_rel R). hop rel_update.
  apply (rel_port R). quiet.
Qed.
End derived.

Lemma tick_split ms s :
  let (e, r) := tick_elapsed ms (elapsed_remainder s) in
  let s0 := with_elapsed_remainder r s in
  stp_tick ms s = if e =? 0 then s0 else for_each_enabled_port (delay_step e) (tick_start e s0).
Proof.
  unfold stp_tick, tick_start. destruct (tick_elapsed _ _) as [el rem]. cbv zeta.
  destruct (el =? 0); [done|]. by repeat (destruct (stp_timer_expired _ _ _)).
Qed.

(** A call that sets a timer parameter. *)
Definition sets_timer (c : stp_call) : bool :=
  match c with SetHelloTime _ | SetMaxAge _ | SetForwardDelay _ => true | _ => false end.

Lemma update_timers_loose s : loose s (stp_update_bridge_timers s).
Proof. unfold stp_update_bridge_timers. cbv zeta. by destruct (stp_is_root_bridge _). Qed.

Lemma sets_timer_loose c s s' : sets_timer c = true -> call c s = Ret s' -> loose s s'.
Proof.
  intros Hc E. destruct c; try discriminate; cbn [call] in E; apply Ret_inj in E; subst s'.
  - exact (update_timers_loose (with_rq_hello_time ms s)).
  - exact (update_timers_loose (with_rq_max_age ms s)).
  - exact (update_timers_loose (with_rq_forward_delay ms s)).
Qed.
