(* ===== verification/StpInv.v ===== *)
(** * Relations kept by the spanning tree (lib/stp.c)

    Instances of [StpRel]: the invariant of the tree, the rate limit of configuration BPDUs,
    the port states and the list of changed ports. *)
From stdpp Require Import finite.
From S2P Require Import Prelude StpData Stp StpRel.

Local Open Scope Z_scope.

(** ** The invariant of the tree

    Between calls, the bridge is the root of its tree exactly when it has no root port, a
    root port is enabled, and all enabled ports agree with the bridge on the root. *)
Record tree_ok (s : stp) : Prop := {
  tree_none : root_port s = None -> designated_root s = bridge_id s /\ root_path_cost s = 0;
  tree_some r : root_port s = Some r -> enabled s r = true /\ designated_root s < bridge_id s;
  tree_agree p : enabled s p = true -> p_designated_root (port s p) = designated_root s
}.

Definition keeps (I : stp -> Prop) : relation stp := fun s s' => I s -> I s'.

#[export] Instance keeps_pre I : PreOrder (keeps I).
Proof. split; unfold keeps; [by intros s|]. intros s1 s2 s3. auto. Qed.

Lemma tree_root s : tree_ok s -> stp_is_root_bridge s = bool_decide (root_port s = None).
Proof.
  intros []. unfold stp_is_root_bridge. destruct (root_port s) as [r|] eqn:E.
  - rewrite bool_decide_false by done. destruct (tree_some0 r eq_refl). by apply Z.eqb_neq; lia.
  - rewrite bool_decide_true by done. destruct (tree_none0 eq_refl). by apply Z.eqb_eq.
Qed.

(** What a function must preserve of a state for the invariant to carry over. *)
Definition tree_same (s s' : stp) : Prop :=
  bridge_id s' = bridge_id s /\ designated_root s' = designated_root s
  /\ root_path_cost s' = root_path_cost s /\ root_port s' = root_port s
  /\ forall p, enabled s' p = enabled s p
       /\ (p_designated_root (port s' p) = p_designated_root (port s p)
           \/ p_designated_root (port s' p) = designated_root s).

Lemma tree_same_keeps s s' : tree_same s s' -> keeps tree_ok s s'.
Proof.
  intros (E1 & E2 & E3 & E4 & Hp) []. split; rewrite ?E1, ?E2, ?E3, ?E4; [done|..].
  - intros r Hr. destruct (Hp r) as [-> _]. auto.
  - intros p Hen. destruct (Hp p) as [E [->| ->]]; [|done]. rewrite E in Hen. auto.
Qed.

Lemma tree_same_upd p f s :
  (forall q, p_state (f q) = p_state q
     /\ (p_designated_root (f q) = p_designated_root q \/ p_designated_root (f q) = designated_root s)) ->
  tree_same s (upd_port p f s).
Proof.
  intros H. split_and!; try done. intros q. unfold enabled. rewrite port_upd.
  case_decide; [subst|by auto]. destruct (H (port s q)) as [-> ?]. auto.
Qed.

(** The state of a port after stp_set_port_state. *)
Lemma set_port_state_port p st s q :
  port (stp_set_port_state p st s) q
  = if decide (p = q) then
      with_p_state st (if negb (st =? p_state (port s p)) && negb (p_state_changed (port s p))
                       then with_p_state_changed true (port s p) else port s p)
    else port s q.
Proof.
  unfold stp_set_port_state. set (b := negb _ && negb _).
  assert (forall v s q, port (with_first_changed_port v s) q = port s q) as Hf by done.
  destruct b; [set (b' := (_ <? _)%nat); clearbody b'; destruct b'|];
    rewrite !port_upd, ?Hf, ?port_upd, ?(decide_True (P := p = p)) by done; by case_decide.
Qed.

Lemma tree_same_pre : PreOrder tree_same.
Proof.
  split.
  - intros s. split_and!; try done. auto.
  - intros s1 s2 s3 (A1 & A2 & A3 & A4 & A) (B1 & B2 & B3 & B4 & B).
    split_and!; try congruence. intros p. destruct (A p) as [A5 A6], (B p) as [B5 B6].
    split; [congruence|]. destruct A6, B6; (by left; congruence) || (right; congruence).
Qed.
#[export] Existing Instance tree_same_pre.

Lemma set_port_state_tree p st s :
  enabled s p = true -> st <> STP_DISABLED -> tree_same s (stp_set_port_state p st s).
Proof.
  intros He Hst. assert (forall q, enabled (stp_set_port_state p st s) q = enabled s q
      /\ p_designated_root (port (stp_set_port_state p st s) q) = p_designated_root (port s q)) as H.
  { intros q. unfold enabled. rewrite set_port_state_port. case_decide as E; [subst q|done].
    unfold enabled in He. rewrite He. cbn [p_state with_p_state].
    split; [by apply negb_true_iff, Z.eqb_neq|]. by destruct (_ && _). }
  unfold tree_same. split_and!; try (unfold stp_set_port_state; by destruct (_ && _); [destruct (_ <? _)%nat|]).
  intros q. destruct (H q). auto.
Qed.

(** The update establishes the invariant whatever the state before it. *)
Lemma root_selection_tree s :
  let s' := stp_root_selection s in
  bridge_id s' = bridge_id s /\ ports s' = ports s
  /\ (root_port s' = None -> designated_root s' = bridge_id s /\ root_path_cost s' = 0)
  /\ (forall r, root_port s' = Some r -> enabled s r = true /\ designated_root s' < bridge_id s).
Proof.
  cbv zeta. unfold stp_root_selection. set (root := fold_left _ _ _).
  assert (forall r, root = Some r -> enabled s r = true /\ p_designated_root (port s r) < bridge_id s) as H.
  { unfold root. assert (forall l o, (forall r, o = Some r -> enabled s r = true /\ p_designated_root (port s r) < bridge_id s) ->
      forall r, fold_left (root_step s) l o = Some r -> enabled s r = true /\ p_designated_root (port s r) < bridge_id s) as H.
    { induction l as [|p l IH]; intros o Ho; cbn [fold_left]; [done|]. apply IH.
      intros r. unfold root_step. destruct (enabled s p) eqn:E; cbn [negb]; [|apply Ho].
      destruct (stp_is_designated_port s p); [apply Ho|]. cbn [orb].
      destruct (Z.leb_spec (bridge_id s) (p_designated_root (port s p))); [apply Ho|].
      destruct o; [destruct (stp_supersedes_root _ _ _); [|apply Ho]|]; intros [= <-]; done. }
    by apply H. }
  clearbody root. destruct root as [r|]; split_and!; try done. intros r' [= <-]. by apply H.
Qed.

Definition same_at (i : port_no) (s s' : stp) : Prop :=
  port s' i = port s i /\ designated_root s' = designated_root s.

#[export] Instance same_at_pre i : PreOrder (same_at i).
Proof. split; [by split|]. intros s1 s2 s3 [] []. split; congruence. Qed.

Lemma designated_selection_frame s :
  let s' := stp_designated_port_selection s in
  tree_same s s' /\ forall p, enabled s' p = true -> p_designated_root (port s' p) = designated_root s'.
Proof.
  cbv zeta. assert (tree_same s (stp_designated_port_selection s)) as Ht.
  { unfold stp_designated_port_selection. apply (for_each_ind tree_same). intros p s1 _. cbv zeta.
    destruct (_ || _); [|reflexivity]. apply tree_same_upd. auto. }
  split; [done|]. intros i Hi. destruct Ht as (_ & ED & _ & _ & He). rewrite ED.
  destruct (He i) as [Hei _]. rewrite Hei in Hi. clear He Hei ED.
  unfold stp_designated_port_selection. set (body := fun p s => _).
  destruct (for_each_at (same_at i) body i s)
    as (s1 & [H1 H2] & [H3 H4]).
  - intros p s0 Hp _. unfold body. cbv zeta. destruct (_ || _); [|done].
    split; [by apply port_upd_ne|done].
  - rewrite H3. assert (enabled s1 i = true) as -> by (unfold enabled in *; by rewrite H1).
    unfold body. cbv zeta. destruct (stp_is_designated_port s1 i); cbn [orb];
      [unfold stp_become_designated_port; by rewrite port_upd_eq|].
    destruct (Z.eqb_spec (p_designated_root (port s1 i)) (designated_root s1)); cbn [negb orb];
      [destruct (_ || _); [unfold stp_become_designated_port; by rewrite port_upd_eq|congruence]|].
    unfold stp_become_designated_port. by rewrite port_upd_eq.
Qed.

Lemma update_tree s : tree_ok (stp_configuration_update s).
Proof.
  unfold stp_configuration_update.
  destruct (root_selection_tree s) as (E1 & E2 & H1 & H2).
  destruct (designated_selection_frame (stp_root_selection s)) as ((F1 & F2 & F3 & F4 & F5) & F6).
  split; rewrite ?F1, ?F2, ?F3, ?F4, ?E1; [done| |].
  - intros r Hr. destruct (H2 r Hr) as [H3 ?]. split; [|done]. destruct (F5 r) as [-> _].
    unfold enabled, port in *. by rewrite E2.
  - intros p Hp. rewrite <- F2. by apply F6.
Qed.

Lemma send_tree p bpdu s : tree_same s (stp_send_bpdu p bpdu s).
Proof.
  unfold stp_send_bpdu. transitivity (with_sent (sent s ++ [(p, stp_frame bpdu)]) s); [split_and!; auto|].
  apply tree_same_upd. auto.
Qed.

Lemma transmit_tree p s : tree_same s (stp_transmit_config p s).
Proof.
  unfold stp_transmit_config. repeat case_match; try reflexivity; [apply tree_same_upd; auto|].
  etransitivity; [|apply tree_same_upd; auto]. etransitivity; [|apply send_tree].
  apply tree_same_upd. auto.
Qed.

Lemma enabled_blocking s p :
  Z.land (p_state (port s p)) (Z.lor STP_DISABLED STP_BLOCKING) = 0 -> enabled s p = true.
Proof.
  intros H. unfold enabled. destruct (Z.eqb_spec (p_state (port s p)) STP_DISABLED) as [E|]; [|done].
  by rewrite E in H.
Qed.

Lemma tree_loose s s' : loose s s' -> keeps tree_ok s s'.
Proof.
  intros (E1 & E2 & E3 & E4 & E5 & E6 & E7). apply tree_same_keeps. split_and!; try done.
  intros p. unfold enabled, port. rewrite E1. auto.
Qed.

#[export] Instance tree_base : StpBase (keeps tree_ok).
Proof.
  split_and!.
  - apply _.
  - intros s s' [H _]. by apply tree_loose.
  - intros p f s H. apply tree_same_keeps, tree_same_upd. intros q. destruct (H q) as (? & ? & ? & ? & ?). auto.
  - intros p s. apply tree_same_keeps, tree_same_upd. auto.
  - intros p s. apply tree_same_keeps, transmit_tree.
  - intros p s. apply tree_same_keeps, send_tree.
  - intros p s E. apply tree_same_keeps. etransitivity; [apply set_port_state_tree|apply tree_same_upd; auto].
    + unfold enabled. by rewrite E.
    + done.
  - intros p s E. apply tree_same_keeps. etransitivity; [apply set_port_state_tree|apply tree_same_upd; auto].
    + by apply enabled_blocking.
    + done.
Qed.

#[export] Instance tree_rel : StpRel (keeps tree_ok).
Proof.
  split; [apply _|].
  intros s _. apply update_tree.
Qed.

(** ** Rate limit

    The number of configuration BPDUs a port sends is paid for by its hold timer. *)
Definition is_config_on (i : port_no) (x : port_no * list Z) : bool :=
  bool_decide (x.1 = i) && (be_field 20 1 x.2 =? STP_TYPE_CONFIG).

Definition configs_on (i : port_no) (l : list (port_no * list Z)) : nat :=
  length (filter (fun x => is_config_on i x = true) l).

(** Ticks for which the hold timer still forbids a configuration BPDU. *)
Definition hold_left (s : stp) (i : port_no) : Z :=
  let t := p_hold_timer (port s i) in if t_active t then 256 - t_value t else 0.

Definition hold_ok (s : stp) (i : port_no) : Prop :=
  t_active (p_hold_timer (port s i)) = true -> 0 <= t_value (p_hold_timer (port s i)) < 256.

Definition limited (i : port_no) (s s' : stp) : Prop :=
  hold_ok s i ->
  hold_ok s' i
  /\ exists new, sent s' = sent s ++ new
       /\ 256 * Z.of_nat (configs_on i new) + hold_left s i <= hold_left s' i.

Lemma configs_on_app i l1 l2 : configs_on i (l1 ++ l2) = (configs_on i l1 + configs_on i l2)%nat.
Proof. unfold configs_on. by rewrite filter_app, length_app. Qed.

#[export] Instance limited_pre i : PreOrder (limited i).
Proof.
  split.
  - intros s H. split; [done|]. exists []. rewrite app_nil_r. split; [done|]. cbn. lia.
  - intros s1 s2 s3 H1 H2 H. destruct (H1 H) as (H' & n1 & E1 & B1).
    destruct (H2 H') as (H'' & n2 & E2 & B2). split; [done|]. exists (n1 ++ n2).
    rewrite configs_on_app, E2, E1, app_assoc. split; [done|lia].
Qed.

Lemma limited_same i s s' :
  sent s' = sent s -> p_hold_timer (port s' i) = p_hold_timer (port s i) -> limited i s s'.
Proof.
  intros E H Hok. unfold hold_ok, hold_left in *. rewrite H. split; [done|].
  exists []. rewrite app_nil_r. split; [done|]. cbn. lia.
Qed.

Lemma limited_upd i p f s :
  (forall q, p_hold_timer (f q) = p_hold_timer q) -> limited i s (upd_port p f s).
Proof. intros H. apply limited_same; [done|]. by apply port_upd_get. Qed.

(** The type byte of a frame is that of the BPDU in it. *)
Lemma frame_type bpdu : (4 <= length bpdu)%nat -> be_field 20 1 (stp_frame bpdu) = be_field 3 1 bpdu.
Proof.
  intros H. do 4 (destruct bpdu as [|? bpdu]; [cbn in H; lia|]). reflexivity.
Qed.

Lemma config_type c : be_field 3 1 (config_bytes c) = u8 (c_bpdu_type c).
Proof.
  unfold config_bytes, be_field. cbn [be_bytes app drop take]. unfold be_value. cbn [fold_left].
  rewrite Z.shiftr_0_r. lia.
Qed.

Lemma length_config c : length (config_bytes c) = 35%nat.
Proof. unfold config_bytes. by rewrite !length_app, !length_be_bytes. Qed.

Lemma transmit_limited i p s : limited i s (stp_transmit_config p s).
Proof.
  unfold stp_transmit_config. destruct (_ && _); [reflexivity|].
  destruct (t_active (p_hold_timer (port s p))) eqn:Ha; [by apply limited_upd|]. cbv zeta.
  destruct (_ <? _); [|reflexivity]. set (c := config_of s p). intros Hok.
  set (s' := upd_port p (fun q => with_p_hold_timer _ q) _).
  assert (p_hold_timer (port s' i) = if decide (p = i) then MkTimer true 0 else p_hold_timer (port s i)) as Hh.
  { unfold s'. rewrite port_upd. case_decide; [done|]. unfold stp_send_bpdu. rewrite port_upd_ne by done.
    assert (forall v s q, port (with_sent v s) q = port s q) as -> by done. by rewrite port_upd_ne. }
  unfold hold_ok, hold_left. rewrite Hh. case_decide as Hp.
  - subst p. rewrite Ha. split; [cbn; lia|]. exists [(i, stp_frame (config_bytes c))]. split; [done|].
    assert (configs_on i [(i, stp_frame (config_bytes c))] <= 1)%nat by apply length_filter.
    cbn [t_active t_value]. lia.
  - split; [done|]. exists [(p, stp_frame (config_bytes c))]. split; [done|].
    unfold configs_on. rewrite filter_cons_False, filter_nil; [cbn; lia|]. unfold is_config_on. cbn [fst].
    by rewrite bool_decide_false.
Qed.

Lemma set_port_state_limited i p st s : limited i s (stp_set_port_state p st s).
Proof.
  apply limited_same.
  - unfold stp_set_port_state. by destruct (_ && _); [destruct (_ <? _)%nat|].
  - rewrite set_port_state_port. case_decide; [subst|done]. by destruct (_ && _).
Qed.

Lemma root_selection_ports s : ports (stp_root_selection s) = ports s /\ sent (stp_root_selection s) = sent s.
Proof. unfold stp_root_selection. generalize (fold_left (root_step s) (enum port_no) None). by intros []. Qed.

Lemma limited_loose i s s' : loose s s' -> limited i s s'.
Proof. intros (E1 & E2 & _). apply limited_same; [done|]. unfold port. by rewrite E1. Qed.

#[export] Instance limited_base i : StpBase (limited i).
Proof.
  split_and!.
  - apply _.
  - intros s s' [H _]. by apply limited_loose.
  - intros p f s H. apply limited_upd. intros q. by destruct (H q) as (? & ? & ?).
  - intros p s. by apply limited_upd.
  - intros. apply transmit_limited.
  - intros p s. unfold limited, hold_ok, hold_left. rewrite (send_get p_hold_timer) by done. split; [done|].
    exists [(p, stp_frame tcn_bytes)]. split; [done|].
    unfold configs_on. rewrite filter_cons_False, filter_nil.
    + cbn. lia.
    + unfold is_config_on. cbn [fst snd]. rewrite frame_type by (cbn; lia).
      rewrite andb_comm. by cbn.
  - intros p s _. etransitivity; [apply set_port_state_limited|by apply limited_upd].
  - intros p s _. etransitivity; [apply set_port_state_limited|by apply limited_upd].
Qed.

#[export] Instance limited_rel i : StpRel (limited i).
Proof.
  split; [apply _|].
  intros s. apply update_keeps; [apply _|by intros; apply limited_upd|].
  intros s1. destruct (root_selection_ports s1) as [E1 E2]. apply limited_same; [done|].
  unfold port. by rewrite E1.
Qed.

(** ** Port states *)

(** Only a forward delay timer moves a port towards forwarding: the relation of everything
    else that happens to port [i]. *)
Definition unpromoted (i : port_no) (s s' : stp) : Prop :=
  enabled s' i = enabled s i
  /\ (p_state (port s' i) = STP_LEARNING \/ p_state (port s' i) = STP_FORWARDING ->
      p_state (port s' i) = p_state (port s i)
      /\ p_forward_delay_timer (port s' i) = p_forward_delay_timer (port s i)).

#[export] Instance unpromoted_pre i : PreOrder (unpromoted i).
Proof.
  split; [by split|]. intros s1 s2 s3 [E1 H1] [E2 H2]. split; [congruence|].
  intros H. destruct (H2 H) as [Ha Hb]. rewrite Ha in H. destruct (H1 H) as [Hc Hd]. split; congruence.
Qed.

Lemma unpromoted_same i s s' :
  p_state (port s' i) = p_state (port s i) ->
  p_forward_delay_timer (port s' i) = p_forward_delay_timer (port s i) -> unpromoted i s s'.
Proof. intros E H. unfold unpromoted, enabled. by rewrite E. Qed.

Lemma unpromoted_upd i p f s :
  (forall q, p_state (f q) = p_state q /\ p_forward_delay_timer (f q) = p_forward_delay_timer q) ->
  unpromoted i s (upd_port p f s).
Proof. intros H. apply unpromoted_same; apply port_upd_get; apply H. Qed.

Lemma send_state i p bpdu s :
  p_state (port (stp_send_bpdu p bpdu s) i) = p_state (port s i)
  /\ p_forward_delay_timer (port (stp_send_bpdu p bpdu s) i) = p_forward_delay_timer (port s i).
Proof. split; by rewrite (send_get _ p bpdu). Qed.

Lemma transmit_state i p s :
  p_state (port (stp_transmit_config p s) i) = p_state (port s i)
  /\ p_forward_delay_timer (port (stp_transmit_config p s) i) = p_forward_delay_timer (port s i).
Proof.
  unfold stp_transmit_config.
  repeat case_match; try done; split; by rewrite !port_upd_get, ?send_get, ?port_upd_get.
Qed.

(** Moving an enabled port to listening or blocking. *)
Lemma set_port_state_unpromoted i p st s (t : stp_timer -> stp_timer) :
  enabled s p = true -> st = STP_LISTENING \/ st = STP_BLOCKING ->
  unpromoted i s (upd_port p (fun q => with_p_forward_delay_timer (t (p_forward_delay_timer q)) q)
                    (stp_set_port_state p st s)).
Proof.
  intros He Hst. unfold unpromoted, enabled in *. rewrite !port_upd, !set_port_state_port.
  case_decide; [subst p|by split].
  rewrite decide_True by done.
  assert (forall v q, p_state (with_p_forward_delay_timer v q) = p_state q) as E by done.
  rewrite !E. cbn [p_state with_p_state]. rewrite He. split.
  - by destruct Hst as [->| ->].
  - destruct Hst as [->| ->]; intros [|]; discriminate.
Qed.

Lemma unpromoted_loose i s s' : loose s s' -> unpromoted i s s'.
Proof. intros (E1 & _). apply unpromoted_same; unfold port; by rewrite E1. Qed.

#[export] Instance unpromoted_base i : StpBase (unpromoted i).
Proof.
  split_and!.
  - apply _.
  - intros s s' [H _]. by apply unpromoted_loose.
  - intros p f s H. apply unpromoted_upd. intros q. by destruct (H q) as (? & ? & ? & ?).
  - intros p s. by apply unpromoted_upd.
  - intros p s. destruct (transmit_state i p s). by apply unpromoted_same.
  - intros p s. destruct (send_state i p tcn_bytes s). by apply unpromoted_same.
  - intros p s E. apply set_port_state_unpromoted; [unfold enabled; by rewrite E|by left].
  - intros p s E. apply set_port_state_unpromoted; [by apply enabled_blocking|by right].
Qed.

#[export] Instance unpromoted_rel i : StpRel (unpromoted i).
Proof.
  split; [apply _|].
  intros s. apply update_keeps; [apply _|by intros; apply unpromoted_upd|].
  intros s1. destruct (root_selection_ports s1) as [E1 E2]. apply unpromoted_same; unfold port; by rewrite E1.
Qed.

(** ** The list of changed ports *)

(** Every port whose state has changed lies at or after [first_changed_port]. *)
Definition changed_ok (s : stp) : Prop :=
  forall p, p_state_changed (port s p) = true -> (first_changed_port s <= p)%nat.

Lemma changed_same s s' :
  first_changed_port s' = first_changed_port s ->
  (forall p, p_state_changed (port s' p) = p_state_changed (port s p)) -> keeps changed_ok s s'.
Proof. intros E H Hok p. rewrite H, E. apply Hok. Qed.

Lemma changed_upd p f s :
  (forall q, p_state_changed (f q) = p_state_changed q) -> keeps changed_ok s (upd_port p f s).
Proof. intros H. apply changed_same; [done|]. intros q. by apply port_upd_get. Qed.

Lemma changed_send p bpdu s : keeps changed_ok s (stp_send_bpdu p bpdu s).
Proof. apply changed_same; [done|]. intros q. by rewrite (send_get p_state_changed). Qed.

Lemma set_port_state_changed p st s : keeps changed_ok s (stp_set_port_state p st s).
Proof.
  intros Hok q. rewrite set_port_state_port.
  assert (first_changed_port (stp_set_port_state p st s)
          = if negb (st =? p_state (port s p)) && negb (p_state_changed (port s p))
               && (p <? first_changed_port s)%nat then fin_to_nat p else first_changed_port s) as ->.
  { unfold stp_set_port_state. by destruct (negb _ && negb _); [cbn [andb]; destruct (_ <? _)%nat|]. }
  case_decide as E.
  - subst q. cbn [p_state_changed with_p_state]. destruct (negb _ && negb _); cbn [andb].
    + intros _. destruct (Nat.ltb_spec p (first_changed_port s)); lia.
    + apply Hok.
  - intros H. specialize (Hok q H). destruct (negb _ && negb _); cbn [andb]; [|done].
    destruct (Nat.ltb_spec p (first_changed_port s)); lia.
Qed.

Lemma changed_loose s s' : loose s s' -> keeps changed_ok s s'.
Proof.
  intros (E1 & E2 & E3 & E4 & E5 & E6 & E7). apply changed_same; [done|]. intros p. unfold port. by rewrite E1.
Qed.

#[export] Instance changed_base : StpBase (keeps changed_ok).
Proof.
  split_and!.
  - apply _.
  - intros s s' [H _]. by apply changed_loose.
  - intros p f s H. apply changed_upd. intros q. by destruct (H q) as (? & ? & ? & ? & ?).
  - intros p s. by apply changed_upd.
  - intros p s. unfold stp_transmit_config. repeat case_match; try reflexivity; [by apply changed_upd|].
    etransitivity; [|by apply changed_upd]. etransitivity; [|apply changed_send]. by apply changed_upd.
  - intros p s. apply changed_send.
  - intros p s _. etransitivity; [apply set_port_state_changed|by apply changed_upd].
  - intros p s _. etransitivity; [apply set_port_state_changed|by apply changed_upd].
Qed.

#[export] Instance changed_rel : StpRel (keeps changed_ok).
Proof.
  split; [apply _|].
  intros s. apply update_keeps; [apply _|by intros; apply changed_upd|].
  intros s1. apply changed_same.
  + unfold stp_root_selection. generalize (fold_left (root_step s1) (enum port_no) None). by intros [].
  + intros q. destruct (root_selection_ports s1) as [E1 E2]. unfold port. by rewrite E1.
Qed.

(** ** Settings *)

Definition same_settings (s s' : stp) : Prop := settings s' = settings s.

#[export] Instance same_settings_pre : PreOrder same_settings.
Proof. split; [done|]. unfold same_settings. intros s1 s2 s3. congruence. Qed.

Lemma set_port_state_settings p st s : same_settings s (stp_set_port_state p st s).
Proof. unfold stp_set_port_state. by destruct (_ && _); [destruct (_ <? _)%nat|]. Qed.

#[export] Instance settings_base : StpBase same_settings.
Proof.
  split_and!; try done.
  - apply _.
  - by intros s s' [_ H].
  - intros p s. unfold stp_transmit_config. by repeat case_match.
  - intros p s _. exact (set_port_state_settings p STP_LISTENING s).
  - intros p s _. exact (set_port_state_settings p STP_BLOCKING s).
Qed.

#[export] Instance settings_rel : StpRel same_settings.
Proof.
  split; [apply _|].
  intros s. apply update_keeps; [apply _|done|]. intros s1. unfold stp_root_selection.
  generalize (fold_left (root_step s1) (enum port_no) None). by intros [].
Qed.
