(* ===== verification/StpCalls.v ===== *)
(** * Calls of the spanning tree (lib/stp.c)

    The relations of StpInv.v carried through every public function, ticks and the creation
    of a bridge included. *)
From stdpp Require Import finite.
From S2P Require Import Prelude StpData Stp StpRel StpInv.

Local Open Scope Z_scope.

(** ** All calls but ticks *)

(** What set_bridge_id, stp_port_disable and stp_port_enable do before they select port
    states. *)
Definition rebase (id : Z) (s : stp) : stp :=
  stp_configuration_update
    (with_bridge_id id
      (for_each_enabled_port (fun p s =>
         if stp_is_designated_port s p then upd_port p (with_p_designated_bridge id) s else s) s)).

Definition disable_start (p : port_no) (s : stp) : stp :=
  upd_port p (fun q =>
    with_p_forward_delay_timer (stp_stop_timer (p_forward_delay_timer q))
      (with_p_message_age_timer (stp_stop_timer (p_message_age_timer q))
        (with_p_config_pending false (with_p_topology_change_ack false q))))
    (stp_set_port_state p STP_DISABLED (stp_become_designated_port p s)).

Definition initialized (p : port_no) (state : Z) (s : stp) : stp :=
  upd_port p (fun q =>
    with_p_error_count 0 (with_p_rx_count 0 (with_p_tx_count 0
      (with_p_hold_timer (stp_stop_timer (p_hold_timer q))
        (with_p_forward_delay_timer (stp_stop_timer (p_forward_delay_timer q))
          (with_p_message_age_timer (stp_stop_timer (p_message_age_timer q))
            (with_p_aux 0 (with_p_change_detection_enabled true
              (with_p_config_pending false (with_p_topology_change_ack false q))))))))))
    (stp_set_port_state p state (stp_become_designated_port p s)).

Lemma initialize_ok p state s :
  state = STP_DISABLED \/ state = STP_BLOCKING ->
  stp_initialize_port p state s = Ret (initialized p state s).
Proof. by intros [-> | ->]. Qed.

Lemma set_bridge_id_eq id s :
  set_bridge_id id s =
    if id =? bridge_id s then s
    else let s' := stp_port_state_selection (rebase id s) in
         if stp_is_root_bridge s' && negb (stp_is_root_bridge s) then stp_become_root_bridge s' else s'.
Proof. unfold set_bridge_id, rebase. cbv zeta. destruct (id =? bridge_id s); cbn [negb]; reflexivity. Qed.

Lemma port_disable_eq p s :
  stp_port_disable p s =
    if enabled s p then
      let s' := stp_port_state_selection (stp_configuration_update (disable_start p s)) in
      upd_port p (with_p_aux 0)
        (if stp_is_root_bridge s' && negb (stp_is_root_bridge s) then stp_become_root_bridge s' else s')
    else s.
Proof. unfold stp_port_disable, enabled, disable_start. cbv zeta. by destruct (p_state (port s p) =? STP_DISABLED). Qed.

Section calls.
Context (R : relation stp) `{!StpRel R}.

Lemma call_rel c s s' :
  (forall id, R s (rebase id s)) ->
  (forall p cfg, enabled s p = true -> R s (stp_configuration_update (stp_record_config_information p cfg s))) ->
  R s (stp_get_changed_port s).2 ->
  (forall p, enabled s p = true -> R s (stp_configuration_update (disable_start p s))) ->
  (forall p, c = PortEnable p -> enabled s p = false -> R s (initialized p STP_BLOCKING s)) ->
  (forall ms, c = Tick ms -> R s (stp_tick ms s)) ->
  (sets_timer c = true -> R s s') ->
  call c s = Ret s' -> R s s'.
Proof.
  intros Hid Hrec Hchg Hdis Hen Htick Ht E.
  assert (forall id, R s (set_bridge_id id s)) as Hset.
  { intros id. rewrite set_bridge_id_eq. destruct (_ =? _); [reflexivity|]. cbv zeta.
    set (s1 := stp_port_state_selection _). assert (R s s1) as H1
      by (etransitivity; [apply (Hid id)|by apply (state_selection_rel R)]).
    destruct (_ && _); [|done]. etransitivity; [exact H1|by apply (become_root_rel R)]. }
  assert (forall f, quiet_port f -> forall p, R s (upd_port p f s)) as Hq
    by (intros f Hf p; by apply (rel_port R)).
  destruct c; cbn [call] in E; try (apply Ret_inj in E; subst s').
  - by apply Htick.
  - apply Hset.
  - apply Hset.
  - by apply Ht.
  - by apply Ht.
  - by apply Ht.
  - apply (rel_quiet R). quiet.
  - done.
  - apply (received_rel R). intros Hp. apply Hrec. unfold enabled. by apply negb_true_iff, Z.eqb_neq.
  - apply Hq. quiet.
  - rewrite port_disable_eq. destruct (enabled s p) eqn:Ep; [|reflexivity]. cbv zeta.
    apply (rel_port_after R); [|quiet]. set (s1 := stp_port_state_selection _).
    assert (R s s1) as H1 by (etransitivity; [by apply (Hdis p)|by apply (state_selection_rel R)]).
    destruct (_ && _); [|done]. etransitivity; [exact H1|by apply (become_root_rel R)].
  - unfold stp_port_enable in E. destruct (p_state (port s p) =? STP_DISABLED) eqn:Ep.
    + rewrite initialize_ok in E by auto.
      change (Ret (stp_port_state_selection (initialized p STP_BLOCKING s)) = Ret s') in E. apply Ret_inj in E; subst s'.
      etransitivity; [apply (Hen p); [done|by unfold enabled; rewrite Ep]|by apply (state_selection_rel R)].
    + apply Ret_inj in E; subst s'. reflexivity.
  - apply (port_set_priority_rel R).
  - apply (port_set_path_cost_rel R).
  - unfold stp_port_set_speed. apply (port_set_path_cost_rel R).
  - destruct on; apply Ret_inj in E; subst s'; apply Hq; quiet.
  - apply (detection_rel R).
Qed.
End calls.

(** The assertion of stp_initialize_port never fails: every call returns. *)
Lemma call_returns c s : exists s', call c s = Ret s'.
Proof.
  destruct c; cbn [call]; try (eexists; reflexivity).
  - unfold stp_port_enable. destruct (p_state (port s p) =? STP_DISABLED); [|eexists; reflexivity].
    rewrite initialize_ok by auto. eexists; reflexivity.
  - destruct on; eexists; reflexivity.
Qed.

(** ** Ticks *)

(** The expiry of a forward delay timer changes nothing but the state of its own port, its
    timer, and what a topology change touches. *)
Lemma detection_get {A} (g : stp_port -> A) s q :
  (forall v x, g (with_p_tx_count v x) = g x) ->
  g (port (stp_topology_change_detection s) q) = g (port s q).
Proof.
  intros H. unfold stp_topology_change_detection. destruct (stp_is_root_bridge s); [done|].
  destruct (negb _); [|done]. unfold stp_transmit_tcn. destruct (root_port s); [|done].
  exact (send_get g _ tcn_bytes s q H).
Qed.

Definition delay_expired (elapsed : Z) (p : port_no) (s : stp) : bool :=
  (stp_timer_expired (p_forward_delay_timer (port s p)) elapsed (forward_delay s)).2.

(** The state of its port after [delay_step]. *)
Definition promoted (st : Z) (expired : bool) : Z :=
  if expired then
    if st =? STP_LISTENING then STP_LEARNING else if st =? STP_LEARNING then STP_FORWARDING else st
  else st.

Lemma forward_delay_expiry_state p s q :
  p_state (port (stp_forward_delay_timer_expiry p s) q)
  = if decide (p = q) then promoted (p_state (port s p)) true else p_state (port s q).
Proof.
  unfold stp_forward_delay_timer_expiry, promoted.
  destruct (p_state (port s p) =? STP_LISTENING) eqn:E1;
    [|destruct (p_state (port s p) =? STP_LEARNING) eqn:E2].
  - rewrite (port_upd_get p_state) by done. rewrite set_port_state_port. by case_decide.
  - assert (forall b, p_state (port (if b : bool then
        (if p_change_detection_enabled (port (stp_set_port_state p STP_FORWARDING s) p)
         then stp_topology_change_detection (stp_set_port_state p STP_FORWARDING s)
         else stp_set_port_state p STP_FORWARDING s)
        else stp_set_port_state p STP_FORWARDING s) q)
      = p_state (port (stp_set_port_state p STP_FORWARDING s) q)) as ->.
    { intros []; [|done]. destruct (p_change_detection_enabled _); [|done].
      by rewrite (detection_get p_state). }
    rewrite set_port_state_port. by case_decide.
  - by case_decide; [subst|].
Qed.

(** [delay_step] in three parts: the forward delay timer, the hold timer, the pending BPDU. *)
Lemma delay_step_eq elapsed p s :
  exists s1 s2,
    s1 = (let s0 := upd_port p (with_p_forward_delay_timer
            (stp_timer_expired (p_forward_delay_timer (port s p)) elapsed (forward_delay s)).1) s in
          if delay_expired elapsed p s then stp_forward_delay_timer_expiry p s0 else s0)
    /\ s2 = upd_port p (with_p_hold_timer
              (stp_timer_expired (p_hold_timer (port s1 p)) elapsed (ms_to_timer 1000)).1) s1
    /\ delay_step elapsed p s
       = if (stp_timer_expired (p_hold_timer (port s1 p)) elapsed (ms_to_timer 1000)).2
         then stp_hold_timer_expiry p s2 else s2.
Proof.
  do 2 eexists. split; [reflexivity|split; [reflexivity|]]. unfold delay_step, delay_expired.
  destruct (stp_timer_expired (p_forward_delay_timer (port s p)) _ _) as [t e]. cbn [fst snd].
  set (s1 := if e then _ else _).
  by destruct (stp_timer_expired (p_hold_timer (port s1 p)) _ _).
Qed.

Lemma hold_expiry_state p s q :
  p_state (port (stp_hold_timer_expiry p s) q) = p_state (port s q).
Proof. unfold stp_hold_timer_expiry. destruct (p_config_pending _); [apply transmit_state|done]. Qed.

Lemma delay_step_state elapsed p s q :
  p_state (port (delay_step elapsed p s) q)
  = if decide (p = q) then promoted (p_state (port s p)) (delay_expired elapsed p s)
    else p_state (port s q).
Proof.
  destruct (delay_step_eq elapsed p s) as (s1 & s2 & E1 & E2 & ->).
  assert (p_state (port s2 q) = p_state (port s1 q)) as H2 by (subst s2; by rewrite (port_upd_get p_state)).
  assert (p_state (port s1 q) = if decide (p = q) then promoted (p_state (port s p)) (delay_expired elapsed p s)
    else p_state (port s q)) as H1.
  { subst s1. cbv zeta. destruct (delay_expired elapsed p s).
    - rewrite forward_delay_expiry_state. rewrite !(port_upd_get p_state) by done. done.
    - rewrite (port_upd_get p_state) by done. by case_decide; [subst|]. }
  destruct (_.2); rewrite ?hold_expiry_state; congruence.
Qed.

Lemma forward_delay_expiry_rel (R : relation stp) `{!StpRel R} p s :
  (forall (t : stp_timer -> stp_timer) s,
     R s (upd_port p (fun q => with_p_forward_delay_timer (t (p_forward_delay_timer q)) q) s)) ->
  (forall st, st = STP_LEARNING \/ st = STP_FORWARDING -> R s (stp_set_port_state p st s)) ->
  R s (stp_forward_delay_timer_expiry p s).
Proof.
  intros Hf Hs. unfold stp_forward_delay_timer_expiry. destruct (p_state (port s p) =? STP_LISTENING);
    [|destruct (p_state (port s p) =? STP_LEARNING); [|reflexivity]].
  - etransitivity; [apply (Hs STP_LEARNING); auto|apply Hf].
  - set (s3 := stp_set_port_state p STP_FORWARDING s).
    assert (R s s3) by (apply Hs; auto).
    destruct (stp_is_designated_for_some_port s3); [|done].
    destruct (p_change_detection_enabled _); [|done]. etransitivity; [done|].
    apply (detection_rel R).
Qed.

Lemma delay_step_rel (R : relation stp) `{!StpRel R} elapsed p s :
  (forall (t : stp_timer -> stp_timer) s,
     R s (upd_port p (fun q => with_p_forward_delay_timer (t (p_forward_delay_timer q)) q) s)) ->
  (forall t s, R s (upd_port p (with_p_hold_timer t) s)) ->
  (forall st s, enabled s p = true -> st = STP_LEARNING \/ st = STP_FORWARDING ->
     R s (stp_set_port_state p st s)) ->
  enabled s p = true -> R s (delay_step elapsed p s).
Proof.
  intros Hf Hh Hs He. destruct (delay_step_eq elapsed p s) as (s1 & s2 & E1 & E2 & ->).
  assert (R s s1) as H1.
  { subst s1. cbv zeta. set (s0 := upd_port p _ s).
    assert (R s s0) as H0 by apply (Hf (fun _ => _)).
    assert (enabled s0 p = true) as He0 by (unfold enabled, s0 in *; by rewrite (port_upd_get p_state)).
    destruct (delay_expired elapsed p s); [|done]. etransitivity; [exact H0|].
    apply (forward_delay_expiry_rel R); auto. }
  assert (R s s2) as H by (etransitivity; [exact H1|subst s2; apply Hh]). clear E1 E2.
  destruct (_.2); [|done]. etransitivity; [exact H|]. unfold stp_hold_timer_expiry.
  destruct (p_config_pending _); [apply (rel_transmit R)|reflexivity].
Qed.

Lemma delay_step_tree elapsed p s : enabled s p = true -> keeps tree_ok s (delay_step elapsed p s).
Proof.
  apply delay_step_rel; [apply _|..]; intros.
  - apply tree_same_keeps, tree_same_upd; auto.
  - apply tree_same_keeps, tree_same_upd; auto.
  - apply tree_same_keeps, set_port_state_tree; [done|lia].
Qed.

Lemma delay_step_changed elapsed p s : enabled s p = true -> keeps changed_ok s (delay_step elapsed p s).
Proof.
  apply delay_step_rel; [apply _|..]; intros; [by apply changed_upd..|apply set_port_state_changed].
Qed.

(** A relation of ticks, from one of [delay_step]. *)
Lemma tick_rel (R : relation stp) `{!StpRel R} ms s :
  (forall r, R s (with_elapsed_remainder r s)) ->
  (forall elapsed p s, enabled s p = true -> R s (delay_step elapsed p s)) -> R s (stp_tick ms s).
Proof.
  intros Hr H. pose proof (tick_split ms s) as E. destruct (tick_elapsed _ _) as [e r]. rewrite E.
  destruct (e =? 0); [done|]. etransitivity; [apply (Hr r)|].
  etransitivity; [apply (tick_start_rel R)|]. apply (for_each_ind R). auto.
Qed.

Lemma delay_step_unpromoted i elapsed p s :
  p <> i -> enabled s p = true -> unpromoted i s (delay_step elapsed p s).
Proof.
  intros Hp. apply delay_step_rel; [apply _|..]; intros; apply unpromoted_same;
    by rewrite ?port_upd_ne, ?set_port_state_port, ?decide_False.
Qed.

Lemma transmit_forward_delay p s : forward_delay (stp_transmit_config p s) = forward_delay s.
Proof. unfold stp_transmit_config. by repeat case_match. Qed.

Lemma detection_forward_delay s : forward_delay (stp_topology_change_detection s) = forward_delay s.
Proof. unfold stp_topology_change_detection, stp_transmit_tcn. by repeat case_match. Qed.

Lemma set_port_state_forward_delay p st s : forward_delay (stp_set_port_state p st s) = forward_delay s.
Proof. unfold stp_set_port_state. by destruct (_ && _); [destruct (_ <? _)%nat|]. Qed.

Lemma delay_step_forward_delay elapsed p s : forward_delay (delay_step elapsed p s) = forward_delay s.
Proof.
  destruct (delay_step_eq elapsed p s) as (s1 & s2 & E1 & E2 & ->).
  assert (forward_delay s1 = forward_delay s) as H1.
  { subst s1. cbv zeta. destruct (delay_expired elapsed p s); [|done]. unfold stp_forward_delay_timer_expiry.
    repeat match goal with |- context [if ?b then _ else _] => destruct b end;
      try rewrite detection_forward_delay; try exact (set_port_state_forward_delay p _ _); done. }
  assert (forward_delay s2 = forward_delay s) as H2 by (by subst s2).
  clear E1 E2. destruct (_.2); [|done]. unfold stp_hold_timer_expiry.
  destruct (p_config_pending _); [by rewrite transmit_forward_delay|done].
Qed.

Definition calm (i : port_no) (s s' : stp) : Prop :=
  unpromoted i s s' /\ forward_delay s' = forward_delay s.

#[export] Instance calm_pre i : PreOrder (calm i).
Proof.
  split; [by split|]. intros s1 s2 s3 [H1 E1] [H2 E2]. split; [by etransitivity|congruence].
Qed.

(** What a tick does to the state of port [i]. *)
Lemma tick_state i ms s :
  let e := (tick_elapsed ms (elapsed_remainder s)).1 in
  let s' := stp_tick ms s in
  unpromoted i s s'
  \/ exists s1, unpromoted i s s1 /\ enabled s1 i = true
       /\ (p_state (port s' i) = STP_LEARNING \/ p_state (port s' i) = STP_FORWARDING ->
           p_state (port s' i) = promoted (p_state (port s1 i)) (delay_expired e i s1))
       /\ forward_delay s' = forward_delay s1.
Proof.
  cbv zeta. pose proof (tick_split ms s) as E. destruct (tick_elapsed _ _) as [e r]. cbn [fst]. rewrite E.
  set (s0 := with_elapsed_remainder r s) in *.
  assert (unpromoted i s s0) as Hr by (by apply unpromoted_loose).
  destruct (e =? 0); [by left|].
  assert (unpromoted i s (tick_start e s0)) as H0
    by (etransitivity; [exact Hr|apply (tick_start_rel (unpromoted i))]).
  destruct (for_each_at (calm i) (delay_step e) i (tick_start e s0)) as (s1 & [H1 F1] & [H2 F2]).
  { intros p s1 Hp He. split; [by apply delay_step_unpromoted|apply delay_step_forward_delay]. }
  assert (unpromoted i s s1) as H by (by etransitivity).
  destruct (enabled s1 i) eqn:He; [right|left; by etransitivity].
  exists s1. split_and!; [done|done| |by rewrite F2, delay_step_forward_delay].
  intros Hs. destruct H2 as [_ H2]. destruct (H2 Hs) as [-> _].
  rewrite delay_step_state. by rewrite decide_True.
Qed.

(** *** The rate limit *)

Lemma delay_step_limited_other i elapsed p s :
  p <> i -> enabled s p = true -> limited i s (delay_step elapsed p s).
Proof.
  intros Hp. apply delay_step_rel; [apply _|..]; intros.
  - by apply limited_upd.
  - apply limited_same; [done|]. by rewrite port_upd_ne.
  - apply set_port_state_limited.
Qed.

Lemma timer_expired_small t elapsed timeout :
  0 <= t_value t < 256 -> 0 <= elapsed < 2 ^ 30 ->
  stp_timer_expired t elapsed timeout
  = if t_active t then
      if timeout <=? t_value t + elapsed then (MkTimer false (t_value t + elapsed), true)
      else (MkTimer true (t_value t + elapsed), false)
    else (t, false).
Proof.
  intros H1 H2. unfold stp_timer_expired. destruct (t_active t); [|done]. rewrite swrap_small; [done|lia|lia].
Qed.

(** A state that has sent [256 * configs_on] more ticks' worth of BPDUs than its hold timer
    explains, by at most [e] ticks. *)
Definition limited_by (e : Z) (i : port_no) (s s' : stp) : Prop :=
  hold_ok s i ->
  hold_ok s' i
  /\ exists new, sent s' = sent s ++ new
       /\ 256 * Z.of_nat (configs_on i new) + hold_left s i <= hold_left s' i + e.

Lemma limited_by_around e i s1 s2 s3 s4 :
  limited i s1 s2 -> limited_by e i s2 s3 -> limited i s3 s4 -> limited_by e i s1 s4.
Proof.
  intros H1 H2 H3 H. destruct (H1 H) as (O2 & n1 & E1 & B1). destruct (H2 O2) as (O3 & n2 & E2 & B2).
  destruct (H3 O3) as (O4 & n3 & E3 & B3). split; [done|]. exists (n1 ++ n2 ++ n3).
  rewrite !configs_on_app, E3, E2, E1, !app_assoc. split; [done|lia].
Qed.

Lemma limited_limited_by i s s' : limited i s s' -> limited_by 0 i s s'.
Proof. intros H Hok. destruct (H Hok) as (? & new & ? & ?). split; [done|]. exists new. split; [done|lia]. Qed.

Lemma delay_step_limited i elapsed s :
  enabled s i = true -> 0 <= elapsed < 2 ^ 30 -> limited_by elapsed i s (delay_step elapsed i s).
Proof.
  intros He Hel. destruct (delay_step_eq elapsed i s) as (s1 & s2 & E1 & E2 & ->).
  assert (limited i s s1) as H1.
  { subst s1. cbv zeta. set (s0 := upd_port i _ s).
    assert (limited i s s0) as H0 by (by apply limited_upd).
    destruct (delay_expired elapsed i s); [|done]. etransitivity; [exact H0|].
    apply (forward_delay_expiry_rel (limited i)); intros; [by apply limited_upd|apply set_port_state_limited]. }
  assert (limited_by elapsed i s1 s2) as H2.
  { intros Hok. change (ms_to_timer 1000) with 256 in *.
    set (x := stp_timer_expired (p_hold_timer (port s1 i)) elapsed 256) in *.
    assert (p_hold_timer (port s2 i) = x.1) as Hh by (subst s2; by rewrite port_upd_eq).
    unfold hold_ok, hold_left in *. rewrite Hh.
    destruct (t_active (p_hold_timer (port s1 i))) eqn:Ha.
    - specialize (Hok eq_refl). unfold x. rewrite timer_expired_small by done. rewrite Ha.
      destruct (Z.leb_spec 256 (t_value (p_hold_timer (port s1 i)) + elapsed)); cbn [fst t_active t_value].
      + split; [done|]. exists []. rewrite app_nil_r. split; [by subst s2|cbn; lia].
      + split; [lia|]. exists []. rewrite app_nil_r. split; [by subst s2|cbn; lia].
    - unfold x, stp_timer_expired. rewrite Ha. cbn [fst]. rewrite Ha.
      split; [done|]. exists []. rewrite app_nil_r. split; [by subst s2|cbn; lia]. }
  apply (limited_by_around elapsed i _ s1 s2); [done|done|].
  clear E1 E2 H1 H2. destruct (_.2); [|reflexivity]. unfold stp_hold_timer_expiry.
  destruct (p_config_pending _); [apply transmit_limited|reflexivity].
Qed.

Lemma tick_limited i ms s :
  let e := (tick_elapsed ms (elapsed_remainder s)).1 in
  0 <= e < 2 ^ 30 -> limited_by e i s (stp_tick ms s).
Proof.
  cbv zeta. pose proof (tick_split ms s) as E. destruct (tick_elapsed _ _) as [e r]. cbn [fst]. rewrite E.
  intros He. set (s0 := with_elapsed_remainder r s).
  assert (limited i s s0) as Hr by (by apply limited_loose).
  destruct (Z.eqb_spec e 0) as [->|_]; [by apply limited_limited_by|].
  destruct (for_each_at (limited i) (delay_step e) i (tick_start e s0)) as (s1 & H1 & H2).
  { intros p s1 Hp Hen. by apply delay_step_limited_other. }
  assert (limited i s s1) as H by (etransitivity; [exact Hr|etransitivity; [apply (tick_start_rel (limited i))|done]]).
  assert (limited_by e i s1 (if enabled s1 i then delay_step e i s1 else s1)) as H3.
  { destruct (enabled s1 i) eqn:E1; [by apply delay_step_limited|].
    intros Hok. destruct (limited_limited_by i s1 s1 ltac:(reflexivity) Hok) as (? & new & ? & ?).
    split; [done|]. exists new. split; [done|lia]. }
  exact (limited_by_around e i _ _ _ _ H H3 H2).
Qed.

(** ** The invariants over any call *)

Lemma rebase_keeps (R : relation stp) `{!StpRel R} id s :
  (forall p s, R s (upd_port p (with_p_designated_bridge id) s)) ->
  (forall s, R s (with_bridge_id id s)) -> R s (rebase id s).
Proof.
  intros Hu Hw. unfold rebase. apply (rel_after R stp_configuration_update); [apply (rel_update R)|].
  apply (rel_after R (with_bridge_id id)); [apply Hw|]. apply (for_each_ind R). intros p s1 _.
  destruct (stp_is_designated_port s1 p); [apply Hu|reflexivity].
Qed.

Lemma get_changed_port_keeps (R : relation stp) `{!StpRel R} s :
  (forall p s, p_state_changed (port s p) = true -> (first_changed_port s <= p)%nat ->
     (forall q : port_no, (first_changed_port s <= q)%nat -> p_state_changed (port s q) = true -> (p <= q)%nat) ->
     R s (with_first_changed_port (S p) (upd_port p (with_p_state_changed false) s))) ->
  ((forall q : port_no, (first_changed_port s <= q)%nat -> p_state_changed (port s q) = false) ->
   R s (with_first_changed_port STP_MAX_PORTS s)) ->
  R s (stp_get_changed_port s).2.
Proof.
  intros H1 H2. unfold stp_get_changed_port. rewrite find_first_pos.
  destruct (find_pos _ (enum port_no)) as [[k p]|] eqn:E; cbn [fmap option_fmap option_map snd].
  - destruct (find_pos_Some _ _ _ _ E) as [Hk Hp]. apply andb_true_iff in Hp as [Hf Hp].
    apply Nat.leb_le in Hf. apply H1; [done|done|]. intros q Hq Hc.
    apply enum_port_lookup_inv in Hk. subst k.
    destruct (le_lt_dec p q) as [|Hlt]; [done|].
    pose proof (find_pos_first _ _ _ _ _ _ E Hlt (enum_port_lookup q)) as Hn. cbv beta in Hn.
    rewrite Hc in Hn. apply andb_false_iff in Hn as [Hn|]; [|done]. apply Nat.leb_gt in Hn. lia.
  - apply H2. intros q Hq. rewrite find_pos_None in E.
    pose proof (E q (elem_of_enum q)) as Hn. cbv beta in Hn.
    apply andb_false_iff in Hn as [Hn|]; [|done]. apply Nat.leb_gt in Hn. lia.
Qed.

Lemma call_tree c s s' : call c s = Ret s' -> tree_ok s -> tree_ok s'.
Proof.
  intros E. apply (call_rel (keeps tree_ok) c s s'); [..|exact E].
  - intros id _. apply update_tree.
  - intros p cfg _ _. apply update_tree.
  - apply (get_changed_port_keeps (keeps tree_ok)).
    + intros p s1 _ _ _. transitivity (upd_port p (with_p_state_changed false) s1);
        [apply tree_same_keeps, tree_same_upd; auto|].
      intros [H1 H2 H3]. split; assumption.
    + intros _ [H1 H2 H3]. split; assumption.
  - intros p _ _. apply update_tree.
  - intros p -> Hp [H1 H2 H3].
    assert (forall q, port (initialized p STP_BLOCKING s) q <> port s q -> q = p) as Hq.
    { intros q Hne. destruct (decide (p = q)); [done|]. destruct Hne. unfold initialized, stp_become_designated_port.
      by rewrite port_upd_ne, set_port_state_port, decide_False, port_upd_ne. }
    assert (p_designated_root (port (initialized p STP_BLOCKING s) p) = designated_root s) as Hr.
    { unfold initialized, stp_become_designated_port.
      rewrite port_upd_eq. cbn. rewrite set_port_state_port, decide_True by done.
      rewrite port_upd_eq. cbn. by destruct (_ && _). }
    assert (designated_root (initialized p STP_BLOCKING s) = designated_root s
      /\ bridge_id (initialized p STP_BLOCKING s) = bridge_id s
      /\ root_port (initialized p STP_BLOCKING s) = root_port s
      /\ root_path_cost (initialized p STP_BLOCKING s) = root_path_cost s) as (E1 & E2 & E3 & E4).
    { unfold initialized, stp_set_port_state. by destruct (_ && _); [destruct (_ <? _)%nat|]. }
    split; rewrite ?E1, ?E2, ?E3, ?E4; [done| |].
    + intros r Hr'. destruct (H2 r Hr') as [He ?]. split; [|done].
      assert (p <> r) by congruence. unfold enabled, initialized, stp_become_designated_port in *.
      by rewrite port_upd_ne, set_port_state_port, decide_False, port_upd_ne.
    + intros q He. destruct (decide (p = q)) as [<-|Hn]; [done|].
      unfold enabled, initialized, stp_become_designated_port in *.
      rewrite port_upd_ne, set_port_state_port, decide_False, port_upd_ne in He |- * by done. by apply H3.
  - intros ms ->. apply (tick_rel (keeps tree_ok)); [by intros; apply tree_loose|apply delay_step_tree].
  - intros Hs. apply tree_loose. by apply (sets_timer_loose c).
Qed.

Lemma initialized_changed p st s : keeps changed_ok s (initialized p st s).
Proof.
  unfold initialized. etransitivity; [|by apply changed_upd].
  etransitivity; [|apply set_port_state_changed]. by apply changed_upd.
Qed.

Lemma call_changed c s s' : call c s = Ret s' -> changed_ok s -> changed_ok s'.
Proof.
  intros E. apply (call_rel (keeps changed_ok) c s s'); [..|exact E].
  - intros id. apply (rebase_keeps (keeps changed_ok)); [by intros; apply changed_upd|].
    intros s1. by apply changed_same.
  - intros p cfg _. apply (rel_after (keeps changed_ok) stp_configuration_update);
      [apply (rel_update (keeps changed_ok))|by apply changed_upd].
  - apply (get_changed_port_keeps (keeps changed_ok)).
    + intros p s1 _ Hf Hmin Hok q. cbn [first_changed_port with_first_changed_port].
      assert (forall v s q, port (with_first_changed_port v s) q = port s q) as -> by done.
      rewrite port_upd. case_decide; [done|]. intros Hq. specialize (Hmin q (Hok q Hq) Hq).
      assert (fin_to_nat p <> fin_to_nat q) by (intros Heq; by apply fin_to_nat_inj in Heq). lia.
    + intros Hno Hok q Hq. change (p_state_changed (port s q) = true) in Hq.
      rewrite Hno in Hq; [done|by apply Hok].
  - intros p _. apply (rel_after (keeps changed_ok) stp_configuration_update);
      [apply (rel_update (keeps changed_ok))|]. unfold disable_start.
    etransitivity; [|by apply changed_upd]. etransitivity; [|apply set_port_state_changed]. by apply changed_upd.
  - intros p _ _. apply initialized_changed.
  - intros ms ->. apply (tick_rel (keeps changed_ok)); [by intros; apply changed_loose|apply delay_step_changed].
  - intros Hs. apply changed_loose. by apply (sets_timer_loose c).
Qed.

(** The parameters change only when set, the left-over milliseconds only in a tick. *)
Definition is_tick (c : stp_call) : bool := match c with Tick _ => true | _ => false end.

Lemma call_settings c s s' :
  call c s = Ret s' -> sets_timer c = false -> is_tick c = false -> same_settings s s'.
Proof.
  intros E Hs Ht. apply (call_rel same_settings c s s'); [..|exact E].
  - intros id. by apply (rebase_keeps same_settings).
  - intros p cfg _. apply (rel_after same_settings stp_configuration_update); [apply (rel_update same_settings)|done].
  - by apply (get_changed_port_keeps same_settings).
  - intros p _. apply (rel_after same_settings stp_configuration_update); [apply (rel_update same_settings)|].
    unfold disable_start. exact (set_port_state_settings p STP_DISABLED (stp_become_designated_port p s)).
  - intros p _ _. exact (set_port_state_settings p STP_BLOCKING (stp_become_designated_port p s)).
  - intros ms ->. discriminate.
  - rewrite Hs. discriminate.
Qed.

Lemma tick_settings ms s :
  settings (stp_tick ms s) = (tick_elapsed ms (elapsed_remainder s)).2 :: tail (settings s).
Proof.
  pose proof (tick_split ms s) as E. destruct (tick_elapsed _ _) as [e r]. cbn [snd]. rewrite E.
  set (s0 := with_elapsed_remainder r s). change (r :: tail (settings s)) with (settings s0).
  destruct (e =? 0); [done|]. change (same_settings s0 (for_each_enabled_port (delay_step e) (tick_start e s0))).
  etransitivity; [apply (tick_start_rel same_settings)|]. apply (for_each_ind same_settings).
  intros p s1 He. apply (delay_step_rel same_settings);
    [done|done|intros; apply set_port_state_settings|done].
Qed.

(** ** Clock *)

(** Ticks that successive stp_tick calls make, from the given left-over milliseconds. *)
Fixpoint ticks (remainder : Z) (mss : list Z) : Z :=
  match mss with
  | [] => 0
  | ms :: mss' => let (e, r) := tick_elapsed ms remainder in e + ticks r mss'
  end.

(** Argument of stp_tick up to which the conversion to ticks does not overflow. *)
Definition MAX_TICK_MS : Z := 8388000.

Lemma tick_elapsed_ok ms r0 :
  ms <= MAX_TICK_MS -> 0 <= r0 <= 4 ->
  let (e, r) := tick_elapsed ms r0 in
  0 <= e < 2 ^ 30 /\ 0 <= r <= 4 /\ e * 1000 / 256 + r = Z.max 0 ms + r0.
Proof.
  unfold MAX_TICK_MS. intros Hms Hr. unfold tick_elapsed.
  assert (clamp ms 0 (INT_MAX - 1000) = Z.max 0 ms) as ->
    by (unfold clamp; destruct (Z.ltb_spec ms 0); [lia|]; destruct (Z.ltb_spec (INT_MAX - 1000) ms); lia).
  set (m := Z.max 0 ms + r0). assert (0 <= m <= 8388004) by lia.
  assert (ms_to_timer m = m * 256 / 1000) as ->
    by (unfold ms_to_timer; rewrite swrap_small by lia; apply Z.quot_div_nonneg; lia).
  pose proof (Z.div_mod (m * 256) 1000 ltac:(lia)). pose proof (Z.mod_pos_bound (m * 256) 1000 ltac:(lia)).
  set (e := m * 256 / 1000) in *. clearbody e.
  assert (timer_to_ms e = e * 1000 / 256) as ->
    by (unfold timer_to_ms; rewrite swrap_small by lia; apply Z.quot_div_nonneg; lia).
  pose proof (Z.div_mod (e * 1000) 256 ltac:(lia)). pose proof (Z.mod_pos_bound (e * 1000) 256 ltac:(lia)).
  split; [|split]; lia.
Qed.

Lemma ticks_cons ms mss r0 :
  ticks r0 (ms :: mss) = (tick_elapsed ms r0).1 + ticks (tick_elapsed ms r0).2 mss.
Proof. cbn [ticks]. by destruct (tick_elapsed ms r0). Qed.

(** ** Creation *)

Lemma initialized_other p st s q : p <> q -> port (initialized p st s) q = port s q.
Proof.
  intros Hn. unfold initialized, stp_become_designated_port.
  by rewrite port_upd_ne, set_port_state_port, decide_False, port_upd_ne.
Qed.

Lemma initialized_self p st s :
  p_state (port (initialized p st s) p) = st /\ t_active (p_hold_timer (port (initialized p st s) p)) = false.
Proof.
  unfold initialized. rewrite port_upd_eq. cbn. by rewrite set_port_state_port, decide_True.
Qed.

Definition create_step (s : stp) (p : port_no) : stp :=
  initialized p STP_DISABLED
    (upd_port p (fun q =>
      with_p_path_cost 19
        (with_p_port_id (Z.lor (Z.of_nat p + 1) (Z.shiftl STP_DEFAULT_PORT_PRIORITY 8)) q)) s).

Lemma create_ports_eq s : create_ports s = Ret (fold_left create_step (enum port_no) s).
Proof.
  unfold create_ports. revert s. induction (enum port_no) as [|p l IH]; intros s; [done|].
  cbn [fold_left]. rewrite <- IH. f_equal.
Qed.

Lemma create_step_bridge s p :
  let s' := create_step s p in
  bridge_id s' = bridge_id s /\ designated_root s' = designated_root s /\ root_path_cost s' = root_path_cost s
  /\ root_port s' = root_port s /\ sent s' = sent s /\ settings s' = settings s.
Proof.
  cbv zeta. unfold create_step, initialized, stp_set_port_state.
  by destruct (_ && _); [destruct (_ <? _)%nat|].
Qed.

Lemma create_fold l s :
  let s' := fold_left create_step l s in
  bridge_id s' = bridge_id s /\ designated_root s' = designated_root s /\ root_path_cost s' = root_path_cost s
  /\ root_port s' = root_port s /\ sent s' = sent s /\ settings s' = settings s
  /\ (changed_ok s -> changed_ok s')
  /\ forall q, q ∈ l -> enabled s' q = false /\ t_active (p_hold_timer (port s' q)) = false.
Proof.
  cbv zeta. induction l as [|p l IH] using rev_ind.
  { split_and!; try done. intros q Hq. by apply not_elem_of_nil in Hq. }
  rewrite fold_left_app. cbn [fold_left]. set (s1 := fold_left create_step l s) in *.
  destruct IH as (E1 & E2 & E3 & E4 & E5 & E6 & Hc & Hq).
  destruct (create_step_bridge s1 p) as (F1 & F2 & F3 & F4 & F5 & F6).
  split_and!; try congruence.
  - intros H. apply initialized_changed. by apply changed_upd; [|apply Hc].
  - intros q Hin. unfold enabled. destruct (decide (p = q)) as [<-|Hn].
    + unfold create_step. destruct (initialized_self p STP_DISABLED
        (upd_port p (fun q => with_p_path_cost 19 (with_p_port_id (Z.lor (Z.of_nat p + 1)
           (Z.shiftl STP_DEFAULT_PORT_PRIORITY 8)) q)) s1)) as [-> ->]. done.
    + unfold create_step. rewrite initialized_other, port_upd_ne by done. apply Hq.
      apply elem_of_app in Hin as [|Hin]; [done|]. apply list_elem_of_singleton in Hin. congruence.
Qed.

Lemma create_ports_ok s :
  exists s', create_ports s = Ret s' /\ bridge_id s' = bridge_id s /\ designated_root s' = designated_root s
  /\ root_path_cost s' = root_path_cost s /\ root_port s' = root_port s /\ sent s' = sent s
  /\ settings s' = settings s /\ (changed_ok s -> changed_ok s')
  /\ forall q, enabled s' q = false /\ t_active (p_hold_timer (port s' q)) = false.
Proof.
  rewrite create_ports_eq. eexists. split; [reflexivity|].
  destruct (create_fold (enum port_no) s) as (E1 & E2 & E3 & E4 & E5 & E6 & Hc & Hq).
  split_and!; try assumption. intros q. apply Hq, elem_of_enum.
Qed.

(** Bridge timers as a function of what the client asked for. *)
Definition timers_ok (s : stp) : Prop :=
  let ht := clamp (rq_hello_time s) 1000 10000 in
  let ma := clamp (rq_max_age s) (Z.max (2 * (ht + 1000)) 6000) 40000 in
  let fd := clamp (rq_forward_delay s) (Z.quot ma 2 + 1000) 30000 in
  bridge_hello_time s = ms_to_timer ht /\ bridge_max_age s = ms_to_timer ma
  /\ bridge_forward_delay s = ms_to_timer fd.

Lemma update_timers_ok s : timers_ok (stp_update_bridge_timers s).
Proof. unfold stp_update_bridge_timers. cbv zeta. by destruct (stp_is_root_bridge _). Qed.

Lemma update_timers_remainder s : elapsed_remainder (stp_update_bridge_timers s) = elapsed_remainder s.
Proof. unfold stp_update_bridge_timers. cbv zeta. by destruct (stp_is_root_bridge _). Qed.

Lemma settings_remainder s l : settings s = l -> elapsed_remainder s = nth 0 l 0.
Proof. by intros <-. Qed.

Lemma timers_settings s s' : tail (settings s') = tail (settings s) -> timers_ok s -> timers_ok s'.
Proof. intros [=E1 E2 E3 E4 E5 E6]. unfold timers_ok. by rewrite E1, E2, E3, E4, E5, E6. Qed.

Record stp_inv (s : stp) : Prop := {
  inv_tree : tree_ok s;
  inv_changed : changed_ok s;
  inv_timers : timers_ok s;
  inv_remainder : 0 <= elapsed_remainder s <= 4
}.

Lemma create_base_ok nm id :
  let s := create_base nm id in
  root_port s = None /\ designated_root s = bridge_id s /\ root_path_cost s = 0 /\ sent s = []
  /\ elapsed_remainder s = 0 /\ ports s = vreplicate STP_MAX_PORTS zero_port /\ timers_ok s.
Proof.
  cbv zeta. unfold create_base. cbv zeta. set (s0 := with_rq_forward_delay _ _).
  pose proof (update_timers_ok s0) as Ht. pose proof (update_timers_loose s0) as (L1 & L2 & L3 & L4 & L5 & L6 & L7).
  pose proof (update_timers_remainder s0) as L8.
  revert Ht L1 L2 L8. generalize (stp_update_bridge_timers s0). intros s1 Ht L1 L2 L8.
  split; [done|]. split; [done|]. split; [done|].
  split; [exact L2|]. split; [exact L8|]. split; [exact L1|exact Ht].
Qed.

Lemma create_ports_inv b :
  root_port b = None -> designated_root b = bridge_id b -> root_path_cost b = 0 -> sent b = [] ->
  elapsed_remainder b = 0 -> ports b = vreplicate STP_MAX_PORTS zero_port -> timers_ok b ->
  exists s, create_ports b = Ret s /\ stp_inv s /\ root_port s = None /\ sent s = []
    /\ elapsed_remainder s = 0
    /\ forall p, enabled s p = false /\ t_active (p_hold_timer (port s p)) = false.
Proof.
  intros B1 B2 B3 B4 B5 B6 B7.
  destruct (create_ports_ok b) as (s & E & E1 & E2 & E3 & E4 & E5 & E6 & Hc & Hp).
  exists s. split; [exact E|]. clear E.
  assert (elapsed_remainder s = 0) as Hr
    by (rewrite (settings_remainder _ _ E6); exact B5).
  split; [split|split; [congruence|split; [congruence|split; [exact Hr|exact Hp]]]].
  - split; [intros _; split; congruence|congruence|]. intros p He. by rewrite (proj1 (Hp p)) in He.
  - apply Hc. intros p. assert (port b p = zero_port) as -> by (unfold port; rewrite B6; apply vlookup_replicate).
    discriminate.
  - apply (timers_settings b); [by rewrite E6|exact B7].
  - lia.
Qed.

Lemma create_ok nm id :
  exists s, stp_create nm id = Ret s /\ stp_inv s /\ root_port s = None /\ sent s = []
    /\ elapsed_remainder s = 0
    /\ forall p, enabled s p = false /\ t_active (p_hold_timer (port s p)) = false.
Proof.
  destruct (create_base_ok nm id) as (B1 & B2 & B3 & B4 & B5 & B6 & B7).
  unfold stp_create. by apply create_ports_inv.
Qed.

Lemma call_inv c s s' :
  match c with Tick ms => ms <= MAX_TICK_MS | _ => True end ->
  call c s = Ret s' -> stp_inv s -> stp_inv s'.
Proof.
  intros Hc E [H1 H2 H3 H4].
  assert (timers_ok s' /\ 0 <= elapsed_remainder s' <= 4) as [H5 H6].
  { destruct (is_tick c) eqn:Et; [|destruct (sets_timer c) eqn:Es].
    - destruct c; try discriminate. cbn [call] in E. apply Ret_inj in E. subst s'.
      pose proof (tick_settings ms s) as E. pose proof (tick_elapsed_ok ms _ Hc H4) as Ht.
      destruct (tick_elapsed ms _) as [e r]. cbn [snd] in E. split.
      + apply (timers_settings s); [by rewrite E|done].
      + apply settings_remainder in E. cbn [nth] in E. lia.
    - destruct c; try discriminate; cbn [call] in E; apply Ret_inj in E; subst s';
        (split; [apply update_timers_ok|]); unfold stp_set_hello_time, stp_set_max_age, stp_set_forward_delay;
        by rewrite update_timers_remainder.
    - pose proof (call_settings c s s' E Es Et) as Hs. split.
      + apply (timers_settings s); [by rewrite Hs|done].
      + apply settings_remainder in Hs. cbn [nth settings] in Hs. lia. }
  split; [by eapply call_tree|by eapply call_changed|done|done].
Qed.

Lemma calls_inv cs s :
  Forall (fun c => match c with Tick ms => ms <= MAX_TICK_MS | _ => True end) cs ->
  stp_inv s -> exists s', calls cs s = Ret s' /\ stp_inv s'.
Proof.
  intros Hcs. revert s. induction Hcs as [|c cs Hc _ IH]; intros s Hs; [by exists s|].
  destruct (call_returns c s) as [s1 E]. destruct (IH s1) as (s' & E' & H'); [by eapply call_inv|].
  exists s'. split; [|done]. cbn [calls]. by rewrite E.
Qed.
