(* ===== verification/StpDelay.v ===== *)
(** * The forward delay of the spanning tree (lib/stp.c)

    How long a port has waited: its forward delay timer runs from 0 while it listens and again
    from 0 while it learns.  [waited] is the time of both, and no call but a tick lets it grow. *)
From stdpp Require Import finite.
From S2P Require Import Prelude StpData Stp StpRel StpInv StpCalls.

Local Open Scope Z_scope.

(** The forward delay timer of a port does not overflow when it is advanced. *)
Definition delay_ok (i : port_no) (s : stp) : Prop :=
  t_active (p_forward_delay_timer (port s i)) = true ->
  0 <= t_value (p_forward_delay_timer (port s i)) < 2 ^ 16.

(** The ticks the forward delay timer has counted. *)
Definition counted_ticks (t : stp_timer) : Z := if t_active t then t_value t else 0.

(** The time port [i] has waited on its way to forward, where each of the two stages needs [D]. *)
Definition waited_in (D st : Z) (t : stp_timer) : Z :=
  if st =? STP_LISTENING then counted_ticks t
  else if st =? STP_LEARNING then D + counted_ticks t
  else if st =? STP_FORWARDING then 2 * D
  else 0.

Definition waited (D : Z) (i : port_no) (s : stp) : Z :=
  waited_in D (p_state (port s i)) (p_forward_delay_timer (port s i)).

(** From [s] to [s'] port [i] has not waited longer than [e] ticks. *)
Definition slow_by (D e : Z) (i : port_no) (s s' : stp) : Prop :=
  delay_ok i s -> delay_ok i s' /\ waited D i s' <= waited D i s + e.

Definition slow (D : Z) : port_no -> relation stp := slow_by D 0.

#[export] Instance slow_pre D i : PreOrder (slow D i).
Proof.
  split; [intros s H; split; [done|lia]|]. intros s1 s2 s3 H1 H2 H. destruct (H1 H) as [O1 L1].
  destruct (H2 O1) as [O2 L2]. split; [done|lia].
Qed.

Lemma slow_around D e i s1 s2 s3 s4 :
  slow D i s1 s2 -> slow_by D e i s2 s3 -> slow D i s3 s4 -> slow_by D e i s1 s4.
Proof.
  intros H1 H2 H3 H. destruct (H1 H) as [O1 L1]. destruct (H2 O1) as [O2 L2]. destruct (H3 O2) as [O3 L3].
  split; [done|lia].
Qed.

Lemma slow_same D i s s' :
  p_state (port s' i) = p_state (port s i) ->
  p_forward_delay_timer (port s' i) = p_forward_delay_timer (port s i) -> slow D i s s'.
Proof. intros E1 E2 H. unfold delay_ok, waited in *. rewrite E1, E2. split; [done|lia]. Qed.

Lemma slow_upd D i p f s :
  (forall q, p_state (f q) = p_state q /\ p_forward_delay_timer (f q) = p_forward_delay_timer q) ->
  slow D i s (upd_port p f s).
Proof. intros H. apply slow_same; apply port_upd_get; apply H. Qed.

Lemma slow_loose D i s s' : loose s s' -> slow D i s s'.
Proof. intros (E1 & _). apply slow_same; unfold port; by rewrite E1. Qed.

Lemma counted_nonneg i s : delay_ok i s -> 0 <= counted_ticks (p_forward_delay_timer (port s i)).
Proof. unfold delay_ok, counted_ticks. destruct (t_active _); [|lia]. intros H. specialize (H eq_refl). lia. Qed.

Lemma waited_nonneg D i s : 0 <= D -> delay_ok i s -> 0 <= waited D i s.
Proof.
  intros HD H. pose proof (counted_nonneg i s H). unfold waited, waited_in.
  destruct (_ =? _); [lia|]. destruct (_ =? _); [lia|]. destruct (_ =? _); lia.
Qed.

(** A port that is reset or starts to listen with its timer at 0 has waited for nothing. *)
Lemma slow_reset D i p st f s :
  0 <= D -> st = STP_LISTENING \/ st = STP_BLOCKING \/ st = STP_DISABLED ->
  (forall q, p_state (f q) = p_state q) ->
  (forall q, p_forward_delay_timer (f q) = stp_start_timer 0 (p_forward_delay_timer q)
             \/ p_forward_delay_timer (f q) = stp_stop_timer (p_forward_delay_timer q)) ->
  slow D i s (upd_port p f (stp_set_port_state p st s)).
Proof.
  intros HD Hst Hf Ht H. unfold delay_ok, waited. rewrite !port_upd, !set_port_state_port.
  case_decide; [|split; [done|fold (waited D i s); lia]]. subst i. rewrite decide_True by done. rewrite Hf.
  set (q := with_p_state st _). pose proof (waited_nonneg D p s HD H).
  assert (counted_ticks (p_forward_delay_timer (f q)) = 0
          /\ (t_active (p_forward_delay_timer (f q)) = true -> 0 <= t_value (p_forward_delay_timer (f q)) < 2 ^ 16))
    as [E Hok] by (destruct (Ht q) as [-> | ->]; [by split; [|cbn; lia]|by split]).
  split; [exact Hok|]. assert (waited_in D st (p_forward_delay_timer (f q)) = 0) as E0
    by (unfold waited_in; rewrite E; by destruct Hst as [->|[->| ->]]).
  change (p_state q) with st. rewrite E0. unfold waited in *. lia.
Qed.

Lemma slow_base D i : 0 <= D -> StpBase (slow D i).
Proof.
  intros HD. split_and!.
  - apply _.
  - intros s s' [H _]. by apply slow_loose.
  - intros p f s H. apply slow_upd. intros q. by destruct (H q) as (? & ? & ? & ?).
  - intros p s. by apply slow_upd.
  - intros p s. destruct (transmit_state i p s). by apply slow_same.
  - intros p s. destruct (send_state i p tcn_bytes s). by apply slow_same.
  - intros p s _. apply slow_reset; [done|by left|done|by left].
  - intros p s _. apply slow_reset; [done|by right; left|done|by right].
Qed.

Lemma slow_rel D i : 0 <= D -> StpRel (slow D i).
Proof.
  intros HD. split; [by apply slow_base|].
  intros s. apply update_keeps; [apply _|by intros; apply slow_upd|].
  intros s1. destruct (root_selection_ports s1) as [E1 E2]. apply slow_same; unfold port; by rewrite E1.
Qed.

(** ** Calls *)

Lemma disable_start_slow D i p s : 0 <= D -> slow D i s (disable_start p s).
Proof.
  intros HD. unfold disable_start. transitivity (stp_become_designated_port p s); [by apply slow_upd|].
  apply slow_reset; [done|by right; right|done|by right].
Qed.

Lemma initialized_slow D i p s : 0 <= D -> slow D i s (initialized p STP_BLOCKING s).
Proof.
  intros HD. unfold initialized. transitivity (stp_become_designated_port p s); [by apply slow_upd|].
  apply slow_reset; [done|by right; left|done|by right].
Qed.

Lemma call_slow D c s s' i : 0 <= D -> call c s = Ret s' -> is_tick c = false -> slow D i s s'.
Proof.
  intros HD E Ht. pose proof (slow_rel D i HD) as HR. apply (call_rel (slow D i) c s s'); [..|exact E].
  - intros id. apply (rebase_keeps (slow D i)); intros; [by apply slow_upd|by apply slow_same].
  - intros p cfg _. apply (rel_after (slow D i) stp_configuration_update);
      [apply (rel_update (slow D i))|by apply slow_upd].
  - apply (get_changed_port_keeps (slow D i)); [|intros _; by apply slow_same].
    intros p s1 _ _ _. apply (slow_same D i);
      [exact (port_upd_get p_state p (with_p_state_changed false) s1 i (fun q => eq_refl))
      |exact (port_upd_get p_forward_delay_timer p (with_p_state_changed false) s1 i (fun q => eq_refl))].
  - intros p _. apply (rel_after (slow D i) stp_configuration_update);
      [apply (rel_update (slow D i))|by apply disable_start_slow].
  - intros p _ _. by apply initialized_slow.
  - intros ms ->. discriminate.
  - intros Hs. apply slow_loose. by apply (sets_timer_loose c).
Qed.

(** ** Ticks *)

Lemma forward_delay_expiry_timer p s :
  p_forward_delay_timer (port (stp_forward_delay_timer_expiry p s) p)
  = if p_state (port s p) =? STP_LISTENING then MkTimer true 0 else p_forward_delay_timer (port s p).
Proof.
  unfold stp_forward_delay_timer_expiry. destruct (p_state (port s p) =? STP_LISTENING); [by rewrite port_upd_eq|].
  destruct (p_state (port s p) =? STP_LEARNING); [|done].
  assert (p_forward_delay_timer (port (stp_set_port_state p STP_FORWARDING s) p) = p_forward_delay_timer (port s p)) as E
    by (rewrite set_port_state_port, decide_True by done; by destruct (_ && _)).
  destruct (stp_is_designated_for_some_port _); [|done]. destruct (p_change_detection_enabled _); [|done].
  by rewrite (detection_get p_forward_delay_timer).
Qed.

(** The forward delay timer of a port is advanced, and its expiry moves the port on. *)
Lemma expiry_slow D i e s :
  0 <= D <= forward_delay s -> forward_delay s < 2 ^ 16 -> 0 <= e < 2 ^ 30 ->
  slow_by D e i s
    (let s0 := upd_port i (with_p_forward_delay_timer
       (stp_timer_expired (p_forward_delay_timer (port s i)) e (forward_delay s)).1) s in
     if delay_expired e i s then stp_forward_delay_timer_expiry i s0 else s0).
Proof.
  intros HD Hfd He Hok. cbv zeta. unfold delay_expired, delay_ok, waited in *.
  set (t := p_forward_delay_timer (port s i)) in *. unfold stp_timer_expired.
  destruct (t_active t) eqn:Ha.
  2: { cbn [fst snd]. rewrite port_upd_eq. change (p_forward_delay_timer (with_p_forward_delay_timer t (port s i))) with t.
       change (p_state (with_p_forward_delay_timer t (port s i))) with (p_state (port s i)). split; [by rewrite Ha|lia]. }
  specialize (Hok eq_refl). rewrite swrap_small by lia.
  destruct (Z.leb_spec (forward_delay s) (t_value t + e)); cbn [fst snd].
  - rewrite forward_delay_expiry_state, forward_delay_expiry_timer, decide_True by done. rewrite !port_upd_eq.
    cbn [p_state p_forward_delay_timer with_p_forward_delay_timer]. unfold promoted, waited_in.
    destruct (Z.eqb_spec (p_state (port s i)) STP_LISTENING).
    { split; [intros _; cbn; lia|]. unfold counted_ticks. rewrite Ha. cbn. lia. }
    destruct (Z.eqb_spec (p_state (port s i)) STP_LEARNING).
    { split; [done|]. unfold counted_ticks. rewrite Ha. cbn. lia. }
    split; [done|]. destruct (Z.eqb_spec (p_state (port s i)) STP_LISTENING), (Z.eqb_spec (p_state (port s i)) STP_LEARNING); done || lia.
  - rewrite port_upd_eq. cbn [p_state p_forward_delay_timer with_p_forward_delay_timer t_active t_value].
    split; [lia|]. unfold waited_in, counted_ticks. rewrite Ha. cbn [t_active t_value].
    destruct (_ =? _); [lia|]. destruct (_ =? _); [lia|]. destruct (_ =? _); lia.
Qed.

Lemma delay_step_slow D i e s :
  0 <= D <= forward_delay s -> forward_delay s < 2 ^ 16 -> 0 <= e < 2 ^ 30 -> slow_by D e i s (delay_step e i s).
Proof.
  intros HD Hfd He. pose proof (slow_rel D i (proj1 HD)) as HR. destruct (delay_step_eq e i s) as (s1 & s2 & E1 & E2 & ->).
  apply (slow_around D e i s s s1); [reflexivity|subst s1; by apply expiry_slow|].
  assert (slow D i s1 s2) as H by (subst s2; by apply slow_upd). etransitivity; [exact H|]. clear E1 E2 H.
  destruct (_.2); [|reflexivity]. unfold stp_hold_timer_expiry.
  destruct (p_config_pending _); [apply (rel_transmit (slow D i))|reflexivity].
Qed.

(** What another port's timers and the forward delay of the bridge are unaffected by. *)
Definition still (D : Z) (i : port_no) (s s' : stp) : Prop := slow D i s s' /\ forward_delay s' = forward_delay s.

#[export] Instance still_pre D i : PreOrder (still D i).
Proof. split; [by split|]. intros s1 s2 s3 [H1 E1] [H2 E2]. split; [by etransitivity|congruence]. Qed.

Lemma delay_step_still D i e p s : 0 <= D -> p <> i -> enabled s p = true -> still D i s (delay_step e p s).
Proof.
  intros HD Hp He. split; [|apply delay_step_forward_delay]. pose proof (slow_rel D i HD) as HR. revert He.
  apply delay_step_rel; [done|..]; intros; apply slow_same; by rewrite ?port_upd_ne, ?set_port_state_port, ?decide_False.
Qed.

(** A tick makes a port wait at most the ticks it counts. *)
Lemma tick_slow D i ms s :
  let e := (tick_elapsed ms (elapsed_remainder s)).1 in
  0 <= D <= forward_delay (stp_tick ms s) -> forward_delay (stp_tick ms s) < 2 ^ 16 -> 0 <= e < 2 ^ 30 ->
  slow_by D e i s (stp_tick ms s).
Proof.
  cbv zeta. pose proof (tick_split ms s) as E. destruct (tick_elapsed _ _) as [e r]. cbn [fst].
  intros HD Hfd He. pose proof (slow_rel D i (proj1 HD)) as HR. rewrite E in *.
  set (s0 := with_elapsed_remainder r s) in *. assert (slow D i s s0) as Hr by (by apply slow_same).
  destruct (Z.eqb_spec e 0) as [E0|_]; [by rewrite E0|].
  destruct (for_each_at (still D i) (delay_step e) i (tick_start e s0)) as (s1 & [H1 F1] & [H2 F2]).
  { intros p s1 Hp Hen. exact (delay_step_still D i e p s1 (proj1 HD) Hp Hen). }
  assert (slow D i s s1) as H by (etransitivity; [exact Hr|etransitivity; [apply (tick_start_rel (slow D i))|done]]).
  rewrite F2 in HD, Hfd. destruct (enabled s1 i).
  - rewrite delay_step_forward_delay in HD, Hfd.
    exact (slow_around D e i _ _ _ _ H (delay_step_slow D i e s1 HD Hfd He) H2).
  - intros Hok. destruct (H Hok) as [O1 B1]. destruct (H2 O1) as [O2 B2]. split; [done|lia].
Qed.

(** ** Sequences of calls *)

(** After every call the forward delay in force is at least [D], and a BPDU's 16 bits. *)
Fixpoint delays_within (D : Z) (cs : list stp_call) (s : stp) : Prop :=
  match cs with
  | [] => True
  | c :: cs =>
      match call c s with
      | Ret s1 => D <= forward_delay s1 < 2 ^ 16 /\ delays_within D cs s1
      | Stuck _ => True
      end
  end.

Definition tick_small (c : stp_call) : Prop := match c with Tick ms => ms <= MAX_TICK_MS | _ => True end.

(** The arguments of the ticks of a sequence of calls. *)
Definition tick_args (cs : list stp_call) : list Z :=
  omap (fun c => match c with Tick ms => Some ms | _ => None end) cs.

Lemma call_remainder c s s1 : call c s = Ret s1 -> is_tick c = false -> elapsed_remainder s1 = elapsed_remainder s.
Proof.
  intros E1 Et. destruct (sets_timer c) eqn:Es.
  - destruct c; try discriminate; cbn [call] in E1; apply Ret_inj in E1; subst s1;
      [exact (update_timers_remainder (with_rq_hello_time ms s))
      |exact (update_timers_remainder (with_rq_max_age ms s))
      |exact (update_timers_remainder (with_rq_forward_delay ms s))].
  - pose proof (call_settings c s s1 E1 Es Et) as Hs. apply settings_remainder in Hs. exact Hs.
Qed.

Lemma calls_slow D cs : forall s s' i,
  0 <= D -> Forall tick_small cs -> delays_within D cs s -> 0 <= elapsed_remainder s <= 4 -> calls cs s = Ret s' ->
  slow_by D (ticks (elapsed_remainder s) (tick_args cs)) i s s'.
Proof.
  induction cs as [|c cs IH]; intros s s' i HD Hcs Hw Hr E; cbn [calls] in E.
  { apply Ret_inj in E. subst s'. exact (@reflexivity _ (slow D i) _ s). }
  apply Forall_cons in Hcs as [Hm Hcs]. destruct (call_returns c s) as [s1 E1]. rewrite E1 in E.
  cbn [mbind outcome_bind] in E. cbn [delays_within] in Hw. rewrite E1 in Hw. destruct Hw as [Hfd Hw1]. destruct (is_tick c) eqn:Et.
  - destruct c; try discriminate. cbn [call] in E1. apply Ret_inj in E1. subst s1.
    unfold tick_args. cbn [omap list_omap]. fold (tick_args cs). rewrite ticks_cons.
    pose proof (tick_elapsed_ok ms _ Hm Hr) as He. pose proof (tick_slow D i ms s) as H1. cbv zeta in H1.
    pose proof (tick_settings ms s) as Hs. apply settings_remainder in Hs. cbn [nth] in Hs.
    destruct (tick_elapsed ms (elapsed_remainder s)) as [e r]. cbn [fst snd] in *.
    destruct He as (He & Hr' & _). rewrite <- Hs in Hr' |- *. specialize (IH _ _ i HD Hcs Hw1 Hr' E).
    specialize (H1 ltac:(lia) ltac:(lia) He). intros Hok. destruct (H1 Hok) as [O2 B1]. destruct (IH O2) as [O3 B2].
    split; [done|lia].
  - pose proof (call_remainder c s s1 E1 Et) as Hs.
    assert (tick_args (c :: cs) = tick_args cs) as -> by (destruct c; try discriminate; done).
    rewrite <- Hs in Hr |- *. specialize (IH s1 s' i HD Hcs Hw1 Hr E).
    pose proof (call_slow D c s s1 i HD E1 Et) as H1. intros Hok.
    destruct (H1 Hok) as [O2 B1]. destruct (IH O2) as [O3 B2]. split; [done|lia].
Qed.
