(* ===== verification/StpProps.v ===== *)
(** * Properties of the spanning tree (lib/stp.c)

    The invariant of the tree over any sequence of calls, the choice of the root port, the
    delay before a port forwards, the rate limit, the timers, the BPDU format, the list of
    changed ports, and what goes wrong with large path costs and frequent ticks. *)
From stdpp Require Import finite.
From S2P Require Import Prelude StpData Stp StpRel StpInv StpCalls StpDelay.

Local Open Scope Z_scope.

(** ** Lexicographic order on priority vectors *)

Fixpoint lex_lt (l k : list Z) : bool :=
  match l, k with
  | x :: l', y :: k' => if x =? y then lex_lt l' k' else x <? y
  | _, _ => false
  end.

Lemma lex_irrefl l : lex_lt l l = false.
Proof. induction l; simpl; [done|]. by rewrite Z.eqb_refl. Qed.

Lemma lex_le_trans l1 l2 l3 :
  length l1 = length l2 -> length l2 = length l3 ->
  lex_lt l2 l1 = false -> lex_lt l3 l2 = false -> lex_lt l3 l1 = false.
Proof.
  revert l2 l3. induction l1 as [|x l1 IH]; intros [|y l2] [|z l3]; simpl; try done.
  intros [=H1] [=H2]. destruct (Z.eqb_spec y x), (Z.eqb_spec z y), (Z.eqb_spec z x); subst; try done; eauto.
  all: rewrite ?Z.ltb_ge; intros; first [lia | exfalso; lia | done].
Qed.

(** The vector 802.1D compares to choose a root port: root, cost, bridge and port of the
    best BPDU received, then the port's own id. *)
Definition root_vector (s : stp) (p : port_no) : list Z :=
  let q := port s p in
  [p_designated_root q; s32 (p_designated_cost q + p_path_cost q);
   p_designated_bridge q; p_designated_port q; p_port_id q].

Lemma supersedes_lex s r p : stp_supersedes_root s r p = lex_lt (root_vector s p) (root_vector s r).
Proof.
  unfold stp_supersedes_root, root_vector. cbn [lex_lt].
  repeat match goal with |- context [negb (?a =? ?b)] => destruct (Z.eqb_spec a b); cbn [negb] end; try done.
  destruct (Z.eqb_spec (p_port_id (port s p)) (p_port_id (port s r))); [|done]. apply Z.ltb_ge. lia.
Qed.

(** The ports stp_root_selection considers. *)
Definition candidate (s : stp) (p : port_no) : bool :=
  enabled s p && negb (stp_is_designated_port s p) && (p_designated_root (port s p) <? bridge_id s).

Definition best_of (s : stp) (l : list port_no) (o : option port_no) : Prop :=
  match o with
  | None => forall p, p ∈ l -> candidate s p = false
  | Some r => candidate s r = true
              /\ forall p, p ∈ l -> candidate s p = true -> lex_lt (root_vector s p) (root_vector s r) = false
  end.

Lemma root_step_candidate s o p :
  root_step s o p =
    if candidate s p then
      match o with Some r => if lex_lt (root_vector s p) (root_vector s r) then Some p else o | None => Some p end
    else o.
Proof.
  unfold root_step, candidate. destruct (enabled s p); cbn [negb andb]; [|done].
  destruct (stp_is_designated_port s p); cbn [negb andb orb]; [done|].
  rewrite Z.leb_antisym. destruct (_ <? _); cbn [negb]; [|done].
  destruct o; [by rewrite supersedes_lex|done].
Qed.

Lemma root_fold_best s l : best_of s l (fold_left (root_step s) l None).
Proof.
  induction l as [|p l IH] using rev_ind; [by intros p ?%not_elem_of_nil|].
  rewrite fold_left_app. cbn [fold_left]. set (o := fold_left _ l None) in *. clearbody o.
  rewrite root_step_candidate. destruct (candidate s p) eqn:Hp.
  - destruct o as [r|]; cbn [best_of] in *.
    + destruct IH as [Hr IH]. destruct (lex_lt (root_vector s p) (root_vector s r)) eqn:Hlt.
      * split; [done|]. intros q Hq Hc. apply elem_of_app in Hq as [Hq|Hq].
        -- apply (lex_le_trans _ (root_vector s r)); [done|done| |by apply IH].
           destruct (lex_lt (root_vector s r) (root_vector s p)) eqn:Hgt; [|done].
           exfalso. clear -Hlt Hgt. revert Hlt Hgt. generalize (root_vector s p) (root_vector s r).
           intros l1. induction l1 as [|x l1 IH]; intros [|y l2]; simpl; try done.
           rewrite (Z.eqb_sym y x). destruct (x =? y); [apply IH|]. intros ?%Z.ltb_lt ?%Z.ltb_lt. lia.
        -- apply list_elem_of_singleton in Hq as ->. apply lex_irrefl.
      * split; [done|]. intros q Hq Hc. apply elem_of_app in Hq as [Hq|Hq]; [by apply IH|].
        by apply list_elem_of_singleton in Hq as ->.
    + split; [done|]. intros q Hq Hc. apply elem_of_app in Hq as [Hq|Hq].
      * by rewrite IH in Hc.
      * apply list_elem_of_singleton in Hq as ->. apply lex_irrefl.
  - destruct o as [r|]; cbn [best_of] in *.
    + destruct IH as [Hr IH]. split; [done|]. intros q Hq Hc. apply elem_of_app in Hq as [Hq|Hq]; [by apply IH|].
      apply list_elem_of_singleton in Hq as ->. congruence.
    + intros q Hq. apply elem_of_app in Hq as [Hq|Hq]; [by apply IH|].
      by apply list_elem_of_singleton in Hq as ->.
Qed.

Lemma root_selection_best s : best_of s (enum port_no) (root_port (stp_root_selection s)).
Proof.
  pose proof (root_fold_best s (enum port_no)) as H. unfold stp_root_selection. cbv zeta.
  revert H. generalize (fold_left (root_step s) (enum port_no) None). by intros [].
Qed.

Lemma root_selection_fields s :
  let s' := stp_root_selection s in
  match root_port s' with
  | None => designated_root s' = bridge_id s /\ root_path_cost s' = 0
  | Some r => designated_root s' = p_designated_root (port s r)
              /\ root_path_cost s' = u32 (p_designated_cost (port s r) + p_path_cost (port s r))
  end.
Proof.
  cbv zeta. unfold stp_root_selection. cbv zeta.
  generalize (fold_left (root_step s) (enum port_no) None). by intros [].
Qed.

(** The choice of the root port is optimal.  stp_root_selection picks, among the enabled
    ports that are not designated and have heard of a root better than this bridge, one
    whose priority vector (root, cost, bridge, port, own id) is lexicographically least,
    and takes its root and cost; with no such port the bridge becomes root at cost 0. *)
Theorem root_selection_optimal s :
  let s' := stp_root_selection s in
  match root_port s' with
  | Some r =>
      candidate s r = true
      /\ (forall p, candidate s p = true -> lex_lt (root_vector s p) (root_vector s r) = false)
      /\ designated_root s' = p_designated_root (port s r)
      /\ root_path_cost s' = u32 (p_designated_cost (port s r) + p_path_cost (port s r))
  | None =>
      (forall p, candidate s p = false)
      /\ designated_root s' = bridge_id s /\ root_path_cost s' = 0
  end.
Proof.
  cbv zeta. pose proof (root_selection_best s) as H. pose proof (root_selection_fields s) as F. cbv zeta in F.
  destruct (root_port (stp_root_selection s)) as [r|].
  - destruct H as [H1 H2]. split; [done|]. split; [|done]. intros p. apply H2, elem_of_enum.
  - split; [|done]. intros p. apply H, elem_of_enum.
Qed.

(** ** The tree over any sequence of calls *)

Lemma calls_tree cs s : tree_ok s -> exists s', calls cs s = Ret s' /\ tree_ok s'.
Proof.
  revert s. induction cs as [|c cs IH]; intros s Hs; [by exists s|].
  destruct (call_returns c s) as [s1 E]. destruct (IH s1) as (s' & E' & H'); [by eapply call_tree|].
  exists s'. split; [|done]. cbn [calls]. by rewrite E.
Qed.

(** C6: the invariant of the spanning tree.  After stp_create and any sequence of calls
    (ticks of any length, BPDUs of any content, ports enabled and disabled, identifiers,
    priorities and costs changed), no assertion has failed, the bridge takes itself for the
    root exactly when it has no root port (so the root port that stp_transmit_config
    dereferences exists), the root port is enabled and its root is better than this
    bridge, and all enabled ports agree with the bridge on the root. *)
Theorem stp_tree_invariant nm id cs :
  exists s0 s, stp_create nm id = Ret s0 /\ calls cs s0 = Ret s
    /\ (stp_is_root_bridge s = true <-> root_port s = None)
    /\ (forall r, root_port s = Some r -> enabled s r = true /\ designated_root s < bridge_id s)
    /\ (forall p, enabled s p = true -> p_designated_root (port s p) = designated_root s).
Proof.
  destruct (create_ok nm id) as (s0 & E0 & [H0 _ _ _] & _).
  destruct (calls_tree cs s0 H0) as (s & E & Hs). exists s0, s. split; [exact E0|]. split; [exact E|].
  split; [|split; [exact (tree_some s Hs)|exact (tree_agree s Hs)]].
  rewrite (tree_root s Hs). apply bool_decide_eq_true.
Qed.

(** ** Port states *)

Definition unpromoted_weak (i : port_no) (s s' : stp) : Prop :=
  p_state (port s' i) = STP_LEARNING \/ p_state (port s' i) = STP_FORWARDING ->
  p_state (port s' i) = p_state (port s i).

#[export] Instance unpromoted_weak_pre i : PreOrder (unpromoted_weak i).
Proof.
  split; [by intros s H|]. intros s1 s2 s3 H1 H2 H. pose proof (H2 H) as E. rewrite E in H |- *. by apply H1.
Qed.

Lemma unpromoted_weaken i s s' : unpromoted i s s' -> unpromoted_weak i s s'.
Proof. intros [_ H] Hs. by destruct (H Hs). Qed.

#[export] Instance unpromoted_weak_rel i : StpRel (unpromoted_weak i).
Proof.
  destruct (unpromoted_base i) as (L0 & L1 & L2 & L3 & L4 & L5 & L6 & L7).
  split; [|intros; apply unpromoted_weaken, (rel_update (unpromoted i))].
  split; [apply _|]. split; [intros; by apply unpromoted_weaken, L1|].
  split; [intros; by apply unpromoted_weaken, L2|]. split; [intros; apply unpromoted_weaken, L3|].
  split; [intros; apply unpromoted_weaken, L4|]. split; [intros; apply unpromoted_weaken, L5|].
  split; [intros; by apply unpromoted_weaken, L6|]. intros. by apply unpromoted_weaken, L7.
Qed.

Lemma set_state_weak i p st s :
  st <> STP_LEARNING -> st <> STP_FORWARDING -> unpromoted_weak i s (stp_set_port_state p st s).
Proof.
  intros H1 H2. unfold unpromoted_weak. rewrite set_port_state_port. case_decide; [|done].
  cbn [p_state with_p_state]. intros [|]; congruence.
Qed.

Lemma weak_upd i p f s : (forall q, p_state (f q) = p_state q) -> unpromoted_weak i s (upd_port p f s).
Proof. intros H _. by apply port_upd_get. Qed.

Lemma call_states c s s' i : call c s = Ret s' -> is_tick c = false -> unpromoted_weak i s s'.
Proof.
  intros E Ht. apply (call_rel (unpromoted_weak i) c s s'); [..|exact E].
  - intros id. by apply (rebase_keeps (unpromoted_weak i)); intros; [apply weak_upd|].
  - intros p cfg _. apply (rel_after (unpromoted_weak i) stp_configuration_update);
      [apply (rel_update (unpromoted_weak i))|by apply weak_upd].
  - apply (get_changed_port_keeps (unpromoted_weak i)); [|done].
    intros p s1 _ _ _. exact (weak_upd i p (with_p_state_changed false) s1 (fun q => eq_refl)).
  - intros p _. apply (rel_after (unpromoted_weak i) stp_configuration_update);
      [apply (rel_update (unpromoted_weak i))|]. unfold disable_start.
    etransitivity; [|by apply weak_upd]. etransitivity; [|by apply set_state_weak]. by apply weak_upd.
  - intros p _ _. unfold initialized. etransitivity; [|by apply weak_upd].
    etransitivity; [|by apply set_state_weak]. by apply weak_upd.
  - intros ms ->. discriminate.
  - intros Hs. apply unpromoted_weaken, unpromoted_loose. by apply (sets_timer_loose c).
Qed.

(** One call: a port starts to forward only from learning, in a tick with which its timer has
    reached the forward delay. *)
Lemma forwards_from_learning c s s' i :
  call c s = Ret s' -> p_state (port s' i) = STP_FORWARDING ->
  p_state (port s i) = STP_FORWARDING
  \/ exists ms, c = Tick ms /\ p_state (port s i) = STP_LEARNING
       /\ let t := p_forward_delay_timer (port s i) in
          t_active t = true
          /\ forward_delay s' <= s32 (t_value t + (tick_elapsed ms (elapsed_remainder s)).1).
Proof.
  intros E Hs. destruct (is_tick c) eqn:Et.
  - destruct c; try discriminate. cbn [call] in E. apply Ret_inj in E. subst s'.
    destruct (tick_state i ms s) as [[_ H]|(s1 & [He H1] & Hen & H2 & H3)].
    { left; rewrite Hs in H; symmetry; apply H; auto. }
    rewrite Hen in He. unfold promoted, delay_expired, stp_timer_expired in H2.
    rewrite Hs in H2. specialize (H2 (or_intror eq_refl)).
    set (t1 := p_forward_delay_timer (port s1 i)) in *.
    destruct (t_active t1) eqn:Ha; cbn [snd] in H2;
      [|left; rewrite <- H2 in H1; symmetry; apply H1; auto].
    destruct (Z.leb_spec (forward_delay s1)
      (s32 (t_value t1 + (tick_elapsed ms (elapsed_remainder s)).1))) as [Hle|]; cbn [snd] in H2;
      [|left; rewrite <- H2 in H1; symmetry; apply H1; auto].
    destruct (Z.eqb_spec (p_state (port s1 i)) STP_LISTENING); [discriminate|].
    destruct (Z.eqb_spec (p_state (port s1 i)) STP_LEARNING) as [El|];
      [|left; rewrite <- H2 in H1; symmetry; apply H1; auto].
    right. exists ms. destruct (H1 (or_introl El)) as [Hst Htm]. rewrite El in Hst. fold t1 in Htm.
    rewrite <- Htm, H3. done.
  - pose proof (call_states c s s' i E Et) as H. unfold unpromoted_weak in H.
    left; rewrite Hs in H; symmetry; apply H; auto.
Qed.

(** C9: no port forwards early.  Take a state in which port [i] is disabled or blocking, and any
    sequence of calls during which the forward delay in force, the bridge's own or the root's,
    is always at least [D] (and 16 bits, as in a BPDU; ticks up to about 2 h 20 min each).  If
    the port then learns, at least [D] ticks have passed; if it forwards, at least [2 * D], a
    forward delay to listen and another, counted from 0, to learn.  And the call that makes the
    port forward is a tick on a learning port with which its running timer has reached the
    forward delay.  The remainder of the clock and the port's timer are in their ranges at first,
    as in a new bridge. *)
Theorem stp_forwarding_delayed D cs s s' i :
  0 <= D -> Forall tick_small cs -> delays_within D cs s -> 0 <= elapsed_remainder s <= 4 ->
  p_state (port s i) = STP_DISABLED \/ p_state (port s i) = STP_BLOCKING -> delay_ok i s ->
  calls cs s = Ret s' ->
  (p_state (port s' i) = STP_LEARNING -> D <= ticks (elapsed_remainder s) (tick_args cs))
  /\ (p_state (port s' i) = STP_FORWARDING -> 2 * D <= ticks (elapsed_remainder s) (tick_args cs))
  /\ (forall c s1, call c s' = Ret s1 -> p_state (port s1 i) = STP_FORWARDING ->
         p_state (port s' i) = STP_FORWARDING
         \/ exists ms, c = Tick ms /\ p_state (port s' i) = STP_LEARNING
              /\ let t := p_forward_delay_timer (port s' i) in
                 t_active t = true
                 /\ forward_delay s1 <= s32 (t_value t + (tick_elapsed ms (elapsed_remainder s')).1)).
Proof.
  intros HD Hcs Hw Hr Hs Hok E. split; [|split; [|intros c s1 E1; by apply (forwards_from_learning c)]];
    destruct (calls_slow D cs s s' i HD Hcs Hw Hr E Hok) as [Hok' Hle];
    pose proof (counted_nonneg i s' Hok') as Hc; intros Hs'; unfold waited, waited_in in Hle; rewrite Hs' in Hle;
    (destruct Hs as [Hs|Hs]; rewrite Hs in Hle); cbn in Hle; lia.
Qed.

(** ** Rate limit *)

Lemma initialized_limited i p st s : p <> i -> limited i s (initialized p st s).
Proof.
  intros Hn. apply limited_same; [|by rewrite initialized_other].
  unfold initialized, stp_set_port_state. by destruct (_ && _); [destruct (_ <? _)%nat|].
Qed.

Lemma call_limited c s s' i :
  call c s = Ret s' -> c <> PortEnable i -> is_tick c = false -> limited i s s'.
Proof.
  intros E Hc Ht. apply (call_rel (limited i) c s s'); [..|exact E].
  - intros id. apply (rebase_keeps (limited i)); intros; [by apply limited_upd|by apply limited_same].
  - intros p cfg _. apply (rel_after (limited i) stp_configuration_update);
      [apply (rel_update (limited i))|by apply limited_upd].
  - apply (get_changed_port_keeps (limited i)); [|intros _; by apply limited_same].
    intros p s1 _ _ _. apply limited_same; [done|].
    exact (port_upd_get p_hold_timer p (with_p_state_changed false) s1 i (fun q => eq_refl)).
  - intros p _. apply (rel_after (limited i) stp_configuration_update);
      [apply (rel_update (limited i))|]. unfold disable_start.
    etransitivity; [|by apply limited_upd]. etransitivity; [|by apply set_port_state_limited]. by apply limited_upd.
  - intros p -> _. apply initialized_limited. congruence.
  - intros ms ->. discriminate.
  - intros Hs. apply limited_loose. by apply (sets_timer_loose c).
Qed.

Lemma calls_limited cs s s' i :
  Forall (fun c => c <> PortEnable i /\ match c with Tick ms => ms <= MAX_TICK_MS | _ => True end) cs ->
  0 <= elapsed_remainder s <= 4 -> calls cs s = Ret s' ->
  limited_by (ticks (elapsed_remainder s) (tick_args cs)) i s s'.
Proof.
  intros Hcs. revert s. induction Hcs as [|c cs [Hc Hm] _ IH]; intros s Hr E; cbn [calls] in E.
  { apply Ret_inj in E. subst s'. apply limited_limited_by. reflexivity. }
  destruct (call_returns c s) as [s1 E1]. rewrite E1 in E. cbn [mbind outcome_bind] in E.
  destruct (is_tick c) eqn:Et.
  - destruct c; try discriminate. cbn [call] in E1. apply Ret_inj in E1. subst s1.
    unfold tick_args. cbn [omap list_omap]. fold (tick_args cs). rewrite ticks_cons.
    pose proof (tick_elapsed_ok ms _ Hm Hr) as He. pose proof (tick_limited i ms s) as H1. cbv zeta in H1.
    pose proof (tick_settings ms s) as Hs. apply settings_remainder in Hs. cbn [nth] in Hs.
    destruct (tick_elapsed ms (elapsed_remainder s)) as [e r]. cbn [fst snd] in *.
    destruct He as (He & Hr' & _). rewrite <- Hs in Hr' |- *. specialize (IH _ Hr' E). specialize (H1 He).
    intros Hok. destruct (H1 Hok) as (O2 & n1 & A1 & B1). destruct (IH O2) as (O3 & n2 & A2 & B2).
    split; [done|]. exists (n1 ++ n2). rewrite configs_on_app, A2, A1, app_assoc. split; [done|lia].
  - pose proof (call_remainder c s s1 E1 Et) as Hs.
    assert (tick_args (c :: cs) = tick_args cs) as -> by (destruct c; try discriminate; done).
    rewrite <- Hs in Hr |- *. specialize (IH s1 Hr E).
    pose proof (call_limited c s s1 i E1 Hc Et) as H1. intros Hok.
    destruct (H1 Hok) as (O2 & n1 & A1 & B1). destruct (IH O2) as (O3 & n2 & A2 & B2).
    split; [done|]. exists (n1 ++ n2). rewrite configs_on_app, A2, A1, app_assoc. split; [done|lia].
Qed.

(** C38: the transmission of configuration BPDUs is limited to one per second.  Over any
    sequence of calls that does not enable port [i] anew (ticks up to about 2 h 20 min
    each), the number of configuration BPDUs sent on [i], times the 256 ticks of the hold
    time, is at most the ticks that passed plus one hold time. *)
Theorem stp_hold_limit cs s s' i :
  Forall (fun c => c <> PortEnable i /\ match c with Tick ms => ms <= MAX_TICK_MS | _ => True end) cs ->
  0 <= elapsed_remainder s <= 4 -> hold_ok s i -> calls cs s = Ret s' ->
  exists new, sent s' = sent s ++ new
    /\ 256 * Z.of_nat (configs_on i new) <= ticks (elapsed_remainder s) (tick_args cs) + 256.
Proof.
  intros Hcs Hr Hok E. destruct (calls_limited cs s s' i Hcs Hr E Hok) as (Hok' & new & H1 & H2).
  exists new. split; [done|]. unfold hold_ok, hold_left in *.
  destruct (t_active (p_hold_timer (port s' i))), (t_active (p_hold_timer (port s i)));
    repeat match goal with H : true = true -> _ |- _ => specialize (H eq_refl) end; lia.
Qed.

(** ** Timers *)

Lemma ms_to_timer_small ms : 0 <= ms <= 40000 -> ms_to_timer ms = ms * 256 / 1000.
Proof. intros H. unfold ms_to_timer. rewrite swrap_small by lia. apply Z.quot_div_nonneg; lia. Qed.

Lemma clamp_bounds x lo hi : lo <= hi -> lo <= clamp x lo hi <= hi.
Proof. intros H. unfold clamp. destruct (Z.ltb_spec x lo); [lia|]. destruct (Z.ltb_spec hi x); lia. Qed.

(** The timers of a bridge keep the relations of 802.1D whatever the client asks for.
    After any calls, in ticks of 1/256 s, the hello time is 1 to 10 s, the maximum age at
    least twice the hello time plus 2 s and at most 40 s, and the forward delay between 4
    and 30 s and at least half the maximum age plus 1 s; the last relation, which the
    comments state exactly, holds up to one tick because of rounding. *)
Theorem stp_timer_bounds nm id cs s0 s :
  Forall (fun c => match c with Tick ms => ms <= MAX_TICK_MS | _ => True end) cs ->
  stp_create nm id = Ret s0 -> calls cs s0 = Ret s ->
  256 <= bridge_hello_time s <= 2560
  /\ Z.max 1536 (2 * (bridge_hello_time s + 256)) <= bridge_max_age s <= 10240
  /\ Z.max 1024 ((bridge_max_age s - 1) / 2 + 256) <= bridge_forward_delay s <= 7680.
Proof.
  intros Hcs E0 E. destruct (create_ok nm id) as (s0' & E0' & H0 & _).
  rewrite E0 in E0'. apply Ret_inj in E0'. subst s0'.
  destruct (calls_inv cs s0 Hcs H0) as (s' & E' & [_ _ Ht _]). rewrite E in E'. apply Ret_inj in E'. subst s'.
  clear E E0 Hcs H0. destruct Ht as (-> & -> & ->).
  set (ht := clamp (rq_hello_time s) 1000 10000).
  pose proof (clamp_bounds (rq_hello_time s) 1000 10000 ltac:(lia)) as Hht. fold ht in Hht.
  set (ma := clamp (rq_max_age s) (Z.max (2 * (ht + 1000)) 6000) 40000).
  pose proof (clamp_bounds (rq_max_age s) (Z.max (2 * (ht + 1000)) 6000) 40000 ltac:(lia)) as Hma. fold ma in Hma.
  rewrite Z.quot_div_nonneg by lia.
  pose proof (Z.div_mod ma 2 ltac:(lia)). pose proof (Z.mod_pos_bound ma 2 ltac:(lia)).
  set (fd := clamp (rq_forward_delay s) (ma / 2 + 1000) 30000).
  pose proof (clamp_bounds (rq_forward_delay s) (ma / 2 + 1000) 30000 ltac:(lia)) as Hfd. fold fd in Hfd.
  clearbody ht ma fd. rewrite !ms_to_timer_small by lia.
  pose proof (Z.div_mod (ht * 256) 1000 ltac:(lia)). pose proof (Z.mod_pos_bound (ht * 256) 1000 ltac:(lia)).
  pose proof (Z.div_mod (ma * 256) 1000 ltac:(lia)). pose proof (Z.mod_pos_bound (ma * 256) 1000 ltac:(lia)).
  pose proof (Z.div_mod (fd * 256) 1000 ltac:(lia)). pose proof (Z.mod_pos_bound (fd * 256) 1000 ltac:(lia)).
  pose proof (Z.div_mod (ma * 256 / 1000 - 1) 2 ltac:(lia)).
  pose proof (Z.mod_pos_bound (ma * 256 / 1000 - 1) 2 ltac:(lia)).
  split; [lia|split; lia].
Qed.

(** The clock of the spanning tree is never slow but can be fast.  Over any sequence of
    stp_tick calls, the ticks made are at least those of the time that passed less 4 ms,
    and at most those of that time plus 1 ms for every call (stp_tick rounds the ticks it
    has used down to whole milliseconds before it keeps the rest). *)
Theorem stp_clock_bounds mss r0 :
  Forall (fun ms => 0 <= ms <= MAX_TICK_MS) mss -> 0 <= r0 <= 4 ->
  let ms := r0 + foldr Z.add 0 mss in
  256 * (ms - 4) <= 1000 * ticks r0 mss <= 256 * (ms + Z.of_nat (length mss)).
Proof.
  intros Hm. revert r0. induction Hm as [|ms mss Hms _ IH]; intros r0 Hr; cbv zeta.
  { cbn. lia. }
  rewrite ticks_cons. pose proof (tick_elapsed_ok ms r0 ltac:(lia) Hr) as He.
  destruct (tick_elapsed ms r0) as [e r]. cbn [fst snd]. destruct He as (He & Hr' & Hs).
  specialize (IH r Hr'). cbv zeta in IH. cbn [foldr length].
  pose proof (Z.div_mod (e * 1000) 256 ltac:(lia)). pose proof (Z.mod_pos_bound (e * 1000) 256 ltac:(lia)).
  lia.
Qed.

(** Ticked every millisecond, the clock makes a tick every 3 ms instead of every 3.9 ms. *)
Lemma stp_clock_drift n : ticks 0 (replicate (1 + 3 * n) 1) = Z.of_nat n.
Proof.
  cbn [Nat.add replicate]. rewrite ticks_cons. change (tick_elapsed 1 0) with (0, 1). cbn [fst snd].
  induction n as [|n IH]; [done|]. replace (3 * S n)%nat with (S (S (S (3 * n)))) by lia.
  cbn [replicate]. rewrite !ticks_cons. change (tick_elapsed 1 1) with (0, 2). cbn [fst snd].
  change (tick_elapsed 1 2) with (0, 3). cbn [fst snd]. change (tick_elapsed 1 3) with (1, 1). cbn [fst snd]. lia.
Qed.

(** The clamp in stp_tick lets through times that overflow the conversion to ticks: after
    2 h 20 min without a tick, time runs backwards and the wrong remainder is kept. *)
Lemma stp_tick_overflow : tick_elapsed 8388608 0 = (-2147483, 16777213).
Proof. reflexivity. Qed.

(** ** BPDUs *)

Definition valid_config (c : stp_config_bpdu) : Prop :=
  0 <= c_protocol_id c < 2 ^ 16 /\ 0 <= c_protocol_version c < 2 ^ 8 /\ 0 <= c_bpdu_type c < 2 ^ 8
  /\ 0 <= c_flags c < 2 ^ 8 /\ 0 <= c_root_id c < 2 ^ 64 /\ 0 <= c_root_path_cost c < 2 ^ 32
  /\ 0 <= c_bridge_id c < 2 ^ 64 /\ 0 <= c_port_id c < 2 ^ 16 /\ 0 <= c_message_age c < 2 ^ 16
  /\ 0 <= c_max_age c < 2 ^ 16 /\ 0 <= c_hello_time c < 2 ^ 16 /\ 0 <= c_forward_delay c < 2 ^ 16.

Lemma be_field_skip off n k z l :
  (k <= off)%nat -> be_field off n (be_bytes k z ++ l) = be_field (off - k) n l.
Proof.
  intros H. unfold be_field. rewrite drop_app, length_be_bytes, drop_ge; [done|]. by rewrite length_be_bytes.
Qed.

Lemma be_field_here n z l : 0 <= z < 256 ^ Z.of_nat n -> be_field 0 n (be_bytes n z ++ l) = z.
Proof.
  intros H. unfold be_field. rewrite drop_0, take_app_length' by (symmetry; apply length_be_bytes).
  by apply be_value_bytes_small.
Qed.

(** Reads one member of a concatenation of members. *)
Ltac be_read :=
  repeat (rewrite be_field_skip by lia); cbn [Nat.sub]; apply be_field_here; cbn; lia.

Lemma config_roundtrip c pad : valid_config c -> config_of_bytes (config_bytes c ++ pad) = c.
Proof.
  intros (H1 & H2 & H3 & H4 & H5 & H6 & H7 & H8 & H9 & H10 & H11 & H12).
  destruct c as [c1 c2 c3 c4 c5 c6 c7 c8 c9 c10 c11 c12]. unfold config_of_bytes, config_bytes.
  cbn [c_protocol_id c_protocol_version c_bpdu_type c_flags c_root_id c_root_path_cost c_bridge_id c_port_id
       c_message_age c_max_age c_hello_time c_forward_delay] in *.
  rewrite <- ?app_assoc. f_equal; be_read.
Qed.

(** What a bridge sends, its neighbour understands.  The configuration BPDU that
    stp_transmit_config writes (35 bytes in network order, with any padding after it)
    passes the checks of stp_received_bpdu on an enabled port, is handled as the
    configuration it was written from, and is counted as received. *)
Theorem config_bpdu_received c pad p s :
  valid_config c -> c_protocol_id c = STP_PROTOCOL_ID -> c_bpdu_type c = STP_TYPE_CONFIG ->
  enabled s p = true ->
  stp_received_bpdu p (config_bytes c ++ pad) s
  = upd_port p (fun q => with_p_rx_count (p_rx_count q + 1) q) (stp_received_config_bpdu p c s).
Proof.
  intros Hc Hi Ht He. pose proof (config_roundtrip c pad Hc) as E. unfold stp_received_bpdu.
  rewrite E. unfold enabled in He. apply negb_true_iff in He. rewrite He.
  rewrite length_app, length_config.
  destruct (Z.ltb_spec (Z.of_nat (35 + length pad)) 4); [lia|].
  change (be_field 0 2 (config_bytes c ++ pad)) with (c_protocol_id (config_of_bytes (config_bytes c ++ pad))).
  change (be_field 3 1 (config_bytes c ++ pad)) with (c_bpdu_type (config_of_bytes (config_bytes c ++ pad))).
  rewrite E, Hi, Ht. cbn [negb Z.eqb STP_PROTOCOL_ID STP_TYPE_CONFIG].
  by destruct (Z.ltb_spec (Z.of_nat (35 + length pad)) 35); [lia|].
Qed.

(** ** The list of changed ports *)

(** The loop of stp_run: call stp_get_changed_port until it finds none. *)
Fixpoint changed_ports (fuel : nat) (s : stp) : list port_no * stp :=
  match fuel with
  | O => ([], s)
  | S fuel' =>
      match stp_get_changed_port s with
      | (Some p, s') => let (l, s'') := changed_ports fuel' s' in (p :: l, s'')
      | (None, s') => ([], s')
      end
  end.

Definition changed (s : stp) (p : port_no) : bool := p_state_changed (port s p).

Lemma get_changed_eq s :
  stp_get_changed_port s =
    match find_first (changed s) (ports_from (first_changed_port s)) with
    | Some p => (Some p, with_first_changed_port (S p) (upd_port p (with_p_state_changed false) s))
    | None => (None, with_first_changed_port STP_MAX_PORTS s)
    end.
Proof.
  unfold stp_get_changed_port. pose proof (find_from (changed s) (first_changed_port s)) as E.
  unfold changed in E at 1. rewrite E. by destruct (find_first _ _).
Qed.

Lemma changed_ports_ok m s :
  changed_ok s -> (length (ports_from (first_changed_port s)) < m)%nat ->
  let (l, s') := changed_ports m s in
  l = filter (fun p => changed s p = true) (ports_from (first_changed_port s))
  /\ (forall p, changed s' p = false) /\ (forall p, p_state (port s' p) = p_state (port s p)).
Proof.
  revert s. induction m as [|m IH]; intros s Hok Hm; [lia|]. cbn [changed_ports]. rewrite get_changed_eq.
  destruct (find_first (changed s) (ports_from (first_changed_port s))) as [p|] eqn:Ef.
  - set (s1 := with_first_changed_port (S p) (upd_port p (with_p_state_changed false) s)).
    assert (forall q, changed s1 q = if decide (p = q) then false else changed s q) as Hc.
    { intros q. unfold changed, s1. assert (forall v s q, port (with_first_changed_port v s) q = port s q) as -> by done.
      rewrite port_upd. by case_decide. }
    pose proof (find_from_filter _ _ _ Ef) as Hf.
    destruct (find_first_Some _ _ _ Ef) as [_ Hp]. apply ports_from_ge in Hp.
    assert (forall q, (S p <= fin_to_nat q)%nat -> p <> q) as Hne by (intros q Hq ->; lia).
    assert (filter (fun q => changed s1 q = true) (ports_from (S p))
            = filter (fun q => changed s q = true) (ports_from (S p))) as Hext.
    { assert (forall l : list port_no, (forall q, q ∈ l -> p <> q) ->
        filter (fun q => changed s1 q = true) l = filter (fun q => changed s q = true) l) as H.
      { induction l as [|q l IHl]; intros Hl; [done|]. rewrite !filter_cons, Hc.
        rewrite (decide_False (P := p = q)) by (apply Hl; left). rewrite IHl; [done|]. intros r Hr. apply Hl. by right. }
      apply H. intros q Hq. by apply Hne, ports_from_ge. }
    assert (changed_ok s1) as Hok1.
    { intros q Hq. change (changed s1 q = true) in Hq. rewrite Hc in Hq. case_decide as Hpq; [done|].
      change (S p <= q)%nat. assert (q ∈ filter (fun q => changed s q = true) (ports_from (first_changed_port s))) as Hin
        by (apply list_elem_of_filter; split; [done|]; by apply ports_from_elem, Hok).
      rewrite Hf in Hin. apply elem_of_cons in Hin as [->|Hin]; [done|].
      apply list_elem_of_filter in Hin as [_ Hin]. by apply ports_from_ge. }
    specialize (IH s1 Hok1). change (first_changed_port s1) with (S p) in IH.
    assert (length (ports_from (S p)) < length (ports_from (first_changed_port s)))%nat as Hlen.
    { unfold ports_from. rewrite !length_drop. pose proof (fin_to_nat_lt p).
      pose proof (lookup_lt_Some _ _ _ (enum_port_lookup p)). lia. }
    specialize (IH ltac:(lia)). destruct (changed_ports m s1) as [l s']. destruct IH as (E1 & E2 & E3).
    split; [by rewrite E1, Hf, Hext|]. split; [done|]. intros q. rewrite E3.
    exact (port_upd_get p_state p (with_p_state_changed false) s q (fun x => eq_refl)).
  - rewrite find_first_None in Ef. split; [|split; [|done]].
    + symmetry. apply filter_none. intros q Hq. by rewrite Ef.
    + intros q. destruct (changed s q) eqn:E; [|exact E]. specialize (Hok q E).
      apply ports_from_elem in Hok. by rewrite Ef in E.
Qed.

(** No change of state is lost or reported twice.  After any calls, the loop of stp_run
    ends within 256 calls of stp_get_changed_port, which return exactly the ports whose
    state has changed since they were last reported, in ascending order and each once;
    afterwards no port is marked and the states are as before. *)
Theorem changed_ports_complete nm id cs s0 s :
  stp_create nm id = Ret s0 -> calls cs s0 = Ret s ->
  let (l, s') := changed_ports 256 s in
  l = filter (fun p => p_state_changed (port s p) = true) (enum port_no)
  /\ (forall p, p_state_changed (port s' p) = false)
  /\ (forall p, p_state (port s' p) = p_state (port s p))
  /\ (stp_get_changed_port s').1 = None.
Proof.
  intros E0 E. destruct (create_ok nm id) as (s0' & E0' & H0 & _).
  rewrite E0 in E0'. apply Ret_inj in E0'. subst s0'.
  assert (changed_ok s) as Hok.
  { destruct H0 as [_ H0 _ _]. clear E0. revert s0 H0 E. induction cs as [|c cs IH]; intros s0 H0 E.
    - apply Ret_inj in E. by subst s.
    - cbn [calls] in E. destruct (call_returns c s0) as [s1 E1]. rewrite E1 in E.
      apply (IH s1); [by eapply call_changed|exact E]. }
  clear E0 E H0. pose proof (changed_ports_ok 256 s Hok) as H.
  assert (length (ports_from (first_changed_port s)) < 256)%nat as Hl.
  { unfold ports_from. rewrite length_drop. change (length (enum port_no)) with 255%nat. lia. }
  specialize (H Hl). destruct (changed_ports 256 s) as [l s']. destruct H as (H1 & H2 & H3).
  split; [|split; [exact H2|split; [exact H3|]]].
  - rewrite H1. unfold ports_from. rewrite <- (take_drop (first_changed_port s) (enum port_no)) at 2.
    rewrite filter_app. assert (filter (fun p => p_state_changed (port s p) = true)
       (take (first_changed_port s) (enum port_no)) = []) as ->; [|done].
    apply filter_none. intros q Hq Hc. specialize (Hok q Hc).
    apply list_elem_of_lookup in Hq as [i Hi]. apply lookup_take_Some in Hi as [Hi Hk].
    apply enum_port_lookup_inv in Hi. lia.
  - rewrite get_changed_eq. destruct (find_first _ _) as [p|] eqn:Ef; [|done].
    apply find_first_Some in Ef as [Ef _]. by rewrite H2 in Ef.
Qed.

(** ** A better root *)

(** Everything but the choice of a root leaves the bridge's view of the tree alone. *)
Definition same_root (s s' : stp) : Prop :=
  bridge_id s' = bridge_id s /\ designated_root s' = designated_root s
  /\ root_path_cost s' = root_path_cost s /\ root_port s' = root_port s.

#[export] Instance same_root_pre : PreOrder same_root.
Proof.
  split; [by intros s; split_and!|]. intros s1 s2 s3 (A1 & A2 & A3 & A4) (B1 & B2 & B3 & B4). split_and!; congruence.
Qed.

Lemma set_port_state_root p st s : same_root s (stp_set_port_state p st s).
Proof. unfold stp_set_port_state. by destruct (_ && _); [destruct (_ <? _)%nat|]. Qed.

#[export] Instance same_root_base : StpBase same_root.
Proof.
  split_and!; try done.
  - apply _.
  - intros s s' [(E1 & E2 & E3 & E4 & E5 & E6 & E7) _]. by split_and!.
  - intros p s. unfold stp_transmit_config. by repeat case_match.
  - intros p s _. exact (set_port_state_root p STP_LISTENING s).
  - intros p s _. exact (set_port_state_root p STP_BLOCKING s).
Qed.

(** Port [i] is left in its state while another port is visited. *)
Definition same_state (i : port_no) (s s' : stp) : Prop :=
  p_state (port s' i) = p_state (port s i) /\ root_port s' = root_port s.

#[export] Instance same_state_pre i : PreOrder (same_state i).
Proof. split; [by split|]. intros s1 s2 s3 [] []. split; congruence. Qed.

Lemma select_other i p s : p <> i -> same_state i s (stp_make_forwarding p s) /\ same_state i s (stp_make_blocking p s).
Proof.
  intros Hp.
  assert (root_port (stp_make_forwarding p s) = root_port s /\ root_port (stp_make_blocking p s) = root_port s) as [R1 R2]
    by (split; [apply (make_forwarding_rel same_root)|apply (make_blocking_rel same_root)]).
  split; (split; [|done]).
  - unfold stp_make_forwarding. destruct (_ =? _); [|done].
    by rewrite (port_upd_get p_state), set_port_state_port, decide_False.
  - unfold stp_make_blocking. destruct (_ =? _); [|done].
    rewrite (port_upd_get p_state), set_port_state_port, decide_False by done.
    repeat case_match; try done. by apply detection_ports.
Qed.

(** stp_port_state_selection leaves the root port in a state on its way to forwarding. *)
Lemma state_selection_root_port s i :
  root_port s = Some i -> enabled s i = true -> p_state (port (stp_port_state_selection s) i) <> STP_BLOCKING.
Proof.
  intros Hr He. unfold stp_port_state_selection. set (body := fun p s => _).
  destruct (for_each_at (same_state i) body i s) as (s1 & [H1 H2] & [H3 H4]).
  { intros p s1 Hp _. unfold body. case_bool_decide; [|destruct (stp_is_designated_port s1 p)].
    all: (etransitivity; [|by apply select_other]); split; [by apply (port_upd_get p_state)|done]. }
  rewrite H3. assert (enabled s1 i = true) as He1 by (unfold enabled in *; by rewrite H1). rewrite He1.
  unfold body. rewrite bool_decide_true by congruence. cbv zeta. unfold stp_make_forwarding.
  set (s2 := upd_port i _ s1). destruct (Z.eqb_spec (p_state (port s2 i)) STP_BLOCKING) as [|Hn]; [|done].
  rewrite (port_upd_get p_state), set_port_state_port, decide_True by done. cbn [p_state with_p_state]. lia.
Qed.

Lemma transmit_params p s :
  max_age (stp_transmit_config p s) = max_age s /\ hello_time (stp_transmit_config p s) = hello_time s
  /\ forward_delay (stp_transmit_config p s) = forward_delay s.
Proof. unfold stp_transmit_config. by repeat case_match. Qed.

Definition same_params (i : port_no) (s s' : stp) : Prop :=
  max_age s' = max_age s /\ hello_time s' = hello_time s /\ forward_delay s' = forward_delay s
  /\ p_state (port s' i) = p_state (port s i).

#[export] Instance same_params_pre i : PreOrder (same_params i).
Proof.
  split; [by intros s; split_and!|]. intros s1 s2 s3 (A1 & A2 & A3 & A4) (B1 & B2 & B3 & B4). split_and!; congruence.
Qed.

Lemma generation_params i s : same_params i s (stp_config_bpdu_generation s).
Proof.
  unfold stp_config_bpdu_generation. apply (for_each_ind (same_params i)). intros p s1 _.
  destruct (stp_is_designated_port s1 p); [|reflexivity].
  destruct (transmit_params p s1) as (E1 & E2 & E3). destruct (transmit_state i p s1) as [E4 _]. by split_and!.
Qed.

(** Recording a better root on [p] makes [p] the only best candidate. *)
Lemma record_best p c s :
  tree_ok s -> enabled s p = true -> c_root_id c < designated_root s -> c_bridge_id c <> bridge_id s ->
  root_port (stp_root_selection (stp_record_config_information p c s)) = Some p.
Proof.
  intros Ht He Hc Hb. set (s1 := stp_record_config_information p c s).
  assert (designated_root s <= bridge_id s) as Hle.
  { destruct (root_port s) as [r|] eqn:Hr; [destruct (tree_some s Ht r Hr); lia|].
    destruct (tree_none s Ht Hr). lia. }
  assert (port s1 p = with_p_message_age_timer (stp_start_timer (c_message_age c) (p_message_age_timer (port s p)))
      (with_p_designated_port (c_port_id c)
        (with_p_designated_bridge (c_bridge_id c)
          (with_p_designated_cost (s32 (c_root_path_cost c))
            (with_p_designated_root (c_root_id c) (port s p)))))) as E by apply port_upd_eq.
  assert (candidate s1 p = true) as Hp.
  { unfold candidate, enabled, stp_is_designated_port in *. rewrite E. cbn. rewrite He.
    destruct (Z.eqb_spec (c_bridge_id c) (bridge_id s)); [done|]. cbn. apply Z.ltb_lt. lia. }
  pose proof (root_selection_best s1) as H.
  destruct (root_port (stp_root_selection s1)) as [r|]; [|by rewrite H in Hp; [|apply elem_of_enum]].
  destruct H as [Hr Hbest]. specialize (Hbest p (elem_of_enum p) Hp).
  destruct (decide (r = p)) as [->|Hn]; [done|]. exfalso.
  assert (port s1 r = port s r) as Er by (by apply port_upd_ne).
  unfold candidate in Hr. apply andb_true_iff in Hr as [Hr _]. apply andb_true_iff in Hr as [Hr _].
  unfold enabled in Hr. rewrite Er in Hr. pose proof (tree_agree s Ht r Hr) as Ha.
  unfold root_vector in Hbest. rewrite E, Er in Hbest. cbn [lex_lt p_designated_root with_p_message_age_timer
    with_p_designated_port with_p_designated_bridge with_p_designated_cost with_p_designated_root] in Hbest.
  rewrite Ha in Hbest. destruct (Z.eqb_spec (c_root_id c) (designated_root s)); [lia|].
  apply Z.ltb_ge in Hbest. lia.
Qed.

(** The bridge that yields the root of its tree stops its timers; nothing else changes. *)
Definition yield_root (was_root : bool) (s : stp) : stp :=
  if negb (stp_is_root_bridge s) && was_root then
    let s := with_hello_timer (stp_stop_timer (hello_timer s)) s in
    if topology_change_detected s then
      let s := with_topology_change_timer (stp_stop_timer (topology_change_timer s)) s in
      let s := stp_transmit_tcn s in
      with_tcn_timer (stp_start_timer 0 (tcn_timer s)) s
    else s
  else s.

(** What the root port's BPDU sets. *)
Definition adopt_flags (c : stp_config_bpdu) (s : stp) : stp :=
  let s :=
    if negb (Z.land (c_flags c) STP_CONFIG_TOPOLOGY_CHANGE_ACK =? 0)
    then stp_topology_change_acknowledged s else s in
  if negb (Z.land (c_flags c) STP_CONFIG_TOPOLOGY_CHANGE =? 0) then with_fdb_needs_flush true s else s.

Definition adopt (c : stp_config_bpdu) (s : stp) : stp :=
  adopt_flags c (stp_config_bpdu_generation (stp_record_config_timeout_values c s)).

Lemma received_config_eq p c s :
  c_message_age c < c_max_age c -> enabled s p = true -> stp_supersedes_port_info s p c = true ->
  stp_received_config_bpdu p c s =
    let s4 := yield_root (stp_is_root_bridge s)
      (stp_port_state_selection (stp_configuration_update (stp_record_config_information p c s))) in
    if bool_decide (root_port s4 = Some p) then adopt c s4 else s4.
Proof.
  intros Hm He Hs. unfold stp_received_config_bpdu. destruct (Z.leb_spec (c_max_age c) (c_message_age c)); [lia|].
  unfold enabled in He. rewrite He, Hs. unfold yield_root, adopt, adopt_flags. cbv zeta. reflexivity.
Qed.

Lemma yield_root_ok b s i : same_root s (yield_root b s) /\ p_state (port (yield_root b s) i) = p_state (port s i).
Proof.
  unfold yield_root. destruct (_ && _); [|by split].
  destruct (topology_change_detected _); [|by split]. cbv zeta.
  set (s1 := with_topology_change_timer _ _). split.
  - change (same_root s1 (stp_transmit_tcn s1)). apply (transmit_tcn_rel same_root).
  - change (p_state (port (stp_transmit_tcn s1) i) = p_state (port s1 i)).
    unfold stp_transmit_tcn. destruct (root_port s1); [apply send_state|done].
Qed.

Lemma adopt_ok c s i :
  same_root s (adopt c s) /\ p_state (port (adopt c s) i) = p_state (port s i)
  /\ max_age (adopt c s) = c_max_age c /\ hello_time (adopt c s) = c_hello_time c
  /\ forward_delay (adopt c s) = c_forward_delay c.
Proof.
  assert (forall s1 s2, same_root s1 s2 -> same_params i s1 s2 ->
    same_root s1 (adopt_flags c s2) /\ same_params i s1 (adopt_flags c s2)) as H.
  { intros s1 s2 H1 H2. unfold adopt_flags. by destruct (negb _), (negb _). }
  destruct (H (stp_record_config_timeout_values c s) _ (generation_rel same_root _) (generation_params i _))
    as [H1 (E1 & E2 & E3 & E4)].
  split; [exact H1|split; [exact E4|split; [exact E1|split; [exact E2|exact E3]]]].
Qed.

Lemma record_port p c s :
  let q := port (stp_record_config_information p c s) p in
  p_designated_root q = c_root_id c /\ p_designated_cost q = s32 (c_root_path_cost c)
  /\ p_path_cost q = p_path_cost (port s p) /\ p_state q = p_state (port s p).
Proof. cbv zeta. unfold stp_record_config_information. by rewrite port_upd_eq. Qed.

Lemma update_of_best p c s :
  tree_ok s -> enabled s p = true -> c_root_id c < designated_root s -> c_bridge_id c <> bridge_id s ->
  let s2 := stp_configuration_update (stp_record_config_information p c s) in
  root_port s2 = Some p /\ designated_root s2 = c_root_id c /\ bridge_id s2 = bridge_id s
  /\ root_path_cost s2 = u32 (s32 (c_root_path_cost c) + p_path_cost (port s p)) /\ enabled s2 p = true.
Proof.
  intros Ht He Hc Hb. cbv zeta. pose proof (record_best p c s Ht He Hc Hb) as Hr. unfold stp_configuration_update.
  set (s1 := stp_record_config_information p c s) in *.
  destruct (designated_selection_frame (stp_root_selection s1)) as ((F1 & F2 & F3 & F4 & F5) & _).
  destruct (root_selection_tree s1) as (E1 & E2 & _). pose proof (root_selection_fields s1) as Hf.
  cbv zeta in Hf. rewrite Hr in Hf. destruct Hf as [G1 G2].
  destruct (record_port p c s) as (P1 & P2 & P3 & P4). fold s1 in P1, P2, P3, P4.
  assert (bridge_id s1 = bridge_id s) as B by reflexivity. clearbody s1.
  set (t := stp_root_selection s1) in *. clearbody t.
  split; [by rewrite F4|split; [by rewrite F2, G1, P1|split; [by rewrite F1, E1, B|split]]].
  - by rewrite F3, G2, P2, P3.
  - destruct (F5 p) as [-> _]. unfold enabled, port in *. rewrite E2. by rewrite P4.
Qed.

(** A bridge adopts a better root.  When a configuration BPDU from another bridge, not
    too old, announces on an enabled port a root better than the one this bridge knows, the
    bridge takes that root with the announced cost plus the port's own, makes the port its
    root port and starts it towards forwarding if it was blocking, takes over the sender's
    timer values, and no longer is the root. *)
Theorem superior_bpdu_adopted p c s :
  tree_ok s -> enabled s p = true -> c_message_age c < c_max_age c ->
  c_root_id c < designated_root s -> c_bridge_id c <> bridge_id s ->
  let s' := stp_received_config_bpdu p c s in
  designated_root s' = c_root_id c /\ root_port s' = Some p
  /\ root_path_cost s' = u32 (s32 (c_root_path_cost c) + p_path_cost (port s p))
  /\ stp_is_root_bridge s' = false /\ p_state (port s' p) <> STP_BLOCKING
  /\ max_age s' = c_max_age c /\ hello_time s' = c_hello_time c /\ forward_delay s' = c_forward_delay c.
Proof.
  intros Ht He Hm Hc Hb. cbv zeta.
  assert (designated_root s <= bridge_id s) as Hle.
  { destruct (root_port s) as [r|] eqn:Hr; [destruct (tree_some s Ht r Hr); lia|].
    destruct (tree_none s Ht Hr). lia. }
  assert (stp_supersedes_port_info s p c = true) as Hs.
  { unfold stp_supersedes_port_info. rewrite (tree_agree s Ht p He).
    destruct (Z.eqb_spec (c_root_id c) (designated_root s)); [lia|]. by apply Z.ltb_lt. }
  rewrite (received_config_eq p c s Hm He Hs). cbv zeta.
  destruct (update_of_best p c s Ht He Hc Hb) as (U1 & U2 & U3 & U4 & U5).
  set (s2 := stp_configuration_update _) in *. clearbody s2.
  pose proof (state_selection_root_port s2 p U1 U5) as Hst.
  pose proof (state_selection_rel same_root s2) as (S1 & S2 & S3 & S4).
  set (s3 := stp_port_state_selection s2) in *. clearbody s3.
  destruct (yield_root_ok (stp_is_root_bridge s) s3 p) as ((Y1 & Y2 & Y3 & Y4) & Y5).
  set (s4 := yield_root _ s3) in *. clearbody s4. rewrite bool_decide_true by congruence.
  destruct (adopt_ok c s4 p) as ((A1 & A2 & A3 & A4) & A5 & A6 & A7 & A8).
  set (s5 := adopt c s4) in *. clearbody s5.
  split_and!; try congruence. unfold stp_is_root_bridge. apply Z.eqb_neq.
  rewrite A1, A2, Y1, Y2, S1, S2, U2, U3. lia.
Qed.

(** ** Large path costs *)

(** A path cost of 2^31 or more beats every small one.  stp_record_config_information
    stores the unsigned cost of a BPDU in an int and stp_supersedes_root compares the sums
    as ints, so of two ports that have heard of the same root, one at a cost of at least
    2^31 is taken for the better root port than one at any cost below 2^31. *)
Theorem large_cost_preferred s r p c k :
  p_designated_root (port s p) = p_designated_root (port s r) ->
  p_designated_cost (port s p) = s32 c -> p_designated_cost (port s r) = s32 k ->
  2 ^ 31 <= c < 2 ^ 32 - 65536 -> 0 <= k < 2 ^ 31 - 65536 ->
  0 <= p_path_cost (port s p) < 65536 -> 0 <= p_path_cost (port s r) < 65536 ->
  stp_supersedes_root s r p = true.
Proof.
  intros Hd Hp Hr Hc Hk H1 H2. unfold stp_supersedes_root. rewrite Hd, Z.eqb_refl, Hp, Hr. cbn [negb].
  rewrite (swrap_small 32 k) by lia. rewrite (swrap_small 32 (k + _)) by lia.
  assert (s32 c = c - 2 ^ 32) as ->.
  { unfold swrap, wrap. rewrite Z.mod_small by lia. destruct (Z.ltb_spec c (2 ^ (32 - 1))); lia. }
  rewrite swrap_small by lia. destruct (Z.eqb_spec (c - 2 ^ 32 + p_path_cost (port s p)) (k + p_path_cost (port s r))); [lia|].
  apply Z.ltb_lt. lia.
Qed.

(** ** Witnesses *)

(** A bridge with two ports enabled. *)
Definition demo_created : stp := match stp_create "br0" 10 with Ret s => s | Stuck _ => zero_stp end.
Definition demo_port : port_no := 1%fin.
Definition demo (cs : list stp_call) : stp :=
  match calls cs demo_created with Ret s => s | Stuck _ => zero_stp end.
Definition demo_two : stp := demo [PortEnable 0%fin; PortEnable demo_port].

Lemma demo_created_ok : stp_create "br0" 10 = Ret demo_created.
Proof. destruct (create_ok "br0" 10) as (s & E & _). unfold demo_created. by rewrite E. Qed.

Lemma demo_created_inv : stp_inv demo_created.
Proof. destruct (create_ok "br0" 10) as (s & E & H & _). unfold demo_created. by rewrite E. Qed.

Lemma demo_ok cs : calls cs demo_created = Ret (demo cs).
Proof. destruct (calls_tree cs demo_created (inv_tree _ demo_created_inv)) as (s & E & _). unfold demo. by rewrite E. Qed.

Lemma demo_app cs1 cs2 : calls cs2 (demo cs1) = Ret (demo (cs1 ++ cs2)).
Proof.
  pose proof (demo_ok (cs1 ++ cs2)) as E. pose proof (demo_ok cs1) as E1.
  revert E E1. generalize (demo (cs1 ++ cs2)) (demo cs1) demo_created. clear.
  intros s2 s1. induction cs1 as [|c cs1 IH]; intros s0; cbn [app calls].
  - intros E ->%Ret_inj. exact E.
  - destruct (call_returns c s0) as [s E]. rewrite E. apply IH.
Qed.

Lemma demo_inv cs :
  Forall (fun c => match c with Tick ms => ms <= MAX_TICK_MS | _ => True end) cs -> stp_inv (demo cs).
Proof.
  intros H. destruct (calls_inv cs _ H demo_created_inv) as (s & E & Hs).
  rewrite demo_ok in E. apply Ret_inj in E. by rewrite E.
Qed.

(** A port that blocks, and then enabled and ticked until it forwards. *)
Definition demo_forward : list stp_call := [PortEnable demo_port; Tick 15000; Tick 15000].

Example stp_forwarding_delayed_witness :
  let s := demo [PortEnable 0%fin] in
  let s' := demo ([PortEnable 0%fin] ++ demo_forward) in
  p_state (port s' demo_port) = STP_FORWARDING
  /\ 2 * 3840 <= ticks (elapsed_remainder s) (tick_args demo_forward).
Proof.
  cbv zeta. assert (p_state (port (demo ([PortEnable 0%fin] ++ demo_forward)) demo_port) = STP_FORWARDING) as E
    by (vm_compute; reflexivity).
  split; [exact E|]. revert E.
  apply (stp_forwarding_delayed 3840 demo_forward (demo [PortEnable 0%fin])
           (demo ([PortEnable 0%fin] ++ demo_forward)) demo_port);
    [done|repeat constructor; vm_compute; discriminate|vm_compute; repeat split; discriminate
    |vm_compute; split; discriminate|left; vm_compute; reflexivity|vm_compute; discriminate|apply demo_app].
Defined.

Example stp_hold_limit_witness :
  exists new, sent (demo [PortEnable 0%fin; Tick 2000; Tick 2000]) = sent (demo [PortEnable 0%fin]) ++ new
    /\ 256 * Z.of_nat (configs_on 0%fin new)
       <= ticks (elapsed_remainder (demo [PortEnable 0%fin])) (tick_args [Tick 2000; Tick 2000]) + 256.
Proof.
  apply (stp_hold_limit [Tick 2000; Tick 2000]).
  - repeat constructor; try discriminate; unfold MAX_TICK_MS; lia.
  - apply (inv_remainder _ (demo_inv [PortEnable 0%fin] ltac:(by repeat constructor))).
  - intros H. exfalso. revert H. vm_compute. discriminate.
  - exact (demo_app [PortEnable 0%fin] [Tick 2000; Tick 2000]).
Defined.

Example stp_timer_bounds_witness :
  let s := demo [SetHelloTime 0; SetMaxAge 1000000; SetForwardDelay 5000] in
  256 <= bridge_hello_time s <= 2560
  /\ Z.max 1536 (2 * (bridge_hello_time s + 256)) <= bridge_max_age s <= 10240
  /\ Z.max 1024 ((bridge_max_age s - 1) / 2 + 256) <= bridge_forward_delay s <= 7680.
Proof.
  apply (stp_timer_bounds "br0" 10 [SetHelloTime 0; SetMaxAge 1000000; SetForwardDelay 5000] demo_created);
    [by repeat constructor|exact demo_created_ok|apply demo_ok].
Defined.

Example stp_clock_bounds_witness :
  256 * (0 + 1010 - 4) <= 1000 * ticks 0 [7; 1; 2; 1000] <= 256 * (0 + 1010 + 4).
Proof. apply (stp_clock_bounds [7; 1; 2; 1000] 0); [repeat constructor; unfold MAX_TICK_MS; lia|lia]. Defined.

Definition demo_config : stp_config_bpdu :=
  MkConfig 0 0 0 0 (Z.shiftl 4096 48 + 7) 100 (Z.shiftl 32768 48 + 9) 32770 256 5120 512 3840.

Example config_bpdu_received_witness :
  stp_received_bpdu demo_port (config_bytes demo_config ++ [0; 0; 0]) demo_two
  = upd_port demo_port (fun q => with_p_rx_count (p_rx_count q + 1) q)
      (stp_received_config_bpdu demo_port demo_config demo_two).
Proof.
  apply config_bpdu_received; [repeat split; discriminate|reflexivity|reflexivity|vm_compute; reflexivity].
Defined.

Example changed_ports_complete_witness :
  let s := demo [PortEnable demo_port] in
  let (l, s') := changed_ports 256 s in
  l = filter (fun p => p_state_changed (port s p) = true) (enum port_no)
  /\ (forall p, p_state_changed (port s' p) = false)
  /\ (forall p, p_state (port s' p) = p_state (port s p))
  /\ (stp_get_changed_port s').1 = None.
Proof.
  exact (changed_ports_complete "br0" 10 [PortEnable demo_port] demo_created (demo [PortEnable demo_port])
    demo_created_ok (demo_ok [PortEnable demo_port])).
Defined.

Example superior_bpdu_adopted_witness :
  let s' := stp_received_config_bpdu demo_port demo_config demo_two in
  designated_root s' = Z.shiftl 4096 48 + 7 /\ root_port s' = Some demo_port
  /\ root_path_cost s' = u32 (s32 100 + p_path_cost (port demo_two demo_port))
  /\ stp_is_root_bridge s' = false /\ p_state (port s' demo_port) <> STP_BLOCKING
  /\ max_age s' = 5120 /\ hello_time s' = 512 /\ forward_delay s' = 3840.
Proof.
  apply (superior_bpdu_adopted demo_port demo_config demo_two).
  - apply (inv_tree _ (demo_inv [PortEnable 0%fin; PortEnable demo_port] ltac:(by repeat constructor))).
  - vm_compute. reflexivity.
  - reflexivity.
  - vm_compute. reflexivity.
  - vm_compute. discriminate.
Defined.

(** Port 0 has heard of the root at cost 100, port 1 at cost 4294000000. *)
Definition demo_costs : stp :=
  upd_port 0%fin (with_p_designated_cost (s32 100))
    (upd_port demo_port (with_p_designated_cost (s32 4294000000)) demo_two).

Example large_cost_preferred_witness : stp_supersedes_root demo_costs 0%fin demo_port = true.
Proof.
  apply (large_cost_preferred demo_costs 0%fin demo_port 4294000000 100);
    try (vm_compute; reflexivity); try lia; vm_compute; (split; [discriminate|reflexivity]).
Defined.
