(* ===== verification/Tag.v ===== *)
(** * Tags (lib/tag.c, lib/tag.h)

    A tag stands for something a cached flow depends on.  It is a word with two bits set;
    words are combined with a bitwise or, and a [tag_set] collects tags in four such words
    so that the flows that depend on any of them can be found.  The point of the module is
    that a set may report a tag that was not added but never misses one that was. *)
From S2P Require Import Prelude.

Local Open Scope Z_scope.

(** ** Definitions *)

Definition N_TAG_BITS : Z := 32.
Definition LOG2_N_TAG_BITS : Z := 5.
Definition TAG_SET_SIZE : Z := 4.

(** [TYPE_MAXIMUM(tag_type)]. *)
Definition TAG_MAX : Z := 2 ^ 32 - 1.

(** The tags drawn from the values [rs] of random_uint16, with the values left over; [None]
    when the loop is still running after all of them. *)
Fixpoint tag_create_random (rs : list Z) : option (Z * list Z) :=
  match rs with
  | [] => None
  | r :: rs' =>
      let x := Z.land r (N_TAG_BITS - 1) in
      let y := Z.shiftr r (16 - LOG2_N_TAG_BITS) in
      if x =? y then tag_create_random rs'
      else Some (Z.lor (u32 (Z.shiftl 1 x)) (u32 (Z.shiftl 1 y)), rs')
  end.

Definition tag_create_deterministic (seed : Z) : Z :=
  let x := Z.land seed (N_TAG_BITS - 1) in
  let y := (Z.shiftr seed LOG2_N_TAG_BITS) `mod` (N_TAG_BITS - 1) in
  let y := y + (if x <=? y then 1 else 0) in
  Z.lor (u32 (Z.shiftl 1 x)) (u32 (Z.shiftl 1 y)).

Definition tag_intersects (a b : Z) : bool :=
  let x := Z.land a b in
  negb (Z.land x (u32 (x - 1)) =? 0).

Definition tag_is_valid (tag : Z) : bool :=
  let x := Z.land tag (u32 (tag - 1)) in
  let y := Z.land x (u32 (x - 1)) in
  negb (x =? 0) && (y =? 0).

Record tag_set := MkTagSet { total : Z; tags : list Z; ts_n : Z }.

Definition tag_set_init : tag_set := MkTagSet 0 [0; 0; 0; 0] 0.

Definition tag_is_worth_adding (s : tag_set) (tag : Z) : bool :=
  if tag =? 0 then false
  else if negb (Z.land (total s) tag =? tag) then true
  else negb (existsb (fun t => Z.land t tag =? tag) (tags s)).

(** [set->n++ % TAG_SET_SIZE] is an index of the four words. *)
Definition tag_set_add (s : tag_set) (tag : Z) : tag_set :=
  if tag_is_worth_adding s tag then
    let i := Z.to_nat (ts_n s `mod` TAG_SET_SIZE) in
    let t := Z.lor (nth i (tags s) 0) tag in
    let ts := <[i := t]> (tags s) in
    let ts := if t =? TAG_MAX then <[0%nat := t]> ts else ts in
    MkTagSet (Z.lor (total s) tag) ts (u32 (ts_n s + 1))
  else s.

Definition tag_set_union (s other : tag_set) : tag_set :=
  fold_left tag_set_add (tags other) s.

Definition tag_set_is_empty (s : tag_set) : bool := ts_n s =? 0.

Definition tag_set_intersects (s : tag_set) (ts : Z) : bool :=
  tag_intersects (total s) ts && existsb (fun t => tag_intersects t ts) (tags s).

(** ** Bits *)

(** All bits of [t] are set in [z]. *)
Definition covers (z t : Z) : Prop := Z.land z t = t.

Lemma covers_spec z t : covers z t <-> forall i, 0 <= i -> Z.testbit t i = true -> Z.testbit z i = true.
Proof.
  unfold covers. split.
  - intros E i Hi Ht. rewrite <- E, Z.land_spec in Ht. by apply andb_true_iff in Ht as [].
  - intros H. apply Z.bits_inj'. intros i Hi. rewrite Z.land_spec.
    destruct (Z.testbit t i) eqn:E; [by rewrite (H i)|by rewrite andb_false_r].
Qed.

Lemma covers_lor_l z t : covers (Z.lor z t) t.
Proof. apply covers_spec. intros i Hi H. by rewrite Z.lor_spec, H, orb_true_r. Qed.

Lemma covers_lor_r z y t : covers z t -> covers (Z.lor z y) t.
Proof. rewrite !covers_spec. intros H i Hi Ht. by rewrite Z.lor_spec, H. Qed.

Lemma covers_max t : word t -> covers TAG_MAX t.
Proof.
  intros Ht. unfold covers, TAG_MAX. change (2 ^ 32 - 1) with (Z.ones 32).
  rewrite Z.land_comm, Z.land_ones by lia. by apply Z.mod_small.
Qed.

Lemma word_of_covered z t : word z -> covers z t -> word t.
Proof.
  unfold covers. intros Hz E. assert (0 <= t) by (rewrite <- E; apply Z.land_nonneg; unfold word in Hz; lia).
  rewrite <- E. by apply word_land.
Qed.

Lemma covers_0 z : covers z 0.
Proof. apply Z.land_0_r. Qed.

(** [x & (x - 1)] is not zero exactly when [x] has two bits. *)
Lemma pred_testbit x i j :
  0 <= i < j -> 0 <= x -> Z.testbit x i = true -> Z.testbit (x - 1) j = Z.testbit x j.
Proof.
  intros Hij Hx Hi. rewrite !Z.testbit_odd, !Z.shiftr_div_pow2 by lia. f_equal.
  assert (0 < x `mod` 2 ^ j) as Hm.
  { assert (0 <= x `mod` 2 ^ j) by (apply Z.mod_pos_bound, Z.pow_pos_nonneg; lia).
    destruct (decide (x `mod` 2 ^ j = 0)) as [E|]; [|lia].
    pose proof (Z.mod_pow2_bits_low x j i ltac:(lia)) as Hb. rewrite E, Z.bits_0, Hi in Hb. done. }
  pose proof (Z.mod_pos_bound x (2 ^ j) ltac:(apply Z.pow_pos_nonneg; lia)).
  pose proof (Z.div_mod x (2 ^ j) ltac:(apply Z.pow_nonzero; lia)) as E.
  symmetry. apply (Z.div_unique _ _ _ (x `mod` 2 ^ j - 1)); lia.
Qed.

Lemma two_bits x :
  word x ->
  negb (Z.land x (u32 (x - 1)) =? 0) = true
  <-> exists i j, 0 <= i < j /\ Z.testbit x i = true /\ Z.testbit x j = true.
Proof.
  intros Hx. rewrite negb_true_iff, Z.eqb_neq. split.
  - intros Hn. destruct (decide (x = 0)) as [->|Hx0]; [done|].
    rewrite wrap_small in Hn by (unfold word in Hx; lia).
    assert (exists j, 0 <= j /\ Z.testbit (Z.land x (x - 1)) j = true) as (j & Hj & E).
    { exists (Z.log2 (Z.land x (x - 1))). split; [apply Z.log2_nonneg|]. apply Z.bit_log2.
      assert (0 <= Z.land x (x - 1)) by (apply Z.land_nonneg; unfold word in Hx; lia). lia. }
    rewrite Z.land_spec in E. apply andb_true_iff in E as [E1 E2].
    destruct (decide (x `mod` 2 ^ j = 0)) as [E|E].
    + exfalso. rewrite Z.testbit_odd, Z.shiftr_div_pow2 in E1, E2 by lia.
      pose proof (Z.div_mod x (2 ^ j) ltac:(apply Z.pow_nonzero; lia)) as Ed.
      assert (0 < 2 ^ j) by (apply Z.pow_pos_nonneg; lia).
      assert ((x - 1) / 2 ^ j = x / 2 ^ j - 1) as Eq.
      { symmetry. apply (Z.div_unique _ _ _ (2 ^ j - 1)); lia. }
      rewrite Eq, Z.odd_sub, E1 in E2. done.
    + set (m := x `mod` 2 ^ j) in *.
      pose proof (Z.mod_pos_bound x (2 ^ j) ltac:(apply Z.pow_pos_nonneg; lia)) as Hm. fold m in Hm.
      exists (Z.log2 m), j. assert (Z.log2 m < j) by (apply Z.log2_lt_pow2; lia).
      split; [pose proof (Z.log2_nonneg m); lia|]. split; [|done].
      rewrite <- (Z.mod_pow2_bits_low x j) by lia. fold m. apply Z.bit_log2. lia.
  - intros (i & j & Hij & Hi & Hj) E.
    assert (x <> 0) as H0 by (intros ->; rewrite Z.bits_0 in Hi; done).
    rewrite wrap_small in E by (unfold word in Hx; lia).
    pose proof (Z.bits_0 j) as Hb. rewrite <- E, Z.land_spec, (pred_testbit x i j), Hj in Hb; try done.
    unfold word in Hx; lia.
Qed.

Lemma intersects_spec a b :
  word a -> word b ->
  tag_intersects a b = true
  <-> exists i j, 0 <= i < j /\ Z.testbit a i = true /\ Z.testbit b i = true
                  /\ Z.testbit a j = true /\ Z.testbit b j = true.
Proof.
  intros Ha Hb. unfold tag_intersects. rewrite two_bits by (apply word_land; [done|unfold word in Hb; lia]).
  split; intros (i & j & Hij & H); exists i, j; rewrite !Z.land_spec, !andb_true_iff in *; tauto.
Qed.

Lemma intersects_covers z t ts :
  word z -> word t -> word ts -> covers z t -> tag_intersects t ts = true -> tag_intersects z ts = true.
Proof.
  intros Hz Ht Hs Hc. rewrite !intersects_spec by done. rewrite covers_spec in Hc.
  intros (i & j & Hij & H1 & H2 & H3 & H4). exists i, j.
  rewrite (Hc i), (Hc j) by (done || lia). tauto.
Qed.

(** ** New tags *)

(** Two different positions below 32 make a valid tag. *)
Lemma two_positions_valid x y :
  0 <= x < 32 -> 0 <= y < 32 -> x <> y ->
  let t := Z.lor (u32 (Z.shiftl 1 x)) (u32 (Z.shiftl 1 y)) in word t /\ tag_is_valid t = true.
Proof.
  intros Hx Hy Hxy. cbv zeta.
  assert (forallb (fun x => forallb (fun y =>
            (x =? y) || let t := Z.lor (u32 (Z.shiftl 1 x)) (u32 (Z.shiftl 1 y)) in
                        (0 <=? t) && (t <? 2 ^ 32) && tag_is_valid t) (seqZ 0 32)) (seqZ 0 32) = true) as E
    by (vm_compute; reflexivity).
  rewrite forallb_forall in E. specialize (E x). cbv beta in E. rewrite forallb_forall in E.
  assert (forall z, 0 <= z < 32 -> In z (seqZ 0 32)) as Hin
    by (intros z Hz; apply list_elem_of_In, elem_of_seqZ; lia).
  specialize (E (Hin x Hx) y (Hin y Hy)). apply orb_true_iff in E as [E|E]; [lia|].
  apply andb_true_iff in E as [E1 E2]. apply andb_true_iff in E1 as [E0 E1].
  unfold word. split; [lia|done].
Qed.

Lemma land_31 z : 0 <= Z.land z (N_TAG_BITS - 1) < 32.
Proof.
  change (N_TAG_BITS - 1) with (Z.ones 5). rewrite Z.land_ones by lia. apply Z.mod_pos_bound. lia.
Qed.

Lemma create_random_spec rs t rs' :
  Forall (fun r => 0 <= r < 2 ^ 16) rs -> tag_create_random rs = Some (t, rs') ->
  word t /\ tag_is_valid t = true /\ exists l, rs = l ++ rs'.
Proof.
  intros Hr. induction Hr as [|r rs Hr _ IH]; [done|]. cbn [tag_create_random].
  destruct (Z.eqb_spec (Z.land r (N_TAG_BITS - 1)) (Z.shiftr r (16 - LOG2_N_TAG_BITS))) as [E|E].
  - intros H. destruct (IH H) as (? & ? & l & ->). split_and!; try done. by exists (r :: l).
  - intros [= <- <-]. destruct (two_positions_valid _ (Z.shiftr r (16 - LOG2_N_TAG_BITS))
      (land_31 r)) with (2 := E) as [H1 H2].
    + rewrite Z.shiftr_div_pow2 by done. change (2 ^ (16 - LOG2_N_TAG_BITS)) with 2048.
      split; [apply Z.div_pos; lia|apply Z.div_lt_upper_bound; lia].
    + split_and!; try done. by exists [r].
Qed.

Lemma create_deterministic_spec seed :
  word (tag_create_deterministic seed) /\ tag_is_valid (tag_create_deterministic seed) = true.
Proof.
  unfold tag_create_deterministic. cbv zeta. pose proof (land_31 seed) as Hx.
  set (x := Z.land _ _) in *. pose proof (Z.mod_pos_bound (Z.shiftr seed LOG2_N_TAG_BITS) (N_TAG_BITS - 1) ltac:(done)) as Hy.
  set (y := _ `mod` _) in *. unfold N_TAG_BITS in Hy. apply two_positions_valid; [done|..];
    destruct (Z.leb_spec x y); lia.
Qed.

(** ** Sets *)

(** What a set with the tags [added] satisfies. *)
Record set_ok (s : tag_set) (added : list Z) : Prop := {
  so_total : word (total s);
  so_len : length (tags s) = 4%nat;
  so_words : Forall word (tags s);
  so_member : forall t, t ∈ added -> t = 0 \/ (covers (total s) t /\ exists u, u ∈ tags s /\ covers u t)
}.

Lemma init_ok : set_ok tag_set_init [].
Proof.
  split; [unfold word; simpl; lia|done|by repeat constructor|]. intros t Ht. by apply not_elem_of_nil in Ht.
Qed.

(** A word of the set is replaced by one that covers it. *)
Lemma insert_covers (i : nat) u (ts : list Z) t :
  (exists v, v ∈ ts /\ covers v t) -> (forall v, ts !! i = Some v -> covers v t -> covers u t) ->
  exists v, v ∈ <[i := u]> ts /\ covers v t.
Proof.
  intros (v & Hv & Hc) Hu. apply list_elem_of_lookup in Hv as [k Hk].
  destruct (decide (k = i)) as [->|Hki].
  - exists u. split; [|by eapply Hu].
    apply list_elem_of_lookup. exists i. apply list_lookup_insert_eq. by eapply lookup_lt_Some.
  - exists v. split; [|done]. apply list_elem_of_lookup. exists k. by rewrite list_lookup_insert_ne.
Qed.

Lemma set_index s added : set_ok s added -> (Z.to_nat (ts_n s `mod` TAG_SET_SIZE) < 4)%nat.
Proof.
  intros _. pose proof (Z.mod_pos_bound (ts_n s) TAG_SET_SIZE ltac:(done)). unfold TAG_SET_SIZE in *. lia.
Qed.

Lemma add_member s t added :
  set_ok s added -> word t -> tag_is_worth_adding s t = false ->
  t = 0 \/ (covers (total s) t /\ exists u, u ∈ tags s /\ covers u t).
Proof.
  intros [] Ht. unfold tag_is_worth_adding. destruct (Z.eqb_spec t 0); [by left|].
  destruct (Z.eqb_spec (Z.land (total s) t) t) as [E|]; [|done]. cbn [negb].
  rewrite negb_false_iff, existsb_exists. intros (u & Hu & Hc). right. split; [done|].
  exists u. split; [by apply list_elem_of_In|]. by apply Z.eqb_eq.
Qed.

Lemma add_ok s t added :
  set_ok s added -> word t -> set_ok (tag_set_add s t) (added ++ [t]).
Proof.
  intros Hs Ht. unfold tag_set_add. destruct (tag_is_worth_adding s t) eqn:W.
  2: { pose proof (add_member _ _ _ Hs Ht W). destruct Hs. split; try done.
       intros u Hu. apply elem_of_app in Hu as [Hu|Hu]; [by apply so_member0|].
       apply list_elem_of_singleton in Hu as ->. done. }
  pose proof (set_index _ _ Hs) as Hi. destruct Hs as [H1 H2 H3 H4].
  set (i := Z.to_nat _) in *. destruct (lookup_lt_is_Some_2 (tags s) i ltac:(lia)) as [u Hu].
  rewrite (nth_lookup_Some _ _ _ _ Hu). assert (word u) as Hwu by (by eapply Forall_lookup_1 in H3).
  set (v := Z.lor u t). assert (word v) as Hwv by (by apply word_lor). cbv zeta.
  assert (forall x, covers u x -> covers v x) as Huv by (intros; by apply covers_lor_r).
  split; cbn [total tags].
  - by apply word_lor.
  - destruct (v =? TAG_MAX); by rewrite ?length_insert.
  - destruct (v =? TAG_MAX); repeat apply Forall_insert; done.
  - intros x Hx.
    assert (x = 0 \/ covers (Z.lor (total s) t) x /\ exists w, w ∈ <[i:=v]> (tags s) /\ covers w x) as [?|[Hc Hw]].
    { apply elem_of_app in Hx as [Hx|Hx].
      - destruct (H4 _ Hx) as [?|[Hc Hw]]; [by left|right]. split; [by apply covers_lor_r|].
        apply insert_covers; [done|]. intros w. rewrite Hu. intros [= <-]. apply Huv.
      - apply list_elem_of_singleton in Hx as ->. right. split; [apply covers_lor_l|].
        exists v. split; [|apply covers_lor_l]. apply list_elem_of_lookup. exists i.
        apply list_lookup_insert_eq. lia. }
    + by left.
    + destruct (decide (x = 0)); [by left|right]. split; [done|].
      destruct (Z.eqb_spec v TAG_MAX) as [Ev|]; [|done].
      apply insert_covers; [done|]. intros w Hw0 Hcw. rewrite Ev. apply covers_max.
      eapply (word_of_covered w); [|done].
      assert (Forall word (<[i:=v]> (tags s))) as Hf by (by apply Forall_insert).
      by eapply Forall_lookup_1 in Hf.
Qed.

Lemma adds_ok s a l :
  set_ok s a -> Forall word l -> set_ok (fold_left tag_set_add l s) (a ++ l).
Proof.
  intros Hs Hl. revert s a Hs. induction Hl as [|t l Ht _ IH]; intros s a Hs; cbn [fold_left].
  - by rewrite app_nil_r.
  - replace (a ++ t :: l) with ((a ++ [t]) ++ l) by by rewrite <- app_assoc.
    by apply IH, add_ok.
Qed.

Lemma covers_trans z u t : covers z u -> covers u t -> covers z t.
Proof. rewrite !covers_spec. eauto. Qed.

(** A set may be replaced by its words. *)
Lemma member_of_words s a o b :
  set_ok s (a ++ tags o) -> set_ok o b -> set_ok s (a ++ b).
Proof.
  intros [H1 H2 H3 H4] Ho. split; try done. intros t Ht. apply elem_of_app in Ht as [Ht|Ht].
  { apply H4, elem_of_app. by left. }
  destruct (so_member _ _ Ho t Ht) as [->|[_ (u & Hu & Hc)]]; [by left|right].
  destruct (H4 u) as [->|[Hc' (v & Hv & Hcv)]]; [by apply elem_of_app; right|..].
  - assert (t = 0) as -> by (unfold covers in Hc; by rewrite Z.land_0_l in Hc).
    split; [apply covers_0|]. destruct (tags s) as [|v l] eqn:E; [done|].
    exists v. split; [by left|apply covers_0].
  - split; [by eapply covers_trans|]. exists v. split; [done|]. by eapply covers_trans.
Qed.

Lemma ok_intersects s a t ts :
  set_ok s a -> Forall word a -> word ts -> t ∈ a -> tag_intersects t ts = true ->
  tag_set_intersects s ts = true.
Proof.
  intros Hs Ha Hts Ht Hi. pose proof (Forall_forall word a) as [Hf _]. pose proof (Hf Ha t Ht) as Hwt.
  destruct Hs as [H1 H2 H3 H4]. unfold tag_set_intersects.
  destruct (H4 t Ht) as [->|[Hc (u & Hu & Hcu)]].
  { unfold tag_intersects in Hi. by rewrite Z.land_0_l in Hi. }
  rewrite (intersects_covers _ t) by done. cbn [andb]. apply existsb_exists. exists u.
  split; [by apply list_elem_of_In|]. apply (intersects_covers _ t); try done.
  by eapply (Forall_forall word) in H3.
Qed.

(** *** The counter *)

Definition popcount (z : Z) : nat := length (filter (fun i => Z.testbit z i = true) (seqZ 0 32)).

Lemma filter_length_mono (P Q : Z -> bool) (l : list Z) :
  (forall x, x ∈ l -> P x = true -> Q x = true) ->
  (length (filter (fun x => P x = true) l) <= length (filter (fun x => Q x = true) l))%nat
  /\ ((exists x, x ∈ l /\ P x = false /\ Q x = true) ->
      (length (filter (fun x => P x = true) l) < length (filter (fun x => Q x = true) l))%nat).
Proof.
  induction l as [|y l IH]; intros H.
  { split; [done|]. intros (x & Hx & _). by apply not_elem_of_nil in Hx. }
  destruct IH as [IH1 IH2]; [intros x Hx; apply H; by right|]. rewrite !filter_cons.
  assert (P y = true -> Q y = true) as Hy by (apply H; by left).
  destruct (P y) eqn:EP, (Q y) eqn:EQ; repeat case_decide; cbn [length]; try done;
    try (by specialize (Hy eq_refl)).
  all: split; [lia|]; intros (x & Hx & Hp & Hq); apply elem_of_cons in Hx as [->|Hx];
    try congruence; try lia;
    assert (exists x, x ∈ l /\ P x = false /\ Q x = true) as Hex by eauto; specialize (IH2 Hex); lia.
Qed.

Lemma popcount_le z t : covers z t -> (popcount t <= popcount z)%nat.
Proof.
  rewrite covers_spec. intros H. apply filter_length_mono. intros i Hi. apply elem_of_seqZ in Hi.
  apply H. lia.
Qed.

Lemma popcount_lor_lt z t : word t -> ~ covers z t -> (popcount z < popcount (Z.lor z t))%nat.
Proof.
  intros Ht Hn. apply filter_length_mono.
  - intros i _ Hi. by rewrite Z.lor_spec, Hi.
  - destruct (decide (Exists (fun i => Z.testbit t i = true /\ Z.testbit z i = false) (seqZ 0 32))) as [He|He].
    + apply Exists_exists in He as (i & Hi & H1 & H2). exists i.
      by rewrite Z.lor_spec, H1, H2.
    + exfalso. apply Hn, covers_spec. intros i Hi H1. destruct (Z.testbit z i) eqn:E; [done|].
      destruct (decide (i < 32)); [|by rewrite word_high in H1 by (done || lia)].
      exfalso. apply He, Exists_exists. exists i. split; [apply elem_of_seqZ; lia|done].
Qed.

Lemma popcount_max z : (popcount z <= 32)%nat.
Proof. unfold popcount. etrans; [apply length_filter|]. by rewrite length_seqZ. Qed.

Definition weight (s : tag_set) : nat := sum_list_with popcount (tags s).

Lemma sum_insert (f : Z -> nat) (l : list Z) (i : nat) u v :
  l !! i = Some u -> (sum_list_with f (<[i := v]> l) + f u = sum_list_with f l + f v)%nat.
Proof.
  revert i. induction l as [|x l IH]; intros [|i] H; simplify_eq/=; [lia|].
  specialize (IH i H). lia.
Qed.

(** The words stay within the total, and every addition sets a new bit in one of them. *)
Record counted (s : tag_set) : Prop := {
  ct_n : 0 <= ts_n s <= Z.of_nat (weight s);
  ct_within : Forall (covers (total s)) (tags s);
  ct_empty : ts_n s = 0 -> tags s = [0; 0; 0; 0]
}.

Lemma worth_uncovered s t u :
  counted s -> u ∈ tags s -> tag_is_worth_adding s t = true -> ~ covers u t.
Proof.
  intros [_ Hw _] Hu. unfold tag_is_worth_adding. destruct (t =? 0); [done|].
  rewrite Forall_forall in Hw. pose proof (Hw u Hu) as Hcu.
  destruct (Z.eqb_spec (Z.land (total s) t) t) as [E|E]; cbn [negb].
  - rewrite negb_true_iff. intros Hx Hc. enough (existsb (fun t0 => Z.land t0 t =? t) (tags s) = true) by congruence.
    apply existsb_exists. exists u. split; [by apply list_elem_of_In|by apply Z.eqb_eq].
  - intros _ Hc. apply E. by eapply covers_trans.
Qed.

Lemma weight_max s a : set_ok s a -> (weight s <= 128)%nat.
Proof.
  intros [_ Hl _ _]. unfold weight. destruct (tags s) as [|a0 [|a1 [|a2 [|a3 [|]]]]]; try done.
  cbn [sum_list_with]. pose proof (popcount_max a0). pose proof (popcount_max a1).
  pose proof (popcount_max a2). pose proof (popcount_max a3). lia.
Qed.

Lemma add_counted s a t : set_ok s a -> counted s -> word t -> counted (tag_set_add s t).
Proof.
  intros Hs Hc Ht. unfold tag_set_add. destruct (tag_is_worth_adding s t) eqn:W; [|done].
  pose proof (set_index _ _ Hs) as Hi. pose proof (weight_max _ _ Hs) as Hm.
  destruct Hs as [H1 H2 H3 _]. set (i := Z.to_nat _) in *.
  destruct (lookup_lt_is_Some_2 (tags s) i ltac:(lia)) as [u Hu].
  rewrite (nth_lookup_Some _ _ _ _ Hu). set (v := Z.lor u t). cbv zeta.
  assert (u ∈ tags s) as Hin by (by eapply list_elem_of_lookup_2).
  pose proof (popcount_lor_lt u t Ht (worth_uncovered _ _ _ Hc Hin W)) as Hp. fold v in Hp.
  pose proof (sum_insert popcount _ _ _ v Hu) as Hsum.
  destruct Hc as [Hn Hw _]. unfold weight in *.
  assert (u32 (ts_n s + 1) = ts_n s + 1) as En by (apply wrap_small; lia).
  assert (Forall (covers (Z.lor (total s) t)) (<[i:=v]> (tags s))) as Hw'.
  { apply Forall_insert.
    - eapply Forall_impl; [exact Hw|]. intros x Hx. by apply covers_lor_r.
    - apply covers_spec. intros k Hk. unfold v. rewrite !Z.lor_spec, !orb_true_iff. intros [Hb|Hb]; [left|by right].
      eapply Forall_lookup_1 in Hw; [|exact Hu]. rewrite covers_spec in Hw. by apply Hw. }
  split; cbn [ts_n tags total]; [|destruct (v =? TAG_MAX); [apply Forall_insert|]; try done|intros ?; exfalso; lia].
  - rewrite En. unfold weight. cbn [tags]. destruct (Z.eqb_spec v TAG_MAX) as [Ev|]; [|lia].
    destruct (lookup_lt_is_Some_2 (<[i:=v]> (tags s)) 0%nat ltac:(rewrite length_insert; lia)) as [w Hw0].
    pose proof (sum_insert popcount _ _ _ v Hw0) as Hsum0.
    assert (word w) as Hww.
    { eapply Forall_lookup_1; [|exact Hw0]. apply Forall_insert; [done|]. apply word_lor; [|done].
      by eapply Forall_lookup_1 in H3. }
    pose proof (popcount_le v w ltac:(rewrite Ev; by apply covers_max)). lia.
  - eapply Forall_lookup_1; [exact Hw'|]. apply list_lookup_insert_eq. lia.
Qed.

Lemma init_counted : counted tag_set_init.
Proof. split; [simpl; lia| |done]. repeat constructor; apply covers_0. Qed.

Lemma adds_counted s a l :
  set_ok s a -> counted s -> Forall word l -> counted (fold_left tag_set_add l s).
Proof.
  intros Hs Hc Hl. revert s a Hs Hc. induction Hl as [|t l Ht _ IH]; intros s a Hs Hc; [done|].
  cbn [fold_left]. eapply IH; [by apply add_ok|by eapply add_counted].
Qed.

(** Adding anything but 0 to the empty set counts, and what is there stays. *)
Lemma adds_n_mono s a l :
  set_ok s a -> counted s -> Forall word l -> ts_n s <> 0 -> ts_n (fold_left tag_set_add l s) <> 0.
Proof.
  intros Hs Hc Hl. revert s a Hs Hc. induction Hl as [|t l Ht _ IH]; intros s a Hs Hc Hn; [done|].
  cbn [fold_left]. eapply IH; [by apply add_ok|by eapply add_counted|].
  pose proof (weight_max _ _ Hs). pose proof (ct_n _ Hc). unfold tag_set_add.
  destruct (tag_is_worth_adding s t); [|done]. cbn [ts_n]. rewrite wrap_small; lia.
Qed.

(** ** Properties *)

(** A tag set misses nothing.  Whatever words were added to two sets and in whatever
    order, the union of the sets intersects every combination of tags that has a tag in
    common with one of them: no flow that depends on a changed tag escapes. *)
Theorem tag_set_no_miss a1 a2 t ts :
  Forall word (a1 ++ a2) -> word ts -> t ∈ a1 ++ a2 -> tag_intersects t ts = true ->
  tag_set_intersects (tag_set_union (fold_left tag_set_add a1 tag_set_init)
                                    (fold_left tag_set_add a2 tag_set_init)) ts = true.
Proof.
  intros Ha Hts Ht Hi. pose proof Ha as Ha'. apply Forall_app in Ha as [H1 H2].
  pose proof (adds_ok _ _ _ init_ok H2) as Ho. eapply ok_intersects; [|exact Ha'|done..].
  apply (member_of_words _ _ _ _) with (2 := Ho).
  apply adds_ok; [by apply (adds_ok _ _ _ init_ok)|by destruct Ho].
Qed.

(** The counter of a tag set does not overflow.  Each word added sets a new bit in one of
    the four words, so at most 128 are added before nothing is worth adding; and the set is
    empty exactly when nothing but zeros was added. *)
Theorem tag_set_counts l :
  Forall word l ->
  let s := fold_left tag_set_add l tag_set_init in
  0 <= ts_n s <= 128 /\ (tag_set_is_empty s = true <-> Forall (fun t => t = 0) l).
Proof.
  intros Hl s. pose proof (adds_counted _ _ _ init_ok init_counted Hl) as Hc.
  pose proof (weight_max _ _ (adds_ok _ _ _ init_ok Hl)) as Hm. fold s in Hc, Hm.
  pose proof (ct_n _ Hc). split; [lia|]. unfold tag_set_is_empty. rewrite Z.eqb_eq.
  subst s. clear Hc Hm H. induction Hl as [|t l Ht Hl IH]; [by split|]. cbn [fold_left].
  rewrite Forall_cons. destruct (decide (t = 0)) as [->|Hn].
  - change (tag_set_add tag_set_init 0) with tag_set_init. rewrite IH. naive_solver.
  - split; [|naive_solver]. intros E. exfalso. revert E.
    apply (adds_n_mono _ [t]); [by apply (add_ok _ _ [] init_ok)|by apply (add_counted _ [] _ init_ok init_counted)|done|].
    unfold tag_set_add, tag_is_worth_adding. destruct (Z.eqb_spec t 0); [done|]. cbn [total tag_set_init].
    rewrite Z.land_0_l. destruct (Z.eqb_spec 0 t); [congruence|]. by cbn.
Qed.

Example tag_set_no_miss_witness :
  tag_set_intersects (tag_set_union (fold_left tag_set_add [5; 0; 3] tag_set_init)
                                    (fold_left tag_set_add [0x80000001; 48] tag_set_init)) 0x80000009 = true.
Proof.
  apply (tag_set_no_miss [5; 0; 3] [0x80000001; 48] 0x80000001).
  - repeat constructor; done.
  - done.
  - simpl. set_solver.
  - reflexivity.
Defined.

Example tag_set_counts_witness :
  let s := fold_left tag_set_add [5; 0; 3; 5] tag_set_init in
  0 <= ts_n s <= 128 /\ (tag_set_is_empty s = true <-> Forall (fun t => t = 0) [5; 0; 3; 5]).
Proof. apply (tag_set_counts [5; 0; 3; 5]). repeat constructor; done. Defined.
