(* ===== verification/Hash.v ===== *)
(** * Hash functions (lib/hash.c, lib/hash.h)

    Jenkins' lookup3 mixing on 32-bit words and the functions built from it.  A word is a
    [Z] in [0, 2^32); the mixing works on three of them. *)
From S2P Require Import Prelude.

Local Open Scope Z_scope.

(** ** Definitions *)

Definition hash_rot (x k : Z) : Z := Z.lor (u32 (Z.shiftl x k)) (Z.shiftr x (32 - k)).

Definition state3 : Type := Z * Z * Z.

(** One line of hash_mix: x -= z; x ^= rot(z, k); z += y. *)
Definition mix_step (k x y z : Z) : Z * Z :=
  let x := u32 (x - z) in
  let x := Z.lxor x (hash_rot z k) in
  (x, u32 (z + y)).

Definition hash_mix (s : state3) : state3 :=
  let '(a, b, c) := s in
  let '(a, c) := mix_step 4 a b c in
  let '(b, a) := mix_step 6 b c a in
  let '(c, b) := mix_step 8 c a b in
  let '(a, c) := mix_step 16 a b c in
  let '(b, a) := mix_step 19 b c a in
  let '(c, b) := mix_step 4 c a b in
  (a, b, c).

(** One assignment pair of hash_final: x ^= y; x -= rot(y, k). *)
Definition final_step (k x y : Z) : Z := u32 (Z.lxor x y - hash_rot y k).

Definition hash_final (s : state3) : state3 :=
  let '(a, b, c) := s in
  let c := final_step 14 c b in
  let a := final_step 11 a c in
  let b := final_step 25 b a in
  let c := final_step 16 c b in
  let a := final_step 4 a c in
  let b := final_step 14 b a in
  let c := final_step 24 c b in
  (a, b, c).

Definition third (s : state3) : Z := let '(_, _, c) := s in c.

(** The switch on the last 0 to 3 words, and the loop on the words before them. *)
Fixpoint hash_words_loop (p : list Z) (s : state3) : Z :=
  let '(a, b, c) := s in
  match p with
  | [] => c
  | [x] => third (hash_final (u32 (a + x), b, c))
  | [x; y] => third (hash_final (u32 (a + x), u32 (b + y), c))
  | [x; y; z] => third (hash_final (u32 (a + x), u32 (b + y), u32 (c + z)))
  | x :: y :: z :: p' => hash_words_loop p' (hash_mix (u32 (a + x), u32 (b + y), u32 (c + z)))
  end.

Definition hash_words (p : list Z) (basis : Z) : Z :=
  let a := u32 (0xdeadbeef + u32 (Z.shiftl (Z.of_nat (length p)) 2) + basis) in
  hash_words_loop p (a, a, a).

Definition hash_3words (a b c : Z) : Z :=
  third (hash_final (u32 (a + 0xdeadbeef), u32 (b + 0xdeadbeef), u32 (c + 0xdeadbeef))).

Definition hash_2words (a b : Z) : Z := hash_3words a b 0.

(** get_unaligned_u32 on a little-endian host. *)
Definition le_word (l : list Z) : Z := be_value (rev l).

(** [tmp] after its first bytes are copied from [p]. *)
Definition pad12 (p : list Z) : list Z := p ++ replicate (12 - length p) 0.

(** [fuel] is a bound on the rounds: [length p / 12 + 1] is enough. *)
Fixpoint hash_bytes_loop (fuel : nat) (p : list Z) (s : state3) : Z :=
  let '(a, b, c) := s in
  let at_ (q : list Z) := (u32 (a + le_word (take 4 q)), u32 (b + le_word (take 4 (drop 4 q))),
                           u32 (c + le_word (take 4 (drop 8 q)))) in
  match fuel with
  | O => c
  | S n =>
      if (12 <=? length p)%nat then hash_bytes_loop n (drop 12 p) (hash_mix (at_ p))
      else match p with [] => c | _ => third (hash_final (at_ (pad12 p))) end
  end.

Definition hash_bytes (p : list Z) (basis : Z) : Z :=
  let a := u32 (0xdeadbeef + Z.of_nat (length p) + basis) in
  hash_bytes_loop (S (length p / 12)) p (a, a, a).

Definition hash_string (s : list Z) (basis : Z) : Z := hash_bytes s basis.

Definition hash_int (x basis : Z) : Z :=
  let x := u32 (x - u32 (Z.shiftl x 6)) in
  let x := Z.lxor x (Z.shiftr x 17) in
  let x := u32 (x - u32 (Z.shiftl x 9)) in
  let x := Z.lxor x (u32 (Z.shiftl x 4)) in
  let x := u32 (x + basis) in
  let x := u32 (x - u32 (Z.shiftl x 3)) in
  let x := Z.lxor x (u32 (Z.shiftl x 10)) in
  Z.lxor x (Z.shiftr x 15).

Definition hash_boolean (x : bool) (basis : Z) : Z :=
  Z.lxor (if x then 0xc2b73583 else 0xe90f1258) (hash_rot basis 1).

Definition hash_pointer (p basis : Z) : Z := hash_int (u32 p) basis.

(** ** Words *)

Lemma hash_rot_word x k : word x -> 0 <= k <= 32 -> word (hash_rot x k).
Proof. intros. unfold hash_rot. apply word_lor; [apply word_u32|apply word_shiftr; [done|lia]]. Qed.

Lemma third_final_word s : word (third (hash_final s)).
Proof. destruct s as [[a b] c]. apply word_u32. Qed.

Lemma hash_3words_word a b c : word (hash_3words a b c).
Proof. apply third_final_word. Qed.

(** ** Mixing loses nothing *)

Definition words3 (s : state3) : Prop := let '(a, b, c) := s in word a /\ word b /\ word c.

(** The line of hash_mix undone. *)
Definition unmix_step (k x y z : Z) : Z * Z :=
  let z := u32 (z - y) in
  (u32 (Z.lxor x (hash_rot z k) + z), z).

Definition hash_unmix (s : state3) : state3 :=
  let '(a, b, c) := s in
  let '(c, b) := unmix_step 4 c a b in
  let '(b, a) := unmix_step 19 b c a in
  let '(a, c) := unmix_step 16 a b c in
  let '(c, b) := unmix_step 8 c a b in
  let '(b, a) := unmix_step 6 b c a in
  let '(a, c) := unmix_step 4 a b c in
  (a, b, c).

Lemma u32_add_sub x z : word x -> u32 (u32 (x - z) + z) = x.
Proof. intros Hx. unfold wrap. rewrite Zplus_mod_idemp_l, Z.sub_add. by apply Z.mod_small. Qed.

Lemma u32_sub_add x z : word x -> u32 (u32 (x + z) - z) = x.
Proof. intros Hx. unfold wrap. rewrite Zminus_mod_idemp_l, Z.add_simpl_r. by apply Z.mod_small. Qed.

Lemma lxor_twice x y : Z.lxor (Z.lxor x y) y = x.
Proof. by rewrite Z.lxor_assoc, Z.lxor_nilpotent, Z.lxor_0_r. Qed.

Lemma mix_step_spec k x y z :
  0 <= k <= 32 -> word x -> word z ->
  let r := mix_step k x y z in
  word r.1 /\ word r.2 /\ unmix_step k r.1 y r.2 = (x, z).
Proof.
  intros Hk Hx Hz. unfold mix_step, unmix_step. cbv zeta. cbn [fst snd].
  rewrite (u32_sub_add z y), lxor_twice, u32_add_sub by done.
  auto using word_lxor, hash_rot_word, word_u32.
Qed.

Lemma unmix_step_spec k x y z :
  0 <= k <= 32 -> word x -> word z ->
  let r := unmix_step k x y z in
  word r.1 /\ word r.2 /\ mix_step k r.1 y r.2 = (x, z).
Proof.
  intros Hk Hx Hz. unfold mix_step, unmix_step. cbv zeta. cbn [fst snd].
  set (z' := u32 (z - y)). assert (word z') by apply word_u32.
  rewrite u32_sub_add by auto using word_lxor, hash_rot_word.
  rewrite lxor_twice. change (u32 (z' + y)) with (u32 (u32 (z - y) + y)). rewrite u32_add_sub by done.
  auto using word_u32.
Qed.

(** One step of either direction: run it, keep the words, cancel the step at the end. *)
Ltac mixing lem k x y z :=
  let r := fresh "r" in
  let H1 := fresh in let H2 := fresh in let E := fresh "E" in
  destruct (lem k x y z ltac:(lia) ltac:(assumption) ltac:(assumption)) as (H1 & H2 & E);
  match goal with |- context [?f k x y z] => destruct (f k x y z) as [? ?]; cbn [fst snd] in H1, H2, E end.

(** Hash_mix is reversible, as its author promises: [hash_unmix] undoes it and is undone
    by it, so it is a bijection on triples of 32-bit words and no input is lost while the
    hash functions fold further words in. *)
Theorem hash_mix_reversible s :
  words3 s ->
  words3 (hash_mix s) /\ hash_unmix (hash_mix s) = s
  /\ words3 (hash_unmix s) /\ hash_mix (hash_unmix s) = s.
Proof.
  destruct s as [[a b] c]. intros (Ha & Hb & Hc).
  assert (words3 (hash_mix (a, b, c)) /\ hash_unmix (hash_mix (a, b, c)) = (a, b, c)) as [H1 H2].
  { unfold hash_mix.
    repeat match goal with |- context [mix_step ?k ?x ?y ?z] =>
      mixing mix_step_spec k x y z end.
    split; [by split_and!|]. unfold hash_unmix. by rewrite E4, E3, E2, E1, E0, E. }
  split; [done|]. split; [done|]. unfold hash_unmix.
  repeat match goal with |- context [unmix_step ?k ?x ?y ?z] =>
    mixing unmix_step_spec k x y z end.
  split; [by split_and!|]. unfold hash_mix. by rewrite E4, E3, E2, E1, E0, E.
Qed.

Example hash_mix_reversible_witness :
  words3 (hash_mix (1, 2, 3)) /\ hash_unmix (hash_mix (1, 2, 3)) = (1, 2, 3)
  /\ words3 (hash_unmix (1, 2, 3)) /\ hash_mix (hash_unmix (1, 2, 3)) = (1, 2, 3).
Proof. apply (hash_mix_reversible (1, 2, 3)). by split_and!. Defined.
