(* ===== verification/Hmap.v ===== *)
(** * Hash maps (lib/hmap.c, lib/hmap.h)

    The chained hash table that most of the switch's tables are built on.  A node is
    embedded in the client's structure; here it is the hash stored in it and the address of
    the structure.  A bucket is the chain of its nodes, and a pointer into a chain the rest
    of the chain from there.  A node that the code expects in a chain and is not there ends
    the walk in a null dereference.

    A map with one bucket uses the member [one] instead of an allocated array; both are
    [buckets] here, so hmap_moved has nothing to do.  A new array has the size that the code
    computes in size_t; xmalloc gives that much or ends the process. *)
From S2P Require Import Prelude.

Local Open Scope Z_scope.

(** ** Definitions *)

Record hmap_node := MkNode { node_hash : Z; node_ptr : nat }.

#[export] Instance hmap_node_eq_dec : EqDecision hmap_node.
Proof. solve_decision. Defined.

Record hmap := MkHmap { buckets : list (list hmap_node); mask : Z; hn : Z }.

Definition SIZE_MAX : Z := 2 ^ 64 - 1.

Definition hmap_init : hmap := MkHmap [[]] 0 0.

Definition hmap_clear (h : hmap) : hmap :=
  if 0 <? hn h then MkHmap (replicate (Z.to_nat (mask h + 1)) []) (mask h) 0 else h.

Definition hmap_count (h : hmap) : Z := hn h.
Definition hmap_capacity (h : hmap) : Z := u64 (mask h * 2 + 1).
Definition hmap_is_empty (h : hmap) : bool := hn h =? 0.

Definition bucket_index (h : hmap) (hash : Z) : nat := Z.to_nat (Z.land hash (mask h)).

(** [hmap->buckets[hash & hmap->mask]] *)
Definition hmap_first_in_bucket (h : hmap) (hash : Z) : outcome (list hmap_node) :=
  of_option OutOfBounds (buckets h !! bucket_index h hash).

Definition hmap_insert_fast (h : hmap) (p : nat) (hash : Z) : outcome hmap :=
  b ← hmap_first_in_bucket h hash;
  Ret (MkHmap (<[bucket_index h hash := MkNode hash p :: b]> (buckets h)) (mask h) (u64 (hn h + 1))).

(** The new table of resize and the loops that move the nodes. *)
Fixpoint insert_all (t : hmap) (l : list hmap_node) : outcome hmap :=
  match l with
  | [] => Ret t
  | x :: l' => t ← hmap_insert_fast t (node_ptr x) (node_hash x); insert_all t l'
  end.

Fixpoint insert_buckets (t : hmap) (bs : list (list hmap_node)) : outcome hmap :=
  match bs with
  | [] => Ret t
  | b :: bs' => t ← insert_all t b; insert_buckets t bs'
  end.

(** [sizeof *tmp.buckets] *)
Definition sizeof_bucket : Z := 8.

(** The table that resize moves the nodes to: the member [one] for a mask of 0, else a block
    of xmalloc, whose size is computed in size_t, with a loop that clears the buckets 0 to
    [new_mask].  The first bucket it cannot store to is the one after the block. *)
Definition new_table (new_mask : Z) : outcome hmap :=
  if new_mask =? 0 then Ret hmap_init
  else
    let size := u64 (sizeof_bucket * u64 (new_mask + 1)) in
    if size / sizeof_bucket <=? new_mask then Stuck OutOfBounds
    else Ret (MkHmap (replicate (Z.to_nat (new_mask + 1)) []) new_mask 0).

Definition resize (h : hmap) (new_mask : Z) : outcome hmap :=
  if negb (Z.land new_mask (u64 (new_mask + 1)) =? 0) then Stuck AssertFail
  else if new_mask =? SIZE_MAX then Stuck AssertFail
  else tmp ← new_table new_mask; insert_buckets tmp (buckets h).

Definition calc_mask (capacity : Z) : Z :=
  let m := capacity / 2 in
  let m := Z.lor m (Z.shiftr m 1) in
  let m := Z.lor m (Z.shiftr m 2) in
  let m := Z.lor m (Z.shiftr m 4) in
  let m := Z.lor m (Z.shiftr m 8) in
  let m := Z.lor m (Z.shiftr m 16) in
  let m := Z.lor m (Z.shiftr m 32) in
  Z.lor m (u64 (Z.shiftl (Z.land m 1) 1)).

Definition hmap_reserve (h : hmap) (n : Z) : outcome hmap :=
  let new_mask := calc_mask n in
  if mask h <? new_mask then resize h new_mask else Ret h.

Definition hmap_expand (h : hmap) : outcome hmap :=
  let new_mask := calc_mask (hn h) in
  if mask h <? new_mask then resize h new_mask else Ret h.

Definition hmap_shrink (h : hmap) : outcome hmap :=
  let new_mask := calc_mask (hn h) in
  if new_mask <? mask h then resize h new_mask else Ret h.

Definition hmap_insert (h : hmap) (p : nat) (hash : Z) : outcome hmap :=
  h ← hmap_insert_fast h p hash;
  if mask h <? hn h / 2 then hmap_expand h else Ret h.

(** The walk along a bucket up to [p]: the chain without the node, or with [new] in its place. *)
Fixpoint chain_replace (c : list hmap_node) (p : nat) (new : option hmap_node)
  : outcome (list hmap_node) :=
  match c with
  | [] => Stuck NullDeref
  | x :: c' =>
      if Nat.eqb (node_ptr x) p then Ret (match new with Some y => y :: c' | None => c' end)
      else c' ← chain_replace c' p new; Ret (x :: c')
  end.

Definition update_chain (h : hmap) (hash : Z) (p : nat) (new : option hmap_node)
  : outcome (list (list hmap_node)) :=
  b ← hmap_first_in_bucket h hash;
  b ← chain_replace b p new;
  Ret (<[bucket_index h hash := b]> (buckets h)).

Definition hmap_remove (h : hmap) (node : hmap_node) : outcome hmap :=
  bs ← update_chain h (node_hash node) (node_ptr node) None;
  Ret (MkHmap bs (mask h) (u64 (hn h - 1))).

Definition hmap_replace (h : hmap) (old : hmap_node) (new : nat) : outcome hmap :=
  bs ← update_chain h (node_hash old) (node_ptr old) (Some (MkNode (node_hash old) new));
  Ret (MkHmap bs (mask h) (hn h)).

(** [node] has the contents of [old_node]. *)
Definition hmap_node_moved (h : hmap) (old_node : nat) (node : hmap_node) : outcome hmap :=
  bs ← update_chain h (node_hash node) old_node (Some node);
  Ret (MkHmap bs (mask h) (hn h)).

(** *** Search *)

Fixpoint next_with_hash (c : list hmap_node) (hash : Z) : list hmap_node :=
  match c with
  | [] => []
  | x :: c' => if node_hash x =? hash then c else next_with_hash c' hash
  end.

Definition hmap_first_with_hash (h : hmap) (hash : Z) : outcome (list hmap_node) :=
  b ← hmap_first_in_bucket h hash; Ret (next_with_hash b hash).

Definition hmap_next_with_hash (node : hmap_node) (next : list hmap_node) : list hmap_node :=
  next_with_hash next (node_hash node).

(** HMAP_FOR_EACH_WITH_HASH: the nodes its body sees.  The chain gets shorter each time, so
    its length is enough fuel. *)
Fixpoint visit_with_hash (fuel : nat) (c : list hmap_node) : list hmap_node :=
  match fuel, c with
  | S f, x :: next => x :: visit_with_hash f (hmap_next_with_hash x next)
  | _, _ => []
  end.

Definition for_each_with_hash (h : hmap) (hash : Z) : outcome (list hmap_node) :=
  c ← hmap_first_with_hash h hash; Ret (visit_with_hash (length c) c).

Definition hmap_contains (h : hmap) (node : hmap_node) : outcome bool :=
  b ← hmap_first_in_bucket h (node_hash node);
  Ret (existsb (fun x => Nat.eqb (node_ptr x) (node_ptr node)) b).

(** *** Iteration *)

(** hmap_next__: the first chain that is not empty among the [n] buckets from [i] on. *)
Fixpoint hmap_next_from (h : hmap) (n i : nat) : outcome (list hmap_node) :=
  match n with
  | O => Ret []
  | S n' =>
      b ← of_option OutOfBounds (buckets h !! i);
      match b with [] => hmap_next_from h n' (S i) | _ => Ret b end
  end.

(** From bucket [start] to [mask]. *)
Definition hmap_next__ (h : hmap) (start : Z) : outcome (list hmap_node) :=
  hmap_next_from h (Z.to_nat (mask h + 1 - start)) (Z.to_nat start).

Definition hmap_first (h : hmap) : outcome (list hmap_node) := hmap_next__ h 0.

Definition hmap_next (h : hmap) (node : hmap_node) (next : list hmap_node)
  : outcome (list hmap_node) :=
  match next with
  | [] => hmap_next__ h (Z.land (node_hash node) (mask h) + 1)
  | _ => Ret next
  end.

(** HMAP_FOR_EACH, for at most [fuel] nodes. *)
Fixpoint visit (h : hmap) (fuel : nat) (c : list hmap_node) : outcome (list hmap_node) :=
  match fuel, c with
  | S f, x :: next => c ← hmap_next h x next; rest ← visit h f c; Ret (x :: rest)
  | _, _ => Ret []
  end.

Definition for_each (h : hmap) (fuel : nat) : outcome (list hmap_node) :=
  c ← hmap_first h; visit h fuel c.

(** [node->next] of the node at [p] in a bucket. *)
Fixpoint chain_after (c : list hmap_node) (p : nat) : outcome (list hmap_node) :=
  match c with
  | [] => Stuck DanglingPtr
  | x :: c' => if Nat.eqb (node_ptr x) p then Ret c' else chain_after c' p
  end.

(** HMAP_FOR_EACH_CONTINUE: the nodes after [node]. *)
Definition for_each_continue (h : hmap) (fuel : nat) (node : hmap_node) : outcome (list hmap_node) :=
  b ← hmap_first_in_bucket h (node_hash node);
  next ← chain_after b (node_ptr node);
  c ← hmap_next h node next; visit h fuel c.

(** A loop over nodes whose body may return from the function, with a result. *)
Fixpoint until_some {S A} (body : nat -> cstate S (option A)) (ns : list hmap_node) : cstate S (option A) :=
  match ns with
  | [] => mret None
  | x :: ns' => r ← body (node_ptr x); match r with Some a => mret (Some a) | None => until_some body ns' end
  end.

(** hmap_at_position, [n] buckets from [b_idx] on: the node, and the new position. *)
Fixpoint at_position_loop (h : hmap) (n : nat) (b_idx offset : Z)
  : outcome (option hmap_node * Z * Z) :=
  match n with
  | O => Ret (None, 0, 0)
  | S n' =>
      b ← of_option OutOfBounds (buckets h !! Z.to_nat b_idx);
      match b !! Z.to_nat offset with
      | Some node =>
          let i := Z.land (node_hash node) (mask h) in
          match b !! Z.to_nat (offset + 1) with
          | Some _ => Ret (Some node, u32 i, u32 (offset + 1))
          | None => Ret (Some node, u32 (i + 1), 0)
          end
      | None => at_position_loop h n' (b_idx + 1) 0
      end
  end.

Definition hmap_at_position (h : hmap) (bucket offset : Z) : outcome (option hmap_node * Z * Z) :=
  at_position_loop h (Z.to_nat (mask h + 1 - bucket)) bucket offset.

(** hmap_random_node: [i] is the value of random_uint32, [range n] that of random_range.  The
    loop runs on a map that is not empty until it finds a bucket with a node; [fuel] bounds
    its rounds. *)
Fixpoint random_bucket (h : hmap) (fuel : nat) (i : Z) : outcome (option (list hmap_node)) :=
  match fuel with
  | O => Ret None
  | S f =>
      b ← hmap_first_in_bucket h i;
      match b with [] => random_bucket h f (u64 (i + 1)) | _ => Ret (Some b) end
  end.

Definition hmap_random_node (h : hmap) (i : Z) (range : nat -> nat) : outcome (option hmap_node) :=
  b ← random_bucket h (Z.to_nat (mask h + 1)) i;
  match b with
  | None => Ret None
  | Some b => x ← of_option NullDeref (b !! range (length b)); Ret (Some x)
  end.

(** ** Invariant *)

Definition nodes (h : hmap) : list hmap_node := concat (buckets h).

(** The number of buckets is a power of two, every node is in the bucket its hash selects,
    and the count is right. *)
Record hmap_ok (h : hmap) : Prop := {
  ho_mask : exists k, 0 <= k <= 63 /\ mask h = Z.ones k;
  ho_len : length (buckets h) = Z.to_nat (mask h + 1);
  ho_place : forall i b x, buckets h !! i = Some b -> x ∈ b -> bucket_index h (node_hash x) = i;
  ho_n : hn h = Z.of_nat (length (nodes h))
}.

(** The map holds the nodes [l], in any order, at different addresses. *)
Record hmap_rep (h : hmap) (l : list hmap_node) : Prop := {
  hr_ok : hmap_ok h;
  hr_nodes : nodes h ≡ₚ l;
  hr_nodup : NoDup (node_ptr <$> l)
}.

#[export] Instance hmap_rep_proper h : Proper ((≡ₚ) ==> iff) (hmap_rep h).
Proof.
  intros l1 l2 E. split; intros [H1 H2 H3]; split; try done;
    [by rewrite <- E|by rewrite <- E|by rewrite E|by rewrite E].
Qed.

Lemma ones_pos k : 0 <= k -> 0 <= Z.ones k.
Proof. intros Hk. rewrite Z.ones_equiv. pose proof (Z.pow_pos_nonneg 2 k). lia. Qed.

Lemma index_lt h hash : hmap_ok h -> (bucket_index h hash < length (buckets h))%nat.
Proof.
  intros [(k & Hk & E) Hl _ _]. unfold bucket_index. rewrite Hl, E, Z.land_ones by lia.
  pose proof (Z.mod_pos_bound hash (2 ^ k) ltac:(apply Z.pow_pos_nonneg; lia)).
  rewrite Z.ones_equiv. lia.
Qed.

Lemma first_in_bucket_ok h hash :
  hmap_ok h -> exists b, hmap_first_in_bucket h hash = Ret b
                    /\ buckets h !! bucket_index h hash = Some b.
Proof.
  intros H. destruct (lookup_lt_is_Some_2 _ _ (index_lt h hash H)) as [b Hb].
  exists b. unfold hmap_first_in_bucket. by rewrite Hb.
Qed.

(** Changing one bucket changes the nodes by what changed in it. *)
Lemma concat_update {A} (l : list (list A)) (i : nat) b :
  l !! i = Some b ->
  exists rest, concat l ≡ₚ b ++ rest /\ forall b', concat (<[i := b']> l) ≡ₚ b' ++ rest.
Proof.
  intros H. exists (concat (take i l) ++ concat (drop (S i) l)).
  pose proof (lookup_lt_Some _ _ _ H) as Hi. split.
  - rewrite <- (take_drop_middle l i b H) at 1. rewrite concat_app. cbn [concat]. solve_Permutation.
  - intros b'. rewrite insert_take_drop by done. rewrite concat_app. cbn [concat]. solve_Permutation.
Qed.

Lemma elem_of_nodes h x : x ∈ nodes h <-> exists i b, buckets h !! i = Some b /\ x ∈ b.
Proof.
  unfold nodes. rewrite list_elem_of_In, in_concat. split.
  - intros (b & Hb & Hx). apply list_elem_of_In, list_elem_of_lookup in Hb as [i Hi].
    exists i, b. by rewrite list_elem_of_In.
  - intros (i & b & Hi & Hx). exists b. rewrite <- !list_elem_of_In. split; [|done].
    by eapply list_elem_of_lookup_2.
Qed.

(** A node of the map is in the chain its hash leads to. *)
Lemma in_own_bucket h x b :
  hmap_ok h -> buckets h !! bucket_index h (node_hash x) = Some b -> x ∈ nodes h <-> x ∈ b.
Proof.
  intros Hok Hb. rewrite elem_of_nodes. split.
  - intros (i & c & Hi & Hx). pose proof (ho_place _ Hok _ _ _ Hi Hx) as <-. congruence.
  - eauto.
Qed.

(** The invariant after the chain at [hash] became [b'] and the count [n']. *)
Lemma ok_update h hash b b' n' :
  hmap_ok h -> buckets h !! bucket_index h hash = Some b ->
  (forall x, x ∈ b' -> x ∈ b \/ bucket_index h (node_hash x) = bucket_index h hash) ->
  n' - Z.of_nat (length b') = hn h - Z.of_nat (length b) ->
  hmap_ok (MkHmap (<[bucket_index h hash := b']> (buckets h)) (mask h) n').
Proof.
  intros Hok Hb Hb' Hn. destruct (concat_update _ _ _ Hb) as (rest & E & E').
  destruct Hok as [H1 H2 H3 H4]. split; cbn [mask buckets hn]; [done|by rewrite length_insert| |].
  - intros i c x Hi Hx. change (bucket_index h (node_hash x) = i).
    apply list_lookup_insert_Some in Hi as [(<- & <- & _)|(_ & Hi)]; [|by eapply H3].
    destruct (Hb' x Hx) as [?|?]; [by eapply H3|done].
  - unfold nodes. cbn [buckets]. rewrite (E' b'), length_app. rewrite H4 in Hn.
    unfold nodes in Hn. rewrite E, length_app in Hn. lia.
Qed.

(** ** Operations on the representation *)

Lemma insert_fast_ok h l p hash :
  hmap_rep h l -> p ∉ node_ptr <$> l -> hn h + 1 < 2 ^ 63 ->
  exists h', hmap_insert_fast h p hash = Ret h' /\ hmap_rep h' (MkNode hash p :: l)
             /\ mask h' = mask h /\ hn h' = hn h + 1.
Proof.
  intros [Hok Hl Hd] Hp Hn. destruct (first_in_bucket_ok h hash Hok) as (b & E & Hb).
  unfold hmap_insert_fast. rewrite E. cbn [mbind outcome_bind]. pose proof (ho_n _ Hok) as Hn0.
  rewrite wrap_small by lia. eexists. split; [done|]. split; [|done]. split.
  - eapply ok_update; [done|exact Hb| |cbn [length]; lia].
    intros x [->|Hx]%elem_of_cons; [by right|by left].
  - destruct (concat_update _ _ _ Hb) as (rest & Ec & Ec'). unfold nodes in *. cbn [buckets].
    rewrite Ec'. rewrite <- Hl, Ec. done.
  - cbn. by constructor.
Qed.

Lemma insert_all_ok l2 : forall h l,
  hmap_rep h l -> NoDup (node_ptr <$> (l2 ++ l)) -> hn h + Z.of_nat (length l2) < 2 ^ 63 ->
  exists h', insert_all h l2 = Ret h' /\ hmap_rep h' (l2 ++ l)
             /\ mask h' = mask h /\ hn h' = hn h + Z.of_nat (length l2).
Proof.
  induction l2 as [|[hash p] l2 IH]; intros h l Hr Hd Hn; cbn [insert_all node_ptr node_hash].
  { exists h. cbn. by rewrite Z.add_0_r. }
  cbn in Hd. apply NoDup_cons in Hd as [Hp Hd]. cbn [length] in Hn.
  assert (p ∉ node_ptr <$> l) as Hpl by (intros H; apply Hp; rewrite fmap_app; set_solver).
  destruct (insert_fast_ok h l p hash Hr Hpl ltac:(lia)) as (h1 & E & Hr1 & Hm1 & Hn1).
  rewrite E. cbn [mbind outcome_bind].
  destruct (IH h1 (MkNode hash p :: l) Hr1) as (h2 & E2 & Hr2 & Hm2 & Hn2); [| |].
  - rewrite fmap_app. cbn. rewrite <- Permutation_middle, <- fmap_app. by constructor.
  - lia.
  - exists h2. split; [done|]. split; [|cbn [length]; split; [congruence|lia]].
    eapply hmap_rep_proper; [|exact Hr2]. apply Permutation_middle.
Qed.

Lemma insert_buckets_ok bs : forall h l,
  hmap_rep h l -> NoDup (node_ptr <$> (concat bs ++ l)) ->
  hn h + Z.of_nat (length (concat bs)) < 2 ^ 63 ->
  exists h', insert_buckets h bs = Ret h' /\ hmap_rep h' (concat bs ++ l) /\ mask h' = mask h
             /\ hn h' = hn h + Z.of_nat (length (concat bs)).
Proof.
  induction bs as [|b bs IH]; intros h l Hr Hd Hn; cbn [insert_buckets concat].
  { exists h. cbn. by rewrite Z.add_0_r. }
  cbn [concat] in *. rewrite length_app in *.
  assert (NoDup (node_ptr <$> (b ++ l)) /\ NoDup (node_ptr <$> (concat bs ++ b ++ l))) as [H1 H2].
  { assert (concat bs ++ b ++ l ≡ₚ (b ++ concat bs) ++ l) as Ep by solve_Permutation.
    rewrite Ep. split; [|done]. rewrite <- Ep, fmap_app in Hd. by apply NoDup_app in Hd as (_ & _ & ?). }
  destruct (insert_all_ok b h l Hr H1 ltac:(lia)) as (h1 & E & Hr1 & Hm1 & Hn1).
  rewrite E. cbn [mbind outcome_bind].
  destruct (IH h1 (b ++ l) Hr1 H2 ltac:(lia)) as (h2 & E2 & Hr2 & Hm2 & Hn2).
  exists h2. split; [done|]. split; [|split; [congruence|lia]].
  eapply hmap_rep_proper; [|exact Hr2]. solve_Permutation.
Qed.

Lemma empty_rep k :
  0 <= k <= 63 ->
  hmap_rep (MkHmap (replicate (Z.to_nat (Z.ones k + 1)) []) (Z.ones k) 0) [].
Proof.
  intros Hk. assert (forall n : nat, concat (replicate n (@nil hmap_node)) = []) as E
    by (intros n; by induction n).
  split; [split|..]; cbn [mask buckets hn].
  - by exists k.
  - by rewrite length_replicate.
  - intros i b x Hi Hx. apply lookup_replicate in Hi as [-> _]. by apply not_elem_of_nil in Hx.
  - unfold nodes. cbn [buckets]. by rewrite E.
  - unfold nodes. cbn [buckets]. by rewrite E.
  - constructor.
Qed.

Lemma init_rep : hmap_rep hmap_init [].
Proof. apply (empty_rep 0). lia. Qed.

Lemma ones_land k : 0 <= k <= 63 -> Z.land (Z.ones k) (u64 (Z.ones k + 1)) = 0.
Proof.
  intros Hk. rewrite Z.ones_equiv. assert (2 ^ k <= 2 ^ 63) by (apply Z.pow_le_mono_r; lia).
  assert (0 < 2 ^ k) by (apply Z.pow_pos_nonneg; lia).
  rewrite wrap_small by lia. replace (Z.pred (2 ^ k)) with (Z.ones k) by apply Z.ones_equiv.
  rewrite Z.land_comm. replace (Z.ones k + 1) with (2 ^ k) by (rewrite Z.ones_equiv; lia).
  rewrite Z.land_ones by lia. by rewrite Z_mod_same_full.
Qed.

(** Up to 2^60 buckets have a size in size_t. *)
Lemma new_table_ok k :
  0 <= k <= 60 -> new_table (Z.ones k) = Ret (MkHmap (replicate (Z.to_nat (Z.ones k + 1)) []) (Z.ones k) 0).
Proof.
  intros Hk. unfold new_table, sizeof_bucket. rewrite Z.ones_equiv.
  assert (0 < 2 ^ k <= 2 ^ 60) by (split; [apply Z.pow_pos_nonneg|apply Z.pow_le_mono_r]; lia).
  destruct (Z.eqb_spec (Z.pred (2 ^ k)) 0) as [->|]; [done|].
  rewrite (wrap_small 64 (Z.pred (2 ^ k) + 1)) by lia. rewrite wrap_small by lia.
  rewrite Z.mul_comm, Z.div_mul by lia. by destruct (Z.leb_spec (Z.pred (2 ^ k) + 1) (Z.pred (2 ^ k))); [lia|].
Qed.

(** resize keeps the nodes, whatever the new number of buckets. *)
Lemma resize_ok h l k :
  hmap_rep h l -> 0 <= k <= 60 -> hn h < 2 ^ 63 ->
  exists h', resize h (Z.ones k) = Ret h' /\ hmap_rep h' l /\ mask h' = Z.ones k /\ hn h' = hn h.
Proof.
  intros Hr Hk Hn. unfold resize. rewrite ones_land by lia. change (negb (0 =? 0)) with false. cbn iota.
  assert (Z.ones k <> SIZE_MAX) as Hne.
  { rewrite Z.ones_equiv. unfold SIZE_MAX. assert (2 ^ k <= 2 ^ 63) by (apply Z.pow_le_mono_r; lia). lia. }
  destruct (Z.eqb_spec (Z.ones k) SIZE_MAX); [done|].
  rewrite new_table_ok by done. cbn [mbind outcome_bind].
  destruct Hr as [Hok Hl Hd]. pose proof (ho_n _ Hok) as Hc. unfold nodes in *.
  destruct (insert_buckets_ok (buckets h) _ _ (empty_rep k ltac:(lia))) as (h' & E & Hr & Hm & Hn').
  - rewrite app_nil_r. by rewrite Hl.
  - cbn [hn]. lia.
  - exists h'. split; [done|]. split; [|split; [done|cbn [hn] in Hn'; lia]].
    eapply hmap_rep_proper; [|exact Hr]. by rewrite app_nil_r, Hl.
Qed.

(** *** The number of buckets *)

(** The bits of [m] from [k] down, [s] of them, are set, and none above [k]. *)
Definition filled (k s m : Z) : Prop :=
  (forall i, k < i -> Z.testbit m i = false)
  /\ (forall i, 0 <= i -> k - s < i <= k -> Z.testbit m i = true).

Lemma filled_step k s m : 0 <= s -> filled k s m -> filled k (2 * s) (Z.lor m (Z.shiftr m s)).
Proof.
  intros Hs [H1 H2]. split; intros i Hi.
  - rewrite Z.lor_spec, H1 by done. destruct (decide (0 <= i)); [|by rewrite Z.testbit_neg_r by lia].
    rewrite Z.shiftr_spec by done. apply H1. lia.
  - intros Hki. rewrite Z.lor_spec, Z.shiftr_spec by done. apply orb_true_iff.
    destruct (decide (k - s < i)); [left; apply H2; lia|right; apply H2; lia].
Qed.

Lemma filled_ones k s m : 0 <= k < s -> filled k s m -> m = Z.ones (k + 1).
Proof.
  intros Hk [H1 H2]. apply Z.bits_inj'. intros i Hi. destruct (decide (i <= k)).
  - rewrite Z.ones_spec_low by lia. apply H2; lia.
  - rewrite Z.ones_spec_high by lia. apply H1. lia.
Qed.

(** calc_mask gives enough buckets that a chain has two nodes on average. *)
Lemma calc_mask_spec c :
  0 <= c < 2 ^ 61 ->
  exists k, 0 <= k <= 60 /\ calc_mask c = Z.ones k /\ c / 2 <= calc_mask c.
Proof.
  intros Hc. assert (0 <= c / 2 < 2 ^ 60) as Hm.
  { split; [apply Z.div_pos; lia|apply Z.div_lt_upper_bound; lia]. }
  destruct (decide (c / 2 = 0)) as [E0|E0].
  { exists 0. unfold calc_mask. rewrite E0. done. }
  pose proof (Z.log2_nonneg (c / 2)) as Hk0.
  assert (Z.log2 (c / 2) < 60) as Hk by (apply Z.log2_lt_pow2; lia).
  assert (filled (Z.log2 (c / 2)) 1 (c / 2)) as HF.
  { split.
    - intros i Hi. apply Z.bits_above_log2; lia.
    - intros i Hi Hki. replace i with (Z.log2 (c / 2)) by lia. apply Z.bit_log2. lia. }
  apply filled_step in HF; [|lia]. do 5 (apply filled_step in HF; [|lia]).
  assert (forall m, m = Z.ones (Z.log2 (c / 2) + 1) ->
            exists k, 0 <= k <= 60 /\ Z.lor m (u64 (Z.shiftl (Z.land m 1) 1)) = Z.ones k
                      /\ c / 2 <= Z.lor m (u64 (Z.shiftl (Z.land m 1) 1))) as Hlast.
  { intros m ->. clear HF. set (j := Z.log2 (c / 2)) in *. 
    assert (Z.land (Z.ones (j + 1)) 1 = 1) as ->.
    { change 1 with (Z.ones 1) at 2. rewrite Z.land_ones by lia.
      rewrite Z.ones_equiv, <- Z.sub_1_r, Z.pow_add_r by lia. change (2 ^ 1) with 2.
      replace (2 ^ j * 2 - 1) with (1 + (2 ^ j - 1) * 2) by lia. by rewrite Z_mod_plus_full. }
    change (u64 (Z.shiftl 1 1)) with 2.
    assert (exists k, 0 <= k <= 60 /\ Z.lor (Z.ones (j + 1)) 2 = Z.ones k /\ j + 1 <= k) as (k & Hk1 & E & Hk2).
    { destruct (decide (j = 0)) as [->|]; [by exists 2|]. exists (j + 1). split; [lia|]. split; [|lia].
      apply Z.bits_inj'. intros i Hi. rewrite Z.lor_spec. change 2 with (2 ^ 1).
      destruct (decide (i = 1)) as [->|]; [by rewrite Z.ones_spec_low by lia|].
      rewrite Z.pow2_bits_false by lia. by rewrite orb_false_r. }
    exists k. split; [done|]. split; [done|]. rewrite E, Z.ones_equiv.
    pose proof (Z.log2_spec (c / 2) ltac:(lia)) as [_ Hlog]. fold j in Hlog.
    assert (2 ^ Z.succ j <= 2 ^ k) by (apply Z.pow_le_mono_r; lia). lia. }
  unfold calc_mask. cbv zeta. apply Hlast. eapply filled_ones; [|exact HF]. lia.
Qed.

(** hmap_expand, hmap_shrink and hmap_reserve, whatever they decide. *)
Lemma resize_if_ok h l n (c : bool) :
  hmap_rep h l -> 0 <= n < 2 ^ 61 -> hn h < 2 ^ 63 ->
  exists h', (if c then resize h (calc_mask n) else Ret h) = Ret h'
    /\ hmap_rep h' l /\ hn h' = hn h /\ mask h' = if c then calc_mask n else mask h.
Proof.
  intros Hr Hn Hh. destruct c; [|by exists h].
  destruct (calc_mask_spec n Hn) as (k & Hk & E & _). rewrite E.
  destruct (resize_ok h l k Hr Hk Hh) as (h' & ? & ? & ? & ?). by exists h'.
Qed.

(** There are at least half as many buckets as nodes. *)
Definition load_ok (h : hmap) : Prop := hn h / 2 <= mask h.

Lemma hmap_insert_ok h l p hash :
  hmap_rep h l -> p ∉ node_ptr <$> l -> hn h + 1 < 2 ^ 61 ->
  exists h', hmap_insert h p hash = Ret h' /\ hmap_rep h' (MkNode hash p :: l)
             /\ hn h' = hn h + 1 /\ load_ok h'.
Proof.
  intros Hr Hp Hn. destruct (insert_fast_ok h l p hash Hr Hp ltac:(lia)) as (h1 & E & Hr1 & Hm1 & Hn1).
  unfold hmap_insert. rewrite E. cbn [mbind outcome_bind].
  pose proof (ho_n _ (hr_ok _ _ Hr)).
  destruct (Z.ltb_spec (mask h1) (hn h1 / 2)) as [Hlt|]; [|by exists h1].
  unfold hmap_expand. destruct (calc_mask_spec (hn h1) ltac:(lia)) as (k & _ & _ & Hle).
  destruct (resize_if_ok h1 _ (hn h1) (mask h1 <? calc_mask (hn h1)) Hr1 ltac:(lia) ltac:(lia))
    as (h2 & E2 & Hr2 & Hn2 & Hm2).
  exists h2. split; [done|]. split; [done|]. split; [lia|]. unfold load_ok. rewrite Hn2, Hm2.
  destruct (Z.ltb_spec (mask h1) (calc_mask (hn h1))); lia.
Qed.

(** *** Removal *)

Lemma chain_replace_ok c x new :
  x ∈ c -> NoDup (node_ptr <$> c) ->
  exists l1 l2, c = l1 ++ x :: l2
    /\ chain_replace c (node_ptr x) new
       = Ret (l1 ++ match new with Some y => y :: l2 | None => l2 end).
Proof.
  induction c as [|y c IH]; intros Hx Hd; [by apply not_elem_of_nil in Hx|].
  cbn [chain_replace]. cbn in Hd. apply NoDup_cons in Hd as [Hy Hd].
  destruct (Nat.eqb_spec (node_ptr y) (node_ptr x)) as [E|E].
  - apply elem_of_cons in Hx as [->|Hx].
    + exists [], c. by destruct new.
    + exfalso. apply Hy. rewrite E. by apply list_elem_of_fmap_2.
  - apply elem_of_cons in Hx as [->|Hx]; [done|].
    destruct (IH Hx Hd) as (l1 & l2 & -> & Er). exists (y :: l1), l2. by rewrite Er.
Qed.

Lemma nodup_bucket h l i b :
  hmap_rep h l -> buckets h !! i = Some b -> NoDup (node_ptr <$> b).
Proof.
  intros [Hok Hl Hd] Hb. destruct (concat_update _ _ _ Hb) as (rest & E & _).
  unfold nodes in Hl. rewrite <- Hl, E, fmap_app in Hd. by apply NoDup_app in Hd as [? _].
Qed.

(** One node of the map taken out of its chain, or replaced by one with the same hash. *)
Lemma update_chain_ok h l x new :
  hmap_rep h (x :: l) -> (forall y, new = Some y -> node_hash y = node_hash x) ->
  exists b b' rest, update_chain h (node_hash x) (node_ptr x) new
               = Ret (<[bucket_index h (node_hash x) := b']> (buckets h))
    /\ buckets h !! bucket_index h (node_hash x) = Some b
    /\ b ≡ₚ x :: rest /\ b' ≡ₚ option_list new ++ rest
    /\ concat (<[bucket_index h (node_hash x) := b']> (buckets h)) ≡ₚ option_list new ++ l.
Proof.
  intros Hr Hnew. destruct (first_in_bucket_ok h (node_hash x) (hr_ok _ _ Hr)) as (b & E & Hb).
  assert (x ∈ b) as Hx.
  { apply (in_own_bucket h x b (hr_ok _ _ Hr) Hb). rewrite (hr_nodes _ _ Hr). by left. }
  destruct (chain_replace_ok b x new Hx (nodup_bucket _ _ _ _ Hr Hb)) as (l1 & l2 & Eb & Er).
  exists b, (l1 ++ match new with Some y => y :: l2 | None => l2 end), (l1 ++ l2).
  unfold update_chain. rewrite E. cbn [mbind outcome_bind]. rewrite Er. cbn [mbind outcome_bind].
  assert (l1 ++ match new with Some y => y :: l2 | None => l2 end ≡ₚ option_list new ++ l1 ++ l2) as Ep
    by (destruct new; cbn; [by rewrite <- Permutation_middle|done]).
  split; [done|]. split; [done|]. split; [rewrite Eb; by rewrite <- Permutation_middle|]. split; [exact Ep|].
  destruct (concat_update _ _ _ Hb) as (rest & Ec & Ec'). rewrite Ec', Ep, <- !app_assoc. f_equiv.
  pose proof (hr_nodes _ _ Hr) as Hl. unfold nodes in Hl. rewrite Ec, Eb, <- app_assoc in Hl.
  cbn in Hl. rewrite <- Permutation_middle in Hl. by apply Permutation_cons_inv in Hl.
Qed.

Lemma hmap_remove_ok h l x :
  hmap_rep h (x :: l) -> hn h < 2 ^ 63 ->
  exists h', hmap_remove h x = Ret h' /\ hmap_rep h' l /\ hn h' = hn h - 1 /\ mask h' = mask h.
Proof.
  intros Hr Hn. destruct (update_chain_ok h l x None Hr) as (b & b' & rest & E & Hb & Eb & Eb' & Ec); [done|].
  unfold hmap_remove. rewrite E. cbn [mbind outcome_bind].
  pose proof (ho_n _ (hr_ok _ _ Hr)) as Hc. rewrite (hr_nodes _ _ Hr) in Hc. cbn [length] in Hc.
  rewrite wrap_small by lia. eexists. split; [done|]. split; [|done].
  destruct Hr as [Hok Hl Hd]. split; [|done|].
  - eapply ok_update; [done|exact Hb| |].
    + intros y Hy. left. rewrite Eb. right. by rewrite Eb' in Hy.
    + rewrite Eb, Eb'. cbn. lia.
  - cbn in Hd. by apply NoDup_cons in Hd as [].
Qed.

Lemma hmap_replace_ok h l x p :
  hmap_rep h (x :: l) -> p ∉ node_ptr <$> l ->
  exists h', hmap_replace h x p = Ret h' /\ hmap_rep h' (MkNode (node_hash x) p :: l)
    /\ hn h' = hn h /\ mask h' = mask h.
Proof.
  intros Hr Hp. destruct (update_chain_ok h l x (Some (MkNode (node_hash x) p)) Hr)
    as (b & b' & rest & E & Hb & Eb & Eb' & Ec); [by intros y [= <-]|].
  unfold hmap_replace. rewrite E. cbn [mbind outcome_bind]. eexists. split; [done|]. split; [|done].
  destruct Hr as [Hok Hl Hd]. split; [|done|].
  - eapply ok_update; [done|exact Hb| |].
    + intros y Hy. rewrite Eb' in Hy. cbn in Hy.
      apply elem_of_cons in Hy as [->|Hy]; [by right|left]. rewrite Eb. by right.
    + by rewrite Eb, Eb'.
  - cbn in *. apply NoDup_cons in Hd as []. by constructor.
Qed.

(** Nothing to find is a null dereference: removing a node that is not in the map. *)
Lemma hmap_remove_absent h l x :
  hmap_rep h l -> node_ptr x ∉ node_ptr <$> l -> hmap_remove h x = Stuck NullDeref.
Proof.
  intros Hr Hx. destruct (first_in_bucket_ok h (node_hash x) (hr_ok _ _ Hr)) as (b & E & Hb).
  unfold hmap_remove, update_chain. rewrite E. cbn [mbind outcome_bind].
  assert (Forall (fun y => node_ptr y <> node_ptr x) b) as Hf.
  { apply Forall_forall. intros y Hy Eq. apply Hx. rewrite <- Eq. apply list_elem_of_fmap_2.
    rewrite <- (hr_nodes _ _ Hr). apply elem_of_nodes. eauto. }
  assert (chain_replace b (node_ptr x) None = Stuck NullDeref) as ->; [|done].
  clear Hb E. induction Hf as [|y b Hy _ IH]; [done|]. cbn [chain_replace].
  destruct (Nat.eqb_spec (node_ptr y) (node_ptr x)); [done|]. by rewrite IH.
Qed.

(** *** Search *)

Lemma visit_with_hash_ok fuel c hash :
  (length c <= fuel)%nat ->
  visit_with_hash fuel (next_with_hash c hash) = filter (fun x => node_hash x = hash) c.
Proof.
  revert fuel. induction c as [|x c IH]; intros fuel Hf; [by destruct fuel|].
  cbn [next_with_hash length] in *. rewrite filter_cons. destruct (Z.eqb_spec (node_hash x) hash) as [E|E].
  - rewrite decide_True by done. destruct fuel as [|f]; [lia|]. cbn [visit_with_hash].
    unfold hmap_next_with_hash. rewrite E, IH by lia. done.
  - rewrite decide_False by done. apply IH. lia.
Qed.

Lemma next_with_hash_fuel c hash :
  visit_with_hash (length (next_with_hash c hash)) (next_with_hash c hash)
  = filter (fun x => node_hash x = hash) c.
Proof.
  induction c as [|x c IH]; [done|]. cbn [next_with_hash]. rewrite filter_cons.
  destruct (Z.eqb_spec (node_hash x) hash) as [E|E].
  - rewrite decide_True by done. cbn [length visit_with_hash]. unfold hmap_next_with_hash.
    by rewrite E, visit_with_hash_ok.
  - by rewrite decide_False.
Qed.

Lemma for_each_with_hash_ok h l hash :
  hmap_rep h l ->
  exists r, for_each_with_hash h hash = Ret r /\ r ≡ₚ filter (fun x => node_hash x = hash) l.
Proof.
  intros Hr. destruct (first_in_bucket_ok h hash (hr_ok _ _ Hr)) as (b & E & Hb).
  unfold for_each_with_hash, hmap_first_with_hash. rewrite E. cbn [mbind outcome_bind].
  eexists. split; [done|]. rewrite next_with_hash_fuel.
  apply NoDup_Permutation.
  - apply NoDup_filter. eapply NoDup_fmap_1, nodup_bucket; eauto.
  - apply NoDup_filter. eapply NoDup_fmap_1, Hr.
  - intros x. rewrite !list_elem_of_filter, <- (hr_nodes _ _ Hr). split; intros [Hh Hx]; (split; [done|]); subst hash.
    + by apply (in_own_bucket h x b (hr_ok _ _ Hr) Hb).
    + by apply (in_own_bucket h x b (hr_ok _ _ Hr) Hb).
Qed.

Lemma hmap_contains_ok h l x :
  hmap_rep h l ->
  exists r, hmap_contains h x = Ret r
    /\ (r = true <-> exists y, y ∈ l /\ node_ptr y = node_ptr x
                        /\ bucket_index h (node_hash y) = bucket_index h (node_hash x)).
Proof.
  intros Hr. destruct (first_in_bucket_ok h (node_hash x) (hr_ok _ _ Hr)) as (b & E & Hb).
  unfold hmap_contains. rewrite E. cbn [mbind outcome_bind]. eexists. split; [done|].
  rewrite existsb_exists. split; intros (y & Hy & H).
  - exists y. apply list_elem_of_In in Hy. apply Nat.eqb_eq in H. split_and!; [|done|].
    + rewrite <- (hr_nodes _ _ Hr). apply elem_of_nodes. eauto.
    + eapply ho_place; [apply Hr|exact Hb|done].
  - destruct H as [Ep Ei]. exists y. split; [|by apply Nat.eqb_eq].
    apply list_elem_of_In. rewrite <- Ei in Hb. apply (in_own_bucket h y b (hr_ok _ _ Hr) Hb).
    by rewrite (hr_nodes _ _ Hr).
Qed.

(** *** Iteration *)

(** What is left from chain [c] of bucket [j] on. *)
Definition after (h : hmap) (j : nat) : list hmap_node := concat (drop (S j) (buckets h)).

Lemma drop_bucket h j b : buckets h !! j = Some b -> concat (drop j (buckets h)) = b ++ after h j.
Proof. intros H. by rewrite (drop_S _ _ _ H). Qed.

Lemma next_from_ok h : forall n i,
  (i + n)%nat = length (buckets h) ->
  exists c, hmap_next_from h n i = Ret c
    /\ ((c = [] /\ concat (drop i (buckets h)) = [])
        \/ exists j, (i <= j)%nat /\ buckets h !! j = Some c /\ c <> []
                     /\ concat (drop i (buckets h)) = c ++ after h j).
Proof.
  induction n as [|n IH]; intros i Hi; cbn [hmap_next_from].
  - exists []. split; [done|left]. split; [done|]. rewrite drop_ge by lia. done.
  - destruct (lookup_lt_is_Some_2 (buckets h) i ltac:(lia)) as [b Hb]. rewrite Hb.
    cbn [of_option mbind outcome_bind]. rewrite (drop_bucket _ _ _ Hb). destruct b as [|x b].
    + destruct (IH (S i)) as (c & E & [H|(j & Hj & H)]); [lia|exists c; by split; [|left]|].
      exists c. split; [done|right]. exists j. split; [lia|done].
    + exists (x :: b). split; [done|right]. by exists i.
Qed.

(** The bucket of a node, as the index the code computes. *)
Lemma node_bucket h j b x :
  hmap_ok h -> buckets h !! j = Some b -> x ∈ b -> Z.land (node_hash x) (mask h) = Z.of_nat j.
Proof.
  intros Hok Hb Hx. pose proof (ho_place _ Hok _ _ _ Hb Hx) as <-.
  destruct (ho_mask _ Hok) as (k & Hk & Em). unfold bucket_index.
  rewrite Em, Z.land_ones by lia. rewrite Z2Nat.id; [done|]. apply Z.mod_pos_bound, Z.pow_pos_nonneg; lia.
Qed.

(** The start of the next chain, from the end of chain [j]. *)
Lemma hmap_next_end h j b x :
  hmap_ok h -> buckets h !! j = Some b -> x ∈ b ->
  exists c, hmap_next h x [] = Ret c
    /\ ((c = [] /\ after h j = [])
        \/ exists j', (S j <= j')%nat /\ buckets h !! j' = Some c /\ c <> [] /\ after h j = c ++ after h j').
Proof.
  intros Hok Hb Hx. pose proof (lookup_lt_Some _ _ _ Hb). pose proof (ho_len _ Hok).
  cbn [hmap_next]. unfold hmap_next__. rewrite (node_bucket _ _ _ _ Hok Hb Hx).
  replace (Z.to_nat (Z.of_nat j + 1)) with (S j) by lia. apply next_from_ok. lia.
Qed.

Lemma visit_ok h fuel : forall c j pre,
  hmap_ok h -> buckets h !! j = Some (pre ++ c) -> c <> [] ->
  (length (c ++ after h j) <= fuel)%nat -> visit h fuel c = Ret (c ++ after h j).
Proof.
  induction fuel as [|f IH]; intros c j pre Hok Hj Hc Hf; (destruct c as [|x next]; [done|]); cbn [app length] in Hf; [lia|].
  cbn [visit app]. destruct next as [|y next].
  - destruct (hmap_next_end h j (pre ++ [x]) x Hok Hj ltac:(apply elem_of_app; right; by left)) as (c & -> & Hc').
    cbn [mbind outcome_bind].
    destruct Hc' as [[-> Ea]|(j' & _ & Hj' & Hne & Ea)].
    + rewrite Ea. cbn in Hf. by destruct f.
    + rewrite Ea in *. rewrite (IH c j' []); [done|done|done|done|]. cbn in Hf. lia.
  - cbn [hmap_next mbind outcome_bind]. rewrite (IH (y :: next) j (pre ++ [x])); [done|done| |done|].
    + by rewrite <- app_assoc.
    + cbn in *. lia.
Qed.

Lemma for_each_ok h fuel :
  hmap_ok h -> (length (nodes h) <= fuel)%nat -> for_each h fuel = Ret (nodes h).
Proof.
  intros Hok Hf. unfold for_each, hmap_first, hmap_next__. pose proof (ho_len _ Hok).
  destruct (next_from_ok h (Z.to_nat (mask h + 1 - 0)) 0 ltac:(lia)) as (c & E & Hc).
  change (Z.to_nat 0) with 0%nat. rewrite E. cbn [mbind outcome_bind]. change (drop 0 (buckets h)) with (buckets h) in Hc. fold (nodes h) in Hc.
  destruct Hc as [[-> En]|(j & _ & Hj & Hne & En)].
  - rewrite En. by destruct fuel.
  - rewrite En in *. by apply (visit_ok h fuel c j []).
Qed.

Lemma chain_after_ok c x : forall pre, NoDup (node_ptr <$> pre ++ x :: c) -> chain_after (pre ++ x :: c) (node_ptr x) = Ret c.
Proof.
  induction pre as [|y pre IH]; cbn [app fmap list_fmap chain_after]; intros Hd; [by rewrite Nat.eqb_refl|].
  apply NoDup_cons in Hd as [Hy Hd]. rewrite (proj2 (Nat.eqb_neq _ _)); [by apply IH|].
  intros E. apply Hy. rewrite E. apply list_elem_of_fmap_2. set_solver.
Qed.

(** The rest of a chain, and where its nodes are in the whole iteration. *)
Lemma nodup_split_inj {A} (x : A) : forall a b c d, NoDup (a ++ x :: b) -> a ++ x :: b = c ++ x :: d -> b = d.
Proof.
  induction a as [|y a IH]; intros b [|z c] d Hn E; cbn [app] in *; apply NoDup_cons in Hn as [Hy Hn]; simplify_eq; try done.
  - exfalso. apply Hy. set_solver.
  - exfalso. apply Hy. set_solver.
  - by eapply IH.
Qed.

Lemma node_position h x : hmap_ok h -> x ∈ nodes h ->
  exists pre c, buckets h !! bucket_index h (node_hash x) = Some (pre ++ x :: c)
    /\ nodes h = (concat (take (bucket_index h (node_hash x)) (buckets h)) ++ pre) ++ x :: c ++ after h (bucket_index h (node_hash x)).
Proof.
  intros Hok (j & b & Hb & Hx)%elem_of_nodes. pose proof (ho_place _ Hok _ _ _ Hb Hx) as E. rewrite E.
  apply list_elem_of_split in Hx as (pre & c & ->). exists pre, c. split; [done|].
  unfold nodes. rewrite <- (take_drop j (buckets h)) at 1. rewrite concat_app, (drop_bucket _ _ _ Hb).
  rewrite <- !app_assoc. done.
Qed.

(** The nodes after one of them, in the order of the iteration. *)
Lemma for_each_continue_ok h fuel x l1 l2 :
  hmap_ok h -> NoDup (node_ptr <$> nodes h) -> nodes h = l1 ++ x :: l2 -> (length l2 <= fuel)%nat ->
  for_each_continue h fuel x = Ret l2.
Proof.
  intros Hok Hd E Hf. destruct (node_position h x Hok) as (pre & c & Hj & En); [rewrite E; set_solver|].
  pose proof (NoDup_fmap_1 _ _ Hd) as Hdn. rewrite En in Hdn. pose proof En as En'. rewrite E in En'. symmetry in En'.
  pose proof (nodup_split_inj _ _ _ _ _ Hdn En') as <-. clear En' Hdn E l1.
  set (j := bucket_index h (node_hash x)) in *.
  unfold for_each_continue, hmap_first_in_bucket. fold j. rewrite Hj. cbn [of_option mbind outcome_bind].
  rewrite (chain_after_ok c x pre).
  2: { rewrite En, !fmap_app in Hd. cbn [fmap list_fmap] in Hd. rewrite fmap_app, app_comm_cons in Hd.
    rewrite app_assoc in Hd. apply NoDup_app in Hd as (Hd & _ & _). rewrite <- app_assoc in Hd. apply NoDup_app in Hd as (_ & _ & Hd).
    by rewrite fmap_app. }
  cbn [mbind outcome_bind]. destruct c as [|y c].
  - destruct (hmap_next_end h j (pre ++ [x]) x Hok Hj ltac:(set_solver)) as (c & -> & [[-> Ea]|(j' & _ & Hj' & Hne & Ea)]);
      cbn [mbind outcome_bind app] in *; rewrite Ea in *; [by destruct fuel|]. by apply (visit_ok h fuel c j' []).
  - cbn [hmap_next mbind outcome_bind]. apply (visit_ok h fuel (y :: c) j (pre ++ [x])); [done| |done|done].
    by rewrite <- app_assoc.
Qed.

(** *** Emptying a map during an iteration

    Each round finds the next node and then removes the one it is at. *)

(** Taking the head off a chain. *)
Lemma remove_head t j x next :
  hmap_ok t -> buckets t !! j = Some (x :: next) -> hn t < 2 ^ 63 ->
  hmap_remove t x = Ret (MkHmap (<[j := next]> (buckets t)) (mask t) (hn t - 1))
  /\ hmap_ok (MkHmap (<[j := next]> (buckets t)) (mask t) (hn t - 1)).
Proof.
  intros Hok Hj Hn. pose proof (ho_place _ Hok _ _ _ Hj (list_elem_of_here _ _)) as Ej.
  assert (0 < hn t) as Hp.
  { rewrite (ho_n _ Hok). destruct (concat_update _ _ _ Hj) as (rest & E & _). unfold nodes. rewrite E. cbn. lia. }
  rewrite <- Ej in Hj |- *. split.
  - unfold hmap_remove, update_chain, hmap_first_in_bucket. rewrite Hj. cbn [of_option mbind outcome_bind chain_replace].
    rewrite Nat.eqb_refl. cbn [mbind outcome_bind]. by rewrite wrap_small by lia.
  - eapply ok_update; [done|exact Hj| |cbn [length]; lia]. intros y Hy. left. by right.
Qed.

(** [c] is all of a bucket, and the buckets before it are empty. *)
Definition draining (t : hmap) (c : list hmap_node) : Prop :=
  hmap_ok t /\ NoDup (node_ptr <$> nodes t) /\ hn t < 2 ^ 63
  /\ exists j, nodes t = c ++ after t j /\ (c <> [] -> buckets t !! j = Some c) /\ (c = [] -> nodes t = []).

Lemma draining_nodup t c : draining t c -> NoDup (node_ptr <$> nodes t).
Proof. by intros (_ & ? & _). Qed.

Lemma draining_end t : draining t [] -> nodes t = [].
Proof. intros (_ & _ & _ & j & _ & _ & H). by apply H. Qed.

Lemma take_empty t j c :
  buckets t !! j = Some c -> nodes t = c ++ after t j -> concat (take j (buckets t)) = [].
Proof.
  intros Hj E. unfold nodes in E. rewrite <- (take_drop_middle _ _ _ Hj) in E. rewrite concat_app in E. cbn [concat] in E.
  change (concat (drop (S j) (buckets t))) with (after t j) in E.
  apply (f_equal length) in E. rewrite !length_app in E. apply nil_length_inv. lia.
Qed.

Lemma draining_first t l : hmap_rep t l -> hn t < 2 ^ 63 -> exists c, hmap_first t = Ret c /\ draining t c.
Proof.
  intros Ht Hn. pose proof (hr_ok _ _ Ht) as Hok. pose proof (ho_len _ Hok) as Hlen.
  assert (NoDup (node_ptr <$> nodes t)) as Hd by (rewrite (hr_nodes _ _ Ht); apply Ht).
  unfold hmap_first, hmap_next__. destruct (next_from_ok t (Z.to_nat (mask t + 1 - 0)) (Z.to_nat 0)) as (c & E & H).
  { change (Z.to_nat 0) with 0%nat. lia. }
  change (concat (drop (Z.to_nat 0) (buckets t))) with (nodes t) in H. exists c. split; [done|].
  split_and!; [done..|]. destruct H as [[-> En]|(j & _ & Hb & Hne & En)]; [|by exists j].
  exists (length (buckets t)). split_and!; [|done|done]. rewrite En. unfold after. by rewrite drop_ge by lia.
Qed.

Lemma draining_step t x next : draining t (x :: next) ->
  exists t' c, hmap_next t x next = Ret c /\ hmap_remove t x = Ret t' /\ draining t' c /\ nodes t = x :: nodes t'.
Proof.
  intros (H1 & H5 & H4 & j & H2 & H3 & _). specialize (H3 ltac:(done)).
  destruct (remove_head t j x next H1 H3 H4) as [Er Hok'].
  set (t' := MkHmap (<[j := next]> (buckets t)) (mask t) (hn t - 1)) in *.
  pose proof (take_empty t j _ H3 H2) as Ht. pose proof (lookup_lt_Some _ _ _ H3) as Hlt.
  assert (forall k, (j <= k)%nat -> after t' k = after t k) as Ha
    by (intros k Hk; unfold after, t'; cbn [buckets]; by rewrite drop_insert_lt by lia).
  assert (nodes t' = next ++ after t j) as En.
  { unfold nodes, t'. cbn [buckets]. rewrite insert_take_drop by done. rewrite concat_app, Ht. done. }
  exists t'. assert (exists c, hmap_next t x next = Ret c /\ exists j', nodes t' = c ++ after t' j'
            /\ (c <> [] -> buckets t' !! j' = Some c) /\ (c = [] -> nodes t' = [])) as (c & E1 & E2).
  { destruct next as [|y next].
    - destruct (hmap_next_end t j [x] x H1 H3 ltac:(by left)) as (c' & E & [[-> Ea]|(j' & Hj' & Hb & Hne & Ea)]).
      + exists []. split; [done|]. exists j. rewrite En, Ha by done. by rewrite Ea.
      + exists c'. split; [done|]. exists j'. rewrite En, Ha by lia. cbn [app]. split_and!; [done| |done].
        intros _. unfold t'. cbn [buckets]. by rewrite list_lookup_insert_ne by lia.
    - exists (y :: next). split; [done|]. exists j. rewrite En, Ha by done. split_and!; [done| |done].
      intros _. unfold t'. cbn [buckets]. by rewrite list_lookup_insert_eq. }
  rewrite H2 in H5. cbn [app fmap list_fmap] in H5. apply NoDup_cons in H5 as [_ H5]. rewrite <- En in H5.
  exists c. split_and!; [done..| |by rewrite En, H2]. split_and!; [done..|cbn; lia|done].
Qed.

(** The client's loop around hmap_at_position, which starts with both positions 0. *)
Fixpoint walk (h : hmap) (fuel : nat) (bucket offset : Z) : outcome (list hmap_node) :=
  match fuel with
  | O => Ret []
  | S f =>
      '(node, bucket, offset) ← hmap_at_position h bucket offset;
      match node with
      | None => Ret []
      | Some x => rest ← walk h f bucket offset; Ret (x :: rest)
      end
  end.

(** What is left at a position. *)
Definition remaining (h : hmap) (b o : nat) : list hmap_node :=
  drop o (default [] (buckets h !! b)) ++ after h b.

Lemma remaining_0 h b : remaining h (S b) 0 = after h b.
Proof.
  unfold remaining, after. rewrite drop_0. destruct (buckets h !! S b) as [d|] eqn:Ed.
  - by rewrite (drop_S _ _ _ Ed).
  - apply lookup_ge_None in Ed. rewrite !drop_ge by lia. done.
Qed.

Definition small (h : hmap) : Prop := mask h + 1 < 2 ^ 32 /\ hn h < 2 ^ 32.

Lemma bucket_small h j b : hmap_ok h -> small h -> buckets h !! j = Some b -> Z.of_nat (length b) < 2 ^ 32.
Proof.
  intros Hok [_ Hs] Hb. destruct (concat_update _ _ _ Hb) as (rest & E & _).
  rewrite (ho_n _ Hok) in Hs. unfold nodes in Hs. rewrite E, length_app in Hs. lia.
Qed.

Lemma at_position_loop_ok h : forall n b o,
  hmap_ok h -> small h -> (b + n)%nat = length (buckets h) ->
  match remaining h b o with
  | [] => at_position_loop h n (Z.of_nat b) (Z.of_nat o) = Ret (None, 0, 0)
  | x :: r => exists b' o', at_position_loop h n (Z.of_nat b) (Z.of_nat o)
                            = Ret (Some x, Z.of_nat b', Z.of_nat o')
                          /\ remaining h b' o' = r /\ (b' <= length (buckets h))%nat
  end.
Proof.
  induction n as [|n IH]; intros b o Hok Hs Hn; cbn [at_position_loop].
  { unfold remaining, after. rewrite lookup_ge_None_2 by lia. cbn [default from_option]. rewrite drop_nil, drop_ge by lia. done. }
  rewrite !Nat2Z.id. destruct (lookup_lt_is_Some_2 (buckets h) b ltac:(lia)) as [c Hc]. rewrite Hc.
  cbn [of_option mbind outcome_bind]. replace (Z.to_nat (Z.of_nat o + 1)) with (S o) by lia.
  pose proof (bucket_small _ _ _ Hok Hs Hc) as Hcs. destruct Hs as [Hs1 Hs2].
  unfold remaining. rewrite Hc. cbn [default from_option id]. destruct (c !! o) as [x|] eqn:Ex.
  - rewrite (drop_S _ _ _ Ex). cbn [app].
    rewrite (node_bucket _ _ _ _ Hok Hc (list_elem_of_lookup_2 _ _ _ Ex)).
    pose proof (ho_len _ Hok). pose proof (lookup_lt_Some _ _ _ Ex).
    destruct (c !! S o) as [y|] eqn:Ey.
    + exists b, (S o). apply lookup_lt_Some in Ey. rewrite !wrap_small by lia.
      rewrite Nat2Z.inj_succ. split; [done|]. rewrite Hc. split; [done|lia].
    + exists (S b), 0%nat. apply lookup_ge_None in Ey. rewrite wrap_small by lia.
      rewrite Nat2Z.inj_succ. split; [done|]. split; [|lia]. rewrite (drop_ge c) by lia. cbn [app].
      apply remaining_0.
  - apply lookup_ge_None in Ex. rewrite drop_ge by done. cbn [app].
    replace (Z.of_nat b + 1) with (Z.of_nat (S b)) by lia. specialize (IH (S b) 0%nat Hok (conj Hs1 Hs2) ltac:(lia)).
    rewrite <- remaining_0. exact IH.
Qed.

Lemma walk_ok h : forall fuel b o,
  hmap_ok h -> small h -> (b <= length (buckets h))%nat -> (length (remaining h b o) < fuel)%nat ->
  walk h fuel (Z.of_nat b) (Z.of_nat o) = Ret (remaining h b o).
Proof.
  induction fuel as [|f IH]; intros b o Hok Hs Hb Hf; [lia|]. cbn [walk]. unfold hmap_at_position.
  pose proof (ho_len _ Hok). destruct (ho_mask _ Hok) as (k & Hk & Em). pose proof (ones_pos k ltac:(lia)).
  pose proof (at_position_loop_ok h (Z.to_nat (mask h + 1 - Z.of_nat b)) b o Hok Hs ltac:(lia)) as H1.
  destruct (remaining h b o) as [|x r].
  - rewrite H1. done.
  - destruct H1 as (b' & o' & -> & <- & Hb'). cbn [mbind outcome_bind]. cbn [length] in Hf.
    rewrite IH by (done || lia). done.
Qed.

(** *** Random choice *)

Lemma index_u64 h z : hmap_ok h -> bucket_index h (u64 z) = bucket_index h z.
Proof.
  intros Hok. destruct (ho_mask _ Hok) as (k & Hk & E). unfold bucket_index, wrap. rewrite E.
  rewrite <- (Z.land_ones z 64), <- Z.land_assoc by lia. do 2 f_equal.
  rewrite Z.land_comm, Z.land_ones by lia. apply Z.mod_small. rewrite Z.ones_equiv.
  assert (0 < 2 ^ k <= 2 ^ 63) by (split; [apply Z.pow_pos_nonneg|apply Z.pow_le_mono_r]; lia). lia.
Qed.

Lemma random_bucket_ok h : forall d fuel i b,
  hmap_ok h -> (d < fuel)%nat -> buckets h !! bucket_index h (i + Z.of_nat d) = Some b -> b <> [] ->
  exists c j, random_bucket h fuel i = Ret (Some c) /\ buckets h !! j = Some c /\ c <> [].
Proof.
  induction d as [|d IH]; intros [|f] i b Hok Hd Hb Hne; try lia; cbn [random_bucket];
    destruct (first_in_bucket_ok h i Hok) as (c & E & Hc); rewrite E; cbn [mbind outcome_bind].
  - rewrite Z.add_0_r in Hb. assert (c = b) as -> by congruence. destruct b; [done|]. by eexists _, _.
  - destruct c as [|x c]; [|by eexists _, _].
    apply (IH f (u64 (i + 1)) b Hok); [lia| |done].
    rewrite <- Hb, <- (index_u64 h (i + _)), <- (index_u64 h (u64 (i + 1) + _)) by done.
    do 2 f_equal. unfold wrap. rewrite Zplus_mod_idemp_l. f_equal. lia.
Qed.

(** Every chain is at most a full turn of the table away. *)
Lemma random_distance h i j :
  hmap_ok h -> (j < length (buckets h))%nat ->
  exists d, (d < Z.to_nat (mask h + 1))%nat /\ bucket_index h (i + Z.of_nat d) = j.
Proof.
  intros Hok Hj. pose proof (ho_len _ Hok) as Hl. destruct (ho_mask _ Hok) as (k & Hk & E).
  assert (0 < 2 ^ k) by (apply Z.pow_pos_nonneg; lia). rewrite E, Z.ones_equiv in *.
  pose proof (Z.mod_pos_bound (Z.of_nat j - i) (2 ^ k) ltac:(lia)).
  exists (Z.to_nat ((Z.of_nat j - i) `mod` 2 ^ k)). split; [lia|].
  unfold bucket_index. rewrite E, <- Z.ones_equiv, Z.land_ones, Z2Nat.id by lia.
  rewrite Zplus_mod_idemp_r. replace (i + (Z.of_nat j - i)) with (Z.of_nat j) by lia.
  rewrite Z.mod_small by lia. lia.
Qed.

Lemma random_node_ok h l i range :
  hmap_rep h l -> l <> [] -> (forall n, (0 < n)%nat -> (range n < n)%nat) ->
  exists x, hmap_random_node h i range = Ret (Some x) /\ x ∈ l.
Proof.
  intros Hr Hl Hrange. pose proof (hr_ok _ _ Hr) as Hok. destruct l as [|y l]; [done|].
  assert (y ∈ nodes h) as Hy by (rewrite (hr_nodes _ _ Hr); by left).
  apply elem_of_nodes in Hy as (j & b & Hb & Hyb).
  destruct (random_distance h i j Hok (lookup_lt_Some _ _ _ Hb)) as (d & Hd & Ej).
  rewrite <- Ej in Hb.
  destruct (random_bucket_ok h d _ i b Hok Hd Hb) as (c & j' & E & Hc & Hne);
    [intros ->; by apply not_elem_of_nil in Hyb|].
  unfold hmap_random_node. rewrite E. cbn [mbind outcome_bind].
  destruct (lookup_lt_is_Some_2 c (range (length c))) as [x Hx].
  { apply Hrange. destruct c; [done|]. cbn. lia. }
  rewrite Hx. exists x. split; [done|]. rewrite <- (hr_nodes _ _ Hr). apply elem_of_nodes.
  exists j', c. split; [done|]. by eapply list_elem_of_lookup_2.
Qed.

(** ** Sequences of operations *)

Inductive hmap_op :=
  | Insert (p : nat) (hash : Z)
  | Remove (x : hmap_node)
  | Replace (x : hmap_node) (p : nat)
  | Moved (old : nat) (x : hmap_node)
  | Reserve (n : Z)
  | Shrink
  | Clear.

Definition run_hmap_op (o : hmap_op) (h : hmap) : outcome hmap :=
  match o with
  | Insert p hash => hmap_insert h p hash
  | Remove x => hmap_remove h x
  | Replace x p => hmap_replace h x p
  | Moved old x => hmap_node_moved h old x
  | Reserve n => hmap_reserve h n
  | Shrink => hmap_shrink h
  | Clear => Ret (hmap_clear h)
  end.

Fixpoint run_hmap_ops (os : list hmap_op) (h : hmap) : outcome hmap :=
  match os with
  | [] => Ret h
  | o :: os' => h ← run_hmap_op o h; run_hmap_ops os' h
  end.

(** The same on a list of nodes. *)
Definition list_op (o : hmap_op) (l : list hmap_node) : list hmap_node :=
  match o with
  | Insert p hash => MkNode hash p :: l
  | Remove x => filter (fun y => y <> x) l
  | Replace x p => MkNode (node_hash x) p :: filter (fun y => y <> x) l
  | Moved old x => x :: filter (fun y => y <> MkNode (node_hash x) old) l
  | Reserve _ | Shrink => l
  | Clear => []
  end.

(** What the comments ask of the caller: a node is inserted at an address not in use, and a
    node taken out or replaced is in the map.  Reserving is limited to sizes whose table
    can be allocated. *)
Definition op_valid (o : hmap_op) (l : list hmap_node) : Prop :=
  match o with
  | Insert p hash => p ∉ node_ptr <$> l
  | Remove x => x ∈ l
  | Replace x p => x ∈ l /\ p ∉ node_ptr <$> l
  | Moved old x => MkNode (node_hash x) old ∈ l /\ node_ptr x ∉ node_ptr <$> l
  | Reserve n => 0 <= n < 2 ^ 61
  | Shrink | Clear => True
  end.

Fixpoint ops_valid (os : list hmap_op) (l : list hmap_node) : Prop :=
  match os with
  | [] => True
  | o :: os' => op_valid o l /\ ops_valid os' (list_op o l)
  end.

Lemma filter_out {A} `{EqDecision A} (l : list A) x : NoDup l -> x ∈ l -> l ≡ₚ x :: filter (fun y => y <> x) l.
Proof.
  intros Hd Hx. apply NoDup_Permutation; [done| |].
  - constructor; [|by apply NoDup_filter]. rewrite list_elem_of_filter. by intros [? _].
  - intros y. rewrite elem_of_cons, list_elem_of_filter. destruct (decide (y = x)) as [->|]; naive_solver.
Qed.

Lemma clear_ok h l :
  hmap_rep h l -> hmap_rep (hmap_clear h) [] /\ mask (hmap_clear h) = mask h /\ hn (hmap_clear h) = 0.
Proof.
  intros Hr. unfold hmap_clear. pose proof (ho_n _ (hr_ok _ _ Hr)) as Hn. destruct (Z.ltb_spec 0 (hn h)).
  - destruct (ho_mask _ (hr_ok _ _ Hr)) as (k & Hk & ->). split; [by apply empty_rep|done].
  - assert (nodes h = []) as E by (apply nil_length_inv; lia). split; [|split; [done|rewrite E in Hn; done]].
    destruct Hr as [H1 H2 H3]. split; [done|by rewrite E|constructor].
Qed.

Lemma rep_count h l : hmap_rep h l -> hn h = Z.of_nat (length l).
Proof. intros [[_ _ _ Hn] Hl _]. by rewrite Hn, Hl. Qed.

(** A node singled out of those of the map. *)
Lemma rep_split h l x :
  hmap_rep h l -> x ∈ l ->
  hmap_rep h (x :: filter (fun y => y <> x) l)
  /\ (forall p, p ∉ node_ptr <$> l -> p ∉ node_ptr <$> filter (fun y => y <> x) l)
  /\ length l = S (length (filter (fun y => y <> x) l)).
Proof.
  intros Hr Hx. assert (l ≡ₚ x :: filter (fun y => y <> x) l) as E
    by (apply filter_out; [eapply NoDup_fmap_1, Hr|done]).
  split; [by rewrite <- E|]. split; [|by rewrite E at 1].
  intros p Hp. rewrite list_elem_of_fmap. intros (y & -> & Hy). apply Hp, list_elem_of_fmap_2.
  by apply list_elem_of_filter in Hy as [].
Qed.

Lemma hmap_op_ok o h l :
  hmap_rep h l -> load_ok h -> op_valid o l -> hn h + 1 < 2 ^ 61 ->
  exists h', run_hmap_op o h = Ret h' /\ hmap_rep h' (list_op o l) /\ load_ok h' /\ hn h' <= hn h + 1.
Proof.
  intros Hr Hld Hv Hn. unfold load_ok in *. pose proof (rep_count _ _ Hr) as Hc.
  assert ((hn h - 1) / 2 <= hn h / 2) as Hmono by (apply Z.div_le_mono; lia).
  destruct o as [p hash|x|x p|old x|n| |]; cbn [run_hmap_op list_op op_valid] in *.
  - destruct (hmap_insert_ok h l p hash Hr Hv Hn) as (h' & ? & ? & ? & ?).
    exists h'. split_and!; [done..|lia].
  - destruct (rep_split _ _ _ Hr Hv) as (Hr' & _ & _).
    destruct (hmap_remove_ok h _ x Hr' ltac:(lia)) as (h' & ? & ? & En & Em).
    exists h'. rewrite En, Em. split_and!; [done..|lia|lia].
  - destruct Hv as [Hx Hp]. destruct (rep_split _ _ _ Hr Hx) as (Hr' & Hp' & _).
    destruct (hmap_replace_ok h _ x p Hr' (Hp' _ Hp)) as (h' & ? & ? & En & Em).
    exists h'. rewrite En, Em. split_and!; [done..|lia].
  - destruct Hv as [Hx Hp]. destruct (rep_split _ _ _ Hr Hx) as (Hr' & Hp' & _).
    destruct (hmap_replace_ok h _ _ (node_ptr x) Hr' (Hp' _ Hp)) as (h' & E & Hr2 & En & Em).
    exists h'. rewrite En, Em. split_and!; [|by destruct x|done|lia]. by destruct x.
  - destruct (calc_mask_spec n Hv) as (k & _ & _ & _).
    destruct (resize_if_ok h l n (mask h <? calc_mask n) Hr Hv ltac:(lia)) as (h' & ? & ? & En & Em).
    exists h'. rewrite En, Em. split_and!; [done..| |lia]. destruct (Z.ltb_spec (mask h) (calc_mask n)); lia.
  - destruct (calc_mask_spec (hn h) ltac:(lia)) as (k & _ & _ & Hle).
    destruct (resize_if_ok h l (hn h) (calc_mask (hn h) <? mask h) Hr ltac:(lia) ltac:(lia)) as (h' & ? & ? & En & Em).
    exists h'. rewrite En, Em. split_and!; [done..| |lia]. destruct (calc_mask (hn h) <? mask h); lia.
  - destruct (clear_ok h l Hr) as (? & Em & En). exists (hmap_clear h). rewrite En, Em.
    split_and!; [done..| |lia]. change (0 / 2) with 0.
    assert (0 <= hn h / 2) by (apply Z.div_pos; lia). lia.
Qed.

Lemma hmap_ops_ok os : forall h l,
  hmap_rep h l -> load_ok h -> ops_valid os l -> hn h + Z.of_nat (length os) < 2 ^ 61 ->
  exists h', run_hmap_ops os h = Ret h' /\ hmap_rep h' (fold_left (fun l o => list_op o l) os l) /\ load_ok h'.
Proof.
  induction os as [|o os IH]; intros h l Hr Hld Hv Hn; cbn [run_hmap_ops fold_left length] in *.
  - by exists h.
  - destruct Hv as [Hv Hvs]. destruct (hmap_op_ok o h l Hr Hld Hv ltac:(lia)) as (h1 & E & Hr1 & Hl1 & Hn1).
    rewrite E. cbn [mbind outcome_bind]. apply IH; [done..|lia].
Qed.

(** ** Properties *)

(** C29: a hash map is a collection of nodes.  Take any sequence of fewer than 2^61
    insertions, removals, replacements, moves, clearings and resizings that keeps the rules
    of the comments and reserves room for fewer than 2^61 nodes at a time (for 2^61 the size
    of the table is no longer a size_t, see reserve_overflows).  If xmalloc, which ends the
    process otherwise, finds the memory, the sequence runs without a fault and leaves exactly
    the nodes that the same operations leave in a list, each once and in the bucket its hash
    selects; and there are never more nodes than hmap_capacity, twice the number of buckets
    less one. *)
Theorem hmap_refines_list os :
  ops_valid os [] -> Z.of_nat (length os) < 2 ^ 61 ->
  exists h, run_hmap_ops os hmap_init = Ret h
    /\ hmap_rep h (fold_left (fun l o => list_op o l) os []) /\ hmap_count h <= 2 * mask h + 1.
Proof.
  intros Hv Hn. destruct (hmap_ops_ok os hmap_init [] init_rep) as (h & E & Hr & Hl); [|done|done|].
  - done.
  - exists h. split_and!; [done..|]. unfold load_ok, hmap_count in *.
    pose proof (Z.div_mod (hn h) 2 ltac:(lia)). pose proof (Z.mod_pos_bound (hn h) 2 ltac:(lia)). lia.
Qed.

(** hmap_reserve does not check the size of the table.  For 2^61 nodes it needs 2^61
    buckets of eight bytes, which is 0 in size_t: xmalloc returns a block of one byte, and
    the loop that clears the buckets writes past it. *)
Lemma reserve_overflows h : mask h < 2 ^ 61 - 1 -> hmap_reserve h (2 ^ 61) = Stuck OutOfBounds.
Proof.
  intros Hm. unfold hmap_reserve. assert (calc_mask (2 ^ 61) = 2 ^ 61 - 1) as -> by (vm_compute; done).
  destruct (Z.ltb_spec (mask h) (2 ^ 61 - 1)); [|lia]. reflexivity.
Qed.

(** The ways to look at a map agree with its nodes.  The search loop visits exactly the
    nodes with the hash; the iteration loop and the iteration by position end and visit
    every node once; and hmap_random_node, whose loop has no bound in the code, ends on
    every map that is not empty, with one of its nodes. *)
Theorem hmap_traversals h l hash i range :
  hmap_rep h l -> small h -> (forall n, (0 < n)%nat -> (range n < n)%nat) ->
  (exists r, for_each_with_hash h hash = Ret r /\ r ≡ₚ filter (fun x => node_hash x = hash) l)
  /\ (exists r, (forall fuel, (length l <= fuel)%nat -> for_each h fuel = Ret r)
                /\ (forall fuel, (length l < fuel)%nat -> walk h fuel 0 0 = Ret r) /\ r ≡ₚ l)
  /\ (l <> [] -> exists x, hmap_random_node h i range = Ret (Some x) /\ x ∈ l).
Proof.
  intros Hr Hs Hrange. split; [by apply for_each_with_hash_ok|]. split; [|by intros; apply random_node_ok].
  pose proof (hr_ok _ _ Hr) as Hok. exists (nodes h). split; [|split].
  - intros fuel Hf. apply for_each_ok; [done|]. by rewrite (hr_nodes _ _ Hr).
  - intros fuel Hf. assert (remaining h 0 0 = nodes h) as E.
    { unfold remaining, after, nodes. destruct (buckets h) as [|b bs]; [done|]. by rewrite drop_0. }
    rewrite <- E. apply (walk_ok h fuel 0 0 Hok Hs); [lia|]. by rewrite E, (hr_nodes _ _ Hr).
  - apply Hr.
Qed.

Definition demo_hmap_ops : list hmap_op :=
  [Insert 1 7; Insert 2 7; Insert 3 0; Insert 4 11; Insert 5 3; Remove (MkNode 7 1);
   Replace (MkNode 0 3) 6; Shrink; Moved 6 (MkNode 0 8)].

Lemma demo_hmap_valid : ops_valid demo_hmap_ops [].
Proof.
  unfold demo_hmap_ops. cbn [ops_valid op_valid list_op].
  repeat match goal with |- _ /\ _ => split end; try exact I; try (vm_compute; set_solver); apply (bool_decide_unpack _); vm_compute; exact I.
Qed.

Example hmap_refines_list_witness :
  exists h, run_hmap_ops demo_hmap_ops hmap_init = Ret h
    /\ hmap_rep h (fold_left (fun l o => list_op o l) demo_hmap_ops []) /\ hmap_count h <= 2 * mask h + 1.
Proof. apply (hmap_refines_list demo_hmap_ops demo_hmap_valid). reflexivity. Defined.

Definition demo_hmap : hmap :=
  match run_hmap_ops demo_hmap_ops hmap_init with Ret h => h | Stuck _ => hmap_init end.

Lemma demo_hmap_rep : hmap_rep demo_hmap [MkNode 0 8; MkNode 3 5; MkNode 11 4; MkNode 7 2].
Proof.
  destruct (hmap_ops_ok demo_hmap_ops hmap_init [] init_rep) as (h & E & Hr & _);
    [done|exact demo_hmap_valid|reflexivity|].
  unfold demo_hmap. rewrite E. exact Hr.
Qed.

Example hmap_traversals_witness :
  (exists r, for_each_with_hash demo_hmap 7 = Ret r
     /\ r ≡ₚ filter (fun x => node_hash x = 7) [MkNode 0 8; MkNode 3 5; MkNode 11 4; MkNode 7 2])
  /\ (exists r, (forall fuel, (4 <= fuel)%nat -> for_each demo_hmap fuel = Ret r)
        /\ (forall fuel, (4 < fuel)%nat -> walk demo_hmap fuel 0 0 = Ret r)
        /\ r ≡ₚ [MkNode 0 8; MkNode 3 5; MkNode 11 4; MkNode 7 2])
  /\ ([MkNode 0 8; MkNode 3 5; MkNode 11 4; MkNode 7 2] <> [] ->
      exists x, hmap_random_node demo_hmap 123 (fun n => n - 1)%nat = Ret (Some x)
                /\ x ∈ [MkNode 0 8; MkNode 3 5; MkNode 11 4; MkNode 7 2]).
Proof.
  apply (hmap_traversals demo_hmap _ 7 123 (fun n => n - 1)%nat demo_hmap_rep).
  - by split.
  - intros n Hn. lia.
Defined.
