(* ===== verification/MacLearning.v ===== *)
(** * MAC learning (lib/mac-learning.c, lib/mac-learning.h)

    The table from addresses and VLANs to ports of an ordinary learning switch: entries in a
    hash map, in a list from the least to the most recently used, expired when they have not
    been seen for a while.  A [struct mac_entry] is a block of a heap; the map's nodes and
    the list hold its address.

    Times are seconds in a 64-bit time_t.  time_now(), random_uint32() and tag_create_random()
    are arguments of the functions that call them. *)
From Stdlib Require Import Sorted.
From S2P Require Import Prelude Tag Hash Hmap.

Local Open Scope Z_scope.

(** ** Definitions *)

Definition MAC_MAX : Z := 2048.
Definition TIME_MIN : Z := LLONG_MIN.
Definition MAC_GRAT_ARP_LOCK_TIME : Z := 5.

(** [me_hash] is the hash kept in the member hmap_node. *)
Record mac_entry := MkMac {
  me_hash : Z;
  me_expires : Z;
  me_grat_arp_lock : Z;
  me_mac : list Z;
  me_vlan : Z;
  me_tag : Z;
  me_port : Z
}.

Definition set_expires (t : Z) (e : mac_entry) : mac_entry :=
  MkMac (me_hash e) t (me_grat_arp_lock e) (me_mac e) (me_vlan e) (me_tag e) (me_port e).
Definition set_lock (t : Z) (e : mac_entry) : mac_entry :=
  MkMac (me_hash e) (me_expires e) t (me_mac e) (me_vlan e) (me_tag e) (me_port e).
Definition set_tag (t : Z) (e : mac_entry) : mac_entry :=
  MkMac (me_hash e) (me_expires e) (me_grat_arp_lock e) (me_mac e) (me_vlan e) t (me_port e).
Definition set_port (t : Z) (e : mac_entry) : mac_entry :=
  MkMac (me_hash e) (me_expires e) (me_grat_arp_lock e) (me_mac e) (me_vlan e) (me_tag e) t.

(** The table and the memory of its entries; [ml_next] is an address not yet used.  A VLAN
    bitmap is its words of 64 bits. *)
Record mac_learning := MkMl {
  ml_heap : gmap nat mac_entry;
  ml_next : nat;
  ml_table : hmap;
  ml_lrus : list nat;
  ml_secret : Z;
  ml_flood_vlans : option (list Z);
  ml_idle_time : Z
}.

Definition with_heap (h : gmap nat mac_entry) (m : mac_learning) : mac_learning :=
  MkMl h (ml_next m) (ml_table m) (ml_lrus m) (ml_secret m) (ml_flood_vlans m) (ml_idle_time m).
Definition with_table (t : hmap) (m : mac_learning) : mac_learning :=
  MkMl (ml_heap m) (ml_next m) t (ml_lrus m) (ml_secret m) (ml_flood_vlans m) (ml_idle_time m).
Definition with_lrus (l : list nat) (m : mac_learning) : mac_learning :=
  MkMl (ml_heap m) (ml_next m) (ml_table m) l (ml_secret m) (ml_flood_vlans m) (ml_idle_time m).

Abbreviation mlm := (cstate mac_learning).

(** *** Memory and lists *)

Definition load_entry (p : nat) : mlm mac_entry := fun m =>
  match ml_heap m !! p with Some e => Ret (e, m) | None => Stuck DanglingPtr end.

Definition modify_entry (p : nat) (f : mac_entry -> mac_entry) : mlm unit := fun m =>
  match ml_heap m !! p with
  | Some e => Ret (tt, with_heap (<[p := f e]> (ml_heap m)) m)
  | None => Stuck DanglingPtr
  end.

(** xmalloc, which does not fail, and the first stores into the block. *)
Definition new_entry (e : mac_entry) : mlm nat := fun m =>
  Ret (ml_next m, MkMl (<[ml_next m := e]> (ml_heap m)) (S (ml_next m)) (ml_table m) (ml_lrus m)
                       (ml_secret m) (ml_flood_vlans m) (ml_idle_time m)).

Definition free_entry (p : nat) : mlm unit := fun m =>
  match ml_heap m !! p with
  | Some _ => Ret (tt, with_heap (delete p (ml_heap m)) m)
  | None => Stuck InvalidFree
  end.

Definition on_table (f : hmap -> outcome hmap) : mlm unit := fun m =>
  match f (ml_table m) with Ret t => Ret (tt, with_table t m) | Stuck e => Stuck e end.

(** list_remove of an entry's lru_node, and list_push_back. *)
Definition lru_remove (p : nat) : mlm unit := fun m =>
  Ret (tt, with_lrus (filter (fun q => q <> p) (ml_lrus m)) m).
Definition lru_push_back (p : nat) : mlm unit := fun m =>
  Ret (tt, with_lrus (ml_lrus m ++ [p]) m).

(** *** Helpers of the source *)

Definition mac_entry_is_new (e : mac_entry) : bool := me_tag e =? 0.

Definition mac_entry_age (m : mac_learning) (e : mac_entry) (now : Z) : Z :=
  s32 (ml_idle_time m - (me_expires e - now)).

Definition mac_entry_set_grat_arp_lock (p : nat) (now : Z) : mlm unit :=
  modify_entry p (set_lock (now + MAC_GRAT_ARP_LOCK_TIME)).

Definition mac_entry_is_grat_arp_locked (e : mac_entry) (now : Z) : bool := now <? me_grat_arp_lock e.

(** The 32 and the 16 bits of an address, read on a little-endian host. *)
Definition mac_table_hash (secret : Z) (mac : list Z) (vlan : Z) : Z :=
  let mac1 := le_word (take 4 mac) in
  let mac2 := le_word (take 2 (drop 4 mac)) in
  hash_3words mac1 (Z.lor mac2 (u32 (Z.shiftl vlan 16))) secret.

Definition make_unknown_mac_tag (m : mac_learning) (mac : list Z) (vlan : Z) : Z :=
  tag_create_deterministic (mac_table_hash (ml_secret m) mac vlan).

Definition eth_addr_is_multicast (mac : list Z) : bool := Z.odd (nth 0 mac 0).

(** The search loop over the nodes with the hash. *)
Fixpoint find_entry (mac : list Z) (vlan : Z) (nodes : list hmap_node) : mlm (option nat) :=
  match nodes with
  | [] => mret None
  | x :: nodes' =>
      e ← load_entry (node_ptr x);
      if (me_vlan e =? vlan) && bool_decide (me_mac e = mac) then mret (Some (node_ptr x))
      else find_entry mac vlan nodes'
  end.

Definition mac_entry_lookup (mac : list Z) (vlan : Z) : mlm (option nat) :=
  m ← get;
  nodes ← lift (for_each_with_hash (ml_table m) (mac_table_hash (ml_secret m) mac vlan));
  find_entry mac vlan nodes.

Definition get_lru : mlm (option nat) := gets (fun m => head (ml_lrus m)).

Definition normalize_idle_time (idle_time : Z) : Z :=
  if idle_time <? 15 then 15 else if 3600 <? idle_time then 3600 else idle_time.

(** *** The functions of the interface *)

Definition mac_learning_create (idle_time secret : Z) : mac_learning :=
  MkMl ∅ 0 hmap_init [] secret None (normalize_idle_time idle_time).

(** vlan_bitmap_equal. *)
Definition vlan_bitmap_equal (a b : option (list Z)) : bool := bool_decide (a = b).

(** vlan_bitmap_clone makes a copy, so the argument is stored. *)
Definition mac_learning_set_flood_vlans (bitmap : option (list Z)) : mlm bool := fun m =>
  if vlan_bitmap_equal (ml_flood_vlans m) bitmap then Ret (false, m)
  else Ret (true, MkMl (ml_heap m) (ml_next m) (ml_table m) (ml_lrus m) (ml_secret m) bitmap
                       (ml_idle_time m)).

Fixpoint shift_expires (ps : list nat) (delta : Z) : mlm unit :=
  match ps with
  | [] => mret tt
  | p :: ps' => _ ← modify_entry p (fun e => set_expires (me_expires e + delta) e); shift_expires ps' delta
  end.

Definition set_idle (t : Z) : mlm unit := fun m =>
  Ret (tt, MkMl (ml_heap m) (ml_next m) (ml_table m) (ml_lrus m) (ml_secret m) (ml_flood_vlans m) t).

Definition mac_learning_set_idle_time (idle_time : Z) : mlm unit :=
  let idle_time := normalize_idle_time idle_time in
  m ← get;
  if idle_time =? ml_idle_time m then mret tt
  else
    _ ← shift_expires (ml_lrus m) (idle_time - ml_idle_time m);
    set_idle idle_time.

Definition bitmap_is_set (b : list Z) (offset : Z) : outcome bool :=
  w ← of_option OutOfBounds (b !! Z.to_nat (offset / 64));
  Ret (Z.testbit w (offset `mod` 64)).

Definition is_learning_vlan (vlan : Z) : mlm bool :=
  m ← get;
  match ml_flood_vlans m with
  | None => mret true
  | Some b => s ← lift (bitmap_is_set b vlan); mret (negb s)
  end.

(** The table pointer is not null here. *)
Definition mac_learning_may_learn (src_mac : list Z) (vlan : Z) : mlm bool :=
  l ← is_learning_vlan vlan; mret (l && negb (eth_addr_is_multicast src_mac)).

Definition mac_learning_expire (p : nat) : mlm unit :=
  e ← load_entry p;
  _ ← on_table (fun t => hmap_remove t (MkNode (me_hash e) p));
  _ ← lru_remove p;
  free_entry p.

(** A full table gives up its least recently used entry. *)
Definition make_room : mlm unit :=
  m ← get;
  if MAC_MAX <=? hmap_count (ml_table m) then
    l ← get_lru;
    match l with Some q => mac_learning_expire q | None => fails NullDeref end
  else mret tt.

Definition insert_new (src_mac : list Z) (vlan : Z) : mlm nat :=
  m ← get;
  let hash := mac_table_hash (ml_secret m) src_mac vlan in
  _ ← make_room;
  p ← new_entry (MkMac hash 0 TIME_MIN src_mac vlan 0 0);
  _ ← on_table (fun t => hmap_insert t p hash);
  mret p.

Definition mac_learning_insert (src_mac : list Z) (vlan now : Z) : mlm nat :=
  e ← mac_entry_lookup src_mac vlan;
  p ← match e with
      | None => insert_new src_mac vlan
      | Some p => _ ← lru_remove p; mret p
      end;
  _ ← lru_push_back p;
  m ← get;
  _ ← modify_entry p (set_expires (now + ml_idle_time m));
  mret p.

(** [tag] is the new tag drawn by tag_create_random. *)
Definition mac_learning_changed (p : nat) (tag : Z) : mlm Z :=
  e ← load_entry p;
  _ ← modify_entry p (set_tag tag);
  m ← get;
  mret (if me_tag e =? 0 then make_unknown_mac_tag m (me_mac e) (me_vlan e) else me_tag e).

(** The entry, and what becomes of the caller's tags. *)
Definition mac_learning_lookup (dst : list Z) (vlan : Z) (tag : option Z) : mlm (option nat * option Z) :=
  if eth_addr_is_multicast dst then mret (None, tag)
  else
    l ← is_learning_vlan vlan;
    if negb l then mret (None, tag)
    else
      r ← mac_entry_lookup dst vlan;
      m ← get;
      match r with
      | None => mret (None, (fun t => Z.lor t (make_unknown_mac_tag m dst vlan)) <$> tag)
      | Some p =>
          e ← load_entry p;
          if me_tag e =? 0 then fails AssertFail
          else mret (Some p, (fun t => Z.lor t (me_tag e)) <$> tag)
      end.

(** The two loops; [all] is mac_learning_flush, which does not look at the time.  Every round
    takes an entry off the list, so its length is enough fuel. *)
Fixpoint expire_loop (fuel : nat) (all : bool) (now : Z) (tags : option tag_set)
  : mlm (option tag_set) :=
  match fuel with
  | O => mret tags
  | S f =>
      l ← get_lru;
      match l with
      | None => mret tags
      | Some p =>
          e ← load_entry p;
          if all || (me_expires e <=? now) then
            _ ← mac_learning_expire p;
            expire_loop f all now ((fun s => tag_set_add s (me_tag e)) <$> tags)
          else mret tags
      end
  end.

Definition mac_learning_flush (tags : option tag_set) : mlm (option tag_set) :=
  m ← get;
  tags ← expire_loop (length (ml_lrus m)) true 0 tags;
  _ ← on_table hmap_shrink;
  mret tags.

Definition mac_learning_run (now : Z) (tags : option tag_set) : mlm (option tag_set) :=
  m ← get;
  expire_loop (length (ml_lrus m)) false now tags.

(** The time poll_timer_wait_until is called with. *)
Definition mac_learning_wait : mlm (option Z) :=
  l ← get_lru;
  match l with
  | None => mret None
  | Some p => e ← load_entry p; mret (Some (s64 (me_expires e * 1000)))
  end.

(** HMAP_FOR_EACH_SAFE of mac_learning_destroy: the next node is found before the node is
    removed and freed. *)
Fixpoint destroy_entries (fuel : nat) (c : list hmap_node) : mlm unit :=
  match fuel, c with
  | S f, x :: next =>
      m ← get;
      c ← lift (hmap_next (ml_table m) x next);
      _ ← on_table (fun t => hmap_remove t x);
      _ ← free_entry (node_ptr x);
      destroy_entries f c
  | _, _ => mret tt
  end.

(** The table itself and its bitmap are freed at the end. *)
Definition mac_learning_destroy : mlm unit :=
  m ← get;
  c ← lift (hmap_first (ml_table m));
  destroy_entries (length (nodes (ml_table m))) c.

(** ** Representation

    The table as the list of its entries with their addresses, least recently used first. *)

Abbreviation entries := (list (nat * mac_entry)).

(** The proofs never look into the hash function. *)
#[local] Opaque mac_table_hash tag_create_deterministic.

Definition key (e : mac_entry) : list Z * Z := (me_mac e, me_vlan e).
Definition node_of (x : nat * mac_entry) : hmap_node := MkNode (me_hash x.2) x.1.
Definition key_hash (secret : Z) (k : list Z * Z) : Z := mac_table_hash secret k.1 k.2.

Record ml_rep (m : mac_learning) (L : entries) : Prop := {
  mr_lrus : ml_lrus m = L.*1;
  mr_heap : forall p e, ml_heap m !! p = Some e <-> (p, e) ∈ L;
  mr_table : hmap_rep (ml_table m) (node_of <$> L);
  mr_fresh : Forall (fun x => (x.1 < ml_next m)%nat) L;
  mr_keys : NoDup ((fun x => key x.2) <$> L);
  mr_hash : Forall (fun x => me_hash x.2 = key_hash (ml_secret m) (key x.2)) L;
  mr_size : (length L <= 2048)%nat
}.

(** The members no operation on entries changes. *)
Definition same_config (m m' : mac_learning) : Prop :=
  ml_secret m' = ml_secret m /\ ml_flood_vlans m' = ml_flood_vlans m /\ ml_idle_time m' = ml_idle_time m.

#[export] Instance same_config_preorder : PreOrder same_config.
Proof. split; [by repeat split|]. intros m1 m2 m3 (? & ? & ?) (? & ? & ?). unfold same_config. by split_and!; etrans. Qed.

Lemma rep_ptrs m L : ml_rep m L -> NoDup L.*1.
Proof.
  intros H. pose proof (hr_nodup _ _ (mr_table _ _ H)) as Hd. rewrite <- list_fmap_compose in Hd. exact Hd.
Qed.

Lemma rep_fun m L p e1 e2 : ml_rep m L -> (p, e1) ∈ L -> (p, e2) ∈ L -> e1 = e2.
Proof. intros H H1 H2. apply (mr_heap _ _ H) in H1, H2. congruence. Qed.

Lemma ml_rep_count m L : ml_rep m L -> hmap_count (ml_table m) = Z.of_nat (length L).
Proof. intros H. unfold hmap_count. rewrite (Hmap.rep_count _ _ (mr_table _ _ H)). by rewrite length_fmap. Qed.

(** *** The list operations *)

Definition take_out (p : nat) (L : entries) : entries := filter (fun x => x.1 <> p) L.

Definition update (p : nat) (f : mac_entry -> mac_entry) (L : entries) : entries :=
  (fun x => if decide (x.1 = p) then (x.1, f x.2) else x) <$> L.

Definition has_key (k : list Z * Z) (x : nat * mac_entry) : bool := bool_decide (key x.2 = k).

Definition find_key (k : list Z * Z) (L : entries) : option (nat * mac_entry) := find_first (has_key k) L.

Lemma find_key_Some m L k p e :
  ml_rep m L -> find_key k L = Some (p, e) <-> (p, e) ∈ L /\ key e = k.
Proof.
  intros Hr. unfold find_key. split.
  - intros H. apply find_first_Some in H as [Hk ?]. by apply bool_decide_eq_true in Hk.
  - intros [Hin Hk]. pose proof (mr_keys _ _ Hr) as Hd. clear Hr.
    induction L as [|[q d] L IH]; [by apply not_elem_of_nil in Hin|]. cbn [find_first]. unfold has_key at 1.
    cbn in Hd. apply NoDup_cons in Hd as [Hn Hd].
    apply elem_of_cons in Hin as [[= <- <-]|Hin]; [by rewrite bool_decide_true|].
    rewrite bool_decide_false; [by apply IH|]. cbn. intros Hq. apply Hn. rewrite Hq, <- Hk.
    by apply (list_elem_of_fmap_2 (fun x => key x.2) L (p, e)).
Qed.

Lemma find_key_None L k : find_key k L = None <-> forall p e, (p, e) ∈ L -> key e <> k.
Proof.
  unfold find_key. rewrite find_first_None. split.
  - intros H p e Hin. specialize (H _ Hin). by apply bool_decide_eq_false in H.
  - intros H [p e] Hin. apply bool_decide_eq_false. by eapply H.
Qed.

Lemma take_out_elem p q e L : (q, e) ∈ take_out p L <-> q <> p /\ (q, e) ∈ L.
Proof. unfold take_out. by rewrite list_elem_of_filter. Qed.

Lemma update_elem p f q e L :
  (q, e) ∈ update p f L <-> exists d, (q, d) ∈ L /\ e = if decide (q = p) then f d else d.
Proof.
  unfold update. rewrite list_elem_of_fmap. split.
  - intros ([r d] & E & Hin). exists d. cbn in E. case_decide; simplify_eq/=; by (split; [|case_decide]).
  - intros (d & Hin & ->). exists (q, d). split; [|done]. cbn. by case_decide.
Qed.

(** An update that leaves the key and the hash alone changes no projection of these. *)
Definition keeps (f : mac_entry -> mac_entry) : Prop :=
  forall e, key (f e) = key e /\ me_hash (f e) = me_hash e.

Lemma keeps_expires t : keeps (set_expires t). Proof. done. Qed.
Lemma keeps_lock t : keeps (set_lock t). Proof. done. Qed.
Lemma keeps_tag t : keeps (set_tag t). Proof. done. Qed.
Lemma keeps_port t : keeps (set_port t). Proof. done. Qed.
Lemma keeps_add d : keeps (fun e => set_expires (me_expires e + d) e). Proof. done. Qed.

Lemma update_proj {A} (g : nat * mac_entry -> A) p f L :
  (forall q e, g (q, f e) = g (q, e)) -> g <$> update p f L = g <$> L.
Proof.
  intros H. unfold update. rewrite <- list_fmap_compose. apply list_fmap_ext.
  intros i [q e] _. cbn. case_decide; [apply H|done].
Qed.

(** *** Reading and writing entries *)

Lemma load_entry_ok m L p e : ml_rep m L -> (p, e) ∈ L -> load_entry p m = Ret (e, m).
Proof. intros H Hin. unfold load_entry. apply (mr_heap _ _ H) in Hin. by rewrite Hin. Qed.

Lemma modify_entry_ok m L p e f :
  ml_rep m L -> (p, e) ∈ L -> keeps f ->
  exists m', modify_entry p f m = Ret (tt, m') /\ ml_rep m' (update p f L) /\ same_config m m'
             /\ ml_lrus m' = ml_lrus m.
Proof.
  intros Hr Hin Hk. pose proof Hin as Hin'. apply (mr_heap _ _ Hr) in Hin. unfold modify_entry. rewrite Hin.
  eexists. split; [done|]. split; [|by repeat split].
  destruct Hr as [H1 H2 H3 H4 H5 H6 H7]. split; cbn [with_heap ml_lrus ml_heap ml_table ml_next ml_secret].
  - by rewrite update_proj.
  - intros q d. rewrite update_elem. destruct (decide (q = p)) as [->|Hq].
    + rewrite lookup_insert_eq. split.
      * intros [= <-]. by exists e.
      * intros (d' & Hd & ->). apply H2 in Hd. rewrite Hin in Hd. by simplify_eq.
    + rewrite lookup_insert_ne by done. rewrite H2. split; [by eexists|by intros (? & ? & ->)].
  - rewrite update_proj; [done|]. intros q d. unfold node_of. cbn. by destruct (Hk d) as [_ ->].
  - unfold update. apply Forall_fmap. eapply Forall_impl; [exact H4|]. intros [q d]. cbn. by case_decide.
  - rewrite (update_proj (fun x => key x.2)); [done|]. intros q d. cbn. by destruct (Hk d).
  - unfold update. apply Forall_fmap. eapply Forall_impl; [exact H6|]. intros [q d]. unfold compose. cbn [fst snd].
    case_decide; cbn [fst snd]; [|done]. destruct (Hk d) as [E1 E2]. by rewrite E1, E2.
  - unfold update. by rewrite length_fmap.
Qed.

Lemma get_lru_ok m L : ml_rep m L -> get_lru m = Ret (fst <$> head L, m).
Proof. intros H. unfold get_lru, gets. rewrite (mr_lrus _ _ H). by destruct L. Qed.

(** *** Search *)

Lemma find_entry_ok m L k ns :
  ml_rep m L -> (forall x, x ∈ ns -> exists e, (node_ptr x, e) ∈ L) ->
  exists r, find_entry k.1 k.2 ns m = Ret (r, m)
    /\ match r with
       | Some p => exists e, (p, e) ∈ L /\ key e = k
       | None => forall x e, x ∈ ns -> (node_ptr x, e) ∈ L -> key e <> k
       end.
Proof.
  intros Hr. induction ns as [|x ns IH]; intros Hns; cbn [find_entry].
  { exists None. split; [done|]. intros x e Hx. by apply not_elem_of_nil in Hx. }
  destruct (Hns x ltac:(by left)) as (e & He).
  rewrite (cstate_bind_step _ _ _ _ _ (load_entry_ok _ _ _ _ Hr He)).
  destruct ((me_vlan e =? k.2) && bool_decide (me_mac e = k.1)) eqn:Ek.
  - exists (Some (node_ptr x)). split; [done|]. exists e. split; [done|].
    apply andb_true_iff in Ek as [E1 E2]. apply Z.eqb_eq in E1. apply bool_decide_eq_true in E2.
    unfold key. rewrite E1, E2. by destruct k.
  - destruct IH as (r & E & H); [intros y Hy; apply Hns; by right|]. exists r. split; [done|].
    destruct r; [done|]. intros y d Hy Hd. apply elem_of_cons in Hy as [->|Hy]; [|by eapply H].
    rewrite (rep_fun _ _ _ _ _ Hr Hd He). intros <-. cbn in Ek.
    by rewrite Z.eqb_refl, bool_decide_true in Ek.
Qed.

Lemma mac_entry_lookup_ok m L k :
  ml_rep m L -> mac_entry_lookup k.1 k.2 m = Ret (fst <$> find_key k L, m).
Proof.
  intros Hr. unfold mac_entry_lookup, get. unfold mbind at 1, cstate_bind at 1.
  destruct (for_each_with_hash_ok _ _ (mac_table_hash (ml_secret m) k.1 k.2) (mr_table _ _ Hr)) as (ns & E & Hns).
  rewrite E. unfold lift, mbind, cstate_bind.
  assert (forall x, x ∈ ns <-> node_hash x = key_hash (ml_secret m) k /\ exists e, x = node_of (node_ptr x, e) /\ (node_ptr x, e) ∈ L) as Hin.
  { intros x. rewrite Hns, list_elem_of_filter, list_elem_of_fmap. split.
    - intros (Hh & [p e] & -> & Hin). split; [done|]. by exists e.
    - intros (Hh & e & Ex & Hin). split; [done|]. by exists (node_ptr x, e). }
  destruct (find_entry_ok m L k ns Hr) as (r & -> & H).
  { intros x Hx. apply Hin in Hx as (_ & e & _ & ?). by exists e. }
  do 2 f_equal. destruct r as [p|].
  - destruct H as (e & He & Hk). assert (find_key k L = Some (p, e)) as -> by (by apply (find_key_Some m)). done.
  - assert (find_key k L = None) as ->; [|done]. apply find_key_None. intros p e He Hk.
    apply (H (node_of (p, e)) e); [|done..]. apply Hin. cbn. split; [|by exists e].
    pose proof (mr_hash _ _ Hr) as Hh. rewrite Forall_forall in Hh. rewrite <- Hk. apply (Hh (p, e) He).
Qed.

(** *** Taking entries out and putting them at the end *)

Lemma take_out_perm L p e : NoDup L.*1 -> (p, e) ∈ L -> L ≡ₚ (p, e) :: take_out p L.
Proof.
  intros Hd Hin. apply list_elem_of_split in Hin as (l1 & l2 & ->). rewrite fmap_app in Hd. cbn in Hd.
  apply NoDup_app in Hd as (_ & Hd & Hd2). apply NoDup_cons in Hd2 as [Hd2 _].
  unfold take_out. rewrite filter_app, filter_cons, decide_False by (cbn; tauto).
  assert (forall l, p ∉ l.*1 -> filter (fun x : nat * mac_entry => x.1 <> p) l = l) as Hf.
  { intros l Hl. apply filter_all, Forall_forall. intros [q d] Hq Eq. apply Hl. cbn in Eq. subst q.
    by apply (list_elem_of_fmap_2 fst l (p, d)). }
  rewrite !Hf; [by rewrite <- Permutation_middle|done|]. intros Hp. apply (Hd p Hp). by left.
Qed.

Lemma take_out_fst p L : (take_out p L).*1 = filter (fun q => q <> p) L.*1.
Proof.
  unfold take_out. induction L as [|[q d] L IH]; [done|]. rewrite filter_cons. cbn [fmap list_fmap].
  rewrite filter_cons. cbn [fst]. case_decide; cbn [fmap list_fmap]; by rewrite <- IH.
Qed.

Lemma update_snoc p f e L : p ∉ L.*1 -> update p f (L ++ [(p, e)]) = L ++ [(p, f e)].
Proof.
  intros Hp. unfold update. rewrite fmap_app. cbn. rewrite decide_True by done. f_equal.
  rewrite <- (list_fmap_id L) at 2. apply list_fmap_ext. intros i [q d] Hi. cbn.
  rewrite decide_False; [done|]. intros ->. apply Hp.
  by apply (list_elem_of_fmap_2 fst L (p, d)), (list_elem_of_lookup_2 _ _ _ Hi).
Qed.

(** What holds of a table but for the order of use. *)
Lemma rep_reorder m m' L L' :
  ml_rep m L -> L ≡ₚ L' -> ml_lrus m' = L'.*1 -> ml_heap m' = ml_heap m -> ml_table m' = ml_table m ->
  ml_next m' = ml_next m -> ml_secret m' = ml_secret m -> ml_rep m' L'.
Proof.
  intros [H1 H2 H3 H4 H5 H6 H7] E E1 E2 E3 E4 E5. split; rewrite ?E1, ?E2, ?E3, ?E4, ?E5; try done.
  - intros p e. rewrite H2. by rewrite E.
  - by rewrite <- E.
  - by rewrite <- E.
  - by rewrite <- E.
  - by rewrite <- E.
  - by rewrite <- E.
Qed.

(** The entry at [p] leaves the table and is freed. *)
Lemma mac_learning_expire_ok m L p e :
  ml_rep m L -> (p, e) ∈ L ->
  exists m', mac_learning_expire p m = Ret (tt, m') /\ ml_rep m' (take_out p L) /\ same_config m m'
             /\ ml_next m' = ml_next m.
Proof.
  intros Hr Hin. unfold mac_learning_expire.
  rewrite (cstate_bind_step _ _ _ _ _ (load_entry_ok _ _ _ _ Hr Hin)).
  pose proof (take_out_perm L p e (rep_ptrs _ _ Hr) Hin) as Ep.
  pose proof (mr_table _ _ Hr) as Ht. rewrite Ep in Ht. cbn [fmap list_fmap] in Ht. change (list_fmap _ _ node_of) with (fmap (M:=list) node_of) in Ht.
  pose proof (mr_size _ _ Hr). pose proof (Hmap.rep_count _ _ (mr_table _ _ Hr)) as Hc. rewrite length_fmap in Hc.
  destruct (hmap_remove_ok _ _ (node_of (p, e)) Ht ltac:(lia)) as (t & E & Ht' & _ & _).
  change (MkNode (me_hash e) p) with (node_of (p, e)).
  assert (on_table (fun t => hmap_remove t (node_of (p, e))) m = Ret (tt, with_table t m)) as E1
    by (unfold on_table; by rewrite E).
  rewrite (cstate_bind_step _ _ _ _ _ E1). unfold mbind, cstate_bind, lru_remove, free_entry.
  cbn [with_lrus with_table ml_heap]. rewrite (proj2 (mr_heap _ _ Hr p e) Hin).
  eexists. split; [done|]. split; [|by repeat split].
  assert (forall P, Forall P L -> Forall P (take_out p L)) as Hsub
    by (intros P; rewrite !Forall_forall; intros HP x Hx; apply HP; by apply list_elem_of_filter in Hx as []).
  destruct Hr as [H1 H2 H3 H4 H5 H6 H7]. split; cbn [with_heap with_lrus with_table ml_lrus ml_heap ml_table ml_next ml_secret].
  - by rewrite H1, take_out_fst.
  - intros q d. rewrite take_out_elem, <- H2, lookup_delete_Some. naive_solver.
  - done.
  - by apply Hsub.
  - rewrite Ep in H5. cbn in H5. by apply NoDup_cons in H5 as [].
  - by apply Hsub.
  - etrans; [apply length_filter|done].
Qed.

(** The state after list_push_back. *)
Definition pushed (m : mac_learning) (p : nat) : mac_learning := with_lrus (ml_lrus m ++ [p]) m.

(** The entry at [p] becomes the most recently used. *)
Lemma move_to_back_ok m L p e :
  ml_rep m L -> (p, e) ∈ L ->
  exists m', lru_remove p m = Ret (tt, m') /\ ml_rep (pushed m' p) (take_out p L ++ [(p, e)]) /\ same_config m m'.
Proof.
  intros Hr Hin. eexists. split; [done|]. split; [|by repeat split].
  eapply rep_reorder; [exact Hr| |..]; try done.
  - etrans; [by apply take_out_perm; [eapply rep_ptrs|]|]. by rewrite Permutation_app_comm.
  - cbn [pushed with_lrus ml_lrus]. by rewrite (mr_lrus _ _ Hr), fmap_app, take_out_fst.
Qed.

(** A new entry, in the heap, the table and the list. *)
Lemma add_entry_ok m L e :
  ml_rep m L -> (length L < 2048)%nat -> find_key (key e) L = None ->
  me_hash e = key_hash (ml_secret m) (key e) ->
  exists m', (p ← new_entry e; _ ← on_table (fun t => hmap_insert t p (me_hash e)); mret p) m
             = Ret (ml_next m, m')
    /\ ml_rep (pushed m' (ml_next m)) (L ++ [(ml_next m, e)]) /\ same_config m m'.
Proof.
  intros Hr Hlt Hk Hh. assert (ml_next m ∉ L.*1) as Hp.
  { intros Hp. apply list_elem_of_fmap in Hp as ([q d] & Eq & Hq). pose proof (mr_fresh _ _ Hr) as Hf.
    rewrite Forall_forall in Hf. specialize (Hf _ Hq). cbn in *. lia. }
  unfold new_entry, on_table, mbind, cstate_bind, mret, cstate_ret. cbn [ml_table].
  pose proof (Hmap.rep_count _ _ (mr_table _ _ Hr)) as Hc. rewrite length_fmap in Hc.
  destruct (hmap_insert_ok _ _ (ml_next m) (me_hash e) (mr_table _ _ Hr)) as (t & E & Ht & _ & _).
  { rewrite <- list_fmap_compose. exact Hp. }
  { lia. }
  rewrite E. eexists. split; [done|]. split; [|by repeat split].
  destruct Hr as [H1 H2 H3 H4 H5 H6 H7].
  split; cbn [pushed with_lrus with_table ml_lrus ml_heap ml_table ml_next ml_secret].
  - by rewrite H1, fmap_app.
  - intros q d. rewrite elem_of_app, list_elem_of_singleton. destruct (decide (q = ml_next m)) as [->|Hq].
    + rewrite lookup_insert_eq. split; [intros [= <-]; by right|].
      intros [Hin|[= ->]]; [|done]. exfalso. apply Hp. by apply (list_elem_of_fmap_2 fst L (ml_next m, d)).
    + rewrite lookup_insert_ne by done. rewrite H2. split; [by left|]. intros [?|[= ? ?]]; [done|congruence].
  - rewrite fmap_app. cbn. rewrite Permutation_app_comm. exact Ht.
  - apply Forall_app. split; [|by repeat constructor; cbn; lia].
    eapply Forall_impl; [exact H4|]. intros x Hx. cbn in *. lia.
  - rewrite fmap_app. cbn. apply NoDup_app. split; [done|]. split; [|apply NoDup_singleton].
    intros k' Hk' Hs. apply list_elem_of_singleton in Hs as ->.
    apply list_elem_of_fmap in Hk' as ([q d] & Ek & Hq). cbn in Ek.
    rewrite find_key_None in Hk. by apply (Hk q d Hq).
  - apply Forall_app. by split; [|repeat constructor].
  - rewrite length_app. cbn. lia.
Qed.

(** *** mac_learning_insert *)

Definition fresh_entry (secret : Z) (k : list Z * Z) (t : Z) : mac_entry :=
  MkMac (key_hash secret k) t TIME_MIN k.1 k.2 0 0.

(** The address the entry gets, and the list afterwards. *)
Definition a_insert (secret idle : Z) (next : nat) (k : list Z * Z) (now : Z) (L : entries) : nat * entries :=
  match find_key k L with
  | Some (p, e) => (p, take_out p L ++ [(p, set_expires (now + idle) e)])
  | None =>
      let L := if (2048 <=? length L)%nat then tail L else L in
      (next, L ++ [(next, fresh_entry secret k (now + idle))])
  end.

Lemma take_out_head p e (L : entries) : NoDup ((p, e) :: L).*1 -> take_out p ((p, e) :: L) = L.
Proof.
  intros Hd. cbn in Hd. apply NoDup_cons in Hd as [Hp _]. unfold take_out. rewrite filter_cons, decide_False by (cbn; tauto).
  apply filter_all, Forall_forall. intros [q d] Hq Eq. apply Hp. cbn in Eq. subst q.
  by apply (list_elem_of_fmap_2 fst L (p, d)).
Qed.

Lemma take_out_notin p L : p ∉ (take_out p L).*1.
Proof. rewrite take_out_fst, list_elem_of_filter. tauto. Qed.

Lemma find_key_tail k (L : entries) : find_key k L = None -> find_key k (tail L) = None.
Proof. rewrite !find_key_None. intros H p e Hin. apply (H p). destruct L; [done|by right]. Qed.

Lemma make_room_ok m L :
  ml_rep m L ->
  exists m', make_room m = Ret (tt, m')
    /\ ml_rep m' (if (2048 <=? length L)%nat then tail L else L) /\ same_config m m' /\ ml_next m' = ml_next m.
Proof.
  intros Hr. unfold make_room. rewrite (cstate_bind_step get _ m m m eq_refl).
  rewrite (ml_rep_count m L Hr). unfold MAC_MAX.
  destruct (Z.leb_spec 2048 (Z.of_nat (length L))), (Nat.leb_spec 2048 (length L)); try lia.
  - rewrite (cstate_bind_step _ _ _ _ _ (get_lru_ok m L Hr)). destruct L as [|[p e] L]; [cbn in *; lia|].
    cbn [head fmap option_fmap option_map fst tail].
    destruct (mac_learning_expire_ok m _ p e Hr ltac:(by left)) as (m' & E & Hr' & Hc & Hn).
    rewrite take_out_head in Hr' by (by eapply rep_ptrs). by exists m'.
  - by exists m.
Qed.

Lemma insert_new_ok m L k :
  ml_rep m L -> find_key k L = None ->
  let L1 := if (2048 <=? length L)%nat then tail L else L in
  exists m', insert_new k.1 k.2 m = Ret (ml_next m, m')
    /\ ml_rep (pushed m' (ml_next m)) (L1 ++ [(ml_next m, fresh_entry (ml_secret m) k 0)])
    /\ same_config m m' /\ ml_next m ∉ L1.*1.
Proof.
  intros Hr Hk L1. unfold insert_new. rewrite (cstate_bind_step get _ m m m eq_refl).
  destruct (make_room_ok m L Hr) as (m1 & E1 & Hr1 & Hc1 & Hn1). fold L1 in Hr1.
  rewrite (cstate_bind_step _ _ _ _ _ E1).
  assert (length L1 < 2048)%nat as Hlen.
  { unfold L1. pose proof (mr_size _ _ Hr). destruct (Nat.leb_spec 2048 (length L)); [|done].
    destruct L; cbn in *; lia. }
  assert (find_key k L1 = None) as Hk1 by (unfold L1; destruct (2048 <=? length L)%nat; [by apply find_key_tail|done]).
  set (e := fresh_entry (ml_secret m) k 0). assert (key e = k) as Hke by (by destruct k).
  destruct (add_entry_ok m1 L1 e Hr1 Hlen) as (m2 & E2 & Hr2 & Hc2);
    [by rewrite Hke|rewrite Hke; by destruct Hc1 as (-> & _)|].
  rewrite Hn1 in *. exists m2. split; [exact E2|]. split; [exact Hr2|]. split; [by etrans|].
  pose proof (rep_ptrs _ _ Hr2) as Hd. rewrite fmap_app in Hd. apply NoDup_app in Hd as (_ & Hd & _).
  intros Hx. apply (Hd _ Hx). by left.
Qed.

Lemma mac_learning_insert_ok m L k now :
  ml_rep m L ->
  let r := a_insert (ml_secret m) (ml_idle_time m) (ml_next m) k now L in
  exists m', mac_learning_insert k.1 k.2 now m = Ret (r.1, m') /\ ml_rep m' r.2 /\ same_config m m'.
Proof.
  intros Hr. unfold mac_learning_insert. rewrite (cstate_bind_step _ _ _ _ _ (mac_entry_lookup_ok m L k Hr)).
  (* the end of the function, once the entry is at the back of the list *)
  assert (forall p e L' m1 (c : mlm nat),
    c m = Ret (p, m1) -> ml_rep (pushed m1 p) (L' ++ [(p, e)]) -> p ∉ L'.*1 -> same_config m m1 ->
    exists m', (p ← c; _ ← lru_push_back p; m ← get; _ ← modify_entry p (set_expires (now + ml_idle_time m)); mret p) m
               = Ret (p, m') /\ ml_rep m' (L' ++ [(p, set_expires (now + ml_idle_time m) e)]) /\ same_config m m') as Hend.
  { intros p e L' m1 c E Hr1 Hp Hc. rewrite (cstate_bind_step _ _ _ _ _ E).
    rewrite (cstate_bind_step (lru_push_back p) _ m1 tt (pushed m1 p) eq_refl).
    rewrite (cstate_bind_step get _ (pushed m1 p) _ _ eq_refl).
    destruct (modify_entry_ok (pushed m1 p) _ p e (set_expires (now + ml_idle_time m)) Hr1
                ltac:(apply elem_of_app; right; by left) (keeps_expires _)) as (m2 & E2 & Hr2 & Hc2 & _).
    rewrite update_snoc in Hr2 by done. exists m2. split; [|split; [done|etrans; [exact Hc|exact Hc2]]].
    change (ml_idle_time (pushed m1 p)) with (ml_idle_time m1). destruct Hc as (_ & _ & ->).
    by rewrite (cstate_bind_step _ _ _ _ _ E2). }
  unfold a_insert. destruct (find_key k L) as [[p e]|] eqn:Ek; cbn [fmap option_fmap option_map fst snd].
  - apply (find_key_Some m L k p e Hr) in Ek as [Hin Hk].
    destruct (move_to_back_ok m L p e Hr Hin) as (m1 & E1 & Hr1 & Hc1).
    apply (Hend p e _ m1); [by rewrite (cstate_bind_step _ _ _ _ _ E1)|done|apply take_out_notin|done].
  - destruct (insert_new_ok m L k Hr Ek) as (m1 & E1 & Hr1 & Hc1 & Hp).
    by apply (Hend (ml_next m) (fresh_entry (ml_secret m) k 0) _ m1).
Qed.

(** *** The other functions *)

Lemma mac_learning_changed_ok m L p e tag :
  ml_rep m L -> (p, e) ∈ L ->
  exists m', mac_learning_changed p tag m
             = Ret (if me_tag e =? 0 then make_unknown_mac_tag m (me_mac e) (me_vlan e) else me_tag e, m')
    /\ ml_rep m' (update p (set_tag tag) L) /\ same_config m m'.
Proof.
  intros Hr Hin. unfold mac_learning_changed. rewrite (cstate_bind_step _ _ _ _ _ (load_entry_ok _ _ _ _ Hr Hin)).
  destruct (modify_entry_ok m L p e (set_tag tag) Hr Hin (keeps_tag _)) as (m' & E & Hr' & Hc & _).
  rewrite (cstate_bind_step _ _ _ _ _ E). exists m'. split; [|done]. unfold get, mbind, cstate_bind, mret, cstate_ret.
  unfold make_unknown_mac_tag. by destruct Hc as (-> & _).
Qed.

(** Whether a VLAN is learned on, when its bit is within the bitmap. *)
Definition learning_vlan (m : mac_learning) (vlan : Z) : option bool :=
  match ml_flood_vlans m with
  | None => Some true
  | Some b => match bitmap_is_set b vlan with Ret s => Some (negb s) | Stuck _ => None end
  end.

Lemma is_learning_vlan_ok m vlan b : learning_vlan m vlan = Some b -> is_learning_vlan vlan m = Ret (b, m).
Proof.
  unfold learning_vlan, is_learning_vlan, get, mbind, cstate_bind, lift, mret, cstate_ret.
  destruct (ml_flood_vlans m); [|congruence]. destruct (bitmap_is_set l vlan); congruence.
Qed.

(** What a lookup of key [k] finds and tags. *)
Definition a_lookup (secret : Z) (k : list Z * Z) (L : entries) : option nat * Z :=
  match find_key k L with
  | Some (p, e) => (Some p, me_tag e)
  | None => (None, tag_create_deterministic (key_hash secret k))
  end.

Lemma mac_learning_lookup_ok m L k tag :
  ml_rep m L -> eth_addr_is_multicast k.1 = false -> learning_vlan m k.2 = Some true ->
  Forall (fun x => me_tag x.2 <> 0) L ->
  let r := a_lookup (ml_secret m) k L in
  mac_learning_lookup k.1 k.2 tag m = Ret ((r.1, (fun t => Z.lor t r.2) <$> tag), m).
Proof.
  intros Hr Hm Hl Ht r. subst r. unfold mac_learning_lookup. rewrite Hm.
  rewrite (cstate_bind_step _ _ _ _ _ (is_learning_vlan_ok _ _ _ Hl)). cbn [negb].
  rewrite (cstate_bind_step _ _ _ _ _ (mac_entry_lookup_ok m L k Hr)).
  unfold get. unfold mbind at 1, cstate_bind at 1. unfold a_lookup.
  destruct (find_key k L) as [[p e]|] eqn:Ek; cbn [fmap option_fmap option_map fst snd]; [|done].
  apply (find_key_Some m L k p e Hr) in Ek as [Hin _].
  rewrite (cstate_bind_step _ _ _ _ _ (load_entry_ok _ _ _ _ Hr Hin)).
  rewrite Forall_forall in Ht. specialize (Ht _ Hin). cbn in Ht.
  destruct (Z.eqb_spec (me_tag e) 0); [done|]. done.
Qed.

(** The entries at the front that are [due], and the rest. *)
Fixpoint a_expire (due : mac_entry -> bool) (L : entries) : entries * entries :=
  match L with
  | [] => ([], [])
  | x :: L' => if due x.2 then let '(r, k) := a_expire due L' in (x :: r, k) else ([], L)
  end.

Definition is_due (all : bool) (now : Z) (e : mac_entry) : bool := all || (me_expires e <=? now).

Definition add_tags (r : entries) (tags : option tag_set) : option tag_set :=
  (fun s => fold_left tag_set_add ((fun x => me_tag x.2) <$> r) s) <$> tags.

Lemma expire_loop_ok all now : forall fuel m L tags,
  ml_rep m L -> (length L <= fuel)%nat ->
  let r := a_expire (is_due all now) L in
  exists m', expire_loop fuel all now tags m = Ret (add_tags r.1 tags, m')
    /\ ml_rep m' r.2 /\ same_config m m'.
Proof.
  induction fuel as [|f IH]; intros m L tags Hr Hf.
  { destruct L; [|cbn in Hf; lia]. exists m. by destruct tags. }
  cbn [expire_loop]. rewrite (cstate_bind_step _ _ _ _ _ (get_lru_ok m L Hr)).
  destruct L as [|[p e] L]; cbn [head fmap option_fmap option_map fst a_expire snd]; [exists m; by destruct tags|].
  rewrite (cstate_bind_step _ _ _ _ _ (load_entry_ok _ _ _ _ Hr ltac:(by left))).
  fold (is_due all now e). destruct (is_due all now e); [|exists m; by destruct tags].
  destruct (mac_learning_expire_ok m _ p e Hr ltac:(by left)) as (m1 & E1 & Hr1 & Hc1 & _).
  rewrite take_out_head in Hr1 by (by eapply rep_ptrs). rewrite (cstate_bind_step _ _ _ _ _ E1).
  destruct (IH m1 L ((fun s => tag_set_add s (me_tag e)) <$> tags) Hr1 ltac:(cbn in Hf; lia)) as (m2 & E2 & Hr2 & Hc2).
  rewrite E2. destruct (a_expire (is_due all now) L) as [r k]. exists m2. split; [|split; [done|by etrans]].
  by destruct tags.
Qed.

Lemma rep_shrink m L :
  ml_rep m L -> exists m', on_table hmap_shrink m = Ret (tt, m') /\ ml_rep m' L /\ same_config m m'.
Proof.
  intros Hr. pose proof (mr_size _ _ Hr). pose proof (Hmap.rep_count _ _ (mr_table _ _ Hr)) as Hc.
  rewrite length_fmap in Hc. unfold on_table, hmap_shrink.
  destruct (resize_if_ok _ _ (hn (ml_table m)) (calc_mask (hn (ml_table m)) <? mask (ml_table m)) (mr_table _ _ Hr))
    as (t & -> & Ht & _ & _); [lia|lia|].
  eexists. split; [done|]. split; [|by repeat split]. by destruct Hr; split.
Qed.

Lemma mac_learning_run_ok m L now tags :
  ml_rep m L ->
  let r := a_expire (is_due false now) L in
  exists m', mac_learning_run now tags m = Ret (add_tags r.1 tags, m') /\ ml_rep m' r.2 /\ same_config m m'.
Proof.
  intros Hr. unfold mac_learning_run. rewrite (cstate_bind_step get _ m _ _ eq_refl).
  apply expire_loop_ok; [done|]. by rewrite (mr_lrus _ _ Hr), length_fmap.
Qed.

Lemma a_expire_all L : a_expire (is_due true 0) L = (L, []).
Proof. induction L as [|x L IH]; [done|]. cbn [a_expire]. by rewrite IH. Qed.

Lemma mac_learning_flush_ok m L tags :
  ml_rep m L ->
  exists m', mac_learning_flush tags m = Ret (add_tags L tags, m') /\ ml_rep m' [] /\ same_config m m'.
Proof.
  intros Hr. unfold mac_learning_flush. rewrite (cstate_bind_step get _ m _ _ eq_refl).
  destruct (expire_loop_ok true 0 (length (ml_lrus m)) m L tags Hr) as (m1 & E1 & Hr1 & Hc1).
  { by rewrite (mr_lrus _ _ Hr), length_fmap. }
  rewrite a_expire_all in *. rewrite (cstate_bind_step _ _ _ _ _ E1).
  destruct (rep_shrink m1 [] Hr1) as (m2 & E2 & Hr2 & Hc2). rewrite (cstate_bind_step _ _ _ _ _ E2).
  exists m2. split; [done|]. split; [done|by etrans].
Qed.

(** *** Aging time *)

Definition shifted (d : Z) (L : entries) : entries :=
  (fun x => (x.1, set_expires (me_expires x.2 + d) x.2)) <$> L.

Lemma shift_expires_ok d ps : forall m L,
  ml_rep m L -> NoDup ps -> (forall p, p ∈ ps -> p ∈ L.*1) ->
  exists m', shift_expires ps d m = Ret (tt, m')
    /\ ml_rep m' ((fun x => if decide (x.1 ∈ ps) then (x.1, set_expires (me_expires x.2 + d) x.2) else x) <$> L)
    /\ same_config m m'.
Proof.
  induction ps as [|p ps IH]; intros m L Hr Hd Hps; cbn [shift_expires].
  { exists m. split; [done|]. split; [|done]. rewrite (list_fmap_ext _ id), list_fmap_id; [done|].
    intros i x _. rewrite decide_False; [done|]. apply not_elem_of_nil. }
  apply NoDup_cons in Hd as [Hp Hd]. specialize (Hps p (list_elem_of_here _ _)) as Hin.
  apply list_elem_of_fmap in Hin as ([q e] & Eq & Hin). cbn in Eq. subst q.
  destruct (modify_entry_ok m L p e (fun e => set_expires (me_expires e + d) e) Hr Hin (keeps_add d))
    as (m1 & E1 & Hr1 & Hc1 & _).
  rewrite (cstate_bind_step _ _ _ _ _ E1).
  destruct (IH m1 _ Hr1 Hd) as (m2 & E2 & Hr2 & Hc2).
  { intros q Hq. rewrite (update_proj fst); [|done]. apply Hps. by right. }
  exists m2. split; [exact E2|]. split; [|by etrans]. unfold update in Hr2. rewrite <- list_fmap_compose in Hr2.
  rewrite (list_fmap_ext _ ((fun x => if decide (x.1 ∈ ps) then (x.1, set_expires (me_expires x.2 + d) x.2) else x)
    ∘ (fun x => if decide (x.1 = p) then (x.1, set_expires (me_expires x.2 + d) x.2) else x))); [exact Hr2|].
  intros i [q x] _. cbn. destruct (decide (q = p)) as [->|Hq]; cbn.
  - rewrite decide_True by (by left). by rewrite decide_False.
  - destruct (decide (q ∈ ps)); [rewrite decide_True by (by right); done|].
    rewrite decide_False; [done|]. by intros [?|?]%elem_of_cons.
Qed.


Lemma mac_learning_set_idle_time_ok m L t :
  ml_rep m L ->
  exists m', mac_learning_set_idle_time t m = Ret (tt, m')
    /\ ml_rep m' (shifted (normalize_idle_time t - ml_idle_time m) L)
    /\ ml_secret m' = ml_secret m /\ ml_flood_vlans m' = ml_flood_vlans m
    /\ ml_idle_time m' = normalize_idle_time t.
Proof.
  intros Hr. unfold mac_learning_set_idle_time. rewrite (cstate_bind_step get _ m _ _ eq_refl).
  destruct (Z.eqb_spec (normalize_idle_time t) (ml_idle_time m)) as [->|Hne].
  - exists m. split; [done|]. split; [|done]. unfold shifted. rewrite (list_fmap_ext _ id), list_fmap_id; [done|].
    intros i [p e] _. cbn. f_equal. destruct e. unfold set_expires. cbn. f_equal. lia.
  - destruct (shift_expires_ok (normalize_idle_time t - ml_idle_time m) (ml_lrus m) m L Hr) as (m1 & E1 & Hr1 & Hs & Hf & _).
    + rewrite (mr_lrus _ _ Hr). by eapply rep_ptrs.
    + by rewrite (mr_lrus _ _ Hr).
    + rewrite (cstate_bind_step _ _ _ _ _ E1). eexists. split; [done|]. split; [|done].
      assert (shifted (normalize_idle_time t - ml_idle_time m) L
              = (fun x => if decide (x.1 ∈ ml_lrus m) then (x.1, set_expires (me_expires x.2 + (normalize_idle_time t - ml_idle_time m)) x.2) else x) <$> L) as ->.
      { apply list_fmap_ext. intros i x Hx. rewrite decide_True; [done|]. rewrite (mr_lrus _ _ Hr).
        apply list_elem_of_fmap_2. by eapply list_elem_of_lookup_2. }
      by destruct Hr1; split.
Qed.

(** *** Destruction *)

Lemma create_rep t secret : ml_rep (mac_learning_create t secret) [].
Proof.
  split; cbn; try done; try by constructor.
  - intros p e. rewrite lookup_empty. split; [done|]. intros H. by apply not_elem_of_nil in H.
  - apply init_rep.
  - lia.
Qed.

Lemma destroy_entries_ok : forall fuel m c,
  draining (ml_table m) c -> (length (nodes (ml_table m)) <= fuel)%nat ->
  (forall p, is_Some (ml_heap m !! p) <-> p ∈ node_ptr <$> nodes (ml_table m)) ->
  exists m', destroy_entries fuel c m = Ret (tt, m') /\ ml_heap m' = ∅.
Proof.
  assert (forall m, (forall p, is_Some (ml_heap m !! p) <-> p ∈ node_ptr <$> nodes (ml_table m)) ->
            nodes (ml_table m) = [] -> ml_heap m = ∅) as Hempty.
  { intros m H E. apply map_eq. intros p. rewrite lookup_empty. apply eq_None_not_Some. rewrite H, E.
    apply not_elem_of_nil. }
  induction fuel as [|f IH]; intros m c Hd Hf H6.
  { exists m. split; [done|]. apply Hempty; [done|]. apply nil_length_inv. lia. }
  destruct c as [|x next]; [exists m; split; [done|]; by apply Hempty, draining_end|].
  destruct (draining_step _ _ _ Hd) as (t' & c' & En & Er & Hd' & E).
  pose proof (draining_nodup _ _ Hd) as H5. cbn [destroy_entries]. rewrite (cstate_bind_step get _ m _ _ eq_refl).
  assert (lift (hmap_next (ml_table m) x next) m = Ret (c', m)) as E1 by (unfold lift; by rewrite En).
  rewrite (cstate_bind_step _ _ _ _ _ E1).
  assert (on_table (fun t => hmap_remove t x) m = Ret (tt, with_table t' m)) as E2 by (unfold on_table; by rewrite Er).
  rewrite (cstate_bind_step _ _ _ _ _ E2).
  rewrite E in H5, H6. cbn [fmap list_fmap] in H5, H6. apply NoDup_cons in H5 as [Hx _].
  destruct (proj2 (H6 (node_ptr x)) (list_elem_of_here _ _)) as [e He].
  assert (free_entry (node_ptr x) (with_table t' m)
          = Ret (tt, with_heap (delete (node_ptr x) (ml_heap m)) (with_table t' m))) as E3
    by (unfold free_entry; cbn [with_table ml_heap]; by rewrite He).
  rewrite (cstate_bind_step _ _ _ _ _ E3). apply (IH _ c'); cbn [with_heap with_table ml_table ml_heap].
  - done.
  - rewrite E in Hf. cbn [length] in Hf. lia.
  - intros p. rewrite lookup_delete_is_Some, H6, elem_of_cons. split; [intros [? [?|?]]; [congruence|done]|].
    intros Hp. split; [|by right]. intros <-. done.
Qed.

Lemma mac_learning_destroy_ok m L :
  ml_rep m L -> exists m', mac_learning_destroy m = Ret (tt, m') /\ ml_heap m' = ∅.
Proof.
  intros Hr. unfold mac_learning_destroy. rewrite (cstate_bind_step get _ m _ _ eq_refl).
  pose proof (mr_table _ _ Hr) as Ht. pose proof (Hmap.rep_count _ _ Ht) as Hc. pose proof (mr_size _ _ Hr).
  rewrite length_fmap in Hc. destruct (draining_first _ _ Ht ltac:(lia)) as (c & E & Hd).
  assert (lift (hmap_first (ml_table m)) m = Ret (c, m)) as E1 by (unfold lift; by rewrite E).
  rewrite (cstate_bind_step _ _ _ _ _ E1). apply (destroy_entries_ok _ m c); [done|done|].
  intros p. rewrite (hr_nodes _ _ Ht), <- list_fmap_compose. split.
  - intros [e He']. apply (mr_heap _ _ Hr) in He'. by apply (list_elem_of_fmap_2 (node_ptr ∘ node_of) L (p, e)).
  - intros Hp. apply list_elem_of_fmap in Hp as ([q e] & -> & Hin). exists e. by apply (mr_heap _ _ Hr).
Qed.

(** ** Aging

    The list is sorted by expiration time as long as the clock does not go back, so the loop
    of mac_learning_run, which stops at the first entry that is not due, misses none. *)

(** [now] bounds the times seen so far. *)
Record timed (now idle : Z) (L : entries) : Prop := {
  td_sorted : StronglySorted (fun x y => me_expires x.2 <= me_expires y.2) L;
  td_bound : Forall (fun x => me_expires x.2 <= now + idle) L
}.

Lemma sorted_filter {A} (R : A -> A -> Prop) (P : A -> Prop) `{!forall x, Decision (P x)} l :
  StronglySorted R l -> StronglySorted R (filter P l).
Proof.
  induction 1 as [|x l Hl IH Hx]; [constructor|]. rewrite filter_cons. case_decide; [|done].
  constructor; [done|]. rewrite Forall_forall in *. intros y Hy. apply Hx. by apply list_elem_of_filter in Hy as [].
Qed.

Lemma sorted_snoc {A} (R : A -> A -> Prop) l x :
  StronglySorted R l -> Forall (fun y => R y x) l -> StronglySorted R (l ++ [x]).
Proof.
  induction 1 as [|y l Hl IH Hy]; intros Hf; [by repeat constructor|].
  apply Forall_cons in Hf as [Hyx Hf]. cbn. constructor; [by apply IH|]. apply Forall_app. by split; [|constructor].
Qed.

Lemma a_expire_filter now L :
  StronglySorted (fun x y : nat * mac_entry => me_expires x.2 <= me_expires y.2) L ->
  (a_expire (is_due false now) L).2 = filter (fun x => now < me_expires x.2) L
  /\ (a_expire (is_due false now) L).1 = filter (fun x => me_expires x.2 <= now) L.
Proof.
  induction 1 as [|x L HL IH Hx]; [done|]. cbn [a_expire]. unfold is_due at 1 3. cbn [orb]. rewrite !filter_cons.
  destruct (Z.leb_spec (me_expires x.2) now).
  - destruct (a_expire (is_due false now) L) as [r k]. cbn [fst snd] in *. destruct IH as [-> ->].
    by rewrite decide_False, decide_True by lia.
  - cbn [fst snd]. rewrite decide_True, decide_False by lia. rewrite Forall_forall in Hx. split.
    + f_equal. symmetry. apply filter_all, Forall_forall. intros y Hy. specialize (Hx y Hy). cbn in Hx. lia.
    + symmetry. apply filter_none. intros y Hy. specialize (Hx y Hy). cbn in Hx. lia.
Qed.

Lemma timed_insert secret idle next k now now' L :
  timed now idle L -> now <= now' -> timed now' idle (a_insert secret idle next k now' L).2.
Proof.
  intros [Hs Hb] Hn.
  assert (forall L' p e, StronglySorted (fun x y : nat * mac_entry => me_expires x.2 <= me_expires y.2) L' ->
            Forall (fun x : nat * mac_entry => me_expires x.2 <= now + idle) L' -> me_expires e = now' + idle ->
            timed now' idle (L' ++ [(p, e)])) as Happ.
  { intros L' p e Hs' Hb' He. split.
    - apply sorted_snoc; [done|]. eapply Forall_impl; [exact Hb'|]. intros y Hy. cbn in *. lia.
    - apply Forall_app. split; [|repeat constructor; cbn; lia]. eapply Forall_impl; [exact Hb'|]. intros y Hy. cbn in *. lia. }
  unfold a_insert. destruct (find_key k L) as [[p e]|]; cbn [snd].
  - apply Happ; [by apply sorted_filter| |done]. rewrite Forall_forall in *. intros x Hx. apply Hb.
    by apply list_elem_of_filter in Hx as [].
  - apply Happ; [| |done]; (destruct (2048 <=? length L)%nat; [|done]; destruct L as [|x L]; [done|]).
    + by inversion Hs.
    + by inversion Hb.
Qed.

(** *** What the switch remembers *)

(** A learned key or, [None], a call of mac_learning_run; with its time. *)
Definition ml_event : Type := Z * option (list Z * Z).

Definition run_event (ev : ml_event) (m : mac_learning) : outcome mac_learning :=
  match ev with
  | (now, Some k) => '(_, m) ← mac_learning_insert k.1 k.2 now m; Ret m
  | (now, None) => '(_, m) ← mac_learning_run now None m; Ret m
  end.

Fixpoint run_events (evs : list ml_event) (m : mac_learning) : outcome mac_learning :=
  match evs with
  | [] => Ret m
  | ev :: evs' => m ← run_event ev m; run_events evs' m
  end.

Fixpoint in_order (now : Z) (evs : list ml_event) : Prop :=
  match evs with
  | [] => True
  | ev :: evs' => now <= ev.1 /\ in_order ev.1 evs'
  end.

(** When [k] was last learned. *)
Fixpoint last_seen (k : list Z * Z) (evs : list ml_event) (t : option Z) : option Z :=
  match evs with
  | [] => t
  | (now, k') :: evs' => last_seen k evs' (if bool_decide (k' = Some k) then Some now else t)
  end.

Definition learned_keys (evs : list ml_event) : list (list Z * Z) := omap snd evs.

(** [seen] says when each key was last learned, and [ks] bounds the keys. *)
Record remembers (m : mac_learning) (L : entries) (now : Z) (seen : list Z * Z -> option Z)
    (ks : list (list Z * Z)) : Prop := {
  rm_rep : ml_rep m L;
  rm_timed : timed now (ml_idle_time m) L;
  rm_entry : forall p e, (p, e) ∈ L -> exists t, seen (key e) = Some t /\ me_expires e = t + ml_idle_time m;
  rm_gone : forall k t, seen k = Some t -> find_key k L = None -> t + ml_idle_time m <= now;
  rm_seen : forall k t, seen k = Some t -> k ∈ ks
}.

Lemma keys_bound m L (ks : list (list Z * Z)) :
  ml_rep m L -> (forall p e, (p, e) ∈ L -> key e ∈ ks) -> (length (remove_dups ks) <= 2048)%nat ->
  forall k, k ∈ ks -> find_key k L = None -> (length L < 2048)%nat.
Proof.
  intros Hr Hks Hlen k Hk Hf. assert (NoDup (k :: ((fun x => key x.2) <$> L))) as Hd.
  { constructor; [|apply Hr]. intros Hin. apply list_elem_of_fmap in Hin as ([p e] & Ek & Hin).
    rewrite find_key_None in Hf. by apply (Hf p e Hin). }
  pose proof (submseteq_length (k :: ((fun x => key x.2) <$> L)) (remove_dups ks)) as H.
  cbn [length] in H. rewrite length_fmap in H. enough (S (length L) <= length (remove_dups ks))%nat by lia.
  apply H, NoDup_submseteq; [done|]. intros x Hx. apply elem_of_remove_dups.
  apply elem_of_cons in Hx as [->|Hx]; [done|]. apply list_elem_of_fmap in Hx as ([p e] & -> & Hin). by eapply Hks.
Qed.

(** The entries after an insertion that evicts nothing: those of other keys are as before, and
    there is one of the key, used now. *)
Lemma a_insert_elem m L k t secret idle next :
  ml_rep m L -> (length L < 2048)%nat \/ find_key k L <> None ->
  let L' := (a_insert secret idle next k t L).2 in
  (forall p e, key e <> k -> (p, e) ∈ L' <-> (p, e) ∈ L)
  /\ (forall p e, key e = k -> (p, e) ∈ L' -> me_expires e = t + idle)
  /\ exists p e, (p, e) ∈ L' /\ key e = k.
Proof.
  intros Hr Hroom. unfold a_insert. destruct (find_key k L) as [[q d]|] eqn:Ef; cbn [snd].
  - pose proof (proj1 (find_key_Some m L k q d Hr) Ef) as [Hd Hkd]. split_and!.
    + intros p e Hk. rewrite elem_of_app, take_out_elem, list_elem_of_singleton. split.
      * intros [[_ ?]|?]; [done|]. by simplify_eq.
      * intros Hin. left. split; [|done]. intros ->. by rewrite (rep_fun _ _ _ _ _ Hr Hin Hd) in Hk.
    + intros p e Hk. rewrite elem_of_app, take_out_elem, list_elem_of_singleton. intros [[Hq Hin]|?]; [|by simplify_eq].
      pose proof (proj2 (find_key_Some m L k p e Hr) (conj Hin Hk)). congruence.
    + eexists q, _. split; [apply elem_of_app; right; by left|done].
  - destruct Hroom as [Hl|?]; [|done]. destruct (Nat.leb_spec 2048 (length L)); [lia|]. split_and!.
    + intros p e Hk. rewrite elem_of_app, list_elem_of_singleton. split; [|by left].
      intros [?|?]; [done|]. simplify_eq. exfalso. apply Hk. by destruct k.
    + intros p e Hk. rewrite elem_of_app, list_elem_of_singleton. intros [Hin|E]; [|by injection E as -> ->].
      rewrite find_key_None in Ef. by destruct (Ef p e Hin).
    + eexists next, _. split; [apply elem_of_app; right; by left|by destruct k].
Qed.

Lemma remembers_insert m m' L now seen ks k t :
  remembers m L now seen ks -> now <= t -> k ∈ ks -> (length (remove_dups ks) <= 2048)%nat ->
  let L' := (a_insert (ml_secret m) (ml_idle_time m) (ml_next m) k t L).2 in
  ml_rep m' L' -> same_config m m' ->
  remembers m' L' t (fun k' => if bool_decide (Some k = Some k') then Some t else seen k') ks.
Proof.
  intros [Hr Ht He Hg Hs] Hn Hk Hks L' Hr' (_ & _ & Hi).
  assert ((length L < 2048)%nat \/ find_key k L <> None) as Hroom.
  { destruct (find_key k L) eqn:Ef; [by right|left]. eapply (keys_bound m L ks); [done| |done|done|done].
    intros p e Hin. destruct (He p e Hin) as (t0 & Hs0 & _). by eapply Hs. }
  destruct (a_insert_elem m L k t (ml_secret m) (ml_idle_time m) (ml_next m) Hr Hroom) as (Hother & Hnew & p0 & e0 & Hin0 & Hk0).
  fold L' in Hother, Hnew, Hin0.
  split; [exact Hr'|rewrite Hi; by eapply timed_insert|..]; rewrite ?Hi.
  - intros p e Hin. destruct (decide (key e = k)) as [Hke|Hke].
    + rewrite bool_decide_true by congruence. exists t. split; [done|]. by apply (Hnew p e).
    + rewrite bool_decide_false by congruence. apply (He p e). by apply Hother.
  - intros k' t'. destruct (decide (k = k')) as [<-|Hne].
    + intros _ Hnone. exfalso. rewrite find_key_None in Hnone. by apply (Hnone p0 e0 Hin0).
    + rewrite bool_decide_false by congruence. intros Hsk Hnone. etrans; [|exact Hn]. apply (Hg k' t' Hsk).
      rewrite find_key_None in Hnone |- *. intros p e Hin Hke. apply (Hnone p e); [|done].
      apply Hother; [congruence|done].
  - intros k' t'. destruct (decide (k = k')) as [<-|Hne]; [done|].
    rewrite bool_decide_false by congruence. apply Hs.
Qed.

Lemma remembers_run m m' L now seen ks t :
  remembers m L now seen ks -> now <= t ->
  let L' := filter (fun x => t < me_expires x.2) L in
  ml_rep m' L' -> same_config m m' -> remembers m' L' t seen ks.
Proof.
  intros [Hr [Hsort Hb] He Hg Hs] Hn L' Hr' (_ & _ & Hi).
  split; [exact Hr'|split|..]; rewrite ?Hi; unfold L'.
  - by apply sorted_filter.
  - rewrite Forall_forall in *. intros x Hx. apply list_elem_of_filter in Hx as [_ Hx].
    specialize (Hb x Hx). cbn in *. lia.
  - intros p e Hin. apply list_elem_of_filter in Hin as [_ Hin]. by apply (He p e).
  - intros k t' Hsk Hnone. destruct (find_key k L) as [[p e]|] eqn:Ef; [|etrans; [by apply (Hg k)|done]].
    apply (find_key_Some m) in Ef as [Hin Hk]; [|done]. destruct (He p e Hin) as (t0 & Hs0 & Hex).
    rewrite Hk, Hsk in Hs0. injection Hs0 as <-. rewrite <- Hex.
    destruct (Z.le_gt_cases (me_expires e) t) as [|Hgt]; [done|]. exfalso.
    rewrite find_key_None in Hnone. apply (Hnone p e); [|done]. apply list_elem_of_filter. cbn. split; [lia|done].
  - exact Hs.
Qed.

Lemma run_event_ok ev m L now seen ks :
  remembers m L now seen ks -> now <= ev.1 -> (forall k, ev.2 = Some k -> k ∈ ks) ->
  (length (remove_dups ks) <= 2048)%nat ->
  exists m' L', run_event ev m = Ret m' /\ same_config m m'
    /\ remembers m' L' ev.1 (fun k => if bool_decide (ev.2 = Some k) then Some ev.1 else seen k) ks.
Proof.
  intros H Hn Hev Hks. pose proof (rm_rep _ _ _ _ _ H) as Hr.
  destruct ev as [t [k|]]; cbn [fst snd] in *; unfold run_event.
  - destruct (mac_learning_insert_ok m L k t Hr) as (m' & E & Hr' & Hc). rewrite E. cbn [mbind outcome_bind].
    eexists _, _. split; [done|]. split; [done|]. by eapply remembers_insert; eauto.
  - destruct (mac_learning_run_ok m L t None Hr) as (m' & E & Hr' & Hc). rewrite E. cbn [mbind outcome_bind].
    eexists _, _. split; [done|]. split; [done|].
    rewrite (proj1 (a_expire_filter t L (td_sorted _ _ _ (rm_timed _ _ _ _ _ H)))) in Hr'.
    exact (remembers_run _ _ _ _ _ _ _ H Hn Hr' Hc).
Qed.

Lemma run_events_ok : forall evs m L now seen ks,
  remembers m L now seen ks -> in_order now evs -> (forall k, k ∈ learned_keys evs -> k ∈ ks) ->
  (length (remove_dups ks) <= 2048)%nat ->
  exists m' L' now', run_events evs m = Ret m' /\ same_config m m'
    /\ remembers m' L' now' (fun k => last_seen k evs (seen k)) ks
    /\ now' = default now (fst <$> last evs).
Proof.
  induction evs as [|ev evs IH]; intros m L now seen ks H Ho Hk Hks; cbn [run_events].
  { by exists m, L, now. }
  destruct Ho as [Hn Ho].
  destruct (run_event_ok ev m L now seen ks H Hn) as (m1 & L1 & E1 & Hc1 & H1); [|done|].
  { intros k Ek. apply Hk. unfold learned_keys. cbn. rewrite Ek. by left. }
  rewrite E1. cbn [mbind outcome_bind].
  destruct (IH m1 L1 ev.1 _ ks H1 Ho) as (m2 & L2 & now2 & E2 & Hc2 & H2 & ->); [|done|].
  { intros k Hin. apply Hk. unfold learned_keys in *. cbn. destruct ev as [t [k'|]]; cbn; [by right|done]. }
  eexists m2, L2, _. split; [done|]. split; [by etrans|]. destruct ev as [t o].
  split; [exact H2|]. rewrite last_cons. by destruct (last evs).
Qed.

Lemma create_remembers t secret ks now : remembers (mac_learning_create t secret) [] now (fun _ => None) ks.
Proof.
  split; [apply create_rep|split; constructor|..]; try done.
  intros p e H. by apply not_elem_of_nil in H.
Qed.

Lemma run_events_app evs1 evs2 m :
  run_events (evs1 ++ evs2) m = m ← run_events evs1 m; run_events evs2 m.
Proof.
  revert m. induction evs1 as [|ev evs1 IH]; intros m; [done|]. cbn [app run_events].
  destruct (run_event ev m); [apply IH|done].
Qed.

Lemma in_order_snoc evs ev t :
  in_order t (evs ++ [ev]) -> in_order t evs /\ default t (fst <$> last evs) <= ev.1.
Proof.
  revert t. induction evs as [|e evs IH]; intros t; [by intros [? _]|]. cbn [app in_order].
  intros [? H]. destruct (IH _ H) as [H1 H2]. split; [done|]. rewrite last_cons. by destruct (last evs).
Qed.

(** ** Properties *)

(** C28: the MAC table is a list of entries in order of use.  On a table that represents the
    list [L], every function ends without a fault and does to the list what its comment
    says: insertion moves the entry of the key to the back, or makes one, evicting the front
    of a full table; a change of tag touches one entry; expiry drops entries and reports
    their tags; a new idle time shifts the expiry times; destruction leaks nothing. *)
Theorem mac_learning_refines_lru m L :
  ml_rep m L ->
  (forall k now, exists m', mac_learning_insert k.1 k.2 now m
                            = Ret ((a_insert (ml_secret m) (ml_idle_time m) (ml_next m) k now L).1, m')
     /\ ml_rep m' (a_insert (ml_secret m) (ml_idle_time m) (ml_next m) k now L).2)
  /\ (forall p e tag, (p, e) ∈ L -> exists r m', mac_learning_changed p tag m = Ret (r, m')
        /\ ml_rep m' (update p (set_tag tag) L))
  /\ (forall p e, (p, e) ∈ L -> exists m', mac_learning_expire p m = Ret (tt, m') /\ ml_rep m' (take_out p L))
  /\ (forall now tags, exists m', let r := a_expire (is_due false now) L in
        mac_learning_run now tags m = Ret (add_tags r.1 tags, m') /\ ml_rep m' r.2)
  /\ (forall tags, exists m', mac_learning_flush tags m = Ret (add_tags L tags, m') /\ ml_rep m' [])
  /\ (forall t, exists m', mac_learning_set_idle_time t m = Ret (tt, m')
        /\ ml_rep m' (shifted (normalize_idle_time t - ml_idle_time m) L))
  /\ exists m', mac_learning_destroy m = Ret (tt, m') /\ ml_heap m' = ∅.
Proof.
  intros Hr. split; [|split; [|split; [|split; [|split; [|split]]]]].
  - intros k now. destruct (mac_learning_insert_ok m L k now Hr) as (m' & ? & ? & _). by exists m'.
  - intros p e tag Hin. destruct (mac_learning_changed_ok m L p e tag Hr Hin) as (m' & ? & ? & _). by eexists _, m'.
  - intros p e Hin. destruct (mac_learning_expire_ok m L p e Hr Hin) as (m' & ? & ? & _). by exists m'.
  - intros now tags. destruct (mac_learning_run_ok m L now tags Hr) as (m' & ? & ? & _). by exists m'.
  - intros tags. destruct (mac_learning_flush_ok m L tags Hr) as (m' & ? & ? & _). by exists m'.
  - intros t. destruct (mac_learning_set_idle_time_ok m L t Hr) as (m' & ? & ? & _). by exists m'.
  - by apply (mac_learning_destroy_ok m L).
Qed.

Lemma mac_learning_refines_lru_witness :
  exists m L, length L = 1%nat /\ ml_rep m L
    /\ (exists m', mac_learning_flush (Some tag_set_init) m = Ret (add_tags L (Some tag_set_init), m') /\ ml_rep m' [])
    /\ exists m', mac_learning_destroy m = Ret (tt, m') /\ ml_heap m' = ∅.
Proof.
  destruct (mac_learning_insert_ok (mac_learning_create 300 7) [] ([0; 35; 32; 1; 2; 3], 10) 1000 (create_rep 300 7))
    as (m & _ & Hr & _).
  exists m. eexists. split; [|split; [exact Hr|]]; [by vm_compute|].
  destruct (mac_learning_refines_lru m _ Hr) as (_ & _ & _ & _ & Hf & _ & Hd). by split; [apply Hf|].
Defined.

(** The table remembers what was learned for the idle time and no longer.  After any
    sequence of learned addresses (at most 2048 different ones) and calls of
    mac_learning_run, with a clock that does not go back, and a last mac_learning_run at
    [now], an address is found exactly if it was last learned less than the idle time
    ago. *)
Theorem mac_learning_remembers idle secret t0 evs now k :
  in_order t0 (evs ++ [(now, None)]) -> (length (remove_dups (learned_keys evs)) <= 2048)%nat ->
  exists m r, run_events (evs ++ [(now, None)]) (mac_learning_create idle secret) = Ret m
    /\ mac_entry_lookup k.1 k.2 m = Ret (r, m)
    /\ (r <> None <-> exists t, last_seen k evs None = Some t /\ now < t + normalize_idle_time idle).
Proof.
  intros Ho Hk. apply in_order_snoc in Ho as [Ho Hn]. cbn [fst] in Hn.
  destruct (run_events_ok evs _ _ _ _ (learned_keys evs) (create_remembers idle secret _ t0) Ho)
    as (m1 & L1 & now1 & E1 & (_ & _ & Hi1) & H1 & ->); [done|done|].
  destruct (mac_learning_run_ok m1 L1 now None (rm_rep _ _ _ _ _ H1)) as (m2 & E2 & Hr2 & Hc2).
  rewrite (proj1 (a_expire_filter now L1 (td_sorted _ _ _ (rm_timed _ _ _ _ _ H1)))) in Hr2.
  destruct (remembers_run _ _ _ _ _ _ _ H1 Hn Hr2 Hc2) as [_ _ He Hg _].
  destruct Hc2 as (_ & _ & Hi2). rewrite Hi2, Hi1 in He, Hg. cbn [mac_learning_create ml_idle_time] in He, Hg.
  set (L := filter (fun x => now < me_expires x.2) L1) in *.
  exists m2, (fst <$> find_key k L). split; [|split; [by apply mac_entry_lookup_ok|]].
  { rewrite run_events_app, E1. cbn [mbind outcome_bind run_events run_event]. by rewrite E2. }
  split.
  - intros Hne. destruct (find_key k L) as [[p e]|] eqn:Ef; [|done].
    apply (find_key_Some m2) in Ef as [Hin Hke]; [|done]. destruct (He p e Hin) as (t & Hst & Hex).
    rewrite Hke in Hst. exists t. split; [done|]. rewrite <- Hex. by apply list_elem_of_filter in Hin as [? _].
  - intros (t & Hst & Hlt) Hnone. destruct (find_key k L) as [[p e]|] eqn:Ef; [done|].
    specialize (Hg k t Hst Ef). lia.
Qed.

Lemma mac_learning_remembers_witness :
  exists m r, run_events ([(1000, Some ([0; 35; 32; 1; 2; 3], 10)); (1100, None)] ++ [(1200, None)])
                (mac_learning_create 300 7) = Ret m
    /\ mac_entry_lookup [0; 35; 32; 1; 2; 3] 10 m = Ret (r, m) /\ r <> None.
Proof.
  destruct (mac_learning_remembers 300 7 1000 [(1000, Some ([0; 35; 32; 1; 2; 3], 10)); (1100, None)] 1200
    ([0; 35; 32; 1; 2; 3], 10)) as (m & r & E & El & [_ Hr]).
  - cbn. lia.
  - by vm_compute; lia.
  - exists m, r. split; [exact E|]. split; [exact El|]. apply Hr. exists 1000. by split.
Defined.

(** *** Tags *)

(** What the client does with a learned address: mac_learning_insert and then
    mac_learning_changed. *)
Definition relearn (k : list Z * Z) (now tag : Z) : mlm Z :=
  p ← mac_learning_insert k.1 k.2 now; mac_learning_changed p tag.

Lemma a_insert_find m L k t secret idle next :
  ml_rep m L -> (length L < 2048)%nat \/ find_key k L <> None ->
  let L' := (a_insert secret idle next k t L).2 in
  forall m' k', ml_rep m' L' -> k' <> k -> find_key k' L' = find_key k' L.
Proof.
  intros Hr Hroom L' m' k' Hr' Hk. destruct (a_insert_elem m L k t secret idle next Hr Hroom) as (Ho & _ & _).
  fold L' in Ho. destruct (find_key k' L) as [[p e]|] eqn:E.
  - apply (find_key_Some m) in E as [Hin He]; [|done]. apply (find_key_Some m' L'); [done|].
    split; [|done]. apply Ho; [congruence|done].
  - rewrite find_key_None in E |- *. intros p e Hin He. apply (E p e); [|done]. apply Ho in Hin; [done|congruence].
Qed.

Lemma relearn_ok m L k now tag :
  ml_rep m L -> Forall (fun x => me_tag x.2 <> 0) L ->
  let r := a_insert (ml_secret m) (ml_idle_time m) (ml_next m) k now L in
  exists m' e, relearn k now tag m = Ret ((a_lookup (ml_secret m) k L).2, m')
    /\ ml_rep m' (update r.1 (set_tag tag) r.2) /\ same_config m m' /\ (r.1, e) ∈ r.2 /\ key e = k.
Proof.
  intros Hr Ht r. destruct (mac_learning_insert_ok m L k now Hr) as (m1 & E1 & Hr1 & Hc1). fold r in E1, Hr1.
  unfold relearn. rewrite (cstate_bind_step _ _ _ _ _ E1).
  assert (exists e, (r.1, e) ∈ r.2 /\ key e = k
            /\ (if me_tag e =? 0 then make_unknown_mac_tag m1 (me_mac e) (me_vlan e) else me_tag e)
               = (a_lookup (ml_secret m) k L).2) as (e & Hin & Hk & Etag).
  { unfold r, a_insert, a_lookup, make_unknown_mac_tag. destruct Hc1 as (-> & _).
    destruct (find_key k L) as [[p e]|] eqn:Ef; cbn [fst snd]; eexists; (split; [apply elem_of_app; right; by left|]).
    - apply (find_key_Some m) in Ef as [Hin Hk]; [|done]. split; [done|]. rewrite Forall_forall in Ht.
      specialize (Ht _ Hin). cbn in Ht |- *. by destruct (Z.eqb_spec (me_tag e) 0).
    - split; [by destruct k|done]. }
  destruct (mac_learning_changed_ok m1 r.2 r.1 e tag Hr1 Hin) as (m2 & E2 & Hr2 & Hc2).
  exists m2, e. rewrite E2, Etag. split; [done|]. split; [done|]. split; [by etrans|done].
Qed.

Lemma find_key_update m m' L p e f k :
  ml_rep m L -> ml_rep m' (update p f L) -> keeps f -> (p, e) ∈ L -> key e <> k ->
  find_key k (update p f L) = find_key k L.
Proof.
  intros Hr Hr' Hf Hin Hk.
  assert (forall q d, key d = k -> (q, d) ∈ update p f L <-> (q, d) ∈ L) as He.
  { intros q d Hd. rewrite update_elem. split.
    - intros (d' & Hin' & ->). destruct (decide (q = p)) as [->|]; [|done].
      rewrite (rep_fun _ _ _ _ _ Hr Hin' Hin) in Hd. by rewrite (proj1 (Hf e)) in Hd.
    - intros Hin'. exists d. split; [done|]. destruct (decide (q = p)) as [->|]; [|done].
      by rewrite (rep_fun _ _ _ _ _ Hr Hin' Hin) in Hd. }
  destruct (find_key k L) as [[q d]|] eqn:E.
  - apply (find_key_Some m) in E as [Hq Hd]; [|done]. apply (find_key_Some m'); [done|]. split; [|done]. by apply He.
  - rewrite find_key_None in E |- *. intros q d Hq Hd. apply (E q d); [|done]. by apply He.
Qed.

Lemma a_expire_app due L : (a_expire due L).1 ++ (a_expire due L).2 = L.
Proof.
  induction L as [|x L IH]; [done|]. cbn [a_expire]. destruct (due x.2); [|done].
  destruct (a_expire due L) as [r k]. cbn in *. by rewrite IH.
Qed.

Lemma valid_nonzero t : tag_is_valid t = true -> t <> 0.
Proof. by intros H ->. Qed.

Lemma valid_self t : tag_is_valid t = true -> tag_intersects t t = true.
Proof.
  unfold tag_is_valid, tag_intersects. rewrite Z.land_diag. intros H. by apply andb_true_iff in H as [? _].
Qed.

(** What an eviction leaves of the evicted address. *)
Lemma evicted_not_found secret idle nx k now p e L :
  NoDup ((fun x => key x.2) <$> ((p, e) :: L)) -> find_key k ((p, e) :: L) = None ->
  (2048 <= length ((p, e) :: L))%nat ->
  find_key (key e) (a_insert secret idle nx k now ((p, e) :: L)).2 = None.
Proof.
  intros Hnd Hk Hlen. apply Nat.leb_le in Hlen.
  assert (key e <> k) as Hne by (rewrite find_key_None in Hk; apply (Hk p e); by left).
  unfold a_insert. rewrite Hk, Hlen. cbn [snd tail].
  apply find_key_None. intros q d Hq Hd. apply elem_of_app in Hq as [Hq|Hq].
  - rewrite fmap_cons in Hnd. apply NoDup_cons in Hnd as [Hnd _]. apply Hnd. cbn. rewrite <- Hd.
    by apply (list_elem_of_fmap_2 (fun x => key x.2) L (q, d)).
  - apply list_elem_of_singleton in Hq as [= -> ->]. apply Hne. rewrite <- Hd. by destruct k.
Qed.

(** A full table forgets a tag: learning a new address evicts the least recently used entry
    without reporting its tag, and the evicted address is then tagged as unknown. *)
Lemma eviction_loses_tag m L k now tag p e :
  ml_rep m ((p, e) :: L) -> (2048 <= length ((p, e) :: L))%nat -> find_key k ((p, e) :: L) = None ->
  Forall (fun x => me_tag x.2 <> 0) ((p, e) :: L) ->
  exists m' L', relearn k now tag m = Ret (tag_create_deterministic (key_hash (ml_secret m) k), m')
    /\ ml_rep m' L' /\ a_lookup (ml_secret m) (key e) L' = (None, tag_create_deterministic (me_hash e)).
Proof.
  intros Hr Hlen Hk Ht. destruct (relearn_ok m _ k now tag Hr Ht) as (m' & e' & E & Hr' & _ & Hin & Hke).
  unfold a_lookup at 1 in E. rewrite Hk in E. cbn [snd] in E. eexists m', _. split; [exact E|]. split; [exact Hr'|].
  destruct (mac_learning_insert_ok m _ k now Hr) as (m1 & _ & Hr1 & _).
  assert (key e' <> key e) as Hne by (rewrite Hke; rewrite find_key_None in Hk; intros Hx; apply (Hk p e); [by left|done]).
  pose proof (evicted_not_found (ml_secret m) (ml_idle_time m) (ml_next m) k now p e L (mr_keys _ _ Hr) Hk Hlen) as Hnone.
  pose proof (mr_hash _ _ Hr) as Hh. apply Forall_cons in Hh as [Hh _]. cbn in Hh.
  revert Hr' Hr1 Hin Hnone. generalize (a_insert (ml_secret m) (ml_idle_time m) (ml_next m) k now ((p, e) :: L)).
  intros [q A]. cbn [fst snd]. intros Hr' Hr1 Hin Hnone.
  unfold a_lookup. rewrite (find_key_update m1 m' _ _ e' _ (key e) Hr1 Hr' (keeps_tag _) Hin Hne), Hnone.
  by rewrite Hh.
Qed.
