(* ===== verification/DList.v ===== *)
(** * Doubly linked lists (lib/list.c, lib/list.h)

    A list is a ring of links, one of which is its head; links are embedded in the client's
    structures.  The store maps the address of a structure to its link.  [ring] says that the
    links of a sequence of addresses form a ring; every function is specified by what it does
    to the ring and by the links it leaves alone, so that any number of rings can share the
    store.  list_poison, which only fills a dead link with a pattern, is left out. *)
From S2P Require Import Prelude.

Local Open Scope Z_scope.

(** ** Definitions *)

Record link := MkLink { l_prev : nat; l_next : nat }.

Abbreviation links := (gmap nat link).

Abbreviation lm := (cstate links).

Definition load_link (p : nat) : lm link := fun h =>
  match h !! p with Some l => Ret (l, h) | None => Stuck DanglingPtr end.
Definition store_link (p : nat) (f : link -> link) : lm unit := fun h =>
  match h !! p with Some l => Ret (tt, <[p := f l]> h) | None => Stuck DanglingPtr end.

(** [p->prev], [p->next], [p->prev = q] and [p->next = q]. *)
Definition prev_of (p : nat) : lm nat := l ← load_link p; mret (l_prev l).
Definition next_of (p : nat) : lm nat := l ← load_link p; mret (l_next l).
Definition set_prev (p q : nat) : lm unit := store_link p (fun l => MkLink q (l_next l)).
Definition set_next (p q : nat) : lm unit := store_link p (fun l => MkLink (l_prev l) q).

Definition list_init (list : nat) : lm unit :=
  _ ← set_prev list list;
  set_next list list.

Definition list_insert (before elem : nat) : lm unit :=
  p ← prev_of before; _ ← set_prev elem p;
  _ ← set_next elem before;
  p ← prev_of before; _ ← set_next p elem;
  set_prev before elem.

Definition list_splice (before first last : nat) : lm unit :=
  if Nat.eqb first last then mret tt
  else
    last ← prev_of last;
    p ← prev_of first; n ← next_of last; _ ← set_next p n;
    n ← next_of last; p ← prev_of first; _ ← set_prev n p;
    p ← prev_of before; _ ← set_prev first p;
    _ ← set_next last before;
    p ← prev_of before; _ ← set_next p first;
    set_prev before last.

Definition list_push_front (list elem : nat) : lm unit :=
  n ← next_of list; list_insert n elem.

Definition list_push_back (list elem : nat) : lm unit := list_insert list elem.

Definition list_replace (element position : nat) : lm unit :=
  n ← next_of position; _ ← set_next element n;
  n ← next_of element; _ ← set_prev n element;
  p ← prev_of position; _ ← set_prev element p;
  p ← prev_of element; set_next p element.

(** [list] holds a copy of a link that was elsewhere. *)
Definition list_moved (list : nat) : lm unit :=
  n ← next_of list; _ ← set_prev n list;
  p ← prev_of list; set_next p list.

Definition list_remove (elem : nat) : lm nat :=
  p ← prev_of elem; n ← next_of elem; _ ← set_next p n;
  n ← next_of elem; p ← prev_of elem; _ ← set_prev n p;
  next_of elem.

Definition list_pop_front (list : nat) : lm nat :=
  front ← next_of list; _ ← list_remove front; mret front.

Definition list_pop_back (list : nat) : lm nat :=
  back ← prev_of list; _ ← list_remove back; mret back.

Definition list_is_empty (list : nat) : lm bool :=
  n ← next_of list; mret (Nat.eqb n list).

Definition list_is_short (list : nat) : lm bool :=
  n ← next_of list; p ← prev_of list; mret (Nat.eqb n p).

Definition list_is_singleton (list : nat) : lm bool :=
  s ← list_is_short list;
  if s : bool then e ← list_is_empty list; mret (negb e) else mret false.

Definition list_front (list : nat) : lm nat :=
  e ← list_is_empty list; if e : bool then fails AssertFail else next_of list.

Definition list_back (list : nat) : lm nat :=
  e ← list_is_empty list; if e : bool then fails AssertFail else prev_of list.

(** The loops of list_size and of LIST_FOR_EACH from element [e] on, for at most [fuel]
    elements. *)
Fixpoint size_loop (fuel list e : nat) (cnt : Z) : lm Z :=
  if Nat.eqb e list then mret cnt
  else match fuel with
       | O => mret cnt
       | S f => n ← next_of e; size_loop f list n (u64 (cnt + 1))
       end.

Definition list_size (fuel list : nat) : lm Z := n ← next_of list; size_loop fuel list n 0.

Fixpoint list_visit (fuel list e : nat) : lm (Datatypes.list nat) :=
  if Nat.eqb e list then mret []
  else match fuel with
       | O => mret []
       | S f => n ← next_of e; rest ← list_visit f list n; mret (e :: rest)
       end.

Definition list_for_each (fuel list : nat) : lm (Datatypes.list nat) :=
  n ← next_of list; list_visit fuel list n.

(** ** Segments and rings *)

(** The links of [xs] run from one to the next, with [p] before the first and [n] after the
    last. *)
Fixpoint dseg (h : links) (p : nat) (xs : list nat) (n : nat) : Prop :=
  match xs with
  | [] => True
  | x :: xs' => h !! x = Some (MkLink p (default n (head xs'))) /\ dseg h x xs' n
  end.

Definition ring (h : links) (xs : list nat) : Prop :=
  NoDup xs /\ dseg h (default O (last xs)) xs (default O (head xs)).

(** [h'] differs from [h] at most in the links [xs], and has the same addresses. *)
Definition framed (xs : list nat) (h h' : links) : Prop :=
  (forall q, q ∉ xs -> h' !! q = h !! q) /\ forall q, is_Some (h !! q) -> is_Some (h' !! q).

#[export] Instance framed_refl xs : Reflexive (framed xs).
Proof. by split. Qed.

#[export] Instance framed_trans xs : Transitive (framed xs).
Proof. intros h1 h2 h3 [H1 H2] [H3 H4]. split; [|auto]. intros q Hq. rewrite H3, H1; done. Qed.

Lemma framed_mono xs ys h h' : xs ⊆ ys -> framed xs h h' -> framed ys h h'.
Proof. intros Hs [H1 H2]. split; [|done]. intros q Hq. apply H1. intros Hx. by apply Hq, Hs. Qed.

Lemma dseg_frame h h' p xs n : (forall q, q ∈ xs -> h' !! q = h !! q) -> dseg h p xs n -> dseg h' p xs n.
Proof.
  revert p. induction xs as [|x xs IH]; intros p Hf; [done|]. intros [H1 H2]. split.
  - rewrite Hf by left. done.
  - apply IH; [|done]. intros q Hq. apply Hf. by right.
Qed.

Lemma dseg_framed ys h h' p xs n :
  framed ys h h' -> (forall q, q ∈ xs -> q ∉ ys) -> dseg h p xs n -> dseg h' p xs n.
Proof. intros [Hf _] Hd. apply dseg_frame. intros q Hq. by apply Hf, Hd. Qed.

Lemma ring_framed ys h h' xs :
  framed ys h h' -> (forall q, q ∈ xs -> q ∉ ys) -> ring h xs -> ring h' xs.
Proof. intros Hf Hd [H1 H2]. split; [done|]. by eapply dseg_framed. Qed.

Lemma default_last (p x : nat) xs : default p (last (x :: xs)) = default x (last xs).
Proof. rewrite last_cons. by destruct (last xs). Qed.

Lemma dseg_app h p xs ys n :
  dseg h p (xs ++ ys) n <-> dseg h p xs (default n (head ys)) /\ dseg h (default p (last xs)) ys n.
Proof.
  revert p. induction xs as [|x xs IH]; intros p; [naive_solver|].
  cbn [app dseg]. rewrite IH, default_last. destruct xs; cbn [app head]; tauto.
Qed.

Lemma dseg_head h p xs n x : dseg h p xs n -> head xs = Some x -> exists q, h !! x = Some (MkLink p q).
Proof. destruct xs as [|y xs]; [done|]. intros [H _] [= ->]. eauto. Qed.

Lemma dseg_last h p xs n x : dseg h p xs n -> last xs = Some x -> exists q, h !! x = Some (MkLink q n).
Proof.
  intros H Hl. apply last_Some in Hl as [ys ->]. apply dseg_app in H as [_ [H _]]. eauto.
Qed.

Lemma ring_rotate h xs ys : ring h (xs ++ ys) -> ring h (ys ++ xs).
Proof.
  destruct xs as [|x xs]; [by rewrite app_nil_r|]. destruct ys as [|y ys]; [by rewrite app_nil_r|].
  intros [Hd Hs]. split; [by rewrite Permutation_app_comm|].
  apply dseg_app in Hs as [H1 H2]. apply dseg_app.
  rewrite !last_app in *. rewrite !last_cons in *. cbn [head app] in *.
  destruct (last xs), (last ys); cbn in *; done.
Qed.

(** Any element can be taken as the head. *)
Lemma ring_at h xs x : ring h xs -> x ∈ xs -> exists l, ring h (x :: l) /\ x :: l ≡ₚ xs.
Proof.
  intros Hr (l1 & l2 & ->)%list_elem_of_split. apply ring_rotate in Hr. exists (l2 ++ l1).
  split; [done|]. rewrite <- Permutation_middle. constructor. apply Permutation_app_comm.
Qed.

Lemma ring_cons h x l :
  ring h (x :: l) <-> NoDup (x :: l) /\ h !! x = Some (MkLink (default x (last l)) (default x (head l))) /\ dseg h x l x.
Proof. unfold ring. rewrite default_last. done. Qed.

Lemma ring_exists h xs q : ring h xs -> q ∈ xs -> is_Some (h !! q).
Proof.
  intros Hr Hq. destruct (ring_at _ _ _ Hr Hq) as (l & Hl & _). apply ring_cons in Hl as (_ & -> & _). done.
Qed.

(** ** Steps *)

Lemma prev_of_ok h p l : h !! p = Some l -> prev_of p h = Ret (l_prev l, h).
Proof. intros E. unfold prev_of, load_link, mbind, cstate_bind. by rewrite E. Qed.

Lemma next_of_ok h p l : h !! p = Some l -> next_of p h = Ret (l_next l, h).
Proof. intros E. unfold next_of, load_link, mbind, cstate_bind. by rewrite E. Qed.

Lemma store_link_ok h p f l : h !! p = Some l -> store_link p f h = Ret (tt, <[p := f l]> h).
Proof. intros E. unfold store_link. by rewrite E. Qed.

Lemma framed_insert h p l l' : h !! p = Some l -> framed [p] h (<[p := l']> h).
Proof.
  intros E. split.
  - intros q Hq. apply lookup_insert_ne. intros ->. apply Hq. by left.
  - intros q Hq. destruct (decide (p = q)) as [->|Hn]; [by rewrite lookup_insert_eq|by rewrite lookup_insert_ne].
Qed.

(** Linking the ends of a segment elsewhere. *)
Lemma set_next_last h p xs n x n' :
  NoDup xs -> dseg h p xs n -> last xs = Some x ->
  exists h', set_next x n' h = Ret (tt, h') /\ dseg h' p xs n' /\ framed [x] h h'.
Proof.
  intros Hd Hs Hl. pose proof (dseg_last _ _ _ _ _ Hs Hl) as [q Hq]. apply last_Some in Hl as [ys ->].
  unfold set_next. rewrite (store_link_ok _ _ _ _ Hq). eexists. split; [done|]. cbn [l_prev].
  split; [|by eapply framed_insert]. apply dseg_app in Hs as [H1 [H2 _]].
  apply NoDup_app in Hd as (_ & Hd & _). apply dseg_app. split.
  - eapply dseg_framed; [by eapply framed_insert| |exact H1].
    intros z Hz Hx. apply list_elem_of_singleton in Hx as ->. by apply (Hd x Hz); left.
  - cbn. rewrite lookup_insert_eq. rewrite H2 in Hq. by simplify_eq.
Qed.

Lemma set_prev_head h p xs n x p' :
  NoDup xs -> dseg h p xs n -> head xs = Some x ->
  exists h', set_prev x p' h = Ret (tt, h') /\ dseg h' p' xs n /\ framed [x] h h'.
Proof.
  intros Hd Hs Hl. destruct xs as [|y xs]; [done|]. injection Hl as ->. destruct Hs as [Hx Hs].
  apply NoDup_cons in Hd as [Hn _]. unfold set_prev. rewrite (store_link_ok _ _ _ _ Hx).
  eexists. split; [done|]. cbn [l_next]. split; [|by eapply framed_insert]. split; [by rewrite lookup_insert_eq|].
  eapply dseg_framed; [by eapply framed_insert| |exact Hs].
  intros z Hz Hq. by apply list_elem_of_singleton in Hq as ->.
Qed.

(** Setting both ends of one link that is in no ring yet. *)
Lemma set_link_next h e l n : h !! e = Some l ->
  exists h', set_next e n h = Ret (tt, h') /\ h' !! e = Some (MkLink (l_prev l) n) /\ framed [e] h h'.
Proof.
  intros E. unfold set_next. rewrite (store_link_ok _ _ _ _ E). eexists. split; [done|].
  split; [by rewrite lookup_insert_eq|by eapply framed_insert].
Qed.

Lemma set_link_prev h e l p : h !! e = Some l ->
  exists h', set_prev e p h = Ret (tt, h') /\ h' !! e = Some (MkLink p (l_next l)) /\ framed [e] h h'.
Proof.
  intros E. unfold set_prev. rewrite (store_link_ok _ _ _ _ E). eexists. split; [done|].
  split; [by rewrite lookup_insert_eq|by eapply framed_insert].
Qed.

Lemma framed_lookup xs h h' q l : framed xs h h' -> q ∉ xs -> h !! q = l -> h' !! q = l.
Proof. intros [Hf _] Hq <-. by apply Hf. Qed.

(** [xs] and [ys] have no address in common. *)
Ltac not_in :=
  repeat match goal with
  | H : NoDup (_ :: _) |- _ => apply NoDup_cons in H as [? ?]
  | H : _ ∈ [_] |- _ => apply list_elem_of_singleton in H; subst
  | |- forall _, _ => intro
  | |- _ ∉ [_] => rewrite list_elem_of_singleton
  end; try (intros ->); try done; try set_solver.

(** ** Functions *)

Lemma list_init_ok h p : is_Some (h !! p) -> exists h', list_init p h = Ret (tt, h') /\ ring h' [p] /\ framed [p] h h'.
Proof.
  intros [l E]. destruct (set_link_prev h p l p E) as (h1 & E1 & L1 & F1).
  destruct (set_link_next h1 p _ p L1) as (h2 & E2 & L2 & F2). exists h2.
  unfold list_init. rewrite (cstate_bind_step _ _ _ _ _ E1), E2. split; [done|].
  split; [|by etrans]. apply ring_cons. split; [apply NoDup_singleton|]. by rewrite L2.
Qed.

(** The writes that put [first ... last] in front of [b], and those that take it out of its
    ring, as they appear in list_insert, list_remove and list_splice. *)
Definition attach (b first last : nat) : lm unit :=
  p ← prev_of b; _ ← set_prev first p;
  _ ← set_next last b;
  p ← prev_of b; _ ← set_next p first;
  set_prev b last.

Definition detach {A} (first last : nat) (k : lm A) : lm A :=
  p ← prev_of first; n ← next_of last; _ ← set_next p n;
  n ← next_of last; p ← prev_of first; _ ← set_prev n p;
  k.

Lemma attach_ok h b l p seg n f z :
  ring h (b :: l) -> NoDup seg -> dseg h p seg n -> head seg = Some f -> last seg = Some z ->
  (forall q, q ∈ b :: l -> q ∉ seg) ->
  exists h', attach b f z h = Ret (tt, h') /\ ring h' (b :: l ++ seg) /\ framed (seg ++ b :: l) h h'.
Proof.
  intros Hr Hds S Hf Hz Hdis. apply ring_cons in Hr as (Hd & Hb & Hl). set (t := default b (last l)) in *.
  assert (last (b :: l) = Some t) as Ht by (subst t; rewrite last_cons; by destruct (last l)).
  assert (t ∈ b :: l) as Hin by (apply last_Some in Ht as [y ->]; set_solver).
  assert (f ∈ seg) by (destruct seg; simplify_eq/=; by left).
  assert (z ∈ seg) by (apply last_Some in Hz as [y ->]; set_solver).
  destruct (set_prev_head h p seg n f t Hds S Hf) as (h1 & E1 & S1 & F1).
  destruct (set_next_last h1 t seg n z b Hds S1 Hz) as (h2 & E2 & S2 & F2).
  assert (framed seg h h2) as F02 by (etrans; eapply framed_mono; [|exact F1| |exact F2]; set_solver).
  assert (dseg h2 t (b :: l) b) as B2 by (eapply dseg_framed; [exact F02| |by split]; done).
  destruct (set_next_last h2 t (b :: l) b t f Hd B2 Ht) as (h3 & E3 & B3 & F3).
  destruct (set_prev_head h3 t (b :: l) f b z Hd B3 eq_refl) as (h4 & E4 & B4 & F4).
  assert (framed (b :: l) h2 h4) as F24 by (etrans; eapply framed_mono; [|exact F3| |exact F4]; set_solver).
  exists h4. unfold attach. rewrite (cstate_bind_step _ _ _ _ _ (prev_of_ok _ _ _ Hb)). cbn [l_prev].
  rewrite (cstate_bind_step _ _ _ _ _ E1), (cstate_bind_step _ _ _ _ _ E2).
  rewrite (cstate_bind_step _ _ _ _ _ (prev_of_ok _ _ _ (proj1 B2))). cbn [l_prev].
  rewrite (cstate_bind_step _ _ _ _ _ E3), E4. split; [done|]. split.
  - rewrite app_comm_cons. split; [apply NoDup_app; split; [done|by split]|].
    rewrite last_app, Hz. cbn [app head default]. rewrite app_comm_cons. apply dseg_app.
    rewrite Hf, default_last. split; [exact B4|]. cbn [default]. eapply dseg_framed; [exact F24| |exact S2]. set_solver.
  - etrans; [eapply framed_mono; [|exact F02]; set_solver|eapply framed_mono; [|exact F24]; set_solver].
Qed.

Lemma detach_ok {A} (k : lm A) h seg rest f z :
  ring h (seg ++ rest) -> head seg = Some f -> last seg = Some z -> rest <> [] ->
  exists h' p n, detach f z k h = k h' /\ ring h' rest /\ dseg h' p seg n /\ head rest = Some n /\ framed rest h h'.
Proof.
  intros [Hd Hs] Hf Hz Hne. apply NoDup_app in Hd as (Hd1 & Hd12 & Hd2).
  destruct (head rest) as [r1|] eqn:Hr1; [|by destruct rest].
  destruct (last rest) as [r2|] eqn:Hr2; [|by apply last_None in Hr2].
  assert (last (seg ++ rest) = Some r2) as Hlast by (by rewrite last_app, Hr2).
  assert (head (seg ++ rest) = Some f) as Hhead by (by destruct seg).
  rewrite Hlast, Hhead in Hs. apply dseg_app in Hs as [S R]. rewrite Hr1, Hz in *. cbn [default from_option id] in *.
  assert (f ∈ seg) by (destruct seg; simplify_eq/=; by left).
  assert (r1 ∈ rest) by (destruct rest; simplify_eq/=; by left).
  assert (z ∈ seg) by (apply last_Some in Hz as [y ->]; set_solver).
  assert (r2 ∈ rest) by (apply last_Some in Hr2 as [y ->]; set_solver).
  destruct (dseg_head _ _ _ _ _ S Hf) as [q2 L2]. destruct (dseg_last _ _ _ _ _ S Hz) as [q3 L3].
  destruct (set_next_last h z rest f r2 r1 Hd2 R Hr2) as (h1 & E1 & R1 & F1).
  destruct (set_prev_head h1 z rest r1 r1 r2 Hd2 R1 Hr1) as (h2 & E2 & R2 & F2).
  assert (dseg h1 r2 seg r1) as S1 by (eapply dseg_framed; [exact F1| |done]; not_in).
  destruct (dseg_head _ _ _ _ _ S1 Hf) as [q4 L4]. destruct (dseg_last _ _ _ _ _ S1 Hz) as [q5 L5].
  exists h2, r2, r1. unfold detach.
  rewrite (cstate_bind_step _ _ _ _ _ (prev_of_ok _ _ _ L2)), (cstate_bind_step _ _ _ _ _ (next_of_ok _ _ _ L3)).
  cbn [l_prev l_next].
  rewrite (cstate_bind_step _ _ _ _ _ E1), (cstate_bind_step _ _ _ _ _ (next_of_ok _ _ _ L5)),
    (cstate_bind_step _ _ _ _ _ (prev_of_ok _ _ _ L4)). cbn [l_prev l_next].
  rewrite (cstate_bind_step _ _ _ _ _ E2). split; [done|]. split; [|split_and!; [|done|]].
  - split; [done|]. by rewrite Hr2, Hr1.
  - eapply dseg_framed; [exact F2| |exact S1]. not_in.
  - etrans; eapply framed_mono; [|exact F1| |exact F2]; set_solver.
Qed.

Lemma list_insert_ok h b l e :
  ring h (b :: l) -> e ∉ b :: l -> is_Some (h !! e) ->
  exists h', list_insert b e h = Ret (tt, h') /\ ring h' (b :: l ++ [e]) /\ framed (e :: b :: l) h h'.
Proof.
  intros Hr He [[p n] Ee]. apply (attach_ok h b l p [e] n e e Hr); [apply NoDup_singleton|by split|done|done|].
  intros q Hq Hx. apply list_elem_of_singleton in Hx as ->. by apply He.
Qed.

Lemma list_remove_ok h e l :
  ring h (e :: l) -> l <> [] ->
  exists h' n, list_remove e h = Ret (n, h') /\ head l = Some n /\ ring h' l /\ framed l h h'.
Proof.
  intros Hr Hne.
  destruct (detach_ok (next_of e) h [e] l e e Hr eq_refl eq_refl Hne) as (h' & p & n & E & R & [S _] & Hn & F).
  cbn in S. exists h', n. change (list_remove e h) with (detach e e (next_of e) h).
  rewrite E, (next_of_ok _ _ _ S). by split_and!.
Qed.

(** Removing the only element of a ring changes nothing. *)
Lemma list_remove_single h e : ring h [e] -> exists h', list_remove e h = Ret (e, h') /\ ring h' [e] /\ framed [e] h h'.
Proof.
  intros Hr. apply ring_cons in Hr as (Hd & He & _). cbn in He.
  destruct (set_link_next h e _ e He) as (h1 & E1 & L1 & F1).
  destruct (set_link_prev h1 e _ e L1) as (h2 & E2 & L2 & F2). cbn in *.
  exists h2. unfold list_remove.
  rewrite (cstate_bind_step _ _ _ _ _ (prev_of_ok _ _ _ He)), (cstate_bind_step _ _ _ _ _ (next_of_ok _ _ _ He)).
  cbn [l_prev l_next].
  rewrite (cstate_bind_step _ _ _ _ _ E1), (cstate_bind_step _ _ _ _ _ (next_of_ok _ _ _ L1)),
    (cstate_bind_step _ _ _ _ _ (prev_of_ok _ _ _ L1)). cbn [l_prev l_next].
  rewrite (cstate_bind_step _ _ _ _ _ E2), (next_of_ok _ _ _ L2).
  split; [done|]. split; [by apply ring_cons|by etrans].
Qed.

Lemma list_replace_ok h pos l e :
  ring h (pos :: l) -> e ∉ pos :: l -> is_Some (h !! e) ->
  exists h', list_replace e pos h = Ret (tt, h') /\ ring h' (e :: l) /\ framed (e :: pos :: l) h h'.
Proof.
  intros Hr He [le Ee]. apply ring_cons in Hr as (Hd & Hp & Hl). apply NoDup_cons in Hd as [Hn Hd].
  assert (e <> pos) as Hep by (intros ->; apply He; by left). assert (e ∉ l) as Hel by (intros ?; apply He; by right).
  destruct (set_link_next h e le (default pos (head l)) Ee) as (h1 & E1 & L1 & F1).
  unfold list_replace. rewrite (cstate_bind_step _ _ _ _ _ (next_of_ok _ _ _ Hp)). cbn [l_next].
  rewrite (cstate_bind_step _ _ _ _ _ E1), (cstate_bind_step _ _ _ _ _ (next_of_ok _ _ _ L1)). cbn [l_next].
  assert (h1 !! pos = Some (MkLink (default pos (last l)) (default pos (head l)))) as P1 by (apply (framed_lookup [e] h); [done|not_in|done]).
  destruct l as [|n l'].
  - cbn [last head default] in *.
    destruct (set_link_prev h1 pos _ e P1) as (h2 & E2 & L2 & F2). cbn [l_next] in L2.
    assert (h2 !! e = Some (MkLink (l_prev le) pos)) as M2 by (apply (framed_lookup [pos] h1); [done|not_in|done]).
    destruct (set_link_prev h2 e _ e M2) as (h3 & E3 & L3 & F3). cbn [l_next] in L3.
    destruct (set_link_next h3 e _ e L3) as (h4 & E4 & L4 & F4). cbn [l_prev] in L4.
    exists h4. rewrite (cstate_bind_step _ _ _ _ _ E2), (cstate_bind_step _ _ _ _ _ (prev_of_ok _ _ _ L2)). cbn [l_prev].
    rewrite (cstate_bind_step _ _ _ _ _ E3), (cstate_bind_step _ _ _ _ _ (prev_of_ok _ _ _ L3)).
    cbn [l_prev]. rewrite E4.
    split; [done|]. split; [apply ring_cons; split_and!; [apply NoDup_singleton|exact L4|done]|].
    etrans; [eapply framed_mono; [|exact F1]; set_solver|]. etrans; [eapply framed_mono; [|exact F2]; set_solver|].
    etrans; eapply framed_mono; [|exact F3| |exact F4]; set_solver.
  - destruct (last (n :: l')) as [t|] eqn:Ht; [|by apply last_None in Ht].
    assert (t ∈ n :: l') by (apply last_Some in Ht as [z ->]; set_solver).
    cbn [head default] in *.
    assert (dseg h1 pos (n :: l') pos) as S1 by (eapply dseg_framed; [exact F1| |done]; not_in).
    destruct (set_prev_head h1 pos (n :: l') pos n e Hd S1 eq_refl) as (h2 & E2 & S2 & F2).
    assert (h2 !! e = Some (MkLink (l_prev le) n)) as M2 by (apply (framed_lookup [n] h1); [done| |done]; set_solver).
    assert (h2 !! pos = Some (MkLink t n)) as P2 by (apply (framed_lookup [n] h1); [done| |done]; set_solver).
    destruct (set_link_prev h2 e _ t M2) as (h3 & E3 & L3 & F3). cbn [l_next] in L3.
    assert (dseg h3 e (n :: l') pos) as S3 by (eapply dseg_framed; [exact F3| |done]; not_in).
    destruct (set_next_last h3 e (n :: l') pos t e Hd S3 Ht) as (h4 & E4 & S4 & F4).
    exists h4. rewrite (cstate_bind_step _ _ _ _ _ E2), (cstate_bind_step _ _ _ _ _ (prev_of_ok _ _ _ P2)). cbn [l_prev].
    rewrite (cstate_bind_step _ _ _ _ _ E3), (cstate_bind_step _ _ _ _ _ (prev_of_ok _ _ _ L3)).
    cbn [l_prev]. rewrite E4.
    split; [done|]. split.
    + apply ring_cons. split; [by constructor|]. split; [|done]. rewrite Ht.
      apply (framed_lookup [t] h3); [done| |done]. set_solver.
    + etrans; [eapply framed_mono; [|exact F1]; set_solver|]. etrans; [eapply framed_mono; [|exact F2]; set_solver|].
      etrans; eapply framed_mono; [|exact F3| |exact F4]; set_solver.
Qed.

(** [first ... last] leaves a ring with at least one other element, from [rest] on, and goes
    in front of [b]. *)
Lemma list_splice_ok h b l seg rest first :
  ring h (b :: l) -> ring h (seg ++ rest) -> head seg = Some first -> rest <> [] ->
  (forall q, q ∈ b :: l -> q ∉ seg ++ rest) ->
  exists h', list_splice b first (default O (head rest)) h = Ret (tt, h') /\ ring h' (b :: l ++ seg)
    /\ ring h' rest /\ framed (seg ++ rest ++ b :: l) h h'.
Proof.
  intros Hr Hs Hf Hne Hdis.
  destruct (last seg) as [z|] eqn:Hz; [|by apply last_None in Hz; subst].
  destruct (head rest) as [r1|] eqn:Hr1; [|by destruct rest]. cbn [default from_option id].
  assert (first ∈ seg) as Hfi by (destruct seg; simplify_eq/=; by left).
  assert (r1 ∈ rest) as Hri by (destruct rest; simplify_eq/=; by left).
  pose proof (proj1 Hs) as Hd. apply NoDup_app in Hd as (Hd1 & Hd12 & _).
  destruct (detach_ok (attach b first z) h seg rest first z Hs Hf Hz Hne) as (h1 & p & n & E1 & R1 & S1 & _ & F1).
  assert (ring h1 (b :: l)) as Hr1' by (eapply ring_framed; [exact F1| |exact Hr]; set_solver).
  destruct (attach_ok h1 b l p seg n first z Hr1' Hd1 S1 Hf Hz) as (h2 & E2 & R2 & F2); [set_solver|].
  assert (exists q, h !! r1 = Some (MkLink z q)) as [q L].
  { destruct Hs as [_ Hs]. apply dseg_app in Hs as [_ Hs]. rewrite Hz in Hs. cbn in Hs. by eapply dseg_head. }
  exists h2. split_and!; [|done| |].
  - unfold list_splice. destruct (Nat.eqb_spec first r1) as [->|_]; [by destruct (Hd12 r1)|cbv iota].
    rewrite (cstate_bind_step _ _ _ _ _ (prev_of_ok _ _ _ L)). cbn [l_prev].
    change (detach first z (attach b first z) h = Ret (tt, h2)). by rewrite E1.
  - eapply ring_framed; [exact F2| |exact R1]. set_solver.
  - etrans; [eapply framed_mono; [|exact F1]; set_solver|eapply framed_mono; [|exact F2]; set_solver].
Qed.

Lemma list_moved_ok h old l p :
  ring h (old :: l) -> l <> [] -> p ∉ old :: l -> h !! p = h !! old ->
  exists h', list_moved p h = Ret (tt, h') /\ ring h' (p :: l) /\ framed l h h'.
Proof.
  intros Hr Hne Hp Ep. apply ring_cons in Hr as (Hd & Ho & Hl). apply NoDup_cons in Hd as [Hn Hd].
  assert (p ∉ l) as Hpl by (intros ?; apply Hp; by right).
  destruct (last l) as [t|] eqn:Ht; [|by apply last_None in Ht].
  destruct (head l) as [n|] eqn:Hh; [|by destruct l]. cbn [default from_option id] in Ho. rewrite Ho in Ep.
  assert (t ∈ l) by (apply last_Some in Ht as [z ->]; set_solver).
  assert (n ∈ l) by (destruct l; simplify_eq/=; by left).
  destruct (set_prev_head h old l old n p Hd Hl Hh) as (h1 & E1 & S1 & F1).
  assert (h1 !! p = Some (MkLink t n)) as P1 by (apply (framed_lookup [n] h); [done|not_in|done]).
  destruct (set_next_last h1 p l old t p Hd S1 Ht) as (h2 & E2 & S2 & F2).
  exists h2. unfold list_moved. rewrite (cstate_bind_step _ _ _ _ _ (next_of_ok _ _ _ Ep)). cbn [l_next].
  rewrite (cstate_bind_step _ _ _ _ _ E1), (cstate_bind_step _ _ _ _ _ (prev_of_ok _ _ _ P1)).
  split; [exact E2|]. split.
  - apply ring_cons. split; [by constructor|]. split; [|done]. rewrite Ht, Hh.
    apply (framed_lookup [t] h1); [done|not_in|done].
  - etrans; eapply framed_mono; [|exact F1| |exact F2]; set_solver.
Qed.

Lemma list_visit_ok h b fuel : forall p xs,
  dseg h p xs b -> b ∉ xs -> (length xs <= fuel)%nat ->
  list_visit fuel b (default b (head xs)) h = Ret (xs, h).
Proof.
  induction fuel as [|f IH]; intros p [|x xs] Hs Hb Hf; cbn [list_visit head default length] in *;
    try (by rewrite Nat.eqb_refl); [lia|]. destruct Hs as [Hx Hs].
  cbn [from_option id]. destruct (Nat.eqb_spec x b) as [->|_]; [destruct Hb; by left|cbv iota].
  rewrite (cstate_bind_step _ _ _ _ _ (next_of_ok _ _ _ Hx)). cbn [l_next].
  rewrite (cstate_bind_step _ _ _ _ _ (IH x xs Hs ltac:(set_solver) ltac:(lia))). done.
Qed.

Lemma size_loop_ok h b fuel : forall p xs cnt,
  dseg h p xs b -> b ∉ xs -> (length xs <= fuel)%nat -> 0 <= cnt -> cnt + Z.of_nat (length xs) < 2 ^ 64 ->
  size_loop fuel b (default b (head xs)) cnt h = Ret (cnt + Z.of_nat (length xs), h).
Proof.
  induction fuel as [|f IH]; intros p [|x xs] cnt Hs Hb Hf Hc Hn; cbn [size_loop head default length from_option id] in *;
    try (rewrite Nat.eqb_refl; by rewrite Z.add_0_r); [lia|]. destruct Hs as [Hx Hs].
  destruct (Nat.eqb_spec x b) as [->|_]; [destruct Hb; by left|cbv iota].
  rewrite (cstate_bind_step _ _ _ _ _ (next_of_ok _ _ _ Hx)). cbn [l_next].
  rewrite wrap_small by lia. rewrite (IH x xs) by (done || set_solver || lia). do 2 f_equal. lia.
Qed.

(** What the functions that only look return on a list [l] with head [b]. *)
Record list_queries (h : links) (b : nat) (l : list nat) : Prop := {
  lq_empty : list_is_empty b h = Ret (bool_decide (l = []), h);
  lq_short : list_is_short b h = Ret (bool_decide (length l <= 1)%nat, h);
  lq_singleton : list_is_singleton b h = Ret (bool_decide (length l = 1)%nat, h);
  lq_front : list_front b h = match head l with Some x => Ret (x, h) | None => Stuck AssertFail end;
  lq_back : list_back b h = match last l with Some x => Ret (x, h) | None => Stuck AssertFail end;
  lq_each : list_for_each (length l) b h = Ret (l, h);
  lq_size : Z.of_nat (length l) < 2 ^ 64 -> list_size (length l) b h = Ret (Z.of_nat (length l), h)
}.

Lemma list_queries_ok h b l : ring h (b :: l) -> list_queries h b l.
Proof.
  intros Hr. apply ring_cons in Hr as (Hd & Hb & Hl). apply NoDup_cons in Hd as [Hn Hd].
  pose proof (next_of_ok _ _ _ Hb) as En. pose proof (prev_of_ok _ _ _ Hb) as Ep. cbn [l_next l_prev] in En, Ep.
  assert (list_is_empty b h = Ret (bool_decide (l = []), h)) as Ee.
  { unfold list_is_empty. rewrite (cstate_bind_step _ _ _ _ _ En). unfold mret, cstate_ret. do 2 f_equal.
    destruct l as [|x l]; [by cbn; rewrite Nat.eqb_refl|]. rewrite bool_decide_false by done.
    cbn [default head from_option id].
    apply Nat.eqb_neq. intros ->. apply Hn. by left. }
  assert (list_is_short b h = Ret (bool_decide (length l <= 1)%nat, h)) as Es.
  { unfold list_is_short. rewrite (cstate_bind_step _ _ _ _ _ En), (cstate_bind_step _ _ _ _ _ Ep).
    unfold mret, cstate_ret. do 2 f_equal. destruct l as [|x [|y l]].
    - cbn. by rewrite Nat.eqb_refl.
    - cbn. by rewrite Nat.eqb_refl.
    - rewrite bool_decide_false by (cbn; lia). rewrite last_cons.
      destruct (last (y :: l)) as [z|] eqn:Ez; [|by apply last_None in Ez]. cbn [default head from_option id].
      apply Nat.eqb_neq. intros <-. apply NoDup_cons in Hd as [Hx _]. apply Hx.
      apply last_Some in Ez as [w ->]. set_solver. }
  split; [done|done| | | | |].
  - unfold list_is_singleton. rewrite (cstate_bind_step _ _ _ _ _ Es).
    destruct l as [|x [|y l]]; cbn [length].
    + rewrite bool_decide_true by lia. by rewrite (cstate_bind_step _ _ _ _ _ Ee).
    + rewrite bool_decide_true by lia. by rewrite (cstate_bind_step _ _ _ _ _ Ee).
    + rewrite bool_decide_false by lia. by rewrite bool_decide_false by lia.
  - unfold list_front. rewrite (cstate_bind_step _ _ _ _ _ Ee). destruct l as [|x l]; [done|].
    rewrite bool_decide_false by done. exact En.
  - unfold list_back. rewrite (cstate_bind_step _ _ _ _ _ Ee). destruct (last l) as [x|] eqn:E.
    + rewrite bool_decide_false by (by intros ->). exact Ep.
    + apply last_None in E as ->. done.
  - unfold list_for_each. rewrite (cstate_bind_step _ _ _ _ _ En). by apply (list_visit_ok h b _ b).
  - intros Hs. unfold list_size. rewrite (cstate_bind_step _ _ _ _ _ En).
    rewrite (size_loop_ok h b _ b l 0) by (done || lia). do 2 f_equal.
Qed.

(** *** Positions in a list with a head *)

Lemma list_push_front_ok h b l e :
  ring h (b :: l) -> e ∉ b :: l -> is_Some (h !! e) ->
  exists h', list_push_front b e h = Ret (tt, h') /\ ring h' (b :: e :: l) /\ framed (e :: b :: l) h h'.
Proof.
  intros Hr He Hs. pose proof (proj1 (ring_cons _ _ _) Hr) as (_ & Hb & _).
  unfold list_push_front. rewrite (cstate_bind_step _ _ _ _ _ (next_of_ok _ _ _ Hb)). cbn [l_next].
  destruct l as [|x l]; [by apply (list_insert_ok h b [] e)|].
  apply (ring_rotate h [b] (x :: l)) in Hr. cbn [head default from_option id app] in *.
  destruct (list_insert_ok h x (l ++ [b]) e Hr) as (h' & E & R & F); [set_solver|done|].
  exists h'. split; [done|]. split.
  - apply (ring_rotate h' (x :: l) [b; e]). by rewrite <- app_assoc in R.
  - eapply framed_mono; [|exact F]. set_solver.
Qed.

Lemma list_insert_at h b l1 x l2 e :
  ring h (b :: l1 ++ x :: l2) -> e ∉ b :: l1 ++ x :: l2 -> is_Some (h !! e) ->
  exists h', list_insert x e h = Ret (tt, h') /\ ring h' (b :: l1 ++ e :: x :: l2)
    /\ framed (e :: b :: l1 ++ x :: l2) h h'.
Proof.
  intros Hr He Hs. apply (ring_rotate h (b :: l1) (x :: l2)) in Hr.
  destruct (list_insert_ok h x (l2 ++ b :: l1) e Hr) as (h' & E & R & F); [set_solver|done|].
  exists h'. split; [done|]. split.
    rewrite <- app_assoc in R. apply (ring_rotate h' (x :: l2) ((b :: l1) ++ [e])) in R.
    by rewrite <- app_assoc in R.
  - eapply framed_mono; [|exact F]. set_solver.
Qed.

Lemma list_remove_at h b l1 x l2 :
  ring h (b :: l1 ++ x :: l2) ->
  exists h', list_remove x h = Ret (default b (head l2), h') /\ ring h' (b :: l1 ++ l2)
    /\ framed (b :: l1 ++ l2) h h'.
Proof.
  intros Hr. apply (ring_rotate h (b :: l1) (x :: l2)) in Hr.
  destruct (list_remove_ok h x (l2 ++ b :: l1) Hr) as (h' & n & E & Hn & R & F); [by destruct l2|].
  exists h'. split; [rewrite E; do 2 f_equal; by destruct l2; simplify_eq/=|]. split.
  - by apply (ring_rotate h' l2 (b :: l1)).
  - eapply framed_mono; [|exact F]. set_solver.
Qed.

(** C30: a doubly linked list is the sequence of its elements.  On a ring that stands for the
    list [l] with head [b], every function ends without a fault, does to the sequence what its
    comment says, and writes no link outside the list and the element it is given. *)
Theorem dlist_refines_sequence h b l :
  ring h (b :: l) ->
  list_queries h b l
  /\ (forall e, e ∉ b :: l -> is_Some (h !! e) ->
       (exists h', list_push_front b e h = Ret (tt, h') /\ ring h' (b :: e :: l) /\ framed (e :: b :: l) h h')
       /\ (exists h', list_push_back b e h = Ret (tt, h') /\ ring h' (b :: l ++ [e]) /\ framed (e :: b :: l) h h')
       /\ (forall l1 x l2, l = l1 ++ x :: l2 ->
            (exists h', list_insert x e h = Ret (tt, h') /\ ring h' (b :: l1 ++ e :: x :: l2) /\ framed (e :: b :: l) h h')
            /\ (exists h', list_replace e x h = Ret (tt, h') /\ ring h' (b :: l1 ++ e :: l2) /\ framed (e :: b :: l) h h')))
  /\ (forall l1 x l2, l = l1 ++ x :: l2 ->
       exists h', list_remove x h = Ret (default b (head l2), h') /\ ring h' (b :: l1 ++ l2) /\ framed (b :: l1 ++ l2) h h')
  /\ (forall x l', l = x :: l' -> exists h', list_pop_front b h = Ret (x, h') /\ ring h' (b :: l') /\ framed (b :: l') h h')
  /\ (forall l' x, l = l' ++ [x] -> exists h', list_pop_back b h = Ret (x, h') /\ ring h' (b :: l') /\ framed (b :: l') h h')
  /\ (forall c l1 s seg l2, ring h (c :: l1 ++ (s :: seg) ++ l2) ->
       (forall q, q ∈ b :: l -> q ∉ c :: l1 ++ (s :: seg) ++ l2) ->
       exists h', list_splice b s (default c (head l2)) h = Ret (tt, h') /\ ring h' (b :: l ++ s :: seg)
         /\ ring h' (c :: l1 ++ l2)).
Proof.
  intros Hr. pose proof (proj1 (ring_cons _ _ _) Hr) as (_ & Hb & _).
  split; [by apply list_queries_ok|]. split; [|split; [|split; [|split]]].
  - intros e He Hs. split; [by apply list_push_front_ok|]. split; [by apply list_insert_ok|].
    intros l1 x l2 ->. split; [by apply list_insert_at|].
    pose proof (ring_rotate h (b :: l1) (x :: l2) Hr) as Hr'.
    destruct (list_replace_ok h x (l2 ++ b :: l1) e Hr') as (h' & E & R & F); [set_solver|done|].
    exists h'. split; [done|]. split; [by apply (ring_rotate h' (e :: l2) (b :: l1))|].
    eapply framed_mono; [|exact F]. set_solver.
  - intros l1 x l2 ->. by apply list_remove_at.
  - intros x l' ->. destruct (list_remove_at h b [] x l' Hr) as (h' & E & R & F). exists h'.
    unfold list_pop_front. rewrite (cstate_bind_step _ _ _ _ _ (next_of_ok _ _ _ Hb)). cbn [l_next head default from_option id].
    by rewrite (cstate_bind_step _ _ _ _ _ E).
  - intros l' x ->. destruct (list_remove_at h b l' x [] Hr) as (h' & E & R & F). exists h'.
    rewrite app_nil_r in R, F. rewrite last_snoc in Hb.
    unfold list_pop_back. rewrite (cstate_bind_step _ _ _ _ _ (prev_of_ok _ _ _ Hb)). cbn [l_prev default from_option id].
    by rewrite (cstate_bind_step _ _ _ _ _ E).
  - intros c l1 s seg l2 Hc Hd. apply (ring_rotate h (c :: l1)) in Hc. rewrite <- app_assoc in Hc.
    destruct (list_splice_ok h b l (s :: seg) (l2 ++ c :: l1) s Hr Hc eq_refl) as (h' & E & R1 & R2 & _);
      [by destruct l2| |].
    + intros q Hq Hq'. apply (Hd q Hq). set_solver.
    + exists h'. split; [rewrite <- E; by destruct l2|]. split; [done|]. by apply (ring_rotate h' l2 (c :: l1)).
Qed.

Definition demo_links : links :=
  <[1%nat := MkLink 3 2]> (<[2%nat := MkLink 1 3]> (<[3%nat := MkLink 2 1]> (<[4%nat := MkLink 0 0]> ∅))).

Lemma demo_ring : ring demo_links [1; 2; 3]%nat.
Proof. split; [|by split_and!]. repeat constructor; set_solver. Qed.

Lemma dlist_refines_sequence_witness :
  exists h1, list_insert 3 4 demo_links = Ret (tt, h1) /\ ring h1 [1; 2; 4; 3]%nat.
Proof.
  destruct (dlist_refines_sequence demo_links 1 [2; 3]%nat demo_ring) as (_ & Hi & _).
  destruct (Hi 4%nat) as (_ & _ & Hx); [set_solver|by eexists|].
  destruct (Hx [2]%nat 3%nat [] eq_refl) as [(h1 & E & R & _) _]. exists h1. split; [exact E|exact R].
Defined.
