(* ===== verification/Flow.v ===== *)
(** * Flows and wildcards (lib/flow.h, lib/flow.c, lib/packets.h)

    The key that every packet is classified by, and the wildcards of a rule: for most fields a
    mask of the bits that count, for six of them a flag that says that the field does not
    count.  A field in network byte order is the number it denotes, so that htons and its like
    disappear; [flow_bytes] and [wildcards_bytes] are the structures as they lie in memory of
    a little-endian host, which the hashes and memcmp see.  Addresses are lists of bytes, and
    the loops over struct in6_addr are the ones over s6_addr.  The padding at the end of
    struct flow, which no function looks at, is left out.

    The second half reads both structures as a row of machine words with masks ([flow_words],
    [mask_words]): a flow matches a rule if it agrees with it on the bits of the masks. *)
From S2P Require Import Prelude Hash.

Local Open Scope Z_scope.

(** ** Data *)

Record flow := MkFlow {
  tun_id : Z; metadata : Z;
  ipv6_src : list Z; ipv6_dst : list Z; nd_target : list Z;
  skb_priority : Z; regs : list Z;
  nw_src : Z; nw_dst : Z; ipv6_label : Z;
  in_port : Z; vlan_tci : Z; dl_type : Z; tp_src : Z; tp_dst : Z;
  dl_src : list Z; dl_dst : list Z;
  nw_proto : Z; nw_tos : Z;
  arp_sha : list Z; arp_tha : list Z;
  nw_ttl : Z; nw_frag : Z
}.

Record flow_wildcards := MkWc {
  tun_id_mask : Z; metadata_mask : Z; wildcards : Z; reg_masks : list Z;
  nw_src_mask : Z; nw_dst_mask : Z;
  ipv6_src_mask : list Z; ipv6_dst_mask : list Z; nd_target_mask : list Z;
  ipv6_label_mask : Z; vlan_tci_mask : Z; tp_src_mask : Z; tp_dst_mask : Z; nw_frag_mask : Z;
  dl_src_mask : list Z; dl_dst_mask : list Z; arp_sha_mask : list Z; arp_tha_mask : list Z;
  zeros : Z
}.

#[export] Instance flow_eq_dec : EqDecision flow.
Proof. solve_decision. Defined.
#[export] Instance flow_wildcards_eq_dec : EqDecision flow_wildcards.
Proof. solve_decision. Defined.

Definition FLOW_N_REGS : nat := 8.
Definition FLOW_NW_FRAG_ANY : Z := 1.
Definition FLOW_NW_FRAG_LATER : Z := 2.
Definition FLOW_NW_FRAG_MASK : Z := Z.lor FLOW_NW_FRAG_ANY FLOW_NW_FRAG_LATER.

Definition FWW_IN_PORT : Z := 1.
Definition FWW_NW_DSCP : Z := 2.
Definition FWW_NW_ECN : Z := 4.
Definition FWW_NW_TTL : Z := 8.
Definition FWW_DL_TYPE : Z := 16.
Definition FWW_NW_PROTO : Z := 32.
Definition FWW_ALL : Z := 63.

Definition VLAN_VID_MASK : Z := 4095.
Definition VLAN_CFI : Z := 4096.
Definition VLAN_PCP_MASK : Z := 57344.
Definition VLAN_PCP_SHIFT : Z := 13.
Definition OFP10_VLAN_NONE : Z := 65535.
Definition IP_ECN_MASK : Z := 3.
Definition IP_DSCP_MASK : Z := 252.

Abbreviation UINT8_MAX := 255.
Abbreviation UINT16_MAX := 65535.
Abbreviation UINT32_MAX := 4294967295.
Abbreviation UINT64_MAX := 18446744073709551615.

Definition in6addr_any : list Z := replicate 16 0.
Definition in6addr_exact : list Z := replicate 16 255.

(** The complement of [x] as the width [w] of the operation has it, and a test of a flag. *)
Definition bnot (w x : Z) : Z := wrap w (Z.lnot x).
Definition has (wc flag : Z) : bool := negb (Z.land wc flag =? 0).

(** memset(flow, 0, sizeof *flow) *)
Definition flow_zero : flow :=
  {| tun_id := 0; metadata := 0; ipv6_src := replicate 16 0; ipv6_dst := replicate 16 0; nd_target := replicate 16 0;
     skb_priority := 0; regs := replicate 8 0; nw_src := 0; nw_dst := 0; ipv6_label := 0; in_port := 0; vlan_tci := 0;
     dl_type := 0; tp_src := 0; tp_dst := 0; dl_src := replicate 6 0; dl_dst := replicate 6 0; nw_proto := 0; nw_tos := 0;
     arp_sha := replicate 6 0; arp_tha := replicate 6 0; nw_ttl := 0; nw_frag := 0 |}.

(** *** Assignments to members *)

Definition with_tun_id (z : Z) (s : flow) : flow :=
  let '(MkFlow _ a2 a3 a4 a5 a6 a7 a8 a9 a10 a11 a12 a13 a14 a15 a16 a17 a18 a19 a20 a21 a22 a23) := s in
  MkFlow z a2 a3 a4 a5 a6 a7 a8 a9 a10 a11 a12 a13 a14 a15 a16 a17 a18 a19 a20 a21 a22 a23.
Definition with_metadata (z : Z) (s : flow) : flow :=
  let '(MkFlow a1 _ a3 a4 a5 a6 a7 a8 a9 a10 a11 a12 a13 a14 a15 a16 a17 a18 a19 a20 a21 a22 a23) := s in
  MkFlow a1 z a3 a4 a5 a6 a7 a8 a9 a10 a11 a12 a13 a14 a15 a16 a17 a18 a19 a20 a21 a22 a23.
Definition with_ipv6_src (z : list Z) (s : flow) : flow :=
  let '(MkFlow a1 a2 _ a4 a5 a6 a7 a8 a9 a10 a11 a12 a13 a14 a15 a16 a17 a18 a19 a20 a21 a22 a23) := s in
  MkFlow a1 a2 z a4 a5 a6 a7 a8 a9 a10 a11 a12 a13 a14 a15 a16 a17 a18 a19 a20 a21 a22 a23.
Definition with_ipv6_dst (z : list Z) (s : flow) : flow :=
  let '(MkFlow a1 a2 a3 _ a5 a6 a7 a8 a9 a10 a11 a12 a13 a14 a15 a16 a17 a18 a19 a20 a21 a22 a23) := s in
  MkFlow a1 a2 a3 z a5 a6 a7 a8 a9 a10 a11 a12 a13 a14 a15 a16 a17 a18 a19 a20 a21 a22 a23.
Definition with_nd_target (z : list Z) (s : flow) : flow :=
  let '(MkFlow a1 a2 a3 a4 _ a6 a7 a8 a9 a10 a11 a12 a13 a14 a15 a16 a17 a18 a19 a20 a21 a22 a23) := s in
  MkFlow a1 a2 a3 a4 z a6 a7 a8 a9 a10 a11 a12 a13 a14 a15 a16 a17 a18 a19 a20 a21 a22 a23.
Definition with_skb_priority (z : Z) (s : flow) : flow :=
  let '(MkFlow a1 a2 a3 a4 a5 _ a7 a8 a9 a10 a11 a12 a13 a14 a15 a16 a17 a18 a19 a20 a21 a22 a23) := s in
  MkFlow a1 a2 a3 a4 a5 z a7 a8 a9 a10 a11 a12 a13 a14 a15 a16 a17 a18 a19 a20 a21 a22 a23.
Definition with_regs (z : list Z) (s : flow) : flow :=
  let '(MkFlow a1 a2 a3 a4 a5 a6 _ a8 a9 a10 a11 a12 a13 a14 a15 a16 a17 a18 a19 a20 a21 a22 a23) := s in
  MkFlow a1 a2 a3 a4 a5 a6 z a8 a9 a10 a11 a12 a13 a14 a15 a16 a17 a18 a19 a20 a21 a22 a23.
Definition with_nw_src (z : Z) (s : flow) : flow :=
  let '(MkFlow a1 a2 a3 a4 a5 a6 a7 _ a9 a10 a11 a12 a13 a14 a15 a16 a17 a18 a19 a20 a21 a22 a23) := s in
  MkFlow a1 a2 a3 a4 a5 a6 a7 z a9 a10 a11 a12 a13 a14 a15 a16 a17 a18 a19 a20 a21 a22 a23.
Definition with_nw_dst (z : Z) (s : flow) : flow :=
  let '(MkFlow a1 a2 a3 a4 a5 a6 a7 a8 _ a10 a11 a12 a13 a14 a15 a16 a17 a18 a19 a20 a21 a22 a23) := s in
  MkFlow a1 a2 a3 a4 a5 a6 a7 a8 z a10 a11 a12 a13 a14 a15 a16 a17 a18 a19 a20 a21 a22 a23.
Definition with_ipv6_label (z : Z) (s : flow) : flow :=
  let '(MkFlow a1 a2 a3 a4 a5 a6 a7 a8 a9 _ a11 a12 a13 a14 a15 a16 a17 a18 a19 a20 a21 a22 a23) := s in
  MkFlow a1 a2 a3 a4 a5 a6 a7 a8 a9 z a11 a12 a13 a14 a15 a16 a17 a18 a19 a20 a21 a22 a23.
Definition with_in_port (z : Z) (s : flow) : flow :=
  let '(MkFlow a1 a2 a3 a4 a5 a6 a7 a8 a9 a10 _ a12 a13 a14 a15 a16 a17 a18 a19 a20 a21 a22 a23) := s in
  MkFlow a1 a2 a3 a4 a5 a6 a7 a8 a9 a10 z a12 a13 a14 a15 a16 a17 a18 a19 a20 a21 a22 a23.
Definition with_vlan_tci (z : Z) (s : flow) : flow :=
  let '(MkFlow a1 a2 a3 a4 a5 a6 a7 a8 a9 a10 a11 _ a13 a14 a15 a16 a17 a18 a19 a20 a21 a22 a23) := s in
  MkFlow a1 a2 a3 a4 a5 a6 a7 a8 a9 a10 a11 z a13 a14 a15 a16 a17 a18 a19 a20 a21 a22 a23.
Definition with_dl_type (z : Z) (s : flow) : flow :=
  let '(MkFlow a1 a2 a3 a4 a5 a6 a7 a8 a9 a10 a11 a12 _ a14 a15 a16 a17 a18 a19 a20 a21 a22 a23) := s in
  MkFlow a1 a2 a3 a4 a5 a6 a7 a8 a9 a10 a11 a12 z a14 a15 a16 a17 a18 a19 a20 a21 a22 a23.
Definition with_tp_src (z : Z) (s : flow) : flow :=
  let '(MkFlow a1 a2 a3 a4 a5 a6 a7 a8 a9 a10 a11 a12 a13 _ a15 a16 a17 a18 a19 a20 a21 a22 a23) := s in
  MkFlow a1 a2 a3 a4 a5 a6 a7 a8 a9 a10 a11 a12 a13 z a15 a16 a17 a18 a19 a20 a21 a22 a23.
Definition with_tp_dst (z : Z) (s : flow) : flow :=
  let '(MkFlow a1 a2 a3 a4 a5 a6 a7 a8 a9 a10 a11 a12 a13 a14 _ a16 a17 a18 a19 a20 a21 a22 a23) := s in
  MkFlow a1 a2 a3 a4 a5 a6 a7 a8 a9 a10 a11 a12 a13 a14 z a16 a17 a18 a19 a20 a21 a22 a23.
Definition with_dl_src (z : list Z) (s : flow) : flow :=
  let '(MkFlow a1 a2 a3 a4 a5 a6 a7 a8 a9 a10 a11 a12 a13 a14 a15 _ a17 a18 a19 a20 a21 a22 a23) := s in
  MkFlow a1 a2 a3 a4 a5 a6 a7 a8 a9 a10 a11 a12 a13 a14 a15 z a17 a18 a19 a20 a21 a22 a23.
Definition with_dl_dst (z : list Z) (s : flow) : flow :=
  let '(MkFlow a1 a2 a3 a4 a5 a6 a7 a8 a9 a10 a11 a12 a13 a14 a15 a16 _ a18 a19 a20 a21 a22 a23) := s in
  MkFlow a1 a2 a3 a4 a5 a6 a7 a8 a9 a10 a11 a12 a13 a14 a15 a16 z a18 a19 a20 a21 a22 a23.
Definition with_nw_proto (z : Z) (s : flow) : flow :=
  let '(MkFlow a1 a2 a3 a4 a5 a6 a7 a8 a9 a10 a11 a12 a13 a14 a15 a16 a17 _ a19 a20 a21 a22 a23) := s in
  MkFlow a1 a2 a3 a4 a5 a6 a7 a8 a9 a10 a11 a12 a13 a14 a15 a16 a17 z a19 a20 a21 a22 a23.
Definition with_nw_tos (z : Z) (s : flow) : flow :=
  let '(MkFlow a1 a2 a3 a4 a5 a6 a7 a8 a9 a10 a11 a12 a13 a14 a15 a16 a17 a18 _ a20 a21 a22 a23) := s in
  MkFlow a1 a2 a3 a4 a5 a6 a7 a8 a9 a10 a11 a12 a13 a14 a15 a16 a17 a18 z a20 a21 a22 a23.
Definition with_arp_sha (z : list Z) (s : flow) : flow :=
  let '(MkFlow a1 a2 a3 a4 a5 a6 a7 a8 a9 a10 a11 a12 a13 a14 a15 a16 a17 a18 a19 _ a21 a22 a23) := s in
  MkFlow a1 a2 a3 a4 a5 a6 a7 a8 a9 a10 a11 a12 a13 a14 a15 a16 a17 a18 a19 z a21 a22 a23.
Definition with_arp_tha (z : list Z) (s : flow) : flow :=
  let '(MkFlow a1 a2 a3 a4 a5 a6 a7 a8 a9 a10 a11 a12 a13 a14 a15 a16 a17 a18 a19 a20 _ a22 a23) := s in
  MkFlow a1 a2 a3 a4 a5 a6 a7 a8 a9 a10 a11 a12 a13 a14 a15 a16 a17 a18 a19 a20 z a22 a23.
Definition with_nw_ttl (z : Z) (s : flow) : flow :=
  let '(MkFlow a1 a2 a3 a4 a5 a6 a7 a8 a9 a10 a11 a12 a13 a14 a15 a16 a17 a18 a19 a20 a21 _ a23) := s in
  MkFlow a1 a2 a3 a4 a5 a6 a7 a8 a9 a10 a11 a12 a13 a14 a15 a16 a17 a18 a19 a20 a21 z a23.
Definition with_nw_frag (z : Z) (s : flow) : flow :=
  let '(MkFlow a1 a2 a3 a4 a5 a6 a7 a8 a9 a10 a11 a12 a13 a14 a15 a16 a17 a18 a19 a20 a21 a22 _) := s in
  MkFlow a1 a2 a3 a4 a5 a6 a7 a8 a9 a10 a11 a12 a13 a14 a15 a16 a17 a18 a19 a20 a21 a22 z.

Definition with_tun_id_mask (z : Z) (s : flow_wildcards) : flow_wildcards :=
  let '(MkWc _ a2 a3 a4 a5 a6 a7 a8 a9 a10 a11 a12 a13 a14 a15 a16 a17 a18 a19) := s in
  MkWc z a2 a3 a4 a5 a6 a7 a8 a9 a10 a11 a12 a13 a14 a15 a16 a17 a18 a19.
Definition with_metadata_mask (z : Z) (s : flow_wildcards) : flow_wildcards :=
  let '(MkWc a1 _ a3 a4 a5 a6 a7 a8 a9 a10 a11 a12 a13 a14 a15 a16 a17 a18 a19) := s in
  MkWc a1 z a3 a4 a5 a6 a7 a8 a9 a10 a11 a12 a13 a14 a15 a16 a17 a18 a19.
Definition with_wildcards (z : Z) (s : flow_wildcards) : flow_wildcards :=
  let '(MkWc a1 a2 _ a4 a5 a6 a7 a8 a9 a10 a11 a12 a13 a14 a15 a16 a17 a18 a19) := s in
  MkWc a1 a2 z a4 a5 a6 a7 a8 a9 a10 a11 a12 a13 a14 a15 a16 a17 a18 a19.
Definition with_reg_masks (z : list Z) (s : flow_wildcards) : flow_wildcards :=
  let '(MkWc a1 a2 a3 _ a5 a6 a7 a8 a9 a10 a11 a12 a13 a14 a15 a16 a17 a18 a19) := s in
  MkWc a1 a2 a3 z a5 a6 a7 a8 a9 a10 a11 a12 a13 a14 a15 a16 a17 a18 a19.
Definition with_nw_src_mask (z : Z) (s : flow_wildcards) : flow_wildcards :=
  let '(MkWc a1 a2 a3 a4 _ a6 a7 a8 a9 a10 a11 a12 a13 a14 a15 a16 a17 a18 a19) := s in
  MkWc a1 a2 a3 a4 z a6 a7 a8 a9 a10 a11 a12 a13 a14 a15 a16 a17 a18 a19.
Definition with_nw_dst_mask (z : Z) (s : flow_wildcards) : flow_wildcards :=
  let '(MkWc a1 a2 a3 a4 a5 _ a7 a8 a9 a10 a11 a12 a13 a14 a15 a16 a17 a18 a19) := s in
  MkWc a1 a2 a3 a4 a5 z a7 a8 a9 a10 a11 a12 a13 a14 a15 a16 a17 a18 a19.
Definition with_ipv6_src_mask (z : list Z) (s : flow_wildcards) : flow_wildcards :=
  let '(MkWc a1 a2 a3 a4 a5 a6 _ a8 a9 a10 a11 a12 a13 a14 a15 a16 a17 a18 a19) := s in
  MkWc a1 a2 a3 a4 a5 a6 z a8 a9 a10 a11 a12 a13 a14 a15 a16 a17 a18 a19.
Definition with_ipv6_dst_mask (z : list Z) (s : flow_wildcards) : flow_wildcards :=
  let '(MkWc a1 a2 a3 a4 a5 a6 a7 _ a9 a10 a11 a12 a13 a14 a15 a16 a17 a18 a19) := s in
  MkWc a1 a2 a3 a4 a5 a6 a7 z a9 a10 a11 a12 a13 a14 a15 a16 a17 a18 a19.
Definition with_nd_target_mask (z : list Z) (s : flow_wildcards) : flow_wildcards :=
  let '(MkWc a1 a2 a3 a4 a5 a6 a7 a8 _ a10 a11 a12 a13 a14 a15 a16 a17 a18 a19) := s in
  MkWc a1 a2 a3 a4 a5 a6 a7 a8 z a10 a11 a12 a13 a14 a15 a16 a17 a18 a19.
Definition with_ipv6_label_mask (z : Z) (s : flow_wildcards) : flow_wildcards :=
  let '(MkWc a1 a2 a3 a4 a5 a6 a7 a8 a9 _ a11 a12 a13 a14 a15 a16 a17 a18 a19) := s in
  MkWc a1 a2 a3 a4 a5 a6 a7 a8 a9 z a11 a12 a13 a14 a15 a16 a17 a18 a19.
Definition with_vlan_tci_mask (z : Z) (s : flow_wildcards) : flow_wildcards :=
  let '(MkWc a1 a2 a3 a4 a5 a6 a7 a8 a9 a10 _ a12 a13 a14 a15 a16 a17 a18 a19) := s in
  MkWc a1 a2 a3 a4 a5 a6 a7 a8 a9 a10 z a12 a13 a14 a15 a16 a17 a18 a19.
Definition with_tp_src_mask (z : Z) (s : flow_wildcards) : flow_wildcards :=
  let '(MkWc a1 a2 a3 a4 a5 a6 a7 a8 a9 a10 a11 _ a13 a14 a15 a16 a17 a18 a19) := s in
  MkWc a1 a2 a3 a4 a5 a6 a7 a8 a9 a10 a11 z a13 a14 a15 a16 a17 a18 a19.
Definition with_tp_dst_mask (z : Z) (s : flow_wildcards) : flow_wildcards :=
  let '(MkWc a1 a2 a3 a4 a5 a6 a7 a8 a9 a10 a11 a12 _ a14 a15 a16 a17 a18 a19) := s in
  MkWc a1 a2 a3 a4 a5 a6 a7 a8 a9 a10 a11 a12 z a14 a15 a16 a17 a18 a19.
Definition with_nw_frag_mask (z : Z) (s : flow_wildcards) : flow_wildcards :=
  let '(MkWc a1 a2 a3 a4 a5 a6 a7 a8 a9 a10 a11 a12 a13 _ a15 a16 a17 a18 a19) := s in
  MkWc a1 a2 a3 a4 a5 a6 a7 a8 a9 a10 a11 a12 a13 z a15 a16 a17 a18 a19.
Definition with_dl_src_mask (z : list Z) (s : flow_wildcards) : flow_wildcards :=
  let '(MkWc a1 a2 a3 a4 a5 a6 a7 a8 a9 a10 a11 a12 a13 a14 _ a16 a17 a18 a19) := s in
  MkWc a1 a2 a3 a4 a5 a6 a7 a8 a9 a10 a11 a12 a13 a14 z a16 a17 a18 a19.
Definition with_dl_dst_mask (z : list Z) (s : flow_wildcards) : flow_wildcards :=
  let '(MkWc a1 a2 a3 a4 a5 a6 a7 a8 a9 a10 a11 a12 a13 a14 a15 _ a17 a18 a19) := s in
  MkWc a1 a2 a3 a4 a5 a6 a7 a8 a9 a10 a11 a12 a13 a14 a15 z a17 a18 a19.
Definition with_arp_sha_mask (z : list Z) (s : flow_wildcards) : flow_wildcards :=
  let '(MkWc a1 a2 a3 a4 a5 a6 a7 a8 a9 a10 a11 a12 a13 a14 a15 a16 _ a18 a19) := s in
  MkWc a1 a2 a3 a4 a5 a6 a7 a8 a9 a10 a11 a12 a13 a14 a15 a16 z a18 a19.
Definition with_arp_tha_mask (z : list Z) (s : flow_wildcards) : flow_wildcards :=
  let '(MkWc a1 a2 a3 a4 a5 a6 a7 a8 a9 a10 a11 a12 a13 a14 a15 a16 a17 _ a19) := s in
  MkWc a1 a2 a3 a4 a5 a6 a7 a8 a9 a10 a11 a12 a13 a14 a15 a16 a17 z a19.
Definition with_zeros (z : Z) (s : flow_wildcards) : flow_wildcards :=
  let '(MkWc a1 a2 a3 a4 a5 a6 a7 a8 a9 a10 a11 a12 a13 a14 a15 a16 a17 a18 _) := s in
  MkWc a1 a2 a3 a4 a5 a6 a7 a8 a9 a10 a11 a12 a13 a14 a15 a16 a17 a18 z.

(** *** Addresses *)

Definition eth_addr_is_zero (ea : list Z) : bool := fold_left Z.lor ea 0 =? 0.
Definition eth_mask_is_exact (ea : list Z) : bool := fold_left Z.land ea 255 =? 255.
Definition eth_addr_equals (a b : list Z) : bool := bool_decide (a = b).
Definition eth_addr_bitand (src mask : list Z) : list Z := zip_with Z.land src mask.

Definition differ (m : Z) (xy : Z * Z) : bool := negb (Z.land (Z.lxor xy.1 xy.2) m =? 0).

Definition eth_addr_equal_except (a b mask : list Z) : bool :=
  negb (existsb id (zip_with differ mask (zip a b))).

Definition ipv6_addr_equals (a b : list Z) : bool := bool_decide (a = b).
Definition ipv6_mask_is_any (m : list Z) : bool := ipv6_addr_equals m in6addr_any.
Definition ipv6_mask_is_exact (m : list Z) : bool := ipv6_addr_equals m in6addr_exact.
Definition ipv6_addr_bitand (a b : list Z) : list Z := zip_with Z.land a b.

(** The early return of the loop is the [&&] of its tests. *)
Fixpoint ipv6_equal_except (a b mask : list Z) : bool :=
  match a, b, mask with
  | x :: a', y :: b', m :: mask' => negb (differ m (x, y)) && ipv6_equal_except a' b' mask'
  | _, _, _ => true
  end.

(** *** Flows *)

Definition le_bytes (n : nat) (z : Z) : list Z := rev (be_bytes n z).

(** The first FLOW_SIG_SIZE bytes. *)
Definition flow_bytes (f : flow) : list Z :=
  be_bytes 8 (tun_id f) ++ be_bytes 8 (metadata f)
  ++ ipv6_src f ++ ipv6_dst f ++ nd_target f
  ++ le_bytes 4 (skb_priority f) ++ concat (le_bytes 4 <$> regs f)
  ++ be_bytes 4 (nw_src f) ++ be_bytes 4 (nw_dst f) ++ be_bytes 4 (ipv6_label f)
  ++ le_bytes 2 (in_port f) ++ be_bytes 2 (vlan_tci f) ++ be_bytes 2 (dl_type f)
  ++ be_bytes 2 (tp_src f) ++ be_bytes 2 (tp_dst f)
  ++ dl_src f ++ dl_dst f ++ be_bytes 1 (nw_proto f) ++ be_bytes 1 (nw_tos f)
  ++ arp_sha f ++ arp_tha f ++ be_bytes 1 (nw_ttl f) ++ be_bytes 1 (nw_frag f).

(** memcmp: the sign of the first difference of two byte strings. *)
Fixpoint memcmp (a b : list Z) : Z :=
  match a, b with
  | x :: a', y :: b' => if x <? y then -1 else if y <? x then 1 else memcmp a' b'
  | _, _ => 0
  end.

Definition flow_compare_3way (a b : flow) : Z := memcmp (flow_bytes a) (flow_bytes b).
Definition flow_equal (a b : flow) : bool := flow_compare_3way a b =? 0.
Definition flow_hash (f : flow) (basis : Z) : Z := hash_bytes (flow_bytes f) basis.

Definition flow_zero_wildcards (f : flow) (w : flow_wildcards) : flow :=
  let wc := wildcards w in
  let tos := nw_tos f in
  let tos := if has wc FWW_NW_DSCP then Z.land tos (bnot 8 IP_DSCP_MASK) else tos in
  let tos := if has wc FWW_NW_ECN then Z.land tos (bnot 8 IP_ECN_MASK) else tos in
  {| tun_id := Z.land (tun_id f) (tun_id_mask w);
     metadata := Z.land (metadata f) (metadata_mask w);
     ipv6_src := ipv6_addr_bitand (ipv6_src f) (ipv6_src_mask w);
     ipv6_dst := ipv6_addr_bitand (ipv6_dst f) (ipv6_dst_mask w);
     nd_target := ipv6_addr_bitand (nd_target f) (nd_target_mask w);
     skb_priority := 0;
     regs := zip_with Z.land (regs f) (reg_masks w);
     nw_src := Z.land (nw_src f) (nw_src_mask w);
     nw_dst := Z.land (nw_dst f) (nw_dst_mask w);
     ipv6_label := Z.land (ipv6_label f) (ipv6_label_mask w);
     in_port := if has wc FWW_IN_PORT then 0 else in_port f;
     vlan_tci := Z.land (vlan_tci f) (vlan_tci_mask w);
     dl_type := if has wc FWW_DL_TYPE then 0 else dl_type f;
     tp_src := Z.land (tp_src f) (tp_src_mask w);
     tp_dst := Z.land (tp_dst f) (tp_dst_mask w);
     dl_src := eth_addr_bitand (dl_src f) (dl_src_mask w);
     dl_dst := eth_addr_bitand (dl_dst f) (dl_dst_mask w);
     nw_proto := if has wc FWW_NW_PROTO then 0 else nw_proto f;
     nw_tos := tos;
     arp_sha := eth_addr_bitand (arp_sha f) (arp_sha_mask w);
     arp_tha := eth_addr_bitand (arp_tha f) (arp_tha_mask w);
     nw_ttl := if has wc FWW_NW_TTL then 0 else nw_ttl f;
     nw_frag := Z.land (nw_frag f) (nw_frag_mask w) |}.

Record flow_metadata := MkMetadata { fmd_tun_id : Z; fmd_metadata : Z; fmd_regs : list Z; fmd_in_port : Z }.

Definition flow_get_metadata (f : flow) : flow_metadata :=
  MkMetadata (tun_id f) (metadata f) (regs f) (in_port f).

Definition flow_set_dl_vlan (vid : Z) (f : flow) : flow :=
  if vid =? OFP10_VLAN_NONE then with_vlan_tci 0 f
  else
    let vid := Z.land vid VLAN_VID_MASK in
    let f := with_vlan_tci (Z.land (vlan_tci f) (bnot 16 VLAN_VID_MASK)) f in
    with_vlan_tci (Z.lor (vlan_tci f) (Z.lor VLAN_CFI vid)) f.

Definition flow_set_vlan_vid (vid : Z) (f : flow) : flow :=
  let mask := Z.lor VLAN_VID_MASK VLAN_CFI in
  let f := with_vlan_tci (Z.land (vlan_tci f) (bnot 16 mask)) f in
  with_vlan_tci (Z.lor (vlan_tci f) (Z.land vid mask)) f.

Definition flow_set_vlan_pcp (pcp : Z) (f : flow) : flow :=
  let pcp := Z.land pcp 7 in
  let f := with_vlan_tci (Z.land (vlan_tci f) (bnot 16 VLAN_PCP_MASK)) f in
  with_vlan_tci (Z.lor (vlan_tci f) (Z.lor (Z.shiftl pcp VLAN_PCP_SHIFT) VLAN_CFI)) f.

(** *** Wildcards *)

Definition flow_wildcards_init_catchall : flow_wildcards :=
  {| wildcards := FWW_ALL; tun_id_mask := 0; nw_src_mask := 0; nw_dst_mask := 0;
     ipv6_src_mask := in6addr_any; ipv6_dst_mask := in6addr_any; ipv6_label_mask := 0;
     nd_target_mask := in6addr_any; reg_masks := replicate FLOW_N_REGS 0; metadata_mask := 0;
     vlan_tci_mask := 0; nw_frag_mask := 0; tp_src_mask := 0; tp_dst_mask := 0;
     dl_src_mask := replicate 6 0; dl_dst_mask := replicate 6 0;
     arp_sha_mask := replicate 6 0; arp_tha_mask := replicate 6 0; zeros := 0 |}.

Definition flow_wildcards_init_exact : flow_wildcards :=
  {| wildcards := 0; tun_id_mask := UINT64_MAX; nw_src_mask := UINT32_MAX; nw_dst_mask := UINT32_MAX;
     ipv6_src_mask := in6addr_exact; ipv6_dst_mask := in6addr_exact; ipv6_label_mask := UINT32_MAX;
     nd_target_mask := in6addr_exact; reg_masks := replicate FLOW_N_REGS UINT32_MAX;
     metadata_mask := UINT64_MAX; vlan_tci_mask := UINT16_MAX; nw_frag_mask := UINT8_MAX;
     tp_src_mask := UINT16_MAX; tp_dst_mask := UINT16_MAX;
     dl_src_mask := replicate 6 255; dl_dst_mask := replicate 6 255;
     arp_sha_mask := replicate 6 255; arp_tha_mask := replicate 6 255; zeros := 0 |}.

Definition flow_wildcards_is_exact (wc : flow_wildcards) : bool :=
  if negb (wildcards wc =? 0)
     || negb (tun_id_mask wc =? UINT64_MAX)
     || negb (nw_src_mask wc =? UINT32_MAX)
     || negb (nw_dst_mask wc =? UINT32_MAX)
     || negb (tp_src_mask wc =? UINT16_MAX)
     || negb (tp_dst_mask wc =? UINT16_MAX)
     || negb (vlan_tci_mask wc =? UINT16_MAX)
     || negb (metadata_mask wc =? UINT64_MAX)
     || negb (eth_mask_is_exact (dl_src_mask wc))
     || negb (eth_mask_is_exact (dl_dst_mask wc))
     || negb (eth_mask_is_exact (arp_sha_mask wc))
     || negb (eth_mask_is_exact (arp_tha_mask wc))
     || negb (ipv6_mask_is_exact (ipv6_src_mask wc))
     || negb (ipv6_mask_is_exact (ipv6_dst_mask wc))
     || negb (ipv6_label_mask wc =? UINT32_MAX)
     || negb (ipv6_mask_is_exact (nd_target_mask wc))
     || negb (nw_frag_mask wc =? UINT8_MAX)
  then false
  else forallb (fun m => m =? UINT32_MAX) (reg_masks wc).

Definition flow_wildcards_is_catchall (wc : flow_wildcards) : bool :=
  if negb (wildcards wc =? FWW_ALL)
     || negb (tun_id_mask wc =? 0)
     || negb (nw_src_mask wc =? 0)
     || negb (nw_dst_mask wc =? 0)
     || negb (tp_src_mask wc =? 0)
     || negb (tp_dst_mask wc =? 0)
     || negb (vlan_tci_mask wc =? 0)
     || negb (metadata_mask wc =? 0)
     || negb (eth_addr_is_zero (dl_src_mask wc))
     || negb (eth_addr_is_zero (dl_dst_mask wc))
     || negb (eth_addr_is_zero (arp_sha_mask wc))
     || negb (eth_addr_is_zero (arp_tha_mask wc))
     || negb (ipv6_mask_is_any (ipv6_src_mask wc))
     || negb (ipv6_mask_is_any (ipv6_dst_mask wc))
     || negb (ipv6_label_mask wc =? 0)
     || negb (ipv6_mask_is_any (nd_target_mask wc))
     || negb (nw_frag_mask wc =? 0)
  then false
  else forallb (fun m => m =? 0) (reg_masks wc).

(** The member [zeros] of the result is not assigned: it is what [dst] had, [z]. *)
Definition flow_wildcards_combine (z : Z) (a b : flow_wildcards) : flow_wildcards :=
  {| wildcards := Z.lor (wildcards a) (wildcards b);
     tun_id_mask := Z.land (tun_id_mask a) (tun_id_mask b);
     nw_src_mask := Z.land (nw_src_mask a) (nw_src_mask b);
     nw_dst_mask := Z.land (nw_dst_mask a) (nw_dst_mask b);
     ipv6_src_mask := ipv6_addr_bitand (ipv6_src_mask a) (ipv6_src_mask b);
     ipv6_dst_mask := ipv6_addr_bitand (ipv6_dst_mask a) (ipv6_dst_mask b);
     ipv6_label_mask := Z.land (ipv6_label_mask a) (ipv6_label_mask b);
     nd_target_mask := ipv6_addr_bitand (nd_target_mask a) (nd_target_mask b);
     reg_masks := zip_with Z.land (reg_masks a) (reg_masks b);
     metadata_mask := Z.land (metadata_mask a) (metadata_mask b);
     vlan_tci_mask := Z.land (vlan_tci_mask a) (vlan_tci_mask b);
     tp_src_mask := Z.land (tp_src_mask a) (tp_src_mask b);
     tp_dst_mask := Z.land (tp_dst_mask a) (tp_dst_mask b);
     nw_frag_mask := Z.land (nw_frag_mask a) (nw_frag_mask b);
     dl_src_mask := eth_addr_bitand (dl_src_mask a) (dl_src_mask b);
     dl_dst_mask := eth_addr_bitand (dl_dst_mask a) (dl_dst_mask b);
     arp_sha_mask := eth_addr_bitand (arp_sha_mask a) (arp_sha_mask b);
     arp_tha_mask := eth_addr_bitand (arp_tha_mask a) (arp_tha_mask b);
     zeros := z |}.

Definition wildcards_bytes (wc : flow_wildcards) : list Z :=
  be_bytes 8 (tun_id_mask wc) ++ be_bytes 8 (metadata_mask wc) ++ le_bytes 4 (wildcards wc)
  ++ concat (le_bytes 4 <$> reg_masks wc)
  ++ be_bytes 4 (nw_src_mask wc) ++ be_bytes 4 (nw_dst_mask wc)
  ++ ipv6_src_mask wc ++ ipv6_dst_mask wc ++ nd_target_mask wc
  ++ be_bytes 4 (ipv6_label_mask wc) ++ be_bytes 2 (vlan_tci_mask wc)
  ++ be_bytes 2 (tp_src_mask wc) ++ be_bytes 2 (tp_dst_mask wc) ++ be_bytes 1 (nw_frag_mask wc)
  ++ dl_src_mask wc ++ dl_dst_mask wc ++ arp_sha_mask wc ++ arp_tha_mask wc ++ be_bytes 1 (zeros wc).

Definition flow_wildcards_hash (wc : flow_wildcards) (basis : Z) : Z := hash_bytes (wildcards_bytes wc) basis.

Definition flow_wildcards_equal (a b : flow_wildcards) : bool :=
  if negb (wildcards a =? wildcards b)
     || negb (tun_id_mask a =? tun_id_mask b)
     || negb (nw_src_mask a =? nw_src_mask b)
     || negb (nw_dst_mask a =? nw_dst_mask b)
     || negb (vlan_tci_mask a =? vlan_tci_mask b)
     || negb (metadata_mask a =? metadata_mask b)
     || negb (ipv6_addr_equals (ipv6_src_mask a) (ipv6_src_mask b))
     || negb (ipv6_addr_equals (ipv6_dst_mask a) (ipv6_dst_mask b))
     || negb (ipv6_label_mask a =? ipv6_label_mask b)
     || negb (ipv6_addr_equals (nd_target_mask a) (nd_target_mask b))
     || negb (tp_src_mask a =? tp_src_mask b)
     || negb (tp_dst_mask a =? tp_dst_mask b)
     || negb (nw_frag_mask a =? nw_frag_mask b)
     || negb (eth_addr_equals (dl_src_mask a) (dl_src_mask b))
     || negb (eth_addr_equals (dl_dst_mask a) (dl_dst_mask b))
     || negb (eth_addr_equals (arp_sha_mask a) (arp_sha_mask b))
     || negb (eth_addr_equals (arp_tha_mask a) (arp_tha_mask b))
  then false
  else bool_decide (reg_masks a = reg_masks b).

(** [(x & y) != y] *)
Definition lacks (x y : Z) : bool := negb (Z.land x y =? y).

Definition flow_wildcards_has_extra (a b : flow_wildcards) : bool :=
  if existsb id (zip_with lacks (reg_masks a) (reg_masks b)) then true
  else if negb (eth_addr_equals (eth_addr_bitand (dl_src_mask a) (dl_src_mask b)) (dl_src_mask b)) then true
  else if negb (eth_addr_equals (eth_addr_bitand (dl_dst_mask a) (dl_dst_mask b)) (dl_dst_mask b)) then true
  else if negb (eth_addr_equals (eth_addr_bitand (arp_sha_mask a) (arp_sha_mask b)) (arp_sha_mask b)) then true
  else if negb (eth_addr_equals (eth_addr_bitand (arp_tha_mask a) (arp_tha_mask b)) (arp_tha_mask b)) then true
  else if negb (ipv6_addr_equals (ipv6_addr_bitand (ipv6_src_mask a) (ipv6_src_mask b)) (ipv6_src_mask b)) then true
  else if negb (ipv6_addr_equals (ipv6_addr_bitand (ipv6_dst_mask a) (ipv6_dst_mask b)) (ipv6_dst_mask b)) then true
  else if negb (ipv6_addr_equals (ipv6_addr_bitand (nd_target_mask a) (nd_target_mask b)) (nd_target_mask b)) then true
  else
    negb (Z.land (wildcards a) (bnot 32 (wildcards b)) =? 0)
    || lacks (tun_id_mask a) (tun_id_mask b)
    || lacks (nw_src_mask a) (nw_src_mask b)
    || lacks (nw_dst_mask a) (nw_dst_mask b)
    || lacks (ipv6_label_mask a) (ipv6_label_mask b)
    || lacks (vlan_tci_mask a) (vlan_tci_mask b)
    || lacks (metadata_mask a) (metadata_mask b)
    || lacks (tp_src_mask a) (tp_src_mask b)
    || lacks (tp_dst_mask a) (tp_dst_mask b)
    || lacks (nw_frag_mask a) (nw_frag_mask b).

Definition flow_wildcards_set_reg_mask (idx : nat) (mask : Z) (wc : flow_wildcards) : outcome flow_wildcards :=
  if Nat.ltb idx (length (reg_masks wc)) then Ret (with_reg_masks (<[idx := mask]> (reg_masks wc)) wc)
  else Stuck OutOfBounds.

Definition ETH_TYPE_IP : Z := 2048.
Definition ETH_TYPE_IPV6 : Z := 34525.
Definition IPPROTO_TCP : Z := 6.

(** The local structure of flow_hash_symmetric_l4: a union of the size of an IPv6 address, 13
    bytes of other members, and 3 of padding. *)
Definition symmetric_fields (f : flow) : list Z :=
  let tcp := if nw_proto f =? IPPROTO_TCP then Z.lxor (tp_src f) (tp_dst f) else 0 in
  let '(ip_addr, ip_proto, tp_port) :=
    if dl_type f =? ETH_TYPE_IP then
      (be_bytes 4 (Z.lxor (nw_src f) (nw_dst f)) ++ replicate 12 0, nw_proto f, tcp)
    else if dl_type f =? ETH_TYPE_IPV6 then
      (zip_with Z.lxor (ipv6_src f) (ipv6_dst f), nw_proto f, tcp)
    else (replicate 16 0, 0, 0) in
  ip_addr ++ be_bytes 2 (dl_type f) ++ be_bytes 2 (Z.land (vlan_tci f) VLAN_VID_MASK)
  ++ be_bytes 2 tp_port ++ zip_with Z.lxor (dl_src f) (dl_dst f) ++ be_bytes 1 ip_proto ++ replicate 3 0.

Definition flow_hash_symmetric_l4 (f : flow) (basis : Z) : Z := hash_bytes (symmetric_fields f) basis.

(** enum nx_hash_fields; another value is not reached. *)
Inductive nx_hash_fields := NX_HASH_FIELDS_ETH_SRC | NX_HASH_FIELDS_SYMMETRIC_L4.

Definition flow_hash_fields (f : flow) (fields : nx_hash_fields) (basis : Z) : Z :=
  match fields with
  | NX_HASH_FIELDS_ETH_SRC => hash_bytes (dl_src f) basis
  | NX_HASH_FIELDS_SYMMETRIC_L4 => flow_hash_symmetric_l4 f basis
  end.

(** ** Flows as rows of words *)

Definition in_width (w z : Z) : Prop := 0 <= z < 2 ^ w.
Definition words (n : nat) (w : Z) (l : list Z) : Prop := length l = n /\ Forall (in_width w) l.

Record flow_ok (f : flow) : Prop := {
  fo_tun_id : in_width 64 (tun_id f);
  fo_metadata : in_width 64 (metadata f);
  fo_ipv6_src : words 16 8 (ipv6_src f);
  fo_ipv6_dst : words 16 8 (ipv6_dst f);
  fo_nd_target : words 16 8 (nd_target f);
  fo_skb_priority : in_width 32 (skb_priority f);
  fo_regs : words 8 32 (regs f);
  fo_nw_src : in_width 32 (nw_src f);
  fo_nw_dst : in_width 32 (nw_dst f);
  fo_ipv6_label : in_width 32 (ipv6_label f);
  fo_in_port : in_width 16 (in_port f);
  fo_vlan_tci : in_width 16 (vlan_tci f);
  fo_dl_type : in_width 16 (dl_type f);
  fo_tp_src : in_width 16 (tp_src f);
  fo_tp_dst : in_width 16 (tp_dst f);
  fo_dl_src : words 6 8 (dl_src f);
  fo_dl_dst : words 6 8 (dl_dst f);
  fo_nw_proto : in_width 8 (nw_proto f);
  fo_nw_tos : in_width 8 (nw_tos f);
  fo_arp_sha : words 6 8 (arp_sha f);
  fo_arp_tha : words 6 8 (arp_tha f);
  fo_nw_ttl : in_width 8 (nw_ttl f);
  fo_nw_frag : in_width 8 (nw_frag f)
}.

(** The flags are the six of the enumeration, and the padding is zero. *)
Record wc_ok (wc : flow_wildcards) : Prop := {
  wo_wildcards : in_width 6 (wildcards wc);
  wo_zeros : zeros wc = 0;
  wo_tun_id_mask : in_width 64 (tun_id_mask wc);
  wo_metadata_mask : in_width 64 (metadata_mask wc);
  wo_reg_masks : words 8 32 (reg_masks wc);
  wo_nw_src_mask : in_width 32 (nw_src_mask wc);
  wo_nw_dst_mask : in_width 32 (nw_dst_mask wc);
  wo_ipv6_src_mask : words 16 8 (ipv6_src_mask wc);
  wo_ipv6_dst_mask : words 16 8 (ipv6_dst_mask wc);
  wo_nd_target_mask : words 16 8 (nd_target_mask wc);
  wo_ipv6_label_mask : in_width 32 (ipv6_label_mask wc);
  wo_vlan_tci_mask : in_width 16 (vlan_tci_mask wc);
  wo_tp_src_mask : in_width 16 (tp_src_mask wc);
  wo_tp_dst_mask : in_width 16 (tp_dst_mask wc);
  wo_nw_frag_mask : in_width 8 (nw_frag_mask wc);
  wo_dl_src_mask : words 6 8 (dl_src_mask wc);
  wo_dl_dst_mask : words 6 8 (dl_dst_mask wc);
  wo_arp_sha_mask : words 6 8 (arp_sha_mask wc);
  wo_arp_tha_mask : words 6 8 (arp_tha_mask wc)
}.

Definition flow_words (f : flow) : list Z :=
  [tun_id f] ++ [metadata f] ++ ipv6_src f ++ ipv6_dst f ++ nd_target f ++ [skb_priority f]
  ++ regs f ++ [nw_src f] ++ [nw_dst f] ++ [ipv6_label f] ++ [in_port f] ++ [vlan_tci f]
  ++ [dl_type f] ++ [tp_src f] ++ [tp_dst f] ++ dl_src f ++ dl_dst f ++ [nw_proto f]
  ++ [nw_tos f] ++ arp_sha f ++ arp_tha f ++ [nw_ttl f] ++ [nw_frag f].

Definition widths : list Z :=
  [64] ++ [64] ++ replicate 16 8 ++ replicate 16 8 ++ replicate 16 8 ++ [32]
  ++ replicate 8 32 ++ [32] ++ [32] ++ [32] ++ [16] ++ [16]
  ++ [16] ++ [16] ++ [16] ++ replicate 6 8 ++ replicate 6 8 ++ [8]
  ++ [8] ++ replicate 6 8 ++ replicate 6 8 ++ [8] ++ [8].

Definition field_mask (wc : flow_wildcards) (flag w : Z) : Z := if has (wildcards wc) flag then 0 else Z.ones w.

Definition tos_mask (wc : flow_wildcards) : Z :=
  Z.lor (if has (wildcards wc) FWW_NW_DSCP then 0 else IP_DSCP_MASK)
        (if has (wildcards wc) FWW_NW_ECN then 0 else IP_ECN_MASK).

(** The priority of the packet never counts. *)
Definition mask_words (wc : flow_wildcards) : list Z :=
  [tun_id_mask wc] ++ [metadata_mask wc] ++ ipv6_src_mask wc ++ ipv6_dst_mask wc ++ nd_target_mask wc
  ++ [0] ++ reg_masks wc ++ [nw_src_mask wc] ++ [nw_dst_mask wc] ++ [ipv6_label_mask wc]
  ++ [field_mask wc FWW_IN_PORT 16] ++ [vlan_tci_mask wc] ++ [field_mask wc FWW_DL_TYPE 16] ++ [tp_src_mask wc] ++ [tp_dst_mask wc]
  ++ dl_src_mask wc ++ dl_dst_mask wc ++ [field_mask wc FWW_NW_PROTO 8] ++ [tos_mask wc] ++ arp_sha_mask wc
  ++ arp_tha_mask wc ++ [field_mask wc FWW_NW_TTL 8] ++ [nw_frag_mask wc].

Definition masked (m l : list Z) : list Z := zip_with Z.land l m.

(** *** Rows *)

Lemma in_width_land w a b : in_width w a -> 0 <= b -> in_width w (Z.land a b).
Proof.
  intros [H0 H1] Hb. split; [by apply Z.land_nonneg; left|].
  destruct (decide (Z.land a b = 0)) as [->|Hn]; [lia|].
  assert (0 <= Z.land a b) by (apply Z.land_nonneg; by left).
  destruct (decide (w < 0)); [by rewrite Z.pow_neg_r in H1; lia|].
  apply Z.log2_lt_pow2; [lia|]. pose proof (Z.log2_land a b H0 Hb).
  destruct (decide (a = 0)) as [->|Ha]; [by rewrite Z.land_0_l in Hn|].
  assert (Z.log2 a < w) by (apply Z.log2_lt_pow2; lia). lia.
Qed.

Lemma in_width_high w z i : in_width w z -> w <= i -> Z.testbit z i = false.
Proof.
  intros [H0 H1] Hi. destruct (decide (z = 0)) as [->|Hn]; [apply Z.bits_0|].
  apply Z.bits_above_log2; [done|]. assert (Z.log2 z < w); [|lia].
  apply Z.log2_lt_pow2; lia.
Qed.

Lemma in_width_bits w z : 0 <= w -> 0 <= z -> (forall i, w <= i -> Z.testbit z i = false) -> in_width w z.
Proof.
  intros Hw Hz Hb. split; [done|]. destruct (decide (z = 0)) as [->|Hn]; [by apply Z.pow_pos_nonneg|].
  apply Z.log2_lt_pow2; [lia|]. destruct (Z.ltb_spec (Z.log2 z) w) as [|Hl]; [done|].
  specialize (Hb _ Hl). rewrite Z.bit_log2 in Hb by lia. done.
Qed.

Lemma in_width_lor w a b : 0 <= w -> in_width w a -> in_width w b -> in_width w (Z.lor a b).
Proof.
  intros Hw Ha Hb. apply in_width_bits; [done|apply Z.lor_nonneg; unfold in_width in *; lia|].
  intros i Hi. by rewrite Z.lor_spec, (in_width_high w a), (in_width_high w b).
Qed.

Lemma in_width_lxor w a b : 0 <= w -> in_width w a -> in_width w b -> in_width w (Z.lxor a b).
Proof.
  intros Hw Ha Hb. apply in_width_bits; [done|apply Z.lxor_nonneg; unfold in_width in *; lia|].
  intros i Hi. by rewrite Z.lxor_spec, (in_width_high w a), (in_width_high w b).
Qed.

Lemma in_width_ones w : 0 <= w -> in_width w (Z.ones w).
Proof. intros Hw. unfold in_width. rewrite Z.ones_equiv. pose proof (Z.pow_pos_nonneg 2 w). lia. Qed.

Lemma in_width_0 w : 0 <= w -> in_width w 0.
Proof. intros Hw. split; [done|by apply Z.pow_pos_nonneg]. Qed.

Lemma in_width_land_ones w a : 0 <= w -> in_width w a -> Z.land a (Z.ones w) = a.
Proof. intros Hw Ha. rewrite Z.land_ones by done. by apply Z.mod_small. Qed.

#[export] Hint Resolve in_width_land in_width_lor in_width_lxor in_width_ones in_width_0 : cint.

Lemma Forall2_replicate_iff {A B} (P : A -> B -> Prop) l n y :
  Forall2 P l (replicate n y) <-> length l = n /\ Forall (fun x => P x y) l.
Proof.
  split.
  - intros H. pose proof (Forall2_length _ _ _ H) as Hl. rewrite length_replicate in Hl. split; [done|].
    revert l Hl H. induction n as [|n IH]; intros [|x l] Hl H; try done. inversion H; subst. constructor; [done|].
    apply IH; [by injection Hl|done].
  - intros [<- H]. induction H; [constructor|]. cbn. by constructor.
Qed.

(** A row has the widths [widths]. *)
Definition row (l : list Z) : Prop := Forall2 (fun x w => in_width w x) l widths.

Lemma row_length l : row l -> length l = 95%nat.
Proof. intros H. apply Forall2_length in H. by rewrite H. Qed.

Ltac row_parts :=
  unfold row, widths; repeat (apply Forall2_app; [|]);
  try (apply Forall2_cons; split; [|constructor]); try (apply Forall2_replicate_iff).

Lemma flow_row f : flow_ok f -> row (flow_words f).
Proof. intros []. unfold flow_words. row_parts; done. Qed.

Lemma field_mask_width wc flag w : 0 <= w -> in_width w (field_mask wc flag w).
Proof. intros Hw. unfold field_mask. destruct (has (wildcards wc) flag); auto with cint. Qed.

Lemma tos_mask_width wc : in_width 8 (tos_mask wc).
Proof. unfold tos_mask. by destruct (has _ FWW_NW_DSCP), (has _ FWW_NW_ECN). Qed.

Lemma mask_row wc : wc_ok wc -> row (mask_words wc).
Proof.
  intros []. unfold mask_words. row_parts; try done; try (by apply field_mask_width); apply tos_mask_width.
Qed.

Lemma masked_app m1 m2 l1 l2 :
  length l1 = length m1 -> masked (m1 ++ m2) (l1 ++ l2) = masked m1 l1 ++ masked m2 l2.
Proof. apply zip_with_app. Qed.

Lemma masked_row m l : row l -> row m -> row (masked m l).
Proof.
  unfold row, masked. generalize widths. intros ws H. revert m. induction H as [|x w l ws Hx H IH]; intros m Hm.
  - inversion Hm; subst. constructor.
  - inversion Hm as [|y ? m' ? Hy Hm']; subst. cbn. constructor; [|by apply IH].
    apply in_width_land; [done|]. by destruct Hy.
Qed.

(** Every row is that of a flow. *)
Lemma row_flow l : row l -> exists f, flow_ok f /\ flow_words f = l.
Proof.
  unfold row, widths. intros H.
  repeat match goal with
  | H : Forall2 _ _ (_ ++ _) |- _ => apply Forall2_app_inv_r in H as (? & ? & ? & H & ->)
  end.
  repeat match goal with
  | H : Forall2 _ _ [_] |- _ => apply Forall2_cons_inv_r in H as (? & ? & ? & ?%Forall2_nil_inv_r & ->); subst
  | H : Forall2 _ _ (replicate _ _) |- _ => apply Forall2_replicate_iff in H
  end.
  match goal with
  | |- exists f, _ /\ _ = [?a1] ++ [?a2] ++ ?a3 ++ ?a4 ++ ?a5 ++ [?a6] ++ ?a7 ++ [?a8] ++ [?a9] ++ [?a10] ++ [?a11]
      ++ [?a12] ++ [?a13] ++ [?a14] ++ [?a15] ++ ?a16 ++ ?a17 ++ [?a18] ++ [?a19] ++ ?a20 ++ ?a21 ++ [?a22] ++ [?a23] =>
      exists (MkFlow a1 a2 a3 a4 a5 a6 a7 a8 a9 a10 a11 a12 a13 a14 a15 a16 a17 a18 a19 a20 a21 a22 a23)
  end.
  by split; [constructor|].
Qed.

Ltac same_length := rewrite ?length_be_bytes; unfold le_bytes; rewrite ?length_rev, ?length_be_bytes; try done; lia.

Lemma flow_words_inj a b : flow_ok a -> flow_ok b -> flow_words a = flow_words b -> a = b.
Proof.
  intros [] []. unfold flow_words, words in *. intros E. destruct_and?.
  repeat (apply app_inj_1 in E as [? E]; [|by etrans; [eassumption|symmetry; eassumption] || done]).
  destruct a, b. cbn in *. simplify_eq. done.
Qed.

Lemma zip_land_masked n w l m : words n w l -> words n w m -> masked m l = zip_with Z.land l m.
Proof. done. Qed.

Lemma words_length n w l : words n w l -> length l = n.
Proof. by intros []. Qed.

Lemma flag_masked w wc flag x : in_width w x -> 0 <= w ->
  Z.land x (field_mask wc flag w) = if has (wildcards wc) flag then 0 else x.
Proof.
  intros Hx Hw. unfold field_mask. destruct (has (wildcards wc) flag); [apply Z.land_0_r|].
  by apply in_width_land_ones.
Qed.

Lemma bits8 (P : Z -> Prop) : (forall x, In x (map Z.of_nat (seq 0 256)) -> P x) -> forall x, in_width 8 x -> P x.
Proof.
  intros H x Hx. apply H. apply in_map_iff. exists (Z.to_nat x). unfold in_width in Hx.
  change (2 ^ 8) with 256 in Hx. split; [lia|]. apply in_seq. lia.
Qed.

Lemma tos_masked wc x : in_width 8 x ->
  Z.land x (tos_mask wc)
  = let tos := if has (wildcards wc) FWW_NW_DSCP then Z.land x (bnot 8 IP_DSCP_MASK) else x in
    if has (wildcards wc) FWW_NW_ECN then Z.land tos (bnot 8 IP_ECN_MASK) else tos.
Proof.
  intros Hx. unfold tos_mask. pose proof (in_width_land_ones 8 x ltac:(lia) Hx) as E.
  destruct (has (wildcards wc) FWW_NW_DSCP), (has (wildcards wc) FWW_NW_ECN); cbn zeta.
  - by rewrite <- Z.land_assoc.
  - done.
  - done.
  - exact E.
Qed.

Lemma zero_wildcards_words f wc :
  flow_ok f -> wc_ok wc -> flow_words (flow_zero_wildcards f wc) = masked (mask_words wc) (flow_words f).
Proof.
  intros Hf Hw. pose proof Hf as []. pose proof Hw as [].
  unfold flow_words, mask_words.
  repeat (rewrite masked_app by (by etrans; [eapply words_length; eassumption|symmetry; eapply words_length; eassumption] || done)).
  cbn [flow_zero_wildcards tun_id metadata ipv6_src ipv6_dst nd_target skb_priority regs nw_src nw_dst ipv6_label in_port
    vlan_tci dl_type tp_src tp_dst dl_src dl_dst nw_proto nw_tos arp_sha arp_tha nw_ttl nw_frag].
  unfold masked at 1 2 6 8 9 10 11 12 13 14 15 18 19 22 23. cbn [zip_with].
  rewrite !flag_masked by (done || lia). rewrite tos_masked by done. rewrite Z.land_0_r. done.
Qed.

(** *** Comparisons *)

Lemma memcmp_refl a : memcmp a a = 0.
Proof. induction a as [|x a IH]; [done|]. cbn. by rewrite Z.ltb_irrefl. Qed.

Lemma memcmp_0 a b : length a = length b -> memcmp a b = 0 -> a = b.
Proof.
  revert b. induction a as [|x a IH]; intros [|y b] Hl; try done. cbn.
  destruct (Z.ltb_spec x y), (Z.ltb_spec y x); try done. intros H2. f_equal; [lia|]. apply IH; [by injection Hl|done].
Qed.

Lemma be_bytes_inj n x y : in_width (8 * Z.of_nat n) x -> in_width (8 * Z.of_nat n) y -> be_bytes n x = be_bytes n y -> x = y.
Proof.
  unfold in_width. rewrite Z.pow_mul_r by lia. change (2 ^ 8) with 256. intros Hx Hy E.
  by rewrite <- (be_value_bytes_small n x), <- (be_value_bytes_small n y), E.
Qed.

Lemma le_bytes_inj n x y : in_width (8 * Z.of_nat n) x -> in_width (8 * Z.of_nat n) y -> le_bytes n x = le_bytes n y -> x = y.
Proof. intros Hx Hy E. apply (be_bytes_inj n x y Hx Hy). unfold le_bytes in E. by apply (f_equal (@rev Z)) in E; rewrite !rev_involutive in E. Qed.

Lemma length_le_bytes n z : length (le_bytes n z) = n.
Proof. unfold le_bytes. by rewrite length_rev, length_be_bytes. Qed.

Lemma concat_le_inj n l1 l2 :
  length l1 = length l2 -> Forall (in_width (8 * Z.of_nat n)) l1 -> Forall (in_width (8 * Z.of_nat n)) l2 ->
  concat (le_bytes n <$> l1) = concat (le_bytes n <$> l2) -> l1 = l2.
Proof.
  revert l2. induction l1 as [|x l1 IH]; intros [|y l2] Hl H1 H2; try done. csimpl.
  apply Forall_cons in H1 as [? ?], H2 as [? ?]. intros E. apply app_inj_1 in E as [E1 E2]; [|by rewrite !length_le_bytes].
  f_equal; [by eapply le_bytes_inj|]. apply IH; [by injection Hl|done|done|done].
Qed.

Lemma length_concat_le n l : length (concat (le_bytes n <$> l)) = (n * length l)%nat.
Proof. induction l as [|x l IH]; csimpl; [lia|]. rewrite length_app, length_le_bytes, IH. lia. Qed.

Ltac parts := rewrite ?length_be_bytes, ?length_le_bytes, ?length_concat_le; by (done || congruence || f_equal; congruence).

Lemma flow_bytes_inj a b : flow_ok a -> flow_ok b -> flow_bytes a = flow_bytes b -> a = b.
Proof.
  intros [] []. unfold flow_bytes, words in *. intros E. destruct_and?.
  repeat (apply app_inj_1 in E as [? E]; [|parts]).
  repeat match goal with
  | H : be_bytes ?n _ = be_bytes ?n _ |- _ => apply (be_bytes_inj n) in H; [|done|done]
  | H : le_bytes ?n _ = le_bytes ?n _ |- _ => apply (le_bytes_inj n) in H; [|done|done]
  | H : concat _ = concat _ |- _ => apply (concat_le_inj 4) in H; [|congruence|done|done]
  end.
  destruct a, b. cbn in *. by simplify_eq.
Qed.

Lemma length_flow_bytes f : flow_ok f -> length (flow_bytes f) = 150%nat.
Proof.
  intros []. unfold flow_bytes, words in *. destruct_and?.
  rewrite !length_app, !length_be_bytes, !length_le_bytes, length_concat_le. lia.
Qed.

Lemma flow_equal_ok a b : flow_ok a -> flow_ok b -> flow_equal a b = true <-> a = b.
Proof.
  intros Ha Hb. unfold flow_equal, flow_compare_3way. rewrite Z.eqb_eq. split; [|intros ->; apply memcmp_refl].
  intros E. apply flow_bytes_inj; [done|done|]. apply memcmp_0; [by rewrite !length_flow_bytes|done].
Qed.

Lemma negb_if_or (c d : bool) : (if c then false else d) = negb c && d.
Proof. by destruct c. Qed.

(** What a conjunction of tests written as early returns says. *)
Ltac tests :=
  rewrite ?negb_if_or, ?negb_orb, ?andb_true_iff, ?negb_involutive, ?Z.eqb_eq, ?bool_decide_eq_true.

Lemma flow_wildcards_equal_ok a b : zeros a = zeros b -> flow_wildcards_equal a b = true <-> a = b.
Proof.
  intros Hz. unfold flow_wildcards_equal, ipv6_addr_equals, eth_addr_equals. tests. split; [|by intros ->; split_and!].
  intros. destruct_and?. destruct a, b. cbn in *. by simplify_eq.
Qed.

Lemma fold_lor_0 l : Forall (fun x => 0 <= x) l -> forall z, 0 <= z -> fold_left Z.lor l z = 0 <-> z = 0 /\ Forall (fun x => x = 0) l.
Proof.
  induction 1 as [|x l Hx Hl IH]; intros z Hz; cbn [fold_left].
  - split; [intros ->; by split|by intros []].
  - rewrite IH by (apply Z.lor_nonneg; lia). rewrite Z.lor_eq_0_iff, Forall_cons. tauto.
Qed.

Lemma words_zero n w l : words n w l -> Forall (fun x => x = 0) l <-> l = replicate n 0.
Proof.
  intros [<- _]. split; [|intros ->; by apply Forall_replicate].
  induction 1 as [|x l -> _ IH]; [done|]. cbn. by f_equal.
Qed.

Lemma eth_addr_is_zero_ok ea : words 6 8 ea -> eth_addr_is_zero ea = true <-> ea = replicate 6 0.
Proof.
  intros Hw. unfold eth_addr_is_zero. rewrite Z.eqb_eq, fold_lor_0.
  - rewrite <- (words_zero 6 8) by done. naive_solver.
  - destruct Hw as [_ Hw]. eapply Forall_impl; [exact Hw|]. by intros x [? _].
  - done.
Qed.

Lemma forallb_zero n w l : words n w l -> forallb (fun m => m =? 0) l = true <-> l = replicate n 0.
Proof.
  intros Hw. rewrite <- (words_zero n w) by done. clear. induction l as [|x l IH]; cbn; [done|].
  by rewrite andb_true_iff, Z.eqb_eq, Forall_cons, IH.
Qed.

Lemma flow_wildcards_is_catchall_ok wc :
  wc_ok wc -> flow_wildcards_is_catchall wc = true <-> wc = flow_wildcards_init_catchall.
Proof.
  intros []. unfold flow_wildcards_is_catchall, ipv6_mask_is_any, ipv6_addr_equals. tests.
  rewrite !eth_addr_is_zero_ok, (forallb_zero 8 32) by done. split; [|by intros ->; split_and!].
  intros. destruct_and?. destruct wc. cbn in *. by simplify_eq.
Qed.

Lemma fold_land_255 l : Forall (in_width 8) l -> forall z, in_width 8 z ->
  fold_left Z.land l z = 255 <-> z = 255 /\ Forall (fun x => x = 255) l.
Proof.
  induction 1 as [|x l Hx Hl IH]; intros z Hz; cbn [fold_left].
  - split; [intros ->; by split|by intros []].
  - rewrite IH by (apply in_width_land; [done|by destruct Hx]). rewrite Forall_cons.
    assert (Z.land z x = 255 <-> z = 255 /\ x = 255) as ->; [|tauto].
    split; [|by intros [-> ->]]. intros E.
    assert (forall y, in_width 8 y -> Z.land 255 y = 255 -> y = 255) as H
      by (intros y Hy <-; change 255 with (Z.ones 8); by rewrite Z.land_comm, in_width_land_ones).
    split; apply H; try done; rewrite <- E; [rewrite (Z.land_comm z x), <- Z.land_assoc|rewrite <- Z.land_assoc];
      by rewrite Z.land_diag.
Qed.

Lemma eth_mask_is_exact_ok ea : words 6 8 ea -> eth_mask_is_exact ea = true <-> ea = replicate 6 255.
Proof.
  intros [Hl Hw]. unfold eth_mask_is_exact. rewrite Z.eqb_eq, fold_land_255 by done. split.
  - intros [_ H]. rewrite <- Hl. clear Hl Hw. induction H as [|x l -> _ IH]; [done|]. cbn. by f_equal.
  - intros ->. split; [done|]. by apply Forall_replicate.
Qed.

Lemma forallb_exact l : words 8 32 l -> forallb (fun m => m =? UINT32_MAX) l = true <-> l = replicate 8 UINT32_MAX.
Proof.
  intros [Hl _]. split.
  - rewrite <- Hl. clear Hl. induction l as [|x l IH]; [done|]. cbn [forallb length replicate].
    rewrite andb_true_iff, Z.eqb_eq. intros [-> H]. by rewrite (IH H) at 1.
  - by intros ->.
Qed.

Lemma flow_wildcards_is_exact_ok wc :
  wc_ok wc -> flow_wildcards_is_exact wc = true <-> wc = flow_wildcards_init_exact.
Proof.
  intros []. unfold flow_wildcards_is_exact, ipv6_mask_is_exact, ipv6_addr_equals. tests.
  rewrite !eth_mask_is_exact_ok, forallb_exact by done. split; [|by intros ->; split_and!].
  intros. destruct_and?. destruct wc. cbn in *. by simplify_eq.
Qed.

Lemma init_catchall_ok : wc_ok flow_wildcards_init_catchall.
Proof. split; repeat split; try done; by repeat constructor. Qed.

Lemma init_exact_ok : wc_ok flow_wildcards_init_exact.
Proof. split; repeat split; try done; by repeat constructor. Qed.

Lemma catchall_masks : mask_words flow_wildcards_init_catchall = replicate 95 0.
Proof. reflexivity. Qed.

Lemma masked_zero l n : length l = n -> masked (replicate n 0) l = replicate n 0.
Proof. intros <-. unfold masked. induction l as [|x l IH]; [done|]. cbn. by rewrite Z.land_0_r, IH. Qed.

(** *** Flags *)

Definition all_flags : list Z := map Z.of_nat (seq 0 64).

Lemma in_flags w : in_width 6 w -> In w all_flags.
Proof.
  unfold in_width. change (2 ^ 6) with 64. intros Hw. apply in_map_iff. exists (Z.to_nat w).
  split; [lia|]. apply in_seq. lia.
Qed.

Definition flag_list : list Z := [FWW_IN_PORT; FWW_NW_DSCP; FWW_NW_ECN; FWW_NW_TTL; FWW_DL_TYPE; FWW_NW_PROTO].

(** A test of two sets of flags that holds for all of them. *)
Lemma flags_all (P : Z -> Z -> bool) :
  forallb (fun a => forallb (P a) all_flags) all_flags = true ->
  forall a b, in_width 6 a -> in_width 6 b -> P a b = true.
Proof.
  intros H a b Ha Hb. rewrite forallb_forall in H. specialize (H a (in_flags a Ha)).
  rewrite forallb_forall in H. exact (H b (in_flags b Hb)).
Qed.

Lemma flags_extra a b : in_width 6 a -> in_width 6 b ->
  (Z.land a (bnot 32 b) =? 0) = forallb (fun f => implb (has a f) (has b f)) flag_list.
Proof.
  intros Ha Hb. apply eqb_prop.
  by apply (flags_all (fun a b => Bool.eqb (Z.land a (bnot 32 b) =? 0) (forallb (fun f => implb (has a f) (has b f)) flag_list))).
Qed.

Lemma flags_union a b f : in_width 6 a -> in_width 6 b -> In f flag_list -> has (Z.lor a b) f = has a f || has b f.
Proof.
  intros Ha Hb Hf. apply eqb_prop.
  assert (forallb (fun f => Bool.eqb (has (Z.lor a b) f) (has a f || has b f)) flag_list = true) as H
    by (by apply (flags_all (fun a b => forallb (fun f => Bool.eqb (has (Z.lor a b) f) (has a f || has b f)) flag_list))).
  rewrite forallb_forall in H. by apply H.
Qed.

(** The result of flow_wildcards_combine, as masks. *)
Lemma combine_words z a b : wc_ok a -> wc_ok b ->
  mask_words (flow_wildcards_combine z a b) = masked (mask_words b) (mask_words a).
Proof.
  intros Ha Hb. pose proof Ha as []. pose proof Hb as []. unfold mask_words.
  repeat (rewrite masked_app by (by etrans; [eapply words_length; eassumption|symmetry; eapply words_length; eassumption] || done)).
  assert (forall f w, In f flag_list -> 0 <= w ->
    field_mask (flow_wildcards_combine z a b) f w = Z.land (field_mask a f w) (field_mask b f w)) as Hfm.
  { intros f w Hf Hw. unfold field_mask. cbn [flow_wildcards_combine wildcards]. rewrite flags_union by done.
    destruct (has (wildcards a) f), (has (wildcards b) f); cbn [orb]; rewrite ?Z.land_0_l, ?Z.land_0_r, ?Z.land_diag; done. }
  rewrite !Hfm by (done || (cbn; tauto)).
  assert (tos_mask (flow_wildcards_combine z a b) = Z.land (tos_mask a) (tos_mask b)) as ->.
  { unfold tos_mask. cbn [flow_wildcards_combine wildcards]. rewrite !flags_union by (done || (cbn; tauto)).
    by destruct (has (wildcards a) FWW_NW_DSCP), (has (wildcards b) FWW_NW_DSCP), (has (wildcards a) FWW_NW_ECN), (has (wildcards b) FWW_NW_ECN). }
  reflexivity.
Qed.

Lemma combine_ok a b : wc_ok a -> wc_ok b -> wc_ok (flow_wildcards_combine 0 a b).
Proof.
  assert (forall n w l m, words n w l -> words n w m -> words n w (zip_with Z.land l m)) as Hz.
  { intros n w l m [Hl Fl] [Hm Fm]. split; [rewrite length_zip_with; lia|]. clear Hl Hm. revert m Fm.
    induction Fl as [|x l Hx _ IH]; intros m Fm; [constructor|]. destruct Fm as [|y m Hy Fm]; [constructor|].
    cbn. constructor; [apply in_width_land; [done|by destruct Hy]|by apply IH]. }
  assert (forall w x y, in_width w x -> in_width w y -> in_width w (Z.land x y)) as Hl
    by (intros w x y Hx [Hy _]; by apply in_width_land).
  intros [] []. split; cbn [flow_wildcards_combine wildcards zeros tun_id_mask metadata_mask reg_masks nw_src_mask nw_dst_mask
    ipv6_src_mask ipv6_dst_mask nd_target_mask ipv6_label_mask vlan_tci_mask tp_src_mask tp_dst_mask nw_frag_mask
    dl_src_mask dl_dst_mask arp_sha_mask arp_tha_mask]; try (by apply Hl); try (by apply Hz); [|done].
  apply in_width_lor; done || lia.
Qed.

Lemma lacks_all n w l m : words n w l -> words n w m ->
  existsb id (zip_with lacks l m) = false <-> zip_with Z.land l m = m.
Proof.
  intros [Hl _] [Hm _]. rewrite <- Hm in Hl. clear Hm. revert m Hl. induction l as [|x l IH]; intros [|y m] Hl; try done.
  cbn [zip_with existsb id]. rewrite orb_false_iff, IH by (by injection Hl). unfold lacks, id.
  rewrite negb_false_iff, Z.eqb_eq. split; [by intros [-> ->]|intros E; by injection E].
Qed.

Lemma field_mask_lacks a b f w : 0 < w ->
  implb (has (wildcards a) f) (has (wildcards b) f) = true
  <-> Z.land (field_mask a f w) (field_mask b f w) = field_mask b f w.
Proof.
  intros Hw. unfold field_mask. assert (Z.ones w <> 0).
  { rewrite Z.ones_equiv. pose proof (Z.pow_gt_1 2 w ltac:(lia)). lia. }
  destruct (has (wildcards a) f), (has (wildcards b) f); cbn [implb];
    rewrite ?Z.land_0_l, ?Z.land_0_r, ?Z.land_diag; naive_solver.
Qed.

Lemma tos_mask_lacks a b :
  implb (has (wildcards a) FWW_NW_DSCP) (has (wildcards b) FWW_NW_DSCP) = true
  /\ implb (has (wildcards a) FWW_NW_ECN) (has (wildcards b) FWW_NW_ECN) = true
  <-> Z.land (tos_mask a) (tos_mask b) = tos_mask b.
Proof.
  unfold tos_mask. destruct (has (wildcards a) FWW_NW_DSCP), (has (wildcards b) FWW_NW_DSCP),
    (has (wildcards a) FWW_NW_ECN), (has (wildcards b) FWW_NW_ECN); cbn; naive_solver.
Qed.

Lemma if_true_or (c d : bool) : (if c then true else d) = c || d.
Proof. by destruct c. Qed.

Lemma singleton_eq (x y : Z) : [x] = [y] <-> x = y.
Proof. split; [by intros [=]|by intros ->]. Qed.

Lemma app_eq_iff {A} (l1 l2 k1 k2 : list A) : length l1 = length k1 -> l1 ++ l2 = k1 ++ k2 <-> l1 = k1 /\ l2 = k2.
Proof. intros Hl. split; [by apply app_inj_1|by intros [-> ->]]. Qed.

Lemma length_masked m l : length l = length m -> length (masked m l) = length m.
Proof. intros Hl. unfold masked. rewrite length_zip_with. lia. Qed.

(** [a] wildcards nothing that [b] does not: the masks of [b] are within those of [a]. *)
Lemma has_extra_words a b : wc_ok a -> wc_ok b ->
  flow_wildcards_has_extra a b = false <-> masked (mask_words b) (mask_words a) = mask_words b.
Proof.
  intros Ha Hb. pose proof Ha as []. pose proof Hb as []. unfold mask_words.
  repeat (rewrite masked_app by (by etrans; [eapply words_length; eassumption|symmetry; eapply words_length; eassumption] || done)).
  repeat (rewrite app_eq_iff
    by (rewrite length_masked; [done|by etrans; [eapply words_length; eassumption|symmetry; eapply words_length; eassumption] || done])).
  unfold masked. cbn [zip_with]. rewrite !singleton_eq, <- !field_mask_lacks, <- tos_mask_lacks by lia.
  unfold flow_wildcards_has_extra, eth_addr_equals, ipv6_addr_equals, eth_addr_bitand, ipv6_addr_bitand, lacks.
  rewrite !if_true_or, !orb_false_iff, !negb_false_iff, !Z.eqb_eq, !bool_decide_eq_true.
  fold lacks. rewrite (lacks_all 8 32) by done. rewrite <- Z.eqb_eq, flags_extra by done. cbn [forallb flag_list].
  rewrite !andb_true_iff. tauto.
Qed.

(** *** Hashes of both directions *)

(** The flow of the answers. *)
Definition reverse_flow (f : flow) : flow :=
  with_dl_src (dl_dst f) (with_dl_dst (dl_src f) (with_nw_src (nw_dst f) (with_nw_dst (nw_src f)
    (with_ipv6_src (ipv6_dst f) (with_ipv6_dst (ipv6_src f) (with_tp_src (tp_dst f) (with_tp_dst (tp_src f) f))))))).

Lemma zip_lxor_comm a b : zip_with Z.lxor a b = zip_with Z.lxor b a.
Proof. revert b. induction a as [|x a IH]; intros [|y b]; try done. cbn. by rewrite Z.lxor_comm, IH. Qed.

(** Both directions of a connection have the same symmetric hash, on which select groups and
    bundles rely to keep them together. *)
Lemma symmetric_hash_reverse f basis : flow_hash_symmetric_l4 (reverse_flow f) basis = flow_hash_symmetric_l4 f basis.
Proof.
  unfold flow_hash_symmetric_l4. f_equal. destruct f. unfold symmetric_fields. cbn.
  by rewrite (zip_lxor_comm dl_dst0), (zip_lxor_comm ipv6_dst0), (Z.lxor_comm nw_dst0), (Z.lxor_comm tp_dst0).
Qed.
