(* ===== verification/ClsRule.v ===== *)
(** * Classifier rules (lib/classifier.c, the cls_rule functions)

    A rule is a flow, wildcards and a priority; the functions that build one keep the bits of
    the flow that are wildcarded at zero, which the classifier depends on.  [r_hash] is the hash
    in the hash node embedded in a rule, which insertion fills. *)
From S2P Require Import Prelude Hash Flow.

Local Open Scope Z_scope.

(** ** Definitions *)

Record cls_rule := MkRule { r_flow : flow; r_wc : flow_wildcards; r_priority : Z; r_hash : Z }.

#[export] Instance cls_rule_eq_dec : EqDecision cls_rule.
Proof. solve_decision. Defined.

Definition on_flow (g : flow -> flow) (r : cls_rule) : cls_rule := MkRule (g (r_flow r)) (r_wc r) (r_priority r) (r_hash r).
Definition on_wc (g : flow_wildcards -> flow_wildcards) (r : cls_rule) : cls_rule :=
  MkRule (r_flow r) (g (r_wc r)) (r_priority r) (r_hash r).
Definition with_hash (h : Z) (r : cls_rule) : cls_rule := MkRule (r_flow r) (r_wc r) (r_priority r) h.

(** [h] is what the hash node holds before the rule is inserted. *)
Definition cls_rule_zero_wildcarded_fields (r : cls_rule) : cls_rule :=
  on_flow (fun f => flow_zero_wildcards f (r_wc r)) r.

Definition cls_rule_init (f : flow) (wc : flow_wildcards) (priority h : Z) : cls_rule :=
  cls_rule_zero_wildcarded_fields (MkRule f wc priority h).

Definition cls_rule_init_exact (f : flow) (priority h : Z) : cls_rule :=
  MkRule (with_skb_priority 0 f) flow_wildcards_init_exact priority h.

Definition cls_rule_init_catchall (priority h : Z) : cls_rule :=
  MkRule flow_zero flow_wildcards_init_catchall priority h.

(** *** Setting fields *)

Definition cls_rule_set_reg_masked (reg_idx : nat) (value mask : Z) (r : cls_rule) : outcome cls_rule :=
  if negb (Nat.ltb reg_idx FLOW_N_REGS) then Stuck AssertFail
  else
    wc ← flow_wildcards_set_reg_mask reg_idx mask (r_wc r);
    Ret (on_wc (fun _ => wc) (on_flow (fun f => with_regs (<[reg_idx := Z.land value mask]> (regs f)) f) r)).

Definition cls_rule_set_reg (reg_idx : nat) (value : Z) (r : cls_rule) : outcome cls_rule :=
  cls_rule_set_reg_masked reg_idx value UINT32_MAX r.

Definition cls_rule_set_metadata_masked (m mask : Z) (r : cls_rule) : cls_rule :=
  on_flow (with_metadata (Z.land m mask)) (on_wc (with_metadata_mask mask) r).
Definition cls_rule_set_metadata (m : Z) (r : cls_rule) : cls_rule := cls_rule_set_metadata_masked m UINT64_MAX r.

Definition cls_rule_set_tun_id_masked (t mask : Z) (r : cls_rule) : cls_rule :=
  on_flow (with_tun_id (Z.land t mask)) (on_wc (with_tun_id_mask mask) r).
Definition cls_rule_set_tun_id (t : Z) (r : cls_rule) : cls_rule := cls_rule_set_tun_id_masked t UINT64_MAX r.

(** [rule->wc.wildcards &= ~flag] *)
Definition clear_flag (flag : Z) (wc : flow_wildcards) : flow_wildcards :=
  with_wildcards (Z.land (wildcards wc) (bnot 32 flag)) wc.

Definition cls_rule_set_in_port (ofp_port : Z) (r : cls_rule) : cls_rule :=
  on_flow (with_in_port ofp_port) (on_wc (clear_flag FWW_IN_PORT) r).

Definition cls_rule_set_dl_type (t : Z) (r : cls_rule) : cls_rule :=
  on_flow (with_dl_type t) (on_wc (clear_flag FWW_DL_TYPE) r).

(** The value and the mask that the two functions store. *)
Definition cls_rule_set_eth (value : list Z) : list Z * list Z := (value, replicate 6 255).
Definition cls_rule_set_eth_masked (value mask : list Z) : list Z * list Z := (zip_with Z.land value mask, mask).

Definition store_dl_src (x : list Z * list Z) (r : cls_rule) : cls_rule := on_flow (with_dl_src x.1) (on_wc (with_dl_src_mask x.2) r).
Definition store_dl_dst (x : list Z * list Z) (r : cls_rule) : cls_rule := on_flow (with_dl_dst x.1) (on_wc (with_dl_dst_mask x.2) r).
Definition store_arp_sha (x : list Z * list Z) (r : cls_rule) : cls_rule := on_flow (with_arp_sha x.1) (on_wc (with_arp_sha_mask x.2) r).
Definition store_arp_tha (x : list Z * list Z) (r : cls_rule) : cls_rule := on_flow (with_arp_tha x.1) (on_wc (with_arp_tha_mask x.2) r).

Definition cls_rule_set_dl_src (a : list Z) : cls_rule -> cls_rule := store_dl_src (cls_rule_set_eth a).
Definition cls_rule_set_dl_src_masked (a m : list Z) : cls_rule -> cls_rule := store_dl_src (cls_rule_set_eth_masked a m).
Definition cls_rule_set_dl_dst (a : list Z) : cls_rule -> cls_rule := store_dl_dst (cls_rule_set_eth a).
Definition cls_rule_set_dl_dst_masked (a m : list Z) : cls_rule -> cls_rule := store_dl_dst (cls_rule_set_eth_masked a m).
Definition cls_rule_set_arp_sha (a : list Z) : cls_rule -> cls_rule := store_arp_sha (cls_rule_set_eth a).
Definition cls_rule_set_arp_sha_masked (a m : list Z) : cls_rule -> cls_rule := store_arp_sha (cls_rule_set_eth_masked a m).
Definition cls_rule_set_arp_tha (a : list Z) : cls_rule -> cls_rule := store_arp_tha (cls_rule_set_eth a).
Definition cls_rule_set_arp_tha_masked (a m : list Z) : cls_rule -> cls_rule := store_arp_tha (cls_rule_set_eth_masked a m).

Definition cls_rule_set_dl_tci_masked (tci mask : Z) (r : cls_rule) : cls_rule :=
  on_wc (with_vlan_tci_mask mask) (on_flow (with_vlan_tci (Z.land tci mask)) r).
Definition cls_rule_set_dl_tci (tci : Z) (r : cls_rule) : cls_rule := cls_rule_set_dl_tci_masked tci 65535 r.

(** Clearing bits of the VLAN and of its mask. *)
Definition vlan_clear (bits : Z) (r : cls_rule) : cls_rule :=
  on_flow (fun f => with_vlan_tci (Z.land (vlan_tci f) (bnot 16 bits)) f)
    (on_wc (fun w => with_vlan_tci_mask (Z.land (vlan_tci_mask w) (bnot 16 bits)) w) r).

Definition cls_rule_set_any_vid (r : cls_rule) : cls_rule :=
  if negb (Z.land (vlan_tci_mask (r_wc r)) VLAN_PCP_MASK =? 0) then vlan_clear VLAN_VID_MASK r
  else cls_rule_set_dl_tci_masked 0 0 r.

Definition cls_rule_set_dl_vlan (dl_vlan : Z) (r : cls_rule) : cls_rule :=
  let r := on_flow (flow_set_dl_vlan dl_vlan) r in
  if dl_vlan =? OFP10_VLAN_NONE then on_wc (with_vlan_tci_mask UINT16_MAX) r
  else on_wc (fun w => with_vlan_tci_mask (Z.lor (vlan_tci_mask w) (Z.lor VLAN_VID_MASK VLAN_CFI)) w) r.

Definition cls_rule_set_vlan_vid_masked (vid mask : Z) (r : cls_rule) : cls_rule :=
  let pcp_mask := VLAN_PCP_MASK in
  let vid_mask := Z.lor VLAN_VID_MASK VLAN_CFI in
  let mask := Z.land mask vid_mask in
  let r := on_flow (flow_set_vlan_vid (Z.land vid mask)) r in
  on_wc (fun w => with_vlan_tci_mask (Z.lor mask (Z.land (vlan_tci_mask w) pcp_mask)) w) r.

Definition cls_rule_set_vlan_vid (vid : Z) (r : cls_rule) : cls_rule :=
  cls_rule_set_vlan_vid_masked vid (Z.lor VLAN_VID_MASK VLAN_CFI) r.

Definition cls_rule_set_any_pcp (r : cls_rule) : cls_rule :=
  if negb (Z.land (vlan_tci_mask (r_wc r)) VLAN_VID_MASK =? 0) then vlan_clear VLAN_PCP_MASK r
  else cls_rule_set_dl_tci_masked 0 0 r.

Definition cls_rule_set_dl_vlan_pcp (pcp : Z) (r : cls_rule) : cls_rule :=
  let r := on_flow (flow_set_vlan_pcp pcp) r in
  on_wc (fun w => with_vlan_tci_mask (Z.lor (vlan_tci_mask w) (Z.lor VLAN_CFI VLAN_PCP_MASK)) w) r.

Definition cls_rule_set_tp_src_masked (port mask : Z) (r : cls_rule) : cls_rule :=
  on_wc (with_tp_src_mask mask) (on_flow (with_tp_src (Z.land port mask)) r).
Definition cls_rule_set_tp_src (port : Z) (r : cls_rule) : cls_rule := cls_rule_set_tp_src_masked port UINT16_MAX r.
Definition cls_rule_set_tp_dst_masked (port mask : Z) (r : cls_rule) : cls_rule :=
  on_wc (with_tp_dst_mask mask) (on_flow (with_tp_dst (Z.land port mask)) r).
Definition cls_rule_set_tp_dst (port : Z) (r : cls_rule) : cls_rule := cls_rule_set_tp_dst_masked port UINT16_MAX r.

Definition cls_rule_set_nw_proto (p : Z) (r : cls_rule) : cls_rule :=
  on_flow (with_nw_proto p) (on_wc (clear_flag FWW_NW_PROTO) r).

Definition cls_rule_set_nw_src (a : Z) (r : cls_rule) : cls_rule :=
  on_wc (with_nw_src_mask UINT32_MAX) (on_flow (with_nw_src a) r).
Definition cls_rule_set_nw_src_masked (a mask : Z) (r : cls_rule) : cls_rule :=
  on_wc (with_nw_src_mask mask) (on_flow (with_nw_src (Z.land a mask)) r).
Definition cls_rule_set_nw_dst (a : Z) (r : cls_rule) : cls_rule :=
  on_wc (with_nw_dst_mask UINT32_MAX) (on_flow (with_nw_dst a) r).
Definition cls_rule_set_nw_dst_masked (a mask : Z) (r : cls_rule) : cls_rule :=
  on_wc (with_nw_dst_mask mask) (on_flow (with_nw_dst (Z.land a mask)) r).

(** [nw_tos &= ~bits; nw_tos |= value & bits] *)
Definition put_tos (bits value : Z) (f : flow) : flow :=
  let f := with_nw_tos (Z.land (nw_tos f) (bnot 8 bits)) f in
  with_nw_tos (Z.lor (nw_tos f) (Z.land value bits)) f.

Definition cls_rule_set_nw_dscp (nw_dscp : Z) (r : cls_rule) : cls_rule :=
  on_flow (put_tos IP_DSCP_MASK nw_dscp) (on_wc (clear_flag FWW_NW_DSCP) r).
Definition cls_rule_set_nw_ecn (nw_ecn : Z) (r : cls_rule) : cls_rule :=
  on_flow (put_tos IP_ECN_MASK nw_ecn) (on_wc (clear_flag FWW_NW_ECN) r).

Definition cls_rule_set_nw_ttl (ttl : Z) (r : cls_rule) : cls_rule :=
  on_flow (with_nw_ttl ttl) (on_wc (clear_flag FWW_NW_TTL) r).

Definition cls_rule_set_nw_frag (frag : Z) (r : cls_rule) : cls_rule :=
  on_flow (with_nw_frag frag)
    (on_wc (fun w => with_nw_frag_mask (Z.lor (nw_frag_mask w) FLOW_NW_FRAG_MASK) w) r).
Definition cls_rule_set_nw_frag_masked (frag mask : Z) (r : cls_rule) : cls_rule :=
  on_wc (with_nw_frag_mask mask) (on_flow (with_nw_frag (Z.land frag mask)) r).

Definition cls_rule_set_icmp_type (t : Z) : cls_rule -> cls_rule := cls_rule_set_tp_src t.
Definition cls_rule_set_icmp_code (c : Z) : cls_rule -> cls_rule := cls_rule_set_tp_dst c.

Definition cls_rule_set_ipv6_src (a : list Z) (r : cls_rule) : cls_rule :=
  on_wc (with_ipv6_src_mask in6addr_exact) (on_flow (with_ipv6_src a) r).
Definition cls_rule_set_ipv6_src_masked (a m : list Z) (r : cls_rule) : cls_rule :=
  on_wc (with_ipv6_src_mask m) (on_flow (with_ipv6_src (ipv6_addr_bitand a m)) r).
Definition cls_rule_set_ipv6_dst (a : list Z) (r : cls_rule) : cls_rule :=
  on_wc (with_ipv6_dst_mask in6addr_exact) (on_flow (with_ipv6_dst a) r).
Definition cls_rule_set_ipv6_dst_masked (a m : list Z) (r : cls_rule) : cls_rule :=
  on_wc (with_ipv6_dst_mask m) (on_flow (with_ipv6_dst (ipv6_addr_bitand a m)) r).
Definition cls_rule_set_nd_target (a : list Z) (r : cls_rule) : cls_rule :=
  on_wc (with_nd_target_mask in6addr_exact) (on_flow (with_nd_target a) r).
Definition cls_rule_set_nd_target_masked (a m : list Z) (r : cls_rule) : cls_rule :=
  on_wc (with_nd_target_mask m) (on_flow (with_nd_target (ipv6_addr_bitand a m)) r).

Definition cls_rule_set_ipv6_label_masked (label mask : Z) (r : cls_rule) : cls_rule :=
  on_wc (with_ipv6_label_mask mask) (on_flow (with_ipv6_label (Z.land label mask)) r).
Definition cls_rule_set_ipv6_label (label : Z) (r : cls_rule) : cls_rule := cls_rule_set_ipv6_label_masked label UINT32_MAX r.

(** *** Comparing rules and flows *)

Definition cls_rule_equal (a b : cls_rule) : bool :=
  (r_priority a =? r_priority b) && flow_wildcards_equal (r_wc a) (r_wc b) && flow_equal (r_flow a) (r_flow b).

Definition cls_rule_hash (r : cls_rule) (basis : Z) : Z :=
  let h0 := flow_hash (r_flow r) basis in
  let h1 := flow_wildcards_hash (r_wc r) h0 in
  hash_int (r_priority r) h1.

Definition flow_equal_except (a b : flow) (w : flow_wildcards) : bool :=
  let wc := wildcards w in
  if existsb id (zip_with differ (reg_masks w) (zip (regs a) (regs b))) then false
  else
    negb (differ (tun_id_mask w) (tun_id a, tun_id b))
    && negb (differ (metadata_mask w) (metadata a, metadata b))
    && negb (differ (nw_src_mask w) (nw_src a, nw_src b))
    && negb (differ (nw_dst_mask w) (nw_dst a, nw_dst b))
    && (has wc FWW_IN_PORT || (in_port a =? in_port b))
    && negb (differ (vlan_tci_mask w) (vlan_tci a, vlan_tci b))
    && (has wc FWW_DL_TYPE || (dl_type a =? dl_type b))
    && negb (differ (tp_src_mask w) (tp_src a, tp_src b))
    && negb (differ (tp_dst_mask w) (tp_dst a, tp_dst b))
    && eth_addr_equal_except (dl_src a) (dl_src b) (dl_src_mask w)
    && eth_addr_equal_except (dl_dst a) (dl_dst b) (dl_dst_mask w)
    && (has wc FWW_NW_PROTO || (nw_proto a =? nw_proto b))
    && (has wc FWW_NW_TTL || (nw_ttl a =? nw_ttl b))
    && (has wc FWW_NW_DSCP || negb (differ IP_DSCP_MASK (nw_tos a, nw_tos b)))
    && (has wc FWW_NW_ECN || negb (differ IP_ECN_MASK (nw_tos a, nw_tos b)))
    && negb (differ (nw_frag_mask w) (nw_frag a, nw_frag b))
    && eth_addr_equal_except (arp_sha a) (arp_sha b) (arp_sha_mask w)
    && eth_addr_equal_except (arp_tha a) (arp_tha b) (arp_tha_mask w)
    && negb (differ (ipv6_label_mask w) (ipv6_label a, ipv6_label b))
    && ipv6_equal_except (ipv6_src a) (ipv6_src b) (ipv6_src_mask w)
    && ipv6_equal_except (ipv6_dst a) (ipv6_dst b) (ipv6_dst_mask w)
    && ipv6_equal_except (nd_target a) (nd_target b) (nd_target_mask w).

Definition cls_rule_is_loose_match (rule criteria : cls_rule) : bool :=
  negb (flow_wildcards_has_extra (r_wc rule) (r_wc criteria))
  && flow_equal_except (r_flow rule) (r_flow criteria) (r_wc criteria).

Definition rule_matches (rule : cls_rule) (target : option cls_rule) : bool :=
  match target with
  | None => true
  | Some t => flow_equal_except (r_flow rule) (r_flow t) (r_wc t)
  end.

(** ** Matching as agreement on masked bits *)

Lemma land_lxor x y m : Z.land (Z.lxor x y) m = Z.lxor (Z.land x m) (Z.land y m).
Proof.
  apply Z.bits_inj'. intros i _. rewrite !Z.land_spec, !Z.lxor_spec, !Z.land_spec.
  by destruct (Z.testbit x i), (Z.testbit y i), (Z.testbit m i).
Qed.

Lemma differ_ok m x y : differ m (x, y) = false <-> Z.land x m = Z.land y m.
Proof.
  unfold differ. cbn [fst snd]. rewrite negb_false_iff, Z.eqb_eq, land_lxor. apply Z.lxor_eq_0_iff.
Qed.

Lemma differ_list n w a b m : words n w a -> words n w b -> words n w m ->
  existsb id (zip_with differ m (zip a b)) = false <-> masked m a = masked m b.
Proof.
  intros [<- _] [Hb _] [Hm _]. revert b m Hb Hm. induction a as [|x a IH]; intros [|y b] [|z m] Hb Hm; try done.
  unfold masked, zip. cbn [zip_with existsb id]. rewrite orb_false_iff. unfold masked, zip in IH. rewrite (IH b m) by (by simplify_eq/=).
  rewrite differ_ok. split; [by intros [-> ->]|intros E; by injection E].
Qed.

Lemma eth_equal_except_ok n w a b m : words n w a -> words n w b -> words n w m ->
  eth_addr_equal_except a b m = true <-> masked m a = masked m b.
Proof. intros Ha Hb Hm. unfold eth_addr_equal_except. rewrite negb_true_iff. by eapply differ_list. Qed.

Lemma ipv6_equal_except_ok n w a b m : words n w a -> words n w b -> words n w m ->
  ipv6_equal_except a b m = true <-> masked m a = masked m b.
Proof.
  intros Ha Hb Hm. rewrite <- (differ_list n w) by done. destruct Ha as [<- _], Hb as [Hb _], Hm as [Hm _].
  revert b m Hb Hm. induction a as [|x a IH]; intros [|y b] [|z m] Hb Hm; try done.
  cbn [ipv6_equal_except zip zip_with existsb id]. rewrite andb_true_iff, orb_false_iff, negb_true_iff.
  unfold zip in *. rewrite (IH b m) by (by simplify_eq/=). done.
Qed.

Lemma flag_test w wc flag x y : in_width w x -> in_width w y -> 0 <= w ->
  has (wildcards wc) flag || (x =? y) = true <-> Z.land x (field_mask wc flag w) = Z.land y (field_mask wc flag w).
Proof.
  intros Hx Hy Hw. rewrite !flag_masked by done. destruct (has (wildcards wc) flag); [done|]. cbn. apply Z.eqb_eq.
Qed.

Lemma tos_test wc x y :
  (has (wildcards wc) FWW_NW_DSCP || negb (differ IP_DSCP_MASK (x, y))) = true
  /\ (has (wildcards wc) FWW_NW_ECN || negb (differ IP_ECN_MASK (x, y))) = true
  <-> Z.land x (tos_mask wc) = Z.land y (tos_mask wc).
Proof.
  rewrite <- (differ_ok (tos_mask wc)). unfold tos_mask, differ. cbn [fst snd].
  destruct (has (wildcards wc) FWW_NW_DSCP), (has (wildcards wc) FWW_NW_ECN); cbn [orb];
    rewrite ?negb_involutive, ?negb_false_iff, ?Z.lor_0_l, ?Z.lor_0_r, ?Z.eqb_eq, ?Z.land_0_r, ?Z.land_lor_distr_r,
      ?Z.lor_eq_0_iff; tauto.
Qed.

Lemma length_masked_words n w m l : words n w l -> words n w m -> length (masked m l) = n.
Proof. intros [Hl _] [Hm _]. rewrite length_masked; congruence. Qed.

Lemma masked_one m x : masked [m] [x] = [Z.land x m].
Proof. done. Qed.

Lemma flow_equal_except_ok a b w : flow_ok a -> flow_ok b -> wc_ok w ->
  flow_equal_except a b w = true <-> masked (mask_words w) (flow_words a) = masked (mask_words w) (flow_words b).
Proof.
  intros [] [] []. unfold flow_words, mask_words.
  repeat (rewrite masked_app by (by etrans; [eapply words_length; eassumption|symmetry; eapply words_length; eassumption] || done)).
  repeat (rewrite app_eq_iff by (done || (etrans; [eapply length_masked_words; eassumption|
    symmetry; eapply length_masked_words; eassumption]))).
  rewrite !masked_one, !singleton_eq, !Z.land_0_r.
  unfold flow_equal_except. rewrite negb_if_or, !andb_true_iff, !negb_true_iff, (differ_list 8 32), !differ_ok by done.
  rewrite !(eth_equal_except_ok 6 8), !(ipv6_equal_except_ok 16 8) by done.
  rewrite (flag_test 16 w FWW_IN_PORT), (flag_test 16 w FWW_DL_TYPE), (flag_test 8 w FWW_NW_PROTO), (flag_test 8 w FWW_NW_TTL)
    by (done || lia).
  pose proof (tos_test w (nw_tos a) (nw_tos b)). tauto.
Qed.

(** ** The invariant of a rule, and the packets it matches *)

(** Wildcarded bits are zero. *)
Record rule_ok (r : cls_rule) : Prop := {
  ro_flow : flow_ok (r_flow r);
  ro_wc : wc_ok (r_wc r);
  ro_zero : flow_zero_wildcards (r_flow r) (r_wc r) = r_flow r
}.

(** A packet with the key [f] matches. *)
Definition hits (r : cls_rule) (f : flow) : Prop := flow_equal_except f (r_flow r) (r_wc r) = true.

Abbreviation rmask r := (mask_words (r_wc r)).
Abbreviation rwords r := (flow_words (r_flow r)).

Lemma rule_words r : rule_ok r -> masked (rmask r) (rwords r) = rwords r.
Proof. intros []. by rewrite <- zero_wildcards_words, ro_zero0. Qed.

Lemma hits_words r f : rule_ok r -> flow_ok f -> hits r f <-> masked (rmask r) (flow_words f) = rwords r.
Proof. intros Hr Hf. pose proof Hr as []. unfold hits. by rewrite flow_equal_except_ok, rule_words. Qed.

Lemma zero_wildcards_flow_ok f w : flow_ok f -> wc_ok w -> flow_ok (flow_zero_wildcards f w).
Proof.
  intros Hf Hw. destruct (row_flow _ (masked_row _ _ (flow_row f Hf) (mask_row w Hw))) as (g & Hg & E).
  assert (flow_zero_wildcards f w = g) as ->; [|done].
  pose proof (zero_wildcards_words f w Hf Hw) as E2. rewrite <- E in E2. revert E2.
  (* the zeroed flow has the shape of [g] *)
  unfold flow_words. destruct Hg. pose proof Hf as []. pose proof Hw as []. unfold words in *. destruct_and?.
  intros E2. unfold ipv6_addr_bitand, eth_addr_bitand in *.
  repeat (apply app_inj_1 in E2 as [? E2]; [|cbn [flow_zero_wildcards tun_id metadata ipv6_src ipv6_dst nd_target skb_priority regs
    nw_src nw_dst ipv6_label in_port vlan_tci dl_type tp_src tp_dst dl_src dl_dst nw_proto nw_tos arp_sha arp_tha nw_ttl nw_frag];
    unfold ipv6_addr_bitand, eth_addr_bitand; rewrite ?length_zip_with; cbn [length]; lia]).
  destruct g. cbn in *. simplify_eq. done.
Qed.

Lemma hits_zeroed r f : rule_ok r -> flow_ok f -> hits r f <-> flow_zero_wildcards f (r_wc r) = r_flow r.
Proof.
  intros Hr Hf. pose proof Hr as []. rewrite hits_words, <- zero_wildcards_words by done. split; [|by intros ->].
  apply flow_words_inj; [|done]. by apply zero_wildcards_flow_ok.
Qed.

(** *** Rows position by position *)

Lemma nth_masked m l i : length l = length m -> nth i (masked m l) 0 = Z.land (nth i l 0) (nth i m 0).
Proof.
  revert m i. induction l as [|x l IH]; intros [|y m] i Hl; try done; destruct i; cbn; try done. apply IH. by injection Hl.
Qed.

Lemma nth_zip (op : Z -> Z -> Z) l m i : op 0 0 = 0 -> length l = length m ->
  nth i (zip_with op l m) 0 = op (nth i l 0) (nth i m 0).
Proof.
  intros H0. revert m i. induction l as [|x l IH]; intros [|y m] i Hl; try done; destruct i; cbn; try done.
  apply IH. by injection Hl.
Qed.

Lemma row_eq l m : length l = length m -> (forall i, nth i l 0 = nth i m 0) -> l = m.
Proof. intros Hl H. by apply (nth_ext _ _ 0 0). Qed.

Lemma row_zip (op : Z -> Z -> Z) l m :
  (forall w x y, 0 <= w -> in_width w x -> in_width w y -> in_width w (op x y)) -> row l -> row m -> row (zip_with op l m).
Proof.
  intros Hop. unfold row. assert (Forall (fun w => 0 <= w) widths) as Hw by (by repeat constructor).
  revert l m Hw. generalize widths. induction l as [|w ws IH]; intros l m Hw Hl Hm.
  - inversion Hl. constructor.
  - inversion Hl; subst. inversion Hm; subst. apply Forall_cons in Hw as [? ?]. cbn. constructor; [by apply Hop|by apply IH].
Qed.

Lemma nth_row_nonneg l i : row l -> 0 <= nth i l 0.
Proof.
  intros H. destruct (decide (i < length l)%nat) as [Hi|]; [|by rewrite nth_overflow by lia].
  assert (Forall (fun x => 0 <= x) l) as Hf.
  { unfold row in H. revert H. generalize widths. clear. induction l as [|x l IH]; intros ws H; [constructor|].
    inversion H as [|? ? ? ? [? _]]; subst. constructor; [done|by eapply IH]. }
  rewrite Forall_forall in Hf. apply Hf, list_elem_of_In, nth_In. done.
Qed.

(** Bitwise identities of words, by the bits. *)
Ltac bits :=
  apply Z.bits_inj'; intros ? ?;
  repeat match goal with H : @eq Z _ _ |- _ => apply (f_equal Z.testbit) in H end;
  repeat match goal with
  | H : Z.testbit _ = Z.testbit _, _ : 0 <= ?n |- _ => apply (f_equal (fun g => g n)) in H; cbv beta in H
  end;
  repeat first [rewrite Z.land_spec in * | rewrite Z.lor_spec in * | rewrite Z.lxor_spec in * | rewrite Z.ldiff_spec in *
               | rewrite Z.bits_0 in *];
  repeat match goal with |- context [Z.testbit ?x ?n] => destruct (Z.testbit x n) end;
  repeat match goal with H : context [Z.testbit ?x ?n] |- _ => destruct (Z.testbit x n) end;
  cbn in *; congruence.

(** ** Specificity and overlap *)

(** [criteria] asks nothing that [rule] does not. *)
Lemma loose_match_words r c : rule_ok r -> rule_ok c ->
  cls_rule_is_loose_match r c = true
  <-> masked (rmask c) (rmask r) = rmask c /\ masked (rmask c) (rwords r) = rwords c.
Proof.
  intros Hr Hc. pose proof Hr as []. pose proof Hc as []. unfold cls_rule_is_loose_match.
  rewrite andb_true_iff, negb_true_iff, has_extra_words, flow_equal_except_ok by done. by rewrite (rule_words c).
Qed.

Lemma flow_zero_ok : flow_ok flow_zero.
Proof. split; try done; by split; [|repeat constructor]. Qed.

Lemma catchall_rule_ok p h : rule_ok (cls_rule_init_catchall p h).
Proof. split; [exact flow_zero_ok|exact init_catchall_ok|reflexivity]. Qed.

(** C20: cls_rule_is_loose_match decides inclusion.  [rule] is a loose match of [criteria]
    exactly if every packet that matches [rule] matches [criteria]. *)
Theorem loose_match_inclusion r c :
  rule_ok r -> rule_ok c ->
  cls_rule_is_loose_match r c = true <-> forall f, flow_ok f -> hits r f -> hits c f.
Proof.
  intros Hr Hc. pose proof (rule_words r Hr) as Er. pose proof (rule_words c Hc) as Ec.
  pose proof (mask_row _ (ro_wc _ Hr)) as Mr. pose proof (mask_row _ (ro_wc _ Hc)) as Mc.
  pose proof (flow_row _ (ro_flow _ Hr)) as Rr.
  pose proof (row_length _ Mr) as Lmr. pose proof (row_length _ Mc) as Lmc. pose proof (row_length _ Rr) as Lr.
  rewrite (loose_match_words r c Hr Hc). split.
  - intros [Hm Hw] f Hf. pose proof (row_length _ (flow_row _ Hf)) as Lf.
    rewrite !hits_words by done. intros Hh. rewrite <- Hw, <- Hh. apply row_eq.
    { rewrite !length_masked; rewrite ?length_masked; lia. }
    intros i. rewrite !nth_masked by (rewrite ?length_masked; lia).
    pose proof (f_equal (fun l => nth i l 0) Hm) as Hi. cbv beta in Hi. rewrite nth_masked in Hi by lia. bits.
  - intros Hall.
    (* the rule's own flow, with the bits that only [c] looks at flipped *)
    assert (row (zip_with Z.lxor (rwords r) (zip_with Z.ldiff (rmask c) (rmask r)))) as Hrow.
    { apply row_zip; [by apply in_width_lxor|done|]. apply row_zip; [|done|done].
      intros w x y Hw Hx [Hy _]. apply in_width_bits; [done|apply Z.ldiff_nonneg; left; by destruct Hx|].
      intros i Hi. by rewrite Z.ldiff_spec, (in_width_high w x). }
    destruct (row_flow _ Hrow) as (g & Hg & Eg).
    assert (length (zip_with Z.ldiff (rmask c) (rmask r)) = 95%nat) as Ld by (rewrite length_zip_with; lia).
    assert (length (flow_words g) = 95%nat) as Lg by (by apply row_length, flow_row).
    assert (hits c (r_flow r)) as Hself.
    { apply Hall; [apply Hr|]. by apply hits_words; [|apply Hr|]. }
    assert (hits c g) as Hflip.
    { apply Hall; [done|]. apply hits_words; [done|done|]. apply row_eq; [rewrite length_masked; lia|].
      intros i. rewrite nth_masked by lia. rewrite Eg, nth_zip, nth_zip by (done || lia).
      pose proof (f_equal (fun l => nth i l 0) Er) as Hi. cbv beta in Hi. rewrite nth_masked in Hi by lia. bits. }
    rewrite hits_words in Hself, Hflip by (done || apply Hr). split; [|done].
    apply row_eq; [rewrite length_masked; lia|]. intros i. rewrite nth_masked by lia.
    pose proof (f_equal (fun l => nth i l 0) Hself) as Hi. pose proof (f_equal (fun l => nth i l 0) Hflip) as Hj.
    cbv beta in Hi, Hj. rewrite nth_masked in Hi, Hj by lia. rewrite Eg, nth_zip, nth_zip in Hj by (done || lia).
    rewrite <- Hi in Hj. clear Hi. bits.
Qed.

(** The packets without any header are among all packets, not the other way round. *)
Lemma exact_zero_rule_ok p h : rule_ok (cls_rule_init_exact flow_zero p h).
Proof. split; [exact flow_zero_ok|exact init_exact_ok|reflexivity]. Qed.

Lemma loose_match_inclusion_witness :
  (cls_rule_is_loose_match (cls_rule_init_exact flow_zero 5 0) (cls_rule_init_catchall 1 0) = true
   /\ (true = true <-> forall f, flow_ok f -> hits (cls_rule_init_exact flow_zero 5 0) f -> hits (cls_rule_init_catchall 1 0) f))
  /\ (cls_rule_is_loose_match (cls_rule_init_catchall 1 0) (cls_rule_init_exact flow_zero 5 0) = false
   /\ (false = true <-> forall f, flow_ok f -> hits (cls_rule_init_catchall 1 0) f -> hits (cls_rule_init_exact flow_zero 5 0) f)).
Proof.
  split; (split; [vm_compute; reflexivity|]).
  - exact (loose_match_inclusion _ _ (exact_zero_rule_ok 5 0) (catchall_rule_ok 1 0)).
  - exact (loose_match_inclusion _ _ (catchall_rule_ok 1 0) (exact_zero_rule_ok 5 0)).
Defined.

(** The test of classifier_rule_overlaps for two rules: some packet matches both. *)
Lemma overlap_words z a b : rule_ok a -> rule_ok b ->
  flow_equal_except (r_flow a) (r_flow b) (flow_wildcards_combine z (r_wc a) (r_wc b)) = true
  <-> exists f, flow_ok f /\ hits a f /\ hits b f.
Proof.
  intros Ha Hb. pose proof (rule_words a Ha) as Ea. pose proof (rule_words b Hb) as Eb.
  pose proof (mask_row _ (ro_wc _ Ha)) as Ma. pose proof (mask_row _ (ro_wc _ Hb)) as Mb.
  pose proof (flow_row _ (ro_flow _ Ha)) as Ra. pose proof (flow_row _ (ro_flow _ Hb)) as Rb.
  pose proof (row_length _ Ma) as Lma. pose proof (row_length _ Mb) as Lmb.
  pose proof (row_length _ Ra) as La. pose proof (row_length _ Rb) as Lb.
  change (flow_equal_except (r_flow a) (r_flow b) (flow_wildcards_combine 0 (r_wc a) (r_wc b)) = true
          <-> exists f, flow_ok f /\ hits a f /\ hits b f).
  rewrite flow_equal_except_ok, combine_words; [|by apply Ha|by apply Hb|by apply Ha|by apply Hb|apply combine_ok; [apply Ha|apply Hb]].
  split.
  - intros E. assert (row (zip_with Z.lor (rwords a) (rwords b))) as Hrow by (apply row_zip; [by apply in_width_lor|done|done]).
    destruct (row_flow _ Hrow) as (g & Hg & Eg). assert (length (flow_words g) = 95%nat) as Lg by (by apply row_length, flow_row).
    exists g. split; [done|].
    split; (apply hits_words; [done|done|]; apply row_eq; [rewrite length_masked; lia|]; intros i;
      rewrite nth_masked, Eg, nth_zip by (done || lia);
      pose proof (f_equal (fun l => nth i l 0) E) as Hi; pose proof (f_equal (fun l => nth i l 0) Ea) as Hj;
      pose proof (f_equal (fun l => nth i l 0) Eb) as Hk; cbv beta in Hi, Hj, Hk;
      rewrite !nth_masked in Hi by (rewrite ?length_masked; lia); rewrite nth_masked in Hj, Hk by lia; bits).
  - intros (f & Hf & H1 & H2). pose proof (row_length _ (flow_row _ Hf)) as Lf.
    rewrite hits_words in H1, H2 by done. rewrite <- H1, <- H2. apply row_eq; [rewrite !length_masked; rewrite ?length_masked; lia|].
    intros i. rewrite !nth_masked by (rewrite ?length_masked; lia). bits.
Qed.
