(* ===== verification/ClsPut.v ===== *)
(** * Building rules (lib/classifier.c, what the cls_rule_set functions do)

    For each member of a flow, a value and a mask put into a rule: the rule keeps its invariant,
    and is narrowed to the packets that have the value under the mask.  ClsSet.v reads every
    cls_rule_set function off these lemmas. *)
From S2P Require Import Prelude Hash Flow ClsRule.

Local Open Scope Z_scope.

(** ** Setting one field

    For each member of a flow: the rule with a value and a mask put there keeps the invariant,
    and matches what the rule matches with that member wildcarded, if the packet also has the
    value under the mask. *)

Lemma zeroed_fields f w :
  flow_zero_wildcards f w = f
  <-> Z.land (tun_id f) (tun_id_mask w) = tun_id f /\ Z.land (metadata f) (metadata_mask w) = metadata f
   /\ ipv6_addr_bitand (ipv6_src f) (ipv6_src_mask w) = ipv6_src f
   /\ ipv6_addr_bitand (ipv6_dst f) (ipv6_dst_mask w) = ipv6_dst f
   /\ ipv6_addr_bitand (nd_target f) (nd_target_mask w) = nd_target f
   /\ 0 = skb_priority f /\ zip_with Z.land (regs f) (reg_masks w) = regs f
   /\ Z.land (nw_src f) (nw_src_mask w) = nw_src f /\ Z.land (nw_dst f) (nw_dst_mask w) = nw_dst f
   /\ Z.land (ipv6_label f) (ipv6_label_mask w) = ipv6_label f
   /\ (if has (wildcards w) FWW_IN_PORT then 0 else in_port f) = in_port f
   /\ Z.land (vlan_tci f) (vlan_tci_mask w) = vlan_tci f
   /\ (if has (wildcards w) FWW_DL_TYPE then 0 else dl_type f) = dl_type f
   /\ Z.land (tp_src f) (tp_src_mask w) = tp_src f /\ Z.land (tp_dst f) (tp_dst_mask w) = tp_dst f
   /\ eth_addr_bitand (dl_src f) (dl_src_mask w) = dl_src f /\ eth_addr_bitand (dl_dst f) (dl_dst_mask w) = dl_dst f
   /\ (if has (wildcards w) FWW_NW_PROTO then 0 else nw_proto f) = nw_proto f
   /\ nw_tos (flow_zero_wildcards f w) = nw_tos f
   /\ eth_addr_bitand (arp_sha f) (arp_sha_mask w) = arp_sha f
   /\ eth_addr_bitand (arp_tha f) (arp_tha_mask w) = arp_tha f
   /\ (if has (wildcards w) FWW_NW_TTL then 0 else nw_ttl f) = nw_ttl f
   /\ Z.land (nw_frag f) (nw_frag_mask w) = nw_frag f.
Proof.
  destruct f. split.
  - intros E. pose proof E as E'. unfold flow_zero_wildcards in E'. injection E'. intros.
    split_and!; try done; cbn; congruence.
  - intros. destruct_and?. cbn in *. unfold flow_zero_wildcards. cbn. by f_equal.
Qed.

Definition puts (r r0 r' : cls_rule) (P : flow -> Prop) : Prop :=
  rule_ok r -> rule_ok r' /\ forall f, flow_ok f -> hits r' f <-> hits r0 f /\ P f.

Lemma bnot_nonneg w x : 0 <= w -> 0 <= bnot w x.
Proof. intros Hw. by apply wrap_bound. Qed.

#[local] Opaque bnot differ has eth_addr_equal_except ipv6_equal_except tos_mask flow_wildcards_is_catchall.

Ltac rule_parts r Hr :=
  let Hf := fresh "Hflow" in let Hw := fresh "Hwild" in let Hz := fresh "Hzero" in
  destruct r as [? ? ? ?]; destruct Hr as [Hf Hw Hz]; cbn [r_flow r_wc] in *; rewrite zeroed_fields in Hz;
  repeat match goal with f : flow |- _ => destruct f | w : flow_wildcards |- _ => destruct w end;
  destruct Hf, Hw; cbn in * |-; destruct_and?.

(** The invariant after one member changed: every other clause is the one of the old rule. *)
Ltac put_ok r Hr :=
  rule_parts r Hr; split; [split|split|rewrite zeroed_fields; cbn; split_and!]; cbn; try done.

(** The packets: all other tests are the same. *)
Ltac put_hits r :=
  let f := fresh "f" in let Hf := fresh "Hf" in
  intros f Hf; unfold hits; destruct r as [? ? ? ?];
  repeat match goal with w : flow_wildcards |- _ => destruct w end;
  repeat match goal with g : flow |- _ => lazymatch g with f => fail | _ => destruct g end end;
  unfold flow_equal_except; cbn; rewrite !negb_if_or, !andb_true_iff, !negb_true_iff.

Ltac put_scalar r Hr Hz := split; [put_ok r Hr|]; put_hits r; rewrite !differ_ok, !Z.land_0_r, Hz; tauto.

Lemma put_tun_id v m r : in_width 64 v -> in_width 64 m -> Z.land v m = v ->
  puts r (on_flow (with_tun_id 0) (on_wc (with_tun_id_mask 0) r)) (on_flow (with_tun_id v) (on_wc (with_tun_id_mask m) r))
    (fun f => Z.land (tun_id f) m = v).
Proof. intros Hv Hm Hz Hr. put_scalar r Hr Hz. Qed.

Lemma put_metadata v m r : in_width 64 v -> in_width 64 m -> Z.land v m = v ->
  puts r (on_flow (with_metadata 0) (on_wc (with_metadata_mask 0) r)) (on_flow (with_metadata v) (on_wc (with_metadata_mask m) r))
    (fun f => Z.land (metadata f) m = v).
Proof. intros Hv Hm Hz Hr. put_scalar r Hr Hz. Qed.

Lemma put_nw_src v m r : in_width 32 v -> in_width 32 m -> Z.land v m = v ->
  puts r (on_flow (with_nw_src 0) (on_wc (with_nw_src_mask 0) r)) (on_flow (with_nw_src v) (on_wc (with_nw_src_mask m) r))
    (fun f => Z.land (nw_src f) m = v).
Proof. intros Hv Hm Hz Hr. put_scalar r Hr Hz. Qed.

Lemma put_nw_dst v m r : in_width 32 v -> in_width 32 m -> Z.land v m = v ->
  puts r (on_flow (with_nw_dst 0) (on_wc (with_nw_dst_mask 0) r)) (on_flow (with_nw_dst v) (on_wc (with_nw_dst_mask m) r))
    (fun f => Z.land (nw_dst f) m = v).
Proof. intros Hv Hm Hz Hr. put_scalar r Hr Hz. Qed.

Lemma put_ipv6_label v m r : in_width 32 v -> in_width 32 m -> Z.land v m = v ->
  puts r (on_flow (with_ipv6_label 0) (on_wc (with_ipv6_label_mask 0) r)) (on_flow (with_ipv6_label v) (on_wc (with_ipv6_label_mask m) r))
    (fun f => Z.land (ipv6_label f) m = v).
Proof. intros Hv Hm Hz Hr. put_scalar r Hr Hz. Qed.

Lemma put_vlan_tci v m r : in_width 16 v -> in_width 16 m -> Z.land v m = v ->
  puts r (on_flow (with_vlan_tci 0) (on_wc (with_vlan_tci_mask 0) r)) (on_flow (with_vlan_tci v) (on_wc (with_vlan_tci_mask m) r))
    (fun f => Z.land (vlan_tci f) m = v).
Proof. intros Hv Hm Hz Hr. put_scalar r Hr Hz. Qed.

Lemma put_tp_src v m r : in_width 16 v -> in_width 16 m -> Z.land v m = v ->
  puts r (on_flow (with_tp_src 0) (on_wc (with_tp_src_mask 0) r)) (on_flow (with_tp_src v) (on_wc (with_tp_src_mask m) r))
    (fun f => Z.land (tp_src f) m = v).
Proof. intros Hv Hm Hz Hr. put_scalar r Hr Hz. Qed.

Lemma put_tp_dst v m r : in_width 16 v -> in_width 16 m -> Z.land v m = v ->
  puts r (on_flow (with_tp_dst 0) (on_wc (with_tp_dst_mask 0) r)) (on_flow (with_tp_dst v) (on_wc (with_tp_dst_mask m) r))
    (fun f => Z.land (tp_dst f) m = v).
Proof. intros Hv Hm Hz Hr. put_scalar r Hr Hz. Qed.

Lemma put_nw_frag v m r : in_width 8 v -> in_width 8 m -> Z.land v m = v ->
  puts r (on_flow (with_nw_frag 0) (on_wc (with_nw_frag_mask 0) r)) (on_flow (with_nw_frag v) (on_wc (with_nw_frag_mask m) r))
    (fun f => Z.land (nw_frag f) m = v).
Proof. intros Hv Hm Hz Hr. put_scalar r Hr Hz. Qed.

(** Fields that a flag wildcards. *)
Lemma clear_flags w : in_width 6 w -> forall f g, In f flag_list -> In g flag_list ->
  has (Z.land w (bnot 32 f)) g = has w g && negb (f =? g).
Proof.
  intros Hw f g Hf Hg. apply eqb_prop.
  assert (forallb (fun w => forallb (fun f => forallb (fun g => Bool.eqb (has (Z.land w (bnot 32 f)) g)
            (has w g && negb (f =? g))) flag_list) flag_list) all_flags = true) as H by reflexivity.
  rewrite forallb_forall in H. specialize (H w (in_flags w Hw)). rewrite forallb_forall in H.
  specialize (H f Hf). rewrite forallb_forall in H. by apply H.
Qed.

Lemma set_flags w : in_width 6 w -> forall f g, In f flag_list -> In g flag_list ->
  has (Z.lor w f) g = has w g || (f =? g).
Proof.
  intros Hw f g Hf Hg. rewrite flags_union; [|done| |done].
  - by destruct Hf as [<-|[<-|[<-|[<-|[<-|[<-|[]]]]]]], Hg as [<-|[<-|[<-|[<-|[<-|[<-|[]]]]]]].
  - by destruct Hf as [<-|[<-|[<-|[<-|[<-|[<-|[]]]]]]].
Qed.

Definition set_flag (flag : Z) (wc : flow_wildcards) : flow_wildcards := with_wildcards (Z.lor (wildcards wc) flag) wc.

Lemma in_width_6 w f : in_width 6 w -> In f flag_list -> in_width 6 (Z.lor w f).
Proof.
  intros Hw Hf. apply in_width_lor; [lia|done|]. by destruct Hf as [<-|[<-|[<-|[<-|[<-|[<-|[]]]]]]].
Qed.

(** Evaluates what became of each flag. *)
Ltac flags :=
  repeat rewrite clear_flags by (done || (cbn; tauto));
  repeat rewrite set_flags by (done || (cbn; tauto));
  cbn [Z.eqb Pos.eqb negb FWW_IN_PORT FWW_NW_DSCP FWW_NW_ECN FWW_NW_TTL FWW_DL_TYPE FWW_NW_PROTO];
  rewrite ?andb_true_r, ?andb_false_r, ?orb_true_r, ?orb_false_r.

(** The flag cleared and a value there, against the flag set. *)
Ltac put_flagged r Hr :=
  let Hw6 := fresh "Hw6" in
  split; [put_ok r Hr; [apply in_width_land; [done|by apply bnot_nonneg]|flags; done..]|];
  pose proof (wo_wildcards _ (ro_wc _ Hr)) as Hw6; revert Hw6; clear Hr; intros Hw6; put_hits r;
  flags; cbn [orb]; rewrite ?Z.eqb_eq; tauto.

Lemma put_in_port v r : in_width 16 v ->
  puts r (on_flow (with_in_port 0) (on_wc (set_flag FWW_IN_PORT) r)) (on_flow (with_in_port v) (on_wc (clear_flag FWW_IN_PORT) r))
    (fun f => in_port f = v).
Proof. intros Hv Hr. put_flagged r Hr. Qed.

Lemma put_dl_type v r : in_width 16 v ->
  puts r (on_flow (with_dl_type 0) (on_wc (set_flag FWW_DL_TYPE) r)) (on_flow (with_dl_type v) (on_wc (clear_flag FWW_DL_TYPE) r))
    (fun f => dl_type f = v).
Proof. intros Hv Hr. put_flagged r Hr. Qed.

Lemma put_nw_proto v r : in_width 8 v ->
  puts r (on_flow (with_nw_proto 0) (on_wc (set_flag FWW_NW_PROTO) r)) (on_flow (with_nw_proto v) (on_wc (clear_flag FWW_NW_PROTO) r))
    (fun f => nw_proto f = v).
Proof. intros Hv Hr. put_flagged r Hr. Qed.

Lemma put_nw_ttl v r : in_width 8 v ->
  puts r (on_flow (with_nw_ttl 0) (on_wc (set_flag FWW_NW_TTL) r)) (on_flow (with_nw_ttl v) (on_wc (clear_flag FWW_NW_TTL) r))
    (fun f => nw_ttl f = v).
Proof. intros Hv Hr. put_flagged r Hr. Qed.

(** Addresses. *)
Lemma land_width n w v m : words n w v -> words n w m -> words n w (zip_with Z.land v m).
Proof.
  intros [Hv Fv] [Hm Fm]. split; [rewrite length_zip_with; lia|]. clear Hv Hm. revert m Fm.
  induction Fv as [|x l Hx _ IH]; intros m Fm; [constructor|]. destruct Fm as [|y m Hy Fm]; [constructor|].
  cbn. constructor; [apply in_width_land; [done|by destruct Hy]|by apply IH].
Qed.

Lemma eth_test a v m : words 6 8 a -> words 6 8 v -> words 6 8 m -> zip_with Z.land v m = v ->
  eth_addr_equal_except a v m = true <-> zip_with Z.land a m = v.
Proof. intros Ha Hv Hm E. rewrite (eth_equal_except_ok 6 8) by done. unfold masked. by rewrite E. Qed.

Lemma ipv6_test a v m : words 16 8 a -> words 16 8 v -> words 16 8 m -> zip_with Z.land v m = v ->
  ipv6_equal_except a v m = true <-> zip_with Z.land a m = v.
Proof. intros Ha Hv Hm E. rewrite (ipv6_equal_except_ok 16 8) by done. unfold masked. by rewrite E. Qed.

Definition no_eth : list Z := replicate 6 0.

Lemma eth_test_0 a : words 6 8 a -> eth_addr_equal_except a no_eth no_eth = true <-> True.
Proof.
  intros Ha. rewrite eth_test; [|done|by split; [|repeat constructor]|by split; [|repeat constructor]|done].
  split; [done|intros _]. change (masked no_eth a = no_eth). apply masked_zero. by destruct Ha.
Qed.

Lemma ipv6_test_0 a : words 16 8 a -> ipv6_equal_except a in6addr_any in6addr_any = true <-> True.
Proof.
  intros Ha. rewrite ipv6_test; [|done|by split; [|repeat constructor]|by split; [|repeat constructor]|done].
  split; [done|intros _]. change (masked in6addr_any a = in6addr_any). apply masked_zero. by destruct Ha.
Qed.

#[local] Opaque no_eth in6addr_any.

Ltac put_address r Hr v m lem lem0 :=
  split; [put_ok r Hr|]; put_hits r;
  match goal with Hf : flow_ok ?f |- _ => destruct Hf end;
  rewrite (lem _ v m) by done; rewrite lem0 by done; tauto.

Lemma put_dl_src v m r : words 6 8 v -> words 6 8 m -> zip_with Z.land v m = v ->
  puts r (on_flow (with_dl_src no_eth) (on_wc (with_dl_src_mask no_eth) r)) (on_flow (with_dl_src v) (on_wc (with_dl_src_mask m) r))
    (fun f => eth_addr_bitand (dl_src f) m = v).
Proof. intros Hv Hm Hz Hr. put_address r Hr v m eth_test eth_test_0. Qed.

Lemma put_dl_dst v m r : words 6 8 v -> words 6 8 m -> zip_with Z.land v m = v ->
  puts r (on_flow (with_dl_dst no_eth) (on_wc (with_dl_dst_mask no_eth) r)) (on_flow (with_dl_dst v) (on_wc (with_dl_dst_mask m) r))
    (fun f => eth_addr_bitand (dl_dst f) m = v).
Proof. intros Hv Hm Hz Hr. put_address r Hr v m eth_test eth_test_0. Qed.

Lemma put_arp_sha v m r : words 6 8 v -> words 6 8 m -> zip_with Z.land v m = v ->
  puts r (on_flow (with_arp_sha no_eth) (on_wc (with_arp_sha_mask no_eth) r)) (on_flow (with_arp_sha v) (on_wc (with_arp_sha_mask m) r))
    (fun f => eth_addr_bitand (arp_sha f) m = v).
Proof. intros Hv Hm Hz Hr. put_address r Hr v m eth_test eth_test_0. Qed.

Lemma put_arp_tha v m r : words 6 8 v -> words 6 8 m -> zip_with Z.land v m = v ->
  puts r (on_flow (with_arp_tha no_eth) (on_wc (with_arp_tha_mask no_eth) r)) (on_flow (with_arp_tha v) (on_wc (with_arp_tha_mask m) r))
    (fun f => eth_addr_bitand (arp_tha f) m = v).
Proof. intros Hv Hm Hz Hr. put_address r Hr v m eth_test eth_test_0. Qed.

Lemma put_ipv6_src v m r : words 16 8 v -> words 16 8 m -> zip_with Z.land v m = v ->
  puts r (on_flow (with_ipv6_src in6addr_any) (on_wc (with_ipv6_src_mask in6addr_any) r)) (on_flow (with_ipv6_src v) (on_wc (with_ipv6_src_mask m) r))
    (fun f => ipv6_addr_bitand (ipv6_src f) m = v).
Proof. intros Hv Hm Hz Hr. put_address r Hr v m ipv6_test ipv6_test_0. Qed.

Lemma put_ipv6_dst v m r : words 16 8 v -> words 16 8 m -> zip_with Z.land v m = v ->
  puts r (on_flow (with_ipv6_dst in6addr_any) (on_wc (with_ipv6_dst_mask in6addr_any) r)) (on_flow (with_ipv6_dst v) (on_wc (with_ipv6_dst_mask m) r))
    (fun f => ipv6_addr_bitand (ipv6_dst f) m = v).
Proof. intros Hv Hm Hz Hr. put_address r Hr v m ipv6_test ipv6_test_0. Qed.

Lemma put_nd_target v m r : words 16 8 v -> words 16 8 m -> zip_with Z.land v m = v ->
  puts r (on_flow (with_nd_target in6addr_any) (on_wc (with_nd_target_mask in6addr_any) r)) (on_flow (with_nd_target v) (on_wc (with_nd_target_mask m) r))
    (fun f => ipv6_addr_bitand (nd_target f) m = v).
Proof. intros Hv Hm Hz Hr. put_address r Hr v m ipv6_test ipv6_test_0. Qed.

(** Type of service: one of the two parts set, the other kept. *)
Definition pairs8 (P : Z -> Z -> bool) : bool :=
  forallb (fun x => forallb (P x) (map Z.of_nat (seq 0 256))) (map Z.of_nat (seq 0 256)).

Lemma pairs8_all P : pairs8 P = true -> forall x y, in_width 8 x -> in_width 8 y -> P x y = true.
Proof.
  intros H x y Hx Hy. unfold pairs8 in H. rewrite forallb_forall in H.
  apply (bits8 (fun y => P x y = true)); [|done]. clear y Hy. intros y Hy.
  assert (forallb (P x) (map Z.of_nat (seq 0 256)) = true) as H'; [|rewrite forallb_forall in H'; by apply H'].
  revert x Hx. by apply (bits8 (fun x => forallb (P x) (map Z.of_nat (seq 0 256)) = true)).
Qed.

Definition tos_zeroed (d e : bool) (t : Z) : Z :=
  let t := if d then Z.land t (bnot 8 IP_DSCP_MASK) else t in if e then Z.land t (bnot 8 IP_ECN_MASK) else t.

Definition tos_put (bits t v : Z) : Z := Z.lor (Z.land t (bnot 8 bits)) (Z.land v bits).

Definition tos_check (bits other : Z) (upd : bool -> bool -> bool * bool) (t v : Z) : bool :=
  let t' := tos_put bits t v in
  (Z.land t' bits =? Z.land v bits) && (Z.land t' other =? Z.land t other)
  && (Z.land (Z.land t (bnot 8 bits)) other =? Z.land t other)
  && (0 <=? t') && (t' <? 256)
  && forallb (fun d => forallb (fun e =>
       implb (tos_zeroed d e t =? t) (tos_zeroed (upd d e).1 (upd d e).2 t' =? t')) [true; false]) [true; false].

Lemma dscp_check t v : in_width 8 t -> in_width 8 v -> tos_check IP_DSCP_MASK IP_ECN_MASK (fun _ e => (false, e)) t v = true.
Proof. revert t v. apply pairs8_all. vm_compute. reflexivity. Qed.

Lemma ecn_check t v : in_width 8 t -> in_width 8 v -> tos_check IP_ECN_MASK IP_DSCP_MASK (fun d _ => (d, false)) t v = true.
Proof. revert t v. apply pairs8_all. vm_compute. reflexivity. Qed.

Lemma tos_check_spec bits other upd t v : tos_check bits other upd t v = true ->
  Z.land (tos_put bits t v) bits = Z.land v bits /\ Z.land (tos_put bits t v) other = Z.land t other
  /\ Z.land (Z.land t (bnot 8 bits)) other = Z.land t other /\ in_width 8 (tos_put bits t v)
  /\ forall d e, tos_zeroed d e t = t -> tos_zeroed (upd d e).1 (upd d e).2 (tos_put bits t v) = tos_put bits t v.
Proof.
  unfold tos_check. rewrite !andb_true_iff, !Z.eqb_eq, Z.leb_le, Z.ltb_lt. intros (((((H1 & H2) & H3) & H4) & H5) & H6).
  split_and!; try done. intros d e Hd. rewrite forallb_forall in H6.
  specialize (H6 d ltac:(destruct d; cbn; tauto)). rewrite forallb_forall in H6.
  specialize (H6 e ltac:(destruct e; cbn; tauto)). rewrite Hd, Z.eqb_refl in H6. by apply Z.eqb_eq in H6.
Qed.

Lemma put_nw_dscp v r : in_width 8 v ->
  puts r (on_flow (fun f => with_nw_tos (Z.land (nw_tos f) (bnot 8 IP_DSCP_MASK)) f) (on_wc (set_flag FWW_NW_DSCP) r))
    (on_flow (put_tos IP_DSCP_MASK v) (on_wc (clear_flag FWW_NW_DSCP) r))
    (fun f => Z.land (nw_tos f) IP_DSCP_MASK = Z.land v IP_DSCP_MASK).
Proof.
  intros Hv Hr. pose proof (fo_nw_tos _ (ro_flow _ Hr)) as Ht.
  destruct (tos_check_spec _ _ _ _ _ (dscp_check _ _ Ht Hv)) as (E1 & E2 & E3 & E4 & E5). split.
  - put_ok r Hr. all: try (apply in_width_land; [done|by apply bnot_nonneg]). all: flags; try done.
    by apply (E5 (has wildcards FWW_NW_DSCP) (has wildcards FWW_NW_ECN)).
  - pose proof (wo_wildcards _ (ro_wc _ Hr)) as Hw6. clear Hr. put_hits r. flags. cbn [orb].
    cbn in E1, E2, E3. unfold tos_put in *. rewrite ?orb_true_iff, ?negb_true_iff, !differ_ok, E1, E2, E3. tauto.
Qed.

Lemma put_nw_ecn v r : in_width 8 v ->
  puts r (on_flow (fun f => with_nw_tos (Z.land (nw_tos f) (bnot 8 IP_ECN_MASK)) f) (on_wc (set_flag FWW_NW_ECN) r))
    (on_flow (put_tos IP_ECN_MASK v) (on_wc (clear_flag FWW_NW_ECN) r))
    (fun f => Z.land (nw_tos f) IP_ECN_MASK = Z.land v IP_ECN_MASK).
Proof.
  intros Hv Hr. pose proof (fo_nw_tos _ (ro_flow _ Hr)) as Ht.
  destruct (tos_check_spec _ _ _ _ _ (ecn_check _ _ Ht Hv)) as (E1 & E2 & E3 & E4 & E5). split.
  - put_ok r Hr. all: try (apply in_width_land; [done|by apply bnot_nonneg]). all: flags; try done.
    by apply (E5 (has wildcards FWW_NW_DSCP) (has wildcards FWW_NW_ECN)).
  - pose proof (wo_wildcards _ (ro_wc _ Hr)) as Hw6. clear Hr. put_hits r. flags. cbn [orb].
    cbn in E1, E2, E3. unfold tos_put in *. rewrite ?orb_true_iff, ?negb_true_iff, !differ_ok, E1, E2, E3. tauto.
Qed.

(** Registers. *)
Lemma words_insert n w l i x : words n w l -> in_width w x -> words n w (<[i := x]> l).
Proof. intros [Hl Hf] Hx. split; [by rewrite length_insert|]. by apply Forall_insert. Qed.

Lemma masked_insert m l i x y : length l = length m ->
  masked (<[i := y]> m) (<[i := x]> l) = <[i := Z.land x y]> (masked m l).
Proof. intros Hl. unfold masked. by rewrite insert_zip_with. Qed.

Lemma insert_eq_iff (l k : list Z) i x y : length l = length k -> (i < length l)%nat ->
  <[i := x]> l = <[i := y]> k <-> <[i := 0]> l = <[i := 0]> k /\ x = y.
Proof.
  intros Hl Hi. split.
  - intros E. pose proof (f_equal (fun z => z !! i) E) as Ei. cbv beta in Ei.
    rewrite !list_lookup_insert_eq in Ei by lia. apply (inj Some) in Ei. split; [|done].
    apply (f_equal (fun z => <[i := 0]> z)) in E. by rewrite !list_insert_insert_eq in E.
  - intros [E ->]. apply (f_equal (fun z => <[i := y]> z)) in E. by rewrite !list_insert_insert_eq in E.
Qed.

Lemma reg_self (l : list Z) i : (i < length l)%nat -> <[i := nth i l 0]> l = l.
Proof.
  intros Hi. apply list_insert_id. destruct (lookup_lt_is_Some_2 l i Hi) as [x Hx]. rewrite Hx. f_equal.
  symmetry. by apply nth_lookup_Some.
Qed.

Lemma regs_test fr r m i v k : words 8 32 fr -> words 8 32 r -> words 8 32 m -> (i < 8)%nat ->
  in_width 32 v -> in_width 32 k -> Z.land v k = v ->
  existsb id (zip_with differ (<[i := k]> m) (zip fr (<[i := v]> r))) = false
  <-> existsb id (zip_with differ (<[i := 0]> m) (zip fr (<[i := 0]> r))) = false /\ Z.land (nth i fr 0) k = v.
Proof.
  intros Hf Hr Hm Hi Hv Hk E. assert (in_width 32 0) as H0 by done.
  rewrite !(differ_list 8 32) by (done || by apply words_insert).
  pose proof (proj1 Hf) as Lf. pose proof (proj1 Hr) as Lr. pose proof (proj1 Hm) as Lm.
  assert (forall y, masked (<[i := y]> m) fr = <[i := Z.land (nth i fr 0) y]> (masked m fr)) as Hs
    by (intros y; rewrite <- (reg_self fr i) at 1 by lia; by rewrite masked_insert by lia).
  rewrite !Hs, !masked_insert by lia. rewrite E, !Z.land_0_r.
  rewrite (insert_eq_iff (masked m fr) (masked m r)) by (rewrite !length_masked; lia). done.
Qed.

Definition put_reg (i : nat) (v m : Z) (r : cls_rule) : cls_rule :=
  on_flow (fun f => with_regs (<[i := v]> (regs f)) f) (on_wc (fun w => with_reg_masks (<[i := m]> (reg_masks w)) w) r).

Lemma put_regs i v m r : (i < 8)%nat -> in_width 32 v -> in_width 32 m -> Z.land v m = v ->
  puts r (put_reg i 0 0 r) (put_reg i v m r) (fun f => Z.land (nth i (regs f) 0) m = v).
Proof.
  intros Hi Hv Hm Hz Hr. split.
  - put_ok r Hr; [by apply words_insert|by apply words_insert|].
    change (masked (<[i := m]> reg_masks) (<[i := v]> regs) = <[i := v]> regs).
    rewrite masked_insert by (by etrans; [eapply words_length; eassumption|symmetry; eapply words_length; eassumption]).
    rewrite Hz. by f_equal.
  - intros f Hf. pose proof (fo_regs _ Hf) as W1. pose proof (fo_regs _ (ro_flow _ Hr)) as W2.
    pose proof (wo_reg_masks _ (ro_wc _ Hr)) as W3. revert f Hf W1. clear Hr. put_hits r. intros W1.
    cbn in W2, W3. rewrite (regs_test (Flow.regs f)) by done. tauto.
Qed.

(** VLANs: some of the bits set, the others kept. *)
Lemma bnot_disjoint B : in_width 16 B -> Z.land (bnot 16 B) B = 0.
Proof.
  intros HB. change (bnot 16 B) with (wrap 16 (Z.lnot B)). unfold wrap. rewrite <- Z.land_ones by lia.
  apply Z.bits_inj'. intros i Hi. rewrite !Z.land_spec, Z.lnot_spec, Z.bits_0 by done. by destruct (Z.testbit B i), (Z.testbit (Z.ones 16) i).
Qed.

Lemma bnot_width B : in_width 16 (bnot 16 B).
Proof. change (in_width 16 (wrap 16 (Z.lnot B))). by apply wrap_bound. Qed.

Lemma vlan_split x t m nb B v mb : Z.land nb B = 0 -> Z.land mb B = mb -> Z.land v mb = v ->
  Z.land x (Z.lor (Z.land m nb) mb) = Z.lor (Z.land t nb) v
  <-> Z.land x (Z.land m nb) = Z.land t nb /\ Z.land x mb = v.
Proof.
  intros HB Hm Hv. split.
  - intros E. split; bits.
  - intros [E1 E2]. bits.
Qed.

Definition vlan_put (B v mb : Z) (r : cls_rule) : cls_rule :=
  on_flow (fun f => with_vlan_tci (Z.lor (Z.land (vlan_tci f) (bnot 16 B)) v) f)
    (on_wc (fun w => with_vlan_tci_mask (Z.lor (Z.land (vlan_tci_mask w) (bnot 16 B)) mb) w) r).

Lemma vlan_zeroed r : rule_ok r -> Z.land (vlan_tci (r_flow r)) (vlan_tci_mask (r_wc r)) = vlan_tci (r_flow r).
Proof. intros Hr. pose proof (ro_zero _ Hr) as Hz. apply zeroed_fields in Hz. tauto. Qed.

Lemma put_vlan_bits B v mb r : in_width 16 B -> Z.land mb B = mb -> Z.land v mb = v -> in_width 16 mb -> in_width 16 v ->
  puts r (vlan_clear B r) (vlan_put B v mb r) (fun f => Z.land (vlan_tci f) mb = v).
Proof.
  intros HB Hmb Hv Wmb Wv Hr. pose proof (vlan_zeroed r Hr) as Hz. pose proof (bnot_disjoint B HB) as Hd.
  pose proof (fo_vlan_tci _ (ro_flow _ Hr)) as Wt. pose proof (wo_vlan_tci_mask _ (ro_wc _ Hr)) as Wm.
  pose proof (bnot_nonneg 16 B ltac:(lia)) as Hn.
  destruct (put_vlan_tci (Z.land (vlan_tci (r_flow r)) (bnot 16 B)) (Z.land (vlan_tci_mask (r_wc r)) (bnot 16 B)) r)
    as [_ H1]; [by apply in_width_land|by apply in_width_land|bits|done|].
  destruct (put_vlan_tci (Z.lor (Z.land (vlan_tci (r_flow r)) (bnot 16 B)) v)
    (Z.lor (Z.land (vlan_tci_mask (r_wc r)) (bnot 16 B)) mb) r) as [H2 H3];
    [apply in_width_lor; [lia|by apply in_width_land|done]|apply in_width_lor; [lia|by apply in_width_land|done]|bits|done|].
  split; [exact H2|]. intros f Hf. specialize (H1 f Hf). specialize (H3 f Hf).
  rewrite (vlan_split _ _ _ _ B) in H3 by done.
  etrans; [exact H3|]. etrans; [|apply and_iff_compat_r; symmetry; exact H1]. tauto.
Qed.

Lemma vlan_clear_ok B r : in_width 16 B -> rule_ok r -> rule_ok (vlan_clear B r).
Proof.
  intros HB Hr. pose proof (vlan_zeroed r Hr) as Hz. pose proof (bnot_nonneg 16 B ltac:(lia)) as Hn.
  destruct (put_vlan_tci (Z.land (vlan_tci (r_flow r)) (bnot 16 B)) (Z.land (vlan_tci_mask (r_wc r)) (bnot 16 B)) r)
    as [H _]; [apply in_width_land; [apply Hr|done]|apply in_width_land; [apply Hr|done]|bits|done|exact H].
Qed.

(** The functions on VLANs, in this form. *)
Lemma land_bnot x y : in_width 16 x -> Z.land x (bnot 16 y) = Z.ldiff x y.
Proof.
  intros Hx. change (bnot 16 y) with (wrap 16 (Z.lnot y)). unfold wrap. rewrite <- Z.land_ones by lia.
  rewrite (Z.land_comm (Z.lnot y)), Z.land_assoc, in_width_land_ones by (done || lia). symmetry. apply Z.ldiff_land.
Qed.

Abbreviation VID_CFI := (Z.lor VLAN_VID_MASK VLAN_CFI).
Abbreviation PCP_CFI := (Z.lor VLAN_CFI VLAN_PCP_MASK).

Ltac vlan_form r Hr :=
  let Wt := fresh in let Wm := fresh in
  pose proof (fo_vlan_tci _ (ro_flow _ Hr)) as Wt; pose proof (wo_vlan_tci_mask _ (ro_wc _ Hr)) as Wm;
  destruct r as [[] [] ? ?]; unfold vlan_put, on_flow, on_wc; cbn in *; do 2 f_equal;
  rewrite ?land_bnot by done.

Lemma set_dl_vlan_put vid r : rule_ok r -> vid <> OFP10_VLAN_NONE ->
  cls_rule_set_dl_vlan vid r = vlan_put VID_CFI (Z.lor VLAN_CFI (Z.land vid VLAN_VID_MASK)) VID_CFI r.
Proof.
  intros Hr Hv. unfold cls_rule_set_dl_vlan, flow_set_dl_vlan. apply Z.eqb_neq in Hv. rewrite Hv.
  vlan_form r Hr; bits.
Qed.

Lemma set_vlan_vid_put vid mask r : rule_ok r ->
  cls_rule_set_vlan_vid_masked vid mask r
  = vlan_put VID_CFI (Z.land vid (Z.land mask VID_CFI)) (Z.land mask VID_CFI) r.
Proof.
  intros Hr. unfold cls_rule_set_vlan_vid_masked, flow_set_vlan_vid. vlan_form r Hr; [bits|].
  rewrite <- land_bnot by done. change (bnot 16 VID_CFI) with VLAN_PCP_MASK. apply Z.lor_comm.
Qed.

Lemma set_pcp_put pcp r : rule_ok r ->
  cls_rule_set_dl_vlan_pcp pcp r
  = vlan_put PCP_CFI (Z.lor (Z.shiftl (Z.land pcp 7) VLAN_PCP_SHIFT) VLAN_CFI) PCP_CFI r.
Proof. intros Hr. unfold cls_rule_set_dl_vlan_pcp, flow_set_vlan_pcp. vlan_form r Hr; bits. Qed.
