(* ===== verification/ClsSet.v ===== *)
(** * Building rules, all functions (lib/classifier.c, cls_rule_set functions)

    The functions that set a field of a rule as the values of one type, what each is to do,
    and that each does it: from the lemmas of ClsPut.v on the members. *)
From S2P Require Import Prelude Hash Flow ClsRule ClsPut.

Local Open Scope Z_scope.

(** ** All functions *)

(** One constructor per function. *)
Inductive set_op :=
  | Set_reg (i : nat) (v : Z)
  | Set_reg_masked (i : nat) (v : Z) (m : Z)
  | Set_metadata (v : Z)
  | Set_metadata_masked (v : Z) (m : Z)
  | Set_tun_id (v : Z)
  | Set_tun_id_masked (v : Z) (m : Z)
  | Set_in_port (v : Z)
  | Set_dl_type (v : Z)
  | Set_dl_src (a : list Z)
  | Set_dl_src_masked (a : list Z) (m : list Z)
  | Set_dl_dst (a : list Z)
  | Set_dl_dst_masked (a : list Z) (m : list Z)
  | Set_dl_tci (v : Z)
  | Set_dl_tci_masked (v : Z) (m : Z)
  | Set_any_vid
  | Set_dl_vlan (v : Z)
  | Set_vlan_vid (v : Z)
  | Set_vlan_vid_masked (v : Z) (m : Z)
  | Set_any_pcp
  | Set_dl_vlan_pcp (v : Z)
  | Set_tp_src (v : Z)
  | Set_tp_src_masked (v : Z) (m : Z)
  | Set_tp_dst (v : Z)
  | Set_tp_dst_masked (v : Z) (m : Z)
  | Set_nw_proto (v : Z)
  | Set_nw_src (v : Z)
  | Set_nw_src_masked (v : Z) (m : Z)
  | Set_nw_dst (v : Z)
  | Set_nw_dst_masked (v : Z) (m : Z)
  | Set_nw_dscp (v : Z)
  | Set_nw_ecn (v : Z)
  | Set_nw_ttl (v : Z)
  | Set_nw_frag (v : Z)
  | Set_nw_frag_masked (v : Z) (m : Z)
  | Set_icmp_type (v : Z)
  | Set_icmp_code (v : Z)
  | Set_arp_sha (a : list Z)
  | Set_arp_sha_masked (a : list Z) (m : list Z)
  | Set_arp_tha (a : list Z)
  | Set_arp_tha_masked (a : list Z) (m : list Z)
  | Set_ipv6_src (a : list Z)
  | Set_ipv6_src_masked (a : list Z) (m : list Z)
  | Set_ipv6_dst (a : list Z)
  | Set_ipv6_dst_masked (a : list Z) (m : list Z)
  | Set_ipv6_label (v : Z)
  | Set_ipv6_label_masked (v : Z) (m : Z)
  | Set_nd_target (a : list Z)
  | Set_nd_target_masked (a : list Z) (m : list Z).

(** The function called. *)
Definition run_set (o : set_op) (r : cls_rule) : outcome cls_rule :=
  match o with
  | Set_reg i v => cls_rule_set_reg i v r
  | Set_reg_masked i v m => cls_rule_set_reg_masked i v m r
  | Set_metadata v => Ret (cls_rule_set_metadata v r)
  | Set_metadata_masked v m => Ret (cls_rule_set_metadata_masked v m r)
  | Set_tun_id v => Ret (cls_rule_set_tun_id v r)
  | Set_tun_id_masked v m => Ret (cls_rule_set_tun_id_masked v m r)
  | Set_in_port v => Ret (cls_rule_set_in_port v r)
  | Set_dl_type v => Ret (cls_rule_set_dl_type v r)
  | Set_dl_src a => Ret (cls_rule_set_dl_src a r)
  | Set_dl_src_masked a m => Ret (cls_rule_set_dl_src_masked a m r)
  | Set_dl_dst a => Ret (cls_rule_set_dl_dst a r)
  | Set_dl_dst_masked a m => Ret (cls_rule_set_dl_dst_masked a m r)
  | Set_dl_tci v => Ret (cls_rule_set_dl_tci v r)
  | Set_dl_tci_masked v m => Ret (cls_rule_set_dl_tci_masked v m r)
  | Set_any_vid => Ret (cls_rule_set_any_vid r)
  | Set_dl_vlan v => Ret (cls_rule_set_dl_vlan v r)
  | Set_vlan_vid v => Ret (cls_rule_set_vlan_vid v r)
  | Set_vlan_vid_masked v m => Ret (cls_rule_set_vlan_vid_masked v m r)
  | Set_any_pcp => Ret (cls_rule_set_any_pcp r)
  | Set_dl_vlan_pcp v => Ret (cls_rule_set_dl_vlan_pcp v r)
  | Set_tp_src v => Ret (cls_rule_set_tp_src v r)
  | Set_tp_src_masked v m => Ret (cls_rule_set_tp_src_masked v m r)
  | Set_tp_dst v => Ret (cls_rule_set_tp_dst v r)
  | Set_tp_dst_masked v m => Ret (cls_rule_set_tp_dst_masked v m r)
  | Set_nw_proto v => Ret (cls_rule_set_nw_proto v r)
  | Set_nw_src v => Ret (cls_rule_set_nw_src v r)
  | Set_nw_src_masked v m => Ret (cls_rule_set_nw_src_masked v m r)
  | Set_nw_dst v => Ret (cls_rule_set_nw_dst v r)
  | Set_nw_dst_masked v m => Ret (cls_rule_set_nw_dst_masked v m r)
  | Set_nw_dscp v => Ret (cls_rule_set_nw_dscp v r)
  | Set_nw_ecn v => Ret (cls_rule_set_nw_ecn v r)
  | Set_nw_ttl v => Ret (cls_rule_set_nw_ttl v r)
  | Set_nw_frag v => Ret (cls_rule_set_nw_frag v r)
  | Set_nw_frag_masked v m => Ret (cls_rule_set_nw_frag_masked v m r)
  | Set_icmp_type v => Ret (cls_rule_set_icmp_type v r)
  | Set_icmp_code v => Ret (cls_rule_set_icmp_code v r)
  | Set_arp_sha a => Ret (cls_rule_set_arp_sha a r)
  | Set_arp_sha_masked a m => Ret (cls_rule_set_arp_sha_masked a m r)
  | Set_arp_tha a => Ret (cls_rule_set_arp_tha a r)
  | Set_arp_tha_masked a m => Ret (cls_rule_set_arp_tha_masked a m r)
  | Set_ipv6_src a => Ret (cls_rule_set_ipv6_src a r)
  | Set_ipv6_src_masked a m => Ret (cls_rule_set_ipv6_src_masked a m r)
  | Set_ipv6_dst a => Ret (cls_rule_set_ipv6_dst a r)
  | Set_ipv6_dst_masked a m => Ret (cls_rule_set_ipv6_dst_masked a m r)
  | Set_ipv6_label v => Ret (cls_rule_set_ipv6_label v r)
  | Set_ipv6_label_masked v m => Ret (cls_rule_set_ipv6_label_masked v m r)
  | Set_nd_target a => Ret (cls_rule_set_nd_target a r)
  | Set_nd_target_masked a m => Ret (cls_rule_set_nd_target_masked a m r)
  end.

(** Arguments of the right width; for the fragment bits, the two that exist. *)
Definition set_valid (o : set_op) : Prop :=
  match o with
  | Set_reg i v => (i < FLOW_N_REGS)%nat /\ in_width 32 v
  | Set_reg_masked i v m => (i < FLOW_N_REGS)%nat /\ in_width 32 v /\ in_width 32 m
  | Set_metadata v => in_width 64 v
  | Set_metadata_masked v m => in_width 64 v /\ in_width 64 m
  | Set_tun_id v => in_width 64 v
  | Set_tun_id_masked v m => in_width 64 v /\ in_width 64 m
  | Set_in_port v => in_width 16 v
  | Set_dl_type v => in_width 16 v
  | Set_dl_src a => words 6 8 a
  | Set_dl_src_masked a m => words 6 8 a /\ words 6 8 m
  | Set_dl_dst a => words 6 8 a
  | Set_dl_dst_masked a m => words 6 8 a /\ words 6 8 m
  | Set_dl_tci v => in_width 16 v
  | Set_dl_tci_masked v m => in_width 16 v /\ in_width 16 m
  | Set_any_vid => True
  | Set_dl_vlan v => in_width 16 v
  | Set_vlan_vid v => in_width 16 v
  | Set_vlan_vid_masked v m => in_width 16 v /\ in_width 16 m
  | Set_any_pcp => True
  | Set_dl_vlan_pcp v => in_width 8 v
  | Set_tp_src v => in_width 16 v
  | Set_tp_src_masked v m => in_width 16 v /\ in_width 16 m
  | Set_tp_dst v => in_width 16 v
  | Set_tp_dst_masked v m => in_width 16 v /\ in_width 16 m
  | Set_nw_proto v => in_width 8 v
  | Set_nw_src v => in_width 32 v
  | Set_nw_src_masked v m => in_width 32 v /\ in_width 32 m
  | Set_nw_dst v => in_width 32 v
  | Set_nw_dst_masked v m => in_width 32 v /\ in_width 32 m
  | Set_nw_dscp v => in_width 8 v
  | Set_nw_ecn v => in_width 8 v
  | Set_nw_ttl v => in_width 8 v
  | Set_nw_frag v => 0 <= v <= FLOW_NW_FRAG_MASK
  | Set_nw_frag_masked v m => in_width 8 v /\ in_width 8 m
  | Set_icmp_type v => in_width 8 v
  | Set_icmp_code v => in_width 8 v
  | Set_arp_sha a => words 6 8 a
  | Set_arp_sha_masked a m => words 6 8 a /\ words 6 8 m
  | Set_arp_tha a => words 6 8 a
  | Set_arp_tha_masked a m => words 6 8 a /\ words 6 8 m
  | Set_ipv6_src a => words 16 8 a
  | Set_ipv6_src_masked a m => words 16 8 a /\ words 16 8 m
  | Set_ipv6_dst a => words 16 8 a
  | Set_ipv6_dst_masked a m => words 16 8 a /\ words 16 8 m
  | Set_ipv6_label v => in_width 32 v
  | Set_ipv6_label_masked v m => in_width 32 v /\ in_width 32 m
  | Set_nd_target a => words 16 8 a
  | Set_nd_target_masked a m => words 16 8 a /\ words 16 8 m
  end.

(** The rule with the field that the function sets wildcarded. *)
Definition dropped (o : set_op) (r : cls_rule) : cls_rule :=
  match o with
  | Set_reg i _ => put_reg i 0 0 r
  | Set_reg_masked i _ _ => put_reg i 0 0 r
  | Set_metadata _ => on_flow (with_metadata 0) (on_wc (with_metadata_mask 0) r)
  | Set_metadata_masked _ _ => on_flow (with_metadata 0) (on_wc (with_metadata_mask 0) r)
  | Set_tun_id _ => on_flow (with_tun_id 0) (on_wc (with_tun_id_mask 0) r)
  | Set_tun_id_masked _ _ => on_flow (with_tun_id 0) (on_wc (with_tun_id_mask 0) r)
  | Set_in_port _ => on_flow (with_in_port 0) (on_wc (set_flag FWW_IN_PORT) r)
  | Set_dl_type _ => on_flow (with_dl_type 0) (on_wc (set_flag FWW_DL_TYPE) r)
  | Set_dl_src _ => on_flow (with_dl_src no_eth) (on_wc (with_dl_src_mask no_eth) r)
  | Set_dl_src_masked _ _ => on_flow (with_dl_src no_eth) (on_wc (with_dl_src_mask no_eth) r)
  | Set_dl_dst _ => on_flow (with_dl_dst no_eth) (on_wc (with_dl_dst_mask no_eth) r)
  | Set_dl_dst_masked _ _ => on_flow (with_dl_dst no_eth) (on_wc (with_dl_dst_mask no_eth) r)
  | Set_dl_tci _ => on_flow (with_vlan_tci 0) (on_wc (with_vlan_tci_mask 0) r)
  | Set_dl_tci_masked _ _ => on_flow (with_vlan_tci 0) (on_wc (with_vlan_tci_mask 0) r)
  | Set_any_vid => cls_rule_set_any_vid r
  | Set_dl_vlan v => if v =? OFP10_VLAN_NONE then on_flow (with_vlan_tci 0) (on_wc (with_vlan_tci_mask 0) r) else vlan_clear VID_CFI r
  | Set_vlan_vid _ => vlan_clear VID_CFI r
  | Set_vlan_vid_masked _ _ => vlan_clear VID_CFI r
  | Set_any_pcp => cls_rule_set_any_pcp r
  | Set_dl_vlan_pcp _ => vlan_clear PCP_CFI r
  | Set_tp_src _ => on_flow (with_tp_src 0) (on_wc (with_tp_src_mask 0) r)
  | Set_tp_src_masked _ _ => on_flow (with_tp_src 0) (on_wc (with_tp_src_mask 0) r)
  | Set_tp_dst _ => on_flow (with_tp_dst 0) (on_wc (with_tp_dst_mask 0) r)
  | Set_tp_dst_masked _ _ => on_flow (with_tp_dst 0) (on_wc (with_tp_dst_mask 0) r)
  | Set_nw_proto _ => on_flow (with_nw_proto 0) (on_wc (set_flag FWW_NW_PROTO) r)
  | Set_nw_src _ => on_flow (with_nw_src 0) (on_wc (with_nw_src_mask 0) r)
  | Set_nw_src_masked _ _ => on_flow (with_nw_src 0) (on_wc (with_nw_src_mask 0) r)
  | Set_nw_dst _ => on_flow (with_nw_dst 0) (on_wc (with_nw_dst_mask 0) r)
  | Set_nw_dst_masked _ _ => on_flow (with_nw_dst 0) (on_wc (with_nw_dst_mask 0) r)
  | Set_nw_dscp _ => on_flow (fun f => with_nw_tos (Z.land (nw_tos f) (bnot 8 IP_DSCP_MASK)) f) (on_wc (set_flag FWW_NW_DSCP) r)
  | Set_nw_ecn _ => on_flow (fun f => with_nw_tos (Z.land (nw_tos f) (bnot 8 IP_ECN_MASK)) f) (on_wc (set_flag FWW_NW_ECN) r)
  | Set_nw_ttl _ => on_flow (with_nw_ttl 0) (on_wc (set_flag FWW_NW_TTL) r)
  | Set_nw_frag _ => on_flow (with_nw_frag 0) (on_wc (with_nw_frag_mask 0) r)
  | Set_nw_frag_masked _ _ => on_flow (with_nw_frag 0) (on_wc (with_nw_frag_mask 0) r)
  | Set_icmp_type _ => on_flow (with_tp_src 0) (on_wc (with_tp_src_mask 0) r)
  | Set_icmp_code _ => on_flow (with_tp_dst 0) (on_wc (with_tp_dst_mask 0) r)
  | Set_arp_sha _ => on_flow (with_arp_sha no_eth) (on_wc (with_arp_sha_mask no_eth) r)
  | Set_arp_sha_masked _ _ => on_flow (with_arp_sha no_eth) (on_wc (with_arp_sha_mask no_eth) r)
  | Set_arp_tha _ => on_flow (with_arp_tha no_eth) (on_wc (with_arp_tha_mask no_eth) r)
  | Set_arp_tha_masked _ _ => on_flow (with_arp_tha no_eth) (on_wc (with_arp_tha_mask no_eth) r)
  | Set_ipv6_src _ => on_flow (with_ipv6_src in6addr_any) (on_wc (with_ipv6_src_mask in6addr_any) r)
  | Set_ipv6_src_masked _ _ => on_flow (with_ipv6_src in6addr_any) (on_wc (with_ipv6_src_mask in6addr_any) r)
  | Set_ipv6_dst _ => on_flow (with_ipv6_dst in6addr_any) (on_wc (with_ipv6_dst_mask in6addr_any) r)
  | Set_ipv6_dst_masked _ _ => on_flow (with_ipv6_dst in6addr_any) (on_wc (with_ipv6_dst_mask in6addr_any) r)
  | Set_ipv6_label _ => on_flow (with_ipv6_label 0) (on_wc (with_ipv6_label_mask 0) r)
  | Set_ipv6_label_masked _ _ => on_flow (with_ipv6_label 0) (on_wc (with_ipv6_label_mask 0) r)
  | Set_nd_target _ => on_flow (with_nd_target in6addr_any) (on_wc (with_nd_target_mask in6addr_any) r)
  | Set_nd_target_masked _ _ => on_flow (with_nd_target in6addr_any) (on_wc (with_nd_target_mask in6addr_any) r)
  end.

(** What the function adds for a packet to match. *)
Definition narrows (o : set_op) (r : cls_rule) (f : flow) : Prop :=
  match o with
  | Set_reg i v => nth i (regs f) 0 = v
  | Set_reg_masked i v m => Z.land (nth i (regs f) 0) m = Z.land v m
  | Set_metadata v => metadata f = v
  | Set_metadata_masked v m => Z.land (metadata f) m = Z.land v m
  | Set_tun_id v => tun_id f = v
  | Set_tun_id_masked v m => Z.land (tun_id f) m = Z.land v m
  | Set_in_port v => in_port f = v
  | Set_dl_type v => dl_type f = v
  | Set_dl_src a => dl_src f = a
  | Set_dl_src_masked a m => eth_addr_bitand (dl_src f) m = eth_addr_bitand a m
  | Set_dl_dst a => dl_dst f = a
  | Set_dl_dst_masked a m => eth_addr_bitand (dl_dst f) m = eth_addr_bitand a m
  | Set_dl_tci v => vlan_tci f = v
  | Set_dl_tci_masked v m => Z.land (vlan_tci f) m = Z.land v m
  | Set_any_vid => True
  | Set_dl_vlan v => if v =? OFP10_VLAN_NONE then vlan_tci f = 0
      else Z.land (vlan_tci f) VID_CFI = Z.lor VLAN_CFI (Z.land v VLAN_VID_MASK)
  | Set_vlan_vid v => Z.land (vlan_tci f) VID_CFI = Z.land v VID_CFI
  | Set_vlan_vid_masked v m => Z.land (vlan_tci f) (Z.land m VID_CFI) = Z.land v (Z.land m VID_CFI)
  | Set_any_pcp => True
  | Set_dl_vlan_pcp v => Z.land (vlan_tci f) PCP_CFI = Z.lor (Z.shiftl (Z.land v 7) VLAN_PCP_SHIFT) VLAN_CFI
  | Set_tp_src v => tp_src f = v
  | Set_tp_src_masked v m => Z.land (tp_src f) m = Z.land v m
  | Set_tp_dst v => tp_dst f = v
  | Set_tp_dst_masked v m => Z.land (tp_dst f) m = Z.land v m
  | Set_nw_proto v => nw_proto f = v
  | Set_nw_src v => nw_src f = v
  | Set_nw_src_masked v m => Z.land (nw_src f) m = Z.land v m
  | Set_nw_dst v => nw_dst f = v
  | Set_nw_dst_masked v m => Z.land (nw_dst f) m = Z.land v m
  | Set_nw_dscp v => Z.land (nw_tos f) IP_DSCP_MASK = Z.land v IP_DSCP_MASK
  | Set_nw_ecn v => Z.land (nw_tos f) IP_ECN_MASK = Z.land v IP_ECN_MASK
  | Set_nw_ttl v => nw_ttl f = v
  | Set_nw_frag v => Z.land (nw_frag f) (Z.lor (nw_frag_mask (r_wc r)) FLOW_NW_FRAG_MASK) = v
  | Set_nw_frag_masked v m => Z.land (nw_frag f) m = Z.land v m
  | Set_icmp_type v => tp_src f = v
  | Set_icmp_code v => tp_dst f = v
  | Set_arp_sha a => arp_sha f = a
  | Set_arp_sha_masked a m => eth_addr_bitand (arp_sha f) m = eth_addr_bitand a m
  | Set_arp_tha a => arp_tha f = a
  | Set_arp_tha_masked a m => eth_addr_bitand (arp_tha f) m = eth_addr_bitand a m
  | Set_ipv6_src a => ipv6_src f = a
  | Set_ipv6_src_masked a m => ipv6_addr_bitand (ipv6_src f) m = ipv6_addr_bitand a m
  | Set_ipv6_dst a => ipv6_dst f = a
  | Set_ipv6_dst_masked a m => ipv6_addr_bitand (ipv6_dst f) m = ipv6_addr_bitand a m
  | Set_ipv6_label v => ipv6_label f = v
  | Set_ipv6_label_masked v m => Z.land (ipv6_label f) m = Z.land v m
  | Set_nd_target a => nd_target f = a
  | Set_nd_target_masked a m => ipv6_addr_bitand (nd_target f) m = ipv6_addr_bitand a m
  end.

Definition set_spec (o : set_op) (r : cls_rule) : Prop :=
  exists r', run_set o r = Ret r' /\ rule_ok r'
    /\ forall f, flow_ok f -> hits r' f <-> hits (dropped o r) f /\ narrows o r f.

Lemma set_by o r r' P :
  puts r (dropped o r) r' P -> run_set o r = Ret r' -> (forall f, flow_ok f -> P f <-> narrows o r f) -> rule_ok r -> set_spec o r.
Proof.
  intros Hp E HP Hr. destruct (Hp Hr) as [Hr' Hh]. exists r'. split; [done|]. split; [done|].
  intros f Hf. by rewrite (Hh f Hf), (HP f Hf).
Qed.

Lemma land_twice v m : Z.land (Z.land v m) m = Z.land v m.
Proof. by rewrite <- Z.land_assoc, Z.land_diag. Qed.

Lemma zip_land_twice n w v m : words n w v -> words n w m -> zip_with Z.land (zip_with Z.land v m) m = zip_with Z.land v m.
Proof.
  intros [Hl _] [Hm _]. rewrite <- Hm in Hl. clear Hm. revert m Hl. induction v as [|x v IH]; intros [|y m] Hl; try done.
  cbn. rewrite land_twice, IH by (by injection Hl). done.
Qed.

Lemma land_full w k x v : in_width w x -> in_width w v -> 0 <= w -> k = Z.ones w -> Z.land x k = Z.land v k <-> x = v.
Proof. intros Hx Hv Hw ->. by rewrite !in_width_land_ones. Qed.

Lemma zip_land_full n a : words n 8 a -> zip_with Z.land a (replicate n 255) = a.
Proof.
  intros [<- Hf]. induction Hf as [|x l Hx _ IH]; [done|]. cbn. rewrite IH. f_equal.
  by rewrite (in_width_land_ones 8).
Qed.

Lemma full_words n : words n 8 (replicate n 255).
Proof. split; [by rewrite length_replicate|]. by apply Forall_replicate. Qed.

(** The ways the cases close: a value under a mask, a whole value, an address. *)
Ltac side := first [done | lia | by apply land_twice | by (apply in_width_land; [done|]; first [done | match goal with H : in_width _ ?m |- 0 <= ?m => apply H end])].

Ltac set_masked L r Hr v m := match goal with |- set_spec ?o _ => refine (set_by o r _ _ (L (Z.land v m) m r _ _ _) eq_refl _ Hr) end; side.

Ltac set_exact L r Hr v k w :=
  match goal with |- set_spec ?o _ => refine (set_by o r _ _ (L (Z.land v k) k r _ _ _) eq_refl _ Hr) end; [side..|];
  let f := fresh "f" in let Hf := fresh "Hf" in
  intros f Hf; pose proof Hf as []; cbn [narrows]; by apply (land_full w).

(** The same when the function stores the value as it is. *)
Ltac set_plain L r Hr v k w :=
  match goal with |- set_spec ?o _ => refine (set_by o r _ _ (L v k r _ _ _) eq_refl _ Hr) end; [done|done|by apply (in_width_land_ones w)|];
  let f := fresh "f" in let Hf := fresh "Hf" in let E := fresh in
  intros f Hf; pose proof Hf as []; cbn [narrows]; assert (Z.land v k = v) as E by (by apply (in_width_land_ones w));
  rewrite <- E at 1; by apply (land_full w).

Ltac set_address L r Hr a n :=
  match goal with |- set_spec ?o _ => refine (set_by o r _ _ (L a (replicate n 255) r _ _ _) eq_refl _ Hr) end; [done|by apply full_words|by apply zip_land_full|];
  let f := fresh "f" in let Hf := fresh "Hf" in
  intros f Hf; pose proof Hf as []; cbn [narrows]; unfold eth_addr_bitand, ipv6_addr_bitand; by rewrite zip_land_full.

Ltac set_address_masked L r Hr a m n :=
  match goal with |- set_spec ?o _ => refine (set_by o r _ _ (L (zip_with Z.land a m) m r _ _ _) eq_refl _ Hr) end;
  [by apply land_width|done|by apply (zip_land_twice n 8)|done].

Ltac set_flagged L r Hr v := match goal with |- set_spec ?o _ => refine (set_by o r _ _ (L v r _) eq_refl _ Hr) end; done.

Lemma set_reg_ok i v m r : rule_ok r -> (i < FLOW_N_REGS)%nat -> in_width 32 v -> in_width 32 m ->
  exists r', cls_rule_set_reg_masked i v m r = Ret r' /\ rule_ok r'
    /\ forall f, flow_ok f -> hits r' f <-> hits (put_reg i 0 0 r) f /\ Z.land (nth i (regs f) 0) m = Z.land v m.
Proof.
  intros Hr Hi Hv Hm. destruct (put_regs i (Z.land v m) m r Hi) as [Hr' Hh]; [side..|].
  exists (put_reg i (Z.land v m) m r). split; [|done]. unfold cls_rule_set_reg_masked, flow_wildcards_set_reg_mask.
  rewrite (proj2 (Nat.ltb_lt _ _) Hi). cbn [negb].
  pose proof (proj1 (wo_reg_masks _ (ro_wc _ Hr))) as Hl. rewrite Hl, (proj2 (Nat.ltb_lt i 8) Hi). done.
Qed.

Lemma any_vlan_ok (c : bool) B r : rule_ok r -> in_width 16 B ->
  rule_ok (if c then vlan_clear B r else cls_rule_set_dl_tci_masked 0 0 r).
Proof.
  intros Hr HB. destruct c; [by apply vlan_clear_ok|]. by destruct (put_vlan_tci 0 0 r) as [H _].
Qed.

Lemma pcp_width v : in_width 8 v ->
  let x := Z.lor (Z.shiftl (Z.land v 7) VLAN_PCP_SHIFT) VLAN_CFI in Z.land x PCP_CFI = x /\ in_width 16 x.
Proof.
  revert v. apply bits8.
  assert (forallb (fun v => let x := Z.lor (Z.shiftl (Z.land v 7) VLAN_PCP_SHIFT) VLAN_CFI in
            (Z.land x PCP_CFI =? x) && (0 <=? x) && (x <? 65536)) (map Z.of_nat (seq 0 256)) = true) as H by reflexivity.
  rewrite forallb_forall in H. intros v Hv. specialize (H v Hv). rewrite !andb_true_iff, Z.eqb_eq, Z.leb_le, Z.ltb_lt in H.
  cbv zeta. split; [tauto|]. unfold in_width. change (2 ^ 16) with 65536. lia.
Qed.

Lemma frag_mask_ok v m : 0 <= v <= FLOW_NW_FRAG_MASK -> in_width 8 m ->
  Z.land v (Z.lor m FLOW_NW_FRAG_MASK) = v /\ in_width 8 v /\ in_width 8 (Z.lor m FLOW_NW_FRAG_MASK).
Proof.
  intros Hv Hm. assert (Z.land v FLOW_NW_FRAG_MASK = v) as E.
  { change FLOW_NW_FRAG_MASK with 3 in Hv. change FLOW_NW_FRAG_MASK with (Z.ones 2). apply in_width_land_ones; [lia|].
    unfold in_width. change (2 ^ 2) with 4. lia. }
  split_and!; [bits| |by apply in_width_lor].
  change FLOW_NW_FRAG_MASK with 3 in Hv. unfold in_width. change (2 ^ 8) with 256. lia.
Qed.

Lemma set_op_ok o r : rule_ok r -> set_valid o -> set_spec o r.
Proof.
  intros Hr. destruct o; cbn [set_valid]; intros Hv; repeat match goal with H : _ /\ _ |- _ => destruct H end.
  - destruct (set_reg_ok i v UINT32_MAX r) as (r' & E & Hr' & Hh); try done. exists r'. split; [exact E|]. split; [done|].
    intros f Hf. rewrite (Hh f Hf). cbn [dropped narrows]. rewrite (land_full 32); [done| |done|done|done].
    pose proof (fo_regs _ Hf) as [Hl Hw]. rewrite Forall_forall in Hw. apply Hw, list_elem_of_In, nth_In. by rewrite Hl.
  - by apply set_reg_ok.
  - set_exact put_metadata r Hr v constr:(UINT64_MAX) 64.
  - set_masked put_metadata r Hr v m.
  - set_exact put_tun_id r Hr v constr:(UINT64_MAX) 64.
  - set_masked put_tun_id r Hr v m.
  - set_flagged put_in_port r Hr v.
  - set_flagged put_dl_type r Hr v.
  - set_address put_dl_src r Hr a 6%nat.
  - set_address_masked put_dl_src r Hr a m 6%nat.
  - set_address put_dl_dst r Hr a 6%nat.
  - set_address_masked put_dl_dst r Hr a m 6%nat.
  - set_exact put_vlan_tci r Hr v 65535 16.
  - set_masked put_vlan_tci r Hr v m.
  - eexists. split; [reflexivity|]. split; [by apply any_vlan_ok|]. intros f Hf. cbn. tauto.
  - unfold set_spec. cbn [run_set dropped narrows]. destruct (Z.eqb_spec v OFP10_VLAN_NONE) as [->|Hne].
    + destruct (put_vlan_tci 0 UINT16_MAX r) as [Hr' Hh]; try done. eexists. split; [reflexivity|]. split; [exact Hr'|].
      intros f Hf. etrans; [exact (Hh f Hf)|]. apply and_iff_compat_l.
      apply (land_full 16 _ _ 0); [apply Hf|done..].
    + rewrite set_dl_vlan_put by done.
      destruct (put_vlan_bits VID_CFI (Z.lor VLAN_CFI (Z.land v VLAN_VID_MASK)) VID_CFI r) as [Hr' Hh];
        [done|done|bits|done|apply in_width_lor; [lia|done|by apply in_width_land]|done|].
      eexists. split; [reflexivity|]. by split.
  - destruct (put_vlan_bits VID_CFI (Z.land v (Z.land VID_CFI VID_CFI)) (Z.land VID_CFI VID_CFI) r) as [Hr' Hh];
      [done|apply land_twice|apply land_twice|by apply in_width_land|apply in_width_land; [done|by apply Z.land_nonneg; right]|done|].
    eexists. split; [cbn [run_set]; unfold cls_rule_set_vlan_vid; by rewrite set_vlan_vid_put|]. by split.
  - destruct (put_vlan_bits VID_CFI (Z.land v (Z.land m VID_CFI)) (Z.land m VID_CFI) r) as [Hr' Hh];
      [done|apply land_twice|apply land_twice|by apply in_width_land|apply in_width_land; [done|by apply Z.land_nonneg; right]|done|].
    eexists. split; [cbn [run_set]; unfold cls_rule_set_vlan_vid; by rewrite set_vlan_vid_put|]. by split.
  - eexists. split; [reflexivity|]. split; [by apply any_vlan_ok|]. intros f Hf. cbn. tauto.
  - destruct (put_vlan_bits PCP_CFI (Z.lor (Z.shiftl (Z.land v 7) VLAN_PCP_SHIFT) VLAN_CFI) PCP_CFI r) as [Hr' Hh];
      [done|done|by apply (pcp_width v)|done|by apply (pcp_width v)|done|].
    eexists. split; [cbn [run_set]; by rewrite set_pcp_put|]. by split.
  - set_exact put_tp_src r Hr v constr:(UINT16_MAX) 16.
  - set_masked put_tp_src r Hr v m.
  - set_exact put_tp_dst r Hr v constr:(UINT16_MAX) 16.
  - set_masked put_tp_dst r Hr v m.
  - set_flagged put_nw_proto r Hr v.
  - set_plain put_nw_src r Hr v constr:(UINT32_MAX) 32.
  - set_masked put_nw_src r Hr v m.
  - set_plain put_nw_dst r Hr v constr:(UINT32_MAX) 32.
  - set_masked put_nw_dst r Hr v m.
  - set_flagged put_nw_dscp r Hr v.
  - set_flagged put_nw_ecn r Hr v.
  - set_flagged put_nw_ttl r Hr v.
  - destruct (frag_mask_ok v (nw_frag_mask (r_wc r)) ltac:(done) (wo_nw_frag_mask _ (ro_wc _ Hr))) as (E & Wv & Wm).
    destruct (put_nw_frag v _ r Wv Wm E Hr) as [Hr' Hh]. eexists. split; [reflexivity|]. by split.
  - set_masked put_nw_frag r Hr v m.
  - assert (in_width 16 v) by (unfold in_width in *; lia). set_exact put_tp_src r Hr v constr:(UINT16_MAX) 16.
  - assert (in_width 16 v) by (unfold in_width in *; lia). set_exact put_tp_dst r Hr v constr:(UINT16_MAX) 16.
  - set_address put_arp_sha r Hr a 6%nat.
  - set_address_masked put_arp_sha r Hr a m 6%nat.
  - set_address put_arp_tha r Hr a 6%nat.
  - set_address_masked put_arp_tha r Hr a m 6%nat.
  - set_address put_ipv6_src r Hr a 16%nat.
  - set_address_masked put_ipv6_src r Hr a m 16%nat.
  - set_address put_ipv6_dst r Hr a 16%nat.
  - set_address_masked put_ipv6_dst r Hr a m 16%nat.
  - set_exact put_ipv6_label r Hr v constr:(UINT32_MAX) 32.
  - set_masked put_ipv6_label r Hr v m.
  - set_address put_nd_target r Hr a 16%nat.
  - set_address_masked put_nd_target r Hr a m 16%nat.
Qed.

(** *** Building *)

Fixpoint run_sets (l : list set_op) (r : cls_rule) : outcome cls_rule :=
  match l with
  | [] => Ret r
  | o :: l => r ← run_set o r; run_sets l r
  end.

(** What the code starts a rule from. *)
Inductive initial (p h : Z) : cls_rule -> Prop :=
  | From_flow f wc : flow_ok f -> wc_ok wc -> initial p h (cls_rule_init f wc p h)
  | From_exact f : flow_ok f -> initial p h (cls_rule_init_exact f p h)
  | From_catchall : initial p h (cls_rule_init_catchall p h).

Lemma zero_wildcards_idem f w : flow_ok f -> wc_ok w -> flow_zero_wildcards (flow_zero_wildcards f w) w = flow_zero_wildcards f w.
Proof.
  intros Hf Hw. pose proof (zero_wildcards_flow_ok f w Hf Hw) as Hz.
  apply flow_words_inj; [by apply zero_wildcards_flow_ok|done|].
  rewrite !zero_wildcards_words by done. unfold masked.
  pose proof (row_length _ (flow_row f Hf)) as Hl. rewrite <- (row_length _ (mask_row w Hw)) in Hl. revert Hl.
  generalize (flow_words f) (mask_words w). induction l as [|x l IH]; intros [|y m] Hl; try done.
  cbn. rewrite land_twice, IH by (by injection Hl). done.
Qed.

Lemma zip_full n w k a : 0 <= w -> k = Z.ones w -> words n w a -> zip_with Z.land a (replicate n k) = a.
Proof.
  intros Hw -> [<- Hf]. induction Hf as [|x l Hx _ IH]; [done|]. cbn. rewrite IH. f_equal. by apply in_width_land_ones.
Qed.

Lemma skb_priority_ok f : flow_ok f -> flow_ok (with_skb_priority 0 f).
Proof. destruct f. intros []. by split. Qed.

Lemma exact_zeroed f : flow_ok f ->
  flow_zero_wildcards (with_skb_priority 0 f) flow_wildcards_init_exact = with_skb_priority 0 f.
Proof.
  intros []. apply zeroed_fields. destruct f. cbn in *.
  split_and!; first [reflexivity | by apply (in_width_land_ones 64) | by apply (in_width_land_ones 32) | by apply (in_width_land_ones 16)
    | by apply (in_width_land_ones 8) | by apply (zip_full 16 8) | by apply (zip_full 8 32) | by apply (zip_full 6 8)].
Qed.

Lemma initial_ok p h r : initial p h r -> rule_ok r /\ r_priority r = p.
Proof.
  intros [f wc Hf Hw|f Hf|]; (split; [|done]).
  - split; cbn; [by apply zero_wildcards_flow_ok|done|by apply zero_wildcards_idem].
  - split; [by apply skb_priority_ok|exact init_exact_ok|by apply exact_zeroed].
  - apply catchall_rule_ok.
Qed.

Lemma run_set_priority o r r' : run_set o r = Ret r' -> r_priority r' = r_priority r.
Proof.
  destruct o; cbn [run_set];
    unfold cls_rule_set_reg, cls_rule_set_reg_masked, flow_wildcards_set_reg_mask, cls_rule_set_any_vid, cls_rule_set_any_pcp, cls_rule_set_dl_vlan;
    repeat case_match; cbn [mbind outcome_bind]; intros E; try discriminate; by injection E as <-.
Qed.

Lemma run_sets_ok l : forall r, rule_ok r -> Forall set_valid l ->
  exists r', run_sets l r = Ret r' /\ rule_ok r' /\ r_priority r' = r_priority r.
Proof.
  induction l as [|o l IH]; intros r Hr Hl; [by exists r|]. apply Forall_cons in Hl as [Ho Hl].
  destruct (set_op_ok o r Hr Ho) as (r1 & E & Hr1 & _). destruct (IH r1 Hr1 Hl) as (r' & E' & Hr' & Hp).
  exists r'. cbn [run_sets]. rewrite E. cbn. split_and!; [done..|]. by rewrite Hp, (run_set_priority o r r1).
Qed.

(** A register that does not exist stops the program. *)
Lemma set_reg_out_of_range i v m r : (FLOW_N_REGS <= i)%nat -> run_set (Set_reg_masked i v m) r = Stuck AssertFail.
Proof. intros Hi. cbn [run_set]. unfold cls_rule_set_reg_masked. by rewrite (proj2 (Nat.ltb_ge _ _) Hi). Qed.

(** Every cls_rule_set function narrows the rule by its field.  On a rule whose wildcarded
    bits are zero and arguments of the right width it succeeds, keeps those bits zero, and
    the packets that match afterwards are those that match the rule with the old condition
    on the field dropped and that have the new value in the field, under the new mask. *)
Theorem setter_narrows o r :
  rule_ok r -> set_valid o ->
  exists r', run_set o r = Ret r' /\ rule_ok r'
    /\ forall f, flow_ok f -> hits r' f <-> hits (dropped o r) f /\ narrows o r f.
Proof. apply set_op_ok. Qed.

(** C35: The wildcarded bits of a rule that the program builds are zero, the invariant the
    classifier depends on: whichever of the three functions starts the rule, and whatever
    fields are then set, in any order and any number of times, every step succeeds, the
    invariant holds of the result, and the priority is the one given at the start. *)
Theorem built_rule_ok p h r0 l :
  initial p h r0 -> Forall set_valid l ->
  exists r, run_sets l r0 = Ret r /\ rule_ok r /\ r_priority r = p.
Proof.
  intros H0 Hl. destruct (initial_ok p h r0 H0) as [Hr Hp]. destruct (run_sets_ok l r0 Hr Hl) as (r & E & Hr' & Hp').
  exists r. split_and!; [done..|]. by rewrite Hp'.
Qed.

(** *** Witnesses *)

(** 10.0.0.0/8 over IP, the VLAN tag's identifier 5. *)
Definition some_sets : list set_op :=
  [Set_dl_type 0x800; Set_nw_src_masked 0x0a010203 0xff000000; Set_dl_vlan 5; Set_reg 2 7].

Lemma some_sets_valid : Forall set_valid some_sets.
Proof. repeat (apply Forall_cons; split); try apply Forall_nil; cbn [set_valid]; unfold in_width, FLOW_N_REGS; lia. Qed.

Lemma setter_narrows_witness :
  exists r', run_set (Set_nw_src_masked 0x0a010203 0xff000000) (cls_rule_init_catchall 9 0) = Ret r' /\ rule_ok r'
    /\ forall f, flow_ok f -> hits r' f <-> hits (dropped (Set_nw_src_masked 0x0a010203 0xff000000) (cls_rule_init_catchall 9 0)) f
                           /\ narrows (Set_nw_src_masked 0x0a010203 0xff000000) (cls_rule_init_catchall 9 0) f.
Proof.
  apply (setter_narrows (Set_nw_src_masked 0x0a010203 0xff000000) (cls_rule_init_catchall 9 0)).
  - apply catchall_rule_ok.
  - cbn [set_valid]. unfold in_width. lia.
Defined.

Lemma built_rule_ok_witness :
  exists r, run_sets some_sets (cls_rule_init_catchall 9 0) = Ret r /\ rule_ok r /\ r_priority r = 9.
Proof. apply (built_rule_ok 9 0 (cls_rule_init_catchall 9 0) some_sets); [constructor|apply some_sets_valid]. Defined.
