(* ===== verification/Classifier.v ===== *)
(** * The flow classifier (lib/classifier.c, lib/classifier.h)

    Rules that wildcard the same bits share a table; in a table, the rules that differ only in
    priority are on a ring, and the hash map of the table holds the one with the highest
    priority.  The state is the classifier and the structures it points to: rules with their
    list links, tables.  A table's address is taken when it is allocated. *)
From Stdlib Require Import Sorted.
From S2P Require Import Prelude Hash Hmap DList Flow ClsRule.

Local Open Scope Z_scope.

(** ** Definitions *)

(** [ct_hash] is the hash in the member hmap_node. *)
Record cls_table := MkTable {
  ct_hash : Z;
  ct_rules : hmap;
  ct_wc : flow_wildcards;
  n_table_rules : Z;
  is_catchall : bool
}.

(** The classifier, and the structures it points to. *)
Record cls_state := MkCls {
  n_rules : Z;
  tables : hmap;
  rule_heap : gmap nat cls_rule;
  link_heap : links;
  table_heap : gmap nat cls_table
}.

Abbreviation cm := (cstate cls_state).

Definition with_n_rules (n : Z) (s : cls_state) : cls_state := MkCls n (tables s) (rule_heap s) (link_heap s) (table_heap s).
Definition with_tables (t : hmap) (s : cls_state) : cls_state := MkCls (n_rules s) t (rule_heap s) (link_heap s) (table_heap s).
Definition with_rule_heap (r : gmap nat cls_rule) (s : cls_state) : cls_state := MkCls (n_rules s) (tables s) r (link_heap s) (table_heap s).
Definition with_link_heap (l : links) (s : cls_state) : cls_state := MkCls (n_rules s) (tables s) (rule_heap s) l (table_heap s).
Definition with_table_heap (t : gmap nat cls_table) (s : cls_state) : cls_state := MkCls (n_rules s) (tables s) (rule_heap s) (link_heap s) t.

Definition with_ct_rules (h : hmap) (t : cls_table) : cls_table := MkTable (ct_hash t) h (ct_wc t) (n_table_rules t) (is_catchall t).
Definition with_n_table_rules (n : Z) (t : cls_table) : cls_table := MkTable (ct_hash t) (ct_rules t) (ct_wc t) n (is_catchall t).

(** *** Loads, stores, and calls on the members *)

Definition load_rule (p : nat) : cm cls_rule := fun s =>
  match rule_heap s !! p with Some r => Ret (r, s) | None => Stuck DanglingPtr end.
Definition modify_rule (p : nat) (f : cls_rule -> cls_rule) : cm unit := fun s =>
  match rule_heap s !! p with Some r => Ret (tt, with_rule_heap (<[p := f r]> (rule_heap s)) s) | None => Stuck DanglingPtr end.
Definition load_table (t : nat) : cm cls_table := fun s =>
  match table_heap s !! t with Some x => Ret (x, s) | None => Stuck DanglingPtr end.
Definition modify_table (t : nat) (f : cls_table -> cls_table) : cm unit := fun s =>
  match table_heap s !! t with Some x => Ret (tt, with_table_heap (<[t := f x]> (table_heap s)) s) | None => Stuck DanglingPtr end.
Definition free_table (t : nat) : cm unit := fun s =>
  match table_heap s !! t with Some _ => Ret (tt, with_table_heap (delete t (table_heap s)) s) | None => Stuck InvalidFree end.

Definition on_links {A} (m : lm A) : cm A := fun s =>
  match m (link_heap s) with Ret (a, l) => Ret (a, with_link_heap l s) | Stuck e => Stuck e end.
Definition on_tables (f : hmap -> outcome hmap) : cm unit := fun s =>
  match f (tables s) with Ret h => Ret (tt, with_tables h s) | Stuck e => Stuck e end.
Definition on_rules (t : nat) (f : hmap -> outcome hmap) : cm unit :=
  x ← load_table t; h ← lift (f (ct_rules x)); modify_table t (with_ct_rules h).

(** The address of a table, or of a rule, that must not be null. *)
Definition deref (p : option nat) : cm nat := lift (of_option NullDeref p).

Definition rule_node (p : nat) (r : cls_rule) : hmap_node := MkNode (r_hash r) p.

(** HMAP_FOR_EACH over a map that does not change. *)
Definition all_nodes (h : hmap) : outcome (list hmap_node) := for_each h (Z.to_nat (hn h)).

(** *** Tables *)

Definition classifier_init (s : cls_state) : cls_state := with_tables hmap_init (with_n_rules 0 s).

Definition classifier_is_empty (s : cls_state) : bool := n_rules s =? 0.

Definition classifier_count (s : cls_state) : Z := n_rules s.

Definition find_table (wc : flow_wildcards) : cm (option nat) :=
  s ← get;
  ns ← lift (hmap_first_in_bucket (tables s) (flow_wildcards_hash wc 0));
  until_some (fun t => x ← load_table t; mret (if flow_wildcards_equal wc (ct_wc x) then Some t else None)) ns.

Definition insert_table (wc : flow_wildcards) : cm nat :=
  s ← get;
  let t := fresh (dom (table_heap s)) in
  let hash := flow_wildcards_hash wc 0 in
  _ ← put (with_table_heap (<[t := MkTable hash hmap_init wc 0 (flow_wildcards_is_catchall wc)]> (table_heap s)) s);
  _ ← on_tables (fun h => hmap_insert h t hash);
  mret t.

Definition destroy_table (t : nat) : cm unit :=
  x ← load_table t;
  _ ← on_tables (fun h => hmap_remove h (MkNode (ct_hash x) t));
  free_table t.

(** *** The list of the rules that differ in priority *)

Definition next_rule_in_list__ (rule : nat) : cm nat := on_links (next_of rule).

Definition next_rule_in_list (rule : nat) : cm (option nat) :=
  next ← next_rule_in_list__ rule;
  n ← load_rule next; r ← load_rule rule;
  mret (if r_priority n <? r_priority r then Some next else None).

(** FOR_EACH_RULE_IN_LIST with a body that may return.  The priorities go down, so no rule is
    met twice, and the number of rules there are is enough fuel. *)
Fixpoint rule_list_loop {A} (fuel : nat) (body : nat -> cm (option A)) (rule : nat) : cm (option A) :=
  match fuel with
  | O => fails AssertFail
  | S f =>
      r ← body rule;
      match r with
      | Some a => mret (Some a)
      | None =>
          next ← next_rule_in_list rule;
          match next with None => mret None | Some q => rule_list_loop f body q end
      end
  end.

Definition for_each_rule_in_list {A} (body : nat -> cm (option A)) (head : option nat) : cm (option A) :=
  match head with
  | None => mret None
  | Some p => s ← get; rule_list_loop (size (rule_heap s)) body p
  end.

(** *** Search in a table *)

Definition find_equal (t : nat) (f : flow) (hash : Z) : cm (option nat) :=
  x ← load_table t;
  ns ← lift (for_each_with_hash (ct_rules x) hash);
  until_some (fun p => r ← load_rule p; mret (if flow_equal (r_flow r) f then Some p else None)) ns.

Definition find_match (t : nat) (f : flow) : cm (option nat) :=
  x ← load_table t;
  if is_catchall x then c ← lift (hmap_first (ct_rules x)); mret (node_ptr <$> head c)
  else
    let f := flow_zero_wildcards f (ct_wc x) in
    ns ← lift (for_each_with_hash (ct_rules x) (flow_hash f 0));
    until_some (fun p => r ← load_rule p; mret (if flow_equal f (r_flow r) then Some p else None)) ns.

(** *** Insertion and removal *)

(** The body of the scan: [Some r] when the function returns [r]. *)
Definition insert_here (t new head rule : nat) : cm (option (option nat)) :=
  n ← load_rule new; r ← load_rule rule;
  if r_priority r <=? r_priority n then
    _ ← (if Nat.eqb rule head
         then _ ← on_rules t (fun h => hmap_replace h (rule_node rule r) new); modify_rule new (with_hash (r_hash r))
         else mret tt);
    if r_priority n =? r_priority r then
      _ ← on_links (list_replace new rule); mret (Some (Some rule))
    else
      _ ← on_links (list_insert rule new); mret (Some None)
  else mret None.

Definition insert_rule (t new : nat) : cm (option nat) :=
  n ← load_rule new;
  let hash := flow_hash (r_flow n) 0 in
  _ ← modify_rule new (with_hash hash);
  head ← find_equal t (r_flow n) hash;
  match head with
  | None =>
      _ ← on_rules t (fun h => hmap_insert h new hash);
      _ ← on_links (list_init new);
      mret None
  | Some p =>
      res ← for_each_rule_in_list (insert_here t new p) head;
      match res with
      | Some old => mret old
      | None => _ ← on_links (list_push_back p new); mret None
      end
  end.

Definition classifier_replace (rule : nat) : cm (option nat) :=
  r ← load_rule rule;
  table ← find_table (r_wc r);
  table ← match table with None => insert_table (r_wc r) | Some t => mret t end;
  old_rule ← insert_rule table rule;
  match old_rule with
  | Some _ => mret old_rule
  | None =>
      _ ← modify_table table (fun x => with_n_table_rules (n_table_rules x + 1) x);
      s ← get; _ ← put (with_n_rules (n_rules s + 1) s);
      mret old_rule
  end.

Definition classifier_insert (rule : nat) : cm unit :=
  displaced_rule ← classifier_replace rule;
  match displaced_rule with None => mret tt | Some _ => fails AssertFail end.

(** The three cases of classifier_remove: not the head of its ring, alone on it, its head. *)
Definition unlink_rule (table rule : nat) (r : cls_rule) (head : option nat) : cm unit :=
  if negb (bool_decide (head = Some rule)) then _ ← on_links (list_remove rule); mret tt
  else
    alone ← on_links (list_is_empty rule);
    if alone : bool then on_rules table (fun h => hmap_remove h (rule_node rule r))
    else
      next ← on_links (next_of rule);
      _ ← on_links (list_remove rule);
      _ ← on_rules table (fun h => hmap_replace h (rule_node rule r) next);
      modify_rule next (with_hash (r_hash r)).

Definition classifier_remove (rule : nat) : cm unit :=
  r ← load_rule rule;
  table ← find_table (r_wc r);
  table ← deref table;
  head ← find_equal table (r_flow r) (r_hash r);
  _ ← unlink_rule table rule r head;
  _ ← modify_table table (fun x => with_n_table_rules (n_table_rules x - 1) x);
  x ← load_table table;
  _ ← (if n_table_rules x =? 0 then destroy_table table else mret tt);
  s ← get; put (with_n_rules (n_rules s - 1) s).

(** HMAP_FOR_EACH_SAFE of classifier_destroy: the next node is found before the table is
    removed and freed. *)
Fixpoint destroy_tables (fuel : nat) (c : list hmap_node) : cm unit :=
  match fuel, c with
  | S f, x :: next =>
      s ← get;
      c ← lift (hmap_next (tables s) x next);
      _ ← on_tables (fun h => hmap_remove h x);
      _ ← free_table (node_ptr x);
      destroy_tables f c
  | _, _ => mret tt
  end.

Definition classifier_destroy : cm unit :=
  s ← get;
  c ← lift (hmap_first (tables s));
  destroy_tables (length (nodes (tables s))) c.

(** *** Search *)

(** The loop keeps the best rule so far. *)
Fixpoint lookup_loop (f : flow) (ns : list hmap_node) (best : option nat) : cm (option nat) :=
  match ns with
  | [] => mret best
  | x :: ns' =>
      rule ← find_match (node_ptr x) f;
      best' ← match rule, best with
              | None, _ => mret best
              | Some p, None => mret (Some p)
              | Some p, Some b => r ← load_rule p; rb ← load_rule b;
                                  mret (if r_priority rb <? r_priority r then Some p else Some b)
              end;
      lookup_loop f ns' best'
  end.

Definition classifier_lookup (f : flow) : cm (option nat) :=
  s ← get; ns ← lift (all_nodes (tables s)); lookup_loop f ns None.

Definition classifier_find_rule_exactly (target : cls_rule) : cm (option nat) :=
  table ← find_table (r_wc target);
  match table with
  | None => mret None
  | Some t =>
      head ← find_equal t (r_flow target) (flow_hash (r_flow target) 0);
      res ← for_each_rule_in_list (fun p =>
        r ← load_rule p;
        mret (if r_priority r <=? r_priority target
              then Some (if r_priority target =? r_priority r then Some p else None) else None)) head;
      mret (default None res)
  end.

(** [z] is the content of the local variable [wc] before flow_wildcards_combine. *)
Definition classifier_rule_overlaps (z : Z) (target : cls_rule) : cm bool :=
  s ← get;
  ns ← lift (all_nodes (tables s));
  res ← until_some (fun t =>
    x ← load_table t;
    let wc := flow_wildcards_combine z (r_wc target) (ct_wc x) in
    heads ← lift (all_nodes (ct_rules x));
    until_some (fun head =>
      for_each_rule_in_list (fun p =>
        r ← load_rule p;
        mret (if (r_priority r =? r_priority target) && flow_equal_except (r_flow target) (r_flow r) wc
              then Some tt else None)) (Some head)) heads) ns;
  mret (match res with Some _ => true | None => false end).

(** *** Iteration *)

Definition search_table (t : nat) (target : option cls_rule) : cm (option nat) :=
  x ← load_table t;
  if match target with None => true | Some c => negb (flow_wildcards_has_extra (ct_wc x) (r_wc c)) end then
    ns ← lift (all_nodes (ct_rules x));
    until_some (fun p => r ← load_rule p; mret (if rule_matches r target then Some p else None)) ns
  else mret None.

(** [cc_table] is where the last rule was found. *)
Record cls_cursor := MkCursor { cc_table : nat; cc_target : option cls_rule }.

Definition cls_cursor_init (cursor : cls_cursor) (target : option cls_rule) : cls_cursor := MkCursor (cc_table cursor) target.

(** The search in the tables, which moves the cursor to the one it finds a rule in. *)
Definition search_tables (cursor : cls_cursor) (ns : list hmap_node) : cm (option nat * cls_cursor) :=
  res ← until_some (fun t => rule ← search_table t (cc_target cursor); mret (pair t <$> rule)) ns;
  mret (match res with
        | Some (t, rule) => (Some rule, MkCursor t (cc_target cursor))
        | None => (None, cursor)
        end).

Definition cls_cursor_first (cursor : cls_cursor) : cm (option nat * cls_cursor) :=
  s ← get; ns ← lift (all_nodes (tables s)); search_tables cursor ns.

Definition cls_cursor_next (cursor : cls_cursor) (rule : nat) : cm (option nat * cls_cursor) :=
  next ← next_rule_in_list__ rule;
  n ← load_rule next; r ← load_rule rule;
  if r_priority n <? r_priority r then mret (Some next, cursor)
  else
    x ← load_table (cc_table cursor);
    ns ← lift (for_each_continue (ct_rules x) (Z.to_nat (hn (ct_rules x))) (rule_node next n));
    res ← until_some (fun p => q ← load_rule p; mret (if rule_matches q (cc_target cursor) then Some p else None)) ns;
    match res with
    | Some p => mret (Some p, cursor)
    | None =>
        s ← get;
        ns ← lift (for_each_continue (tables s) (Z.to_nat (hn (tables s))) (MkNode (ct_hash x) (cc_table cursor)));
        search_tables cursor ns
    end.

(** CLS_CURSOR_FOR_EACH: the rules its body sees, at most [fuel]. *)
Fixpoint cursor_visit (fuel : nat) (rule : option nat) (cursor : cls_cursor) : cm (list nat) :=
  match fuel, rule with
  | S f, Some p =>
      '(rule, cursor) ← cls_cursor_next cursor p;
      rest ← cursor_visit f rule cursor;
      mret (p :: rest)
  | _, _ => mret []
  end.

Definition cursor_for_each (fuel : nat) (cursor : cls_cursor) : cm (list nat) :=
  '(rule, cursor) ← cls_cursor_first cursor;
  cursor_visit fuel rule cursor.

(** ** Representation

    Tables by their wildcards, in a table the rules by their flow, and the rules that differ
    only in priority in decreasing order of it. *)

Abbreviation prule := (nat * cls_rule)%type.
Abbreviation ptrs := (fmap (M:=list) (@fst nat cls_rule)).

Definition priority_of (x : prule) : Z := r_priority x.2.

(** The flow of a ring, and its rules. *)
Abbreviation chain := (flow * list prule)%type.

Record tab := MkTab { tb_ptr : nat; tb_wc : flow_wildcards; tb_chains : list chain }.

Definition chain_node (c : chain) : hmap_node := MkNode (flow_hash c.1 0) (default O (head (ptrs c.2))).
Definition tab_node (tb : tab) : hmap_node := MkNode (flow_wildcards_hash (tb_wc tb) 0) (tb_ptr tb).

Definition tab_rules (tb : tab) : list prule := concat (snd <$> tb_chains tb).
Definition contents (TS : list tab) : list prule := concat (tab_rules <$> TS).

(** A rule in its place. *)
Record in_place (s : cls_state) (wc : flow_wildcards) (f : flow) (x : prule) : Prop := {
  ip_heap : rule_heap s !! x.1 = Some x.2;
  ip_ok : rule_ok x.2;
  ip_wc : r_wc x.2 = wc;
  ip_flow : r_flow x.2 = f;
  ip_hash : r_hash x.2 = flow_hash f 0
}.

Abbreviation descending := (StronglySorted (fun x y => priority_of y < priority_of x)).

Record chain_ok (s : cls_state) (wc : flow_wildcards) (c : chain) : Prop := {
  ck_rules : Forall (in_place s wc c.1) c.2;
  ck_order : descending c.2;
  ck_ring : ring (link_heap s) (ptrs c.2);
  ck_some : c.2 <> []
}.

Record chains_ok (s : cls_state) (wc : flow_wildcards) (h : hmap) (cs : list chain) : Prop := {
  cs_map : hmap_rep h (chain_node <$> cs);
  cs_chains : Forall (chain_ok s wc) cs;
  cs_flows : NoDup (fst <$> cs)
}.

Record tab_ok (s : cls_state) (tb : tab) : Prop := {
  tk_table : exists h, chains_ok s (tb_wc tb) h (tb_chains tb)
    /\ table_heap s !! tb_ptr tb
       = Some (MkTable (flow_wildcards_hash (tb_wc tb) 0) h (tb_wc tb) (Z.of_nat (length (tab_rules tb)))
                       (flow_wildcards_is_catchall (tb_wc tb)));
  tk_wc : wc_ok (tb_wc tb);
  tk_some : tb_chains tb <> []
}.

Record cls_rep (s : cls_state) (TS : list tab) : Prop := {
  cr_map : hmap_rep (tables s) (tab_node <$> TS);
  cr_tabs : Forall (tab_ok s) TS;
  cr_wcs : NoDup (tb_wc <$> TS);
  cr_ptrs : NoDup (ptrs (contents TS));
  cr_count : n_rules s = Z.of_nat (length (contents TS));
  cr_heap : forall t, is_Some (table_heap s !! t) <-> t ∈ tb_ptr <$> TS
}.

(** The classifier holds the rules [L], at these addresses. *)
Definition cls_holds (s : cls_state) (L : list prule) : Prop := exists TS, cls_rep s TS /\ contents TS ≡ₚ L.

#[local] Opaque flow_hash flow_wildcards_hash flow_equal flow_wildcards_equal flow_wildcards_is_catchall.

(** ** Loops *)

(** The first result of the body among the nodes. *)
Definition first_result {A B} (g : A -> option B) (l : list A) : option B := head (omap g l).

Lemma first_result_some {A B} (g : A -> option B) l b : first_result g l = Some b -> exists x, x ∈ l /\ g x = Some b.
Proof.
  unfold first_result. intros H. assert (b ∈ omap g l) as Hb by (destruct (omap g l); simplify_eq/=; by left).
  by apply list_elem_of_omap in Hb.
Qed.

Lemma first_result_none {A B} (g : A -> option B) l : first_result g l = None -> forall x, x ∈ l -> g x = None.
Proof.
  unfold first_result. intros H x Hx. destruct (g x) as [b|] eqn:E; [|done].
  assert (b ∈ omap g l) as Hb by (apply list_elem_of_omap; eauto). destruct (omap g l); [|done]. by apply not_elem_of_nil in Hb.
Qed.

Lemma until_some_pure {S A} (body : nat -> cstate S (option A)) g ns s :
  (forall x, x ∈ ns -> body (node_ptr x) s = Ret (g x, s)) -> until_some body ns s = Ret (first_result g ns, s).
Proof.
  induction ns as [|x ns IH]; intros H; [done|]. cbn [until_some].
  rewrite (cstate_bind_step _ _ _ _ _ (H x (list_elem_of_here _ _))). unfold first_result. cbn [omap list_omap].
  destruct (g x) as [a|]; [done|]. rewrite IH; [done|]. intros y Hy. apply H. by right.
Qed.

Lemma load_rule_ok s p r : rule_heap s !! p = Some r -> load_rule p s = Ret (r, s).
Proof. intros E. unfold load_rule. by rewrite E. Qed.

Lemma load_table_ok s t x : table_heap s !! t = Some x -> load_table t s = Ret (x, s).
Proof. intros E. unfold load_table. by rewrite E. Qed.

Lemma lift_ok {S A} (m : outcome A) (s : S) a : m = Ret a -> lift m s = Ret (a, s).
Proof. intros ->. done. Qed.

Lemma on_links_ok {A} (m : lm A) s a l : m (link_heap s) = Ret (a, l) -> on_links m s = Ret (a, with_link_heap l s).
Proof. intros E. unfold on_links. by rewrite E. Qed.

Lemma on_links_read {A} (m : lm A) s a : m (link_heap s) = Ret (a, link_heap s) -> on_links m s = Ret (a, s).
Proof. intros E. rewrite (on_links_ok _ _ _ _ E). by destruct s. Qed.

Lemma on_tables_ok f s h : f (tables s) = Ret h -> on_tables f s = Ret (tt, with_tables h s).
Proof. intros E. unfold on_tables. by rewrite E. Qed.

Lemma on_rules_ok t f s x h :
  table_heap s !! t = Some x -> f (ct_rules x) = Ret h ->
  on_rules t f s = Ret (tt, with_table_heap (<[t := with_ct_rules h x]> (table_heap s)) s).
Proof.
  intros Ex E. unfold on_rules. rewrite (cstate_bind_step _ _ _ _ _ (load_table_ok _ _ _ Ex)).
  rewrite (cstate_bind_step _ _ _ _ _ (lift_ok _ _ _ E)). unfold modify_table. by rewrite Ex.
Qed.

(** Runs one call whose result is known. *)
Ltac step E := rewrite (cstate_bind_step _ _ _ _ _ E).
Ltac step_get s := rewrite (cstate_bind_step get _ s s s eq_refl).

Lemma all_nodes_ok h l : hmap_rep h l -> exists ns, all_nodes h = Ret ns /\ ns = nodes h /\ ns ≡ₚ l.
Proof.
  intros Hr. exists (nodes h). split_and!; [|done|by apply Hr]. apply for_each_ok; [by apply Hr|].
  rewrite (ho_n _ (hr_ok _ _ Hr)). lia.
Qed.

(** ** Search *)

Lemma node_tab s TS x : cls_rep s TS -> x ∈ nodes (tables s) -> exists tb, tb ∈ TS /\ x = tab_node tb /\ tab_ok s tb.
Proof.
  intros Hr Hx. rewrite (hr_nodes _ _ (cr_map _ _ Hr)) in Hx. apply list_elem_of_fmap in Hx as (tb & -> & Hin).
  exists tb. split_and!; [done..|]. pose proof (cr_tabs _ _ Hr) as Hf. rewrite Forall_forall in Hf. by apply Hf.
Qed.

Lemma wc_equal_ok a b : wc_ok a -> wc_ok b -> flow_wildcards_equal a b = true <-> a = b.
Proof. intros Ha Hb. apply flow_wildcards_equal_ok. by rewrite (wo_zeros _ Ha), (wo_zeros _ Hb). Qed.

Lemma find_table_ok s TS wc : cls_rep s TS -> wc_ok wc ->
  exists res, find_table wc s = Ret (res, s)
    /\ match res with
       | Some t => exists tb, tb ∈ TS /\ tb_ptr tb = t /\ tb_wc tb = wc
       | None => wc ∉ tb_wc <$> TS
       end.
Proof.
  intros Hr Hwc. pose proof (hr_ok _ _ (cr_map _ _ Hr)) as Hok.
  destruct (first_in_bucket_ok (tables s) (flow_wildcards_hash wc 0) Hok) as (b & E & Hb).
  unfold find_table. step_get s. step (lift_ok _ s _ E).
  rewrite (until_some_pure _ (fun x => match table_heap s !! node_ptr x with
    | Some y => if flow_wildcards_equal wc (ct_wc y) then Some (node_ptr x) else None | None => None end)).
  2: { intros x Hx. destruct (node_tab s TS x Hr) as (tb & _ & -> & [(h & _ & Et) _ _]); [apply elem_of_nodes; eauto|].
       cbn [tab_node node_ptr]. step (load_table_ok _ _ _ Et). by rewrite Et. }
  eexists. split; [done|]. destruct (first_result _ _) as [t|] eqn:Ef.
  - apply first_result_some in Ef as (x & Hx & Ef).
    destruct (node_tab s TS x Hr) as (tb & Hin & -> & [(h & _ & Et) Hw _]); [apply elem_of_nodes; eauto|].
    cbn [tab_node node_ptr] in Ef. rewrite Et in Ef. cbn [ct_wc] in Ef.
    destruct (flow_wildcards_equal wc (tb_wc tb)) eqn:Eq; [|done]. injection Ef as <-.
    apply wc_equal_ok in Eq; [|done..]. by exists tb.
  - intros Hin. apply list_elem_of_fmap in Hin as (tb & -> & Hin).
    assert (tab_node tb ∈ nodes (tables s)) as Hn.
    { rewrite (hr_nodes _ _ (cr_map _ _ Hr)). by apply list_elem_of_fmap_2. }
    rewrite (in_own_bucket _ (tab_node tb) b Hok Hb) in Hn.
    pose proof (first_result_none _ _ Ef _ Hn) as En. destruct (node_tab s TS (tab_node tb) Hr) as (tb' & Hin' & Ex & [(h & _ & Et) Hw _]).
    { rewrite (hr_nodes _ _ (cr_map _ _ Hr)). by apply list_elem_of_fmap_2. }
    injection Ex as _ Ep. cbn [tab_node node_ptr] in En. rewrite Ep, Et in En. cbn [ct_wc] in En.
    assert (tb = tb') as <-.
    { pose proof (hr_nodup _ _ (cr_map _ _ Hr)) as Hd. rewrite <- list_fmap_compose in Hd.
      apply list_elem_of_lookup in Hin as [i Hi]. apply list_elem_of_lookup in Hin' as [j Hj].
      assert (i = j) as <-; [|congruence]. eapply (NoDup_lookup _ i j (tb_ptr tb) Hd).
      - by rewrite list_lookup_fmap, Hi.
      - rewrite list_lookup_fmap, Hj. cbn. by rewrite Ep. }
    by rewrite (proj2 (wc_equal_ok (tb_wc tb) (tb_wc tb) Hw Hw) eq_refl) in En.
Qed.

Lemma tab_in s TS tb : cls_rep s TS -> tb ∈ TS -> tab_ok s tb.
Proof. intros Hr Hin. pose proof (cr_tabs _ _ Hr) as Hf. rewrite Forall_forall in Hf. by apply Hf. Qed.

(** *** Chains *)

Lemma chain_head s wc c : chain_ok s wc c -> exists p r l, c.2 = (p, r) :: l /\ in_place s wc c.1 (p, r).
Proof.
  intros Hc. destruct (c.2) as [|[p r] l] eqn:E; [by destruct (ck_some _ _ _ Hc)|].
  exists p, r, l. split; [done|]. pose proof (ck_rules _ _ _ Hc) as Hf. rewrite E in Hf. by apply Forall_cons in Hf as [? _].
Qed.

Lemma node_chain s wc h cs x : chains_ok s wc h cs -> x ∈ nodes h ->
  exists f p r l, (f, (p, r) :: l) ∈ cs /\ x = MkNode (flow_hash f 0) p /\ in_place s wc f (p, r)
    /\ chain_ok s wc (f, (p, r) :: l).
Proof.
  intros Hr Hx. rewrite (hr_nodes _ _ (cs_map _ _ _ _ Hr)) in Hx. apply list_elem_of_fmap in Hx as ([f ch] & -> & Hin).
  pose proof (cs_chains _ _ _ _ Hr) as Hf. rewrite Forall_forall in Hf. pose proof (Hf _ Hin) as Hc.
  destruct (chain_head _ _ _ Hc) as (p & r & l & E & Hp). cbn [fst snd] in *. subst ch. by exists f, p, r, l.
Qed.

Lemma chain_node_in s wc h cs f p r l : chains_ok s wc h cs -> (f, (p, r) :: l) ∈ cs -> MkNode (flow_hash f 0) p ∈ nodes h.
Proof.
  intros Hr Hin. rewrite (hr_nodes _ _ (cs_map _ _ _ _ Hr)). by apply (list_elem_of_fmap_2 chain_node) in Hin.
Qed.

(** The loops over the nodes with a hash, with a test on the rule's flow: [test] is one of
    the two ways the code writes the comparison. *)
Lemma search_hash_ok s wc h cs f test : chains_ok s wc h cs -> flow_ok f ->
  (forall g, flow_ok g -> test g = true <-> g = f) ->
  exists ns, for_each_with_hash h (flow_hash f 0) = Ret ns
    /\ exists res, until_some (fun p => r ← load_rule p; mret (if test (r_flow r) then Some p else None)) ns s = Ret (res, s)
       /\ match res with
          | Some p => exists r l, (f, (p, r) :: l) ∈ cs
          | None => f ∉ fst <$> cs
          end.
Proof.
  intros Hr Hf Ht. destruct (for_each_with_hash_ok _ _ (flow_hash f 0) (cs_map _ _ _ _ Hr)) as (ns & E & Hns).
  exists ns. split; [done|].
  assert (forall x, x ∈ ns <-> x ∈ nodes h /\ node_hash x = flow_hash f 0) as Hin.
  { intros x. rewrite Hns, list_elem_of_filter, (hr_nodes _ _ (cs_map _ _ _ _ Hr)). tauto. }
  rewrite (until_some_pure _ (fun x => match rule_heap s !! node_ptr x with
    | Some r => if test (r_flow r) then Some (node_ptr x) else None | None => None end)).
  2: { intros x [Hx _]%Hin. destruct (node_chain _ _ _ _ _ Hr Hx) as (g & p & r & l & _ & -> & [E1 _ _ _ _] & _).
       cbn [node_ptr fst snd] in *. step (load_rule_ok _ _ _ E1). by rewrite E1. }
  eexists. split; [done|]. destruct (first_result _ _) as [p|] eqn:Ef.
  - apply first_result_some in Ef as (x & [Hx _]%Hin & Ef).
    destruct (node_chain _ _ _ _ _ Hr Hx) as (g & q & r & l & Hc & -> & [E1 E2 _ E4 _] & _). cbn [node_ptr fst snd] in *.
    rewrite E1 in Ef. destruct (test (r_flow r)) eqn:Et; [|done]. injection Ef as <-.
    apply Ht in Et; [|apply E2]. exists r, l. congruence.
  - intros Hcs. apply list_elem_of_fmap in Hcs as ([g ch] & -> & Hc). cbn [fst] in *.
    pose proof (cs_chains _ _ _ _ Hr) as Hall. rewrite Forall_forall in Hall.
    destruct (chain_head _ _ _ (Hall _ Hc)) as (p & r & l & Ec & [E1 E2 _ E4 _]). cbn [fst snd] in *. subst ch g.
    pose proof (first_result_none _ _ Ef (MkNode (flow_hash (r_flow r) 0) p)) as En.
    cbn [node_ptr] in En. rewrite E1, (proj2 (Ht _ (ro_flow _ E2)) eq_refl) in En.
    enough (Some p = None) by done. apply En, Hin. split; [by eapply chain_node_in|done].
Qed.

Lemma find_equal_ok s t x f wc cs :
  table_heap s !! t = Some x -> chains_ok s wc (ct_rules x) cs -> flow_ok f ->
  exists res, find_equal t f (flow_hash f 0) s = Ret (res, s)
    /\ match res with Some p => exists r l, (f, (p, r) :: l) ∈ cs | None => f ∉ fst <$> cs end.
Proof.
  intros Et Hc Hf. destruct (search_hash_ok s wc _ cs f (fun g => flow_equal g f) Hc Hf) as (ns & E & res & Er & Hres).
  { intros g Hg. by apply flow_equal_ok. }
  exists res. split; [|done]. unfold find_equal. step (load_table_ok _ _ _ Et). by step (lift_ok _ s _ E).
Qed.

(** *** Matching *)

Lemma elem_concat {A B} (g : A -> list B) l x : x ∈ concat (g <$> l) <-> exists a, a ∈ l /\ x ∈ g a.
Proof.
  induction l as [|a l IH]; cbn [fmap list_fmap concat].
  - split; [by intros ?%not_elem_of_nil|by intros (a & ?%not_elem_of_nil & _)].
  - rewrite elem_of_app, IH. split.
    + intros [Hx|(b & Hb & Hx)]; [exists a|exists b]; (split; [set_solver|done]).
    + intros (b & [->|Hb]%elem_of_cons & Hx); eauto.
Qed.

Lemma filter_all_in {A} (P : A -> Prop) `{!forall x, Decision (P x)} (l : list A) : (forall x, x ∈ l -> P x) -> filter P l = l.
Proof. intros Hl. apply filter_all. by rewrite Forall_forall. Qed.

Lemma filter_concat {A B} (P : A -> Prop) `{!forall x, Decision (P x)} (g g' : B -> list A) (l : list B) :
  (forall b, b ∈ l -> g b = filter P (g' b)) -> concat (g <$> l) = filter P (concat (g' <$> l)).
Proof.
  induction l as [|b l IH]; intros Hl'; [done|]. cbn [fmap list_fmap concat]. rewrite filter_app, (Hl' b) by left. f_equal.
  apply IH. intros c Hc. apply Hl'. by right.
Qed.

Lemma elem_tab_rules tb x : x ∈ tab_rules tb <-> exists c, c ∈ tb_chains tb /\ x ∈ c.2.
Proof. apply elem_concat. Qed.

Lemma elem_contents TS x : x ∈ contents TS <-> exists tb, tb ∈ TS /\ x ∈ tab_rules tb.
Proof. apply elem_concat. Qed.

Lemma in_chain s wc h cs c x : chains_ok s wc h cs -> c ∈ cs -> x ∈ c.2 -> in_place s wc c.1 x.
Proof.
  intros Hr Hc Hx. pose proof (cs_chains _ _ _ _ Hr) as Hf. rewrite Forall_forall in Hf.
  pose proof (ck_rules _ _ _ (Hf _ Hc)) as Hf'. rewrite Forall_forall in Hf'. by apply Hf'.
Qed.

(** Rules whose flow is the packet's under the wildcards are those that match. *)
Lemma hits_in_place s wc f g x : in_place s wc g x -> flow_ok f -> hits x.2 f <-> flow_zero_wildcards f wc = g.
Proof. intros [_ H2 <- <- _] Hf. by apply hits_zeroed. Qed.

Lemma catchall_zeroed f g : flow_ok f -> flow_ok g ->
  flow_zero_wildcards f flow_wildcards_init_catchall = flow_zero_wildcards g flow_wildcards_init_catchall.
Proof.
  intros Hf Hg. pose proof init_catchall_ok as Hc. apply flow_words_inj; [by apply zero_wildcards_flow_ok..|].
  rewrite !zero_wildcards_words by done. rewrite catchall_masks, !masked_zero by (by apply row_length, flow_row). done.
Qed.

(** The rules of one flow, highest priority first. *)
Lemma descending_head x (l : list prule) y : descending (x :: l) -> y ∈ x :: l -> priority_of y <= priority_of x.
Proof.
  intros Hs Hy. apply StronglySorted_inv in Hs as [_ Hf]. rewrite Forall_forall in Hf.
  apply elem_of_cons in Hy as [->|Hy]; [done|]. specialize (Hf _ Hy). lia.
Qed.

Lemma descending_next (l1 : list prule) x y l2 : descending (l1 ++ x :: y :: l2) -> priority_of y < priority_of x.
Proof.
  intros H. induction l1 as [|z l1 IH].
  - apply StronglySorted_inv in H as [_ Hf]. by apply Forall_cons in Hf as [? _].
  - apply StronglySorted_inv in H as [H _]. by apply IH.
Qed.

(** The chain with a flow, if there is one, is the only one. *)
Lemma same_chain s wc h cs c d : chains_ok s wc h cs -> c ∈ cs -> d ∈ cs -> c.1 = d.1 -> c = d.
Proof.
  intros Hr Hc Hd E. pose proof (cs_flows _ _ _ _ Hr) as Hn.
  apply list_elem_of_lookup in Hc as [i Hi]. apply list_elem_of_lookup in Hd as [j Hj].
  assert (i = j) as <-; [|congruence]. eapply (NoDup_lookup _ i j (c.1) Hn).
  - by rewrite list_lookup_fmap, Hi.
  - rewrite list_lookup_fmap, Hj. cbn. by rewrite E.
Qed.

(** [p] is the best match of a table. *)
Definition best_match (f : flow) (L : list prule) (res : option nat) : Prop :=
  match res with
  | Some p => exists r, (p, r) ∈ L /\ hits r f /\ forall x, x ∈ L -> hits x.2 f -> priority_of x <= r_priority r
  | None => forall x, x ∈ L -> ~ hits x.2 f
  end.

Lemma chain_best s tb h p r l f : chains_ok s (tb_wc tb) h (tb_chains tb) -> flow_ok f ->
  (flow_zero_wildcards f (tb_wc tb), (p, r) :: l) ∈ tb_chains tb -> best_match f (tab_rules tb) (Some p).
Proof.
  intros Hr Hf Hc. exists r. split; [apply elem_tab_rules; eexists; split; [exact Hc|by left]|].
  pose proof (in_chain _ _ _ _ _ (p, r) Hr Hc ltac:(by left)) as Hp. split; [by apply (hits_in_place _ _ _ _ _ Hp Hf)|].
  intros x Hx Hh. apply elem_tab_rules in Hx as (d & Hd & Hx).
  pose proof (in_chain _ _ _ _ _ _ Hr Hd Hx) as Hpx. apply (hits_in_place _ _ _ _ _ Hpx Hf) in Hh.
  pose proof (same_chain _ _ _ _ _ _ Hr Hd Hc ltac:(by symmetry)) as ->. cbn [snd] in Hx.
  pose proof (cs_chains _ _ _ _ Hr) as Hall. rewrite Forall_forall in Hall.
  by apply (descending_head (p, r) l x (ck_order _ _ _ (Hall _ Hc))).
Qed.

Lemma find_match_ok s tb f : tab_ok s tb -> flow_ok f ->
  exists res, find_match (tb_ptr tb) f s = Ret (res, s) /\ best_match f (tab_rules tb) res.
Proof.
  intros [(h & Hr & Et) Hw Hne] Hf. unfold find_match. step (load_table_ok _ _ _ Et). cbn [is_catchall ct_wc ct_rules].
  destruct (flow_wildcards_is_catchall (tb_wc tb)) eqn:Ec.
  - apply flow_wildcards_is_catchall_ok in Ec; [|done].
    pose proof (cs_map _ _ _ _ Hr) as Hm. assert (exists c, hmap_first h = Ret c /\ (c = [] -> nodes h = []) /\ forall x, x ∈ c -> x ∈ nodes h)
      as (c & E & E0 & Ein).
    { unfold hmap_first, hmap_next__. pose proof (ho_len _ (hr_ok _ _ Hm)).
      destruct (next_from_ok h (Z.to_nat (mask h + 1 - 0)) (Z.to_nat 0)) as (c & E & Hc); [change (Z.to_nat 0) with 0%nat; lia|].
      change (concat (drop (Z.to_nat 0) (buckets h))) with (nodes h) in Hc. exists c. split; [done|].
      destruct Hc as [[-> En]|(j & _ & _ & Hn & En)]; rewrite En; (split; [done|]); set_solver. }
    step (lift_ok _ s _ E). eexists. split; [done|]. destruct c as [|x c].
    + specialize (E0 eq_refl). apply eq_sym, (f_equal length) in E0. rewrite (hr_nodes _ _ Hm), length_fmap in E0.
      by destruct (tb_chains tb).
    + destruct (node_chain _ _ _ _ _ Hr (Ein x ltac:(by left))) as (g & p & r & l & Hc & -> & Hp & _).
      cbn [head fmap option_fmap option_map node_ptr]. apply (chain_best s tb h p r l f Hr Hf).
      rewrite Ec in *. destruct Hp as [_ H2 H3 H4 _]. cbn [snd] in *.
      rewrite (catchall_zeroed f (r_flow r) Hf (ro_flow _ H2)), <- H3, (ro_zero _ H2), H4. done.
  - destruct (search_hash_ok s _ _ _ (flow_zero_wildcards f (tb_wc tb)) (flow_equal (flow_zero_wildcards f (tb_wc tb))) Hr)
      as (ns & E & res & Er & Hres); [by apply zero_wildcards_flow_ok| |].
    { intros g Hg. rewrite flow_equal_ok; [|by apply zero_wildcards_flow_ok|done]. split; by intros ->. }
    step (lift_ok _ s _ E). exists res. split; [exact Er|]. destruct res as [p|].
    + destruct Hres as (r & l & Hc). by apply (chain_best s tb h p r l f Hr Hf).
    + intros x Hx Hh. apply elem_tab_rules in Hx as (c & Hc & Hx).
      apply (hits_in_place _ _ _ _ _ (in_chain _ _ _ _ _ _ Hr Hc Hx) Hf) in Hh. apply Hres. rewrite Hh.
      by apply list_elem_of_fmap_2.
Qed.

(** *** Lookup *)


Lemma lookup_loop_ok s TS f : cls_rep s TS -> flow_ok f -> forall ts best seen,
  (forall tb, tb ∈ ts -> tb ∈ TS) -> seen ⊆ contents TS -> best_match f seen best ->
  exists res, lookup_loop f (tab_node <$> ts) best s = Ret (res, s) /\ best_match f (seen ++ contents ts) res.
Proof.
  intros Hr Hf. induction ts as [|tb ts IH]; intros best seen Hts Hseen Hb.
  { exists best. split; [done|]. cbn. by rewrite app_nil_r. }
  cbn [fmap list_fmap lookup_loop tab_node node_ptr]. pose proof (Hts tb (list_elem_of_here _ _)) as Hin.
  destruct (find_match_ok s tb f (tab_in _ _ _ Hr Hin) Hf) as (rule & E & Hm). step E.
  assert (forall x, x ∈ contents TS -> rule_heap s !! x.1 = Some x.2) as Hheap.
  { intros x Hx. apply elem_contents in Hx as (tb' & Hin' & Hx). apply elem_tab_rules in Hx as (c & Hc & Hx).
    destruct (tab_in _ _ _ Hr Hin') as [(h & Hch & _) _ _]. by destruct (in_chain _ _ _ _ _ _ Hch Hc Hx). }
  assert (exists best', (match rule, best with
              | None, _ => mret best
              | Some p, None => mret (Some p)
              | Some p, Some b => r ← load_rule p; rb ← load_rule b;
                                  mret (if r_priority rb <? r_priority r then Some p else Some b)
              end) s = Ret (best', s) /\ best_match f (seen ++ tab_rules tb) best') as (best' & E' & Hb').
  { destruct rule as [p|], best as [b|].
    - destruct Hm as (r & Hp & Hh & Hmax), Hb as (rb & Hpb & Hhb & Hmaxb).
      assert ((p, r) ∈ contents TS) as Hpc by (apply elem_contents; eauto).
      step (load_rule_ok _ _ _ (Hheap _ Hpc)). step (load_rule_ok _ _ _ (Hheap _ (Hseen _ Hpb))).
      eexists. split; [done|]. cbn [snd]. destruct (Z.ltb_spec (r_priority rb) (r_priority r)).
      + exists r. split; [set_solver|]. split; [done|]. intros x Hx Hxh. apply elem_of_app in Hx as [Hx|Hx]; [|by apply Hmax].
        specialize (Hmaxb _ Hx Hxh). lia.
      + exists rb. split; [set_solver|]. split; [done|]. intros x Hx Hxh. apply elem_of_app in Hx as [Hx|Hx]; [by apply Hmaxb|].
        specialize (Hmax _ Hx Hxh). lia.
    - destruct Hm as (r & Hp & Hh & Hmax). eexists. split; [done|]. exists r. split; [set_solver|]. split; [done|].
      intros x Hx Hxh. apply elem_of_app in Hx as [Hx|Hx]; [by destruct (Hb _ Hx)|by apply Hmax].
    - destruct Hb as (rb & Hpb & Hhb & Hmaxb). eexists. split; [done|]. exists rb. split; [set_solver|]. split; [done|].
      intros x Hx Hxh. apply elem_of_app in Hx as [Hx|Hx]; [by apply Hmaxb|by destruct (Hm _ Hx)].
    - eexists. split; [done|]. intros x Hx. apply elem_of_app in Hx as [Hx|Hx]; [by apply Hb|by apply Hm]. }
  step E'. destruct (IH best' (seen ++ tab_rules tb)) as (res & E2 & H2); [| |exact Hb'|].
  - intros x Hx. apply Hts. by right.
  - intros x Hx. apply elem_of_app in Hx as [Hx|Hx]; [by apply Hseen|]. apply elem_contents. by exists tb.
  - exists res. split; [exact E2|]. rewrite <- app_assoc in H2. exact H2.
Qed.

Lemma best_match_perm f L L' res : L ≡ₚ L' -> best_match f L res -> best_match f L' res.
Proof.
  intros E. assert (forall x, x ∈ L <-> x ∈ L') as H by (intros x; by rewrite E). destruct res as [p|]; cbn.
  - intros (r & Hp & Hh & Hm). exists r. split; [by apply H|]. split; [done|]. intros x Hx. apply Hm. by apply H.
  - intros Hn x Hx. apply Hn. by apply H.
Qed.

Lemma contents_perm TS TS' : TS ≡ₚ TS' -> contents TS ≡ₚ contents TS'.
Proof. intros E. unfold contents. by rewrite E. Qed.

Lemma tables_nodes s TS : cls_rep s TS ->
  exists ts, ts ≡ₚ TS /\ nodes (tables s) = tab_node <$> ts /\ all_nodes (tables s) = Ret (tab_node <$> ts).
Proof.
  intros Hr. destruct (all_nodes_ok _ _ (cr_map _ _ Hr)) as (ns & E & En & Hp). subst ns.
  apply Permutation_map_inv in Hp as (ts & Hts & Hp). exists ts. by rewrite E, Hts.
Qed.

Lemma classifier_lookup_ok s TS f : cls_rep s TS -> flow_ok f ->
  exists res, classifier_lookup f s = Ret (res, s) /\ best_match f (contents TS) res.
Proof.
  intros Hr Hf. destruct (tables_nodes s TS Hr) as (ts & Hts & _ & E).
  unfold classifier_lookup. step_get s. step (lift_ok _ s _ E).
  destruct (lookup_loop_ok s TS f Hr Hf ts None []) as (res & E' & H).
  - intros tb. by rewrite Hts.
  - intros x Hx. by apply not_elem_of_nil in Hx.
  - intros x Hx. by apply not_elem_of_nil in Hx.
  - exists res. split; [exact E'|]. eapply best_match_perm; [|exact H]. cbn [app]. by apply contents_perm.
Qed.

(** *** Walking a chain *)

Lemma ring_next_in h xs pre x y post : xs = pre ++ x :: y :: post -> ring h xs -> next_of x h = Ret (y, h).
Proof.
  intros -> [_ Hs]. apply dseg_app in Hs as [_ [Hx _]]. exact (next_of_ok _ _ _ Hx).
Qed.

Lemma ring_next_end h xs pre x : xs = pre ++ [x] -> ring h xs -> next_of x h = Ret (default O (head xs), h).
Proof.
  intros -> [_ Hs]. apply dseg_app in Hs as [_ [Hx _]]. rewrite (next_of_ok _ _ _ Hx). cbn [l_next].
  by destruct pre.
Qed.

Lemma next_rule_ok s wc f ch pre x post : chain_ok s wc (f, ch) -> ch = pre ++ x :: post ->
  next_rule_in_list x.1 s = Ret (fst <$> head post, s)
  /\ next_rule_in_list__ x.1 s = Ret (match post with y :: _ => y.1 | [] => default O (head (ptrs ch)) end, s).
Proof.
  intros [Hin Ho Hr Hn] E. cbn [fst snd] in *. rewrite Forall_forall in Hin.
  pose proof (Hin x ltac:(rewrite E; set_solver)) as [Hx _ _ _ _].
  destruct post as [|y post]; cbn [head fmap option_fmap option_map].
  - assert (on_links (next_of x.1) s = Ret (default O (head (ptrs ch)), s)) as E1.
    { apply on_links_read, (ring_next_end _ (ptrs ch) (ptrs pre)); [|done]. by rewrite E, fmap_app. }
    split; [|exact E1]. unfold next_rule_in_list, next_rule_in_list__. step E1.
    assert (exists z l, ch = z :: l) as (z & l & Ez) by (destruct pre; rewrite E; cbn; eauto).
    rewrite Ez. cbn [fmap list_fmap head default from_option id].
    pose proof (Hin z ltac:(rewrite Ez; by left)) as [Hz _ _ _ _].
    step (load_rule_ok _ _ _ Hz). step (load_rule_ok _ _ _ Hx).
    rewrite (proj2 (Z.ltb_ge _ _)); [done|]. rewrite Ez in Ho.
    apply (descending_head z l x Ho). rewrite <- Ez, E. set_solver.
  - assert (on_links (next_of x.1) s = Ret (y.1, s)) as E1.
    { apply on_links_read, (ring_next_in _ (ptrs ch) (ptrs pre) _ _ (ptrs post)); [|done]. by rewrite E, fmap_app. }
    split; [|exact E1]. unfold next_rule_in_list, next_rule_in_list__. step E1.
    pose proof (Hin y ltac:(rewrite E; set_solver)) as [Hy _ _ _ _].
    step (load_rule_ok _ _ _ Hy). step (load_rule_ok _ _ _ Hx).
    rewrite (proj2 (Z.ltb_lt _ _)); [done|]. rewrite E in Ho. by apply (descending_next pre _ _ post).
Qed.

(** The loop from a rule of the chain on: to the first rule where the body returns, or to the end. *)
Lemma rule_list_loop_some {A} s wc f ch (body : nat -> cm (option A)) a s' y post : forall l1 pre fuel,
  chain_ok s wc (f, ch) -> ch = pre ++ l1 ++ y :: post -> (length l1 < fuel)%nat ->
  (forall x, x ∈ l1 -> body x.1 s = Ret (None, s)) -> body y.1 s = Ret (Some a, s') ->
  rule_list_loop fuel body (default O (head (ptrs (l1 ++ [y])))) s = Ret (Some a, s').
Proof.
  induction l1 as [|x l1 IH]; intros pre [|fuel] Hc E Hf Hn Hs; cbn [length] in Hf; [lia| |lia|].
  - cbn [app fmap list_fmap head default from_option id rule_list_loop]. by step Hs.
  - cbn [app fmap list_fmap head default from_option id rule_list_loop].
    step (Hn x (list_elem_of_here _ _)). step (proj1 (next_rule_ok s wc f ch pre x (l1 ++ y :: post) Hc E)).
    assert (fst <$> head (l1 ++ y :: post) = Some (default O (head (ptrs (l1 ++ [y]))))) as -> by (by destruct l1).
    apply (IH (pre ++ [x])); [done|by rewrite <- app_assoc|lia| |done]. intros z Hz. apply Hn. by right.
Qed.

Lemma rule_list_loop_none {A} s wc f ch (body : nat -> cm (option A)) : forall l x pre fuel,
  chain_ok s wc (f, ch) -> ch = pre ++ x :: l -> (length l < fuel)%nat ->
  (forall z, z ∈ x :: l -> body z.1 s = Ret (None, s)) ->
  rule_list_loop fuel body x.1 s = Ret (None, s).
Proof.
  induction l as [|y l IH]; intros x pre [|fuel] Hc E Hf Hn; cbn [length] in Hf; try lia; cbn [rule_list_loop];
    step (Hn x (list_elem_of_here _ _)); step (proj1 (next_rule_ok s wc f ch pre x _ Hc E));
    cbn [head fmap option_fmap option_map]; [done|].
  apply (IH y (pre ++ [x])); [done|by rewrite <- app_assoc|lia|]. intros z Hz. apply Hn. by right.
Qed.

(** There are as many rules as on a chain. *)
Lemma chain_size s wc f ch : chain_ok s wc (f, ch) -> (length ch <= size (rule_heap s))%nat.
Proof.
  intros [Hin _ [Hd _] _]. cbn [snd] in *. rewrite <- (length_fmap fst ch).
  rewrite <- (size_list_to_set (C := gset nat) _ Hd), <- (size_dom (D := gset nat)). apply subseteq_size.
  intros p Hp. rewrite elem_of_list_to_set in Hp. apply list_elem_of_fmap in Hp as (x & -> & Hx).
  rewrite Forall_forall in Hin. destruct (Hin x Hx). by apply elem_of_dom.
Qed.

(** The two ways a loop over a whole chain ends. *)
Lemma for_each_rule_some {A} s wc f (body : nat -> cm (option A)) a s' l1 y post :
  chain_ok s wc (f, l1 ++ y :: post) ->
  (forall x, x ∈ l1 -> body x.1 s = Ret (None, s)) -> body y.1 s = Ret (Some a, s') ->
  for_each_rule_in_list body (head (ptrs (l1 ++ y :: post))) s = Ret (Some a, s').
Proof.
  intros Hc Hn Hs. unfold for_each_rule_in_list.
  assert (head (ptrs (l1 ++ y :: post)) = Some (default O (head (ptrs (l1 ++ [y]))))) as -> by (by destruct l1).
  step_get s. apply (rule_list_loop_some s wc f (l1 ++ y :: post) body a s' y post l1 []); [done|done| |done|done].
  pose proof (chain_size _ _ _ _ Hc) as Hl. rewrite length_app in Hl. cbn [length] in Hl. lia.
Qed.

Lemma for_each_rule_none {A} s wc f ch (body : nat -> cm (option A)) :
  chain_ok s wc (f, ch) -> (forall x, x ∈ ch -> body x.1 s = Ret (None, s)) ->
  for_each_rule_in_list body (head (ptrs ch)) s = Ret (None, s).
Proof.
  intros Hc Hn. unfold for_each_rule_in_list. destruct ch as [|x l]; [done|]. cbn [fmap list_fmap head].
  step_get s. apply (rule_list_loop_none s wc f (x :: l) body l x []); [done|done| |done].
  pose proof (chain_size _ _ _ _ Hc) as Hl. cbn [length] in Hl. lia.
Qed.

Lemma for_each_rule_pure {A} s wc f ch (body : nat -> cm (option A)) (g : prule -> option A) :
  chain_ok s wc (f, ch) -> (forall x, x ∈ ch -> body x.1 s = Ret (g x, s)) ->
  for_each_rule_in_list body (head (ptrs ch)) s = Ret (first_result g ch, s).
Proof.
  intros Hc Hb. destruct (first_result g ch) as [a|] eqn:E.
  - assert (exists l1 y post, ch = l1 ++ y :: post /\ (forall x, x ∈ l1 -> g x = None) /\ g y = Some a) as (l1 & y & post & -> & H1 & H2).
    { clear - E. induction ch as [|x ch IH]; [done|]. unfold first_result in *. cbn in E. destruct (g x) as [b|] eqn:Ex.
      - injection E as ->. exists [], x, ch. split_and!; [done| |done]. by intros ? ?%not_elem_of_nil.
      - destruct (IH E) as (l1 & y & post & -> & H1 & H2). exists (x :: l1), y, post. split_and!; [done| |done].
        intros z [->|Hz]%elem_of_cons; auto. }
    apply (for_each_rule_some s wc f _ a s l1 y post Hc).
    + intros x Hx. rewrite Hb by set_solver. by rewrite H1.
    + rewrite Hb by set_solver. by rewrite H2.
  - apply (for_each_rule_none s wc f ch _ Hc). intros x Hx. rewrite Hb by done. by rewrite (first_result_none _ _ E x Hx).
Qed.

(** *** Exact search *)

Definition same_key (r t : cls_rule) : Prop := r_wc r = r_wc t /\ r_flow r = r_flow t /\ r_priority r = r_priority t.

#[export] Instance same_key_dec r t : Decision (same_key r t).
Proof. apply _. Defined.

Lemma first_exact ch p : descending ch ->
  match first_result (fun x => if priority_of x <=? p then Some (if p =? priority_of x then Some x.1 else None) else None) ch with
  | Some (Some q) => exists r, (q, r) ∈ ch /\ r_priority r = p
  | _ => forall x, x ∈ ch -> priority_of x <> p
  end.
Proof.
  unfold first_result. induction 1 as [|x l Hs IH Hf]; [by intros ? ?%not_elem_of_nil|]. cbn [omap list_omap].
  rewrite Forall_forall in Hf. destruct (Z.leb_spec (priority_of x) p) as [Hle|Hgt].
  - cbn [head]. destruct (Z.eqb_spec p (priority_of x)) as [->|Hne].
    + exists x.2. split; [destruct x; by left|done].
    + intros y [->|Hy]%elem_of_cons; [lia|]. specialize (Hf _ Hy). lia.
  - destruct (head _) as [[q|]|].
    + destruct IH as (r & Hr & E). exists r. split; [by right|done].
    + intros y [->|Hy]%elem_of_cons; [lia|by apply IH].
    + intros y [->|Hy]%elem_of_cons; [lia|by apply IH].
Qed.

Lemma chain_of s wc h cs f p r l : chains_ok s wc h cs -> (f, (p, r) :: l) ∈ cs -> chain_ok s wc (f, (p, r) :: l).
Proof. intros Hr Hc. pose proof (cs_chains _ _ _ _ Hr) as Hall. rewrite Forall_forall in Hall. by apply Hall. Qed.

Lemma contents_place s TS x : cls_rep s TS -> x ∈ contents TS ->
  exists tb h c, tb ∈ TS /\ chains_ok s (tb_wc tb) h (tb_chains tb) /\ c ∈ tb_chains tb /\ x ∈ c.2 /\ in_place s (tb_wc tb) c.1 x.
Proof.
  intros Hr Hx. apply elem_contents in Hx as (tb & Hin & Hx). apply elem_tab_rules in Hx as (c & Hc & Hx).
  destruct (tab_in _ _ _ Hr Hin) as [(h & Hch & _) _ _]. exists tb, h, c. split_and!; [done..|]. by eapply in_chain.
Qed.

(** Tables are told apart by their wildcards. *)
Lemma same_tab s TS tb tb' : cls_rep s TS -> tb ∈ TS -> tb' ∈ TS -> tb_wc tb = tb_wc tb' -> tb = tb'.
Proof.
  intros Hr Hc Hd E. pose proof (cr_wcs _ _ Hr) as Hn.
  apply list_elem_of_lookup in Hc as [i Hi]. apply list_elem_of_lookup in Hd as [j Hj].
  assert (i = j) as <-; [|congruence]. eapply (NoDup_lookup _ i j (tb_wc tb) Hn).
  - by rewrite list_lookup_fmap, Hi.
  - rewrite list_lookup_fmap, Hj. cbn. by rewrite E.
Qed.

(** Where a rule with the key of [t] would be. *)
Lemma place_of_key s TS tb h c x t :
  cls_rep s TS -> tb ∈ TS -> chains_ok s (tb_wc tb) h (tb_chains tb) -> c ∈ tb_chains tb ->
  tb_wc tb = r_wc t -> c.1 = r_flow t -> x ∈ contents TS -> r_wc x.2 = r_wc t -> r_flow x.2 = r_flow t -> x ∈ c.2.
Proof.
  intros Hr Hin Hch Hc Ew Ef Hx Hxw Hxf. destruct (contents_place s TS x Hr Hx) as (tb' & h' & c' & Hin' & Hch' & Hc' & Hxc & [_ _ E1 E2 _]).
  assert (tb' = tb) as -> by (apply (same_tab s TS); [done..|]; congruence).
  assert (c' = c) as -> by (apply (same_chain s (tb_wc tb) h' (tb_chains tb)); [done..|]; congruence). done.
Qed.

Definition finds (t : cls_rule) (L : list prule) (res : option nat) : Prop :=
  match res with
  | Some p => exists r, (p, r) ∈ L /\ same_key r t
  | None => forall x, x ∈ L -> ~ same_key x.2 t
  end.

Lemma find_rule_exactly_ok s TS t : cls_rep s TS -> rule_ok t ->
  exists res, classifier_find_rule_exactly t s = Ret (res, s) /\ finds t (contents TS) res.
Proof.
  intros Hr Ht. unfold classifier_find_rule_exactly.
  destruct (find_table_ok s TS (r_wc t) Hr (ro_wc _ Ht)) as (res & E & Hres). step E. destruct res as [p|].
  2: { exists None. split; [done|]. intros x Hx (Ew & _). apply Hres.
       destruct (contents_place s TS x Hr Hx) as (tb & _ & _ & Hin & _ & _ & _ & [_ _ E1 _ _]). rewrite <- Ew, E1.
       by apply list_elem_of_fmap_2. }
  destruct Hres as (tb & Hin & <- & Ew). destruct (tab_in _ _ _ Hr Hin) as [(h & Hch & Et) _ _].
  destruct (find_equal_ok s _ _ (r_flow t) _ _ Et Hch (ro_flow _ Ht)) as (hd & E2 & Hh). step E2. destruct hd as [q|].
  2: { exists None. split; [done|]. intros x Hx (E1 & E3 & _). apply Hh.
       destruct (contents_place s TS x Hr Hx) as (tb' & h' & c' & Hin' & Hch' & Hc' & Hxc & [_ _ E4 E5 _]).
       rewrite <- E3, E5, <- (same_tab s TS tb' tb Hr Hin' Hin ltac:(congruence)). by apply list_elem_of_fmap_2. }
  destruct Hh as (r & l & Hc). pose proof (chain_of _ _ _ _ _ _ _ _ Hch Hc) as Hok.
  pose proof (for_each_rule_pure s _ _ _ (fun p => r ← load_rule p;
        mret (if r_priority r <=? r_priority t then Some (if r_priority t =? r_priority r then Some p else None) else None))
    (fun x => if priority_of x <=? r_priority t then Some (if r_priority t =? priority_of x then Some x.1 else None) else None) Hok) as Hl.
  cbn [fmap list_fmap head fst] in Hl. assert (forall x, x ∈ (q, r) :: l -> rule_heap s !! x.1 = Some x.2) as Hh.
  { intros x Hx. by destruct (in_chain _ _ _ _ _ _ Hch Hc Hx). }
  specialize (Hl (fun x Hx => cstate_bind_step _ _ _ _ _ (load_rule_ok _ _ _ (Hh x Hx)))). step Hl.
  eexists. split; [done|]. pose proof (first_exact _ (r_priority t) (ck_order _ _ _ Hok)) as Hx.
  assert (forall x, x ∈ contents TS -> same_key x.2 t -> x ∈ (q, r) :: l /\ priority_of x = r_priority t) as Hkey.
  { intros x Hxin (K1 & K2 & K3). split; [|done].
    by apply (place_of_key s TS tb h (r_flow t, (q, r) :: l) x t Hr Hin Hch Hc). }
  cbn [snd] in Hx. destruct (first_result _ _) as [[z|]|].
  - destruct Hx as (rz & Hz & Ez). exists rz. split.
    + apply elem_contents. exists tb. split; [done|]. apply elem_tab_rules. eexists. by split.
    + destruct (in_chain _ _ _ _ _ (z, rz) Hch Hc Hz) as [_ _ E7 E8 _]. cbn in *. repeat split; congruence.
  - intros x Hxin Hk. destruct (Hkey x Hxin Hk) as [H1 H2]. by apply (Hx x).
  - intros x Hxin Hk. destruct (Hkey x Hxin Hk) as [H1 H2]. by apply (Hx x).
Qed.

(** *** Overlap *)

Lemma until_some_read {S A} (body : nat -> cstate S (option A)) ns s :
  (forall x, x ∈ ns -> exists r, body (node_ptr x) s = Ret (r, s)) ->
  exists r, until_some body ns s = Ret (r, s)
    /\ match r with
       | Some a => exists x, x ∈ ns /\ body (node_ptr x) s = Ret (Some a, s)
       | None => forall x, x ∈ ns -> body (node_ptr x) s = Ret (None, s)
       end.
Proof.
  induction ns as [|x ns IH]; intros H; cbn [until_some].
  - exists None. split; [done|]. by intros ? ?%not_elem_of_nil.
  - destruct (H x (list_elem_of_here _ _)) as (r & E). step E. destruct r as [a|].
    + exists (Some a). split; [done|]. exists x. split; [by left|done].
    + destruct IH as (r & E' & Hr); [intros y Hy; apply H; by right|]. exists r. split; [done|]. destruct r as [a|].
      * destruct Hr as (y & Hy & Ey). exists y. split; [by right|done].
      * intros y [->|Hy]%elem_of_cons; [done|by apply Hr].
Qed.

Definition overlaps (t : cls_rule) (x : prule) : Prop :=
  priority_of x = r_priority t /\ exists f, flow_ok f /\ hits t f /\ hits x.2 f.

Section overlap.
Context (z : Z) (t : cls_rule) (Ht : rule_ok t).

Let test (wc : flow_wildcards) (r : cls_rule) : bool :=
  (r_priority r =? r_priority t) && flow_equal_except (r_flow t) (r_flow r) (flow_wildcards_combine z (r_wc t) wc).

Let test_rules (wc : flow_wildcards) (head : nat) : cm (option unit) :=
  for_each_rule_in_list (fun p => r ← load_rule p; mret (if test wc r then Some tt else None)) (Some head).

Let test_heads (p : nat) : cm (option unit) :=
  x ← load_table p; heads ← lift (all_nodes (ct_rules x)); until_some (test_rules (ct_wc x)) heads.

Lemma test_ok s wc f x : in_place s wc f x -> test wc x.2 = true <-> overlaps t x.
Proof.
  intros [_ H2 <- _ _]. unfold test, overlaps. rewrite andb_true_iff, Z.eqb_eq, (overlap_words z t x.2 Ht H2). done.
Qed.

Lemma test_rules_ok s wc f p r l : chain_ok s wc (f, (p, r) :: l) ->
  exists res, test_rules wc p s = Ret (res, s)
    /\ match res with Some _ => exists x, x ∈ (p, r) :: l /\ overlaps t x | None => forall x, x ∈ (p, r) :: l -> ~ overlaps t x end.
Proof.
  intros Hc. pose proof (ck_rules _ _ _ Hc) as Hf. rewrite Forall_forall in Hf. cbn [fst snd] in Hf.
  pose proof (for_each_rule_pure s wc f _ (fun p => r ← load_rule p; mret (if test wc r then Some tt else None))
    (fun x => if test wc x.2 then Some tt else None) Hc) as Hl.
  specialize (Hl (fun x Hx => cstate_bind_step _ _ _ _ _ (load_rule_ok _ _ _ (ip_heap _ _ _ _ (Hf x Hx))))).
  eexists. split; [exact Hl|]. destruct (first_result _ _) as [u|] eqn:E.
  - apply first_result_some in E as (x & Hx & E). exists x. split; [done|]. apply (test_ok s wc f x (Hf x Hx)).
    by destruct (test wc x.2).
  - intros x Hx Ho. apply (test_ok s wc f x (Hf x Hx)) in Ho. pose proof (first_result_none _ _ E x Hx) as En. cbv beta in En.
    by rewrite Ho in En.
Qed.

Lemma test_heads_ok s tb : tab_ok s tb ->
  exists res, test_heads (tb_ptr tb) s = Ret (res, s)
    /\ match res with Some _ => exists x, x ∈ tab_rules tb /\ overlaps t x | None => forall x, x ∈ tab_rules tb -> ~ overlaps t x end.
Proof.
  intros [(h & Hch & Et) Hw Hn]. unfold test_heads. step (load_table_ok _ _ _ Et). cbn [ct_rules ct_wc].
  destruct (all_nodes_ok _ _ (cs_map _ _ _ _ Hch)) as (ns & E & -> & _). step (lift_ok _ s _ E).
  destruct (until_some_read (test_rules (tb_wc tb)) (nodes h) s) as (res & Er & Hres).
  { intros x Hx. destruct (node_chain _ _ _ _ _ Hch Hx) as (f & p & r & l & Hc & -> & _ & Hok).
    destruct (test_rules_ok _ _ _ _ _ _ Hok) as (res & E1 & _). by exists res. }
  exists res. split; [exact Er|]. destruct res as [u|].
  - destruct Hres as (x & Hx & E1). destruct (node_chain _ _ _ _ _ Hch Hx) as (f & p & r & l & Hc & -> & _ & Hok).
    destruct (test_rules_ok _ _ _ _ _ _ Hok) as (res & E2 & Hr). cbn [node_ptr] in E1. rewrite E1 in E2. injection E2 as <-.
    destruct Hr as (y & Hy & Ho). exists y. split; [|done]. apply elem_tab_rules. eexists. by split.
  - intros y Hy Ho. apply elem_tab_rules in Hy as ([f ch] & Hc & Hy).
    pose proof (cs_chains _ _ _ _ Hch) as Hall. rewrite Forall_forall in Hall. pose proof (Hall _ Hc) as Hok.
    destruct (chain_head _ _ _ Hok) as (p & r & l & E1 & _). cbn [snd] in *. subst ch.
    pose proof (Hres _ (chain_node_in _ _ _ _ _ _ _ _ Hch Hc)) as E2. cbn [node_ptr] in E2.
    destruct (test_rules_ok _ _ _ _ _ _ Hok) as (res & E3 & Hr). rewrite E2 in E3. injection E3 as <-. by apply (Hr y).
Qed.

Lemma rule_overlaps_ok s TS : cls_rep s TS ->
  exists b, classifier_rule_overlaps z t s = Ret (b, s) /\ (b = true <-> exists x, x ∈ contents TS /\ overlaps t x).
Proof.
  intros Hr. destruct (tables_nodes s TS Hr) as (ts & Hts & _ & E).
  unfold classifier_rule_overlaps. step_get s. step (lift_ok _ s _ E).
  destruct (until_some_read test_heads (tab_node <$> ts) s) as (res & Er & Hres).
  { intros x Hx. apply list_elem_of_fmap in Hx as (tb & -> & Hx). rewrite Hts in Hx.
    destruct (test_heads_ok s tb (tab_in _ _ _ Hr Hx)) as (res & E1 & _). by exists res. }
  change (until_some _ (tab_node <$> ts)) with (until_some test_heads (tab_node <$> ts)). step Er. eexists. split; [done|].
  destruct res as [u|]; (split; [|done || intros (y & Hy & Ho)]).
  - intros _. destruct Hres as (x & Hx & E1). apply list_elem_of_fmap in Hx as (tb & -> & Hx). rewrite Hts in Hx.
    destruct (test_heads_ok s tb (tab_in _ _ _ Hr Hx)) as (res & E2 & Ho). cbn [tab_node node_ptr] in E1.
    rewrite E1 in E2. injection E2 as <-. destruct Ho as (y & Hy & Ho). exists y. split; [|done]. apply elem_contents. by exists tb.
  - done.
  - apply elem_contents in Hy as (tb & Hx & Hy). pose proof Hx as Hx'. rewrite <- Hts in Hx'.
    pose proof (Hres _ (list_elem_of_fmap_2 tab_node _ _ Hx')) as E1.
    destruct (test_heads_ok s tb (tab_in _ _ _ Hr Hx)) as (res & E2 & Hno). cbn [tab_node node_ptr] in E1.
    rewrite E1 in E2. injection E2 as <-. by destruct (Hno y Hy).
Qed.
End overlap.
