(* ===== verification/ClsCursor.v ===== *)
(** * Iteration over a classifier (lib/classifier.c, the cls_cursor functions)

    A cursor goes through the tables in the order of their hash map, in a table through the
    rings in the order of its hash map, and along each ring.  [layout] is the classifier in
    that order; a walk from any rule on is what comes after it there. *)
From S2P Require Import Prelude Hash Hmap DList Flow ClsRule Classifier.

Local Open Scope Z_scope.

(** ** The order of the iteration *)

(** A table with its rings in the order of its hash map. *)
Abbreviation laid := (tab * list chain)%type.

Definition laid_ok (s : cls_state) (x : laid) : Prop :=
  wc_ok (tb_wc x.1) /\ x.2 ≡ₚ tb_chains x.1
  /\ exists h, chains_ok s (tb_wc x.1) h (tb_chains x.1) /\ nodes h = chain_node <$> x.2
     /\ exists n b, table_heap s !! tb_ptr x.1 = Some (MkTable (flow_wildcards_hash (tb_wc x.1) 0) h (tb_wc x.1) n b).

Record layout (s : cls_state) (TS : list tab) (T : list laid) : Prop := {
  ly_tabs : T.*1 ≡ₚ TS;
  ly_nodes : nodes (tables s) = tab_node <$> T.*1;
  ly_ok : Forall (laid_ok s) T
}.

Lemma layout_exists s TS : cls_rep s TS -> exists T, layout s TS T.
Proof.
  intros Hr. destruct (tables_nodes s TS Hr) as (ts & Hts & En & _).
  assert (forall us, us ⊆ TS -> exists T, T.*1 = us /\ Forall (laid_ok s) T) as H.
  { induction us as [|tb us IH]; intros Hus; [by exists []|].
    destruct IH as (T & E & Hf); [set_solver|]. destruct (tab_in s TS tb Hr ltac:(set_solver)) as [(h & Hch & Et) Hw _].
    destruct (all_nodes_ok _ _ (cs_map _ _ _ _ Hch)) as (ns & _ & -> & Hp).
    apply Permutation_map_inv in Hp as (hs & Ehs & Hp). exists ((tb, hs) :: T). cbn [fmap list_fmap fst]. rewrite E.
    split; [done|]. constructor; [|done]. split; [done|]. cbn [fst snd]. split; [by symmetry|].
    exists h. split_and!; [done|done|]. by eexists _, _. }
  destruct (H ts) as (T & E & Hf); [intros x; by rewrite Hts|]. exists T. split; [by rewrite E|by rewrite E|done].
Qed.

Section walk.
Context (s : cls_state) (TS : list tab) (T : list laid) (Hr : cls_rep s TS) (Hl : layout s TS T).
Context (target : option cls_rule).

(** What the code tests on a table and on the rule at the head of a ring. *)
Definition searched (wc : flow_wildcards) : bool :=
  match target with None => true | Some c => negb (flow_wildcards_has_extra wc (r_wc c)) end.

Definition matching (c : chain) : bool :=
  match target with None => true | Some t => flow_equal_except c.1 (r_flow t) (r_wc t) end.

Definition seen_chain (c : chain) : list prule := if matching c then c.2 else [].
Definition seen_table (x : laid) : list prule := if searched (tb_wc x.1) then concat (seen_chain <$> x.2) else [].

Lemma laid_in x : x ∈ T -> laid_ok s x.
Proof. intros Hx. pose proof (ly_ok _ _ _ Hl) as Hf. rewrite Forall_forall in Hf. by apply Hf. Qed.

Lemma laid_chain x h c : laid_ok s x -> chains_ok s (tb_wc x.1) h (tb_chains x.1) -> c ∈ x.2 ->
  chain_ok s (tb_wc x.1) c /\ c ∈ tb_chains x.1.
Proof.
  intros (_ & Hp & _) Hch Hc. rewrite Hp in Hc. split; [|done].
  pose proof (cs_chains _ _ _ _ Hch) as Hf. rewrite Forall_forall in Hf. by apply Hf.
Qed.

(** The search among heads stops at the first ring that matches. *)
Lemma search_heads_ok x hs : laid_ok s x -> hs ⊆ x.2 ->
  exists res, until_some (fun p => r ← load_rule p; mret (if rule_matches r target then Some p else None)) (chain_node <$> hs) s = Ret (res, s)
    /\ match res with
       | None => concat (seen_chain <$> hs) = []
       | Some p => exists h1 c h2, hs = h1 ++ c :: h2 /\ head (ptrs c.2) = Some p
                    /\ concat (seen_chain <$> hs) = c.2 ++ concat (seen_chain <$> h2)
       end.
Proof.
  intros Hx. pose proof Hx as (_ & _ & h & Hch & _). induction hs as [|c hs IH]; intros Hs; [by exists None|].
  destruct IH as (res & E & Hres); [set_solver|]. cbn [fmap list_fmap until_some concat].
  destruct (laid_chain x h c Hx Hch ltac:(set_solver)) as [Hc _].
  destruct (chain_head _ _ _ Hc) as (p & r & l & Ec & [E1 E2 _ E4 _]). cbn [fst snd] in E1, E2, E4.
  assert (node_ptr (chain_node c) = p) as Ep by (unfold chain_node; by rewrite Ec). rewrite Ep.
  assert ((r ← load_rule p; mret (if rule_matches r target then Some p else None)) s
          = Ret (if matching c then Some p else None, s)) as Eb.
  { step (load_rule_ok _ _ _ E1). unfold mret, cstate_ret. do 2 f_equal. unfold rule_matches, matching. rewrite E4. by destruct target. }
  step Eb. replace (seen_chain c) with (if matching c then c.2 else []) by done. destruct (matching c) eqn:Em.
  - exists (Some p). split; [done|]. exists [], c, hs. split_and!; [done|by rewrite Ec|done].
  - exists res. split; [exact E|]. destruct res as [q|]; [|done].
    destruct Hres as (h1 & d & h2 & -> & Hq & Hcat). exists (c :: h1), d, h2. by split_and!.
Qed.

Lemma search_table_ok x : laid_ok s x ->
  exists res, search_table (tb_ptr x.1) target s = Ret (res, s)
    /\ match res with
       | None => seen_table x = []
       | Some p => exists h1 c h2, x.2 = h1 ++ c :: h2 /\ head (ptrs c.2) = Some p
                    /\ seen_table x = c.2 ++ concat (seen_chain <$> h2)
       end.
Proof.
  intros Hx. pose proof Hx as (_ & _ & h & Hch & En & n & b & Et). unfold search_table.
  step (load_table_ok _ _ _ Et). cbn [ct_wc ct_rules]. unfold seen_table. fold (searched (tb_wc x.1)).
  destruct (searched (tb_wc x.1)); [|by exists None].
  destruct (all_nodes_ok _ _ (cs_map _ _ _ _ Hch)) as (ns & E & -> & _). step (lift_ok _ s _ E). rewrite En.
  by apply (search_heads_ok x).
Qed.

(** And among tables. *)
Lemma search_tables_ok cur U : U ⊆ T -> cc_target cur = target ->
  exists res cur', search_tables cur (tab_node <$> U.*1) s = Ret (res, cur', s) /\ cc_target cur' = target
    /\ match res with
       | None => concat (seen_table <$> U) = []
       | Some p => exists U1 x U2 h1 c h2, U = U1 ++ x :: U2 /\ x.2 = h1 ++ c :: h2 /\ cc_table cur' = tb_ptr x.1
                    /\ head (ptrs c.2) = Some p
                    /\ concat (seen_table <$> U) = c.2 ++ concat (seen_chain <$> h2) ++ concat (seen_table <$> U2)
       end.
Proof.
  intros HU Hcur. unfold search_tables. rewrite Hcur.
  assert (exists res, until_some (fun t => rule ← search_table t target; mret (pair t <$> rule)) (tab_node <$> U.*1) s = Ret (res, s)
    /\ match res with
       | None => concat (seen_table <$> U) = []
       | Some (t, p) => exists U1 x U2 h1 c h2, U = U1 ++ x :: U2 /\ x.2 = h1 ++ c :: h2 /\ t = tb_ptr x.1
                    /\ head (ptrs c.2) = Some p
                    /\ concat (seen_table <$> U) = c.2 ++ concat (seen_chain <$> h2) ++ concat (seen_table <$> U2)
       end) as (res & E & Hres).
  { induction U as [|x U IH]; [by exists None|]. destruct IH as (res & E & Hres); [set_solver|].
    cbn [fmap list_fmap until_some concat tab_node node_ptr].
    destruct (search_table_ok x (laid_in x ltac:(set_solver))) as (r & Er & Hs).
    assert ((rule ← search_table (tb_ptr x.1) target; mret (pair (tb_ptr x.1) <$> rule)) s
            = Ret (pair (tb_ptr x.1) <$> r, s)) as Eb by (by step Er). step Eb. destruct r as [p|]; cbn [fmap option_fmap option_map].
    - exists (Some (tb_ptr x.1, p)). split; [done|]. destruct Hs as (h1 & c & h2 & E1 & E2 & E3).
      exists [], x, U, h1, c, h2. rewrite E3, <- app_assoc. by split_and!.
    - exists res. split; [exact E|]. rewrite Hs. destruct res as [[t p]|]; [|done].
      destruct Hres as (U1 & y & U2 & h1 & c & h2 & -> & ?). by exists (x :: U1), y, U2, h1, c, h2. }
  step E. destruct res as [[t p]|].
  - exists (Some p), (MkCursor t target). split_and!; [done..|]. exact Hres.
  - exists None, cur. by split_and!.
Qed.

(** ** The walk *)

(** What is left after rule [y] of a ring. *)
Definition rest_after (post : list prule) (h2 : list chain) (U : list laid) : list prule :=
  post ++ concat (seen_chain <$> h2) ++ concat (seen_table <$> U).

(** The cursor is at rule [y]: the place in the layout, and what is left. *)
Definition cursor_at (cur : cls_cursor) (y : prule) (rest : list prule) : Prop :=
  cc_target cur = target
  /\ exists T1 x T2 h1 f pre post h2, T = T1 ++ x :: T2 /\ cc_table cur = tb_ptr x.1
       /\ x.2 = h1 ++ (f, pre ++ y :: post) :: h2 /\ rest = rest_after post h2 T2.

(** The cursor at the head of a ring. *)
Lemma cursor_at_head cur T1 x T2 h1 c h2 p : T = T1 ++ x :: T2 -> x.2 = h1 ++ c :: h2 -> cc_table cur = tb_ptr x.1 ->
  cc_target cur = target -> head (ptrs c.2) = Some p ->
  exists r l, c.2 = (p, r) :: l /\ cursor_at cur (p, r) (rest_after l h2 T2).
Proof.
  intros HT Hx Ht' Hc Hp. destruct c as [f ch]. cbn [snd] in *. destruct ch as [|[q r] l]; [done|]. injection Hp as ->.
  exists r, l. split; [done|]. split; [done|]. by exists T1, x, T2, h1, f, [], l, h2.
Qed.

(** A position for the head of what is left. *)
Definition advanced (cur : cls_cursor) (res : option nat) (rest : list prule) : Prop :=
  match res with
  | None => rest = []
  | Some p => exists r rest', rest = (p, r) :: rest' /\ cursor_at cur (p, r) rest'
  end.

Lemma search_advances cur T1 U : T = T1 ++ U -> cc_target cur = target ->
  exists res cur', search_tables cur (tab_node <$> U.*1) s = Ret (res, cur', s)
    /\ advanced cur' res (concat (seen_table <$> U)).
Proof.
  intros HT Hc. destruct (search_tables_ok cur U) as (res & cur' & E & Hc' & Hres); [set_solver|done|].
  exists res, cur'. split; [done|]. destruct res as [p|]; [|done].
  destruct Hres as (U1 & x & U2 & h1 & c & h2 & -> & Ex & Et & Hp & Ec).
  destruct (cursor_at_head cur' (T1 ++ U1) x U2 h1 c h2 p) as (r & l & El & Hat); [by rewrite <- app_assoc|done..|].
  exists r, (rest_after l h2 U2). split; [|done]. by rewrite Ec, El.
Qed.

Lemma cursor_next_ok cur y rest : cursor_at cur y rest ->
  exists res cur', cls_cursor_next cur y.1 s = Ret (res, cur', s) /\ advanced cur' res rest.
Proof.
  intros (Hc & T1 & x & T2 & h1 & f & pre & post & h2 & HT & Et & Ex & ->).
  pose proof (laid_in x ltac:(rewrite HT; set_solver)) as Hx. pose proof Hx as (_ & _ & h & Hch & En & nr & b & Eh).
  destruct (laid_chain x h (f, pre ++ y :: post) Hx Hch ltac:(rewrite Ex; set_solver)) as [Hok _].
  pose proof (ck_rules _ _ _ Hok) as Hin. rewrite Forall_forall in Hin. cbn [fst snd] in Hin.
  pose proof (Hin y ltac:(set_solver)) as [Ey _ _ _ _].
  destruct (next_rule_ok s _ f _ pre y post Hok eq_refl) as [_ E1].
  unfold cls_cursor_next. step E1. destruct post as [|z post].
  - destruct (chain_head _ _ _ Hok) as (p & r & l & Ec & Hp). cbn [fst snd] in Ec, Hp. rewrite Ec.
    cbn [fmap list_fmap head default from_option id fst]. step (load_rule_ok _ _ _ (ip_heap _ _ _ _ Hp)).
    step (load_rule_ok _ _ _ Ey). cbn [snd].
    rewrite (proj2 (Z.ltb_ge (r_priority r) (r_priority y.2))).
    2: { apply (descending_head (p, r) l y); [rewrite <- Ec; apply (ck_order _ _ _ Hok)|rewrite <- Ec; set_solver]. }
    rewrite Et. step (load_table_ok _ _ _ Eh). cbn [ct_rules ct_hash].
    pose proof (cs_map _ _ _ _ Hch) as Hm.
    assert (for_each_continue h (Z.to_nat (hn h)) (rule_node p r) = Ret (chain_node <$> h2)) as E2.
    { assert (rule_node p r = chain_node (f, pre ++ [y])) as Enode.
      { unfold rule_node, chain_node. cbn [fst snd]. rewrite Ec. f_equal. apply (ip_hash _ _ _ _ Hp). }
      rewrite Ex in En. apply (for_each_continue_ok h _ _ (chain_node <$> h1)).
      - apply Hm.
      - rewrite (hr_nodes _ _ Hm). apply Hm.
      - by rewrite En, fmap_app, Enode.
      - rewrite (ho_n _ (hr_ok _ _ Hm)), En, !length_fmap, length_app. cbn [length]. lia. }
    step (lift_ok _ s _ E2). rewrite Hc. destruct (search_heads_ok x h2 Hx) as (res & E3 & Hres); [rewrite Ex; set_solver|].
    step E3. unfold rest_after. cbn [app]. destruct res as [q|].
    + exists (Some q), cur. split; [done|]. destruct Hres as (h3 & c & h4 & -> & Hq & ->).
      destruct (cursor_at_head cur T1 x T2 (h1 ++ (f, pre ++ [y]) :: h3) c h4 q) as (r' & l' & El & Hat);
        [done|by rewrite Ex, <- app_assoc|done..|].
      exists r', (rest_after l' h4 T2). split; [|done]. unfold rest_after. by rewrite El, <- !app_assoc.
    + rewrite Hres. step_get s. pose proof (cr_map _ _ Hr) as Hm'. pose proof (ly_nodes _ _ _ Hl) as En'.
      assert (for_each_continue (tables s) (Z.to_nat (hn (tables s))) (MkNode (flow_wildcards_hash (tb_wc x.1) 0) (tb_ptr x.1))
              = Ret (tab_node <$> T2.*1)) as E4.
      { rewrite HT, !fmap_app in En'. apply (for_each_continue_ok _ _ _ (tab_node <$> T1.*1)); [apply Hm'| |exact En'|].
        - rewrite (hr_nodes _ _ Hm'). apply Hm'.
        - rewrite (ho_n _ (hr_ok _ _ Hm')), En', length_app. cbn [length fmap list_fmap]. lia. }
      step (lift_ok _ s _ E4). apply (search_advances cur (T1 ++ [x])); [by rewrite <- app_assoc|done].
  - pose proof (Hin z ltac:(set_solver)) as [Ez _ _ _ _]. step (load_rule_ok _ _ _ Ez). step (load_rule_ok _ _ _ Ey).
    rewrite (proj2 (Z.ltb_lt _ _)).
    + exists (Some z.1), cur. split; [done|]. exists z.2, (rest_after post h2 T2). split; [by destruct z|]. split; [done|].
      exists T1, x, T2, h1, f, (pre ++ [y]), post, h2. split_and!; [done..| |done]. by destruct z; rewrite <- app_assoc.
    + by apply (descending_next pre _ _ post (ck_order _ _ _ Hok)).
Qed.

Lemma cursor_visit_ok fuel : forall cur res rest, advanced cur res rest -> (length rest <= fuel)%nat ->
  cursor_visit fuel res cur s = Ret (ptrs rest, s).
Proof.
  induction fuel as [|n IH]; intros cur res rest Ha Hf.
  - destruct rest; [|cbn [length] in Hf; lia]. by destruct res as [p|].
  - destruct res as [p|]; cbn [advanced] in Ha; [|by subst].
    destruct Ha as (r & rest' & -> & Hat). cbn [length] in Hf. cbn [cursor_visit].
    destruct (cursor_next_ok cur (p, r) rest' Hat) as (res' & cur' & E & Ha'). cbn [fst] in E. step E.
    step (IH cur' res' rest' Ha' ltac:(lia)). done.
Qed.

Lemma cursor_for_each_ok fuel cur : cc_target cur = target -> (length (concat (seen_table <$> T)) <= fuel)%nat ->
  cursor_for_each fuel cur s = Ret (ptrs (concat (seen_table <$> T)), s).
Proof.
  intros Hc Hf. unfold cursor_for_each, cls_cursor_first.
  destruct (all_nodes_ok _ _ (cr_map _ _ Hr)) as (ns & E & -> & _). rewrite (ly_nodes _ _ _ Hl) in E.
  destruct (search_advances cur [] T eq_refl Hc) as (res & cur' & E1 & Ha).
  assert ((s ← get; ns ← lift (all_nodes (tables s)); search_tables cur ns) s = Ret (res, cur', s)) as E2.
  { step_get s. by step (lift_ok _ s _ E). }
  step E2. by apply cursor_visit_ok.
Qed.

(** ** What is visited *)

(** The rules that the comment of cls_cursor_init promises. *)
Definition wanted (x : prule) : Prop :=
  match target with None => True | Some t => cls_rule_is_loose_match x.2 t = true end.

#[local] Instance wanted_dec x : Decision (wanted x).
Proof. unfold wanted. destruct target; apply _. Defined.

Lemma wanted_in_place wc c x : in_place s wc c.1 x -> wanted x <-> searched wc && matching c = true.
Proof. intros [_ _ E1 E2 _]. unfold wanted, searched, matching, cls_rule_is_loose_match. rewrite E1, <- E2. by destruct target. Qed.

Lemma seen_table_filter x : laid_ok s x -> seen_table x = filter wanted (concat (snd <$> x.2)).
Proof.
  intros Hx. pose proof Hx as (_ & _ & h & Hch & _).
  assert (forall c y, c ∈ x.2 -> y ∈ c.2 -> wanted y <-> searched (tb_wc x.1) && matching c = true) as Hw.
  { intros c y Hc Hy. apply wanted_in_place. destruct (laid_chain x h c Hx Hch Hc) as [_ Hc']. by eapply in_chain. }
  unfold seen_table. destruct (searched (tb_wc x.1)).
  - apply filter_concat. intros c Hc. unfold seen_chain. specialize (Hw c). destruct (matching c).
    + symmetry. apply filter_all_in. intros y Hy. by apply Hw.
    + symmetry. apply filter_none. intros y Hy H. by apply Hw in H.
  - symmetry. apply filter_none. intros y (c & Hc & Hy)%elem_concat H. by apply (Hw c y) in H.
Qed.

Lemma seen_ok : concat (seen_table <$> T) ≡ₚ filter wanted (contents TS).
Proof.
  rewrite (filter_concat wanted seen_table (fun x => concat (snd <$> x.2))) by (intros; by apply seen_table_filter, laid_in).
  assert (concat ((fun x : laid => concat (snd <$> x.2)) <$> T) ≡ₚ contents TS) as <-; [|done].
  rewrite <- (contents_perm _ _ (ly_tabs _ _ _ Hl)). pose proof (ly_ok _ _ _ Hl) as Hf. clear - Hf.
  unfold contents. induction Hf as [|x T (_ & Hp & _) _ IH]; [done|]. cbn [fmap list_fmap concat]. rewrite IH.
  unfold tab_rules. by rewrite Hp.
Qed.
End walk.

Lemma contents_nodup s TS : cls_rep s TS -> NoDup (contents TS).
Proof. intros Hr. eapply NoDup_fmap_1, Hr. Qed.

(** The loop over a cursor visits the wanted rules, each once. *)
Lemma cursor_visits s TS target cur fuel : cls_rep s TS -> (length (contents TS) <= fuel)%nat ->
  exists l, cursor_for_each fuel (cls_cursor_init cur target) s = Ret (ptrs l, s) /\ NoDup l
    /\ forall x, x ∈ l <-> x ∈ contents TS /\ wanted target x.
Proof.
  intros Hr Hf. destruct (layout_exists s TS Hr) as (T & Hl).
  pose proof (seen_ok s TS T Hl target) as Hp. exists (concat (seen_table target <$> T)). split.
  - apply (cursor_for_each_ok s TS T Hr Hl target fuel); [done|]. rewrite Hp. etrans; [apply length_filter|done].
  - split; [rewrite Hp; by apply NoDup_filter, (contents_nodup s)|]. intros x. rewrite Hp, list_elem_of_filter. tauto.
Qed.
