(* ===== verification/ClsUpdate.v ===== *)
(** * Changing a classifier (lib/classifier.c: insertion, replacement, removal, destruction)

    What the functions do to a ring, then to a table, then to the classifier, in terms of the
    representation of Classifier.v; and the properties of the classifier. *)
From Stdlib Require Import Sorted.
From S2P Require Import Prelude Hash Hmap DList Flow ClsRule Classifier.

Local Open Scope Z_scope.

#[local] Opaque flow_hash flow_wildcards_hash flow_equal flow_wildcards_equal flow_wildcards_is_catchall.

(** ** Frames *)

(** Nothing about the rules [qs] changes. *)
Definition same_for (s s' : cls_state) (qs : list nat) : Prop :=
  forall q, q ∈ qs -> rule_heap s' !! q = rule_heap s !! q /\ link_heap s' !! q = link_heap s !! q.

Lemma in_place_frame s s' qs wc f x : same_for s s' qs -> x.1 ∈ qs -> in_place s wc f x -> in_place s' wc f x.
Proof. intros H Hx [H1 H2 H3 H4 H5]. split; try done. by rewrite (proj1 (H _ Hx)). Qed.

Lemma chain_frame s s' wc c : same_for s s' (ptrs c.2) -> chain_ok s wc c -> chain_ok s' wc c.
Proof.
  intros H [H1 H2 [H3 H4] H5]. split; [|done| |done].
  - rewrite Forall_forall in *. intros x Hx. eapply in_place_frame; [done|by apply list_elem_of_fmap_2|by apply H1].
  - split; [done|]. eapply dseg_frame; [|done]. intros q Hq. by apply H.
Qed.

Lemma chains_frame s s' wc cs : same_for s s' (ptrs (concat (snd <$> cs))) -> Forall (chain_ok s wc) cs -> Forall (chain_ok s' wc) cs.
Proof.
  intros H Hf. rewrite Forall_forall in *. intros c Hc. eapply chain_frame; [|by apply Hf].
  intros q Hq. apply H. apply list_elem_of_fmap in Hq as (x & -> & Hx). apply list_elem_of_fmap_2, elem_concat. by exists c.
Qed.

Lemma tab_frame s s' tb : same_for s s' (ptrs (tab_rules tb)) -> table_heap s' !! tb_ptr tb = table_heap s !! tb_ptr tb ->
  tab_ok s tb -> tab_ok s' tb.
Proof.
  intros H Ht [(h & [H1 H2 H3] & Et) Hw Hn]. split; [|done|done]. exists h. split; [|by rewrite Ht]. split; [done| |done].
  by eapply chains_frame.
Qed.

(** ** A ring and a new rule *)

(** The place of a rule in a ring, and the rule of the same priority that it replaces. *)
Fixpoint chain_put (x : prule) (ch : list prule) : list prule :=
  match ch with
  | [] => [x]
  | y :: ch' =>
      if priority_of y <=? priority_of x
      then x :: (if priority_of x =? priority_of y then ch' else y :: ch')
      else y :: chain_put x ch'
  end.

Definition replaced (x : prule) (ch : list prule) : option nat := fst <$> head (filter (fun y => priority_of y = priority_of x) ch).

(** The two outcomes of the scan. *)
Lemma chain_put_split x ch : descending ch ->
  (exists l1 y l2, ch = l1 ++ y :: l2 /\ (forall z, z ∈ l1 -> priority_of x < priority_of z) /\ priority_of y <= priority_of x
     /\ chain_put x ch = l1 ++ x :: (if priority_of x =? priority_of y then l2 else y :: l2)
     /\ replaced x ch = if priority_of x =? priority_of y then Some y.1 else None)
  \/ ((forall z, z ∈ ch -> priority_of x < priority_of z) /\ chain_put x ch = ch ++ [x] /\ replaced x ch = None).
Proof.
  unfold replaced. induction 1 as [|y l Hs IH Hf]; [right; split; [by intros ? ?%not_elem_of_nil|done]|]. cbn [chain_put].
  rewrite Forall_forall in Hf. destruct (Z.leb_spec (priority_of y) (priority_of x)) as [Hle|Hgt].
  - left. exists [], y, l. split_and!; [done|by intros ? ?%not_elem_of_nil|done|done|].
    destruct (Z.eqb_spec (priority_of x) (priority_of y)) as [E|Hne]; [by rewrite filter_cons_True|].
    rewrite filter_cons_False by lia. destruct (filter _ l) as [|z k] eqn:E; [done|].
    assert (z ∈ z :: k) as Hz by left. rewrite <- E in Hz. apply list_elem_of_filter in Hz as [Hz Hin]. specialize (Hf _ Hin). lia.
  - rewrite filter_cons_False by lia. destruct IH as [(l1 & z & l2 & -> & H1 & H2 & H3 & H4)|(H1 & H2 & H3)].
    + left. exists (y :: l1), z, l2. split_and!; [done| |done|by rewrite H3|done]. intros w [->|Hw]%elem_of_cons; [done|by apply H1].
    + right. split_and!; [|by rewrite H2|done]. intros w [->|Hw]%elem_of_cons; [done|by apply H1].
Qed.

Lemma chain_put_elem x ch y : y ∈ chain_put x ch -> y = x \/ y ∈ ch.
Proof.
  induction ch as [|z ch IH]; cbn [chain_put]; [rewrite list_elem_of_singleton; tauto|].
  destruct (priority_of z <=? priority_of x); [destruct (priority_of x =? priority_of z)|]; set_solver.
Qed.

Lemma chain_put_descending x ch : descending ch -> descending (chain_put x ch).
Proof.
  induction 1 as [|y l Hs IH Hf]; cbn [chain_put]; [by repeat constructor|]. rewrite Forall_forall in Hf.
  destruct (Z.leb_spec (priority_of y) (priority_of x)); [destruct (Z.eqb_spec (priority_of x) (priority_of y))|].
  - constructor; [done|]. apply Forall_forall. intros z Hz. specialize (Hf _ Hz). lia.
  - constructor; [constructor; [done|by apply Forall_forall]|]. apply Forall_forall. intros z [->|Hz]%elem_of_cons; [lia|].
    specialize (Hf _ Hz). lia.
  - constructor; [done|]. apply Forall_forall. intros z [->|Hz]%chain_put_elem; [lia|by apply Hf].
Qed.

Lemma chain_put_perm x ch : descending ch -> chain_put x ch ≡ₚ x :: filter (fun y => priority_of y <> priority_of x) ch.
Proof.
  induction 1 as [|y l Hs IH Hf]; [done|]. cbn [chain_put]. rewrite Forall_forall in Hf.
  destruct (Z.leb_spec (priority_of y) (priority_of x)); [destruct (Z.eqb_spec (priority_of x) (priority_of y))|].
  - rewrite filter_cons_False by lia. rewrite filter_all_in; [done|]. intros z Hz. specialize (Hf _ Hz). lia.
  - rewrite filter_cons_True by lia. rewrite filter_all_in; [done|]. intros z Hz. specialize (Hf _ Hz). lia.
  - rewrite filter_cons_True by lia. rewrite IH. apply Permutation_swap.
Qed.

(** The link operations at a place of a ring. *)
Lemma ring_replace lk l1 y l2 p : ring lk (l1 ++ y :: l2) -> p ∉ l1 ++ y :: l2 -> is_Some (lk !! p) ->
  exists lk', list_replace p y lk = Ret (tt, lk') /\ ring lk' (l1 ++ p :: l2) /\ framed (p :: l1 ++ y :: l2) lk lk'.
Proof.
  intros Hr Hp Hs. apply (ring_rotate lk l1) in Hr.
  destruct (list_replace_ok lk y (l2 ++ l1) p Hr) as (lk' & E & R & F); [set_solver|done|].
  exists lk'. split; [done|]. split; [by apply (ring_rotate lk' (p :: l2) l1)|]. eapply framed_mono; [|exact F]. set_solver.
Qed.

Lemma ring_insert lk l1 y l2 p : ring lk (l1 ++ y :: l2) -> p ∉ l1 ++ y :: l2 -> is_Some (lk !! p) ->
  exists lk', list_insert y p lk = Ret (tt, lk') /\ ring lk' (l1 ++ p :: y :: l2) /\ framed (p :: l1 ++ y :: l2) lk lk'.
Proof.
  intros Hr Hp Hs. apply (ring_rotate lk l1) in Hr.
  destruct (list_insert_ok lk y (l2 ++ l1) p Hr) as (lk' & E & R & F); [set_solver|done|].
  exists lk'. split; [done|]. split; [|eapply framed_mono; [|exact F]; set_solver].
  rewrite <- app_assoc in R. apply (ring_rotate lk' (y :: l2)) in R. by rewrite <- app_assoc in R.
Qed.

(** ** A table and a new rule *)

(** The rule as the table keeps it. *)
Definition hashed (r : cls_rule) : cls_rule := with_hash (flow_hash (r_flow r) 0) r.

Lemma hashed_ok r : rule_ok r -> rule_ok (hashed r).
Proof. intros []. by split. Qed.

(** The state after the calls that insert a rule: its hash, the links, one table. *)
Definition upd (s : cls_state) (rh : gmap nat cls_rule) (lk : links) (t : nat) (x : cls_table) : cls_state :=
  MkCls (n_rules s) (tables s) rh lk (<[t := x]> (table_heap s)).


Section put.
Context (s : cls_state) (t : nat) (x : cls_table) (wc : flow_wildcards) (p : nat) (r : cls_rule).
Context (Ht : table_heap s !! t = Some x) (Hp : rule_heap s !! p = Some r) (Hr : rule_ok r) (Hw : r_wc r = wc)
  (Hlk : is_Some (link_heap s !! p)).

Definition put_heap : gmap nat cls_rule := <[p := hashed r]> (rule_heap s).

Lemma put_place lk x' : in_place (upd s put_heap lk t x') wc (r_flow r) (p, hashed r).
Proof. split; [|by apply hashed_ok|done..]. unfold upd, put_heap. cbn. by rewrite lookup_insert_eq. Qed.

Lemma upd_same lk : with_link_heap lk (with_rule_heap put_heap s) = upd s put_heap lk t (with_ct_rules (ct_rules x) x).
Proof. unfold upd. rewrite insert_id; [done|]. rewrite Ht. by destruct x. Qed.

(** The table's map after a rule is put on a ring: the same, or with the rule as its head. *)
Definition put_map (h : hmap) (ch : list prule) (y : nat) : outcome hmap :=
  match ch with
  | z :: _ => if Nat.eqb y z.1 then hmap_replace h (rule_node z.1 z.2) p else Ret h
  | [] => Ret h
  end.

(** The scan of a ring, from the state where the hash is set. *)
Lemma scan_ok f ch h' lk' old :
  r_flow r = f -> chain_ok s wc (f, ch) -> p ∉ ptrs ch ->
  (exists l1 y l2, ch = l1 ++ y :: l2 /\ (forall z, z ∈ l1 -> r_priority r < priority_of z) /\ priority_of y <= r_priority r
     /\ (if r_priority r =? priority_of y then list_replace p y.1 else list_insert y.1 p) (link_heap s) = Ret (tt, lk')
     /\ old = (if r_priority r =? priority_of y then Some y.1 else None)
     /\ put_map (ct_rules x) ch y.1 = Ret h')
  \/ ((forall z, z ∈ ch -> r_priority r < priority_of z) /\ list_push_back (default O (head (ptrs ch))) p (link_heap s) = Ret (tt, lk')
     /\ old = None /\ h' = ct_rules x) ->
  (res ← for_each_rule_in_list (insert_here t p (default O (head (ptrs ch)))) (head (ptrs ch));
   match res with
   | Some o => mret o
   | None => _ ← on_links (list_push_back (default O (head (ptrs ch))) p); mret None
   end) (with_rule_heap put_heap s) = Ret (old, upd s put_heap lk' t (with_ct_rules h' x)).
Proof.
  intros Hf Hc Hpn H. set (s1 := with_rule_heap put_heap s).
  assert (same_for s s1 (ptrs ch)) as Hsame.
  { intros q Hq. split; [|done]. unfold s1, put_heap. cbn. rewrite lookup_insert_ne; [done|]. by intros ->. }
  assert (chain_ok s1 wc (f, ch)) as Hc1 by (by eapply chain_frame).
  pose proof (ck_rules _ _ _ Hc1) as Hin. rewrite Forall_forall in Hin. cbn [fst snd] in Hin.
  assert (rule_heap s1 !! p = Some (hashed r)) as Hp1 by (unfold s1, put_heap; cbn; by rewrite lookup_insert_eq).
  assert (forall head z, z ∈ ch -> r_priority r < priority_of z -> insert_here t p head z.1 s1 = Ret (None, s1)) as Hpass.
  { intros head z Hz Hlt. unfold insert_here. step (load_rule_ok _ _ _ Hp1). step (load_rule_ok _ _ _ (ip_heap _ _ _ _ (Hin z Hz))).
    change (r_priority (hashed r)) with (r_priority r). unfold priority_of in Hlt. by rewrite (proj2 (Z.leb_gt _ _)). }
  destruct H as [(l1 & y & l2 & -> & Hgt & Hle & El & -> & Eh)|(Hgt & El & -> & ->)].
  - pose proof (Hin y ltac:(set_solver)) as [Hy _ _ Hyf Hyh]. cbn [fst snd] in Hyh.
    set (hd := default O (head (ptrs (l1 ++ y :: l2)))).
    set (s2 := upd s put_heap (link_heap s) t (with_ct_rules h' x)).
    assert ((if Nat.eqb y.1 hd
         then _ ← on_rules t (fun h => hmap_replace h (rule_node y.1 y.2) p); modify_rule p (with_hash (r_hash y.2))
         else mret tt) s1 = Ret (tt, s2)) as E1.
    { unfold put_map in Eh. subst hd. destruct l1 as [|z l1]; cbn [app fmap list_fmap head default from_option id] in *.
      - rewrite Nat.eqb_refl in *. step (on_rules_ok t (fun h => hmap_replace h (rule_node y.1 y.2) p) s1 x h' Ht Eh). unfold modify_rule, s1. cbn [with_table_heap with_rule_heap rule_heap].
        unfold put_heap at 1. rewrite lookup_insert_eq. unfold s2, upd, with_rule_heap, with_table_heap, put_heap. cbn. do 3 f_equal.
        rewrite insert_insert_eq. f_equal. rewrite Hyh, <- Hf. done.
      - assert ((y.1 =? z.1)%nat = false) as Ene.
        { apply Nat.eqb_neq. intros E. pose proof (proj1 (ck_ring _ _ _ Hc)) as Hd. cbn [snd fmap list_fmap] in Hd.
          apply NoDup_cons in Hd as [Hd _]. apply Hd. rewrite <- E. apply list_elem_of_fmap_2. set_solver. }
        rewrite Ene in *. injection Eh as <-. unfold s2, mret, cstate_ret. rewrite <- upd_same. done. }
    assert (insert_here t p hd y.1 s1 = Ret (Some (if r_priority r =? priority_of y then Some y.1 else None),
              upd s put_heap lk' t (with_ct_rules h' x))) as E2.
    { unfold insert_here. step (load_rule_ok _ _ _ Hp1). step (load_rule_ok _ _ _ Hy). change (r_priority (hashed r)) with (r_priority r).
      change (r_priority y.2) with (priority_of y). rewrite (proj2 (Z.leb_le _ _)) by done. step E1.
      destruct (r_priority r =? priority_of y); by step (on_links_ok _ s2 _ _ El). }
    rewrite (cstate_bind_step _ _ _ _ _ (for_each_rule_some s1 wc f _ _ _ l1 y l2 Hc1 (fun z Hz => Hpass hd z ltac:(set_solver) (Hgt z Hz)) E2)).
    done.
  - rewrite (cstate_bind_step _ _ _ _ _ (for_each_rule_none s1 wc f ch _ Hc1 (fun z Hz => Hpass _ z Hz (Hgt z Hz)))).
    step (on_links_ok _ s1 _ _ El). unfold mret, cstate_ret. by rewrite <- upd_same.
Qed.
End put.

Lemma chains_perm s wc h cs cs' : cs ≡ₚ cs' -> chains_ok s wc h cs -> chains_ok s wc h cs'.
Proof. intros E [H1 H2 H3]. split; by rewrite <- E. Qed.

Lemma concat_perm {A B} (g : A -> list B) l l' : l ≡ₚ l' -> concat (g <$> l) ≡ₚ concat (g <$> l').
Proof. intros E. by rewrite E. Qed.

(** The node of a ring is one of its rules. *)
Lemma node_in_ptrs s wc c : chain_ok s wc c -> node_ptr (chain_node c) ∈ ptrs c.2.
Proof. intros Hc. destruct (chain_head _ _ _ Hc) as (p & r & l & E & _). unfold chain_node. rewrite E. by left. Qed.

Lemma nodes_in_ptrs s wc cs q : Forall (chain_ok s wc) cs -> q ∈ node_ptr <$> (chain_node <$> cs) -> q ∈ ptrs (concat (snd <$> cs)).
Proof.
  intros Hf Hq. rewrite <- list_fmap_compose in Hq. apply list_elem_of_fmap in Hq as (c & -> & Hc).
  rewrite Forall_forall in Hf. pose proof (node_in_ptrs _ _ _ (Hf c Hc)) as Hin. apply list_elem_of_fmap in Hin as (y & Ey & Hy).
  apply list_elem_of_fmap. exists y. split; [done|]. apply elem_concat. by exists c.
Qed.

Lemma replaced_spec x ch :
  match replaced x ch with
  | Some q => exists r, (q, r) ∈ ch /\ r_priority r = priority_of x
  | None => forall y, y ∈ ch -> priority_of y <> priority_of x
  end.
Proof.
  unfold replaced. destruct (filter _ ch) as [|[q r] k] eqn:E; cbn [head fmap option_fmap option_map fst].
  - intros y Hy Hp. assert (y ∈ filter (fun y => priority_of y = priority_of x) ch) as H by (by apply list_elem_of_filter).
    rewrite E in H. by apply not_elem_of_nil in H.
  - assert ((q, r) ∈ filter (fun y => priority_of y = priority_of x) ch) as H by (rewrite E; by left).
    apply list_elem_of_filter in H as [H1 H2]. by exists r.
Qed.

(** Flow and priority as in [r], in the same table. *)
Definition clashes (r : cls_rule) (y : prule) : Prop := r_flow y.2 = r_flow r /\ priority_of y = r_priority r.

#[export] Instance clashes_dec r y : Decision (clashes r y).
Proof. unfold clashes. apply _. Defined.

Lemma filter_ext {A} (P Q : A -> Prop) `{!forall x, Decision (P x)} `{!forall x, Decision (Q x)} (l : list A) :
  (forall x, x ∈ l -> P x <-> Q x) -> filter P l = filter Q l.
Proof.
  induction l as [|x l IH]; intros Hl'; [done|]. pose proof (Hl' x (list_elem_of_here _ _)) as Hx.
  assert (filter P l = filter Q l) as E by (apply IH; intros y Hy; apply Hl'; by right).
  destruct (decide (P x)); [rewrite !filter_cons_True by tauto|rewrite !filter_cons_False by tauto]; by rewrite E.
Qed.

(** What insertion does to the rules of a table. *)
Record inserted (s : cls_state) (wc : flow_wildcards) (p : nat) (r : cls_rule) (cs : list chain)
    (s' : cls_state) (h' : hmap) (cs' : list chain) (old : option nat) : Prop := {
  in_chains : chains_ok s' wc h' cs';
  in_some : cs' <> [];
  in_links : framed (p :: ptrs (concat (snd <$> cs))) (link_heap s) (link_heap s');
  in_rules : concat (snd <$> cs') ≡ₚ (p, hashed r) :: filter (fun y => ~ clashes r y) (concat (snd <$> cs));
  in_old : match old with
           | Some q => exists rq, (q, rq) ∈ concat (snd <$> cs) /\ clashes r (q, rq)
           | None => forall y, y ∈ concat (snd <$> cs) -> ~ clashes r y
           end
}.

Section insert.
Context (s : cls_state) (t : nat) (x : cls_table) (wc : flow_wildcards) (cs : list chain) (p : nat) (r : cls_rule).
Context (Ht : table_heap s !! t = Some x) (Hp : rule_heap s !! p = Some r) (Hr : rule_ok r) (Hw : r_wc r = wc)
  (Hlk : is_Some (link_heap s !! p)) (Hcs : chains_ok s wc (ct_rules x) cs) (Hfresh : p ∉ ptrs (concat (snd <$> cs)))
  (Hnodup : NoDup (ptrs (concat (snd <$> cs)))) (Hbig : hn (ct_rules x) + 1 < 2 ^ 61).

Lemma frame_rest lk x' (ds : list chain) qs : framed (p :: qs) (link_heap s) lk -> ptrs (concat (snd <$> ds)) ⊆ ptrs (concat (snd <$> cs)) ->
  (forall q, q ∈ ptrs (concat (snd <$> ds)) -> q ∉ qs) ->
  same_for s (upd s (put_heap s p r) lk t x') (ptrs (concat (snd <$> ds))).
Proof.
  intros [Hl _] Hs Hd q Hq. assert (q <> p) as Hne by (intros ->; by apply Hfresh, Hs). cbn. split.
  - unfold put_heap. by rewrite lookup_insert_ne.
  - apply Hl. rewrite not_elem_of_cons. split; [done|by apply Hd].
Qed.

(** A flow that is new to the table. *)
Lemma insert_new : r_flow r ∉ fst <$> cs ->
  exists lk h', on_rules t (fun h => hmap_insert h p (flow_hash (r_flow r) 0)) (with_rule_heap (put_heap s p r) s)
      = Ret (tt, with_table_heap (<[t := with_ct_rules h' x]> (table_heap s)) (with_rule_heap (put_heap s p r) s))
    /\ list_init p (link_heap s) = Ret (tt, lk)
    /\ inserted s wc p r cs (upd s (put_heap s p r) lk t (with_ct_rules h' x)) h' ((r_flow r, [(p, hashed r)]) :: cs) None.
Proof.
  intros Hf. pose proof (cs_chains _ _ _ _ Hcs) as Hch.
  destruct (hmap_insert_ok (ct_rules x) (chain_node <$> cs) p (flow_hash (r_flow r) 0) (cs_map _ _ _ _ Hcs)) as (h' & E & Hm & _ & _);
    [intros Hq; by apply Hfresh, (nodes_in_ptrs s wc)|done|].
  destruct (list_init_ok (link_heap s) p Hlk) as (lk & El & Hring & Hfr). exists lk, h'.
  split; [exact (on_rules_ok t _ (with_rule_heap (put_heap s p r) s) x h' Ht E)|]. split; [done|]. split.
  - split; [exact Hm| |constructor; [done|apply Hcs]]. constructor.
    + split; cbn [fst snd]; [apply Forall_cons; split; [by apply put_place|by apply Forall_nil]|by repeat constructor|exact Hring|done].
    + eapply chains_frame; [|exact Hch]. apply (frame_rest lk _ cs []); [|done|set_solver].
      eapply framed_mono; [|exact Hfr]. set_solver.
  - done.
  - eapply framed_mono; [|exact Hfr]. set_solver.
  - cbn [fmap list_fmap concat snd app]. rewrite filter_all_in; [done|]. intros y Hy (E1 & _).
    apply elem_concat in Hy as (c & Hc & Hy). destruct (in_chain _ _ _ _ _ _ Hcs Hc Hy) as [_ _ _ E2 _].
    apply Hf. rewrite <- E1, E2. by apply list_elem_of_fmap_2.
  - intros y Hy (E1 & _). apply elem_concat in Hy as (c & Hc & Hy). destruct (in_chain _ _ _ _ _ _ Hcs Hc Hy) as [_ _ _ E2 _].
    apply Hf. rewrite <- E1, E2. by apply list_elem_of_fmap_2.
Qed.

(** A ring with the flow: what the calls that the scan ends with do. *)
Lemma ring_put ch : ring (link_heap s) (ptrs ch) -> ch <> [] -> p ∉ ptrs ch -> descending ch ->
  let new := (p, hashed r) in
  exists lk,
    ring lk (ptrs (chain_put new ch)) /\ framed (p :: ptrs ch) (link_heap s) lk
    /\ ((exists l1 y l2, ch = l1 ++ y :: l2 /\ (forall z, z ∈ l1 -> r_priority r < priority_of z) /\ priority_of y <= r_priority r
           /\ chain_put new ch = l1 ++ new :: (if r_priority r =? priority_of y then l2 else y :: l2)
           /\ (if r_priority r =? priority_of y then list_replace p y.1 else list_insert y.1 p) (link_heap s) = Ret (tt, lk)
           /\ replaced new ch = (if r_priority r =? priority_of y then Some y.1 else None))
        \/ ((forall z, z ∈ ch -> r_priority r < priority_of z) /\ chain_put new ch = ch ++ [new]
            /\ list_push_back (default O (head (ptrs ch))) p (link_heap s) = Ret (tt, lk) /\ replaced new ch = None)).
Proof.
  intros Hring Hne Hpn Ho new. destruct (chain_put_split new ch Ho) as [(l1 & y & l2 & -> & H1 & H2 & H3 & H4)|(H1 & H2 & H3)].
  - rewrite H3. rewrite fmap_app in Hring, Hpn. cbn [fmap list_fmap] in Hring, Hpn.
    change (priority_of new) with (r_priority r) in *. destruct (r_priority r =? priority_of y) eqn:Eq.
    + destruct (ring_replace _ _ _ _ _ Hring Hpn Hlk) as (lk & E & R & F). exists lk. rewrite !fmap_app. cbn [fmap list_fmap fst].
      split; [exact R|]. split; [exact F|]. left. exists l1, y, l2. rewrite Eq. by split_and!.
    + destruct (ring_insert _ _ _ _ _ Hring Hpn Hlk) as (lk & E & R & F). exists lk. rewrite !fmap_app. cbn [fmap list_fmap fst].
      split; [exact R|]. split; [exact F|]. left. exists l1, y, l2. rewrite Eq. by split_and!.
  - rewrite H2, fmap_app. destruct ch as [|y ch]; [done|]. cbn [fmap list_fmap] in *.
    destruct (list_insert_ok _ _ _ _ Hring Hpn Hlk) as (lk & E & R & F). exists lk. split; [exact R|]. split; [exact F|]. right. by split_and!.
Qed.

(** The map after the scan. *)
Lemma ring_map ch rest : cs ≡ₚ (r_flow r, ch) :: rest -> forall l1 y l2 l3, ch = l1 ++ y :: l2 -> chain_put (p, hashed r) ch = l1 ++ (p, hashed r) :: l3 ->
  exists h', put_map p (ct_rules x) ch y.1 = Ret h' /\ hmap_rep h' (chain_node (r_flow r, chain_put (p, hashed r) ch) :: (chain_node <$> rest)).
Proof.
  intros Ecs l1 y l2 l3 E Ep. pose proof (chains_perm _ _ _ _ _ Ecs Hcs) as Hc.
  pose proof (cs_chains _ _ _ _ Hc) as Hall. apply Forall_cons in Hall as [Hok Hrest].
  pose proof (cs_map _ _ _ _ Hc) as Hm. cbn [fmap list_fmap] in Hm. unfold put_map. rewrite Ep. destruct l1 as [|z l1].
  - cbn [app] in *. subst ch. rewrite Nat.eqb_refl.
    pose proof (ck_rules _ _ _ Hok) as Hin. cbn [fst snd] in Hin. apply Forall_cons in Hin as [[_ _ _ _ Hh] _].
    destruct (hmap_replace_ok (ct_rules x) (chain_node <$> rest) (rule_node y.1 y.2) p) as (h' & E & Hm' & _).
    + unfold chain_node at 1 in Hm. cbn [fst snd fmap list_fmap head default from_option id] in Hm. unfold rule_node. by rewrite Hh.
    + intros Hq. apply Hfresh. apply (nodes_in_ptrs s wc) in Hq; [|done]. rewrite (concat_perm snd _ _ Ecs).
      cbn [fmap list_fmap concat]. rewrite fmap_app. set_solver.
    + exists h'. split; [exact E|]. unfold rule_node in Hm'. cbn [node_hash] in Hm'. by rewrite Hh in Hm'.
  - subst ch. cbn [app]. assert ((y.1 =? z.1)%nat = false) as ->.
    { apply Nat.eqb_neq. intros E. pose proof (proj1 (ck_ring _ _ _ Hok)) as Hd. cbn [snd fmap list_fmap app] in Hd.
      apply NoDup_cons in Hd as [Hd _]. apply Hd. rewrite <- E. apply list_elem_of_fmap_2. set_solver. }
    exists (ct_rules x). split; [done|]. exact Hm.
Qed.

Lemma clashes_chain ch rest : cs ≡ₚ (r_flow r, ch) :: rest ->
  filter (fun y => ~ clashes r y) (concat (snd <$> cs)) ≡ₚ filter (fun y => priority_of y <> r_priority r) ch ++ concat (snd <$> rest).
Proof.
  intros Ecs. pose proof (chains_perm _ _ _ _ _ Ecs Hcs) as Hc. rewrite (concat_perm snd _ _ Ecs).
  cbn [fmap list_fmap concat snd]. rewrite filter_app, (filter_all_in _ (concat _)).
  - apply Permutation_app_tail. rewrite (filter_ext (fun y => ~ clashes r y) (fun y => priority_of y <> r_priority r)); [done|].
    intros y Hy. destruct (in_chain _ _ _ _ (r_flow r, ch) y Hc ltac:(by left) Hy) as [_ _ _ E _]. unfold clashes. cbn in E. tauto.
  - intros y Hy (E1 & _). apply elem_concat in Hy as (c & Hin & Hy).
    pose proof (in_chain _ _ _ _ c y Hc ltac:(by right) Hy) as [_ _ _ E2 _].
    pose proof (cs_flows _ _ _ _ Hc) as Hd. cbn [fmap list_fmap fst] in Hd. apply NoDup_cons in Hd as [Hd _]. apply Hd.
    rewrite <- E1, E2. by apply list_elem_of_fmap_2.
Qed.

(** A ring with the flow. *)
Lemma insert_existing ch rest : cs ≡ₚ (r_flow r, ch) :: rest ->
  exists lk h',
    (res ← for_each_rule_in_list (insert_here t p (default O (head (ptrs ch)))) (head (ptrs ch));
     match res with
     | Some o => mret o
     | None => _ ← on_links (list_push_back (default O (head (ptrs ch))) p); mret None
     end) (with_rule_heap (put_heap s p r) s)
    = Ret (replaced (p, hashed r) ch, upd s (put_heap s p r) lk t (with_ct_rules h' x))
    /\ inserted s wc p r cs (upd s (put_heap s p r) lk t (with_ct_rules h' x)) h'
         ((r_flow r, chain_put (p, hashed r) ch) :: rest) (replaced (p, hashed r) ch).
Proof.
  intros Ecs. pose proof (chains_perm _ _ _ _ _ Ecs Hcs) as Hc. pose proof (cs_chains _ _ _ _ Hc) as Hall.
  apply Forall_cons in Hall as [Hok Hrest]. pose proof (concat_perm snd _ _ Ecs) as Eall.
  cbn [fmap list_fmap concat snd] in Eall. pose proof Hfresh as Hpf. pose proof Hnodup as Hnd.
  rewrite Eall, fmap_app in Hpf, Hnd. apply NoDup_app in Hnd as (Hd1 & Hd12 & Hd2).
  assert (p ∉ ptrs ch) as Hpn by set_solver.
  destruct (ring_put ch (ck_ring _ _ _ Hok) (ck_some _ _ _ Hok) Hpn (ck_order _ _ _ Hok)) as (lk & Hring & Hfr & Hcase).
  assert (exists h', ((exists l1 y l2, ch = l1 ++ y :: l2 /\ (forall z, z ∈ l1 -> r_priority r < priority_of z) /\ priority_of y <= r_priority r
           /\ (if r_priority r =? priority_of y then list_replace p y.1 else list_insert y.1 p) (link_heap s) = Ret (tt, lk)
           /\ replaced (p, hashed r) ch = (if r_priority r =? priority_of y then Some y.1 else None)
           /\ put_map p (ct_rules x) ch y.1 = Ret h')
        \/ ((forall z, z ∈ ch -> r_priority r < priority_of z)
            /\ list_push_back (default O (head (ptrs ch))) p (link_heap s) = Ret (tt, lk)
            /\ replaced (p, hashed r) ch = None /\ h' = ct_rules x))
     /\ hmap_rep h' (chain_node (r_flow r, chain_put (p, hashed r) ch) :: (chain_node <$> rest))) as (h' & Hscan & Hm).
  { destruct Hcase as [(l1 & y & l2 & E1 & E2 & E3 & E4 & E5 & E6)|(E1 & E2 & E3 & E4)].
    - destruct (ring_map ch rest Ecs l1 y l2 _ E1 E4) as (h' & Eh & Hm). exists h'. split; [|done]. left. by exists l1, y, l2.
    - exists (ct_rules x). split; [by right|]. rewrite E2. destruct ch as [|y ch]; [by destruct (ck_some _ _ _ Hok)|]. apply Hc. }
  exists lk, h'. split; [by apply (scan_ok s t x wc p r Ht Hp Hr Hw Hlk (r_flow r) ch)|]. split.
  - split; [exact Hm| |].
    + apply Forall_cons. split.
      * split; cbn [fst snd]; [|by apply chain_put_descending, (ck_order _ _ _ Hok)|exact Hring|].
        -- apply Forall_forall. intros y [->|Hy]%chain_put_elem; [by apply put_place|].
           pose proof (ck_rules _ _ _ Hok) as Hin. rewrite Forall_forall in Hin. destruct (Hin y Hy) as [H1 H2 H3 H4 H5].
           split; try done. cbn. unfold put_heap. rewrite lookup_insert_ne; [done|]. intros ->. by apply Hpn, list_elem_of_fmap_2.
        -- destruct ch as [|y ch]; cbn [chain_put]; [done|]. by destruct (_ <=? _).
      * eapply chains_frame; [|exact Hrest]. intros q Hq. assert (q <> p) by (intros ->; set_solver). cbn. split.
        -- unfold put_heap. by rewrite lookup_insert_ne.
        -- apply Hfr. rewrite not_elem_of_cons. split; [done|]. intros Hq'. by apply (Hd12 q).
    + cbn [fmap list_fmap fst]. pose proof (cs_flows _ _ _ _ Hc) as Hd. exact Hd.
  - done.
  - eapply framed_mono; [|exact Hfr]. intros q. rewrite !elem_of_cons, Eall, fmap_app, elem_of_app. tauto.
  - cbn [fmap list_fmap concat snd]. rewrite (clashes_chain ch rest Ecs).
    rewrite (chain_put_perm (p, hashed r) ch (ck_order _ _ _ Hok)). done.
  - pose proof (replaced_spec (p, hashed r) ch) as Hs. assert (forall y, y ∈ concat (snd <$> cs) <-> y ∈ ch \/ y ∈ concat (snd <$> rest)) as Hel
      by (intros y; by rewrite Eall, elem_of_app).
    assert (forall y, y ∈ ch -> r_flow y.2 = r_flow r) as Hfl
      by (intros y Hy; by destruct (in_chain _ _ _ _ (r_flow r, ch) y Hc ltac:(by left) Hy)).
    destruct (replaced (p, hashed r) ch) as [q|].
    + destruct Hs as (rq & Hin & Ep). exists rq. split; [apply Hel; by left|]. split; [exact (Hfl _ Hin)|exact Ep].
    + intros y [Hy|Hy]%Hel (E1 & E2); [by apply (Hs y)|].
      assert (y ∈ filter (fun y => ~ clashes r y) (concat (snd <$> cs))) as Hf.
      { rewrite (clashes_chain ch rest Ecs). apply elem_of_app. by right. }
      apply list_elem_of_filter in Hf as [Hf _]. by apply Hf.
Qed.
End insert.

Lemma insert_rule_ok s t x wc cs p r :
  table_heap s !! t = Some x -> rule_heap s !! p = Some r -> rule_ok r -> r_wc r = wc -> is_Some (link_heap s !! p) ->
  chains_ok s wc (ct_rules x) cs -> p ∉ ptrs (concat (snd <$> cs)) -> NoDup (ptrs (concat (snd <$> cs))) ->
  hn (ct_rules x) + 1 < 2 ^ 61 ->
  exists lk h' cs' old,
    insert_rule t p s = Ret (old, upd s (put_heap s p r) lk t (with_ct_rules h' x))
    /\ inserted s wc p r cs (upd s (put_heap s p r) lk t (with_ct_rules h' x)) h' cs' old.
Proof.
  intros Ht Hp Hr Hw Hlk Hcs Hfresh Hnodup Hbig. unfold insert_rule. step (load_rule_ok _ _ _ Hp).
  set (s1 := with_rule_heap (put_heap s p r) s).
  assert (modify_rule p (with_hash (flow_hash (r_flow r) 0)) s = Ret (tt, s1)) as E1 by (unfold modify_rule; by rewrite Hp).
  step E1. assert (chains_ok s1 wc (ct_rules x) cs) as Hcs1.
  { destruct Hcs as [H1 H2 H3]. split; [done| |done]. eapply chains_frame; [|exact H2]. intros q Hq. split; [|done].
    unfold s1, put_heap. cbn. rewrite lookup_insert_ne; [done|]. by intros ->. }
  destruct (find_equal_ok s1 t x (r_flow r) wc cs Ht Hcs1 (ro_flow _ Hr)) as (res & E2 & Hres). step E2. destruct res as [q|].
  - destruct Hres as (rq & l & Hc). assert (exists rest, cs ≡ₚ (r_flow r, (q, rq) :: l) :: rest) as (rest & Ecs).
    { apply list_elem_of_split in Hc as (l1 & l2 & ->). exists (l1 ++ l2). by rewrite Permutation_middle. }
    destruct (insert_existing s t x wc cs p r Ht Hp Hr Hw Hlk Hcs Hfresh Hnodup Hbig ((q, rq) :: l) rest Ecs) as (lk & h' & E3 & Hi).
    exists lk, h'. eexists _, _. split; [|exact Hi]. exact E3.
  - destruct (insert_new s t x wc cs p r Ht Hp Hr Hw Hlk Hcs Hfresh Hnodup Hbig Hres) as (lk & h' & E3 & E4 & Hi).
    exists lk, h'. eexists _, _. split; [|exact Hi]. step E3. by step (on_links_ok (list_init p) (with_table_heap (<[t := with_ct_rules h' x]> (table_heap s)) s1) _ _ E4).
Qed.

(** ** The classifier and a new rule *)

Lemma rep_perm s TS TS' : TS ≡ₚ TS' -> cls_rep s TS -> cls_rep s TS'.
Proof.
  intros E []. split; try by rewrite <- E.
  - by rewrite <- (contents_perm _ _ E).
  - by rewrite <- (contents_perm _ _ E).
  - intros t. by rewrite <- E.
Qed.

Lemma chains_state s s' wc h cs : rule_heap s' = rule_heap s -> link_heap s' = link_heap s -> chains_ok s wc h cs -> chains_ok s' wc h cs.
Proof. intros E1 E2 [H1 H2 H3]. split; [done| |done]. eapply chains_frame; [|exact H2]. intros q _. by rewrite E1, E2. Qed.

(** A table that may still be empty. *)
Record tab_pre (s : cls_state) (tb : tab) : Prop := {
  tp_table : exists h, chains_ok s (tb_wc tb) h (tb_chains tb)
    /\ table_heap s !! tb_ptr tb
       = Some (MkTable (flow_wildcards_hash (tb_wc tb) 0) h (tb_wc tb) (Z.of_nat (length (tab_rules tb)))
                       (flow_wildcards_is_catchall (tb_wc tb)));
  tp_wc : wc_ok (tb_wc tb)
}.

(** The classifier with one table singled out, which may be empty. *)
Record cls_pre (s : cls_state) (tb : tab) (rest : list tab) : Prop := {
  cp_map : hmap_rep (tables s) (tab_node <$> tb :: rest);
  cp_tab : tab_pre s tb;
  cp_rest : Forall (tab_ok s) rest;
  cp_wcs : NoDup (tb_wc <$> tb :: rest);
  cp_ptrs : NoDup (ptrs (tab_rules tb ++ contents rest));
  cp_count : n_rules s = Z.of_nat (length (tab_rules tb ++ contents rest));
  cp_heap : forall t, is_Some (table_heap s !! t) <-> t ∈ tb_ptr <$> tb :: rest
}.

Lemma pre_of_rep s tb rest : cls_rep s (tb :: rest) -> cls_pre s tb rest.
Proof.
  intros [H1 H2 H3 H4 H5 H6]. apply Forall_cons in H2 as [[H7 H8 _] H9]. by split.
Qed.

Lemma rep_of_pre s tb rest : cls_pre s tb rest -> tb_chains tb <> [] -> cls_rep s (tb :: rest).
Proof. intros [H1 [H7 H8] H9 H3 H4 H5 H6] Hne. split; try done. by constructor. Qed.

Lemma table_ptrs s tb rest : cls_pre s tb rest -> tb_ptr tb ∉ tb_ptr <$> rest.
Proof.
  intros Hr. pose proof (hr_nodup _ _ (cp_map _ _ _ Hr)) as Hd. rewrite <- list_fmap_compose in Hd. cbn [fmap list_fmap] in Hd.
  by apply NoDup_cons in Hd as [Hd _].
Qed.

(** Two rules with the same key are one. *)
Lemma clash_unique s wc h cs r y z : chains_ok s wc h cs -> y ∈ concat (snd <$> cs) -> z ∈ concat (snd <$> cs) ->
  clashes r y -> clashes r z -> y = z.
Proof.
  intros Hc Hy Hz [Ey Py] [Ez Pz]. apply elem_concat in Hy as (c & Hcy & Hy). apply elem_concat in Hz as (d & Hdz & Hz).
  pose proof (ip_flow _ _ _ _ (in_chain _ _ _ _ _ _ Hc Hcy Hy)). pose proof (ip_flow _ _ _ _ (in_chain _ _ _ _ _ _ Hc Hdz Hz)).
  assert (c = d) as <- by (apply (same_chain s wc h cs); [done..|congruence]).
  pose proof (cs_chains _ _ _ _ Hc) as Hall. rewrite Forall_forall in Hall. pose proof (ck_order _ _ _ (Hall c Hcy)) as Ho.
  clear - Ho Hy Hz Py Pz. induction Ho as [|x l Hs IH Hf]; [by apply not_elem_of_nil in Hy|]. rewrite Forall_forall in Hf.
  apply elem_of_cons in Hy as [Hy|Hy]; apply elem_of_cons in Hz as [Hz|Hz]; [congruence| | |by apply IH]; subst.
  - specialize (Hf _ Hz). lia.
  - specialize (Hf _ Hy). lia.
Qed.

Lemma filter_one {A} `{EqDecision A} (P : A -> Prop) `{!forall x, Decision (P x)} (l : list A) y :
  NoDup l -> y ∈ l -> P y -> (forall z, z ∈ l -> P z -> z = y) -> l ≡ₚ y :: filter (fun z => ~ P z) l.
Proof.
  intros Hd Hy Hp Hu. etrans; [exact (filter_out l y Hd Hy)|]. rewrite (filter_ext (fun z => z <> y) (fun z => ~ P z)); [done|].
  intros z Hz. split; [intros Hn Hz'; by apply Hn, Hu|]. by intros Hn ->.
Qed.


(** The counters after the insertion. *)
Definition more (old : option nat) : Z := match old with Some _ => 0 | None => 1 end.

Lemma inserted_count s wc p r h cs s' h' cs' old : chains_ok s wc h cs -> NoDup (ptrs (concat (snd <$> cs))) ->
  inserted s wc p r cs s' h' cs' old ->
  Z.of_nat (length (concat (snd <$> cs'))) = Z.of_nat (length (concat (snd <$> cs))) + more old.
Proof.
  intros Hc Hd [_ _ _ Hp Ho]. rewrite Hp. cbn [length]. destruct old as [q|]; cbn [more].
  - destruct Ho as (rq & Hin & Hcl).
    rewrite (filter_one (clashes r) (concat (snd <$> cs)) (q, rq)) at 2; [cbn [length]; lia|by eapply NoDup_fmap_1|done|done|].
    intros z Hz Hz'. by apply (clash_unique s wc h cs r).
  - rewrite filter_all_in; [lia|done].
Qed.

(** The state in which classifier_replace leaves the classifier. *)
Definition after_insert (s : cls_state) (rh : gmap nat cls_rule) (lk : links) (t : nat) (x : cls_table) (d : Z) : cls_state :=
  MkCls (n_rules s + d) (tables s) rh lk (<[t := with_n_table_rules (n_table_rules x + d) x]> (table_heap s)).

Lemma elem_ptrs_filter (P : prule -> Prop) `{!forall x, Decision (P x)} l q : q ∈ ptrs (filter P l) -> q ∈ ptrs l.
Proof. intros (y & -> & Hy)%list_elem_of_fmap. apply list_elem_of_filter in Hy as [_ Hy]. by apply list_elem_of_fmap_2. Qed.

Lemma nodup_ptrs_filter (P : prule -> Prop) `{!forall x, Decision (P x)} l : NoDup (ptrs l) -> NoDup (ptrs (filter P l)).
Proof.
  induction l as [|x l IH]; intros Hd; [done|]. cbn [fmap list_fmap] in Hd. apply NoDup_cons in Hd as [Hx Hd].
  destruct (decide (P x)); [rewrite filter_cons_True by done|rewrite filter_cons_False by done; by apply IH].
  cbn [fmap list_fmap]. constructor; [|by apply IH]. intros Hq. by apply Hx, (elem_ptrs_filter P).
Qed.

Lemma insert_rep s tb rest p r x lk h' cs' old :
  cls_pre s tb rest -> rule_heap s !! p = Some r -> p ∉ ptrs (tab_rules tb ++ contents rest) ->
  table_heap s !! tb_ptr tb = Some x ->
  inserted s (tb_wc tb) p r (tb_chains tb) (upd s (put_heap s p r) lk (tb_ptr tb) (with_ct_rules h' x)) h' cs' old ->
  let s' := after_insert s (put_heap s p r) lk (tb_ptr tb) (with_ct_rules h' x) (more old) in
  cls_rep s' (MkTab (tb_ptr tb) (tb_wc tb) cs' :: rest)
  /\ contents (MkTab (tb_ptr tb) (tb_wc tb) cs' :: rest)
     ≡ₚ (p, hashed r) :: filter (fun y => ~ clashes r y) (tab_rules tb) ++ contents rest.
Proof.
  intros Hpre Hp Hfresh Hx Hins s'. pose proof (table_ptrs _ _ _ Hpre) as Htp.
  destruct Hpre as [Hm [(h & Hch & Et) Hwc] Hrest Hwcs Hptrs Hcount Hheap]. rewrite Et in Hx. injection Hx as <-.
  pose proof Hptrs as Hd. rewrite fmap_app in Hd, Hfresh. apply NoDup_app in Hd as (Hd1 & Hd12 & Hd2).
  pose proof (inserted_count _ _ _ _ _ _ _ _ _ _ Hch Hd1 Hins) as Hlen. destruct Hins as [H1 H2 H3 H4 H5].
  assert (contents (MkTab (tb_ptr tb) (tb_wc tb) cs' :: rest)
     ≡ₚ (p, hashed r) :: filter (fun y => ~ clashes r y) (tab_rules tb) ++ contents rest) as Hcont.
  { unfold contents. cbn [fmap list_fmap concat]. unfold tab_rules at 1. cbn [tb_chains]. by rewrite H4. }
  split; [|done]. split; cbn [after_insert tables n_rules table_heap].
  - exact Hm.
  - apply Forall_cons. split.
    + split; cbn [tb_wc tb_ptr tb_chains]; [|done|done]. exists h'. split; [eapply chains_state; [| |exact H1]; reflexivity|].
      cbn. rewrite lookup_insert_eq. unfold with_n_table_rules. cbn. do 2 f_equal. unfold tab_rules. cbn [tb_chains]. by rewrite Hlen.
    + rewrite Forall_forall in *. intros u Hu. eapply tab_frame; [| |by apply Hrest].
      * intros q Hq. assert (q ∈ ptrs (contents rest)) as Hqr.
        { apply list_elem_of_fmap in Hq as (y & -> & Hy). apply list_elem_of_fmap_2, elem_contents. by exists u. }
        assert (q <> p) as Hqp by (intros ->; apply Hfresh, elem_of_app; by right).
        split; [exact (lookup_insert_ne _ _ _ _ (not_eq_sym Hqp))|].
        apply H3. rewrite not_elem_of_cons. split; [done|]. intros Hq'. by apply (Hd12 q).
      * cbn. rewrite lookup_insert_ne; [done|]. intros E. apply Htp. rewrite E. by apply list_elem_of_fmap_2.
  - exact Hwcs.
  - rewrite Hcont. cbn [fmap list_fmap fst]. rewrite fmap_app. constructor.
    + intros Hq. apply Hfresh. apply elem_of_app in Hq as [Hq|Hq]; apply elem_of_app; [left|by right].
      by eapply elem_ptrs_filter.
    + apply NoDup_app. split; [|split; [|done]].
      * by apply nodup_ptrs_filter.
      * intros q Hq. apply Hd12. by eapply elem_ptrs_filter.
  - change (n_rules s') with (n_rules s + more old). rewrite Hcount.
    change (contents (MkTab (tb_ptr tb) (tb_wc tb) cs' :: rest)) with (concat (snd <$> cs') ++ contents rest).
    change (concat (snd <$> tb_chains tb)) with (tab_rules tb) in Hlen. rewrite !length_app. lia.
  - intros t. unfold s', after_insert. cbn [table_heap]. rewrite lookup_insert_is_Some, Hheap. cbn [fmap list_fmap tb_ptr]. rewrite elem_of_cons.
    split; [intros [->|[_ ?]]; [by left|done]|]. intros [->|Ht]; [by left|]. destruct (decide (tb_ptr tb = t)); [by left|right; split; [done|by right]].
Qed.

(** A table has at most as many rings as rules. *)
Lemma chains_bound s wc h cs : chains_ok s wc h cs -> hn h <= Z.of_nat (length (concat (snd <$> cs))).
Proof.
  intros Hch. rewrite (Hmap.rep_count _ _ (cs_map _ _ _ _ Hch)), length_fmap. apply inj_le.
  pose proof (cs_chains _ _ _ _ Hch) as Hall. clear - Hall. induction Hall as [|c l Hc _ IH]; [done|].
  cbn [fmap list_fmap concat length]. rewrite length_app. pose proof (ck_some _ _ _ Hc). destruct (c.2); [done|]. cbn [length]. lia.
Qed.

(** The rest of classifier_replace, on a table that is there. *)
Lemma replace_in_table s tb rest p r :
  cls_pre s tb rest -> rule_heap s !! p = Some r -> rule_ok r -> r_wc r = tb_wc tb -> is_Some (link_heap s !! p) ->
  p ∉ ptrs (tab_rules tb ++ contents rest) -> n_rules s + 1 < 2 ^ 61 ->
  exists old s' TS',
    (old_rule ← insert_rule (tb_ptr tb) p;
     match old_rule with
     | Some _ => mret old_rule
     | None =>
         _ ← modify_table (tb_ptr tb) (fun x => with_n_table_rules (n_table_rules x + 1) x);
         s ← get; _ ← put (with_n_rules (n_rules s + 1) s);
         mret old_rule
     end) s = Ret (old, s')
    /\ cls_rep s' TS' /\ contents TS' ≡ₚ (p, hashed r) :: filter (fun y => ~ clashes r y) (tab_rules tb) ++ contents rest
    /\ match old with
       | Some q => exists rq, (q, rq) ∈ tab_rules tb /\ clashes r (q, rq)
       | None => forall y, y ∈ tab_rules tb -> ~ clashes r y
       end
    /\ rule_heap s' = put_heap s p r /\ (forall q, is_Some (link_heap s !! q) -> is_Some (link_heap s' !! q)).
Proof.
  intros Hpre Hp Hr Hw Hlk Hfresh Hbig. pose proof Hpre as [Hm [(h & Hch & Et) Hwc] Hrest Hwcs Hptrs Hcount Hheap].
  pose proof Hptrs as Hd. rewrite fmap_app in Hd. apply NoDup_app in Hd as (Hd1 & _ & _).
  assert (p ∉ ptrs (tab_rules tb)) as Hfresh1 by (intros Hq; apply Hfresh; rewrite fmap_app; apply elem_of_app; by left).
  assert (hn h + 1 < 2 ^ 61) as Hhn.
  { pose proof (chains_bound _ _ _ _ Hch) as Hb. fold (tab_rules tb) in Hb. rewrite length_app in Hcount. lia. }
  destruct (insert_rule_ok s (tb_ptr tb) _ (tb_wc tb) (tb_chains tb) p r Et Hp Hr Hw Hlk Hch Hfresh1 Hd1 Hhn) as (lk & h' & cs' & old & E & Hins).
  destruct (insert_rep s tb rest p r _ lk h' cs' old Hpre Hp Hfresh Et Hins) as [Hrep Hcont].
  eexists old, _, _. split; [|split; [exact Hrep|split; [exact Hcont|split; [apply Hins|split; [done|apply Hins]]]]].
  step E. unfold after_insert, upd, with_ct_rules, with_n_table_rules. destruct old as [q|]; cbn [more].
  - unfold mret, cstate_ret. cbn. rewrite !Z.add_0_r. done.
  - unfold modify_table, mbind, cstate_bind, get, put. cbn. rewrite lookup_insert_eq. cbn. unfold with_n_rules, with_table_heap. cbn.
    by rewrite insert_insert_eq.
Qed.

(** *** A table for the wildcards *)

Lemma in_split {A} (l : list A) x : x ∈ l -> exists rest, l ≡ₚ x :: rest.
Proof. intros (l1 & l2 & ->)%list_elem_of_split. exists (l1 ++ l2). by rewrite Permutation_middle. Qed.

Lemma table_bound s TS : cls_rep s TS -> hn (tables s) <= n_rules s.
Proof.
  intros Hr. rewrite (Hmap.rep_count _ _ (cr_map _ _ Hr)), length_fmap, (cr_count _ _ Hr).
  pose proof (cr_tabs _ _ Hr) as Hall. clear Hr. induction Hall as [|tb TS Ht _ IH]; [done|].
  unfold contents in *. cbn [fmap list_fmap concat length]. rewrite length_app.
  assert (tab_rules tb <> []) as Hne.
  { destruct Ht as [(h & Hch & _) _ Hn]. destruct (tb_chains tb) as [|c cs] eqn:E; [done|]. unfold tab_rules. rewrite E.
    pose proof (cs_chains _ _ _ _ Hch) as Hall. apply Forall_cons in Hall as [Hc _]. pose proof (ck_some _ _ _ Hc).
    cbn [fmap list_fmap concat]. by destruct (c.2). }
  destruct (tab_rules tb); [done|]. cbn [length]. lia.
Qed.

(** insert_table adds an empty table. *)
Lemma insert_table_ok s TS wc : cls_rep s TS -> wc_ok wc -> wc ∉ tb_wc <$> TS -> n_rules s + 1 < 2 ^ 61 ->
  exists t s', insert_table wc s = Ret (t, s') /\ cls_pre s' (MkTab t wc []) TS
    /\ rule_heap s' = rule_heap s /\ link_heap s' = link_heap s /\ n_rules s' = n_rules s.
Proof.
  intros Hr Hwc Hnew Hbig. unfold insert_table. step_get s. set (t := fresh (dom (table_heap s))).
  assert (t ∉ dom (table_heap s)) as Ht by apply is_fresh. rewrite elem_of_dom, (cr_heap _ _ Hr) in Ht.
  set (x := MkTable (flow_wildcards_hash wc 0) hmap_init wc 0 (flow_wildcards_is_catchall wc)).
  set (s1 := with_table_heap (<[t := x]> (table_heap s)) s).
  rewrite (cstate_bind_step (put s1) _ s tt s1 eq_refl).
  destruct (hmap_insert_ok (tables s) (tab_node <$> TS) t (flow_wildcards_hash wc 0) (cr_map _ _ Hr)) as (h' & E & Hm & _ & _).
  { by rewrite <- list_fmap_compose. }
  { pose proof (table_bound _ _ Hr). lia. }
  step (on_tables_ok (fun h => hmap_insert h t (flow_wildcards_hash wc 0)) s1 h' E).
  exists t, (with_tables h' s1). split; [done|]. split; [|done]. split; cbn [tables n_rules table_heap with_tables s1 with_table_heap].
  - exact Hm.
  - split; [|done]. exists hmap_init. split; [split; [exact init_rep|by apply Forall_nil|by apply NoDup_nil]|]. cbn. by rewrite lookup_insert_eq.
  - pose proof (cr_tabs _ _ Hr) as Hall. rewrite Forall_forall in *. intros u Hu. eapply tab_frame; [| |by apply Hall]; [by intros q _|].
    cbn. rewrite lookup_insert_ne; [done|]. intros E'. apply Ht. rewrite E'. by apply list_elem_of_fmap_2.
  - cbn [fmap list_fmap tb_wc]. constructor; [done|apply Hr].
  - apply Hr.
  - apply Hr.
  - intros u. rewrite lookup_insert_is_Some, (cr_heap _ _ Hr). cbn [fmap list_fmap tb_ptr]. rewrite elem_of_cons.
    split; [intros [->|[_ ?]]; [by left|by right]|]. intros [->|Hu]; [by left|]. destruct (decide (t = u)); [by left|by right].
Qed.

(** The table that classifier_replace uses. *)
Lemma get_table_ok s TS wc : cls_rep s TS -> wc_ok wc -> n_rules s + 1 < 2 ^ 61 ->
  exists tb rest s', (table ← find_table wc; match table with None => insert_table wc | Some t => mret t end) s = Ret (tb_ptr tb, s')
    /\ tb_wc tb = wc /\ cls_pre s' tb rest /\ tab_rules tb ++ contents rest ≡ₚ contents TS
    /\ (forall u, u ∈ rest -> u ∈ TS) /\ (forall y, y ∈ tab_rules tb -> y ∈ contents TS)
    /\ rule_heap s' = rule_heap s /\ link_heap s' = link_heap s /\ n_rules s' = n_rules s.
Proof.
  intros Hr Hwc Hbig. destruct (find_table_ok s TS wc Hr Hwc) as (res & E & Hres). destruct res as [t|].
  - destruct Hres as (tb & Hin & <- & Ew). destruct (in_split _ _ Hin) as (rest & Ep).
    assert (contents TS ≡ₚ tab_rules tb ++ contents rest) as Ec by (by rewrite (contents_perm _ _ Ep)).
    exists tb, rest, s. split; [by step E|]. split; [done|]. split; [by apply pre_of_rep, (rep_perm s TS)|]. split; [done|].
    split; [intros u Hu; rewrite Ep; by right|]. split; [|done]. intros y Hy. rewrite Ec. set_solver.
  - destruct (insert_table_ok s TS wc Hr Hwc Hres Hbig) as (t & s' & E' & Hpre & ?). exists (MkTab t wc []), TS, s'.
    split; [by step E|]. split; [done|]. split; [done|]. split; [done|]. split; [done|]. split; [|done]. by intros ? ?%not_elem_of_nil.
Qed.

(** The rule [p], not in the classifier yet. *)
Record new_rule (s : cls_state) (L : list prule) (p : nat) (r : cls_rule) : Prop := {
  nw_heap : rule_heap s !! p = Some r;
  nw_ok : rule_ok r;
  nw_link : is_Some (link_heap s !! p);
  nw_fresh : p ∉ ptrs L
}.

(** The rules after [r] at [p] is put in. *)
Definition put_rule (p : nat) (r : cls_rule) (L : list prule) : list prule := (p, hashed r) :: filter (fun y => ~ same_key y.2 r) L.

Lemma classifier_replace_ok s TS p r :
  cls_rep s TS -> new_rule s (contents TS) p r -> n_rules s + 1 < 2 ^ 61 ->
  exists old s' TS', classifier_replace p s = Ret (old, s') /\ cls_rep s' TS'
    /\ contents TS' ≡ₚ put_rule p r (contents TS) /\ finds r (contents TS) old
    /\ rule_heap s' = put_heap s p r /\ (forall q, is_Some (link_heap s !! q) -> is_Some (link_heap s' !! q)).
Proof.
  intros Hr [Hp Hok Hlk Hfresh] Hbig. unfold classifier_replace. step (load_rule_ok _ _ _ Hp).
  destruct (get_table_ok s TS (r_wc r) Hr (ro_wc _ Hok) Hbig) as (tb & rest & s1 & E & Ew & Hpre & Ec & Hrest & Htb & E1 & E2 & E3).
  assert (forall B (k : nat -> cm B), (table ← find_table (r_wc r);
      table ← (match table with None => insert_table (r_wc r) | Some t => mret t end : cm nat); k table) s
     = ((table ← find_table (r_wc r); match table with None => insert_table (r_wc r) | Some t => mret t end) ≫= k) s) as Eassoc.
  { intros B k. unfold mbind, cstate_bind. by destruct (find_table (r_wc r) s) as [[]|]. }
  rewrite Eassoc. step E. destruct (replace_in_table s1 tb rest p r Hpre) as (old & s' & TS' & E4 & Hrep & Hc & Hold & Hrh & Hl).
  { by rewrite E1. } { done. } { done. } { by rewrite E2. } { by rewrite Ec. } { by rewrite E3. }
  exists old, s', TS'. split; [exact E4|]. split; [done|].
  assert (forall y, y ∈ tab_rules tb -> same_key y.2 r <-> clashes r y) as Hkey.
  { intros y Hy. destruct (cp_tab _ _ _ Hpre) as [(h & Hch & _) _]. apply elem_tab_rules in Hy as (c & Hc' & Hy).
    pose proof (ip_wc _ _ _ _ (in_chain _ _ _ _ _ _ Hch Hc' Hy)). unfold same_key, clashes, priority_of. rewrite H, Ew. tauto. }
  assert (forall y, y ∈ contents rest -> ~ same_key y.2 r) as Hother.
  { intros y Hy (Hyw & _). apply elem_contents in Hy as (u & Hu & Hy). apply elem_tab_rules in Hy as (c & Hc' & Hy).
    pose proof (cp_rest _ _ _ Hpre) as Hall. rewrite Forall_forall in Hall. destruct (Hall u Hu) as [(h & Hch & _) _ _].
    pose proof (ip_wc _ _ _ _ (in_chain _ _ _ _ _ _ Hch Hc' Hy)) as Hyw'. pose proof (cp_wcs _ _ _ Hpre) as Hd. cbn [fmap list_fmap] in Hd.
    apply NoDup_cons in Hd as [Hd _]. apply Hd. rewrite Ew, <- Hyw, Hyw'. by apply list_elem_of_fmap_2. }
  split; [|split].
  - rewrite Hc. unfold put_rule. constructor. etrans; [|by rewrite <- Ec]. rewrite filter_app, (filter_all_in _ (contents rest)) by done.
    apply Permutation_app_tail. rewrite (filter_ext (fun y => ~ clashes r y) (fun y => ~ same_key y.2 r)); [done|].
    intros y Hy. by rewrite (Hkey y Hy).
  - destruct old as [q|]; cbn [finds].
    + destruct Hold as (rq & Hin & Hcl). exists rq. split; [by apply Htb|]. by apply (Hkey (q, rq)).
    + intros y Hy. rewrite <- Ec in Hy. apply elem_of_app in Hy as [Hy|Hy]; [|by apply Hother]. rewrite (Hkey y Hy). by apply Hold.
  - split; [|by rewrite <- E2]. rewrite Hrh. unfold put_heap. by rewrite E1.
Qed.

Lemma classifier_insert_ok s TS p r :
  cls_rep s TS -> new_rule s (contents TS) p r -> n_rules s + 1 < 2 ^ 61 ->
  ((exists y, y ∈ contents TS /\ same_key y.2 r) /\ classifier_insert p s = Stuck AssertFail)
  \/ ((forall y, y ∈ contents TS -> ~ same_key y.2 r)
      /\ exists s' TS', classifier_insert p s = Ret (tt, s') /\ cls_rep s' TS' /\ contents TS' ≡ₚ (p, hashed r) :: contents TS
         /\ rule_heap s' = put_heap s p r /\ (forall q, is_Some (link_heap s !! q) -> is_Some (link_heap s' !! q))).
Proof.
  intros Hr Hnew Hbig. destruct (classifier_replace_ok s TS p r Hr Hnew Hbig) as (old & s' & TS' & E & Hrep & Hc & Hf & Hrh & Hl).
  unfold classifier_insert. destruct old as [q|].
  - left. split; [destruct Hf as (rq & Hin & Hk); by exists (q, rq)|]. by step E.
  - right. split; [done|]. exists s', TS'. split; [by step E|]. split; [done|]. split; [|done]. rewrite Hc. unfold put_rule.
    by rewrite filter_all_in.
Qed.

(** ** Removal *)

(** What removal does to the rules of a table. *)
Record removed (s : cls_state) (wc : flow_wildcards) (x : prule) (cs : list chain) (s' : cls_state) (h' : hmap) (cs' : list chain) : Prop := {
  rm_chains : chains_ok s' wc h' cs';
  rm_rules : x :: concat (snd <$> cs') ≡ₚ concat (snd <$> cs);
  rm_links : framed (ptrs (concat (snd <$> cs))) (link_heap s) (link_heap s')
}.

(** A ring after one of its rules is taken out. *)
Lemma chain_without s wc f l1 x l2 lk s' : chain_ok s wc (f, l1 ++ x :: l2) -> l1 ++ l2 <> [] -> ring lk (ptrs (l1 ++ l2)) ->
  rule_heap s' = rule_heap s -> link_heap s' = lk -> chain_ok s' wc (f, l1 ++ l2).
Proof.
  intros [H1 H2 _ _] Hne Hring Erh Elk. cbn [fst snd] in *. split; cbn [fst snd]; [| |by rewrite Elk|done].
  - apply Forall_app in H1 as [H1 H3]. apply Forall_cons in H3 as [_ H3].
    eapply Forall_impl; [by apply Forall_app; split|]. intros y [? ? ? ? ?]. split; try done. by rewrite Erh.
  - clear - H2. induction l1 as [|y l1 IH]; cbn [app] in *.
    + by apply StronglySorted_inv in H2 as [H2 _].
    + apply StronglySorted_inv in H2 as [H2 Hf]. constructor; [by apply IH|]. rewrite Forall_forall in *. intros z Hz. apply Hf. set_solver.
Qed.

Section remove.
Context (s : cls_state) (t : nat) (x : cls_table) (wc : flow_wildcards) (cs : list chain) (p : nat) (r : cls_rule).
Context (Ht : table_heap s !! t = Some x) (Hcs : chains_ok s wc (ct_rules x) cs)
  (Hnodup : NoDup (ptrs (concat (snd <$> cs)))) (Hbig : hn (ct_rules x) < 2 ^ 61).

(** The table's map and rings, given what happened to one ring. *)
Lemma removed_ring f l1 l2 rest lk h' new :
  cs ≡ₚ (f, l1 ++ (p, r) :: l2) :: rest ->
  let s' := upd s (rule_heap s) lk t (with_ct_rules h' x) in
  (if decide (l1 ++ l2 = []) then new = [] /\ lk = link_heap s else new = [(f, l1 ++ l2)] /\ ring lk (ptrs (l1 ++ l2))) ->
  framed (ptrs (l1 ++ (p, r) :: l2)) (link_heap s) lk ->
  hmap_rep h' (chain_node <$> new ++ rest) ->
  removed s wc (p, r) cs s' h' (new ++ rest).
Proof.
  intros Ecs s' Hnew Hfr Hm. pose proof (chains_perm _ _ _ _ _ Ecs Hcs) as Hc. pose proof (cs_chains _ _ _ _ Hc) as Hall.
  apply Forall_cons in Hall as [Hok Hrest]. pose proof (concat_perm snd _ _ Ecs) as Eall. cbn [fmap list_fmap concat snd] in Eall.
  pose proof (cs_flows _ _ _ _ Hc) as Hfl. cbn [fmap list_fmap fst] in Hfl. apply NoDup_cons in Hfl as [Hf1 Hf2].
  pose proof Hnodup as Hd. rewrite Eall, fmap_app in Hd. apply NoDup_app in Hd as (Hd1 & Hd12 & Hd2).
  assert (Forall (chain_ok s' wc) rest) as Hrest'.
  { eapply chains_frame; [|exact Hrest]. intros q Hq. split; [done|]. apply Hfr. intros Hq'. by apply (Hd12 q). }
  split.
  - split; [exact Hm| |]; destruct (decide (l1 ++ l2 = [])) as [|Hne]; destruct Hnew as [-> Hring]; cbn [app]; try done.
    + constructor; [|done]. by eapply chain_without.
    + cbn [fmap list_fmap fst]. by constructor.
  - rewrite Eall, fmap_app, concat_app. destruct (decide (l1 ++ l2 = [])) as [E|Hne]; destruct Hnew as [-> _].
    + apply app_eq_nil in E as [-> ->]. done.
    + cbn [fmap list_fmap concat snd]. rewrite app_nil_r, <- !app_assoc. cbn [app]. apply Permutation_middle.
  - eapply framed_mono; [|exact Hfr]. intros q. rewrite Eall, (fmap_app fst _ (concat _)), elem_of_app. tauto.
Qed.

Lemma unlink_ok : (p, r) ∈ concat (snd <$> cs) -> r_wc r = wc ->
  exists lk h' cs' hd, find_equal t (r_flow r) (r_hash r) s = Ret (hd, s)
    /\ unlink_rule t p r hd s = Ret (tt, upd s (rule_heap s) lk t (with_ct_rules h' x))
    /\ removed s wc (p, r) cs (upd s (rule_heap s) lk t (with_ct_rules h' x)) h' cs'.
Proof.
  intros Hin Hw. apply elem_concat in Hin as ([f ch] & Hc & Hin). cbn [snd] in Hin.
  pose proof (in_chain _ _ _ _ _ _ Hcs Hc Hin) as [Hp Hok _ Hf Hh]. cbn [fst snd] in *. subst f.
  destruct (find_equal_ok s t x (r_flow r) wc cs Ht Hcs (ro_flow _ Hok)) as (hd & E & Hhd).
  destruct hd as [q|]; [|by destruct Hhd; apply (list_elem_of_fmap_2 fst) in Hc].
  destruct Hhd as (rq & l & Hc'). pose proof (same_chain _ _ _ _ _ _ Hcs Hc Hc' eq_refl) as Ech. injection Ech as ->.
  clear Hc'. destruct (in_split _ _ Hc) as (rest & Ecs). pose proof (chains_perm _ _ _ _ _ Ecs Hcs) as Hcr.
  pose proof (cs_map _ _ _ _ Hcr) as Hm. cbn [fmap list_fmap] in Hm. unfold chain_node at 1 in Hm. cbn [fst snd fmap list_fmap head default from_option id] in Hm.
  pose proof (cs_chains _ _ _ _ Hcr) as Hall. apply Forall_cons in Hall as [Hchain Hrest]. pose proof (ck_ring _ _ _ Hchain) as Hring. cbn [snd] in Hring.
  apply list_elem_of_split in Hin as (l1 & l2 & El). rewrite Hh. rewrite El in Ecs. destruct l1 as [|z l1].
  - (* the head *)
    injection El as -> -> ->. cbn [fmap list_fmap fst] in *.
    pose proof (lq_empty _ _ _ (list_queries_ok _ _ _ Hring)) as Ee.
    assert (forall h' lk, (alone ← on_links (list_is_empty p);
              if alone : bool then on_rules t (fun h => hmap_remove h (rule_node p r))
              else next ← on_links (next_of p); _ ← on_links (list_remove p);
                   _ ← on_rules t (fun h => hmap_replace h (rule_node p r) next); modify_rule next (with_hash (r_hash r))) s
            = Ret (tt, upd s (rule_heap s) lk t (with_ct_rules h' x)) ->
            unlink_rule t p r (Some p) s = Ret (tt, upd s (rule_heap s) lk t (with_ct_rules h' x))) as Hun.
    { intros h' lk Hx. unfold unlink_rule. by rewrite bool_decide_true. }
    destruct l2 as [|y l2].
    + destruct (hmap_remove_ok (ct_rules x) (chain_node <$> rest) (rule_node p r)) as (h' & Eh & Hm' & _ & _);
        [unfold rule_node; by rewrite Hh|lia|].
      exists (link_heap s), h', rest, (Some p). split; [exact E|]. split.
      * apply Hun. step (on_links_read _ s _ Ee). exact (on_rules_ok t _ s x h' Ht Eh).
      * apply (removed_ring (r_flow r) [] [] rest (link_heap s) h' []); [done|by rewrite decide_True|done|done].
    + pose proof (proj1 (ring_cons _ _ _) Hring) as (_ & Hlk & _).
      destruct (list_remove_ok _ _ _ Hring) as (lk & n & El' & _ & Hring' & Hfr); [done|].
      pose proof (ck_rules _ _ _ Hchain) as Hplace. cbn [fst snd] in Hplace. apply Forall_cons in Hplace as [_ Hplace].
      apply Forall_cons in Hplace as [[Hy _ _ _ Hyh] _].
      destruct (hmap_replace_ok (ct_rules x) (chain_node <$> rest) (rule_node p r) y.1) as (h' & Eh & Hm' & _);
        [unfold rule_node; by rewrite Hh| |].
      { intros Hq. apply (nodes_in_ptrs s wc) in Hq; [|exact Hrest].
        pose proof Hnodup as Hd. rewrite (concat_perm snd _ _ Ecs) in Hd. cbn [fmap list_fmap concat snd app] in Hd.
        apply NoDup_cons in Hd as [_ Hd]. apply NoDup_cons in Hd as [Hd _]. apply Hd. rewrite fmap_app. apply elem_of_app. by right. }
      exists lk, h', ((r_flow r, y :: l2) :: rest), (Some p). split; [exact E|]. split.
      * apply Hun. step (on_links_read _ s _ Ee). rewrite bool_decide_false by done.
        step (on_links_read _ s _ (next_of_ok _ _ _ Hlk)). cbn [l_next head default from_option id fmap list_fmap].
        step (on_links_ok _ s _ _ El').
        step (on_rules_ok t (fun h => hmap_replace h (rule_node p r) y.1) (with_link_heap lk s) x h' Ht Eh).
        unfold modify_rule. cbn [with_table_heap with_link_heap rule_heap]. rewrite Hy, Hh, <- Hyh.
        assert (with_hash (r_hash y.2) y.2 = y.2) as -> by (by destruct y as [? []]). rewrite insert_id by done. done.
      * apply (removed_ring (r_flow r) [] (y :: l2) rest lk h' [(r_flow r, y :: l2)]); [done|by rewrite decide_False| |].
        -- eapply framed_mono; [|exact Hfr]. cbn [app fmap list_fmap]. set_solver.
        -- unfold rule_node in Hm'. cbn [node_hash] in Hm'. by rewrite Hh in Hm'.
  - (* further down *)
    injection El as <- ->.
    cbn [fmap list_fmap fst] in Hring. rewrite fmap_app in Hring. cbn [fmap list_fmap fst] in Hring.
    assert (q <> p) as Hqp.
    { intros ->. pose proof (proj1 Hring) as Hd. apply NoDup_cons in Hd as [Hd _]. apply Hd, elem_of_app. right. by left. }
    destruct (list_remove_at _ _ _ _ _ Hring) as (lk & El' & Hring' & Hfr).
    exists lk, (ct_rules x), ((r_flow r, (q, rq) :: l1 ++ l2) :: rest), (Some q). split; [exact E|]. split.
    + unfold unlink_rule. rewrite bool_decide_false by congruence. cbn [negb]. step (on_links_ok _ s _ _ El').
      unfold upd. rewrite insert_id; [done|]. rewrite Ht. by destruct x.
    + apply (removed_ring (r_flow r) ((q, rq) :: l1) l2 rest lk _ [(r_flow r, (q, rq) :: l1 ++ l2)]); [done| | |exact Hm].
      * rewrite decide_False by done. split; [done|]. cbn [app fmap list_fmap fst]. by rewrite fmap_app.
      * eapply framed_mono; [|exact Hfr]. cbn [app fmap list_fmap fst]. rewrite fmap_app. cbn [fmap list_fmap fst]. set_solver.
Qed.
End remove.

(** The tables other than the one that changes. *)
Lemma rest_frame s s' tb rest : cls_pre s tb rest -> framed (ptrs (tab_rules tb)) (link_heap s) (link_heap s') ->
  rule_heap s' = rule_heap s -> (forall t, t <> tb_ptr tb -> table_heap s' !! t = table_heap s !! t) -> Forall (tab_ok s') rest.
Proof.
  intros Hpre Hl Erh Et. pose proof (table_ptrs _ _ _ Hpre) as Htp. pose proof (cp_rest _ _ _ Hpre) as Hall.
  pose proof (cp_ptrs _ _ _ Hpre) as Hd. rewrite fmap_app in Hd. apply NoDup_app in Hd as (_ & Hd & _).
  rewrite Forall_forall in *. intros u Hu. eapply tab_frame; [| |by apply Hall].
  - intros q Hq. assert (q ∈ ptrs (contents rest)) as Hqr.
    { apply list_elem_of_fmap in Hq as (y & -> & Hy). apply list_elem_of_fmap_2, elem_contents. by exists u. }
    rewrite Erh. split; [done|]. apply Hl. intros Hq'. by apply (Hd q).
  - apply Et. intros E. apply Htp. rewrite <- E. by apply list_elem_of_fmap_2.
Qed.

Lemma chains_empty s wc h cs : chains_ok s wc h cs -> concat (snd <$> cs) = [] -> cs = [].
Proof.
  intros [_ Hall _] E. destruct cs as [|c cs]; [done|]. apply Forall_cons in Hall as [Hc _]. pose proof (ck_some _ _ _ Hc).
  cbn [fmap list_fmap concat] in E. by apply app_eq_nil in E as [E _].
Qed.

Lemma nodup_ptrs_cons x (l l' : list prule) : x :: l ≡ₚ l' -> NoDup (ptrs l') -> NoDup (ptrs l).
Proof. intros E Hd. rewrite <- E in Hd. cbn [fmap list_fmap] in Hd. by apply NoDup_cons in Hd as [_ Hd]. Qed.

Lemma classifier_remove_ok s TS p r :
  cls_rep s TS -> (p, r) ∈ contents TS -> n_rules s < 2 ^ 61 ->
  exists s' TS', classifier_remove p s = Ret (tt, s') /\ cls_rep s' TS' /\ (p, r) :: contents TS' ≡ₚ contents TS
    /\ rule_heap s' = rule_heap s /\ (forall q, is_Some (link_heap s !! q) -> is_Some (link_heap s' !! q)).
Proof.
  intros Hr Hin Hbig. destruct (contents_place s TS (p, r) Hr Hin) as (tb & h0 & c & Htb & _ & Hc & Hpc & [Hp Hok Hw _ _]).
  cbn [fst snd] in *. unfold classifier_remove. step (load_rule_ok _ _ _ Hp).
  destruct (find_table_ok s TS (r_wc r) Hr (ro_wc _ Hok)) as (res & E & Hres). step E.
  destruct res as [t|]; [|by destruct Hres; rewrite Hw; apply list_elem_of_fmap_2].
  destruct Hres as (tb' & Htb' & Et & Ew). assert (tb' = tb) as -> by (apply (same_tab s TS); [done..|congruence]). subst t.
  step (eq_refl : deref (Some (tb_ptr tb)) s = Ret (tb_ptr tb, s)).
  destruct (in_split _ _ Htb) as (rest & Ep). pose proof (pre_of_rep s tb rest (rep_perm s TS _ Ep Hr)) as Hpre.
  pose proof Hpre as [Hm [(h & Hch & Et) Hwc] Hrest Hwcs Hptrs Hcount Hheap].
  pose proof Hptrs as Hd. rewrite fmap_app in Hd. apply NoDup_app in Hd as (Hd1 & Hd12 & Hd2).
  assert (hn h < 2 ^ 61) as Hhn.
  { pose proof (chains_bound _ _ _ _ Hch) as Hb. fold (tab_rules tb) in Hb. rewrite length_app in Hcount. lia. }
  set (x := MkTable (flow_wildcards_hash (tb_wc tb) 0) h (tb_wc tb) (Z.of_nat (length (tab_rules tb))) (flow_wildcards_is_catchall (tb_wc tb))) in *.
  assert ((p, r) ∈ concat (snd <$> tb_chains tb)) as Hpr by (apply elem_concat; by exists c).
  destruct (unlink_ok s (tb_ptr tb) x (tb_wc tb) (tb_chains tb) p r Et Hch Hd1 Hhn Hpr Hw) as (lk & h' & cs' & hd & E1 & E2 & [H1 H2 H3]).
  step E1. step E2. set (t := tb_ptr tb) in *. set (x' := with_ct_rules h' x) in *.
  set (x'' := with_n_table_rules (n_table_rules x' - 1) x').
  set (s2 := MkCls (n_rules s) (tables s) (rule_heap s) lk (<[t := x'']> (table_heap s))).
  assert (modify_table t (fun x => with_n_table_rules (n_table_rules x - 1) x) (upd s (rule_heap s) lk t x') = Ret (tt, s2)) as E3.
  { unfold modify_table, upd. cbn [table_heap]. rewrite lookup_insert_eq. unfold s2, with_table_heap. cbn. by rewrite insert_insert_eq. }
  step E3. assert (table_heap s2 !! t = Some x'') as Ex by (unfold s2; cbn; by rewrite lookup_insert_eq). step (load_table_ok _ _ _ Ex).
  assert (length (tab_rules tb) = S (length (concat (snd <$> cs')))) as Hlen by exact (eq_sym (Permutation_length H2)).
  assert (contents TS ≡ₚ tab_rules tb ++ contents rest) as Econt by (by rewrite (contents_perm _ _ Ep)).
  assert ((p, r) :: concat (snd <$> cs') ++ contents rest ≡ₚ contents TS) as Hres.
  { rewrite Econt, app_comm_cons. by apply Permutation_app_tail. }
  assert (NoDup (ptrs (concat (snd <$> cs') ++ contents rest))) as Hnd by (eapply nodup_ptrs_cons; [exact Hres|apply Hr]).
  assert (Z.of_nat (length (concat (snd <$> cs') ++ contents rest)) = n_rules s - 1) as Hn.
  { rewrite (cr_count _ _ Hr), <- (Permutation_length Hres). cbn [length]. lia. }
  assert (n_table_rules x'' = Z.of_nat (length (concat (snd <$> cs')))) as Hnt by (unfold x'', x', x; cbn; lia).
  destruct (n_table_rules x'' =? 0) eqn:Ez.
  - (* the table is empty now *)
    apply Z.eqb_eq in Ez. assert (cs' = []) as -> by (eapply chains_empty; [exact H1|]; apply nil_length_inv; lia).
    destruct (hmap_remove_ok (tables s) _ (tab_node tb) Hm) as (ht & Eh & Hm' & _ & _).
    { pose proof (table_bound _ _ Hr). lia. }
    set (s3 := MkCls (n_rules s) ht (rule_heap s) lk (delete t (<[t := x'']> (table_heap s)))).
    assert (destroy_table t s2 = Ret (tt, s3)) as E4.
    { unfold destroy_table. step (load_table_ok _ _ _ Ex).
      step (on_tables_ok (fun h => hmap_remove h (MkNode (ct_hash x'') t)) s2 ht Eh). unfold free_table. cbn [with_tables table_heap s2]. by rewrite lookup_insert_eq. }
    step E4. exists (with_n_rules (n_rules s - 1) s3), rest. split; [done|]. split; [|split; [exact Hres|split; [done|apply H3]]].
    split; [exact Hm'| | |exact Hnd|exact (eq_sym Hn)|].
    + apply (rest_frame s _ tb rest Hpre); [exact H3|done|]. intros u Hu. cbn. rewrite lookup_delete_ne, lookup_insert_ne by exact (not_eq_sym Hu). done.
    + cbn [fmap list_fmap] in Hwcs. by apply NoDup_cons in Hwcs as [_ Hwcs].
    + pose proof (table_ptrs _ _ _ Hpre) as Htp. intros u. cbn [with_n_rules s3 table_heap]. rewrite lookup_delete_is_Some, lookup_insert_is_Some, Hheap.
      cbn [fmap list_fmap]. rewrite elem_of_cons. split; [intros (? & [?|[_ [->|?]]]); done|]. intros Hu. assert (t <> u) by (intros E'; apply Htp; fold t; by rewrite E'). tauto.
  - apply Z.eqb_neq in Ez. rewrite (cstate_bind_step (mret tt) _ s2 tt s2 eq_refl).
    assert (cs' <> []) as Hne by (intros ->; apply Ez; rewrite Hnt; done).
    exists (with_n_rules (n_rules s - 1) s2), (MkTab t (tb_wc tb) cs' :: rest). split; [done|].
    split; [|split; [exact Hres|split; [done|apply H3]]]. split; [exact Hm| |exact Hwcs|exact Hnd|exact (eq_sym Hn)|].
    + apply Forall_cons. split.
      * split; [|done|exact Hne]. exists h'. cbn [tb_wc tb_chains tb_ptr]. split; [eapply chains_state; [| |exact H1]; reflexivity|].
        cbn [with_n_rules s2 table_heap]. rewrite lookup_insert_eq. unfold tab_rules. cbn [tb_chains]. rewrite <- Hnt. reflexivity.
      * apply (rest_frame s _ tb rest Hpre); [exact H3|done|]. intros u Hu. cbn. rewrite lookup_insert_ne by exact (not_eq_sym Hu). done.
    + intros u. cbn [with_n_rules s2 table_heap]. rewrite lookup_insert_is_Some, Hheap. cbn [fmap list_fmap tb_ptr]. fold t. rewrite elem_of_cons.
      split; [intros [->|[_ ?]]; [by left|done]|]. intros [->|Hu]; [by left|]. destruct (decide (t = u)); [by left|right; split; [done|by right]].
Qed.

(** ** Destruction *)

Lemma destroy_tables_ok fuel : forall s c,
  draining (tables s) c -> (length (nodes (tables s)) <= fuel)%nat ->
  (forall t, is_Some (table_heap s !! t) <-> t ∈ node_ptr <$> nodes (tables s)) ->
  exists s', destroy_tables fuel c s = Ret (tt, s') /\ table_heap s' = ∅ /\ rule_heap s' = rule_heap s.
Proof.
  assert (forall s, (forall t, is_Some (table_heap s !! t) <-> t ∈ node_ptr <$> nodes (tables s)) -> nodes (tables s) = [] -> table_heap s = ∅) as Hempty.
  { intros s H E. apply map_eq. intros t. rewrite lookup_empty. apply eq_None_not_Some. rewrite H, E. apply not_elem_of_nil. }
  induction fuel as [|n IH]; intros s c Hd Hf Hh.
  { exists s. split; [done|]. split; [|done]. apply Hempty; [done|]. apply nil_length_inv. lia. }
  destruct c as [|x next]; [exists s; split; [done|]; split; [|done]; by apply Hempty, draining_end|].
  destruct (draining_step _ _ _ Hd) as (h' & c' & En & Er & Hd' & E). pose proof (draining_nodup _ _ Hd) as Hn.
  cbn [destroy_tables]. step_get s. step (lift_ok _ s _ En). step (on_tables_ok (fun h => hmap_remove h x) s h' Er).
  rewrite E in Hn, Hh. cbn [fmap list_fmap] in Hn, Hh. apply NoDup_cons in Hn as [Hx _].
  destruct (proj2 (Hh (node_ptr x)) (list_elem_of_here _ _)) as [y Hy].
  assert (free_table (node_ptr x) (with_tables h' s) = Ret (tt, with_table_heap (delete (node_ptr x) (table_heap s)) (with_tables h' s))) as E1
    by (unfold free_table; cbn [with_tables table_heap]; by rewrite Hy).
  step E1. destruct (IH (with_table_heap (delete (node_ptr x) (table_heap s)) (with_tables h' s)) c') as (s' & E2 & H1 & H2); cbn [with_table_heap with_tables tables table_heap].
  - done.
  - rewrite E in Hf. cbn [length] in Hf. lia.
  - intros t. rewrite lookup_delete_is_Some, Hh, elem_of_cons. split; [intros [? [?|?]]; [congruence|done]|].
    intros Ht. split; [|by right]. by intros <-.
  - exists s'. split; [exact E2|]. split; [done|]. by rewrite H2.
Qed.

(** Every table is freed, and the rules, which belong to the caller, are left alone. *)
Lemma classifier_destroy_ok s TS : cls_rep s TS -> n_rules s < 2 ^ 61 ->
  exists s', classifier_destroy s = Ret (tt, s') /\ table_heap s' = ∅ /\ rule_heap s' = rule_heap s.
Proof.
  intros Hr Hbig. unfold classifier_destroy. step_get s. pose proof (table_bound _ _ Hr).
  destruct (draining_first _ _ (cr_map _ _ Hr) ltac:(lia)) as (c & E & Hd). step (lift_ok _ s _ E).
  apply (destroy_tables_ok _ s c Hd); [done|]. intros t.
  rewrite (hr_nodes _ _ (cr_map _ _ Hr)), <- list_fmap_compose. apply Hr.
Qed.

Lemma classifier_init_ok s : table_heap s = ∅ -> cls_rep (classifier_init s) [].
Proof.
  intros E. split; cbn; [exact init_rep|by apply Forall_nil|by apply NoDup_nil|by apply NoDup_nil|done|].
  intros t. rewrite E, lookup_empty. split; [by intros [? ?]|by intros ?%not_elem_of_nil].
Qed.
