(* ===== verification/ClsProps.v ===== *)
(** * Properties of the classifier (lib/classifier.c)

    The classifier against what it stands for, a set of rules with one rule for each
    combination of wildcards, flow and priority: changes, searches and iteration. *)
From S2P Require Import Prelude Hash Hmap DList Flow ClsRule Classifier ClsUpdate ClsCursor.

Local Open Scope Z_scope.

#[local] Opaque flow_hash flow_wildcards_hash flow_equal flow_wildcards_equal flow_wildcards_is_catchall.

(** ** The specification *)

(** Two rules of a classifier with the same key are one. *)
Lemma key_unique s TS x y r : cls_rep s TS -> x ∈ contents TS -> y ∈ contents TS ->
  same_key x.2 r -> same_key y.2 r -> x = y.
Proof.
  intros Hr Hx Hy (Ex1 & Ex2 & Ex3) (Ey1 & Ey2 & Ey3).
  destruct (contents_place s TS x Hr Hx) as (tb & h & c & Htb & Hch & Hc & Hxc & [_ _ Fx _ _]).
  destruct (contents_place s TS y Hr Hy) as (tb' & h' & c' & Htb' & _ & Hc' & Hyc & [_ _ Fy _ _]).
  assert (tb' = tb) as -> by (apply (same_tab s TS); [done..|congruence]).
  apply (clash_unique s (tb_wc tb) h (tb_chains tb) r); [done|apply elem_concat; eauto..|by split|by split].
Qed.

(** What a caller does to a classifier. *)
Inductive cls_op :=
  | Op_replace (p : nat)
  | Op_insert (p : nat)
  | Op_remove (p : nat).

Definition run_cls_op (o : cls_op) : cm (option nat) :=
  match o with
  | Op_replace p => classifier_replace p
  | Op_insert p => _ ← classifier_insert p; mret None
  | Op_remove p => _ ← classifier_remove p; mret None
  end.

Fixpoint run_cls_ops (os : list cls_op) : cm (list (option nat)) :=
  match os with
  | [] => mret []
  | o :: os' => out ← run_cls_op o; outs ← run_cls_ops os'; mret (out :: outs)
  end.

(** The same on a set of rules, listed with their addresses; [R] is the caller's rules.  A
    rule goes in at most once, classifier_insert needs a key that is not there, and only a
    rule that is there is removed, as the comments ask. *)
Inductive spec_op (R : gmap nat cls_rule) : cls_op -> option nat -> list prule -> list prule -> Prop :=
  | Spec_replace p r old L :
      R !! p = Some r -> p ∉ ptrs L -> finds r L old -> spec_op R (Op_replace p) old L (put_rule p r L)
  | Spec_insert p r L :
      R !! p = Some r -> p ∉ ptrs L -> finds r L None -> spec_op R (Op_insert p) None L ((p, hashed r) :: L)
  | Spec_remove p r L L' :
      (p, r) :: L' ≡ₚ L -> spec_op R (Op_remove p) None L L'.

Inductive spec_run (R : gmap nat cls_rule) : list cls_op -> list (option nat) -> list prule -> list prule -> Prop :=
  | Spec_nil L : spec_run R [] [] L L
  | Spec_cons o os out outs L L1 L2 :
      spec_op R o out L L1 -> spec_run R os outs L1 L2 -> spec_run R (o :: os) (out :: outs) L L2.

(** The caller's rules are in memory, with whatever hash insertion left in them. *)
Definition rules_ready (R : gmap nat cls_rule) (s : cls_state) : Prop :=
  forall p r, R !! p = Some r -> rule_ok r /\ is_Some (link_heap s !! p)
    /\ exists h, rule_heap s !! p = Some (with_hash h r).

Lemma finds_perm t L L' res : L ≡ₚ L' -> finds t L res -> finds t L' res.
Proof.
  intros E. destruct res as [p|]; cbn [finds].
  - intros (r & Hin & Hk). exists r. by rewrite <- E.
  - intros Hn x Hx. apply Hn. by rewrite E.
Qed.

Lemma finds_unique s TS t L a b : cls_rep s TS -> contents TS ≡ₚ L -> finds t (contents TS) a -> finds t L b -> a = b.
Proof.
  intros Hr E Ha Hb. apply (finds_perm t L (contents TS)) in Hb; [|done]. destruct a as [p|], b as [q|]; cbn [finds] in *.
  - destruct Ha as (r & Hp & Kp), Hb as (r' & Hq & Kq). pose proof (key_unique s TS (p, r) (q, r') t Hr Hp Hq Kp Kq). congruence.
  - destruct Ha as (r & Hp & Kp). by destruct (Hb _ Hp).
  - destruct Hb as (r & Hp & Kp). by destruct (Ha _ Hp).
  - done.
Qed.

(** The hash does not matter. *)
Lemma put_rule_hash p r h L : put_rule p (with_hash h r) L = put_rule p r L.
Proof. done. Qed.

Lemma filter_perm {A} (P : A -> Prop) `{!forall x, Decision (P x)} (l l' : list A) : l ≡ₚ l' -> filter P l ≡ₚ filter P l'.
Proof. by intros ->. Qed.

Lemma ready_put R s s' p h r : rules_ready R s -> R !! p = Some r -> rule_heap s' = put_heap s p (with_hash h r) ->
  (forall q, is_Some (link_heap s !! q) -> is_Some (link_heap s' !! q)) -> rules_ready R s'.
Proof.
  intros H Hp E Hl q t Hq. destruct (H q t Hq) as (H1 & H2 & g & H3). split; [done|]. split; [by apply Hl|].
  rewrite E. unfold put_heap. destruct (decide (p = q)) as [->|Hne].
  - assert (t = r) as -> by congruence. rewrite lookup_insert_eq. by eexists.
  - rewrite lookup_insert_ne by done. by exists g.
Qed.

(** One call. *)
Lemma spec_op_ok R o out L L' s : spec_op R o out L L' -> rules_ready R s -> cls_holds s L -> n_rules s + 1 < 2 ^ 31 ->
  exists s', run_cls_op o s = Ret (out, s') /\ rules_ready R s' /\ cls_holds s' L'.
Proof.
  intros Hop HR (TS & Hr & EL) Hb. assert (n_rules s + 1 < 2 ^ 61) as Hb' by lia.
  assert (forall p r, R !! p = Some r -> p ∉ ptrs L -> exists h, new_rule s (contents TS) p (with_hash h r)) as Hnew.
  { intros p r Hp Hn. destruct (HR p r Hp) as (Hok & Hlk & h & Hh). exists h. split; [done| |done|by rewrite EL]. by destruct Hok. }
  destruct Hop as [p r old L Hp Hn Hf|p r L Hp Hn Hf|p r L L' E].
  - destruct (Hnew p r Hp Hn) as (h & Hw). destruct (classifier_replace_ok s TS p _ Hr Hw Hb') as (old' & s' & TS' & E & Hr' & Ec & Hf' & Erh & Hl).
    exists s'. assert (old' = old) as -> by (eapply finds_unique; [exact Hr|exact EL|exact Hf'|exact Hf]). split; [exact E|].
    split; [by eapply ready_put|]. exists TS'. split; [done|]. rewrite Ec, put_rule_hash. unfold put_rule. constructor. by apply filter_perm.
  - destruct (Hnew p r Hp Hn) as (h & Hw).
    destruct (classifier_insert_ok s TS p _ Hr Hw Hb') as [((y & Hy & Hk) & _)|(_ & s' & TS' & E & Hr' & Ec & Erh & Hl)].
    + rewrite EL in Hy. by destruct (Hf y Hy).
    + exists s'. split; [cbn [run_cls_op]; by step E|]. split; [by eapply ready_put|]. exists TS'. split; [done|]. rewrite Ec. by constructor.
  - assert ((p, r) ∈ contents TS) as Hin by (rewrite EL, <- E; by left).
    destruct (classifier_remove_ok s TS p r Hr Hin ltac:(lia)) as (s' & TS' & E1 & Hr' & Ec & Erh & Hl).
    exists s'. split; [cbn [run_cls_op]; by step E1|]. split.
    + intros q t Hq. destruct (HR q t Hq) as (H1 & H2 & g & H3). rewrite Erh. split; [done|]. split; [by apply Hl|by exists g].
    + exists TS'. split; [done|]. rewrite EL, <- E in Ec. by apply Permutation_cons_inv in Ec.
Qed.

Lemma holds_count s L : cls_holds s L -> n_rules s = Z.of_nat (length L).
Proof. intros (TS & Hr & <-). apply Hr. Qed.

Lemma spec_op_length R o out L L' : spec_op R o out L L' -> (length L' <= S (length L))%nat.
Proof.
  intros [p r old K H1 H2 H3|p r K H1 H2 H3|p r K K' E]; cbn [put_rule length].
  - apply le_n_S, length_filter.
  - done.
  - rewrite <- E. cbn [length]. lia.
Qed.

Lemma spec_run_ok R os outs L L' : spec_run R os outs L L' -> forall s,
  rules_ready R s -> cls_holds s L -> Z.of_nat (length L + length os) < 2 ^ 31 ->
  exists s', run_cls_ops os s = Ret (outs, s') /\ cls_holds s' L'.
Proof.
  induction 1 as [L|o os out outs L L1 L2 Hop _ IH]; intros s HR Hs Hb; cbn [length] in Hb; [by exists s|].
  pose proof (spec_op_length _ _ _ _ _ Hop) as Hlen. pose proof (holds_count s L Hs) as Hn.
  destruct (spec_op_ok R o out L L1 s Hop HR Hs ltac:(lia)) as (s1 & E1 & HR1 & Hs1).
  destruct (IH s1 HR1 Hs1 ltac:(lia)) as (s' & E & Hs'). exists s'. split; [|done]. cbn [run_cls_ops]. step E1. by step E.
Qed.

(** ** Properties *)

(** C17: A classifier is a set of rules with at most one rule for each key (wildcards, flow and
    priority).  Any sequence of classifier_replace, classifier_insert and classifier_remove on
    a new classifier that keeps the rules of their comments runs without a fault (no assertion
    fails, no pointer dangles, every loop ends), returns for each replacement the rule that was
    displaced, leaves exactly the rules that the set has, and the count and emptiness that the
    interface reports are those of the set; classifier_destroy then frees every table. *)
Theorem classifier_refines_rule_set R os outs L s0 :
  spec_run R os outs [] L -> table_heap s0 = ∅ -> rules_ready R s0 -> Z.of_nat (length os) < 2 ^ 31 ->
  exists s, run_cls_ops os (classifier_init s0) = Ret (outs, s) /\ cls_holds s L
    /\ classifier_count s = Z.of_nat (length L) /\ (classifier_is_empty s = true <-> L = [])
    /\ (forall x y, x ∈ L -> y ∈ L -> same_key x.2 y.2 -> x = y)
    /\ exists s', classifier_destroy s = Ret (tt, s') /\ table_heap s' = ∅ /\ rule_heap s' = rule_heap s.
Proof.
  intros Hrun H0 HR Hb. assert (cls_holds (classifier_init s0) []) as Hs0 by (exists []; split; [by apply classifier_init_ok|done]).
  assert (forall R os outs L L', spec_run R os outs L L' -> (length L' <= length L + length os)%nat) as Hlen.
  { induction 1 as [K|o os' out outs' K K1 K2 Hop _ IH]; [lia|]. pose proof (spec_op_length _ _ _ _ _ Hop). cbn [length]. lia. }
  specialize (Hlen _ _ _ _ _ Hrun). cbn [length] in Hlen.
  destruct (spec_run_ok R os outs [] L Hrun (classifier_init s0) HR Hs0 Hb) as (s & E & Hs). exists s. split; [done|]. split; [done|].
  pose proof (holds_count s L Hs) as Hn. destruct Hs as (TS & Hr & EL). split; [done|]. split; [|split].
  - unfold classifier_is_empty. rewrite Hn, Z.eqb_eq. destruct L; cbn [length]; [done|]. split; [lia|done].
  - intros x y Hx Hy Hk. rewrite <- EL in Hx, Hy. by apply (key_unique s TS x y y.2 Hr Hx Hy).
  - apply (classifier_destroy_ok s TS Hr). lia.
Qed.

(** C18: classifier_lookup returns a rule of the highest priority among those that match the
    packet, and a null pointer exactly if none matches. *)
Theorem classifier_lookup_highest s L f :
  cls_holds s L -> flow_ok f ->
  exists res, classifier_lookup f s = Ret (res, s)
    /\ match res with
       | Some p => exists r, (p, r) ∈ L /\ hits r f /\ forall x, x ∈ L -> hits x.2 f -> r_priority x.2 <= r_priority r
       | None => forall x, x ∈ L -> ~ hits x.2 f
       end.
Proof.
  intros (TS & Hr & EL) Hf. destruct (classifier_lookup_ok s TS f Hr Hf) as (res & E & H). exists res. split; [done|].
  by apply (best_match_perm f (contents TS) L res EL).
Qed.

(** C19: The two questions asked before a rule is added are answered for the whole set.
    classifier_find_rule_exactly returns the rule with the key of the target, or null if there
    is none; classifier_rule_overlaps is true exactly if some rule of the same priority and
    the target both match some packet. *)
Theorem classifier_queries s L t z :
  cls_holds s L -> rule_ok t ->
  (exists res, classifier_find_rule_exactly t s = Ret (res, s)
     /\ match res with
        | Some p => exists r, (p, r) ∈ L /\ same_key r t
        | None => forall x, x ∈ L -> ~ same_key x.2 t
        end)
  /\ (exists b, classifier_rule_overlaps z t s = Ret (b, s)
        /\ (b = true <-> exists x f, x ∈ L /\ r_priority x.2 = r_priority t /\ flow_ok f /\ hits t f /\ hits x.2 f)).
Proof.
  intros (TS & Hr & EL) Ht. split.
  - destruct (find_rule_exactly_ok s TS t Hr Ht) as (res & E & H). exists res. split; [done|].
    by apply (finds_perm t (contents TS) L res EL).
  - destruct (rule_overlaps_ok z t Ht s TS Hr) as (b & E & H). exists b. split; [done|]. rewrite H. split.
    + intros (x & Hx & Hp & f & Hf). exists x, f. rewrite EL in Hx. split; [done|]. by split; [exact Hp|].
    + intros (x & f & Hx & Hp & Hf). exists x. rewrite EL. split; [done|]. split; [done|]. by exists f.
Qed.

(** C36: A cursor visits every rule that it is to visit, each once: all rules without a target,
    and with one those for which cls_rule_is_loose_match holds; the loop ends after as many
    rounds as there are rules. *)
Theorem cursor_complete s L target cur fuel :
  cls_holds s L -> (length L <= fuel)%nat ->
  exists l, cursor_for_each fuel (cls_cursor_init cur target) s = Ret (ptrs l, s) /\ NoDup (ptrs l)
    /\ forall x, x ∈ l <-> x ∈ L /\ match target with None => True | Some t => cls_rule_is_loose_match x.2 t = true end.
Proof.
  intros (TS & Hr & EL) Hf. destruct (cursor_visits s TS target cur fuel Hr) as (l & E & Hd & Hl); [by rewrite EL|].
  exists l. split; [done|]. split.
  - apply NoDup_fmap_2_strong; [|done]. intros x y Hx Hy Exy. apply Hl in Hx as [Hx _], Hy as [Hy _].
    pose proof (contents_place s TS x Hr Hx) as (? & ? & ? & _ & _ & _ & _ & [E1 _ _ _ _]).
    pose proof (contents_place s TS y Hr Hy) as (? & ? & ? & _ & _ & _ & _ & [E2 _ _ _ _]). destruct x, y. cbn in *. congruence.
  - intros x. rewrite (Hl x), EL. done.
Qed.

(** ** Witnesses

    A catch-all rule and three exact ones, two of them with the same key. *)

Definition demo_rules : gmap nat cls_rule :=
  <[1%nat := cls_rule_init_catchall 1 0]> (<[2%nat := cls_rule_init_exact flow_zero 5 0]>
  (<[3%nat := cls_rule_init_exact flow_zero 7 0]> (<[4%nat := cls_rule_init_exact flow_zero 5 0]> ∅))).

Definition demo_store : cls_state :=
  MkCls 0 hmap_init demo_rules
    (<[1%nat := MkLink 0 0]> (<[2%nat := MkLink 0 0]> (<[3%nat := MkLink 0 0]> (<[4%nat := MkLink 0 0]> ∅)))) ∅.

Definition demo_cls_ops : list cls_op := [Op_insert 1; Op_insert 2; Op_replace 3; Op_replace 4; Op_remove 3].
Definition demo_cls_outs : list (option nat) := [None; None; None; Some 2%nat; None].

Definition demo_contents : list prule :=
  [(4%nat, hashed (cls_rule_init_exact flow_zero 5 0)); (1%nat, hashed (cls_rule_init_catchall 1 0))].

Lemma demo_ready : rules_ready demo_rules demo_store.
Proof.
  intros p r. unfold demo_store, demo_rules. cbn [rule_heap link_heap].
  rewrite !lookup_insert_Some, lookup_empty. intros H.
  assert (forall q, q ∈ [1; 2; 3; 4]%nat -> is_Some ((<[1%nat := MkLink 0 0]> (<[2%nat := MkLink 0 0]>
    (<[3%nat := MkLink 0 0]> (<[4%nat := MkLink 0 0]> (∅ : links))))) !! q)) as Hl.
  { intros q Hq. repeat (apply elem_of_cons in Hq as [->|Hq]; [by eexists|]). by apply not_elem_of_nil in Hq. }
  destruct H as [[<- <-]|[_ [[<- <-]|[_ [[<- <-]|[_ [[<- <-]|[_ H]]]]]]]]; [| | | |done];
    (split; [first [apply catchall_rule_ok|apply exact_zero_rule_ok]|split; [apply Hl; set_solver|by exists 0]]).
Qed.

Lemma demo_spec_run : spec_run demo_rules demo_cls_ops demo_cls_outs [] demo_contents.
Proof.
  set (A := cls_rule_init_catchall 1 0). set (B := cls_rule_init_exact flow_zero 5 0). set (C := cls_rule_init_exact flow_zero 7 0).
  apply Spec_cons with (L1 := [(1%nat, hashed A)]).
  { apply Spec_insert; [done|by intros ?%not_elem_of_nil|by intros ? ?%not_elem_of_nil]. }
  apply Spec_cons with (L1 := [(2%nat, hashed B); (1%nat, hashed A)]).
  { apply Spec_insert; [done|set_solver|]. intros x [->|?%not_elem_of_nil]%elem_of_cons; [|done]. by intros (_ & _ & E). }
  apply Spec_cons with (L1 := [(3%nat, hashed C); (2%nat, hashed B); (1%nat, hashed A)]).
  { change [(3%nat, hashed C); (2%nat, hashed B); (1%nat, hashed A)] with (put_rule 3 C [(2%nat, hashed B); (1%nat, hashed A)]).
    apply Spec_replace; [done|set_solver|].
    intros x [->|[->|?%not_elem_of_nil]%elem_of_cons]%elem_of_cons; [by intros (_ & _ & E)|by intros (_ & _ & E)|done]. }
  apply Spec_cons with (L1 := [(4%nat, hashed B); (3%nat, hashed C); (1%nat, hashed A)]).
  { change [(4%nat, hashed B); (3%nat, hashed C); (1%nat, hashed A)] with (put_rule 4 B [(3%nat, hashed C); (2%nat, hashed B); (1%nat, hashed A)]).
    apply Spec_replace; [done|set_solver|]. exists (hashed B). split; [set_solver|]. by repeat split. }
  apply Spec_cons with (L1 := demo_contents); [|constructor].
  apply Spec_remove with (r := hashed C). apply Permutation_swap.
Qed.

Lemma demo_run : exists s, run_cls_ops demo_cls_ops (classifier_init demo_store) = Ret (demo_cls_outs, s) /\ cls_holds s demo_contents.
Proof.
  apply (spec_run_ok _ _ _ _ _ demo_spec_run (classifier_init demo_store) demo_ready); [|reflexivity].
  exists []. split; [by apply classifier_init_ok|done].
Qed.

Definition demo_cls : cls_state :=
  match run_cls_ops demo_cls_ops (classifier_init demo_store) with Ret (_, s) => s | Stuck _ => demo_store end.

Lemma demo_holds : cls_holds demo_cls demo_contents.
Proof. destruct demo_run as (s & E & H). unfold demo_cls. by rewrite E. Qed.

Example classifier_refines_rule_set_witness :
  exists s, run_cls_ops demo_cls_ops (classifier_init demo_store) = Ret (demo_cls_outs, s) /\ cls_holds s demo_contents
    /\ classifier_count s = 2 /\ (classifier_is_empty s = true <-> demo_contents = [])
    /\ (forall x y, x ∈ demo_contents -> y ∈ demo_contents -> same_key x.2 y.2 -> x = y)
    /\ exists s', classifier_destroy s = Ret (tt, s') /\ table_heap s' = ∅ /\ rule_heap s' = rule_heap s.
Proof.
  exact (classifier_refines_rule_set demo_rules demo_cls_ops demo_cls_outs demo_contents demo_store
           demo_spec_run eq_refl demo_ready eq_refl).
Defined.

(** Both rules match a packet without headers; the exact one has the higher priority. *)
Example classifier_lookup_highest_witness :
  exists res, classifier_lookup flow_zero demo_cls = Ret (res, demo_cls)
    /\ match res with
       | Some p => exists r, (p, r) ∈ demo_contents /\ hits r flow_zero
                    /\ forall x, x ∈ demo_contents -> hits x.2 flow_zero -> r_priority x.2 <= r_priority r
       | None => forall x, x ∈ demo_contents -> ~ hits x.2 flow_zero
       end.
Proof. exact (classifier_lookup_highest demo_cls demo_contents flow_zero demo_holds flow_zero_ok). Defined.

Example classifier_queries_witness :
  (exists res, classifier_find_rule_exactly (cls_rule_init_catchall 1 0) demo_cls = Ret (res, demo_cls)
     /\ match res with
        | Some p => exists r, (p, r) ∈ demo_contents /\ same_key r (cls_rule_init_catchall 1 0)
        | None => forall x, x ∈ demo_contents -> ~ same_key x.2 (cls_rule_init_catchall 1 0)
        end)
  /\ (exists b, classifier_rule_overlaps 0 (cls_rule_init_catchall 1 0) demo_cls = Ret (b, demo_cls)
        /\ (b = true <-> exists x f, x ∈ demo_contents /\ r_priority x.2 = 1 /\ flow_ok f
                          /\ hits (cls_rule_init_catchall 1 0) f /\ hits x.2 f)).
Proof. exact (classifier_queries demo_cls demo_contents (cls_rule_init_catchall 1 0) 0 demo_holds (catchall_rule_ok 1 0)). Defined.

Example cursor_complete_witness :
  exists l, cursor_for_each 2 (cls_cursor_init (MkCursor 0 None) (Some (cls_rule_init_catchall 1 0))) demo_cls = Ret (ptrs l, demo_cls)
    /\ NoDup (ptrs l)
    /\ forall x, x ∈ l <-> x ∈ demo_contents /\ cls_rule_is_loose_match x.2 (cls_rule_init_catchall 1 0) = true.
Proof.
  exact (cursor_complete demo_cls demo_contents (Some (cls_rule_init_catchall 1 0)) (MkCursor 0 None) 2 demo_holds (le_n 2)).
Defined.

(** The model runs: the rule found is the exact one. *)
Example lookup_runs : fst <$> classifier_lookup flow_zero demo_cls = Ret (Some 4%nat).
Proof. vm_compute. reflexivity. Qed.
