(* ===== verification/SlaveMap.v ===== *)
(** * The slaves of an aggregate (lib/lacp.c, lib/bond.c)

    LACP and bonding keep the interfaces of an aggregate in the same way: a hash map of slave
    records, each found by the pointer its client registered it with.  This file has what the
    two share: the memory of the records with the map over it, the loops over the map, and
    the list of slaves, in the order of iteration, that the map stands for.

    An address in the memory is a [nat] and the client's pointer a number.  A [Slave] is a
    record with that pointer and the hash kept in its map node. *)
From S2P Require Import Prelude Hash Hmap.

Local Open Scope Z_scope.

(** ** Definitions *)

Class Slave (A : Type) := { aux : A -> Z; shash : A -> Z }.

Record slave_map (A : Type) := MkSm { sm_heap : gmap nat A; sm_next : nat; sm_table : hmap }.
Arguments MkSm {A} _ _ _.
Arguments sm_heap {A} _.
Arguments sm_next {A} _.
Arguments sm_table {A} _.

Definition sm_empty {A} : slave_map A := MkSm ∅ 0 hmap_init.

Section operations.
Context {A : Type} `{Slave A}.

Abbreviation smm := (cstate (slave_map A)).

Definition sm_load (p : nat) : smm A := fun m =>
  match sm_heap m !! p with Some s => Ret (s, m) | None => Stuck DanglingPtr end.

Definition sm_modify (p : nat) (f : A -> A) : smm unit := fun m =>
  match sm_heap m !! p with
  | Some s => Ret (tt, MkSm (<[p := f s]> (sm_heap m)) (sm_next m) (sm_table m))
  | None => Stuck DanglingPtr
  end.

(** xzalloc, which does not fail, and the first stores into the block. *)
Definition sm_new (s : A) : smm nat := fun m =>
  Ret (sm_next m, MkSm (<[sm_next m := s]> (sm_heap m)) (S (sm_next m)) (sm_table m)).

Definition sm_free (p : nat) : smm unit := fun m =>
  match sm_heap m !! p with
  | Some _ => Ret (tt, MkSm (delete p (sm_heap m)) (sm_next m) (sm_table m))
  | None => Stuck InvalidFree
  end.

Definition on_table (f : hmap -> outcome hmap) : smm unit := fun m =>
  match f (sm_table m) with
  | Ret t => Ret (tt, MkSm (sm_heap m) (sm_next m) t)
  | Stuck e => Stuck e
  end.

(** [hmap_insert(&slaves, &slave->node, hash_pointer(slave_, 0))] *)
Definition sm_insert (p : nat) : smm unit :=
  s ← sm_load p; on_table (fun t => hmap_insert t p (shash s)).

Definition sm_remove (p : nat) : smm unit :=
  s ← sm_load p; on_table (fun t => hmap_remove t (MkNode (shash s) p)).

(** slave_lookup and bond_slave_lookup: the loop over the bucket. *)
Definition sm_lookup (q : Z) : smm (option nat) :=
  m ← get;
  ns ← lift (hmap_first_in_bucket (sm_table m) (hash_pointer q 0));
  until_some (fun p => s ← sm_load p; mret (if aux s =? q then Some p else None)) ns.

(** HMAP_FOR_EACH over the slaves, with a body that does not change the map. *)
Definition sm_nodes (m : slave_map A) : outcome (list nat) :=
  ns ← for_each (sm_table m) (length (nodes (sm_table m))); Ret (fmap (M:=list) node_ptr ns).

(** The slave that hmap_first finds. *)
Definition sm_first (m : slave_map A) : outcome (option nat) :=
  c ← hmap_first (sm_table m); Ret (fmap (M:=option) node_ptr (head c)).

End operations.

(** A loop over slaves; [b] is what it carries from round to round. *)
Fixpoint each {St B} (body : nat -> B -> cstate St B) (ps : list nat) (b : B) : cstate St B :=
  match ps with
  | [] => mret b
  | p :: ps' => b' ← body p b; each body ps' b'
  end.

(** ** Representation *)

#[local] Opaque hash_pointer.

Section representation.
Context {A : Type} `{Slave A}.

Definition node_of (x : nat * A) : hmap_node := MkNode (shash x.2) x.1.
Definition aux_of (x : nat * A) : Z := aux x.2.

(** The map holds the slaves [L], with their addresses, in the order of iteration. *)
Record sm_rep (m : slave_map A) (L : list (nat * A)) : Prop := {
  sr_ok : hmap_ok (sm_table m);
  sr_nodes : nodes (sm_table m) = node_of <$> L;
  sr_ptrs : NoDup L.*1;
  sr_heap : forall p s, sm_heap m !! p = Some s <-> (p, s) ∈ L;
  sr_fresh : Forall (fun x => (x.1 < sm_next m)%nat) L;
  sr_aux : NoDup (aux_of <$> L);
  sr_hash : Forall (fun x => shash x.2 = hash_pointer (aux x.2) 0) L
}.

(** The slave a client's pointer stands for. *)
Definition find_slave (q : Z) (L : list (nat * A)) : option (nat * A) :=
  find_first (fun x => aux x.2 =? q) L.

Lemma find_slave_elem q L p s : NoDup (aux_of <$> L) -> find_slave q L = Some (p, s) <-> (p, s) ∈ L /\ aux s = q.
Proof.
  intros Hd. split.
  - intros E. apply find_first_Some in E as [E ?]. split; [done|]. by apply Z.eqb_eq in E.
  - intros [Hin Hq]. apply list_elem_of_split in Hin as (l1 & l2 & ->).
    rewrite fmap_app in Hd. apply NoDup_app in Hd as (_ & Hd & _). unfold find_slave.
    induction l1 as [|y l1 IH]; cbn [app find_first].
    { cbn [snd]. by rewrite (proj2 (Z.eqb_eq _ _) Hq). }
    destruct (Z.eqb_spec (aux y.2) q) as [E|]; [|apply IH; intros z Hz; apply Hd; by right].
    exfalso. apply (Hd (aux y.2)); [by left|]. rewrite E, <- Hq. by left.
Qed.

Lemma find_slave_None q L : find_slave q L = None <-> q ∉ (aux_of <$> L).
Proof.
  unfold find_slave. rewrite find_first_None, list_elem_of_fmap. split.
  - intros Hn (x & -> & Hx). specialize (Hn x Hx). by apply Z.eqb_neq in Hn.
  - intros Hn x Hx. apply Z.eqb_neq. intros <-. apply Hn. by exists x.
Qed.

Lemma sm_hmap_rep m L : sm_rep m L -> hmap_rep (sm_table m) (node_of <$> L).
Proof.
  intros [H1 H2 H3 _ _ _ _]. split; [done|by rewrite H2|]. by rewrite <- list_fmap_compose.
Qed.

Lemma sm_count m L : sm_rep m L -> hmap_count (sm_table m) = Z.of_nat (length L).
Proof. intros Hr. unfold hmap_count. rewrite (rep_count _ _ (sm_hmap_rep _ _ Hr)). by rewrite length_fmap. Qed.

Lemma sm_empty_rep : sm_rep sm_empty [].
Proof.
  split; cbn; try (by constructor); [apply init_rep|].
  intros p s. rewrite lookup_empty. split; [done|]. by intros ?%not_elem_of_nil.
Qed.

Lemma sm_load_ok m L p s : sm_rep m L -> (p, s) ∈ L -> sm_load p m = Ret (s, m).
Proof. intros Hr Hin. unfold sm_load. by rewrite (proj2 (sr_heap _ _ Hr p s) Hin). Qed.

(** A store into a slave that keeps its pointer and its hash. *)
Lemma sm_modify_ok m L1 L2 p s f :
  sm_rep m (L1 ++ (p, s) :: L2) -> aux (f s) = aux s -> shash (f s) = shash s ->
  exists m', sm_modify p f m = Ret (tt, m') /\ sm_rep m' (L1 ++ (p, f s) :: L2) /\ sm_table m' = sm_table m.
Proof.
  intros [H1 H2 H3 H4 H5 H6 H7] Ha Hh. unfold sm_modify.
  rewrite (proj2 (H4 p s) ltac:(apply elem_of_app; right; left)). eexists. split; [done|]. split; [|done].
  rewrite fmap_app, fmap_cons in H3. rewrite fmap_app, fmap_cons in H6. cbn in H3, H6.
  split; cbn [sm_table sm_heap sm_next]; [done|..].
  - rewrite H2, !fmap_app, !fmap_cons. unfold node_of at 2 5. cbn [fst snd]. by rewrite Hh.
  - by rewrite fmap_app, fmap_cons.
  - intros q x. destruct (decide (q = p)) as [->|Hq].
    + rewrite lookup_insert_eq. rewrite elem_of_app, elem_of_cons.
      apply NoDup_app in H3 as (_ & Hd & Hd2). apply NoDup_cons in Hd2 as [Hd2 _]. split.
      * intros [= <-]. by right; left.
      * intros [Hx|[[= ->]|Hx]]; [|done|].
        -- exfalso. apply (Hd p); [by apply (list_elem_of_fmap_2 fst L1 (p, x))|by left].
        -- exfalso. apply Hd2. by apply (list_elem_of_fmap_2 fst L2 (p, x)).
    + rewrite lookup_insert_ne, H4 by done. rewrite !elem_of_app, !elem_of_cons. naive_solver.
  - apply Forall_app in H5 as [? H5]. apply Forall_cons in H5 as [? ?]. apply Forall_app. split; [done|by constructor].
  - rewrite fmap_app, fmap_cons. unfold aux_of at 2. cbn [snd]. by rewrite Ha.
  - apply Forall_app in H7 as [? H7]. apply Forall_cons in H7 as [? ?]. apply Forall_app. split; [done|].
    constructor; [cbn in *; congruence|done].
Qed.

Lemma sm_nodes_ok m L : sm_rep m L -> sm_nodes m = Ret L.*1.
Proof.
  intros Hr. unfold sm_nodes. rewrite (for_each_ok _ _ (sr_ok _ _ Hr)) by done. cbn.
  rewrite (sr_nodes _ _ Hr), <- list_fmap_compose. done.
Qed.

Lemma sm_lookup_ok m L q : sm_rep m L -> sm_lookup q m = Ret (fst <$> find_slave q L, m).
Proof.
  intros Hr. unfold sm_lookup. rewrite (cstate_bind_step get _ m m m) by done.
  destruct (first_in_bucket_ok (sm_table m) (hash_pointer q 0) (sr_ok _ _ Hr)) as (b & E & Hb).
  rewrite E. rewrite (cstate_bind_step (lift (Ret b)) _ m b m) by done.
  assert (forall x, x ∈ b -> exists s, (node_ptr x, s) ∈ L) as Hin.
  { intros x Hx. assert (x ∈ nodes (sm_table m)) as Hn by (apply elem_of_nodes; eauto).
    rewrite (sr_nodes _ _ Hr) in Hn. apply list_elem_of_fmap in Hn as ([p s] & -> & Hn). by exists s. }
  assert (forall p s, (p, s) ∈ L -> aux s = q -> MkNode (hash_pointer q 0) p ∈ b) as Hout.
  { intros p s Hs Hq. assert (node_of (p, s) = MkNode (hash_pointer q 0) p) as En.
    { unfold node_of. cbn. pose proof (sr_hash _ _ Hr) as Hh. rewrite Forall_forall in Hh.
      specialize (Hh _ Hs). cbn in Hh. by rewrite Hh, Hq. }
    rewrite <- En. apply (in_own_bucket (sm_table m)); [by apply Hr|by rewrite En|].
    rewrite (sr_nodes _ _ Hr). by apply list_elem_of_fmap_2. }
  clear E Hb. induction b as [|x b IH]; cbn [until_some].
  { destruct (find_slave q L) as [[p s]|] eqn:Ef; [|done].
    apply find_slave_elem in Ef as [Hs Hq]; [|by apply Hr]. by specialize (Hout p s Hs Hq) as ?%not_elem_of_nil. }
  destruct (Hin x ltac:(left)) as (s & Hs).
  assert ((s0 ← sm_load (node_ptr x); mret (if aux s0 =? q then Some (node_ptr x) else None)) m
          = Ret (if aux s =? q then Some (node_ptr x) else None, m)) as E.
  { by rewrite (cstate_bind_step _ _ _ _ _ (sm_load_ok _ _ _ _ Hr Hs)). }
  rewrite (cstate_bind_step _ _ _ _ _ E). destruct (Z.eqb_spec (aux s) q) as [Hq|Hq].
  - assert (find_slave q L = Some (node_ptr x, s)) as -> by (apply find_slave_elem; [apply Hr|done]). done.
  - apply IH; [intros y Hy; apply Hin; by right|].
    intros p t Ht Hq'. specialize (Hout p t Ht Hq') as [Ex|?]%elem_of_cons; [|done].
    exfalso. rewrite <- Ex in Hs. cbn in Hs. apply (sr_heap _ _ Hr) in Hs, Ht. congruence.
Qed.

(** A new slave in the memory and in the map; its place in the order is open. *)
Lemma sm_insert_ok m L s :
  sm_rep m L -> aux s ∉ aux_of <$> L -> shash s = hash_pointer (aux s) 0 -> Z.of_nat (length L) < 2 ^ 60 ->
  exists m1 m2 L', sm_new s m = Ret (sm_next m, m1) /\ sm_insert (sm_next m) m1 = Ret (tt, m2)
    /\ sm_rep m2 L' /\ L' ≡ₚ (sm_next m, s) :: L.
Proof.
  intros Hr Ha Hh Hn. pose proof (sm_hmap_rep _ _ Hr) as Ht.
  assert (sm_next m ∉ L.*1) as Hp.
  { rewrite list_elem_of_fmap. intros (x & E & Hx). pose proof (sr_fresh _ _ Hr) as Hf.
    rewrite Forall_forall in Hf. specialize (Hf _ Hx). cbn in *. lia. }
  destruct (hmap_insert_ok (sm_table m) (node_of <$> L) (sm_next m) (shash s) Ht) as (t & E & Ht' & _ & _).
  { by rewrite <- list_fmap_compose. }
  { pose proof (sm_count _ _ Hr) as Hc. unfold hmap_count in Hc. lia. }
  pose proof (hr_nodes _ _ Ht') as Hperm.
  destruct (Permutation_map_inv node_of ((sm_next m, s) :: L) Hperm) as (L' & En & EL).
  do 2 eexists. exists L'. split; [done|]. split.
  { unfold sm_insert, sm_load, mbind, cstate_bind. cbn [sm_heap]. rewrite lookup_insert_eq.
    unfold on_table. cbn [sm_table]. by rewrite E. }
  split; [|done]. destruct Hr as [H1 H2 H3 H4 H5 H6 H7].
  split; cbn [sm_table sm_heap sm_next]; [by apply Ht'|done|..]; rewrite <- ?EL.
  - cbn. by apply NoDup_cons.
  - intros p x. rewrite <- EL, elem_of_cons, <- H4. destruct (decide (p = sm_next m)) as [->|Hq].
    + rewrite lookup_insert_eq. split; [intros [= <-]; by left|]. intros [[= ->]|Hx]; [done|].
      exfalso. apply Hp. apply H4 in Hx. by apply (list_elem_of_fmap_2 fst L (sm_next m, x)).
    + rewrite lookup_insert_ne by done. naive_solver.
  - constructor; [cbn; lia|]. eapply Forall_impl; [exact H5|]. cbn. lia.
  - cbn. by apply NoDup_cons.
  - by constructor.
Qed.

(** Whatever order an iteration has, its first slave is found by hmap_first. *)
Lemma sm_first_ok (m : slave_map A) L : hmap_ok (sm_table m) -> nodes (sm_table m) = node_of <$> L -> sm_first m = Ret (head L.*1).
Proof.
  intros Hok Hn. unfold sm_first, hmap_first, hmap_next__. pose proof (ho_len _ Hok) as Hl.
  destruct (next_from_ok (sm_table m) (Z.to_nat (mask (sm_table m) + 1 - 0)) 0 ltac:(lia)) as (c & E & Hc).
  change (Z.to_nat 0) with 0%nat. rewrite E. cbn [mbind outcome_bind].
  change (concat (drop 0 (buckets (sm_table m)))) with (nodes (sm_table m)) in Hc. rewrite Hn in Hc. do 2 f_equal.
  destruct Hc as [[-> Ec]|(j & _ & _ & Hne & Ec)].
  - by destruct L.
  - destruct c as [|x c]; [done|]. destruct L as [|y L]; [done|]. cbn in Ec. injection Ec as <- _. done.
Qed.

(** A slave leaves the map, and then the memory. *)
Lemma sm_remove_ok m L p s :
  sm_rep m L -> (p, s) ∈ L -> Z.of_nat (length L) < 2 ^ 60 ->
  exists m1 m2 L', sm_remove p m = Ret (tt, m1) /\ sm_free p m1 = Ret (tt, m2) /\ sm_rep m2 L'
    /\ sm_first m1 = Ret (head L'.*1) /\ L ≡ₚ (p, s) :: L'.
Proof.
  intros Hr Hin Hlt. destruct (list_elem_of_split _ _ Hin) as (l1 & l2 & EL).
  assert (L ≡ₚ (p, s) :: l1 ++ l2) as EP by (by rewrite EL, <- Permutation_middle).
  pose proof (sm_hmap_rep _ _ Hr) as Ht. rewrite EP, fmap_cons in Ht.
  pose proof (sm_count _ _ Hr) as Hc. unfold hmap_count in Hc.
  destruct (hmap_remove_ok _ _ _ Ht ltac:(lia)) as (t & E & Ht' & _ & _).
  destruct (Permutation_map_inv node_of (l1 ++ l2) (hr_nodes _ _ Ht')) as (L' & En & EL').
  assert (L ≡ₚ (p, s) :: L') as EP' by (by rewrite EP, EL').
  do 2 eexists. exists L'. split_and!.
  - unfold sm_remove. rewrite (cstate_bind_step _ _ _ _ _ (sm_load_ok _ _ _ _ Hr Hin)).
    unfold on_table. change (MkNode (shash s) p) with (node_of (p, s)). by rewrite E.
  - unfold sm_free. cbn [sm_heap]. by rewrite (proj2 (sr_heap _ _ Hr p s) Hin).
  - destruct Hr as [H1 H2 H3 H4 H5 H6 H7].
    rewrite EP' in H3, H5, H6, H7. cbn in H3, H6. apply NoDup_cons in H3 as [H3 H3'], H6 as [_ H6].
    apply Forall_cons in H5 as [_ H5], H7 as [_ H7].
    split; cbn [sm_table sm_heap sm_next]; [apply Ht'|done|done| |done..].
    intros q x. rewrite lookup_delete_Some, H4, EP', elem_of_cons. split; [naive_solver|].
    intros Hx. split; [|by right]. intros ->. apply H3. by apply (list_elem_of_fmap_2 fst L' (q, x)).
  - apply sm_first_ok; [apply Ht'|done].
  - done.
Qed.

Lemma sm_lookup_found m L p s : sm_rep m L -> (p, s) ∈ L -> sm_lookup (aux s) m = Ret (Some p, m).
Proof.
  intros Hr Hin. rewrite (sm_lookup_ok _ _ _ Hr).
  by rewrite (proj2 (find_slave_elem (aux s) L p s (sr_aux _ _ Hr)) (conj Hin eq_refl)).
Qed.

End representation.

(** A change of every slave, whatever its address. *)
Definition upd {A} (f : A -> A) (x : nat * A) : nat * A := (x.1, f x.2).

Lemma upd_ptrs {A} (f : A -> A) (L : list (nat * A)) : (upd f <$> L).*1 = L.*1.
Proof. rewrite <- list_fmap_compose. by apply list_fmap_ext. Qed.

Lemma elem_upd {A} (f : A -> A) (L : list (nat * A)) p t : (p, t) ∈ upd f <$> L <-> exists s, t = f s /\ (p, s) ∈ L.
Proof.
  rewrite list_elem_of_fmap. split.
  - intros ([q s] & [= -> ->] & Hin). by exists s.
  - intros (s & -> & Hin). by exists (p, s).
Qed.

(** The rule for a loop over the slaves of a state [St]: every round changes its own slave by
    [f], and [Inv] holds of the slaves seen so far, what the loop carries and the state. *)
Section each_rule.
Context {A : Type} `{Slave A} {St B : Type} (slaves : St -> slave_map A).

Lemma each_rule (body : nat -> B -> cstate St B) (f : A -> A) (Inv : list (nat * A) -> B -> St -> Prop) L :
  (forall L1 p s L2 b st, L = L1 ++ (p, s) :: L2 -> Inv L1 b st ->
     sm_rep (slaves st) ((upd f <$> L1) ++ (p, s) :: L2) ->
     exists b' st', body p b st = Ret (b', st') /\ Inv (L1 ++ [(p, s)]) b' st'
       /\ sm_rep (slaves st') ((upd f <$> L1) ++ (p, f s) :: L2)) ->
  forall b st, Inv [] b st -> sm_rep (slaves st) L ->
  exists b' st', each body L.*1 b st = Ret (b', st') /\ Inv L b' st' /\ sm_rep (slaves st') (upd f <$> L).
Proof.
  intros Hbody b st Hi Hr.
  assert (forall L2 L1 b st, L = L1 ++ L2 -> Inv L1 b st -> sm_rep (slaves st) ((upd f <$> L1) ++ L2) ->
    exists b' st', each body L2.*1 b st = Ret (b', st') /\ Inv L b' st' /\ sm_rep (slaves st') (upd f <$> L)) as Hgen.
  { clear b st Hi Hr. induction L2 as [|[p s] L2 IH]; intros L1 b st EL Hi Hr.
    - rewrite app_nil_r in EL, Hr. subst L1. by exists b, st.
    - destruct (Hbody L1 p s L2 b st EL Hi Hr) as (b1 & st1 & E & Hi1 & Hr1).
      cbn [fmap list_fmap each fst]. rewrite (cstate_bind_step _ _ _ _ _ E).
      apply (IH (L1 ++ [(p, s)])); [by rewrite <- app_assoc|done|].
      by rewrite fmap_app, <- app_assoc. }
  by apply (Hgen L []).
Qed.

End each_rule.

(** The same for a loop whose effect on a slave depends on more than the slave: [Inv] relates
    the slaves seen so far, before and after. *)
Section each_rel.
Context {A : Type} `{Slave A} {St B : Type} (slaves : St -> slave_map A).

Lemma each_rel (body : nat -> B -> cstate St B) (Inv : list (nat * A) -> list (nat * A) -> B -> St -> Prop) L :
  (forall L1 L1' p s L2 b st, L = L1 ++ (p, s) :: L2 -> L1'.*1 = L1.*1 -> Inv L1 L1' b st ->
     sm_rep (slaves st) (L1' ++ (p, s) :: L2) ->
     exists b' st' s', body p b st = Ret (b', st') /\ Inv (L1 ++ [(p, s)]) (L1' ++ [(p, s')]) b' st'
       /\ sm_rep (slaves st') (L1' ++ (p, s') :: L2)) ->
  forall b st, Inv [] [] b st -> sm_rep (slaves st) L ->
  exists b' st' L', each body L.*1 b st = Ret (b', st') /\ Inv L L' b' st' /\ sm_rep (slaves st') L' /\ L'.*1 = L.*1.
Proof.
  intros Hbody b st Hi Hr.
  assert (forall L2 L1 L1' b st, L = L1 ++ L2 -> L1'.*1 = L1.*1 -> Inv L1 L1' b st -> sm_rep (slaves st) (L1' ++ L2) ->
    exists b' st' L', each body L2.*1 b st = Ret (b', st') /\ Inv L L' b' st' /\ sm_rep (slaves st') L' /\ L'.*1 = L.*1) as Hgen.
  { clear b st Hi Hr. induction L2 as [|[p s] L2 IH]; intros L1 L1' b st EL Ep Hi Hr.
    - rewrite app_nil_r in EL, Hr. subst L1. by exists b, st, L1'.
    - destruct (Hbody L1 L1' p s L2 b st EL Ep Hi Hr) as (b1 & st1 & s1 & E & Hi1 & Hr1).
      cbn [fmap list_fmap each fst]. rewrite (cstate_bind_step _ _ _ _ _ E).
      apply (IH (L1 ++ [(p, s)]) (L1' ++ [(p, s1)])); [by rewrite <- app_assoc| |done|by rewrite <- app_assoc].
      by rewrite !fmap_app, Ep. }
  by apply (Hgen L [] []).
Qed.

End each_rel.

(** The walk of HMAP_FOR_EACH_SAFE that takes every slave out, one round of it. *)
Lemma sm_drain {A} `{Slave A} (m : slave_map A) L x next :
  sm_rep m L -> draining (sm_table m) (x :: next) ->
  exists p s L' t c, L = (p, s) :: L' /\ x = node_of (p, s) /\ hmap_next (sm_table m) x next = Ret c
    /\ sm_remove p m = Ret (tt, MkSm (sm_heap m) (sm_next m) t) /\ draining t c
    /\ sm_free p (MkSm (sm_heap m) (sm_next m) t) = Ret (tt, MkSm (delete p (sm_heap m)) (sm_next m) t)
    /\ sm_first (MkSm (sm_heap m) (sm_next m) t) = Ret (head L'.*1)
    /\ sm_rep (MkSm (delete p (sm_heap m)) (sm_next m) t) L'.
Proof.
  intros Hr Hd. destruct (draining_step _ _ _ Hd) as (t & c & En & Er & Hd' & Ex).
  pose proof Hr as [H1 H2 H3 H4 H5 H6 H7]. rewrite H2 in Ex. destruct L as [|[p s] L']; [done|].
  rewrite fmap_cons in Ex. injection Ex as <- Ex.
  assert ((p, s) ∈ (p, s) :: L') as Hin by left.
  exists p, s, L', t, c. split_and!; [done|done|done| |done| | |].
  - unfold sm_remove. rewrite (cstate_bind_step _ _ _ _ _ (sm_load_ok _ _ _ _ Hr Hin)).
    unfold on_table. change (MkNode (shash s) p) with (node_of (p, s)). by rewrite Er.
  - unfold sm_free. cbn [sm_heap]. by rewrite (proj2 (H4 p s) Hin).
  - apply sm_first_ok; cbn [sm_table]; [by destruct Hd'|done].
  - cbn in H3, H6. apply NoDup_cons in H3 as [H3 H3'], H6 as [_ H6].
    apply Forall_cons in H5 as [_ H5], H7 as [_ H7].
    split; cbn [sm_table sm_heap sm_next]; [by destruct Hd'|done|done| |done..].
    intros q y. rewrite lookup_delete_Some, H4, elem_of_cons. split; [naive_solver|].
    intros Hy. split; [|by right]. intros ->. apply H3. by apply (list_elem_of_fmap_2 fst L' (q, y)).
Qed.

(** Slaves in a map of one bucket, for examples. *)
Section sm_of.
Context {A : Type} `{Slave A}.

Definition sm_of (L : list (nat * A)) (next : nat) : slave_map A :=
  MkSm (list_to_map L) next (MkHmap [node_of <$> L] 0 (Z.of_nat (length L))).

Lemma sm_of_rep (L : list (nat * A)) next :
  NoDup L.*1 -> NoDup (aux_of <$> L) -> Forall (fun x => (x.1 < next)%nat) L ->
  Forall (fun x => shash x.2 = hash_pointer (aux x.2) 0) L -> sm_rep (sm_of L next) L.
Proof.
  intros H1 H2 H3 H4. split; try done.
  - split; unfold sm_of; cbn [sm_table mask buckets hn length].
    + by exists 0.
    + done.
    + intros [|i] b x Hb Hx; [|done]. unfold bucket_index. cbn [mask]. by rewrite Z.land_0_r.
    + unfold nodes. cbn [buckets concat]. by rewrite app_nil_r, length_fmap.
  - unfold nodes, sm_of. cbn. by rewrite app_nil_r.
  - intros p s. symmetry. by apply elem_of_list_to_map.
Qed.

End sm_of.
