(* ===== verification/Lacp.v ===== *)
(** * Link aggregation control (lib/lacp.c, lib/lacp.h, lib/timer.h)

    The protocol by which two switches agree on which of the links between them form one
    aggregate.  This file has the data, the encoding of the messages and every function of
    the module but the registration of the unixctl command and the list of all objects behind
    it; LacpRep.v has the invariant and LacpProps.v the properties.

    Members in network byte order are the numbers they denote, so that htons and ntohs
    disappear; [info_bytes] is the packed structure that memcmp and the network see.  Times
    are milliseconds in a 64-bit integer, without the end of its range: the code only adds at
    most 90 seconds to the current time (timer_set_duration).  time_msec() is the argument [now] of the
    functions that call it.  Names, which only messages to the user show, are strings. *)
From stdpp Require Import strings.
From S2P Require Import Prelude Hash Hmap Flow SlaveMap.

Local Open Scope Z_scope.

(** ** Data *)

Definition LACP_STATE_ACT : Z := 1.
Definition LACP_STATE_TIME : Z := 2.
Definition LACP_STATE_AGG : Z := 4.
Definition LACP_STATE_SYNC : Z := 8.
Definition LACP_STATE_COL : Z := 16.
Definition LACP_STATE_DIST : Z := 32.
Definition LACP_STATE_DEF : Z := 64.
Definition LACP_STATE_EXP : Z := 128.

Definition LACP_FAST_TIME_TX : Z := 1000.
Definition LACP_SLOW_TIME_TX : Z := 30000.
Definition LACP_RX_MULTIPLIER : Z := 3.

Record lacp_info := MkInfo {
  sys_priority : Z;
  sys_id : list Z;
  key : Z;
  port_priority : Z;
  port_id : Z;
  state : Z
}.

#[export] Instance lacp_info_eq_dec : EqDecision lacp_info.
Proof. solve_decision. Defined.

Definition info_zero : lacp_info := MkInfo 0 (replicate 6 0) 0 0 0 0.

(** The structure is packed, 15 bytes. *)
Definition info_bytes (i : lacp_info) : list Z :=
  be_bytes 2 (sys_priority i) ++ sys_id i ++ be_bytes 2 (key i) ++ be_bytes 2 (port_priority i)
  ++ be_bytes 2 (port_id i) ++ [state i].

Definition read_info (b : list Z) : lacp_info :=
  MkInfo (be_value (take 2 b)) (take 6 (drop 2 b)) (be_value (take 2 (drop 8 b)))
    (be_value (take 2 (drop 10 b))) (be_value (take 2 (drop 12 b))) (nth 14 b 0).

Definition LACP_PDU_LEN : Z := 110.

Record lacp_pdu := MkPdu {
  subtype : Z; version : Z;
  actor_type : Z; actor_len : Z; actor : lacp_info; z1 : list Z;
  partner_type : Z; partner_len : Z; partner : lacp_info; z2 : list Z;
  collector_type : Z; collector_len : Z; collector_delay : Z; z3 : list Z
}.

Definition pdu_bytes (p : lacp_pdu) : list Z :=
  [subtype p; version p; actor_type p; actor_len p] ++ info_bytes (actor p) ++ z1 p
  ++ [partner_type p; partner_len p] ++ info_bytes (partner p) ++ z2 p
  ++ [collector_type p; collector_len p] ++ be_bytes 2 (collector_delay p) ++ z3 p.

Definition read_pdu (b : list Z) : lacp_pdu :=
  MkPdu (nth 0 b 0) (nth 1 b 0)
    (nth 2 b 0) (nth 3 b 0) (read_info (take 15 (drop 4 b))) (take 3 (drop 19 b))
    (nth 22 b 0) (nth 23 b 0) (read_info (take 15 (drop 24 b))) (take 3 (drop 39 b))
    (nth 42 b 0) (nth 43 b 0) (be_value (take 2 (drop 44 b))) (take 64 (drop 46 b)).

Definition compose_lacp_pdu (a p : lacp_info) : lacp_pdu :=
  MkPdu 1 1 1 20 a (replicate 3 0) 2 20 p (replicate 3 0) 3 16 0 (replicate 64 0).

(** A packet is its data and the offset of the member l3. *)
Record ofpbuf := MkBuf { data : list Z; l3 : Z }.

Definition ofpbuf_at (b : ofpbuf) (offset size : Z) : option (list Z) :=
  if offset + size <=? Z.of_nat (length (data b)) then Some (drop (Z.to_nat offset) (data b)) else None.

Definition parse_lacp_packet (b : ofpbuf) : option lacp_pdu :=
  match ofpbuf_at b (l3 b) LACP_PDU_LEN with
  | Some bs =>
      let pdu := read_pdu bs in
      if (subtype pdu =? 1) && (actor_type pdu =? 1) && (actor_len pdu =? 20)
         && (partner_type pdu =? 2) && (partner_len pdu =? 20)
      then Some pdu else None
  | None => None
  end.

(** *** Timers *)

Definition timer_set_duration (now duration : Z) : Z := now + duration.
Definition timer_expired (t now : Z) : bool := t <=? now.
Definition timer_wait (t : Z) : list Z := if t <? LLONG_MAX then [t] else [].

(** *** The objects *)

Inductive slave_status := LACP_CURRENT | LACP_EXPIRED | LACP_DEFAULTED.

#[export] Instance slave_status_eq_dec : EqDecision slave_status.
Proof. solve_decision. Defined.

Record slave := MkSlave {
  s_aux : Z;
  s_hash : Z;
  s_port_id : Z;
  s_port_priority : Z;
  s_key : Z;
  s_name : option string;
  s_status : slave_status;
  s_attached : bool;
  s_partner : lacp_info;
  s_ntt_actor : lacp_info;
  s_tx : Z;
  s_rx : Z
}.

#[export] Instance slave_slave : Slave slave := {| aux := s_aux; shash := s_hash |}.

Definition set_port (id priority k : Z) (s : slave) : slave :=
  MkSlave (s_aux s) (s_hash s) id priority k (s_name s) (s_status s) (s_attached s) (s_partner s)
    (s_ntt_actor s) (s_tx s) (s_rx s).
Definition set_name (n : option string) (s : slave) : slave :=
  MkSlave (s_aux s) (s_hash s) (s_port_id s) (s_port_priority s) (s_key s) n (s_status s) (s_attached s)
    (s_partner s) (s_ntt_actor s) (s_tx s) (s_rx s).
Definition set_status (x : slave_status) (s : slave) : slave :=
  MkSlave (s_aux s) (s_hash s) (s_port_id s) (s_port_priority s) (s_key s) (s_name s) x (s_attached s)
    (s_partner s) (s_ntt_actor s) (s_tx s) (s_rx s).
Definition set_attached (x : bool) (s : slave) : slave :=
  MkSlave (s_aux s) (s_hash s) (s_port_id s) (s_port_priority s) (s_key s) (s_name s) (s_status s) x
    (s_partner s) (s_ntt_actor s) (s_tx s) (s_rx s).
Definition set_partner (i : lacp_info) (s : slave) : slave :=
  MkSlave (s_aux s) (s_hash s) (s_port_id s) (s_port_priority s) (s_key s) (s_name s) (s_status s)
    (s_attached s) i (s_ntt_actor s) (s_tx s) (s_rx s).
Definition set_ntt (i : lacp_info) (s : slave) : slave :=
  MkSlave (s_aux s) (s_hash s) (s_port_id s) (s_port_priority s) (s_key s) (s_name s) (s_status s)
    (s_attached s) (s_partner s) i (s_tx s) (s_rx s).
Definition set_tx (t : Z) (s : slave) : slave :=
  MkSlave (s_aux s) (s_hash s) (s_port_id s) (s_port_priority s) (s_key s) (s_name s) (s_status s)
    (s_attached s) (s_partner s) (s_ntt_actor s) t (s_rx s).
Definition set_rx (t : Z) (s : slave) : slave :=
  MkSlave (s_aux s) (s_hash s) (s_port_id s) (s_port_priority s) (s_key s) (s_name s) (s_status s)
    (s_attached s) (s_partner s) (s_ntt_actor s) (s_tx s) t.

Record lacp := MkLacp {
  l_name : option string;
  l_sys_id : list Z;
  l_sys_priority : Z;
  l_active : bool;
  l_slaves : slave_map slave;
  l_key_slave : option nat;
  l_fast : bool;
  l_negotiated : bool;
  l_update : bool
}.

Definition with_config (n : option string) (a f : bool) (l : lacp) : lacp :=
  MkLacp n (l_sys_id l) (l_sys_priority l) a (l_slaves l) (l_key_slave l) f (l_negotiated l) (l_update l).
Definition with_system (id : list Z) (p : Z) (l : lacp) : lacp :=
  MkLacp (l_name l) id p (l_active l) (l_slaves l) (l_key_slave l) (l_fast l) (l_negotiated l) true.
Definition with_slaves (m : slave_map slave) (l : lacp) : lacp :=
  MkLacp (l_name l) (l_sys_id l) (l_sys_priority l) (l_active l) m (l_key_slave l) (l_fast l) (l_negotiated l)
    (l_update l).
Definition with_key_slave (p : option nat) (l : lacp) : lacp :=
  MkLacp (l_name l) (l_sys_id l) (l_sys_priority l) (l_active l) (l_slaves l) p (l_fast l) (l_negotiated l)
    (l_update l).
Definition with_negotiated (b : bool) (l : lacp) : lacp :=
  MkLacp (l_name l) (l_sys_id l) (l_sys_priority l) (l_active l) (l_slaves l) (l_key_slave l) (l_fast l) b
    (l_update l).
Definition with_update (b : bool) (l : lacp) : lacp :=
  MkLacp (l_name l) (l_sys_id l) (l_sys_priority l) (l_active l) (l_slaves l) (l_key_slave l) (l_fast l)
    (l_negotiated l) b.

Abbreviation lm := (cstate lacp).

Definition modify (f : lacp -> lacp) : lm unit := fun l => Ret (tt, f l).

(** An operation on the slaves. *)
Definition on_slaves {B} (m : cstate (slave_map slave) B) : lm B := fun l =>
  match m (l_slaves l) with Ret (b, sm) => Ret (b, with_slaves sm l) | Stuck e => Stuck e end.

Definition load (p : nat) : lm slave := on_slaves (sm_load p).
Definition store (p : nat) (f : slave -> slave) : lm unit := on_slaves (sm_modify p f).
Definition slave_lookup (q : Z) : lm (option nat) := on_slaves (sm_lookup q).

(** A slave the function uses without a test. *)
Definition deref (p : option nat) : lm nat := lift (of_option NullDeref p).

(** ** Functions on one slave *)

Definition slave_set_defaulted (p : nat) : lm unit :=
  _ ← store p (set_partner info_zero);
  _ ← modify (with_update true);
  store p (set_status LACP_DEFAULTED).

Definition with_state (st : Z) (i : lacp_info) : lacp_info :=
  MkInfo (sys_priority i) (sys_id i) (key i) (port_priority i) (port_id i) st.

Definition slave_set_expired (p : nat) (now : Z) : lm unit :=
  _ ← store p (set_status LACP_EXPIRED);
  _ ← store p (fun s => set_partner (with_state (Z.lor (state (s_partner s)) LACP_STATE_TIME) (s_partner s)) s);
  _ ← store p (fun s => set_partner (with_state (Z.ldiff (state (s_partner s)) LACP_STATE_SYNC) (s_partner s)) s);
  store p (set_rx (timer_set_duration now (LACP_RX_MULTIPLIER * LACP_FAST_TIME_TX))).

Definition add_flag (b : bool) (flag : Z) (st : Z) : Z := if b then Z.lor st flag else st.

Definition slave_get_actor (s : slave) : lm lacp_info :=
  l ← get;
  let st := add_flag (l_active l) LACP_STATE_ACT 0 in
  let st := add_flag (l_fast l) LACP_STATE_TIME st in
  let st := add_flag (s_attached s) LACP_STATE_SYNC st in
  let st := add_flag (bool_decide (s_status s = LACP_DEFAULTED)) LACP_STATE_DEF st in
  let st := add_flag (bool_decide (s_status s = LACP_EXPIRED)) LACP_STATE_EXP st in
  let st := add_flag (1 <? hmap_count (sm_table (l_slaves l))) LACP_STATE_AGG st in
  let st := add_flag (s_attached s || negb (l_negotiated l)) (Z.lor LACP_STATE_COL LACP_STATE_DIST) st in
  kp ← deref (l_key_slave l);
  ks ← load kp;
  let k := if s_key ks =? 0 then s_port_id ks else s_key ks in
  mret (MkInfo (l_sys_priority l) (l_sys_id l) k (s_port_priority s) (s_port_id s) st).

Definition eth_addr_compare_3way (a b : list Z) : Z := memcmp a b.

Definition slave_get_priority (s : slave) : lm lacp_info :=
  l ← get;
  let actor_priority := l_sys_priority l in
  let partner_priority := sys_priority (s_partner s) in
  i ← (if actor_priority <? partner_priority then slave_get_actor s
       else if partner_priority <? actor_priority then mret (s_partner s)
       else if eth_addr_compare_3way (l_sys_id l) (sys_id (s_partner s)) <? 0 then slave_get_actor s
       else mret (s_partner s));
  mret (MkInfo (sys_priority i) (sys_id i) 0 (port_priority i) (port_id i) 0).

Definition slave_may_tx (s : slave) : lm bool :=
  l ← get; mret (l_active l || negb (bool_decide (s_status s = LACP_DEFAULTED))).

Definition slave_may_enable__ (s : slave) : bool :=
  s_attached s && negb (Z.land (state (s_partner s)) LACP_STATE_SYNC =? 0).

Definition info_tx_equal (a b : lacp_info) : bool :=
  (Z.land (Z.lxor (state a) (state b))
     (Z.lor (Z.lor (Z.lor LACP_STATE_ACT LACP_STATE_TIME) LACP_STATE_SYNC) LACP_STATE_AGG) =? 0)
  && (port_id a =? port_id b)
  && (port_priority a =? port_priority b)
  && (key a =? key b)
  && (sys_priority a =? sys_priority b)
  && eth_addr_equals (sys_id a) (sys_id b).

(** The pointer of a slave in the map, which is not null here. *)
Definition slave_destroy (p : nat) : lm unit :=
  _ ← modify (with_update true);
  _ ← on_slaves (sm_remove p);
  l ← get;
  _ ← (if bool_decide (l_key_slave l = Some p) then
         n ← lift (sm_first (l_slaves l)); modify (with_key_slave n)
       else mret tt);
  on_slaves (sm_free p).

(** HMAP_FOR_EACH over the slaves there are now. *)
Definition for_each_slave {B} (body : nat -> B -> lm B) (b : B) : lm B :=
  l ← @get lacp; ps ← lift (sm_nodes (l_slaves l)); each body ps b.

(** ** The update of the attached status *)

(** The first loop; it carries the lead and its priority. *)
Definition attach_one (p : nat) (lead : option (nat * lacp_info)) : lm (option (nat * lacp_info)) :=
  _ ← store p (set_attached false);
  s ← load p;
  l ← get;
  if eth_addr_equals (sys_id (s_partner s)) (l_sys_id l) then mret lead
  else if bool_decide (s_status s = LACP_DEFAULTED) then mret lead
  else
    _ ← store p (set_attached true);
    s ← load p;
    pri ← slave_get_priority s;
    mret (match lead with
          | None => Some (p, pri)
          | Some (q, lead_pri) => if memcmp (info_bytes pri) (info_bytes lead_pri) <? 0 then Some (p, pri) else lead
          end).

(** The second loop. *)
Definition detach_one (lead : nat) (p : nat) (_ : unit) : lm unit :=
  x ← load lead;
  s ← load p;
  if negb (key (s_partner x) =? key (s_partner s))
     || negb (eth_addr_equals (sys_id (s_partner x)) (sys_id (s_partner s)))
  then store p (set_attached false)
  else mret tt.

Definition lacp_update_attached : lm unit :=
  _ ← modify (with_update false);
  lead ← for_each_slave attach_one None;
  _ ← modify (with_negotiated (match lead with Some _ => true | None => false end));
  match lead with
  | Some (x, _) => for_each_slave (detach_one x) tt
  | None => mret tt
  end.

(** ** The functions of the interface *)

Definition lacp_create : lacp := MkLacp None (replicate 6 0) 0 false sm_empty None false false false.

(** HMAP_FOR_EACH_SAFE: the next slave is found before slave_destroy. *)
Fixpoint destroy_slaves (fuel : nat) (c : list hmap_node) : lm unit :=
  match fuel, c with
  | S f, x :: next =>
      l ← get;
      c ← lift (hmap_next (sm_table (l_slaves l)) x next);
      _ ← slave_destroy (node_ptr x);
      destroy_slaves f c
  | _, _ => mret tt
  end.

(** The object itself and its name are freed at the end. *)
Definition lacp_destroy : lm unit :=
  l ← get;
  c ← lift (hmap_first (sm_table (l_slaves l)));
  destroy_slaves (length (nodes (sm_table (l_slaves l)))) c.

Record lacp_settings := MkSettings {
  ls_name : string; ls_id : list Z; ls_priority : Z; ls_active : bool; ls_fast : bool
}.

(** A name is replaced if it differs. *)
Definition new_name (old : option string) (n : string) : option string :=
  if bool_decide (old = Some n) then old else Some n.

Definition lacp_configure (s : lacp_settings) : lm unit :=
  if eth_addr_is_zero (ls_id s) then fails AssertFail
  else
    l ← get;
    _ ← (if negb (eth_addr_equals (l_sys_id l) (ls_id s)) || negb (l_sys_priority l =? ls_priority s)
         then modify (with_system (ls_id s) (ls_priority s)) else mret tt);
    modify (fun l => with_config (new_name (l_name l) (ls_name s)) (ls_active s) (ls_fast s) l).

Definition lacp_is_active (l : lacp) : bool := l_active l.

Definition lacp_process_packet (slave_ : Z) (packet : ofpbuf) (now : Z) : lm unit :=
  slave ← slave_lookup slave_;
  match parse_lacp_packet packet with
  | None => mret tt
  | Some pdu =>
      p ← deref slave;
      _ ← store p (set_status LACP_CURRENT);
      l ← get;
      let tx_rate := if l_fast l then LACP_FAST_TIME_TX else LACP_SLOW_TIME_TX in
      _ ← store p (set_rx (timer_set_duration now (LACP_RX_MULTIPLIER * tx_rate)));
      _ ← store p (set_ntt (partner pdu));
      s ← load p;
      if negb (memcmp (info_bytes (s_partner s)) (info_bytes (actor pdu)) =? 0) then
        _ ← modify (with_update true); store p (set_partner (actor pdu))
      else mret tt
  end.

Inductive lacp_status_t := LACP_NEGOTIATED | LACP_CONFIGURED | LACP_DISABLED.

#[export] Instance lacp_status_t_eq_dec : EqDecision lacp_status_t.
Proof. solve_decision. Defined.

Definition lacp_status (l : option lacp) : lacp_status_t :=
  match l with
  | None => LACP_DISABLED
  | Some l => if l_negotiated l then LACP_NEGOTIATED else LACP_CONFIGURED
  end.

Record lacp_slave_settings := MkSlaveSettings { ss_name : string; ss_id : Z; ss_priority : Z; ss_key : Z }.

(** The slave that xzalloc and the stores before hmap_insert make. *)
Definition fresh_slave (slave_ : Z) : slave :=
  MkSlave slave_ (hash_pointer slave_ 0) 0 0 0 None LACP_CURRENT false info_zero info_zero 0 0.

Definition add_slave (slave_ : Z) : lm nat :=
  p ← on_slaves (sm_new (fresh_slave slave_));
  _ ← on_slaves (sm_insert p);
  _ ← slave_set_defaulted p;
  l ← get;
  _ ← (match l_key_slave l with None => modify (with_key_slave (Some p)) | Some _ => mret tt end);
  mret p.

Definition lacp_slave_register (slave_ : Z) (ss : lacp_slave_settings) (now : Z) : lm unit :=
  slave ← slave_lookup slave_;
  p ← (match slave with Some p => mret p | None => add_slave slave_ end);
  _ ← store p (fun s => set_name (new_name (s_name s) (ss_name ss)) s);
  s ← load p;
  if negb (s_port_id s =? ss_id ss) || negb (s_port_priority s =? ss_priority ss) || negb (s_key s =? ss_key ss)
  then
    _ ← store p (set_port (ss_id ss) (ss_priority ss) (ss_key ss));
    _ ← modify (with_update true);
    l ← get;
    if l_active l || l_negotiated l then slave_set_expired p now else mret tt
  else mret tt.

Definition lacp_slave_unregister (slave_ : Z) : lm unit :=
  slave ← slave_lookup slave_;
  match slave with
  | Some p => _ ← slave_destroy p; modify (with_update true)
  | None => mret tt
  end.

(** The lacp pointer is not null here and in the next two. *)
Definition lacp_slave_carrier_changed (slave_ now : Z) : lm unit :=
  slave ← slave_lookup slave_;
  p ← deref slave;
  s ← load p; l ← get;
  if bool_decide (s_status s = LACP_CURRENT) || l_active l then slave_set_expired p now else mret tt.

Definition lacp_slave_may_enable (slave_ : Z) : lm bool :=
  slave ← slave_lookup slave_; p ← deref slave; s ← load p; mret (slave_may_enable__ s).

Definition lacp_slave_get_port_id (slave_ : Z) : lm Z :=
  slave ← slave_lookup slave_; p ← deref slave; s ← load p; mret (s_port_id s).

Definition lacp_slave_is_current (slave_ : Z) : lm bool :=
  slave ← slave_lookup slave_; p ← deref slave; s ← load p;
  mret (negb (bool_decide (s_status s = LACP_DEFAULTED))).

(** The first loop of lacp_run. *)
Definition expire_one (now : Z) (p : nat) (_ : unit) : lm unit :=
  s ← load p;
  if timer_expired (s_rx s) now then
    match s_status s with
    | LACP_CURRENT => slave_set_expired p now
    | LACP_EXPIRED => slave_set_defaulted p
    | LACP_DEFAULTED => mret tt
    end
  else mret tt.

(** The last loop; it carries the calls of send_pdu: the client's pointer and the message. *)
Definition transmit_one (now : Z) (p : nat) (sent : list (Z * list Z)) : lm (list (Z * list Z)) :=
  s ← load p;
  may ← slave_may_tx s;
  if negb may then mret sent
  else
    a ← slave_get_actor s;
    if timer_expired (s_tx s) now || negb (info_tx_equal a (s_ntt_actor s)) then
      _ ← store p (set_ntt a);
      let pdu := compose_lacp_pdu a (s_partner s) in
      let duration := if Z.land (state (s_partner s)) LACP_STATE_TIME =? 0
                      then LACP_SLOW_TIME_TX else LACP_FAST_TIME_TX in
      _ ← store p (set_tx (timer_set_duration now duration));
      mret (sent ++ [(s_aux s, pdu_bytes pdu)])
    else mret sent.

Definition lacp_run (now : Z) : lm (list (Z * list Z)) :=
  _ ← for_each_slave (expire_one now) tt;
  l ← get;
  _ ← (if l_update l then lacp_update_attached else mret tt);
  for_each_slave (transmit_one now) [].

(** The times poll_timer_wait_until is called with. *)
Definition wait_one (p : nat) (times : list Z) : lm (list Z) :=
  s ← load p;
  may ← slave_may_tx s;
  let times := if (may : bool) then times ++ timer_wait (s_tx s) else times in
  mret (if bool_decide (s_status s = LACP_DEFAULTED) then times else times ++ timer_wait (s_rx s)).

Definition lacp_wait : lm (list Z) := for_each_slave wait_one [].
