(* ===== verification/LacpRep.v ===== *)
(** * Link aggregation control: the slaves as a list (lib/lacp.c)

    What every function of Lacp.v does to the list of slaves that the hash map stands for.
    The functions below that work on one slave or on the list ([expired], [attach],
    [run_slaves], ...) are the abstract description; the lemmas prove that the code, with its
    map, its memory and its loops, returns and does just that. *)
From stdpp Require Import strings.
From S2P Require Import Prelude Hash Hmap Flow SlaveMap Lacp.

Local Open Scope Z_scope.

#[local] Opaque hash_pointer.

Abbreviation slaves := (list (nat * slave)).

(** ** Abstract description *)

Definition expired (now : Z) (s : slave) : slave :=
  set_rx (now + 3000)
    (set_partner (with_state (Z.ldiff (Z.lor (state (s_partner s)) LACP_STATE_TIME) LACP_STATE_SYNC) (s_partner s))
       (set_status LACP_EXPIRED s)).

Definition defaulted (s : slave) : slave := set_status LACP_DEFAULTED (set_partner info_zero s).

(** What the first loop of lacp_run does to a slave. *)
Definition expire_step (now : Z) (s : slave) : slave :=
  if s_rx s <=? now then
    match s_status s with LACP_CURRENT => expired now s | LACP_EXPIRED => defaulted s | LACP_DEFAULTED => s end
  else s.

Definition times_out (now : Z) (s : slave) : bool := (s_rx s <=? now) && bool_decide (s_status s = LACP_EXPIRED).

Definition port_key (s : slave) : Z := if s_key s =? 0 then s_port_id s else s_key s.

Definition slave_at (p : nat) (L : slaves) : option slave := snd <$> find_first (fun x => Nat.eqb x.1 p) L.

(** The aggregation key of the object: that of its key slave. *)
Definition agg_key (kp : option nat) (L : slaves) : Z :=
  match kp with
  | Some p => match slave_at p L with Some s => port_key s | None => 0 end
  | None => 0
  end.

Definition actor_state (l : lacp) (n : Z) (s : slave) : Z :=
  add_flag (s_attached s || negb (l_negotiated l)) (Z.lor LACP_STATE_COL LACP_STATE_DIST)
    (add_flag (1 <? n) LACP_STATE_AGG
      (add_flag (bool_decide (s_status s = LACP_EXPIRED)) LACP_STATE_EXP
        (add_flag (bool_decide (s_status s = LACP_DEFAULTED)) LACP_STATE_DEF
          (add_flag (s_attached s) LACP_STATE_SYNC
            (add_flag (l_fast l) LACP_STATE_TIME (add_flag (l_active l) LACP_STATE_ACT 0)))))).

Definition actor_info (l : lacp) (L : slaves) (s : slave) : lacp_info :=
  MkInfo (l_sys_priority l) (l_sys_id l) (agg_key (l_key_slave l) L) (s_port_priority s) (s_port_id s)
    (actor_state l (Z.of_nat (length L)) s).

(** The priority of a link: the port as the system with the better priority and address
    numbers it. *)
Definition own_side (l : lacp) (s : slave) : bool :=
  let pp := sys_priority (s_partner s) in
  if l_sys_priority l <? pp then true
  else if pp <? l_sys_priority l then false
  else memcmp (l_sys_id l) (sys_id (s_partner s)) <? 0.

Definition link_priority (l : lacp) (s : slave) : lacp_info :=
  if own_side l s then MkInfo (l_sys_priority l) (l_sys_id l) 0 (s_port_priority s) (s_port_id s) 0
  else MkInfo (sys_priority (s_partner s)) (sys_id (s_partner s)) 0 (port_priority (s_partner s))
         (port_id (s_partner s)) 0.

Definition eligible (l : lacp) (s : slave) : bool :=
  negb (eth_addr_equals (sys_id (s_partner s)) (l_sys_id l)) && negb (bool_decide (s_status s = LACP_DEFAULTED)).

Definition better (l : lacp) (s t : slave) : bool :=
  memcmp (info_bytes (link_priority l s)) (info_bytes (link_priority l t)) <? 0.

Definition lead_step (l : lacp) (acc : option (nat * slave)) (x : nat * slave) : option (nat * slave) :=
  if eligible l x.2 then
    match acc with None => Some x | Some y => if better l x.2 y.2 then Some x else acc end
  else acc.

(** The first slave of the best priority among the eligible ones. *)
Definition lead (l : lacp) (L : slaves) : option (nat * slave) := foldl (lead_step l) None L.

Definition same_partner (s t : slave) : bool :=
  (key (s_partner s) =? key (s_partner t)) && eth_addr_equals (sys_id (s_partner s)) (sys_id (s_partner t)).

Definition attach (l : lacp) (x : option (nat * slave)) (s : slave) : slave :=
  set_attached (eligible l s && match x with Some y => same_partner y.2 s | None => false end) s.

Definition may_tx (l : lacp) (s : slave) : bool := l_active l || negb (bool_decide (s_status s = LACP_DEFAULTED)).

(** Whether a slave sends in the last loop of lacp_run, and what. *)
Definition sends (now : Z) (l : lacp) (L : slaves) (s : slave) : bool :=
  may_tx l s && ((s_tx s <=? now) || negb (info_tx_equal (actor_info l L s) (s_ntt_actor s))).

Definition message (l : lacp) (L : slaves) (s : slave) : Z * list Z :=
  (s_aux s, pdu_bytes (compose_lacp_pdu (actor_info l L s) (s_partner s))).

Definition tx_rate (s : slave) : Z := if Z.land (state (s_partner s)) LACP_STATE_TIME =? 0 then 30000 else 1000.

Definition tx_step (now : Z) (l : lacp) (L : slaves) (s : slave) : slave :=
  if sends now l L s then set_tx (now + tx_rate s) (set_ntt (actor_info l L s) s) else s.

Definition is_some {A} (o : option A) : bool := match o with Some _ => true | None => false end.

(** lacp_update_attached and lacp_run, on the list and the other members. *)
Definition updated (l : lacp) (L : slaves) : lacp := with_negotiated (is_some (lead l L)) (with_update false l).
Definition update_slaves (l : lacp) (L : slaves) : slaves := upd (attach l (lead l L)) <$> L.

Definition run_expire (now : Z) (l : lacp) (L : slaves) : lacp :=
  with_update (l_update l || existsb (fun x => times_out now x.2) L) l.
Definition run_attach (now : Z) (l : lacp) (L : slaves) : lacp * slaves :=
  let L1 := upd (expire_step now) <$> L in
  let l1 := run_expire now l L in
  if l_update l1 then (updated l1 L1, update_slaves l1 L1) else (l1, L1).
Definition run_slaves (now : Z) (l : lacp) (L : slaves) : slaves :=
  upd (tx_step now (run_attach now l L).1 (run_attach now l L).2) <$> (run_attach now l L).2.
Definition run_sent (now : Z) (l : lacp) (L : slaves) : list (Z * list Z) :=
  let '(l2, L2) := run_attach now l L in
  (fun x => message l2 L2 x.2) <$> filter (fun x => sends now l2 L2 x.2 = true) L2.

(** ** The invariant *)

(** The key slave is one of the slaves, and there is one unless there is no slave. *)
Definition key_ok (kp : option nat) (L : slaves) : Prop :=
  match kp with None => L = [] | Some p => p ∈ L.*1 end.

Record lacp_rep (l : lacp) (L : slaves) : Prop := {
  lr_slaves : sm_rep (l_slaves l) L;
  lr_key : key_ok (l_key_slave l) L
}.

(** The two objects agree on all but the memory of the slaves. *)
Definition conf (l : lacp) : lacp := with_slaves sm_empty l.

Lemma conf_with sm l : conf (with_slaves sm l) = conf l. Proof. done. Qed.

Lemma actor_info_conf l1 l2 L s : conf l1 = conf l2 -> actor_info l1 L s = actor_info l2 L s.
Proof. destruct l1, l2. cbn. by intros [= -> -> -> -> -> -> -> ->]. Qed.

(** Functions that leave the port settings of a slave, its pointer and its hash alone. *)
Definition port_of (s : slave) : Z * Z * Z * Z * Z := (s_aux s, s_hash s, s_port_id s, s_port_priority s, s_key s).

Lemma slave_at_elem p s L : NoDup L.*1 -> (p, s) ∈ L -> slave_at p L = Some s.
Proof.
  intros Hd Hin. unfold slave_at. apply list_elem_of_split in Hin as (l1 & l2 & ->).
  rewrite fmap_app in Hd. apply NoDup_app in Hd as (_ & Hd & _).
  induction l1 as [|y l1 IH]; cbn [app find_first].
  { cbn [fst]. by rewrite Nat.eqb_refl. }
  destruct (Nat.eqb_spec y.1 p) as [E|]; [|apply IH; intros z Hz; apply Hd; by right].
  exfalso. apply (Hd y.1); [by left|]. rewrite E. by left.
Qed.

Lemma agg_key_upd kp f L : (forall s, port_of (f s) = port_of s) -> agg_key kp (upd f <$> L) = agg_key kp L.
Proof.
  intros Hf. destruct kp as [p|]; [|done]. unfold agg_key, slave_at. rewrite find_first_fmap. cbn.
  destruct (find_first _ L) as [[q s]|]; [|done]. cbn. specialize (Hf s). unfold port_of in Hf.
  unfold port_key. injection Hf as _ _ -> _ ->. done.
Qed.

Lemma actor_info_upd l f L s :
  (forall s, port_of (f s) = port_of s) -> actor_info l (upd f <$> L) s = actor_info l L s.
Proof. intros Hf. unfold actor_info. by rewrite agg_key_upd, length_fmap by done. Qed.

Lemma key_ok_upd kp f L : key_ok kp L -> key_ok kp (upd f <$> L).
Proof. destruct kp; cbn; [by rewrite upd_ptrs|]. by intros ->. Qed.

(** ** The functions on one slave *)

Lemma on_slaves_ok {B} (m : cstate (slave_map slave) B) l b sm :
  m (l_slaves l) = Ret (b, sm) -> on_slaves m l = Ret (b, with_slaves sm l).
Proof. intros E. unfold on_slaves. by rewrite E. Qed.

Lemma on_slaves_read {B} (m : cstate (slave_map slave) B) l b :
  m (l_slaves l) = Ret (b, l_slaves l) -> on_slaves m l = Ret (b, l).
Proof. intros E. rewrite (on_slaves_ok _ _ _ _ E). by destruct l. Qed.

Lemma load_ok l L p s : sm_rep (l_slaves l) L -> (p, s) ∈ L -> load p l = Ret (s, l).
Proof. intros Hr Hin. apply on_slaves_read. by eapply sm_load_ok. Qed.

Lemma load_mid l L1 L2 p s : sm_rep (l_slaves l) (L1 ++ (p, s) :: L2) -> load p l = Ret (s, l).
Proof. intros Hr. eapply load_ok; [done|]. apply elem_of_app. right. by left. Qed.

Lemma store_slave_ok l L1 L2 p s f :
  sm_rep (l_slaves l) (L1 ++ (p, s) :: L2) -> s_aux (f s) = s_aux s -> s_hash (f s) = s_hash s ->
  exists sm, store p f l = Ret (tt, with_slaves sm l) /\ sm_rep sm (L1 ++ (p, f s) :: L2).
Proof.
  intros Hr Ha Hh. destruct (sm_modify_ok (l_slaves l) L1 L2 p s f Hr Ha Hh) as (sm & E & Hr' & _).
  exists sm. split; [|done]. by apply on_slaves_ok.
Qed.

(** One store of a sequence. *)
Ltac store_step Hr :=
  match goal with
  | |- context [(store ?p ?f ≫= _) ?l] =>
      let sm := fresh "sm" in let E := fresh "E" in let Hr' := fresh "Hr" in
      destruct (store_slave_ok l _ _ p _ f Hr eq_refl eq_refl) as (sm & E & Hr');
      rewrite (cstate_bind_step _ _ _ _ _ E); clear E Hr; rename Hr' into Hr
  | |- context [store ?p ?f ?l] =>
      let sm := fresh "sm" in let E := fresh "E" in let Hr' := fresh "Hr" in
      destruct (store_slave_ok l _ _ p _ f Hr eq_refl eq_refl) as (sm & E & Hr');
      rewrite E; clear E Hr; rename Hr' into Hr
  end.

Ltac run_step E := rewrite (cstate_bind_step _ _ _ _ _ E).
Ltac run_get l := rewrite (cstate_bind_step get _ l l l eq_refl).
Ltac run_modify := match goal with |- context [(modify ?f ≫= _) ?l] =>
  rewrite (cstate_bind_step (modify f) _ l tt (f l) eq_refl) end.

Ltac load_step Hr := match goal with |- context [(load ?p ≫= _) ?l] =>
  rewrite (cstate_bind_step _ _ _ _ _ (load_mid l _ _ p _ Hr)) end.

Lemma slave_set_expired_ok l L1 L2 p s now :
  sm_rep (l_slaves l) (L1 ++ (p, s) :: L2) ->
  exists sm, slave_set_expired p now l = Ret (tt, with_slaves sm l) /\ sm_rep sm (L1 ++ (p, expired now s) :: L2).
Proof.
  intros Hr. unfold slave_set_expired. do 4 store_step Hr. eexists. split; [done|exact Hr].
Qed.

Lemma slave_set_defaulted_ok l L1 L2 p s :
  sm_rep (l_slaves l) (L1 ++ (p, s) :: L2) ->
  exists sm, slave_set_defaulted p l = Ret (tt, with_slaves sm (with_update true l))
    /\ sm_rep sm (L1 ++ (p, defaulted s) :: L2).
Proof.
  intros Hr. unfold slave_set_defaulted. store_step Hr. run_modify. store_step Hr.
  eexists. split; [done|exact Hr].
Qed.

(** ** Queries of one slave *)

Lemma deref_some p l : deref (Some p) l = Ret (p, l).
Proof. done. Qed.

Lemma key_slave_at l L :
  lacp_rep l L -> L <> [] -> exists p s, l_key_slave l = Some p /\ (p, s) ∈ L /\ agg_key (l_key_slave l) L = port_key s.
Proof.
  intros [Hr Hk] HL. unfold key_ok in Hk. destruct (l_key_slave l) as [p|]; [|done].
  apply list_elem_of_fmap in Hk as ([q s] & -> & Hin). exists q, s. split_and!; [done..|].
  cbn. by rewrite (slave_at_elem q s L (sr_ptrs _ _ Hr) Hin).
Qed.

Lemma slave_get_actor_ok l L s : lacp_rep l L -> L <> [] -> slave_get_actor s l = Ret (actor_info l L s, l).
Proof.
  intros Hr HL. destruct (key_slave_at l L Hr HL) as (p & ks & Ek & Hin & Ea). destruct Hr as [Hr _].
  unfold slave_get_actor. run_get l. rewrite Ek. run_step (deref_some p l).
  run_step (load_ok _ _ _ _ Hr Hin). unfold actor_info. rewrite Ek in Ea. rewrite Ek, Ea.
  by rewrite (sm_count _ _ Hr).
Qed.

Lemma slave_get_priority_ok l L s : lacp_rep l L -> L <> [] -> slave_get_priority s l = Ret (link_priority l s, l).
Proof.
  intros Hr HL. unfold slave_get_priority, link_priority, own_side. run_get l.
  pose proof (slave_get_actor_ok l L s Hr HL) as E. unfold eth_addr_compare_3way.
  bcase; first [run_step E; done|done].
Qed.

Lemma slave_may_tx_ok l s : slave_may_tx s l = Ret (may_tx l s, l).
Proof. done. Qed.

(** ** The loops *)

Lemma for_each_slave_ok {B} (body : nat -> B -> lm B) b l L :
  sm_rep (l_slaves l) L -> for_each_slave body b l = each body L.*1 b l.
Proof.
  intros Hr. unfold for_each_slave. run_get l.
  by rewrite (cstate_bind_step (lift (sm_nodes (l_slaves l))) _ l L.*1 l) by (unfold lift; by rewrite (sm_nodes_ok _ _ Hr)).
Qed.

Lemma expire_all_ok now l L :
  sm_rep (l_slaves l) L ->
  exists sm, for_each_slave (expire_one now) tt l = Ret (tt, with_slaves sm (run_expire now l L))
    /\ sm_rep sm (upd (expire_step now) <$> L).
Proof.
  intros Hr. rewrite (for_each_slave_ok _ _ _ _ Hr).
  destruct (each_rule l_slaves (expire_one now) (expire_step now)
    (fun L1 _ st => exists sm, st = with_slaves sm (run_expire now l L1)) L) with (b := tt) (st := l)
    as ([] & st & E & (sm & ->) & Hr'); [| |done|by exists sm].
  - intros L1 p s L2 [] st _ (sm & ->) Hs. unfold expire_one. load_step Hs.
    unfold expire_step, timer_expired. exists tt.
    assert (run_expire now l (L1 ++ [(p, s)]) = with_update (l_update (run_expire now l L1) || times_out now s) l) as Ex
      by (unfold run_expire; rewrite existsb_app; cbn; by rewrite orb_false_r, orb_assoc).
    rewrite Ex. unfold times_out. destruct (s_rx s <=? now); [destruct (s_status s)|].
    + rewrite bool_decide_false, orb_false_r by done.
      destruct (slave_set_expired_ok _ _ _ _ _ now Hs) as (sm' & -> & Hs'). eexists. split; [done|]. split; [by exists sm'|done].
    + rewrite bool_decide_true, orb_true_r by done.
      destruct (slave_set_defaulted_ok _ _ _ _ _ Hs) as (sm' & -> & Hs'). eexists. split; [done|]. split; [by exists sm'|done].
    + rewrite bool_decide_false, orb_false_r by done. eexists. split; [done|]. split; [by exists sm|done].
    + rewrite andb_false_l, orb_false_r. eexists. split; [done|]. split; [by exists sm|done].
  - exists (l_slaves l). unfold run_expire. cbn. rewrite orb_false_r. by destruct l.
Qed.

(** The first loop of lacp_update_attached. *)
Lemma attach_one_ok l p s L1 L2 acc :
  sm_rep (l_slaves l) (L1 ++ (p, s) :: L2) -> key_ok (l_key_slave l) (L1 ++ (p, s) :: L2) ->
  exists sm, attach_one p ((fun y => (y.1, link_priority l y.2)) <$> acc) l
             = Ret ((fun y => (y.1, link_priority l y.2)) <$> lead_step l acc (p, s), with_slaves sm l)
    /\ sm_rep sm (L1 ++ (p, set_attached (eligible l s) s) :: L2).
Proof.
  intros Hr Hk. unfold attach_one. store_step Hr. load_step Hr.
  run_get (with_slaves sm l). unfold lead_step, eligible. cbn [s_partner set_attached snd s_status l_sys_id with_slaves].
  destruct (eth_addr_equals (sys_id (s_partner s)) (l_sys_id l)); [by exists sm|].
  destruct (bool_decide (s_status s = LACP_DEFAULTED)); [by exists sm|]. cbn [negb andb].
  store_step Hr. load_step Hr.
  assert (lacp_rep (with_slaves sm0 (with_slaves sm l)) (L1 ++ (p, set_attached true (set_attached false s)) :: L2)) as Hl.
  { split; [done|]. destruct l as [? ? ? ? ? kp ? ? ?]. cbn in Hk |- *. destruct kp; cbn in *; [|by destruct L1].
    rewrite fmap_app in *. done. }
  run_step (slave_get_priority_ok _ _ (set_attached true (set_attached false s)) Hl ltac:(by destruct L1)).
  exists sm0. split; [|done]. unfold better. cbn [snd].
  change (link_priority (with_slaves sm0 (with_slaves sm l)) (set_attached true (set_attached false s)))
    with (link_priority l s).
  destruct acc as [[q t]|]; [|done]. cbn [fmap option_fmap option_map fst snd]. by destruct (_ <? 0).
Qed.

Lemma key_ok_fst kp L L' : L.*1 = L'.*1 -> key_ok kp L -> key_ok kp L'.
Proof. destruct kp; cbn; [by intros ->|]. intros E ->. by destruct L'. Qed.

Lemma mid_ptrs (f : slave -> slave) L1 x L2 : ((upd f <$> L1) ++ x :: L2).*1 = (L1 ++ x :: L2).*1.
Proof. by rewrite !fmap_app, upd_ptrs. Qed.

Lemma attach_all_ok l L :
  lacp_rep l L ->
  exists sm, for_each_slave attach_one None l
             = Ret ((fun y => (y.1, link_priority l y.2)) <$> lead l L, with_slaves sm l)
    /\ sm_rep sm (upd (fun s => set_attached (eligible l s) s) <$> L).
Proof.
  intros [Hr Hk]. rewrite (for_each_slave_ok _ _ _ _ Hr).
  destruct (each_rule l_slaves attach_one (fun s => set_attached (eligible l s) s)
    (fun L1 b st => b = (fun y => (y.1, link_priority l y.2)) <$> foldl (lead_step l) None L1
                    /\ exists sm, st = with_slaves sm l) L) with (b := @None (nat * lacp_info)) (st := l)
    as (b & st & E & (-> & sm & ->) & Hr'); [| |done|by exists sm].
  - intros L1 p s L2 b st EL (-> & sm & ->) Hs.
    assert (key_ok (l_key_slave (with_slaves sm l))
              ((upd (fun s => set_attached (eligible l s) s) <$> L1) ++ (p, s) :: L2)) as Hk'
      by (eapply key_ok_fst; [|exact Hk]; by rewrite mid_ptrs, EL).
    destruct (attach_one_ok (with_slaves sm l) p s _ L2 (foldl (lead_step l) None L1) Hs Hk') as (sm' & E & Hs').
    do 2 eexists. split; [exact E|]. split; [|exact Hs']. rewrite foldl_app. split; [done|by exists sm'].
  - split; [done|]. exists (l_slaves l). by destruct l.
Qed.

Definition detach (t s : slave) : slave := if same_partner t s then s else set_attached false s.

Lemma detach_all_ok l L q t :
  sm_rep (l_slaves l) L -> (q, t) ∈ L ->
  exists sm, for_each_slave (detach_one q) tt l = Ret (tt, with_slaves sm l) /\ sm_rep sm (upd (detach t) <$> L).
Proof.
  intros Hr Hin. rewrite (for_each_slave_ok _ _ _ _ Hr).
  destruct (each_rule l_slaves (detach_one q) (detach t)
    (fun L1 b st => exists sm, st = with_slaves sm l) L) with (b := tt) (st := l)
    as ([] & st & E & (sm & ->) & Hr'); [| |done|by exists sm].
  - intros L1 p s L2 [] st EL (sm & ->) Hs. unfold detach_one.
    assert (exists t', (q, t') ∈ (upd (detach t) <$> L1) ++ (p, s) :: L2 /\ s_partner t' = s_partner t) as (t' & Ht & Et).
    { subst L. apply elem_of_app in Hin as [Hin|Hin].
      - exists (detach t t). split; [|unfold detach; by destruct (same_partner t t)].
        apply elem_of_app. left. apply elem_upd. by exists t.
      - exists t. split; [|done]. apply elem_of_app. by right. }
    run_step (load_ok (with_slaves sm l) _ _ _ Hs Ht). load_step Hs. rewrite Et.
    exists tt. unfold detach at 2. unfold same_partner.
    destruct (key (s_partner t) =? key (s_partner s)); cbn [negb orb andb];
      [destruct (eth_addr_equals (sys_id (s_partner t)) (sys_id (s_partner s))); cbn [negb]|].
    + eexists. split; [done|]. split; [by exists sm|done].
    + store_step Hs. eexists. split; [done|]. split; [by eexists|done].
    + store_step Hs. eexists. split; [done|]. split; [by eexists|done].
  - exists (l_slaves l). by destruct l.
Qed.

(** The lead is one of the slaves, and an eligible one. *)
Lemma foldl_lead_elem l L : forall acc x, foldl (lead_step l) acc L = Some x ->
  acc = Some x \/ x ∈ L /\ eligible l x.2 = true.
Proof.
  induction L as [|y L IH]; intros acc x; cbn [foldl]; [by left|].
  intros E. destruct (IH _ _ E) as [E'|[Hx He]]; [|right; split; [by right|done]].
  unfold lead_step in E'. destruct (eligible l y.2) eqn:Ey; [|by left].
  destruct acc as [z|]; [destruct (better l y.2 z.2)|]; simplify_eq; first [by left|right; split; [left|done]].
Qed.

Lemma lead_elem l L x : lead l L = Some x -> x ∈ L /\ eligible l x.2 = true.
Proof. intros E. by destruct (foldl_lead_elem l L None x E). Qed.

Lemma foldl_lead_some l L : forall x, exists y, foldl (lead_step l) (Some x) L = Some y.
Proof.
  induction L as [|y L IH]; intros x; cbn [foldl]; [by exists x|]. unfold lead_step at 2.
  destruct (eligible l y.2); [destruct (better l y.2 x.2)|]; apply IH.
Qed.

Lemma lead_None l L : lead l L = None <-> forall x, x ∈ L -> eligible l x.2 = false.
Proof.
  unfold lead. split.
  - intros El x Hx. induction L as [|y L IH]; [by apply not_elem_of_nil in Hx|]. cbn [foldl] in El.
    unfold lead_step at 2 in El. destruct (eligible l y.2) eqn:Ey.
    + by destruct (foldl_lead_some l L y) as (z & Ez); rewrite Ez in El.
    + apply elem_of_cons in Hx as [->|Hx]; auto.
  - induction L as [|y L IH]; intros Hn; [done|]. cbn [foldl]. unfold lead_step at 2.
    rewrite (Hn y) by left. apply IH. intros x Hx. apply Hn. by right.
Qed.

Lemma lacp_update_attached_ok l L :
  lacp_rep l L ->
  exists sm, lacp_update_attached l = Ret (tt, with_slaves sm (updated l L)) /\ sm_rep sm (update_slaves l L).
Proof.
  intros Hr. unfold lacp_update_attached. run_modify.
  destruct (attach_all_ok (with_update false l) L) as (sm & E & Hs); [by destruct Hr|].
  run_step E. change (lead (with_update false l) L) with (lead l L). run_modify.
  unfold updated, update_slaves. destruct (lead l L) as [[q t]|] eqn:El; cbn [fmap option_fmap option_map is_some fst snd].
  - destruct (lead_elem _ _ _ El) as [Hin _].
    destruct (detach_all_ok (with_negotiated true (with_slaves sm (with_update false l)))
      (upd (fun s => set_attached (eligible l s) s) <$> L) q (set_attached (eligible l t) t)) as (sm' & -> & Hs').
    + exact Hs.
    + apply elem_upd. by exists t.
    + exists sm'. split; [done|]. rewrite <- list_fmap_compose in Hs'. erewrite list_fmap_ext; [exact Hs'|].
      intros i [p s] _. unfold upd, attach, detach. cbn [compose fst snd]. f_equal.
      change (same_partner (set_attached (eligible l t) t) (set_attached (eligible l s) s)) with (same_partner t s).
      destruct (same_partner t s); by rewrite ?andb_true_r, ?andb_false_r.
  - exists sm. split; [done|]. erewrite list_fmap_ext; [exact Hs|].
    intros i [p s] Hi. unfold upd, attach. cbn [fst snd]. rewrite andb_false_r.
    rewrite lead_None in El. specialize (El (p, s) (list_elem_of_lookup_2 _ _ _ Hi)). change (eligible (with_update false l) s = false) in El. by rewrite El.
Qed.

Lemma tx_step_port now l L s : port_of (tx_step now l L s) = port_of s.
Proof. unfold tx_step. by destruct (sends now l L s). Qed.

(** The other members do not notice the transmissions. *)
Lemma agg_key_mid kp f L1 x L2 :
  (forall s, port_of (f s) = port_of s) -> agg_key kp ((upd f <$> L1) ++ x :: L2) = agg_key kp (L1 ++ x :: L2).
Proof.
  intros Hf. destruct kp as [p|]; [|done]. unfold agg_key, slave_at.
  assert (forall (A B : slaves) (q : nat * slave -> bool),
    find_first q (A ++ B) = match find_first q A with Some y => Some y | None => find_first q B end) as Happ.
  { intros A B q. induction A as [|y A IH]; [done|]. cbn. by destruct (q y). }
  rewrite !Happ, find_first_fmap. cbn. destruct (find_first _ L1) as [[q s]|]; [|done]. cbn.
  specialize (Hf s). unfold port_of in Hf. unfold port_key. injection Hf as _ _ -> _ ->. done.
Qed.

Lemma transmit_all_ok now l L :
  lacp_rep l L ->
  exists sm, for_each_slave (transmit_one now) [] l
      = Ret ((fun x => message l L x.2) <$> filter (fun x => sends now l L x.2 = true) L, with_slaves sm l)
    /\ sm_rep sm (upd (tx_step now l L) <$> L).
Proof.
  intros [Hr Hk]. rewrite (for_each_slave_ok _ _ _ _ Hr).
  destruct (each_rule l_slaves (transmit_one now) (tx_step now l L)
    (fun L1 b st => b = (fun x => message l L x.2) <$> filter (fun x => sends now l L x.2 = true) L1
                    /\ exists sm, st = with_slaves sm l) L) with (b := @nil (Z * list Z)) (st := l)
    as (b & st & E & (-> & sm & ->) & Hr'); [| |done|by exists sm].
  - intros L1 p s L2 b st EL (-> & sm & ->) Hs. unfold transmit_one. load_step Hs.
    run_step (slave_may_tx_ok (with_slaves sm l) s). change (may_tx (with_slaves sm l) s) with (may_tx l s).
    rewrite filter_app, fmap_app, filter_cons. cbn [snd].
    assert (lacp_rep (with_slaves sm l) ((upd (tx_step now l L) <$> L1) ++ (p, s) :: L2)) as Hl.
    { split; [done|]. eapply key_ok_fst; [|exact Hk]. by rewrite mid_ptrs, EL. }
    assert (actor_info (with_slaves sm l) ((upd (tx_step now l L) <$> L1) ++ (p, s) :: L2) s = actor_info l L s) as Ea.
    { unfold actor_info, actor_state. cbn [l_key_slave with_slaves l_sys_priority l_sys_id l_active l_fast l_negotiated].
      rewrite agg_key_mid by (intros; apply tx_step_port). subst L. rewrite !length_app, length_fmap. done. }
    pose proof (slave_get_actor_ok _ _ s Hl ltac:(by destruct (upd (tx_step now l L) <$> L1))) as Eg. rewrite Ea in Eg.
    unfold tx_step at 2. destruct (may_tx l s) eqn:Em; cbn [negb].
    + run_step Eg. unfold timer_expired.
      assert (sends now l L s = (s_tx s <=? now) || negb (info_tx_equal (actor_info l L s) (s_ntt_actor s))) as Es
        by (unfold sends; by rewrite Em).
      rewrite Es. destruct ((s_tx s <=? now) || negb (info_tx_equal (actor_info l L s) (s_ntt_actor s))).
      * store_step Hs. store_step Hs. rewrite decide_True by done. do 2 eexists. split; [done|]. split; [|exact Hs].
        split; [done|by eexists].
      * rewrite decide_False by done. do 2 eexists. split; [done|]. split; [|exact Hs].
        cbn. rewrite app_nil_r. split; [done|by exists sm].
    + assert (sends now l L s = false) as Es by (unfold sends; by rewrite Em).
      rewrite Es, decide_False by done. cbn. rewrite app_nil_r.
      do 2 eexists. split; [done|]. split; [|exact Hs]. split; [done|by exists sm].
  - split; [done|]. exists (l_slaves l). by destruct l.
Qed.

(** ** The functions of the interface *)

Lemma lacp_run_ok now l L :
  lacp_rep l L ->
  exists l', lacp_run now l = Ret (run_sent now l L, l') /\ lacp_rep l' (run_slaves now l L)
    /\ conf l' = conf (run_attach now l L).1.
Proof.
  intros [Hr Hk]. unfold lacp_run, run_sent, run_slaves, run_attach.
  destruct (expire_all_ok now l L Hr) as (sm & E & Hs). run_step E. clear E.
  set (l1 := run_expire now l L) in *. set (L1 := upd (expire_step now) <$> L) in *.
  assert (key_ok (l_key_slave l1) L1) as Hk1 by (by apply key_ok_upd).
  run_get (with_slaves sm l1). change (l_update (with_slaves sm l1)) with (l_update l1).
  destruct (l_update l1).
  - destruct (lacp_update_attached_ok (with_slaves sm l1) L1) as (sm2 & E & Hs2); [by split|].
    run_step E. clear E. change (updated (with_slaves sm l1) L1) with (with_slaves sm (updated l1 L1)).
    change (update_slaves (with_slaves sm l1) L1) with (update_slaves l1 L1) in Hs2.
    change (with_slaves sm2 (with_slaves sm (updated l1 L1))) with (with_slaves sm2 (updated l1 L1)).
    destruct (transmit_all_ok now (with_slaves sm2 (updated l1 L1)) (update_slaves l1 L1)) as (sm3 & E & Hs3).
    { split; [done|]. by apply key_ok_upd. }
    rewrite E. eexists. split; [done|]. split; [|done]. split; [exact Hs3|]. by apply key_ok_upd, key_ok_upd.
  - run_step (eq_refl (Ret (tt, with_slaves sm l1)) : (mret tt : lm unit) (with_slaves sm l1) = _).
    destruct (transmit_all_ok now (with_slaves sm l1) L1) as (sm3 & E & Hs3); [by split|].
    rewrite E. eexists. split; [done|]. split; [|done]. split; [exact Hs3|]. by apply key_ok_upd.
Qed.

Lemma slave_lookup_ok l L q : sm_rep (l_slaves l) L -> slave_lookup q l = Ret (fst <$> find_slave q L, l).
Proof. intros Hr. apply on_slaves_read. by apply sm_lookup_ok. Qed.

Lemma slave_lookup_found l L p s : sm_rep (l_slaves l) L -> (p, s) ∈ L -> slave_lookup (s_aux s) l = Ret (Some p, l).
Proof. intros Hr Hin. apply on_slaves_read. exact (@sm_lookup_found slave slave_slave _ L p s Hr Hin). Qed.

(** A packet with a message, on a registered slave. *)
Definition news (pdu : lacp_pdu) (s : slave) : bool :=
  negb (memcmp (info_bytes (s_partner s)) (info_bytes (actor pdu)) =? 0).

Definition receive (now : Z) (fast : bool) (pdu : lacp_pdu) (s : slave) : slave :=
  let s := set_ntt (partner pdu) (set_rx (now + 3 * (if fast then 1000 else 30000)) (set_status LACP_CURRENT s)) in
  if news pdu s then set_partner (actor pdu) s else s.

Lemma lacp_process_packet_ok now pkt pdu l L1 L2 p s :
  sm_rep (l_slaves l) (L1 ++ (p, s) :: L2) -> parse_lacp_packet pkt = Some pdu ->
  exists sm, lacp_process_packet (s_aux s) pkt now l
             = Ret (tt, with_slaves sm (with_update (l_update l || news pdu s) l))
    /\ sm_rep sm (L1 ++ (p, receive now (l_fast l) pdu s) :: L2).
Proof.
  intros Hr Ep. unfold lacp_process_packet.
  run_step (slave_lookup_found l _ p s Hr ltac:(apply elem_of_app; right; left)). rewrite Ep.
  run_step (deref_some p l). store_step Hr. run_get (with_slaves sm l). change (l_fast (with_slaves sm l)) with (l_fast l).
  unfold receive, news. do 2 store_step Hr. load_step Hr.
  change (LACP_RX_MULTIPLIER * (if l_fast l then LACP_FAST_TIME_TX else LACP_SLOW_TIME_TX))
    with (3 * (if l_fast l then 1000 else 30000)) in *. unfold timer_set_duration in Hr.
  cbn [s_partner set_ntt set_rx set_status] in *.
  destruct (memcmp (info_bytes (s_partner s)) (info_bytes (actor pdu)) =? 0); cbn [negb].
  - rewrite orb_false_r. eexists. split; [|exact Hr]. by destruct l.
  - run_modify. store_step Hr. rewrite orb_true_r. by eexists.
Qed.

Lemma lacp_process_bad now pkt l L q :
  sm_rep (l_slaves l) L -> parse_lacp_packet pkt = None -> lacp_process_packet q pkt now l = Ret (tt, l).
Proof. intros Hr Ep. unfold lacp_process_packet. run_step (slave_lookup_ok l L q Hr). by rewrite Ep. Qed.

Lemma lacp_carrier_ok now l L1 L2 p s :
  sm_rep (l_slaves l) (L1 ++ (p, s) :: L2) ->
  exists sm, lacp_slave_carrier_changed (s_aux s) now l = Ret (tt, with_slaves sm l)
    /\ sm_rep sm (L1 ++ (p, if bool_decide (s_status s = LACP_CURRENT) || l_active l then expired now s else s) :: L2).
Proof.
  intros Hr. unfold lacp_slave_carrier_changed.
  run_step (slave_lookup_found l _ p s Hr ltac:(apply elem_of_app; right; left)).
  run_step (deref_some p l). load_step Hr. run_get l.
  destruct (bool_decide (s_status s = LACP_CURRENT) || l_active l); [by apply slave_set_expired_ok|].
  exists (l_slaves l). split; [by destruct l|done].
Qed.

(** Registration of a slave that is there, and of a new one. *)
Definition ports_differ (ss : lacp_slave_settings) (s : slave) : bool :=
  negb (s_port_id s =? ss_id ss) || negb (s_port_priority s =? ss_priority ss) || negb (s_key s =? ss_key ss).

Definition configured (now : Z) (l : lacp) (ss : lacp_slave_settings) (s : slave) : slave :=
  let s := set_name (new_name (s_name s) (ss_name ss)) s in
  if ports_differ ss s then
    let s := set_port (ss_id ss) (ss_priority ss) (ss_key ss) s in
    if l_active l || l_negotiated l then expired now s else s
  else s.

Lemma store_settings_ok now ss l L1 L2 p s :
  sm_rep (l_slaves l) (L1 ++ (p, s) :: L2) ->
  exists sm, (_ ← store p (fun s => set_name (new_name (s_name s) (ss_name ss)) s);
              s ← load p;
              if negb (s_port_id s =? ss_id ss) || negb (s_port_priority s =? ss_priority ss) || negb (s_key s =? ss_key ss)
              then
                _ ← store p (set_port (ss_id ss) (ss_priority ss) (ss_key ss));
                _ ← modify (with_update true);
                l ← get;
                if l_active l || l_negotiated l then slave_set_expired p now else mret tt
              else mret tt) l
             = Ret (tt, with_slaves sm (with_update (l_update l || ports_differ ss s) l))
    /\ sm_rep sm (L1 ++ (p, configured now l ss s) :: L2).
Proof.
  intros Hr. store_step Hr. load_step Hr. unfold configured, ports_differ.
  cbn [s_port_id s_port_priority s_key set_name].
  destruct (negb (s_port_id s =? ss_id ss) || negb (s_port_priority s =? ss_priority ss) || negb (s_key s =? ss_key ss)).
  - store_step Hr. run_modify. match goal with |- context [(get ≫= _) ?x] => run_get x end. rewrite orb_true_r.
    cbn [l_active l_negotiated with_update with_slaves]. destruct (l_active l || l_negotiated l); [|by eexists].
    destruct (slave_set_expired_ok (with_update true (with_slaves sm0 (with_slaves sm l))) _ _ _ _ now Hr) as (sm' & E & Hs).
    rewrite E. by exists sm'.
  - rewrite orb_false_r. eexists. split; [|exact Hr]. by destruct l.
Qed.

Lemma lacp_register_old_ok now ss l L1 L2 p s :
  sm_rep (l_slaves l) (L1 ++ (p, s) :: L2) ->
  exists sm, lacp_slave_register (s_aux s) ss now l
             = Ret (tt, with_slaves sm (with_update (l_update l || ports_differ ss s) l))
    /\ sm_rep sm (L1 ++ (p, configured now l ss s) :: L2).
Proof.
  intros Hr. unfold lacp_slave_register.
  run_step (slave_lookup_found l _ p s Hr ltac:(apply elem_of_app; right; left)).
  run_step (eq_refl (Ret (p, l)) : (mret p : lm nat) l = _). by apply store_settings_ok.
Qed.

Definition few (L : slaves) : Prop := Z.of_nat (length L) < 2 ^ 60.

Lemma key_ok_perm kp L L' : L ≡ₚ L' -> key_ok kp L -> key_ok kp L'.
Proof.
  destruct kp; cbn; [by intros ->|]. intros E ->. by apply Permutation_nil_l in E.
Qed.

Lemma add_slave_ok l L q :
  lacp_rep l L -> q ∉ aux_of <$> L -> few L ->
  exists p l' L', add_slave q l = Ret (p, l') /\ lacp_rep l' L' /\ L' ≡ₚ (p, defaulted (fresh_slave q)) :: L
    /\ conf (with_key_slave (l_key_slave l) l') = conf (with_update true l).
Proof.
  intros [Hr Hk] Hq Hf. unfold add_slave.
  destruct (sm_insert_ok (l_slaves l) L (fresh_slave q) Hr Hq eq_refl Hf) as (m1 & m2 & L1 & E1 & E2 & Hr1 & EL).
  run_step (on_slaves_ok _ l _ _ E1). set (p := sm_next (l_slaves l)) in *.
  run_step (on_slaves_ok _ (with_slaves m1 l) _ _ E2).
  assert ((p, fresh_slave q) ∈ L1) as Hin by (rewrite EL; by left).
  apply list_elem_of_split in Hin as (A & B & ->).
  destruct (slave_set_defaulted_ok (with_slaves m2 (with_slaves m1 l)) A B p _ Hr1) as (sm & E & Hs). run_step E.
  match goal with |- context [(get ≫= _) ?x] => run_get x end. cbn [l_key_slave with_slaves with_update].
  assert (A ++ (p, defaulted (fresh_slave q)) :: B ≡ₚ (p, defaulted (fresh_slave q)) :: L) as EP.
  { rewrite <- Permutation_middle in EL |- *. apply Permutation_cons_inv in EL. by rewrite EL. }
  assert (p ∈ (A ++ (p, defaulted (fresh_slave q)) :: B).*1) as Hp by (rewrite fmap_app; apply elem_of_app; right; left).
  destruct (l_key_slave l) as [k|] eqn:Ek.
  - do 2 eexists. exists (A ++ (p, defaulted (fresh_slave q)) :: B). split; [done|]. split_and!; [|done|].
    + split; [exact Hs|]. cbn [l_key_slave with_slaves with_update]. rewrite Ek. cbn. rewrite EP. by right.
    + unfold conf, with_key_slave, with_update, with_slaves. cbn. by rewrite Ek.
  - do 2 eexists. exists (A ++ (p, defaulted (fresh_slave q)) :: B). split; [done|]. split_and!; [|done|].
    + by split.
    + unfold conf, with_key_slave, with_update, with_slaves. cbn. by rewrite Ek.
Qed.

Lemma lacp_register_new_ok now ss l L q :
  lacp_rep l L -> q ∉ aux_of <$> L -> few L ->
  exists p l' L', lacp_slave_register q ss now l = Ret (tt, l') /\ lacp_rep l' L'
    /\ L' ≡ₚ (p, configured now l ss (defaulted (fresh_slave q))) :: L
    /\ conf (with_key_slave (l_key_slave l) l') = conf (with_update true l).
Proof.
  intros Hr Hq Hf. unfold lacp_slave_register. run_step (slave_lookup_ok l L q (lr_slaves _ _ Hr)).
  rewrite (proj2 (find_slave_None q L) Hq). cbn [fmap option_fmap option_map].
  destruct (add_slave_ok l L q Hr Hq Hf) as (p & l1 & L1 & E & [Hr1 Hk1] & EL & Ec). run_step E.
  assert ((p, defaulted (fresh_slave q)) ∈ L1) as Hin by (rewrite EL; by left).
  apply list_elem_of_split in Hin as (A & B & ->).
  destruct (store_settings_ok now ss l1 A B p _ Hr1) as (sm & E' & Hs).
  exists p, (with_slaves sm (with_update (l_update l1 || ports_differ ss (defaulted (fresh_slave q))) l1)),
    (A ++ (p, configured now l1 ss (defaulted (fresh_slave q))) :: B). split; [exact E'|].
  assert (l_active l1 = l_active l /\ l_negotiated l1 = l_negotiated l /\ l_update l1 = true) as (Ha & Hn & Hu)
    by (destruct l, l1; cbn in Ec |- *; by simplify_eq).
  assert (configured now l1 ss (defaulted (fresh_slave q)) = configured now l ss (defaulted (fresh_slave q))) as Ecf
    by (unfold configured; by rewrite Ha, Hn).
  split_and!.
  - split; [exact Hs|]. eapply key_ok_fst; [|exact Hk1]. by rewrite !fmap_app.
  - rewrite Ecf. rewrite <- Permutation_middle in EL |- *. apply Permutation_cons_inv in EL. by rewrite EL.
  - rewrite Hu. destruct l, l1; cbn in Ec |- *. cbn in Hu. by simplify_eq.
Qed.

Lemma lacp_unregister_ok l L p s :
  lacp_rep l L -> (p, s) ∈ L -> few L ->
  exists l' L', lacp_slave_unregister (s_aux s) l = Ret (tt, l') /\ lacp_rep l' L' /\ L ≡ₚ (p, s) :: L'
    /\ conf (with_key_slave (l_key_slave l) l') = conf (with_update true l).
Proof.
  intros [Hr Hk] Hin Hf. unfold lacp_slave_unregister. run_step (slave_lookup_found l _ p s Hr Hin).
  destruct (sm_remove_ok (l_slaves l) L p s Hr Hin Hf) as (m1 & m2 & L' & E1 & E2 & Hr2 & Eh & EL).
  unfold slave_destroy.
  assert (on_slaves (sm_remove p) (with_update true l) = Ret (tt, with_slaves m1 (with_update true l))) as Er
    by (by apply on_slaves_ok).
  exists (with_slaves m2 (with_key_slave (if bool_decide (l_key_slave l = Some p) then head L'.*1 else l_key_slave l)
                            (with_update true l))), L'.
  split_and!; [| |done|by destruct l].
  - unfold mbind, cstate_bind. unfold modify at 1. rewrite Er. unfold get.
    cbn [l_key_slave with_slaves with_update l_slaves]. case_bool_decide.
    + unfold lift. rewrite Eh. unfold modify at 1. unfold on_slaves.
      cbn [l_slaves with_key_slave with_slaves]. rewrite E2. done.
    + unfold mret, cstate_ret, on_slaves. cbn [l_slaves with_slaves]. rewrite E2. by destruct l.
  - split; [exact Hr2|]. cbn [l_key_slave with_slaves with_key_slave]. case_bool_decide as Hkp.
    + destruct L' as [|y L']; [done|]. cbn. by left.
    + unfold key_ok in *. destruct (l_key_slave l) as [k|].
      * rewrite EL in Hk. cbn in Hk. apply elem_of_cons in Hk as [->|]; [by destruct Hkp|done].
      * subst L. by apply Permutation_nil_cons in EL.
Qed.

Lemma lacp_unregister_absent l L q :
  sm_rep (l_slaves l) L -> q ∉ aux_of <$> L -> lacp_slave_unregister q l = Ret (tt, l).
Proof.
  intros Hr Hq. unfold lacp_slave_unregister. run_step (slave_lookup_ok l L q Hr).
  by rewrite (proj2 (find_slave_None q L) Hq).
Qed.

Definition configured_sys (s : lacp_settings) (l : lacp) : lacp :=
  with_config (new_name (l_name l) (ls_name s)) (ls_active s) (ls_fast s)
    (if negb (eth_addr_equals (l_sys_id l) (ls_id s)) || negb (l_sys_priority l =? ls_priority s)
     then with_system (ls_id s) (ls_priority s) l else l).

Lemma lacp_configure_ok s l :
  eth_addr_is_zero (ls_id s) = false -> lacp_configure s l = Ret (tt, configured_sys s l).
Proof.
  intros Hz. unfold lacp_configure, configured_sys. rewrite Hz. run_get l.
  destruct (negb (eth_addr_equals (l_sys_id l) (ls_id s)) || negb (l_sys_priority l =? ls_priority s)); by destruct l.
Qed.

Lemma query_ok {B} (g : slave -> B) l L p s :
  sm_rep (l_slaves l) L -> (p, s) ∈ L ->
  (slave ← slave_lookup (s_aux s); p ← deref slave; s ← load p; mret (g s)) l = Ret (g s, l).
Proof.
  intros Hr Hin. run_step (slave_lookup_found l _ p s Hr Hin). run_step (deref_some p l).
  by run_step (load_ok l _ _ _ Hr Hin).
Qed.

(** The times that lacp_wait asks to be woken at. *)
Definition wait_times (l : lacp) (s : slave) : list Z :=
  (if may_tx l s then timer_wait (s_tx s) else [])
  ++ (if bool_decide (s_status s = LACP_DEFAULTED) then [] else timer_wait (s_rx s)).

Lemma lacp_wait_ok l L :
  sm_rep (l_slaves l) L -> lacp_wait l = Ret (concat ((fun x => wait_times l x.2) <$> L), l).
Proof.
  intros Hr. unfold lacp_wait. rewrite (for_each_slave_ok _ _ _ _ Hr).
  assert (forall L2 b, (forall x, x ∈ L2 -> x ∈ L) ->
    each wait_one L2.*1 b l = Ret (b ++ concat ((fun x => wait_times l x.2) <$> L2), l)) as Hgen.
  { induction L2 as [|[p s] L2 IH]; intros b Hsub; cbn [fmap list_fmap each concat].
    { by rewrite app_nil_r. }
    assert (wait_one p b l = Ret (b ++ wait_times l s, l)) as E.
    { unfold wait_one. run_step (load_ok l _ _ _ Hr (Hsub _ ltac:(left))).
      run_step (slave_may_tx_ok l s). unfold wait_times, mret, cstate_ret.
      destruct (may_tx l s), (bool_decide (s_status s = LACP_DEFAULTED)); cbn [app]; by rewrite ?app_nil_r, ?app_assoc. }
    cbn [fst snd]. run_step E. rewrite IH by (intros x Hx; apply Hsub; by right). by rewrite <- app_assoc. }
  rewrite Hgen by done. done.
Qed.

(** lacp_destroy takes every slave out of the map and frees it. *)
Lemma destroy_slaves_ok L : forall c l fuel,
  sm_rep (l_slaves l) L -> draining (sm_table (l_slaves l)) c -> (length L <= fuel)%nat ->
  exists l', destroy_slaves fuel c l = Ret (tt, l') /\ sm_rep (l_slaves l') [].
Proof.
  induction L as [|y L IH]; intros c l fuel Hr Hd Hf.
  { exists l. split; [|done]. destruct c as [|x c]; [by destruct fuel|].
    by destruct (sm_drain _ _ _ _ Hr Hd) as (? & ? & ? & ? & ? & ? & _). }
  destruct c as [|x next].
  { pose proof (draining_end _ Hd) as E. by rewrite (sr_nodes _ _ Hr) in E. }
  destruct fuel as [|fuel]; [cbn in Hf; lia|].
  destruct (sm_drain _ _ _ _ Hr Hd) as (p & s & L' & t & c & [= -> <-] & -> & En & Er & Hd' & Ef & Eh & Hr').
  cbn [destroy_slaves]. run_get l.
  assert (lift (hmap_next (sm_table (l_slaves l)) (node_of (p, s)) next) l = Ret (c, l)) as E1
    by (unfold lift; by rewrite En).
  run_step E1.
  set (m1 := MkSm (sm_heap (l_slaves l)) (sm_next (l_slaves l)) t) in *.
  set (m2 := MkSm (delete p (sm_heap (l_slaves l))) (sm_next (l_slaves l)) t) in *.
  assert (exists kp, slave_destroy p l = Ret (tt, with_slaves m2 (with_key_slave kp (with_update true l)))) as (kp & E2).
  { unfold slave_destroy. unfold mbind, cstate_bind. unfold modify at 1. unfold on_slaves at 1.
    cbn [l_slaves with_update]. rewrite Er. unfold get. cbn [l_key_slave with_slaves with_update l_slaves].
    case_bool_decide.
    - unfold lift. rewrite Eh. unfold modify at 1. unfold on_slaves. cbn [l_slaves with_key_slave with_slaves].
      rewrite Ef. by eexists.
    - unfold mret, cstate_ret, on_slaves. cbn [l_slaves with_slaves]. rewrite Ef.
      exists (l_key_slave l). by destruct l. }
  change (node_ptr (node_of (p, s))) with p. run_step E2.
  apply (IH c (with_slaves m2 (with_key_slave kp (with_update true l))) fuel); [exact Hr'|exact Hd'|cbn in Hf; lia].
Qed.

Lemma lacp_destroy_ok l L :
  lacp_rep l L -> few L -> exists l', lacp_destroy l = Ret (tt, l') /\ sm_heap (l_slaves l') = ∅.
Proof.
  intros [Hr _] Hf. unfold lacp_destroy. run_get l. pose proof (sm_count _ _ Hr) as Hc. unfold hmap_count in Hc.
  destruct (draining_first (sm_table (l_slaves l)) _ (sm_hmap_rep _ _ Hr)) as (c & E & Hd); [unfold few in Hf; lia|].
  assert (lift (hmap_first (sm_table (l_slaves l))) l = Ret (c, l)) as E1 by (unfold lift; by rewrite E).
  run_step E1.
  destruct (destroy_slaves_ok L c l (length (nodes (sm_table (l_slaves l)))) Hr Hd) as (l' & E' & Hr').
  { by rewrite (sr_nodes _ _ Hr), length_fmap. }
  exists l'. split; [done|]. apply map_eq. intros p. rewrite lookup_empty.
  destruct (sm_heap (l_slaves l') !! p) as [s|] eqn:Es; [|done].
  by apply (sr_heap _ _ Hr'), not_elem_of_nil in Es.
Qed.
