(* ===== verification/LacpProps.v ===== *)
(** * Link aggregation control: properties (lib/lacp.c)

    What LACP guarantees: no sequence of calls breaks it and the links in use all lead to one
    partner; which links these are; what the loss of the partner's messages does and when; the
    encoding of the messages; two switches agree on the priority of their links, and their
    negotiation ends with every link usable at both ends. *)
From stdpp Require Import strings gmap.
From S2P Require Import Prelude Hash Hmap Flow SlaveMap Lacp LacpRep.

Local Open Scope Z_scope.

#[local] Opaque hash_pointer.

(** ** The order of memcmp *)

Lemma memcmp_anti a : forall b, memcmp b a = - memcmp a b.
Proof.
  induction a as [|x a IH]; intros [|y b]; cbn [memcmp]; try done.
  destruct (Z.ltb_spec x y), (Z.ltb_spec y x); try lia. apply IH.
Qed.

Lemma memcmp_trans a : forall b c, length a = length b -> length b = length c ->
  memcmp a b <= 0 -> memcmp b c <= 0 -> memcmp a c <= 0.
Proof.
  induction a as [|x a IH]; intros [|y b] [|z c]; cbn [memcmp length]; try done.
  intros [= H1] [= H2]. destruct (Z.ltb_spec x y), (Z.ltb_spec y z), (Z.ltb_spec x z), (Z.ltb_spec y x),
    (Z.ltb_spec z y), (Z.ltb_spec z x); try lia. by apply IH.
Qed.

(** ** The links in use lead to one partner *)

Record consistent (l : lacp) (L : slaves) : Prop := {
  co_one : forall x y, x ∈ L -> y ∈ L -> s_attached x.2 = true -> s_attached y.2 = true ->
    key (s_partner x.2) = key (s_partner y.2) /\ sys_id (s_partner x.2) = sys_id (s_partner y.2);
  co_other : forall x, x ∈ L -> s_attached x.2 = true ->
    sys_id (s_partner x.2) <> l_sys_id l /\ s_status x.2 <> LACP_DEFAULTED;
  co_negotiated : l_negotiated l = true <-> exists x, x ∈ L /\ s_attached x.2 = true
}.

(** The change of a slave keeps what [consistent] speaks of. *)
Definition similar (s t : slave) : Prop :=
  s_attached t = s_attached s /\ key (s_partner t) = key (s_partner s)
  /\ sys_id (s_partner t) = sys_id (s_partner s) /\ (s_status t = LACP_DEFAULTED -> s_status s = LACP_DEFAULTED).

Lemma similar_refl s : similar s s. Proof. by repeat split. Qed.

Lemma consistent_similar l l' L L' :
  consistent l L -> Forall2 (fun x y => similar x.2 y.2) L L' ->
  l_sys_id l' = l_sys_id l -> l_negotiated l' = l_negotiated l -> consistent l' L'.
Proof.
  intros [H1 H2 H3] HF Es En.
  assert (forall y, y ∈ L' -> exists x, x ∈ L /\ similar x.2 y.2) as Hb.
  { intros y Hy. apply list_elem_of_lookup in Hy as [i Hi].
    destruct (Forall2_lookup_r _ _ _ _ _ HF Hi) as (x & Hx & Hs). exists x. split; [by eapply list_elem_of_lookup_2|done]. }
  assert (forall x, x ∈ L -> exists y, y ∈ L' /\ similar x.2 y.2) as Hf.
  { intros x Hx. apply list_elem_of_lookup in Hx as [i Hi].
    destruct (Forall2_lookup_l _ _ _ _ _ HF Hi) as (y & Hy & Hs). exists y. split; [by eapply list_elem_of_lookup_2|done]. }
  split.
  - intros x y Hx Hy Ax Ay. destruct (Hb x Hx) as (a & Ha & (Ea1 & Ea2 & Ea3 & _)), (Hb y Hy) as (b & Hbb & (Eb1 & Eb2 & Eb3 & _)).
    rewrite Ea1 in Ax. rewrite Eb1 in Ay. destruct (H1 a b Ha Hbb Ax Ay). split; congruence.
  - intros x Hx Ax. destruct (Hb x Hx) as (a & Ha & (Ea1 & Ea2 & Ea3 & Ea4)). rewrite Ea1 in Ax.
    destruct (H2 a Ha Ax) as [Hn Hd]. rewrite Es, Ea3. split; [done|]. intros E. by apply Hd, Ea4.
  - rewrite En, H3. split.
    + intros (x & Hx & Ax). destruct (Hf x Hx) as (y & Hy & (E & _)). exists y. by rewrite E.
    + intros (y & Hy & Ay). destruct (Hb y Hy) as (x & Hx & (E & _)). exists x. by rewrite <- E.
Qed.

Lemma similar_upd (f : slave -> slave) L :
  (forall s, similar s (f s)) -> Forall2 (fun x y : nat * slave => similar x.2 y.2) L (upd f <$> L).
Proof. intros Hf. induction L; constructor; [apply Hf|done]. Qed.

Lemma similar_mid L1 p s t L2 :
  similar s t -> Forall2 (fun x y : nat * slave => similar x.2 y.2) (L1 ++ (p, s) :: L2) (L1 ++ (p, t) :: L2).
Proof.
  intros Hs. assert (forall L : slaves, Forall2 (fun x y => similar x.2 y.2) L L) as Hrefl
    by (intros L; induction L; constructor; [apply similar_refl|done]).
  apply Forall2_app; [apply Hrefl|]. by constructor.
Qed.

Lemma same_partner_refl s : same_partner s s = true.
Proof. unfold same_partner, eth_addr_equals. by rewrite Z.eqb_refl, bool_decide_true. Qed.

Lemma same_partner_true s t : same_partner s t = true <->
  key (s_partner s) = key (s_partner t) /\ sys_id (s_partner s) = sys_id (s_partner t).
Proof. unfold same_partner, eth_addr_equals. by rewrite andb_true_iff, Z.eqb_eq, bool_decide_eq_true. Qed.

Lemma eligible_true l s : eligible l s = true <-> sys_id (s_partner s) <> l_sys_id l /\ s_status s <> LACP_DEFAULTED.
Proof. unfold eligible, eth_addr_equals. rewrite andb_true_iff, !negb_true_iff, !bool_decide_eq_false. done. Qed.

Lemma update_consistent l L : consistent (updated l L) (update_slaves l L).
Proof.
  unfold updated, update_slaves. split.
  - intros [p x] [q y] (s & -> & _)%elem_upd (t & -> & _)%elem_upd. cbn. rewrite !andb_true_iff.
    destruct (lead l L) as [z|]; [|by intros []]. intros [_ Hs] [_ Ht].
    apply same_partner_true in Hs as [? ?], Ht as [? ?]. split; congruence.
  - intros [p x] (s & -> & _)%elem_upd. cbn. rewrite andb_true_iff. intros [He _]. by apply eligible_true.
  - cbn. split.
    + destruct (lead l L) as [[q t]|] eqn:El; [|done]. intros _. destruct (lead_elem _ _ _ El) as [Hin He].
      exists (q, attach l (Some (q, t)) t). split; [apply elem_upd; by exists t|]. cbn in He |- *.
      by rewrite He, same_partner_refl.
    + intros ([p x] & (s & -> & _)%elem_upd & Ha). cbn in Ha. apply andb_true_iff in Ha as [_ Ha].
      by destruct (lead l L).
Qed.

Lemma similar_expired now s : similar s (expired now s).
Proof. by repeat split. Qed.

Lemma similar_tx now l L s : similar s (tx_step now l L s).
Proof. unfold tx_step. destruct (sends now l L s); by repeat split. Qed.

(** The members are up to date, or the next lacp_run will bring them up to date. *)
Definition up_to_date (l : lacp) (L : slaves) : Prop := l_update l = true \/ consistent l L.

Lemma consistent_fields l l' L :
  l_sys_id l' = l_sys_id l -> l_negotiated l' = l_negotiated l -> consistent l L -> consistent l' L.
Proof. intros E1 E2 [H1 H2 H3]. split; [done|by rewrite E1|by rewrite E2]. Qed.

Lemma run_consistent now l L :
  up_to_date l L -> consistent (run_attach now l L).1 (run_slaves now l L).
Proof.
  intros Hu. unfold run_slaves.
  assert (consistent (run_attach now l L).1 (run_attach now l L).2) as Hc.
  { unfold run_attach. destruct (l_update (run_expire now l L)) eqn:E; [apply update_consistent|].
    unfold run_expire in E. cbn in E. apply orb_false_iff in E as [E1 E2]. destruct Hu as [Hu|Hu]; [congruence|].
    eapply consistent_similar; [exact Hu| |done|done]. clear Hu.
    induction L as [|[p s] L IH]; constructor; cbn in E2; apply orb_false_iff in E2 as [E2 E3]; [|by apply IH].
    unfold expire_step, times_out in *. cbn. destruct (s_rx s <=? now); [|apply similar_refl].
    cbn [andb] in E2. apply bool_decide_eq_false in E2.
    destruct (s_status s); [apply similar_expired|done|apply similar_refl]. }
  eapply consistent_similar; [exact Hc| |done|done]. apply similar_upd. intros s. apply similar_tx.
Qed.

(** Sequences of calls: the slaves registered must be known to the caller, as the pointer it
    passes is used without a test. *)
Inductive lacp_call :=
  | CConfigure (s : lacp_settings)
  | CRegister (q : Z) (ss : lacp_slave_settings) (now : Z)
  | CUnregister (q : Z)
  | CPacket (q : Z) (pkt : ofpbuf) (now : Z)
  | CCarrier (q now : Z)
  | CRun (now : Z)
  | CWait
  | CMayEnable (q : Z)
  | CPortId (q : Z)
  | CIsCurrent (q : Z).

Definition forget {B} (m : lm B) : lm unit := _ ← m; mret tt.

Definition run_lacp_call (c : lacp_call) : lm unit :=
  match c with
  | CConfigure s => lacp_configure s
  | CRegister q ss now => lacp_slave_register q ss now
  | CUnregister q => lacp_slave_unregister q
  | CPacket q pkt now => lacp_process_packet q pkt now
  | CCarrier q now => lacp_slave_carrier_changed q now
  | CRun now => forget (lacp_run now)
  | CWait => forget lacp_wait
  | CMayEnable q => forget (lacp_slave_may_enable q)
  | CPortId q => forget (lacp_slave_get_port_id q)
  | CIsCurrent q => forget (lacp_slave_is_current q)
  end.

Fixpoint run_lacp_calls (cs : list lacp_call) : lm unit :=
  match cs with [] => mret tt | c :: cs' => _ ← run_lacp_call c; run_lacp_calls cs' end.

Definition call_valid (K : gset Z) (c : lacp_call) : Prop :=
  match c with
  | CConfigure s => eth_addr_is_zero (ls_id s) = false
  | CPacket q _ _ | CCarrier q _ | CMayEnable q | CPortId q | CIsCurrent q => q ∈ K
  | _ => True
  end.

Definition known (K : gset Z) (c : lacp_call) : gset Z :=
  match c with CRegister q _ _ => {[q]} ∪ K | CUnregister q => K ∖ {[q]} | _ => K end.

Fixpoint calls_valid (K : gset Z) (cs : list lacp_call) : Prop :=
  match cs with [] => True | c :: cs' => call_valid K c /\ calls_valid (known K c) cs' end.

(** The state after some calls: the slaves are those registered. *)
Record lacp_inv (n : Z) (K : gset Z) (l : lacp) (L : slaves) : Prop := {
  li_rep : lacp_rep l L;
  li_known : forall q, q ∈ K <-> q ∈ aux_of <$> L;
  li_few : Z.of_nat (length L) <= n;
  li_fresh : up_to_date l L
}.

Lemma known_slave n K l L q : lacp_inv n K l L -> q ∈ K -> exists p s, (p, s) ∈ L /\ s_aux s = q.
Proof.
  intros [_ Hk _ _] Hq. apply Hk, list_elem_of_fmap in Hq as ([p s] & -> & Hin). by exists p, s.
Qed.

Lemma mid_aux (L1 L2 : slaves) p s t : s_aux t = s_aux s -> aux_of <$> L1 ++ (p, t) :: L2 = aux_of <$> L1 ++ (p, s) :: L2.
Proof. intros E. rewrite !fmap_app, !fmap_cons. by unfold aux_of at 2 5; cbn; rewrite E. Qed.

(** A call that changes one slave, and nothing else but the mark that an update is due. *)
Lemma inv_mid n K l L1 p s t L2 sm u :
  lacp_inv n K l (L1 ++ (p, s) :: L2) -> s_aux t = s_aux s -> sm_rep sm (L1 ++ (p, t) :: L2) ->
  u = true \/ u = l_update l /\ similar s t ->
  lacp_inv n K (with_slaves sm (with_update u l)) (L1 ++ (p, t) :: L2).
Proof.
  intros [[Hr Hkey] Hk Hf Hu] Ea Hs Hsim. split.
  - split; [done|]. eapply key_ok_fst; [|exact Hkey]. by rewrite !fmap_app.
  - intros q. by rewrite (mid_aux _ _ _ s t Ea).
  - rewrite length_app in *. done.
  - destruct Hsim as [->|[-> Hsim]]; [by left|]. destruct Hu as [Hu|Hu]; [by left|]. right.
    eapply consistent_similar; [exact Hu|by apply similar_mid|done|done].
Qed.

Lemma inv_weaken n n' K l L : lacp_inv n K l L -> n <= n' -> lacp_inv n' K l L.
Proof. intros [H1 H2 H3 H4] Hn. split; [done|done|lia|done]. Qed.

Lemma run_ptrs now l L : (run_slaves now l L).*1 = L.*1.
Proof.
  unfold run_slaves, run_attach. rewrite upd_ptrs.
  destruct (l_update (run_expire now l L)); cbn [snd]; unfold update_slaves; by rewrite !upd_ptrs.
Qed.

Lemma upd_aux (f : slave -> slave) (L : slaves) : (forall s, s_aux (f s) = s_aux s) -> aux_of <$> (upd f <$> L) = aux_of <$> L.
Proof. intros Hf. rewrite <- list_fmap_compose. apply list_fmap_ext. intros i [p s] _. apply Hf. Qed.

Lemma expire_step_aux now s : s_aux (expire_step now s) = s_aux s.
Proof. unfold expire_step. destruct (s_rx s <=? now); [|done]. by destruct (s_status s). Qed.

Lemma run_aux now l L : aux_of <$> run_slaves now l L = aux_of <$> L.
Proof.
  unfold run_slaves, run_attach. rewrite upd_aux by (intros s; pose proof (tx_step_port now (run_attach now l L).1 (run_attach now l L).2 s) as E; by injection E).
  destruct (l_update (run_expire now l L)); cbn [snd]; unfold update_slaves; rewrite ?upd_aux; try done; apply expire_step_aux.
Qed.

Lemma configured_aux now l ss s : s_aux (configured now l ss s) = s_aux s.
Proof. unfold configured. destruct (ports_differ ss _); [|done]. by destruct (l_active l || l_negotiated l). Qed.

Lemma run_conf_update now l L : l_update (run_attach now l L).1 = false.
Proof. unfold run_attach. by destruct (l_update (run_expire now l L)) eqn:E. Qed.

Lemma conf_fields l l' : conf l = conf l' ->
  l_sys_id l = l_sys_id l' /\ l_negotiated l = l_negotiated l' /\ l_update l = l_update l'.
Proof. destruct l, l'. cbn. by intros [=]; simplify_eq. Qed.

Lemma forget_ok {B} (m : lm B) l b l' : m l = Ret (b, l') -> forget m l = Ret (tt, l').
Proof. intros E. unfold forget. by rewrite (cstate_bind_step _ _ _ _ _ E). Qed.

Lemma inv_query {B} (g : slave -> B) (m : Z -> lm B) n K l L q :
  (forall q, m q = (slave ← slave_lookup q; p ← deref slave; s ← load p; mret (g s))) ->
  lacp_inv n K l L -> q ∈ K -> forget (m q) l = Ret (tt, l).
Proof.
  intros Em Hi Hq. destruct (known_slave _ _ _ _ _ Hi Hq) as (p & s & Hin & <-).
  apply (forget_ok _ _ (g s)). rewrite Em. eapply query_ok; [apply Hi|done].
Qed.

Lemma call_ok n c K l L :
  lacp_inv n K l L -> call_valid K c -> n < 2 ^ 60 ->
  exists l' L', run_lacp_call c l = Ret (tt, l') /\ lacp_inv (n + 1) (known K c) l' L'.
Proof.
  intros Hi Hv Hn. assert (few L) as Hfew by (pose proof (li_few _ _ _ _ Hi); unfold few; lia).
  assert (exists l' L', Ret (tt, l) = Ret (tt, l') /\ lacp_inv (n + 1) K l' L') as Hsame
    by (exists l, L; split; [done|by apply (inv_weaken n); [|lia]]).
  destruct c as [s|q ss now|q|q pkt now|q now|now| |q|q|q]; cbn [run_lacp_call known call_valid] in *.
  - rewrite (lacp_configure_ok _ _ Hv). do 2 eexists. split; [done|]. destruct Hi as [[Hr Hk] H2 H3 H4].
    unfold configured_sys.
    destruct (negb (eth_addr_equals (l_sys_id l) (ls_id s)) || negb (l_sys_priority l =? ls_priority s)).
    + split; [by split|done|lia|by left].
    + split; [by split|done|lia|]. destruct H4 as [H4|H4]; [by left|right]. by eapply consistent_fields; [| |exact H4].
  - destruct (decide (q ∈ aux_of <$> L)) as [Hq|Hq].
    + apply list_elem_of_fmap in Hq as ([p s] & -> & Hin). apply list_elem_of_split in Hin as (L1 & L2 & ->).
      destruct (lacp_register_old_ok now ss l L1 L2 p s (lr_slaves _ _ (li_rep _ _ _ _ Hi))) as (sm & E & Hs).
      unfold aux_of. cbn [snd aux slave_slave]. rewrite E. do 2 eexists. split; [done|].
      apply (inv_weaken n); [|lia]. assert ({[s_aux s]} ∪ K = K) as ->.
      { assert (s_aux s ∈ K); [|set_solver]. apply (li_known _ _ _ _ Hi), list_elem_of_fmap. exists (p, s).
        split; [done|]. apply elem_of_app. right. by left. }
      eapply inv_mid; [exact Hi| |exact Hs|].
      * apply configured_aux.
      * unfold configured. destruct (ports_differ ss s) eqn:Ed; [left; by rewrite orb_true_r|].
        change (ports_differ ss (set_name (new_name (s_name s) (ss_name ss)) s)) with (ports_differ ss s).
        rewrite Ed. right. rewrite orb_false_r. by repeat split.
    + destruct (lacp_register_new_ok now ss l L q (li_rep _ _ _ _ Hi) Hq Hfew) as (p & l' & L' & -> & Hr & EL & Ec).
      exists l', L'. split; [done|]. pose proof (conf_fields _ _ Ec) as (_ & _ & Eu). split; [done| | |by left].
      * intros r. rewrite elem_of_union, elem_of_singleton, (li_known _ _ _ _ Hi), EL, fmap_cons, elem_of_cons.
        assert (aux_of (p, configured now l ss (defaulted (fresh_slave q))) = q) as ->; [|done].
        exact (configured_aux now l ss (defaulted (fresh_slave q))).
      * rewrite EL. pose proof (li_few _ _ _ _ Hi). cbn [length]. lia.
  - destruct (decide (q ∈ aux_of <$> L)) as [Hq|Hq].
    + apply list_elem_of_fmap in Hq as ([p s] & -> & Hin).
      destruct (lacp_unregister_ok l L p s (li_rep _ _ _ _ Hi) Hin Hfew) as (l' & L' & E & Hr & EL & Ec).
      unfold aux_of. cbn [snd aux slave_slave]. rewrite E. exists l', L'. split; [done|].
      pose proof (conf_fields _ _ Ec) as (_ & _ & Eu). split; [done| | |by left].
      * pose proof (sr_aux _ _ (lr_slaves _ _ (li_rep _ _ _ _ Hi))) as Hd. rewrite EL in Hd. cbn in Hd.
        apply NoDup_cons in Hd as [Hd _]. unfold aux_of at 1 in Hd. cbn in Hd.
        intros r. rewrite elem_of_difference, elem_of_singleton, (li_known _ _ _ _ Hi), EL, fmap_cons, elem_of_cons.
        unfold aux_of at 1. cbn. split; [tauto|]. intros Hr'. split; [by right|]. by intros ->.
      * pose proof (li_few _ _ _ _ Hi) as Hf. rewrite EL in Hf. cbn [length] in Hf. lia.
    + rewrite (lacp_unregister_absent l L q (lr_slaves _ _ (li_rep _ _ _ _ Hi)) Hq).
      assert (K ∖ {[q]} = K) as ->; [|done]. assert (q ∉ K); [by rewrite (li_known _ _ _ _ Hi)|set_solver].
  - destruct (known_slave _ _ _ _ _ Hi Hv) as (p & s & Hin & <-).
    destruct (parse_lacp_packet pkt) as [pdu|] eqn:Ep.
    + apply list_elem_of_split in Hin as (L1 & L2 & ->).
      destruct (lacp_process_packet_ok now pkt pdu l L1 L2 p s (lr_slaves _ _ (li_rep _ _ _ _ Hi)) Ep) as (sm & -> & Hs).
      do 2 eexists. split; [done|]. apply (inv_weaken n); [|lia]. eapply inv_mid; [exact Hi| |exact Hs|].
      * unfold receive. by destruct (news pdu _).
      * destruct (news pdu s) eqn:En; [left; by rewrite orb_true_r|]. right. rewrite orb_false_r. split; [done|].
        unfold receive. change (news pdu (set_ntt (partner pdu) (set_rx (now + 3 * (if l_fast l then 1000 else 30000)) (set_status LACP_CURRENT s)))) with (news pdu s).
        rewrite En. by repeat split.
    + by rewrite (lacp_process_bad now pkt l L (s_aux s) (lr_slaves _ _ (li_rep _ _ _ _ Hi)) Ep).
  - destruct (known_slave _ _ _ _ _ Hi Hv) as (p & s & Hin & <-). apply list_elem_of_split in Hin as (L1 & L2 & ->).
    destruct (lacp_carrier_ok now l L1 L2 p s (lr_slaves _ _ (li_rep _ _ _ _ Hi))) as (sm & -> & Hs).
    assert (with_slaves sm l = with_slaves sm (with_update (l_update l) l)) as -> by by destruct l.
    do 2 eexists. split; [done|]. apply (inv_weaken n); [|lia]. eapply inv_mid; [exact Hi| |exact Hs|].
    + by destruct (bool_decide (s_status s = LACP_CURRENT) || l_active l).
    + right. split; [done|]. destruct (bool_decide (s_status s = LACP_CURRENT) || l_active l); [apply similar_expired|apply similar_refl].
  - destruct (lacp_run_ok now l L (li_rep _ _ _ _ Hi)) as (l' & E & Hr & Ec).
    rewrite (forget_ok _ _ _ _ E). do 2 eexists. split; [done|]. destruct (conf_fields _ _ Ec) as (Es & En & _).
    split; [exact Hr| | |].
    + intros q. rewrite run_aux. apply Hi.
    + pose proof (f_equal length (run_ptrs now l L)) as El. rewrite !length_fmap in El. rewrite El.
      pose proof (li_few _ _ _ _ Hi). lia.
    + right. eapply consistent_fields; [exact Es|exact En|]. apply run_consistent, Hi.
  - by rewrite (forget_ok _ _ _ _ (lacp_wait_ok l L (lr_slaves _ _ (li_rep _ _ _ _ Hi)))).
  - by rewrite (inv_query slave_may_enable__ lacp_slave_may_enable n K l L q).
  - by rewrite (inv_query s_port_id lacp_slave_get_port_id n K l L q).
  - by rewrite (inv_query (fun s => negb (bool_decide (s_status s = LACP_DEFAULTED))) lacp_slave_is_current n K l L q).
Qed.

Lemma calls_ok cs : forall n K l L,
  lacp_inv n K l L -> calls_valid K cs -> n + Z.of_nat (length cs) < 2 ^ 60 ->
  exists l' L' K', run_lacp_calls cs l = Ret (tt, l') /\ lacp_inv (n + Z.of_nat (length cs)) K' l' L'.
Proof.
  induction cs as [|c cs IH]; intros n K l L Hi Hv Hn.
  { exists l, L, K. split; [done|]. eapply inv_weaken; [done|]. cbn. lia. }
  destruct Hv as [Hc Hv]. cbn [length] in Hn |- *.
  destruct (call_ok n c K l L Hi Hc ltac:(lia)) as (l1 & L1 & E & Hi1).
  destruct (IH (n + 1) _ l1 L1 Hi1 Hv ltac:(lia)) as (l2 & L2 & K2 & E2 & Hi2).
  exists l2, L2, K2. cbn [run_lacp_calls]. rewrite (cstate_bind_step _ _ _ _ _ E). split; [done|].
  eapply inv_weaken; [exact Hi2|lia].
Qed.

Lemma create_inv : lacp_inv 0 ∅ lacp_create [].
Proof.
  split; [split; [apply sm_empty_rep|done]|set_solver|done|]. right. split.
  - intros x y Hx. by apply not_elem_of_nil in Hx.
  - intros x Hx. by apply not_elem_of_nil in Hx.
  - split; [done|]. intros (x & Hx & _). by apply not_elem_of_nil in Hx.
Qed.

(** C11: no use of LACP breaks it, and the links it puts into use lead to one partner.  From
    lacp_create, any sequence of calls (settings with an address that is not zero, packets of
    any content, queries about registered slaves) returns.  When lacp_run has returned after
    that, all attached slaves agree on the address and the key of their partner, none of them
    leads back to this switch or has lost its partner, and [negotiated] says exactly whether
    there is one. *)
Theorem lacp_one_partner cs now :
  calls_valid ∅ cs -> Z.of_nat (length cs) < 2 ^ 60 ->
  exists l sent l' L',
    run_lacp_calls cs lacp_create = Ret (tt, l) /\ lacp_run now l = Ret (sent, l')
    /\ lacp_rep l' L' /\ consistent l' L'.
Proof.
  intros Hv Hn. destruct (calls_ok cs 0 ∅ lacp_create [] create_inv Hv ltac:(lia)) as (l & L & K & E & Hi).
  destruct (lacp_run_ok now l L (li_rep _ _ _ _ Hi)) as (l' & E' & Hr & Ec).
  exists l, (run_sent now l L), l', (run_slaves now l L). split_and!; [done..|].
  destruct (conf_fields _ _ Ec) as (Es & En & _). eapply consistent_fields; [exact Es|exact En|].
  apply run_consistent, Hi.
Qed.

(** ** Which links are in use *)

(** Addresses have six bytes. *)
Definition sized (l : lacp) (L : slaves) : Prop :=
  length (l_sys_id l) = 6%nat /\ forall x, x ∈ L -> length (sys_id (s_partner x.2)) = 6%nat.

Definition priority_le (l : lacp) (s t : slave) : Prop :=
  memcmp (info_bytes (link_priority l s)) (info_bytes (link_priority l t)) <= 0.

Lemma length_priority l L x : sized l L -> x ∈ L -> length (info_bytes (link_priority l x.2)) = 15%nat.
Proof.
  intros [H1 H2] Hx. unfold info_bytes, link_priority.
  destruct (own_side l x.2); cbn [sys_priority sys_id key port_priority port_id state];
    by rewrite !length_app, !length_be_bytes, ?H1, ?(H2 x Hx).
Qed.

Lemma better_false l s t : better l s t = false <-> priority_le l t s.
Proof.
  unfold better, priority_le. rewrite (memcmp_anti (info_bytes (link_priority l s))), Z.ltb_ge. lia.
Qed.

Lemma lead_in_list l (L : slaves) x (L2 : slaves) acc :
  (forall z, acc = Some z -> z ∈ L) -> (forall z, z ∈ L2 -> z ∈ L) -> foldl (lead_step l) acc L2 = Some x -> x ∈ L.
Proof. intros Hacc Hsub E. destruct (foldl_lead_elem l L2 acc x E) as [E'|[Hx _]]; auto. Qed.

Lemma lead_best l L x y :
  sized l L -> lead l L = Some x -> y ∈ L -> eligible l y.2 = true -> priority_le l x.2 y.2.
Proof.
  intros Hs. assert (forall L2 acc, (forall z, z ∈ L2 -> z ∈ L) -> (forall z, acc = Some z -> z ∈ L) ->
    foldl (lead_step l) acc L2 = Some x ->
    (forall z, acc = Some z -> priority_le l x.2 z.2)
    /\ forall z, z ∈ L2 -> eligible l z.2 = true -> priority_le l x.2 z.2) as Hgen.
  { induction L2 as [|w L2 IH]; intros acc Hsub Hacc E; cbn [foldl] in E.
    { subst acc. split; [|by intros z ?%not_elem_of_nil]. intros z [= <-]. unfold priority_le. by rewrite memcmp_refl. }
    assert (forall z, lead_step l acc w = Some z -> z ∈ L) as Hacc'.
    { unfold lead_step. destruct (eligible l w.2); [|done]. assert (w ∈ L) by (apply Hsub; left).
      destruct acc as [a|]; [destruct (better l w.2 a.2)|]; intros z [= <-]; auto. }
    destruct (IH _ ltac:(intros z Hz; apply Hsub; by right) Hacc' E) as [H1 H2].
    unfold lead_step in H1. destruct (eligible l w.2) eqn:Ew.
    - destruct acc as [a|].
      + assert (w ∈ L /\ a ∈ L) as [Hw Ha] by (split; [apply Hsub; left|by apply Hacc]).
        destruct (better l w.2 a.2) eqn:Eb.
        * split; [|intros z [->|Hz]%elem_of_cons He; auto]. intros z [= <-]. specialize (H1 w eq_refl).
          unfold better in Eb. apply Z.ltb_lt in Eb.
          pose proof (lead_in_list l L x L2 _ Hacc' ltac:(intros z Hz; apply Hsub; by right) E) as Hx.
          eapply memcmp_trans; [| |exact H1|lia]; by rewrite !(length_priority l L).
        * apply better_false in Eb. split; [intros z [= <-]; auto|].
          intros z [->|Hz]%elem_of_cons He; [|auto]. specialize (H1 a eq_refl).
          pose proof (lead_in_list l L x L2 _ Hacc' ltac:(intros z Hz; apply Hsub; by right) E) as Hx.
          eapply memcmp_trans; [| |exact H1|exact Eb]; by rewrite !(length_priority l L).
      + split; [done|]. intros z [->|Hz]%elem_of_cons He; auto.
    - split; [exact H1|]. intros z [->|Hz]%elem_of_cons He; [congruence|auto]. }
  intros E Hy He. apply (Hgen L None); [done|done|exact E|done|done].
Qed.

(** C31: lacp_update_attached chooses the links that the standard asks for.  If no slave is
    eligible (it knows a partner, or waits for one, and does not lead back to this switch) none is
    attached and the negotiation counts as failed.  Otherwise there is a lead, eligible and of
    the best link priority of all eligible slaves, and exactly the eligible slaves with the
    lead's partner are attached. *)
Theorem update_attached_exact l L :
  lacp_rep l L -> sized l L ->
  exists l' L', lacp_update_attached l = Ret (tt, l') /\ lacp_rep l' L' /\ l_update l' = false
    /\ ((forall x, x ∈ L -> eligible l x.2 = false) /\ l_negotiated l' = false
          /\ L' = upd (set_attached false) <$> L
        \/ exists q t, (q, t) ∈ L /\ eligible l t = true
          /\ (forall x, x ∈ L -> eligible l x.2 = true -> priority_le l t x.2)
          /\ l_negotiated l' = true
          /\ L' = upd (fun s => set_attached (eligible l s && same_partner t s) s) <$> L).
Proof.
  intros Hr Hs. destruct (lacp_update_attached_ok l L Hr) as (sm & E & Hsm). do 2 eexists. split; [exact E|].
  split; [split; [exact Hsm|by apply key_ok_upd, Hr]|]. split; [done|]. unfold updated, update_slaves.
  destruct (lead l L) as [[q t]|] eqn:El.
  - right. destruct (lead_elem _ _ _ El) as [Hin He]. exists q, t. split_and!; [done..| |done|done].
    intros x Hx Hex. by apply (lead_best l L (q, t) x).
  - left. pose proof (proj1 (lead_None l L) El) as Hn. split_and!; [done|done|].
    apply list_fmap_ext. intros i x _. unfold upd, attach. by rewrite andb_false_r.
Qed.

(** ** Loss of the partner *)

(** The status of a slave that hears nothing, and when it changes next, over calls of lacp_run
    at the times [ts]. *)
Definition silent (x : slave_status * Z) (t : Z) : slave_status * Z :=
  if x.2 <=? t then
    match x.1 with
    | LACP_CURRENT => (LACP_EXPIRED, t + 3000)
    | LACP_EXPIRED => (LACP_DEFAULTED, x.2)
    | LACP_DEFAULTED => x
    end
  else x.

Fixpoint lacp_runs (ts : list Z) : lm unit :=
  match ts with [] => mret tt | t :: ts' => _ ← lacp_run t; lacp_runs ts' end.

(** A slave whose partner's messages are overdue has no partner in sync. *)
Definition no_sync (s : slave) : Prop :=
  match s_status s with
  | LACP_CURRENT => True
  | LACP_EXPIRED => Z.land (state (s_partner s)) LACP_STATE_SYNC = 0
  | LACP_DEFAULTED => s_partner s = info_zero
  end.

Lemma no_sync_disabled s : no_sync s -> s_status s <> LACP_CURRENT -> slave_may_enable__ s = false.
Proof.
  unfold no_sync, slave_may_enable__. destruct (s_status s); [done|intros -> _|intros -> _]; by rewrite andb_false_r.
Qed.

Lemma expire_step_silent t s :
  no_sync s -> no_sync (expire_step t s)
  /\ (s_status (expire_step t s), s_rx (expire_step t s)) = silent (s_status s, s_rx s) t.
Proof.
  intros Hn. unfold expire_step, silent. cbn [fst snd]. destruct (s_rx s <=? t); [|done].
  destruct (s_status s) eqn:Es; [|done|by rewrite Es]. split; [|done].
  unfold no_sync, expired. cbn. apply Z.bits_inj_0. intros i.
  rewrite Z.land_spec, Z.ldiff_spec. destruct (Z.testbit LACP_STATE_SYNC i); by rewrite ?andb_false_r.
Qed.

Lemma run_slave now l L p s :
  (p, s) ∈ L -> exists s', (p, s') ∈ run_slaves now l L /\ s_status s' = s_status (expire_step now s)
    /\ s_rx s' = s_rx (expire_step now s) /\ s_partner s' = s_partner (expire_step now s).
Proof.
  intros Hin. unfold run_slaves, run_attach.
  assert ((p, expire_step now s) ∈ upd (expire_step now) <$> L) as H1 by (apply elem_upd; by exists s).
  destruct (l_update (run_expire now l L)); cbn [fst snd].
  - match goal with |- context [tx_step now ?a ?b] => set (f := tx_step now a b) end.
    exists (f (attach (run_expire now l L) (lead (run_expire now l L) (upd (expire_step now) <$> L)) (expire_step now s))).
    split; [apply elem_upd; eexists; split; [done|]; apply elem_upd; by eexists|].
    unfold f, tx_step. by destruct (sends _ _ _ _).
  - match goal with |- context [tx_step now ?a ?b] => set (f := tx_step now a b) end.
    exists (f (expire_step now s)). split; [apply elem_upd; by eexists|].
    unfold f, tx_step. by destruct (sends _ _ _ _).
Qed.

Lemma runs_ok ts : forall l L, lacp_rep l L -> exists l' L', lacp_runs ts l = Ret (tt, l') /\ lacp_rep l' L'
  /\ forall p s, (p, s) ∈ L -> no_sync s -> exists s', (p, s') ∈ L' /\ no_sync s'
     /\ (s_status s', s_rx s') = foldl silent (s_status s, s_rx s) ts.
Proof.
  induction ts as [|t ts IH]; intros l L Hr.
  { exists l, L. split_and!; [done..|]. intros p s Hin Hn. by exists s. }
  destruct (lacp_run_ok t l L Hr) as (l1 & E & Hr1 & _).
  destruct (IH l1 _ Hr1) as (l2 & L2 & E2 & Hr2 & H). exists l2, L2. cbn [lacp_runs].
  rewrite (cstate_bind_step _ _ _ _ _ E). split_and!; [done..|]. intros p s Hin Hn. cbn [foldl].
  destruct (run_slave t l L p s Hin) as (s1 & Hin1 & Es1 & Ex1 & Ep1).
  destruct (expire_step_silent t s Hn) as [Hn1 Ei].
  destruct (H p s1 Hin1) as (s2 & Hin2 & Hn2 & E3); [unfold no_sync in *; by rewrite Es1, Ep1|].
  exists s2. split_and!; [done..|]. by rewrite E3, Es1, Ex1, Ei.
Qed.

Lemma silent_defaulted ts : forall x, x.1 = LACP_DEFAULTED -> foldl silent x ts = x.
Proof.
  induction ts as [|t ts IH]; intros [st d] E; cbn in E; subst st; [done|]. cbn [foldl]. unfold silent at 2.
  cbn [fst snd]. destruct (d <=? t); by apply IH.
Qed.

Lemma silent_early ts x : (forall t, t ∈ ts -> t < x.2) -> foldl silent x ts = x.
Proof.
  induction ts as [|t ts IH]; intros Ht; [done|]. cbn [foldl]. unfold silent at 2.
  destruct (Z.leb_spec x.2 t); [specialize (Ht t ltac:(left)); lia|]. apply IH. intros u Hu. apply Ht. by right.
Qed.

Lemma silent_left ts : forall x, x.1 <> LACP_CURRENT -> (foldl silent x ts).1 <> LACP_CURRENT.
Proof.
  induction ts as [|t ts IH]; intros x Hx; [done|]. cbn [foldl]. apply IH. unfold silent.
  destruct (x.2 <=? t); [|done]. by destruct x as [[| |] d].
Qed.

(** A partner that falls silent is dropped in time.  Let a slave with an up-to-date partner
    hear nothing more while lacp_run is called at the times [before], all before its deadline,
    at [t] past the deadline, at the times [between], within three seconds of [t], at [u] after
    these, and at any further times.  Up to [before] its partner is current; from [t] on it is
    expired and must not be used; from [u] on it is in the defaulted state, without a
    partner. *)
Theorem lacp_silence l L p s before t between u later :
  lacp_rep l L -> (p, s) ∈ L -> s_status s = LACP_CURRENT ->
  (forall x, x ∈ before -> x < s_rx s) -> s_rx s <= t ->
  (forall x, x ∈ between -> x < t + 3000) -> t + 3000 <= u ->
  exists l1 L1 s1 l2 L2 s2 l3 L3 s3,
    lacp_runs before l = Ret (tt, l1) /\ lacp_rep l1 L1 /\ (p, s1) ∈ L1 /\ s_status s1 = LACP_CURRENT
    /\ lacp_runs (t :: between) l1 = Ret (tt, l2) /\ lacp_rep l2 L2 /\ (p, s2) ∈ L2
    /\ s_status s2 = LACP_EXPIRED /\ slave_may_enable__ s2 = false
    /\ lacp_runs (u :: later) l2 = Ret (tt, l3) /\ lacp_rep l3 L3 /\ (p, s3) ∈ L3
    /\ s_status s3 = LACP_DEFAULTED /\ s_partner s3 = info_zero /\ slave_may_enable__ s3 = false.
Proof.
  intros Hr Hin Hc Hb Ht Hw Hu.
  assert (no_sync s) as Hn by (unfold no_sync; by rewrite Hc).
  destruct (runs_ok before l L Hr) as (l1 & L1 & E1 & Hr1 & H1). destruct (H1 p s Hin Hn) as (s1 & Hi1 & Hn1 & Es1).
  rewrite silent_early in Es1 by done. injection Es1 as Es1 Ex1. rewrite Hc in Es1.
  destruct (runs_ok (t :: between) l1 L1 Hr1) as (l2 & L2 & E2 & Hr2 & H2). destruct (H2 p s1 Hi1 Hn1) as (s2 & Hi2 & Hn2 & Es2).
  cbn [foldl] in Es2. unfold silent at 2 in Es2. cbn [fst snd] in Es2. rewrite Es1 in Es2.
  destruct (Z.leb_spec (s_rx s1) t); [|lia]. rewrite silent_early in Es2 by done. injection Es2 as Es2 Ex2.
  destruct (runs_ok (u :: later) l2 L2 Hr2) as (l3 & L3 & E3 & Hr3 & H3). destruct (H3 p s2 Hi2 Hn2) as (s3 & Hi3 & Hn3 & Es3).
  cbn [foldl] in Es3. unfold silent at 2 in Es3. cbn [fst snd] in Es3. rewrite Es2 in Es3.
  destruct (Z.leb_spec (s_rx s2) u); [|lia]. rewrite silent_defaulted in Es3 by done. injection Es3 as Es3 _.
  exists l1, L1, s1, l2, L2, s2, l3, L3, s3. split_and!; try done.
  - apply no_sync_disabled; [done|by rewrite Es2].
  - unfold no_sync in Hn3. by rewrite Es3 in Hn3.
  - apply no_sync_disabled; [done|by rewrite Es3].
Qed.

(** ** Messages *)

Definition in16 (z : Z) : Prop := 0 <= z < 65536.

Record info_ok (i : lacp_info) : Prop := {
  io_sys : in16 (sys_priority i); io_id : length (sys_id i) = 6%nat; io_key : in16 (key i);
  io_pp : in16 (port_priority i); io_pid : in16 (port_id i)
}.

Lemma length_info i : length (sys_id i) = 6%nat -> length (info_bytes i) = 15%nat.
Proof. intros E. unfold info_bytes. by rewrite !length_app, !length_be_bytes, E. Qed.

Lemma be16 z : in16 z -> exists x y, be_bytes 2 z = [x; y] /\ be_value [x; y] = z.
Proof. intros Hz. do 2 eexists. split; [done|]. change (be_value (be_bytes 2 z) = z). by apply be_value_bytes_small. Qed.

Lemma read_info_bytes i rest : info_ok i -> read_info (info_bytes i ++ rest) = i.
Proof.
  intros [H1 H2 H3 H4 H5]. destruct i as [a id k pp pid st]. cbn in H1, H2, H3, H4, H5.
  do 6 (destruct id as [|? id]; [done|]). destruct id; [|done].
  unfold read_info, info_bytes. cbn [sys_priority sys_id key port_priority port_id state].
  destruct (be16 a H1) as (? & ? & -> & Ea), (be16 k H3) as (? & ? & -> & Ek), (be16 pp H4) as (? & ? & -> & Epp),
    (be16 pid H5) as (? & ? & -> & Epid). cbn [app take drop nth]. by rewrite Ea, Ek, Epp, Epid.
Qed.

Lemma length_pdu a p : length (sys_id a) = 6%nat -> length (sys_id p) = 6%nat ->
  length (pdu_bytes (compose_lacp_pdu a p)) = 110%nat.
Proof.
  intros Ha Hp. unfold pdu_bytes, compose_lacp_pdu.
  cbn [actor z1 partner_type partner_len partner z2 collector_type collector_len collector_delay z3].
  rewrite !length_app, !length_info by done. done.
Qed.

Lemma read_pdu_bytes a p rest : info_ok a -> info_ok p ->
  read_pdu (pdu_bytes (compose_lacp_pdu a p) ++ rest) = compose_lacp_pdu a p.
Proof.
  intros Ha Hp. unfold pdu_bytes, compose_lacp_pdu.
  cbn [subtype version actor_type actor_len actor z1 partner_type partner_len partner z2 collector_type collector_len
       collector_delay z3].
  pose proof (length_info a (io_id _ Ha)) as La. pose proof (length_info p (io_id _ Hp)) as Lp.
  pose proof (read_info_bytes a [] Ha) as Ra. pose proof (read_info_bytes p [] Hp) as Rp. rewrite app_nil_r in Ra, Rp.
  unfold read_pdu. revert La Lp Ra Rp. generalize (info_bytes a) as ba, (info_bytes p) as bp. intros ba bp La Lp <- <-.
  do 15 (destruct ba as [|? ba]; [done|]). destruct ba; [|done].
  do 15 (destruct bp as [|? bp]; [done|]). destruct bp; [|done]. done.
Qed.

Lemma lacp_pdu_parse a p before after : info_ok a -> info_ok p ->
  parse_lacp_packet (MkBuf (before ++ pdu_bytes (compose_lacp_pdu a p) ++ after) (Z.of_nat (length before)))
  = Some (compose_lacp_pdu a p).
Proof.
  intros Ha Hp. pose proof (length_pdu a p (io_id _ Ha) (io_id _ Hp)) as Hl.
  unfold parse_lacp_packet, ofpbuf_at, LACP_PDU_LEN. cbn [data l3]. rewrite !length_app, Hl.
  destruct (Z.leb_spec (Z.of_nat (length before) + 110) (Z.of_nat (length before + (110 + length after)))); [|lia].
  rewrite Nat2Z.id, drop_app_length. by rewrite read_pdu_bytes.
Qed.

(** C40: a LACP message survives the way over the link.  The message that lacp_run composes from
    the actor's and the partner's information is 110 bytes long, and lacp_process_packet's parser
    finds it, with both, at the third layer of a packet, whatever surrounds it.  On a packet that
    ends before the message does it finds none. *)
Theorem lacp_pdu_roundtrip a p before after :
  info_ok a -> info_ok p ->
  let bs := pdu_bytes (compose_lacp_pdu a p) in
  Z.of_nat (length bs) = LACP_PDU_LEN
  /\ parse_lacp_packet (MkBuf (before ++ bs ++ after) (Z.of_nat (length before))) = Some (compose_lacp_pdu a p)
  /\ forall n, (n < length bs)%nat ->
       parse_lacp_packet (MkBuf (before ++ take n bs) (Z.of_nat (length before))) = None.
Proof.
  intros Ha Hp bs. pose proof (length_pdu a p (io_id _ Ha) (io_id _ Hp)) as Hl. fold bs in Hl.
  split; [by rewrite Hl|]. split; [by apply lacp_pdu_parse|].
  intros n Hn. unfold parse_lacp_packet, ofpbuf_at, LACP_PDU_LEN. cbn [data l3]. rewrite length_app, length_take, Hl.
  destruct (Z.leb_spec (Z.of_nat (length before) + 110) (Z.of_nat (length before + n `min` 110))); [lia|done].
Qed.

(** ** The two ends of a link *)

(** The two ends of a link give it the same priority, so that two switches agree on which
    link is best.  When each end knows what the other says of itself, with any keys and state
    flags, and the switches have different addresses, the priorities that
    slave_get_priority computes at the two ends are equal. *)
Theorem link_priority_agrees A B LA LB s t :
  lacp_rep A LA -> LA <> [] -> lacp_rep B LB -> LB <> [] ->
  length (l_sys_id A) = length (l_sys_id B) -> l_sys_id A <> l_sys_id B ->
  (exists k st, s_partner s = MkInfo (l_sys_priority B) (l_sys_id B) k (s_port_priority t) (s_port_id t) st) ->
  (exists k st, s_partner t = MkInfo (l_sys_priority A) (l_sys_id A) k (s_port_priority s) (s_port_id s) st) ->
  exists i, slave_get_priority s A = Ret (i, A) /\ slave_get_priority t B = Ret (i, B).
Proof.
  intros HA NA HB NB Hl Hne (k & st & Es) (k' & st' & Et).
  exists (link_priority A s). split; [by apply (slave_get_priority_ok A LA)|].
  rewrite (slave_get_priority_ok B LB t HB NB). do 2 f_equal. unfold link_priority, own_side. rewrite Es, Et.
  cbn [sys_priority sys_id port_priority port_id].
  rewrite (memcmp_anti (l_sys_id A) (l_sys_id B)).
  assert (memcmp (l_sys_id A) (l_sys_id B) <> 0) by (intros E; by apply Hne, memcmp_0).
  destruct (Z.ltb_spec (l_sys_priority B) (l_sys_priority A)), (Z.ltb_spec (l_sys_priority A) (l_sys_priority B)); try lia; try done.
  destruct (Z.ltb_spec (memcmp (l_sys_id A) (l_sys_id B)) 0), (Z.ltb_spec (- memcmp (l_sys_id A) (l_sys_id B)) 0); try lia; done.
Qed.

(** ** A new slave *)

Definition wf_partner (s : slave) : Prop := info_ok (s_partner s) /\ bytes (sys_id (s_partner s)).

Lemma wf_zero : info_ok info_zero /\ bytes (sys_id info_zero).
Proof. split; [by split|]. apply Forall_forall. intros x Hx. apply elem_of_replicate in Hx as [-> _]. done. Qed.

Lemma wf_expire_step t s : wf_partner s -> wf_partner (expire_step t s).
Proof.
  intros [[H1 H2 H3 H4 H5] Hb]. unfold expire_step. destruct (s_rx s <=? t); [|by split].
  destruct (s_status s); [by split|apply wf_zero|by split].
Qed.

Lemma memcmp_zeros a : forall n, Forall (fun x => 0 <= x) a -> length a = n ->
  memcmp a (replicate n 0) <= 0 -> a = replicate n 0.
Proof.
  induction a as [|x a IH]; intros n Ha <-; [done|]. cbn [length replicate memcmp].
  apply Forall_cons in Ha as [Hx Ha]. destruct (Z.ltb_spec x 0), (Z.ltb_spec 0 x); try lia.
  intros Hm. assert (x = 0) as -> by lia. f_equal. by apply IH.
Qed.

Lemma bytes_nonneg b : bytes b -> Forall (fun x => 0 <= x) b.
Proof. intros Hb. eapply Forall_impl; [exact Hb|]. intros x [? ?]. done. Qed.

(** A priority that is not worse than that of a link without a partner is one. *)
Lemma priority_zero l s :
  length (l_sys_id l) = 6%nat -> bytes (l_sys_id l) -> wf_partner s -> 0 < l_sys_priority l < 65536 ->
  memcmp (info_bytes (link_priority l s)) (replicate 15 0) <= 0 -> sys_id (s_partner s) = replicate 6 0.
Proof.
  intros Hl Hb [[H1 H2 H3 H4 H5] Hpb] Hp Hm. apply memcmp_zeros in Hm.
  - unfold link_priority in Hm. destruct (own_side l s); unfold info_bytes in Hm; cbn [sys_priority sys_id] in Hm.
    + apply (app_inj_1 (be_bytes 2 (l_sys_priority l)) (replicate 2 0)) in Hm as [Hm _]; [|done].
      pose proof (be_value_bytes_small 2 (l_sys_priority l) ltac:(lia)) as E. rewrite Hm in E. cbn in E. lia.
    + apply (app_inj_1 _ (replicate 2 0)) in Hm as [_ Hm]; [|done].
      by apply (app_inj_1 _ (replicate 6 0)) in Hm as [Hm _].
  - unfold info_bytes, link_priority. destruct (own_side l s); cbn [sys_priority sys_id key port_priority port_id state];
      rewrite !Forall_app; split_and!;
      first [by apply bytes_nonneg|apply bytes_nonneg, be_bytes_bytes|by (constructor; [lia|constructor])].
  - apply length_info. unfold link_priority. by destruct (own_side l s).
Qed.

(** C34: every new slave of an active aggregate stops all traffic over it.  When a slave is
    registered with LACP in active mode, a system priority that is not zero and any slaves,
    then after the next lacp_run within three seconds no slave with a known partner is
    attached, however well their negotiation stood: the new slave, which has heard of no partner
    yet, counts as the link of the best priority and becomes the lead. *)
Theorem new_slave_detaches l L q ss now now' :
  lacp_rep l L -> few L -> q ∉ aux_of <$> L -> l_active l = true ->
  length (l_sys_id l) = 6%nat -> bytes (l_sys_id l) -> eth_addr_is_zero (l_sys_id l) = false ->
  0 < l_sys_priority l < 65536 -> (forall x, x ∈ L -> wf_partner x.2) ->
  ss_id ss <> 0 -> now' < now + 3000 ->
  exists l1 sent l2 L2,
    lacp_slave_register q ss now l = Ret (tt, l1) /\ lacp_run now' l1 = Ret (sent, l2) /\ lacp_rep l2 L2
    /\ forall x, x ∈ L2 -> s_attached x.2 = true -> sys_id (s_partner x.2) = replicate 6 0.
Proof.
  intros Hr Hf Hq Ha Hl Hb Hz Hp Hwf Hid Ht.
  destruct (lacp_register_new_ok now ss l L q Hr Hq Hf) as (p & l1 & L1 & E1 & Hr1 & EL & Ec).
  destruct (lacp_run_ok now' l1 L1 Hr1) as (l2 & E2 & Hr2 & _). do 3 eexists. exists (run_slaves now' l1 L1).
  split_and!; [exact E1|exact E2|exact Hr2|]. clear E1 E2 Hr2.
  assert (l_sys_id l1 = l_sys_id l /\ l_sys_priority l1 = l_sys_priority l /\ l_update l1 = true) as (Ei & Epr & Eu)
    by (destruct l, l1; cbn in Ec |- *; by simplify_eq).
  set (n := configured now l ss (defaulted (fresh_slave q))) in *.
  assert (n = expired now (set_port (ss_id ss) (ss_priority ss) (ss_key ss) (set_name (Some (ss_name ss)) (defaulted (fresh_slave q))))) as En.
  { unfold n, configured, ports_differ. cbn [s_port_id set_name defaulted set_status set_partner fresh_slave s_port_priority s_key].
    destruct (Z.eqb_spec 0 (ss_id ss)); [congruence|]. cbn [negb orb]. by rewrite Ha. }
  unfold run_slaves, run_attach. assert (l_update (run_expire now' l1 L1) = true) as -> by (cbn; by rewrite Eu).
  cbn [fst snd]. set (l1' := run_expire now' l1 L1) in *. set (L1' := upd (expire_step now') <$> L1) in *.
  assert (forall x, x ∈ L1' -> wf_partner x.2) as Hwf'.
  { intros [r x] (s & -> & Hs)%elem_upd. apply wf_expire_step. rewrite EL in Hs. apply elem_of_cons in Hs as [[= -> ->]|Hs].
    - rewrite En. destruct wf_zero as [[? ? ? ? ?] ?]. by split.
    - by apply (Hwf (r, s)). }
  assert ((p, n) ∈ L1') as Hn.
  { apply elem_upd. exists n. split; [|rewrite EL; by left]. unfold expire_step. rewrite En. cbn.
    destruct (Z.leb_spec (now + 3000) now'); [lia|done]. }
  assert (eligible l1' n = true) as He.
  { apply eligible_true. rewrite En. split; [|done]. change (l_sys_id l1') with (l_sys_id l1). rewrite Ei.
    intros E. rewrite <- E in Hz. done. }
  assert (info_bytes (link_priority l1' n) = replicate 15 0) as E0.
  { unfold link_priority, own_side. change (l_sys_priority l1') with (l_sys_priority l1). rewrite Epr, En. cbn.
    destruct (Z.ltb_spec (l_sys_priority l) 0); [lia|]. destruct (Z.ltb_spec 0 (l_sys_priority l)); [done|lia]. }
  intros [r x] (y & -> & Hy)%elem_upd. cbn [snd].
  assert (s_attached (tx_step now' (updated l1' L1') (update_slaves l1' L1') y) = s_attached y
          /\ s_partner (tx_step now' (updated l1' L1') (update_slaves l1' L1') y) = s_partner y) as [-> ->]
    by (unfold tx_step; by destruct (sends _ _ _ _)).
  apply elem_upd in Hy as (s & -> & Hs). cbn [s_attached attach set_attached s_partner].
  destruct (lead l1' L1') as [[q' t]|] eqn:El; [|by rewrite andb_false_r]. intros [_ Hsame]%andb_true_iff.
  apply same_partner_true in Hsame as [_ <-]. destruct (lead_elem _ _ _ El) as [Hin _]. cbn [snd].
  assert (sized l1' L1') as Hsz.
  { split; [cbn; by rewrite Ei|]. intros z Hzz. apply (Hwf' z Hzz). }
  pose proof (lead_best l1' L1' _ _ Hsz El Hn He) as Hbest. unfold priority_le in Hbest. cbn [snd] in Hbest.
  rewrite E0 in Hbest. apply (priority_zero l1'); [cbn; by rewrite Ei|cbn; by rewrite Ei|by apply (Hwf' (q', t))|cbn; by rewrite Epr|done].
Qed.

(** ** An aggregate of two links, both negotiated *)

Definition demo_id : list Z := [2; 0; 0; 0; 0; 1].
Definition demo_peer (port : Z) : lacp_info := MkInfo 200 [2; 0; 0; 0; 0; 2] 5 128 port 63.

Definition demo_slave (q id : Z) : slave :=
  MkSlave q (hash_pointer q 0) id 128 0 (Some "eth"%string) LACP_CURRENT true (demo_peer (id + 50))
    (MkInfo 100 demo_id 1 128 id 61) 5000 9000.

Definition demo_slaves : slaves := [(0%nat, demo_slave 4096 1); (1%nat, demo_slave 8192 2)].

Definition demo_lacp : lacp :=
  MkLacp (Some "bond0"%string) demo_id 100 true (sm_of demo_slaves 2) (Some 0%nat) true true false.

Lemma demo_lacp_rep : lacp_rep demo_lacp demo_slaves.
Proof.
  split; [|by left]. apply sm_of_rep.
  - by refine (bool_decide_unpack _ _).
  - by refine (bool_decide_unpack _ _).
  - repeat constructor.
  - by repeat constructor.
Qed.

Lemma demo_elem {P : slave -> Prop} : P (demo_slave 4096 1) -> P (demo_slave 8192 2) -> forall x, x ∈ demo_slaves -> P x.2.
Proof. intros H1 H2 x [->|[->|[]%not_elem_of_nil]%elem_of_cons]%elem_of_cons; done. Qed.

Lemma demo_sized : sized demo_lacp demo_slaves.
Proof. split; [done|]. by apply (demo_elem (P := fun s => length (sys_id (s_partner s)) = 6%nat)). Qed.

Definition demo_calls : list lacp_call :=
  [CConfigure (MkSettings "bond0" demo_id 100 true true);
   CRegister 4096 (MkSlaveSettings "eth0" 1 128 0) 0; CRegister 8192 (MkSlaveSettings "eth1" 2 128 0) 0; CRun 10;
   CPacket 4096 (MkBuf (pdu_bytes (compose_lacp_pdu (demo_peer 51) info_zero)) 0) 20;
   CPacket 8192 (MkBuf [1; 1; 2] 0) 30; CCarrier 8192 40; CMayEnable 4096; CUnregister 8192; CWait].

Lemma lacp_one_partner_witness :
  exists l sent l' L', run_lacp_calls demo_calls lacp_create = Ret (tt, l) /\ lacp_run 50 l = Ret (sent, l')
    /\ lacp_rep l' L' /\ consistent l' L'.
Proof. apply (lacp_one_partner demo_calls 50); [cbn; set_solver|done]. Defined.

Lemma update_attached_exact_witness :
  exists l' L', lacp_update_attached demo_lacp = Ret (tt, l') /\ lacp_rep l' L' /\ l_update l' = false
    /\ ((forall x, x ∈ demo_slaves -> eligible demo_lacp x.2 = false) /\ l_negotiated l' = false
          /\ L' = upd (set_attached false) <$> demo_slaves
        \/ exists q t, (q, t) ∈ demo_slaves /\ eligible demo_lacp t = true
          /\ (forall x, x ∈ demo_slaves -> eligible demo_lacp x.2 = true -> priority_le demo_lacp t x.2)
          /\ l_negotiated l' = true
          /\ L' = upd (fun s => set_attached (eligible demo_lacp s && same_partner t s) s) <$> demo_slaves).
Proof. exact (update_attached_exact demo_lacp demo_slaves demo_lacp_rep demo_sized). Defined.

Lemma lacp_silence_witness :
  exists l1 L1 s1 l2 L2 s2 l3 L3 s3,
    lacp_runs [6000; 7000] demo_lacp = Ret (tt, l1) /\ lacp_rep l1 L1 /\ (0%nat, s1) ∈ L1 /\ s_status s1 = LACP_CURRENT
    /\ lacp_runs [9500; 10500] l1 = Ret (tt, l2) /\ lacp_rep l2 L2 /\ (0%nat, s2) ∈ L2
    /\ s_status s2 = LACP_EXPIRED /\ slave_may_enable__ s2 = false
    /\ lacp_runs [12500; 20000] l2 = Ret (tt, l3) /\ lacp_rep l3 L3 /\ (0%nat, s3) ∈ L3
    /\ s_status s3 = LACP_DEFAULTED /\ s_partner s3 = info_zero /\ slave_may_enable__ s3 = false.
Proof.
  apply (lacp_silence demo_lacp demo_slaves 0 (demo_slave 4096 1) [6000; 7000] 9500 [10500] 12500 [20000]).
  - exact demo_lacp_rep.
  - by left.
  - done.
  - intros x [->|[->|[]%not_elem_of_nil]%elem_of_cons]%elem_of_cons; done.
  - done.
  - intros x [->|[]%not_elem_of_nil]%elem_of_cons. done.
  - done.
Defined.

Lemma lacp_pdu_roundtrip_witness :
  parse_lacp_packet (MkBuf ([9; 9] ++ pdu_bytes (compose_lacp_pdu (demo_peer 51) (demo_peer 52)) ++ [7]) 2)
  = Some (compose_lacp_pdu (demo_peer 51) (demo_peer 52)).
Proof. apply (lacp_pdu_roundtrip (demo_peer 51) (demo_peer 52) [9; 9] [7]); by split. Defined.

Lemma link_priority_agrees_witness :
  exists i, slave_get_priority (demo_slave 4096 1) demo_lacp = Ret (i, demo_lacp)
    /\ slave_get_priority (set_port 51 128 0 (set_partner (MkInfo 100 demo_id 1 128 1 61) (demo_slave 4096 1)))
         (with_system [2; 0; 0; 0; 0; 2] 200 demo_lacp) = Ret (i, with_system [2; 0; 0; 0; 0; 2] 200 demo_lacp).
Proof.
  apply (link_priority_agrees demo_lacp _ demo_slaves demo_slaves); try done.
  - exact demo_lacp_rep.
  - destruct demo_lacp_rep. by split.
  - by exists 5, 63.
  - by exists 1, 61.
Defined.

Lemma new_slave_detaches_witness :
  exists l1 sent l2 L2,
    lacp_slave_register 12288 (MkSlaveSettings "eth2" 3 128 0) 5000 demo_lacp = Ret (tt, l1)
    /\ lacp_run 5100 l1 = Ret (sent, l2) /\ lacp_rep l2 L2
    /\ forall x, x ∈ L2 -> s_attached x.2 = true -> sys_id (s_partner x.2) = replicate 6 0.
Proof.
  apply (new_slave_detaches demo_lacp demo_slaves 12288 (MkSlaveSettings "eth2" 3 128 0) 5000 5100); try done.
  - exact demo_lacp_rep.
  - by refine (bool_decide_unpack _ _).
  - by repeat constructor.
  - apply (demo_elem (P := wf_partner)); (split; [by split|by repeat constructor]).
Defined.

(** A member of the object says "True if LACP negotiations were successful", but an active
    object with one new slave counts as negotiated before it has heard anything. *)
Lemma negotiated_without_partner :
  exists sent l, (_ ← run_lacp_calls (take 3 demo_calls); lacp_run 10) lacp_create = Ret (sent, l)
    /\ l_negotiated l = true /\ lacp_status (Some l) = LACP_NEGOTIATED.
Proof. do 2 eexists. split; [vm_compute; reflexivity|done]. Qed.
