(* ===== verification/LacpPeers.v ===== *)
(** * Link aggregation control: two switches (lib/lacp.c)

    Two switches joined by any number of links, each of which has a slave at both ends.  The
    messages that one sends in a call of lacp_run are handed, in their order, to the other.
    Three calls are enough for all links to come into use at both ends. *)
From stdpp Require Import strings gmap.
From S2P Require Import Prelude Hash Hmap Flow SlaveMap Lacp LacpRep LacpProps.

Local Open Scope Z_scope.

#[local] Opaque hash_pointer.

(** ** Delivery *)

(** The messages of send_pdu reach the slaves at the other ends of the links; the packets hold
    nothing else. *)
Fixpoint deliver (wire : Z -> Z) (now : Z) (sent : list (Z * list Z)) : lm unit :=
  match sent with
  | [] => mret tt
  | (q, bs) :: sent' => _ ← lacp_process_packet (wire q) (MkBuf bs 0) now; deliver wire now sent'
  end.

Definition receive_at (now : Z) (fast : bool) (q : Z) (pdu : lacp_pdu) (s : slave) : slave :=
  if s_aux s =? q then receive now fast pdu s else s.

Lemma receive_aux now fast pdu s : s_aux (receive now fast pdu s) = s_aux s.
Proof. unfold receive. by destruct (news pdu _). Qed.

Lemma receive_at_aux now fast q pdu s : s_aux (receive_at now fast q pdu s) = s_aux s.
Proof. unfold receive_at. destruct (s_aux s =? q); [apply receive_aux|done]. Qed.

(** One message, as a change of the whole list. *)
Lemma process_upd now bs pdu l L q :
  lacp_rep l L -> q ∈ aux_of <$> L -> parse_lacp_packet (MkBuf bs 0) = Some pdu ->
  exists l' u, lacp_process_packet q (MkBuf bs 0) now l = Ret (tt, l')
    /\ lacp_rep l' (upd (receive_at now (l_fast l) q pdu) <$> L) /\ conf l' = conf (with_update u l)
    /\ (l_update l = true -> u = true)
    /\ (forall p s, (p, s) ∈ L -> s_aux s = q -> news pdu s = true -> u = true).
Proof.
  intros [Hr Hk] Hq Ep. apply list_elem_of_fmap in Hq as ([p s] & -> & Hin).
  pose proof (sr_aux _ _ Hr) as Hd. apply list_elem_of_split in Hin as (L1 & L2 & ->).
  destruct (lacp_process_packet_ok now _ pdu l L1 L2 p s Hr Ep) as (sm & E & Hs).
  exists (with_slaves sm (with_update (l_update l || news pdu s) l)), (l_update l || news pdu s).
  rewrite fmap_app, fmap_cons in Hd. apply NoDup_app in Hd as (_ & Hd1 & Hd2). apply NoDup_cons in Hd2 as [Hd2 _].
  assert (forall x, x ∈ L1 \/ x ∈ L2 -> s_aux x.2 <> s_aux s) as Hne.
  { intros x Hx Ex. destruct Hx as [Hx|Hx].
    - apply (Hd1 (s_aux x.2)); [apply list_elem_of_fmap; by exists x|]. rewrite Ex. by left.
    - apply Hd2. unfold aux_of at 1. cbn. rewrite <- Ex. apply list_elem_of_fmap. by exists x. }
  assert (forall M : slaves, (forall x, x ∈ M -> x ∈ L1 \/ x ∈ L2) -> upd (receive_at now (l_fast l) (s_aux s) pdu) <$> M = M) as Hid.
  { intros M HM. rewrite <- (list_fmap_id M) at 2. apply list_fmap_ext. intros i [r x] Hi. unfold upd, receive_at. cbn.
    apply list_elem_of_lookup_2 in Hi. destruct (Z.eqb_spec (s_aux x) (s_aux s)) as [Ex|]; [|done].
    exfalso. by apply (Hne (r, x) (HM _ Hi)). }
  assert (upd (receive_at now (l_fast l) (s_aux s) pdu) <$> L1 ++ (p, s) :: L2
          = L1 ++ (p, receive now (l_fast l) pdu s) :: L2) as EL.
  { rewrite fmap_app, fmap_cons, !Hid by tauto. unfold upd, receive_at. cbn. by rewrite Z.eqb_refl. }
  unfold aux_of. cbn [snd aux slave_slave]. rewrite EL. split_and!; [exact E| |done| |].
  - split; [exact Hs|]. eapply key_ok_fst; [|exact Hk]. by rewrite !fmap_app.
  - by intros ->.
  - intros r x Hx Ex Hn. apply elem_of_app in Hx as [Hx|[[= -> ->]|Hx]%elem_of_cons].
    + exfalso. by apply (Hne (r, x)); [left|].
    + by rewrite Hn, orb_true_r.
    + exfalso. by apply (Hne (r, x)); [right|].
Qed.

(** All messages: slave [r] gets those that [X] holds for it. *)
Definition receive_all (now : Z) (fast : bool) (X : list (Z * lacp_pdu)) (s : slave) : slave :=
  foldl (fun s x => receive_at now fast x.1 x.2 s) s X.

Lemma receive_all_aux now fast X : forall s, s_aux (receive_all now fast X s) = s_aux s.
Proof.
  induction X as [|x X IH]; intros s; [done|]. cbn. unfold receive_all in IH. by rewrite IH, receive_at_aux.
Qed.

(** With at most one message per slave. *)
Lemma receive_all_other now fast X : forall s, s_aux s ∉ X.*1 -> receive_all now fast X s = s.
Proof.
  induction X as [|[q pdu] X IH]; intros s Hs; [done|]. cbn in Hs. apply not_elem_of_cons in Hs as [Hq Hs].
  cbn. unfold receive_at at 2. cbn. destruct (Z.eqb_spec (s_aux s) q); [done|]. by apply IH.
Qed.

Lemma receive_all_one now fast X : forall s pdu, NoDup X.*1 -> (s_aux s, pdu) ∈ X ->
  receive_all now fast X s = receive now fast pdu s.
Proof.
  induction X as [|[q pdu'] X IH]; intros s pdu Hd Hin; [by apply not_elem_of_nil in Hin|].
  cbn in Hd. apply NoDup_cons in Hd as [Hn Hd]. cbn. unfold receive_at at 2. cbn.
  apply elem_of_cons in Hin as [[= <- <-]|Hin].
  - rewrite Z.eqb_refl. apply receive_all_other. by rewrite receive_aux.
  - destruct (Z.eqb_spec (s_aux s) q) as [<-|]; [|by apply IH].
    exfalso. apply Hn. by apply (list_elem_of_fmap_2 fst X (s_aux s, pdu)).
Qed.

Lemma deliver_ok wire now X : forall l L sent,
  lacp_rep l L -> Forall2 (fun x m => wire m.1 = x.1 /\ parse_lacp_packet (MkBuf m.2 0) = Some x.2) X sent ->
  (forall q, q ∈ X.*1 -> q ∈ aux_of <$> L) -> NoDup X.*1 ->
  exists l' u, deliver wire now sent l = Ret (tt, l')
    /\ lacp_rep l' (upd (receive_all now (l_fast l) X) <$> L) /\ conf l' = conf (with_update u l)
    /\ (l_update l = true -> u = true)
    /\ (forall p s pdu, (p, s) ∈ L -> (s_aux s, pdu) ∈ X -> news pdu s = true -> u = true).
Proof.
  induction X as [|[q pdu] X IH]; intros l L sent Hr HF Hq Hd; apply Forall2_cons_inv_l in HF || apply Forall2_nil_inv_l in HF.
  - subst sent. exists l, (l_update l). split_and!; [done| |by destruct l|done|].
    + assert (upd (receive_all now (l_fast l) []) <$> L = L) as ->; [|done].
      rewrite <- (list_fmap_id L) at 2. apply list_fmap_ext. by intros i [r x] _.
    + intros p s pdu _ Hx. by apply not_elem_of_nil in Hx.
  - destruct HF as ([q' bs] & sent' & [Ew Ep] & HF & ->). cbn in Ew, Ep. subst q.
    apply NoDup_cons in Hd as [Hn Hd].
    destruct (process_upd now bs pdu l L (wire q') Hr ltac:(apply Hq; left) Ep) as (l1 & u1 & E1 & Hr1 & Ec1 & Hu1 & Hw1).
    assert (l_fast l1 = l_fast l /\ l_update l1 = u1) as [Ef Eu] by (destruct l, l1; cbn in Ec1 |- *; by simplify_eq).
    destruct (IH l1 _ sent' Hr1 HF) as (l2 & u2 & E2 & Hr2 & Ec2 & Hu2 & Hw2); [|done|].
    { intros r Hx. rewrite upd_aux by apply receive_at_aux. apply Hq. by right. }
    exists l2, u2. cbn [deliver]. rewrite (cstate_bind_step _ _ _ _ _ E1). rewrite Ef in *. split_and!.
    + done.
    + rewrite <- list_fmap_compose in Hr2. exact Hr2.
    + rewrite Ec2. destruct l, l1; cbn in Ec1 |- *. by simplify_eq.
    + intros Hl. apply Hu2. rewrite Eu. by apply Hu1.
    + intros p s pdu' Hin Hx Hnw. apply elem_of_cons in Hx as [[= E ->]|Hx].
      * apply Hu2. rewrite Eu. by apply (Hw1 p s).
      * apply (Hw2 p s pdu'); [|done|done]. apply elem_upd. exists s. split; [|done].
        unfold receive_at. destruct (Z.eqb_spec (s_aux s) (wire q')) as [E|]; [|done].
        exfalso. apply Hn. rewrite <- E. by apply (list_elem_of_fmap_2 fst X (s_aux s, pdu')).
Qed.

(** ** The links *)

(** Every slave of the one switch is joined to one of the other. *)
Record wired (wire back : Z -> Z) (LA LB : slaves) : Prop := {
  wi_fwd : forall q, q ∈ aux_of <$> LA -> wire q ∈ aux_of <$> LB /\ back (wire q) = q;
  wi_back : forall r, r ∈ aux_of <$> LB -> back r ∈ aux_of <$> LA /\ wire (back r) = r
}.

Lemma wired_sym wire back LA LB : wired wire back LA LB -> wired back wire LB LA.
Proof. intros [H1 H2]. by split. Qed.

Lemma wired_upd (f g : slave -> slave) wire back LA LB :
  (forall s, s_aux (f s) = s_aux s) -> (forall s, s_aux (g s) = s_aux s) ->
  wired wire back LA LB -> wired wire back (upd f <$> LA) (upd g <$> LB).
Proof. intros Hf Hg [H1 H2]. split; by rewrite !upd_aux. Qed.

Definition pdu_of (l : lacp) (L : slaves) (s : slave) : lacp_pdu := compose_lacp_pdu (actor_info l L s) (s_partner s).

Definition messages (now : Z) (l : lacp) (L : slaves) : list (Z * list Z) :=
  (fun x => message l L x.2) <$> filter (fun x => sends now l L x.2 = true) L.

Lemma nodup_fmap_filter {A B} (f : A -> B) (P : A -> Prop) `{!forall x, Decision (P x)} (L : list A) :
  NoDup (f <$> L) -> NoDup (f <$> filter P L).
Proof.
  induction L as [|x L IH]; intros Hd; [constructor|]. rewrite fmap_cons in Hd. apply NoDup_cons in Hd as [Hn Hd].
  rewrite filter_cons. case_decide; [|by apply IH]. rewrite fmap_cons. apply NoDup_cons. split; [|by apply IH].
  intros (y & E & Hy)%list_elem_of_fmap. apply Hn. rewrite E. apply list_elem_of_fmap_2.
  by apply list_elem_of_filter in Hy as [_ ?].
Qed.

(** One side sends, the other receives. *)
Lemma exchange now t wire back l L lB LB :
  lacp_rep lB LB -> wired wire back L LB -> NoDup (aux_of <$> L) ->
  (forall x, x ∈ L -> info_ok (actor_info l L x.2) /\ info_ok (s_partner x.2)) ->
  exists l' u g, deliver wire t (messages now l L) lB = Ret (tt, l') /\ lacp_rep l' (upd g <$> LB)
    /\ conf l' = conf (with_update u lB) /\ (forall s, s_aux (g s) = s_aux s)
    /\ (forall x y, x ∈ L -> y ∈ LB -> s_aux y.2 = wire (s_aux x.2) ->
          if sends now l L x.2
          then g y.2 = receive t (l_fast lB) (pdu_of l L x.2) y.2 /\ (news (pdu_of l L x.2) y.2 = true -> u = true)
          else g y.2 = y.2).
Proof.
  intros Hr [Hw1 Hw2] Hd Hok. set (F := filter (fun x => sends now l L x.2 = true) L).
  set (X := (fun x : nat * slave => (wire (s_aux x.2), pdu_of l L x.2)) <$> F).
  assert (forall x y, x ∈ L -> y ∈ L -> wire (s_aux x.2) = wire (s_aux y.2) -> s_aux x.2 = s_aux y.2) as Hinj.
  { intros x y Hx Hy E. destruct (Hw1 (s_aux x.2)) as [_ <-]; [apply list_elem_of_fmap; by exists x|].
    destruct (Hw1 (s_aux y.2)) as [_ <-]; [apply list_elem_of_fmap; by exists y|]. by rewrite E. }
  assert (X.*1 = (fun x : nat * slave => wire (s_aux x.2)) <$> F) as EX
    by (unfold X; rewrite <- list_fmap_compose; by apply list_fmap_ext).
  assert (NoDup X.*1) as HdX.
  { rewrite EX. assert (NoDup (aux_of <$> F)) as HdF.
    { by apply nodup_fmap_filter. }
    assert (forall M : slaves, (forall x, x ∈ M -> x ∈ L) -> NoDup (aux_of <$> M) -> NoDup ((fun x : nat * slave => wire (s_aux x.2)) <$> M)) as Hgen.
    { induction M as [|x M IH]; intros HM Hn; [constructor|]. cbn in Hn |- *. apply NoDup_cons in Hn as [Hx Hn].
      apply NoDup_cons. split; [|apply IH; [|done]; intros z Hz; apply HM; by right].
      intros (y & E & Hy)%list_elem_of_fmap. apply Hx. unfold aux_of at 1. cbn.
      rewrite (Hinj x y); [apply list_elem_of_fmap; by exists y|apply HM; left|apply HM; by right|done]. }
    apply Hgen; [|done]. intros x Hx. by apply list_elem_of_filter in Hx as [_ ?]. }
  destruct (deliver_ok wire t X lB LB (messages now l L) Hr) as (l' & u & E & Hr' & Ec & _ & Hu); [| |done|].
  - unfold messages, X. fold F. assert (forall x, x ∈ F -> x ∈ L) as HF by (intros x Hx; by apply list_elem_of_filter in Hx as [_ ?]).
    revert HF. clear -Hok. induction F as [|x F IH]; intros HF; constructor.
    + cbn. split; [done|]. destruct (Hok x ltac:(apply HF; left)) as [Ha Hp].
      pose proof (lacp_pdu_parse _ _ [] [] Ha Hp) as H. by rewrite app_nil_r in H.
    + apply IH. intros y Hy. apply HF. by right.
  - intros q Hq. rewrite EX in Hq. apply list_elem_of_fmap in Hq as (x & -> & Hx). apply list_elem_of_filter in Hx as [_ Hx].
    apply Hw1, list_elem_of_fmap. by exists x.
  - exists l', u, (receive_all t (l_fast lB) X). split_and!; [done..|intros s; apply receive_all_aux|].
    intros x y Hx Hy Exy. destruct (sends now l L x.2) eqn:Es.
    + assert ((s_aux y.2, pdu_of l L x.2) ∈ X) as HX.
      { rewrite Exy. apply list_elem_of_fmap. exists x. split; [done|]. by apply list_elem_of_filter. }
      split; [by apply receive_all_one|]. intros Hn. destruct y as [p s]. by apply (Hu p s (pdu_of l L x.2)).
    + apply receive_all_other. rewrite EX. intros (z & Ez & Hz)%list_elem_of_fmap.
      apply list_elem_of_filter in Hz as [Hz Hz']. rewrite Exy in Ez.
      assert (x = z) as ->; [|congruence]. pose proof (Hinj x z Hx Hz' Ez) as Ea. clear -Hd Hx Hz' Ea.
      apply list_elem_of_lookup in Hx as [i Hi], Hz' as [j Hj].
      assert (i = j) as ->; [|congruence]. eapply (NoDup_lookup _ i j (s_aux x.2) Hd).
      * by rewrite list_lookup_fmap, Hi.
      * rewrite list_lookup_fmap, Hj. cbn. by rewrite Ea.
Qed.

(** ** One turn: messages arrive, and lacp_run is called *)

Definition port_ok (s : slave) : Prop := in16 (s_port_id s) /\ in16 (s_port_priority s) /\ in16 (s_key s).

Definition no_id : list Z := replicate 6 0.

(** A configured object none of whose slaves has heard of a partner. *)
Record ready (l : lacp) (L : slaves) : Prop := {
  rd_rep : lacp_rep l L;
  rd_some : L <> [];
  rd_priority : in16 (l_sys_priority l);
  rd_id : length (l_sys_id l) = 6%nat;
  rd_nonzero : l_sys_id l <> no_id;
  rd_slaves : forall x, x ∈ L -> info_ok (s_partner x.2) /\ port_ok x.2 /\ sys_id (s_partner x.2) = no_id
}.

Lemma actor_info_ok l L s :
  in16 (l_sys_priority l) -> length (l_sys_id l) = 6%nat -> (forall x, x ∈ L -> port_ok x.2) -> port_ok s ->
  info_ok (actor_info l L s).
Proof.
  intros H1 H2 HL (H3 & H4 & H5). split; cbn [actor_info sys_priority sys_id key port_priority port_id]; try done.
  unfold agg_key. destruct (l_key_slave l) as [p|]; [|done]. unfold slave_at.
  destruct (find_first _ L) as [y|] eqn:E; [|done]. apply find_first_Some in E as [_ Hy].
  destruct (HL y Hy) as (? & ? & ?). cbn. unfold port_key. by destruct (s_key y.2 =? 0).
Qed.

Lemma info_bytes_inj a b : info_ok a -> info_ok b -> info_bytes a = info_bytes b -> a = b.
Proof.
  intros Ha Hb E. rewrite <- (read_info_bytes a [] Ha), <- (read_info_bytes b [] Hb). by rewrite E.
Qed.

Lemma receive_facts t fast pdu s :
  info_ok (s_partner s) -> info_ok (actor pdu) ->
  s_status (receive t fast pdu s) = LACP_CURRENT /\ s_rx (receive t fast pdu s) = t + 3 * (if fast then 1000 else 30000)
  /\ s_partner (receive t fast pdu s) = actor pdu /\ s_ntt_actor (receive t fast pdu s) = partner pdu
  /\ s_attached (receive t fast pdu s) = s_attached s /\ port_of (receive t fast pdu s) = port_of s.
Proof.
  intros Hs Ha. unfold receive. change (news pdu (set_ntt _ _)) with (news pdu s).
  destruct (news pdu s) eqn:En; [by repeat split|]. cbn. split_and!; [done..| |done|done|done].
  apply info_bytes_inj; [done|done|]. apply memcmp_0; [by rewrite !length_info by (by apply io_id)|].
  unfold news in En. apply negb_false_iff, Z.eqb_eq in En. done.
Qed.

Lemma news_id pdu s : info_ok (s_partner s) -> info_ok (actor pdu) ->
  sys_id (s_partner s) <> sys_id (actor pdu) -> news pdu s = true.
Proof.
  intros Hs Ha Hne. unfold news. apply negb_true_iff, Z.eqb_neq. intros E. apply Hne.
  apply memcmp_0 in E; [|by rewrite !length_info by (by apply io_id)].
  by rewrite (info_bytes_inj _ _ Hs Ha E).
Qed.

(** A list of slaves with current and equal partners. *)
Lemma all_attach now l L i k :
  L <> [] -> l_update l = true -> i <> l_sys_id l ->
  (forall x, x ∈ L -> s_status x.2 = LACP_CURRENT /\ now < s_rx x.2
             /\ sys_id (s_partner x.2) = i /\ key (s_partner x.2) = k) ->
  (run_attach now l L).2 = upd (set_attached true) <$> L
  /\ conf (run_attach now l L).1 = conf (with_negotiated true (with_update false l)).
Proof.
  intros HL Hu Hi Hx. unfold run_attach.
  assert (upd (expire_step now) <$> L = L) as EL.
  { rewrite <- (list_fmap_id L) at 2. apply list_fmap_ext. intros j [p s] Hj. apply list_elem_of_lookup_2 in Hj.
    destruct (Hx _ Hj) as (_ & Hrx & _). cbn in Hrx. unfold upd, expire_step. cbn [fst snd].
    destruct (Z.leb_spec (s_rx s) now); [lia|done]. }
  rewrite EL. set (l1 := run_expire now l L). assert (l_update l1 = true) as -> by (unfold l1; cbn; by rewrite Hu).
  assert (forall x, x ∈ L -> eligible l1 x.2 = true) as He.
  { intros x Hin. destruct (Hx x Hin) as (E1 & _ & E2 & _). apply eligible_true. rewrite E1, E2. done. }
  destruct (lead l1 L) as [[q t]|] eqn:El.
  - destruct (lead_elem _ _ _ El) as [Hin _]. destruct (Hx _ Hin) as (_ & _ & E2 & E3). cbn [snd fst] in *.
    unfold update_slaves, updated. rewrite El. split; [|by destruct l].
    apply list_fmap_ext. intros j [p s] Hj. apply list_elem_of_lookup_2 in Hj. unfold upd, attach. cbn [fst snd].
    specialize (He (p, s) Hj). cbn [snd] in He. rewrite He. destruct (Hx _ Hj) as (_ & _ & E4 & E5). cbn [snd] in E4, E5.
    assert (same_partner t s = true) as -> by (apply same_partner_true; split; congruence). done.
  - destruct L as [|y L]; [done|]. rewrite lead_None in El.
    assert (y ∈ y :: L) as Hin by left. specialize (He y Hin). by rewrite (El y Hin) in He.
Qed.

(** Slaves [X] that are attached after they received what the slaves [L] at the other ends of
    their links sent. *)
Definition answered (wire : Z -> Z) (l : lacp) (L X : slaves) : Prop :=
  forall y, y ∈ X -> exists x, x ∈ L /\ s_aux y.2 = wire (s_aux x.2)
    /\ s_status y.2 = LACP_CURRENT /\ s_attached y.2 = true /\ s_partner y.2 = actor_info l L x.2
    /\ s_ntt_actor y.2 = s_partner x.2 /\ port_ok y.2.

Lemma turn now t wire back l L lB LB :
  ready lB LB -> wired wire back L LB -> NoDup (aux_of <$> L) ->
  (forall x, x ∈ L -> info_ok (actor_info l L x.2) /\ info_ok (s_partner x.2) /\ sends now l L x.2 = true) ->
  l_sys_id l <> l_sys_id lB -> l_sys_id l <> no_id ->
  exists l1 L1, deliver wire t (messages now l L) lB = Ret (tt, l1) /\ lacp_rep l1 L1
    /\ conf (run_attach t l1 L1).1 = conf (with_negotiated true (with_update false (with_key_slave (l_key_slave l1) lB)))
    /\ aux_of <$> (run_attach t l1 L1).2 = aux_of <$> LB
    /\ answered wire l L (run_attach t l1 L1).2.
Proof.
  intros HB Hw Hd HL Hne Hnz.
  destruct (exchange now t wire back l L lB LB (rd_rep _ _ HB) Hw Hd) as (l1 & u & g & E & Hr & Ec & Hg & Hx).
  { intros x Hx. destruct (HL x Hx) as (? & ? & _). done. }
  assert (forall y, y ∈ LB -> exists x, x ∈ L /\ s_aux y.2 = wire (s_aux x.2) /\ g y.2 = receive t (l_fast lB) (pdu_of l L x.2) y.2
            /\ u = true) as Hmatch.
  { intros y Hy. destruct (wi_back _ _ _ _ Hw (s_aux y.2)) as [Hq Eq]; [apply list_elem_of_fmap; by exists y|].
    apply list_elem_of_fmap in Hq as (x & Ex & Hxin). change (aux_of x) with (s_aux x.2) in Ex.
    exists x. assert (s_aux y.2 = wire (s_aux x.2)) as Eyx by (by rewrite <- Ex). split_and!; [done..| |].
    - pose proof (Hx x y Hxin Hy Eyx) as Hs. destruct (HL x Hxin) as (_ & _ & Es). rewrite Es in Hs. by destruct Hs.
    - pose proof (Hx x y Hxin Hy Eyx) as Hs. destruct (HL x Hxin) as (Ha & _ & Es). rewrite Es in Hs. destruct Hs as [_ Hs].
      apply Hs. destruct (rd_slaves _ _ HB y Hy) as (Hp & _ & Ez). apply news_id; [done|exact Ha|]. rewrite Ez.
      intros E0. apply Hnz. symmetry. exact E0. }
  assert (u = true) as ->.
  { pose proof (rd_some _ _ HB) as Hs. destruct LB as [|y LB]; [done|]. by destruct (Hmatch y ltac:(left)) as (? & _ & _ & _ & ?). }
  assert (forall y, y ∈ upd g <$> LB -> exists x, x ∈ L /\ s_aux y.2 = wire (s_aux x.2)
       /\ s_status y.2 = LACP_CURRENT /\ t < s_rx y.2 /\ s_partner y.2 = actor_info l L x.2
       /\ s_ntt_actor y.2 = s_partner x.2 /\ port_ok y.2) as Hy.
  { intros [p y'] (y & -> & Hyin)%elem_upd. destruct (Hmatch (p, y) Hyin) as (x & Hxin & Eyx & Eg & _). cbn [snd] in *.
    destruct (HL x Hxin) as (Ha & _ & _). destruct (rd_slaves _ _ HB _ Hyin) as (Hp & Hport & _). cbn [snd] in *.
    exists x. rewrite Hg, Eg. destruct (receive_facts t (l_fast lB) (pdu_of l L x.2) y Hp Ha) as (F1 & F2 & F3 & F4 & _ & F6).
    split_and!; [done..|rewrite F2; destruct (l_fast lB); lia|done|done|].
    unfold port_ok in *. unfold port_of in F6. injection F6 as _ _ -> -> ->. done. }
  exists l1, (upd g <$> LB).
  destruct (all_attach t l1 (upd g <$> LB) (l_sys_id l) (agg_key (l_key_slave l) L)) as [E2 E1].
  { pose proof (rd_some _ _ HB). by destruct LB. }
  { by destruct l1, lB; cbn in Ec |- *; simplify_eq. }
  { assert (l_sys_id l1 = l_sys_id lB) as -> by (by destruct l1, lB; cbn in Ec |- *; simplify_eq). done. }
  { intros y Hyin. destruct (Hy y Hyin) as (x & _ & _ & F1 & F2 & F3 & _). rewrite F3. done. }
  split_and!; [done|done| | |].
  - rewrite E1. destruct l1, lB; cbn in Ec |- *. by simplify_eq.
  - rewrite E2, !upd_aux; [done|done|done].
  - rewrite E2. intros [p y] (s & -> & Hs)%elem_upd. destruct (Hy (p, s) Hs) as (x & H1 & H2 & H3 & _ & H4 & H5 & H6).
    exists x. split_and!; done.
Qed.

(** ** Negotiation *)

Lemma actor_sync l n s : s_attached s = true -> (Z.land (actor_state l n s) LACP_STATE_SYNC =? 0) = false.
Proof.
  intros E. unfold actor_state. rewrite E. cbn [orb].
  destruct (1 <? n), (bool_decide (s_status s = LACP_EXPIRED)), (bool_decide (s_status s = LACP_DEFAULTED)),
    (l_fast l), (l_active l); reflexivity.
Qed.

Lemma tx_equal_sync a b :
  info_tx_equal a b = true -> (Z.land (state a) LACP_STATE_SYNC =? 0) = false -> (Z.land (state b) LACP_STATE_SYNC =? 0) = false.
Proof.
  unfold info_tx_equal. rewrite !andb_true_iff. intros (((((H & _) & _) & _) & _) & _). apply Z.eqb_eq in H.
  assert (forall i, Z.testbit LACP_STATE_SYNC i = true -> Z.testbit (state a) i = Z.testbit (state b) i) as Hb.
  { intros i Hi. apply (f_equal (fun z => Z.testbit z i)) in H. rewrite Z.land_spec, Z.lxor_spec, !Z.lor_spec, Hi, Z.bits_0 in H.
    rewrite orb_true_r in H. cbn in H. rewrite andb_true_r in H. by apply xorb_eq in H. }
  assert (Z.land (state a) LACP_STATE_SYNC = Z.land (state b) LACP_STATE_SYNC) as E; [|by rewrite E].
  apply Z.bits_inj'. intros i _. rewrite !Z.land_spec. destruct (Z.testbit LACP_STATE_SYNC i) eqn:Ei; [by rewrite Hb|].
  by rewrite !andb_false_r.
Qed.

Lemma run_sent_messages now l L : run_sent now l L = messages now (run_attach now l L).1 (run_attach now l L).2.
Proof. unfold run_sent, messages. by destruct (run_attach now l L). Qed.

Lemma attach_facts now l L x : x ∈ (run_attach now l L).2 -> exists s, (x.1, s) ∈ L /\ port_of x.2 = port_of s
  /\ s_tx x.2 = s_tx s /\ s_partner x.2 = s_partner (expire_step now s).
Proof.
  destruct x as [p x]. unfold run_attach.
  assert (forall s, port_of (expire_step now s) = port_of s /\ s_tx (expire_step now s) = s_tx s) as He.
  { intros s. unfold expire_step. destruct (s_rx s <=? now); [|done]. by destruct (s_status s). }
  destruct (l_update (run_expire now l L)); cbn [snd fst].
  - intros (s1 & -> & (s & -> & Hs)%elem_upd)%elem_upd. exists s. destruct (He s). by split_and!.
  - intros (s & -> & Hs)%elem_upd. exists s. destruct (He s). by split_and!.
Qed.

Lemma attach_aux now l L : aux_of <$> (run_attach now l L).2 = aux_of <$> L.
Proof.
  pose proof (run_aux now l L) as E. unfold run_slaves in E. rewrite upd_aux in E; [done|].
  intros s. pose proof (tx_step_port now (run_attach now l L).1 (run_attach now l L).2 s) as Ep. by injection Ep.
Qed.

(** The conf of an object and what is read from it. *)
Lemma conf_reads l l' : conf l = conf l' -> l_sys_priority l = l_sys_priority l' /\ l_sys_id l = l_sys_id l'
  /\ l_active l = l_active l' /\ l_negotiated l = l_negotiated l'.
Proof. destruct l, l'. cbn. by intros [=]; simplify_eq. Qed.

Lemma attach_reads now l L : l_sys_priority (run_attach now l L).1 = l_sys_priority l
  /\ l_sys_id (run_attach now l L).1 = l_sys_id l /\ l_active (run_attach now l L).1 = l_active l.
Proof. unfold run_attach. by destruct (l_update (run_expire now l L)). Qed.

(** A first call of lacp_run finds no partner, and sends on every link if it is due. *)
Lemma first_run now l L :
  ready l L ->
  exists l1, lacp_run now l = Ret (messages now (run_attach now l L).1 (run_attach now l L).2, l1)
    /\ ready l1 (run_slaves now l L) /\ l_sys_id l1 = l_sys_id l /\ l_active l1 = l_active l
    /\ forall x, x ∈ (run_attach now l L).2 ->
         info_ok (actor_info (run_attach now l L).1 (run_attach now l L).2 x.2) /\ info_ok (s_partner x.2)
         /\ sys_id (s_partner x.2) = no_id /\ exists s, (x.1, s) ∈ L /\ s_tx x.2 = s_tx s.
Proof.
  intros [Hr Hs H3 H4 H5 H6]. destruct (lacp_run_ok now l L Hr) as (l1 & E & Hr1 & Ec).
  rewrite run_sent_messages in E. exists l1.
  destruct (conf_reads _ _ Ec) as (E1 & E2 & E3 & _), (attach_reads now l L) as (E4 & E5 & E6).
  assert (forall x, x ∈ (run_attach now l L).2 -> info_ok (s_partner x.2) /\ port_ok x.2 /\ sys_id (s_partner x.2) = no_id
            /\ exists s, (x.1, s) ∈ L /\ s_tx x.2 = s_tx s) as Hx.
  { intros x Hx. destruct (attach_facts now l L x Hx) as (s & Hin & Ep & Et & Epa). destruct (H6 _ Hin) as (Ho & Hp & Hz).
    cbn [snd] in *. rewrite Epa. split_and!; [| | |by exists s].
    - unfold expire_step. destruct (s_rx s <=? now); [|done]. destruct (s_status s); [by destruct Ho|apply wf_zero|done].
    - unfold port_of in Ep. unfold port_ok. injection Ep as _ _ -> -> ->. done.
    - unfold expire_step. destruct (s_rx s <=? now); [|done]. by destruct (s_status s). }
  split; [exact E|]. split_and!; [|congruence|congruence|].
  - split; [done| |by rewrite E1, E4|by rewrite E2, E5|by rewrite E2, E5|].
    + intros En. apply Hs. pose proof (run_ptrs now l L) as Ep. rewrite En in Ep. by destruct L.
    + intros [p y] (x & -> & Hin)%elem_upd. destruct (Hx _ Hin) as (Ho & Hp & Hz & _). cbn [snd] in *.
      unfold tx_step. by destruct (sends _ _ _ x).
  - intros x Hin. destruct (Hx x Hin) as (Ho & Hp & Hz & Hs'). split_and!; [|done..].
    apply actor_info_ok; [by rewrite E4|by rewrite E5| |done]. intros y Hy. by apply (Hx y Hy).
Qed.

(** What answered slaves send is well formed, and they do send if the other end did not know
    them. *)
Lemma answered_ok wire l L l' X :
  answered wire l L X -> (forall x, x ∈ L -> info_ok (actor_info l L x.2)) ->
  in16 (l_sys_priority l') -> length (l_sys_id l') = 6%nat ->
  forall y, y ∈ X -> info_ok (actor_info l' X y.2) /\ info_ok (s_partner y.2).
Proof.
  intros HX HL Hp Hi y Hy. destruct (HX y Hy) as (x & Hx & _ & _ & _ & -> & _ & Hpo). split; [|by apply HL].
  apply actor_info_ok; [done|done| |done]. intros z Hz. by destruct (HX z Hz) as (? & _ & _ & _ & _ & _ & _ & ?).
Qed.

Lemma answered_sends wire l L t l' X :
  answered wire l L X -> (forall x, x ∈ L -> sys_id (s_partner x.2) = no_id) -> l_sys_id l' <> no_id ->
  forall y, y ∈ X -> sends t l' X y.2 = true.
Proof.
  intros HX HL Hi y Hy. destruct (HX y Hy) as (x & Hx & _ & Hst & _ & _ & Hntt & _).
  unfold sends, may_tx. rewrite Hst, orb_true_r. cbn [andb].
  assert (info_tx_equal (actor_info l' X y.2) (s_ntt_actor y.2) = false) as ->; [|by rewrite orb_true_r].
  unfold info_tx_equal, eth_addr_equals. rewrite (bool_decide_false (sys_id _ = _)); [by rewrite andb_false_r|].
  by rewrite Hntt, (HL x Hx).
Qed.

(** Both ends may use a link on which they attached the slave and saw the other in sync. *)
Lemma may_enable_query l L q p s :
  lacp_rep l L -> (p, s) ∈ L -> s_aux s = q -> s_attached s = true ->
  (Z.land (state (s_partner s)) LACP_STATE_SYNC =? 0) = false -> lacp_slave_may_enable q l = Ret (true, l).
Proof.
  intros Hr Hin <- Ha Hs. unfold lacp_slave_may_enable.
  rewrite (query_ok slave_may_enable__ l L p s (lr_slaves _ _ Hr) Hin).
  unfold slave_may_enable__. by rewrite Ha, Hs.
Qed.

Lemma tx_step_keeps now l L s : s_aux (tx_step now l L s) = s_aux s
  /\ s_attached (tx_step now l L s) = s_attached s /\ s_partner (tx_step now l L s) = s_partner s.
Proof. unfold tx_step. by destruct (sends now l L s). Qed.

(** A slave that is attached and knows that its partner is may be used after the next run. *)
Lemma usable_after_run now l l1 X q p s l0 L x :
  lacp_rep l1 (upd (tx_step now l X) <$> X) -> (p, s) ∈ X -> s_aux s = q -> s_attached s = true ->
  s_partner s = actor_info l0 L x -> s_attached x = true -> lacp_slave_may_enable q l1 = Ret (true, l1).
Proof.
  intros Hr Hin Hq Ha Hp Hx. destruct (tx_step_keeps now l X s) as (F1 & F2 & F3).
  eapply (may_enable_query l1 _ q p (tx_step now l X s)); [exact Hr|apply elem_upd; by exists s|congruence|congruence|].
  rewrite F3, Hp. by apply actor_sync.
Qed.

(** The end that hears the last messages: a slave [w] that knew [a] of its partner, and hears
    from it again unless nothing changed. *)
Lemma usable_after_last t3 t4 fast lA XA (s w : slave) :
  s_status s = LACP_CURRENT -> s_attached s = true -> s_ntt_actor s = s_partner w ->
  info_ok (s_partner w) -> info_ok (actor_info lA XA s) ->
  forall w', s_attached w = true ->
    (if sends t3 lA XA s then w' = receive t4 fast (pdu_of lA XA s) w else w' = w) ->
    s_attached w' = true /\ (Z.land (state (s_partner w')) LACP_STATE_SYNC =? 0) = false.
Proof.
  intros Hst Hatt Hntt Hw Hs w' Hattw Hw'. destruct (sends t3 lA XA s) eqn:Es; subst w'.
  - destruct (receive_facts t4 fast (pdu_of lA XA s) w Hw Hs) as (_ & _ & -> & _ & -> & _).
    split; [done|]. by apply actor_sync.
  - split; [done|]. unfold sends, may_tx in Es. rewrite Hst, orb_true_r in Es. cbn [andb] in Es.
    apply orb_false_iff in Es as [_ Es]. apply negb_false_iff in Es. rewrite Hntt in Es.
    by apply (tx_equal_sync _ _ Es), actor_sync.
Qed.

Lemma wired_aux wire back (LA LB MA MB : slaves) :
  aux_of <$> MA = aux_of <$> LA -> aux_of <$> MB = aux_of <$> LB -> wired wire back LA LB -> wired wire back MA MB.
Proof. intros EA EB [H1 H2]. split; by rewrite EA, EB. Qed.

(** C10: the negotiation succeeds on every link.  Two switches with different addresses are
    joined by any number of links; neither has heard of the other, and at least one, A, is
    active and due to send.  A calls lacp_run and its messages reach B; B calls lacp_run and
    its messages reach A; A calls lacp_run and its messages reach B.  After that, at whatever
    times it happens, both count the negotiation as successful and every link may be enabled at
    both ends. *)
Theorem lacp_negotiates A LA B LB wire back t1 t2 t3 t4 :
  ready A LA -> ready B LB -> wired wire back LA LB -> l_sys_id A <> l_sys_id B ->
  l_active A = true -> (forall x, x ∈ LA -> s_tx x.2 <= t1) ->
  exists m1 A1 B1 m2 B2 A2 m3 A3 B3,
    lacp_run t1 A = Ret (m1, A1) /\ deliver wire t2 m1 B = Ret (tt, B1)
    /\ lacp_run t2 B1 = Ret (m2, B2) /\ deliver back t3 m2 A1 = Ret (tt, A2)
    /\ lacp_run t3 A2 = Ret (m3, A3) /\ deliver wire t4 m3 B2 = Ret (tt, B3)
    /\ l_negotiated A3 = true /\ l_negotiated B3 = true
    /\ forall q, q ∈ aux_of <$> LA ->
         lacp_slave_may_enable q A3 = Ret (true, A3) /\ lacp_slave_may_enable (wire q) B3 = Ret (true, B3).
Proof.
  intros HA HB Hw Hne Hact Htx.
  pose proof (sr_aux _ _ (lr_slaves _ _ (rd_rep _ _ HA))) as HdA. pose proof (sr_aux _ _ (lr_slaves _ _ (rd_rep _ _ HB))) as HdB.
  (* A sends *)
  destruct (first_run t1 A LA HA) as (A1 & EA1 & HA1 & EidA & EacA & FA).
  set (lA := (run_attach t1 A LA).1) in *. set (XA := (run_attach t1 A LA).2) in *.
  destruct (attach_reads t1 A LA) as (_ & Eid & Eac). fold lA in Eid, Eac.
  assert (aux_of <$> XA = aux_of <$> LA) as EXA by apply attach_aux.
  (* B answers *)
  destruct (turn t1 t2 wire back lA XA B LB HB) as (B1 & LB1 & EB1 & HrB1 & EcB & ExB & FB);
    [by eapply wired_aux|by rewrite EXA| |by rewrite Eid|rewrite Eid; apply HA|].
  { intros x Hx. destruct (FA x Hx) as (Ha & Hp & _ & s & Hs & Et). split_and!; [done..|].
    unfold sends, may_tx. rewrite Eac, Hact, Et. specialize (Htx _ Hs). cbn in Htx. by destruct (Z.leb_spec (s_tx s) t1); [|lia]. }
  set (lB := (run_attach t2 B1 LB1).1) in *. set (XB := (run_attach t2 B1 LB1).2) in *.
  destruct (lacp_run_ok t2 B1 LB1 HrB1) as (B2 & EB2 & HrB2 & EcB2). rewrite run_sent_messages in EB2. fold lB XB in EB2.
  destruct (conf_reads _ _ EcB) as (HB1 & EidB & _ & _). cbn in HB1, EidB.
  pose proof (answered_ok wire lA XA lB XB FB ltac:(intros; by apply FA) ltac:(rewrite HB1; apply HB) ltac:(rewrite EidB; apply HB)) as OB.
  (* A answers *)
  destruct (turn t2 t3 back wire lB XB A1 (run_slaves t1 A LA) HA1) as (A2 & LA2 & EA2 & HrA2 & EcA & ExA & FA2).
  { apply wired_sym. eapply wired_aux; [apply run_aux|exact ExB|exact Hw]. }
  { by rewrite ExB. }
  { intros x Hx. destruct (OB x Hx). split_and!; [done..|].
    apply (answered_sends _ _ _ _ _ _ FB); [by intros y (_ & _ & ? & _)%FA|rewrite EidB; apply HB|done]. }
  { rewrite EidB, EidA. congruence. }
  { rewrite EidB. apply HB. }
  set (lA2 := (run_attach t3 A2 LA2).1) in *. set (XA2 := (run_attach t3 A2 LA2).2) in *.
  destruct (lacp_run_ok t3 A2 LA2 HrA2) as (A3 & EA3 & HrA3 & EcA3). rewrite run_sent_messages in EA3. fold lA2 XA2 in EA3.
  destruct (conf_reads _ _ EcA) as (HA4 & HA5 & _ & HA7). cbn in HA4, HA5, HA7.
  pose proof (answered_ok back lB XB lA2 XA2 FA2 ltac:(intros; by apply OB) ltac:(rewrite HA4; apply HA1) ltac:(rewrite HA5; apply HA1)) as OA.
  assert (aux_of <$> XA2 = aux_of <$> LA) as EXA2 by (by rewrite ExA, run_aux).
  assert (aux_of <$> run_slaves t2 B1 LB1 = aux_of <$> LB) as EXB2 by (rewrite <- ExB; unfold XB; by rewrite run_aux, attach_aux).
  (* B hears the last messages *)
  destruct (exchange t3 t4 wire back lA2 XA2 B2 (run_slaves t2 B1 LB1) HrB2) as (B3 & u & g & EB3 & HrB3 & EcB3 & Hg & Hx);
    [by eapply wired_aux|by rewrite EXA2|done|].
  exists (messages t1 lA XA), A1, B1, (messages t2 lB XB), B2, A2, (messages t3 lA2 XA2), A3, B3.
  destruct (conf_reads _ _ EcA3) as (_ & _ & _ & EnA), (conf_reads _ _ EcB3) as (_ & _ & _ & EnB), (conf_reads _ _ EcB2) as (_ & _ & _ & EnB2),
    (conf_reads _ _ EcB) as (_ & _ & _ & HB4).
  split_and!; [done..|by rewrite EnA|rewrite EnB; change (l_negotiated B2 = true); by rewrite EnB2|].
  intros q Hq. rewrite <- EXA2 in Hq. apply list_elem_of_fmap in Hq as ([p s] & -> & Hin). change (aux_of (p, s)) with (s_aux s).
  destruct (FA2 _ Hin) as ([r w] & Hwin & Eaux & Hst & Hatt & Hpar & Hntt & _).
  destruct (FB _ Hwin) as (v & Hv & EauxB & _ & HattB & _). cbn [snd] in *.
  split; [exact (usable_after_run t3 lA2 A3 XA2 (s_aux s) p s lB XB w HrA3 Hin eq_refl Hatt Hpar HattB)|].
  destruct (tx_step_keeps t2 lB XB w) as (F1 & F2 & F3). set (w' := tx_step t2 lB XB w) in *.
  assert ((r, w') ∈ run_slaves t2 B1 LB1) as Hw' by (apply elem_upd; by exists w).
  assert (s_aux w = wire (s_aux s)) as Ews.
  { destruct (wi_back _ _ _ _ Hw (s_aux w)) as [_ E]; [rewrite <- ExB; apply list_elem_of_fmap; by exists (r, w)|]. by rewrite Eaux, E. }
  pose proof (Hx (p, s) (r, w') Hin Hw' ltac:(cbn; by rewrite F1)) as Hlast. cbn [snd] in Hlast.
  destruct (usable_after_last t3 t4 (l_fast B2) lA2 XA2 s w' Hst Hatt) with (w' := g w') as [G1 G2];
    [by rewrite F3|rewrite F3; by apply (OB (r, w))|by apply (OA (p, s))|by rewrite F2|by destruct (sends t3 lA2 XA2 s); [destruct Hlast|]|].
  eapply (may_enable_query B3 _ _ r (g w') HrB3); [apply elem_upd; by exists w'|by rewrite Hg, F1|done|done].
Qed.

(** ** Two switches with two links *)

Definition new_slave (q id : Z) : slave :=
  MkSlave q (hash_pointer q 0) id 128 0 (Some "eth"%string) LACP_DEFAULTED false info_zero info_zero 0 0.

Definition switch (id : list Z) (active : bool) (L : slaves) : lacp :=
  MkLacp (Some "bond0"%string) id 32768 active (sm_of L 2) (Some 1%nat) false false true.

Definition west_slaves : slaves := [(0%nat, new_slave 4096 1); (1%nat, new_slave 8192 2)].
Definition east_slaves : slaves := [(1%nat, new_slave 512 7); (0%nat, new_slave 256 8)].
Definition west : lacp := switch [2; 0; 0; 0; 0; 1] true west_slaves.
Definition east : lacp := switch [2; 0; 0; 0; 0; 2] false east_slaves.

Definition cable (q : Z) : Z := if q =? 4096 then 256 else 512.
Definition cable_back (r : Z) : Z := if r =? 256 then 4096 else 8192.

Lemma west_ready : ready west west_slaves.
Proof.
  split; try done.
  - split; [|by right; left]. apply sm_of_rep; [by refine (bool_decide_unpack _ _)..|repeat constructor|by repeat constructor].
  - intros x [->|[->|[]%not_elem_of_nil]%elem_of_cons]%elem_of_cons; by repeat split.
Qed.

Lemma east_ready : ready east east_slaves.
Proof.
  split; try done.
  - split; [|by left]. apply sm_of_rep; [by refine (bool_decide_unpack _ _)..|repeat constructor|by repeat constructor].
  - intros x [->|[->|[]%not_elem_of_nil]%elem_of_cons]%elem_of_cons; by repeat split.
Qed.

Lemma cables : wired cable cable_back west_slaves east_slaves.
Proof.
  split; intros q [->|[->|[]%not_elem_of_nil]%elem_of_cons]%elem_of_cons; (split; [|done]);
    by refine (bool_decide_unpack _ _).
Qed.

Lemma lacp_negotiates_witness :
  exists m1 A1 B1 m2 B2 A2 m3 A3 B3,
    lacp_run 10 west = Ret (m1, A1) /\ deliver cable 12 m1 east = Ret (tt, B1)
    /\ lacp_run 12 B1 = Ret (m2, B2) /\ deliver cable_back 15 m2 A1 = Ret (tt, A2)
    /\ lacp_run 15 A2 = Ret (m3, A3) /\ deliver cable 18 m3 B2 = Ret (tt, B3)
    /\ l_negotiated A3 = true /\ l_negotiated B3 = true
    /\ forall q, q ∈ aux_of <$> west_slaves ->
         lacp_slave_may_enable q A3 = Ret (true, A3) /\ lacp_slave_may_enable (cable q) B3 = Ret (true, B3).
Proof.
  apply (lacp_negotiates west west_slaves east east_slaves cable cable_back 10 12 15 18);
    [exact west_ready|exact east_ready|exact cables|done|done|].
  intros x [->|[->|[]%not_elem_of_nil]%elem_of_cons]%elem_of_cons; done.
Defined.
