(* ===== verification/Bond.v ===== *)
(** * Bonding (lib/bond.c, lib/bond.h)

    A bond makes several network devices, its slaves, into one link.  This file has the data
    and every function of the module but bond_create's entry in the list of all bonds and the
    commands that only print; at the end, what bundle_run of ofproto/ofproto-dpif.c does with a
    bond.  BondRep.v, BondUse.v, BondBalance.v and BondCalls.v show that no function faults and
    what each does to the list of slaves; BondProps.v, BondTime.v and BondCalls.v have the
    properties, BondErrors.v and the end of BondBalance.v the defects.

    The slaves are in the memory of SlaveMap.v.  The lists that bond_rebalance makes, of
    the slaves by load and of each slave's buckets, are lists of addresses and of indices of
    the hash table; DList.v has the rings behind them.  What the code asks of the system in
    one call (the time, the devices, random numbers) is a [world]; tags and random numbers are
    streams, of which the bond counts what it has drawn. *)
From Stdlib Require Import SpecFloat.
From stdpp Require Import strings.
From S2P Require Import Prelude Hash Hmap Tag Flow SlaveMap Lacp.

Local Open Scope Z_scope.

(** ** Data *)

Inductive bond_mode := BM_TCP | BM_SLB | BM_STABLE | BM_AB.

#[export] Instance bond_mode_eq_dec : EqDecision bond_mode.
Proof. solve_decision. Defined.

Definition bond_mode_to_string (balance : bond_mode) : string :=
  match balance with
  | BM_TCP => "balance-tcp"
  | BM_SLB => "balance-slb"
  | BM_STABLE => "stable"
  | BM_AB => "active-backup"
  end.

Definition bond_mode_from_string (s : string) : option bond_mode :=
  if String.eqb s (bond_mode_to_string BM_TCP) then Some BM_TCP
  else if String.eqb s (bond_mode_to_string BM_SLB) then Some BM_SLB
  else if String.eqb s (bond_mode_to_string BM_STABLE) then Some BM_STABLE
  else if String.eqb s (bond_mode_to_string BM_AB) then Some BM_AB
  else None.

Definition BOND_MASK : Z := 255.

(** The hash table has [BOND_MASK + 1] entries. *)
Definition n_entries : nat := 256.

Record bond_entry := MkEntry { e_slave : option nat; e_tx : Z; e_tag : Z }.

Definition entry_zero : bond_entry := MkEntry None 0 0.

Definition set_eslave (p : option nat) (e : bond_entry) : bond_entry := MkEntry p (e_tx e) (e_tag e).
Definition set_etx (n : Z) (e : bond_entry) : bond_entry := MkEntry (e_slave e) n (e_tag e).
Definition set_etag (t : Z) (e : bond_entry) : bond_entry := MkEntry (e_slave e) (e_tx e) t.

Record bond_slave := MkBslave {
  bs_aux : Z;
  bs_hash : Z;
  bs_netdev : Z;
  bs_change_seq : Z;
  bs_name : string;
  bs_delay : Z;
  bs_enabled : bool;
  bs_may_enable : bool;
  bs_tag : Z;
  bs_entries : list nat;
  bs_tx : Z;
  bs_stb_id : Z
}.

#[export] Instance bond_slave_slave : Slave bond_slave := {| aux := bs_aux; shash := bs_hash |}.

Definition set_netdev (n : Z) (s : bond_slave) : bond_slave :=
  MkBslave (bs_aux s) (bs_hash s) n (bs_change_seq s) (bs_name s) (bs_delay s) (bs_enabled s) (bs_may_enable s)
    (bs_tag s) (bs_entries s) (bs_tx s) (bs_stb_id s).
Definition set_change_seq (n : Z) (s : bond_slave) : bond_slave :=
  MkBslave (bs_aux s) (bs_hash s) (bs_netdev s) n (bs_name s) (bs_delay s) (bs_enabled s) (bs_may_enable s)
    (bs_tag s) (bs_entries s) (bs_tx s) (bs_stb_id s).
Definition set_bname (n : string) (s : bond_slave) : bond_slave :=
  MkBslave (bs_aux s) (bs_hash s) (bs_netdev s) (bs_change_seq s) n (bs_delay s) (bs_enabled s) (bs_may_enable s)
    (bs_tag s) (bs_entries s) (bs_tx s) (bs_stb_id s).
Definition set_delay (t : Z) (s : bond_slave) : bond_slave :=
  MkBslave (bs_aux s) (bs_hash s) (bs_netdev s) (bs_change_seq s) (bs_name s) t (bs_enabled s) (bs_may_enable s)
    (bs_tag s) (bs_entries s) (bs_tx s) (bs_stb_id s).
Definition set_enabled (x : bool) (s : bond_slave) : bond_slave :=
  MkBslave (bs_aux s) (bs_hash s) (bs_netdev s) (bs_change_seq s) (bs_name s) (bs_delay s) x (bs_may_enable s)
    (bs_tag s) (bs_entries s) (bs_tx s) (bs_stb_id s).
Definition set_may_enable (x : bool) (s : bond_slave) : bond_slave :=
  MkBslave (bs_aux s) (bs_hash s) (bs_netdev s) (bs_change_seq s) (bs_name s) (bs_delay s) (bs_enabled s) x
    (bs_tag s) (bs_entries s) (bs_tx s) (bs_stb_id s).
Definition set_btag (t : Z) (s : bond_slave) : bond_slave :=
  MkBslave (bs_aux s) (bs_hash s) (bs_netdev s) (bs_change_seq s) (bs_name s) (bs_delay s) (bs_enabled s)
    (bs_may_enable s) t (bs_entries s) (bs_tx s) (bs_stb_id s).
Definition set_entries (l : list nat) (s : bond_slave) : bond_slave :=
  MkBslave (bs_aux s) (bs_hash s) (bs_netdev s) (bs_change_seq s) (bs_name s) (bs_delay s) (bs_enabled s)
    (bs_may_enable s) (bs_tag s) l (bs_tx s) (bs_stb_id s).
Definition set_btx (n : Z) (s : bond_slave) : bond_slave :=
  MkBslave (bs_aux s) (bs_hash s) (bs_netdev s) (bs_change_seq s) (bs_name s) (bs_delay s) (bs_enabled s)
    (bs_may_enable s) (bs_tag s) (bs_entries s) n (bs_stb_id s).
Definition set_stb_id (n : Z) (s : bond_slave) : bond_slave :=
  MkBslave (bs_aux s) (bs_hash s) (bs_netdev s) (bs_change_seq s) (bs_name s) (bs_delay s) (bs_enabled s)
    (bs_may_enable s) (bs_tag s) (bs_entries s) (bs_tx s) n.

Record bond := MkBond {
  b_name : option string;
  b_slaves : slave_map bond_slave;
  b_balance : bond_mode;
  b_active : option nat;
  b_no_slaves_tag : Z;
  b_updelay : Z;
  b_downdelay : Z;
  b_lacp : lacp_status_t;
  b_revalidate : bool;
  b_basis : Z;
  b_hash : option (list bond_entry);
  b_interval : Z;
  b_next_rebalance : Z;
  b_send : bool;
  b_stb_tag : Z;
  b_next_fake : Z;
  b_unixctl : tag_set;
  b_draws : nat
}.

Definition with_bslaves (m : slave_map bond_slave) (b : bond) : bond :=
  MkBond (b_name b) m (b_balance b) (b_active b) (b_no_slaves_tag b) (b_updelay b) (b_downdelay b) (b_lacp b)
    (b_revalidate b) (b_basis b) (b_hash b) (b_interval b) (b_next_rebalance b) (b_send b) (b_stb_tag b)
    (b_next_fake b) (b_unixctl b) (b_draws b).
Definition with_active (p : option nat) (b : bond) : bond :=
  MkBond (b_name b) (b_slaves b) (b_balance b) p (b_no_slaves_tag b) (b_updelay b) (b_downdelay b) (b_lacp b)
    (b_revalidate b) (b_basis b) (b_hash b) (b_interval b) (b_next_rebalance b) (b_send b) (b_stb_tag b)
    (b_next_fake b) (b_unixctl b) (b_draws b).
Definition with_lacp (x : lacp_status_t) (b : bond) : bond :=
  MkBond (b_name b) (b_slaves b) (b_balance b) (b_active b) (b_no_slaves_tag b) (b_updelay b) (b_downdelay b) x
    (b_revalidate b) (b_basis b) (b_hash b) (b_interval b) (b_next_rebalance b) (b_send b) (b_stb_tag b)
    (b_next_fake b) (b_unixctl b) (b_draws b).
Definition with_revalidate (x : bool) (b : bond) : bond :=
  MkBond (b_name b) (b_slaves b) (b_balance b) (b_active b) (b_no_slaves_tag b) (b_updelay b) (b_downdelay b)
    (b_lacp b) x (b_basis b) (b_hash b) (b_interval b) (b_next_rebalance b) (b_send b) (b_stb_tag b)
    (b_next_fake b) (b_unixctl b) (b_draws b).
Definition with_hash (h : option (list bond_entry)) (b : bond) : bond :=
  MkBond (b_name b) (b_slaves b) (b_balance b) (b_active b) (b_no_slaves_tag b) (b_updelay b) (b_downdelay b)
    (b_lacp b) (b_revalidate b) (b_basis b) h (b_interval b) (b_next_rebalance b) (b_send b) (b_stb_tag b)
    (b_next_fake b) (b_unixctl b) (b_draws b).
Definition with_next_rebalance (t : Z) (b : bond) : bond :=
  MkBond (b_name b) (b_slaves b) (b_balance b) (b_active b) (b_no_slaves_tag b) (b_updelay b) (b_downdelay b)
    (b_lacp b) (b_revalidate b) (b_basis b) (b_hash b) (b_interval b) t (b_send b) (b_stb_tag b)
    (b_next_fake b) (b_unixctl b) (b_draws b).
Definition with_send (x : bool) (b : bond) : bond :=
  MkBond (b_name b) (b_slaves b) (b_balance b) (b_active b) (b_no_slaves_tag b) (b_updelay b) (b_downdelay b)
    (b_lacp b) (b_revalidate b) (b_basis b) (b_hash b) (b_interval b) (b_next_rebalance b) x (b_stb_tag b)
    (b_next_fake b) (b_unixctl b) (b_draws b).
Definition with_next_fake (t : Z) (b : bond) : bond :=
  MkBond (b_name b) (b_slaves b) (b_balance b) (b_active b) (b_no_slaves_tag b) (b_updelay b) (b_downdelay b)
    (b_lacp b) (b_revalidate b) (b_basis b) (b_hash b) (b_interval b) (b_next_rebalance b) (b_send b) (b_stb_tag b)
    t (b_unixctl b) (b_draws b).
Definition with_unixctl (u : tag_set) (b : bond) : bond :=
  MkBond (b_name b) (b_slaves b) (b_balance b) (b_active b) (b_no_slaves_tag b) (b_updelay b) (b_downdelay b)
    (b_lacp b) (b_revalidate b) (b_basis b) (b_hash b) (b_interval b) (b_next_rebalance b) (b_send b) (b_stb_tag b)
    (b_next_fake b) u (b_draws b).
Definition drawn (b : bond) : bond :=
  MkBond (b_name b) (b_slaves b) (b_balance b) (b_active b) (b_no_slaves_tag b) (b_updelay b) (b_downdelay b)
    (b_lacp b) (b_revalidate b) (b_basis b) (b_hash b) (b_interval b) (b_next_rebalance b) (b_send b) (b_stb_tag b)
    (b_next_fake b) (b_unixctl b) (S (b_draws b)).

Record bond_settings := MkBondSettings {
  bo_name : string; bo_basis : Z; bo_balance : bond_mode; bo_interval : Z;
  bo_up_delay : Z; bo_down_delay : Z; bo_fake_iface : bool
}.

(** The members of struct netdev_stats that bonding uses; it leaves the others zero. *)
Record netdev_stats := MkStats { rx_packets : Z; tx_packets : Z; rx_bytes : Z; tx_bytes : Z }.

(** A network device is its pointer.  [w_stats] is [None] where netdev_get_stats fails.
    [w_tag i] is what the [i]-th draw gives as a tag, [w_random i] as the value of
    random_uint32 and [w_range i n] as that of random_range(n). *)
Record world := MkWorld {
  w_now : Z;
  w_carrier : Z -> bool;
  w_name : Z -> string;
  w_change_seq : Z -> Z;
  w_stats : Z -> option netdev_stats;
  w_opens : string -> bool;
  w_tag : nat -> Z;
  w_random : nat -> Z;
  w_range : nat -> nat -> nat
}.

Abbreviation bm := (cstate bond).

(** ** Memory *)

Definition bmodify (f : bond -> bond) : bm unit := fun b => Ret (tt, f b).

Definition on_bslaves {B} (m : cstate (slave_map bond_slave) B) : bm B := fun b =>
  match m (b_slaves b) with Ret (x, sm) => Ret (x, with_bslaves sm b) | Stuck e => Stuck e end.

Definition bload (p : nat) : bm bond_slave := on_bslaves (sm_load p).
Definition bstore (p : nat) (f : bond_slave -> bond_slave) : bm unit := on_bslaves (sm_modify p f).
Definition bond_slave_lookup (q : Z) : bm (option nat) := on_bslaves (sm_lookup q).
Definition bderef (p : option nat) : bm nat := lift (of_option NullDeref p).

(** An entry of the hash table; the table may be a null pointer. *)
Definition load_hash : bm (list bond_entry) := b ← get; lift (of_option NullDeref (b_hash b)).
Definition load_entry (i : nat) : bm bond_entry :=
  h ← load_hash; lift (of_option OutOfBounds (h !! i)).
Definition store_entry (i : nat) (f : bond_entry -> bond_entry) : bm unit :=
  h ← load_hash; e ← load_entry i; bmodify (with_hash (Some (<[i := f e]> h))).

(** HMAP_FOR_EACH over the slaves, and the loop over the entries of the hash table. *)
Definition for_each_bslave {B} (body : nat -> B -> bm B) (x : B) : bm B :=
  b ← @get bond; ps ← lift (sm_nodes (b_slaves b)); each body ps x.
Definition for_each_entry {B} (body : nat -> B -> bm B) (x : B) : bm B := each body (seq 0 n_entries) x.

(** HMAP_FOR_EACH with a return from the loop. *)
Fixpoint search_slaves (test : bond_slave -> bool) (ps : list nat) : bm (option nat) :=
  match ps with
  | [] => mret None
  | p :: ps' => s ← bload p; if test s then mret (Some p) else search_slaves test ps'
  end.


Section operations.
Context (w : world).

(** ** Slaves *)

Definition draw_tag : bm Z := b ← get; _ ← bmodify drawn; mret (w_tag w (b_draws b)).

Definition bond_entry_reset : bm unit :=
  b ← get;
  if negb (bool_decide (b_balance b = BM_AB)) then
    _ ← bmodify (with_hash (Some (replicate n_entries entry_zero)));
    bmodify (with_next_rebalance (w_now w + b_interval b))
  else bmodify (with_hash None).

(** [tags] is [None] for a null pointer. *)
Definition bond_enable_slave (p : nat) (enable : bool) (tags : option tag_set) : bm (option tag_set) :=
  _ ← bstore p (set_delay LLONG_MAX);
  s ← bload p;
  if negb (Bool.eqb enable (bs_enabled s)) then
    _ ← bstore p (set_enabled enable);
    tags ← (if negb enable then mret ((fun ts => tag_set_add ts (bs_tag s)) <$> tags)
            else t ← draw_tag; _ ← bstore p (set_btag t); mret tags);
    b ← get;
    _ ← (if bool_decide (b_balance b = BM_STABLE) then bmodify (with_revalidate true) else mret tt);
    mret tags
  else mret tags.

(** The call with a set of tags. *)
Definition enable_slave_in (p : nat) (enable : bool) (tags : tag_set) : bm tag_set :=
  r ← bond_enable_slave p enable (Some tags); mret (default tags r).

Definition bond_link_status_update (p : nat) (tags : tag_set) : bm tag_set :=
  s ← bload p;
  b ← get;
  let up := w_carrier w (bs_netdev s) && bs_may_enable s in
  _ ← (if negb (Bool.eqb (Bool.eqb up (bs_enabled s)) (bs_delay s =? LLONG_MAX)) then
         if Bool.eqb up (bs_enabled s) then bstore p (set_delay LLONG_MAX)
         else
           let delay := if negb (bool_decide (b_lacp b = LACP_DISABLED)) then 0
                        else if up then b_updelay b else b_downdelay b in
           bstore p (set_delay (w_now w + delay))
       else mret tt);
  s ← bload p;
  if bs_delay s <=? w_now w then enable_slave_in p up tags else mret tags.

(** The second loop of bond_choose_slave. *)
Definition choose_delayed (p : nat) (best : option nat) : bm (option nat) :=
  s ← bload p;
  if negb (bs_delay s =? LLONG_MAX) && bs_may_enable s then
    match best with
    | None => mret (Some p)
    | Some q => t ← bload q; mret (if bs_delay s <? bs_delay t then Some p else best)
    end
  else mret best.

Definition bond_choose_slave : bm (option nat) :=
  b ← get;
  ps ← lift (sm_nodes (b_slaves b));
  p ← search_slaves bs_enabled ps;
  match p with
  | Some p => mret (Some p)
  | None => for_each_bslave choose_delayed None
  end.

Definition bond_choose_active_slave (tags : tag_set) : bm tag_set :=
  b ← get;
  let old_active_slave := b_active b in
  p ← bond_choose_slave;
  _ ← bmodify (with_active p);
  match p with
  | Some p =>
      s ← bload p;
      tags ← (if bs_enabled s then mret tags else enable_slave_in p true tags);
      b ← get;
      let tags := match old_active_slave with None => tag_set_add tags (b_no_slaves_tag b) | Some _ => tags end in
      _ ← bmodify (with_send true);
      mret tags
  | None => mret tags
  end.

Definition bond_get_active_slave_tag : bm Z :=
  b ← get;
  match b_active b with Some p => s ← bload p; mret (bs_tag s) | None => mret (b_no_slaves_tag b) end.

(** ** Configuration *)

Definition bond_reconfigure (s : bond_settings) : bm bool :=
  _ ← bmodify (fun b => MkBond (new_name (b_name b) (bo_name s)) (b_slaves b) (b_balance b) (b_active b)
    (b_no_slaves_tag b) (bo_up_delay s) (bo_down_delay s) (b_lacp b) (b_revalidate b) (b_basis b) (b_hash b)
    (b_interval b) (b_next_rebalance b) (b_send b) (b_stb_tag b) (b_next_fake b) (b_unixctl b) (b_draws b));
  b ← get;
  let revalidate := negb (b_interval b =? bo_interval s) || negb (bool_decide (b_balance b = bo_balance s))
                    || negb (b_basis b =? bo_basis s) in
  _ ← bmodify (fun b => MkBond (b_name b) (b_slaves b) (bo_balance s) (b_active b) (b_no_slaves_tag b)
    (b_updelay b) (b_downdelay b) (b_lacp b) (b_revalidate b) (bo_basis s) (b_hash b) (bo_interval s)
    (b_next_rebalance b) (b_send b) (b_stb_tag b) (b_next_fake b) (b_unixctl b) (b_draws b));
  _ ← (if bo_fake_iface s then
         if b_next_fake b =? LLONG_MAX then bmodify (with_next_fake (w_now w)) else mret tt
       else bmodify (with_next_fake LLONG_MAX));
  b ← get;
  let revalidate := revalidate || b_revalidate b in
  _ ← (if b_revalidate b then bmodify (with_revalidate false) else mret tt);
  _ ← (if bool_decide (b_balance b = BM_AB) || match b_hash b with None => true | Some _ => false end || revalidate
       then bond_entry_reset else mret tt);
  mret revalidate.

(** The object as xzalloc leaves it; the first member of enum bond_mode and of enum
    lacp_status is zero. *)
Definition bond_zero : bond :=
  MkBond None sm_empty BM_TCP None 0 0 0 LACP_NEGOTIATED false 0 None 0 0 false 0 0 tag_set_init 0.

Definition bond_create (s : bond_settings) : outcome bond :=
  r ← (t1 ← draw_tag; t2 ← draw_tag;
       _ ← bmodify (fun b => MkBond (b_name b) (b_slaves b) (b_balance b) (b_active b) t1 (b_updelay b)
             (b_downdelay b) (b_lacp b) (b_revalidate b) (b_basis b) (b_hash b) (b_interval b) (b_next_rebalance b)
             (b_send b) t2 LLONG_MAX (b_unixctl b) (b_draws b));
       _ ← bond_reconfigure s;
       bmodify (with_unixctl tag_set_init)) bond_zero;
  Ret r.2.

(** HMAP_FOR_EACH_SAFE: the next slave is found before the memory of this one is freed. *)
Fixpoint destroy_bslaves (fuel : nat) (c : list hmap_node) : bm unit :=
  match fuel, c with
  | S f, x :: next =>
      b ← get;
      c ← lift (hmap_next (sm_table (b_slaves b)) x next);
      _ ← on_bslaves (sm_remove (node_ptr x));
      _ ← on_bslaves (sm_free (node_ptr x));
      destroy_bslaves f c
  | _, _ => mret tt
  end.

(** The hash table, the name and the object itself are freed at the end. *)
Definition bond_destroy : bm unit :=
  b ← get;
  c ← lift (hmap_first (sm_table (b_slaves b)));
  _ ← destroy_bslaves (length (nodes (sm_table (b_slaves b)))) c;
  bmodify (with_hash None).

Definition bond_slave_set_netdev__ (p : nat) (netdev : Z) : bm unit :=
  s ← bload p;
  if negb (bs_netdev s =? netdev) then
    _ ← bstore p (set_netdev netdev); bstore p (set_change_seq 0)
  else mret tt.

(** The slave that xzalloc and the stores before bond_enable_slave make. *)
Definition fresh_bslave (slave_ netdev : Z) : bond_slave :=
  MkBslave slave_ (hash_pointer slave_ 0) 0 0 (w_name w netdev) LLONG_MAX false false 0 [] 0 0.

Definition add_bslave (slave_ netdev : Z) : bm nat :=
  p ← on_bslaves (sm_new (fresh_bslave slave_ netdev));
  _ ← on_bslaves (sm_insert p);
  _ ← bmodify (with_revalidate true);
  _ ← bond_enable_slave p (w_carrier w netdev) None;
  mret p.

Definition bond_slave_register (slave_ stb_id netdev : Z) : bm unit :=
  slave ← bond_slave_lookup slave_;
  p ← (match slave with Some p => mret p | None => add_bslave slave_ netdev end);
  s ← bload p;
  _ ← (if negb (bs_stb_id s =? stb_id) then
         _ ← bstore p (set_stb_id stb_id); bmodify (with_revalidate true)
       else mret tt);
  _ ← bond_slave_set_netdev__ p netdev;
  bstore p (set_bname (w_name w netdev)).

Definition bond_slave_set_netdev (slave_ netdev : Z) : bm unit :=
  slave ← bond_slave_lookup slave_;
  match slave with Some p => bond_slave_set_netdev__ p netdev | None => mret tt end.

(** The loop over the entries of bond_slave_unregister. *)
Definition forget_slave (p : nat) (i : nat) (_ : unit) : bm unit :=
  e ← load_entry i;
  if bool_decide (e_slave e = Some p) then store_entry i (set_eslave None) else mret tt.

Definition bond_slave_unregister (slave_ : Z) : bm unit :=
  slave ← bond_slave_lookup slave_;
  match slave with
  | None => mret tt
  | Some p =>
      _ ← bond_enable_slave p false None;
      b ← get;
      let del_active := bool_decide (b_active b = Some p) in
      _ ← (match b_hash b with Some _ => for_each_entry (forget_slave p) tt | None => mret tt end);
      _ ← on_bslaves (sm_remove p);
      _ ← on_bslaves (sm_free p);
      if del_active then
        _ ← bond_choose_active_slave tag_set_init; bmodify (with_send true)
      else mret tt
  end.

Definition bond_slave_set_may_enable (slave_ : Z) (may_enable : bool) : bm unit :=
  slave ← bond_slave_lookup slave_;
  p ← bderef slave;
  bstore p (set_may_enable may_enable).

(** ** Periodic work *)

Definition add_stats (p : nat) (acc : netdev_stats) : bm netdev_stats :=
  s ← bload p;
  mret (match w_stats w (bs_netdev s) with
        | Some x => MkStats (u64 (rx_packets acc + tx_packets x)) (u64 (tx_packets acc + rx_packets x))
                      (u64 (rx_bytes acc + tx_bytes x)) (u64 (tx_bytes acc + rx_bytes x))
        | None => acc
        end).

(** The call of netdev_set_stats: the name of the device and the statistics. *)
Definition bond_update_fake_slave_stats : bm (list (string * netdev_stats)) :=
  st ← for_each_bslave add_stats (MkStats 0 0 0 0);
  b ← get;
  name ← lift (of_option NullDeref (b_name b));
  mret (if w_opens w name then [(name, st)] else []).

Definition link_one (p : nat) (tags : tag_set) : bm tag_set :=
  tags ← bond_link_status_update p tags;
  s ← bload p;
  _ ← bstore p (set_change_seq (w_change_seq w (bs_netdev s)));
  mret tags.

Definition add_slave_tag (p : nat) (tags : tag_set) : bm tag_set :=
  s ← bload p; mret (tag_set_add tags (bs_tag s)).

(** The revalidation in bond_run. *)
Definition revalidate_flows (tags : tag_set) : bm tag_set :=
  _ ← bmodify (with_revalidate false);
  _ ← bond_entry_reset;
  b ← get;
  tags ← (if negb (bool_decide (b_balance b = BM_STABLE)) then for_each_bslave add_slave_tag tags
          else mret (tag_set_add tags (b_stb_tag b)));
  mret (tag_set_add tags (b_no_slaves_tag b)).

Definition needs_active : bm bool :=
  b ← get;
  match b_active b with None => mret true | Some p => s ← bload p; mret (negb (bs_enabled s)) end.

Definition bond_run (tags : tag_set) (status : lacp_status_t)
  : bm (tag_set * list (string * netdev_stats)) :=
  b ← get;
  _ ← (if negb (bool_decide (b_lacp b = status)) then
         _ ← bmodify (with_lacp status); bmodify (with_revalidate true)
       else mret tt);
  tags ← for_each_bslave link_one tags;
  need ← needs_active;
  tags ← (if (need : bool) then bond_choose_active_slave tags else mret tags);
  b ← get;
  fake ← (if b_next_fake b <=? w_now w then
            st ← bond_update_fake_slave_stats; _ ← bmodify (with_next_fake (w_now w + 1000)); mret st
          else mret []);
  b ← get;
  tags ← (if b_revalidate b then revalidate_flows tags else mret tags);
  b ← get;
  let tags := tag_set_union tags (b_unixctl b) in
  _ ← bmodify (with_unixctl tag_set_init);
  mret (tags, fake).

(** The calls of poll_timer_wait_until, and whether poll_immediate_wake is called. *)
Definition bwait_one (p : nat) (acc : list Z * bool) : bm (list Z * bool) :=
  s ← bload p;
  let times := if negb (bs_delay s =? LLONG_MAX) then acc.1 ++ [bs_delay s] else acc.1 in
  mret (times, acc.2 || negb (bs_change_seq s =? w_change_seq w (bs_netdev s))).

Definition bond_wait : bm (list Z * bool) :=
  acc ← for_each_bslave bwait_one ([], false);
  b ← get;
  let times := if negb (b_next_fake b =? LLONG_MAX) then acc.1 ++ [b_next_fake b] else acc.1 in
  mret (times, acc.2 || negb (tag_set_is_empty (b_unixctl b))).

(** ** Choice of a slave *)

Definition bond_hash_src (mac : list Z) (vlan basis : Z) : Z := hash_3words (hash_bytes mac 0) vlan basis.

Definition bond_hash_tcp (f : flow) (vlan basis : Z) : Z := flow_hash_symmetric_l4 (with_vlan_tci vlan f) basis.

Definition bond_hash (f : flow) (vlan : Z) : bm Z :=
  b ← get;
  match b_balance b with
  | BM_TCP => mret (bond_hash_tcp f vlan (b_basis b))
  | BM_SLB => mret (bond_hash_src (dl_src f) vlan (b_basis b))
  | _ => fails AssertFail
  end.

(** The index in the hash table. *)
Definition lookup_bond_entry (f : flow) (vlan : Z) : bm nat :=
  h ← bond_hash f vlan; mret (Z.to_nat (Z.land h BOND_MASK)).

(** [best] with [best_hash]. *)
Definition stb_one (flow_hash : Z) (p : nat) (best : option (nat * Z)) : bm (option (nat * Z)) :=
  s ← bload p;
  if bs_enabled s then
    let hash := hash_2words flow_hash (bs_stb_id s) in
    mret (match best with
          | None => Some (p, hash)
          | Some (_, best_hash) => if best_hash <? hash then Some (p, hash) else best
          end)
  else mret best.

Definition choose_stb_slave (flow_hash : Z) : bm (option nat) :=
  best ← for_each_bslave (stb_one flow_hash) None; mret (fst <$> best).

Definition bond_is_balanced (b : bond) : bool :=
  negb (b_interval b =? 0) && (bool_decide (b_balance b = BM_SLB) || bool_decide (b_balance b = BM_TCP)).

(** hmap_random_node; on an empty map its loop does not end. *)
Definition random_slave : bm nat :=
  b ← get;
  x ← lift (hmap_random_node (sm_table (b_slaves b)) (w_random w (b_draws b)) (w_range w (b_draws b)));
  _ ← bmodify drawn;
  lift (of_option Endless (node_ptr <$> x)).

Definition slave_usable (p : option nat) : bm bool :=
  match p with Some p => s ← bload p; mret (bs_enabled s) | None => mret false end.

(** The assignment of an entry in choose_output_slave. *)
Definition assign_entry (i : nat) : bm unit :=
  p ← random_slave;
  _ ← store_entry i (set_eslave (Some p));
  s ← bload p;
  _ ← (if negb (bs_enabled s) then b ← get; store_entry i (set_eslave (b_active b)) else mret tt);
  t ← draw_tag;
  store_entry i (set_etag t).

Definition choose_by_load (f : flow) (vlan tags : Z) : bm (option nat * Z) :=
  b ← get;
  if negb (bond_is_balanced b) then
    h ← bond_hash f vlan; p ← choose_stb_slave h; mret (p, tags)
  else
    i ← lookup_bond_entry f vlan;
    e ← load_entry i;
    ok ← slave_usable (e_slave e);
    _ ← (if (ok : bool) then mret tt else assign_entry i);
    e ← load_entry i;
    mret (e_slave e, Z.lor tags (e_tag e)).

(** The slave and the tags. *)
Definition choose_output_slave (f : flow) (vlan tags : Z) : bm (option nat * Z) :=
  b ← get;
  if bool_decide (b_lacp b = LACP_CONFIGURED) then mret (None, tags)
  else
    match b_balance b with
    | BM_AB => mret (b_active b, tags)
    | BM_STABLE => p ← choose_stb_slave (bond_hash_tcp f vlan (b_basis b)); mret (p, tags)
    | BM_TCP => if negb (bool_decide (b_lacp b = LACP_NEGOTIATED)) then mret (None, tags)
                else choose_by_load f vlan tags
    | BM_SLB => choose_by_load f vlan tags
    end.

(** The client's pointer for the slave. *)
Definition bond_choose_output_slave (f : flow) (vlan tags : Z) : bm (option Z * Z) :=
  r ← choose_output_slave f vlan tags;
  b ← get;
  match r.1 with
  | Some p =>
      s ← bload p;
      mret (Some (bs_aux s), Z.lor r.2 (if bool_decide (b_balance b = BM_STABLE) then b_stb_tag b else bs_tag s))
  | None => mret (None, Z.lor r.2 (b_no_slaves_tag b))
  end.

(** ** MAC learning *)

Definition may_send_learning_packets (b : bond) : bool :=
  bool_decide (b_lacp b = LACP_DISABLED) && negb (bool_decide (b_balance b = BM_STABLE))
  && match b_active b with Some _ => true | None => false end.

Definition bond_should_send_learning_packets : bm bool :=
  b ← get; _ ← bmodify (with_send false); mret (b_send b && may_send_learning_packets b).

Definition compose_rarp (eth_src : list Z) : list Z :=
  replicate 6 255 ++ eth_src ++ be_bytes 2 32821
  ++ be_bytes 2 1 ++ be_bytes 2 2048 ++ [6; 4] ++ be_bytes 2 3
  ++ eth_src ++ replicate 4 0 ++ eth_src ++ replicate 4 0.

(** [tci] is in the order of the host. *)
Definition eth_push_vlan (packet : list Z) (tci : Z) : list Z :=
  take 12 packet ++ be_bytes 2 33024 ++ be_bytes 2 (Z.land tci 61439) ++ drop 12 packet.

(** The packet, and the port it is to be sent on. *)
Definition bond_compose_learning_packet (eth_src : list Z) (vlan : Z) : bm (list Z * Z) :=
  b ← get;
  if negb (may_send_learning_packets b) then fails AssertFail
  else
    r ← choose_output_slave (with_dl_src eth_src flow_zero) vlan 0;
    let packet := compose_rarp eth_src in
    let packet := if negb (vlan =? 0) then eth_push_vlan packet vlan else packet in
    p ← bderef r.1;
    s ← bload p;
    mret (packet, bs_aux s).

Inductive bond_verdict := BV_ACCEPT | BV_DROP | BV_DROP_IF_MOVED.

#[export] Instance bond_verdict_eq_dec : EqDecision bond_verdict.
Proof. solve_decision. Defined.

Definition eth_addr_is_multicast (mac : list Z) : bool := Z.odd (nth 0 mac 0).

(** The last part of bond_check_admissibility; [slave] is what the lookup found. *)
Definition admit_by_mode (slave : option nat) (tags : Z) : bm (bond_verdict * Z) :=
  b ← get;
  match b_balance b with
  | BM_AB =>
      t ← bond_get_active_slave_tag;
      mret (if bool_decide (b_active b = slave) then BV_ACCEPT else BV_DROP, Z.lor tags t)
  | BM_TCP => mret (BV_DROP, tags)
  | BM_SLB => mret (BV_DROP_IF_MOVED, tags)
  | BM_STABLE => mret (BV_ACCEPT, tags)
  end.

Definition bond_check_admissibility (slave_ : Z) (eth_dst : list Z) (tags : Z) : bm (bond_verdict * Z) :=
  slave ← bond_slave_lookup slave_;
  b ← get;
  match b_lacp b with
  | LACP_NEGOTIATED =>
      p ← bderef slave; s ← bload p; mret (if bs_enabled s then BV_ACCEPT else BV_DROP, tags)
  | LACP_CONFIGURED => mret (BV_DROP, tags)
  | LACP_DISABLED =>
      if eth_addr_is_multicast eth_dst then
        t ← bond_get_active_slave_tag;
        q ← bond_slave_lookup slave_;
        if negb (bool_decide (b_active b = q)) then mret (BV_DROP, Z.lor tags t)
        else admit_by_mode slave (Z.lor tags t)
      else admit_by_mode slave tags
  end.

(** ** Rebalancing *)

Definition bond_account (f : flow) (vlan n_bytes : Z) : bm unit :=
  b ← get;
  if bond_is_balanced b then
    i ← lookup_bond_entry f vlan; store_entry i (fun e => set_etx (u64 (e_tx e + n_bytes)) e)
  else mret tt.

Definition bond_shift_load (i to : nat) (set : tag_set) : bm tag_set :=
  e ← load_entry i;
  from ← bderef (e_slave e);
  let delta := e_tx e in
  _ ← bstore from (fun s => set_btx (u64 (bs_tx s - delta)) s);
  _ ← bstore to (fun s => set_btx (u64 (bs_tx s + delta)) s);
  let set := tag_set_add set (e_tag e) in
  _ ← store_entry i (set_eslave (Some to));
  t ← draw_tag;
  _ ← store_entry i (set_etag t);
  mret set.

(** Doubles: conversion from uint64_t, and the constant 0.1. *)
Definition double (z : Z) : spec_float := binary_normalize 53 1024 z 0 false.
Definition tenth : spec_float := S754_finite false 7205759403792794 (-56).
Definition ddiv (x y : spec_float) : spec_float := SFdiv 53 1024 x y.
Definition dsub (x y : spec_float) : spec_float := SFsub 53 1024 x y.

Definition ratio_drops (from_tx to_tx delta : Z) : bool :=
  let old_ratio := ddiv (double from_tx) (double to_tx) in
  let new_ratio := ddiv (double (u64 (from_tx - delta))) (double (u64 (to_tx + delta))) in
  SFltb tenth (dsub old_ratio new_ratio).

Fixpoint first_migratable (from_tx to_tx_bytes : Z) (entries : list nat) : bm (option nat) :=
  match entries with
  | [] => mret None
  | i :: rest =>
      if to_tx_bytes =? 0 then mret (Some i)
      else
        e ← load_entry i;
        if ratio_drops from_tx to_tx_bytes (e_tx e) then mret (Some i)
        else first_migratable from_tx to_tx_bytes rest
  end.

Definition choose_entry_to_migrate (from : nat) (to_tx_bytes : Z) : bm (option nat) :=
  s ← bload from;
  if (length (bs_entries s) <=? 1)%nat then mret None
  else first_migratable (bs_tx s) to_tx_bytes (bs_entries s).

(** The place of a slave that carries [tx] in a list. *)
Fixpoint insert_at_load (p : nat) (tx : Z) (bals : list nat) : bm (list nat) :=
  match bals with
  | [] => mret [p]
  | q :: rest =>
      s ← bload q;
      if bs_tx s <? tx then mret (p :: bals) else rest ← insert_at_load p tx rest; mret (q :: rest)
  end.

Definition insert_bal (p : nat) (bals : list nat) : bm (list nat) :=
  s ← bload p; insert_at_load p (bs_tx s) bals.

Definition without (p : nat) (l : list nat) : list nat := filter (fun q => q <> p) l.

Definition reinsert_bal (bals : list nat) (p : nat) : bm (list nat) := insert_bal p (without p bals).

(** The first loop over the slaves, the one over the entries, and the second over the slaves. *)
Definition clear_load (p : nat) (_ : unit) : bm unit :=
  _ ← bstore p (set_btx 0); bstore p (set_entries []).

Definition count_entry (i : nat) (_ : unit) : bm unit :=
  e ← load_entry i;
  match e_slave e with
  | Some p =>
      if negb (e_tx e =? 0) then
        _ ← bstore p (fun s => set_btx (u64 (bs_tx s + e_tx e)) s);
        bstore p (fun s => set_entries (bs_entries s ++ [i]) s)
      else mret tt
  | None => mret tt
  end.

Definition add_bal (p : nat) (bals : list nat) : bm (list nat) :=
  s ← bload p; if bs_enabled s then insert_bal p bals else mret bals.

(** The while loop: a round moves an entry, or gives up a slave. *)
Fixpoint shift_loop (fuel : nat) (bals : list nat) (set : tag_set) : bm tag_set :=
  match bals with
  | [] | [_] => mret set
  | from :: rest =>
      match fuel with
      | O => fails Endless
      | S fuel =>
          let to := List.last rest from in
          sf ← bload from;
          st ← bload to;
          let overload := u64 (bs_tx sf - bs_tx st) in
          if (overload <? Z.shiftr (bs_tx st) 5) || (overload <? 100000) then mret set
          else
            e ← choose_entry_to_migrate from (bs_tx st);
            match e with
            | Some i =>
                set ← bond_shift_load i to set;
                _ ← bstore from (fun s => set_entries (without i (bs_entries s)) s);
                bals ← reinsert_bal bals from;
                bals ← reinsert_bal bals to;
                shift_loop fuel bals set
            | None => shift_loop fuel rest set
            end
      end
  end.

Definition age_entry (i : nat) (_ : unit) : bm unit :=
  _ ← store_entry i (fun e => set_etx (e_tx e / 2) e);
  e ← load_entry i;
  if e_tx e =? 0 then store_entry i (set_eslave None) else mret tt.

Definition bond_rebalance (tags : tag_set) : bm tag_set :=
  b ← get;
  if negb (bond_is_balanced b) || (w_now w <? b_next_rebalance b) then mret tags
  else
    _ ← bmodify (with_next_rebalance (w_now w + b_interval b));
    _ ← for_each_bslave clear_load tt;
    _ ← for_each_entry count_entry tt;
    bals ← for_each_bslave add_bal [];
    tags ← shift_loop (n_entries + length bals) bals tags;
    _ ← for_each_entry age_entry tt;
    mret tags.

(** ** Commands

    The commands that change a bond, once bond_find has found it; each returns its reply. *)

Definition bond_lookup_slave (name : string) : bm (option nat) :=
  b ← get; ps ← lift (sm_nodes (b_slaves b)); search_slaves (fun s => String.eqb (bs_name s) name) ps.

(** [hash] is the value of atoi, [None] if the argument is not all digits. *)
Definition bond_unixctl_migrate (hash : option Z) (slave_s : string) : bm string :=
  b ← get;
  if negb (bool_decide (b_balance b = BM_SLB)) then mret "not an SLB bond"%string
  else
    match hash with
    | None => mret "bad hash"%string
    | Some n =>
        slave ← bond_lookup_slave slave_s;
        match slave with
        | None => mret "no such slave"%string
        | Some p =>
            s ← bload p;
            if negb (bs_enabled s) then mret "cannot migrate to disabled slave"%string
            else
              let i := Z.to_nat (Z.land n BOND_MASK) in
              e ← load_entry i;
              _ ← bmodify (fun b => with_unixctl (tag_set_add (b_unixctl b) (e_tag e)) b);
              _ ← store_entry i (set_eslave (Some p));
              t ← draw_tag;
              _ ← store_entry i (set_etag t);
              mret "migrated"%string
        end
    end.

Definition bond_unixctl_set_active_slave (slave_s : string) : bm string :=
  slave ← bond_lookup_slave slave_s;
  match slave with
  | None => mret "no such slave"%string
  | Some p =>
      s ← bload p;
      b ← get;
      if negb (bs_enabled s) then mret "cannot make disabled slave active"%string
      else if bool_decide (b_active b = Some p) then mret "no change"%string
      else
        t ← bond_get_active_slave_tag;
        _ ← bmodify (fun b => with_unixctl (tag_set_add (b_unixctl b) t) b);
        _ ← bmodify (with_active (Some p));
        t ← draw_tag;
        _ ← bstore p (set_btag t);
        _ ← bmodify (with_send true);
        mret "done"%string
  end.

Definition enable_slave (slave_s : string) (enable : bool) : bm string :=
  slave ← bond_lookup_slave slave_s;
  match slave with
  | None => mret "no such slave"%string
  | Some p =>
      b ← get;
      u ← enable_slave_in p enable (b_unixctl b);
      _ ← bmodify (with_unixctl u);
      mret (if enable then "enabled"%string else "disabled"%string)
  end.

Definition bond_unixctl_enable_slave (slave_s : string) : bm string := enable_slave slave_s true.
Definition bond_unixctl_disable_slave (slave_s : string) : bm string := enable_slave slave_s false.

(** bond_unixctl_hash on the numbers its arguments stand for. *)
Definition bond_unixctl_hash (mac : list Z) (vlan basis : Z) : Z := Z.land (bond_hash_src mac (u16 vlan) basis) BOND_MASK.

(** ** The bond of a bundle (ofproto/ofproto-dpif.c) *)

(** bundle_send_learning_packets of ofproto/ofproto-dpif.c: [macs] are the addresses and VLANs
    learned on other bundles; the packets with the ports they go out on. *)
Fixpoint bundle_send_learning_packets (macs : list (list Z * Z)) : bm (list (list Z * Z)) :=
  match macs with
  | [] => mret []
  | e :: macs =>
      x ← bond_compose_learning_packet e.1 e.2; xs ← bundle_send_learning_packets macs; mret (x :: xs)
  end.

(** The loop over the ports of bundle_run. *)
Fixpoint bundle_enable (ports : list (Z * bool)) : bm unit :=
  match ports with
  | [] => mret tt
  | x :: ports => _ ← bond_slave_set_may_enable x.1 x.2; bundle_enable ports
  end.

(** bundle_run of a bundle with a bond, after lacp_run; [status] is lacp_status's answer. *)
Definition bundle_run (ports : list (Z * bool)) (status : lacp_status_t) (macs : list (list Z * Z)) (set : tag_set)
  : bm (tag_set * list (list Z * Z)) :=
  _ ← bundle_enable ports;
  r ← bond_run set status;
  send ← bond_should_send_learning_packets;
  packets ← (if send : bool then bundle_send_learning_packets macs else mret []);
  mret (r.1, packets).

End operations.
