(* ===== verification/BondRep.v ===== *)
(** * Bonding: what each function does (lib/bond.c)

    The invariant of a bond, [bond_rep], and for every function of Bond.v a lemma that it
    returns, keeps the invariant, and what it changes.  The slaves are the list that the hash
    map stands for, in its order of iteration. *)
From stdpp Require Import strings.
From S2P Require Import Prelude Hash Hmap Tag Flow SlaveMap Lacp Bond.

Local Open Scope Z_scope.

#[local] Opaque hash_pointer.

Abbreviation bslaves := (list (nat * bond_slave)).

(** ** Tags *)

(** A tag that tag_create_random gives. *)
Definition good_tag (t : Z) : Prop := word t /\ tag_is_valid t = true.

(** A set that only words were added to, and one that covers a word. *)
Definition set_good (s : tag_set) : Prop := exists a, set_ok s a /\ Forall word a.
Definition in_set (t : Z) (s : tag_set) : Prop := exists a, set_ok s a /\ Forall word a /\ t ∈ a.

(** Everything a set covers is covered by another. *)
Definition set_le (s s' : tag_set) : Prop := forall t, in_set t s -> in_set t s'.

#[export] Instance set_le_preorder : PreOrder set_le.
Proof. split; [by intros s t|]. intros s1 s2 s3 H1 H2 t Ht. by apply H2, H1. Qed.

Lemma in_set_good t s : in_set t s -> set_good s.
Proof. intros (a & ? & ? & _). by exists a. Qed.

Lemma set_add_good s t : set_good s -> word t -> set_good (tag_set_add s t).
Proof.
  intros (a & Hs & Ha) Ht. exists (a ++ [t]). split; [by apply add_ok|]. apply Forall_app. split; [done|by constructor].
Qed.

Lemma set_add_le s t : word t -> set_le s (tag_set_add s t).
Proof.
  intros Ht u (a & Hs & Ha & Hu). exists (a ++ [t]). split_and!; [by apply add_ok| |apply elem_of_app; by left].
  apply Forall_app. split; [done|by constructor].
Qed.

Lemma set_add_in s t : set_good s -> word t -> in_set t (tag_set_add s t).
Proof.
  intros (a & Hs & Ha) Ht. exists (a ++ [t]). split_and!; [by apply add_ok| |apply elem_of_app; right; by left].
  apply Forall_app. split; [done|by constructor].
Qed.

Lemma set_init_good : set_good tag_set_init.
Proof. exists []. split; [apply init_ok|done]. Qed.

Lemma set_good_words s : set_good s -> Forall word (tags s).
Proof. intros (a & [] & _). done. Qed.

Lemma set_adds_good l s : set_good s -> Forall word l ->
  set_good (fold_left tag_set_add l s) /\ set_le s (fold_left tag_set_add l s).
Proof.
  intros Hs Hl. revert s Hs. induction Hl as [|t l Ht _ IH]; intros s Hs; cbn [fold_left]; [done|].
  destruct (IH (tag_set_add s t) (set_add_good s t Hs Ht)) as [? ?]. split; [done|].
  transitivity (tag_set_add s t); [by apply set_add_le|done].
Qed.

Lemma set_union_good s o : set_good s -> set_good o ->
  set_good (tag_set_union s o) /\ set_le s (tag_set_union s o).
Proof. intros Hs Ho. apply set_adds_good; [done|by apply set_good_words]. Qed.

Lemma set_union_in s o : set_good s -> set_le o (tag_set_union s o).
Proof.
  intros (a & Hs & Ha) t (b & Ho & Hb & Ht). exists (a ++ b). split_and!.
  - apply (member_of_words _ _ _ _) with (2 := Ho). apply adds_ok; [done|by destruct Ho].
  - by apply Forall_app.
  - apply elem_of_app. by right.
Qed.

Lemma intersects_own t ts : good_tag t -> word ts -> covers ts t -> tag_intersects t ts = true.
Proof.
  intros [Hw Hv] Hts Hc. unfold tag_intersects, tag_is_valid, covers in *. rewrite (Z.land_comm t ts), Hc.
  apply andb_true_iff in Hv as [Hv _]. done.
Qed.

(** A flow is revalidated for each of its tags that is in the set. *)
Lemma in_set_revalidates t s ts : in_set t s -> good_tag t -> word ts -> covers ts t -> tag_set_intersects s ts = true.
Proof. intros (a & Hs & Ha & Ht) Hg Hts Hc. eapply ok_intersects; [done..|]. by apply intersects_own. Qed.

(** ** The invariant *)

(** What the system has to do: tags are tags, and a random choice of one of [n] is one. *)
Record world_ok (w : world) : Prop := {
  wo_tag : forall i, good_tag (w_tag w i);
  wo_range : forall i n, (0 < n)%nat -> (w_range w i n < n)%nat
}.

Definition stag_ok (s : bond_slave) : Prop := word (bs_tag s) /\ (bs_enabled s = true -> good_tag (bs_tag s)).

Record entry_ok (ps : list nat) (e : bond_entry) : Prop := {
  eo_slave : forall p, e_slave e = Some p -> p ∈ ps;
  eo_word : word (e_tag e);
  eo_tag : e_slave e <> None -> good_tag (e_tag e);
  eo_tx : 0 <= e_tx e < 2 ^ 64
}.

(** The hash table is there in every mode but active-backup. *)
Definition hash_ok (mode : bond_mode) (h : option (list bond_entry)) (ps : list nat) : Prop :=
  match h with
  | None => mode = BM_AB
  | Some es => mode <> BM_AB /\ length es = n_entries /\ Forall (entry_ok ps) es
  end.

(** The members besides the slaves; [ps] are the addresses of the slaves. *)
Record fields_ok (name : option string) (mode : bond_mode) (active : option nat) (h : option (list bond_entry))
    (t1 t2 : Z) (u : tag_set) (ps : list nat) : Prop := {
  fo_name : name <> None;
  fo_active : forall p, active = Some p -> p ∈ ps;
  fo_hash : hash_ok mode h ps;
  fo_no_slaves : good_tag t1;
  fo_stb : good_tag t2;
  fo_unixctl : set_good u
}.

Definition base (b : bond) (ps : list nat) : Prop :=
  fields_ok (b_name b) (b_balance b) (b_active b) (b_hash b) (b_no_slaves_tag b) (b_stb_tag b) (b_unixctl b) ps.

Record bond_rep (b : bond) (L : bslaves) : Prop := {
  br_base : base b L.*1;
  br_slaves : sm_rep (b_slaves b) L;
  br_tags : Forall (fun x => stag_ok x.2) L
}.

(** The members that the functions on slaves leave alone. *)
Definition bconf (b : bond) : bond :=
  MkBond (b_name b) sm_empty (b_balance b) (b_active b) (b_no_slaves_tag b) (b_updelay b) (b_downdelay b)
    (b_lacp b) false (b_basis b) (b_hash b) (b_interval b) (b_next_rebalance b) (b_send b) (b_stb_tag b)
    (b_next_fake b) (b_unixctl b) 0.

Lemma bconf_base b b' ps : bconf b' = bconf b -> base b ps -> base b' ps.
Proof. unfold base. destruct b, b'. cbn. intros [=]. by subst. Qed.

Lemma fields_ok_mono name mode a h t1 t2 u ps ps' :
  (forall p, p ∈ ps -> p ∈ ps') -> fields_ok name mode a h t1 t2 u ps -> fields_ok name mode a h t1 t2 u ps'.
Proof.
  intros Hsub []. split; try done; [eauto|]. destruct h; [|done]. destruct fo_hash0 as (? & ? & He).
  split_and!; [done..|]. eapply Forall_impl; [exact He|]. intros e []. split; eauto.
Qed.

(** ** Memory *)

Lemma on_bslaves_ok {B} (m : cstate (slave_map bond_slave) B) b x sm :
  m (b_slaves b) = Ret (x, sm) -> on_bslaves m b = Ret (x, with_bslaves sm b).
Proof. intros E. unfold on_bslaves. by rewrite E. Qed.

Lemma on_bslaves_read {B} (m : cstate (slave_map bond_slave) B) b x :
  m (b_slaves b) = Ret (x, b_slaves b) -> on_bslaves m b = Ret (x, b).
Proof. intros E. rewrite (on_bslaves_ok _ _ _ _ E). by destruct b. Qed.

Lemma bload_ok b L p s : sm_rep (b_slaves b) L -> (p, s) ∈ L -> bload p b = Ret (s, b).
Proof. intros Hr Hin. apply on_bslaves_read. by eapply sm_load_ok. Qed.

Lemma bload_mid b L1 L2 p s : sm_rep (b_slaves b) (L1 ++ (p, s) :: L2) -> bload p b = Ret (s, b).
Proof. intros Hr. eapply bload_ok; [done|]. apply elem_of_app. right. by left. Qed.

Lemma bstore_ok b L1 L2 p s f :
  sm_rep (b_slaves b) (L1 ++ (p, s) :: L2) -> bs_aux (f s) = bs_aux s -> bs_hash (f s) = bs_hash s ->
  exists sm, bstore p f b = Ret (tt, with_bslaves sm b) /\ sm_rep sm (L1 ++ (p, f s) :: L2).
Proof.
  intros Hr Ha Hh. destruct (sm_modify_ok (b_slaves b) L1 L2 p s f Hr Ha Hh) as (sm & E & Hr' & _).
  exists sm. split; [|done]. by apply on_bslaves_ok.
Qed.

(** One step of a sequence, by what it is. *)
Ltac bstep E := rewrite (cstate_bind_step _ _ _ _ _ E).
Ltac bget := match goal with |- context [(get ≫= _) ?b] => rewrite (cstate_bind_step get _ b b b eq_refl) end.
Ltac bassoc := rewrite cstate_bind_assoc.
Ltac bmod := match goal with |- context [(bmodify ?f ≫= _) ?b] =>
  rewrite (cstate_bind_step (bmodify f) _ b tt (f b) eq_refl) end.
Ltac bloads Hr := match goal with |- context [(bload ?p ≫= _) ?b] =>
  rewrite (cstate_bind_step _ _ _ _ _ (bload_mid b _ _ p _ Hr)) end.
Ltac bret := match goal with |- context [(mret ?x ≫= _) ?b] =>
  rewrite (cstate_bind_step (mret x) _ b x b eq_refl) end.
Ltac bstores Hr :=
  match goal with
  | |- context [(bstore ?p ?f ≫= _) ?b] =>
      let sm := fresh "sm" in let E := fresh "E" in let Hr' := fresh "Hr" in
      destruct (bstore_ok b _ _ p _ f Hr eq_refl eq_refl) as (sm & E & Hr');
      rewrite (cstate_bind_step _ _ _ _ _ E); clear E Hr; rename Hr' into Hr
  | |- context [bstore ?p ?f ?b] =>
      let sm := fresh "sm" in let E := fresh "E" in let Hr' := fresh "Hr" in
      destruct (bstore_ok b _ _ p _ f Hr eq_refl eq_refl) as (sm & E & Hr');
      rewrite E; clear E Hr; rename Hr' into Hr
  end.

Lemma for_each_bslave_ok {B} (body : nat -> B -> bm B) x b L :
  sm_rep (b_slaves b) L -> for_each_bslave body x b = each body L.*1 x b.
Proof.
  intros Hr. unfold for_each_bslave. bget.
  by rewrite (cstate_bind_step (lift (sm_nodes (b_slaves b))) _ b L.*1 b) by (unfold lift; by rewrite (sm_nodes_ok _ _ Hr)).
Qed.

(** ** Functions on one slave *)

Lemma draw_tag_ok w b : draw_tag w b = Ret (w_tag w (b_draws b), drawn b).
Proof. done. Qed.

Definition enabled_slave (w : world) (d : nat) (enable : bool) (s : bond_slave) : bond_slave :=
  let s' := set_delay LLONG_MAX s in
  if Bool.eqb enable (bs_enabled s) then s'
  else if enable then set_btag (w_tag w d) (set_enabled true s') else set_enabled false s'.

Definition enabled_bond (enable : bool) (s : bond_slave) (b : bond) : bond :=
  if Bool.eqb enable (bs_enabled s) then b
  else
    let b := if enable then drawn b else b in
    if bool_decide (b_balance b = BM_STABLE) then with_revalidate true b else b.

Definition enabled_tags (enable : bool) (s : bond_slave) (tags : tag_set) : tag_set :=
  if negb enable && bs_enabled s then tag_set_add tags (bs_tag s) else tags.

Lemma bond_enable_slave_ok w enable tags b L1 L2 p s :
  sm_rep (b_slaves b) (L1 ++ (p, s) :: L2) ->
  exists sm, bond_enable_slave w p enable tags b
             = Ret (enabled_tags enable s <$> tags, with_bslaves sm (enabled_bond enable s b))
    /\ sm_rep sm (L1 ++ (p, enabled_slave w (b_draws b) enable s) :: L2).
Proof.
  intros Hr. unfold bond_enable_slave, enabled_slave, enabled_bond, enabled_tags. bstores Hr. bloads Hr.
  cbn [bs_enabled set_delay].
  destruct enable, (bs_enabled s); cbn [Bool.eqb negb andb]; try by (exists sm; split; [by destruct tags|done]).
  - bstores Hr. bassoc. bstep (draw_tag_ok w (with_bslaves sm0 (with_bslaves sm b))). bassoc. bstores Hr.
    bret. bget. cbn [b_balance with_bslaves drawn].
    case_bool_decide; [bmod|bret]; (eexists; split; [|exact Hr]); by destruct tags.
  - bstores Hr. bret. bget. cbn [b_balance with_bslaves].
    case_bool_decide; [bmod|bret]; (eexists; split; [|exact Hr]); destruct tags; by destruct b.
Qed.

Lemma enable_slave_in_ok w enable tags b L1 L2 p s :
  sm_rep (b_slaves b) (L1 ++ (p, s) :: L2) ->
  exists sm, enable_slave_in w p enable tags b
             = Ret (enabled_tags enable s tags, with_bslaves sm (enabled_bond enable s b))
    /\ sm_rep sm (L1 ++ (p, enabled_slave w (b_draws b) enable s) :: L2).
Proof.
  intros Hr. destruct (bond_enable_slave_ok w enable (Some tags) b L1 L2 p s Hr) as (sm & E & Hr').
  exists sm. split; [|done]. unfold enable_slave_in. by bstep E.
Qed.

Lemma enabled_bond_conf e s b : bconf (enabled_bond e s b) = bconf b.
Proof. unfold enabled_bond. destruct (Bool.eqb _ _), e; try done; by case_bool_decide. Qed.

Lemma enabled_bond_slaves e s t sm sm' b :
  with_bslaves sm' (enabled_bond e (set_delay t s) (with_bslaves sm b)) = with_bslaves sm' (enabled_bond e s b).
Proof. unfold enabled_bond. cbn [bs_enabled set_delay]. by destruct (Bool.eqb _ _), e, b as [? ? []]. Qed.

Lemma enabled_slave_tag_ok w d e s : world_ok w -> stag_ok s -> stag_ok (enabled_slave w d e s).
Proof.
  intros Hw Hs. unfold enabled_slave. destruct (Bool.eqb e (bs_enabled s)); [done|].
  destruct e; [|by destruct Hs]. split; cbn; [apply Hw|by intros _; apply Hw].
Qed.

Lemma enabled_tags_good e s tags : stag_ok s -> set_good tags ->
  set_good (enabled_tags e s tags) /\ set_le tags (enabled_tags e s tags).
Proof.
  intros [Hs _] Ht. unfold enabled_tags. destruct (_ && _); [|done].
  split; [by apply set_add_good|by apply set_add_le].
Qed.

(** *** The state of a link *)

Definition link_up (w : world) (s : bond_slave) : bool := w_carrier w (bs_netdev s) && bs_may_enable s.

Definition wait_for (b : bond) (up : bool) : Z :=
  if negb (bool_decide (b_lacp b = LACP_DISABLED)) then 0 else if up then b_updelay b else b_downdelay b.

(** The time at which the slave changes, after the test of its link. *)
Definition expires_at (w : world) (b : bond) (s : bond_slave) : Z :=
  let up := link_up w s in
  if negb (Bool.eqb (Bool.eqb up (bs_enabled s)) (bs_delay s =? LLONG_MAX)) then
    if Bool.eqb up (bs_enabled s) then LLONG_MAX else w_now w + wait_for b up
  else bs_delay s.

Definition fires (w : world) (b : bond) (s : bond_slave) : bool := expires_at w b s <=? w_now w.

Definition link_slave (w : world) (b : bond) (s : bond_slave) : bond_slave :=
  let s' := set_delay (expires_at w b s) s in
  if fires w b s then enabled_slave w (b_draws b) (link_up w s) s' else s'.

Definition link_bond (w : world) (s : bond_slave) (b : bond) : bond :=
  if fires w b s then enabled_bond (link_up w s) s b else b.

Definition link_tags (w : world) (b : bond) (s : bond_slave) (tags : tag_set) : tag_set :=
  if fires w b s then enabled_tags (link_up w s) s tags else tags.

Lemma set_delay_same s : set_delay (bs_delay s) s = s.
Proof. by destruct s. Qed.

Lemma bond_link_status_update_ok w tags b L1 L2 p s :
  sm_rep (b_slaves b) (L1 ++ (p, s) :: L2) ->
  exists sm, bond_link_status_update w p tags b = Ret (link_tags w b s tags, with_bslaves sm (link_bond w s b))
    /\ sm_rep sm (L1 ++ (p, link_slave w b s) :: L2).
Proof.
  intros Hr. unfold bond_link_status_update. bloads Hr. bget.
  assert (exists sm, (if negb (Bool.eqb (Bool.eqb (link_up w s) (bs_enabled s)) (bs_delay s =? LLONG_MAX)) then
         if Bool.eqb (link_up w s) (bs_enabled s) then bstore p (set_delay LLONG_MAX)
         else bstore p (set_delay (w_now w + wait_for b (link_up w s)))
       else mret tt) b = Ret (tt, with_bslaves sm b)
     /\ sm_rep sm (L1 ++ (p, set_delay (expires_at w b s) s) :: L2)) as (sm & E & Hs).
  { unfold expires_at. destruct (negb _); [destruct (Bool.eqb (link_up w s) (bs_enabled s))|];
      [bstores Hr; eexists; split; [done|exact Hr]..|].
    exists (b_slaves b). rewrite set_delay_same. split; [by destruct b|done]. }
  bstep E. bloads Hs. cbn [bs_delay set_delay]. unfold link_slave, link_bond, link_tags.
  fold (fires w b s). destruct (fires w b s); [|by exists sm].
  destruct (enable_slave_in_ok w (link_up w s) tags (with_bslaves sm b) _ _ _ _ Hs) as (sm' & E' & Hs').
  exists sm'. split; [|exact Hs']. unfold link_up in E' at 1. rewrite E'. by rewrite enabled_bond_slaves.
Qed.

(** What the slave's client set, and the load. *)
Definition ident (s : bond_slave) : Z * Z * Z * string * bool * list nat * Z * Z :=
  (bs_aux s, bs_hash s, bs_netdev s, bs_name s, bs_may_enable s, bs_entries s, bs_tx s, bs_stb_id s).

(** A slave after the loop of bond_run, from what it was before. *)
Record linked (w : world) (b : bond) (s s' : bond_slave) : Prop := {
  ln_ident : ident s' = ident s;
  ln_enabled : bs_enabled s' = if fires w b s then link_up w s else bs_enabled s;
  ln_delay : bs_delay s' = if fires w b s then LLONG_MAX else expires_at w b s;
  ln_tag : bs_tag s' = bs_tag s \/ bs_enabled s = false /\ bs_enabled s' = true
}.

Lemma linked_link w b s n : linked w b s (set_change_seq n (link_slave w b s)).
Proof.
  unfold link_slave, enabled_slave. destruct (fires w b s) eqn:Ef; cbn [bs_enabled set_delay].
  - destruct (Bool.eqb (link_up w s) (bs_enabled s)) eqn:E; [apply eqb_prop in E|apply eqb_false_iff in E].
    + split; cbn; rewrite ?Ef; [done..|by left].
    + destruct (link_up w s) eqn:Eu, (bs_enabled s) eqn:Ee; try done;
        (split; cbn; rewrite ?Ef, ?Eu; [done..|]); [by right|by left].
  - split; cbn; rewrite ?Ef; [done..|by left].
Qed.

Lemma fires_conf w b b' s : bconf b' = bconf b -> expires_at w b' s = expires_at w b s.
Proof. destruct b, b'. cbn. intros [=]. by subst. Qed.

Lemma linked_conf w b b' s s' : bconf b' = bconf b -> linked w b' s s' -> linked w b s s'.
Proof.
  intros E []. pose proof (fires_conf w b b' s E) as Ee. unfold fires in *. rewrite Ee in *. by split.
Qed.

(** Two lists of slaves at the same addresses. *)
Definition slaves2 (R : bond_slave -> bond_slave -> Prop) (L L' : bslaves) : Prop :=
  Forall2 (fun x y => x.1 = y.1 /\ R x.2 y.2) L L'.

Lemma slaves2_app R L L' p s s' : slaves2 R L L' -> R s s' -> slaves2 R (L ++ [(p, s)]) (L' ++ [(p, s')]).
Proof. intros. apply Forall2_app; [done|]. by constructor. Qed.

Lemma slaves2_mono (R S : bond_slave -> bond_slave -> Prop) L L' :
  (forall s s', R s s' -> S s s') -> slaves2 R L L' -> slaves2 S L L'.
Proof. intros H HL. eapply Forall2_impl; [exact HL|]. intros x y []. auto. Qed.

Lemma slaves2_and (R S : bond_slave -> bond_slave -> Prop) L L' :
  slaves2 R L L' -> slaves2 S L L' -> slaves2 (fun s s' => R s s' /\ S s s') L L'.
Proof.
  unfold slaves2. induction 1 as [|x y L L' [E Hxy] _ IH]; intros HS; [constructor|].
  apply Forall2_cons in HS as [[_ ?] HS]. constructor; [done|by apply IH].
Qed.

Lemma slaves2_ptrs R L L' : slaves2 R L L' -> L'.*1 = L.*1.
Proof. induction 1 as [|x y ? ? []]; cbn; congruence. Qed.

Lemma slaves2_fst R L L' p s : slaves2 R L L' -> (p, s) ∈ L -> exists s', (p, s') ∈ L' /\ R s s'.
Proof.
  induction 1 as [|[] [] L L' [] _ IH]; [by intros ?%not_elem_of_nil|]. cbn in *. subst.
  intros [[= -> ->]|Hin]%elem_of_cons; [eexists; split; [by left|done]|].
  destruct (IH Hin) as (s' & ? & ?). exists s'. split; [by right|done].
Qed.

Lemma slaves2_snd R L L' p s' : slaves2 R L L' -> (p, s') ∈ L' -> exists s, (p, s) ∈ L /\ R s s'.
Proof.
  induction 1 as [|[] [] L L' [] _ IH]; [by intros ?%not_elem_of_nil|]. cbn in *. subst.
  intros [[= -> ->]|Hin]%elem_of_cons; [eexists; split; [by left|done]|].
  destruct (IH Hin) as (s & ? & ?). exists s. split; [by right|done].
Qed.

Lemma link_tags_good w b s tags : stag_ok s -> set_good tags ->
  set_good (link_tags w b s tags) /\ set_le tags (link_tags w b s tags).
Proof. intros Hs Ht. unfold link_tags. destruct (fires w b s); [by apply enabled_tags_good|done]. Qed.

(** A slave that is disabled has its tag added. *)
Lemma link_tags_in w b s s' tags : linked w b s s' -> stag_ok s -> set_good tags ->
  bs_enabled s = true -> bs_enabled s' = false -> in_set (bs_tag s) (link_tags w b s tags).
Proof.
  intros [_ He _ _] [Hs _] Ht E E'. unfold link_tags, enabled_tags. rewrite E' in He.
  destruct (fires w b s); [|congruence]. rewrite <- He, E. by apply set_add_in.
Qed.

Lemma link_bond_conf w s b : bconf (link_bond w s b) = bconf b.
Proof. unfold link_bond. destruct (fires w b s); [apply enabled_bond_conf|done]. Qed.

Lemma link_slave_tag_ok w b s : world_ok w -> stag_ok s -> stag_ok (link_slave w b s).
Proof. intros. unfold link_slave. destruct (fires w b s); [by apply enabled_slave_tag_ok|done]. Qed.

Lemma link_bond_revalidate w s s' b : linked w b s s' ->
  (b_revalidate b = true -> b_revalidate (link_bond w s b) = true)
  /\ (b_balance b = BM_STABLE -> b_revalidate (link_bond w s b) = false -> bs_enabled s' = bs_enabled s).
Proof.
  intros [_ -> _ _]. unfold link_bond, enabled_bond. destruct (fires w b s); [|done].
  destruct (Bool.eqb (link_up w s) (bs_enabled s)) eqn:E; [by apply eqb_prop in E|].
  destruct b as [? ? []]; destruct (link_up w s); done.
Qed.

(** What holds after the slaves [L] have become [L'] in the loop of bond_run. *)
Record link_spec (w : world) (b0 : bond) (set0 : tag_set) (L L' : bslaves) (set : tag_set) (b : bond) : Prop := {
  lk_conf : bconf b = bconf b0;
  lk_slaves : slaves2 (linked w b0) L L';
  lk_tags : Forall (fun x => stag_ok x.2) L';
  lk_set : set_good set /\ set_le set0 set;
  lk_disabled : slaves2 (fun s s' => bs_enabled s = true -> bs_enabled s' = false -> in_set (bs_tag s) set) L L';
  lk_revalidate : b_revalidate b0 = true -> b_revalidate b = true;
  lk_stable : b_balance b0 = BM_STABLE -> b_revalidate b = false -> slaves2 (fun s s' => bs_enabled s' = bs_enabled s) L L'
}.

Lemma bconf_balance b b' : bconf b' = bconf b -> b_balance b' = b_balance b.
Proof. destruct b, b'. cbn. by intros [=]. Qed.

Lemma link_spec_step w b0 set0 L L' set b p s sm n :
  world_ok w -> stag_ok s -> link_spec w b0 set0 L L' set b ->
  link_spec w b0 set0 (L ++ [(p, s)]) (L' ++ [(p, set_change_seq n (link_slave w b s))])
    (link_tags w b s set) (with_bslaves sm (link_bond w s b)).
Proof.
  intros Hw Hs [H1 H2 H3 [H4 H4'] H5 H6 H7].
  pose proof (linked_link w b s n) as Hl. destruct (link_tags_good w b s set Hs H4) as [Hg Hle].
  destruct (link_bond_revalidate w s _ b Hl) as [Hv1 Hv2].
  split.
  - change (bconf (link_bond w s b) = bconf b0). by rewrite link_bond_conf.
  - apply slaves2_app; [done|]. by eapply linked_conf.
  - apply Forall_app. split; [done|]. constructor; [|done]. cbn. by apply (link_slave_tag_ok w b s).
  - split; [done|]. by transitivity set.
  - apply slaves2_app; [|intros; by eapply link_tags_in].
    eapply slaves2_mono; [|exact H5]. intros x y Hxy ? ?. apply Hle. by apply Hxy.
  - intros. by apply Hv1, H6.
  - intros Hm Hf. change (b_revalidate (link_bond w s b) = false) in Hf.
    assert (b_balance b = BM_STABLE) as Hm' by (by rewrite (bconf_balance _ _ H1)).
    apply slaves2_app; [|by apply Hv2]. apply H7; [done|].
    destruct (b_revalidate b) eqn:E; [|done]. rewrite Hv1 in Hf by done. done.
Qed.

Lemma link_all_ok w set b L :
  world_ok w -> bond_rep b L -> set_good set ->
  exists set' b' L', for_each_bslave (link_one w) set b = Ret (set', b') /\ sm_rep (b_slaves b') L'
    /\ link_spec w b set L L' set' b'.
Proof.
  intros Hw [_ Hr Ht] Hg. rewrite (for_each_bslave_ok _ _ _ _ Hr).
  destruct (each_rel b_slaves (link_one w) (fun L1 L1' x st => link_spec w b set L1 L1' x st) L) with (b := set) (st := b)
    as (set' & b' & L' & E & Hs & Hr' & _); [| |done|by exists set', b', L'].
  - intros L1 L1' p s L2 x st EL Ep Hi Hs. unfold link_one.
    destruct (bond_link_status_update_ok w x st L1' L2 p s Hs) as (sm & E & Hs1). bstep E. bloads Hs1. bstores Hs1.
    assert (stag_ok s) as Hts.
    { rewrite Forall_forall in Ht. apply (Ht (p, s)). subst L. apply elem_of_app. right. by left. }
    do 3 eexists. split; [done|]. split; [|exact Hs1]. exact (link_spec_step _ _ _ _ _ _ _ p s sm0 _ Hw Hts Hi).
  - split; try done; try (intros; by constructor).
Qed.

(** *** The active slave *)

Lemma search_slaves_ok test b L L2 :
  sm_rep (b_slaves b) L -> L2 ⊆ L ->
  search_slaves test L2.*1 b = Ret (fst <$> find_first (fun x => test x.2) L2, b).
Proof.
  intros Hr. induction L2 as [|[p s] L2 IH]; intros Hsub; cbn; [done|].
  bstep (bload_ok b L p s Hr (Hsub _ ltac:(left))). destruct (test s); [done|].
  apply IH. intros x Hx. apply Hsub. by right.
Qed.

(** The first of the slaves that will be enabled soonest. *)
Definition delayed_step (best : option (nat * bond_slave)) (x : nat * bond_slave) : option (nat * bond_slave) :=
  if negb (bs_delay x.2 =? LLONG_MAX) && bs_may_enable x.2 then
    match best with
    | None => Some x
    | Some y => if bs_delay x.2 <? bs_delay y.2 then Some x else best
    end
  else best.

Definition best_delayed (L : bslaves) : option (nat * bond_slave) := foldl delayed_step None L.

Definition chosen (L : bslaves) : option (nat * bond_slave) :=
  match find_first (fun x => bs_enabled x.2) L with Some x => Some x | None => best_delayed L end.

Definition opt_in (x : option (nat * bond_slave)) (L : bslaves) : Prop := forall y, x = Some y -> y ∈ L.

Lemma delayed_step_in acc x L : opt_in acc L -> x ∈ L -> opt_in (delayed_step acc x) L.
Proof.
  unfold delayed_step, opt_in. intros Ha Hx y. destruct (_ && _); [|apply Ha].
  destruct acc as [z|]; [destruct (_ <? _)|]; [intros [= <-]; done|apply Ha|intros [= <-]; done].
Qed.

Lemma delayed_loop_ok b L L2 : forall acc,
  sm_rep (b_slaves b) L -> L2 ⊆ L -> opt_in acc L ->
  each choose_delayed L2.*1 (fst <$> acc) b = Ret (fst <$> foldl delayed_step acc L2, b).
Proof.
  induction L2 as [|[p s] L2 IH]; intros acc Hr Hsub Ha; cbn [fmap list_fmap each foldl fst]; [done|].
  assert ((p, s) ∈ L) as Hin by (apply Hsub; left).
  assert (choose_delayed p (fst <$> acc) b = Ret (fst <$> delayed_step acc (p, s), b)) as E.
  { unfold choose_delayed, delayed_step. bstep (bload_ok b L p s Hr Hin). cbn [snd].
    destruct (_ && _); [|done]. destruct acc as [[q t]|]; [|done]. cbn [fmap option_fmap option_map fst snd].
    bstep (bload_ok b L q t Hr (Ha _ eq_refl)). by destruct (_ <? _). }
  bstep E. apply IH; [done| |by apply delayed_step_in]. intros x Hx. apply Hsub. by right.
Qed.

Lemma foldl_delayed L : forall acc, (forall x, acc = Some x -> negb (bs_delay x.2 =? LLONG_MAX) && bs_may_enable x.2 = true) ->
  forall y, foldl delayed_step acc L = Some y ->
  (acc = Some y \/ y ∈ L) /\ negb (bs_delay y.2 =? LLONG_MAX) && bs_may_enable y.2 = true.
Proof.
  induction L as [|x L IH]; intros acc Ha y; cbn [foldl]; [intros ->; split; [by left|by apply Ha]|].
  intros E. assert (forall z, delayed_step acc x = Some z -> negb (bs_delay z.2 =? LLONG_MAX) && bs_may_enable z.2 = true) as Ha'.
  { unfold delayed_step. intros z. destruct (negb (bs_delay x.2 =? LLONG_MAX) && bs_may_enable x.2) eqn:Ex; [|apply Ha].
    destruct acc as [u|]; [destruct (_ <? _)|]; [intros [= <-]; done|apply Ha|intros [= <-]; done]. }
  destruct (IH _ Ha' y E) as [[E'|Hin] Hy]; (split; [|done]); [|by right; right].
  unfold delayed_step in E'. destruct (_ && _); [|by left].
  destruct acc as [u|]; [destruct (_ <? _)|]; simplify_eq; try (by left); right; left.
Qed.

Lemma best_delayed_elem L y : best_delayed L = Some y ->
  y ∈ L /\ bs_delay y.2 <> LLONG_MAX /\ bs_may_enable y.2 = true.
Proof.
  intros E. destruct (foldl_delayed L None ltac:(done) y E) as [[?|Hin] Hy]; [done|].
  apply andb_true_iff in Hy as [Hy ?]. split_and!; [done| |done]. apply negb_true_iff, Z.eqb_neq in Hy. done.
Qed.

Lemma best_delayed_None L : best_delayed L = None ->
  forall x, x ∈ L -> bs_delay x.2 = LLONG_MAX \/ bs_may_enable x.2 = false.
Proof.
  unfold best_delayed. assert (forall L u, exists v, foldl delayed_step (Some u) L = Some v) as Hs.
  { clear. induction L as [|x L IH]; intros u; cbn [foldl]; [by exists u|]. unfold delayed_step at 2.
    destruct (_ && _); [destruct (_ <? _)|]; apply IH. }
  induction L as [|y L IH]; intros E x Hx; [by apply not_elem_of_nil in Hx|]. cbn [foldl] in E.
  unfold delayed_step at 2 in E. destruct (negb (bs_delay y.2 =? LLONG_MAX) && bs_may_enable y.2) eqn:Ey.
  - destruct (Hs L y) as (v & Ev). congruence.
  - apply elem_of_cons in Hx as [->|Hx]; [|by apply IH]. apply andb_false_iff in Ey as [Ey|Ey]; [left|by right].
    by apply negb_false_iff, Z.eqb_eq in Ey.
Qed.

Lemma chosen_in L : opt_in (chosen L) L.
Proof.
  intros y. unfold chosen. destruct (find_first _ L) as [x|] eqn:E.
  - intros [= <-]. by apply find_first_Some in E as [_ ?].
  - intros Hy. by apply best_delayed_elem in Hy as [? _].
Qed.

Lemma bond_choose_slave_ok b L : sm_rep (b_slaves b) L -> bond_choose_slave b = Ret (fst <$> chosen L, b).
Proof.
  intros Hr. unfold bond_choose_slave. bget.
  rewrite (cstate_bind_step (lift (sm_nodes (b_slaves b))) _ b L.*1 b) by (unfold lift; by rewrite (sm_nodes_ok _ _ Hr)).
  bstep (search_slaves_ok bs_enabled b L L Hr (reflexivity _)). unfold chosen.
  destruct (find_first _ L) as [x|]; [done|]. cbn [fmap option_fmap option_map].
  rewrite (for_each_bslave_ok _ _ _ _ Hr). by apply (delayed_loop_ok b L L None).
Qed.

(** A slave that the choice has enabled before its delay was over. *)
Definition hurried (s s' : bond_slave) : Prop :=
  s' = s \/ (bs_enabled s = false /\ bs_enabled s' = true /\ bs_delay s <> LLONG_MAX /\ bs_delay s' = LLONG_MAX
             /\ bs_may_enable s = true /\ ident s' = ident s).

(** The members that the choice of the active slave leaves alone. *)
Definition aconf (b : bond) : bond := with_active None (with_send false (bconf b)).

Record active_spec (b0 : bond) (set0 : tag_set) (L L' : bslaves) (set : tag_set) (b : bond) : Prop := {
  ac_conf : aconf b = aconf b0;
  ac_rep : sm_rep (b_slaves b) L';
  ac_slaves : slaves2 hurried L L';
  ac_tags : Forall (fun x => stag_ok x.2) L';
  ac_set : set_good set /\ set_le set0 set;
  ac_enabled : forall p, b_active b = Some p -> exists s, (p, s) ∈ L' /\ bs_enabled s = true;
  ac_none : b_active b = None -> forall p s, (p, s) ∈ L' -> bs_enabled s = false;
  ac_first : (exists x, x ∈ L /\ bs_enabled x.2 = true) -> L' = L;
  ac_no_slaves : b_active b0 = None -> b_active b <> None -> in_set (b_no_slaves_tag b0) set;
  ac_revalidate : b_revalidate b0 = true -> b_revalidate b = true;
  ac_stable : b_balance b0 = BM_STABLE -> b_revalidate b = false -> L' = L;
  ac_send : b_active b0 = None -> b_active b <> None -> b_send b = true;
  ac_idle : b_active b = None -> chosen L = None
}.

Lemma slaves2_refl R L : (forall s, R s s) -> slaves2 R L L.
Proof. intros HR. apply Forall2_same_length_lookup_2; [done|]. intros i x y -> [= ->]. done. Qed.

Lemma enabled_bond_aconf e s b : aconf (enabled_bond e s b) = aconf b.
Proof. unfold aconf. by rewrite enabled_bond_conf. Qed.

Lemma enabled_bond_active e s b : b_active (enabled_bond e s b) = b_active b.
Proof. unfold enabled_bond. destruct (Bool.eqb _ _), e; try done; by case_bool_decide. Qed.

Lemma enabled_bond_no_slaves e s b : b_no_slaves_tag (enabled_bond e s b) = b_no_slaves_tag b.
Proof. unfold enabled_bond. destruct (Bool.eqb _ _), e; try done; by case_bool_decide. Qed.

Lemma enabled_bond_revalidate e s b :
  (b_revalidate b = true -> b_revalidate (enabled_bond e s b) = true)
  /\ (e <> bs_enabled s -> b_balance b = BM_STABLE -> b_revalidate (enabled_bond e s b) = true).
Proof.
  unfold enabled_bond. destruct (Bool.eqb e (bs_enabled s)) eqn:E; [apply eqb_prop in E|];
    destruct b as [? ? []], e; try done.
Qed.

Lemma hurried_enabled w d s : bs_enabled s = false -> bs_delay s <> LLONG_MAX -> bs_may_enable s = true ->
  hurried s (enabled_slave w d true s).
Proof. intros He Hd Hm. right. unfold enabled_slave. by rewrite He. Qed.

Lemma slaves2_mid (R : bond_slave -> bond_slave -> Prop) A B p s s' :
  (forall s, R s s) -> R s s' -> slaves2 R (A ++ (p, s) :: B) (A ++ (p, s') :: B).
Proof. intros H1 H2. apply Forall2_app; [by apply slaves2_refl|]. constructor; [done|by apply slaves2_refl]. Qed.

(** The three outcomes of the choice. *)
Lemma active_kept w set b L p s :
  world_ok w -> sm_rep (b_slaves b) L -> Forall (fun x => stag_ok x.2) L -> set_good set -> good_tag (b_no_slaves_tag b) ->
  chosen L = Some (p, s) -> bs_enabled s = true ->
  exists set' b', bond_choose_active_slave w set b = Ret (set', b') /\ active_spec b set L L set' b'.
Proof.
  intros Hw Hr Ht Hg Hn Ec He. pose proof (chosen_in L _ Ec) as Hin. unfold bond_choose_active_slave. bget.
  bstep (bond_choose_slave_ok b L Hr). rewrite Ec. cbn [fmap option_fmap option_map fst]. bmod.
  assert (sm_rep (b_slaves (with_active (Some p) b)) L) as Hr1 by done.
  bstep (bload_ok _ L p s Hr1 Hin). rewrite He. bret. bget. bmod. do 2 eexists. split; [done|].
  split; try done.
  - by apply slaves2_refl; left.
  - cbn. destruct (b_active b); [done|]. destruct Hn. by split; [apply set_add_good|apply set_add_le].
  - cbn. intros q [= <-]. by exists s.
  - cbn. intros -> _. destruct Hn. by apply set_add_in.
Qed.

Lemma active_none w set b L :
  sm_rep (b_slaves b) L -> Forall (fun x => stag_ok x.2) L -> set_good set -> chosen L = None ->
  exists set' b', bond_choose_active_slave w set b = Ret (set', b') /\ active_spec b set L L set' b'.
Proof.
  intros Hr Ht Hg Ec. unfold bond_choose_active_slave. bget.
  bstep (bond_choose_slave_ok b L Hr). rewrite Ec. cbn [fmap option_fmap option_map]. bmod.
  do 2 eexists. split; [done|]. split; try done.
  - by apply slaves2_refl; left.
  - intros _ p s Hin. unfold chosen in Ec. destruct (find_first _ L) eqn:E; [done|].
    rewrite find_first_None in E. by apply (E (p, s)).
Qed.

Lemma active_hurried w set b L p s :
  world_ok w -> sm_rep (b_slaves b) L -> Forall (fun x => stag_ok x.2) L -> set_good set -> good_tag (b_no_slaves_tag b) ->
  chosen L = Some (p, s) -> bs_enabled s = false ->
  exists set' b' L', bond_choose_active_slave w set b = Ret (set', b') /\ active_spec b set L L' set' b'.
Proof.
  intros Hw Hr Ht Hg Hn Ec He. pose proof (chosen_in L _ Ec) as Hin. unfold bond_choose_active_slave. bget.
  bstep (bond_choose_slave_ok b L Hr). rewrite Ec. cbn [fmap option_fmap option_map fst]. bmod.
  assert (sm_rep (b_slaves (with_active (Some p) b)) L) as Hr1 by done.
  bstep (bload_ok _ L p s Hr1 Hin). rewrite He.
  destruct (list_elem_of_split _ _ Hin) as (A & B & ->).
  destruct (enable_slave_in_ok w true set (with_active (Some p) b) A B p s Hr1) as (sm & E & Hs).
  bstep E. bget. bmod. cbn [b_no_slaves_tag with_bslaves]. rewrite enabled_bond_no_slaves.
  assert (bs_delay s <> LLONG_MAX /\ bs_may_enable s = true /\ forall x, x ∈ A ++ (p, s) :: B -> bs_enabled x.2 = false) as (Hd & Hm & Hno).
  { unfold chosen in Ec. destruct (find_first _ _) as [y|] eqn:Ef.
    - simplify_eq. apply find_first_Some in Ef as [Ef _]. cbn in Ef. congruence.
    - apply best_delayed_elem in Ec as (_ & ? & ?). rewrite find_first_None in Ef. done. }
  do 3 eexists. split; [done|]. destruct (enabled_bond_revalidate true s (with_active (Some p) b)) as [Hv1 Hv2].
  split.
  - by destruct b as [? ? []]; cbn; unfold enabled_bond; rewrite He.
  - exact Hs.
  - apply slaves2_mid; [by left|]. by apply hurried_enabled.
  - apply Forall_app in Ht as [? Ht]. apply Forall_cons in Ht as [? ?]. apply Forall_app. split; [done|].
    constructor; [by apply enabled_slave_tag_ok|done].
  - cbn. destruct (b_active b); [done|]. destruct Hn. by split; [apply set_add_good|apply set_add_le].
  - cbn. rewrite enabled_bond_active. intros q [= <-]. eexists. split; [apply elem_of_app; right; by left|].
    unfold enabled_slave. by rewrite He.
  - cbn. by rewrite enabled_bond_active.
  - intros (x & Hx & Ex). by rewrite Hno in Ex.
  - cbn. intros -> _. destruct Hn. by apply set_add_in.
  - done.
  - intros Hb. cbn. rewrite Hv2; [done|by rewrite He|done].
  - done.
  - cbn. by rewrite enabled_bond_active.
Qed.

Lemma bond_choose_active_slave_ok w set b L :
  world_ok w -> sm_rep (b_slaves b) L -> Forall (fun x => stag_ok x.2) L -> set_good set -> good_tag (b_no_slaves_tag b) ->
  exists set' b' L', bond_choose_active_slave w set b = Ret (set', b') /\ active_spec b set L L' set' b'.
Proof.
  intros Hw Hr Ht Hg Hn. destruct (chosen L) as [[p s]|] eqn:Ec; [destruct (bs_enabled s) eqn:He|].
  - destruct (active_kept w set b L p s) as (set' & b' & ? & ?); try done. by exists set', b', L.
  - by apply (active_hurried w set b L p s).
  - destruct (active_none w set b L) as (set' & b' & ? & ?); try done. by exists set', b', L.
Qed.

(** ** bond_run *)

(** A loop that reads the slaves, and one that need only return. *)
Lemma each_fold {B} (body : nat -> B -> bm B) (g : B -> nat * bond_slave -> B) b L :
  sm_rep (b_slaves b) L -> (forall p s x, (p, s) ∈ L -> body p x b = Ret (g x (p, s), b)) ->
  forall x, for_each_bslave body x b = Ret (foldl g x L, b).
Proof.
  intros Hr Hb x. rewrite (for_each_bslave_ok _ _ _ _ Hr). clear Hr.
  revert x. induction L as [|[p s] L IH]; intros x; cbn [fmap list_fmap each foldl fst snd]; [done|].
  bstep (Hb p s x ltac:(left)). apply IH. intros q t y Hq. apply Hb. by right.
Qed.

Lemma set_tags_good L set :
  Forall (fun x => stag_ok x.2) L -> set_good set ->
  let set' := foldl (fun ts (x : nat * bond_slave) => tag_set_add ts (bs_tag x.2)) set L in
  set_good set' /\ set_le set set' /\ forall p s, (p, s) ∈ L -> in_set (bs_tag s) set'.
Proof.
  intros Ht. revert set. induction Ht as [|[p s] L [Hs _] _ IH]; intros set Hg; cbn [foldl].
  { split_and!; [done..|]. by intros p s ?%not_elem_of_nil. }
  destruct (IH (tag_set_add set (bs_tag s)) (set_add_good _ _ Hg Hs)) as (H1 & H2 & H3). split_and!; [done|..].
  - transitivity (tag_set_add set (bs_tag s)); [by apply set_add_le|done].
  - intros q t [[= -> ->]|Hq]%elem_of_cons; [|by eapply H3]. apply H2. by apply set_add_in.
Qed.

(** The hash table after bond_entry_reset. *)
Definition reset_hash (mode : bond_mode) : option (list bond_entry) :=
  if bool_decide (mode = BM_AB) then None else Some (replicate n_entries entry_zero).

Lemma bond_entry_reset_ok w b :
  exists t, bond_entry_reset w b = Ret (tt, with_next_rebalance t (with_hash (reset_hash (b_balance b)) b)).
Proof.
  unfold bond_entry_reset, reset_hash. bget. case_bool_decide; cbn [negb].
  - exists (b_next_rebalance b). by destruct b.
  - bmod. by eexists.
Qed.

Lemma reset_hash_ok mode ps : hash_ok mode (reset_hash mode) ps.
Proof.
  unfold reset_hash, hash_ok. case_bool_decide; [done|]. split_and!; [done..|].
  apply Forall_forall. intros e ->%elem_of_replicate_inv. split; cbn; [done|unfold word; lia|done|lia].
Qed.

(** All flows are to be revalidated. *)
Definition all_tags (b : bond) (L : bslaves) (set : tag_set) : Prop :=
  in_set (b_no_slaves_tag b) set
  /\ if bool_decide (b_balance b = BM_STABLE) then in_set (b_stb_tag b) set
     else forall p s, (p, s) ∈ L -> in_set (bs_tag s) set.

Lemma revalidate_flows_ok w set b L :
  bond_rep b L -> set_good set ->
  exists set' t, revalidate_flows w set b
      = Ret (set', with_next_rebalance t (with_hash (reset_hash (b_balance b)) (with_revalidate false b)))
    /\ set_good set' /\ set_le set set' /\ all_tags b L set'.
Proof.
  intros [[_ _ _ [Hn Hn'] [Hb Hb'] _] Hr Ht] Hg. unfold revalidate_flows. bmod.
  destruct (bond_entry_reset_ok w (with_revalidate false b)) as (t & E). bstep E. bget.
  cbn [b_balance with_next_rebalance with_hash with_revalidate].
  set (b' := with_next_rebalance _ _).
  assert (exists set1, (if negb (bool_decide (b_balance b = BM_STABLE)) then for_each_bslave add_slave_tag set
            else mret (tag_set_add set (b_stb_tag b'))) b' = Ret (set1, b') /\ set_good set1 /\ set_le set set1
          /\ if bool_decide (b_balance b = BM_STABLE) then in_set (b_stb_tag b) set1
             else forall p s, (p, s) ∈ L -> in_set (bs_tag s) set1) as (set1 & E1 & Hg1 & Hle & Hin).
  { case_bool_decide as Hm; cbn [negb].
    - eexists. split; [done|]. by split_and!; [apply set_add_good|apply set_add_le|apply set_add_in].
    - rewrite (each_fold add_slave_tag (fun ts x => tag_set_add ts (bs_tag x.2)) b' L Hr).
      + eexists. split; [done|]. by apply set_tags_good.
      + intros p s x Hx. unfold add_slave_tag. by bstep (bload_ok b' L p s Hr Hx). }
  bstep E1. do 2 eexists. split; [done|]. split_and!.
  - by apply set_add_good.
  - transitivity set1; [done|]. by apply set_add_le.
  - split; [by apply set_add_in|]. case_bool_decide; [by apply set_add_le|].
    intros p s Hx. apply set_add_le; [done|]. by eapply Hin.
Qed.

Lemma fake_stats_ok w b L :
  bond_rep b L -> exists st, bond_update_fake_slave_stats w b = Ret (st, b).
Proof.
  intros [[Hnm _ _ _ _ _] Hr _]. unfold bond_update_fake_slave_stats.
  rewrite (cstate_bind_step _ _ _ _ _ (each_fold (add_stats w) (fun acc x => match w_stats w (bs_netdev x.2) with
        | Some x => MkStats (u64 (rx_packets acc + tx_packets x)) (u64 (tx_packets acc + rx_packets x))
                      (u64 (rx_bytes acc + tx_bytes x)) (u64 (tx_bytes acc + rx_bytes x))
        | None => acc
        end) b L Hr ltac:(intros p s x Hx; unfold add_stats; by bstep (bload_ok b L p s Hr Hx)) _)).
  bget. destruct (b_name b) as [n|]; [|done]. by eexists.
Qed.

Lemma needs_active_ok b L :
  base b L.*1 -> sm_rep (b_slaves b) L ->
  exists need, needs_active b = Ret (need, b)
    /\ if need : bool then forall p s, b_active b = Some p -> (p, s) ∈ L -> bs_enabled s = false
       else exists p s, b_active b = Some p /\ (p, s) ∈ L /\ bs_enabled s = true.
Proof.
  intros Hb Hr. unfold needs_active. bget. destruct (b_active b) as [p|] eqn:Ea; [|by exists true].
  pose proof (fo_active _ _ _ _ _ _ _ _ Hb p Ea) as Hp. apply list_elem_of_fmap in Hp as ([q s] & -> & Hin).
  cbn [fst] in *. bstep (bload_ok b L q s Hr Hin). exists (negb (bs_enabled s)). split; [done|].
  destruct (bs_enabled s) eqn:He; cbn [negb]; [by exists q, s|]. intros p t [= ->] Ht.
  apply (sr_heap _ _ Hr) in Ht, Hin. congruence.
Qed.

(** The step of bond_run that makes sure of an active slave. *)
Definition settle (w : world) (tags : tag_set) : bm tag_set :=
  need ← needs_active; if (need : bool) then bond_choose_active_slave w tags else mret tags.

Lemma settle_ok w set b L :
  world_ok w -> base b L.*1 -> sm_rep (b_slaves b) L -> Forall (fun x => stag_ok x.2) L -> set_good set ->
  exists set' b' L', settle w set b = Ret (set', b') /\ active_spec b set L L' set' b'
    /\ forall p s, b_active b = Some p -> (p, s) ∈ L -> bs_enabled s = true -> b_active b' = Some p /\ L' = L.
Proof.
  intros Hw Hb Hr Ht Hg. unfold settle. destruct (needs_active_ok b L Hb Hr) as (need & E & Hneed). bstep E.
  destruct need.
  - destruct (bond_choose_active_slave_ok w set b L Hw Hr Ht Hg (fo_no_slaves _ _ _ _ _ _ _ _ Hb))
      as (set' & b' & L' & E' & Hs). exists set', b', L'. split_and!; [done..|].
    intros p s Hp Hin He. by rewrite (Hneed p s Hp Hin) in He.
  - destruct Hneed as (p & s & Ea & Hin & He). exists set, b, L. split_and!; [done| |].
    + split; try done; [by apply slaves2_refl; left| |congruence..].
      rewrite Ea. intros q [= <-]. by exists s.
    + done.
Qed.

(** A slave that the loop of bond_run neither enables nor leaves waiting. *)
Definition idle (w : world) (b : bond) (s : bond_slave) : Prop :=
  link_up w s = true -> bs_enabled s = false /\ expires_at w b s = LLONG_MAX.

(** A slave across a call of bond_run: its link, and then perhaps the choice. *)
Definition run_slave (w : world) (b : bond) (s s' : bond_slave) : Prop := exists t, linked w b s t /\ hurried t s'.

Record run_spec (w : world) (status : lacp_status_t) (b0 : bond) (set0 : tag_set) (L L' : bslaves)
    (set : tag_set) (b : bond) : Prop := {
  rn_rep : bond_rep b L';
  rn_set : set_good set /\ set_le set0 set;
  rn_lacp : b_lacp b = status;
  rn_conf : b_balance b = b_balance b0 /\ b_interval b = b_interval b0 /\ b_basis b = b_basis b0
            /\ b_no_slaves_tag b = b_no_slaves_tag b0 /\ b_stb_tag b = b_stb_tag b0
            /\ b_updelay b = b_updelay b0 /\ b_downdelay b = b_downdelay b0;
  rn_slaves : slaves2 (run_slave w (with_lacp status b0)) L L';
  rn_disabled : slaves2 (fun s s' => bs_enabled s = true -> bs_enabled s' = false \/ bs_tag s' <> bs_tag s ->
                           in_set (bs_tag s) set) L L';
  rn_enabled : forall p, b_active b = Some p -> exists s, (p, s) ∈ L' /\ bs_enabled s = true;
  rn_none : b_active b = None -> forall p s, (p, s) ∈ L' -> bs_enabled s = false;
  rn_keeps : forall p s, b_active b0 = Some p -> (p, s) ∈ L -> bs_enabled s = true ->
               b_active b = Some p \/ in_set (bs_tag s) set;
  rn_no_slaves : b_active b0 = None -> b_active b <> None -> in_set (b_no_slaves_tag b0) set;
  rn_revalidate : all_tags b L' set \/ b_lacp b0 = status /\ b_hash b = b_hash b0
                    /\ (b_balance b0 = BM_STABLE -> slaves2 (fun s s' => bs_enabled s' = bs_enabled s) L L');
  rn_unixctl : set_le (b_unixctl b0) set;
  rn_send : b_active b0 = None -> b_active b <> None -> b_send b = true;
  rn_idle : b_active b = None -> forall p s, (p, s) ∈ L -> idle w (with_lacp status b0) s
}.

Lemma aconf_base b b' ps :
  aconf b' = aconf b -> base b ps -> (forall p, b_active b' = Some p -> p ∈ ps) -> base b' ps.
Proof. unfold base. destruct b, b'. cbn. intros [=] [] ?. subst. by split. Qed.

Lemma linked_hurried w b s t s' :
  linked w b s t -> hurried t s' -> bs_enabled s = true ->
  (bs_enabled t = true -> s' = t /\ bs_tag s' = bs_tag s) /\ (bs_enabled t = false -> s' = t).
Proof.
  intros [_ He Hd Ht] Hh Hs. destruct Hh as [->|(H1 & H2 & H3 & _)].
  - split; [|done]. intros Et. split; [done|]. destruct Ht as [->|[? _]]; congruence.
  - exfalso. apply H3. rewrite Hd. destruct (fires w b s); congruence.
Qed.

(** The slaves over the loop and the choice. *)
Lemma run_slaves2 w b1 set L L1 set1 b2 L' set2 b3 :
  link_spec w b1 set L L1 set1 b2 -> active_spec b2 set1 L1 L' set2 b3 ->
  slaves2 (run_slave w b1) L L'
  /\ slaves2 (fun s s' => bs_enabled s = true -> bs_enabled s' = false \/ bs_tag s' <> bs_tag s ->
                in_set (bs_tag s) set2) L L'.
Proof.
  intros [H1 H2 H3 H4 H5 H6 H7] [A1 A2 A3 A4 [A5 A5'] A6 A7 A8 A9 A10 A11 A12 A13].
  clear H3 H6 H7 A2 A4 A6 A7 A8 A9 A10 A11 A12 A13 H1 A1. unfold slaves2 in *.
  revert L' A3. induction H2 as [|x y L L1 [Exy Hl] H2 IH]; intros L' A3;
    inversion A3 as [|? z ? L2 [Eyz Ha] A3']; subst; [by split; constructor|].
  apply Forall2_cons in H5 as [[_ H5] H5']. destruct (IH H5' L2 A3') as [IH1 IH2].
  split; (constructor; [|done]); (split; [congruence|]).
  - by exists y.2.
  - intros He Hd. destruct (linked_hurried _ _ _ _ _ Hl Ha He) as [G1 G2].
    destruct (bs_enabled y.2) eqn:Ey; [|by apply A5', H5].
    destruct (G1 eq_refl) as [Ez Et]. destruct Hd as [Hd|Hd]; [congruence|done].
Qed.

Lemma run_keeps w b1 set L L1 set1 b2 L' set2 b3 p s :
  link_spec w b1 set L L1 set1 b2 -> active_spec b2 set1 L1 L' set2 b3 ->
  (forall p s, b_active b2 = Some p -> (p, s) ∈ L1 -> bs_enabled s = true -> b_active b3 = Some p /\ L' = L1) ->
  b_active b1 = Some p -> (p, s) ∈ L -> bs_enabled s = true -> b_active b3 = Some p \/ in_set (bs_tag s) set2.
Proof.
  intros Hl Ha Hk Hp Hin He. destruct (slaves2_fst _ _ _ _ _ (lk_disabled _ _ _ _ _ _ _ Hl) Hin) as (t & Ht & Hd).
  assert (b_active b2 = Some p) as Hp2.
  { rewrite <- Hp. pose proof (lk_conf _ _ _ _ _ _ _ Hl) as E. destruct b1, b2. cbn in *. by injection E. }
  destruct (bs_enabled t) eqn:Et; [left; by eapply Hk|right].
  destruct (ac_set _ _ _ _ _ _ Ha) as [_ Hle]. apply Hle. by apply Hd.
Qed.

(** Setting the LACP status at the start. *)
Definition status_step (status : lacp_status_t) (b : bond) : bond :=
  if negb (bool_decide (b_lacp b = status)) then with_revalidate true (with_lacp status b) else b.

Lemma status_step_conf status b : bconf (status_step status b) = bconf (with_lacp status b).
Proof. unfold status_step. case_bool_decide as E; [|done]. cbn. by rewrite <- E; destruct b. Qed.

Lemma aconf_fields b b' : aconf b' = aconf b ->
  b_lacp b' = b_lacp b /\ b_balance b' = b_balance b /\ b_interval b' = b_interval b /\ b_basis b' = b_basis b
  /\ b_no_slaves_tag b' = b_no_slaves_tag b /\ b_stb_tag b' = b_stb_tag b /\ b_updelay b' = b_updelay b
  /\ b_downdelay b' = b_downdelay b /\ b_hash b' = b_hash b /\ b_unixctl b' = b_unixctl b.
Proof. destruct b, b'. cbn. intros [=]. by subst. Qed.

Lemma bconf_aconf b b' : bconf b' = bconf b -> aconf b' = aconf b.
Proof. unfold aconf. by intros ->. Qed.

Lemma bconf_active b b' : bconf b' = bconf b -> b_active b' = b_active b.
Proof. destruct b, b'. cbn. by intros [=]. Qed.

Lemma idle_slave w b b1 L L1 p s :
  slaves2 (linked w b1) L L1 -> bconf b1 = bconf b -> chosen L1 = None -> (p, s) ∈ L -> idle w b s.
Proof.
  intros H2 C1 Hc Hin Hu. destruct (slaves2_fst _ _ _ _ _ H2 Hin) as (t & Ht & Hl).
  apply (linked_conf w b b1 s t C1) in Hl as [Hi He Hd _].
  unfold chosen in Hc. destruct (find_first _ L1) eqn:Ef; [done|]. rewrite find_first_None in Ef.
  pose proof (Ef _ Ht) as Et. pose proof (best_delayed_None _ Hc _ Ht) as Hb. cbn in Et, Hb.
  destruct (fires w b s); [congruence|]. split; [congruence|].
  destruct Hb as [Hb|Hb]; [congruence|]. injection Hi. intros. unfold link_up in Hu.
  apply andb_true_iff in Hu as [_ Hu]. congruence.
Qed.

(** bond_run up to the choice of the active slave. *)
Record mid_spec (w : world) (status : lacp_status_t) (b0 : bond) (set0 : tag_set) (L L' : bslaves)
    (set : tag_set) (b : bond) : Prop := {
  md_rep : bond_rep b L';
  md_set : set_good set /\ set_le set0 set;
  md_conf : aconf b = aconf (with_lacp status b0);
  md_slaves : slaves2 (run_slave w (with_lacp status b0)) L L';
  md_disabled : slaves2 (fun s s' => bs_enabled s = true -> bs_enabled s' = false \/ bs_tag s' <> bs_tag s ->
                           in_set (bs_tag s) set) L L';
  md_enabled : forall p, b_active b = Some p -> exists s, (p, s) ∈ L' /\ bs_enabled s = true;
  md_none : b_active b = None -> forall p s, (p, s) ∈ L' -> bs_enabled s = false;
  md_keeps : forall p s, b_active b0 = Some p -> (p, s) ∈ L -> bs_enabled s = true ->
               b_active b = Some p \/ in_set (bs_tag s) set;
  md_no_slaves : b_active b0 = None -> b_active b <> None -> in_set (b_no_slaves_tag b0) set;
  md_stable : b_revalidate b = false -> b_lacp b0 = status
              /\ (b_balance b0 = BM_STABLE -> slaves2 (fun s s' => bs_enabled s' = bs_enabled s) L L');
  md_send : b_active b0 = None -> b_active b <> None -> b_send b = true;
  md_idle : b_active b = None -> forall p s, (p, s) ∈ L -> idle w (with_lacp status b0) s
}.

Lemma mid_ok w status set b L :
  world_ok w -> bond_rep b L -> set_good set ->
  exists set' b' L', (tags ← for_each_bslave (link_one w) set; settle w tags) (status_step status b) = Ret (set', b')
    /\ mid_spec w status b set L L' set' b'.
Proof.
  intros Hw Hrep Hg. set (b1 := status_step status b). pose proof (status_step_conf status b) as C1. fold b1 in C1.
  assert (bond_rep b1 L) as Hrep1.
  { destruct Hrep as [Hb Hr Ht]. split; [|by unfold b1, status_step; destruct (negb _)|done].
    by apply (bconf_base (with_lacp status b)). }
  destruct (link_all_ok w set b1 L Hw Hrep1 Hg) as (set1 & b2 & L1 & E1 & Hr1 & Hl). bstep E1.
  pose proof Hl as [C2 H2 H3 H4 H5 H6 H7].
  assert (base b2 L1.*1) as Hb2.
  { rewrite (slaves2_ptrs _ _ _ H2). by apply (bconf_base b1); [|destruct Hrep1]. }
  destruct (settle_ok w set1 b2 L1 Hw Hb2 Hr1 H3 (proj1 H4)) as (set2 & b3 & L' & E2 & Ha & Hk).
  exists set2, b3, L'. split; [done|]. pose proof Ha as [A1 A2 A3 A4 A5 A6 A7 A8 A9 A10 A11 A12 A13].
  destruct (run_slaves2 _ _ _ _ _ _ _ _ _ _ Hl Ha) as [R1 R2].
  assert (b_active b2 = b_active b) as Eact by (by rewrite (bconf_active _ _ C2), (bconf_active _ _ C1)).
  assert (aconf b3 = aconf (with_lacp status b)) as C3 by (by rewrite A1, (bconf_aconf _ _ C2), (bconf_aconf _ _ C1)).
  assert (b_balance b2 = b_balance b) as Em by (by rewrite (bconf_balance _ _ C2), (bconf_balance _ _ C1)).
  split; try done.
  - split; [|done..]. apply (aconf_base b2); [done| |].
    + by rewrite (slaves2_ptrs _ _ _ A3).
    + intros p Hp. destruct (A6 p Hp) as (s & Hs & _). by apply (list_elem_of_fmap_2 fst L' (p, s)).
  - destruct A5. split; [done|]. transitivity set1; [by destruct H4|done].
  - eapply slaves2_mono; [|exact R1]. intros s s' (t & Ht & Hh). exists t. split; [|done]. by eapply linked_conf.
  - intros p s Hp Hin He. eapply (run_keeps _ _ _ _ _ _ _ _ _ _ p s Hl Ha Hk); [|done..].
    by rewrite (bconf_active _ _ C1).
  - intros Hn Hn'. destruct (aconf_fields _ _ (eq_trans (bconf_aconf _ _ C2) (bconf_aconf _ _ C1)))
      as (_ & _ & _ & _ & En & _). cbn in En. rewrite <- En. apply A9; congruence.
  - intros Hv. assert (b_revalidate b2 = false) as Hv2
      by (destruct (b_revalidate b2) eqn:E; [by rewrite A10 in Hv|done]).
    assert (b_revalidate b1 = false) as Hv1 by (destruct (b_revalidate b1) eqn:E; [by rewrite H6 in Hv2|done]).
    unfold b1, status_step in Hv1. case_bool_decide as Es; [|done]. split; [done|]. intros Hm.
    rewrite A11 by congruence. apply H7; [|done]. by rewrite (bconf_balance _ _ C1).
  - intros Hn. apply A12. congruence.
  - intros Hn p s Hin. eapply idle_slave; [exact H2|exact C1|by apply A13|exact Hin].
Qed.

(** The statistics of the fake interface. *)
Lemma fake_step_ok w b L :
  bond_rep b L ->
  exists fake t, (if b_next_fake b <=? w_now w then
      st ← bond_update_fake_slave_stats w; _ ← bmodify (with_next_fake (w_now w + 1000)); mret st
    else mret []) b = Ret (fake, with_next_fake t b).
Proof.
  intros Hrep. destruct (b_next_fake b <=? w_now w).
  - destruct (fake_stats_ok w b L Hrep) as (st & Es). bstep Es. bmod. by do 2 eexists.
  - exists [], (b_next_fake b). by destruct b.
Qed.

(** The revalidation; only times and the hash table change. *)
Definition hconf (b : bond) : bond := with_hash None (with_next_rebalance 0 (with_next_fake 0 (aconf b))).

Lemma hconf_fields b b' : hconf b' = hconf b ->
  b_lacp b' = b_lacp b /\ b_balance b' = b_balance b /\ b_interval b' = b_interval b /\ b_basis b' = b_basis b
  /\ b_no_slaves_tag b' = b_no_slaves_tag b /\ b_stb_tag b' = b_stb_tag b /\ b_updelay b' = b_updelay b
  /\ b_downdelay b' = b_downdelay b /\ b_unixctl b' = b_unixctl b.
Proof. destruct b, b'. cbn. intros [=]. by subst. Qed.

Lemma reval_step_ok w set b L :
  bond_rep b L -> set_good set ->
  exists set' b', (if b_revalidate b then revalidate_flows w set else mret set) b = Ret (set', b')
    /\ bond_rep b' L /\ set_good set' /\ set_le set set' /\ hconf b' = hconf b /\ b_active b' = b_active b
    /\ b_send b' = b_send b
    /\ (b_hash b' = b_hash b /\ b_revalidate b = false \/ all_tags b L set').
Proof.
  intros Hrep Hg. destruct (b_revalidate b) eqn:Ev.
  - destruct (revalidate_flows_ok w set b L Hrep Hg) as (set' & t & E & Hg' & Hle & Hall).
    do 2 eexists. split; [exact E|]. split_and!; [|done..|by right]. destruct Hrep as [[] ? ?]. split; [|done..].
    split; try done. apply reset_hash_ok.
  - do 2 eexists. split; [done|]. split_and!; [done..|]. by left.
Qed.

Lemma run_assoc w (k : tag_set -> bm (tag_set * list (string * netdev_stats))) set c :
  (tags ← for_each_bslave (link_one w) set; need ← needs_active;
   tags ← (if need : bool then bond_choose_active_slave w tags else mret tags); k tags) c
  = ((tags ← for_each_bslave (link_one w) set; settle w tags) ≫= k) c.
Proof.
  rewrite cstate_bind_assoc. destruct (for_each_bslave (link_one w) set c) as [[x c']|] eqn:Ex.
  - rewrite !(cstate_bind_step _ _ _ _ _ Ex). unfold settle. by rewrite cstate_bind_assoc.
  - unfold mbind, cstate_bind. by rewrite Ex.
Qed.

Lemma run_finish w status b set L L' set2 b3 t set5 b5 :
  mid_spec w status b set L L' set2 b3 -> bond_rep b5 L' -> set_good set5 -> set_le set2 set5 ->
  hconf b5 = hconf (with_next_fake t b3) -> b_active b5 = b_active b3 -> b_send b5 = b_send b3 ->
  (b_hash b5 = b_hash b3 /\ b_revalidate b3 = false \/ all_tags b3 L' set5) ->
  run_spec w status b set L L' (tag_set_union set5 (b_unixctl b5)) (with_unixctl tag_set_init b5).
Proof.
  intros [M1 M2 M3 M4 M5 M6 M7 M8 M9 M10 M11 M12] Hrep5 Hg5 Hle5 C5 Ea5 Es5 Hv5. destruct M2 as [Hg2 Hle2].
  pose proof (aconf_fields _ _ M3) as F. cbn in F. destruct F as (F1 & F2 & F3 & F4 & F5 & F6 & F7 & F8 & F9 & F10).
  pose proof (hconf_fields _ _ C5) as G. cbn in G. destruct G as (G1 & G2 & G3 & G4 & G5 & G6 & G7 & G8 & G9).
  destruct (set_union_good set5 (b_unixctl b5) Hg5 (fo_unixctl _ _ _ _ _ _ _ _ (br_base _ _ Hrep5))) as [Hg6 Hle6].
  assert (set_le set2 (tag_set_union set5 (b_unixctl b5))) as Hle26 by (by transitivity set5).
  split; cbn [b_lacp b_balance b_interval b_basis b_no_slaves_tag b_stb_tag b_updelay b_downdelay b_active b_hash with_unixctl].
  - destruct Hrep5 as [[] ? ?]. split; [|done..]. split; try done. apply set_init_good.
  - split; [done|]. by transitivity set2.
  - congruence.
  - split_and!; congruence.
  - done.
  - eapply slaves2_mono; [|exact M5]. intros s s' H ? ?. apply Hle26. by apply H.
  - by rewrite Ea5.
  - by rewrite Ea5.
  - rewrite Ea5. intros p s Hp Hin He. destruct (M8 p s Hp Hin He); [by left|right]. by apply Hle26.
  - rewrite Ea5. intros Hn Hn'. by apply Hle26, M9.
  - destruct Hv5 as [[Eh Ev]|[Ht1 Ht2]].
    + right. destruct (M10 Ev). split_and!; [done|congruence|done].
    + left. split; cbn; [apply Hle6; congruence|]. rewrite G2, G6, F2, F6. rewrite F2, F6 in Ht2.
      case_bool_decide; [by apply Hle6|]. intros p s Hps. apply Hle6. by eapply Ht2.
  - rewrite G9, F10. apply set_union_in. congruence.
  - cbn. rewrite Ea5, Es5. done.
  - by rewrite Ea5.
Qed.

Lemma bond_run_ok w status set b L :
  world_ok w -> bond_rep b L -> set_good set ->
  exists set' fake b' L', bond_run w set status b = Ret ((set', fake), b') /\ run_spec w status b set L L' set' b'.
Proof.
  intros Hw Hrep Hg. destruct (mid_ok w status set b L Hw Hrep Hg) as (set2 & b3 & L' & E & Hmid).
  unfold bond_run. bget.
  assert ((if negb (bool_decide (b_lacp b = status)) then
         _ ← bmodify (with_lacp status); bmodify (with_revalidate true) else mret tt) b = Ret (tt, status_step status b)) as E0.
  { unfold status_step. by destruct (negb _). }
  bstep E0. rewrite run_assoc. bstep E. bget.
  destruct (fake_step_ok w b3 L' (md_rep _ _ _ _ _ _ _ _ Hmid)) as (fake & t & E4). bstep E4. bget.
  destruct (reval_step_ok w set2 (with_next_fake t b3) L') as (set5 & b5 & E5 & H1 & H2 & H3 & H4 & H5 & H6 & H7).
  { by destruct Hmid as [[] ? ? ? ? ? ? ? ? ? ? ?]. }
  { apply Hmid. }
  bstep E5. bget. bmod. do 4 eexists. split; [done|]. by eapply run_finish.
Qed.
