(* ===== verification/BondUse.v ===== *)
(** * Bonding: the choice of a slave (lib/bond.c)

    What bond_choose_output_slave, bond_check_admissibility and the functions about MAC
    learning return, and what they do to the hash table. *)
From stdpp Require Import strings.
From S2P Require Import Prelude Hash Hmap Tag Flow SlaveMap Lacp Bond BondRep.

Local Open Scope Z_scope.

#[local] Opaque hash_pointer.

(** ** The hash table *)

(** The functions below change the hash table, and count what they draw. *)
Definition rehash (h : option (list bond_entry)) (d : nat) (b : bond) : bond :=
  MkBond (b_name b) (b_slaves b) (b_balance b) (b_active b) (b_no_slaves_tag b) (b_updelay b) (b_downdelay b)
    (b_lacp b) (b_revalidate b) (b_basis b) h (b_interval b) (b_next_rebalance b) (b_send b) (b_stb_tag b)
    (b_next_fake b) (b_unixctl b) d.

Lemma rehash_same b : rehash (b_hash b) (b_draws b) b = b.
Proof. by destruct b. Qed.

Lemma rehash_rep h d b L :
  bond_rep b L -> hash_ok (b_balance b) h L.*1 -> bond_rep (rehash h d b) L.
Proof. intros [[] ? ?] Hh. split; [|done..]. by split. Qed.

Lemma load_bond_entry_ok b es i e : b_hash b = Some es -> es !! i = Some e -> load_entry i b = Ret (e, b).
Proof.
  intros Eh Ei. unfold load_entry, load_hash. unfold mbind, cstate_bind, get, lift. rewrite Eh. cbn.
  by rewrite Ei.
Qed.

Lemma store_entry_ok b es i e f :
  b_hash b = Some es -> es !! i = Some e -> store_entry i f b = Ret (tt, with_hash (Some (<[i := f e]> es)) b).
Proof.
  intros Eh Ei. unfold store_entry. assert (load_hash b = Ret (es, b)) as E
    by (unfold load_hash, mbind, cstate_bind, get, lift; by rewrite Eh).
  bstep E. by bstep (load_bond_entry_ok b es i e Eh Ei).
Qed.

Lemma entry_index h : (Z.to_nat (Z.land h BOND_MASK) < n_entries)%nat.
Proof.
  change BOND_MASK with (Z.ones 8). rewrite Z.land_ones by lia. unfold n_entries.
  pose proof (Z.mod_pos_bound h (2 ^ 8)). lia.
Qed.

Lemma bond_is_balanced_spec b :
  bond_is_balanced b = true <-> b_interval b <> 0 /\ (b_balance b = BM_SLB \/ b_balance b = BM_TCP).
Proof.
  unfold bond_is_balanced. rewrite andb_true_iff, negb_true_iff, Z.eqb_neq, orb_true_iff, !bool_decide_eq_true. done.
Qed.

(** In the modes with a hash function the table is there. *)
Lemma table_there b L : bond_rep b L -> b_balance b <> BM_AB ->
  exists es, b_hash b = Some es /\ length es = n_entries /\ Forall (entry_ok L.*1) es.
Proof.
  intros [[_ _ Hh _ _ _] _ _] Hm. unfold hash_ok in Hh. destruct (b_hash b) as [es|]; [|done].
  exists es. naive_solver.
Qed.

Definition flow_hash_of (b : bond) (f : flow) (vlan : Z) : Z :=
  match b_balance b with
  | BM_SLB => bond_hash_src (dl_src f) vlan (b_basis b)
  | _ => bond_hash_tcp f vlan (b_basis b)
  end.

Lemma bond_hash_ok b f vlan :
  b_balance b = BM_SLB \/ b_balance b = BM_TCP -> bond_hash f vlan b = Ret (flow_hash_of b f vlan, b).
Proof. intros Hm. unfold bond_hash, flow_hash_of. bget. by destruct Hm as [-> | ->]. Qed.

(** The entry of a flow. *)
Definition entry_of (b : bond) (f : flow) (vlan : Z) : nat := Z.to_nat (Z.land (flow_hash_of b f vlan) BOND_MASK).

Lemma lookup_bond_entry_ok b f vlan :
  b_balance b = BM_SLB \/ b_balance b = BM_TCP -> lookup_bond_entry f vlan b = Ret (entry_of b f vlan, b).
Proof. intros Hm. unfold lookup_bond_entry. by bstep (bond_hash_ok b f vlan Hm). Qed.

(** ** Choice by hash of the slave and the flow *)

Definition stb_step (h : Z) (best : option (nat * Z)) (x : nat * bond_slave) : option (nat * Z) :=
  if bs_enabled x.2 then
    let v := hash_2words h (bs_stb_id x.2) in
    match best with None => Some (x.1, v) | Some (_, u) => if u <? v then Some (x.1, v) else best end
  else best.

Definition stb_pick (h : Z) (L : bslaves) : option nat := fst <$> foldl (stb_step h) None L.

Lemma choose_stb_slave_ok h b L : sm_rep (b_slaves b) L -> choose_stb_slave h b = Ret (stb_pick h L, b).
Proof.
  intros Hr. unfold choose_stb_slave. rewrite (cstate_bind_step _ _ _ _ _ (each_fold (stb_one h) (stb_step h) b L Hr
    ltac:(intros p s x Hx; unfold stb_one, stb_step; bstep (bload_ok b L p s Hr Hx); cbn [snd]; by destruct (bs_enabled s)) _)).
  done.
Qed.

Lemma stb_step_spec h acc q t :
  (stb_step h acc (q, t) = acc \/ bs_enabled t = true /\ stb_step h acc (q, t) = Some (q, hash_2words h (bs_stb_id t)))
  /\ (forall p u, acc = Some (p, u) -> exists p' u', stb_step h acc (q, t) = Some (p', u') /\ u <= u')
  /\ (bs_enabled t = true -> exists p' u', stb_step h acc (q, t) = Some (p', u') /\ hash_2words h (bs_stb_id t) <= u').
Proof.
  unfold stb_step. cbn [fst snd]. destruct (bs_enabled t); [|split_and!; [by left| |done]].
  - destruct acc as [[p u]|]; [destruct (Z.ltb_spec u (hash_2words h (bs_stb_id t)))|]; split_and!;
      try (by left); try (by right); try done.
    + intros ? ? [= <- <-]. do 2 eexists. split; [done|lia].
    + intros _. do 2 eexists. split; [done|lia].
    + intros ? ? [= <- <-]. do 2 eexists. split; [done|lia].
    + intros _. do 2 eexists. split; [done|lia].
    + intros _. do 2 eexists. split; [done|lia].
  - intros p u ->. do 2 eexists. split; [done|lia].
Qed.

(** What the loop finds, over the enabled slaves it has seen. *)
Lemma stb_fold h L : forall acc,
  match foldl (stb_step h) acc L with
  | None => acc = None /\ forall x, x ∈ L -> bs_enabled x.2 = false
  | Some (p, v) =>
      (acc = Some (p, v) \/ exists s, (p, s) ∈ L /\ bs_enabled s = true /\ v = hash_2words h (bs_stb_id s))
      /\ (forall q u, acc = Some (q, u) -> u <= v)
      /\ forall x, x ∈ L -> bs_enabled x.2 = true -> hash_2words h (bs_stb_id x.2) <= v
  end.
Proof.
  induction L as [|[q t] L IH]; intros acc; cbn [foldl].
  { destruct acc as [[p v]|]; split_and!; try done; [by left|by intros q u [= -> ->]| |];
      by intros x ?%not_elem_of_nil. }
  specialize (IH (stb_step h acc (q, t))). destruct (stb_step_spec h acc q t) as (S1 & S2 & S3).
  destruct (foldl _ _ L) as [[p v]|].
  - destruct IH as (H1 & H2 & H3). split_and!.
    + destruct H1 as [H1|(s & Hs & ?)]; [|right; exists s; split; [by right|done]].
      destruct S1 as [E|[He E]]; [left; congruence|right]. rewrite E in H1. injection H1 as <- <-.
      exists t. split; [left|done].
    + intros q2 u2 E. destruct (S2 _ _ E) as (p' & u' & E' & ?). specialize (H2 _ _ E'). lia.
    + intros x [->|Hx]%elem_of_cons He; [|by apply H3]. destruct (S3 He) as (p' & u' & E' & ?).
      specialize (H2 _ _ E'). cbn [snd]. lia.
  - destruct IH as [IH1 IH2]. split.
    + destruct acc as [[p u]|]; [|done]. destruct (S2 _ _ eq_refl) as (? & ? & ? & _). congruence.
    + intros x [->|Hx]%elem_of_cons; [|by apply IH2]. cbn. destruct (bs_enabled t); [|done].
      destruct (S3 eq_refl) as (? & ? & ? & _). congruence.
Qed.

Lemma stb_pick_Some h L p : stb_pick h L = Some p ->
  exists s, (p, s) ∈ L /\ bs_enabled s = true
    /\ forall x, x ∈ L -> bs_enabled x.2 = true -> hash_2words h (bs_stb_id x.2) <= hash_2words h (bs_stb_id s).
Proof.
  unfold stb_pick. pose proof (stb_fold h L None) as H. destruct (foldl _ _ L) as [[q v]|]; [|done].
  intros [= ->]. destruct H as ([?|(s & ? & ? & ->)] & _ & ?); [done|]. by exists s.
Qed.

Lemma stb_pick_None h L : stb_pick h L = None <-> forall x, x ∈ L -> bs_enabled x.2 = false.
Proof.
  unfold stb_pick. pose proof (stb_fold h L None) as H. destruct (foldl _ _ L) as [[q v]|]; cbn; [|naive_solver].
  split; [done|]. intros Hn. destruct H as ([?|(s & Hin & He & _)] & _); [done|]. specialize (Hn _ Hin). cbn in Hn. congruence.
Qed.

(** Only the flags and the numbers of the slaves count. *)
Lemma stb_pick_ext h L L' :
  slaves2 (fun s s' => bs_enabled s' = bs_enabled s /\ bs_stb_id s' = bs_stb_id s) L L' -> stb_pick h L' = stb_pick h L.
Proof.
  intros H. unfold stb_pick. f_equal. generalize (@None (nat * Z)) as acc.
  induction H as [|[] [] L L' [E [E1 E2]] _ IH]; intros acc; cbn in *; [done|]. subst.
  rewrite IH. f_equal. unfold stb_step. cbn. by rewrite E1, E2.
Qed.

(** ** Choice by the hash table *)

Definition enabled_at (p : nat) (L : bslaves) : Prop := exists s, (p, s) ∈ L /\ bs_enabled s = true.

Lemma ptr_slave (p : nat) (L : bslaves) : p ∈ L.*1 -> exists s, (p, s) ∈ L.
Proof. intros ([q s] & -> & Hin)%list_elem_of_fmap. by exists s. Qed.

Lemma same_slave b L p s t : sm_rep (b_slaves b) L -> (p, s) ∈ L -> (p, t) ∈ L -> s = t.
Proof. intros Hr Hs Ht. apply (sr_heap _ _ Hr) in Hs, Ht. congruence. Qed.

Lemma slave_usable_ok b L p :
  sm_rep (b_slaves b) L -> (forall q, p = Some q -> q ∈ L.*1) ->
  exists ok, slave_usable p b = Ret (ok, b)
    /\ if ok : bool then exists q, p = Some q /\ enabled_at q L else forall q, p = Some q -> ~ enabled_at q L.
Proof.
  intros Hr Hp. destruct p as [q|]; [|by exists false]. destruct (ptr_slave q L (Hp q eq_refl)) as (s & Hs).
  unfold slave_usable. bstep (bload_ok b L q s Hr Hs). exists (bs_enabled s). split; [done|].
  destruct (bs_enabled s) eqn:He; [exists q; split; [done|by exists s]|].
  intros ? [= <-] (t & Ht & Ht'). pose proof (same_slave b L q s t Hr Hs Ht). congruence.
Qed.

Lemma random_slave_ok w b L :
  world_ok w -> sm_rep (b_slaves b) L -> L <> [] ->
  exists p s, random_slave w b = Ret (p, drawn b) /\ (p, s) ∈ L.
Proof.
  intros Hw Hr HL. destruct (random_node_ok (sm_table (b_slaves b)) (node_of <$> L) (w_random w (b_draws b))
    (w_range w (b_draws b)) (sm_hmap_rep _ _ Hr)) as (x & E & Hx); [by destruct L|by intros; apply Hw|].
  apply list_elem_of_fmap in Hx as ([p s] & -> & Hin). exists p, s. split; [|done].
  unfold random_slave. bget. unfold mbind, cstate_bind, lift. by rewrite E.
Qed.

(** Where an assigned entry points. *)
Definition assigned (b : bond) (L : bslaves) (p : option nat) : Prop :=
  (exists q, p = Some q /\ enabled_at q L) \/ p = b_active b /\ exists x, x ∈ L /\ bs_enabled x.2 = false.

Lemma assign_entry_ok w b L es i e :
  world_ok w -> bond_rep b L -> L <> [] -> b_hash b = Some es -> es !! i = Some e -> entry_ok L.*1 e ->
  exists e', assign_entry w i b = Ret (tt, rehash (Some (<[i := e']> es)) (S (S (b_draws b))) b)
    /\ entry_ok L.*1 e' /\ assigned b L (e_slave e') /\ good_tag (e_tag e').
Proof.
  intros Hw [Hb Hr Ht] HL Eh Ei [Ho1 Ho2 Ho3 Ho4]. pose proof (wo_tag w Hw (S (b_draws b))) as Hg.
  assert (i < length es)%nat as Hi by (by eapply lookup_lt_Some).
  destruct (random_slave_ok w b L Hw Hr HL) as (p & s & E & Hin).
  unfold assign_entry. bstep E. bstep (store_entry_ok (drawn b) es i e (set_eslave (Some p)) Eh Ei).
  set (b1 := with_hash _ _). assert (sm_rep (b_slaves b1) L) as Hr1 by done.
  bstep (bload_ok b1 L p s Hr1 Hin). set (e1 := set_eslave (Some p) e) in *.
  set (p' := if bs_enabled s then Some p else b_active b).
  assert ((if negb (bs_enabled s) then b ← get; store_entry i (set_eslave (b_active b)) else mret tt) b1
          = Ret (tt, with_hash (Some (<[i := set_eslave p' e]> es)) (drawn b))) as E1.
  { unfold p'. destruct (bs_enabled s); cbn [negb]; [done|]. bget.
    rewrite (store_entry_ok b1 (<[i := e1]> es) i e1); [|done|by apply list_lookup_insert_eq].
    cbn. by rewrite list_insert_insert_eq. }
  bstep E1. bstep (draw_tag_ok w (with_hash (Some (<[i := set_eslave p' e]> es)) (drawn b))).
  rewrite (store_entry_ok _ (<[i := set_eslave p' e]> es) i (set_eslave p' e)); [|done|by apply list_lookup_insert_eq].
  rewrite list_insert_insert_eq. eexists. split; [done|]. cbn [b_draws with_hash drawn].
  assert (assigned b L p' /\ forall q, p' = Some q -> q ∈ L.*1) as [Ha Hq].
  { unfold p', assigned. destruct (bs_enabled s) eqn:He; split.
    - left. exists p. split; [done|by exists s].
    - intros q [= <-]. by apply (list_elem_of_fmap_2 fst L (p, s)).
    - right. split; [done|by exists (p, s)].
    - apply Hb. }
  split_and!; [|done|done]. split; cbn; [done|by destruct Hg|done|done].
Qed.

(** The choice by load: the entry of the flow after it. *)
Lemma choose_by_load_ok w f vlan ts b L :
  world_ok w -> bond_rep b L -> L <> [] -> bond_is_balanced b = true ->
  exists es' e' d, choose_by_load w f vlan ts b = Ret ((e_slave e', Z.lor ts (e_tag e')), rehash (Some es') d b)
    /\ hash_ok (b_balance b) (Some es') L.*1 /\ es' !! entry_of b f vlan = Some e' /\ assigned b L (e_slave e')
    /\ word (e_tag e').
Proof.
  intros Hw Hrep HL Hbal. unfold choose_by_load. bget. rewrite Hbal. cbn [negb].
  apply bond_is_balanced_spec in Hbal as [_ Hm]. bstep (lookup_bond_entry_ok b f vlan Hm).
  assert (b_balance b <> BM_AB) as Hm' by (intros E; destruct Hm; congruence).
  destruct (table_there b L Hrep Hm') as (es & Eh & Hlen & Hes). set (i := entry_of b f vlan).
  destruct (lookup_lt_is_Some_2 es i) as [e Ei]; [rewrite Hlen; apply entry_index|].
  bstep (load_bond_entry_ok b es i e Eh Ei). pose proof (Forall_lookup_1 _ _ _ _ Hes Ei) as He.
  destruct (slave_usable_ok b L (e_slave e) (br_slaves _ _ Hrep) (eo_slave _ _ He)) as (ok & E & Hok). bstep E.
  destruct ok.
  - bret. bstep (load_bond_entry_ok b es i e Eh Ei). exists es, e, (b_draws b). rewrite <- Eh, rehash_same, Eh.
    split_and!; [done|done..| |apply He]. by left.
  - destruct (assign_entry_ok w b L es i e Hw Hrep HL Eh Ei He) as (e' & E' & He' & Ha & Hg). bstep E'.
    assert (<[i := e']> es !! i = Some e') as Ei'
      by (apply list_lookup_insert_eq; by eapply lookup_lt_Some).
    bstep (load_bond_entry_ok (rehash (Some (<[i := e']> es)) (S (S (b_draws b))) b) _ i e' eq_refl Ei').
    do 3 eexists. split; [done|]. split; [|by split; [|split; [|destruct Hg]]].
    split_and!; [done|by rewrite length_insert|by apply Forall_insert].
Qed.

(** An entry with an enabled slave is used as it is. *)
Lemma choose_by_load_kept w f vlan ts b L es e q :
  sm_rep (b_slaves b) L -> bond_is_balanced b = true -> b_hash b = Some es -> es !! entry_of b f vlan = Some e ->
  e_slave e = Some q -> enabled_at q L ->
  choose_by_load w f vlan ts b = Ret ((Some q, Z.lor ts (e_tag e)), b).
Proof.
  intros Hr Hbal Eh Ei Eq (s & Hs & He). unfold choose_by_load. bget. rewrite Hbal. cbn [negb].
  apply bond_is_balanced_spec in Hbal as [_ Hm]. bstep (lookup_bond_entry_ok b f vlan Hm).
  bstep (load_bond_entry_ok b es _ e Eh Ei). rewrite Eq.
  assert (slave_usable (Some q) b = Ret (true, b)) as E
    by (unfold slave_usable; bstep (bload_ok b L q s Hr Hs); by rewrite He).
  bstep E. bret. bstep (load_bond_entry_ok b es _ e Eh Ei). by rewrite Eq.
Qed.

(** ** The choice *)

(** LACP, or the lack of it, forbids traffic. *)
Definition lacp_blocks (b : bond) : bool :=
  bool_decide (b_lacp b = LACP_CONFIGURED)
  || bool_decide (b_balance b = BM_TCP) && negb (bool_decide (b_lacp b = LACP_NEGOTIATED)).

(** The slave [p] that a flow gets, the tag [t] of its entry and the hash table [h] after it. *)
Definition picked (b : bond) (L : bslaves) (f : flow) (vlan : Z) (p : option nat) (t : Z)
    (h : option (list bond_entry)) : Prop :=
  if lacp_blocks b then p = None /\ t = 0 /\ h = b_hash b
  else if bool_decide (b_balance b = BM_AB) then p = b_active b /\ t = 0 /\ h = b_hash b
  else if bond_is_balanced b then
    exists es e, h = Some es /\ es !! entry_of b f vlan = Some e /\ p = e_slave e /\ t = e_tag e /\ assigned b L p
  else p = stb_pick (flow_hash_of b f vlan) L /\ t = 0 /\ h = b_hash b.

(** The choice by load, whether or not loads are balanced. *)
Lemma choose_by_load_picked w f vlan ts b L :
  world_ok w -> bond_rep b L -> L <> [] -> lacp_blocks b = false -> b_balance b = BM_SLB \/ b_balance b = BM_TCP ->
  exists p t h d, choose_by_load w f vlan ts b = Ret ((p, Z.lor ts t), rehash h d b)
    /\ picked b L f vlan p t h /\ hash_ok (b_balance b) h L.*1 /\ word t.
Proof.
  intros Hw Hrep HL Hlb Hm. unfold picked. rewrite Hlb, bool_decide_false by (destruct Hm; congruence).
  destruct (bond_is_balanced b) eqn:Hbal.
  - destruct (choose_by_load_ok w f vlan ts b L Hw Hrep HL Hbal) as (es & e & d & E & Hh & Ei & Ha & Hwt).
    exists (e_slave e), (e_tag e), (Some es), d. split; [done|]. split; [by exists es, e|done].
  - exists (stb_pick (flow_hash_of b f vlan) L), 0, (b_hash b), (b_draws b). rewrite Z.lor_0_r, rehash_same. split.
    + unfold choose_by_load. bget. rewrite Hbal. cbn [negb]. bstep (bond_hash_ok b f vlan Hm).
      by bstep (choose_stb_slave_ok (flow_hash_of b f vlan) b L (br_slaves _ _ Hrep)).
    + split; [done|]. split; [apply Hrep|]. unfold word. lia.
Qed.

Lemma choose_output_slave_ok w f vlan ts b L :
  world_ok w -> bond_rep b L -> L <> [] ->
  exists p t h d, choose_output_slave w f vlan ts b = Ret ((p, Z.lor ts t), rehash h d b)
    /\ picked b L f vlan p t h /\ hash_ok (b_balance b) h L.*1 /\ word t.
Proof.
  intros Hw Hrep HL. unfold choose_output_slave. bget.
  assert (hash_ok (b_balance b) (b_hash b) L.*1) as Hh by apply Hrep.
  assert (word 0) as Hw0 by (unfold word; lia).
  destruct (lacp_blocks b) eqn:Hlb.
  - exists None, 0, (b_hash b), (b_draws b). rewrite Z.lor_0_r, rehash_same. unfold picked. rewrite Hlb.
    split; [|done]. unfold lacp_blocks in Hlb. apply orb_true_iff in Hlb as [Hlb|[H1 H2]%andb_true_iff].
    + by rewrite Hlb.
    + apply bool_decide_eq_true in H1. rewrite H1, H2. by destruct (bool_decide (b_lacp b = LACP_CONFIGURED)).
  - assert (bool_decide (b_lacp b = LACP_CONFIGURED) = false) as -> by (by apply orb_false_iff in Hlb as [? _]).
    destruct (b_balance b) eqn:Hm.
    + assert (negb (bool_decide (b_lacp b = LACP_NEGOTIATED)) = false) as ->
        by (apply orb_false_iff in Hlb as [_ Hlb]; rewrite bool_decide_true in Hlb by done; done).
      rewrite <- Hm in *. by apply choose_by_load_picked; [..|right].
    + rewrite <- Hm in *. by apply choose_by_load_picked; [..|left].
    + exists (stb_pick (flow_hash_of b f vlan) L), 0, (b_hash b), (b_draws b). rewrite Z.lor_0_r, rehash_same. split.
      * unfold flow_hash_of. rewrite Hm. by bstep (choose_stb_slave_ok (bond_hash_tcp f vlan (b_basis b)) b L (br_slaves _ _ Hrep)).
      * split; [|done]. unfold picked. rewrite Hlb. unfold bond_is_balanced. rewrite Hm, !bool_decide_false by done.
        by rewrite andb_false_r.
    + exists (b_active b), 0, (b_hash b), (b_draws b). rewrite Z.lor_0_r, rehash_same. split; [done|].
      split; [|done]. unfold picked. rewrite Hlb, Hm. by rewrite bool_decide_true.
Qed.

(** The active slave is one that is enabled, if there is one: so bond_run leaves the bond. *)
Definition settled (b : bond) (L : bslaves) : Prop :=
  (forall p, b_active b = Some p -> enabled_at p L)
  /\ (b_active b = None -> forall x, x ∈ L -> bs_enabled x.2 = false).

Lemma run_settled w status b set L L' set' b' : run_spec w status b set L L' set' b' -> settled b' L'.
Proof.
  intros H. split; [apply H|]. intros Hn [p s] Hin. by eapply (rn_none _ _ _ _ _ _ _ _ H Hn).
Qed.

Lemma assigned_in b L p : (forall q, b_active b = Some q -> q ∈ L.*1) -> assigned b L (Some p) -> p ∈ L.*1.
Proof.
  intros Ha [(q & [= <-] & s & Hs & _)|[E _]]; [by apply (list_elem_of_fmap_2 fst L (p, s))|by apply Ha].
Qed.

Lemma picked_in b L f vlan p t h : bond_rep b L -> picked b L f vlan (Some p) t h -> exists s, (p, s) ∈ L.
Proof.
  intros [[_ Ha _ _ _ _] Hr _] Hp. apply ptr_slave. unfold picked in Hp. destruct (lacp_blocks b); [naive_solver|].
  case_bool_decide; [by apply Ha; destruct Hp|]. destruct (bond_is_balanced b).
  - destruct Hp as (es & e & _ & _ & _ & _ & Hp). by eapply assigned_in.
  - destruct Hp as [Hp _]. symmetry in Hp. apply stb_pick_Some in Hp as (s & Hs & _). by apply (list_elem_of_fmap_2 fst L (p, s)).
Qed.

Lemma picked_enabled b L f vlan p t h : settled b L -> picked b L f vlan (Some p) t h -> enabled_at p L.
Proof.
  intros [Ha _] Hp. unfold picked in Hp. destruct (lacp_blocks b); [naive_solver|].
  case_bool_decide; [by apply Ha; destruct Hp|]. destruct (bond_is_balanced b).
  - destruct Hp as (es & e & _ & _ & _ & _ & [(q & [= <-] & Hq)|[E _]]); [done|by apply Ha].
  - destruct Hp as [Hp _]. symmetry in Hp. apply stb_pick_Some in Hp as (s & Hs & He & _). by exists s.
Qed.

Lemma picked_none b L f vlan t h :
  settled b L -> picked b L f vlan None t h -> lacp_blocks b = true \/ forall x, x ∈ L -> bs_enabled x.2 = false.
Proof.
  intros [_ Hn] Hp. unfold picked in Hp. destruct (lacp_blocks b); [by left|right]. case_bool_decide; [by apply Hn; destruct Hp|].
  destruct (bond_is_balanced b).
  - destruct Hp as (es & e & _ & _ & _ & _ & [(q & [=] & _)|[E _]]). by apply Hn.
  - destruct Hp as [Hp _]. symmetry in Hp. by apply (proj1 (stb_pick_None _ _) Hp).
Qed.

(** The tags of a flow besides the one of its entry. *)
Definition own_tag (b : bond) (s : bond_slave) : Z := if bool_decide (b_balance b = BM_STABLE) then b_stb_tag b else bs_tag s.

Lemma bond_choose_output_slave_ok w f vlan ts b L :
  world_ok w -> bond_rep b L -> L <> [] ->
  exists p t h d, picked b L f vlan p t h /\ bond_rep (rehash h d b) L /\ word t
    /\ match p with
       | Some q => exists s, (q, s) ∈ L
           /\ bond_choose_output_slave w f vlan ts b = Ret ((Some (bs_aux s), Z.lor (Z.lor ts t) (own_tag b s)), rehash h d b)
       | None => bond_choose_output_slave w f vlan ts b = Ret ((None, Z.lor (Z.lor ts t) (b_no_slaves_tag b)), rehash h d b)
       end.
Proof.
  intros Hw Hrep HL. destruct (choose_output_slave_ok w f vlan ts b L Hw Hrep HL) as (p & t & h & d & E & Hp & Hh & Ht).
  exists p, t, h, d. split; [done|]. split; [by apply rehash_rep|]. split; [done|].
  unfold bond_choose_output_slave. destruct p as [q|].
  - destruct (picked_in b L f vlan q t h Hrep Hp) as (s & Hs). exists s. split; [done|]. bstep E. bget. cbn [fst snd].
    by bstep (bload_ok (rehash h d b) L q s (br_slaves _ _ Hrep) Hs).
  - bstep E. by bget.
Qed.
