(* ===== verification/BondProps.v ===== *)
(** * Bonding: properties (lib/bond.c) *)
From stdpp Require Import strings.
From S2P Require Import Prelude Hash Hmap Tag Flow SlaveMap Lacp Bond BondRep BondUse.

Local Open Scope Z_scope.

#[local] Opaque hash_pointer.

(** ** Flows and bond_run *)

Lemma run_slave_ident w b s s' : run_slave w b s s' -> ident s' = ident s.
Proof. intros (t & [E _ _ _] & [->|(_ & _ & _ & _ & _ & E')]); congruence. Qed.

Lemma ident_aux s s' : ident s' = ident s -> bs_aux s' = bs_aux s /\ bs_stb_id s' = bs_stb_id s.
Proof. unfold ident. by intros [= -> _ _ _ _ _ _ ->]. Qed.

(** Across bond_run, the slave of a flow stays enabled and what chose it stays, or the set
    covers the flow's tag. *)
Lemma run_holds_slave w status b set L L' set' b2 p s :
  run_spec w status b set L L' set' b2 -> (p, s) ∈ L -> bs_enabled s = true ->
  in_set (own_tag b s) set'
  \/ b_lacp b = status /\ b_hash b2 = b_hash b /\ (b_balance b = BM_AB -> b_active b = Some p -> b_active b2 = Some p)
     /\ (b_balance b = BM_STABLE -> slaves2 (fun s s' => bs_enabled s' = bs_enabled s /\ bs_stb_id s' = bs_stb_id s) L L')
     /\ exists s', (p, s') ∈ L' /\ bs_enabled s' = true /\ bs_aux s' = bs_aux s.
Proof.
  intros H Hin He. destruct (slaves2_fst _ _ _ _ _ (rn_slaves _ _ _ _ _ _ _ _ H) Hin) as (s' & Hin' & Hrun).
  destruct (slaves2_fst _ _ _ _ _ (rn_disabled _ _ _ _ _ _ _ _ H) Hin) as (s2 & Hin2 & Hd).
  assert (s2 = s') as -> by (by eapply same_slave; [apply (rn_rep _ _ _ _ _ _ _ _ H)|..]).
  destruct (ident_aux _ _ (run_slave_ident _ _ _ _ Hrun)) as [Ea _]. specialize (Hd He).
  unfold own_tag. destruct (rn_revalidate _ _ _ _ _ _ _ _ H) as [[_ Hall]|(El & Eh & Hst)].
  - left. destruct (rn_conf _ _ _ _ _ _ _ _ H) as (Em & _ & _ & _ & Et & _). rewrite Em, Et in Hall.
    case_bool_decide; [done|]. destruct (decide (bs_tag s' = bs_tag s)) as [<-|Ht]; [by eapply Hall|].
    apply Hd. by right.
  - case_bool_decide as Hm.
    + right. specialize (Hst Hm). split_and!; [done..|congruence| |].
      * intros _. eapply slaves2_mono; [|exact (slaves2_and _ _ _ _ Hst (rn_slaves _ _ _ _ _ _ _ _ H))].
        intros x y [E1 E2]. split; [done|]. apply run_slave_ident, ident_aux in E2. by destruct E2.
      * destruct (slaves2_fst _ _ _ _ _ Hst Hin) as (s3 & Hin3 & E3).
        assert (s3 = s') as -> by (by eapply same_slave; [apply (rn_rep _ _ _ _ _ _ _ _ H)|..]).
        exists s'. split_and!; [done|congruence|done].
    + destruct (bs_enabled s') eqn:He'; [|left; apply Hd; by left].
      destruct (decide (b_balance b = BM_AB /\ b_active b = Some p)) as [[Hab Hact]|Hn].
      * destruct (rn_keeps _ _ _ _ _ _ _ _ H p s Hact Hin He); [right|by left]. split_and!; [done..|by exists s'].
      * right. split_and!; [done..|naive_solver|done|by exists s'].
Qed.

(** A flow without a slave: there still is none, or the set covers its tag. *)
Lemma run_holds_none w status b set L L' set' b2 :
  run_spec w status b set L L' set' b2 -> b_active b = None ->
  in_set (b_no_slaves_tag b) set' \/ forall x, x ∈ L' -> bs_enabled x.2 = false.
Proof.
  intros H Hn. destruct (b_active b2) eqn:E.
  - left. apply (rn_no_slaves _ _ _ _ _ _ _ _ H); [done|congruence].
  - right. by apply (run_settled _ _ _ _ _ _ _ _ H).
Qed.

Lemma picked_none_active b L f vlan t h :
  settled b L -> lacp_blocks b = false -> picked b L f vlan None t h -> b_active b = None.
Proof.
  intros [Ha Hn] Hlb Hp. destruct (picked_none b L f vlan t h (conj Ha Hn) Hp) as [?|Hall]; [congruence|].
  destruct (b_active b) as [p|] eqn:E; [|done]. destruct (Ha p eq_refl) as (s & Hs & He).
  specialize (Hall _ Hs). cbn in Hall. congruence.
Qed.

Lemma lacp_blocks_ext b b' : b_lacp b' = b_lacp b -> b_balance b' = b_balance b -> lacp_blocks b' = lacp_blocks b.
Proof. unfold lacp_blocks. by intros -> ->. Qed.

Lemma entry_of_ext b b' f vlan : b_balance b' = b_balance b -> b_basis b' = b_basis b ->
  entry_of b' f vlan = entry_of b f vlan /\ flow_hash_of b' f vlan = flow_hash_of b f vlan.
Proof. unfold entry_of, flow_hash_of. by intros -> ->. Qed.

Lemma choose_by_mode w f vlan ts b :
  lacp_blocks b = false -> b_balance b = BM_SLB \/ b_balance b = BM_TCP ->
  choose_output_slave w f vlan ts b = choose_by_load w f vlan ts b.
Proof.
  intros Hlb Hm. unfold choose_output_slave, lacp_blocks in *. bget. apply orb_false_iff in Hlb as [-> Hlb].
  destruct Hm as [-> | Hm]; [done|]. rewrite Hm in *. rewrite bool_decide_true in Hlb by done. cbn in Hlb. by rewrite Hlb.
Qed.

(** No more than the mode, the LACP status, the table and the slave count. *)
Definition sticky (b : bond) : Prop := b_interval b <> 0 \/ b_balance b = BM_AB \/ b_balance b = BM_STABLE.

Lemma choose_again w f vlan ts b b2 L L2 p t h s' :
  world_ok w -> bond_rep b2 L2 -> picked b L f vlan (Some p) t h -> sticky b ->
  b_lacp b2 = b_lacp b -> b_balance b2 = b_balance b -> b_basis b2 = b_basis b -> b_interval b2 = b_interval b ->
  b_hash b2 = h -> (p, s') ∈ L2 -> bs_enabled s' = true ->
  (b_balance b = BM_AB -> b_active b = Some p -> b_active b2 = Some p) ->
  (b_balance b = BM_STABLE -> slaves2 (fun s s' => bs_enabled s' = bs_enabled s /\ bs_stb_id s' = bs_stb_id s) L L2) ->
  exists ts2 b3, bond_choose_output_slave w f vlan ts b2 = Ret ((Some (bs_aux s'), ts2), b3).
Proof.
  intros Hw Hrep Hp Hst El Em Eb Ei Eh Hin He Hab Hstb.
  destruct (entry_of_ext b b2 f vlan Em Eb) as [Ee Ef].
  assert (exists ts2 b3, choose_output_slave w f vlan ts b2 = Ret ((Some p, ts2), b3) /\ b_slaves b3 = b_slaves b2)
    as (ts2 & b3 & E & Esl).
  { pose proof (lacp_blocks_ext b b2 El Em) as Hlb2. unfold picked in Hp. destruct (lacp_blocks b) eqn:Hlb; [naive_solver|].
    destruct (decide (b_balance b2 = BM_SLB \/ b_balance b2 = BM_TCP)) as [Hm|Hm].
    - rewrite (choose_by_mode w f vlan ts b2 Hlb2 Hm). rewrite bool_decide_false in Hp by (destruct Hm; congruence).
      assert (bond_is_balanced b2 = true) as Hbal.
      { apply bond_is_balanced_spec. split; [|done]. destruct Hst as [?|[?|?]]; destruct Hm; congruence. }
      assert (bond_is_balanced b = bond_is_balanced b2) as Hbal2 by (unfold bond_is_balanced; by rewrite Ei, Em).
      rewrite Hbal2, Hbal in Hp. destruct Hp as (es & e & Eh' & Hei & Ep & _ & _).
      do 2 eexists. split; [|done]. apply (choose_by_load_kept w f vlan ts b2 L2 es e p); try done.
      + apply Hrep.
      + congruence.
      + by rewrite Ee.
      + by exists s'.
    - assert (L2 <> []) as HL2 by (intros ->; by apply not_elem_of_nil in Hin).
      destruct (choose_output_slave_ok w f vlan ts b2 L2 Hw Hrep HL2) as (p2 & t2 & h2 & d2 & E & Hp2 & _).
      assert (p2 = Some p) as ->; [|by do 2 eexists].
      unfold picked in Hp2. rewrite Hlb2 in Hp2. rewrite Em in Hp2, Hm.
      assert (bond_is_balanced b = false /\ bond_is_balanced b2 = false) as [Hb1 Hb2].
      { split; apply not_true_is_false; rewrite bond_is_balanced_spec; rewrite ?Em; tauto. }
      rewrite Hb1 in Hp. rewrite Hb2 in Hp2. case_bool_decide as Hmab; destruct Hp as [Hp _], Hp2 as [-> _].
      + by apply Hab.
      + rewrite Ef, Hp. apply stb_pick_ext, Hstb. destruct (b_balance b); naive_solver. }
  unfold bond_choose_output_slave. bstep E. bget. cbn [fst snd].
  assert (sm_rep (b_slaves b3) L2) as Hr3 by (rewrite Esl; apply Hrep).
  bstep (bload_ok b3 L2 p s' Hr3 Hin). by do 2 eexists.
Qed.

(** A bond that gives a flow no slave: it still does, or the set covers the flow's tag. *)
Lemma run_keeps_none w status b set L L' set' b2 :
  run_spec w status b set L L' set' b2 -> lacp_blocks b = true \/ b_active b = None ->
  in_set (b_no_slaves_tag b) set' \/ lacp_blocks b2 = true \/ forall x, x ∈ L' -> bs_enabled x.2 = false.
Proof.
  intros H [Hlb|Hn].
  - destruct (rn_conf _ _ _ _ _ _ _ _ H) as (Em & _ & _ & En & _).
    destruct (rn_revalidate _ _ _ _ _ _ _ _ H) as [[Hin _]|(El & _)]; [left; by rewrite <- En|right; left].
    rewrite <- Hlb. apply lacp_blocks_ext; [|done]. by rewrite (rn_lacp _ _ _ _ _ _ _ _ H).
  - destruct (run_holds_none _ _ _ _ _ _ _ _ H Hn); [by left|by right; right].
Qed.

Lemma choose_none w f vlan ts b L :
  world_ok w -> bond_rep b L -> settled b L ->
  lacp_blocks b = true \/ (forall x, x ∈ L -> bs_enabled x.2 = false) -> L <> [] ->
  exists ts2 b3, bond_choose_output_slave w f vlan ts b = Ret ((None, ts2), b3).
Proof.
  intros Hw Hrep Hs Hno HL.
  destruct (bond_choose_output_slave_ok w f vlan ts b L Hw Hrep HL) as (p & t & h & d & Hp & _ & _ & E).
  destruct p as [q|]; [|by do 2 eexists]. exfalso. destruct Hno as [Hlb|Hno].
  - unfold picked in Hp. rewrite Hlb in Hp. naive_solver.
  - destruct (picked_enabled b L f vlan q t h Hs Hp) as (s & Hin & He). specialize (Hno _ Hin). cbn in Hno. congruence.
Qed.

(** A flow that is given its slave in a settled bond, right before bond_run. *)
Lemma settled_flow_revalidated w w' f vlan tags status set b L :
  world_ok w -> world_ok w' -> bond_rep b L -> settled b L -> L <> [] -> word tags -> set_good set ->
  exists q ts b1 set' fake b2,
    bond_choose_output_slave w f vlan tags b = Ret ((q, ts), b1)
    /\ bond_run w' set status b1 = Ret ((set', fake), b2)
    /\ (tag_set_intersects set' ts = true
        \/ (forall aux, q = Some aux -> exists L2 p s, bond_rep b2 L2 /\ (p, s) ∈ L2 /\ bs_aux s = aux /\ bs_enabled s = true)
           /\ (sticky b -> exists ts2 b3, bond_choose_output_slave w' f vlan tags b2 = Ret ((q, ts2), b3))).
Proof.
  intros Hw Hw' Hrep Hs HL Hts Hset.
  destruct (bond_choose_output_slave_ok w f vlan tags b L Hw Hrep HL) as (p & t & h & d & Hp & Hrep1 & Ht & E).
  set (b1 := rehash h d b) in *.
  destruct (bond_run_ok w' status set b1 L Hw' Hrep1 Hset) as (set' & fake & b2 & L2 & E2 & Hrun).
  assert (forall own, good_tag own -> in_set own set' -> tag_set_intersects set' (Z.lor (Z.lor tags t) own) = true) as Hhit.
  { intros own Hg Hin. apply (in_set_revalidates own); [done..| |apply covers_lor_l].
    apply word_lor; [by apply word_lor|by destruct Hg]. }
  destruct (rn_conf _ _ _ _ _ _ _ _ Hrun) as (Em & Ei & Eb & _).
  destruct p as [q|].
  - destruct E as (s & Hin & E). do 6 eexists. split; [exact E|]. split; [exact E2|].
    destruct (picked_enabled b L f vlan q t h Hs Hp) as (s1 & Hin1 & He).
    assert (s1 = s) as -> by (by eapply same_slave; [apply Hrep|..]).
    destruct (run_holds_slave w' status b1 set L L2 set' b2 q s Hrun Hin He) as [Hhave|(El & Eh & Hab & Hstb & s' & Hin' & He' & Ea)].
    + left. apply Hhit; [|done]. unfold own_tag. case_bool_decide; [apply Hrep|].
      pose proof (br_tags _ _ Hrep) as Htg. rewrite Forall_forall in Htg. by apply (Htg (q, s)).
    + right. split.
      * intros aux [= <-]. exists L2, q, s'. split; [apply Hrun|done].
      * intros Hst. rewrite <- Ea. eapply (choose_again w' f vlan tags b b2 L L2 q t h s'); try done.
        -- apply Hrun.
        -- rewrite (rn_lacp _ _ _ _ _ _ _ _ Hrun). done.
  - do 6 eexists. split; [exact E|]. split; [exact E2|].
    assert (lacp_blocks b = true \/ b_active b = None) as Hb.
    { destruct (lacp_blocks b) eqn:Hlb; [by left|right]. by apply (picked_none_active b L f vlan t h). }
    destruct (run_keeps_none w' status b1 set L L2 set' b2 Hrun Hb) as [Hhave|Hno].
    + left. apply Hhit; [apply Hrep|done].
    + right. split; [done|]. intros _. apply (choose_none w' f vlan tags b2 L2); [done|apply Hrun| |done|].
      * by eapply run_settled.
      * intros ->. apply HL. pose proof (slaves2_ptrs _ _ _ (rn_slaves _ _ _ _ _ _ _ _ Hrun)) as Ep. by destruct L.
Qed.

(** C12: from one bond_run to the next, no flow is left on a dead link.  After a call of bond_run,
    at any time and with any state of the links and any LACP status, let bond_choose_output_slave
    give a flow a slave, or none; and let the next change to the bond be another call of bond_run,
    at another time, with other links and another status.  Then one of two holds: the set of tags
    that this bond_run adds to hits the tags of the flow, so that it is chosen for anew; or the
    slave is still there and enabled, and the choice, if it were made again, would be the same.
    The last point is for a bond that balances by load, or in the modes stable and active-backup:
    without rebalancing the mode balance-slb lets flows stay on an enabled slave after another has
    come up.  A command in between breaks this: bond/set-active-slave gives a slave a new tag
    without revalidating its flows (set_active_keeps_dead_flows).  The bond is any well-formed one
    with a slave; the tags given to the choice are a word, and the sets are made by tag_set_add. *)
Theorem bond_flow_revalidated w0 w w' f vlan tags status0 set0 status set b L :
  world_ok w0 -> world_ok w -> world_ok w' -> bond_rep b L -> L <> [] ->
  word tags -> set_good set0 -> set_good set ->
  exists set0' fake0 b0 q ts b1 set' fake b2,
    bond_run w0 set0 status0 b = Ret ((set0', fake0), b0)
    /\ bond_choose_output_slave w f vlan tags b0 = Ret ((q, ts), b1)
    /\ bond_run w' set status b1 = Ret ((set', fake), b2)
    /\ (tag_set_intersects set' ts = true
        \/ (forall aux, q = Some aux -> exists L2 p s, bond_rep b2 L2 /\ (p, s) ∈ L2 /\ bs_aux s = aux /\ bs_enabled s = true)
           /\ (sticky b -> exists ts2 b3, bond_choose_output_slave w' f vlan tags b2 = Ret ((q, ts2), b3))).
Proof.
  intros Hw0 Hw Hw' Hrep HL Hts Hset0 Hset.
  destruct (bond_run_ok w0 status0 set0 b L Hw0 Hrep Hset0) as (set0' & fake0 & b0 & L0 & E0 & Hrun).
  assert (L0 <> []) as HL0.
  { intros ->. apply HL. pose proof (slaves2_ptrs _ _ _ (rn_slaves _ _ _ _ _ _ _ _ Hrun)) as Ep. by destruct L. }
  destruct (settled_flow_revalidated w w' f vlan tags status set b0 L0 Hw Hw' (rn_rep _ _ _ _ _ _ _ _ Hrun)
              (run_settled _ _ _ _ _ _ _ _ Hrun) HL0 Hts Hset) as (q & ts & b1 & set' & fake & b2 & E1 & E2 & H).
  exists set0', fake0, b0, q, ts, b1, set', fake, b2. split_and!; [done..|].
  destruct H as [H|[H1 H2]]; [by left|right]. split; [done|]. intros Hst. apply H2.
  destruct (rn_conf _ _ _ _ _ _ _ _ Hrun) as (Em & Ei & _). unfold sticky. by rewrite Em, Ei.
Qed.

(** *** Example bonds *)

Definition demo_world (t : Z) (up : Z -> bool) : world :=
  MkWorld t up (fun _ => "eth"%string) (fun _ => 1) (fun _ => None) (fun _ => false) (fun _ => 3)
    (fun i => Z.of_nat i) (fun _ n => (n - 1)%nat).

Definition demo_slave (q tag : Z) : bond_slave :=
  MkBslave q (hash_pointer q 0) q 1 "eth"%string LLONG_MAX true true tag [] 0 q.

Definition demo_bslaves : bslaves := [(0%nat, demo_slave 11 6); (1%nat, demo_slave 12 12)].

Definition demo_bond (mode : bond_mode) : bond :=
  MkBond (Some "bond0"%string) (sm_of demo_bslaves 2) mode (Some 0%nat) 3 100 200 LACP_DISABLED false 0
    (reset_hash mode) 10000 0 false 5 LLONG_MAX tag_set_init 0.

Lemma demo_world_ok t up : world_ok (demo_world t up).
Proof. split; [intros i; split; [split; cbn; lia|done]|cbn; lia]. Qed.

Lemma demo_bond_rep mode : bond_rep (demo_bond mode) demo_bslaves.
Proof.
  split.
  - split; [done|intros p [= <-]; left|apply reset_hash_ok| | |apply set_init_good]; (split; [unfold word; cbn; lia|done]).
  - apply sm_of_rep.
    + cbn. by repeat constructor; set_solver.
    + cbn. by repeat constructor; set_solver.
    + by repeat constructor; cbn; lia.
    + by repeat constructor.
  - by repeat constructor; cbn; try lia.
Qed.

Lemma bond_flow_revalidated_witness :
  exists set0' fake0 b0 q ts b1 set' fake b2,
    bond_run (demo_world 0 (fun _ => true)) tag_set_init LACP_DISABLED (demo_bond BM_SLB) = Ret ((set0', fake0), b0)
    /\ bond_choose_output_slave (demo_world 0 (fun _ => true)) flow_zero 1 0 b0 = Ret ((q, ts), b1)
    /\ bond_run (demo_world 1000 (fun q => q =? 11)) tag_set_init LACP_DISABLED b1 = Ret ((set', fake), b2)
    /\ (tag_set_intersects set' ts = true
        \/ (forall aux, q = Some aux -> exists L2 p s, bond_rep b2 L2 /\ (p, s) ∈ L2 /\ bs_aux s = aux /\ bs_enabled s = true)
           /\ (sticky (demo_bond BM_SLB) -> exists ts2 b3,
                 bond_choose_output_slave (demo_world 1000 (fun q => q =? 11)) flow_zero 1 0 b2 = Ret ((q, ts2), b3))).
Proof.
  apply (bond_flow_revalidated (demo_world 0 (fun _ => true)) (demo_world 0 (fun _ => true)) (demo_world 1000 (fun q => q =? 11))
           flow_zero 1 0 LACP_DISABLED tag_set_init LACP_DISABLED tag_set_init (demo_bond BM_SLB) demo_bslaves).
  - apply demo_world_ok.
  - apply demo_world_ok.
  - apply demo_world_ok.
  - apply demo_bond_rep.
  - done.
  - unfold word. lia.
  - apply set_init_good.
  - apply set_init_good.
Defined.

(** ** The slave of a flow after bond_run *)

(** C14: after bond_run every flow that gets a slave gets one that is registered and enabled,
    and its tags cover the tag that is added to the set when that changes; a flow gets none
    only when LACP forbids traffic or when no slave at all is enabled. *)
Theorem bond_output_enabled w status set b L :
  world_ok w -> bond_rep b L -> set_good set -> L <> [] ->
  exists set' fake b1 L1, bond_run w set status b = Ret ((set', fake), b1) /\ bond_rep b1 L1
    /\ forall w' f vlan tags, world_ok w' -> exists q ts b2,
         bond_choose_output_slave w' f vlan tags b1 = Ret ((q, ts), b2)
         /\ match q with
            | Some a => exists p s, (p, s) ∈ L1 /\ bs_aux s = a /\ bs_enabled s = true /\ covers ts (own_tag b1 s)
            | None => covers ts (b_no_slaves_tag b1)
                      /\ (lacp_blocks b1 = true \/ forall p s, (p, s) ∈ L1 -> bs_enabled s = false)
            end.
Proof.
  intros Hw Hrep Hset HL. destruct (bond_run_ok w status set b L Hw Hrep Hset) as (set' & fake & b1 & L1 & E & Hrun).
  exists set', fake, b1, L1. split; [done|]. split; [apply Hrun|]. intros w' f vlan tags Hw'.
  assert (L1 <> []) as HL1.
  { intros ->. apply HL. pose proof (slaves2_ptrs _ _ _ (rn_slaves _ _ _ _ _ _ _ _ Hrun)) as Ep. by destruct L. }
  pose proof (run_settled _ _ _ _ _ _ _ _ Hrun) as Hs.
  destruct (bond_choose_output_slave_ok w' f vlan tags b1 L1 Hw' (rn_rep _ _ _ _ _ _ _ _ Hrun) HL1)
    as (p & t & h & d & Hp & _ & _ & E2).
  destruct p as [q|].
  - destruct E2 as (s & Hin & E2). do 3 eexists. split; [exact E2|]. exists q, s.
    destruct (picked_enabled b1 L1 f vlan q t h Hs Hp) as (s1 & Hin1 & He).
    assert (s1 = s) as -> by (by eapply same_slave; [apply (rn_rep _ _ _ _ _ _ _ _ Hrun)|..]).
    split_and!; [done..|apply covers_lor_l].
  - do 3 eexists. split; [exact E2|]. split; [apply covers_lor_l|].
    destruct (picked_none b1 L1 f vlan t h Hs Hp) as [?|Hall]; [by left|right]. intros p s Hin. by apply (Hall (p, s)).
Qed.

Lemma bond_output_enabled_witness :
  exists set' fake b1 L1,
    bond_run (demo_world 5 (fun q => q =? 12)) tag_set_init LACP_NEGOTIATED (demo_bond BM_TCP) = Ret ((set', fake), b1)
    /\ bond_rep b1 L1
    /\ forall w' f vlan tags, world_ok w' -> exists q ts b2,
         bond_choose_output_slave w' f vlan tags b1 = Ret ((q, ts), b2)
         /\ match q with
            | Some a => exists p s, (p, s) ∈ L1 /\ bs_aux s = a /\ bs_enabled s = true /\ covers ts (own_tag b1 s)
            | None => covers ts (b_no_slaves_tag b1)
                      /\ (lacp_blocks b1 = true \/ forall p s, (p, s) ∈ L1 -> bs_enabled s = false)
            end.
Proof.
  apply (bond_output_enabled (demo_world 5 (fun q => q =? 12)) LACP_NEGOTIATED tag_set_init (demo_bond BM_TCP) demo_bslaves).
  - apply demo_world_ok.
  - apply demo_bond_rep.
  - apply set_init_good.
  - done.
Defined.

(** ** Highest random weight *)

Definition heavier (a c : option (nat * Z)) : option (nat * Z) :=
  match a, c with
  | None, _ => c
  | _, None => a
  | Some (p, u), Some (q, v) => if u <? v then Some (q, v) else Some (p, u)
  end.

Lemma heavier_assoc a c e : heavier (heavier a c) e = heavier a (heavier c e).
Proof.
  destruct a as [[p u]|], c as [[q v]|], e as [[r x]|]; cbn; try done; try (by destruct (u <? v)).
  destruct (Z.ltb_spec u v), (Z.ltb_spec v x); cbn; destruct (Z.ltb_spec u v), (Z.ltb_spec u x), (Z.ltb_spec v x);
    try done; lia.
Qed.

(** The loop is the heaviest of what it starts with and what it sees. *)
Lemma stb_step_heavier h acc x : stb_step h acc x = heavier acc (stb_step h None x).
Proof. unfold stb_step. destruct (bs_enabled x.2), acc as [[p u]|]; cbn; try done. Qed.

Lemma stb_fold_heavier h L : forall acc, foldl (stb_step h) acc L = heavier acc (foldl (stb_step h) None L).
Proof.
  induction L as [|x L IH]; intros acc; cbn [foldl]; [by destruct acc as [[]|]|].
  rewrite IH, (IH (stb_step h None x)), (stb_step_heavier h acc x). apply heavier_assoc.
Qed.

Lemma heavier_mid a c e : heavier (heavier a c) e = heavier a e \/ exists p v, c = Some (p, v) /\ heavier (heavier a c) e = Some (p, v).
Proof.
  destruct a as [[p u]|], c as [[q v]|], e as [[r x]|]; cbn; eauto; try (by left); try (right; by do 2 eexists).
  - destruct (Z.ltb_spec u v); cbn; destruct (Z.ltb_spec u x), (Z.ltb_spec v x); try (by left); try lia;
      try (right; by do 2 eexists).
  - destruct (Z.ltb_spec u v); [right; by do 2 eexists|by left].
  - destruct (Z.ltb_spec v x); [by left|right; by do 2 eexists].
Qed.

Lemma stb_step_off h acc p s : bs_enabled s = false -> stb_step h acc (p, s) = acc.
Proof. intros He. unfold stb_step. cbn [snd]. by rewrite He. Qed.

(** Without the slave in the middle, the choice is the same or was that slave. *)
Lemma stb_pick_mid h A B p s : bs_enabled s = true ->
  stb_pick h (A ++ (p, s) :: B) = Some p \/ forall s', bs_enabled s' = false -> stb_pick h (A ++ (p, s) :: B) = stb_pick h (A ++ (p, s') :: B).
Proof.
  intros He. unfold stb_pick. rewrite foldl_app. cbn [foldl]. rewrite stb_fold_heavier, (stb_step_heavier h (foldl _ None A)).
  destruct (heavier_mid (foldl (stb_step h) None A) (stb_step h None (p, s)) (foldl (stb_step h) None B)) as [E|(q & v & E & ->)].
  - right. intros s' He'. rewrite E, foldl_app. cbn [foldl]. rewrite (stb_step_off h _ p s' He').
    by rewrite (stb_fold_heavier h B (foldl _ None A)).
  - left. unfold stb_step in E. cbn [snd fst] in E. rewrite He in E. by simplify_eq.
Qed.

(** Highest random weight hashing moves as few flows as can be.  When bond_enable_slave
    disables a slave, choose_stb_slave gives every flow the slave it gave it before, but for
    the flows of that slave; when it enables one, every flow keeps its slave or gets the
    new one. *)
Theorem stb_minimal_disruption w h enable tags b L p s :
  bond_rep b L -> (p, s) ∈ L ->
  exists q tags' b' q',
    choose_stb_slave h b = Ret (q, b)
    /\ bond_enable_slave w p enable tags b = Ret (tags', b')
    /\ choose_stb_slave h b' = Ret (q', b')
    /\ (q' = q \/ (if enable then q' else q) = Some p).
Proof.
  intros Hrep Hin. destruct (list_elem_of_split _ _ Hin) as (A & B & ->). pose proof (br_slaves _ _ Hrep) as Hr.
  destruct (bond_enable_slave_ok w enable tags b A B p s Hr) as (sm & E & Hr').
  do 4 eexists. split; [by apply choose_stb_slave_ok|]. split; [exact E|].
  set (s' := enabled_slave w (b_draws b) enable s) in *.
  split; [apply (choose_stb_slave_ok h (with_bslaves sm _) _ Hr')|].
  assert (bs_enabled s' = enable) as He'.
  { unfold s', enabled_slave. destruct (Bool.eqb enable (bs_enabled s)) eqn:Ee; [by apply eqb_prop in Ee|by destruct enable]. }
  destruct (decide (bs_enabled s = enable)) as [Es|Es].
  - left. apply stb_pick_ext, slaves2_mid; [done|]. split; [by rewrite Es; exact He'|].
    unfold s', enabled_slave. by destruct (Bool.eqb _ _), enable.
  - destruct enable.
    + destruct (stb_pick_mid h A B p s' He') as [?|H]; [by right|left]. apply H. by destruct (bs_enabled s).
    + assert (bs_enabled s = true) as Hs by (by destruct (bs_enabled s)).
      destruct (stb_pick_mid h A B p s Hs) as [?|H]; [by right|left]. symmetry. by apply H.
Qed.

Lemma stb_minimal_disruption_witness :
  exists q tags' b' q',
    choose_stb_slave 77 (demo_bond BM_STABLE) = Ret (q, demo_bond BM_STABLE)
    /\ bond_enable_slave (demo_world 0 (fun _ => true)) 1 false (Some tag_set_init) (demo_bond BM_STABLE) = Ret (tags', b')
    /\ choose_stb_slave 77 b' = Ret (q', b')
    /\ (q' = q \/ q = Some 1%nat).
Proof.
  apply (stb_minimal_disruption (demo_world 0 (fun _ => true)) 77 false (Some tag_set_init) (demo_bond BM_STABLE)
           demo_bslaves 1 (demo_slave 12 12)).
  - apply demo_bond_rep.
  - right. left.
Defined.

(** ** Admission of packets *)

Lemma bond_slave_lookup_found b L p s : sm_rep (b_slaves b) L -> (p, s) ∈ L -> bond_slave_lookup (bs_aux s) b = Ret (Some p, b).
Proof. intros Hr Hin. apply on_bslaves_read. exact (@sm_lookup_found bond_slave bond_slave_slave _ L p s Hr Hin). Qed.

Lemma active_slave_tag_ok b L : bond_rep b L -> exists t, bond_get_active_slave_tag b = Ret (t, b).
Proof.
  intros [[_ Ha _ _ _ _] Hr _]. unfold bond_get_active_slave_tag. bget. destruct (b_active b) as [p|]; [|by eexists].
  destruct (ptr_slave p L (Ha p eq_refl)) as (s & Hs). bstep (bload_ok b L p s Hr Hs). by eexists.
Qed.

(** The verdict. *)
Definition verdict (b : bond) (p : nat) (s : bond_slave) (dst : list Z) : bond_verdict :=
  match b_lacp b with
  | LACP_NEGOTIATED => if bs_enabled s then BV_ACCEPT else BV_DROP
  | LACP_CONFIGURED => BV_DROP
  | LACP_DISABLED =>
      if eth_addr_is_multicast dst && negb (bool_decide (b_active b = Some p)) then BV_DROP
      else match b_balance b with
           | BM_AB => if bool_decide (b_active b = Some p) then BV_ACCEPT else BV_DROP
           | BM_TCP => BV_DROP
           | BM_SLB => BV_DROP_IF_MOVED
           | BM_STABLE => BV_ACCEPT
           end
  end.

Lemma admit_by_mode_ok b L p tags : bond_rep b L ->
  exists t, admit_by_mode (Some p) tags b = Ret
    ((match b_balance b with
      | BM_AB => if bool_decide (b_active b = Some p) then BV_ACCEPT else BV_DROP
      | BM_TCP => BV_DROP | BM_SLB => BV_DROP_IF_MOVED | BM_STABLE => BV_ACCEPT end, t), b).
Proof.
  intros Hrep. unfold admit_by_mode. bget. destruct (active_slave_tag_ok b L Hrep) as (t & E).
  destruct (b_balance b); [by eexists..|]. bstep E. by eexists.
Qed.

Lemma check_admissibility_ok b L p s dst tags : bond_rep b L -> (p, s) ∈ L ->
  exists t, bond_check_admissibility (bs_aux s) dst tags b = Ret ((verdict b p s dst, t), b).
Proof.
  intros Hrep Hin. pose proof (br_slaves _ _ Hrep) as Hr. unfold bond_check_admissibility, verdict.
  bstep (bond_slave_lookup_found b L p s Hr Hin). bget. destruct (b_lacp b).
  - bstep (eq_refl : bderef (Some p) b = Ret (p, b)). bstep (bload_ok b L p s Hr Hin). by eexists.
  - by eexists.
  - destruct (eth_addr_is_multicast dst); cbn [andb].
    + destruct (active_slave_tag_ok b L Hrep) as (t & E). bstep E. bstep (bond_slave_lookup_found b L p s Hr Hin).
      destruct (negb (bool_decide (b_active b = Some p))); [by eexists|by eapply admit_by_mode_ok].
    + by eapply admit_by_mode_ok.
Qed.

(** C32: without LACP a bond does not see a packet twice.  Of the copies of a multicast packet
    that come in on several slaves, and in mode active-backup of any packet,
    bond_check_admissibility lets in at most one: two slaves on which it is not dropped are
    the same, which is the active slave. *)
Theorem bond_no_duplicates b L p1 s1 p2 s2 dst tags :
  bond_rep b L -> (p1, s1) ∈ L -> (p2, s2) ∈ L -> b_lacp b = LACP_DISABLED ->
  eth_addr_is_multicast dst = true \/ b_balance b = BM_AB ->
  exists v1 t1 v2 t2,
    bond_check_admissibility (bs_aux s1) dst tags b = Ret ((v1, t1), b)
    /\ bond_check_admissibility (bs_aux s2) dst tags b = Ret ((v2, t2), b)
    /\ (v1 <> BV_DROP -> b_active b = Some p1 /\ (v2 <> BV_DROP -> p1 = p2)).
Proof.
  intros Hrep H1 H2 Hl Hm. destruct (check_admissibility_ok b L p1 s1 dst tags Hrep H1) as (t1 & E1).
  destruct (check_admissibility_ok b L p2 s2 dst tags Hrep H2) as (t2 & E2). do 4 eexists. split; [exact E1|].
  split; [exact E2|].
  assert (forall p s, verdict b p s dst <> BV_DROP -> b_active b = Some p) as Hv.
  { intros p s. unfold verdict. rewrite Hl. destruct Hm as [-> | ->]; cbn [andb].
    - case_bool_decide; [done|]. by cbn.
    - destruct (_ && _); [done|]. by case_bool_decide. }
  intros Hv1. split; [by eapply Hv|]. intros Hv2. apply Hv in Hv1, Hv2. congruence.
Qed.

Lemma bond_no_duplicates_witness :
  exists v1 t1 v2 t2,
    bond_check_admissibility 11 (replicate 6 255) 0 (demo_bond BM_SLB) = Ret ((v1, t1), demo_bond BM_SLB)
    /\ bond_check_admissibility 12 (replicate 6 255) 0 (demo_bond BM_SLB) = Ret ((v2, t2), demo_bond BM_SLB)
    /\ (v1 <> BV_DROP -> b_active (demo_bond BM_SLB) = Some 0%nat /\ (v2 <> BV_DROP -> 0%nat = 1%nat)).
Proof.
  apply (bond_no_duplicates (demo_bond BM_SLB) demo_bslaves 0 (demo_slave 11 6) 1 (demo_slave 12 12)).
  - apply demo_bond_rep.
  - left.
  - right. left.
  - done.
  - by left.
Defined.
