(* ===== verification/BondTime.v ===== *)
(** * Bonding: changes of a link in time (lib/bond.c)

    Sequences of calls of bond_run without LACP, and what they make of a link that goes down
    or flaps. *)
From stdpp Require Import strings.
From S2P Require Import Prelude Hash Hmap Tag Flow SlaveMap Lacp Bond BondRep BondUse BondProps.

Local Open Scope Z_scope.

#[local] Opaque hash_pointer.

(** bond_run, once in each of the worlds. *)
Fixpoint run_all (ws : list world) (b : bond) : outcome bond :=
  match ws with
  | [] => Ret b
  | w :: ws' =>
      match bond_run w tag_set_init LACP_DISABLED b with
      | Ret (_, b') => run_all ws' b'
      | Stuck e => Stuck e
      end
  end.

(** A world whose time is not the one that stands for never. *)
Definition timely (w : world) : Prop := world_ok w /\ w_now w < LLONG_MAX.

Lemma run_link w b L p s :
  world_ok w -> bond_rep b L -> (p, s) ∈ L ->
  exists r b' L' s', bond_run w tag_set_init LACP_DISABLED b = Ret (r, b') /\ bond_rep b' L'
    /\ b_downdelay b' = b_downdelay b /\ (p, s') ∈ L' /\ run_slave w (with_lacp LACP_DISABLED b) s s'.
Proof.
  intros Hw Hrep Hin. destruct (bond_run_ok w LACP_DISABLED tag_set_init b L Hw Hrep set_init_good)
    as (set' & fake & b' & L' & E & Hrun).
  destruct (slaves2_fst _ _ _ _ _ (rn_slaves _ _ _ _ _ _ _ _ Hrun) Hin) as (s' & Hin' & Hs').
  do 2 eexists. exists L', s'. split; [exact E|]. split; [apply Hrun|]. split; [|done]. by apply Hrun.
Qed.

(** An enabled slave is as its link makes it. *)
Lemma run_slave_enabled w b s s' : run_slave w b s s' -> bs_enabled s = true ->
  linked w b s s' /\ (bs_enabled s' = true -> bs_tag s' = bs_tag s).
Proof.
  intros (t & Hl & Hh) He. destruct (linked_hurried _ _ _ _ _ Hl Hh He) as [H1 H2].
  destruct (bs_enabled t) eqn:Et; [destruct (H1 eq_refl) as [-> ?]|rewrite (H2 eq_refl)]; [done|].
  split; [done|congruence].
Qed.

Section one_link.
Context (b : bond) (d : Z) (Hd : b_downdelay b = d).

(** The link is up: a delay that runs is forgotten. *)
Lemma link_stays w s s' :
  timely w -> run_slave w (with_lacp LACP_DISABLED b) s s' -> bs_enabled s = true -> link_up w s = true ->
  bs_enabled s' = true /\ bs_delay s' = LLONG_MAX /\ bs_tag s' = bs_tag s.
Proof.
  intros [_ Ht] Hr He Hu. destruct (run_slave_enabled _ _ _ _ Hr He) as [[_ E1 E2 _] Htag].
  assert (expires_at w (with_lacp LACP_DISABLED b) s = LLONG_MAX) as Ee.
  { unfold expires_at. rewrite Hu, He. cbn [Bool.eqb]. by destruct (Z.eqb_spec (bs_delay s) LLONG_MAX). }
  unfold fires in *. rewrite Ee in *. destruct (Z.leb_spec LLONG_MAX (w_now w)); [lia|].
  split_and!; [congruence|done|]. apply Htag. congruence.
Qed.

(** The link is down: the delay starts at the first call that sees it. *)
Lemma link_falls w s s' T :
  timely w -> run_slave w (with_lacp LACP_DISABLED b) s s' -> bs_enabled s = true -> link_up w s = false ->
  T < LLONG_MAX -> (if bs_delay s =? LLONG_MAX then w_now w + d else bs_delay s) = T ->
  bs_enabled s' = (w_now w <? T) /\ bs_delay s' = (if w_now w <? T then T else LLONG_MAX)
  /\ (bs_enabled s' = true -> bs_tag s' = bs_tag s).
Proof.
  intros [_ Ht] Hr He Hu HT Edef. destruct (run_slave_enabled _ _ _ _ Hr He) as [[_ E1 E2 _] Htag].
  assert (expires_at w (with_lacp LACP_DISABLED b) s = T) as Ee.
  { unfold expires_at, wait_for. rewrite Hu, He. cbn [Bool.eqb b_lacp with_lacp b_downdelay].
    rewrite bool_decide_true by done. cbn [negb]. rewrite Hd. by destruct (bs_delay s =? LLONG_MAX). }
  unfold fires in *. rewrite Ee in *. split_and!; [| |done].
  - rewrite E1, Hu, He. by destruct (Z.leb_spec T (w_now w)), (Z.ltb_spec (w_now w) T); try lia.
  - rewrite E2. by destruct (Z.leb_spec T (w_now w)), (Z.ltb_spec (w_now w) T); try lia.
Qed.

(** A slave that is disabled stays so while its link is down. *)
Lemma link_off w s s' :
  timely w -> run_slave w (with_lacp LACP_DISABLED b) s s' -> bs_enabled s = false -> link_up w s = false ->
  bs_delay s = LLONG_MAX -> bs_enabled s' = false /\ bs_delay s' = LLONG_MAX.
Proof.
  intros [_ Ht] (t & [_ E1 E2 _] & Hh) He Hu Hm.
  assert (expires_at w (with_lacp LACP_DISABLED b) s = LLONG_MAX) as Ee.
  { unfold expires_at. rewrite Hu, He, Hm. done. }
  unfold fires in *. rewrite Ee in *. destruct (Z.leb_spec LLONG_MAX (w_now w)); [lia|].
  destruct Hh as [->|(_ & _ & Hd' & _)]; [split; congruence|by rewrite E2 in Hd'].
Qed.

End one_link.

Lemma link_up_ident w s s' : ident s' = ident s -> link_up w s' = link_up w s.
Proof. unfold ident, link_up. by intros [= _ _ -> _ -> _ _ _]. Qed.

(** A streak of calls that see the link down, once the delay runs until [T] or is over. *)
Lemma streak ws : forall b L p s T,
  Forall timely ws -> bond_rep b L -> (p, s) ∈ L -> T < LLONG_MAX ->
  Forall (fun w => link_up w s = false) ws ->
  (bs_enabled s = true /\ bs_delay s = T \/ bs_enabled s = false /\ bs_delay s = LLONG_MAX) ->
  exists b' L' s', run_all ws b = Ret b' /\ bond_rep b' L' /\ (p, s') ∈ L' /\ ident s' = ident s
    /\ (bs_enabled s' = true <-> bs_enabled s = true /\ Forall (fun w => w_now w < T) ws)
    /\ (bs_enabled s' = true -> bs_tag s' = bs_tag s).
Proof.
  induction ws as [|w ws IH]; intros b L p s T Hws Hrep Hin HT Hdown Hs; cbn [run_all].
  { exists b, L, s. split_and!; [done..| |done]. split; [done|by intros []]. }
  apply Forall_cons in Hws as [Hw Hws], Hdown as [Hu Hdown].
  destruct (run_link w b L p s (proj1 Hw) Hrep Hin) as (r & b1 & L1 & s1 & -> & Hrep1 & Hd1 & Hin1 & Hrun).
  pose proof (run_slave_ident _ _ _ _ Hrun) as Eid.
  assert (Forall (fun w => link_up w s1 = false) ws) as Hdown1.
  { eapply Forall_impl; [exact Hdown|]. intros v Hv. cbn in Hv. by rewrite (link_up_ident v s s1 Eid). }
  destruct Hs as [[He Hdl]|[He Hdl]].
  - destruct (link_falls b (b_downdelay b) eq_refl w s s1 T Hw Hrun He Hu HT) as (E1 & E2 & E3).
    { destruct (Z.eqb_spec (bs_delay s) LLONG_MAX); lia. }
    destruct (IH b1 L1 p s1 T Hws Hrep1 Hin1 HT Hdown1) as (b' & L' & s' & E & Hrep' & Hin' & Eid' & Hen & Htag).
    { rewrite E1, E2. destruct (w_now w <? T); [by left|by right]. }
    exists b', L', s'. split_and!; [done..|congruence| |].
    + rewrite Hen, E1, Forall_cons, Z.ltb_lt. naive_solver.
    + intros Hx. pose proof (proj1 Hen Hx) as [Hx1 _]. rewrite (Htag Hx). by apply E3.
  - destruct (link_off b w s s1 Hw Hrun He Hu Hdl) as [E1 E2].
    destruct (IH b1 L1 p s1 T Hws Hrep1 Hin1 HT Hdown1) as (b' & L' & s' & E & Hrep' & Hin' & Eid' & Hen & Htag); [by right|].
    exists b', L', s'. split_and!; [done..|congruence| |].
    + rewrite Hen, E1, He. naive_solver.
    + intros Hx. apply Hen in Hx as [Hx _]. congruence.
Qed.

(** The delay of a link.  A slave is enabled and its link goes down.  The calls of
    bond_run that see it down disable it exactly when one of them comes downdelay milliseconds
    or more after the first; if none does and a call sees the link up again, the slave is as
    it was, with its tag, so that no flow has noticed. *)
Theorem bond_down_delay w ws u b L p s :
  Forall timely (u :: w :: ws) -> bond_rep b L -> (p, s) ∈ L -> bs_enabled s = true -> bs_delay s = LLONG_MAX ->
  w_now w + b_downdelay b < LLONG_MAX -> Forall (fun v => link_up v s = false) (w :: ws) -> link_up u s = true ->
  exists b1 L1 s1 b2 L2 s2,
    run_all (w :: ws) b = Ret b1 /\ bond_rep b1 L1 /\ (p, s1) ∈ L1
    /\ (bs_enabled s1 = true <-> Forall (fun v => w_now v < w_now w + b_downdelay b) (w :: ws))
    /\ run_all [u] b1 = Ret b2 /\ bond_rep b2 L2 /\ (p, s2) ∈ L2
    /\ (bs_enabled s1 = true -> bs_enabled s2 = true /\ bs_delay s2 = LLONG_MAX /\ bs_tag s2 = bs_tag s).
Proof.
  intros Hts Hrep Hin He Hdl HT Hdown Hup. apply Forall_cons in Hts as [Htu Hts]. apply Forall_cons in Hts as [Hw Hws].
  apply Forall_cons in Hdown as [Hu Hdown]. set (T := w_now w + b_downdelay b) in *.
  destruct (run_link w b L p s (proj1 Hw) Hrep Hin) as (r & b0 & L0 & s0 & E0 & Hrep0 & Hd0 & Hin0 & Hrun).
  pose proof (run_slave_ident _ _ _ _ Hrun) as Eid.
  destruct (link_falls b (b_downdelay b) eq_refl w s s0 T Hw Hrun He Hu HT) as (E1 & E2 & E3); [by rewrite Hdl|].
  destruct (streak ws b0 L0 p s0 T Hws Hrep0 Hin0 HT) as (b1 & L1 & s1 & E & Hrep1 & Hin1 & Eid1 & Hen & Htag).
  { eapply Forall_impl; [exact Hdown|]. intros v Hv. cbn in Hv. by rewrite (link_up_ident v s s0 Eid). }
  { rewrite E1, E2. destruct (w_now w <? T); [by left|by right]. }
  destruct (run_link u b1 L1 p s1 (proj1 Htu) Hrep1 Hin1) as (r2 & b2 & L2 & s2 & E4 & Hrep2 & _ & Hin2 & Hrun2).
  exists b1, L1, s1, b2, L2, s2. split; [cbn [run_all]; by rewrite E0|]. split_and!; [done..| | |done|done|].
  - rewrite Hen, E1, Forall_cons, Z.ltb_lt. done.
  - cbn [run_all]. by rewrite E4.
  - intros Hx. destruct (link_stays b1 u s1 s2 Htu Hrun2 Hx) as (F1 & F2 & F3).
    { rewrite (link_up_ident u s0 s1 Eid1). by rewrite (link_up_ident u s s0 Eid). }
    split_and!; [done..|]. pose proof (proj1 Hen Hx) as [Hx1 _]. rewrite F3, (Htag Hx). by apply E3.
Qed.

Lemma demo_timely t up : t < LLONG_MAX -> timely (demo_world t up).
Proof. split; [apply demo_world_ok|done]. Qed.

Lemma bond_down_delay_witness :
  exists b1 L1 s1 b2 L2 s2,
    run_all [demo_world 1000 (fun _ => false); demo_world 1100 (fun _ => false)] (demo_bond BM_AB) = Ret b1
    /\ bond_rep b1 L1 /\ (1%nat, s1) ∈ L1
    /\ (bs_enabled s1 = true <-> Forall (fun v => w_now v < 1000 + 200)
          [demo_world 1000 (fun _ => false); demo_world 1100 (fun _ => false)])
    /\ run_all [demo_world 1150 (fun _ => true)] b1 = Ret b2 /\ bond_rep b2 L2 /\ (1%nat, s2) ∈ L2
    /\ (bs_enabled s1 = true -> bs_enabled s2 = true /\ bs_delay s2 = LLONG_MAX /\ bs_tag s2 = 12).
Proof.
  apply (bond_down_delay (demo_world 1000 (fun _ => false)) [demo_world 1100 (fun _ => false)]
           (demo_world 1150 (fun _ => true)) (demo_bond BM_AB) demo_bslaves 1 (demo_slave 12 12)).
  - repeat constructor; by apply demo_timely.
  - apply demo_bond_rep.
  - right. left.
  - done.
  - done.
  - cbn. lia.
  - by repeat constructor.
  - done.
Defined.
