(* ===== verification/BondBalance.v ===== *)
(** * Bonding: rebalancing (lib/bond.c)

    bond_rebalance: its loops end, its sums do not wrap, and it moves entries of the hash
    table from slaves with much load to slaves with little. *)
From stdpp Require Import strings.
From S2P Require Import Prelude Hash Hmap Tag Flow SlaveMap Lacp Bond BondRep BondUse BondProps.

Local Open Scope Z_scope.

#[local] Opaque hash_pointer.

(** ** Loads *)

Definition carries (p : nat) (e : bond_entry) : Z := if bool_decide (e_slave e = Some p) then e_tx e else 0.

(** What the entries of a slave add up to, and what all entries do. *)
Fixpoint load (p : nat) (es : list bond_entry) : Z :=
  match es with [] => 0 | e :: es' => carries p e + load p es' end.
Fixpoint total_tx (es : list bond_entry) : Z :=
  match es with [] => 0 | e :: es' => e_tx e + total_tx es' end.

Definition fits (es : list bond_entry) : Prop := total_tx es < 2 ^ 64.

Lemma load_app p es es' : load p (es ++ es') = load p es + load p es'.
Proof. induction es as [|e es IH]; cbn; lia. Qed.

Lemma total_app es es' : total_tx (es ++ es') = total_tx es + total_tx es'.
Proof. induction es as [|e es IH]; cbn; lia. Qed.

Definition tx_ok (es : list bond_entry) : Prop := Forall (fun e => 0 <= e_tx e) es.

Lemma load_bounds p es : tx_ok es -> 0 <= load p es <= total_tx es.
Proof.
  induction 1 as [|e es He _ IH]; cbn; [lia|]. unfold carries. case_bool_decide; lia.
Qed.

Lemma load_insert p es i e e' : es !! i = Some e -> load p (<[i := e']> es) = load p es - carries p e + carries p e'.
Proof.
  intros Ei. rewrite <- (take_drop_middle es i e Ei) at 2. rewrite insert_take_drop by (by eapply lookup_lt_Some).
  rewrite !load_app. cbn. lia.
Qed.

Lemma total_insert es i e e' : es !! i = Some e -> e_tx e' = e_tx e -> total_tx (<[i := e']> es) = total_tx es.
Proof.
  intros Ei Et. rewrite <- (take_drop_middle es i e Ei) at 2. rewrite insert_take_drop by (by eapply lookup_lt_Some).
  rewrite !total_app. cbn. lia.
Qed.

Lemma load_entry_le p es i e : tx_ok es -> es !! i = Some e -> e_slave e = Some p -> 0 <= e_tx e <= load p es.
Proof.
  intros Hok Ei Es. rewrite <- (take_drop_middle es i e Ei). rewrite <- (take_drop_middle es i e Ei) in Hok.
  apply Forall_app in Hok as [H1 H2]. apply Forall_cons in H2 as [H2 H3].
  rewrite load_app. cbn. unfold carries at 1. rewrite bool_decide_true by done.
  pose proof (load_bounds p _ H1). pose proof (load_bounds p _ H3). lia.
Qed.

(** Two loads of different slaves together are no more than the total. *)
Lemma load_two p q es : p <> q -> tx_ok es -> load p es + load q es <= total_tx es.
Proof.
  intros Hpq. induction 1 as [|e es He _ IH]; cbn; [lia|]. unfold carries.
  repeat case_bool_decide; try lia. congruence.
Qed.

Lemma load_take_S p es n e : es !! n = Some e -> load p (take (S n) es) = load p (take n es) + carries p e.
Proof. intros En. rewrite (take_S_r _ _ _ En), load_app. cbn. lia. Qed.

(** ** The states of bond_rebalance *)

(** Besides the counter, the slaves and the entries nothing changes. *)
Definition bstate (b0 : bond) (H : gmap nat bond_slave) (es : list bond_entry) (d : nat) : bond :=
  rehash (Some es) d (with_bslaves (MkSm H (sm_next (b_slaves b0)) (sm_table (b_slaves b0))) b0).

Lemma hload b0 H es d p s : H !! p = Some s -> bload p (bstate b0 H es d) = Ret (s, bstate b0 H es d).
Proof. intros E. unfold bload, on_bslaves, sm_load, bstate. cbn. by rewrite E. Qed.

Lemma hstore b0 H es d p s f :
  H !! p = Some s -> bstore p f (bstate b0 H es d) = Ret (tt, bstate b0 (<[p := f s]> H) es d).
Proof. intros E. unfold bstore, on_bslaves, sm_modify, bstate. cbn. by rewrite E. Qed.

Lemma hload_entry b0 H es d i e : es !! i = Some e -> load_entry i (bstate b0 H es d) = Ret (e, bstate b0 H es d).
Proof. intros E. by eapply load_bond_entry_ok. Qed.

Lemma hstore_entry b0 H es d i e f :
  es !! i = Some e -> store_entry i f (bstate b0 H es d) = Ret (tt, bstate b0 H (<[i := f e]> es) d).
Proof. intros E. by rewrite (store_entry_ok (bstate b0 H es d) es i e f eq_refl E). Qed.

Lemma hdraw w b0 H es d : draw_tag w (bstate b0 H es d) = Ret (w_tag w d, bstate b0 H es (S d)).
Proof. done. Qed.

(** A slave but for its load. *)
Definition bare (s : bond_slave) : bond_slave := set_btx 0 (set_entries [] s).

Definition same_slaves (H0 H : gmap nat bond_slave) : Prop := bare <$> H = bare <$> H0.

Lemma same_slaves_insert H0 H p s s' :
  same_slaves H0 H -> H !! p = Some s -> bare s' = bare s -> same_slaves H0 (<[p := s']> H).
Proof.
  unfold same_slaves. intros <- Hp Hs. rewrite fmap_insert, Hs. apply insert_id. by rewrite lookup_fmap, Hp.
Qed.

Lemma same_slaves_lookup H0 H p s0 : same_slaves H0 H -> H0 !! p = Some s0 -> exists s, H !! p = Some s /\ bare s = bare s0.
Proof.
  unfold same_slaves. intros E E0. assert ((bare <$> H) !! p = Some (bare s0)) as Hp by (by rewrite E, lookup_fmap, E0).
  rewrite lookup_fmap in Hp. destruct (H !! p) as [s|]; [|done]. exists s. split; [done|]. by apply (inj Some) in Hp.
Qed.

Lemma same_slaves_sym H0 H : same_slaves H0 H -> same_slaves H H0.
Proof. unfold same_slaves. done. Qed.

Lemma bare_enabled s s' : bare s' = bare s -> bs_enabled s' = bs_enabled s.
Proof. unfold bare. destruct s, s'. cbn. by intros [=]. Qed.

(** ** The loops over the slaves and over the entries *)

Lemma entries_rule {B} (body : nat -> B -> bm B) (Inv : nat -> B -> bond -> Prop) :
  (forall i x b, (i < n_entries)%nat -> Inv i x b -> exists x' b', body i x b = Ret (x', b') /\ Inv (S i) x' b') ->
  forall x b, Inv 0%nat x b -> exists x' b', for_each_entry body x b = Ret (x', b') /\ Inv n_entries x' b'.
Proof.
  intros Hbody x b Hi. unfold for_each_entry.
  assert (forall n i x b, (i + n = n_entries)%nat -> Inv i x b ->
    exists x' b', each body (seq i n) x b = Ret (x', b') /\ Inv n_entries x' b') as Hgen.
  { clear x b Hi. induction n as [|n IH]; intros i x b Hn Hi; cbn [seq each].
    - exists x, b. split; [done|]. by replace n_entries with i by lia.
    - destruct (Hbody i x b ltac:(lia) Hi) as (x' & b' & E & Hi'). bstep E. apply IH; [lia|done]. }
  by apply Hgen.
Qed.

Definition cleared (s : bond_slave) : Prop := bs_tx s = 0 /\ bs_entries s = [].

Lemma clear_all b0 es d ps : forall H,
  (forall p, p ∈ ps -> is_Some (H !! p)) ->
  exists H', each clear_load ps tt (bstate b0 H es d) = Ret (tt, bstate b0 H' es d) /\ same_slaves H H'
    /\ forall p s, H' !! p = Some s -> (p ∈ ps -> cleared s) /\ (p ∉ ps -> H !! p = Some s).
Proof.
  induction ps as [|p ps IH]; intros H Hps; cbn [each].
  { exists H. split_and!; [done..|]. intros p s Hp. split; [by intros ?%not_elem_of_nil|done]. }
  destruct (Hps p ltac:(left)) as [s Hs].
  assert (clear_load p tt (bstate b0 H es d) = Ret (tt, bstate b0 (<[p := set_entries [] (set_btx 0 s)]> H) es d)) as E.
  { unfold clear_load. bstep (hstore b0 H es d p s (set_btx 0) Hs).
    rewrite (hstore b0 _ es d p (set_btx 0 s) (set_entries [])) by apply lookup_insert_eq. by rewrite insert_insert_eq. }
  bstep E. set (H1 := <[p := set_entries [] (set_btx 0 s)]> H).
  assert (same_slaves H H1) as Hsame by (by eapply same_slaves_insert).
  destruct (IH H1) as (H' & E' & Hs' & Hz).
  { intros q Hq. unfold H1. destruct (decide (q = p)) as [->|]; [rewrite lookup_insert_eq; by eexists|].
    rewrite lookup_insert_ne by done. apply Hps. by right. }
  exists H'. split; [done|]. split; [by unfold same_slaves in *; congruence|].
  intros q t Hq. destruct (Hz q t Hq) as [Z1 Z2]. split; intros Hin.
  - destruct (decide (q ∈ ps)) as [?|Hn]; [by apply Z1|]. apply elem_of_cons in Hin as [->|?]; [|done].
    specialize (Z2 Hn). unfold H1 in Z2. rewrite lookup_insert_eq in Z2. by injection Z2 as <-.
  - apply not_elem_of_cons in Hin as [Hne Hn]. specialize (Z2 Hn). unfold H1 in Z2.
    by rewrite lookup_insert_ne in Z2 by done.
Qed.

(** The number of entries that are on the lists of slaves. *)
Definition len_at (H : gmap nat bond_slave) (p : nat) : nat :=
  match H !! p with Some s => length (bs_entries s) | None => 0 end.

Fixpoint len_sum (H : gmap nat bond_slave) (ps : list nat) : nat :=
  match ps with [] => 0 | p :: ps' => len_at H p + len_sum H ps' end.

Lemma len_at_insert H p s' q : len_at (<[p := s']> H) q = if decide (q = p) then length (bs_entries s') else len_at H q.
Proof.
  unfold len_at. case_decide as E; [by rewrite E, lookup_insert_eq|by rewrite lookup_insert_ne by done].
Qed.

Lemma len_sum_out H p s' ps : p ∉ ps -> len_sum (<[p := s']> H) ps = len_sum H ps.
Proof.
  induction ps as [|q ps IH]; intros Hn; [done|]. apply not_elem_of_cons in Hn as [Hne Hn]. cbn [len_sum].
  rewrite len_at_insert, decide_False, IH by done. done.
Qed.

Lemma len_sum_insert H p s s' ps :
  NoDup ps -> H !! p = Some s ->
  len_sum (<[p := s']> H) ps = if decide (p ∈ ps)
    then (len_sum H ps + length (bs_entries s') - length (bs_entries s))%nat else len_sum H ps.
Proof.
  intros Hd Hp. case_decide as Hin; [|by apply len_sum_out].
  induction Hd as [|q ps Hq Hd IH]; [by apply not_elem_of_nil in Hin|]. cbn [len_sum]. rewrite len_at_insert.
  case_decide as Eq.
  - subst q. rewrite len_sum_out by done. unfold len_at. rewrite Hp. lia.
  - apply elem_of_cons in Hin as [->|Hin]; [done|]. rewrite (IH Hin).
    assert (length (bs_entries s) <= len_sum H ps)%nat; [|lia].
    clear IH Hq Hd Eq. induction ps as [|r ps IH]; [by apply not_elem_of_nil in Hin|]. cbn [len_sum].
    apply elem_of_cons in Hin as [<-|Hin]; [unfold len_at; rewrite Hp; lia|specialize (IH Hin); lia].
Qed.

Lemma len_sum_perm H ps qs : ps ≡ₚ qs -> len_sum H ps = len_sum H qs.
Proof. induction 1; cbn [len_sum]; lia. Qed.

Lemma len_sum_sub H ps qs : ps ⊆+ qs -> (len_sum H ps <= len_sum H qs)%nat.
Proof. induction 1; cbn [len_sum]; lia. Qed.

(** What the slaves have counted of the first [n] entries. *)
Record counted_to (ps : list nat) (H0 : gmap nat bond_slave) (es : list bond_entry) (n : nat)
    (H : gmap nat bond_slave) : Prop := {
  cn_same : same_slaves H0 H;
  cn_entries : forall p s i, H !! p = Some s -> i ∈ bs_entries s ->
                 (i < n)%nat /\ exists e, es !! i = Some e /\ e_slave e = Some p;
  cn_load : fits es -> forall p s, H !! p = Some s -> bs_tx s = load p (take n es);
  cn_length : (len_sum H ps <= n)%nat
}.

(** The entry [i] of the slave [p] is counted. *)
Lemma count_step ps H0 es i H p s e :
  NoDup ps -> tx_ok es -> counted_to ps H0 es i H -> es !! i = Some e -> e_slave e = Some p -> H !! p = Some s ->
  counted_to ps H0 es (S i) (<[p := set_entries (bs_entries s ++ [i]) (set_btx (u64 (bs_tx s + e_tx e)) s)]> H).
Proof.
  intros Hd Htx [C1 C2 C3 C4] Ei Es Hp. split.
  - by eapply same_slaves_insert.
  - intros q t j Hq Hj. destruct (decide (q = p)) as [->|Hne].
    + rewrite lookup_insert_eq in Hq. injection Hq as <-. cbn in Hj.
      apply elem_of_app in Hj as [Hj|Hj]; [destruct (C2 _ _ _ Hp Hj); split; [lia|done]|].
      apply list_elem_of_singleton in Hj as ->. split; [lia|by exists e].
    + rewrite lookup_insert_ne in Hq by done. destruct (C2 _ _ _ Hq Hj). split; [lia|done].
  - intros Hf q t Hq. rewrite (load_take_S q es i e Ei). unfold carries. rewrite Es.
    destruct (decide (q = p)) as [->|Hne].
    + rewrite lookup_insert_eq in Hq. injection Hq as <-. cbn [bs_tx set_entries set_btx]. rewrite bool_decide_true by done.
      rewrite (C3 Hf p s Hp). rewrite wrap_small; [done|].
      assert (tx_ok (take (S i) es)) as Htx' by (by apply Forall_take).
      pose proof (load_bounds p _ Htx') as [H1 H2]. rewrite (load_take_S p es i e Ei) in H1, H2.
      unfold carries in H1, H2. rewrite bool_decide_true in H1, H2 by done. split; [done|].
      assert (total_tx (take (S i) es) <= total_tx es); [|unfold fits in Hf; lia].
      rewrite <- (take_drop (S i) es) at 2. rewrite total_app.
      assert (tx_ok (drop (S i) es)) as Hd' by (by apply Forall_drop).
      pose proof (load_bounds p _ Hd'). lia.
    + rewrite lookup_insert_ne in Hq by done. rewrite bool_decide_false by congruence. rewrite (C3 Hf q t Hq). lia.
  - rewrite (len_sum_insert H p s) by done. cbn [bs_entries set_entries]. rewrite length_app. cbn [length].
    case_decide; lia.
Qed.

Lemma count_skip ps H0 es i H e :
  counted_to ps H0 es i H -> es !! i = Some e -> (forall p, carries p e = 0) -> counted_to ps H0 es (S i) H.
Proof.
  intros [C1 C2 C3 C4] Ei Hz. split; [done| | |lia].
  - intros p s j Hp Hj. destruct (C2 _ _ _ Hp Hj). split; [lia|done].
  - intros Hf p s Hp. rewrite (load_take_S p es i e Ei), Hz, (C3 Hf p s Hp). lia.
Qed.

Lemma entries_tx_ok ps es : Forall (entry_ok ps) es -> tx_ok es.
Proof. intros He. eapply Forall_impl; [exact He|]. intros e Ho. apply (eo_tx _ _ Ho). Qed.

Lemma count_all b0 ps H0 H es d :
  NoDup ps -> length es = n_entries -> Forall (entry_ok ps) es -> (forall p, p ∈ ps -> is_Some (H0 !! p)) ->
  counted_to ps H0 es 0 H ->
  exists H', for_each_entry count_entry tt (bstate b0 H es d) = Ret (tt, bstate b0 H' es d) /\ counted_to ps H0 es n_entries H'.
Proof.
  intros Hd Hlen Hes Hdom Hc.
  destruct (entries_rule count_entry (fun i _ b => exists H', b = bstate b0 H' es d /\ counted_to ps H0 es i H'))
    with (x := tt) (b := bstate b0 H es d) as ([] & b' & E & H' & -> & Hc'); [|by exists H|by exists H'].
  clear H Hc. intros i [] b Hi (H & -> & Hc). destruct (lookup_lt_is_Some_2 es i) as [e Ei]; [lia|].
  pose proof (Forall_lookup_1 _ _ _ _ Hes Ei) as He.
  unfold count_entry. bstep (hload_entry b0 H es d i e Ei). exists tt. destruct (e_slave e) as [p|] eqn:Es.
  - destruct (Hdom p (eo_slave _ _ He p Es)) as [s0 Hs0].
    destruct (same_slaves_lookup _ _ p s0 (cn_same _ _ _ _ _ Hc) Hs0) as (s & Hs & _).
    destruct (Z.eqb_spec (e_tx e) 0) as [Ez|]; cbn [negb].
    + eexists. split; [done|]. exists H. split; [done|]. eapply count_skip; [done..|].
      intros q. unfold carries. by case_bool_decide.
    + bstep (hstore b0 H es d p s (fun s => set_btx (u64 (bs_tx s + e_tx e)) s) Hs).
      assert (<[p := set_btx (u64 (bs_tx s + e_tx e)) s]> H !! p = Some (set_btx (u64 (bs_tx s + e_tx e)) s)) as Hs1
        by apply lookup_insert_eq.
      rewrite (hstore b0 _ es d p _ (fun s => set_entries (bs_entries s ++ [i]) s) Hs1).
      rewrite insert_insert_eq. eexists. split; [done|]. eexists. split; [done|]. apply (count_step ps H0 es i H p s e); try done.
      by eapply entries_tx_ok.
  - eexists. split; [done|]. exists H. split; [done|]. eapply count_skip; [done..|]. intros q. unfold carries. by rewrite Es.
Qed.

(** ** The list of slaves by load *)

Definition tx_at (H : gmap nat bond_slave) (p : nat) : Z := match H !! p with Some s => bs_tx s | None => 0 end.

Fixpoint ins (H : gmap nat bond_slave) (p : nat) (bals : list nat) : list nat :=
  match bals with
  | [] => [p]
  | q :: rest => if tx_at H q <? tx_at H p then p :: bals else q :: ins H p rest
  end.

(** In descending order of load. *)
Fixpoint by_load (H : gmap nat bond_slave) (bals : list nat) : Prop :=
  match bals with [] => True | p :: rest => Forall (fun q => tx_at H q <= tx_at H p) rest /\ by_load H rest end.

Lemma ins_perm H p bals : ins H p bals ≡ₚ p :: bals.
Proof.
  induction bals as [|q bals IH]; [done|]. cbn [ins]. destruct (_ <? _); [done|]. rewrite IH. apply Permutation_swap.
Qed.

Lemma ins_by_load H p bals : by_load H bals -> by_load H (ins H p bals).
Proof.
  induction bals as [|q bals IH]; intros Hs; cbn [ins]; [by split|]. destruct Hs as [H1 H2].
  destruct (Z.ltb_spec (tx_at H q) (tx_at H p)).
  - split; [|done]. constructor; [lia|]. eapply Forall_impl; [exact H1|]. cbn. lia.
  - split; [|by apply IH]. rewrite (ins_perm H p bals). constructor; [lia|done].
Qed.

Lemma by_load_ext H H' bals : (forall p, p ∈ bals -> tx_at H' p = tx_at H p) -> by_load H bals -> by_load H' bals.
Proof.
  induction bals as [|p bals IH]; intros Ht Hs; [done|]. destruct Hs as [H1 H2]. split.
  - rewrite Forall_forall in H1 |- *. intros q Hq. rewrite (Ht p), (Ht q) by (by left || by right). by apply H1.
  - apply IH; [|done]. intros q Hq. apply Ht. by right.
Qed.

Lemma by_load_app H l l' : by_load H (l ++ l') -> by_load H l.
Proof.
  induction l as [|p l IH]; intros Hs; [done|]. destruct Hs as [H1 H2]. apply Forall_app in H1 as [H1 _].
  split; [done|by apply IH].
Qed.

Definition known (H : gmap nat bond_slave) (ps : list nat) : Prop := forall p, p ∈ ps -> is_Some (H !! p).

Lemma insert_at_load_ok b0 H es d p bals :
  known H bals -> insert_at_load p (tx_at H p) bals (bstate b0 H es d) = Ret (ins H p bals, bstate b0 H es d).
Proof.
  induction bals as [|q bals IH]; intros Hk; [done|]. cbn [insert_at_load ins].
  destruct (Hk q ltac:(left)) as [t Ht]. bstep (hload b0 H es d q t Ht). unfold tx_at at 1 3. rewrite Ht.
  destruct (_ <? _); [done|]. bstep (IH (fun r Hr => Hk r ltac:(by right))). done.
Qed.

Lemma insert_bal_ok b0 H es d p bals :
  known H (p :: bals) -> insert_bal p bals (bstate b0 H es d) = Ret (ins H p bals, bstate b0 H es d).
Proof.
  intros Hk. destruct (Hk p ltac:(left)) as [s Hs]. unfold insert_bal. bstep (hload b0 H es d p s Hs).
  replace (bs_tx s) with (tx_at H p) by (unfold tx_at; by rewrite Hs). apply insert_at_load_ok.
  intros q Hq. apply Hk. by right.
Qed.

(** ** Moving an entry *)

(** An entry moves from a slave to another that carries at least 100 kB less. *)
Inductive move (H0 : gmap nat bond_slave) (es : list bond_entry) : list bond_entry -> Prop :=
  | Move i e p q t sp sq :
      es !! i = Some e -> e_slave e = Some p -> H0 !! p = Some sp -> H0 !! q = Some sq ->
      bs_enabled sp = true -> bs_enabled sq = true -> p <> q -> good_tag t ->
      (fits es -> load q es + 100000 <= load p es) ->
      move H0 es (<[i := MkEntry (Some q) (e_tx e) t]> es).

(** What holds from round to round. *)
Record shifting (ps : list nat) (H0 : gmap nat bond_slave) (es0 : list bond_entry) (set0 : tag_set)
    (H : gmap nat bond_slave) (es : list bond_entry) (set : tag_set) : Prop := {
  sh_same : same_slaves H0 H;
  sh_len : length es = n_entries;
  sh_hash : Forall (entry_ok ps) es;
  sh_entries : forall p s i, H !! p = Some s -> i ∈ bs_entries s -> exists e, es !! i = Some e /\ e_slave e = Some p;
  sh_load : fits es -> forall p s, H !! p = Some s -> bs_tx s = load p es;
  sh_moves : rtc (move H0) es0 es;
  sh_set : set_good set /\ set_le set0 set;
  sh_tags : forall i e0 e, es0 !! i = Some e0 -> es !! i = Some e ->
              e_slave e = e_slave e0 /\ e_tag e = e_tag e0 \/ in_set (e_tag e0) set
}.

(** The slaves after the entry [i], of [delta] bytes, has gone from [from] to [to]. *)
Definition shifted (H : gmap nat bond_slave) (i from to : nat) (sf st : bond_slave) (delta : Z) : gmap nat bond_slave :=
  <[from := set_entries (without i (bs_entries sf)) (set_btx (u64 (bs_tx sf - delta)) sf)]>
    (<[to := set_btx (u64 (bs_tx st + delta)) st]> H).

Lemma bond_shift_load_ok w b0 H es d i from to sf st e set :
  es !! i = Some e -> e_slave e = Some from -> H !! from = Some sf -> H !! to = Some st -> from <> to ->
  (set ← bond_shift_load w i to set;
   _ ← bstore from (fun s => set_entries (without i (bs_entries s)) s); mret set) (bstate b0 H es d)
  = Ret (tag_set_add set (e_tag e),
         bstate b0 (shifted H i from to sf st (e_tx e)) (<[i := MkEntry (Some to) (e_tx e) (w_tag w d)]> es) (S d)).
Proof.
  intros Ei Es Hf Ht Hne. unfold bond_shift_load. bassoc. bstep (hload_entry b0 H es d i e Ei).
  rewrite cstate_bind_assoc, Es. bstep (eq_refl : bderef (Some from) (bstate b0 H es d) = Ret (from, bstate b0 H es d)).
  bassoc. bstep (hstore b0 H es d from sf (fun s => set_btx (u64 (bs_tx s - e_tx e)) s) Hf).
  set (sf1 := set_btx (u64 (bs_tx sf - e_tx e)) sf).
  assert (<[from := sf1]> H !! to = Some st) as Ht1 by (by rewrite lookup_insert_ne).
  bassoc. bstep (hstore b0 _ es d to st (fun s => set_btx (u64 (bs_tx s + e_tx e)) s) Ht1).
  set (H2 := <[to := _]> _). bassoc. bstep (hstore_entry b0 H2 es d i e (set_eslave (Some to)) Ei).
  bassoc. bstep (hdraw w b0 H2 (<[i := set_eslave (Some to) e]> es) d).
  assert (<[i := set_eslave (Some to) e]> es !! i = Some (set_eslave (Some to) e)) as Ei1
    by (apply list_lookup_insert_eq; by eapply lookup_lt_Some).
  bassoc. bstep (hstore_entry b0 H2 _ (S d) i _ (set_etag (w_tag w d)) Ei1).
  rewrite list_insert_insert_eq.
  bret.
  assert (H2 !! from = Some sf1) as Hf2 by (unfold H2; by rewrite lookup_insert_ne, lookup_insert_eq).
  bstep (hstore b0 H2 (<[i := set_etag (w_tag w d) (set_eslave (Some to) e)]> es) (S d) from sf1
           (fun s => set_entries (without i (bs_entries s)) s) Hf2).
  unfold H2, shifted. rewrite (insert_insert_ne _ to from) by done. rewrite insert_insert_eq.
  done.
Qed.

Lemma bind_then {S A B C} (m : cstate S A) (n : cstate S B) (k : A -> cstate S C) s x s' :
  (a ← m; _ ← n; mret a) s = Ret (x, s') -> (a ← m; _ ← n; k a) s = k x s'.
Proof.
  unfold mbind, cstate_bind. destruct (m s) as [[a s1]|]; [|done]. destruct (n s1) as [[b s2]|]; [|done].
  by intros [= -> ->].
Qed.

Lemma elem_without p l q : q ∈ without p l <-> q <> p /\ q ∈ l.
Proof. unfold without. by rewrite list_elem_of_filter. Qed.

Lemma lookup_shifted H i from to sf st delta p s :
  from <> to -> H !! from = Some sf -> H !! to = Some st -> shifted H i from to sf st delta !! p = Some s ->
  exists s0, H !! p = Some s0 /\ bare s = bare s0
    /\ bs_entries s = (if decide (p = from) then without i (bs_entries s0) else bs_entries s0)
    /\ bs_tx s = (if decide (p = from) then u64 (bs_tx s0 - delta)
                  else if decide (p = to) then u64 (bs_tx s0 + delta) else bs_tx s0).
Proof.
  intros Hne Hf Ht. unfold shifted. destruct (decide (p = from)) as [->|H1].
  - rewrite lookup_insert_eq. intros [= <-]. by exists sf.
  - rewrite lookup_insert_ne by done. destruct (decide (p = to)) as [->|H2].
    + rewrite lookup_insert_eq. intros [= <-]. by exists st.
    + rewrite lookup_insert_ne by done. intros Hp. by exists s.
Qed.

Lemma shift_keeps w d ps H0 es0 set0 H es set i from to sf st e sf0 st0 :
  world_ok w -> shifting ps H0 es0 set0 H es set ->
  es !! i = Some e -> e_slave e = Some from -> H !! from = Some sf -> H !! to = Some st -> from <> to ->
  to ∈ ps -> H0 !! from = Some sf0 -> H0 !! to = Some st0 -> bs_enabled sf0 = true -> bs_enabled st0 = true ->
  (fits es -> load to es + 100000 <= load from es) ->
  shifting ps H0 es0 set0 (shifted H i from to sf st (e_tx e))
    (<[i := MkEntry (Some to) (e_tx e) (w_tag w d)]> es) (tag_set_add set (e_tag e)).
Proof.
  intros Hw [S1 S2 S3 S4 S5 S6 [S7 S7'] S8] Ei Es Hf Ht Hne Hps Hf0 Ht0 Hef Het Hload.
  pose proof (Forall_lookup_1 _ _ _ _ S3 Ei) as [O1 O2 O3 O4].
  assert (fits (<[i := MkEntry (Some to) (e_tx e) (w_tag w d)]> es) <-> fits es) as Hfits
    by (unfold fits; by rewrite (total_insert es i e)).
  split.
  - unfold shifted. eapply same_slaves_insert with (s := sf); [|by rewrite lookup_insert_ne|done].
    by eapply same_slaves_insert.
  - by rewrite length_insert.
  - apply Forall_insert; [done|]. split; cbn; [by intros p [= <-]|apply Hw|intros _; apply Hw|done].
  - intros p s j Hp Hj. destruct (lookup_shifted H i from to sf st (e_tx e) p s Hne Hf Ht Hp) as (s0 & Hs0 & _ & Ee & _).
    rewrite Ee in Hj. destruct (decide (p = from)) as [->|Hpf].
    + apply elem_without in Hj as [Hji Hj]. rewrite list_lookup_insert_ne by done. by eapply S4.
    + destruct (S4 p s0 j Hs0 Hj) as (e1 & E1 & E2). rewrite list_lookup_insert_ne; [by exists e1|]. congruence.
  - intros Hfit p s Hp. apply Hfits in Hfit. pose proof (entries_tx_ok ps es S3) as Htx.
    destruct (lookup_shifted H i from to sf st (e_tx e) p s Hne Hf Ht Hp) as (s0 & Hs0 & _ & _ & ->).
    rewrite (load_insert p es i e) by done. rewrite (S5 Hfit p s0 Hs0). unfold carries. cbn [e_slave e_tx]. rewrite Es.
    pose proof (load_entry_le from es i e Htx Ei Es). pose proof (load_two from to es Hne Htx).
    pose proof (load_bounds from es Htx). pose proof (load_bounds to es Htx). unfold fits in Hfit.
    destruct (decide (p = from)) as [->|Hpf].
    + rewrite bool_decide_true, bool_decide_false by congruence. rewrite wrap_small; lia.
    + rewrite (bool_decide_false (Some from = Some p)) by congruence. destruct (decide (p = to)) as [->|Hpt].
      * rewrite bool_decide_true by done. rewrite wrap_small; lia.
      * rewrite bool_decide_false by congruence. lia.
  - eapply rtc_r; [exact S6|]. by eapply (Move H0 es i e from to (w_tag w d) sf0 st0); try done; apply Hw.
  - split; [by apply set_add_good|]. transitivity set; [done|by apply set_add_le].
  - intros j e0 e1 E0 E1. destruct (decide (j = i)) as [->|Hji].
    + right. destruct (S8 i e0 e E0 Ei) as [[_ Et]|Hin]; [rewrite <- Et; by apply set_add_in|by apply set_add_le].
    + rewrite list_lookup_insert_ne in E1 by done. destruct (S8 j e0 e1 E0 E1) as [?|?]; [by left|right].
      by apply set_add_le.
Qed.

Lemma first_migratable_ok b0 H es d ftx ttx l :
  (forall i, i ∈ l -> is_Some (es !! i)) ->
  exists r, first_migratable ftx ttx l (bstate b0 H es d) = Ret (r, bstate b0 H es d) /\ forall i, r = Some i -> i ∈ l.
Proof.
  induction l as [|i l IH]; intros Hl; cbn [first_migratable]; [by exists None|].
  destruct (ttx =? 0); [exists (Some i); split; [done|intros j [= <-]; left]|].
  destruct (Hl i ltac:(left)) as [e He]. bstep (hload_entry b0 H es d i e He).
  destruct (ratio_drops ftx ttx (e_tx e)); [exists (Some i); split; [done|intros j [= <-]; left]|].
  destruct IH as (r & E & Hr); [intros j Hj; apply Hl; by right|]. exists r. split; [done|].
  intros j Hj. right. by apply Hr.
Qed.

Lemma choose_entry_ok b0 H es d from sf ttx :
  H !! from = Some sf -> (forall i, i ∈ bs_entries sf -> is_Some (es !! i)) ->
  exists r, choose_entry_to_migrate from ttx (bstate b0 H es d) = Ret (r, bstate b0 H es d)
    /\ forall i, r = Some i -> i ∈ bs_entries sf.
Proof.
  intros Hf He. unfold choose_entry_to_migrate. bstep (hload b0 H es d from sf Hf).
  destruct (_ <=? 1)%nat; [by exists None|by apply first_migratable_ok].
Qed.

Lemma without_out p l : p ∉ l -> without p l = l.
Proof. intros Hp. apply filter_all, Forall_forall. intros q Hq ->. done. Qed.

Lemma without_self p l : p ∉ l -> without p (p :: l) = l.
Proof. intros Hp. unfold without. rewrite filter_cons_False by (intros Hx; by apply Hx). by apply without_out. Qed.

(** Taking the least loaded slave out again leaves the others in place. *)
Lemma without_ins H p q mid : p <> q -> q ∉ mid -> without q (ins H p (mid ++ [q])) = ins H p mid.
Proof.
  intros Hpq. induction mid as [|r mid IH]; intros Hq; cbn [app ins].
  - destruct (_ <? _); unfold without.
    + rewrite filter_cons_True by done. by rewrite filter_cons_False by (intros Hx; by apply Hx).
    + rewrite filter_cons_False by (intros Hx; by apply Hx). by rewrite filter_cons_True by done.
  - apply not_elem_of_cons in Hq as [Hqr Hq]. destruct (_ <? _).
    + unfold without. rewrite !filter_cons_True by done. do 2 f_equal. rewrite filter_app.
      rewrite (filter_cons_False _ q []) by (intros Hx; by apply Hx). rewrite app_nil_r. by apply without_out.
    + unfold without in *. rewrite filter_cons_True by done. by rewrite IH.
Qed.

(** The members of the list: different slaves, registered and enabled, in order of load. *)
Record bals_ok (ps : list nat) (H0 H : gmap nat bond_slave) (bals : list nat) : Prop := {
  ba_nodup : NoDup bals;
  ba_in : forall p, p ∈ bals -> p ∈ ps;
  ba_enabled : forall p, p ∈ bals -> exists s, H0 !! p = Some s /\ bs_enabled s = true;
  ba_by_load : by_load H bals
}.

Lemma bals_ok_tail ps H0 H p bals : bals_ok ps H0 H (p :: bals) -> bals_ok ps H0 H bals.
Proof.
  intros [B1 B2 B3 [_ B4]]. apply NoDup_cons in B1 as [_ B1]. split; [done|..|done]; intros q Hq;
    [apply B2|apply B3]; by right.
Qed.

Lemma bals_known ps H0 H bals : bals_ok ps H0 H bals -> same_slaves H0 H -> known H bals.
Proof.
  intros Hb Hs p Hp. destruct (ba_enabled _ _ _ _ Hb p Hp) as (s0 & Hs0 & _).
  destruct (same_slaves_lookup _ _ p s0 Hs Hs0) as (s & E & _). by exists s.
Qed.

Lemma tx_at_shifted H i from to sf st delta p : p <> from -> p <> to -> tx_at (shifted H i from to sf st delta) p = tx_at H p.
Proof. intros H1 H2. unfold tx_at, shifted. by rewrite !lookup_insert_ne. Qed.

Lemma len_sum_shifted H i from to sf st delta bals :
  NoDup bals -> H !! from = Some sf -> H !! to = Some st -> from <> to -> from ∈ bals -> i ∈ bs_entries sf ->
  (len_sum (shifted H i from to sf st delta) bals < len_sum H bals)%nat.
Proof.
  intros Hd Hf Ht Hne Hin Hi. unfold shifted.
  rewrite (len_sum_insert _ from sf) by (done || by rewrite lookup_insert_ne). rewrite decide_True by done.
  assert (len_sum (<[to := set_btx (u64 (bs_tx st + delta)) st]> H) bals = len_sum H bals) as ->.
  { rewrite (len_sum_insert H to st) by done. cbn [bs_entries set_btx]. case_decide; lia. }
  cbn [bs_entries set_entries set_btx].
  assert (length (without i (bs_entries sf)) < length (bs_entries sf))%nat as Hl
    by (apply (length_filter_lt _ _ i); [done|intros Hx; by apply Hx]).
  assert (length (bs_entries sf) <= len_sum H bals)%nat; [|lia].
  clear Hd Hl. induction bals as [|q bals IH]; [by apply not_elem_of_nil in Hin|]. cbn [len_sum].
  apply elem_of_cons in Hin as [<-|Hin]; [unfold len_at; rewrite Hf; lia|specialize (IH Hin); lia].
Qed.

(** The list after a round that moved an entry. *)
Lemma rebalanced_list ps H0 H H' from mid to :
  bals_ok ps H0 H (from :: mid ++ [to]) -> (forall p, p ∈ mid -> tx_at H' p = tx_at H p) ->
  let bals' := ins H' to (ins H' from mid) in
  bals_ok ps H0 H' bals' /\ bals' ≡ₚ from :: mid ++ [to]
  /\ without to (ins H' from (without from (from :: mid ++ [to]))) = ins H' from mid.
Proof.
  intros [B1 B2 B3 [_ B4]] Ht bals'.
  assert (bals' ≡ₚ from :: mid ++ [to]) as EP
    by (unfold bals'; rewrite !ins_perm, (Permutation_app_comm mid [to]); apply Permutation_swap).
  split_and!.
  - split.
    + by rewrite EP.
    + intros p Hp. apply B2. by rewrite <- EP.
    + intros p Hp. apply B3. by rewrite <- EP.
    + apply ins_by_load, ins_by_load, (by_load_ext H); [done|]. by apply by_load_app in B4.
  - done.
  - apply NoDup_cons in B1 as [Hn B1]. rewrite without_self by done. apply NoDup_app in B1 as (_ & B1 & _).
    apply without_ins; [|intros Hx; apply (B1 to Hx); left]. intros ->. apply Hn. apply elem_of_app. right. left.
Qed.

(** The test for an overload, when it fails, means what it says. *)
Lemma overload_load ps H0 es0 set0 H es set from to sf st :
  shifting ps H0 es0 set0 H es set -> H !! from = Some sf -> H !! to = Some st -> tx_at H to <= tx_at H from ->
  (u64 (bs_tx sf - bs_tx st) <? 100000) = false -> fits es -> load to es + 100000 <= load from es.
Proof.
  intros [_ _ S3 _ S5 _ _ _] Hf Ht Hle Ho Hfit. pose proof (entries_tx_ok ps es S3) as Htx. unfold tx_at in Hle.
  rewrite Hf, Ht in Hle. rewrite (S5 Hfit from sf Hf), (S5 Hfit to st Ht) in *.
  pose proof (load_bounds from es Htx). pose proof (load_bounds to es Htx). unfold fits in Hfit.
  rewrite wrap_small in Ho by lia. apply Z.ltb_ge in Ho. lia.
Qed.

(** One round of the loop that moves an entry. *)
Lemma shift_round w b0 ps H0 es0 set0 H es set d from mid to sf st i :
  world_ok w -> shifting ps H0 es0 set0 H es set -> bals_ok ps H0 H (from :: mid ++ [to]) ->
  H !! from = Some sf -> H !! to = Some st -> i ∈ bs_entries sf ->
  (u64 (bs_tx sf - bs_tx st) <? 100000) = false ->
  exists set' H' es' bals', (set ← bond_shift_load w i to set;
      _ ← bstore from (fun s => set_entries (without i (bs_entries s)) s);
      bals ← reinsert_bal (from :: mid ++ [to]) from; bals ← reinsert_bal bals to; mret (set, bals)) (bstate b0 H es d)
    = Ret ((set', bals'), bstate b0 H' es' (S d))
    /\ shifting ps H0 es0 set0 H' es' set' /\ bals_ok ps H0 H' bals'
    /\ length bals' = length (from :: mid ++ [to])
    /\ (len_sum H' bals' < len_sum H (from :: mid ++ [to]))%nat.
Proof.
  intros Hw Hs Hb Hf Ht Hi Ho. destruct (sh_entries _ _ _ _ _ _ _ Hs from sf i Hf Hi) as (e & Ei & Es).
  assert (to ∈ mid ++ [to]) as Hto by (apply elem_of_app; right; left).
  pose proof Hb as [B1 B2 B3 [B4 B5]]. apply NoDup_cons in B1 as [Bn B1].
  assert (from <> to) as Hne by (intros ->; done).
  destruct (B3 from ltac:(left)) as (sf0 & Hf0 & Hef). destruct (B3 to ltac:(by right)) as (st0 & Ht0 & Het).
  set (H' := shifted H i from to sf st (e_tx e)).
  set (es' := <[i := MkEntry (Some to) (e_tx e) (w_tag w d)]> es).
  assert (shifting ps H0 es0 set0 H' es' (tag_set_add set (e_tag e))) as Hs'.
  { eapply shift_keeps; try done; [apply B2; by right|]. eapply overload_load; try done.
    rewrite Forall_forall in B4. by apply B4. }
  assert (forall p, p ∈ mid -> tx_at H' p = tx_at H p) as Htx.
  { intros p Hp. apply tx_at_shifted; intros ->; [apply Bn, elem_of_app; by left|].
    apply NoDup_app in B1 as (_ & B1 & _). apply (B1 to Hp). left. }
  destruct (rebalanced_list ps H0 H H' from mid to Hb Htx) as (Hb' & EP & Ew).
  exists (tag_set_add set (e_tag e)), H', es', (ins H' to (ins H' from mid)). split; [|split_and!; [done|done| |]].
  - rewrite (bind_then _ _ _ _ _ _ (bond_shift_load_ok w b0 H es d i from to sf st e set Ei Es Hf Ht Hne)).
    fold H' es'. pose proof (bals_known ps H0 H' _ Hb' (sh_same _ _ _ _ _ _ _ Hs')) as Hk.
    assert (forall l, (forall p, p ∈ l -> p ∈ from :: mid ++ [to]) -> known H' l) as Hkn
      by (intros l Hl p Hp; apply Hk; rewrite EP; by apply Hl).
    unfold reinsert_bal. bstep (insert_bal_ok b0 H' es' (S d) from (without from (from :: mid ++ [to]))
      (Hkn (from :: without from (from :: mid ++ [to])) ltac:(intros p [->|[_ Hp]%elem_without]%elem_of_cons; [left|done]))).
    rewrite Ew. bstep (insert_bal_ok b0 H' es' (S d) to (ins H' from mid)
      (Hkn (to :: ins H' from mid) ltac:(intros p [->|Hp]%elem_of_cons; [by right|rewrite (ins_perm H' from mid) in Hp;
         apply elem_of_cons in Hp as [->|Hp]; [left|right; apply elem_of_app; by left]]))). done.
  - by rewrite EP.
  - rewrite (len_sum_perm _ _ _ EP). eapply len_sum_shifted; try done; [by destruct Hb|by left].
Qed.

Lemma bind_round {S A B C D X} (m : cstate S A) (n : cstate S B) (f : cstate S C) (g : C -> cstate S D)
    (k : D -> A -> cstate S X) s x y s' :
  (a ← m; _ ← n; c ← f; c' ← g c; mret (a, c')) s = Ret ((x, y), s') ->
  (a ← m; _ ← n; c ← f; c' ← g c; k c' a) s = k y x s'.
Proof.
  unfold mbind, cstate_bind. destruct (m s) as [[a s1]|]; [|done]. destruct (n s1) as [[b s2]|]; [|done].
  destruct (f s2) as [[c s3]|]; [|done]. destruct (g c s3) as [[c' s4]|]; [|done]. by intros [= -> -> ->].
Qed.

(** The while loop ends, for every round takes an entry off a list or a slave off the list. *)
Lemma shift_loop_ok w b0 ps H0 es0 set0 : forall fuel bals H es set d,
  world_ok w -> shifting ps H0 es0 set0 H es set -> bals_ok ps H0 H bals ->
  (len_sum H bals + length bals <= fuel)%nat ->
  exists set' H' es' d', shift_loop w fuel bals set (bstate b0 H es d) = Ret (set', bstate b0 H' es' d')
    /\ shifting ps H0 es0 set0 H' es' set'.
Proof.
  induction fuel as [|fuel IH]; intros bals H es set d Hw Hs Hb Hf;
    (destruct bals as [|from rest]; [by do 4 eexists|]).
  { cbn [length] in Hf. lia. }
  destruct rest as [|q rest]; [by do 4 eexists|].
  destruct (exists_last (l := q :: rest) ltac:(done)) as (mid & to & El). cbn [shift_loop].
  assert (List.last (q :: rest) from = to) as -> by (by rewrite El, last_last).
  rewrite El in *. clear El q rest. pose proof (bals_known _ _ _ _ Hb (sh_same _ _ _ _ _ _ _ Hs)) as Hk.
  destruct (Hk from ltac:(left)) as [sf Hsf].
  destruct (Hk to ltac:(right; apply elem_of_app; right; left)) as [st Hst].
  bstep (hload b0 H es d from sf Hsf). bstep (hload b0 H es d to st Hst).
  destruct ((_ <? _) || (_ <? 100000)) eqn:Ho; [by do 4 eexists|]. apply orb_false_iff in Ho as [_ Ho].
  destruct (choose_entry_ok b0 H es d from sf (bs_tx st) Hsf) as (r & E & Hr).
  { intros i Hi. destruct (sh_entries _ _ _ _ _ _ _ Hs from sf i Hsf Hi) as (e & Ei & _). by exists e. }
  bstep E. destruct r as [i|].
  - destruct (shift_round w b0 ps H0 es0 set0 H es set d from mid to sf st i Hw Hs Hb Hsf Hst (Hr i eq_refl) Ho)
      as (set' & H' & es' & bals' & E' & Hs' & Hb' & Hlen & Hsum).
    rewrite (bind_round _ _ _ _ (fun bals set => shift_loop w fuel bals set) _ _ _ _ E').
    apply IH; try done. lia.
  - apply IH; try done; [by eapply bals_ok_tail|]. cbn [length] in Hf.
    assert (len_sum H (mid ++ [to]) <= len_sum H (from :: mid ++ [to]))%nat by (cbn [len_sum]; lia). lia.
Qed.

(** ** The whole function *)

(** The memory with new loads stands for the list with new loads. *)
Definition reload (H : gmap nat bond_slave) (L : bslaves) : bslaves := (fun x => (x.1, default x.2 (H !! x.1))) <$> L.

Lemma reload_ptrs H L : (reload H L).*1 = L.*1.
Proof. unfold reload. rewrite <- list_fmap_compose. by apply list_fmap_ext. Qed.

Lemma reload_same m L H :
  sm_rep m L -> same_slaves (sm_heap m) H -> slaves2 (fun s s' => bare s' = bare s) L (reload H L).
Proof.
  intros Hr Hs. unfold slaves2, reload. apply Forall2_fmap_r, Forall2_same_length_lookup_2; [done|].
  intros i [p s] y Hi [= <-]%(eq_trans (eq_sym Hi)). split; [done|]. cbn.
  assert (sm_heap m !! p = Some s) as Hp by (apply (sr_heap _ _ Hr); by eapply list_elem_of_lookup_2).
  destruct (same_slaves_lookup _ _ p s Hs Hp) as (s' & -> & E). done.
Qed.

Lemma bare_keys s s' : bare s' = bare s -> bs_aux s' = bs_aux s /\ bs_hash s' = bs_hash s /\ (stag_ok s -> stag_ok s').
Proof. unfold bare, stag_ok. destruct s, s'. cbn. by intros [=]; subst. Qed.

Lemma slaves2_keys (f : nat * bond_slave -> Z) L L' :
  slaves2 (fun s s' => bare s' = bare s) L L' -> (forall p s s', bare s' = bare s -> f (p, s') = f (p, s)) ->
  f <$> L' = f <$> L.
Proof.
  intros H Hf. induction H as [|[p s] [q t] L L' [E Ht] _ IH]; [done|]. cbn in *. subst q. by rewrite IH, (Hf p s t Ht).
Qed.

Lemma reload_rep m L H :
  sm_rep m L -> same_slaves (sm_heap m) H -> sm_rep (MkSm H (sm_next m) (sm_table m)) (reload H L).
Proof.
  intros Hr Hs. pose proof (reload_same m L H Hr Hs) as H2. destruct Hr as [R1 R2 R3 R4 R5 R6 R7].
  split; cbn [sm_table sm_heap sm_next]; [done|..].
  - rewrite R2. clear -H2. induction H2 as [|[p s] [q t] L L' [E Ht] _ IH]; [done|]. cbn in *. subst q.
    rewrite IH. unfold node_of. cbn. by destruct (bare_keys _ _ Ht) as (_ & -> & _).
  - by rewrite reload_ptrs.
  - intros p s. unfold reload. rewrite list_elem_of_fmap. split.
    + intros Hp. destruct (same_slaves_lookup _ _ p s (same_slaves_sym _ _ Hs) Hp) as (s0 & Hs0 & _).
      exists (p, s0). cbn. rewrite Hp. split; [done|by apply R4].
    + intros ([q s0] & [= -> ->] & Hin). cbn. apply R4 in Hin.
      destruct (same_slaves_lookup _ _ q s0 Hs Hin) as (s' & -> & _). done.
  - unfold reload. apply Forall_fmap. eapply Forall_impl; [exact R5|]. done.
  - assert (aux_of <$> reload H L = aux_of <$> L) as ->; [|done].
    apply slaves2_keys; [done|]. intros p s s' E. apply (bare_keys _ _ E).
  - clear -H2 R7. induction H2 as [|[p s] [q t] L L' [E Ht] _ IH]; [done|]. apply Forall_cons in R7 as [R R7].
    constructor; [|by apply IH]. destruct (bare_keys _ _ Ht) as (E1 & E2 & _). cbn in *. by rewrite E1, E2.
Qed.

Definition age (e : bond_entry) : bond_entry :=
  MkEntry (if e_tx e / 2 =? 0 then None else e_slave e) (e_tx e / 2) (e_tag e).

Lemma age_all b0 H es d : length es = n_entries ->
  for_each_entry age_entry tt (bstate b0 H es d) = Ret (tt, bstate b0 H (age <$> es) d).
Proof.
  intros Hlen.
  destruct (entries_rule age_entry (fun i _ b => b = bstate b0 H ((age <$> take i es) ++ drop i es) d))
    with (x := tt) (b := bstate b0 H es d) as ([] & b' & E & ->); [|done|].
  - intros i [] b Hi ->. destruct (lookup_lt_is_Some_2 es i) as [e Ei]; [lia|]. exists tt.
    set (l := (age <$> take i es) ++ drop i es).
    assert (l !! i = Some e) as El.
    { unfold l. rewrite lookup_app_r; rewrite length_fmap, length_take_le by lia; [|lia].
      rewrite lookup_drop. by replace (i + (i - i))%nat with i by lia. }
    assert (forall e', <[i := e']> l = (age <$> take i es) ++ e' :: drop (S i) es) as Hins.
    { intros e'. unfold l. rewrite (drop_S es e i Ei).
      rewrite insert_app_r_alt; rewrite length_fmap, length_take_le by lia; [|lia]. by rewrite Nat.sub_diag. }
    unfold age_entry. bstep (hstore_entry b0 H l d i e (fun e => set_etx (e_tx e / 2) e) El).
    assert (<[i := set_etx (e_tx e / 2) e]> l !! i = Some (set_etx (e_tx e / 2) e)) as El'
      by (apply list_lookup_insert_eq; by eapply lookup_lt_Some).
    bstep (hload_entry b0 H _ d i _ El'). cbn [e_tx set_etx].
    rewrite (take_S_r _ _ _ Ei), fmap_app, <- app_assoc. cbn [fmap list_fmap app]. unfold age at 2.
    destruct (e_tx e / 2 =? 0).
    + rewrite (hstore_entry b0 H _ d i _ (set_eslave None) El'). rewrite list_insert_insert_eq, Hins. by eexists.
    + rewrite Hins. by eexists.
  - rewrite E. do 3 f_equal. by rewrite take_ge, drop_ge, app_nil_r by lia.
Qed.

Lemma age_ok ps es : Forall (entry_ok ps) es -> Forall (entry_ok ps) (age <$> es).
Proof.
  intros He. apply Forall_fmap. eapply Forall_impl; [exact He|]. intros e [O1 O2 O3 O4]. unfold age.
  split; cbn [e_slave e_tx e_tag].
  - intros p. destruct (_ =? 0); [done|apply O1].
  - done.
  - destruct (_ =? 0); [done|apply O3].
  - split; [apply Z.div_pos; lia|]. apply Z.div_lt_upper_bound; lia.
Qed.

Lemma add_bals_ok b0 H es d ps0 H0 ps : forall bals,
  NoDup (ps ++ bals) -> (forall p, p ∈ ps -> p ∈ ps0) -> known H ps -> same_slaves H0 H -> bals_ok ps0 H0 H bals ->
  exists bals', each add_bal ps bals (bstate b0 H es d) = Ret (bals', bstate b0 H es d) /\ bals_ok ps0 H0 H bals'.
Proof.
  induction ps as [|p ps IH]; intros bals Hd Hsub Hk Hs Hb; cbn [each]; [by exists bals|].
  destruct (Hk p ltac:(left)) as [s Hp]. cbn [app] in Hd. apply NoDup_cons in Hd as [Hn Hd].
  assert (known H ps /\ forall q, q ∈ ps -> q ∈ ps0) as [Hk' Hsub'].
  { split; intros q Hq; [apply Hk|apply Hsub]; by right. }
  destruct (bs_enabled s) eqn:He.
  - assert (add_bal p bals (bstate b0 H es d) = Ret (ins H p bals, bstate b0 H es d)) as E.
    { unfold add_bal. bstep (hload b0 H es d p s Hp). rewrite He. apply insert_bal_ok.
      intros q [->|Hq]%elem_of_cons; [by exists s|]. by apply (bals_known _ _ _ _ Hb Hs). }
    bstep E. apply IH; try done.
    + by rewrite (ins_perm H p bals), <- Permutation_middle, NoDup_cons.
    + pose proof Hb as [B1 B2 B3 B4]. split; [| | |by apply ins_by_load].
      * rewrite (ins_perm H p bals). apply NoDup_cons. split; [|done]. intros Hx. apply Hn, elem_of_app. by right.
      * intros q. rewrite (ins_perm H p bals). intros [->|Hq]%elem_of_cons; [apply Hsub; by left|by apply B2].
      * intros q. rewrite (ins_perm H p bals). intros [->|Hq]%elem_of_cons; [|by apply B3].
        destruct (same_slaves_lookup _ _ p s (same_slaves_sym _ _ Hs) Hp) as (s0 & Hs0 & Eb).
        exists s0. split; [done|]. by rewrite (bare_enabled _ _ Eb).
  - assert (add_bal p bals (bstate b0 H es d) = Ret (bals, bstate b0 H es d)) as E.
    { unfold add_bal. bstep (hload b0 H es d p s Hp). by rewrite He. }
    bstep E. by apply IH.
Qed.

Lemma moves_entry H0 es es1 : rtc (move H0) es es1 ->
  forall i e e1, es !! i = Some e -> es1 !! i = Some e1 -> e_tx e1 = e_tx e /\ (e1 <> e -> e_slave e <> None).
Proof.
  induction 1 as [es|es es2 es1 Hm _ IH]; intros i e e1 E E1; [simplify_eq; by split|].
  destruct Hm as [j e' p q t sp sq Ej Es]. destruct (decide (i = j)) as [->|Hij].
  - simplify_eq. destruct (IH j (MkEntry (Some q) (e_tx e') t) e1) as [IH1 _]; [|done|].
    { apply list_lookup_insert_eq. by eapply lookup_lt_Some. }
    split; [done|]. congruence.
  - apply (IH i e e1); [by rewrite list_lookup_insert_ne|done].
Qed.

Lemma moves_fit H0 es es1 : rtc (move H0) es es1 -> fits es -> fits es1.
Proof.
  induction 1 as [|es es2 es1 Hm _ IH]; [done|]. intros Hf. apply IH. destruct Hm as [j e p q t sp sq Ej].
  unfold fits. by rewrite (total_insert es j e) by done.
Qed.

Lemma bstate_same b es : b_hash b = Some es -> b = bstate b (sm_heap (b_slaves b)) es (b_draws b).
Proof. intros Eh. unfold bstate, rehash. destruct b as [? [? ? ?]]. cbn in *. by subst. Qed.

(** The loops before the while loop. *)
Lemma rebalance_counts b L es d :
  bond_rep b L -> b_hash b = Some es -> b_balance b <> BM_AB ->
  exists H, (_ ← for_each_bslave clear_load tt; for_each_entry count_entry tt) (bstate b (sm_heap (b_slaves b)) es d)
            = Ret (tt, bstate b H es d)
    /\ counted_to L.*1 (sm_heap (b_slaves b)) es n_entries H.
Proof.
  intros [Hb Hr Ht] Eh Hm. pose proof (fo_hash _ _ _ _ _ _ _ _ Hb) as Hh. rewrite Eh in Hh. destruct Hh as (_ & Hlen & Hes).
  assert (known (sm_heap (b_slaves b)) L.*1) as Hk.
  { intros p Hp. destruct (ptr_slave p L Hp) as (s & Hs). exists s. by apply (sr_heap _ _ Hr). }
  destruct (clear_all b es d L.*1 _ Hk) as (H & E & Hs & Hz).
  assert (forall p s, H !! p = Some s -> cleared s) as Hcl.
  { intros p s Hp. destruct (same_slaves_lookup _ _ p s (same_slaves_sym _ _ Hs) Hp) as (s0 & Hs0 & _).
    apply (Hz p s Hp). apply (sr_heap _ _ Hr) in Hs0. by apply (list_elem_of_fmap_2 fst L (p, s0)). }
  destruct (count_all b L.*1 (sm_heap (b_slaves b)) H es d) as (H' & E' & Hc); [apply Hr|done|done|done| |].
  - split; [done| | |].
    + intros p s i Hp Hi. destruct (Hcl p s Hp) as [_ Hn]. rewrite Hn in Hi. by apply not_elem_of_nil in Hi.
    + intros _ p s Hp. by destruct (Hcl p s Hp) as [-> _].
    + assert (forall l, len_sum H l = 0%nat) as Hz0; [|by rewrite Hz0].
      induction l as [|p l IH]; [done|]. cbn [len_sum]. rewrite IH. unfold len_at.
      destruct (H !! p) as [s|] eqn:Hp; [|done]. by destruct (Hcl p s Hp) as [_ ->].
  - exists H'. split; [|done]. assert (sm_rep (b_slaves (bstate b (sm_heap (b_slaves b)) es d)) L) as Hr'.
    { unfold bstate, rehash. cbn. by destruct (b_slaves b). }
    rewrite (cstate_bind_step _ _ _ tt (bstate b H es d)); [done|]. by rewrite (for_each_bslave_ok _ _ _ _ Hr').
Qed.

Lemma counted_shifting ps H0 es H set : counted_to ps H0 es n_entries H -> length es = n_entries ->
  Forall (entry_ok ps) es -> set_good set -> shifting ps H0 es set H es set.
Proof.
  intros [C1 C2 C3 C4] Hlen Hes Hg. split; try done.
  - intros p s i Hp Hi. by destruct (C2 p s i Hp Hi) as [_ ?].
  - intros Hf p s Hp. rewrite (C3 Hf p s Hp). by rewrite take_ge by lia.
  - intros i e0 e E0 E. simplify_eq. by left.
Qed.

Lemma bals_sub ps H0 H bals : bals_ok ps H0 H bals -> bals ⊆+ ps.
Proof. intros [B1 B2 _ _]. by apply NoDup_submseteq. Qed.

(** bond_rebalance when it is due. *)
Lemma bond_rebalance_due w set b L :
  world_ok w -> bond_rep b L -> set_good set -> bond_is_balanced b = true -> b_next_rebalance b <= w_now w ->
  exists set' b' L' es es1 d H,
    bond_rebalance w set b = Ret (set', b') /\ b_hash b = Some es
    /\ b' = bstate (with_next_rebalance (w_now w + b_interval b) b) H (age <$> es1) d /\ L' = reload H L
    /\ shifting L.*1 (sm_heap (b_slaves b)) es set H es1 set'.
Proof.
  intros Hw Hrep Hg Hbal Hdue. pose proof Hbal as Hm. apply bond_is_balanced_spec in Hm as [_ Hm].
  assert (b_balance b <> BM_AB) as Hm' by (intros E; destruct Hm; congruence).
  destruct (table_there b L Hrep Hm') as (es & Eh & Hlen & Hes).
  unfold bond_rebalance. bget. rewrite Hbal. destruct (Z.ltb_spec (w_now w) (b_next_rebalance b)) as [?|_]; [lia|]. cbn [negb orb].
  bmod. set (b1 := with_next_rebalance _ b). assert (bond_rep b1 L) as Hrep1 by (by destruct Hrep).
  rewrite (bstate_same b1 es Eh). set (H0 := sm_heap (b_slaves b1)).
  destruct (rebalance_counts b1 L es (b_draws b1) Hrep1 Eh Hm') as (H & E & Hc). fold H0 in E, Hc.
  rewrite <- (cstate_bind_assoc (for_each_bslave clear_load tt) (fun _ => for_each_entry count_entry tt)). bstep E.
  pose proof (counted_shifting _ _ _ _ set Hc Hlen Hes Hg) as Hs.
  assert (sm_rep (b_slaves (bstate b1 H es (b_draws b1))) (reload H L)) as Hr1
    by (apply (reload_rep (b_slaves b1)); [apply Hrep1|apply Hs]).
  assert (known H L.*1) as Hk.
  { intros p Hp. rewrite <- (reload_ptrs H L) in Hp. destruct (ptr_slave p _ Hp) as (s & Hps). exists s.
    by apply (sr_heap _ _ Hr1) in Hps. }
  destruct (add_bals_ok b1 H es (b_draws b1) L.*1 H0 L.*1 []) as (bals & E2 & Hb).
  { rewrite app_nil_r. apply Hrep1. }
  { done. } { done. } { apply Hs. } { split; [constructor|by intros p ?%not_elem_of_nil..|done]. }
  assert (for_each_bslave add_bal [] (bstate b1 H es (b_draws b1)) = Ret (bals, bstate b1 H es (b_draws b1))) as E3
    by (rewrite (for_each_bslave_ok _ _ _ _ Hr1), reload_ptrs; done).
  bstep E3.
  destruct (shift_loop_ok w b1 L.*1 H0 es set (n_entries + length bals) bals H es set (b_draws b1) Hw Hs Hb)
    as (set' & H' & es1 & d' & E4 & Hs').
  { pose proof (len_sum_sub H _ _ (bals_sub _ _ _ _ Hb)). pose proof (cn_length _ _ _ _ _ Hc). lia. }
  bstep E4. bstep (age_all b1 H' es1 d' (sh_len _ _ _ _ _ _ _ Hs')).
  exists set', (bstate b1 H' (age <$> es1) d'), (reload H' L), es, es1, d', H'. split_and!; done.
Qed.

Lemma shifting_rep b L es0 set0 H es1 set1 t d :
  bond_rep b L -> shifting L.*1 (sm_heap (b_slaves b)) es0 set0 H es1 set1 -> b_balance b <> BM_AB ->
  bond_rep (bstate (with_next_rebalance t b) H (age <$> es1) d) (reload H L)
  /\ slaves2 (fun s s' => bare s' = bare s) L (reload H L).
Proof.
  intros [[B1 B2 B3 B4 B5 B6] Hr Ht] [S1 S2 S3 _ _ _ _ _] Hm. pose proof (reload_same _ L H Hr S1) as Hsame. split; [|done].
  split.
  - rewrite reload_ptrs. split; try done. split_and!; [done|by rewrite length_fmap|by apply age_ok].
  - by apply (reload_rep (b_slaves b)).
  - clear -Hsame Ht. induction Hsame as [|[p s] [q u] L1 L2 [E Hu] _ IH]; [done|]. apply Forall_cons in Ht as [T Ht].
    constructor; [|by apply IH]. by apply (bare_keys _ _ Hu).
Qed.

(** bond_rebalance, due or not. *)
Lemma bond_rebalance_ok w set b L :
  world_ok w -> bond_rep b L -> set_good set ->
  exists set' b' L', bond_rebalance w set b = Ret (set', b') /\ bond_rep b' L'
    /\ slaves2 (fun s s' => bare s' = bare s) L L' /\ set_good set' /\ set_le set set' /\ b_balance b' = b_balance b.
Proof.
  intros Hw Hrep Hg. destruct (bond_is_balanced b) eqn:Hbal; [destruct (decide (b_next_rebalance b <= w_now w)) as [Hdue|Hdue]|].
  - destruct (bond_rebalance_due w set b L Hw Hrep Hg Hbal Hdue) as (set' & b' & L' & es & es1 & d & H & E & Eh & -> & -> & Hs).
    destruct (shifting_rep b L es set H es1 set' (w_now w + b_interval b) d Hrep Hs) as [H1 H2].
    { apply bond_is_balanced_spec in Hbal as [_ Hm]. intros Ex. destruct Hm; congruence. }
    do 3 eexists. split; [exact E|]. split; [exact H1|]. split; [exact H2|]. destruct (sh_set _ _ _ _ _ _ _ Hs). done.
  - exists set, b, L. split; [|split_and!; [done|by apply slaves2_refl|done..]].
    unfold bond_rebalance. bget. rewrite Hbal. destruct (Z.ltb_spec (w_now w) (b_next_rebalance b)); [done|lia].
  - exists set, b, L. split; [|split_and!; [done|by apply slaves2_refl|done..]].
    unfold bond_rebalance. bget. by rewrite Hbal.
Qed.

(** C15: rebalancing ends and moves load downhill.  When bond_rebalance is due it returns, with
    the same slaves; the new hash table is the old one after moves, each of an entry from an
    enabled slave to another that carried at least 100 kB less, after which all counts of bytes
    are halved and the entries without bytes given up; the flows of an entry that moved are
    revalidated; and unless the counts add up to 2 to the 64, no sum has wrapped: the load of
    every slave is the sum over its entries. *)
Theorem bond_rebalance_moves w set b L :
  world_ok w -> bond_rep b L -> set_good set -> bond_is_balanced b = true -> b_next_rebalance b <= w_now w ->
  exists set' b' L' es es1,
    bond_rebalance w set b = Ret (set', b') /\ bond_rep b' L' /\ slaves2 (fun s s' => bare s' = bare s) L L'
    /\ b_hash b = Some es /\ b_hash b' = Some (age <$> es1) /\ rtc (move (sm_heap (b_slaves b))) es es1
    /\ (forall i e e1 ts, es !! i = Some e -> es1 !! i = Some e1 -> e1 <> e -> word ts -> covers ts (e_tag e) ->
          tag_set_intersects set' ts = true)
    /\ (fits es -> forall p s, (p, s) ∈ L' -> bs_tx s = load p es1).
Proof.
  intros Hw Hrep Hg Hbal Hdue.
  destruct (bond_rebalance_due w set b L Hw Hrep Hg Hbal Hdue) as (set' & b' & L' & es & es1 & d & H & E & Eh & -> & -> & Hs).
  assert (b_balance b <> BM_AB) as Hm.
  { apply bond_is_balanced_spec in Hbal as [_ Hm]. intros Ex. destruct Hm; congruence. }
  destruct (shifting_rep b L es set H es1 set' (w_now w + b_interval b) d Hrep Hs Hm) as [H1 H2].
  do 5 eexists. split; [exact E|]. split; [exact H1|]. split; [exact H2|]. split; [exact Eh|]. split; [done|].
  split; [by apply Hs|]. split.
  - intros i e e1 ts Ei Ei1 Hne Hts Hc.
    destruct (moves_entry _ _ _ (sh_moves _ _ _ _ _ _ _ Hs) i e e1 Ei Ei1) as [Etx Hsl].
    destruct (sh_tags _ _ _ _ _ _ _ Hs i e e1 Ei Ei1) as [[Es Et]|Hin]; [by destruct Hne, e, e1; cbn in *; congruence|].
    apply (in_set_revalidates (e_tag e)); try done.
    pose proof (fo_hash _ _ _ _ _ _ _ _ (br_base _ _ Hrep)) as Hh. rewrite Eh in Hh. destruct Hh as (_ & _ & Hes).
    pose proof (Forall_lookup_1 _ _ _ _ Hes Ei) as He. by apply He, Hsl.
  - intros Hf p s Hps. apply (sh_load _ _ _ _ _ _ _ Hs); [by eapply moves_fit; [apply Hs|]|]. by apply (sr_heap _ _ (br_slaves _ _ H1)) in Hps.
Qed.

(** *** Examples *)

(** A bond in mode balance-slb whose first slave carries the entries [l]. *)
Definition loaded_bond (l : list bond_entry) : bond :=
  with_hash (Some (l ++ replicate (n_entries - length l) entry_zero)) (demo_bond BM_SLB).

Lemma loaded_bond_rep l :
  (length l <= n_entries)%nat -> Forall (entry_ok [0%nat; 1%nat]) l -> bond_rep (loaded_bond l) demo_bslaves.
Proof.
  intros Hl He. destruct (demo_bond_rep BM_SLB) as [[] ? ?]. split; [|done..]. split; try done.
  split; [done|]. split.
  - rewrite length_app, length_replicate. lia.
  - apply Forall_app. split; [exact He|]. apply Forall_forall. intros e ->%elem_of_replicate_inv.
    split; cbn; [done|unfold word; lia|done|lia].
Qed.

Definition entry_for (p : nat) (tx tag : Z) : bond_entry := MkEntry (Some p) tx tag.

Lemma entry_for_ok p tx : p ∈ [0%nat; 1%nat] -> 0 <= tx < 2 ^ 64 -> entry_ok [0%nat; 1%nat] (entry_for p tx 6).
Proof.
  intros Hp Ht. split; cbn; [by intros q [= <-]|unfold word; lia| |done]. intros _. split; [unfold word; lia|done].
Qed.

Lemma bond_rebalance_moves_witness :
  exists set' b' L' es es1,
    bond_rebalance (demo_world 20000 (fun _ => true)) tag_set_init
      (loaded_bond [entry_for 0 300000 6; entry_for 0 200000 6]) = Ret (set', b')
    /\ bond_rep b' L' /\ slaves2 (fun s s' => bare s' = bare s) demo_bslaves L'
    /\ b_hash (loaded_bond [entry_for 0 300000 6; entry_for 0 200000 6]) = Some es /\ b_hash b' = Some (age <$> es1)
    /\ rtc (move (sm_heap (b_slaves (loaded_bond [entry_for 0 300000 6; entry_for 0 200000 6])))) es es1
    /\ (forall i e e1 ts, es !! i = Some e -> es1 !! i = Some e1 -> e1 <> e -> word ts -> covers ts (e_tag e) ->
          tag_set_intersects set' ts = true)
    /\ (fits es -> forall p s, (p, s) ∈ L' -> bs_tx s = load p es1).
Proof.
  apply (bond_rebalance_moves (demo_world 20000 (fun _ => true)) tag_set_init
           (loaded_bond [entry_for 0 300000 6; entry_for 0 200000 6]) demo_bslaves).
  - apply demo_world_ok.
  - apply loaded_bond_rep; [cbn; unfold n_entries; lia|].
    do 2 (apply Forall_cons; split; [by apply entry_for_ok; [left|lia]|]). done.
  - apply set_init_good.
  - done.
  - cbn. lia.
Defined.

(** The loads of the two slaves afterwards. *)
Definition loads_of (o : outcome (tag_set * bond)) : option (list (option Z)) :=
  match o with
  | Ret (_, b) => Some ((fun p => bs_tx <$> sm_heap (b_slaves b) !! p) <$> [0%nat; 1%nat])
  | Stuck _ => None
  end.

(** Rebalancing can make the balance worse.  One slave carries entries of 199 kB and 1 kB, the
    other one of 100 kB.  The test of choose_entry_to_migrate only asks for the ratio of the two
    loads to fall, so that the larger entry moves, and 200 kB against 100 kB become 1 kB
    against 299 kB. *)
Theorem rebalance_overshoots :
  let es := [entry_for 0 199000 6; entry_for 0 1000 6; entry_for 1 100000 6] in
  load 0 es = 200000 /\ load 1 es = 100000
  /\ loads_of (bond_rebalance (demo_world 20000 (fun _ => true)) tag_set_init (loaded_bond es))
     = Some [Some 1000; Some 299000].
Proof. vm_compute. done. Qed.
