(* ===== verification/BondCalls.v ===== *)
(** * Bonding: the functions of the interface (lib/bond.c)

    Every function returns and keeps the invariant; any sequence of calls does. *)
From stdpp Require Import strings.
From S2P Require Import Prelude Hash Hmap Tag Flow SlaveMap Lacp Bond BondRep BondUse BondProps BondBalance.

Local Open Scope Z_scope.

#[local] Opaque hash_pointer.

(** ** Stores *)

Definition same_keys (L L' : bslaves) : Prop := L'.*1 = L.*1 /\ aux_of <$> L' = aux_of <$> L.

#[export] Instance same_keys_preorder : PreOrder same_keys.
Proof. split; [done|]. intros L1 L2 L3 [] []. split; congruence. Qed.

Lemma same_keys_mid A B p s s' : bs_aux s' = bs_aux s -> same_keys (A ++ (p, s) :: B) (A ++ (p, s') :: B).
Proof. intros E. unfold same_keys. rewrite !fmap_app, !fmap_cons. unfold aux_of at 2 5. cbn. by rewrite E. Qed.

Lemma slaves2_same_keys R L L' :
  slaves2 R L L' -> (forall s s', R s s' -> bs_aux s' = bs_aux s) -> same_keys L L'.
Proof.
  intros H Hr. split; [by eapply slaves2_ptrs|]. induction H as [|[p s] [q t] L L' [E Ht] _ IH]; [done|].
  cbn in *. subst q. rewrite IH. f_equal. exact (Hr _ _ Ht).
Qed.

Lemma tags_mid (A B : bslaves) p s s' :
  Forall (fun x => stag_ok x.2) (A ++ (p, s) :: B) -> stag_ok s' -> Forall (fun x => stag_ok x.2) (A ++ (p, s') :: B).
Proof. rewrite !Forall_app, !Forall_cons. naive_solver. Qed.

Lemma base_ptrs b (L L' : bslaves) : L'.*1 = L.*1 -> base b L.*1 -> base b L'.*1.
Proof. by intros ->. Qed.

(** A slave changed in place. *)
Lemma bstore_rep b L p s f :
  bond_rep b L -> (p, s) ∈ L -> bs_aux (f s) = bs_aux s -> bs_hash (f s) = bs_hash s -> (stag_ok s -> stag_ok (f s)) ->
  exists sm L', bstore p f b = Ret (tt, with_bslaves sm b) /\ bond_rep (with_bslaves sm b) L' /\ same_keys L L'
    /\ (p, f s) ∈ L' /\ forall q t, (q, t) ∈ L -> q <> p -> (q, t) ∈ L'.
Proof.
  intros [Hb Hr Ht] Hin Ha Hh Hg. destruct (list_elem_of_split _ _ Hin) as (A & B & ->).
  destruct (bstore_ok b A B p s f Hr Ha Hh) as (sm & E & Hr'). exists sm, (A ++ (p, f s) :: B).
  pose proof (same_keys_mid A B p s (f s) Ha) as Hk. split; [done|].
  split; [|split_and!; [done|apply elem_of_app; right; left|]].
  2: { intros q t Hq Hn. apply elem_of_app in Hq as [?|[?|?]%elem_of_cons]; [apply elem_of_app; by left|congruence|].
       apply elem_of_app. right. by right. }
  split; [by apply (base_ptrs b _ _ (proj1 Hk))|done|].
  eapply tags_mid; [exact Ht|]. apply Hg. rewrite Forall_forall in Ht. by apply (Ht (p, s)).
Qed.

Lemma enabled_slave_aux w d e s : bs_aux (enabled_slave w d e s) = bs_aux s.
Proof. unfold enabled_slave. by destruct (Bool.eqb _ _), e. Qed.

Lemma enable_rep w b L p s e tags :
  world_ok w -> bond_rep b L -> (p, s) ∈ L ->
  exists sm L', bond_enable_slave w p e tags b
      = Ret (enabled_tags e s <$> tags, with_bslaves sm (enabled_bond e s b))
    /\ bond_rep (with_bslaves sm (enabled_bond e s b)) L' /\ same_keys L L' /\ stag_ok s
    /\ (p, enabled_slave w (b_draws b) e s) ∈ L'.
Proof.
  intros Hw [Hb Hr Ht] Hin. assert (stag_ok s) as Hs by (rewrite Forall_forall in Ht; by apply (Ht (p, s))).
  destruct (list_elem_of_split _ _ Hin) as (A & B & ->).
  destruct (bond_enable_slave_ok w e tags b A B p s Hr) as (sm & E & Hr'). set (s' := enabled_slave w (b_draws b) e s) in *.
  exists sm, (A ++ (p, s') :: B).
  pose proof (same_keys_mid A B p s s' (enabled_slave_aux w (b_draws b) e s)) as Hk. split; [done|].
  split; [|split; [done|split; [done|apply elem_of_app; right; left]]]. split.
  - apply (base_ptrs _ _ _ (proj1 Hk)). by apply (bconf_base b); [apply (enabled_bond_conf e s b)|].
  - done.
  - eapply tags_mid; [exact Ht|]. by apply enabled_slave_tag_ok.
Qed.

Lemma lookup_rep b L q : bond_rep b L -> bond_slave_lookup q b = Ret (fst <$> find_slave q L, b).
Proof. intros [_ Hr _]. apply on_bslaves_read. by apply sm_lookup_ok. Qed.

(** The slave of a registered pointer. *)
Lemma find_registered (q : Z) (L : bslaves) : q ∈ aux_of <$> L -> exists p s, find_slave q L = Some (p, s) /\ (p, s) ∈ L /\ bs_aux s = q.
Proof.
  intros Hq. destruct (find_slave q L) as [[p s]|] eqn:E.
  - exists p, s. split; [done|]. unfold find_slave in E. apply find_first_Some in E as [E ?]. split; [done|].
    by apply Z.eqb_eq in E.
  - by apply find_slave_None in E.
Qed.

(** Other members than those the invariant is about. *)
Lemma rep_revalidate b L x : bond_rep b L -> bond_rep (with_revalidate x b) L.
Proof. by intros []. Qed.

Lemma rep_send b L x : bond_rep b L -> bond_rep (with_send x b) L.
Proof. by intros []. Qed.

(** ** Configuration *)

Lemma set_netdev_rep b L p s n :
  bond_rep b L -> (p, s) ∈ L ->
  exists b' L' s', bond_slave_set_netdev__ p n b = Ret (tt, b') /\ bond_rep b' L' /\ same_keys L L'
    /\ b_balance b' = b_balance b /\ (p, s') ∈ L'.
Proof.
  intros Hrep Hin. unfold bond_slave_set_netdev__. bstep (bload_ok b L p s (br_slaves _ _ Hrep) Hin).
  destruct (negb (bs_netdev s =? n)); [|by exists b, L, s].
  destruct (bstore_rep b L p s (set_netdev n) Hrep Hin eq_refl eq_refl ltac:(done)) as (sm & L1 & E & Hr1 & Hk1 & Hin1 & _).
  bstep E.
  destruct (bstore_rep _ L1 p _ (set_change_seq 0) Hr1 Hin1 eq_refl eq_refl ltac:(done)) as (sm2 & L2 & E2 & Hr2 & Hk2 & Hin2 & _).
  rewrite E2. do 3 eexists. split; [done|]. split; [exact Hr2|]. split; [by transitivity L1|]. split; [done|exact Hin2].
Qed.

Definition few (L : bslaves) : Prop := Z.of_nat (length L) < 2 ^ 60.

Lemma add_bslave_rep w b L q n :
  world_ok w -> bond_rep b L -> q ∉ aux_of <$> L -> few L ->
  exists p b' L' s, add_bslave w q n b = Ret (p, b') /\ bond_rep b' L' /\ aux_of <$> L' ≡ₚ q :: (aux_of <$> L)
    /\ b_balance b' = b_balance b /\ (p, s) ∈ L'.
Proof.
  intros Hw [Hb Hr Ht] Hq Hf. unfold add_bslave.
  destruct (sm_insert_ok (b_slaves b) L (fresh_bslave w q n) Hr Hq eq_refl Hf) as (m1 & m2 & L1 & E1 & E2 & Hr1 & EL).
  bstep (on_bslaves_ok _ b _ _ E1). set (p := sm_next (b_slaves b)) in *.
  bstep (on_bslaves_ok _ (with_bslaves m1 b) _ _ E2). bmod.
  set (b1 := with_revalidate true _).
  assert (bond_rep b1 L1) as Hrep1.
  { split; [|done|].
    - apply (fields_ok_mono _ _ _ _ _ _ _ L.*1); [|done]. intros r Hp. rewrite EL. by right.
    - rewrite EL. constructor; [|done]. split; [unfold word; cbn; lia|done]. }
  assert ((p, fresh_bslave w q n) ∈ L1) as Hin by (rewrite EL; left).
  destruct (enable_rep w b1 L1 p _ (w_carrier w n) None Hw Hrep1 Hin) as (sm & L2 & E3 & Hrep2 & [_ Hk] & _ & Hin2).
  bstep E3. do 4 eexists. split; [done|]. split; [exact Hrep2|]. split; [|split; [|exact Hin2]].
  - rewrite Hk, EL. done.
  - cbn. rewrite (bconf_balance _ _ (enabled_bond_conf (w_carrier w n) (fresh_bslave w q n) b1)). done.
Qed.

Lemma bond_slave_register_rep w b L q stb n :
  world_ok w -> bond_rep b L -> few L ->
  exists b' L', bond_slave_register w q stb n b = Ret (tt, b') /\ bond_rep b' L' /\ b_balance b' = b_balance b
    /\ aux_of <$> L' ≡ₚ if decide (q ∈ aux_of <$> L) then aux_of <$> L else q :: (aux_of <$> L).
Proof.
  intros Hw Hrep Hf. unfold bond_slave_register. bstep (lookup_rep b L q Hrep).
  assert (exists p b1 L1 s, (match fst <$> find_slave q L with Some p => mret p | None => add_bslave w q n end) b = Ret (p, b1)
    /\ bond_rep b1 L1 /\ b_balance b1 = b_balance b /\ (p, s) ∈ L1
    /\ aux_of <$> L1 ≡ₚ if decide (q ∈ aux_of <$> L) then aux_of <$> L else q :: (aux_of <$> L))
    as (p & b1 & L1 & s & E & Hrep1 & Em & Hin & Ea).
  { case_decide as Hq.
    - destruct (find_registered q L Hq) as (p & s & -> & Hin & _). by exists p, b, L, s.
    - rewrite (proj2 (find_slave_None q L) Hq). cbn [fmap option_fmap option_map].
      destruct (add_bslave_rep w b L q n Hw Hrep Hq Hf) as (p & b1 & L1 & s & ? & ? & ? & ? & ?). by exists p, b1, L1, s. }
  bstep E. bstep (bload_ok b1 L1 p s (br_slaves _ _ Hrep1) Hin).
  assert (exists b2 L2 s2, (if negb (bs_stb_id s =? stb) then _ ← bstore p (set_stb_id stb); bmodify (with_revalidate true)
      else mret tt) b1 = Ret (tt, b2) /\ bond_rep b2 L2 /\ b_balance b2 = b_balance b1 /\ (p, s2) ∈ L2 /\ same_keys L1 L2)
    as (b2 & L2 & s2 & E2 & Hrep2 & Em2 & Hin2 & Hk2).
  { destruct (negb _); [|by exists b1, L1, s].
    destruct (bstore_rep b1 L1 p s (set_stb_id stb) Hrep1 Hin eq_refl eq_refl ltac:(done)) as (sm & L2 & E2 & Hr2 & Hk2 & Hin2 & _).
    bstep E2. do 3 eexists. split; [done|]. split; [by apply rep_revalidate, Hr2|done]. }
  bstep E2. destruct (set_netdev_rep b2 L2 p s2 n Hrep2 Hin2) as (b3 & L3 & s3 & E3 & Hrep3 & Hk3 & Em3 & Hin3). bstep E3.
  destruct (bstore_rep b3 L3 p s3 (set_bname (w_name w n)) Hrep3 Hin3 eq_refl eq_refl ltac:(done)) as (sm & L4 & E4 & Hr4 & Hk4 & _).
  rewrite E4. do 2 eexists. split; [done|]. split; [exact Hr4|]. split; [cbn; congruence|].
  destruct Hk2 as [_ K2], Hk3 as [_ K3], Hk4 as [_ K4]. by rewrite K4, K3, K2.
Qed.

(** bond_reconfigure, also on the object that bond_create makes. *)
Lemma reconfigure_ok w s b L :
  sm_rep (b_slaves b) L -> Forall (fun x => stag_ok x.2) L -> (forall p, b_active b = Some p -> p ∈ L.*1) ->
  good_tag (b_no_slaves_tag b) -> good_tag (b_stb_tag b) -> set_good (b_unixctl b) ->
  b_hash b = None \/ hash_ok (b_balance b) (b_hash b) L.*1 ->
  exists r b', bond_reconfigure w s b = Ret (r, b') /\ bond_rep b' L /\ b_balance b' = bo_balance s.
Proof.
  intros Hr Ht Ha H1 H2 Hu Hh. unfold bond_reconfigure. bmod. bget. bmod.
  set (change := negb _ || negb (bool_decide _) || negb _).
  match goal with |- context [(?m ≫= ?k) ?b2] => set (b0 := b2) end.
  assert (exists t, (if bo_fake_iface s then
         if b_next_fake b0 =? LLONG_MAX then bmodify (with_next_fake (w_now w)) else mret tt
       else bmodify (with_next_fake LLONG_MAX)) b0 = Ret (tt, with_next_fake t b0)) as (t & E).
  { destruct (bo_fake_iface s); [destruct (b_next_fake b0 =? LLONG_MAX)|]; [by eexists|exists (b_next_fake b0); by destruct b0|by eexists]. }
  bstep E. bget. set (b1 := with_next_fake t b0).
  assert (exists x, (if b_revalidate b1 then bmodify (with_revalidate false) else mret tt) b1 = Ret (tt, with_revalidate x b1)) as (x & E2).
  { destruct (b_revalidate b1) eqn:Ev; [by eexists|]. exists false. rewrite <- Ev. by destruct b1. }
  bstep E2. set (reset := bool_decide (b_balance b1 = BM_AB) || _ || _).
  assert (new_name (b_name b) (bo_name s) <> None) as Hn.
  { unfold new_name. case_bool_decide as En; [congruence|done]. }
  destruct reset eqn:Er.
  - destruct (bond_entry_reset_ok w (with_revalidate x b1)) as (t2 & E3). bstep E3. do 2 eexists. split; [done|].
    split; [|done]. split; [|done..]. split; try done. apply reset_hash_ok.
  - bret. do 2 eexists. split; [done|]. split; [|done]. split; [|done..]. split; try done.
    unfold reset in Er. apply orb_false_iff in Er as [Er1 Er3]. apply orb_false_iff in Er1 as [_ Er2].
    apply orb_false_iff in Er3 as [Ec _]. unfold change in Ec. apply orb_false_iff in Ec as [Ec _].
    apply orb_false_iff in Ec as [_ Ec]. apply negb_false_iff, bool_decide_eq_true in Ec. cbn in Ec, Er2.
    destruct Hh as [Hh|Hh]; [by rewrite Hh in Er2|]. cbn. by rewrite <- Ec.
Qed.

Lemma bond_reconfigure_rep w s b L :
  bond_rep b L -> exists r b', bond_reconfigure w s b = Ret (r, b') /\ bond_rep b' L /\ b_balance b' = bo_balance s.
Proof. intros [[] Hr Ht]. apply reconfigure_ok; try done. by right. Qed.

Lemma bond_create_rep w s :
  world_ok w -> exists b, bond_create w s = Ret b /\ bond_rep b [] /\ b_balance b = bo_balance s.
Proof.
  intros Hw. unfold bond_create.
  match goal with |- context [(draw_tag w ≫= ?k) bond_zero] => set (rest := k) end.
  bstep (draw_tag_ok w bond_zero). subst rest. cbv beta. bstep (draw_tag_ok w (drawn bond_zero)). bmod.
  match goal with |- context [(bond_reconfigure w s ≫= _) ?b0] =>
    destruct (reconfigure_ok w s b0 []) as (r & b1 & E & Hrep & Em) end.
  - apply sm_empty_rep.
  - done.
  - done.
  - apply Hw.
  - apply Hw.
  - apply set_init_good.
  - by left.
  - bstep E. eexists. split; [done|]. split; [|done]. destruct Hrep as [[] ? ?]. split; [|done..]. split; try done.
    apply set_init_good.
Qed.

(** The loop of bond_slave_unregister over the hash table. *)
Definition forgotten (p : nat) (e : bond_entry) : bond_entry :=
  if bool_decide (e_slave e = Some p) then set_eslave None e else e.

Lemma forget_all_ok p b es :
  b_hash b = Some es -> length es = n_entries ->
  for_each_entry (forget_slave p) tt b = Ret (tt, with_hash (Some (forgotten p <$> es)) b).
Proof.
  intros Eh Hlen.
  destruct (entries_rule (forget_slave p) (fun i _ b' => b' = with_hash (Some ((forgotten p <$> take i es) ++ drop i es)) b))
    with (x := tt) (b := b) as ([] & b' & E & ->); [|by rewrite drop_0; cbn; destruct b; cbn in *; subst|].
  - intros i [] b' Hi ->. destruct (lookup_lt_is_Some_2 es i) as [e Ei]; [lia|]. exists tt.
    set (l := (forgotten p <$> take i es) ++ drop i es). set (b1 := with_hash (Some l) b).
    assert (l !! i = Some e) as El.
    { unfold l. rewrite lookup_app_r; rewrite length_fmap, length_take_le by lia; [|lia].
      rewrite lookup_drop. by replace (i + (i - i))%nat with i by lia. }
    assert (forall e', <[i := e']> l = (forgotten p <$> take i es) ++ e' :: drop (S i) es) as Hins.
    { intros e'. unfold l. rewrite (drop_S es e i Ei).
      rewrite insert_app_r_alt; rewrite length_fmap, length_take_le by lia; [|lia]. by rewrite Nat.sub_diag. }
    unfold forget_slave. bstep (load_bond_entry_ok b1 l i e eq_refl El).
    rewrite (take_S_r _ _ _ Ei), fmap_app, <- app_assoc. cbn [fmap list_fmap app]. unfold forgotten at 2.
    case_bool_decide.
    + rewrite (store_entry_ok b1 l i e (set_eslave None) eq_refl El), Hins. by eexists.
    + eexists. split; [done|]. unfold b1. rewrite <- (Hins e). by rewrite list_insert_id.
  - rewrite E. do 3 f_equal. by rewrite take_ge, drop_ge, app_nil_r by lia.
Qed.

Lemma forgotten_ok p ps ps' es :
  (forall q, q ∈ ps -> q <> p -> q ∈ ps') -> Forall (entry_ok ps) es -> Forall (entry_ok ps') (forgotten p <$> es).
Proof.
  intros Hsub He. apply Forall_fmap. eapply Forall_impl; [exact He|]. intros e [O1 O2 O3 O4]. cbn. unfold forgotten.
  case_bool_decide as E; split; cbn; try done. intros q Eq. apply Hsub; [by apply O1|]. congruence.
Qed.

Lemma forget_hash_ok p mode h ps ps' :
  (forall q, q ∈ ps -> q <> p -> q ∈ ps') -> hash_ok mode h ps -> hash_ok mode (fmap (M:=option) (fmap (M:=list) (forgotten p)) h) ps'.
Proof.
  intros Hsub. destruct h as [es|]; [|done]. cbn. intros (? & Hlen & He).
  split_and!; [done|by rewrite length_fmap|by eapply forgotten_ok].
Qed.

(** The table of bond_slave_unregister, if there is one. *)
Lemma forget_step_ok p b L : bond_rep b L ->
  (match b_hash b with Some _ => for_each_entry (forget_slave p) tt | None => mret tt end) b
  = Ret (tt, with_hash (fmap (M:=option) (fmap (M:=list) (forgotten p)) (b_hash b)) b).
Proof.
  intros [Hb _ _]. pose proof (fo_hash _ _ _ _ _ _ _ _ Hb) as Hh. destruct (b_hash b) as [es|] eqn:Eh.
  - destruct Hh as (_ & Hlen & _). by apply forget_all_ok.
  - cbn. rewrite <- Eh. by destruct b.
Qed.

(** The pointers that clients know slaves by. *)
Definition registered (L : bslaves) : gset Z := list_to_set (aux_of <$> L).

Lemma elem_registered q (L : bslaves) : q ∈ registered L <-> q ∈ aux_of <$> L.
Proof. apply elem_of_list_to_set. Qed.

Lemma registered_perm (L : bslaves) l : aux_of <$> L ≡ₚ l -> registered L = list_to_set l.
Proof. unfold registered. by intros ->. Qed.

Lemma registered_same_keys L L' : same_keys L L' -> registered L' = registered L.
Proof. unfold registered. by intros [_ ->]. Qed.

Lemma registered_few b L : bond_rep b L -> Z.of_nat (size (registered L)) < 2 ^ 60 -> few L.
Proof.
  intros [_ Hr _]. unfold few, registered. rewrite size_list_to_set by apply Hr. by rewrite length_fmap.
Qed.

(** What bond_slave_unregister leaves of the members, before it looks for an active slave. *)
Lemma forgotten_base p b sm ps ps' :
  (forall q, q ∈ ps -> q <> p -> q ∈ ps') -> base b ps ->
  base (with_active None (with_bslaves sm (with_hash (fmap (M:=option) (fmap (M:=list) (forgotten p)) (b_hash b)) b))) ps'
  /\ (b_active b <> Some p -> base (with_bslaves sm (with_hash (fmap (M:=option) (fmap (M:=list) (forgotten p)) (b_hash b)) b)) ps').
Proof.
  intros Hsub [H1 H2 H3 H4 H5 H6]. pose proof (forget_hash_ok p _ _ _ _ Hsub H3) as Hh.
  split; [by split|]. intros Ha. split; try done. cbn. intros q Hq. apply Hsub; [by apply H2|]. congruence.
Qed.

Lemma hurried_aux s s' : hurried s s' -> bs_aux s' = bs_aux s.
Proof. intros [->|(_ & _ & _ & _ & _ & E)]; [done|]. by apply ident_aux in E as [? _]. Qed.

(** The end of bond_slave_unregister. *)
Lemma unregister_end w b L :
  world_ok w -> base (with_active None b) L.*1 -> sm_rep (b_slaves b) L -> Forall (fun x => stag_ok x.2) L ->
  exists b' L', (_ ← bond_choose_active_slave w tag_set_init; bmodify (with_send true)) b = Ret (tt, b')
    /\ bond_rep b' L' /\ slaves2 hurried L L' /\ b_balance b' = b_balance b.
Proof.
  intros Hw Hb Hr Ht.
  destruct (bond_choose_active_slave_ok w tag_set_init b L Hw Hr Ht set_init_good (fo_no_slaves _ _ _ _ _ _ _ _ Hb))
    as (set & b1 & L1 & E & Ha).
  bstep E. exists (with_send true b1), L1. split; [done|].
  pose proof (slaves2_ptrs _ _ _ (ac_slaves _ _ _ _ _ _ Ha)) as Ep.
  destruct (aconf_fields _ _ (ac_conf _ _ _ _ _ _ Ha)) as (_ & Em & _).
  split; [|split; [apply Ha|done]]. split; [|apply Ha|apply Ha].
  apply (aconf_base (with_active None b)).
  - exact (ac_conf _ _ _ _ _ _ Ha).
  - by rewrite Ep.
  - intros p Hp. destruct (ac_enabled _ _ _ _ _ _ Ha p Hp) as (s & Hs & _). by apply (list_elem_of_fmap_2 fst L1 (p, s)).
Qed.

Lemma bond_slave_unregister_rep w q b L :
  world_ok w -> bond_rep b L -> few L ->
  exists b' L', bond_slave_unregister w q b = Ret (tt, b') /\ bond_rep b' L' /\ b_balance b' = b_balance b
    /\ aux_of <$> L ≡ₚ if decide (q ∈ aux_of <$> L) then q :: (aux_of <$> L') else aux_of <$> L'.
Proof.
  intros Hw Hrep Hf. unfold bond_slave_unregister. bstep (lookup_rep b L q Hrep). case_decide as Hq.
  2: { rewrite (proj2 (find_slave_None q L) Hq). by exists b, L. }
  destruct (find_registered q L Hq) as (p & s & -> & Hin & Eq). cbn [fmap option_fmap option_map fst].
  destruct (enable_rep w b L p s false None Hw Hrep Hin) as (sm & L1 & E & Hrep1 & [Kp Ka] & _ & Hin1). bstep E. bget.
  assert (b_balance (with_bslaves sm (enabled_bond false s b)) = b_balance b) as Em
    by exact (bconf_balance _ _ (enabled_bond_conf false s b)).
  set (b1 := with_bslaves sm (enabled_bond false s b)) in *. clearbody b1. bstep (forget_step_ok p b1 L1 Hrep1).
  set (s1 := enabled_slave w (b_draws b) false s) in *. destruct Hrep1 as [Hb1 Hr1 Ht1].
  assert (few L1) as Hf1 by (unfold few; by rewrite <- (length_fmap fst), Kp, length_fmap).
  destruct (sm_remove_ok (b_slaves b1) L1 p s1 Hr1 Hin1 Hf1) as (m1 & m2 & L2 & E1 & E2 & Hr2 & _ & EP).
  set (b2 := with_hash (fmap (M:=option) (fmap (M:=list) (forgotten p)) (b_hash b1)) b1).
  bstep (on_bslaves_ok (sm_remove p) b2 tt m1 E1). bstep (on_bslaves_ok (sm_free p) (with_bslaves m1 b2) tt m2 E2).
  change (with_bslaves m2 (with_bslaves m1 b2)) with (with_bslaves m2 b2).
  assert (aux_of <$> L ≡ₚ q :: (aux_of <$> L2)) as Ha.
  { rewrite <- Ka, EP, fmap_cons. unfold aux_of at 1. cbn. unfold s1. by rewrite enabled_slave_aux, Eq. }
  assert (Forall (fun x => stag_ok x.2) L2) as Ht2 by (rewrite EP in Ht1; by apply Forall_cons in Ht1 as [_ ?]).
  destruct (forgotten_base p b1 m2 L1.*1 L2.*1) as [Hb2 Hb2']; [|done|].
  { intros r Hr Hne. rewrite EP in Hr. by apply elem_of_cons in Hr as [?|?]. }
  case_bool_decide as Hact.
  - destruct (unregister_end w (with_bslaves m2 b2) L2 Hw Hb2 Hr2 Ht2) as (b3 & L3 & E3 & Hrep3 & Hh & Em3).
    exists b3, L3. split; [exact E3|]. split; [done|]. split; [exact (eq_trans Em3 Em)|].
    rewrite (proj2 (slaves2_same_keys hurried L2 L3 Hh hurried_aux)). done.
  - exists (with_bslaves m2 b2), L2. split; [done|]. split; [|done]. split; [by apply Hb2'|done..].
Qed.

Lemma set_may_enable_rep q x b L :
  bond_rep b L -> q ∈ registered L ->
  exists b' L', bond_slave_set_may_enable q x b = Ret (tt, b') /\ bond_rep b' L' /\ same_keys L L'
    /\ b_balance b' = b_balance b.
Proof.
  intros Hrep Hq. apply elem_registered in Hq. destruct (find_registered q L Hq) as (p & s & Ef & Hin & _).
  unfold bond_slave_set_may_enable. bstep (lookup_rep b L q Hrep). rewrite Ef.
  bstep (eq_refl : bderef (Some p) b = Ret (p, b)).
  destruct (bstore_rep b L p s (set_may_enable x) Hrep Hin eq_refl eq_refl ltac:(done)) as (sm & L' & E & Hr & Hk & _).
  by exists (with_bslaves sm b), L'.
Qed.

Lemma bond_slave_set_netdev_rep q n b L :
  bond_rep b L ->
  exists b' L', bond_slave_set_netdev q n b = Ret (tt, b') /\ bond_rep b' L' /\ same_keys L L'
    /\ b_balance b' = b_balance b.
Proof.
  intros Hrep. unfold bond_slave_set_netdev. bstep (lookup_rep b L q Hrep).
  destruct (find_slave q L) as [[p s]|] eqn:Ef; [|by exists b, L]. cbn [fmap option_fmap option_map fst].
  assert ((p, s) ∈ L) as Hin by (unfold find_slave in Ef; by apply find_first_Some in Ef as [_ ?]).
  destruct (set_netdev_rep b L p s n Hrep Hin) as (b' & L' & s' & E & Hr & Hk & Em & _). by exists b', L'.
Qed.

(** ** Waiting and accounts *)

Lemma bond_wait_rep w b L : bond_rep b L -> exists r, bond_wait w b = Ret (r, b).
Proof.
  intros Hrep. pose proof (br_slaves _ _ Hrep) as Hr. unfold bond_wait.
  bstep (each_fold (bwait_one w) (fun acc x => (if negb (bs_delay x.2 =? LLONG_MAX) then acc.1 ++ [bs_delay x.2] else acc.1,
      acc.2 || negb (bs_change_seq x.2 =? w_change_seq w (bs_netdev x.2)))) b L Hr
      ltac:(intros p s x Hx; unfold bwait_one; by bstep (bload_ok b L p s Hr Hx)) ([], false)).
  bget. by eexists.
Qed.

Lemma bond_account_rep f vlan n b L :
  bond_rep b L -> exists b', bond_account f vlan n b = Ret (tt, b') /\ bond_rep b' L /\ b_balance b' = b_balance b.
Proof.
  intros Hrep. unfold bond_account. bget. destruct (bond_is_balanced b) eqn:Hbal; [|by exists b].
  apply bond_is_balanced_spec in Hbal as [_ Hm]. bstep (lookup_bond_entry_ok b f vlan Hm).
  assert (b_balance b <> BM_AB) as Hm' by (intros E; destruct Hm; congruence).
  destruct (table_there b L Hrep Hm') as (es & Eh & Hlen & Hes).
  destruct (lookup_lt_is_Some_2 es (entry_of b f vlan)) as [e Ei]; [rewrite Hlen; apply entry_index|].
  rewrite (store_entry_ok b es _ e _ Eh Ei). eexists. split; [done|]. split; [|done].
  destruct (Forall_lookup_1 _ _ _ _ Hes Ei) as [O1 O2 O3 O4].
  destruct Hrep as [[] ? ?]. split; [|done..]. split; try done. cbn. split_and!; [done|by rewrite length_insert|].
  apply Forall_insert; [done|]. split; cbn; [done..|]. unfold u64. apply Z.mod_pos_bound. lia.
Qed.

(** ** Commands *)

Lemma bond_lookup_slave_ok name b L : bond_rep b L ->
  bond_lookup_slave name b = Ret (fst <$> find_first (fun x => String.eqb (bs_name x.2) name) L, b).
Proof.
  intros [_ Hr _]. unfold bond_lookup_slave. bget.
  rewrite (cstate_bind_step (lift (sm_nodes (b_slaves b))) _ b L.*1 b) by (unfold lift; by rewrite (sm_nodes_ok _ _ Hr)).
  by apply (search_slaves_ok (fun s => String.eqb (bs_name s) name) b L L).
Qed.

Lemma find_named (test : bond_slave -> bool) (L : bslaves) :
  match find_first (fun x => test x.2) L with Some (p, s) => (p, s) ∈ L | None => True end.
Proof. destruct (find_first _ L) as [[p s]|] eqn:E; [|done]. by apply find_first_Some in E as [_ ?]. Qed.

Lemma rep_unixctl b L t : bond_rep b L -> word t -> bond_rep (with_unixctl (tag_set_add (b_unixctl b) t) b) L.
Proof. intros [[] ? ?] Ht. split; [|done..]. split; try done. by apply set_add_good. Qed.

Lemma rep_entry b L es i e : bond_rep b L -> b_hash b = Some es -> entry_ok L.*1 e ->
  bond_rep (with_hash (Some (<[i := e]> es)) b) L.
Proof.
  intros [[H1 H2 H3 H4 H5 H6] ? ?] Eh He. split; [|done..]. split; try done. rewrite Eh in H3.
  destruct H3 as (? & ? & ?). cbn. split_and!; [done|by rewrite length_insert|by apply Forall_insert].
Qed.

Lemma bond_unixctl_migrate_rep w h name b L :
  world_ok w -> bond_rep b L ->
  exists r b', bond_unixctl_migrate w h name b = Ret (r, b') /\ bond_rep b' L /\ b_balance b' = b_balance b.
Proof.
  intros Hw Hrep. unfold bond_unixctl_migrate. bget. case_bool_decide as Hm; cbn [negb]; [|by do 2 eexists].
  destruct h as [n|]; [|by do 2 eexists]. bstep (bond_lookup_slave_ok name b L Hrep).
  pose proof (find_named (fun s => String.eqb (bs_name s) name) L) as Hin.
  destruct (find_first _ L) as [[p s]|]; cbn [fmap option_fmap option_map fst]; [|by do 2 eexists].
  bstep (bload_ok b L p s (br_slaves _ _ Hrep) Hin). destruct (negb (bs_enabled s)); [by do 2 eexists|].
  destruct (table_there b L Hrep ltac:(congruence)) as (es & Eh & Hlen & Hes). set (i := Z.to_nat (Z.land n BOND_MASK)).
  destruct (lookup_lt_is_Some_2 es i) as [e Ei]; [rewrite Hlen; apply entry_index|].
  pose proof (Forall_lookup_1 _ _ _ _ Hes Ei) as [O1 O2 O3 O4].
  bstep (load_bond_entry_ok b es i e Eh Ei). bmod. set (b1 := with_unixctl _ b).
  assert (bond_rep b1 L) as Hrep1 by (by apply rep_unixctl).
  bstep (store_entry_ok b1 es i e (set_eslave (Some p)) Eh Ei). set (e1 := set_eslave (Some p) e).
  bstep (draw_tag_ok w (with_hash (Some (<[i := e1]> es)) b1)).
  assert (<[i := e1]> es !! i = Some e1) as Ei1 by (apply list_lookup_insert_eq; by eapply lookup_lt_Some).
  bstep (store_entry_ok (drawn (with_hash (Some (<[i := e1]> es)) b1)) _ i e1 (set_etag (w_tag w (b_draws b))) eq_refl Ei1).
  rewrite list_insert_insert_eq. do 2 eexists. split; [done|]. split; [|done].
  apply (rep_entry (drawn b1) L es i); [by destruct Hrep1|done|]. pose proof (wo_tag w Hw (b_draws b)) as Hg.
  split; cbn; [|by destruct Hg|done|done]. intros q [= <-]. by apply (list_elem_of_fmap_2 fst L (p, s)).
Qed.

Lemma active_tag_word b L : bond_rep b L -> exists t, bond_get_active_slave_tag b = Ret (t, b) /\ word t.
Proof.
  intros [[_ Ha _ Hn _ _] Hr Ht]. unfold bond_get_active_slave_tag. bget.
  destruct (b_active b) as [p|]; [|eexists; split; [done|apply Hn]].
  destruct (ptr_slave p L (Ha p eq_refl)) as (s & Hs). bstep (bload_ok b L p s Hr Hs). eexists. split; [done|].
  rewrite Forall_forall in Ht. exact (proj1 (Ht (p, s) Hs)).
Qed.

Lemma bond_unixctl_set_active_slave_rep w name b L :
  world_ok w -> bond_rep b L ->
  exists r b' L', bond_unixctl_set_active_slave w name b = Ret (r, b') /\ bond_rep b' L' /\ same_keys L L'
    /\ b_balance b' = b_balance b.
Proof.
  intros Hw Hrep. unfold bond_unixctl_set_active_slave. bstep (bond_lookup_slave_ok name b L Hrep).
  pose proof (find_named (fun s => String.eqb (bs_name s) name) L) as Hin.
  destruct (find_first _ L) as [[p s]|]; cbn [fmap option_fmap option_map fst]; [|by do 3 eexists].
  bstep (bload_ok b L p s (br_slaves _ _ Hrep) Hin). bget. destruct (negb (bs_enabled s)); [by do 3 eexists|].
  case_bool_decide; [by do 3 eexists|]. destruct (active_tag_word b L Hrep) as (t & E & Ht). bstep E. bmod. bmod.
  set (b1 := with_active (Some p) _). bstep (draw_tag_ok w b1).
  assert (bond_rep (drawn b1) L) as Hrep1.
  { destruct (rep_unixctl b L t Hrep Ht) as [[] ? ?]. split; [|done..]. split; try done.
    intros q [= <-]. by apply (list_elem_of_fmap_2 fst L (p, s)). }
  destruct (bstore_rep (drawn b1) L p s (set_btag (w_tag w (b_draws b1))) Hrep1 Hin eq_refl eq_refl) as (sm & L' & E1 & Hr' & Hk & _).
  { intros _. pose proof (wo_tag w Hw (b_draws b1)) as Hg. split; cbn; [by destruct Hg|done]. }
  bstep E1. bmod. do 3 eexists. split; [done|]. split; [apply rep_send, Hr'|done].
Qed.

Lemma enable_slave_rep w name e b L :
  world_ok w -> bond_rep b L ->
  exists r b' L', enable_slave w name e b = Ret (r, b') /\ bond_rep b' L' /\ same_keys L L' /\ b_balance b' = b_balance b.
Proof.
  intros Hw Hrep. unfold enable_slave. bstep (bond_lookup_slave_ok name b L Hrep).
  pose proof (find_named (fun s => String.eqb (bs_name s) name) L) as Hin.
  destruct (find_first _ L) as [[p s]|]; cbn [fmap option_fmap option_map fst]; [|by do 3 eexists]. bget.
  destruct (enable_rep w b L p s e (Some (b_unixctl b)) Hw Hrep Hin) as (sm & L' & E & Hrep' & Hk & Hs & _).
  assert (enable_slave_in w p e (b_unixctl b) b
    = Ret (enabled_tags e s (b_unixctl b), with_bslaves sm (enabled_bond e s b))) as E1 by (unfold enable_slave_in; by bstep E).
  bstep E1. bmod. do 3 eexists. split; [done|].
  split; [|split; [done|exact (bconf_balance _ _ (enabled_bond_conf e s b))]].
  destruct Hrep' as [[] ? ?]. split; [|done..]. split; try done. cbn.
  apply enabled_tags_good; [done|]. by apply Hrep.
Qed.

(** ** Learning packets *)

(** A mode that gives flows a slave when LACP is off. *)
Definition may_learn (b : bond) : Prop := b_balance b <> BM_TCP.

Lemma bond_compose_learning_packet_ok w mac vlan b L :
  world_ok w -> bond_rep b L -> settled b L -> may_send_learning_packets b = true -> may_learn b ->
  exists packet p s h d, bond_compose_learning_packet w mac vlan b = Ret ((packet, bs_aux s), rehash h d b)
    /\ (p, s) ∈ L /\ bs_enabled s = true /\ bond_rep (rehash h d b) L.
Proof.
  intros Hw Hrep Hs Hmay Hm. unfold bond_compose_learning_packet. bget. rewrite Hmay. cbn [negb].
  unfold may_send_learning_packets in Hmay. apply andb_true_iff in Hmay as [Hmay Hact].
  apply andb_true_iff in Hmay as [Hl _]. apply bool_decide_eq_true in Hl.
  destruct (b_active b) as [a|] eqn:Ea; [|done]. destruct (proj1 Hs a Ea) as (t & Ht & He).
  assert (L <> []) as HL by (intros ->; by apply not_elem_of_nil in Ht).
  destruct (choose_output_slave_ok w (with_dl_src mac flow_zero) vlan 0 b L Hw Hrep HL) as (p & u & h & d & E & Hp & Hh & _).
  bstep E. destruct p as [p|].
  - destruct (picked_enabled _ _ _ _ _ _ _ Hs Hp) as (s & Hin & Hse).
    bstep (eq_refl : bderef (Some p) (rehash h d b) = Ret (p, rehash h d b)).
    bstep (bload_ok (rehash h d b) L p s (br_slaves _ _ Hrep) Hin). do 5 eexists. split; [done|].
    split; [exact Hin|]. split; [done|]. by apply rehash_rep.
  - exfalso. destruct (picked_none _ _ _ _ _ _ Hs Hp) as [Hb|Hall].
    + unfold lacp_blocks in Hb. rewrite Hl, !bool_decide_false in Hb by done. done.
    + specialize (Hall _ Ht). cbn in Hall. congruence.
Qed.

Lemma bundle_send_ok w L macs : world_ok w -> forall b,
  bond_rep b L -> settled b L -> may_send_learning_packets b = true -> may_learn b ->
  exists packets h d, bundle_send_learning_packets w macs b = Ret (packets, rehash h d b) /\ bond_rep (rehash h d b) L
    /\ Forall (fun x => exists p s, (p, s) ∈ L /\ bs_enabled s = true /\ bs_aux s = x.2) packets.
Proof.
  intros Hw. induction macs as [|e macs IH]; intros b Hrep Hs Hmay Hm; cbn [bundle_send_learning_packets].
  { exists [], (b_hash b), (b_draws b). by rewrite rehash_same. }
  destruct (bond_compose_learning_packet_ok w e.1 e.2 b L Hw Hrep Hs Hmay Hm) as (x & p & s & h & d & E & Hin & He & Hrep1).
  bstep E. destruct (IH (rehash h d b) Hrep1 Hs Hmay Hm) as (xs & h2 & d2 & E2 & Hrep2 & Hxs). bstep E2.
  do 3 eexists. split; [done|]. split; [exact Hrep2|]. constructor; [|done]. by exists p, s.
Qed.

Lemma bundle_enable_ok ports : forall b L,
  bond_rep b L -> Forall (fun x => x.1 ∈ registered L) ports ->
  exists b' L', bundle_enable ports b = Ret (tt, b') /\ bond_rep b' L' /\ same_keys L L' /\ b_balance b' = b_balance b.
Proof.
  induction ports as [|[q x] ports IH]; intros b L Hrep Hp; [by exists b, L|]. apply Forall_cons in Hp as [Hq Hp].
  destruct (set_may_enable_rep q x b L Hrep Hq) as (b1 & L1 & E & Hrep1 & Hk & Em). cbn [bundle_enable fst snd] in *.
  bstep E. destruct (IH b1 L1 Hrep1) as (b2 & L2 & E2 & Hrep2 & Hk2 & Em2).
  { by rewrite (registered_same_keys _ _ Hk). }
  exists b2, L2. split; [exact E2|]. split; [done|]. split; [by transitivity L1|congruence].
Qed.

Lemma bundle_run_ok w ports status macs set b L :
  world_ok w -> bond_rep b L -> set_good set -> Forall (fun x => x.1 ∈ registered L) ports ->
  (status = LACP_DISABLED -> may_learn b) ->
  exists set' packets b' L', bundle_run w ports status macs set b = Ret ((set', packets), b') /\ bond_rep b' L'
    /\ same_keys L L' /\ b_balance b' = b_balance b /\ set_good set' /\ settled b' L'
    /\ Forall (fun x => exists p s, (p, s) ∈ L' /\ bs_enabled s = true /\ bs_aux s = x.2) packets.
Proof.
  intros Hw Hrep Hset Hp Hlearn. unfold bundle_run.
  destruct (bundle_enable_ok ports b L Hrep Hp) as (b1 & L1 & E1 & Hrep1 & Hk1 & Em1). bstep E1.
  destruct (bond_run_ok w status set b1 L1 Hw Hrep1 Hset) as (set' & fake & b2 & L2 & E2 & Hrun). bstep E2.
  pose proof (run_settled _ _ _ _ _ _ _ _ Hrun) as Hs.
  assert (same_keys L L2) as Hk.
  { transitivity L1; [done|]. apply (slaves2_same_keys _ _ _ (rn_slaves _ _ _ _ _ _ _ _ Hrun)).
    intros s s' H. by apply run_slave_ident, ident_aux in H as [? _]. }
  assert (b_balance b2 = b_balance b) as Em by (destruct (rn_conf _ _ _ _ _ _ _ _ Hrun); congruence).
  assert (bond_rep (with_send false b2) L2) as Hrep2 by (apply rep_send, Hrun).
  assert (bond_should_send_learning_packets b2
          = Ret (b_send b2 && may_send_learning_packets b2, with_send false b2)) as E3 by done.
  bstep E3. destruct (b_send b2 && may_send_learning_packets b2) eqn:Hsend.
  - apply andb_true_iff in Hsend as [_ Hmay].
    destruct (bundle_send_ok w L2 macs Hw (with_send false b2) Hrep2 Hs Hmay) as (packets & h & d & E4 & Hrep4 & Hpk).
    { unfold may_learn. change (b_balance (with_send false b2)) with (b_balance b2). rewrite Em. apply Hlearn.
      rewrite <- (rn_lacp _ _ _ _ _ _ _ _ Hrun). unfold may_send_learning_packets in Hmay.
      apply andb_true_iff in Hmay as [Hmay _]. apply andb_true_iff in Hmay as [Hmay _]. by apply bool_decide_eq_true in Hmay. }
    bstep E4. exists set', packets, (rehash h d (with_send false b2)), L2. split_and!; try done. apply Hrun.
  - bret. exists set', [], (with_send false b2), L2. split_and!; try done. apply Hrun.
Qed.

(** ** The end of a bond *)

Lemma destroy_bslaves_ok L : forall c b fuel,
  sm_rep (b_slaves b) L -> draining (sm_table (b_slaves b)) c -> (length L <= fuel)%nat ->
  exists b', destroy_bslaves fuel c b = Ret (tt, b') /\ sm_rep (b_slaves b') [].
Proof.
  induction L as [|y L IH]; intros c b fuel Hr Hd Hf.
  { exists b. split; [|done]. destruct c as [|x c]; [by destruct fuel|].
    by destruct (sm_drain _ _ _ _ Hr Hd) as (? & ? & ? & ? & ? & ? & _). }
  destruct c as [|x next].
  { pose proof (draining_end _ Hd) as E. by rewrite (sr_nodes _ _ Hr) in E. }
  destruct fuel as [|fuel]; [cbn in Hf; lia|].
  destruct (sm_drain _ _ _ _ Hr Hd) as (p & s & L' & t & c & [= -> <-] & -> & En & Er & Hd' & Ef & _ & Hr').
  cbn [destroy_bslaves]. bget.
  assert (lift (hmap_next (sm_table (b_slaves b)) (node_of (p, s)) next) b = Ret (c, b)) as E1
    by (unfold lift; by rewrite En).
  bstep E1. change (node_ptr (node_of (p, s))) with p.
  bstep (on_bslaves_ok (sm_remove p) b tt _ Er). bstep (on_bslaves_ok (sm_free p) (with_bslaves _ b) tt _ Ef).
  apply IH; [exact Hr'|exact Hd'|cbn in Hf; lia].
Qed.

(** bond_destroy frees every slave and the hash table. *)
Lemma bond_destroy_ok b L :
  bond_rep b L -> few L -> exists b', bond_destroy b = Ret (tt, b') /\ sm_heap (b_slaves b') = ∅ /\ b_hash b' = None.
Proof.
  intros [_ Hr _] Hf. unfold bond_destroy. bget. pose proof (sm_count _ _ Hr) as Hc. unfold hmap_count in Hc.
  destruct (draining_first (sm_table (b_slaves b)) _ (sm_hmap_rep _ _ Hr)) as (c & E & Hd); [unfold few in Hf; lia|].
  assert (lift (hmap_first (sm_table (b_slaves b))) b = Ret (c, b)) as E1 by (unfold lift; by rewrite E).
  bstep E1. destruct (destroy_bslaves_ok L c b (length (nodes (sm_table (b_slaves b)))) Hr Hd) as (b' & E' & Hr').
  { by rewrite (sr_nodes _ _ Hr), length_fmap. }
  bstep E'. eexists. split; [done|]. split; [|done]. apply map_eq. intros p. rewrite lookup_empty. cbn.
  destruct (sm_heap (b_slaves b') !! p) as [s|] eqn:Es; [|done].
  by apply (sr_heap _ _ Hr'), not_elem_of_nil in Es.
Qed.

(** ** Sequences of calls *)

Inductive bond_call :=
  | CReconfigure (s : bond_settings)
  | CRegister (slave stb_id netdev : Z)
  | CSetNetdev (slave netdev : Z)
  | CUnregister (slave : Z)
  | CRun (ports : list (Z * bool)) (status : lacp_status_t) (macs : list (list Z * Z))
  | CWait
  | COutput (f : flow) (vlan tags : Z)
  | CAdmit (slave : Z) (dst : list Z) (tags : Z)
  | CAccount (f : flow) (vlan n_bytes : Z)
  | CRebalance
  | CMigrate (hash : option Z) (slave : string)
  | CSetActive (slave : string)
  | CEnable (slave : string) (enable : bool)
  | CRevalidated.

(** A call; [set] is the set of tags that its client will revalidate, [CRevalidated] that it
    has done so. *)
Definition run_call (w : world) (c : bond_call) (set : tag_set) : bm tag_set :=
  match c with
  | CReconfigure s => _ ← bond_reconfigure w s; mret set
  | CRegister slave stb_id netdev => _ ← bond_slave_register w slave stb_id netdev; mret set
  | CSetNetdev slave netdev => _ ← bond_slave_set_netdev slave netdev; mret set
  | CUnregister slave => _ ← bond_slave_unregister w slave; mret set
  | CRun ports status macs => r ← bundle_run w ports status macs set; mret r.1
  | CWait => _ ← bond_wait w; mret set
  | COutput f vlan tags => _ ← bond_choose_output_slave w f vlan tags; mret set
  | CAdmit slave dst tags => _ ← bond_check_admissibility slave dst tags; mret set
  | CAccount f vlan n_bytes => _ ← bond_account f vlan n_bytes; mret set
  | CRebalance => bond_rebalance w set
  | CMigrate hash slave => _ ← bond_unixctl_migrate w hash slave; mret set
  | CSetActive slave => _ ← bond_unixctl_set_active_slave w slave; mret set
  | CEnable slave enable => _ ← enable_slave w slave enable; mret set
  | CRevalidated => mret tag_set_init
  end.

Fixpoint run_calls (cs : list (world * bond_call)) (set : tag_set) : bm tag_set :=
  match cs with
  | [] => mret set
  | x :: cs => set ← run_call x.1 x.2 set; run_calls cs set
  end.

(** The slaves after a call, and the mode. *)
Definition slaves_after (c : bond_call) (R : gset Z) : gset Z :=
  match c with CRegister q _ _ => {[q]} ∪ R | CUnregister q => R ∖ {[q]} | _ => R end.

Definition mode_after (c : bond_call) (m : bond_mode) : bond_mode :=
  match c with CReconfigure s => bo_balance s | _ => m end.

(** What a client has to see to: it passes slaves it has registered, asks for an output slave
    only if there is one, and in mode balance-tcp does not run the bond without LACP. *)
Definition call_ok (R : gset Z) (m : bond_mode) (c : bond_call) : Prop :=
  match c with
  | CRun ports status _ => Forall (fun x => x.1 ∈ R) ports /\ (status = LACP_DISABLED -> m <> BM_TCP)
  | COutput _ _ _ => R <> ∅
  | CAdmit q _ _ => q ∈ R
  | _ => True
  end.

Fixpoint calls_ok (R : gset Z) (m : bond_mode) (cs : list (world * bond_call)) : Prop :=
  match cs with
  | [] => True
  | x :: cs => world_ok x.1 /\ call_ok R m x.2 /\ calls_ok (slaves_after x.2 R) (mode_after x.2 m) cs
  end.

Definition bond_inv (R : gset Z) (m : bond_mode) (set : tag_set) (b : bond) : Prop :=
  exists L, bond_rep b L /\ registered L = R /\ b_balance b = m /\ set_good set.

(** A call that keeps the pointers, the mode and the set. *)
Lemma plain_call {A} (f : bm A) R m set b r b' L L' :
  f b = Ret (r, b') -> bond_rep b' L' -> same_keys L L' -> b_balance b' = m -> registered L = R -> set_good set ->
  exists set' b', (_ ← f; mret set) b = Ret (set', b') /\ bond_inv R m set' b'.
Proof.
  intros E Hrep Hk Em ER Hset. bstep E. exists set, b'. split; [done|]. exists L'.
  by rewrite (registered_same_keys _ _ Hk).
Qed.

Lemma register_call_ok w q n1 n2 set b R m :
  world_ok w -> Z.of_nat (size R) < 2 ^ 60 -> bond_inv R m set b ->
  exists set' b', run_call w (CRegister q n1 n2) set b = Ret (set', b') /\ bond_inv ({[q]} ∪ R) m set' b'.
Proof.
  intros Hw Hsize (L & Hrep & <- & <- & Hset). pose proof (registered_few b L Hrep Hsize) as Hf. cbn [run_call].
  destruct (bond_slave_register_rep w b L q n1 n2 Hw Hrep Hf) as (b' & L' & E & Hrep' & Em & Ea). bstep E.
  exists set, b'. split; [done|]. exists L'. split; [done|]. split; [|done].
  case_decide as Hq; rewrite (registered_perm _ _ Ea); [|done]. apply elem_registered in Hq.
  unfold registered in *. set_solver.
Qed.

Lemma unregister_call_ok w q set b R m :
  world_ok w -> Z.of_nat (size R) < 2 ^ 60 -> bond_inv R m set b ->
  exists set' b', run_call w (CUnregister q) set b = Ret (set', b') /\ bond_inv (R ∖ {[q]}) m set' b'.
Proof.
  intros Hw Hsize (L & Hrep & <- & <- & Hset). pose proof (registered_few b L Hrep Hsize) as Hf. cbn [run_call].
  destruct (bond_slave_unregister_rep w q b L Hw Hrep Hf) as (b' & L' & E & Hrep' & Em & Ea). bstep E.
  exists set, b'. split; [done|]. exists L'. split; [done|]. split; [|done].
  pose proof (sr_aux _ _ (br_slaves _ _ Hrep)) as Hd. apply set_eq. intros r.
  rewrite elem_of_difference, elem_of_singleton, !elem_registered. case_decide as Hq.
  - rewrite Ea in Hd |- *. apply NoDup_cons in Hd as [Hd _]. rewrite elem_of_cons. split; [|naive_solver].
    intros Hr. split; [by right|]. by intros ->.
  - rewrite <- Ea. split; [|by intros []]. intros Hr. split; [done|]. by intros ->.
Qed.

Lemma output_call_ok w f vlan tags set b R m :
  world_ok w -> R <> ∅ -> bond_inv R m set b ->
  exists set' b', run_call w (COutput f vlan tags) set b = Ret (set', b') /\ bond_inv R m set' b'.
Proof.
  intros Hw HR (L & Hrep & ER & Em & Hset). assert (L <> []) as HL by (intros ->; by apply HR).
  destruct (bond_choose_output_slave_ok w f vlan tags b L Hw Hrep HL) as (p & t & h & d & _ & Hrep' & _ & E).
  assert (exists r, bond_choose_output_slave w f vlan tags b = Ret (r, rehash h d b)) as (r & E').
  { destruct p; [destruct E as (s & _ & E)|]; by eexists. }
  by eapply (plain_call _ R m set b r (rehash h d b) L L).
Qed.

Lemma run_call_ok w c set b R m :
  world_ok w -> Z.of_nat (size R) < 2 ^ 60 -> call_ok R m c -> bond_inv R m set b ->
  exists set' b', run_call w c set b = Ret (set', b') /\ bond_inv (slaves_after c R) (mode_after c m) set' b'.
Proof.
  intros Hw Hsize Hc Hi. destruct c as [s|q n1 n2|q n|q|ports status macs| |f vlan tags|q dst tags|f vlan n| |h s|s|s e|];
    cbn [slaves_after mode_after call_ok] in *;
    [|by apply register_call_ok| |by apply unregister_call_ok| | |by apply output_call_ok|..];
    destruct Hi as (L & Hrep & ER & Em & Hset); cbn [run_call].
  - destruct (bond_reconfigure_rep w s b L Hrep) as (r & b' & E & Hrep' & Em'). by eapply (plain_call _ R _ set b r b' L L).
  - destruct (bond_slave_set_netdev_rep q n b L Hrep) as (b' & L' & E & Hrep' & Hk & Em').
    eapply (plain_call _ R m set b tt b' L L'); [done..|congruence|done|done].
  - destruct Hc as [Hp Hl]. destruct (bundle_run_ok w ports status macs set b L Hw Hrep Hset) as
      (set' & pk & b' & L' & E & Hrep' & Hk & Em' & Hg & _).
    { by rewrite ER. }
    { intros Es. unfold may_learn. rewrite Em. by apply Hl. }
    bstep E. exists set', b'. split; [done|]. exists L'. rewrite (registered_same_keys _ _ Hk).
    split_and!; [done|done|congruence|done].
  - destruct (bond_wait_rep w b L Hrep) as (r & E). by eapply (plain_call _ R m set b r b L L).
  - rewrite <- ER in Hc. apply elem_registered in Hc. destruct (find_registered q L Hc) as (p & s & _ & Hin & <-).
    destruct (check_admissibility_ok b L p s dst tags Hrep Hin) as (t & E). by eapply (plain_call _ R m set b _ b L L).
  - destruct (bond_account_rep f vlan n b L Hrep) as (b' & E & Hrep' & Em').
    eapply (plain_call _ R m set b tt b' L L); [done..|congruence|done|done].
  - destruct (bond_rebalance_ok w set b L Hw Hrep Hset) as (set' & b' & L' & E & Hrep' & Hs & Hg & _ & Em').
    exists set', b'. split; [exact E|]. exists L'.
    rewrite (registered_same_keys L L') by (apply (slaves2_same_keys _ _ _ Hs); intros ? ? H; by apply bare_keys in H as [? _]).
    split_and!; [done|done|congruence|done].
  - destruct (bond_unixctl_migrate_rep w h s b L Hw Hrep) as (r & b' & E & Hrep' & Em').
    eapply (plain_call _ R m set b r b' L L); [done..|congruence|done|done].
  - destruct (bond_unixctl_set_active_slave_rep w s b L Hw Hrep) as (r & b' & L' & E & Hrep' & Hk & Em').
    eapply (plain_call _ R m set b r b' L L'); [done..|congruence|done|done].
  - destruct (enable_slave_rep w s e b L Hw Hrep) as (r & b' & L' & E & Hrep' & Hk & Em').
    eapply (plain_call _ R m set b r b' L L'); [done..|congruence|done|done].
  - exists tag_set_init, b. split; [done|]. exists L. split_and!; [done..|]. apply set_init_good.
Qed.

Definition slaves_of (R : gset Z) (cs : list (world * bond_call)) : gset Z := foldl (fun R x => slaves_after x.2 R) R cs.
Definition mode_of (m : bond_mode) (cs : list (world * bond_call)) : bond_mode := foldl (fun m x => mode_after x.2 m) m cs.

Lemma slaves_after_size c R : (size (slaves_after c R) <= S (size R))%nat.
Proof.
  destruct c; cbn; try lia.
  - rewrite size_union_alt, size_singleton. pose proof (subseteq_size (R ∖ {[slave]}) R ltac:(set_solver)). lia.
  - pose proof (subseteq_size (R ∖ {[slave]}) R ltac:(set_solver)). lia.
Qed.

Lemma run_calls_ok cs : forall set b R m,
  Z.of_nat (size R + length cs) < 2 ^ 60 -> calls_ok R m cs -> bond_inv R m set b ->
  exists set' b', run_calls cs set b = Ret (set', b') /\ bond_inv (slaves_of R cs) (mode_of m cs) set' b'
    /\ Z.of_nat (size (slaves_of R cs)) < 2 ^ 60.
Proof.
  induction cs as [|[w c] cs IH]; intros set b R m Hn Hc Hi; cbn [run_calls slaves_of mode_of foldl fst snd length] in *.
  { exists set, b. split_and!; [done..|lia]. }
  destruct Hc as (Hw & Hc & Hcs). cbn [fst snd] in *.
  destruct (run_call_ok w c set b R m Hw ltac:(lia) Hc Hi) as (set1 & b1 & E & Hi1). bstep E.
  apply IH; [|done..]. pose proof (slaves_after_size c R). lia.
Qed.

(** C13: no client can break a bond.  Whatever calls follow bond_create, with the worlds they
    are made in: if the client passes slaves it has registered, asks for an output slave only
    while there is one and does not run a bond in mode balance-tcp without LACP, every call
    returns, without a fault; the slaves of the bond are those that were registered last, each
    once; and bond_destroy then frees every slave and the hash table. *)
Theorem bond_calls_safe w s cs :
  world_ok w -> calls_ok ∅ (bo_balance s) cs -> Z.of_nat (length cs) < 2 ^ 60 ->
  exists b0 set b L b',
    bond_create w s = Ret b0 /\ run_calls cs tag_set_init b0 = Ret (set, b)
    /\ bond_rep b L /\ NoDup (aux_of <$> L) /\ (forall q, q ∈ aux_of <$> L <-> q ∈ slaves_of ∅ cs)
    /\ b_balance b = mode_of (bo_balance s) cs
    /\ bond_destroy b = Ret (tt, b') /\ sm_heap (b_slaves b') = ∅ /\ b_hash b' = None.
Proof.
  intros Hw Hc Hn. destruct (bond_create_rep w s Hw) as (b0 & E0 & Hrep0 & Em0).
  destruct (run_calls_ok cs tag_set_init b0 ∅ (bo_balance s)) as (set & b & E & (L & Hrep & ER & Em & _) & Hsize).
  { rewrite size_empty. done. }
  { done. }
  { exists []. split_and!; [done..|]. apply set_init_good. }
  rewrite <- ER in Hsize. destruct (bond_destroy_ok b L Hrep (registered_few b L Hrep Hsize)) as (b' & E' & Hh & Hb).
  exists b0, set, b, L, b'. split_and!; [done..|apply Hrep| |done|done|done|done].
  intros q. by rewrite <- ER, elem_registered.
Qed.

Definition demo_settings : bond_settings := MkBondSettings "bond0" 0 BM_SLB 10000 100 200 false.

Definition demo_calls : list (world * bond_call) :=
  let up := demo_world 0 (fun _ => true) in
  [(up, CRegister 11 1 11); (up, CRegister 12 2 12);
   (up, CRun [(11, true); (12, true)] LACP_DISABLED [(replicate 6 2, 5)]);
   (up, COutput flow_zero 1 0); (up, CAccount flow_zero 1 200000); (demo_world 20000 (fun _ => true), CRebalance);
   (demo_world 20000 (fun q => q =? 12), CRun [(11, true); (12, true)] LACP_DISABLED []); (up, CUnregister 11)].

Lemma bond_calls_safe_witness :
  exists b0 set b L b',
    bond_create (demo_world 0 (fun _ => true)) demo_settings = Ret b0 /\ run_calls demo_calls tag_set_init b0 = Ret (set, b)
    /\ bond_rep b L /\ NoDup (aux_of <$> L) /\ (forall q, q ∈ aux_of <$> L <-> q ∈ slaves_of ∅ demo_calls)
    /\ b_balance b = mode_of (bo_balance demo_settings) demo_calls
    /\ bond_destroy b = Ret (tt, b') /\ sm_heap (b_slaves b') = ∅ /\ b_hash b' = None.
Proof.
  apply (bond_calls_safe (demo_world 0 (fun _ => true)) demo_settings demo_calls).
  - apply demo_world_ok.
  - cbn. split_and!; try apply demo_world_ok; try done; try set_solver; repeat constructor; cbn; set_solver.
  - done.
Defined.
