(* ===== verification/BondErrors.v ===== *)
(** * Bonding: where the code does not do what it means to (lib/bond.c)

    What the conditions of [bond_calls_safe] and of [bond_flow_revalidated] are there for:
    bonds in mode balance-tcp without LACP, and a command that lets flows outlive their slave. *)
From stdpp Require Import strings.
From S2P Require Import Prelude Hash Hmap Tag Flow SlaveMap Lacp Bond BondRep BondUse BondProps BondCalls.

Local Open Scope Z_scope.

(** Two devices, 11 and 12, called eth1 and eth2; [down] is the one without a carrier. *)
Definition two_devices (t down : Z) : world :=
  MkWorld t (fun q => negb (q =? down)) (fun q => if q =? 11 then "eth1"%string else "eth2"%string) (fun _ => 1)
    (fun _ => None) (fun _ => false) (fun i => Z.shiftl 3 (2 * Z.of_nat (i mod 16))) (fun _ => 2) (fun _ n => (n - 1)%nat).

(** A bond in [mode], without delays, on the two devices. *)
Definition on_two_devices {A} (mode : bond_mode) (m : bm A) : outcome A :=
  let w := two_devices 0 0 in
  b ← bond_create w (MkBondSettings "bond0" 0 mode 10000 0 0 false);
  r ← (_ ← bond_slave_register w 11 1 11; _ ← bond_slave_register w 12 2 12; m) b;
  Ret r.1.

(** bundle_run with both ports up, no LACP and the learned addresses [macs]. *)
Definition run_both (w : world) (macs : list (list Z * Z)) : bm (tag_set * list (list Z * Z)) :=
  bundle_run w [(11, true); (12, true)] LACP_DISABLED macs tag_set_init.

(** From bond_create on: in mode balance-tcp the first bundle_run fails, in mode balance-slb
    it sends the packet. *)
Lemma first_learning_packet :
  on_two_devices BM_TCP (run_both (two_devices 0 0) [([2; 0; 0; 0; 0; 1], 0)]) = Stuck NullDeref
  /\ exists set, on_two_devices BM_SLB (run_both (two_devices 0 0) [([2; 0; 0; 0; 0; 1], 0)])
       = Ret (set, [(compose_rarp [2; 0; 0; 0; 0; 1], 11)]).
Proof. split; [by vm_compute|]. eexists. vm_compute. reflexivity. Qed.

(** A slave after bundle_run has told the bond which ports may be enabled. *)
Definition allowed (ports : list (Z * bool)) (s : bond_slave) : bond_slave :=
  foldl (fun s x => if bs_aux s =? x.1 then set_may_enable x.2 s else s) s ports.

Lemma allowed_netdev ports s : bs_netdev (allowed ports s) = bs_netdev s.
Proof.
  revert s. induction ports as [|x ports IH]; intros s; [done|]. unfold allowed in *. cbn [foldl]. rewrite IH.
  by destruct (_ =? _).
Qed.

Lemma allowed_may_enable ports s :
  bs_may_enable s = true \/ (bs_aux s, true) ∈ ports -> (bs_aux s, false) ∉ ports ->
  bs_may_enable (allowed ports s) = true.
Proof.
  revert s. induction ports as [|[q x] ports IH]; intros s Hs Hn.
  { destruct Hs as [?|?%not_elem_of_nil]; done. }
  apply not_elem_of_cons in Hn as [Hq Hn]. rewrite elem_of_cons in Hs. cbn.
  destruct (Z.eqb_spec (bs_aux s) q) as [<-|Hne]; [|apply IH; [naive_solver|done]].
  apply IH; [|done]. left. cbn. destruct x; [done|congruence].
Qed.

Lemma set_may_enable_at q x b L p s :
  bond_rep b L -> q ∈ registered L -> (p, s) ∈ L ->
  exists sm L', bond_slave_set_may_enable q x b = Ret (tt, with_bslaves sm b)
    /\ bond_rep (with_bslaves sm b) L' /\ same_keys L L'
    /\ (p, if bs_aux s =? q then set_may_enable x s else s) ∈ L'.
Proof.
  intros Hrep Hq Hs. apply elem_registered in Hq. destruct (find_registered q L Hq) as (r & t & Ef & Hin & Et).
  unfold bond_slave_set_may_enable. bstep (lookup_rep b L q Hrep). rewrite Ef.
  bstep (eq_refl : bderef (Some r) b = Ret (r, b)).
  destruct (bstore_rep b L r t (set_may_enable x) Hrep Hin eq_refl eq_refl ltac:(done)) as (sm & L' & E & Hr & Hk & Hin' & Hout).
  exists sm, L'. split_and!; [done..|]. destruct (Z.eqb_spec (bs_aux s) q) as [Hsq|Hne].
  - assert (find_slave q L = Some (p, s)) as Ef' by (apply find_slave_elem; [apply Hrep|done]).
    rewrite Ef in Ef'. by simplify_eq.
  - apply Hout; [done|]. intros ->. pose proof (same_slave b L r s t (br_slaves _ _ Hrep) Hs Hin). congruence.
Qed.

Lemma bundle_enable_at ports : forall b L p s,
  bond_rep b L -> Forall (fun x => x.1 ∈ registered L) ports -> (p, s) ∈ L ->
  exists sm L', bundle_enable ports b = Ret (tt, with_bslaves sm b) /\ bond_rep (with_bslaves sm b) L'
    /\ (p, allowed ports s) ∈ L'.
Proof.
  induction ports as [|[q x] ports IH]; intros b L p s Hrep Hp Hs.
  { exists (b_slaves b), L. by destruct b. }
  apply Forall_cons in Hp as [Hq Hp]. cbn [bundle_enable fst snd] in *.
  destruct (set_may_enable_at q x b L p s Hrep Hq Hs) as (sm & L1 & E & Hrep1 & Hk & Hs1). bstep E.
  rewrite <- (registered_same_keys _ _ Hk) in Hp.
  destruct (IH _ L1 p _ Hrep1 Hp Hs1) as (sm2 & L2 & E2 & Hrep2 & Hs2). by exists sm2, L2.
Qed.

(** A slave with a link is not idle, for its delay starts now or runs already. *)
Lemma up_not_idle w b s : w_now w + wait_for b true <> LLONG_MAX -> link_up w s = true -> ~ idle w b s.
Proof.
  intros Hd Hu Hi. destruct (Hi Hu) as [He Hx]. unfold expires_at in Hx. rewrite Hu, He in Hx. cbn [Bool.eqb] in Hx.
  destruct (Z.eqb_spec (bs_delay s) LLONG_MAX); cbn [Bool.eqb negb] in Hx; congruence.
Qed.

(** Without LACP, mode balance-tcp has no slave for a learning packet. *)
Lemma tcp_compose_faults w b L mac vlan :
  world_ok w -> bond_rep b L -> L <> [] -> b_balance b = BM_TCP -> may_send_learning_packets b = true ->
  bond_compose_learning_packet w mac vlan b = Stuck NullDeref.
Proof.
  intros Hw Hrep HL Hm Hmay. unfold bond_compose_learning_packet. bget. rewrite Hmay. cbn [negb].
  destruct (choose_output_slave_ok w (with_dl_src mac flow_zero) vlan 0 b L Hw Hrep HL) as (p & t & h & d & E & Hp & _).
  bstep E. unfold may_send_learning_packets in Hmay. apply andb_true_iff in Hmay as [Hmay _].
  apply andb_true_iff in Hmay as [Hl _]. apply bool_decide_eq_true in Hl.
  assert (lacp_blocks b = true) as Hb by (unfold lacp_blocks; rewrite Hl, Hm; done).
  unfold picked in Hp. rewrite Hb in Hp. by destruct Hp as [-> _].
Qed.

(** C33: a bond in mode balance-tcp without LACP crashes the switch.  Take any bond in that
    mode that has no active slave, and a bundle_run in which one of its slaves has a carrier
    and its port may be enabled, while an address is learned on another bundle.  bond_run then
    makes a slave active (the delay of the slave does not end at LLONG_MAX, which stands for
    no delay), so bond_should_send_learning_packets asks for learning packets, its test leaving
    out only mode stable; but choose_output_slave gives no slave in mode balance-tcp
    without LACP, and bond_compose_learning_packet uses the null pointer.  With LACP
    configured or negotiated the same call returns. *)
Theorem tcp_learning_faults w ports macs set b L p s :
  world_ok w -> bond_rep b L -> set_good set -> Forall (fun x => x.1 ∈ registered L) ports ->
  b_balance b = BM_TCP -> b_active b = None ->
  (p, s) ∈ L -> w_carrier w (bs_netdev s) = true -> (bs_aux s, true) ∈ ports -> (bs_aux s, false) ∉ ports ->
  w_now w + b_updelay b <> LLONG_MAX -> macs <> [] ->
  bundle_run w ports LACP_DISABLED macs set b = Stuck NullDeref
  /\ forall status, status <> LACP_DISABLED -> exists r b', bundle_run w ports status macs set b = Ret (r, b').
Proof.
  intros Hw Hrep Hset Hp Hm Ha Hs Hc Hin Hout Hd Hmacs. split.
  - destruct (bundle_enable_at ports b L p s Hrep Hp Hs) as (sm & L1 & E1 & Hrep1 & Hs1). unfold bundle_run. bstep E1.
    destruct (bond_run_ok w LACP_DISABLED set _ L1 Hw Hrep1 Hset) as (set' & fake & b2 & L2 & E2 & Hrun). bstep E2.
    assert (b_active b2 <> None) as Ha2.
    { intros Hn. refine (up_not_idle w _ _ _ _ (rn_idle _ _ _ _ _ _ _ _ Hrun Hn p _ Hs1)); [exact Hd|].
      unfold link_up. by rewrite allowed_netdev, Hc, allowed_may_enable by auto. }
    assert (b_send b2 = true) as Hsend by (by apply (rn_send _ _ _ _ _ _ _ _ Hrun)).
    assert (b_balance b2 = BM_TCP) as Hm2 by (destruct (rn_conf _ _ _ _ _ _ _ _ Hrun) as [-> _]; done).
    assert (may_send_learning_packets b2 = true) as Hmay.
    { unfold may_send_learning_packets. rewrite (rn_lacp _ _ _ _ _ _ _ _ Hrun), Hm2. by destruct (b_active b2). }
    bstep (eq_refl : bond_should_send_learning_packets b2 = Ret (b_send b2 && may_send_learning_packets b2, with_send false b2)).
    rewrite Hsend, Hmay. destruct macs as [|e macs]; [done|]. cbn [andb bundle_send_learning_packets].
    unfold mbind, cstate_bind. rewrite (tcp_compose_faults w (with_send false b2) L2); try done.
    + apply rep_send, Hrun.
    + intros ->. destruct (b_active b2) as [a|] eqn:E; [|done].
      by destruct (rn_enabled _ _ _ _ _ _ _ _ Hrun a E) as (t & ?%not_elem_of_nil & _).
  - intros status Hst. destruct (bundle_run_ok w ports status macs set b L Hw Hrep Hset Hp) as (set' & pk & b' & L' & E & _);
      [done|]. by exists (set', pk), b'.
Qed.

(** Two slaves that bond_slave_register has made, not yet enabled. *)
Definition new_bslaves : bslaves := (fun x => (x.1, set_enabled false x.2)) <$> demo_bslaves.

Definition new_bond : bond :=
  MkBond (Some "bond0"%string) (sm_of new_bslaves 2) BM_TCP None 3 100 200 LACP_DISABLED false 0
    (reset_hash BM_TCP) 10000 0 false 5 LLONG_MAX tag_set_init 0.

Lemma new_bond_rep : bond_rep new_bond new_bslaves.
Proof.
  split.
  - split; [done|done|apply reset_hash_ok| | |apply set_init_good]; (split; [unfold word; cbn; lia|done]).
  - apply sm_of_rep.
    + cbn. by repeat constructor; set_solver.
    + cbn. by repeat constructor; set_solver.
    + by repeat constructor; cbn; lia.
    + by repeat constructor.
  - by repeat constructor; cbn; try lia.
Qed.

Lemma tcp_learning_faults_witness :
  let run status := bundle_run (demo_world 0 (fun q => q =? 12)) [(11, true); (12, true)] status [(replicate 6 2, 5)]
                      tag_set_init new_bond in
  run LACP_DISABLED = Stuck NullDeref /\ forall status, status <> LACP_DISABLED -> exists r b', run status = Ret (r, b').
Proof.
  apply (tcp_learning_faults (demo_world 0 (fun q => q =? 12)) [(11, true); (12, true)] [(replicate 6 2, 5)] tag_set_init
           new_bond new_bslaves 1%nat (set_enabled false (demo_slave 12 12))).
  - apply demo_world_ok.
  - apply new_bond_rep.
  - apply set_init_good.
  - repeat constructor; cbn; set_solver.
  - done.
  - done.
  - cbn. right. left.
  - done.
  - cbn. right. left.
  - cbn. set_solver.
  - done.
  - done.
Defined.

(** What becomes of a flow: its slave, the reply to the command that makes [name] active,
    whether bond_run has the flow revalidated once device 11 has lost its carrier, and the
    slave that the flow ought to use then. *)
Definition after_set_active (name : string) : outcome (option Z * string * bool * option Z) :=
  let w := two_devices 0 0 in
  let w1 := two_devices 1 11 in
  on_two_devices BM_SLB
    (_ ← run_both w [];
     x ← bond_choose_output_slave w flow_zero 1 0;
     r ← bond_unixctl_set_active_slave w name;
     y ← run_both w1 [];
     z ← bond_choose_output_slave w1 flow_zero 1 0;
     mret (x.1, r, tag_set_intersects y.1 x.2, z.1)).

(** Bond/set-active-slave makes flows outlive their slave.  It gives the slave a new tag
    without revalidating the flows that carry the old one; when that slave is disabled later,
    only its new tag is added to the set, and the flows that used it go on using it.  Without
    the command the same flow is revalidated. *)
Theorem set_active_keeps_dead_flows :
  after_set_active "eth1" = Ret (Some 11, "done"%string, false, Some 12)
  /\ after_set_active "eth9" = Ret (Some 11, "no such slave"%string, true, Some 12).
Proof. by vm_compute. Qed.
