(* ===== verification/Packet.v ===== *)
(** * Packets (lib/packets.c, lib/csum.c, the buffers of lib/ofpbuf.c, the parser of lib/flow.c)

    A buffer is its memory, from the base to the last byte in use, and the offset of its data;
    what lies before the data is headroom.  The pointers to the headers are offsets into the
    same memory.  Memory is moved only to grow, and then the pointers move with it.  A load or
    a store past the end of the data is a fault.

    Fields in network byte order are the numbers they denote, so that htons and its like
    disappear.  For the checksums, which the code computes on the raw words, this is justified
    in Csum.v: they do not depend on the order of bytes.  Csum.v has the theory of checksums,
    Extract.v what flow_extract does with any packet, Compose.v the packets that flow_compose
    makes, Rewrite.v the functions that change headers, PacketIn.v what is sent to the
    controller. *)
From S2P Require Import Prelude Hash Hmap Flow.

Local Open Scope Z_scope.

(** ** Buffers (lib/ofpbuf.h, lib/ofpbuf.c) *)

Record ofpbuf := MkBuf {
  b_mem : list Z;
  b_data : nat;
  b_l2 : option nat;
  b_l3 : option nat;
  b_l4 : option nat;
  b_l7 : option nat
}.

Definition b_size (b : ofpbuf) : nat := length (b_mem b) - b_data b.

(** The bytes in use. *)
Definition b_bytes (b : ofpbuf) : list Z := drop (b_data b) (b_mem b).

Definition with_mem (m : list Z) (b : ofpbuf) : ofpbuf := MkBuf m (b_data b) (b_l2 b) (b_l3 b) (b_l4 b) (b_l7 b).
Definition with_data (d : nat) (b : ofpbuf) : ofpbuf := MkBuf (b_mem b) d (b_l2 b) (b_l3 b) (b_l4 b) (b_l7 b).
Definition with_l2 (p : option nat) (b : ofpbuf) : ofpbuf := MkBuf (b_mem b) (b_data b) p (b_l3 b) (b_l4 b) (b_l7 b).
Definition with_l3 (p : option nat) (b : ofpbuf) : ofpbuf := MkBuf (b_mem b) (b_data b) (b_l2 b) p (b_l4 b) (b_l7 b).
Definition with_l4 (p : option nat) (b : ofpbuf) : ofpbuf := MkBuf (b_mem b) (b_data b) (b_l2 b) (b_l3 b) p (b_l7 b).
Definition with_l7 (p : option nat) (b : ofpbuf) : ofpbuf := MkBuf (b_mem b) (b_data b) (b_l2 b) (b_l3 b) (b_l4 b) p.

(** The [n] bytes at [p], and bytes put in the place of others. *)
Definition sub (p n : nat) (m : list Z) : list Z := take n (drop p m).
Definition splice (p : nat) (bs m : list Z) : list Z := take p m ++ bs ++ drop (p + length bs) m.

Definition load_bytes (p n : nat) (b : ofpbuf) : outcome (list Z) :=
  if (p + n <=? length (b_mem b))%nat then Ret (sub p n (b_mem b)) else Stuck OutOfBounds.
Definition load (p n : nat) (b : ofpbuf) : outcome Z := l ← load_bytes p n b; Ret (be_value l).
Definition store (p : nat) (bs : list Z) (b : ofpbuf) : outcome ofpbuf :=
  if (p + length bs <=? length (b_mem b))%nat then Ret (with_mem (splice p bs (b_mem b)) b) else Stuck OutOfBounds.
Definition deref (p : option nat) : outcome nat := of_option NullDeref p.

Definition ofpbuf_pull (n : nat) (b : ofpbuf) : outcome (nat * ofpbuf) :=
  if (b_size b <? n)%nat then Stuck AssertFail else Ret (b_data b, with_data (b_data b + n) b).

Definition ofpbuf_try_pull (n : nat) (b : ofpbuf) : outcome (option (nat * ofpbuf)) :=
  if (n <=? b_size b)%nat then r ← ofpbuf_pull n b; Ret (Some r) else Ret None.

Definition shift_ptr (d : nat) (p : option nat) : option nat := (fun x => (x + d)%nat) <$> p.

(** ofpbuf_resize__ as ofpbuf_prealloc_headroom calls it; what it does not copy, and what
    ofpbuf_push_uninit leaves, is not initialised, here zero. *)
Definition ofpbuf_prealloc_headroom (n : nat) (b : ofpbuf) : ofpbuf :=
  if (b_data b <? n)%nat then
    let d := (Nat.max n 64 - b_data b)%nat in
    MkBuf (replicate d 0 ++ b_mem b) (b_data b + d) (shift_ptr d (b_l2 b)) (shift_ptr d (b_l3 b)) (shift_ptr d (b_l4 b))
      (shift_ptr d (b_l7 b))
  else b.

Definition ofpbuf_push_uninit (n : nat) (b : ofpbuf) : ofpbuf :=
  let b := ofpbuf_prealloc_headroom n b in with_data (b_data b - n) b.

(** ofpbuf_put_uninit or ofpbuf_put_zeros, and the stores into the block. *)
Definition ofpbuf_put (bs : list Z) (b : ofpbuf) : ofpbuf := with_mem (b_mem b ++ bs) b.

(** ofpbuf_clear, and ofpbuf_reserve of [n] bytes. *)
Definition ofpbuf_clear_reserve (n : nat) (b : ofpbuf) : ofpbuf :=
  MkBuf (replicate n 0) n (b_l2 b) (b_l3 b) (b_l4 b) (b_l7 b).

(** ** Checksums (lib/csum.c), on words as they lie in memory *)

Definition csum_add16 (partial new : Z) : Z := u32 (partial + new).
Definition csum_add32 (partial new : Z) : Z := u32 (u32 (partial + Z.shiftr new 16) + Z.land new 65535).

(** get_unaligned_be16 on a little-endian host. *)
Fixpoint csum_continue (partial : Z) (data : list Z) : Z :=
  match data with
  | x :: y :: data => csum_continue (csum_add16 partial (x + 256 * y)) data
  | [x] => u32 (partial + x)
  | [] => partial
  end.

(** The loop ends after two rounds, which [fuel] allows for. *)
Fixpoint csum_fold (fuel : nat) (partial : Z) : Z :=
  match fuel with
  | O => partial
  | S fuel => if Z.shiftr partial 16 =? 0 then partial
              else csum_fold fuel (Z.land partial 65535 + Z.shiftr partial 16)
  end.

Definition csum_finish (partial : Z) : Z := u16 (Z.lnot (csum_fold 3 partial)).
Definition csum (data : list Z) : Z := csum_finish (csum_continue 0 data).

Definition recalc_csum16 (old_csum old_u16 new_u16 : Z) : Z :=
  let hc_complement := u16 (Z.lnot old_csum) in
  let m_complement := u16 (Z.lnot old_u16) in
  csum_finish (hc_complement + m_complement + new_u16).

Definition recalc_csum32 (old_csum old_u32 new_u32 : Z) : Z :=
  recalc_csum16 (recalc_csum16 old_csum (u16 old_u32) (u16 new_u32)) (Z.shiftr old_u32 16) (Z.shiftr new_u32 16).

(** ** Constants *)

Definition ETH_TYPE_IP : Z := 0x0800.
Definition ETH_TYPE_ARP : Z := 0x0806.
Definition ETH_TYPE_VLAN : Z := 0x8100.
Definition ETH_TYPE_IPV6 : Z := 0x86dd.
Definition ETH_TYPE_MIN : Z := 0x600.
Definition FLOW_DL_TYPE_NONE : Z := 0x5ff.
Definition IP_MORE_FRAGMENTS : Z := 0x2000.
Definition IP_FRAG_OFF_MASK : Z := 0x1fff.
Definition IPV6_LABEL_MASK : Z := 0x000fffff.
Definition ARP_OP_REQUEST : Z := 1.
Definition ARP_OP_REPLY : Z := 2.

(** Of the system's headers. *)
Abbreviation IPPROTO_HOPOPTS := 0.
Abbreviation IPPROTO_ICMP := 1.
Abbreviation IPPROTO_TCP := 6.
Abbreviation IPPROTO_UDP := 17.
Abbreviation IPPROTO_ROUTING := 43.
Abbreviation IPPROTO_FRAGMENT := 44.
Abbreviation IPPROTO_AH := 51.
Abbreviation IPPROTO_ICMPV6 := 58.
Abbreviation IPPROTO_NONE := 59.
Abbreviation IPPROTO_DSTOPTS := 60.
Abbreviation IP6F_OFF_MASK := 0xfff8.
Abbreviation ND_NEIGHBOR_SOLICIT := 135.
Abbreviation ND_NEIGHBOR_ADVERT := 136.
Abbreviation ND_OPT_SOURCE_LINKADDR := 1.
Abbreviation ND_OPT_TARGET_LINKADDR := 2.
Abbreviation EINVAL := 22.

(** ** Parsing (flow_extract of lib/flow.c) *)

Definition pull_arp (b : ofpbuf) : outcome (option (nat * ofpbuf)) := ofpbuf_try_pull 28 b.

Definition IP_IHL (ip_ihl_ver : Z) : Z := Z.land ip_ihl_ver 15.
Definition TCP_OFFSET (tcp_ctl : Z) : Z := Z.shiftr tcp_ctl 12.

Definition pull_ip (b : ofpbuf) : outcome (option (nat * ofpbuf)) :=
  if (20 <=? b_size b)%nat then
    v ← load (b_data b) 1 b;
    let ip_len := Z.to_nat (IP_IHL v * 4) in
    if (20 <=? ip_len)%nat && (ip_len <=? b_size b)%nat then r ← ofpbuf_pull ip_len b; Ret (Some r) else Ret None
  else Ret None.

Definition pull_tcp (b : ofpbuf) : outcome (option (nat * ofpbuf)) :=
  if (20 <=? b_size b)%nat then
    v ← load (b_data b + 12) 2 b;
    let tcp_len := Z.to_nat (TCP_OFFSET v * 4) in
    if (20 <=? tcp_len)%nat && (tcp_len <=? b_size b)%nat then r ← ofpbuf_pull tcp_len b; Ret (Some r) else Ret None
  else Ret None.

Definition pull_udp (b : ofpbuf) : outcome (option (nat * ofpbuf)) := ofpbuf_try_pull 8 b.
Definition pull_icmp (b : ofpbuf) : outcome (option (nat * ofpbuf)) := ofpbuf_try_pull 8 b.
Definition pull_icmpv6 (b : ofpbuf) : outcome (option (nat * ofpbuf)) := ofpbuf_try_pull 8 b.

Definition parse_vlan (b : ofpbuf) (f : flow) : outcome (ofpbuf * flow) :=
  if (6 <=? b_size b)%nat then
    r ← ofpbuf_pull 4 b;
    tci ← load (r.1 + 2) 2 b;
    Ret (r.2, with_vlan_tci (Z.lor tci VLAN_CFI) f)
  else Ret (b, f).

Definition parse_ethertype (b : ofpbuf) : outcome (Z * ofpbuf) :=
  r ← ofpbuf_pull 2 b;
  proto ← load r.1 2 b;
  let b := r.2 in
  if ETH_TYPE_MIN <=? proto then Ret (proto, b)
  else if (b_size b <? 8)%nat then Ret (FLOW_DL_TYPE_NONE, b)
  else
    llc ← load_bytes (b_data b) 6 b;
    if negb (bool_decide (llc = [0xaa; 0xaa; 3; 0; 0; 0])) then Ret (FLOW_DL_TYPE_NONE, b)
    else
      r ← ofpbuf_pull 8 b;
      snap_type ← load (r.1 + 6) 2 b;
      Ret (snap_type, r.2).

(** Where the loop over the extension headers ends: with the error of the function, the value
    of nexthdr, and what has become of the buffer and the flow. *)
Definition ipv6_step : Type := bool * Z * ofpbuf * flow.

Definition ipv6_is_ext (nexthdr : Z) : bool :=
  (nexthdr =? IPPROTO_HOPOPTS) || (nexthdr =? IPPROTO_ROUTING) || (nexthdr =? IPPROTO_DSTOPTS)
  || (nexthdr =? IPPROTO_AH) || (nexthdr =? IPPROTO_FRAGMENT).

Fixpoint ipv6_headers (fuel : nat) (nexthdr : Z) (b : ofpbuf) (f : flow) : outcome ipv6_step :=
  if negb (ipv6_is_ext nexthdr) then Ret (false, nexthdr, b, f)
  else
    match fuel with
    | O => Stuck Endless
    | S fuel =>
        if (b_size b <? 8)%nat then Ret (true, nexthdr, b, f)
        else
          let p := b_data b in
          nxt ← load p 1 b;
          if nexthdr =? IPPROTO_FRAGMENT then
            r ← ofpbuf_try_pull 8 b;
            match r with
            | None => Ret (true, nxt, b, f)
            | Some r =>
                offlg ← load (p + 2) 2 b;
                if negb (offlg =? 0) then
                  if Z.land offlg IP6F_OFF_MASK =? 0 then
                    ipv6_headers fuel nxt r.2 (with_nw_frag FLOW_NW_FRAG_ANY f)
                  else Ret (false, IPPROTO_FRAGMENT, r.2, with_nw_frag (Z.lor (nw_frag f) FLOW_NW_FRAG_LATER) f)
                else ipv6_headers fuel nxt r.2 f
            end
          else
            len ← load (p + 1) 1 b;
            r ← ofpbuf_try_pull (Z.to_nat (if nexthdr =? IPPROTO_AH then (len + 2) * 4 else (len + 1) * 8)) b;
            match r with None => Ret (true, nxt, b, f) | Some r => ipv6_headers fuel nxt r.2 f end
    end.

(** The error, and the buffer and the flow after it. *)
Definition parse_ipv6 (b : ofpbuf) (f : flow) : outcome (Z * ofpbuf * flow) :=
  r ← ofpbuf_try_pull 40 b;
  match r with
  | None => Ret (EINVAL, b, f)
  | Some (nh, b') =>
      nexthdr ← load (nh + 6) 1 b;
      src ← load_bytes (nh + 8) 16 b;
      dst ← load_bytes (nh + 24) 16 b;
      tc_flow ← load nh 4 b;
      hlim ← load (nh + 7) 1 b;
      let f := with_ipv6_dst dst (with_ipv6_src src f) in
      let f := with_ipv6_label (Z.land tc_flow IPV6_LABEL_MASK) (with_nw_tos (u8 (Z.shiftr tc_flow 20)) f) in
      let f := with_nw_proto IPPROTO_NONE (with_nw_ttl hlim f) in
      s ← ipv6_headers (S (b_size b')) nexthdr b' f;
      let '(error, nexthdr, b, f) := s in
      if (error : bool) then Ret (EINVAL, b, f) else Ret (0, b, with_nw_proto nexthdr f)
  end.

Definition parse_tcp (packet b : ofpbuf) (f : flow) : outcome (ofpbuf * flow) :=
  r ← pull_tcp b;
  match r with
  | None => Ret (packet, f)
  | Some (tcp, b') =>
      src ← load tcp 2 b;
      dst ← load (tcp + 2) 2 b;
      Ret (with_l7 (Some (b_data b')) packet, with_tp_dst dst (with_tp_src src f))
  end.

Definition parse_udp (packet b : ofpbuf) (f : flow) : outcome (ofpbuf * flow) :=
  r ← pull_udp b;
  match r with
  | None => Ret (packet, f)
  | Some (udp, b') =>
      src ← load udp 2 b;
      dst ← load (udp + 2) 2 b;
      Ret (with_l7 (Some (b_data b')) packet, with_tp_dst dst (with_tp_src src f))
  end.

Definition parse_icmp (packet b : ofpbuf) (f : flow) : outcome (ofpbuf * flow) :=
  r ← pull_icmp b;
  match r with
  | None => Ret (packet, f)
  | Some (icmp, b') =>
      type ← load icmp 1 b;
      code ← load (icmp + 1) 1 b;
      Ret (with_l7 (Some (b_data b')) packet, with_tp_dst code (with_tp_src type f))
  end.

(** The label invalid. *)
Definition nd_invalid (f : flow) : flow :=
  with_arp_tha (replicate 6 0) (with_arp_sha (replicate 6 0) (with_nd_target (replicate 16 0) f)).

(** The loop over the options of neighbour discovery; whether the packet is valid. *)
Fixpoint nd_options (fuel : nat) (b : ofpbuf) (f : flow) : outcome (bool * ofpbuf * flow) :=
  if (b_size b <? 8)%nat then Ret (true, b, f)
  else
    match fuel with
    | O => Stuck Endless
    | S fuel =>
        let p := b_data b in
        type ← load p 1 b;
        len ← load (p + 1) 1 b;
        addr ← load_bytes (p + 2) 6 b;
        let opt_len := Z.to_nat (len * 8) in
        if (opt_len =? 0)%nat || (b_size b <? opt_len)%nat then Ret (false, b, nd_invalid f)
        else
          let next f :=
            r ← ofpbuf_try_pull opt_len b;
            match r with None => Ret (false, b, nd_invalid f) | Some r => nd_options fuel r.2 f end in
          if (type =? ND_OPT_SOURCE_LINKADDR) && (opt_len =? 8)%nat then
            if eth_addr_is_zero (arp_sha f) then next (with_arp_sha addr f) else Ret (false, b, nd_invalid f)
          else if (type =? ND_OPT_TARGET_LINKADDR) && (opt_len =? 8)%nat then
            if eth_addr_is_zero (arp_tha f) then next (with_arp_tha addr f) else Ret (false, b, nd_invalid f)
          else next f
    end.

Definition parse_icmpv6 (b : ofpbuf) (f : flow) : outcome (bool * ofpbuf * flow) :=
  r ← pull_icmpv6 b;
  match r with
  | None => Ret (false, b, f)
  | Some (icmp, b') =>
      type ← load icmp 1 b;
      code ← load (icmp + 1) 1 b;
      let f := with_tp_dst code (with_tp_src type f) in
      if (code =? 0) && ((type =? ND_NEIGHBOR_SOLICIT) || (type =? ND_NEIGHBOR_ADVERT)) then
        t ← ofpbuf_try_pull 16 b';
        match t with
        | None => Ret (false, b', f)
        | Some (target, b'') =>
            nd_target ← load_bytes target 16 b';
            nd_options (b_size b'') b'' (with_nd_target nd_target f)
        end
      else Ret (true, b', f)
  end.

(** The branches of flow_extract for the network layer. *)
Definition extract_transport (packet b : ofpbuf) (f : flow) : outcome (ofpbuf * flow) :=
  if nw_proto f =? IPPROTO_TCP then parse_tcp packet b f
  else if nw_proto f =? IPPROTO_UDP then parse_udp packet b f
  else if nw_proto f =? IPPROTO_ICMP then parse_icmp packet b f
  else Ret (packet, f).

Definition extract_ip (packet b : ofpbuf) (f : flow) : outcome (ofpbuf * flow) :=
  r ← pull_ip b;
  match r with
  | None => Ret (packet, f)
  | Some (nh, b') =>
      let packet := with_l4 (Some (b_data b')) packet in
      src ← load (nh + 12) 4 b;
      dst ← load (nh + 16) 4 b;
      proto ← load (nh + 9) 1 b;
      tos ← load (nh + 1) 1 b;
      frag_off ← load (nh + 6) 2 b;
      ttl ← load (nh + 8) 1 b;
      let f := with_nw_tos tos (with_nw_proto proto (with_nw_dst dst (with_nw_src src f))) in
      let later := negb (Z.land frag_off IP_FRAG_OFF_MASK =? 0) in
      let f := if negb (Z.land frag_off (Z.lor IP_MORE_FRAGMENTS IP_FRAG_OFF_MASK) =? 0) then
                 with_nw_frag (if later then Z.lor FLOW_NW_FRAG_ANY FLOW_NW_FRAG_LATER else FLOW_NW_FRAG_ANY) f
               else f in
      let f := with_nw_ttl ttl f in
      if later then Ret (packet, f) else extract_transport packet b' f
  end.

Definition extract_ipv6 (packet b : ofpbuf) (f : flow) : outcome (ofpbuf * flow) :=
  r ← parse_ipv6 b f;
  let '(error, b, f) := r in
  if negb (error =? 0) then Ret (packet, f)
  else
    let packet := with_l4 (Some (b_data b)) packet in
    if nw_proto f =? IPPROTO_TCP then parse_tcp packet b f
    else if nw_proto f =? IPPROTO_UDP then parse_udp packet b f
    else if nw_proto f =? IPPROTO_ICMPV6 then
      r ← parse_icmpv6 b f;
      let '(ok, b, f) := r in
      Ret (if (ok : bool) then with_l7 (Some (b_data b)) packet else packet, f)
    else Ret (packet, f).

Definition extract_arp (packet b : ofpbuf) (f : flow) : outcome (ofpbuf * flow) :=
  r ← pull_arp b;
  match r with
  | None => Ret (packet, f)
  | Some (arp, _) =>
      hrd ← load arp 2 b;
      pro ← load (arp + 2) 2 b;
      hln ← load (arp + 4) 1 b;
      pln ← load (arp + 5) 1 b;
      if (hrd =? 1) && (pro =? ETH_TYPE_IP) && (hln =? 6) && (pln =? 4) then
        op ← load (arp + 6) 2 b;
        let f := if op <=? 0xff then with_nw_proto op f else f in
        if (nw_proto f =? ARP_OP_REQUEST) || (nw_proto f =? ARP_OP_REPLY) then
          spa ← load (arp + 14) 4 b;
          tpa ← load (arp + 24) 4 b;
          sha ← load_bytes (arp + 8) 6 b;
          tha ← load_bytes (arp + 18) 6 b;
          Ret (packet, with_arp_tha tha (with_arp_sha sha (with_nw_dst tpa (with_nw_src spa f))))
        else Ret (packet, f)
      else Ret (packet, f)
  end.

(** The link layer: the buffer behind it and the flow. *)
Definition extract_link (b : ofpbuf) (f : flow) : outcome (ofpbuf * flow) :=
  let eth := b_data b in
  src ← load_bytes (eth + 6) 6 b;
  dst ← load_bytes eth 6 b;
  let f := with_dl_dst dst (with_dl_src src f) in
  r ← ofpbuf_pull 12 b;
  eth_type ← load (eth + 12) 2 b;
  r ← (if eth_type =? ETH_TYPE_VLAN then parse_vlan r.2 f else Ret (r.2, f));
  t ← parse_ethertype r.1;
  Ret (t.2, with_dl_type t.1 r.2).

Definition flow_extract (packet : ofpbuf) (skb_priority tun_id ofp_in_port : Z) : outcome (ofpbuf * flow) :=
  let b := packet in
  let f := with_skb_priority skb_priority (with_in_port ofp_in_port (with_tun_id tun_id flow_zero)) in
  let packet := with_l7 None (with_l4 None (with_l3 None (with_l2 (Some (b_data b)) packet))) in
  if (b_size b <? 14)%nat then Ret (packet, f)
  else
    r ← extract_link b f;
    let '(b, f) := r in
    let packet := with_l3 (Some (b_data b)) packet in
    if dl_type f =? ETH_TYPE_IP then extract_ip packet b f
    else if dl_type f =? ETH_TYPE_IPV6 then extract_ipv6 packet b f
    else if dl_type f =? ETH_TYPE_ARP then extract_arp packet b f
    else Ret (packet, f).

(** ** Building and changing packets (lib/packets.c) *)

(** [tci] is in the order of the host; tmp is the header as it is copied over the packet. *)
Definition eth_push_vlan (tci : Z) (packet : ofpbuf) : outcome ofpbuf :=
  dst ← load_bytes (b_data packet) 6 packet;
  src ← load_bytes (b_data packet + 6) 6 packet;
  eth_type ← load_bytes (b_data packet + 12) 2 packet;
  let tmp := dst ++ src ++ be_bytes 2 ETH_TYPE_VLAN ++ be_bytes 2 (Z.land tci (u16 (Z.lnot VLAN_CFI))) ++ eth_type in
  let packet := ofpbuf_push_uninit 4 packet in
  packet ← store (b_data packet) tmp packet;
  Ret (with_l2 (Some (b_data packet)) packet).

Definition eth_pop_vlan (packet : ofpbuf) : outcome ofpbuf :=
  if (18 <=? b_size packet)%nat then
    veh ← deref (b_l2 packet);
    veth_type ← load (veh + 12) 2 packet;
    if veth_type =? ETH_TYPE_VLAN then
      dst ← load_bytes veh 6 packet;
      src ← load_bytes (veh + 6) 6 packet;
      next_type ← load_bytes (veh + 16) 2 packet;
      r ← ofpbuf_pull 4 packet;
      let packet := with_l2 (Some (veh + 4)%nat) r.2 in
      store (b_data packet) (dst ++ src ++ next_type) packet
    else Ret packet
  else Ret packet.

Definition eth_compose (eth_dst eth_src : list Z) (eth_type : Z) (b : ofpbuf) : ofpbuf :=
  let b := ofpbuf_clear_reserve 4 b in
  let eth := b_data b in
  let b := ofpbuf_put (eth_dst ++ eth_src ++ be_bytes 2 eth_type) b in
  with_l3 (Some (eth + 14)%nat) (with_l2 (Some eth) b).

(** The headers that flow_compose fills in: fields with their sizes. *)
Definition fields (l : list (nat * Z)) : list Z := concat ((fun x => be_bytes x.1 x.2) <$> l).

(** A 16-bit word of a little-endian host in memory. *)
Definition raw16 (z : Z) : list Z := [Z.land z 255; Z.shiftr z 8].

Definition ip_fields (tos tot_len frag_off proto src dst : Z) : list (nat * Z) :=
  [(1%nat, 0x45); (1%nat, tos); (2%nat, tot_len); (2%nat, 0); (2%nat, frag_off); (1%nat, 0); (1%nat, proto); (2%nat, 0); (4%nat, src); (4%nat, dst)].

Definition tcp_fields (src dst : Z) : list (nat * Z) :=
  [(2%nat, src); (2%nat, dst); (4%nat, 0); (4%nat, 0); (2%nat, Z.shiftl 5 12); (2%nat, 0); (2%nat, 0); (2%nat, 0)].
Definition udp_fields (src dst : Z) : list (nat * Z) := [(2%nat, src); (2%nat, dst); (2%nat, 0); (2%nat, 0)].
Definition icmp_fields (type code : Z) : list (nat * Z) := [(1%nat, u8 type); (1%nat, u8 code); (2%nat, 0); (4%nat, 0)].
Definition arp_fields (op : Z) (sha : list Z) (spa : Z) (tha : list Z) (tpa : Z) : list Z :=
  fields [(2%nat, 1); (2%nat, ETH_TYPE_IP); (1%nat, 6); (1%nat, 4); (2%nat, op)] ++ sha ++ be_bytes 4 spa ++ tha ++ be_bytes 4 tpa.

(** A header with its checksum, which is at [p]. *)
Definition with_csum (p : nat) (h : list Z) : list Z := splice p (raw16 (csum h)) h.

Definition compose_ip_payload (f : flow) (b : ofpbuf) : ofpbuf :=
  if has (nw_frag f) FLOW_NW_FRAG_ANY && has (nw_frag f) FLOW_NW_FRAG_LATER then b
  else
    let put h := with_l4 (Some (length (b_mem b))) (ofpbuf_put h b) in
    if nw_proto f =? IPPROTO_TCP then put (fields (tcp_fields (tp_src f) (tp_dst f)))
    else if nw_proto f =? IPPROTO_UDP then put (fields (udp_fields (tp_src f) (tp_dst f)))
    else if nw_proto f =? IPPROTO_ICMP then put (with_csum 2 (fields (icmp_fields (tp_src f) (tp_dst f))))
    else b.

(** The stores into the header that the code makes after the payload are made with the others. *)
Definition compose_ip (f : flow) (b : ofpbuf) : outcome ofpbuf :=
  let ip := length (b_mem b) in
  let frag_off := if has (nw_frag f) FLOW_NW_FRAG_ANY then
                    if has (nw_frag f) FLOW_NW_FRAG_LATER then Z.lor IP_MORE_FRAGMENTS 100 else IP_MORE_FRAGMENTS
                  else 0 in
  let b := with_l3 (Some ip) (ofpbuf_put (fields (ip_fields (nw_tos f) 0 frag_off (nw_proto f) (nw_src f) (nw_dst f))) b) in
  let b := compose_ip_payload f b in
  b ← store (ip + 2) (be_bytes 2 (Z.of_nat (length (b_mem b) - ip))) b;
  h ← load_bytes ip 20 b;
  store (ip + 10) (raw16 (csum h)) b.

Definition compose_arp (f : flow) (b : ofpbuf) : ofpbuf :=
  let l3 := length (b_mem b) in
  let known := (nw_proto f =? ARP_OP_REQUEST) || (nw_proto f =? ARP_OP_REPLY) in
  with_l3 (Some l3) (ofpbuf_put
    (if known then arp_fields (nw_proto f) (arp_sha f) (nw_src f) (arp_tha f) (nw_dst f)
     else arp_fields (nw_proto f) (replicate 6 0) 0 (replicate 6 0) 0) b).

Definition flow_compose (f : flow) (b : ofpbuf) : outcome ofpbuf :=
  let b := eth_compose (dl_dst f) (dl_src f) (dl_type f) b in
  if dl_type f =? FLOW_DL_TYPE_NONE then
    eth ← deref (b_l2 b);
    store (eth + 12) (be_bytes 2 (Z.of_nat (b_size b))) b
  else
    b ← (if has (vlan_tci f) VLAN_CFI then eth_push_vlan (vlan_tci f) b else Ret b);
    if dl_type f =? ETH_TYPE_IP then compose_ip f b
    else if dl_type f =? ETH_TYPE_IPV6 then Ret b
    else if dl_type f =? ETH_TYPE_ARP then Ret (compose_arp f b)
    else Ret b.

(** A field of [n] bytes at [p] is replaced, if it differs; [upd] is for the checksums. *)
Definition packet_set_ipv4_addr (addr : nat) (new_addr : Z) (packet : ofpbuf) : outcome ofpbuf :=
  nh ← deref (b_l3 packet);
  old ← load addr 4 packet;
  proto ← load (nh + 9) 1 packet;
  packet ←
    (if (proto =? IPPROTO_TCP) && match b_l7 packet with Some _ => true | None => false end then
       th ← deref (b_l4 packet);
       c ← load (th + 16) 2 packet;
       store (th + 16) (be_bytes 2 (recalc_csum32 c old new_addr)) packet
     else if (proto =? IPPROTO_UDP) && match b_l7 packet with Some _ => true | None => false end then
       uh ← deref (b_l4 packet);
       c ← load (uh + 6) 2 packet;
       if negb (c =? 0) then
         let c := recalc_csum32 c old new_addr in
         store (uh + 6) (be_bytes 2 (if c =? 0 then 0xffff else c)) packet
       else Ret packet
     else Ret packet);
  c ← load (nh + 10) 2 packet;
  packet ← store (nh + 10) (be_bytes 2 (recalc_csum32 c old new_addr)) packet;
  store addr (be_bytes 4 new_addr) packet.

(** A byte of the IP header, [shift] bits up in its 16-bit word. *)
Definition packet_set_ipv4_byte (field : nat) (shift new : Z) (packet : ofpbuf) : outcome ofpbuf :=
  nh ← deref (b_l3 packet);
  old ← load field 1 packet;
  if negb (old =? new) then
    c ← load (nh + 10) 2 packet;
    packet ← store (nh + 10) (be_bytes 2 (recalc_csum16 c (Z.shiftl old shift) (Z.shiftl new shift))) packet;
    store field (be_bytes 1 new) packet
  else Ret packet.

Definition packet_set_ipv4 (src dst tos ttl : Z) (packet : ofpbuf) : outcome ofpbuf :=
  nh ← deref (b_l3 packet);
  ip_src ← load (nh + 12) 4 packet;
  packet ← (if negb (ip_src =? src) then packet_set_ipv4_addr (nh + 12) src packet else Ret packet);
  ip_dst ← load (nh + 16) 4 packet;
  packet ← (if negb (ip_dst =? dst) then packet_set_ipv4_addr (nh + 16) dst packet else Ret packet);
  packet ← packet_set_ipv4_byte (nh + 1) 0 tos packet;
  packet_set_ipv4_byte (nh + 8) 8 ttl packet.

Definition packet_set_port (port : nat) (new_port : Z) (csum : nat) (packet : ofpbuf) : outcome ofpbuf :=
  old ← load port 2 packet;
  if negb (old =? new_port) then
    c ← load csum 2 packet;
    packet ← store csum (be_bytes 2 (recalc_csum16 c old new_port)) packet;
    store port (be_bytes 2 new_port) packet
  else Ret packet.

Definition packet_set_tcp_port (src dst : Z) (packet : ofpbuf) : outcome ofpbuf :=
  th ← deref (b_l4 packet);
  packet ← packet_set_port th src (th + 16) packet;
  packet_set_port (th + 2) dst (th + 16) packet.

Definition packet_set_udp_port (src dst : Z) (packet : ofpbuf) : outcome ofpbuf :=
  uh ← deref (b_l4 packet);
  c ← load (uh + 6) 2 packet;
  if negb (c =? 0) then
    packet ← packet_set_port uh src (uh + 6) packet;
    packet ← packet_set_port (uh + 2) dst (uh + 6) packet;
    c ← load (uh + 6) 2 packet;
    if c =? 0 then store (uh + 6) (be_bytes 2 0xffff) packet else Ret packet
  else
    packet ← store uh (be_bytes 2 src) packet;
    store (uh + 2) (be_bytes 2 dst) packet.

Definition TCP_FLAGS (tcp_ctl : Z) : Z := Z.land tcp_ctl 0x003f.

Definition packet_get_tcp_flags (packet : ofpbuf) (f : flow) : outcome Z :=
  if ((dl_type f =? ETH_TYPE_IP) || (dl_type f =? ETH_TYPE_IPV6)) && (nw_proto f =? IPPROTO_TCP)
     && match b_l7 packet with Some _ => true | None => false end then
    tcp ← deref (b_l4 packet);
    ctl ← load (tcp + 12) 2 packet;
    Ret (TCP_FLAGS ctl)
  else Ret 0.

(** What execute_controller_action of ofproto/ofproto-dpif.c does to the clone of the packet,
    before it is sent to the controller; [f] is the flow of the context. *)
Definition controller_packet (f : flow) (packet : ofpbuf) : outcome ofpbuf :=
  match b_l2 packet, b_l3 packet with
  | Some _, Some _ =>
      packet ← eth_pop_vlan packet;
      eh ← deref (b_l2 packet);
      eth_type ← load (eh + 12) 2 packet;
      if negb ((eth_type <? ETH_TYPE_MIN) || (eth_type =? dl_type f)) then Stuck AssertFail
      else
        packet ← store (eh + 6) (dl_src f) packet;
        packet ← store eh (dl_dst f) packet;
        packet ← (if has (vlan_tci f) VLAN_CFI then eth_push_vlan (vlan_tci f) packet else Ret packet);
        match b_l4 packet with
        | None => Ret packet
        | Some _ =>
            packet ← (if dl_type f =? ETH_TYPE_IP then
                        packet_set_ipv4 (nw_src f) (nw_dst f) (nw_tos f) (nw_ttl f) packet
                      else Ret packet);
            match b_l7 packet with
            | None => Ret packet
            | Some _ =>
                if nw_proto f =? IPPROTO_TCP then packet_set_tcp_port (tp_src f) (tp_dst f) packet
                else if nw_proto f =? IPPROTO_UDP then packet_set_udp_port (tp_src f) (tp_dst f) packet
                else Ret packet
            end
        end
  | _, _ => Ret packet
  end.
