(* ===== verification/Csum.v ===== *)
(** * Checksums (lib/csum.c)

    The Internet checksum is a sum modulo 65535 in which only nothing at all is 0.  The sum of
    bytes by their weights, [psum], is what csum_continue computes; in the other order of bytes
    it is 256 times as much, which is why the functions need not know the order. *)
From S2P Require Import Prelude Hash Hmap Flow Packet.

Local Open Scope Z_scope.

(** ** Sums *)

(** [odd] tells whether the first byte is the one of weight 1; [psum false] is the sum of words
    in network byte order, [psum true] in that of a little-endian host. *)
Fixpoint psum (odd : bool) (l : list Z) : Z :=
  match l with [] => 0 | x :: l => (if odd then x else 256 * x) + psum (negb odd) l end.

Definition parity (odd : bool) (l : list Z) : bool := xorb odd (Nat.odd (length l)).

Lemma psum_app odd l1 l2 : psum odd (l1 ++ l2) = psum odd l1 + psum (parity odd l1) l2.
Proof.
  revert odd. induction l1 as [|x l1 IH]; intros odd; cbn [app psum].
  { unfold parity. by rewrite xorb_false_r. }
  rewrite IH. unfold parity. cbn [length]. rewrite Nat.odd_succ, <- Nat.negb_odd, <- negb_xorb_l, <- negb_xorb_r. lia.
Qed.

Lemma psum_bound odd l : bytes l -> 0 <= psum odd l <= 65280 * Z.of_nat (length l).
Proof.
  intros Hl. revert odd. induction Hl as [|x l Hx _ IH]; intros odd; cbn [psum length]; [lia|].
  specialize (IH (negb odd)). unfold is_byte in Hx. destruct odd; lia.
Qed.

Lemma psum_zero odd l : bytes l -> psum odd l = 0 -> psum (negb odd) l = 0.
Proof.
  intros Hl. revert odd. induction Hl as [|x l Hx Hl IH]; intros odd; cbn [psum]; [done|].
  intros E. pose proof (psum_bound (negb odd) l Hl). unfold is_byte in Hx.
  assert (x = 0 /\ psum (negb odd) l = 0) as [-> E0] by (destruct odd; lia).
  specialize (IH _ E0). destruct odd; cbn [negb] in *; lia.
Qed.

Definition same_sum (a b : Z) : Prop := a mod 65535 = b mod 65535.

Lemma same_sum_diff a b k : a = b + k * 65535 -> same_sum a b.
Proof. intros ->. unfold same_sum. by rewrite Z_mod_plus_full. Qed.

Lemma same_sum_ex a b : same_sum a b -> exists k, a = b + k * 65535.
Proof.
  unfold same_sum. intros E. exists (a / 65535 - b / 65535).
  pose proof (Z.div_mod a 65535 ltac:(lia)). pose proof (Z.div_mod b 65535 ltac:(lia)). lia.
Qed.

(** The other order of bytes. *)
Lemma psum_swap odd l : same_sum (psum (negb odd) l) (256 * psum odd l).
Proof.
  revert odd. induction l as [|x l IH]; intros odd; [done|]. cbn [psum].
  destruct (same_sum_ex _ _ (IH (negb odd))) as (k & E).
  destruct odd; cbn [negb] in *; [apply (same_sum_diff _ _ k)|apply (same_sum_diff _ _ (k - x))]; lia.
Qed.

(** ** Folding *)

(** The representative that the folding finds. *)
Definition canon (z : Z) : Z := if z =? 0 then 0 else (z - 1) mod 65535 + 1.

Lemma canon_bound z : 0 <= canon z <= 65535.
Proof. unfold canon. destruct (z =? 0); [lia|]. pose proof (Z.mod_pos_bound (z - 1) 65535). lia. Qed.

Lemma canon_same z : same_sum (canon z) z.
Proof.
  unfold canon. destruct (Z.eqb_spec z 0) as [->|]; [done|].
  pose proof (Z.div_mod (z - 1) 65535 ltac:(lia)). apply (same_sum_diff _ _ (- ((z - 1) / 65535))). lia.
Qed.

Lemma canon_zero z : canon z = 0 <-> z = 0.
Proof.
  unfold canon. destruct (Z.eqb_spec z 0) as [->|]; [done|]. pose proof (Z.mod_pos_bound (z - 1) 65535). lia.
Qed.

Lemma canon_unique c z : 0 <= c <= 65535 -> same_sum c z -> (c = 0 <-> z = 0) -> canon z = c.
Proof.
  intros Hc Hs Hz. destruct (same_sum_ex _ _ Hs) as (k & E). destruct (same_sum_ex _ _ (canon_same z)) as (j & E').
  pose proof (canon_bound z). pose proof (canon_zero z). assert (canon z - c = (j - k) * 65535) by lia. nia.
Qed.

Lemma canon_ext a b : same_sum a b -> (a = 0 <-> b = 0) -> canon a = canon b.
Proof.
  intros Hs Hz. apply canon_unique; [apply canon_bound| |].
  - unfold same_sum in *. by rewrite (canon_same b).
  - rewrite canon_zero. tauto.
Qed.

Lemma canon_small z : 0 <= z <= 65535 -> canon z = z.
Proof. intros H. by apply canon_unique. Qed.

(** One round of the loop. *)
Lemma fold_round z : 0 <= z -> same_sum (z mod 65536 + z / 65536) z /\ (z mod 65536 + z / 65536 = 0 <-> z = 0).
Proof.
  intros Hz. pose proof (Z.div_mod z 65536 ltac:(lia)). pose proof (Z.mod_pos_bound z 65536 ltac:(lia)).
  assert (0 <= z / 65536) by (apply Z.div_pos; lia).
  split; [|lia]. apply (same_sum_diff _ _ (- (z / 65536))). lia.
Qed.

Lemma csum_fold_step fuel z : 0 <= z -> csum_fold (S fuel) z = if z <? 65536 then z else csum_fold fuel (z mod 65536 + z / 65536).
Proof.
  intros Hz. cbn [csum_fold]. rewrite Z.shiftr_div_pow2 by lia. change (2 ^ 16) with 65536.
  change 65535 with (Z.ones 16). rewrite Z.land_ones by lia. change (2 ^ 16) with 65536.
  pose proof (Z.div_mod z 65536 ltac:(lia)). pose proof (Z.mod_pos_bound z 65536 ltac:(lia)).
  assert (0 <= z / 65536) by (apply Z.div_pos; lia).
  destruct (Z.eqb_spec (z / 65536) 0), (Z.ltb_spec z 65536); try lia; done.
Qed.

Lemma csum_fold_ok z : 0 <= z < 2 ^ 32 -> csum_fold 3 z = canon z.
Proof.
  intros Hz. destruct (fold_round z) as [H1 H1']; [lia|]. set (y := z mod 65536 + z / 65536) in *.
  assert (0 <= y <= 131070) as Hy.
  { pose proof (Z.mod_pos_bound z 65536 ltac:(lia)). pose proof (Z.div_pos z 65536 ltac:(lia) ltac:(lia)).
    assert (z / 65536 < 65536) by (apply Z.div_lt_upper_bound; lia). lia. }
  destruct (fold_round y) as [H2 H2']; [lia|]. set (x := y mod 65536 + y / 65536) in *.
  assert (0 <= x < 65536) as Hx.
  { pose proof (Z.div_mod y 65536 ltac:(lia)). pose proof (Z.mod_pos_bound y 65536 ltac:(lia)). unfold x. lia. }
  rewrite csum_fold_step by lia. destruct (Z.ltb_spec z 65536); [symmetry; apply canon_small; lia|]. fold y.
  rewrite csum_fold_step by lia. destruct (Z.ltb_spec y 65536).
  { rewrite <- (canon_ext y z) by done. symmetry. apply canon_small. lia. }
  fold x. rewrite csum_fold_step by lia. destruct (Z.ltb_spec x 65536); [|lia].
  rewrite <- (canon_ext y z), <- (canon_ext x y) by done. symmetry. apply canon_small. lia.
Qed.

Lemma u16_lnot c : 0 <= c <= 65535 -> u16 (Z.lnot c) = 65535 - c.
Proof.
  intros Hc. unfold wrap, Z.lnot. change (2 ^ 16) with 65536. symmetry. apply (Z.mod_unique_pos _ _ (-1)); lia.
Qed.

Lemma csum_finish_ok z : 0 <= z < 2 ^ 32 -> csum_finish z = 65535 - canon z.
Proof. intros Hz. unfold csum_finish. rewrite csum_fold_ok by done. apply u16_lnot, canon_bound. Qed.

Lemma csum_continue_ok l : forall p, 0 <= p < 2 ^ 32 -> csum_continue p l = u32 (p + psum true l).
Proof.
  induction l as [l IH] using (well_founded_induction (Wf_nat.well_founded_ltof _ length)). unfold Wf_nat.ltof in IH.
  intros p Hp. destruct l as [|x [|y l]]; cbn [csum_continue psum negb].
  - rewrite Z.add_0_r. symmetry. by apply wrap_small.
  - f_equal. lia.
  - rewrite IH; [|cbn; lia|apply (wrap_bound 32); lia]. unfold csum_add16, wrap. rewrite Zplus_mod_idemp_l. f_equal. lia.
Qed.

(** A packet has at most 65535 bytes to sum up. *)
Definition short (l : list Z) : Prop := Z.of_nat (length l) <= 65535.

Lemma csum_ok l : bytes l -> short l -> csum l = 65535 - canon (psum true l).
Proof.
  intros Hl Hs. pose proof (psum_bound true l Hl). unfold short in Hs. unfold csum.
  rewrite csum_continue_ok, Z.add_0_l by lia. rewrite wrap_small by lia. apply csum_finish_ok. lia.
Qed.

(** ** Order of bytes *)

Definition swap16 (z : Z) : Z := 256 * (z mod 256) + z / 256.

Lemma swap16_bound z : 0 <= z <= 65535 -> 0 <= swap16 z <= 65535.
Proof.
  intros Hz. unfold swap16. pose proof (Z.mod_pos_bound z 256 ltac:(lia)). pose proof (Z.div_mod z 256 ltac:(lia)). lia.
Qed.

Lemma swap16_same z : same_sum (swap16 z) (256 * z).
Proof.
  unfold swap16. pose proof (Z.div_mod z 256 ltac:(lia)). apply (same_sum_diff _ _ (- (z / 256))). lia.
Qed.

Lemma swap16_zero z : 0 <= z -> swap16 z = 0 <-> z = 0.
Proof.
  intros Hz. unfold swap16. pose proof (Z.mod_pos_bound z 256 ltac:(lia)). pose proof (Z.div_mod z 256 ltac:(lia)).
  assert (0 <= z / 256) by (apply Z.div_pos; lia). lia.
Qed.

Lemma swap16_complement z : 0 <= z <= 65535 -> 65535 - swap16 z = swap16 (65535 - z).
Proof.
  intros Hz. unfold swap16. pose proof (Z.mod_pos_bound z 256 ltac:(lia)). pose proof (Z.div_mod z 256 ltac:(lia)).
  assert ((65535 - z) / 256 = 255 - z / 256) as -> by (symmetry; apply (Z.div_unique_pos _ _ _ (255 - z mod 256)); lia).
  assert ((65535 - z) mod 256 = 255 - z mod 256) as -> by (symmetry; apply (Z.mod_unique_pos _ _ (255 - z / 256)); lia).
  lia.
Qed.

Lemma canon_swap a b : 0 <= a -> same_sum b (256 * a) -> (b = 0 <-> a = 0) -> canon b = swap16 (canon a).
Proof.
  intros Ha Hs Hz. apply canon_unique; [apply swap16_bound, canon_bound| |].
  - unfold same_sum in *. rewrite swap16_same, Hs, Zmult_mod, canon_same, <- Zmult_mod. done.
  - rewrite swap16_zero by apply canon_bound. rewrite canon_zero. tauto.
Qed.

Lemma recalc_csum16_ok c o n : 0 <= c <= 65535 -> 0 <= o <= 65535 -> 0 <= n <= 65535 ->
  recalc_csum16 c o n = 65535 - canon ((65535 - c) + (65535 - o) + n).
Proof. intros. unfold recalc_csum16. rewrite !u16_lnot by done. apply csum_finish_ok. lia. Qed.

Lemma recalc_csum16_bound c o n : 0 <= c <= 65535 -> 0 <= o <= 65535 -> 0 <= n <= 65535 -> 0 <= recalc_csum16 c o n <= 65535.
Proof. intros. rewrite recalc_csum16_ok by done. pose proof (canon_bound ((65535 - c) + (65535 - o) + n)). lia. Qed.

(** The checksum as a number in network byte order. *)
Definition be_csum (l : list Z) : Z := 65535 - canon (psum false l).

Lemma be_csum_bound l : 0 <= be_csum l <= 65535.
Proof. unfold be_csum. pose proof (canon_bound (psum false l)). lia. Qed.

Lemma csum_swap l : bytes l -> short l -> csum l = swap16 (be_csum l).
Proof.
  intros Hl Hs. rewrite csum_ok by done. unfold be_csum. rewrite <- swap16_complement by apply canon_bound. f_equal.
  apply canon_swap; [by apply psum_bound|exact (psum_swap false l)|].
  split; [exact (psum_zero true l Hl)|exact (psum_zero false l Hl)].
Qed.

Lemma raw16_swap z : 0 <= z <= 65535 -> raw16 (swap16 z) = be_bytes 2 z.
Proof.
  intros Hz. unfold raw16, be_bytes, wrap. change (8 * Z.of_nat 1) with 8. change (8 * Z.of_nat 0) with 0.
  change 255 with (Z.ones 8). rewrite Z.land_ones, !Z.shiftr_div_pow2 by lia. unfold swap16.
  change (2 ^ 8) with 256. change (2 ^ 0) with 1. rewrite Z.div_1_r.
  pose proof (Z.mod_pos_bound z 256 ltac:(lia)). assert (0 <= z / 256 < 256) by (split; [apply Z.div_pos|apply Z.div_lt_upper_bound]; lia).
  rewrite (Z.mod_small (z / 256)) by lia. f_equal; [|f_equal].
  - symmetry. apply (Z.mod_unique_pos _ _ (z mod 256)); lia.
  - symmetry. apply (Z.div_unique_pos _ _ _ (z / 256)); lia.
Qed.

(** A checksum verifies: the sum over the data with it is all ones. *)
Definition verifies (l : list Z) : Prop := canon (psum false l) = 65535.

Lemma verifies_csum l : bytes l -> short l -> verifies l <-> csum l = 0.
Proof.
  intros Hl Hs. rewrite csum_swap by done. rewrite swap16_zero by apply be_csum_bound. unfold verifies, be_csum. lia.
Qed.

Lemma verifies_sum l : verifies l <-> same_sum (psum false l) 0 /\ psum false l <> 0.
Proof.
  unfold verifies. split.
  - intros E. split; [|by intros E0; rewrite E0 in E]. unfold same_sum. rewrite <- canon_same, E. done.
  - intros [Hs Hz]. apply canon_unique; [lia|unfold same_sum in *; by rewrite Hs|lia].
Qed.

Lemma recalc_same c o n : 0 <= c <= 65535 -> 0 <= o <= 65535 -> 0 <= n <= 65535 ->
  same_sum (recalc_csum16 c o n - c) (o - n).
Proof.
  intros Hc Ho Hn. rewrite recalc_csum16_ok by done.
  destruct (same_sum_ex _ _ (canon_same (65535 - c + (65535 - o) + n))) as (k & E).
  apply (same_sum_diff _ _ (-1 - k)). lia.
Qed.

Lemma recalc_csum32_ok c o n : 0 <= c <= 65535 -> 0 <= o < 2 ^ 32 -> 0 <= n < 2 ^ 32 ->
  0 <= recalc_csum32 c o n <= 65535 /\ same_sum (recalc_csum32 c o n - c) ((o mod 65536 + o / 65536) - (n mod 65536 + n / 65536)).
Proof.
  intros Hc Ho Hn. unfold recalc_csum32, wrap. rewrite !Z.shiftr_div_pow2 by lia. change (2 ^ 16) with 65536.
  assert (forall x, 0 <= x < 2 ^ 32 -> 0 <= x mod 65536 <= 65535 /\ 0 <= x / 65536 <= 65535) as Hb.
  { intros x Hx. pose proof (Z.mod_pos_bound x 65536 ltac:(lia)).
    assert (0 <= x / 65536 < 65536) by (split; [apply Z.div_pos|apply Z.div_lt_upper_bound]; lia). lia. }
  destruct (Hb o Ho) as [B1 B2], (Hb n Hn) as [B3 B4].
  pose proof (recalc_csum16_bound c _ _ Hc B1 B3) as Hc1. set (c1 := recalc_csum16 c (o mod 65536) (n mod 65536)) in *.
  split; [by apply recalc_csum16_bound|].
  destruct (same_sum_ex _ _ (recalc_same c _ _ Hc B1 B3)) as (k & E). fold c1 in E.
  destruct (same_sum_ex _ _ (recalc_same c1 _ _ Hc1 B2 B4)) as (j & E').
  apply (same_sum_diff _ _ (k + j)). lia.
Qed.

(** ** Properties *)

Lemma psum_splice p bs m : (p + length bs <= length m)%nat ->
  psum false (splice p bs m) = psum false m - psum (Nat.odd p) (sub p (length bs) m) + psum (Nat.odd p) bs.
Proof.
  intros Hp. rewrite <- (take_drop p m) at 2. rewrite <- (take_drop (length bs) (drop p m)), drop_drop.
  unfold splice, sub. rewrite !psum_app. unfold parity. rewrite !length_take_le by (rewrite ?length_drop; lia).
  rewrite !xorb_false_l. lia.
Qed.

Lemma psum_be_bytes2 z : psum false (be_bytes 2 z) = u16 z.
Proof.
  unfold be_bytes, wrap. change (8 * Z.of_nat 1) with 8. change (8 * Z.of_nat 0) with 0. cbn [psum negb].
  rewrite !Z.shiftr_div_pow2 by lia. change (2 ^ 0) with 1. change (2 ^ 8) with 256. change (2 ^ 16) with (256 * 256).
  rewrite Z.div_1_r, Z.rem_mul_r by lia. lia.
Qed.

(** A checksum that is stored verifies.  If the field at an even offset is zero when csum is
    taken over the data, then csum over the data with the result in the field is zero, which is
    the receiver's test. *)
Theorem csum_verifies p h :
  bytes h -> short h -> Nat.odd p = false -> (p + 2 <= length h)%nat -> sub p 2 h = [0; 0] -> csum (with_csum p h) = 0.
Proof.
  intros Hh Hs Hp Hlen Hz. unfold with_csum. rewrite (csum_swap h), raw16_swap by (done || apply be_csum_bound).
  assert (length (splice p (be_bytes 2 (be_csum h)) h) = length h) as El.
  { unfold splice. rewrite !length_app, length_take_le, length_drop, length_be_bytes by lia. lia. }
  assert (bytes (splice p (be_bytes 2 (be_csum h)) h)) as Hb.
  { unfold splice. apply Forall_app; split; [by apply Forall_take|]. apply Forall_app.
    split; [apply be_bytes_bytes|by apply Forall_drop]. }
  apply verifies_csum; [done|unfold short; by rewrite El|]. apply verifies_sum.
  rewrite psum_splice, Hp, length_be_bytes, Hz, psum_be_bytes2 by (rewrite length_be_bytes; lia).
  rewrite wrap_small by (pose proof (be_csum_bound h); lia). cbn [psum negb]. unfold be_csum.
  pose proof (psum_bound false h Hh). pose proof (canon_bound (psum false h)). pose proof (canon_zero (psum false h)).
  destruct (same_sum_ex _ _ (canon_same (psum false h))) as (k & E).
  split; [apply (same_sum_diff _ _ (1 - k)); lia|lia].
Qed.

Lemma csum_verifies_witness : csum (with_csum 2 [8; 0; 0; 0; 1; 2; 3]) = 0.
Proof.
  apply (csum_verifies 2 [8; 0; 0; 0; 1; 2; 3]); [|done|done|cbn; lia|done].
  repeat constructor; lia.
Defined.

(** Checksums do not depend on the order of bytes.  On a little-endian host the checksum
    that csum stores is, read in network byte order, the one of the words in that order; and
    recalc_csum16 on swapped words gives the swapped result, so that it may be used on values
    in either order. *)
Theorem csum_byte_order :
  (forall l, bytes l -> short l -> be_value (raw16 (csum l)) = 65535 - canon (psum false l))
  /\ (forall c o n, 0 <= c <= 65535 -> 0 <= o <= 65535 -> 0 <= n <= 65535 ->
       recalc_csum16 (swap16 c) (swap16 o) (swap16 n) = swap16 (recalc_csum16 c o n)).
Proof.
  split.
  - intros l Hl Hs. rewrite csum_swap, raw16_swap by (done || apply be_csum_bound).
    rewrite be_value_bytes. change (256 ^ Z.of_nat 2) with 65536. pose proof (be_csum_bound l). by rewrite Z.mod_small by lia.
  - intros c o n Hc Ho Hn. rewrite !recalc_csum16_ok by (done || by apply swap16_bound).
    rewrite <- swap16_complement by apply canon_bound. f_equal. rewrite !swap16_complement by done.
    apply canon_swap; [lia| |].
    + destruct (same_sum_ex _ _ (swap16_same (65535 - c))) as (i & Ei), (same_sum_ex _ _ (swap16_same (65535 - o))) as (j & Ej),
        (same_sum_ex _ _ (swap16_same n)) as (k & Ek). apply (same_sum_diff _ _ (i + j + k)). lia.
    + pose proof (swap16_bound (65535 - c)). pose proof (swap16_bound (65535 - o)). pose proof (swap16_bound n).
      pose proof (swap16_zero (65535 - c)). pose proof (swap16_zero (65535 - o)). pose proof (swap16_zero n). lia.
Qed.

(** C26: updating a checksum is as good as computing it anew.  When a word at an even offset of
    the data changes, recalc_csum16 turns the checksum of the data into the checksum of the
    new data, unless the new data are all zero, for which it gives the other form of zero. *)
Theorem recalc_csum16_exact p m n :
  bytes m -> Nat.odd p = false -> (p + 2 <= length m)%nat -> 0 <= n <= 65535 ->
  recalc_csum16 (be_csum m) (be_value (sub p 2 m)) n
  = if psum false (splice p (be_bytes 2 n) m) =? 0 then 0 else be_csum (splice p (be_bytes 2 n) m).
Proof.
  intros Hm Hp Hlen Hn. pose proof (be_csum_bound m) as Hc.
  assert (length (sub p 2 m) = 2%nat) as Hl2 by (unfold sub; rewrite length_take_le; rewrite ?length_drop; lia).
  assert (bytes (sub p 2 m)) as Hb by (by apply Forall_take, Forall_drop).
  assert (be_value (sub p 2 m) = psum false (sub p 2 m)) as Eo.
  { destruct (sub p 2 m) as [|x [|y [|]]]; try done. cbn. lia. }
  pose proof (be_value_bound _ Hb) as Ho. rewrite Hl2 in Ho. change (256 ^ Z.of_nat 2) with 65536 in Ho.
  rewrite recalc_csum16_ok by lia. unfold be_csum. rewrite psum_splice, Hp, length_be_bytes, psum_be_bytes2 by (rewrite length_be_bytes; lia).
  rewrite (wrap_small 16 n) by lia. rewrite <- Eo.
  assert (0 <= psum false m - be_value (sub p 2 m)) as Hge.
  { rewrite Eo. rewrite <- (take_drop p m) at 1. rewrite <- (take_drop 2 (drop p m)), drop_drop. fold (sub p 2 m).
    rewrite !psum_app. unfold parity. rewrite length_take_le, Hp, Hl2 by lia. cbn [xorb Nat.odd].
    pose proof (psum_bound false (take p m) ltac:(by apply Forall_take)).
    pose proof (psum_bound false (drop (p + 2) m) ltac:(by apply Forall_drop)). change (Nat.odd 2) with false. lia. }
  set (s := psum false m - be_value (sub p 2 m) + n) in *.
  destruct (same_sum_ex _ _ (canon_same (psum false m))) as (k & E). unfold be_csum in Hc.
  assert (same_sum (65535 - (65535 - canon (psum false m)) + (65535 - be_value (sub p 2 m)) + n) s) as Hs
    by (apply (same_sum_diff _ _ (k + 1)); unfold s; lia).
  pose proof (canon_bound (psum false m)). destruct (Z.eqb_spec s 0) as [E0|].
  - rewrite (canon_unique 65535); [lia|lia| |].
    + unfold same_sum in *. by rewrite Hs, E0.
    + split; [lia|]. intros E1. assert (canon (psum false m) = 0) as E2 by lia. apply (proj1 (canon_zero _)) in E2. unfold s in *. lia.
  - f_equal. apply canon_ext; [done|]. split; [|done]. intros E1.
    assert (canon (psum false m) = 0) as E2 by lia. apply (proj1 (canon_zero _)) in E2. unfold s in *. lia.
Qed.

Lemma recalc_csum16_exact_witness :
  recalc_csum16 (be_csum [69; 0; 0; 40]) (be_value (sub 2 2 [69; 0; 0; 40])) 1500
  = if psum false (splice 2 (be_bytes 2 1500) [69; 0; 0; 40]) =? 0 then 0 else be_csum (splice 2 (be_bytes 2 1500) [69; 0; 0; 40]).
Proof.
  apply (recalc_csum16_exact 2 [69; 0; 0; 40] 1500); [|done|cbn; lia|lia]. repeat constructor; lia.
Defined.
