(* ===== verification/Extract.v ===== *)
(** * Packets: parsing (flow_extract of lib/flow.c)

    flow_extract reads nothing beyond the packet, ends, and sets the pointers to headers that
    lie in the packet, whatever the packet is. *)
From S2P Require Import Prelude Hash Hmap Flow ClsRule Packet.

Local Open Scope Z_scope.

(** ** Loads and pulls *)

(** The value of a field. *)
Definition field (p n : nat) (m : list Z) : Z := be_value (sub p n m).

Lemma length_sub p n m : (p + n <= length m)%nat -> length (sub p n m) = n.
Proof. intros H. unfold sub. rewrite length_take_le; rewrite ?length_drop; lia. Qed.

Lemma sub_app pre l k n : sub (length pre + k) n (pre ++ l) = sub k n l.
Proof. unfold sub. by rewrite drop_app_add. Qed.

Lemma sub_bytes p n m : bytes m -> bytes (sub p n m).
Proof. intros H. by apply Forall_take, Forall_drop. Qed.

Lemma load_bytes_ok p n b : (p + n <= length (b_mem b))%nat -> load_bytes p n b = Ret (sub p n (b_mem b)).
Proof. intros H. unfold load_bytes. by rewrite (proj2 (Nat.leb_le _ _) H). Qed.

Lemma load_at_ok p n b : (p + n <= length (b_mem b))%nat -> load p n b = Ret (field p n (b_mem b)).
Proof. intros H. unfold load. by rewrite load_bytes_ok. Qed.

Lemma field_width p n m w :
  bytes m -> (p + n <= length m)%nat -> 256 ^ Z.of_nat n = 2 ^ w -> in_width w (field p n m).
Proof.
  intros Hm Hl Hw. unfold field. pose proof (be_value_bound _ (sub_bytes p n m Hm)) as H.
  rewrite length_sub, Hw in H by done. exact H.
Qed.

Lemma sub_words p n m : bytes m -> (p + n <= length m)%nat -> words n 8 (sub p n m).
Proof. intros Hm Hl. split; [by apply length_sub|]. by apply sub_bytes. Qed.

Lemma pull_ok n b : (n <= b_size b)%nat -> ofpbuf_pull n b = Ret (b_data b, with_data (b_data b + n) b).
Proof. intros H. unfold ofpbuf_pull. by rewrite (proj2 (Nat.ltb_ge _ _) H). Qed.

Lemma try_pull_spec n b : ofpbuf_try_pull n b
  = Ret (if (n <=? b_size b)%nat then Some (b_data b, with_data (b_data b + n) b) else None).
Proof.
  unfold ofpbuf_try_pull. destruct (Nat.leb_spec n (b_size b)); [|done]. by rewrite pull_ok.
Qed.

(** The data are a part of the memory. *)
Definition inside (b : ofpbuf) : Prop := bytes (b_mem b) /\ (b_data b <= length (b_mem b))%nat.

Lemma inside_size b n : inside b -> (n <= b_size b)%nat -> (b_data b + n <= length (b_mem b))%nat.
Proof. intros [_ H] Hn. unfold b_size in Hn. lia. Qed.

Lemma inside_pull b n : inside b -> (n <= b_size b)%nat -> inside (with_data (b_data b + n) b).
Proof. intros Hb Hn. pose proof (inside_size b n Hb Hn). by destruct Hb. Qed.

(** ** Well-formed flows *)

Ltac with_ok := intros ? []; match goal with |- flow_ok (_ _ ?f) => destruct f end; split; try done.

Lemma with_nw_src_ok z f : in_width 32 z -> flow_ok f -> flow_ok (with_nw_src z f). Proof. with_ok. Qed.
Lemma with_nw_dst_ok z f : in_width 32 z -> flow_ok f -> flow_ok (with_nw_dst z f). Proof. with_ok. Qed.
Lemma with_nw_proto_ok z f : in_width 8 z -> flow_ok f -> flow_ok (with_nw_proto z f). Proof. with_ok. Qed.
Lemma with_nw_tos_ok z f : in_width 8 z -> flow_ok f -> flow_ok (with_nw_tos z f). Proof. with_ok. Qed.
Lemma with_nw_ttl_ok z f : in_width 8 z -> flow_ok f -> flow_ok (with_nw_ttl z f). Proof. with_ok. Qed.
Lemma with_nw_frag_ok z f : in_width 8 z -> flow_ok f -> flow_ok (with_nw_frag z f). Proof. with_ok. Qed.
Lemma with_tp_src_ok z f : in_width 16 z -> flow_ok f -> flow_ok (with_tp_src z f). Proof. with_ok. Qed.
Lemma with_tp_dst_ok z f : in_width 16 z -> flow_ok f -> flow_ok (with_tp_dst z f). Proof. with_ok. Qed.
Lemma with_vlan_tci_ok z f : in_width 16 z -> flow_ok f -> flow_ok (with_vlan_tci z f). Proof. with_ok. Qed.
Lemma with_dl_type_ok z f : in_width 16 z -> flow_ok f -> flow_ok (with_dl_type z f). Proof. with_ok. Qed.
Lemma with_in_port_ok z f : in_width 16 z -> flow_ok f -> flow_ok (with_in_port z f). Proof. with_ok. Qed.
Lemma with_tun_id_ok z f : in_width 64 z -> flow_ok f -> flow_ok (with_tun_id z f). Proof. with_ok. Qed.
Lemma with_skb_priority_ok z f : in_width 32 z -> flow_ok f -> flow_ok (with_skb_priority z f). Proof. with_ok. Qed.
Lemma with_ipv6_label_ok z f : in_width 32 z -> flow_ok f -> flow_ok (with_ipv6_label z f). Proof. with_ok. Qed.
Lemma with_dl_src_ok z f : words 6 8 z -> flow_ok f -> flow_ok (with_dl_src z f). Proof. with_ok. Qed.
Lemma with_dl_dst_ok z f : words 6 8 z -> flow_ok f -> flow_ok (with_dl_dst z f). Proof. with_ok. Qed.
Lemma with_arp_sha_ok z f : words 6 8 z -> flow_ok f -> flow_ok (with_arp_sha z f). Proof. with_ok. Qed.
Lemma with_arp_tha_ok z f : words 6 8 z -> flow_ok f -> flow_ok (with_arp_tha z f). Proof. with_ok. Qed.
Lemma with_ipv6_src_ok z f : words 16 8 z -> flow_ok f -> flow_ok (with_ipv6_src z f). Proof. with_ok. Qed.
Lemma with_ipv6_dst_ok z f : words 16 8 z -> flow_ok f -> flow_ok (with_ipv6_dst z f). Proof. with_ok. Qed.
Lemma with_nd_target_ok z f : words 16 8 z -> flow_ok f -> flow_ok (with_nd_target z f). Proof. with_ok. Qed.

Create HintDb cpacket.
#[export] Hint Resolve with_nw_src_ok with_nw_dst_ok with_nw_proto_ok with_nw_tos_ok with_nw_ttl_ok with_nw_frag_ok
  with_tp_src_ok with_tp_dst_ok with_vlan_tci_ok with_dl_type_ok with_in_port_ok with_tun_id_ok with_skb_priority_ok
  with_ipv6_label_ok with_dl_src_ok with_dl_dst_ok with_arp_sha_ok with_arp_tha_ok with_ipv6_src_ok with_ipv6_dst_ok
  with_nd_target_ok : cpacket.

Lemma field_byte p m : bytes m -> (p + 1 <= length m)%nat -> in_width 8 (field p 1 m).
Proof. intros. by apply field_width. Qed.

Lemma field_half p m : bytes m -> (p + 2 <= length m)%nat -> in_width 16 (field p 2 m).
Proof. intros. by apply field_width. Qed.

Lemma field_word p m : bytes m -> (p + 4 <= length m)%nat -> in_width 32 (field p 4 m).
Proof. intros. by apply field_width. Qed.

Lemma byte_half z : in_width 8 z -> in_width 16 z.
Proof. unfold in_width. lia. Qed.

#[export] Hint Resolve field_byte field_half field_word byte_half sub_words : cpacket.

(** Loads of which [lia] shows that they are inside. *)
Ltac lsimp := cbn [b_mem b_data b_l2 b_l3 b_l4 b_l7 with_data with_mem with_l2 with_l3 with_l4 with_l7 fst snd].
Ltac loads :=
  repeat first
    [ rewrite load_at_ok by (lsimp; lia)
    | rewrite load_bytes_ok by (lsimp; lia) ];
  cbn [mbind outcome_bind].
Ltac oload := first [rewrite load_at_ok by (lsimp; lia) | rewrite load_bytes_ok by (lsimp; lia)]; cbn [mbind outcome_bind].

(** ** The link layer *)

Lemma parse_vlan_ok b f : inside b -> (2 <= b_size b)%nat -> flow_ok f ->
  exists f', let d := if (6 <=? b_size b)%nat then (b_data b + 4)%nat else b_data b in
    parse_vlan b f = Ret (with_data d b, f') /\ flow_ok f' /\ (d + 2 <= length (b_mem b))%nat.
Proof.
  intros Hb H2 Hf. unfold parse_vlan. pose proof (inside_size b 2 Hb H2) as Hl2. destruct (Nat.leb_spec 6 (b_size b)) as [H6|H6].
  - pose proof (inside_size b 6 Hb H6). destruct Hb as [Hm Hl]. rewrite pull_ok by lia. cbn [mbind outcome_bind fst snd].
    oload. eexists. split; [done|]. split; [|lia]. apply with_vlan_tci_ok; [|done].
    apply in_width_lor; [lia| |done]. apply field_half; [done|lia].
  - exists f. split; [by destruct b|]. split; [done|lia].
Qed.

Lemma parse_ethertype_ok b : inside b -> (2 <= b_size b)%nat ->
  exists t d, parse_ethertype b = Ret (t, with_data d b) /\ in_width 16 t /\ (b_data b + 2 <= d <= length (b_mem b))%nat
    /\ (field (b_data b) 2 (b_mem b) < ETH_TYPE_MIN \/ field (b_data b) 2 (b_mem b) = t).
Proof.
  intros Hb H2. pose proof (inside_size b 2 Hb H2) as Hl2. pose proof Hb as [Hm Hl]. unfold parse_ethertype.
  rewrite pull_ok by done. cbn [mbind outcome_bind fst snd]. oload.
  pose proof (field_half (b_data b) (b_mem b) Hm Hl2) as Hw. change (b_data (with_data (b_data b + 2) b)) with (b_data b + 2)%nat.
  destruct (Z.leb_spec ETH_TYPE_MIN (field (b_data b) 2 (b_mem b))) as [Ht|Ht];
    [do 2 eexists; split; [done|split; [done|split; [lia|by right]]]|].
  destruct (Nat.ltb_spec (b_size (with_data (b_data b + 2) b)) 8) as [H8|H8];
    [do 2 eexists; split; [done|split; [done|split; [lia|by left]]]|].
  unfold b_size in H8. cbn in H8. oload. destruct (negb _); [do 2 eexists; split; [done|split; [done|split; [lia|by left]]]|].
  rewrite pull_ok by (unfold b_size; cbn; lia). cbn [mbind outcome_bind fst snd]. oload. lsimp.
  do 2 eexists. split; [done|]. split; [|split; [lia|by left]]. apply field_half; [done|lia].
Qed.

(** The header of the link layer: whether there is a VLAN tag, the least size, and the type. *)
Definition vlan_tagged (b : ofpbuf) : bool := (18 <=? b_size b)%nat && (field (b_data b + 12) 2 (b_mem b) =? ETH_TYPE_VLAN).
Definition l2_min (b : ofpbuf) : nat := if vlan_tagged b then 18%nat else 14%nat.
Definition l2_type (b : ofpbuf) : Z := field (b_data b + (l2_min b - 2)) 2 (b_mem b).

(** It is what the flow says, or the length of a frame of 802.2. *)
Definition type_ok (b : ofpbuf) (t : Z) : Prop := l2_type b < ETH_TYPE_MIN \/ l2_type b = t.

Lemma extract_link_ok b f : inside b -> (14 <= b_size b)%nat -> flow_ok f ->
  exists d f', extract_link b f = Ret (with_data d b, f') /\ flow_ok f' /\ (b_data b + l2_min b <= d <= length (b_mem b))%nat
    /\ type_ok b (dl_type f').
Proof.
  intros Hb H14 Hf. pose proof (inside_size b 14 Hb H14) as Hl. unfold extract_link. pose proof Hb as [Hm _]. loads.
  rewrite pull_ok by lia. cbn [mbind outcome_bind fst snd].
  set (f1 := with_dl_dst _ _). assert (flow_ok f1) as Hf1 by (unfold f1; auto 6 with cpacket lia).
  set (b1 := with_data (b_data b + 12) b). assert (inside b1) as Hb1 by (apply inside_pull; [done|lia]).
  assert (b_size b1 = b_size b - 12)%nat as Es by (unfold b_size, b1; cbn; lia).
  assert (exists f2, (if field (b_data b + 12) 2 (b_mem b) =? ETH_TYPE_VLAN then parse_vlan b1 f1 else Ret (b1, f1))
    = Ret (with_data (b_data b + (l2_min b - 2)) b, f2) /\ flow_ok f2
    /\ (b_data b + (l2_min b - 2) + 2 <= length (b_mem b))%nat) as (f2 & E & Hf2 & Hd).
  { unfold l2_min, vlan_tagged. destruct (_ =? _); [|rewrite andb_false_r; exists f1; split; [done|split; [done|lia]]].
    destruct (parse_vlan_ok b1 f1 Hb1 ltac:(lia) Hf1) as (f2 & E & Hf2 & Hd). exists f2. rewrite E, andb_true_r.
    change (b_data b1) with (b_data b + 12)%nat in *. change (b_mem b1) with (b_mem b) in Hd.
    destruct (Nat.leb_spec 6 (b_size b1)), (Nat.leb_spec 18 (b_size b)); try lia; (split; [|split; [done|lia]]);
      rewrite <- ?Nat.add_assoc; done. }
  rewrite E. cbn [mbind outcome_bind fst snd]. set (d := (b_data b + (l2_min b - 2))%nat) in *.
  destruct (parse_ethertype_ok (with_data d b)) as (t & d' & E' & Ht & Hd' & Hty).
  { split; [done|]. cbn. lia. }
  { unfold b_size. cbn. lia. }
  rewrite E'. cbn [mbind outcome_bind fst snd]. do 2 eexists. split; [done|]. cbn in Hd'.
  split; [by apply with_dl_type_ok|]. assert (2 <= l2_min b)%nat by (unfold l2_min; destruct (vlan_tagged b); lia).
  split; [unfold d in Hd'; lia|]. unfold type_ok. by destruct f2.
Qed.

(** ** Transport *)

Lemma pull_tcp_ok b : inside b ->
  exists r, pull_tcp b = Ret r
    /\ match r with None => True | Some (p, b') => p = b_data b /\ exists n, (20 <= n <= b_size b)%nat /\ b' = with_data (b_data b + n) b end.
Proof.
  intros Hb. unfold pull_tcp. destruct (Nat.leb_spec 20 (b_size b)) as [H|H]; [|by exists None].
  pose proof (inside_size b 20 Hb H). oload. destruct (_ && _) eqn:E; [|by exists None].
  apply andb_true_iff in E as [E1%Nat.leb_le E2%Nat.leb_le]. rewrite pull_ok by done.
  eexists. split; [done|]. split; [done|]. by eexists.
Qed.

Lemma pull_ip_ok b : inside b ->
  exists r, pull_ip b = Ret r
    /\ match r with
       | None => True
       | Some (p, b') => p = b_data b /\ exists n, (20 <= n <= b_size b)%nat /\ b' = with_data (b_data b + n) b
                         /\ Z.of_nat n = IP_IHL (field (b_data b) 1 (b_mem b)) * 4
       end.
Proof.
  intros Hb. unfold pull_ip. destruct (Nat.leb_spec 20 (b_size b)) as [H|H]; [|by exists None].
  pose proof (inside_size b 20 Hb H). oload. destruct (_ && _) eqn:E; [|by exists None].
  apply andb_true_iff in E as [E1%Nat.leb_le E2%Nat.leb_le]. rewrite pull_ok by done.
  eexists. split; [done|]. split; [done|]. eexists. split; [by split|]. split; [done|lia].
Qed.

(** What parsing a transport header does: it may find the next header, behind the [n] bytes of
    this one, and leaves the type and the protocol alone. *)
Definition parsed_l7 (n : nat) (packet b : ofpbuf) (f : flow) (r : outcome (ofpbuf * flow)) : Prop :=
  exists packet' f', r = Ret (packet', f') /\ flow_ok f' /\ nw_proto f' = nw_proto f /\ dl_type f' = dl_type f
    /\ (packet' = packet \/ exists l7, packet' = with_l7 (Some l7) packet /\ (b_data b + n <= l7 <= length (b_mem b))%nat).

Lemma parsed_l7_none n packet b f : flow_ok f -> parsed_l7 n packet b f (Ret (packet, f)).
Proof. intros Hf. exists packet, f. split_and!; auto. Qed.

Lemma parsed_l7_ports n packet b f s t l7 :
  flow_ok f -> in_width 16 s -> in_width 16 t -> (b_data b + n <= l7 <= length (b_mem b))%nat ->
  parsed_l7 n packet b f (Ret (with_l7 (Some l7) packet, with_tp_dst t (with_tp_src s f))).
Proof.
  intros Hf Hs Ht Hl. do 2 eexists. split; [done|]. split; [auto with cpacket|]. split; [by destruct f|].
  split; [by destruct f|]. right. by exists l7.
Qed.

Lemma parse_tcp_ok packet b f : inside b -> flow_ok f -> parsed_l7 20 packet b f (parse_tcp packet b f).
Proof.
  intros Hb Hf. unfold parse_tcp. destruct (pull_tcp_ok b Hb) as ([[p b']|] & -> & H); cbn [mbind outcome_bind];
    [|by apply parsed_l7_none].
  destruct H as (-> & n & Hn & ->). pose proof (inside_size b n Hb ltac:(lia)). loads. lsimp. destruct Hb as [Hm Hl].
  apply parsed_l7_ports; [done|apply field_half; [done|lia]|apply field_half; [done|lia]|lia].
Qed.

Lemma parse_udp_ok packet b f : inside b -> flow_ok f -> parsed_l7 8 packet b f (parse_udp packet b f).
Proof.
  intros Hb Hf. unfold parse_udp, pull_udp. rewrite try_pull_spec. destruct (Nat.leb_spec 8 (b_size b)) as [H|H];
    cbn [mbind outcome_bind]; [|by apply parsed_l7_none].
  pose proof (inside_size b 8 Hb H). loads. lsimp. destruct Hb as [Hm Hl].
  apply parsed_l7_ports; [done|apply field_half; [done|lia]|apply field_half; [done|lia]|lia].
Qed.

Lemma parse_icmp_ok packet b f : inside b -> flow_ok f -> parsed_l7 8 packet b f (parse_icmp packet b f).
Proof.
  intros Hb Hf. unfold parse_icmp, pull_icmp. rewrite try_pull_spec. destruct (Nat.leb_spec 8 (b_size b)) as [H|H];
    cbn [mbind outcome_bind]; [|by apply parsed_l7_none].
  pose proof (inside_size b 8 Hb H). loads. lsimp. destruct Hb as [Hm Hl].
  apply parsed_l7_ports; [done|apply byte_half, field_byte; [done|lia]|apply byte_half, field_byte; [done|lia]|lia].
Qed.

(** ** Neighbour discovery *)

(** A step of a parser: where it ends in the memory, and with which flow. *)
Definition same_net (f f' : flow) : Prop := nw_proto f' = nw_proto f /\ dl_type f' = dl_type f.

Definition advanced (b : ofpbuf) (f : flow) (b' : ofpbuf) (f' : flow) : Prop :=
  exists d, b' = with_data d b /\ (b_data b <= d <= length (b_mem b))%nat /\ flow_ok f' /\ same_net f f'.

Lemma same_net_trans f g h : same_net f g -> same_net g h -> same_net f h.
Proof. unfold same_net. intros [-> ->] [-> ->]. done. Qed.

Lemma advanced_refl b f : inside b -> flow_ok f -> advanced b f b f.
Proof. intros [_ H] Hf. exists (b_data b). split; [by destruct b|]. done. Qed.

Lemma advanced_flow b f g : inside b -> flow_ok g -> same_net f g -> advanced b f b g.
Proof. intros [_ H] Hf Hn. exists (b_data b). split; [by destruct b|]. done. Qed.

Lemma advanced_pull b f n g b' f' : inside b -> (n <= b_size b)%nat -> same_net f g ->
  advanced (with_data (b_data b + n) b) g b' f' -> advanced b f b' f'.
Proof.
  intros Hb Hn Hg (d & -> & Hd & Hf & Hs). pose proof (inside_size b n Hb Hn). cbn in Hd.
  exists d. split; [done|]. split; [lia|]. split; [done|]. by apply (same_net_trans _ g).
Qed.

Lemma zeros_words n : words n 8 (replicate n 0).
Proof. split; [apply length_replicate|]. apply Forall_replicate. done. Qed.

Lemma nd_invalid_ok f : flow_ok f -> flow_ok (nd_invalid f).
Proof. intros Hf. unfold nd_invalid. pose proof zeros_words. auto 6 with cpacket. Qed.

Lemma nd_invalid_net f : same_net f (nd_invalid f). Proof. by destruct f. Qed.
Lemma with_arp_sha_net z f : same_net f (with_arp_sha z f). Proof. by destruct f. Qed.
Lemma with_arp_tha_net z f : same_net f (with_arp_tha z f). Proof. by destruct f. Qed.

Lemma nd_options_ok fuel : forall b f, inside b -> flow_ok f -> (b_size b <= fuel)%nat ->
  exists ok b' f', nd_options fuel b f = Ret (ok, b', f') /\ advanced b f b' f'.
Proof.
  induction fuel as [|fuel IH]; intros b f Hb Hf Hfuel; cbn [nd_options].
  { destruct (Nat.ltb_spec (b_size b) 8); [|lia]. do 3 eexists. split; [done|]. by apply advanced_refl. }
  destruct (Nat.ltb_spec (b_size b) 8) as [|H8]; [do 3 eexists; split; [done|]; by apply advanced_refl|].
  pose proof (inside_size b 8 Hb H8). loads.
  set (addr := sub _ 6 _). assert (words 6 8 addr) as Ha by (apply sub_words; [apply Hb|lia]).
  set (n := Z.to_nat _). assert (advanced b f b (nd_invalid f)) as Hinv.
  { apply advanced_flow; [done|by apply nd_invalid_ok|apply nd_invalid_net]. }
  destruct (n =? 0)%nat eqn:E0; [by do 3 eexists|]. apply Nat.eqb_neq in E0. cbn [orb].
  destruct (Nat.ltb_spec (b_size b) n) as [|Hn]; [by do 3 eexists|].
  rewrite try_pull_spec, (proj2 (Nat.leb_le _ _) Hn). cbn [mbind outcome_bind fst snd].
  pose proof (inside_size b n Hb Hn).
  assert (forall g, flow_ok g -> same_net f g -> exists ok b' f',
    nd_options fuel (with_data (b_data b + n) b) g = Ret (ok, b', f') /\ advanced b f b' f') as Hnext.
  { intros g Hg Hs. destruct (IH (with_data (b_data b + n) b) g) as (ok & b' & f' & E & A);
      [by apply inside_pull|done|unfold b_size in *; cbn; lia|].
    do 3 eexists. split; [exact E|]. by apply (advanced_pull b f n g). }
  repeat match goal with |- context [if ?c then _ else _] => destruct c; [|] end;
    first [by do 3 eexists | apply Hnext; auto using with_arp_sha_net, with_arp_tha_net with cpacket; done].
Qed.

Lemma parse_icmpv6_ok b f : inside b -> flow_ok f ->
  exists ok b' f', parse_icmpv6 b f = Ret (ok, b', f') /\ flow_ok f' /\ same_net f f'
    /\ (ok = true -> exists d, b' = with_data d b /\ (b_data b + 8 <= d <= length (b_mem b))%nat).
Proof.
  intros Hb Hf. unfold parse_icmpv6, pull_icmpv6. rewrite try_pull_spec.
  destruct (Nat.leb_spec 8 (b_size b)) as [H8|H8]; cbn [mbind outcome_bind]; [|by do 3 eexists].
  pose proof (inside_size b 8 Hb H8). pose proof (inside_pull b 8 Hb H8) as Hb1. pose proof Hb as [Hm _]. loads.
  set (f1 := with_tp_dst _ _). assert (flow_ok f1) as Hf1 by (unfold f1; auto 8 with cpacket lia).
  assert (same_net f f1) as Hn1 by (by destruct f). set (b1 := with_data _ _) in *.
  destruct (_ && _); cycle 1.
  { do 3 eexists. split; [done|]. split; [done|]. split; [done|]. intros _. eexists. split; [done|]. lia. }
  rewrite try_pull_spec. destruct (Nat.leb_spec 16 (b_size b1)) as [H16|H16]; cbn [mbind outcome_bind]; [|by do 3 eexists].
  pose proof (inside_size b1 16 Hb1 H16) as Hl. cbn in Hl. rewrite load_bytes_ok by (unfold b1; cbn; lia).
  cbn [mbind outcome_bind]. edestruct (nd_options_ok) as (ok & b' & f' & E & d & Ed & Hd & Hf' & Hs); cycle 3.
  { rewrite E. do 3 eexists. split; [done|]. split; [done|]. split; [apply (same_net_trans _ f1); [done|]|].
    - revert Hs. by destruct f1.
    - intros _. exists d. cbn in Hd. split; [done|lia]. }
  - by apply inside_pull.
  - apply with_nd_target_ok; [|done]. apply sub_words; [done|unfold b1; cbn; lia].
  - done.
Qed.

(** ** IPv6 *)

Lemma with_nw_frag_net z f : same_net f (with_nw_frag z f). Proof. by destruct f. Qed.

Lemma later_width f : flow_ok f -> in_width 8 (Z.lor (nw_frag f) FLOW_NW_FRAG_LATER).
Proof. intros Hf. apply in_width_lor; [lia|apply Hf|done]. Qed.

Lemma ipv6_headers_ok fuel : forall nexthdr b f, inside b -> flow_ok f -> in_width 8 nexthdr -> (b_size b < fuel)%nat ->
  exists e nxt b' f', ipv6_headers fuel nexthdr b f = Ret (e, nxt, b', f') /\ in_width 8 nxt /\ advanced b f b' f'.
Proof.
  induction fuel as [|fuel IH]; intros nexthdr b f Hb Hf Hx Hfuel; [lia|]. cbn [ipv6_headers].
  assert (advanced b f b f) as Hrefl by by apply advanced_refl.
  destruct (negb (ipv6_is_ext nexthdr)); [by do 4 eexists|].
  destruct (Nat.ltb_spec (b_size b) 8) as [|H8]; [by do 4 eexists|].
  pose proof (inside_size b 8 Hb H8). pose proof Hb as [Hm _]. loads.
  pose proof (field_byte (b_data b + 1) (b_mem b) Hm ltac:(lia)) as Hlen.
  pose proof (field_byte (b_data b) (b_mem b) Hm ltac:(lia)) as Hnxt.
  assert (forall n g, (8 <= n <= b_size b)%nat -> flow_ok g -> same_net f g -> exists e nxt b' f',
    ipv6_headers fuel (field (b_data b) 1 (b_mem b)) (with_data (b_data b + n) b) g = Ret (e, nxt, b', f')
    /\ in_width 8 nxt /\ advanced b f b' f') as Hnext.
  { intros n g Hn Hg Hs. pose proof (inside_size b n Hb ltac:(lia)).
    destruct (IH (field (b_data b) 1 (b_mem b)) (with_data (b_data b + n) b) g) as (e & nxt & b' & f' & E & Hw & A);
      [by apply inside_pull; [|lia]|done|done|unfold b_size in *; cbn; lia|].
    do 4 eexists. split; [exact E|]. split; [done|]. apply (advanced_pull b f n g); [done|lia|done|done]. }
  destruct (nexthdr =? IPPROTO_FRAGMENT).
  - rewrite try_pull_spec, (proj2 (Nat.leb_le _ _) H8). cbn [mbind outcome_bind fst snd].
    destruct (negb _); [|by apply Hnext; [lia| |]]. destruct (_ =? 0).
    + apply Hnext; [lia|by apply with_nw_frag_ok|apply with_nw_frag_net].
    + do 4 eexists. split; [done|]. split; [done|]. apply (advanced_pull b f 8 (with_nw_frag (Z.lor (nw_frag f) FLOW_NW_FRAG_LATER) f));
        [done|lia|apply with_nw_frag_net|]. apply advanced_refl; [by apply inside_pull|].
      apply with_nw_frag_ok; [by apply later_width|done].
  - set (n := Z.to_nat _). assert (8 <= n)%nat as Hn.
    { unfold n, in_width in *. destruct (nexthdr =? IPPROTO_AH); lia. }
    rewrite try_pull_spec. destruct (Nat.leb_spec n (b_size b)); cbn [mbind outcome_bind fst snd]; [|by do 4 eexists].
    by apply Hnext.
Qed.

Lemma parse_ipv6_ok b f : inside b -> flow_ok f ->
  exists e b' f', parse_ipv6 b f = Ret (e, b', f') /\ flow_ok f' /\ dl_type f' = dl_type f
    /\ (e = 0 -> exists d, b' = with_data d b /\ (b_data b + 40 <= d <= length (b_mem b))%nat).
Proof.
  intros Hb Hf. unfold parse_ipv6. rewrite try_pull_spec.
  destruct (Nat.leb_spec 40 (b_size b)) as [H|H]; cbn [mbind outcome_bind]; [|by do 3 eexists].
  pose proof (inside_size b 40 Hb H). pose proof Hb as [Hm _]. loads. set (f1 := with_nw_proto _ _).
  assert (flow_ok f1) as Hf1.
  { unfold f1. apply with_nw_proto_ok; [done|]. apply with_nw_ttl_ok; [apply field_byte; [done|lia]|].
    apply with_ipv6_label_ok; [apply in_width_land; [apply field_word; [done|lia]|done]|].
    apply with_nw_tos_ok; [apply (wrap_bound 8); lia|]. auto 6 with cpacket lia. }
  assert (dl_type f1 = dl_type f) as Hd1 by by destruct f.
  edestruct (ipv6_headers_ok) as (e & nxt & b' & f' & E & Hw & d & -> & Hd & Hf' & Hs); cycle 4.
  { rewrite E. cbn [mbind outcome_bind]. destruct e.
    - do 3 eexists. split; [done|]. split; [done|]. split; [by rewrite (proj2 Hs)|done].
    - do 3 eexists. split; [done|]. split; [by apply with_nw_proto_ok|]. split; [rewrite <- Hd1, <- (proj2 Hs); by destruct f'|].
      intros _. exists d. cbn in Hd. split; [done|lia]. }
  - by apply inside_pull.
  - done.
  - apply field_byte; [done|lia].
  - lia.
Qed.

(** ** The network layer *)

(** The least size of the transport header. *)
Definition l4_min (f : flow) : nat := if nw_proto f =? IPPROTO_TCP then 20%nat else 8%nat.

(** The transport header: behind the header of IPv4 if the flow says so, and with its least size
    in front of the payload. *)
Definition net_ok (b : ofpbuf) (f : flow) (l3 : nat) : Prop :=
  match b_l4 b with
  | None => b_l7 b = None
  | Some l4 => (l3 + 20 <= l4 <= length (b_mem b))%nat
    /\ (dl_type f = ETH_TYPE_IP -> nw_proto f = field (l3 + 9) 1 (b_mem b)
        /\ Z.of_nat l4 = Z.of_nat l3 + IP_IHL (field l3 1 (b_mem b)) * 4)
    /\ match b_l7 b with
       | None => True
       | Some l7 => (l4 + l4_min f <= l7 <= length (b_mem b))%nat
       end
  end.

(** What holds of the header pointers after flow_extract: they are in order, behind the headers
    that the flow says are there, and inside the memory. *)
Definition headers_ok (b : ofpbuf) (f : flow) : Prop :=
  match b_l3 b with
  | None => b_l4 b = None /\ b_l7 b = None
  | Some l3 => (b_data b + l2_min b <= l3 <= length (b_mem b))%nat /\ type_ok b (dl_type f) /\ net_ok b f l3
  end.

(** The link layer is done, and [b] is behind it. *)
Record at_l3 (packet b : ofpbuf) (f : flow) : Prop := {
  al_flow : flow_ok f;
  al_mem : b_mem packet = b_mem b;
  al_bytes : bytes (b_mem b);
  al_l3 : b_l3 packet = Some (b_data b);
  al_range : (b_data packet + l2_min packet <= b_data b <= length (b_mem b))%nat;
  al_type : type_ok packet (dl_type f);
  al_l4 : b_l4 packet = None;
  al_l7 : b_l7 packet = None
}.

Lemma at_l3_inside packet b f : at_l3 packet b f -> inside b.
Proof. intros []. split; [done|lia]. Qed.

(** The result: the packet with its pointers, in the same memory. *)
Definition extracted (packet : ofpbuf) (r : outcome (ofpbuf * flow)) : Prop :=
  exists packet' f, r = Ret (packet', f) /\ flow_ok f /\ headers_ok packet' f
    /\ b_mem packet' = b_mem packet /\ b_data packet' = b_data packet /\ b_l2 packet' = b_l2 packet.

Lemma at_l3_headers packet b f g : at_l3 packet b f -> dl_type g = dl_type f -> headers_ok packet g.
Proof. intros [_ Em _ E3 Hr Ht E4 E7] E. unfold headers_ok, net_ok. by rewrite E3, E4, E7, Em, E. Qed.

Lemma at_l3_extracted packet b f : at_l3 packet b f -> extracted packet (Ret (packet, f)).
Proof. intros H. exists packet, f. split; [done|]. split; [apply H|]. split; [by apply (at_l3_headers packet b f)|done]. Qed.

(** From the transport header on, which is at [d]. *)
Lemma extracted_l4 packet b f d f1 r :
  at_l3 packet b f -> (b_data b + 20 <= d <= length (b_mem b))%nat -> dl_type f1 = dl_type f ->
  (forall g, same_net f1 g -> dl_type g = ETH_TYPE_IP -> nw_proto g = field (b_data b + 9) 1 (b_mem b)
     /\ Z.of_nat d = Z.of_nat (b_data b) + IP_IHL (field (b_data b) 1 (b_mem b)) * 4) ->
  parsed_l7 (l4_min f1) (with_l4 (Some d) packet) (with_data d b) f1 r -> extracted packet r.
Proof.
  intros [_ Em Hm E3 Hr Hty E4 E7] Hd E1 Hip (packet' & f' & -> & Hf & Hp & Ht & Hc). cbn in Hc. rewrite <- E1, <- Ht in Hty.
  pose proof (Hip f' (conj Hp Ht)) as H. unfold l4_min in Hc. rewrite <- Hp in Hc. fold (l4_min f') in Hc.
  exists packet', f'. split; [done|]. split; [done|].
  destruct Hc as [->|(l7 & -> & Hl7)]; (split; [|done]); unfold headers_ok, net_ok; cbn; rewrite E3, ?E7, Em; auto.
Qed.

Lemma extract_transport_ok packet b f : inside b -> flow_ok f -> parsed_l7 (l4_min f) packet b f (extract_transport packet b f).
Proof.
  intros Hb Hf. unfold extract_transport, l4_min. destruct (nw_proto f =? IPPROTO_TCP); [by apply parse_tcp_ok|].
  destruct (_ =? _); [by apply parse_udp_ok|]. destruct (_ =? _); [by apply parse_icmp_ok|]. by apply parsed_l7_none.
Qed.

Lemma extract_ip_ok packet b f : at_l3 packet b f -> extracted packet (extract_ip packet b f).
Proof.
  intros H. pose proof (at_l3_inside _ _ _ H) as Hb. unfold extract_ip. destruct (pull_ip_ok b Hb) as ([[p b']|] & -> & Hp);
    cbn [mbind outcome_bind]; [|by apply (at_l3_extracted packet b)].
  destruct Hp as (-> & n & Hn & -> & En). pose proof (inside_size b n Hb ltac:(lia)) as Hl. pose proof Hb as [Hm _]. loads.
  set (later := negb _). set (f1 := with_nw_tos _ _). assert (flow_ok f1) as Hf1.
  { unfold f1. pose proof (al_flow _ _ _ H). auto 8 with cpacket lia. }
  set (f2 := with_nw_ttl _ _). assert (flow_ok f2) as Hf2.
  { unfold f2. apply with_nw_ttl_ok; [apply field_byte; [done|lia]|]. case_match; [|done].
    apply with_nw_frag_ok; [by destruct later|done]. }
  apply (extracted_l4 packet b f (b_data b + n) f2); [done|lia| | |].
  - unfold f2, f1. case_match; by destruct f.
  - intros g [Eg _] _. split; [|lia]. rewrite Eg. unfold f2, f1. case_match; by destruct f.
  - lsimp. destruct later; [by apply parsed_l7_none|]. apply extract_transport_ok; [by apply inside_pull; [|lia]|done].
Qed.

Lemma extract_transport6_ok packet b f : inside b -> flow_ok f ->
  parsed_l7 (l4_min f) packet b f
    (if nw_proto f =? IPPROTO_TCP then parse_tcp packet b f
     else if nw_proto f =? IPPROTO_UDP then parse_udp packet b f
     else if nw_proto f =? IPPROTO_ICMPV6 then
       r ← parse_icmpv6 b f;
       let '(ok, b, f) := r in
       Ret (if (ok : bool) then with_l7 (Some (b_data b)) packet else packet, f)
     else Ret (packet, f)).
Proof.
  intros Hb Hf. unfold l4_min. destruct (nw_proto f =? IPPROTO_TCP); [by apply parse_tcp_ok|].
  destruct (_ =? _); [by apply parse_udp_ok|]. destruct (_ =? _); [|by apply parsed_l7_none].
  destruct (parse_icmpv6_ok b f Hb Hf) as (ok & b2 & f2 & -> & Hf2 & [Hs1 Hs2] & Hok). cbn [mbind outcome_bind].
  do 2 eexists. split; [done|]. split; [done|]. split; [done|]. split; [done|]. destruct ok; [right|by left].
  destruct (Hok eq_refl) as (d2 & -> & Hd2). by eexists.
Qed.

Lemma extract_ipv6_ok packet b f : at_l3 packet b f -> dl_type f = ETH_TYPE_IPV6 -> extracted packet (extract_ipv6 packet b f).
Proof.
  intros H Ht. pose proof (at_l3_inside _ _ _ H) as Hb. unfold extract_ipv6.
  destruct (parse_ipv6_ok b f Hb (al_flow _ _ _ H)) as (e & b' & f' & -> & Hf & Et & He). cbn [mbind outcome_bind].
  destruct (Z.eqb_spec e 0) as [E|E]; cbn [negb].
  - destruct (He E) as (d & -> & Hd). apply (extracted_l4 packet b f d f'); [done|lia|done| |].
    + intros g [_ Eg] Eip. rewrite Eg, Et, Ht in Eip. done.
    + apply extract_transport6_ok; [split; [apply Hb|cbn; lia]|done].
  - exists packet, f'. split; [done|]. split; [done|]. split; [by apply (at_l3_headers packet b f)|done].
Qed.

Lemma extract_arp_ok packet b f : at_l3 packet b f -> extracted packet (extract_arp packet b f).
Proof.
  intros H. pose proof (at_l3_inside _ _ _ H) as Hb. unfold extract_arp, pull_arp. rewrite try_pull_spec.
  destruct (Nat.leb_spec 28 (b_size b)) as [H28|H28]; cbn [mbind outcome_bind]; [|by apply (at_l3_extracted packet b)].
  pose proof (inside_size b 28 Hb H28). pose proof Hb as [Hm _]. loads.
  destruct (_ && _); [|by apply (at_l3_extracted packet b)].
  assert (forall g, flow_ok g -> dl_type g = dl_type f -> extracted packet (Ret (packet, g))) as Hdone.
  { intros g Hg Et. exists packet, g. split; [done|]. split; [done|]. split; [by apply (at_l3_headers packet b f)|done]. }
  set (op := field (b_data b + 6) 2 (b_mem b)). set (f1 := if _ <=? _ then _ else _). assert (flow_ok f1) as Hf1.
  { unfold f1. pose proof (al_flow _ _ _ H). destruct (Z.leb_spec op 255); [|done]. apply with_nw_proto_ok; [|done].
    pose proof (field_half (b_data b + 6) (b_mem b) Hm ltac:(lia)) as Hop. unfold in_width in *. fold op in Hop. lia. }
  assert (dl_type f1 = dl_type f) as Et1 by (unfold f1; case_match; by destruct f).
  destruct (_ || _); apply Hdone; [|rewrite <- Et1; by destruct f1|done|done]. auto 8 with cpacket lia.
Qed.

(** The pointers before anything is parsed. *)
Definition unparsed (packet : ofpbuf) : ofpbuf := with_l7 None (with_l4 None (with_l3 None (with_l2 (Some (b_data packet)) packet))).

Lemma flow_extract_ok packet skb_priority tun_id ofp_in_port :
  inside packet -> in_width 32 skb_priority -> in_width 64 tun_id -> in_width 16 ofp_in_port ->
  extracted (unparsed packet) (flow_extract packet skb_priority tun_id ofp_in_port).
Proof.
  intros Hb H1 H2 H3. unfold flow_extract. set (f0 := with_skb_priority _ _).
  assert (flow_ok f0) as Hf0 by (unfold f0; pose proof flow_zero_ok; auto with cpacket). fold (unparsed packet).
  destruct (Nat.ltb_spec (b_size packet) 14) as [|H14]; [by exists (unparsed packet), f0|].
  destruct (extract_link_ok packet f0 Hb H14 Hf0) as (d & f & -> & Hf & Hd & Hty). cbn [mbind outcome_bind].
  change (b_data (with_data d packet)) with d. set (packet2 := with_l3 (Some d) (unparsed packet)).
  assert (at_l3 packet2 (with_data d packet) f) as H.
  { split; [done|done|apply Hb|done|done|done|done|done]. }
  assert (forall r, extracted packet2 r -> extracted (unparsed packet) r) as Hdone by done. apply Hdone.
  destruct (_ =? ETH_TYPE_IP); [by apply extract_ip_ok|].
  destruct (Z.eqb_spec (dl_type f) ETH_TYPE_IPV6); [by apply extract_ipv6_ok|].
  destruct (_ =? ETH_TYPE_ARP); [by apply extract_arp_ok|]. by apply (at_l3_extracted _ (with_data d packet)).
Qed.

(** ** Properties *)

(** C21: flow_extract is safe and ends on any packet.  Whatever the bytes, it reads only inside the
    packet, fails no assertion and comes to the end of its loops; the packet keeps its bytes, the
    flow is well-formed, its type is that of the frame, and the header pointers are in the order
    of the layers, inside the packet, each behind a complete header of the layer before it: 14
    bytes for Ethernet or 18 with a VLAN tag, what the length field of an IPv4 header says, 20
    bytes for TCP and 8 for UDP and ICMP. *)
Theorem flow_extract_safe packet skb_priority tun_id ofp_in_port :
  inside packet -> in_width 32 skb_priority -> in_width 64 tun_id -> in_width 16 ofp_in_port ->
  exists packet' f, flow_extract packet skb_priority tun_id ofp_in_port = Ret (packet', f)
    /\ flow_ok f /\ headers_ok packet' f
    /\ b_mem packet' = b_mem packet /\ b_data packet' = b_data packet /\ b_l2 packet' = Some (b_data packet).
Proof. intros Hb H1 H2 H3. by apply flow_extract_ok. Qed.

(** A frame with a VLAN tag and a header of IPv6 that promises options which are not there. *)
Definition short_packet : ofpbuf :=
  MkBuf (replicate 12 2 ++ [0x81; 0; 0; 7; 0x86; 0xdd] ++ [0x60; 0; 0; 0; 0; 0; 0; 64] ++ replicate 32 9 ++ [6; 3; 0; 0; 0; 0; 0; 0])
    0 None None None None.

Lemma flow_extract_safe_witness :
  exists packet' f, flow_extract short_packet 0 0 1 = Ret (packet', f)
    /\ flow_ok f /\ headers_ok packet' f
    /\ b_mem packet' = b_mem short_packet /\ b_data packet' = b_data short_packet /\ b_l2 packet' = Some (b_data short_packet).
Proof.
  apply (flow_extract_safe short_packet 0 0 1); [|done|done|done]. split; [|cbn; lia]. repeat constructor; lia.
Defined.

(** A later fragment of IPv6, at offset 8. *)
Definition later_fragment : ofpbuf :=
  MkBuf (replicate 12 2 ++ [0x86; 0xdd] ++ [0x60; 0; 0; 0; 0; 8; 44; 64] ++ replicate 32 9 ++ [6; 0; 0; 8; 0; 0; 0; 1])
    0 None None None None.

(** It does not count as a fragment. *)
Lemma ipv6_later_not_any :
  match flow_extract later_fragment 0 0 1 with
  | Ret (_, f) => has (nw_frag f) FLOW_NW_FRAG_LATER = true /\ has (nw_frag f) FLOW_NW_FRAG_ANY = false
  | Stuck _ => False
  end.
Proof. vm_compute. done. Qed.
