(* ===== verification/Compose.v ===== *)
(** * Packets: composing (flow_compose of lib/flow.c)

    flow_compose builds a packet for a flow, and flow_extract finds the flow in it again, if the
    flow is one that a packet can have.  The packet is given as a list, layer by layer. *)
From S2P Require Import Prelude Hash Hmap Flow ClsRule Packet Csum Extract.

Local Open Scope Z_scope.

(** ** Parts of a list *)

Lemma splice_app pre l k bs : splice (length pre + k) bs (pre ++ l) = pre ++ splice k bs l.
Proof.
  unfold splice. rewrite take_app_add, <- Nat.add_assoc, drop_app_add. by rewrite <- app_assoc.
Qed.

Lemma load_bytes_at pre l b k n : b_mem b = pre ++ l -> (k + n <= length l)%nat ->
  load_bytes (length pre + k) n b = Ret (sub k n l).
Proof. intros E H. rewrite load_bytes_ok; [by rewrite E, sub_app|]. rewrite E, length_app. lia. Qed.

Lemma load_at pre l b k n : b_mem b = pre ++ l -> (k + n <= length l)%nat -> load (length pre + k) n b = Ret (field k n l).
Proof. intros E H. unfold load. by rewrite (load_bytes_at pre l). Qed.

Lemma store_at pre l b k bs : b_mem b = pre ++ l -> (k + length bs <= length l)%nat ->
  store (length pre + k) bs b = Ret (with_mem (pre ++ splice k bs l) b).
Proof.
  intros E H. unfold store. rewrite (proj2 (Nat.leb_le _ _)), E, splice_app; [done|]. rewrite E, length_app. lia.
Qed.

(** ** The layers *)

Definition link (f : flow) : list Z :=
  dl_dst f ++ dl_src f
  ++ (if has (vlan_tci f) VLAN_CFI
      then be_bytes 2 ETH_TYPE_VLAN ++ be_bytes 2 (Z.land (vlan_tci f) (u16 (Z.lnot VLAN_CFI))) else [])
  ++ be_bytes 2 (dl_type f).

Definition frag_field (f : flow) : Z :=
  if has (nw_frag f) FLOW_NW_FRAG_ANY then
    if has (nw_frag f) FLOW_NW_FRAG_LATER then Z.lor IP_MORE_FRAGMENTS 100 else IP_MORE_FRAGMENTS
  else 0.

Definition ip_payload (f : flow) : list Z := b_mem (compose_ip_payload f (MkBuf [] 0 None None None None)).

Definition ip_header (f : flow) : list Z :=
  fields (ip_fields (nw_tos f) (Z.of_nat (20 + length (ip_payload f))) (frag_field f) (nw_proto f) (nw_src f) (nw_dst f)).

Definition ip_packet (f : flow) : list Z := with_csum 10 (ip_header f) ++ ip_payload f.

Lemma words6 l : words 6 8 l -> exists a b c d e f, l = [a; b; c; d; e; f].
Proof. intros [H _]. do 6 (destruct l as [|? l]; [done|]). destruct l; [|done]. by do 6 eexists. Qed.

Lemma length_ip_packet f : length (ip_packet f) = (20 + length (ip_payload f))%nat.
Proof. done. Qed.

Lemma compose_link_ok f b : flow_ok f ->
  exists pre b1, (let b := eth_compose (dl_dst f) (dl_src f) (dl_type f) b in
                  if has (vlan_tci f) VLAN_CFI then eth_push_vlan (vlan_tci f) b else Ret b) = Ret b1
    /\ b_mem b1 = pre ++ link f /\ b_data b1 = length pre.
Proof.
  intros Hf. unfold link. destruct (words6 _ (fo_dl_dst f Hf)) as (a & a1 & a2 & a3 & a4 & a5 & ->).
  destruct (words6 _ (fo_dl_src f Hf)) as (c & c1 & c2 & c3 & c4 & c5 & ->). destruct (has _ _).
  - exists []. by eexists.
  - exists (replicate 4 0). by eexists.
Qed.

(** The payload does not depend on what is before it. *)
Lemma compose_ip_payload_mem f b : exists l4,
  compose_ip_payload f b = with_l4 l4 (ofpbuf_put (ip_payload f) b).
Proof.
  assert (forall b, ofpbuf_put [] b = b) as Hput by (intros []; unfold ofpbuf_put, with_mem; cbn; by rewrite app_nil_r).
  assert (forall b, with_l4 (b_l4 b) b = b) as Hl4 by by intros [].
  unfold ip_payload, compose_ip_payload. destruct (_ && _); [exists (b_l4 b); by rewrite Hput, Hl4|].
  do 3 (destruct (_ =? _); [by eexists|]). exists (b_l4 b). by rewrite Hput, Hl4.
Qed.

Lemma compose_ip_ok f b : exists b1, compose_ip f b = Ret b1 /\ b_mem b1 = b_mem b ++ ip_packet f /\ b_data b1 = b_data b.
Proof.
  unfold compose_ip. fold (frag_field f). set (b1 := with_l3 _ _). destruct (compose_ip_payload_mem f b1) as (l4 & ->).
  set (m := b_mem b). set (h0 := fields (ip_fields (nw_tos f) 0 (frag_field f) (nw_proto f) (nw_src f) (nw_dst f))).
  assert (b_mem (with_l4 l4 (ofpbuf_put (ip_payload f) b1)) = m ++ h0 ++ ip_payload f) as E by (cbn; by rewrite <- app_assoc).
  rewrite (store_at m (h0 ++ ip_payload f)); [|exact E|cbn; lia]. cbn [mbind outcome_bind].
  rewrite E, !length_app. replace (length m + (length h0 + length (ip_payload f)) - length m)%nat
    with (20 + length (ip_payload f))%nat by (cbn; lia).
  set (b2 := with_mem _ _). assert (b_mem b2 = m ++ ip_header f ++ ip_payload f) as E2 by done.
  pose proof (load_bytes_at m (ip_header f ++ ip_payload f) b2 0 20 E2 ltac:(cbn; lia)) as L. rewrite Nat.add_0_r in L.
  rewrite L.
  cbn [mbind outcome_bind]. rewrite (store_at m (ip_header f ++ ip_payload f)); [|exact E2|cbn; lia]. by eexists.
Qed.

(** ** Flows that packets can have *)

Definition no_net (f : flow) : Prop := nw_src f = 0 /\ nw_dst f = 0 /\ nw_proto f = 0 /\ nw_tos f = 0 /\ nw_frag f = 0.
Definition no_ports (f : flow) : Prop := tp_src f = 0 /\ tp_dst f = 0.
Definition no_arp (f : flow) : Prop := arp_sha f = replicate 6 0 /\ arp_tha f = replicate 6 0.

(** The ports of a later fragment, and of an ICMP or other packet. *)
Definition ports_ok (f : flow) : Prop :=
  if has (nw_frag f) FLOW_NW_FRAG_LATER then no_ports f
  else if nw_proto f =? IPPROTO_TCP then True
  else if nw_proto f =? IPPROTO_UDP then True
  else if nw_proto f =? IPPROTO_ICMP then tp_src f < 256 /\ tp_dst f < 256
  else no_ports f.

(** By type: what flow_compose makes a packet of. *)
Inductive composable_net (f : flow) : Prop :=
| co_none : dl_type f = FLOW_DL_TYPE_NONE -> vlan_tci f = 0 -> no_net f -> no_ports f -> no_arp f -> composable_net f
| co_ip : dl_type f = ETH_TYPE_IP -> nw_frag f ∈ [0; 1; 3] -> ports_ok f -> no_arp f -> composable_net f
| co_arp : dl_type f = ETH_TYPE_ARP -> nw_proto f ∈ [1; 2] -> nw_tos f = 0 -> nw_frag f = 0 -> no_ports f -> composable_net f
| co_arp_other : dl_type f = ETH_TYPE_ARP -> nw_proto f ∉ [1; 2] -> nw_src f = 0 -> nw_dst f = 0 -> nw_tos f = 0 ->
    nw_frag f = 0 -> no_ports f -> no_arp f -> composable_net f
| co_other : ETH_TYPE_MIN <= dl_type f -> dl_type f ∉ [ETH_TYPE_IP; ETH_TYPE_ARP; ETH_TYPE_VLAN] ->
    no_net f -> no_ports f -> no_arp f -> composable_net f.

Record composable (f : flow) : Prop := {
  co_ok : flow_ok f;
  co_vlan : vlan_tci f = 0 \/ has (vlan_tci f) VLAN_CFI = true;
  co_metadata : metadata f = 0;
  co_regs : regs f = replicate 8 0;
  co_ipv6 : ipv6_src f = replicate 16 0 /\ ipv6_dst f = replicate 16 0 /\ nd_target f = replicate 16 0 /\ ipv6_label f = 0;
  co_ttl : nw_ttl f = 0;
  co_net : composable_net f
}.

(** The flow as it is known behind the link layer. *)
Definition link_flow (f : flow) : flow :=
  with_dl_type (dl_type f) (with_vlan_tci (vlan_tci f) (with_dl_dst (dl_dst f) (with_dl_src (dl_src f)
    (with_skb_priority (skb_priority f) (with_in_port (in_port f) (with_tun_id (tun_id f) flow_zero)))))).

Ltac flow_eq := match goal with f : flow |- _ => destruct f; cbn in *; unfold link_flow; cbn; by subst end.

Lemma vlan_cfi_or z : in_width 16 z -> has z VLAN_CFI = true -> Z.lor (Z.land z (u16 (Z.lnot VLAN_CFI))) VLAN_CFI = z.
Proof.
  intros Hz Hc. apply Z.bits_inj'. intros i Hi. rewrite Z.lor_spec, Z.land_spec.
  change (u16 (Z.lnot VLAN_CFI)) with (Z.lxor (Z.ones 16) (2 ^ 12)). change VLAN_CFI with (2 ^ 12) in *.
  rewrite Z.lxor_spec, Z.testbit_ones_nonneg, Z.pow2_bits_eqb by lia. destruct (Z.eqb_spec 12 i) as [<-|].
  - rewrite orb_true_r. unfold has in Hc. symmetry. apply negb_true_iff, Z.eqb_neq in Hc.
    destruct (Z.testbit z 12) eqn:E; [done|]. exfalso. apply Hc. apply Z.bits_inj'. intros j Hj.
    rewrite Z.land_spec, Z.pow2_bits_eqb, Z.bits_0 by lia. destruct (Z.eqb_spec 12 j) as [<-|]; [by rewrite E|by rewrite andb_false_r].
  - rewrite xorb_false_r, orb_false_r. destruct (Z.ltb_spec i 16); [by rewrite andb_true_r|].
    rewrite andb_false_r. symmetry. by apply (in_width_high 16).
Qed.

Lemma link_fields f pl : flow_ok f -> let eth := link f ++ pl in
  sub 0 6 eth = dl_dst f /\ sub 6 6 eth = dl_src f
  /\ (if has (vlan_tci f) VLAN_CFI then
         field 12 2 eth = ETH_TYPE_VLAN /\ field 14 2 eth = Z.land (vlan_tci f) (u16 (Z.lnot VLAN_CFI))
         /\ field 16 2 eth = dl_type f
       else field 12 2 eth = dl_type f)
  /\ length (link f) = (if has (vlan_tci f) VLAN_CFI then 18 else 14)%nat.
Proof.
  intros Hf eth. unfold eth, link. destruct (words6 _ (fo_dl_dst f Hf)) as (a & a1 & a2 & a3 & a4 & a5 & ->).
  destruct (words6 _ (fo_dl_src f Hf)) as (c & c1 & c2 & c3 & c4 & c5 & ->). split; [done|]. split; [done|].
  pose proof (be_value_bytes_small 2 _ (fo_dl_type f Hf)) as Ht.
  destruct (has _ _); (split; [|done]); [|exact Ht]. split; [done|]. split; [|exact Ht].
  refine (be_value_bytes_small 2 _ _). apply (in_width_land 16); [apply Hf|done].
Qed.

(** Loads from a part of the memory. *)
Lemma load_bytes_in pre l b k k' n : b_mem b = pre ++ l -> k' = (length pre + k)%nat -> (k + n <= length l)%nat ->
  load_bytes k' n b = Ret (sub k n l).
Proof. intros E -> H. by apply load_bytes_at. Qed.

Lemma load_in pre l b k k' n : b_mem b = pre ++ l -> k' = (length pre + k)%nat -> (k + n <= length l)%nat ->
  load k' n b = Ret (field k n l).
Proof. intros E -> H. by apply load_at. Qed.

Lemma extract_link_compose f b pre pl :
  flow_ok f -> vlan_tci f = 0 \/ has (vlan_tci f) VLAN_CFI = true -> ETH_TYPE_MIN <= dl_type f -> dl_type f <> ETH_TYPE_VLAN ->
  b_mem b = pre ++ link f ++ pl -> b_data b = length pre ->
  extract_link b (with_skb_priority (skb_priority f) (with_in_port (in_port f) (with_tun_id (tun_id f) flow_zero)))
  = Ret (with_data (length pre + length (link f)) b, link_flow f).
Proof.
  intros Hf Hv Hmin Hn E Ed. destruct (link_fields f pl Hf) as (E1 & E2 & E3 & E4). set (eth := link f ++ pl) in *.
  assert (14 <= length (link f))%nat as H14 by (destruct (has _ _) in E4; lia).
  assert (length eth = (length (link f) + length pl)%nat) as El by apply length_app.
  assert (length (b_mem b) = (length pre + length eth)%nat) as Eb by (rewrite E; apply length_app).
  assert (forall d, (d + 2 <= length eth)%nat -> field d 2 eth = dl_type f ->
    parse_ethertype (with_data (length pre + d) b) = Ret (dl_type f, with_data (length pre + (d + 2)) b)) as Htype.
  { intros d Hd Et. unfold parse_ethertype. rewrite pull_ok by (unfold b_size; cbn; lia). cbn [mbind outcome_bind fst snd].
    rewrite (load_in pre eth _ d) by done || lia. cbn [mbind outcome_bind]. rewrite Et, (proj2 (Z.leb_le _ _) Hmin).
    by rewrite Nat.add_assoc. }
  unfold extract_link. rewrite (load_bytes_in pre eth b 6 (b_data b + 6)), (load_bytes_in pre eth b 0 (b_data b)) by (done || lia).
  rewrite (load_in pre eth b 12 (b_data b + 12)) by (done || lia). cbn [mbind outcome_bind].
  rewrite pull_ok by (unfold b_size; lia). cbn [mbind outcome_bind fst snd]. rewrite E1, E2, Ed.
  destruct (has (vlan_tci f) VLAN_CFI) eqn:Ec.
  - destruct E3 as (E3 & E5 & E6). rewrite E3. cbn [Z.eqb]. change (ETH_TYPE_VLAN =? ETH_TYPE_VLAN) with true. cbn match.
    unfold parse_vlan. rewrite (proj2 (Nat.leb_le _ _)) by (unfold b_size; cbn; lia).
    rewrite pull_ok by (unfold b_size; cbn; lia). cbn [mbind outcome_bind fst snd].
    rewrite (load_in pre eth _ 14) by (done || cbn; lia). cbn [mbind outcome_bind fst snd].
    change (with_data (b_data (with_data (length pre + 12) b) + 4) (with_data (length pre + 12) b))
      with (with_data (length pre + 12 + 4) b). 
    replace (length pre + 12 + 4)%nat with (length pre + 16)%nat by lia. rewrite (Htype 16%nat) by (done || lia).
    cbn [mbind outcome_bind fst snd]. rewrite E4, E5. do 2 f_equal. unfold link_flow.
    by rewrite vlan_cfi_or by (done || apply Hf).
  - rewrite E3, (proj2 (Z.eqb_neq _ _)) by done. cbn [mbind outcome_bind fst snd].
    rewrite Htype by (done || lia). cbn [mbind outcome_bind fst snd]. rewrite E4. do 2 f_equal. unfold link_flow.
    destruct Hv as [Hv|]; [|done]. by rewrite Hv.
Qed.

(** ** The network and transport layers *)

Lemma flow_rebuild f : composable f ->
  MkFlow (tun_id f) 0 (replicate 16 0) (replicate 16 0) (replicate 16 0) (skb_priority f) (replicate 8 0) (nw_src f) (nw_dst f) 0
    (in_port f) (vlan_tci f) (dl_type f) (tp_src f) (tp_dst f) (dl_src f) (dl_dst f) (nw_proto f) (nw_tos f)
    (arp_sha f) (arp_tha f) 0 (nw_frag f) = f.
Proof.
  intros [_ _ H1 H2 (H3 & H4 & H5 & H6) H7 _]. destruct f; cbn in *. by subst.
Qed.

Ltac rebuild f := etransitivity; [|by apply (flow_rebuild f)]; unfold link_flow, flow_zero; cbn; f_equal.

Lemma ip_packet_fields f : flow_ok f -> in_width 16 (frag_field f) -> let ip := ip_packet f in
  field 0 1 ip = 0x45 /\ field 1 1 ip = nw_tos f /\ field 6 2 ip = frag_field f /\ field 8 1 ip = 0
  /\ field 9 1 ip = nw_proto f /\ field 12 4 ip = nw_src f /\ field 16 4 ip = nw_dst f.
Proof.
  intros Hf Hg ip. split; [done|]. split; [exact (be_value_bytes_small 1 _ (fo_nw_tos f Hf))|].
  split; [exact (be_value_bytes_small 2 _ Hg)|]. split; [done|].
  split; [exact (be_value_bytes_small 1 _ (fo_nw_proto f Hf))|].
  split; [exact (be_value_bytes_small 4 _ (fo_nw_src f Hf))|exact (be_value_bytes_small 4 _ (fo_nw_dst f Hf))].
Qed.

Lemma parse_tcp_compose packet b g pre s t : in_width 16 s -> in_width 16 t ->
  b_mem b = pre ++ fields (tcp_fields s t) -> b_data b = length pre ->
  exists packet', parse_tcp packet b g = Ret (packet', with_tp_dst t (with_tp_src s g)).
Proof.
  intros Hs Ht E Ed. set (tcp := fields _) in *. assert (length tcp = 20%nat) as El by done.
  assert (length (b_mem b) = (length pre + 20)%nat) as Eb by (by rewrite E, length_app, El).
  unfold parse_tcp, pull_tcp. rewrite (proj2 (Nat.leb_le _ _)) by (unfold b_size; lia).
  rewrite (load_in pre tcp b 12 (b_data b + 12)) by (done || lia). change (field 12 2 tcp) with 0x5000. cbn [mbind outcome_bind].
  change (Z.to_nat (TCP_OFFSET 0x5000 * 4)) with 20%nat. rewrite (proj2 (Nat.leb_le 20 (b_size b))) by (unfold b_size; lia).
  change (20 <=? 20)%nat with true. cbn [andb]. rewrite pull_ok by (unfold b_size; lia). cbn [mbind outcome_bind].
  rewrite (load_in pre tcp b 0 (b_data b)), (load_in pre tcp b 2 (b_data b + 2)) by (done || lia). cbn [mbind outcome_bind].
  eexists. do 2 f_equal. exact (f_equal2 (fun x y => with_tp_dst y (with_tp_src x g)) (be_value_bytes_small 2 s Hs) (be_value_bytes_small 2 t Ht)).
Qed.

Lemma parse_udp_compose packet b g pre s t : in_width 16 s -> in_width 16 t ->
  b_mem b = pre ++ fields (udp_fields s t) -> b_data b = length pre ->
  exists packet', parse_udp packet b g = Ret (packet', with_tp_dst t (with_tp_src s g)).
Proof.
  intros Hs Ht E Ed. set (udp := fields _) in *. assert (length udp = 8%nat) as El by done.
  assert (length (b_mem b) = (length pre + 8)%nat) as Eb by (by rewrite E, length_app, El).
  unfold parse_udp, pull_udp. rewrite try_pull_spec, (proj2 (Nat.leb_le _ _)) by (unfold b_size; lia). cbn [mbind outcome_bind].
  rewrite (load_in pre udp b 0 (b_data b)), (load_in pre udp b 2 (b_data b + 2)) by (done || lia). cbn [mbind outcome_bind].
  eexists. do 2 f_equal. exact (f_equal2 (fun x y => with_tp_dst y (with_tp_src x g)) (be_value_bytes_small 2 s Hs) (be_value_bytes_small 2 t Ht)).
Qed.

Lemma parse_icmp_compose packet b g pre s t : in_width 8 s -> in_width 8 t ->
  b_mem b = pre ++ with_csum 2 (fields (icmp_fields s t)) -> b_data b = length pre ->
  exists packet', parse_icmp packet b g = Ret (packet', with_tp_dst t (with_tp_src s g)).
Proof.
  intros Hs Ht E Ed. unfold icmp_fields in E. rewrite !wrap_small in E by done. set (icmp := with_csum _ _) in *.
  assert (length icmp = 8%nat) as El by done.
  assert (length (b_mem b) = (length pre + 8)%nat) as Eb by (by rewrite E, length_app, El).
  unfold parse_icmp, pull_icmp. rewrite try_pull_spec, (proj2 (Nat.leb_le _ _)) by (unfold b_size; lia). cbn [mbind outcome_bind].
  rewrite (load_in pre icmp b 0 (b_data b)), (load_in pre icmp b 1 (b_data b + 1)) by (done || lia). cbn [mbind outcome_bind].
  eexists. do 2 f_equal. exact (f_equal2 (fun x y => with_tp_dst y (with_tp_src x g)) (be_value_bytes_small 1 s Hs) (be_value_bytes_small 1 t Ht)).
Qed.

Lemma extract_transport_compose packet b g pre f :
  flow_ok f -> has (nw_frag f) FLOW_NW_FRAG_LATER = false -> ports_ok f ->
  nw_proto g = nw_proto f -> tp_src g = 0 -> tp_dst g = 0 ->
  b_mem b = pre ++ ip_payload f -> b_data b = length pre ->
  exists packet', extract_transport packet b g = Ret (packet', with_tp_dst (tp_dst f) (with_tp_src (tp_src f) g)).
Proof.
  intros Hf Hl Hp Eg Es Et E Ed. unfold extract_transport, ports_ok, ip_payload, compose_ip_payload in *.
  rewrite Hl in *. rewrite andb_false_r in E. rewrite Eg.
  destruct (nw_proto f =? IPPROTO_TCP); [apply (parse_tcp_compose _ _ _ pre); [apply Hf|apply Hf|exact E|done]|].
  destruct (nw_proto f =? IPPROTO_UDP); [apply (parse_udp_compose _ _ _ pre); [apply Hf|apply Hf|exact E|done]|].
  destruct (nw_proto f =? IPPROTO_ICMP).
  - destruct (fo_tp_src f Hf), (fo_tp_dst f Hf). apply (parse_icmp_compose _ _ _ pre); unfold in_width; [lia|lia|exact E|done].
  - destruct Hp as [-> ->]. exists packet. do 2 f_equal. destruct g. cbn in *. by subst.
Qed.

Lemma frag_field_cases f : nw_frag f ∈ [0; 1; 3] ->
  (nw_frag f = 0 /\ frag_field f = 0) \/ (nw_frag f = 1 /\ frag_field f = 0x2000) \/ (nw_frag f = 3 /\ frag_field f = 0x2064).
Proof.
  unfold frag_field. rewrite !elem_of_cons, elem_of_nil.
  intros [E|[E|[E|[]]]]; rewrite E; [left|right; left|right; right]; done.
Qed.

Lemma extract_ip_compose packet b pre f :
  composable f -> nw_frag f ∈ [0; 1; 3] -> ports_ok f -> no_arp f ->
  b_mem b = pre ++ ip_packet f -> b_data b = length pre ->
  exists packet', extract_ip packet b (link_flow f) = Ret (packet', f).
Proof.
  intros Hc Hfr Hp [Ha1 Ha2] E Ed. pose proof (co_ok f Hc) as Hf. pose proof (frag_field_cases f Hfr) as Hcase.
  assert (in_width 16 (frag_field f)) as Hw by (unfold in_width; destruct Hcase as [[_ ->]|[[_ ->]|[_ ->]]]; lia).
  destruct (ip_packet_fields f Hf Hw) as (E0 & E1 & E6 & E8 & E9 & E12 & E16). set (ip := ip_packet f) in *.
  assert (length ip = (20 + length (ip_payload f))%nat) as El by done.
  assert (length (b_mem b) = (length pre + length ip)%nat) as Eb by (by rewrite E, length_app).
  unfold extract_ip, pull_ip. rewrite (proj2 (Nat.leb_le _ _)) by (unfold b_size; lia).
  rewrite (load_in pre ip b 0 (b_data b)) by (done || lia). rewrite E0. cbn [mbind outcome_bind].
  change (Z.to_nat (IP_IHL 0x45 * 4)) with 20%nat. change (20 <=? 20)%nat with true.
  rewrite (proj2 (Nat.leb_le 20 (b_size b))) by (unfold b_size; lia). cbn [andb].
  rewrite pull_ok by (unfold b_size; lia). cbn [mbind outcome_bind].
  rewrite (load_in pre ip b 12 (b_data b + 12)), (load_in pre ip b 16 (b_data b + 16)), (load_in pre ip b 9 (b_data b + 9)),
    (load_in pre ip b 1 (b_data b + 1)), (load_in pre ip b 6 (b_data b + 6)), (load_in pre ip b 8 (b_data b + 8)) by (done || lia).
  rewrite E1, E6, E8, E9, E12, E16. cbn [mbind outcome_bind].
  assert (b_mem b = (pre ++ with_csum 10 (ip_header f)) ++ ip_payload f) as E' by (rewrite E; by rewrite <- app_assoc).
  assert (b_data b + 20 = length (pre ++ with_csum 10 (ip_header f)))%nat as Ed' by (rewrite length_app, Ed; done).
  destruct Hcase as [[Efr Ec]|[[Efr Ec]|[Efr Ec]]]; rewrite Ec; cbn [Z.land Z.eqb negb].
  1,2: match goal with |- context [extract_transport ?p ?b' ?g] => 
    destruct (extract_transport_compose p b' g (pre ++ with_csum 10 (ip_header f)) f) as (packet' & Et) end;
    [done|by rewrite Efr|done|done|done|done|exact E'|exact Ed'|];
    exists packet'; etransitivity; [exact Et|]; do 2 f_equal; rebuild f; by rewrite ?Ha1, ?Ha2, ?Efr.
  - eexists. do 2 f_equal. unfold ports_ok in Hp. rewrite Efr in Hp. destruct Hp as [Hp1 Hp2].
    rebuild f; by rewrite ?Ha1, ?Ha2, ?Efr, ?Hp1, ?Hp2.
Qed.

Definition arp_packet (f : flow) : list Z :=
  if (nw_proto f =? ARP_OP_REQUEST) || (nw_proto f =? ARP_OP_REPLY)
  then arp_fields (nw_proto f) (arp_sha f) (nw_src f) (arp_tha f) (nw_dst f)
  else arp_fields (nw_proto f) (replicate 6 0) 0 (replicate 6 0) 0.

Lemma arp_fields_ok op sha spa tha tpa :
  in_width 16 op -> in_width 32 spa -> in_width 32 tpa -> words 6 8 sha -> words 6 8 tha ->
  let arp := arp_fields op sha spa tha tpa in
  length arp = 28%nat /\ field 0 2 arp = 1 /\ field 2 2 arp = ETH_TYPE_IP /\ field 4 1 arp = 6 /\ field 5 1 arp = 4
  /\ field 6 2 arp = op /\ sub 8 6 arp = sha /\ field 14 4 arp = spa /\ sub 18 6 arp = tha /\ field 24 4 arp = tpa.
Proof.
  intros Hop Hs Ht Hsha Htha arp. unfold arp. destruct (words6 sha Hsha) as (a & a1 & a2 & a3 & a4 & a5 & ->).
  destruct (words6 tha Htha) as (c & c1 & c2 & c3 & c4 & c5 & ->).
  do 5 (split; [done|]). split; [exact (be_value_bytes_small 2 op Hop)|]. split; [done|].
  split; [exact (be_value_bytes_small 4 spa Hs)|]. split; [done|exact (be_value_bytes_small 4 tpa Ht)].
Qed.

Lemma extract_arp_compose packet b pre f :
  composable f -> nw_tos f = 0 -> nw_frag f = 0 -> no_ports f ->
  (nw_proto f ∉ [1; 2] -> nw_src f = 0 /\ nw_dst f = 0 /\ no_arp f) ->
  b_mem b = pre ++ arp_packet f -> b_data b = length pre ->
  extract_arp packet b (link_flow f) = Ret (packet, f).
Proof.
  intros Hc Htos Hfr [Hp1 Hp2] Hother E Ed. pose proof (co_ok f Hc) as Hf. pose proof (fo_nw_proto f Hf) as Hpr.
  set (known := (nw_proto f =? ARP_OP_REQUEST) || (nw_proto f =? ARP_OP_REPLY)) in *.
  assert (exists arp, b_mem b = pre ++ arp /\ length arp = 28%nat /\ field 0 2 arp = 1 /\ field 2 2 arp = ETH_TYPE_IP
    /\ field 4 1 arp = 6 /\ field 5 1 arp = 4 /\ field 6 2 arp = nw_proto f
    /\ (known = true -> sub 8 6 arp = arp_sha f /\ field 14 4 arp = nw_src f /\ sub 18 6 arp = arp_tha f
        /\ field 24 4 arp = nw_dst f)) as (arp & Em & El & E0 & E2 & E4 & E5 & E6 & Ek).
  { exists (arp_packet f). unfold arp_packet in *. fold known in E |- *.
    assert (in_width 16 (nw_proto f)) as Hop by (unfold in_width in *; lia). pose proof (zeros_words 6) as Hz. split; [done|]. destruct known.
    - destruct (arp_fields_ok (nw_proto f) (arp_sha f) (nw_src f) (arp_tha f) (nw_dst f)) as (? & ? & ? & ? & ? & ? & ? & ? & ? & ?);
        [done|apply Hf..|]. split_and!; try done. 
    - destruct (arp_fields_ok (nw_proto f) (replicate 6 0) 0 (replicate 6 0) 0) as (? & ? & ? & ? & ? & ? & _); [done..|].
      split_and!; done. }
  assert (length (b_mem b) = (length pre + 28)%nat) as Eb by (by rewrite Em, length_app, El).
  unfold extract_arp, pull_arp. rewrite try_pull_spec, (proj2 (Nat.leb_le _ _)) by (unfold b_size; lia). cbn [mbind outcome_bind].
  rewrite (load_in pre arp b 0 (b_data b)), (load_in pre arp b 2 (b_data b + 2)), (load_in pre arp b 4 (b_data b + 4)),
    (load_in pre arp b 5 (b_data b + 5)) by (done || lia). rewrite E0, E2, E4, E5. cbn [mbind outcome_bind].
  change ((1 =? 1) && (ETH_TYPE_IP =? ETH_TYPE_IP) && (6 =? 6) && (4 =? 4)) with true.
  rewrite (load_in pre arp b 6 (b_data b + 6)) by (done || lia). cbn [mbind outcome_bind]. rewrite E6.
  rewrite (proj2 (Z.leb_le _ _)) by (unfold in_width in Hpr; lia).
  assert (nw_proto (with_nw_proto (nw_proto f) (link_flow f)) = nw_proto f) as -> by done. fold known.
  destruct known eqn:Kn.
  - rewrite (load_in pre arp b 14 (b_data b + 14)), (load_in pre arp b 24 (b_data b + 24)), (load_bytes_in pre arp b 8 (b_data b + 8)),
      (load_bytes_in pre arp b 18 (b_data b + 18)) by (done || lia). destruct (Ek eq_refl) as (-> & -> & -> & ->).
    cbn [mbind outcome_bind]. do 2 f_equal. rebuild f; done.
  - destruct Hother as (Hs & Hd & Ha1 & Ha2).
    { apply orb_false_iff in Kn as [K1%Z.eqb_neq K2%Z.eqb_neq]. rewrite !elem_of_cons, elem_of_nil. unfold ARP_OP_REQUEST, ARP_OP_REPLY in *. tauto. }
    do 2 f_equal. rebuild f; done.
Qed.

Lemma compose_extract_none f b : composable f -> dl_type f = FLOW_DL_TYPE_NONE -> vlan_tci f = 0 -> no_net f -> no_ports f -> no_arp f ->
  exists p p', flow_compose f b = Ret p /\ flow_extract p (skb_priority f) (tun_id f) (in_port f) = Ret (p', f).
Proof.
  intros Hc Ht Hv (N1 & N2 & N3 & N4 & N5) [P1 P2] [A1 A2]. pose proof (co_ok f Hc) as Hf.
  destruct (words6 _ (fo_dl_dst f Hf)) as (a & a1 & a2 & a3 & a4 & a5 & Ed).
  destruct (words6 _ (fo_dl_src f Hf)) as (c & c1 & c2 & c3 & c4 & c5 & Es).
  assert (link_flow f = f) as Ef by (rebuild f; done).
  assert (exists p p', flow_compose f b = Ret p
    /\ flow_extract p (skb_priority f) (tun_id f) (in_port f) = Ret (p', link_flow f)) as (p & p' & Ep & Er);
    [|exists p, p'; by rewrite Ep, Er, Ef].
  unfold flow_compose, link_flow. rewrite Ht, Hv, Ed, Es. do 2 eexists. split; reflexivity.
Qed.

(** Behind the link layer. *)
Lemma extract_network p f pre pl r :
  composable f -> ETH_TYPE_MIN <= dl_type f -> dl_type f <> ETH_TYPE_VLAN ->
  b_mem p = pre ++ link f ++ pl -> b_data p = length pre ->
  (forall packet b, b_mem b = (pre ++ link f) ++ pl -> b_data b = length (pre ++ link f) ->
     exists p', (if dl_type f =? ETH_TYPE_IP then extract_ip packet b (link_flow f)
                 else if dl_type f =? ETH_TYPE_IPV6 then extract_ipv6 packet b (link_flow f)
                 else if dl_type f =? ETH_TYPE_ARP then extract_arp packet b (link_flow f)
                 else Ret (packet, link_flow f)) = Ret (p', r)) ->
  exists p', flow_extract p (skb_priority f) (tun_id f) (in_port f) = Ret (p', r).
Proof.
  intros Hc Hmin Hn E Ed Hr. unfold flow_extract. destruct (link_fields f pl (co_ok f Hc)) as (_ & _ & _ & El).
  rewrite (proj2 (Nat.ltb_ge _ _)).
  2: { unfold b_size. rewrite E, Ed, !length_app, El. destruct (has _ _); lia. }
  rewrite (extract_link_compose f p pre pl) by (done || apply Hc). cbn [mbind outcome_bind].
  apply Hr; [cbn; by rewrite E, <- app_assoc|cbn; by rewrite length_app].
Qed.

(** Where flow_compose has put the link layer, what it puts behind it. *)
Lemma compose_network f b : composable f -> dl_type f <> FLOW_DL_TYPE_NONE ->
  exists pre p, flow_compose f b = Ret p /\ b_data p = length pre
    /\ b_mem p = pre ++ link f ++ (if dl_type f =? ETH_TYPE_IP then ip_packet f
                                   else if dl_type f =? ETH_TYPE_ARP then arp_packet f else []).
Proof.
  intros Hc Hn. destruct (compose_link_ok f b (co_ok f Hc)) as (pre & b1 & Eb1 & Em & Ed). unfold flow_compose.
  rewrite (proj2 (Z.eqb_neq _ _) Hn). cbn zeta in Eb1 |- *. rewrite Eb1. cbn [mbind outcome_bind]. exists pre.
  destruct (dl_type f =? ETH_TYPE_IP).
  { destruct (compose_ip_ok f b1) as (p & -> & Ep & Edp). exists p. split; [done|]. rewrite Edp, Ep, Em, <- app_assoc. done. }
  destruct (Z.eqb_spec (dl_type f) ETH_TYPE_IPV6) as [->|].
  { exists b1. split; [done|]. split; [done|]. by rewrite app_nil_r. }
  destruct (dl_type f =? ETH_TYPE_ARP); eexists; (split; [reflexivity|]).
  - split; [done|]. cbn. rewrite Em, <- app_assoc. unfold arp_packet. done.
  - split; [done|]. by rewrite app_nil_r.
Qed.

(** A packet gives back a flow that has no more than flow_compose can build. *)
Lemma composable_extract f b :
  composable f ->
  exists p p', flow_compose f b = Ret p /\ flow_extract p (skb_priority f) (tun_id f) (in_port f) = Ret (p', f).
Proof.
  intros Hc. pose proof (co_net f Hc) as Hnet. destruct (decide (dl_type f = FLOW_DL_TYPE_NONE)) as [En|En].
  { destruct Hnet as [? ? ? ? ?|Et|Et|Et|Et]; [by apply compose_extract_none|..]; exfalso; rewrite En in Et; by vm_compute in Et. }
  destruct (compose_network f b Hc En) as (pre & p & Ep & Ed & Em). exists p.
  assert (ETH_TYPE_MIN <= dl_type f /\ dl_type f <> ETH_TYPE_VLAN) as [Hmin Hv].
  { destruct Hnet as [Et|Et|Et|Et|? Et]; try (by rewrite Et). rewrite !not_elem_of_cons in Et. tauto. }
  assert (exists p', flow_extract p (skb_priority f) (tun_id f) (in_port f) = Ret (p', f)) as (p' & E); [|by exists p'].
  eapply (extract_network p f pre); [done|done|done|exact Em|done|]. intros packet q Eq Edq.
  destruct Hnet as [? ? ? ? ?|Et Hfr Hp Ha|Et Hpr Ht Hfr Hp|Et Hpr Hs Hd Ht Hfr Hp Ha|_ Et (N1 & N2 & N3 & N4 & N5) [P1 P2] [A1 A2]].
  - done.
  - rewrite Et in *. by apply (extract_ip_compose packet q (pre ++ link f)).
  - rewrite Et in *. exists packet. by apply (extract_arp_compose packet q (pre ++ link f)).
  - rewrite Et in *. exists packet. by apply (extract_arp_compose packet q (pre ++ link f)).
  - assert (link_flow f = f) as -> by (rebuild f; done). rewrite !not_elem_of_cons in Et. destruct Et as (T1 & T2 & _).
    apply Z.eqb_neq in T1, T2. rewrite T1, T2 in *. exists packet. destruct (dl_type f =? ETH_TYPE_IPV6); [|done].
    unfold extract_ipv6, parse_ipv6. rewrite try_pull_spec, (proj2 (Nat.leb_gt _ _)); [done|].
    unfold b_size. rewrite Eq, Edq, app_nil_r. lia.
Qed.

(** ** All flows *)

(** The part of a flow that the packet of flow_compose carries: no metadata, registers, TTL or
    field of IPv6, and the rest by type. *)
Definition carried (f : flow) : flow :=
  let ip := dl_type f =? ETH_TYPE_IP in
  let arp := dl_type f =? ETH_TYPE_ARP in
  let addressed := ip || (arp && ((nw_proto f =? ARP_OP_REQUEST) || (nw_proto f =? ARP_OP_REPLY))) in
  let later := has (nw_frag f) FLOW_NW_FRAG_ANY && has (nw_frag f) FLOW_NW_FRAG_LATER in
  let port (z : Z) :=
    if negb ip || later then 0
    else if (nw_proto f =? IPPROTO_TCP) || (nw_proto f =? IPPROTO_UDP) then z
    else if nw_proto f =? IPPROTO_ICMP then u8 z
    else 0 in
  MkFlow (tun_id f) 0 (replicate 16 0) (replicate 16 0) (replicate 16 0) (skb_priority f) (replicate 8 0)
    (if addressed then nw_src f else 0) (if addressed then nw_dst f else 0) 0 (in_port f)
    (if (dl_type f =? FLOW_DL_TYPE_NONE) || negb (has (vlan_tci f) VLAN_CFI) then 0 else vlan_tci f)
    (dl_type f) (port (tp_src f)) (port (tp_dst f)) (dl_src f) (dl_dst f)
    (if ip || arp then nw_proto f else 0) (if ip then nw_tos f else 0)
    (if addressed && negb ip then arp_sha f else replicate 6 0)
    (if addressed && negb ip then arp_tha f else replicate 6 0) 0
    (if negb ip then 0 else if has (nw_frag f) FLOW_NW_FRAG_ANY then if later then 3 else 1 else 0).

(** A type that flow_extract gives to some packet. *)
Definition type_ok (f : flow) : Prop :=
  dl_type f = FLOW_DL_TYPE_NONE \/ (ETH_TYPE_MIN <= dl_type f /\ dl_type f <> ETH_TYPE_VLAN).

(** flow_compose does not look at the other fields. *)
Lemma compose_ip_carried f b : dl_type f = ETH_TYPE_IP -> compose_ip (carried f) b = compose_ip f b.
Proof.
  intros Et. unfold compose_ip, compose_ip_payload, carried. rewrite Et.
  change (ETH_TYPE_IP =? ETH_TYPE_IP) with true.
  cbn [orb andb negb nw_tos nw_proto nw_src nw_dst nw_frag tp_src tp_dst].
  destruct (has (nw_frag f) FLOW_NW_FRAG_ANY), (has (nw_frag f) FLOW_NW_FRAG_LATER); cbn [andb];
    repeat match goal with |- context [has ?a ?b] => let v := eval vm_compute in (has a b) in change (has a b) with v end;
    cbn [andb]; try reflexivity;
    destruct (nw_proto f =? IPPROTO_TCP); try reflexivity; destruct (nw_proto f =? IPPROTO_UDP); try reflexivity;
    destruct (nw_proto f =? IPPROTO_ICMP); try reflexivity; unfold icmp_fields; cbn [orb]; by rewrite !wrap_wrap by lia.
Qed.

Lemma compose_arp_carried f b : dl_type f = ETH_TYPE_ARP -> compose_arp (carried f) b = compose_arp f b.
Proof.
  intros Et. unfold compose_arp, carried. rewrite Et. change (ETH_TYPE_ARP =? ETH_TYPE_IP) with false.
  change (ETH_TYPE_ARP =? ETH_TYPE_ARP) with true. cbn [orb andb negb nw_proto nw_src nw_dst arp_sha arp_tha].
  by destruct ((nw_proto f =? ARP_OP_REQUEST) || (nw_proto f =? ARP_OP_REPLY)).
Qed.

Lemma compose_carried f b : flow_compose (carried f) b = flow_compose f b.
Proof.
  unfold flow_compose. change (dl_dst (carried f)) with (dl_dst f). change (dl_src (carried f)) with (dl_src f).
  change (dl_type (carried f)) with (dl_type f). destruct (dl_type f =? FLOW_DL_TYPE_NONE) eqn:En; [done|].
  assert (has (vlan_tci (carried f)) VLAN_CFI = has (vlan_tci f) VLAN_CFI
          /\ (has (vlan_tci f) VLAN_CFI = true -> vlan_tci (carried f) = vlan_tci f)) as [Ev Ev'].
  { unfold carried. cbn [vlan_tci]. rewrite En. destruct (has (vlan_tci f) VLAN_CFI) eqn:Eh; by split. }
  rewrite Ev. set (o := if has _ _ then eth_push_vlan (vlan_tci (carried f)) _ else _).
  assert (o = if has (vlan_tci f) VLAN_CFI
              then eth_push_vlan (vlan_tci f) (eth_compose (dl_dst f) (dl_src f) (dl_type f) b)
              else Ret (eth_compose (dl_dst f) (dl_src f) (dl_type f) b)) as ->
    by (unfold o; destruct (has (vlan_tci f) VLAN_CFI); [by rewrite Ev'|done]).
  destruct (if has _ _ then _ else _) as [b1|]; [|done]. cbn [mbind outcome_bind].
  destruct (Z.eqb_spec (dl_type f) ETH_TYPE_IP); [by apply compose_ip_carried|].
  destruct (dl_type f =? ETH_TYPE_IPV6); [done|].
  destruct (Z.eqb_spec (dl_type f) ETH_TYPE_ARP); [by rewrite compose_arp_carried|done].
Qed.

Lemma carried_ok f : flow_ok f -> flow_ok (carried f).
Proof.
  intros []. split; unfold carried; cbn [Flow.tun_id metadata ipv6_src ipv6_dst nd_target skb_priority regs nw_src nw_dst
    ipv6_label in_port vlan_tci dl_type tp_src tp_dst dl_src dl_dst nw_proto nw_tos arp_sha arp_tha nw_ttl nw_frag];
    try done; try (by split; [done|repeat constructor; lia]);
    repeat match goal with |- context [if ?c then _ else _] => destruct c end; try done;
    try (by split; [done|repeat constructor; lia]); try (by apply (wrap_bound 8); lia).
  all: pose proof (wrap_bound 8 (tp_src f) ltac:(lia)); pose proof (wrap_bound 8 (tp_dst f) ltac:(lia)); unfold in_width; lia.
Qed.

Lemma carried_composable f : flow_ok f -> type_ok f -> composable (carried f).
Proof.
  intros Hf Ht. split; [by apply carried_ok| |done|done|done|done|].
  { unfold carried. cbn [vlan_tci]. destruct (has (vlan_tci f) VLAN_CFI) eqn:E; [|left; by rewrite orb_true_r].
    destruct (_ =? _); [by left|by right]. }
  destruct (decide (dl_type f = FLOW_DL_TYPE_NONE)) as [En|En].
  { apply co_none; [done|unfold carried; rewrite En; done| | |]; unfold no_net, no_ports, no_arp, carried; rewrite En; done. }
  destruct Ht as [?|[Hmin Hv]]; [done|]. destruct (decide (dl_type f = ETH_TYPE_IP)) as [Ei|Ei].
  { apply co_ip; [done|unfold carried; rewrite Ei| |unfold no_arp, carried; rewrite Ei; done].
    - cbn. repeat match goal with |- context [if ?c then _ else _] => destruct c end; set_solver.
    - unfold ports_ok, no_ports, carried. rewrite Ei. change (ETH_TYPE_IP =? ETH_TYPE_IP) with true.
      cbn [orb andb negb nw_proto nw_frag tp_src tp_dst].
      pose proof (wrap_bound 8 (tp_src f) ltac:(lia)). pose proof (wrap_bound 8 (tp_dst f) ltac:(lia)).
      destruct (has (nw_frag f) FLOW_NW_FRAG_ANY), (has (nw_frag f) FLOW_NW_FRAG_LATER); cbn [andb];
        repeat match goal with |- context [has ?a ?b] => let v := eval vm_compute in (has a b) in change (has a b) with v end;
        try done; destruct (nw_proto f =? IPPROTO_TCP); try done; destruct (nw_proto f =? IPPROTO_UDP); try done;
        destruct (nw_proto f =? IPPROTO_ICMP); cbn [orb]; done || lia. }
  apply Z.eqb_neq in Ei. destruct (decide (dl_type f = ETH_TYPE_ARP)) as [Ea|Ea].
  { destruct ((nw_proto f =? ARP_OP_REQUEST) || (nw_proto f =? ARP_OP_REPLY)) eqn:Ek.
    - apply co_arp; unfold no_ports, carried; rewrite ?Ea; try done. cbn.
      apply orb_true_iff in Ek as [->%Z.eqb_eq| ->%Z.eqb_eq]; set_solver.
    - apply co_arp_other; unfold no_ports, no_arp, carried; rewrite ?Ea, ?Ek; try done. cbn.
      apply orb_false_iff in Ek as [?%Z.eqb_neq ?%Z.eqb_neq]. unfold ARP_OP_REQUEST, ARP_OP_REPLY in *. set_solver. }
  pose proof (proj2 (Z.eqb_neq _ _) Ea) as Ea'.
  apply co_other; [done| |unfold no_net, carried; rewrite ?Ei, ?Ea'; done..|unfold no_arp, carried; rewrite ?Ei, ?Ea'; done].
  apply Z.eqb_neq in Ei. change (dl_type (carried f)) with (dl_type f). set_solver.
Qed.

(** A flow of a packet that has no more than flow_compose can build comes back whole. *)
Lemma composable_carried f : composable f -> carried f = f.
Proof.
  intros Hc. pose proof Hc as [Hf Hv _ _ _ _ Hn]. etransitivity; [|by apply (flow_rebuild f)]. unfold carried.
  assert ((if (dl_type f =? FLOW_DL_TYPE_NONE) || negb (has (vlan_tci f) VLAN_CFI) then 0 else vlan_tci f) = vlan_tci f) as ->.
  { destruct Hv as [E|E]; [by rewrite E, orb_true_r|]. rewrite E, orb_false_r. destruct (Z.eqb_spec (dl_type f) FLOW_DL_TYPE_NONE) as [En|]; [|done].
    destruct Hn as [_ Hz _ _ _|Et|Et|Et|Et]; [done|exfalso; rewrite En in Et; by vm_compute in Et..]. }
  destruct Hn as [Et _ (N1 & N2 & N3 & N4 & N5) [P1 P2] [A1 A2]|Et Hfr Hp [A1 A2]|Et Hpr Ht Hfr [P1 P2]
    |Et Hpr Hs Hd Ht Hfr [P1 P2] [A1 A2]|_ Et (N1 & N2 & N3 & N4 & N5) [P1 P2] [A1 A2]].
  - rewrite Et, N1, N2, N3, N4, N5, P1, P2, A1, A2. done.
  - rewrite Et, A1, A2. change (ETH_TYPE_IP =? ETH_TYPE_IP) with true. cbn [orb andb negb].
    unfold ports_ok, no_ports in Hp.
    pose proof (fo_tp_src f Hf) as Hs. pose proof (fo_tp_dst f Hf) as Hd.
    rewrite !elem_of_cons, elem_of_nil in Hfr. destruct Hfr as [E|[E|[E|[]]]]; rewrite E in *;
      repeat match goal with |- context [has ?a ?b] => let v := eval vm_compute in (has a b) in change (has a b) with v end;
      (match type of Hp with context [has ?a ?b] => let v := eval vm_compute in (has a b) in change (has a b) with v in Hp end);
      cbn [andb] in *; [| |by destruct Hp as [-> ->]];
      (destruct (nw_proto f =? IPPROTO_TCP); [done|]); (destruct (nw_proto f =? IPPROTO_UDP); [done|]);
      (destruct (nw_proto f =? IPPROTO_ICMP); cbn [orb]; [|by destruct Hp as [-> ->]]);
      unfold in_width in *; by rewrite !wrap_small by lia.
  - rewrite Et, Ht, Hfr, P1, P2. rewrite !elem_of_cons, elem_of_nil in Hpr. by destruct Hpr as [->|[->|[]]].
  - rewrite Et, Hs, Hd, Ht, Hfr, P1, P2, A1, A2. rewrite !not_elem_of_cons in Hpr. destruct Hpr as (Q1 & Q2 & _).
    unfold ARP_OP_REQUEST, ARP_OP_REPLY. by rewrite (proj2 (Z.eqb_neq _ _) Q1), (proj2 (Z.eqb_neq _ _) Q2).
  - rewrite !not_elem_of_cons in Et. destruct Et as (T1 & T2 & _).
    rewrite (proj2 (Z.eqb_neq _ _) T1), (proj2 (Z.eqb_neq _ _) T2), N1, N2, N3, N4, N5, P1, P2, A1, A2. done.
Qed.

(** ** Properties *)

(** C22: what flow_compose builds, flow_extract reads, as far as flow_compose goes.  For any flow
    whose fields fit and whose type is one that flow_extract gives to a packet, with a VLAN tag or
    without and for IPv4 with any fragment flags, flow_compose does not fail, and flow_extract
    finds in its packet the flow [carried f]: the Ethernet, VLAN, IPv4, ARP and transport fields
    that belong to the type, while the TTL and the fields of IPv6 and neighbour discovery, which
    flow_compose leaves out, and the registers and metadata, which no packet has, are zero.  So
    the flow itself comes back whole exactly when it has nothing else ([composable]: TTL, IPv6,
    neighbour discovery, registers, metadata and the fields of other types are all zero); the
    comment above flow_compose promises it for every flow (see compose_incomplete). *)
Theorem flow_compose_extract f b :
  flow_ok f -> type_ok f ->
  exists p p', flow_compose f b = Ret p
    /\ flow_extract p (skb_priority f) (tun_id f) (in_port f) = Ret (p', carried f)
    /\ (composable f <-> carried f = f).
Proof.
  intros Hf Ht. pose proof (carried_composable f Hf Ht) as Hc.
  destruct (composable_extract (carried f) b Hc) as (p & p' & E & Ex). rewrite compose_carried in E.
  exists p, p'. split; [exact E|]. split; [exact Ex|]. split; [by apply composable_carried|]. by intros <-.
Qed.

(** The comment above flow_compose does not hold of a flow with a TTL or with IPv6 addresses:
    flow_extract parses the packet as another flow. *)
Lemma compose_incomplete f b :
  flow_ok f -> type_ok f -> nw_ttl f <> 0 \/ ipv6_src f <> replicate 16 0 ->
  exists p p' g, flow_compose f b = Ret p
    /\ flow_extract p (skb_priority f) (tun_id f) (in_port f) = Ret (p', g) /\ g <> f.
Proof.
  intros Hf Ht Hne. destruct (composable_extract (carried f) b (carried_composable f Hf Ht)) as (p & p' & E & Ex).
  rewrite compose_carried in E. exists p, p', (carried f). split; [exact E|]. split; [exact Ex|]. intros Eq.
  rewrite <- Eq in Hne. by destruct Hne as [?|?].
Qed.

(** A segment of TCP with a VLAN tag, with a TTL and in a register. *)
Definition sample_flow : flow :=
  MkFlow 7 0 (replicate 16 0) (replicate 16 0) (replicate 16 0) 3 (5 :: replicate 7 0) 0x0a000001 0x0a000002 0 1 0x1064 ETH_TYPE_IP
    40000 80 [2; 0; 0; 0; 0; 1] [2; 0; 0; 0; 0; 2] IPPROTO_TCP 0 (replicate 6 0) (replicate 6 0) 64 1.

Lemma flow_compose_extract_witness :
  carried sample_flow = with_nw_ttl 0 (with_regs (replicate 8 0) sample_flow)
  /\ exists p p', flow_compose sample_flow (MkBuf [] 0 None None None None) = Ret p
    /\ flow_extract p (skb_priority sample_flow) (Flow.tun_id sample_flow) (in_port sample_flow) = Ret (p', carried sample_flow)
    /\ (composable sample_flow <-> carried sample_flow = sample_flow).
Proof.
  split; [vm_compute; reflexivity|].
  apply (flow_compose_extract sample_flow (MkBuf [] 0 None None None None)).
  - split; try done; (split; [done|repeat constructor; lia]).
  - right. by split.
Defined.
