(* ===== verification/Rewrite.v ===== *)
(** * Packets: rewriting headers (packet_set_ipv4 and its like of lib/packets.c)

    The header of IPv4 is followed as a list while the functions change it in the packet: the
    checksum stays valid, the fields get their values, and nothing else of it changes.  So do the
    ports and the checksums of TCP and UDP. *)
From S2P Require Import Prelude Hash Hmap Flow ClsRule Packet Csum Extract.

Local Open Scope Z_scope.

(** ** Parts of a list that is changed *)

Lemma lookup_sub p n m i : sub p n m !! i = if (i <? n)%nat then m !! (p + i)%nat else None.
Proof.
  unfold sub. destruct (Nat.ltb_spec i n); [by rewrite lookup_take_lt, lookup_drop by done|].
  apply lookup_ge_None. rewrite length_take. lia.
Qed.

Lemma lookup_splice q bs m i : (q + length bs <= length m)%nat ->
  splice q bs m !! i = if (q <=? i)%nat && (i <? q + length bs)%nat then bs !! (i - q)%nat else m !! i.
Proof.
  intros H. unfold splice. destruct (Nat.leb_spec q i) as [Hq|Hq]; cbn [andb].
  - rewrite lookup_app_r by (rewrite length_take; lia). rewrite length_take_le by lia.
    destruct (Nat.ltb_spec i (q + length bs)); [by rewrite lookup_app_l by lia|].
    rewrite lookup_app_r, lookup_drop by lia. f_equal. lia.
  - rewrite lookup_app_l by (rewrite length_take; lia). by rewrite lookup_take_lt.
Qed.

Lemma length_splice q bs m : (q + length bs <= length m)%nat -> length (splice q bs m) = length m.
Proof. intros H. unfold splice. rewrite !length_app, length_take_le, length_drop by lia. lia. Qed.

Lemma bytes_splice q bs m : bytes bs -> bytes m -> bytes (splice q bs m).
Proof. intros Hb Hm. unfold splice. apply Forall_app; split; [by apply Forall_take|]. apply Forall_app. split; [done|by apply Forall_drop]. Qed.

Ltac by_lookup :=
  apply list_eq; intros i; rewrite ?lookup_sub, ?lookup_splice by (rewrite ?length_sub, ?length_splice; lia);
  rewrite ?lookup_sub;
  repeat match goal with
    | |- context [(?a <? ?b)%nat] => destruct (Nat.ltb_spec a b)
    | |- context [(?a <=? ?b)%nat] => destruct (Nat.leb_spec a b)
    end; cbn [andb]; try lia; try done; try (f_equal; lia).

(** A part that is not touched, and one that is replaced. *)
Lemma sub_splice_other p n q bs m : (q + length bs <= length m)%nat -> (p + n <= q \/ q + length bs <= p)%nat ->
  sub p n (splice q bs m) = sub p n m.
Proof. intros H Hd. by_lookup. Qed.

Lemma sub_splice_same p n bs m : (p + length bs <= length m)%nat -> n = length bs -> sub p n (splice p bs m) = bs.
Proof.
  intros H ->. by_lookup. symmetry. apply lookup_ge_None. lia.
Qed.

Lemma sub_splice_in p n k bs m : (p + n <= length m)%nat -> (k + length bs <= n)%nat ->
  sub p n (splice (p + k) bs m) = splice k bs (sub p n m).
Proof. intros H Hk. by_lookup. Qed.

Lemma sub_sub p n k l m : (k + l <= n)%nat -> sub k l (sub p n m) = sub (p + k) l m.
Proof. intros H. by_lookup. Qed.

Lemma field_splice_other p n q bs m : (q + length bs <= length m)%nat -> (p + n <= q \/ q + length bs <= p)%nat ->
  field p n (splice q bs m) = field p n m.
Proof. intros H Hd. unfold field. by rewrite sub_splice_other. Qed.

Lemma field_splice_same p n z m : (p + n <= length m)%nat -> 0 <= z < 256 ^ Z.of_nat n -> field p n (splice p (be_bytes n z) m) = z.
Proof.
  intros H Hz. unfold field. rewrite sub_splice_same by (rewrite length_be_bytes; lia). by apply be_value_bytes_small.
Qed.

Lemma field_sub p n k l m : (k + l <= n)%nat -> field k l (sub p n m) = field (p + k) l m.
Proof. intros H. unfold field. by rewrite sub_sub. Qed.

(** ** Sums of headers *)

Lemma psum_word2 l : bytes l -> length l = 2%nat -> psum false l = be_value l.
Proof. intros Hl E. destruct l as [|x [|y [|]]]; try done. cbn. lia. Qed.

Lemma psum_word4 l : bytes l -> length l = 4%nat -> psum false l = be_value l mod 65536 + be_value l / 65536.
Proof.
  intros Hl E. destruct l as [|x [|y [|z [|w [|]]]]]; try done. repeat (apply Forall_cons in Hl as [? Hl]). unfold is_byte in *.
  cbn [psum be_value fold_left negb].
  assert ((((0 * 256 + x) * 256 + y) * 256 + z) * 256 + w = (x * 256 + y) * 65536 + (z * 256 + w)) as -> by lia.
  rewrite Z.div_add_l, (Z.div_small (z * 256 + w)) by lia. rewrite (Z.add_comm (_ * 65536)), Z.mod_add, Z.mod_small by lia. lia.
Qed.

Lemma be_bytes_word n z : 0 <= z < 256 ^ Z.of_nat n -> be_value (be_bytes n z) = z.
Proof. apply be_value_bytes_small. Qed.

Lemma psum_pos m : bytes m -> (0 < length m)%nat -> field 0 1 m <> 0 -> psum false m <> 0.
Proof.
  intros Hm Hl Hf. destruct m as [|x m]; [cbn in Hl; lia|]. apply Forall_cons in Hm as [Hx Hm]. unfold is_byte in Hx.
  change (0 * 256 + x <> 0) in Hf. cbn [psum negb]. pose proof (psum_bound true m Hm). lia.
Qed.

(** Words and bytes of a header whose checksum is at 10. *)
Definition put_csum (c : Z) (h : list Z) : list Z := splice 10 (be_bytes 2 c) h.

Definition set_addr (k : nat) (new : Z) (h : list Z) : list Z :=
  if field k 4 h =? new then h
  else splice k (be_bytes 4 new) (put_csum (recalc_csum32 (field 10 2 h) (field k 4 h) new) h).

Definition set_byte (k : nat) (shift new : Z) (h : list Z) : list Z :=
  if field k 1 h =? new then h
  else splice k (be_bytes 1 new)
         (put_csum (recalc_csum16 (field 10 2 h) (Z.shiftl (field k 1 h) shift) (Z.shiftl new shift)) h).

(** A header of IPv4. *)
Record header (h : list Z) : Prop := {
  hd_bytes : bytes h;
  hd_length : (20 <= length h)%nat;
  hd_version : field 0 1 h <> 0
}.

Lemma length_put_csum c h : (20 <= length h)%nat -> length (put_csum c h) = length h.
Proof. intros H. apply length_splice. rewrite length_be_bytes. lia. Qed.

Lemma header_splice k n z h : (1 <= k)%nat -> (k + n <= 20)%nat -> header h -> header (splice k (be_bytes n z) h).
Proof.
  intros Hk Hn [Hb Hl Hv]. split.
  - apply bytes_splice; [apply be_bytes_bytes|done].
  - rewrite length_splice; [done|]. rewrite length_be_bytes. lia.
  - rewrite field_splice_other; [done|rewrite length_be_bytes; lia|lia].
Qed.

Lemma put_csum_sum c h : header h -> 0 <= c <= 65535 -> psum false (put_csum c h) = psum false h - field 10 2 h + c.
Proof.
  intros [Hb Hl _] Hc. unfold put_csum. rewrite psum_splice by (rewrite length_be_bytes; lia). rewrite length_be_bytes.
  change (Nat.odd 10) with false. rewrite psum_be_bytes2, wrap_small by lia. unfold field.
  rewrite (psum_word2 (sub 10 2 h)); [done|by apply sub_bytes|apply length_sub; lia].
Qed.

Lemma field10_bound h : header h -> 0 <= field 10 2 h <= 65535.
Proof. intros [Hb Hl _]. pose proof (field_half 10 h Hb ltac:(lia)) as H. unfold in_width in H. lia. Qed.

(** Changes that keep the sum. *)
Definition keeps (h h' : list Z) : Prop := header h' /\ length h' = length h /\ same_sum (psum false h') (psum false h).

Lemma keeps_verifies h h' : keeps h h' -> verifies h -> verifies h'.
Proof.
  intros (H & _ & Es) [E0 _]%verifies_sum. apply verifies_sum. split; [unfold same_sum in *; by rewrite Es|].
  pose proof (hd_length _ H). apply psum_pos; [apply H|lia|apply H].
Qed.

Lemma keeps_trans h h1 h2 : keeps h h1 -> keeps h1 h2 -> keeps h h2.
Proof. intros (_ & L1 & S1) (H & L2 & S2). unfold keeps, same_sum in *. split; [done|]. split; congruence. Qed.

Lemma keeps_refl h : header h -> keeps h h.
Proof. by intros. Qed.

Lemma keeps_splice k n new c o w h : header h -> (1 <= k)%nat -> (k + n <= 10 \/ 12 <= k)%nat -> (k + n <= 20)%nat ->
  0 <= c <= 65535 -> psum (Nat.odd k) (sub k n h) = o -> psum (Nat.odd k) (be_bytes n new) = w ->
  same_sum (c - field 10 2 h) (o - w) -> keeps h (splice k (be_bytes n new) (put_csum c h)).
Proof.
  intros Hh Hk Hd Hn Hc Ho Hw Hs. pose proof Hh as [Hb Hl _].
  assert (length (put_csum c h) = length h) as Lc by by apply length_put_csum.
  split; [apply header_splice; [done|done|]; apply header_splice; [lia|lia|done]|].
  split; [rewrite length_splice; [done|rewrite length_be_bytes; lia]|].
  rewrite psum_splice, length_be_bytes by (rewrite length_be_bytes; lia).
  replace (sub k n (put_csum c h)) with (sub k n h) by (symmetry; apply sub_splice_other; rewrite length_be_bytes; lia).
  rewrite Ho, Hw, put_csum_sum by done. destruct (same_sum_ex _ _ Hs) as (i & E). apply (same_sum_diff _ _ i). lia.
Qed.

Lemma set_addr_keeps k new h : header h -> (k = 12 \/ k = 16)%nat -> in_width 32 new -> keeps h (set_addr k new h).
Proof.
  intros Hh Hk Hnew. unfold set_addr. destruct (_ =? _); [by apply keeps_refl|]. pose proof Hh as [Hb Hl _].
  pose proof (field_word k h Hb ltac:(lia)) as Hold. pose proof (field10_bound h Hh) as Hc.
  destruct (recalc_csum32_ok (field 10 2 h) (field k 4 h) new Hc Hold Hnew) as [Hc' Hs].
  assert (Nat.odd k = false) as Ek by (by destruct Hk; subst).
  apply (keeps_splice _ _ _ _ (field k 4 h mod 65536 + field k 4 h / 65536) (new mod 65536 + new / 65536));
    [done|lia|lia|lia|done| | |done]; rewrite Ek, psum_word4; try done.
  - by apply sub_bytes.
  - apply length_sub. lia.
  - by rewrite be_bytes_word.
  - apply be_bytes_bytes.
Qed.

Lemma set_byte_keeps k shift new h : header h -> (k = 1%nat /\ shift = 0 \/ k = 8%nat /\ shift = 8) -> in_width 8 new ->
  keeps h (set_byte k shift new h).
Proof.
  intros Hh Hk Hnew. unfold set_byte. destruct (_ =? _); [by apply keeps_refl|]. pose proof Hh as [Hb Hl _].
  pose proof (field_byte k h Hb ltac:(lia)) as Hold. pose proof (field10_bound h Hh) as Hc. unfold in_width in *.
  assert (forall x, 0 <= x < 256 -> 0 <= Z.shiftl x shift <= 65535 /\ forall l, l = [x] -> psum (Nat.odd k) l = Z.shiftl x shift) as Hx.
  { intros x Hx. destruct Hk as [[-> ->]|[-> ->]]; rewrite Z.shiftl_mul_pow2 by lia; (split; [lia|]); intros l ->; cbn; lia. }
  destruct (Hx _ Hold) as [Ho Ho'], (Hx _ Hnew) as [Hn Hn'].
  assert (exists x, sub k 1 h = [x] /\ field k 1 h = x) as (x & Esub & Ef).
  { unfold field. pose proof (length_sub k 1 h ltac:(lia)) as L. destruct (sub k 1 h) as [|x [|]]; try done. by exists x. }
  apply (keeps_splice _ _ _ _ (Z.shiftl (field k 1 h) shift) (Z.shiftl new shift)); [done|lia|lia|lia|by apply recalc_csum16_bound| | |by apply recalc_same].
  - apply Ho'. by rewrite Esub, Ef.
  - apply Hn'. cbn. rewrite Z.shiftr_0_r. f_equal. apply (wrap_small 8). lia.
Qed.

(** ** The header in a packet *)

(** The least size of the transport header. *)
Definition l4_least (proto : Z) : nat := if proto =? IPPROTO_TCP then 20%nat else 8%nat.

Lemma l4_least_8 proto : (8 <= l4_least proto)%nat.
Proof. unfold l4_least. destruct (_ =? _); lia. Qed.

(** [packet] has a header of IPv4 of [n] bytes at [nh]; if it has a next layer, then a transport
    header behind it. *)
Record layout (nh n : nat) (packet : ofpbuf) : Prop := {
  la_inside : inside packet;
  la_l3 : b_l3 packet = Some nh;
  la_size : (20 <= n)%nat;
  la_range : (nh + n <= length (b_mem packet))%nat;
  la_version : field nh 1 (b_mem packet) <> 0;
  la_l4 : b_l7 packet <> None -> exists th, b_l4 packet = Some th
    /\ (nh + n <= th /\ th + l4_least (field (nh + 9) 1 (b_mem packet)) <= length (b_mem packet))%nat
}.

Definition has_l7 (packet : ofpbuf) : bool := match b_l7 packet with Some _ => true | None => false end.

(** The checksum of UDP, which is not zero. *)
Definition udp_csum (c : Z) : Z := if c =? 0 then 0xffff else c.

(** What packet_set_ipv4_addr does to the transport header. *)
Definition l4_update (nh : nat) (old new : Z) (packet : ofpbuf) : list Z :=
  let m := b_mem packet in
  match b_l4 packet with
  | Some th =>
      if has_l7 packet then
        if field (nh + 9) 1 m =? IPPROTO_TCP then splice (th + 16) (be_bytes 2 (recalc_csum32 (field (th + 16) 2 m) old new)) m
        else if (field (nh + 9) 1 m =? IPPROTO_UDP) && negb (field (th + 6) 2 m =? 0) then
          splice (th + 6) (be_bytes 2 (udp_csum (recalc_csum32 (field (th + 6) 2 m) old new))) m
        else m
      else m
  | None => m
  end.

Lemma store_at_ok p bs b : (p + length bs <= length (b_mem b))%nat -> store p bs b = Ret (with_mem (splice p bs (b_mem b)) b).
Proof. intros H. unfold store. by rewrite (proj2 (Nat.leb_le _ _) H). Qed.

(** It changes a word behind the header, or nothing. *)
Lemma l4_update_cases nh n old new packet : layout nh n packet ->
  l4_update nh old new packet = b_mem packet
  \/ exists p c, l4_update nh old new packet = splice p (be_bytes 2 c) (b_mem packet) /\ (nh + n <= p /\ p + 2 <= length (b_mem packet))%nat.
Proof.
  intros [_ _ _ _ _ H4]. unfold l4_update, has_l7, l4_least in *. destruct (b_l7 packet); [|left; by destruct (b_l4 packet)].
  destruct H4 as (th & -> & Hth & Hl); [done|].
  destruct (_ =? IPPROTO_TCP); [right; do 2 eexists; split; [done|lia]|].
  destruct (_ && _); [right; do 2 eexists; split; [done|lia]|by left].
Qed.

Lemma set_ipv4_addr_mem nh n k new packet : layout nh n packet -> (k + 4 <= n)%nat ->
  let m := b_mem packet in
  let old := field (nh + k) 4 m in
  packet_set_ipv4_addr (nh + k) new packet
  = Ret (with_mem (splice (nh + k) (be_bytes 4 new)
                     (splice (nh + 10) (be_bytes 2 (recalc_csum32 (field (nh + 10) 2 m) old new)) (l4_update nh old new packet))) packet).
Proof.
  intros Hla Hk m old. pose proof Hla as [[Hm _] E3 Hn Hr Hv H4]. unfold packet_set_ipv4_addr. rewrite E3.
  cbn [deref of_option mbind outcome_bind]. rewrite (load_at_ok (nh + k)), (load_at_ok (nh + 9)) by lia. cbn [mbind outcome_bind]. fold m old.
  match goal with |- (?step ≫= _) = _ => assert (step = Ret (with_mem (l4_update nh old new packet) packet)) as -> end.
  { assert (with_mem m packet = packet) as Em by (unfold m; by destruct packet). unfold l4_update, has_l7, l4_least in *. fold m. fold m in H4.
    destruct (b_l7 packet); [|rewrite !andb_false_r; destruct (b_l4 packet); by rewrite Em].
    destruct H4 as (th & -> & Hth & Hl); [done|]. rewrite !andb_true_r. cbn [deref of_option mbind outcome_bind].
    destruct (_ =? IPPROTO_TCP).
    { rewrite load_at_ok by (fold m; lia). cbn [mbind outcome_bind]. rewrite store_at_ok; [done|rewrite length_be_bytes; fold m; lia]. }
    destruct (_ =? IPPROTO_UDP); cbn [andb]; [|by rewrite Em].
    rewrite load_at_ok by (fold m; lia). cbn [mbind outcome_bind]. fold m. destruct (negb _); [|by rewrite Em].
    generalize (recalc_csum32 (field (th + 6) 2 m) old new) as c. intros c.
    rewrite store_at_ok; [done|rewrite length_be_bytes; fold m; lia]. }
  cbn [mbind outcome_bind].
  assert (length (l4_update nh old new packet) = length m /\ field (nh + 10) 2 (l4_update nh old new packet) = field (nh + 10) 2 m) as [El Ec].
  { destruct (l4_update_cases nh n old new packet Hla) as [->|(p & c & -> & Hp)]; [done|].
    rewrite length_splice, field_splice_other by (rewrite ?length_be_bytes; lia). done. }
  set (mu := l4_update nh old new packet) in *. fold m in Hr.
  rewrite load_at_ok by (lsimp; lia). cbn [mbind outcome_bind].
  rewrite store_at_ok by (rewrite length_be_bytes; lsimp; lia). cbn [mbind outcome_bind].
  rewrite store_at_ok by (rewrite length_be_bytes; lsimp; rewrite length_splice; rewrite ?length_be_bytes; lia).
  lsimp. by rewrite Ec.
Qed.

(** ** The transport header *)

Section Transport.
(** The header of IPv4 at [nh], the segment of [len] bytes at [th]. *)
Variables nh n th len : nat.
Hypothesis Hn : (20 <= n)%nat.
Hypothesis Hth : (nh + n <= th)%nat.
Hypothesis Hlen : (8 <= len)%nat.

(** The sum over the addresses of the pseudo-header and the segment; the rest of the
    pseudo-header does not change. *)
Definition l4_sum (m : list Z) : Z := psum false (sub (nh + 12) 8 m) + psum false (sub th len m).

(** What a change of the headers does to the sum: nothing; and a packet of UDP without a
    checksum stays so. *)
Definition l4_rel (m m' : list Z) : Prop :=
  field (nh + 9) 1 m' = field (nh + 9) 1 m
  /\ (field (nh + 9) 1 m = IPPROTO_TCP -> same_sum (l4_sum m') (l4_sum m))
  /\ (field (nh + 9) 1 m = IPPROTO_UDP ->
      if field (th + 6) 2 m =? 0 then field (th + 6) 2 m' = 0
      else field (th + 6) 2 m' <> 0 /\ same_sum (l4_sum m') (l4_sum m)).

Lemma l4_rel_refl m : l4_rel m m.
Proof. split; [done|]. split; [done|]. intros _. destruct (Z.eqb_spec (field (th + 6) 2 m) 0); done. Qed.

Lemma l4_rel_trans m m1 m2 : l4_rel m m1 -> l4_rel m1 m2 -> l4_rel m m2.
Proof.
  intros (P1 & T1 & U1) (P2 & T2 & U2). unfold l4_rel, same_sum in *. rewrite P1 in *. split; [done|]. split.
  - intros Et. rewrite T2 by done. by apply T1.
  - intros Eu. specialize (U1 Eu). specialize (U2 Eu). destruct (Z.eqb_spec (field (th + 6) 2 m) 0) as [E|E].
    + rewrite U1 in U2. done.
    + destruct U1 as [N1 S1]. rewrite (proj2 (Z.eqb_neq _ _) N1) in U2. destruct U2 as [N2 S2]. split; [done|]. by rewrite S2.
Qed.

(** A change in front of the addresses. *)
Lemma l4_sum_front p bs m : (nh + 20 <= length m)%nat -> (p + length bs <= nh + 12)%nat -> l4_sum (splice p bs m) = l4_sum m.
Proof. intros Hl Hp. unfold l4_sum. by rewrite !sub_splice_other by lia. Qed.

Lemma l4_rel_front p bs m : (nh + 20 <= length m)%nat -> (p + length bs <= nh + 12)%nat ->
  (p + length bs <= nh + 9 \/ nh + 10 <= p)%nat -> l4_rel m (splice p bs m).
Proof.
  intros Hl Hp Hd.
  assert (forall q k, (q + k <= p \/ p + length bs <= q)%nat -> field q k (splice p bs m) = field q k m) as Hf
    by (intros; apply field_splice_other; lia).
  unfold l4_rel. rewrite l4_sum_front, !Hf by lia. split; [done|]. split; [done|]. intros _.
  by destruct (Z.eqb_spec (field (th + 6) 2 m) 0).
Qed.

Lemma l4_sum_addr k new m : (k = 12 \/ k = 16)%nat -> (th + len <= length m)%nat -> bytes m -> in_width 32 new ->
  l4_sum (splice (nh + k) (be_bytes 4 new) m)
  = l4_sum m - (field (nh + k) 4 m mod 65536 + field (nh + k) 4 m / 65536) + (new mod 65536 + new / 65536).
Proof.
  intros Hk Hl Hm Hnew. unfold l4_sum. rewrite (sub_splice_other th) by (rewrite ?length_be_bytes; lia).
  assert (exists j, k = (12 + j)%nat /\ (j = 0 \/ j = 4)%nat) as (j & -> & Hj) by (exists (k - 12)%nat; lia).
  rewrite Nat.add_assoc, sub_splice_in by (rewrite ?length_be_bytes; lia).
  rewrite psum_splice by (rewrite length_be_bytes, length_sub; lia). rewrite length_be_bytes, sub_sub by lia.
  assert (Nat.odd j = false) as -> by (by destruct Hj; subst).
  rewrite (psum_word4 (be_bytes 4 new)), (psum_word4 (sub (nh + 12 + j) 4 m)) by first [apply be_bytes_bytes | by apply sub_bytes | done | apply length_sub; lia].
  rewrite be_bytes_word by done. unfold field. lia.
Qed.

Lemma l4_sum_csum o c m : Nat.odd o = false -> (o + 2 <= len)%nat -> (th + len <= length m)%nat -> bytes m -> 0 <= c <= 65535 ->
  l4_sum (splice (th + o) (be_bytes 2 c) m) = l4_sum m - field (th + o) 2 m + c.
Proof.
  intros Ho Hol Hl Hm Hc. unfold l4_sum. rewrite (sub_splice_other (nh + 12)) by (rewrite ?length_be_bytes; lia).
  rewrite sub_splice_in by (rewrite ?length_be_bytes; lia). rewrite psum_splice by (rewrite length_be_bytes, length_sub; lia).
  rewrite length_be_bytes, sub_sub, Ho, psum_be_bytes2, wrap_small by lia.
  rewrite (psum_word2 (sub (th + o) 2 m)) by first [by apply sub_bytes | apply length_sub; lia]. unfold field. lia.
Qed.

(** An address and the checksum of the header are replaced, and the checksum at [o] of the
    segment, where it is one, is adapted. *)
Lemma l4_sum_set_addr k o c c' new m : (k = 12 \/ k = 16)%nat -> Nat.odd o = false -> (o + 2 <= len)%nat ->
  (th + len <= length m)%nat -> bytes m -> in_width 32 new -> 0 <= c' <= 65535 -> length c = 2%nat -> bytes c ->
  let old := field (nh + k) 4 m in
  same_sum (c' - field (th + o) 2 m) ((old mod 65536 + old / 65536) - (new mod 65536 + new / 65536)) ->
  same_sum (l4_sum (splice (nh + k) (be_bytes 4 new) (splice (nh + 10) c (splice (th + o) (be_bytes 2 c') m)))) (l4_sum m).
Proof.
  intros Hk Ho Hol Hl Hm Hnew Hc' Lc Bc old Hs. set (m1 := splice (th + o) _ m).
  assert (length m1 = length m) as L1 by (apply length_splice; rewrite length_be_bytes; lia).
  assert (length (splice (nh + 10) c m1) = length m) as L2 by (rewrite length_splice; lia).
  assert (field (nh + k) 4 (splice (nh + 10) c m1) = old) as E4.
  { rewrite field_splice_other by lia. apply field_splice_other; rewrite length_be_bytes; lia. }
  assert (bytes (splice (nh + 10) c m1)) as B2 by (apply bytes_splice, bytes_splice; [done|apply be_bytes_bytes|done]).
  rewrite l4_sum_addr by (done || lia).
  rewrite E4, l4_sum_front by lia. unfold m1. rewrite l4_sum_csum by done.
  destruct (same_sum_ex _ _ Hs) as (i & E). apply (same_sum_diff _ _ i). lia.
Qed.

(** Of what is read elsewhere nothing changes. *)
Lemma addr_other k new c m p l : (nh + 20 <= length m)%nat -> (k = 12 \/ k = 16)%nat -> length c = 2%nat ->
  (p + l <= nh + 10 \/ nh + 20 <= p)%nat ->
  field p l (splice (nh + k) (be_bytes 4 new) (splice (nh + 10) c m)) = field p l m.
Proof.
  intros Hm Hk Lc Hp. assert (length (splice (nh + 10) c m) = length m) as L by (apply length_splice; lia).
  rewrite !field_splice_other by (rewrite ?length_be_bytes; lia). done.
Qed.

Lemma l4_rel_addr_none k new c m : (nh + 20 <= length m)%nat -> (k = 12 \/ k = 16)%nat -> length c = 2%nat ->
  field (nh + 9) 1 m <> IPPROTO_TCP -> (field (nh + 9) 1 m = IPPROTO_UDP -> field (th + 6) 2 m = 0) ->
  l4_rel m (splice (nh + k) (be_bytes 4 new) (splice (nh + 10) c m)).
Proof.
  intros Hm Hk Lc Ht Hu. split; [by apply addr_other; [..|lia]|]. split; [done|]. intros E. rewrite (Hu E), Z.eqb_refl.
  rewrite addr_other by (done || lia). by apply Hu.
Qed.

Lemma l4_rel_addr k o c c' new m : (k = 12 \/ k = 16)%nat -> (th + len <= length m)%nat -> bytes m -> in_width 32 new ->
  0 <= c' <= 65535 -> length c = 2%nat -> bytes c ->
  (o = 16%nat /\ (20 <= len)%nat /\ field (nh + 9) 1 m = IPPROTO_TCP
   \/ o = 6%nat /\ field (nh + 9) 1 m = IPPROTO_UDP /\ field (th + 6) 2 m <> 0 /\ c' <> 0) ->
  let old := field (nh + k) 4 m in
  same_sum (c' - field (th + o) 2 m) ((old mod 65536 + old / 65536) - (new mod 65536 + new / 65536)) ->
  l4_rel m (splice (nh + k) (be_bytes 4 new) (splice (nh + 10) c (splice (th + o) (be_bytes 2 c') m))).
Proof.
  intros Hk Hl Hm Hnew Hc' Lc Bc Ho old Hs.
  assert ((o + 2 <= len)%nat /\ Nat.odd o = false) as [Hol Hodd] by (by destruct Ho as [(-> & ? & _)|(-> & _)]; split; [lia| |lia|]).
  assert (length (splice (th + o) (be_bytes 2 c') m) = length m) as L1 by (apply length_splice; rewrite length_be_bytes; lia).
  pose proof (l4_sum_set_addr k o c c' new m Hk Hodd Hol Hl Hm Hnew Hc' Lc Bc Hs) as Hsum.
  split; [rewrite addr_other by lia; apply field_splice_other; rewrite length_be_bytes; lia|]. split; [done|].
  intros E. destruct Ho as [(_ & _ & E')|(-> & _ & E0 & Hz)]; [by rewrite E in E'|]. rewrite (proj2 (Z.eqb_neq _ _) E0).
  split; [|done]. rewrite addr_other, field_splice_same by lia. done.
Qed.
End Transport.

(** ** Steps *)

(** [packet'] is [packet] with the header [h'], and with its transport header adapted. *)
Record changed (nh n : nat) (packet packet' : ofpbuf) (h' : list Z) : Prop := {
  ch_packet : packet' = with_mem (b_mem packet') packet;
  ch_length : length (b_mem packet') = length (b_mem packet);
  ch_bytes : bytes (b_mem packet');
  ch_front : take nh (b_mem packet') = take nh (b_mem packet);
  ch_header : sub nh n (b_mem packet') = h';
  ch_l4 : forall th len, b_l7 packet <> None -> b_l4 packet = Some th -> (l4_least (field (nh + 9) 1 (b_mem packet)) <= len)%nat ->
    (th + len <= length (b_mem packet))%nat -> l4_rel nh th len (b_mem packet) (b_mem packet')
}.

Abbreviation header_of nh n packet := (sub nh n (b_mem packet)).

Lemma layout_header nh n packet : layout nh n packet -> header (header_of nh n packet) /\ length (header_of nh n packet) = n.
Proof.
  intros [[Hm _] _ Hn Hr Hv _]. pose proof (length_sub nh n (b_mem packet) Hr) as Hl.
  split; [|done]. split; [by apply sub_bytes|lia|]. rewrite field_sub, Nat.add_0_r by lia. done.
Qed.

Lemma layout_field nh n packet k l : layout nh n packet -> (k + l <= n)%nat ->
  field (nh + k) l (b_mem packet) = field k l (header_of nh n packet).
Proof. intros _ H. by rewrite field_sub. Qed.

Lemma changed_refl nh n packet : layout nh n packet -> changed nh n packet packet (header_of nh n packet).
Proof. intros []. split; try done; [by destruct packet|apply la_inside0|intros; apply l4_rel_refl]. Qed.

Lemma changed_layout nh n packet packet' h' : layout nh n packet -> changed nh n packet packet' h' ->
  header h' -> field 9 1 h' = field 9 1 (header_of nh n packet) -> layout nh n packet'.
Proof.
  intros [[Hm Hi] E3 Hn Hr Hv H4] [Ep El Hb _ Eh _] Hh E9. 
  assert (b_data packet' = b_data packet /\ b_l3 packet' = b_l3 packet /\ b_l4 packet' = b_l4 packet /\ b_l7 packet' = b_l7 packet)
    as (Ed & E3' & E4 & E7) by by rewrite Ep.
  split; rewrite ?El, ?Ed, ?E3', ?E4, ?E7; try done.
  - split; [done|]. by rewrite El, Ed.
  - rewrite <- (Nat.add_0_r nh), <- (field_sub nh n) by lia. rewrite Eh. apply Hh.
  - rewrite <- (field_sub nh n) by lia. rewrite Eh, E9, field_sub by lia. done.
Qed.

Lemma changed_trans nh n packet p1 p2 h1 h2 : changed nh n packet p1 h1 -> changed nh n p1 p2 h2 -> changed nh n packet p2 h2.
Proof.
  intros [Ep El Hb Ef Eh H4] [Ep' El' Hb' Ef' Eh' H4']. 
  assert (b_l4 p1 = b_l4 packet /\ b_l7 p1 = b_l7 packet) as [E4 E7] by by rewrite Ep.
  split; [rewrite Ep', Ep; by destruct packet|congruence|done|congruence|done|].
  intros th len L7 L4 Hl Hr. pose proof (H4 th len L7 L4 Hl Hr) as R. apply (l4_rel_trans _ _ _ _ (b_mem p1)); [done|].
  apply H4'; [by rewrite E7|by rewrite E4|by rewrite (proj1 R)|by rewrite El].
Qed.

Lemma take_splice q p bs m : (q <= p)%nat -> (p + length bs <= length m)%nat -> take q (splice p bs m) = take q m.
Proof. intros H Hl. change (sub 0 q (splice p bs m) = sub 0 q m). by apply sub_splice_other; [|left]. Qed.

(** Two words of the header are replaced in the memory. *)
Lemma header_splices nh n k bs bs' m : (nh + n <= length m)%nat -> (k + length bs <= n)%nat -> (10 + length bs' <= n)%nat ->
  sub nh n (splice (nh + k) bs (splice (nh + 10) bs' m)) = splice k bs (splice 10 bs' (sub nh n m)).
Proof. intros Hm Hk Hk'. rewrite !sub_splice_in by (rewrite ?length_splice; lia). done. Qed.

Lemma set_byte_step nh n k shift new packet :
  layout nh n packet -> (k = 1%nat \/ k = 8%nat) -> in_width 8 new ->
  exists packet', packet_set_ipv4_byte (nh + k) shift new packet = Ret packet'
    /\ changed nh n packet packet' (set_byte k shift new (header_of nh n packet)).
Proof.
  intros Hla Hk Hnew. pose proof Hla as [[Hm _] E3 Hn Hr _ H4]. unfold packet_set_ipv4_byte, set_byte. rewrite E3.
  cbn [deref of_option mbind outcome_bind]. rewrite (load_at_ok (nh + k)), (load_at_ok (nh + 10)) by lia. cbn [mbind outcome_bind].
  rewrite <- (layout_field nh n packet k) by (done || lia).
  destruct (_ =? new); cbn [negb]; [exists packet; split; [done|by apply changed_refl]|].
  rewrite <- (layout_field nh n packet 10) by (done || lia).
  set (c := be_bytes 2 _). assert (length c = 2%nat) as Lc by done. set (b := be_bytes 1 new). assert (length b = 1%nat) as Lb by done.
  set (m := b_mem packet) in *. rewrite store_at_ok by (fold m; lia). cbn [mbind outcome_bind].
  rewrite store_at_ok by (lsimp; rewrite length_splice by (fold m; lia); fold m; lia). lsimp. eexists. split; [done|]. fold m.
  assert (length (splice (nh + 10) c m) = length m) as L1 by (apply length_splice; lia).
  split; lsimp; [done|..].
  - fold m. rewrite length_splice; lia.
  - apply bytes_splice; [apply be_bytes_bytes|]. apply bytes_splice; [apply be_bytes_bytes|done].
  - fold m. rewrite !take_splice by lia. done.
  - apply header_splices; lia.
  - fold m. intros th len L7 L4 Hl Hr'. destruct (H4 L7) as (th' & E & Hth & _). rewrite L4 in E. injection E as <-.
    pose proof (l4_least_8 (field (nh + 9) 1 m)). apply (l4_rel_trans _ _ _ _ (splice (nh + 10) c m)); apply (l4_rel_front _ n); lia.
Qed.

Definition set_field_addr (nh k : nat) (new : Z) (packet : ofpbuf) : outcome ofpbuf :=
  old ← load (nh + k) 4 packet;
  if negb (old =? new) then packet_set_ipv4_addr (nh + k) new packet else Ret packet.

Lemma udp_csum_same c : 0 <= c <= 65535 -> 0 < udp_csum c <= 65535 /\ same_sum (udp_csum c) c.
Proof. intros Hc. unfold udp_csum. destruct (Z.eqb_spec c 0) as [->|]; [done|]. split; [lia|done]. Qed.

Lemma same_sum_sub a b c : same_sum a b -> same_sum (a - c) (b - c).
Proof. intros H. destruct (same_sum_ex _ _ H) as (i & E). apply (same_sum_diff _ _ i). lia. Qed.

Lemma set_addr_l4 nh n k new packet th len : layout nh n packet -> (k = 12 \/ k = 16)%nat -> in_width 32 new ->
  b_l7 packet <> None -> b_l4 packet = Some th -> (l4_least (field (nh + 9) 1 (b_mem packet)) <= len)%nat ->
  (th + len <= length (b_mem packet))%nat ->
  let m := b_mem packet in
  let old := field (nh + k) 4 m in
  l4_rel nh th len m
    (splice (nh + k) (be_bytes 4 new)
       (splice (nh + 10) (be_bytes 2 (recalc_csum32 (field (nh + 10) 2 m) old new)) (l4_update nh old new packet))).
Proof.
  intros Hla Hk Hnew L7 L4 Hlen Hl m old. pose proof Hla as [[Hm _] _ Hn Hr _ H4].
  destruct (H4 L7) as (th' & E & Hth & _). rewrite L4 in E. injection E as <-. fold m in Hl, Hr, Hm, Hlen.
  assert (in_width 32 old) as Hold by (apply field_word; [done|lia]).
  assert (forall o, (th + o + 2 <= length m)%nat -> 0 <= field (th + o) 2 m <= 65535) as Hfb.
  { intros o Ho. pose proof (field_half (th + o) m Hm Ho) as H. unfold in_width in H. lia. }
  set (c := be_bytes 2 (recalc_csum32 (field (nh + 10) 2 m) old new)).
  assert (bytes c) as Bc by apply be_bytes_bytes. unfold l4_update, has_l7. rewrite L4.
  destruct (b_l7 packet) as [l7|]; [|done]. fold m. unfold l4_least in Hlen.
  destruct (Z.eqb_spec (field (nh + 9) 1 m) IPPROTO_TCP) as [Et|Et].
  - destruct (recalc_csum32_ok (field (th + 16) 2 m) old new) as [Hc' Hs]; [apply Hfb; lia|done|done|].
    apply (l4_rel_addr nh n th len); auto; lia.
  - destruct (Z.eqb_spec (field (nh + 9) 1 m) IPPROTO_UDP) as [Eu|Eu]; cbn [andb].
    2: { apply (l4_rel_addr_none nh n th len); done || lia. }
    destruct (Z.eqb_spec (field (th + 6) 2 m) 0) as [E0|E0]; cbn [negb].
    { apply (l4_rel_addr_none nh n th len); done || lia. }
    destruct (recalc_csum32_ok (field (th + 6) 2 m) old new) as [Hc' Hs]; [apply Hfb; lia|done|done|].
    destruct (udp_csum_same _ Hc') as [Hc2 Hs2]. apply (l4_rel_addr nh n th len); [lia|lia|lia|done|done|done|done|lia|done|done| |].
    + right. split_and!; [done|done|done|lia].
    + unfold same_sum in *. etransitivity; [by apply same_sum_sub|exact Hs].
Qed.

Lemma set_addr_step nh n k new packet :
  layout nh n packet -> (k = 12 \/ k = 16)%nat -> in_width 32 new ->
  exists packet', set_field_addr nh k new packet = Ret packet'
    /\ changed nh n packet packet' (set_addr k new (header_of nh n packet)).
Proof.
  intros Hla Hk Hnew. pose proof Hla as [[Hm _] E3 Hn Hr _ _]. unfold set_field_addr, set_addr.
  rewrite load_at_ok by lia. cbn [mbind outcome_bind]. rewrite <- (layout_field nh n packet k) by (done || lia).
  destruct (_ =? new) eqn:Eq; cbn [negb]; [exists packet; split; [done|by apply changed_refl]|].
  rewrite (set_ipv4_addr_mem nh n) by (done || lia). eexists. split; [done|].
  rewrite <- (layout_field nh n packet 10) by (done || lia).
  pose proof (l4_update_cases nh n (field (nh + k) 4 (b_mem packet)) new packet Hla) as Hmu.
  pose proof (fun th len => set_addr_l4 nh n k new packet th len Hla Hk Hnew) as Hl4.
  set (mu := l4_update _ _ _ _) in *. set (m := b_mem packet) in *. set (c := be_bytes 2 (recalc_csum32 _ _ _)) in *.
  assert (length c = 2%nat) as Lc by done. assert (bytes c) as Bc by apply be_bytes_bytes.
  set (bs := be_bytes 4 new) in *. assert (length bs = 4%nat) as Lb by done.
  assert (length mu = length m /\ bytes mu /\ take nh mu = take nh m /\ sub nh n mu = sub nh n m) as (L & B & Hf & Hs).
  { destruct Hmu as [->|(p & z & -> & Hp)]; [done|].
    rewrite length_splice, take_splice, sub_splice_other by (rewrite ?length_be_bytes; lia).
    split_and!; try done. apply bytes_splice; [apply be_bytes_bytes|done]. }
  assert (length (splice (nh + 10) c mu) = length mu) as L1 by (apply length_splice; lia).
  split; lsimp; [done|..]; fold m.
  - rewrite length_splice; lia.
  - apply bytes_splice; [apply be_bytes_bytes|by apply bytes_splice].
  - rewrite !take_splice by lia. done.
  - rewrite header_splices by lia. by rewrite Hs.
  - exact Hl4.
Qed.

(** ** Fields of the new header *)

Lemma set_addr_get k new h : header h -> (k + 4 <= 20)%nat -> in_width 32 new -> field k 4 (set_addr k new h) = new.
Proof.
  intros [_ Hl _] Hk Hn. unfold set_addr. destruct (Z.eqb_spec (field k 4 h) new) as [|]; [done|].
  apply field_splice_same; [rewrite length_put_csum by done; lia|done].
Qed.

Lemma set_byte_get k shift new h : header h -> (k + 1 <= 20)%nat -> in_width 8 new -> field k 1 (set_byte k shift new h) = new.
Proof.
  intros [_ Hl _] Hk Hn. unfold set_byte. destruct (Z.eqb_spec (field k 1 h) new) as [|]; [done|].
  apply field_splice_same; [rewrite length_put_csum by done; lia|done].
Qed.

Lemma sub_put_csum p l n k new c h : header h -> (k + n <= 20)%nat -> (p + l <= k \/ k + n <= p)%nat -> (p + l <= 10 \/ 12 <= p)%nat ->
  sub p l (splice k (be_bytes n new) (put_csum c h)) = sub p l h.
Proof.
  intros [_ Hl _] Hk Hd Hd'. pose proof (length_put_csum c h Hl) as L.
  rewrite sub_splice_other by (rewrite ?length_be_bytes; lia). apply sub_splice_other; rewrite ?length_be_bytes; lia.
Qed.

Lemma set_addr_other k new h p l : header h -> (k + 4 <= 20)%nat -> (p + l <= k \/ k + 4 <= p)%nat -> (p + l <= 10 \/ 12 <= p)%nat ->
  sub p l (set_addr k new h) = sub p l h.
Proof. intros. unfold set_addr. destruct (_ =? _); [done|]. by apply sub_put_csum. Qed.

Lemma set_byte_other k shift new h p l : header h -> (k + 1 <= 20)%nat -> (p + l <= k \/ k + 1 <= p)%nat -> (p + l <= 10 \/ 12 <= p)%nat ->
  sub p l (set_byte k shift new h) = sub p l h.
Proof. intros. unfold set_byte. destruct (_ =? _); [done|]. by apply sub_put_csum. Qed.

(** The header with all four fields. *)
Definition set_ipv4 (src dst tos ttl : Z) (h : list Z) : list Z :=
  set_byte 8 8 ttl (set_byte 1 0 tos (set_addr 16 dst (set_addr 12 src h))).

Lemma set_ipv4_ok src dst tos ttl h : header h -> in_width 32 src -> in_width 32 dst -> in_width 8 tos -> in_width 8 ttl ->
  let h' := set_ipv4 src dst tos ttl h in
  keeps h h' /\ field 12 4 h' = src /\ field 16 4 h' = dst /\ field 1 1 h' = tos /\ field 8 1 h' = ttl
  /\ forall p l, (p + l <= 1 \/ 2 <= p /\ p + l <= 8 \/ 9 <= p /\ p + l <= 10 \/ 20 <= p)%nat -> sub p l h' = sub p l h.
Proof.
  intros Hh Hs Hd Ht Hl h'. unfold h', set_ipv4. clear h'.
  pose proof (set_addr_keeps 12 src h Hh ltac:(lia) Hs) as K1. set (h1 := set_addr 12 src h) in *. pose proof (proj1 K1) as Hh1.
  pose proof (set_addr_keeps 16 dst h1 Hh1 ltac:(lia) Hd) as K2. set (h2 := set_addr 16 dst h1) in *. pose proof (proj1 K2) as Hh2.
  pose proof (set_byte_keeps 1 0 tos h2 Hh2 ltac:(auto) Ht) as K3. set (h3 := set_byte 1 0 tos h2) in *. pose proof (proj1 K3) as Hh3.
  pose proof (set_byte_keeps 8 8 ttl h3 Hh3 ltac:(auto) Hl) as K4. set (h4 := set_byte 8 8 ttl h3) in *.
  split; [by do 3 (eapply keeps_trans; [|eassumption])|].
  assert (forall p l, (p + l <= 8 \/ 9 <= p)%nat -> (p + l <= 10 \/ 12 <= p)%nat -> sub p l h4 = sub p l h3) as S4
    by (intros; apply set_byte_other; done || lia).
  assert (forall p l, (p + l <= 1 \/ 2 <= p)%nat -> (p + l <= 10 \/ 12 <= p)%nat -> sub p l h3 = sub p l h2) as S3
    by (intros; apply set_byte_other; done || lia).
  assert (forall p l, (p + l <= 16 \/ 20 <= p)%nat -> (p + l <= 10 \/ 12 <= p)%nat -> sub p l h2 = sub p l h1) as S2
    by (intros; apply set_addr_other; done || lia).
  assert (forall p l, (p + l <= 12 \/ 16 <= p)%nat -> (p + l <= 10 \/ 12 <= p)%nat -> sub p l h1 = sub p l h) as S1
    by (intros; apply set_addr_other; done || lia).
  split; [unfold field; rewrite S4, S3, S2 by lia; apply set_addr_get; done || lia|].
  split; [unfold field; rewrite S4, S3 by lia; apply set_addr_get; done || lia|].
  split; [unfold field; rewrite S4 by lia; apply set_byte_get; done || lia|].
  split; [apply set_byte_get; done || lia|]. intros p l Hp. rewrite S4, S3, S2, S1 by lia. done.
Qed.

(** On the way from [packet] to the new packet. *)
Record underway (nh n : nat) (packet p : ofpbuf) (h : list Z) : Prop := {
  un_changed : changed nh n packet p h;
  un_keeps : keeps (header_of nh n packet) h;
  un_proto : sub 9 1 h = sub 9 1 (header_of nh n packet)
}.

Lemma underway_layout nh n packet p h : layout nh n packet -> underway nh n packet p h -> layout nh n p.
Proof.
  intros Hla [C (Hh & _) E]. apply (changed_layout nh n packet p h); [done|done|done|]. unfold field. by rewrite E.
Qed.

Lemma underway_addr nh n packet p h k new : layout nh n packet -> underway nh n packet p h -> (k = 12 \/ k = 16)%nat -> in_width 32 new ->
  exists p', set_field_addr nh k new p = Ret p' /\ underway nh n packet p' (set_addr k new h).
Proof.
  intros Hla Hu Hk Hnew. pose proof (underway_layout _ _ _ _ _ Hla Hu) as L. destruct Hu as [C K E].
  destruct (set_addr_step nh n k new p L Hk Hnew) as (p' & E' & C'). rewrite (ch_header _ _ _ _ _ C) in C'.
  pose proof (proj1 K) as Hh. exists p'. split; [done|]. split.
  - by apply (changed_trans _ _ _ p _ h).
  - apply (keeps_trans _ h); [done|]. by apply set_addr_keeps.
  - rewrite <- E. apply set_addr_other; done || lia.
Qed.

Lemma underway_byte nh n packet p h k shift new : layout nh n packet -> underway nh n packet p h ->
  (k = 1%nat /\ shift = 0 \/ k = 8%nat /\ shift = 8) -> in_width 8 new ->
  exists p', packet_set_ipv4_byte (nh + k) shift new p = Ret p' /\ underway nh n packet p' (set_byte k shift new h).
Proof.
  intros Hla Hu Hk Hnew. pose proof (underway_layout _ _ _ _ _ Hla Hu) as L. destruct Hu as [C K E].
  destruct (set_byte_step nh n k shift new p L ltac:(tauto) Hnew) as (p' & E' & C'). rewrite (ch_header _ _ _ _ _ C) in C'.
  pose proof (proj1 K) as Hh. exists p'. split; [done|]. split.
  - by apply (changed_trans _ _ _ p _ h).
  - apply (keeps_trans _ h); [done|]. by apply set_byte_keeps.
  - rewrite <- E. apply set_byte_other; done || lia.
Qed.

Lemma packet_set_ipv4_unfold nh src dst tos ttl packet : b_l3 packet = Some nh ->
  packet_set_ipv4 src dst tos ttl packet
  = (p ← set_field_addr nh 12 src packet;
     p ← set_field_addr nh 16 dst p;
     p ← packet_set_ipv4_byte (nh + 1) 0 tos p;
     packet_set_ipv4_byte (nh + 8) 8 ttl p).
Proof.
  intros E. unfold packet_set_ipv4, set_field_addr. rewrite E. cbn [deref of_option mbind outcome_bind].
  destruct (load (nh + 12) 4 packet) as [z|]; cbn [mbind outcome_bind]; [|done].
  match goal with |- (?x ≫= _) = _ => destruct x as [p|]; cbn [mbind outcome_bind]; [|done] end.
  by destruct (load (nh + 16) 4 p).
Qed.

Lemma packet_set_ipv4_step nh n packet src dst tos ttl :
  layout nh n packet -> in_width 32 src -> in_width 32 dst -> in_width 8 tos -> in_width 8 ttl ->
  exists packet', packet_set_ipv4 src dst tos ttl packet = Ret packet'
    /\ underway nh n packet packet' (set_ipv4 src dst tos ttl (header_of nh n packet)).
Proof.
  intros Hla Hs Hd Ht Hl. rewrite (packet_set_ipv4_unfold nh) by apply Hla.
  assert (underway nh n packet packet (header_of nh n packet)) as U0.
  { split; [by apply changed_refl|apply keeps_refl, (layout_header nh n packet Hla)|done]. }
  destruct (underway_addr nh n packet _ _ 12 src Hla U0 ltac:(auto) Hs) as (p1 & -> & U1). cbn [mbind outcome_bind].
  destruct (underway_addr nh n packet _ _ 16 dst Hla U1 ltac:(auto) Hd) as (p2 & -> & U2). cbn [mbind outcome_bind].
  destruct (underway_byte nh n packet _ _ 1 0 tos Hla U2 ltac:(auto) Ht) as (p3 & -> & U3). cbn [mbind outcome_bind].
  destruct (underway_byte nh n packet _ _ 8 8 ttl Hla U3 ltac:(auto) Hl) as (p4 & -> & U4). by exists p4.
Qed.

(** ** The pseudo-header *)

(** What the checksum of a transport header is taken over. *)
Definition pseudo (nh th len : nat) (m : list Z) : list Z :=
  sub (nh + 12) 8 m ++ be_bytes 2 (field (nh + 9) 1 m) ++ be_bytes 2 (Z.of_nat len) ++ sub th len m.

Lemma pseudo_sum nh th len m : bytes m -> (nh + 20 <= length m)%nat -> Z.of_nat len <= 65000 ->
  psum false (pseudo nh th len m) = field (nh + 9) 1 m + Z.of_nat len + l4_sum nh th len m.
Proof.
  intros Hm Hl Hlen. pose proof (field_byte (nh + 9) m Hm ltac:(lia)) as Hp. unfold in_width in Hp.
  unfold pseudo, l4_sum. rewrite !psum_app. unfold parity. rewrite length_sub, !length_be_bytes by lia.
  change (xorb false (Nat.odd 8)) with false. repeat change (xorb false (Nat.odd 2)) with false. rewrite !psum_be_bytes2.
  rewrite !wrap_small by lia. lia.
Qed.

Lemma pseudo_ok nh th len m : bytes m -> (nh + 20 <= length m)%nat -> (th + len <= length m)%nat -> Z.of_nat len <= 65000 ->
  bytes (pseudo nh th len m) /\ short (pseudo nh th len m).
Proof.
  intros Hm Hl Ht Hlen. split.
  - unfold pseudo. repeat (apply Forall_app; split); try apply be_bytes_bytes; by apply sub_bytes.
  - unfold short, pseudo. rewrite !length_app, !length_be_bytes, !length_sub by lia. lia.
Qed.

(** The checksum of the transport header is valid. *)
Definition l4_valid (nh th len : nat) (m : list Z) : Prop := csum (pseudo nh th len m) = 0.

Lemma l4_valid_same nh th len m m' : bytes m -> bytes m' -> length m' = length m -> (nh + 20 <= length m)%nat ->
  (th + len <= length m)%nat -> Z.of_nat len <= 65000 ->
  field (nh + 9) 1 m' = field (nh + 9) 1 m -> 0 < field (nh + 9) 1 m ->
  same_sum (l4_sum nh th len m') (l4_sum nh th len m) -> l4_valid nh th len m -> l4_valid nh th len m'.
Proof.
  intros Hm Hm' El Hl Ht Hlen Ep Hp Hs. unfold l4_valid.
  destruct (pseudo_ok nh th len m) as [B S]; [done..|]. destruct (pseudo_ok nh th len m') as [B' S']; [done|lia|lia|done|].
  rewrite <- !verifies_csum by done. rewrite !verifies_sum, !pseudo_sum by (done || lia). rewrite Ep. intros [E0 _].
  assert (0 <= l4_sum nh th len m') as Hge.
  { unfold l4_sum. pose proof (psum_bound false _ (sub_bytes (nh + 12) 8 m' Hm')). pose proof (psum_bound false _ (sub_bytes th len m' Hm')). lia. }
  split; [|lia]. destruct (same_sum_ex _ _ Hs) as (i & E), (same_sum_ex _ _ E0) as (j & E').
  apply (same_sum_diff _ _ (i + j)). lia.
Qed.

(** How a change of the packet treats the transport header: a valid checksum stays valid, and
    UDP without a checksum stays without. *)
Definition l4_kept (nh th len : nat) (m m' : list Z) : Prop :=
  (field (nh + 9) 1 m = IPPROTO_TCP -> l4_valid nh th len m -> l4_valid nh th len m')
  /\ (field (nh + 9) 1 m = IPPROTO_UDP ->
      if field (th + 6) 2 m =? 0 then field (th + 6) 2 m' = 0
      else field (th + 6) 2 m' <> 0 /\ (l4_valid nh th len m -> l4_valid nh th len m')).

Lemma l4_rel_kept nh th len m m' : bytes m -> bytes m' -> length m' = length m -> (nh + 20 <= length m)%nat ->
  (th + len <= length m)%nat -> Z.of_nat len <= 65000 -> l4_rel nh th len m m' -> l4_kept nh th len m m'.
Proof.
  intros Hm Hm' El Hl Ht Hlen (Ep & Rt & Ru). split.
  - intros E. specialize (Rt E). apply l4_valid_same; try done. by rewrite E.
  - intros E. specialize (Ru E). destruct (_ =? 0); [done|]. destruct Ru as [Hn Hs]. split; [done|].
    apply l4_valid_same; try done. by rewrite E.
Qed.

(** ** Ports *)

Definition set_port (p : nat) (new : Z) (c : nat) (m : list Z) : list Z :=
  if field p 2 m =? new then m
  else splice p (be_bytes 2 new) (splice c (be_bytes 2 (recalc_csum16 (field c 2 m) (field p 2 m) new)) m).

Lemma packet_set_port_mem p new c packet : (p + 2 <= length (b_mem packet))%nat -> (c + 2 <= length (b_mem packet))%nat ->
  packet_set_port p new c packet = Ret (with_mem (set_port p new c (b_mem packet)) packet).
Proof.
  intros Hp Hc. unfold packet_set_port, set_port. rewrite (load_at_ok p), (load_at_ok c) by done. cbn [mbind outcome_bind].
  destruct (_ =? new); cbn [negb]; [by destruct packet|].
  rewrite store_at_ok by (rewrite length_be_bytes; lia). cbn [mbind outcome_bind]. rewrite store_at_ok; [done|].
  lsimp. rewrite length_splice; rewrite ?length_be_bytes; lia.
Qed.

Section SetPort.
(** A segment at [th] of [len] bytes, with a port at [i] and the checksum at [o]. *)
Variables th len i o : nat.
Variables (new : Z) (m : list Z).
Hypothesis Hi : Nat.odd i = false.
Hypothesis Ho : Nat.odd o = false.
Hypothesis Hio : (i + 2 <= o)%nat.
Hypothesis Hol : (o + 2 <= len)%nat.
Hypothesis Hlen : (th + len <= length m)%nat.
Hypothesis Hm : bytes m.
Hypothesis Hnew : in_width 16 new.

Let m' : list Z := set_port (th + i) new (th + o) m.

Lemma set_port_shape : length m' = length m /\ bytes m' /\ field (th + i) 2 m' = new
  /\ forall p l, (p + l <= th + i \/ th + i + 2 <= p)%nat -> (p + l <= th + o \/ th + o + 2 <= p)%nat -> sub p l m' = sub p l m.
Proof.
  unfold m', set_port. destruct (Z.eqb_spec (field (th + i) 2 m) new) as [|_]; [done|].
  set (c := be_bytes 2 (recalc_csum16 _ _ _)). assert (length c = 2%nat) as Lc by done. assert (bytes c) as Bc by apply be_bytes_bytes.
  assert (length (splice (th + o) c m) = length m) as L1 by (apply length_splice; lia).
  split; [rewrite length_splice; rewrite ?length_be_bytes; lia|].
  split; [apply bytes_splice; [apply be_bytes_bytes|by apply bytes_splice]|].
  split; [by apply field_splice_same; [lia|]|]. intros p l H1 H2.
  rewrite !sub_splice_other; rewrite ?length_be_bytes; done || lia.
Qed.

Lemma set_port_sum : same_sum (psum false (sub th len m')) (psum false (sub th len m)).
Proof.
  unfold m', set_port. destruct (Z.eqb_spec (field (th + i) 2 m) new) as [|_]; [done|].
  pose proof (field_half (th + i) m Hm ltac:(lia)) as Wp. pose proof (field_half (th + o) m Hm ltac:(lia)) as Wc. unfold in_width in *.
  pose proof (recalc_csum16_bound (field (th + o) 2 m) (field (th + i) 2 m) new ltac:(lia) ltac:(lia) ltac:(lia)) as Hr.
  destruct (same_sum_ex _ _ (recalc_same (field (th + o) 2 m) (field (th + i) 2 m) new ltac:(lia) ltac:(lia) ltac:(lia))) as (k & Ek).
  set (c := recalc_csum16 _ _ _) in *.
  rewrite !sub_splice_in by (rewrite ?length_splice, ?length_be_bytes; rewrite ?length_be_bytes; lia).
  set (s := sub th len m). assert (length s = len) as Ls by by apply length_sub.
  assert (length (splice o (be_bytes 2 c) s) = len) as Ls' by (rewrite length_splice; rewrite ?length_be_bytes; lia).
  rewrite !psum_splice by (rewrite length_be_bytes; lia). rewrite !length_be_bytes, Hi, Ho, !psum_be_bytes2, !wrap_small by lia.
  rewrite sub_splice_other by (rewrite ?length_be_bytes; lia). unfold s. rewrite !sub_sub by lia.
  rewrite (psum_word2 (sub (th + i) 2 m)), (psum_word2 (sub (th + o) 2 m)) by first [by apply sub_bytes | apply length_sub; lia].
  unfold field in Ek. apply (same_sum_diff _ _ k). lia.
Qed.
End SetPort.

(** With any pseudo-header [ph], which is not all zero. *)
Lemma segment_valid_same ph l l' : bytes ph -> bytes l -> bytes l' -> Nat.odd (length ph) = false -> psum false ph <> 0 ->
  length l' = length l -> short (ph ++ l) -> same_sum (psum false l') (psum false l) -> csum (ph ++ l) = 0 -> csum (ph ++ l') = 0.
Proof.
  intros Hp Hl Hl' Ho Hz El Hs E E0. assert (short (ph ++ l')) as Hs' by (unfold short in *; by rewrite length_app, El, <- length_app).
  apply verifies_csum in E0; [|by apply Forall_app|done]. apply verifies_csum; [by apply Forall_app|done|].
  apply verifies_sum in E0 as [E0 _]. apply verifies_sum. rewrite !psum_app in *. unfold parity in *. rewrite Ho in *. cbn [xorb] in *.
  pose proof (psum_bound false ph Hp). pose proof (psum_bound false l' Hl'). split; [|lia].
  destruct (same_sum_ex _ _ E) as (i & Ei), (same_sum_ex _ _ E0) as (j & Ej). apply (same_sum_diff _ _ (i + j)). lia.
Qed.

(** What the functions for ports do to the segment at [th], whose checksum is at [o]. *)
Record ports_set (th o : nat) (src dst : Z) (m m' : list Z) : Prop := {
  ps_length : length m' = length m;
  ps_bytes : bytes m';
  ps_src : field th 2 m' = src;
  ps_dst : field (th + 2) 2 m' = dst;
  ps_other : forall p l, (p + l <= th \/ th + 4 <= p)%nat -> (p + l <= th + o \/ th + o + 2 <= p)%nat -> sub p l m' = sub p l m
}.

Definition sum_kept (th len : nat) (m m' : list Z) : Prop := same_sum (psum false (sub th len m')) (psum false (sub th len m)).

Lemma both_ports th o len src dst m : Nat.odd o = false -> (4 <= o)%nat -> (o + 2 <= len)%nat -> (th + len <= length m)%nat -> bytes m ->
  in_width 16 src -> in_width 16 dst ->
  let m' := set_port (th + 2) dst (th + o) (set_port th src (th + o) m) in
  ports_set th o src dst m m' /\ sum_kept th len m m'.
Proof.
  intros Ho H4 Hol Hl Hm Hs Hd m'. unfold m'. clear m'.
  assert (set_port th src (th + o) m = set_port (th + 0) src (th + o) m) as -> by by rewrite Nat.add_0_r.
  destruct (set_port_shape th len 0 o src m) as (L1 & B1 & F1 & O1); [done || lia..|].
  pose proof (set_port_sum th len 0 o src m) as S1.
  set (m1 := set_port (th + 0) src (th + o) m) in *.
  destruct (set_port_shape th len 2 o dst m1) as (L2 & B2 & F2 & O2); [done || lia..|].
  pose proof (set_port_sum th len 2 o dst m1) as S2. set (m2 := set_port (th + 2) dst (th + o) m1) in *.
  rewrite Nat.add_0_r in *. split; [split; [lia|done| |done|]|].
  - unfold field in *. rewrite O2 by lia. done.
  - intros p l H1 H2. rewrite O2, O1 by lia. done.
  - unfold sum_kept, same_sum in *. rewrite S2, S1 by (done || lia). done.
Qed.

(** A checksum of UDP that has become zero. *)
Lemma ports_set_fix th len src dst m m' : ports_set th 6 src dst m m' -> sum_kept th len m m' -> (8 <= len)%nat ->
  (th + len <= length m)%nat -> field (th + 6) 2 m' = 0 ->
  let m2 := splice (th + 6) (be_bytes 2 0xffff) m' in
  ports_set th 6 src dst m m2 /\ sum_kept th len m m2.
Proof.
  intros [L B Es Ed Ho] S H8 Hl E0 m2. unfold m2, sum_kept in *. clear m2. split; [split|].
  - rewrite length_splice; rewrite ?length_be_bytes; lia.
  - apply bytes_splice; [apply be_bytes_bytes|done].
  - rewrite field_splice_other by (rewrite ?length_be_bytes; lia). done.
  - rewrite field_splice_other by (rewrite ?length_be_bytes; lia). done.
  - intros p l H1 H2. rewrite sub_splice_other by (rewrite ?length_be_bytes; lia). by apply Ho.
  - rewrite sub_splice_in by (rewrite ?length_be_bytes; lia). rewrite psum_splice by (rewrite length_be_bytes, length_sub; lia).
    rewrite length_be_bytes, sub_sub by lia. change (Nat.odd 6) with false. rewrite psum_be_bytes2.
    rewrite (psum_word2 (sub (th + 6) 2 m')) by first [by apply sub_bytes | apply length_sub; lia]. unfold field in E0. rewrite E0.
    change (u16 65535) with 65535. unfold same_sum in *. rewrite <- S. apply (same_sum_diff _ _ 1). lia.
Qed.

Lemma set_tcp_port_mem th src dst packet : inside packet -> b_l4 packet = Some th -> (th + 20 <= length (b_mem packet))%nat ->
  in_width 16 src -> in_width 16 dst ->
  exists m', packet_set_tcp_port src dst packet = Ret (with_mem m' packet)
    /\ forall len, (20 <= len)%nat -> (th + len <= length (b_mem packet))%nat ->
         ports_set th 16 src dst (b_mem packet) m' /\ sum_kept th len (b_mem packet) m'.
Proof.
  intros [Hm _] E Hl Hs Hd. unfold packet_set_tcp_port. rewrite E. cbn [deref of_option mbind outcome_bind].
  rewrite packet_set_port_mem by lia. cbn [mbind outcome_bind].
  rewrite packet_set_port_mem.
  2,3: lsimp; assert (length (set_port th src (th + 16) (b_mem packet)) = length (b_mem packet)) as -> by
    (unfold set_port; destruct (_ =? _); [done|]; rewrite !length_splice; rewrite ?length_splice; rewrite ?length_be_bytes; lia); lia.
  eexists. split; [done|]. intros len H20 Hlen. lsimp. by apply both_ports; try lia.
Qed.

Lemma length_set_port p new c m : (p + 2 <= length m)%nat -> (c + 2 <= length m)%nat -> length (set_port p new c m) = length m.
Proof.
  intros Hp Hc. unfold set_port. destruct (_ =? _); [done|].
  rewrite !length_splice; rewrite ?length_splice; rewrite ?length_be_bytes; lia.
Qed.

Lemma set_udp_port_mem th src dst packet : inside packet -> b_l4 packet = Some th -> (th + 8 <= length (b_mem packet))%nat ->
  in_width 16 src -> in_width 16 dst ->
  let m := b_mem packet in
  exists m', packet_set_udp_port src dst packet = Ret (with_mem m' packet) /\ ports_set th 6 src dst m m'
    /\ if field (th + 6) 2 m =? 0 then field (th + 6) 2 m' = 0
       else field (th + 6) 2 m' <> 0
            /\ forall len, (8 <= len)%nat -> (th + len <= length m)%nat -> sum_kept th len m m'.
Proof.
  intros [Hm _] E Hl Hs Hd m. unfold packet_set_udp_port. rewrite E. cbn [deref of_option mbind outcome_bind].
  rewrite (load_at_ok (th + 6) 2 packet) by lia. cbn [mbind outcome_bind]. fold m in Hm, Hl |- *.
  destruct (Z.eqb_spec (field (th + 6) 2 m) 0) as [E0|E0]; cbn [negb].
  - rewrite store_at_ok by (rewrite length_be_bytes; fold m; lia). cbn [mbind outcome_bind]. fold m.
    assert (length (splice th (be_bytes 2 src) m) = length m) as L by (apply length_splice; rewrite length_be_bytes; lia).
    rewrite store_at_ok by (rewrite length_be_bytes; lsimp; lia). lsimp. eexists. split; [done|].
    split; [split|].
    + rewrite length_splice; rewrite ?length_be_bytes; lia.
    + apply bytes_splice, bytes_splice; [apply be_bytes_bytes|apply be_bytes_bytes|done].
    + rewrite field_splice_other by (rewrite ?length_be_bytes; lia). by apply field_splice_same; [lia|].
    + by apply field_splice_same; [lia|].
    + intros p l H1 H2. rewrite !sub_splice_other; rewrite ?length_be_bytes; done || lia.
    + rewrite !field_splice_other; rewrite ?length_be_bytes; done || lia.
  - rewrite packet_set_port_mem by (fold m; lia). cbn [mbind outcome_bind]. fold m.
    assert (length (set_port th src (th + 6) m) = length m) as L by (apply length_set_port; lia).
    rewrite packet_set_port_mem by (lsimp; lia). cbn [mbind outcome_bind]. lsimp. set (m2 := set_port (th + 2) _ _ _).
    assert (length m2 = length m) as L2 by (unfold m2; rewrite length_set_port; lia).
    assert (forall len, (8 <= len)%nat -> (th + len <= length m)%nat -> ports_set th 6 src dst m m2 /\ sum_kept th len m m2) as HP
      by (intros; apply both_ports; done || lia).
    destruct (HP 8%nat ltac:(lia) ltac:(lia)) as [P _].
    rewrite load_at_ok by (lsimp; lia). cbn [mbind outcome_bind]. lsimp. destruct (Z.eqb_spec (field (th + 6) 2 m2) 0) as [Ez|Ez].
    + rewrite store_at_ok by (rewrite length_be_bytes; lsimp; lia). lsimp. eexists. split; [done|].
      assert (forall len, (8 <= len)%nat -> (th + len <= length m)%nat -> sum_kept th len m m2) as HS by (intros; by apply HP).
      split; [by apply (ports_set_fix th 8 src dst m m2 P (HS 8%nat ltac:(lia) ltac:(lia))); [|lia|]|].
      split; [rewrite field_splice_same by lia; done|]. intros len H8 Hlt. by apply (ports_set_fix th len src dst m m2 P (HS len H8 Hlt)).
    + exists m2. split; [done|]. split; [done|]. split; [done|]. intros. by apply HP.
Qed.

(** ** Properties *)

(** C23: rewriting an IPv4 header is safe, sets what it should and nothing else, and keeps
    checksums valid.  packet_set_ipv4 on a packet with a complete header of IPv4 (with or
    without options), and a complete transport header if there is a next layer, reads and
    writes inside the packet, which keeps its size, its pointers and what is in front of the
    header.  Then the four fields have their new values and all others of the header their old
    ones; a header checksum that was valid is valid; and so is the checksum of TCP or UDP, over
    the pseudo-header with the new addresses, while UDP without a checksum stays so. *)
Theorem packet_set_ipv4_ok nh n packet src dst tos ttl :
  layout nh n packet -> (n <= 60)%nat -> in_width 32 src -> in_width 32 dst -> in_width 8 tos -> in_width 8 ttl ->
  exists m', packet_set_ipv4 src dst tos ttl packet = Ret (with_mem m' packet)
    /\ let m := b_mem packet in
       let h := sub nh n m in let h' := sub nh n m' in
       length m' = length m /\ take nh m' = take nh m
    /\ field 12 4 h' = src /\ field 16 4 h' = dst /\ field 1 1 h' = tos /\ field 8 1 h' = ttl
    /\ take 1 h' = take 1 h /\ sub 2 6 h' = sub 2 6 h /\ sub 9 1 h' = sub 9 1 h /\ drop 20 h' = drop 20 h
    /\ (csum h = 0 -> csum h' = 0)
    /\ forall th len, b_l7 packet <> None -> b_l4 packet = Some th -> (l4_least (field (nh + 9) 1 m) <= len)%nat ->
         (th + len <= length m)%nat -> Z.of_nat len <= 65000 -> l4_kept nh th len m m'.
Proof.
  intros Hla H60 Hs Hd Ht Hl. destruct (packet_set_ipv4_step nh n packet src dst tos ttl Hla Hs Hd Ht Hl) as (p & E & [C K _]).
  destruct (layout_header nh n packet Hla) as [Hh Eh]. pose proof Hla as [[Hm _] _ Hn Hr _ _].
  destruct (set_ipv4_ok src dst tos ttl (header_of nh n packet) Hh Hs Hd Ht Hl) as (_ & F1 & F2 & F3 & F4 & F).
  destruct C as [Ep El Hb Hf Ehd Hl4]. exists (b_mem p). split; [by rewrite E, Ep|]. rewrite <- Ehd in *. intros m h h'.
  pose proof (proj1 (proj2 K)) as Elh.
  do 6 (split; [done|]). split; [exact (F 0%nat 1%nat ltac:(lia))|]. split; [apply F; lia|]. split; [apply F; lia|].
  split.
  { pose proof (F 20%nat (n - 20)%nat ltac:(lia)) as F20. unfold sub at 1 3 in F20.
    rewrite !take_ge in F20 by (rewrite length_drop; fold h h'; unfold h, h'; lia). exact F20. }
  assert (short h /\ short h') as [S S'] by (unfold short, h, h', m; rewrite Elh, Eh; lia).
  split.
  - intros E0. apply verifies_csum; [apply (hd_bytes _ (proj1 K))|done|]. apply (keeps_verifies h); [done|].
    apply verifies_csum; [apply Hh|done|done].
  - intros th len L7 L4 Hmin Hlt Hlen. apply l4_rel_kept; try done; [fold m in Hr; lia|]. by apply Hl4.
Qed.

(** A segment of TCP behind two bytes of headroom, with its pointers. *)
Definition sample_packet : ofpbuf :=
  MkBuf ([0; 0] ++ [2; 0; 0; 0; 0; 2; 2; 0; 0; 0; 0; 1; 8; 0]
         ++ [0x45; 0; 0; 40; 0; 0; 0; 0; 64; 6; 102; 206; 10; 0; 0; 1; 10; 0; 0; 2]
         ++ [156; 64; 0; 80; 0; 0; 0; 0; 0; 0; 0; 0; 80; 2; 0; 0; 255; 79; 0; 0])
    2 (Some 2%nat) (Some 16%nat) (Some 36%nat) (Some 56%nat).

Lemma sample_inside : inside sample_packet.
Proof. split; [repeat constructor; lia|cbn; lia]. Qed.

Lemma packet_set_ipv4_ok_witness :
  exists m', packet_set_ipv4 0x0a000003 0x0a000004 8 63 sample_packet = Ret (with_mem m' sample_packet)
    /\ let m := b_mem sample_packet in
       let h := sub 16 20 m in let h' := sub 16 20 m' in
       length m' = length m /\ take 16 m' = take 16 m
    /\ field 12 4 h' = 0x0a000003 /\ field 16 4 h' = 0x0a000004 /\ field 1 1 h' = 8 /\ field 8 1 h' = 63
    /\ take 1 h' = take 1 h /\ sub 2 6 h' = sub 2 6 h /\ sub 9 1 h' = sub 9 1 h /\ drop 20 h' = drop 20 h
    /\ (csum h = 0 -> csum h' = 0)
    /\ forall th len, b_l7 sample_packet <> None -> b_l4 sample_packet = Some th -> (l4_least (field (16 + 9) 1 m) <= len)%nat ->
         (th + len <= length m)%nat -> Z.of_nat len <= 65000 -> l4_kept 16 th len m m'.
Proof.
  apply (packet_set_ipv4_ok 16 20 sample_packet 0x0a000003 0x0a000004 8 63); [|lia|done|done|done|done].
  split; [exact sample_inside|done|lia|cbn; lia|done|]. intros _. exists 36%nat.
  split; [done|]. split; apply Nat.leb_le; vm_compute; reflexivity.
Defined.

(** The checksums of this packet are valid, before and after. *)
Lemma sample_checksums :
  csum (sub 16 20 (b_mem sample_packet)) = 0 /\ l4_valid 16 36 20 (b_mem sample_packet)
  /\ match packet_set_ipv4 0x0a000003 0x0a000004 8 63 sample_packet with
     | Ret p => csum (sub 16 20 (b_mem p)) = 0 /\ l4_valid 16 36 20 (b_mem p)
     | Stuck _ => False
     end.
Proof. vm_compute. done. Qed.

Definition pseudo_header (ph : list Z) (len : nat) : Prop :=
  bytes ph /\ Nat.odd (length ph) = false /\ psum false ph <> 0 /\ Z.of_nat (length ph + len) <= 65535.

Lemma sum_kept_valid ph th len m m' : pseudo_header ph len -> bytes m -> bytes m' -> length m' = length m ->
  (th + len <= length m)%nat -> sum_kept th len m m' -> csum (ph ++ sub th len m) = 0 -> csum (ph ++ sub th len m') = 0.
Proof.
  intros (Hp & Ho & Hz & Hs) Hm Hm' El Hl S. apply segment_valid_same; try done; try by apply sub_bytes.
  - rewrite !length_sub by lia. done.
  - unfold short. rewrite length_app, length_sub by lia. done.
Qed.

(** C25: rewriting ports sets both, changes nothing else, and keeps the checksum valid.  For TCP
    and for UDP, with a complete transport header: the functions write inside the packet, whose
    bytes outside the two ports and the checksum stay as they are; over any pseudo-header, of
    IPv4 or of IPv6, a valid checksum of the segment is valid after it.  For UDP a checksum that
    is not zero does not become zero, which would mean that there is none, and a packet without
    one stays without. *)
Theorem packet_set_ports_ok th packet src dst :
  inside packet -> b_l4 packet = Some th -> in_width 16 src -> in_width 16 dst ->
  let m := b_mem packet in
  let kept m' := forall ph len, pseudo_header ph len -> (8 <= len)%nat -> (th + len <= length m)%nat ->
    csum (ph ++ sub th len m) = 0 -> csum (ph ++ sub th len m') = 0 in
  ((th + 20 <= length m)%nat ->
    exists m', packet_set_tcp_port src dst packet = Ret (with_mem m' packet) /\ ports_set th 16 src dst m m'
      /\ forall ph len, pseudo_header ph len -> (20 <= len)%nat -> (th + len <= length m)%nat ->
           csum (ph ++ sub th len m) = 0 -> csum (ph ++ sub th len m') = 0)
  /\ ((th + 8 <= length m)%nat ->
    exists m', packet_set_udp_port src dst packet = Ret (with_mem m' packet) /\ ports_set th 6 src dst m m'
      /\ if field (th + 6) 2 m =? 0 then field (th + 6) 2 m' = 0 else field (th + 6) 2 m' <> 0 /\ kept m').
Proof.
  intros Hin E4 Hs Hd m kept. pose proof Hin as [Hm _]. split; intros Hl.
  - destruct (set_tcp_port_mem th src dst packet Hin E4 Hl Hs Hd) as (m' & E & HP). exists m'. split; [done|].
    destruct (HP 20%nat ltac:(lia) Hl) as [P _]. split; [done|]. intros ph len Hph H20 Hlen. destruct (HP len H20 Hlen) as [_ S].
    apply sum_kept_valid; try done; apply P.
  - destruct (set_udp_port_mem th src dst packet Hin E4 Hl Hs Hd) as (m' & E & P & HC). exists m'. split; [done|]. split; [done|].
    fold m in HC. destruct (_ =? 0); [done|]. destruct HC as [Hn S]. split; [done|]. intros ph len Hph H8 Hlen.
    apply sum_kept_valid; try done; [apply P|apply P|by apply S].
Qed.

Lemma packet_set_ports_ok_witness :
  let m := b_mem sample_packet in
  let kept m' := forall ph len, pseudo_header ph len -> (8 <= len)%nat -> (36 + len <= length m)%nat ->
    csum (ph ++ sub 36 len m) = 0 -> csum (ph ++ sub 36 len m') = 0 in
  ((36 + 20 <= length m)%nat ->
    exists m', packet_set_tcp_port 1 2 sample_packet = Ret (with_mem m' sample_packet) /\ ports_set 36 16 1 2 m m'
      /\ forall ph len, pseudo_header ph len -> (20 <= len)%nat -> (36 + len <= length m)%nat ->
           csum (ph ++ sub 36 len m) = 0 -> csum (ph ++ sub 36 len m') = 0)
  /\ ((36 + 8 <= length m)%nat ->
    exists m', packet_set_udp_port 1 2 sample_packet = Ret (with_mem m' sample_packet) /\ ports_set 36 6 1 2 m m'
      /\ if field (36 + 6) 2 m =? 0 then field (36 + 6) 2 m' = 0 else field (36 + 6) 2 m' <> 0 /\ kept m').
Proof. apply (packet_set_ports_ok 36 sample_packet 1 2); [exact sample_inside|done|done|done]. Defined.
