(* ===== verification/PacketIn.v ===== *)
(** * Packets: what is sent to the controller (execute_controller_action of ofproto/ofproto-dpif.c)

    The function brings a packet in line with the flow of the context: it removes the VLAN tag and
    inserts another, and rewrites the addresses and ports.  None of this faults on a packet whose
    header pointers flow_extract has set. *)
From S2P Require Import Prelude Hash Hmap Flow ClsRule Packet Csum Extract Rewrite.

Local Open Scope Z_scope.

(** ** Link layer *)

(** What lies from the network header on has not changed, but it may have been moved. *)
Record moved (l3 d : nat) (b b' : ofpbuf) : Prop := {
  mo_l3 : b_l3 b' = shift_ptr d (b_l3 b);
  mo_l4 : b_l4 b' = shift_ptr d (b_l4 b);
  mo_l7 : b_l7 b' = shift_ptr d (b_l7 b);
  mo_length : length (b_mem b') = (length (b_mem b) + d)%nat;
  mo_drop : drop (l3 + d) (b_mem b') = drop l3 (b_mem b)
}.

(** The header of the link layer is complete and in front of [l3]. *)
Record link_ok (l3 : nat) (b : ofpbuf) : Prop := {
  lk_inside : inside b;
  lk_l2 : b_l2 b = Some (b_data b);
  lk_l3 : b_l3 b = Some l3;
  lk_range : (b_data b + 14 <= l3 <= length (b_mem b))%nat
}.

Lemma shift_ptr_0 p : shift_ptr 0 p = p.
Proof. destruct p as [x|]; [|done]. cbn. by rewrite Nat.add_0_r. Qed.

Lemma moved_splice l3 b p bs : (p + length bs <= l3)%nat -> (l3 <= length (b_mem b))%nat -> moved l3 0 b (with_mem (splice p bs (b_mem b)) b).
Proof.
  intros Hp Hl. split; cbn; rewrite ?shift_ptr_0; try done.
  - rewrite length_splice; lia.
  - rewrite Nat.add_0_r. unfold splice. rewrite drop_app_ge, drop_app_ge; rewrite ?length_take; [|lia..].
    rewrite drop_drop. f_equal. lia.
Qed.

Lemma moved_trans l3 d d' b b1 b2 : moved l3 d b b1 -> moved (l3 + d) d' b1 b2 -> moved l3 (d + d') b b2.
Proof.
  intros [A1 A2 A3 A4 A5] [B1 B2 B3 B4 B5]. 
  assert (forall p, shift_ptr d' (shift_ptr d p) = shift_ptr (d + d') p) as Hs by (intros [x|]; [cbn; f_equal; lia|done]).
  split; [rewrite B1, A1; apply Hs|rewrite B2, A2; apply Hs|rewrite B3, A3; apply Hs|lia|].
  rewrite Nat.add_assoc, B5. exact A5.
Qed.

Lemma moved_field l3 d b b' k n : moved l3 d b b' -> field (l3 + d + k) n (b_mem b') = field (l3 + k) n (b_mem b).
Proof.
  intros [_ _ _ _ E]. unfold field, sub. assert (forall (l : list Z) i, drop (i + k) l = drop k (drop i l)) as Hd by (intros; by rewrite drop_drop).
  by rewrite !Hd, E.
Qed.

Lemma net_ok_moved l3 d b b' f : moved l3 d b b' -> net_ok b f l3 -> net_ok b' f (l3 + d).
Proof.
  intros Hm. unfold net_ok. rewrite (mo_l4 _ _ _ _ Hm), (mo_l7 _ _ _ _ Hm), (mo_length _ _ _ _ Hm).
  destruct (b_l4 b) as [l4|]; cbn [shift_ptr fmap option_fmap option_map]; [|by intros ->].
  intros (H1 & H2 & H3). split; [lia|]. rewrite (moved_field l3 d b b' 9) by done.
  pose proof (moved_field l3 d b b' 0 1 Hm) as E0. rewrite !Nat.add_0_r in E0. rewrite E0. split.
  - intros E. destruct (H2 E). split; [done|lia].
  - destruct (b_l7 b) as [l7|]; cbn; [lia|done].
Qed.

Lemma store_link l3 b p bs : link_ok l3 b -> (p + length bs <= l3)%nat -> bytes bs ->
  store p bs b = Ret (with_mem (splice p bs (b_mem b)) b) /\ link_ok l3 (with_mem (splice p bs (b_mem b)) b)
  /\ moved l3 0 b (with_mem (splice p bs (b_mem b)) b).
Proof.
  intros [[Hm Hi] E2 E3 Hr] Hp Hb. split; [apply store_at_ok; lia|]. split; [|apply moved_splice; lia].
  split; cbn; try done; [split; cbn; [by apply bytes_splice|]|]; rewrite length_splice; lia.
Qed.

Lemma eth_pop_ok l3 b : inside b -> b_l2 b = Some (b_data b) -> b_l3 b = Some l3 -> (b_data b + l2_min b <= l3 <= length (b_mem b))%nat ->
  exists b', eth_pop_vlan b = Ret b' /\ link_ok l3 b' /\ moved l3 0 b b' /\ field (b_data b' + 12) 2 (b_mem b') = l2_type b.
Proof.
  intros Hb E2 E3 Hr. pose proof Hb as [Hm Hi]. unfold eth_pop_vlan, l2_type, l2_min, vlan_tagged in *. rewrite E2.
  assert (moved l3 0 b b) as Mrefl by (split; rewrite ?shift_ptr_0, ?Nat.add_0_r; done).
  destruct (Nat.leb_spec 18 (b_size b)) as [H18|H18]; cbn [andb] in *.
  2: { exists b. split; [done|]. split; [split; done|]. split; [done|]. cbn. done. }
  cbn [deref of_option mbind outcome_bind]. unfold b_size in H18. rewrite (load_at_ok (b_data b + 12) 2 b) by lia. cbn [mbind outcome_bind].
  destruct (Z.eqb_spec (field (b_data b + 12) 2 (b_mem b)) ETH_TYPE_VLAN) as [Ev|Ev].
  2: { exists b. split; [done|]. split; [split; done|]. split; [done|]. cbn. done. }
  rewrite (load_bytes_ok (b_data b)), (load_bytes_ok (b_data b + 6)), (load_bytes_ok (b_data b + 16)) by lia. cbn [mbind outcome_bind].
  rewrite pull_ok by (unfold b_size; lia). cbn [mbind outcome_bind fst snd]. set (bs := _ ++ _ ++ _).
  assert (length bs = 14%nat) as Lb by (unfold bs; rewrite !length_app, !length_sub; lia).
  set (b1 := with_l2 _ _). assert (link_ok l3 b1) as L1.
  { split; [split; [done|cbn; lia]|done|done|cbn; lia]. }
  assert (bytes bs) as Bb by (unfold bs; repeat (apply Forall_app; split); by apply sub_bytes).
  destruct (store_link l3 b1 (b_data b1) bs L1 ltac:(cbn in *; lia) Bb) as (-> & L2 & M2). eexists. split; [done|]. split; [done|].
  split; [split; apply M2|]. cbn [b_data b_mem with_mem with_l2 with_data b1].
  change (b_data b1) with (b_data b + 4)%nat. change (b_mem b1) with (b_mem b). unfold field. f_equal.
  change (18 - 2)%nat with 16%nat.
  replace (sub (b_data b + 4 + 12) 2 (splice (b_data b + 4) bs (b_mem b))) with (sub 12 2 bs).
  - unfold bs. rewrite app_assoc. set (pre := sub (b_data b) 6 _ ++ _).
    assert (length pre = 12%nat) as Lp by (unfold pre; rewrite length_app, !length_sub; lia).
    pose proof (sub_app pre (sub (b_data b + 16) 2 (b_mem b)) 0 2) as E. rewrite Lp in E. etransitivity; [exact E|].
    apply take_ge. change (drop 0 ?l) with l. rewrite length_sub; lia.
  - symmetry. rewrite <- (sub_sub (b_data b + 4) 14 12 2) by lia. by rewrite sub_splice_same by lia.
Qed.
Lemma moved_headroom l3 d b : b_l3 b = Some l3 ->
  moved l3 d b (MkBuf (replicate d 0 ++ b_mem b) (b_data b + d) (shift_ptr d (b_l2 b)) (shift_ptr d (b_l3 b)) (shift_ptr d (b_l4 b))
    (shift_ptr d (b_l7 b))).
Proof.
  intros E. split; cbn; try done; [rewrite length_app, length_replicate; lia|].
  rewrite drop_app_ge; rewrite length_replicate; [f_equal; lia|lia].
Qed.

Lemma eth_push_ok l3 tci b : link_ok l3 b -> exists b' d, eth_push_vlan tci b = Ret b' /\ inside b' /\ moved l3 d b b'.
Proof.
  intros Hk. pose proof Hk as [[Hm Hi] E2 E3 Hr]. unfold eth_push_vlan.
  rewrite (load_bytes_ok (b_data b)), (load_bytes_ok (b_data b + 6)), (load_bytes_ok (b_data b + 12)) by lia. cbn [mbind outcome_bind].
  set (tmp := _ ++ _ ++ be_bytes 2 _ ++ _). assert (length tmp = 18%nat) as Lt by
    (unfold tmp; rewrite !length_app, !length_be_bytes, !length_sub; lia).
  assert (bytes tmp) as Bt by (unfold tmp; repeat (apply Forall_app; split); try apply be_bytes_bytes; by apply sub_bytes).
  assert (exists b1 d, ofpbuf_push_uninit 4 b = b1 /\ moved l3 d b b1 /\ bytes (b_mem b1) /\ (b_data b1 + 4 = b_data b + d)%nat)
    as (b1 & d & -> & M & Hm1 & Hd).
  { unfold ofpbuf_push_uninit, ofpbuf_prealloc_headroom. destruct (Nat.ltb_spec (b_data b) 4) as [H4|H4].
    - set (d := (Nat.max 4 64 - b_data b)%nat). assert (60 <= d)%nat as H60 by (unfold d; lia). do 2 eexists. split; [done|].
      split; [pose proof (moved_headroom l3 d b E3) as []; by split|].
      split; [cbn; apply Forall_app; split; [by apply Forall_replicate|done]|cbn; lia].
    - do 2 eexists. split; [done|].
      split; [|split; [done|cbn; instantiate (1 := 0%nat); lia]]. split; cbn; rewrite ?shift_ptr_0, ?Nat.add_0_r; done. }
  pose proof (mo_length _ _ _ _ M) as Lm. rewrite store_at_ok by lia. cbn [mbind outcome_bind]. do 2 eexists. split; [done|].
  split; [split; cbn; [by apply bytes_splice|rewrite length_splice; lia]|].
  pose proof (moved_splice (l3 + d) b1 (b_data b1) tmp ltac:(lia) ltac:(lia)) as M'.
  pose proof (moved_trans _ _ _ _ _ _ M M') as []. by split.
Qed.

(** The header of IPv4 that the pointers tell of. *)
Lemma net_layout b f l3 l4 : inside b -> b_l3 b = Some l3 -> b_l4 b = Some l4 -> net_ok b f l3 -> dl_type f = ETH_TYPE_IP ->
  layout l3 (l4 - l3) b.
Proof.
  intros Hb E3 E4 Hn Et. unfold net_ok in Hn. rewrite E4 in Hn. destruct Hn as (Hr & Hip & H7). destruct (Hip Et) as [Ep En].
  assert (field l3 1 (b_mem b) <> 0) as Hv by (intros E0; rewrite E0 in En; change (IP_IHL 0) with 0 in En; lia).
  split; [done|done|lia|lia|done|]. intros L7. exists l4. split; [done|]. destruct (b_l7 b) as [l7|]; [|done].
  unfold l4_min in H7. rewrite Ep in H7. unfold l4_least. lia.
Qed.

(** The second half of execute_controller_action. *)
Lemma controller_net_ok b f l3 : inside b -> b_l3 b = Some l3 -> net_ok b f l3 -> flow_ok f ->
  exists p, (match b_l4 b with
             | None => Ret b
             | Some _ =>
                 packet ← (if dl_type f =? ETH_TYPE_IP then packet_set_ipv4 (nw_src f) (nw_dst f) (nw_tos f) (nw_ttl f) b else Ret b);
                 match b_l7 packet with
                 | None => Ret packet
                 | Some _ =>
                     if nw_proto f =? IPPROTO_TCP then packet_set_tcp_port (tp_src f) (tp_dst f) packet
                     else if nw_proto f =? IPPROTO_UDP then packet_set_udp_port (tp_src f) (tp_dst f) packet
                     else Ret packet
                 end
             end) = Ret p /\ inside p.
Proof.
  intros Hb E3 Hn Hf. destruct (b_l4 b) as [l4|] eqn:E4; [|by exists b].
  assert (exists m1, (if dl_type f =? ETH_TYPE_IP then packet_set_ipv4 (nw_src f) (nw_dst f) (nw_tos f) (nw_ttl f) b else Ret b)
    = Ret (with_mem m1 b) /\ length m1 = length (b_mem b) /\ bytes m1) as (m1 & -> & L1 & B1).
  { destruct (Z.eqb_spec (dl_type f) ETH_TYPE_IP) as [Et|]; [|exists (b_mem b); split; [by destruct b|split; [done|apply Hb]]].
    pose proof (net_layout b f l3 l4 Hb E3 E4 Hn Et) as Hla.
    destruct (packet_set_ipv4_step l3 (l4 - l3) b (nw_src f) (nw_dst f) (nw_tos f) (nw_ttl f) Hla) as (p & -> & [[Ep El Bp _ _ _] _ _]); [apply Hf..|].
    exists (b_mem p). by rewrite <- Ep. }
  cbn [mbind outcome_bind]. set (b1 := with_mem m1 b). assert (inside b1) as Hb1 by (split; [done|]; cbn; rewrite L1; apply Hb).
  unfold net_ok in Hn. rewrite E4 in Hn. destruct Hn as (Hr & _ & H7). change (b_l7 b1) with (b_l7 b).
  destruct (b_l7 b) as [l7|]; [|by exists b1]. unfold l4_min in H7. assert (b_l4 b1 = Some l4) as E41 by done.
  assert (forall m2, length m2 = length m1 -> bytes m2 -> inside (with_mem m2 b1)) as Hin.
  { intros m2 E Bm2. split; [done|]. cbn. rewrite E. apply Hb1. }
  destruct (nw_proto f =? IPPROTO_TCP).
  - destruct (set_tcp_port_mem l4 (tp_src f) (tp_dst f) b1) as (m2 & -> & HP); [done|done|cbn; lia|apply Hf|apply Hf|].
    destruct (HP 20%nat ltac:(lia) ltac:(cbn; lia)) as [[] _]. eexists. split; [done|]. by apply Hin.
  - destruct (nw_proto f =? IPPROTO_UDP); [|by exists b1].
    destruct (set_udp_port_mem l4 (tp_src f) (tp_dst f) b1) as (m2 & -> & [] & _); [done|done|cbn; lia|apply Hf|apply Hf|].
    eexists. split; [done|]. by apply Hin.
Qed.

(** ** Property *)

(** C24: preparing a packet for the controller is safe.  When flow_extract has set the header
    pointers of a packet, execute_controller_action may be called with any flow of the same type
    and protocol, whatever the actions have done to its addresses, ports, VLAN and so on: the
    removal and the insertion of the VLAN tag, the assertion on the type, and the rewriting of
    the headers of IPv4, TCP and UDP neither fail nor touch a byte outside the packet. *)
Theorem controller_packet_safe packet skb_priority tun_id ofp_in_port packet' f0 f :
  inside packet -> in_width 32 skb_priority -> in_width 64 tun_id -> in_width 16 ofp_in_port ->
  flow_extract packet skb_priority tun_id ofp_in_port = Ret (packet', f0) ->
  flow_ok f -> dl_type f = dl_type f0 -> nw_proto f = nw_proto f0 ->
  exists p, controller_packet f packet' = Ret p /\ inside p.
Proof.
  intros Hb H1 H2 H3 E Hf Et Ep.
  destruct (flow_extract_ok packet skb_priority tun_id ofp_in_port Hb H1 H2 H3) as (q & g & E' & _ & Hh & Em & Ed & E2).
  rewrite E in E'. injection E' as <- <-. change (b_mem (unparsed packet)) with (b_mem packet) in Em.
  change (b_data (unparsed packet)) with (b_data packet) in Ed. change (b_l2 (unparsed packet)) with (Some (b_data packet)) in E2.
  assert (inside packet') as Hb' by (unfold inside; by rewrite Em, Ed). unfold controller_packet. rewrite E2. rewrite <- Ed in E2.
  unfold headers_ok in Hh. destruct (b_l3 packet') as [l3|] eqn:E3; [|by exists packet'].
  destruct Hh as (Hr & Hty & Hn). destruct (eth_pop_ok l3 packet' Hb' E2 E3 Hr) as (b1 & -> & K1 & M1 & F1). cbn [mbind outcome_bind].
  rewrite (lk_l2 _ _ K1). cbn [deref of_option mbind outcome_bind]. pose proof (lk_range _ _ K1) as R1.
  rewrite load_at_ok by lia. cbn [mbind outcome_bind]. rewrite F1.
  assert (negb ((l2_type packet' <? ETH_TYPE_MIN) || (l2_type packet' =? dl_type f)) = false) as ->.
  { apply negb_false_iff, orb_true_iff. destruct Hty as [Hty|Hty]; [left; by apply Z.ltb_lt|right; apply Z.eqb_eq; congruence]. }
  destruct (fo_dl_src f Hf) as [Ls Bs], (fo_dl_dst f Hf) as [Ld Bd].
  destruct (store_link l3 b1 (b_data b1 + 6) (dl_src f) K1 ltac:(lia) Bs) as (-> & K2 & M2). cbn [mbind outcome_bind].
  set (b2 := with_mem _ b1) in *.
  destruct (store_link l3 b2 (b_data b1) (dl_dst f) K2 ltac:(lia) Bd) as (-> & K3 & M3). cbn [mbind outcome_bind].
  set (b3 := with_mem _ b2) in *.
  assert (net_ok packet' f l3) as Hn' by (revert Hn; unfold net_ok, l4_min; by rewrite Et, Ep).
  assert (net_ok b3 f l3) as Hn3.
  { pose proof (net_ok_moved l3 0 packet' b1 f M1 Hn') as N1. rewrite Nat.add_0_r in *.
    pose proof (net_ok_moved l3 0 b1 b2 f M2 N1) as N2. rewrite Nat.add_0_r in *.
    pose proof (net_ok_moved l3 0 b2 b3 f M3 N2) as N3. by rewrite Nat.add_0_r in N3. }
  assert (exists b4 l3', (if has (vlan_tci f) VLAN_CFI then eth_push_vlan (vlan_tci f) b3 else Ret b3) = Ret b4
    /\ inside b4 /\ b_l3 b4 = Some l3' /\ net_ok b4 f l3') as (b4 & l3' & -> & I4 & L4 & N4).
  { destruct (has _ _); [|exists b3, l3; split; [done|split; [apply K3|split; [apply K3|done]]]].
    destruct (eth_push_ok l3 (vlan_tci f) b3 K3) as (b4 & d & -> & I4 & M4). exists b4, (l3 + d)%nat. split; [done|]. split; [done|].
    split; [rewrite (mo_l3 _ _ _ _ M4), (lk_l3 _ _ K3); done|by apply (net_ok_moved l3 d b3)]. }
  cbn [mbind outcome_bind]. by apply (controller_net_ok b4 f l3').
Qed.

Definition sample_result : ofpbuf * flow := match flow_extract sample_packet 0 0 1 with Ret r => r | Stuck _ => (sample_packet, flow_zero) end.

Lemma sample_result_ok : flow_ok sample_result.2.
Proof.
  destruct (flow_extract_ok sample_packet 0 0 1 sample_inside) as (q & g & E & Hg & _); [done|done|done|].
  unfold sample_result. by rewrite E.
Qed.

Lemma controller_packet_safe_witness :
  exists p, controller_packet (with_vlan_tci 0x1007 (with_nw_dst 9 sample_result.2)) sample_result.1 = Ret p /\ inside p.
Proof.
  apply (controller_packet_safe sample_packet 0 0 1 sample_result.1 sample_result.2);
    [exact sample_inside|done|done|done|vm_compute; reflexivity| |vm_compute; reflexivity|vm_compute; reflexivity].
  apply with_vlan_tci_ok; [done|]. apply with_nw_dst_ok; [done|].
  exact sample_result_ok.
Defined.
