(* ===== verification/Reserved.v ===== *)
(** * Reserved addresses (eth_addr_is_reserved of lib/packets.c)

    The static hash map of the function is a state that is passed on; it is filled by the first
    call.  The function tells the members of its array, which has the addresses that a bridge
    must never forward with two digits of their prefix exchanged. *)
From S2P Require Import Prelude Hash Hmap Flow StpData.

Local Open Scope Z_scope.

(** The array of nodes; a node of the map points into it. *)
Definition reserved_nodes : list Z :=
  [0x0108c2000000; 0x0108c2000001; 0x0108c2000002; 0x0108c2000003; 0x0108c2000004; 0x0108c2000005; 0x0108c2000006;
   0x0108c2000007; 0x0108c2000008; 0x0108c2000009; 0x0108c200000a; 0x0108c200000b; 0x0108c200000c; 0x0108c200000d;
   0x0108c200000e; 0x0108c200000f;
   0x00e02b000000; 0x00e02b000004; 0x00e02b000006;
   0x01000c000000; 0x01000ccccccc; 0x01000ccccccd; 0x01000ccdcdcd;
   0x01000cccccc0; 0x01000cccccc1; 0x01000cccccc2; 0x01000cccccc3; 0x01000cccccc4; 0x01000cccccc5; 0x01000cccccc6;
   0x01000cccccc7].

Definition eth_addr_to_uint64 (ea : list Z) : outcome Z :=
  match ea with
  | [a; b; c; d; e; f] =>
      Ret (Z.lor (Z.lor (Z.lor (Z.lor (Z.lor (Z.shiftl a 40) (Z.shiftl b 32)) (Z.shiftl c 24)) (Z.shiftl d 16)) (Z.shiftl e 8)) f)
  | _ => Stuck OutOfBounds
  end.

Definition reserved_hash (ea64 : Z) : Z := hash_2words (u32 ea64) (u32 (Z.shiftr ea64 32)).

(** The loop that fills the map. *)
Fixpoint insert_nodes (l : list Z) (p : nat) (addrs : hmap) : outcome hmap :=
  match l with
  | [] => Ret addrs
  | ea64 :: l => addrs ← hmap_insert addrs p (reserved_hash ea64); insert_nodes l (S p) addrs
  end.

(** The loop over a bucket. *)
Fixpoint search_bucket (ea64 : Z) (c : list hmap_node) : outcome bool :=
  match c with
  | [] => Ret false
  | x :: c => n ← of_option OutOfBounds (reserved_nodes !! node_ptr x); if n =? ea64 then Ret true else search_bucket ea64 c
  end.

Definition eth_addr_is_reserved (ea : list Z) (addrs : hmap) : outcome (bool * hmap) :=
  addrs ← (if hmap_is_empty addrs then insert_nodes reserved_nodes 0 addrs else Ret addrs);
  ea64 ← eth_addr_to_uint64 ea;
  c ← hmap_first_in_bucket addrs (reserved_hash ea64);
  found ← search_bucket ea64 c;
  Ret (found, addrs).

(** ** Facts *)

(** The map after the first call. *)
Definition filled_addrs : hmap := match insert_nodes reserved_nodes 0 hmap_init with Ret h => h | Stuck _ => hmap_init end.

Lemma filled_ok : insert_nodes reserved_nodes 0 hmap_init = Ret filled_addrs /\ hmap_is_empty filled_addrs = false.
Proof. split; vm_compute; reflexivity. Qed.

Lemma fill_ok addrs : addrs = hmap_init \/ addrs = filled_addrs ->
  (if hmap_is_empty addrs then insert_nodes reserved_nodes 0 addrs else Ret addrs) = Ret filled_addrs.
Proof.
  destruct filled_ok as [F1 F2]. intros [->| ->]; [|by rewrite F2].
  assert (hmap_is_empty hmap_init = true) as -> by done. rewrite F1. done.
Qed.

Lemma search_bucket_ok ea64 c : Forall (fun x => is_Some (reserved_nodes !! node_ptr x)) c ->
  search_bucket ea64 c = Ret (existsb (fun x => bool_decide (reserved_nodes !! node_ptr x = Some ea64)) c).
Proof.
  induction 1 as [|x c [n Hx] _ IH]; [done|]. cbn [search_bucket existsb]. rewrite Hx. cbn [of_option mbind outcome_bind].
  destruct (Z.eqb_spec n ea64) as [->|Hn]; [by rewrite bool_decide_true|].
  rewrite bool_decide_false by congruence. exact IH.
Qed.

(** The pointers of the filled map point into the array. *)
Lemma filled_inside : Forall (Forall (fun x => is_Some (reserved_nodes !! node_ptr x))) (buckets filled_addrs).
Proof. apply (bool_decide_unpack _). vm_compute. reflexivity. Qed.

(** Every address of the array is found in its bucket. *)
Lemma filled_complete ea64 c : ea64 ∈ reserved_nodes -> hmap_first_in_bucket filled_addrs (reserved_hash ea64) = Ret c ->
  search_bucket ea64 c = Ret true.
Proof.
  assert (forallb (fun ea64 => match c ← hmap_first_in_bucket filled_addrs (reserved_hash ea64); search_bucket ea64 c with
                               | Ret b => b | Stuck _ => false end) reserved_nodes = true) as H by (vm_compute; reflexivity).
  intros Hin%list_elem_of_In Ec. pose proof (proj1 (forallb_forall _ _) H _ Hin) as E. cbn beta in E. rewrite Ec in E. cbn [mbind outcome_bind] in E.
  destruct (search_bucket ea64 c) as [[]|]; done.
Qed.

Lemma filled_bucket hash : exists c, hmap_first_in_bucket filled_addrs hash = Ret c /\ Forall (fun x => is_Some (reserved_nodes !! node_ptr x)) c.
Proof.
  unfold hmap_first_in_bucket, bucket_index. assert (exists k, 0 <= k /\ Hmap.mask filled_addrs = Z.ones k /\ length (Hmap.buckets filled_addrs) = Z.to_nat (2 ^ k)) as (k & Hk & Em & El).
  { exists 4. split; [lia|]. split; vm_compute; reflexivity. }
  destruct (lookup_lt_is_Some_2 (buckets filled_addrs) (Z.to_nat (Z.land hash (Hmap.mask filled_addrs)))) as [c Ec].
  { rewrite Em, El, Z.land_ones by done. apply Z2Nat.inj_lt; [apply Z.mod_pos_bound, Z.pow_pos_nonneg; lia|apply Z.pow_nonneg; lia|].
    apply Z.mod_pos_bound, Z.pow_pos_nonneg; lia. }
  exists c. rewrite Ec. split; [done|]. exact (proj1 (Forall_lookup _ _) filled_inside _ _ Ec).
Qed.

Lemma search_filled ea64 :
  (c ← hmap_first_in_bucket filled_addrs (reserved_hash ea64); search_bucket ea64 c) = Ret (bool_decide (ea64 ∈ reserved_nodes)).
Proof.
  destruct (filled_bucket (reserved_hash ea64)) as (c & Ec & Hc). rewrite Ec. cbn [mbind outcome_bind].
  pose proof (search_bucket_ok ea64 c Hc) as Es. rewrite Es. f_equal. symmetry. destruct (existsb _ c) eqn:E.
  - apply existsb_exists in E as (x & _ & Ex%bool_decide_eq_true_1). apply bool_decide_true. by eapply list_elem_of_lookup_2.
  - apply bool_decide_false. intros Hin. pose proof (filled_complete ea64 c Hin Ec) as H. rewrite H in Es. discriminate.
Qed.

Lemma reserved_run ea ea64 addrs h r :
  eth_addr_to_uint64 ea = Ret ea64 -> (if hmap_is_empty addrs then insert_nodes reserved_nodes 0 addrs else Ret addrs) = Ret h ->
  (c ← hmap_first_in_bucket h (reserved_hash ea64); search_bucket ea64 c) = Ret r -> eth_addr_is_reserved ea addrs = Ret (r, h).
Proof.
  intros E Ef H. unfold eth_addr_is_reserved. rewrite Ef, E. cbn [mbind outcome_bind].
  destruct (hmap_first_in_bucket h (reserved_hash ea64)) as [c|]; [|done]. cbn [mbind outcome_bind] in *. by rewrite H.
Qed.

(** ** Properties *)

(** Eth_addr_is_reserved tells exactly the addresses of its array, on the first call, which
    fills the map, and on every later one. *)
Theorem reserved_exact ea addrs :
  words 6 8 ea -> addrs = hmap_init \/ addrs = filled_addrs ->
  exists ea64, eth_addr_to_uint64 ea = Ret ea64
    /\ eth_addr_is_reserved ea addrs = Ret (bool_decide (ea64 ∈ reserved_nodes), filled_addrs).
Proof.
  intros [Hl _] Ha. assert (exists ea64, eth_addr_to_uint64 ea = Ret ea64) as (ea64 & E).
  { do 6 (destruct ea as [|? ea]; [done|]). destruct ea; [by eexists|done]. }
  exists ea64. split; [done|]. exact (reserved_run _ _ _ _ _ E (fill_ok addrs Ha) (search_filled ea64)).
Qed.

Lemma reserved_exact_witness :
  exists ea64, eth_addr_to_uint64 [1; 8; 0xc2; 0; 0; 0] = Ret ea64
    /\ eth_addr_is_reserved [1; 8; 0xc2; 0; 0; 0] hmap_init = Ret (bool_decide (ea64 ∈ reserved_nodes), filled_addrs).
Proof. apply (reserved_exact [1; 8; 0xc2; 0; 0; 0] hmap_init); [|by left]. split; [done|]. repeat constructor; lia. Defined.

(** The address that spanning tree sends to, by lib/stp.c, is not one of them. *)
Lemma stp_not_reserved : eth_addr_is_reserved eth_addr_stp hmap_init = Ret (false, filled_addrs).
Proof. vm_compute. reflexivity. Qed.
