(* ===== verification/Learning.v ===== *)
(** * The learning switch (update_learning_table and the end of xlate_normal of
    ofproto/ofproto-dpif.c)

    What ordinary forwarding does with the MAC table: it learns the source of a packet, with
    the exception for gratuitous ARP packets on bonds, and sends the packet to the port its
    destination was learned on, or floods it.  The flow that results is cached with the tags of
    the lookup; what changes the table adds tags to the set of flows to revalidate.  The theorem
    says that this set has every cached flow that is out of date. *)
From S2P Require Import Prelude Tag Hash Hmap MacLearning Flow Packet.

Local Open Scope Z_scope.

(** The proofs never look into the hash functions. *)
#[local] Opaque mac_table_hash tag_create_deterministic.

(** ** Definitions *)

Definition eth_addr_is_broadcast (ea : list Z) : bool :=
  fold_left Z.land ea 255 =? 255.

Definition is_gratuitous_arp (f : flow) : bool :=
  (dl_type f =? ETH_TYPE_ARP) && eth_addr_is_broadcast (dl_dst f)
  && ((nw_proto f =? ARP_OP_REPLY)
      || ((nw_proto f =? ARP_OP_REQUEST) && (nw_src f =? nw_dst f))).

(** An input bundle: ofpp_none_bundle, or another by its address, with or without a bond. *)
Inductive in_bundle := NoneBundle | Bundle (addr : Z) (bond : bool).

(** [tag] is the value of tag_create_random in mac_learning_changed, [set] the revalidate_set
    of the ofproto. *)
Definition update_learning_table (f : flow) (vlan : Z) (ib : in_bundle) (now tag : Z) (set : tag_set)
  : mlm tag_set :=
  match ib with
  | NoneBundle => mret set
  | Bundle addr bond =>
      may ← mac_learning_may_learn (dl_src f) vlan;
      if negb may then mret set
      else
        mac ← mac_learning_insert (dl_src f) vlan now;
        locked ← (if is_gratuitous_arp f then
                    if negb bond then _ ← mac_entry_set_grat_arp_lock mac now; mret false
                    else e ← load_entry mac; mret (mac_entry_is_grat_arp_locked e now)
                  else mret false);
        if (locked : bool) then mret set
        else
          e ← load_entry mac;
          if mac_entry_is_new e || negb (me_port e =? addr) then
            _ ← modify_entry mac (set_port addr);
            t ← mac_learning_changed mac tag;
            mret (tag_set_add set t)
          else mret set
  end.

(** Where a packet goes. *)
Inductive normal_output := ToPort (addr : Z) | InputPort | Flood.

(** The end of xlate_normal, for a packet that came in on [addr]; [tags] are the tags of the flow. *)
Definition determine_output (dst : list Z) (vlan addr tags : Z) : mlm (normal_output * Z) :=
  r ← mac_learning_lookup dst vlan (Some tags);
  let tags := default tags r.2 in
  match r.1 with
  | Some mac =>
      e ← load_entry mac;
      mret (if negb (me_port e =? addr) then ToPort (me_port e) else InputPort, tags)
  | None => mret (Flood, tags)
  end.

(** What happens to the table: a packet is learned from, run() expires entries, the table is
    flushed, the aging time is set.  A change of the flood VLANs is not among them, since it can
    leave cached flows out of date (unflooded_vlan_keeps_flooding). *)
Inductive table_event :=
  | EvLearn (f : flow) (vlan : Z) (ib : in_bundle) (now tag : Z)
  | EvRun (now : Z)
  | EvFlush
  | EvIdleTime (t : Z).

Definition run_table_event (ev : table_event) (set : tag_set) : mlm tag_set :=
  match ev with
  | EvLearn f vlan ib now tag => update_learning_table f vlan ib now tag set
  | EvRun now => r ← mac_learning_run now (Some set); mret (default set r)
  | EvFlush => r ← mac_learning_flush (Some set); mret (default set r)
  | EvIdleTime t => _ ← mac_learning_set_idle_time t; mret set
  end.

Fixpoint run_table_events (evs : list table_event) (set : tag_set) : mlm tag_set :=
  match evs with
  | [] => mret set
  | ev :: evs => set ← run_table_event ev set; run_table_events evs set
  end.

(** ** What the flows see *)

(** The port and the tag of a key. *)
Definition look (secret : Z) (k : list Z * Z) (L : entries) : option Z * Z :=
  match find_key k L with
  | Some (_, e) => (Some (me_port e), me_tag e)
  | None => (None, tag_create_deterministic (key_hash secret k))
  end.

Definition tags_ok (L : entries) : Prop :=
  Forall (fun x => tag_is_valid (me_tag x.2) = true /\ word (me_tag x.2)) L.

(** The members that decide which lookups are made and which tags unknown addresses have. *)
Definition same_keys (m m' : mac_learning) : Prop :=
  ml_secret m' = ml_secret m /\ ml_flood_vlans m' = ml_flood_vlans m.

#[export] Instance same_keys_preorder : PreOrder same_keys.
Proof. split; [by repeat split|]. intros m1 m2 m3 (? & ?) (? & ?). unfold same_keys. by split_and!; etrans. Qed.

Lemma same_config_keys m m' : same_config m m' -> same_keys m m'.
Proof. by intros (? & ? & _). Qed.

Lemma same_learning m m' vlan : same_keys m m' -> learning_vlan m' vlan = learning_vlan m vlan.
Proof. intros [_ E]. unfold learning_vlan. by rewrite E. Qed.

Lemma tags_nonzero L : tags_ok L -> Forall (fun x => me_tag x.2 <> 0) L.
Proof. intros H. eapply Forall_impl; [exact H|]. intros x [Hx _]. by apply valid_nonzero. Qed.

Lemma look_valid m secret k L :
  ml_rep m L -> tags_ok L -> tag_is_valid (look secret k L).2 = true /\ word (look secret k L).2.
Proof.
  intros Hr Ht. unfold look. destruct (find_key k L) as [[p e]|] eqn:E; cbn [snd].
  - apply (find_key_Some m) in E as [Hin _]; [|done]. unfold tags_ok in Ht. rewrite Forall_forall in Ht.
    apply (Ht _ Hin).
  - destruct (create_deterministic_spec (key_hash secret k)). by split.
Qed.

Definition output_of (addr : Z) (port : option Z) : normal_output :=
  match port with
  | Some q => if negb (q =? addr) then ToPort q else InputPort
  | None => Flood
  end.

(** Multicast packets and VLANs without learning do not look at the table. *)
Lemma determine_output_ok m L k addr t b :
  ml_rep m L -> tags_ok L -> learning_vlan m k.2 = Some b ->
  determine_output k.1 k.2 addr t m
  = Ret (if eth_addr_is_multicast k.1 || negb b then (Flood, t)
         else (output_of addr (look (ml_secret m) k L).1, Z.lor t (look (ml_secret m) k L).2), m).
Proof.
  intros Hr Ht Hl. unfold determine_output. destruct (eth_addr_is_multicast k.1) eqn:Hm.
  { unfold mac_learning_lookup. by rewrite Hm. }
  destruct b; cbn [orb negb].
  - rewrite (cstate_bind_step _ _ _ _ _ (mac_learning_lookup_ok m L k (Some t) Hr Hm Hl (tags_nonzero _ Ht))).
    cbn [fst snd fmap option_fmap option_map default from_option id]. unfold a_lookup, look.
    destruct (find_key k L) as [[p e]|] eqn:E; cbn [fst snd]; [|done].
    apply (find_key_Some m) in E as [Hin _]; [|done].
    by rewrite (cstate_bind_step _ _ _ _ _ (load_entry_ok _ _ _ _ Hr Hin)).
  - unfold mac_learning_lookup. rewrite Hm.
    rewrite (cstate_bind_step _ _ m (None, Some t) m); [done|].
    by rewrite (cstate_bind_step _ _ _ _ _ (is_learning_vlan_ok _ _ _ Hl)).
Qed.

(** ** The entry at the back of the list *)

Lemma modify_last m L p e f :
  ml_rep m (L ++ [(p, e)]) -> keeps f ->
  exists m', modify_entry p f m = Ret (tt, m') /\ ml_rep m' (L ++ [(p, f e)]) /\ same_keys m m'.
Proof.
  intros Hr Hf. pose proof (rep_ptrs _ _ Hr) as Hd. rewrite fmap_app in Hd.
  apply NoDup_app in Hd as (_ & Hd & _).
  destruct (modify_entry_ok m _ p e f Hr ltac:(apply elem_of_app; right; by left) Hf) as (m' & E & Hr' & Hc & _).
  exists m'. split; [done|]. split; [|by apply same_config_keys].
  rewrite update_snoc in Hr'; [done|]. intros Hx. apply (Hd _ Hx). by left.
Qed.

Lemma load_last m L p e : ml_rep m (L ++ [(p, e)]) -> load_entry p m = Ret (e, m).
Proof. intros Hr. apply (load_entry_ok _ _ _ _ Hr), elem_of_app. right. by left. Qed.

(** The entries [L0] before the last are those of [L] with other keys than [k]. *)
Definition others (k : list Z * Z) (L L0 : entries) : Prop :=
  forall q d, (q, d) ∈ L0 <-> (q, d) ∈ L /\ key d <> k.

(** An insertion into a table with room. *)
Lemma insert_last m L k now :
  ml_rep m L -> (length L < 2048)%nat \/ find_key k L <> None ->
  exists L0 p e m', mac_learning_insert k.1 k.2 now m = Ret (p, m') /\ ml_rep m' (L0 ++ [(p, e)])
    /\ same_keys m m' /\ key e = k /\ others k L L0
    /\ match find_key k L with
       | Some (_, d) => me_tag e = me_tag d /\ me_port e = me_port d
       | None => me_tag e = 0 /\ me_grat_arp_lock e = TIME_MIN
       end.
Proof.
  intros Hr Hroom. destruct (mac_learning_insert_ok m L k now Hr) as (m' & E & Hr' & Hc).
  apply same_config_keys in Hc. unfold a_insert in *. destruct (find_key k L) as [[p e]|] eqn:Ek; cbn [fst snd] in *.
  - pose proof (proj1 (find_key_Some m L k p e Hr) Ek) as [Hin Hk].
    exists (take_out p L), p, (set_expires (now + ml_idle_time m) e), m'. split_and!; try done.
    intros q d. rewrite take_out_elem. split; intros [H1 H2].
    + split; [done|]. intros Hd. pose proof (proj2 (find_key_Some m L k q d Hr) (conj H2 Hd)). congruence.
    + split; [|done]. intros ->. by rewrite (rep_fun _ _ _ _ _ Hr H1 Hin) in H2.
  - destruct Hroom as [Hlen|]; [|done]. destruct (Nat.leb_spec 2048 (length L)); [lia|].
    eexists L, _, _, m'. split; [exact E|]. split; [exact Hr'|]. split; [done|]. split; [by destruct k|].
    split; [|done]. rewrite find_key_None in Ek. intros q d. split; [|by intros [? _]].
    intros Hin. split; [done|]. by apply (Ek q d).
Qed.

(** What the flows see of a list whose last entry has the key [k]. *)
Lemma look_last m m' L L0 p e k secret :
  ml_rep m L -> ml_rep m' (L0 ++ [(p, e)]) -> key e = k -> others k L L0 ->
  look secret k (L0 ++ [(p, e)]) = (Some (me_port e), me_tag e)
  /\ forall k', k' <> k -> look secret k' (L0 ++ [(p, e)]) = look secret k' L.
Proof.
  intros Hr Hr' Hk Ho. assert ((p, e) ∈ L0 ++ [(p, e)]) as Hin by (apply elem_of_app; right; by left). split.
  - unfold look. by rewrite (proj2 (find_key_Some m' _ k p e Hr') (conj Hin Hk)).
  - intros k' Hne. unfold look. destruct (find_key k' L) as [[q d]|] eqn:E.
    + apply (find_key_Some m) in E as [Hq Hd]; [|done].
      rewrite (proj2 (find_key_Some m' _ k' q d Hr')); [done|]. split; [|done].
      apply elem_of_app. left. apply Ho. split; [done|congruence].
    + assert (find_key k' (L0 ++ [(p, e)]) = None) as ->; [|done]. rewrite find_key_None in E |- *.
      intros q d Hq. apply elem_of_app in Hq as [Hq|Hq]; [apply (E q d); by apply Ho in Hq as [? _]|].
      apply list_elem_of_singleton in Hq. injection Hq as -> ->. congruence.
Qed.

Lemma tags_ok_last L L0 p e k :
  tags_ok L -> others k L L0 -> tag_is_valid (me_tag e) = true -> word (me_tag e) -> tags_ok (L0 ++ [(p, e)]).
Proof.
  intros Ht Ho Hv Hw. apply Forall_app. split; [|by apply Forall_singleton].
  unfold tags_ok in Ht. rewrite Forall_forall in Ht. apply Forall_forall. intros [q d] Hq. apply Ho in Hq as [Hq _].
  apply (Ht _ Hq).
Qed.

(** ** One event *)

(** The state after some events: [added] are the tags the set has, [ks] the keys of the entries. *)
Record learning_inv (ks : list (list Z * Z)) (m : mac_learning) (L : entries) (s : tag_set) (added : list Z)
  : Prop := {
  li_rep : ml_rep m L;
  li_tags : tags_ok L;
  li_keys : forall p e, (p, e) ∈ L -> key e ∈ ks;
  li_set : set_ok s added;
  li_words : Forall word added
}.

(** The operation [c] keeps the invariant, and what a flow sees of the table stays or is reported. *)
Definition reports (ks : list (list Z * Z)) (m : mac_learning) (L : entries) (added : list Z)
    (c : mlm tag_set) : Prop :=
  exists s' m' L' new, c m = Ret (s', m') /\ same_keys m m' /\ learning_inv ks m' L' s' (added ++ new)
    /\ forall k, (look (ml_secret m) k L).2 ∈ new \/ look (ml_secret m) k L' = look (ml_secret m) k L.

Lemma reports_nothing ks m L s added : learning_inv ks m L s added -> reports ks m L added (mret s).
Proof. intros H. exists s, m, L, []. rewrite app_nil_r. split_and!; try done. intros k. by right. Qed.

Lemma key_room ks m L s added k :
  learning_inv ks m L s added -> (length (remove_dups ks) <= 2048)%nat -> k ∈ ks ->
  (length L < 2048)%nat \/ find_key k L <> None.
Proof.
  intros H Hks Hk. destruct (find_key k L) eqn:E; [by right|left].
  eapply (keys_bound m L ks); [apply H|apply H|done|exact Hk|done].
Qed.

(** The last step of update_learning_table, on an entry at the back of the list that does not
    have the right port or no tag yet. *)
Lemma changed_reports ks m0 m L L0 s added p e k addr tag :
  learning_inv ks m0 L s added -> same_keys m0 m -> ml_rep m (L0 ++ [(p, e)]) -> key e = k -> others k L L0 ->
  k ∈ ks -> word tag -> tag_is_valid tag = true ->
  match find_key k L with Some (_, d) => me_tag e = me_tag d | None => me_tag e = 0 end ->
  exists s' m' L' new,
    (_ ← modify_entry p (set_port addr); t ← mac_learning_changed p tag; mret (tag_set_add s t)) m = Ret (s', m')
    /\ same_keys m0 m' /\ learning_inv ks m' L' s' (added ++ new)
    /\ forall k, (look (ml_secret m0) k L).2 ∈ new \/ look (ml_secret m0) k L' = look (ml_secret m0) k L.
Proof.
  intros [Hr Ht Hkeys Hs Hw] Hc Hr1 Hk Ho Hks Hwt Hvt Htag.
  destruct (modify_last m L0 p e (set_port addr) Hr1 (keeps_port _)) as (m2 & E2 & Hr2 & Hc2).
  rewrite (cstate_bind_step _ _ _ _ _ E2).
  destruct (mac_learning_changed_ok m2 _ p (set_port addr e) tag Hr2 ltac:(apply elem_of_app; right; by left))
    as (m3 & E3 & Hr3 & Hc3).
  rewrite (cstate_bind_step _ _ _ _ _ E3). apply same_config_keys in Hc3.
  pose proof (rep_ptrs _ _ Hr2) as Hd. rewrite fmap_app in Hd. apply NoDup_app in Hd as (_ & Hd & _).
  rewrite update_snoc in Hr3 by (intros Hx; apply (Hd _ Hx); by left).
  set (e' := set_tag tag (set_port addr e)) in *. assert (key e' = k) as Hk' by done.
  assert ((if me_tag (set_port addr e) =? 0 then make_unknown_mac_tag m2 (me_mac (set_port addr e)) (me_vlan (set_port addr e))
           else me_tag (set_port addr e)) = (look (ml_secret m0) k L).2) as Et.
  { unfold look, make_unknown_mac_tag. cbn [me_tag me_mac me_vlan set_port]. destruct Hc2 as [-> _], Hc as [-> _].
    destruct (find_key k L) as [[q d]|] eqn:Ek; cbn [snd]; rewrite Htag; [|rewrite <- Hk; done].
    apply (find_key_Some m0) in Ek as [Hin _]; [|done]. pose proof (tags_nonzero _ Ht) as Hz. rewrite Forall_forall in Hz.
    specialize (Hz _ Hin). cbn in Hz. by destruct (Z.eqb_spec (me_tag d) 0). }
  rewrite Et. destruct (look_valid m0 (ml_secret m0) k L Hr Ht) as [_ HwT].
  eexists _, m3, _, [(look (ml_secret m0) k L).2]. split; [reflexivity|]. split; [by etrans; [|etrans]|]. split.
  - split; [exact Hr3|by eapply tags_ok_last|..].
    + intros q d Hq. apply elem_of_app in Hq as [Hq|Hq]; [apply Ho in Hq as [Hq _]; by eapply Hkeys|].
      apply list_elem_of_singleton in Hq. injection Hq as -> ->. by rewrite Hk'.
    + by apply add_ok.
    + apply Forall_app. split; [done|]. by constructor.
  - destruct (look_last m0 m3 L L0 p e' k (ml_secret m0) Hr Hr3 Hk' Ho) as [_ Hother].
    intros k'. destruct (decide (k' = k)) as [->|Hne]; [left; by left|right; by apply Hother].
Qed.

(** An entry at the back that has the port and the tag of its key changes nothing. *)
Lemma kept_reports ks m0 m L L0 s added p e k :
  learning_inv ks m0 L s added -> same_keys m0 m -> ml_rep m (L0 ++ [(p, e)]) -> key e = k -> others k L L0 ->
  look (ml_secret m0) k L = (Some (me_port e), me_tag e) ->
  exists s' m' L' new, mret (M:=mlm) s m = Ret (s', m')
    /\ same_keys m0 m' /\ learning_inv ks m' L' s' (added ++ new)
    /\ forall k, (look (ml_secret m0) k L).2 ∈ new \/ look (ml_secret m0) k L' = look (ml_secret m0) k L.
Proof.
  intros [Hr Ht Hkeys Hs Hw] Hc Hr1 Hk Ho Hlook.
  destruct (look_last m0 m L L0 p e k (ml_secret m0) Hr Hr1 Hk Ho) as [Hself Hother].
  destruct (look_valid m0 (ml_secret m0) k L Hr Ht) as [Hv Hwd]. rewrite Hlook in Hv, Hwd. cbn [snd] in Hv, Hwd.
  exists s, m, (L0 ++ [(p, e)]), []. rewrite app_nil_r. split; [done|]. split; [done|]. split.
  - split; [done|by eapply tags_ok_last| |done..].
    intros q d Hq. apply elem_of_app in Hq as [Hq|Hq]; [apply Ho in Hq as [Hq _]; by eapply Hkeys|].
    apply list_elem_of_singleton in Hq. injection Hq as -> ->. rewrite Hk.
    unfold look in Hlook. destruct (find_key k L) as [[q d]|] eqn:Ek; [|done].
    apply (find_key_Some m0) in Ek as [Hin <-]; [|done]. by eapply Hkeys.
  - intros k'. right. destruct (decide (k' = k)) as [->|Hne]; [by rewrite Hself|by apply Hother].
Qed.

(** The arguments an event may have: the time is a time_t, and the VLAN is one of the bitmap. *)
Definition event_valid (m : mac_learning) (ev : table_event) : Prop :=
  match ev with
  | EvLearn _ vlan _ now tag =>
      TIME_MIN <= now /\ word tag /\ tag_is_valid tag = true /\ learning_vlan m vlan <> None
  | _ => True
  end.

Definition event_keys (ev : table_event) : list (list Z * Z) :=
  match ev with EvLearn f vlan _ _ _ => [(dl_src f, vlan)] | _ => [] end.

Lemma update_learning_table_reports ks m L s added f vlan ib now tag :
  learning_inv ks m L s added -> event_valid m (EvLearn f vlan ib now tag) ->
  (length (remove_dups ks) <= 2048)%nat -> (dl_src f, vlan) ∈ ks ->
  reports ks m L added (update_learning_table f vlan ib now tag s).
Proof.
  intros H (Hnow & Hwt & Hvt & Hl) Hks Hin. destruct ib as [|addr bond]; [by apply reports_nothing|].
  unfold update_learning_table, mac_learning_may_learn.
  destruct (learning_vlan m vlan) as [b|] eqn:El; [|done]. set (k := (dl_src f, vlan)) in *.
  unfold reports. rewrite cstate_bind_assoc, (cstate_bind_step _ _ _ _ _ (is_learning_vlan_ok _ _ _ El)).
  rewrite (cstate_bind_step _ _ _ _ m eq_refl). destruct (negb _); [by apply reports_nothing|].
  destruct (insert_last m L k now (li_rep _ _ _ _ _ H) (key_room _ _ _ _ _ k H Hks Hin))
    as (L0 & p & e & m1 & E1 & Hr1 & Hc1 & Hk & Ho & Hold).
  rewrite (cstate_bind_step _ _ _ _ _ E1).
  assert (exists e' m2 (locked : bool),
    (if is_gratuitous_arp f then
       if negb bond then _ ← mac_entry_set_grat_arp_lock p now; mret false
       else e ← load_entry p; mret (mac_entry_is_grat_arp_locked e now)
     else mret false) m1 = Ret (locked, m2)
    /\ ml_rep m2 (L0 ++ [(p, e')]) /\ same_keys m m2 /\ key e' = k /\ me_tag e' = me_tag e /\ me_port e' = me_port e
    /\ (locked = true -> find_key k L <> None)) as (e' & m2 & locked & E2 & Hr2 & Hc2 & Hk' & Et & Ep & Hlock).
  { destruct (is_gratuitous_arp f); [|by exists e, m1, false]. destruct bond; cbn [negb].
    - rewrite (cstate_bind_step _ _ _ _ _ (load_last _ _ _ _ Hr1)). eexists e, m1, _. split_and!; try done.
      unfold mac_entry_is_grat_arp_locked. intros Hlt%Z.ltb_lt Hnone. rewrite Hnone in Hold. destruct Hold as [_ Hg].
      unfold TIME_MIN in *. lia.
    - destruct (modify_last m1 L0 p e (set_lock (now + MAC_GRAT_ARP_LOCK_TIME)) Hr1 (keeps_lock _)) as (m2 & E2 & Hr2 & Hc2).
      unfold mac_entry_set_grat_arp_lock. rewrite (cstate_bind_step _ _ _ _ _ E2).
      eexists _, m2, false. split_and!; try done. by etrans. }
  rewrite (cstate_bind_step _ _ _ _ _ E2).
  assert (find_key k L <> None -> look (ml_secret m) k L = (Some (me_port e'), me_tag e')) as Hsame.
  { intros Hf. unfold look. destruct (find_key k L) as [[q d]|]; [|done]. destruct Hold as [-> ->] in Et, Ep. by rewrite Et, Ep. }
  destruct locked; [eapply kept_reports; eauto|].
  rewrite (cstate_bind_step _ _ _ _ _ (load_last _ _ _ _ Hr2)). unfold mac_entry_is_new.
  destruct ((me_tag e' =? 0) || negb (me_port e' =? addr)) eqn:Enew.
  - eapply changed_reports; eauto. rewrite Et. destruct (find_key k L) as [[q d]|]; [by destruct Hold|by destruct Hold].
  - apply orb_false_iff in Enew as [Hz _]. eapply kept_reports; eauto. apply Hsame. intros Hnone.
    rewrite Hnone in Hold. destruct Hold as [Hz' _]. by rewrite Et, Hz' in Hz.
Qed.

(** Expiry reports every entry it removes. *)
Lemma expire_look m m' L k due secret :
  ml_rep m L -> ml_rep m' (a_expire due L).2 ->
  (look secret k L).2 ∈ (fun x => me_tag x.2) <$> (a_expire due L).1
  \/ look secret k (a_expire due L).2 = look secret k L.
Proof.
  intros Hr Hr'. pose proof (a_expire_app due L) as Eapp.
  set (r := (a_expire due L).1) in *. set (kept := (a_expire due L).2) in *. unfold look.
  destruct (find_key k L) as [[p e]|] eqn:Ef; cbn [snd].
  - apply (find_key_Some m) in Ef as [Hin Hk]; [|done]. rewrite <- Eapp in Hin.
    apply elem_of_app in Hin as [Hin|Hin].
    + left. by apply (list_elem_of_fmap_2 (fun x : nat * mac_entry => me_tag x.2) r (p, e)).
    + right. by rewrite (proj2 (find_key_Some m' kept k p e Hr') (conj Hin Hk)).
  - right. assert (find_key k kept = None) as ->; [|done]. rewrite find_key_None in Ef |- *.
    intros q d Hq. apply (Ef q d). rewrite <- Eapp. apply elem_of_app. by right.
Qed.

Lemma expire_reports_tags ks m m' L s added due :
  learning_inv ks m L s added -> ml_rep m' (a_expire due L).2 -> same_keys m m' ->
  exists new, learning_inv ks m' (a_expire due L).2 (fold_left tag_set_add ((fun x => me_tag x.2) <$> (a_expire due L).1) s) (added ++ new)
    /\ forall k, (look (ml_secret m) k L).2 ∈ new \/ look (ml_secret m) k (a_expire due L).2 = look (ml_secret m) k L.
Proof.
  intros [Hr Ht Hkeys Hs Hw] Hr' Hc. pose proof (a_expire_app due L) as Eapp.
  exists ((fun x => me_tag x.2) <$> (a_expire due L).1).
  assert (tags_ok (a_expire due L).1 /\ tags_ok (a_expire due L).2) as [Ht1 Ht2]
    by (unfold tags_ok in *; rewrite <- Eapp in Ht; by apply Forall_app in Ht).
  assert (Forall word ((fun x => me_tag x.2) <$> (a_expire due L).1)) as Hw'
    by (apply Forall_fmap; eapply Forall_impl; [exact Ht1|]; by intros x [_ ?]).
  split; [|intros k; by apply (expire_look m m')]. split; [done|done| |by apply adds_ok|by apply Forall_app].
  intros p e Hin. apply (Hkeys p e). rewrite <- Eapp. apply elem_of_app. by right.
Qed.

Lemma shifted_look secret d k L : look secret k (shifted d L) = look secret k L.
Proof.
  unfold look, shifted, find_key. induction L as [|[p e] L IH]; [done|]. cbn [fmap list_fmap find_first fst snd].
  change (has_key k (p, set_expires (me_expires e + d) e)) with (has_key k (p, e)). destruct (has_key k (p, e)); [done|exact IH].
Qed.

Lemma shifted_inv ks m m' L s added d :
  learning_inv ks m L s added -> ml_rep m' (shifted d L) -> learning_inv ks m' (shifted d L) s added.
Proof.
  intros [Hr Ht Hkeys Hs Hw] Hr'. split; [done| | |done|done].
  - unfold tags_ok, shifted in *. apply Forall_fmap. exact Ht.
  - intros p e Hin. unfold shifted in Hin. apply list_elem_of_fmap in Hin as ([q x] & [= -> ->] & Hin).
    by apply (Hkeys q x).
Qed.

Lemma run_event_reports ks m L s added ev :
  learning_inv ks m L s added -> event_valid m ev -> (length (remove_dups ks) <= 2048)%nat ->
  (forall k, k ∈ event_keys ev -> k ∈ ks) -> reports ks m L added (run_table_event ev s).
Proof.
  intros H Hev Hks Hk. pose proof (li_rep _ _ _ _ _ H) as Hr. destruct ev as [f vlan ib now tag|now| |t].
  - apply update_learning_table_reports; try done. apply Hk. by left.
  - destruct (mac_learning_run_ok m L now (Some s) Hr) as (m' & E & Hr' & Hc). apply same_config_keys in Hc.
    destruct (expire_reports_tags _ _ _ _ _ _ _ H Hr' Hc) as (new & Hi & Hl).
    unfold reports, run_table_event. rewrite (cstate_bind_step _ _ _ _ _ E). eexists _, m', _, new. by split_and!.
  - destruct (mac_learning_flush_ok m L (Some s) Hr) as (m' & E & Hr' & Hc). apply same_config_keys in Hc.
    pose proof (expire_reports_tags ks m m' L s added (is_due true 0) H) as Hx. rewrite a_expire_all in Hx.
    destruct (Hx Hr' Hc) as (new & Hi & Hl).
    unfold reports, run_table_event. rewrite (cstate_bind_step _ _ _ _ _ E). eexists _, m', _, new. by split_and!.
  - destruct (mac_learning_set_idle_time_ok m L t Hr) as (m' & E & Hr' & Hc1 & Hc2 & _).
    unfold reports, run_table_event. rewrite (cstate_bind_step _ _ _ _ _ E). eexists s, m', _, []. split; [done|].
    split; [done|]. rewrite app_nil_r. split; [by eapply shifted_inv|]. intros k. right. apply shifted_look.
Qed.

(** ** Sequences *)

Lemma run_events_report evs : forall ks m L s added,
  learning_inv ks m L s added -> Forall (event_valid m) evs -> (length (remove_dups ks) <= 2048)%nat ->
  (forall ev k, ev ∈ evs -> k ∈ event_keys ev -> k ∈ ks) -> reports ks m L added (run_table_events evs s).
Proof.
  induction evs as [|ev evs IH]; intros ks m L s added H Hev Hks Hk; cbn [run_table_events];
    [by apply reports_nothing|].
  apply Forall_cons in Hev as [Hev Hevs].
  destruct (run_event_reports _ _ _ _ _ ev H Hev Hks) as (s1 & m1 & L1 & new1 & E1 & Hc1 & H1 & Hl1);
    [intros k; apply Hk; by left|].
  assert (Forall (event_valid m1) evs) as Hevs1.
  { eapply Forall_impl; [exact Hevs|]. intros []; cbn; [|done..]. by rewrite (same_learning _ _ _ Hc1). }
  destruct (IH ks m1 L1 s1 _ H1 Hevs1 Hks) as (s2 & m2 & L2 & new2 & E2 & Hc2 & H2 & Hl2);
    [intros ev' k Hin; apply Hk; by right|].
  exists s2, m2, L2, (new1 ++ new2). rewrite (cstate_bind_step _ _ _ _ _ E1). split; [exact E2|].
  split; [by etrans|]. rewrite app_assoc. split; [done|]. rewrite (proj1 Hc1) in Hl2.
  intros k. destruct (Hl1 k) as [Hin|Heq]; [left; apply elem_of_app; by left|].
  destruct (Hl2 k) as [Hin|Heq']; [left; apply elem_of_app; right; by rewrite <- Heq|right; by rewrite Heq'].
Qed.

(** A valid tag meets every set of bits that has it. *)
Lemma tag_in_tags T t : tag_is_valid T = true -> tag_intersects T (Z.lor t T) = true.
Proof.
  intros Hv. pose proof (valid_self T Hv) as Hs. unfold tag_intersects in *. rewrite Z.land_diag in Hs.
  assert (Z.land T (Z.lor t T) = T) as ->; [|done].
  apply Z.bits_inj'. intros i Hi. rewrite Z.land_spec, Z.lor_spec. by destruct (Z.testbit T i), (Z.testbit t i).
Qed.

Lemma dups_le {A} `{EqDecision A} (l1 l2 : list A) :
  (forall x, x ∈ l1 -> x ∈ l2) -> (length (remove_dups l1) <= length (remove_dups l2))%nat.
Proof.
  intros H. apply submseteq_length, NoDup_submseteq; [apply NoDup_remove_dups|].
  intros x. rewrite !elem_of_remove_dups. apply H.
Qed.

(** The keys of the table and of the packets learned from. *)
Definition keys_of (L : entries) (evs : list table_event) : list (list Z * Z) :=
  ((fun x => key x.2) <$> L) ++ concat (event_keys <$> evs).

(** ** Properties *)

(** C16: no cached flow that depends on the MAC table escapes revalidation.  Take a table whose
    entries have valid tags, and a packet to any address, with a VLAN that the bitmap of flood
    VLANs covers, that came in on any port: the lookup gives it an output and tags [T].  Then let anything happen to the table: packets are learned
    from, with any source, port and random tag, new, moved or gratuitous ARP on a bond; entries
    expire; the table is flushed; the aging time is changed.  If the table and these packets
    have at most the 2048 addresses the table has room for (otherwise an eviction goes
    unreported, see eviction_loses_tag), the functions return, the table is again one to which
    this applies, and either the revalidate set meets [T], or the lookup in the new table gives
    the packet the same output and the same tags. *)
Theorem mac_tag_protocol m L k addr t evs :
  ml_rep m L -> tags_ok L -> word t -> learning_vlan m k.2 <> None ->
  Forall (event_valid m) evs -> (length (remove_dups (keys_of L evs)) <= 2048)%nat ->
  exists out T s m' L',
    determine_output k.1 k.2 addr t m = Ret ((out, T), m)
    /\ run_table_events evs tag_set_init m = Ret (s, m')
    /\ ml_rep m' L' /\ tags_ok L' /\ (forall vlan, learning_vlan m' vlan = learning_vlan m vlan)
    /\ (tag_set_intersects s T = true \/ determine_output k.1 k.2 addr t m' = Ret ((out, T), m')).
Proof.
  intros Hr Ht Hwt Hl Hev Hroom. destruct (learning_vlan m k.2) as [b|] eqn:El; [|done].
  assert (learning_inv (keys_of L evs) m L tag_set_init []) as Hi.
  { split; [done|done| |apply init_ok|constructor]. intros p e Hin. apply elem_of_app. left.
    by apply (list_elem_of_fmap_2 (fun x : nat * mac_entry => key x.2) L (p, e)). }
  destruct (run_events_report evs _ m L _ _ Hi Hev Hroom) as (s & m' & L' & new & E & Hc & Hi' & Hrep).
  { intros ev k' Hin Hk'. apply elem_of_app. right. apply list_elem_of_In, in_concat. exists (event_keys ev).
    split; apply list_elem_of_In; [by apply list_elem_of_fmap_2|done]. }
  pose proof (same_learning m m' k.2 Hc) as El'. rewrite El in El'. destruct Hi' as [Hr' Ht' _ Hs' Hw'].
  rewrite app_nil_l in *. destruct Hc as [Hsec Hfl].
  pose proof (determine_output_ok m L k addr t b Hr Ht El) as E1.
  pose proof (determine_output_ok m' L' k addr t b Hr' Ht' El') as E2. rewrite Hsec in E2.
  assert (forall vlan, learning_vlan m' vlan = learning_vlan m vlan) as Hvlan by (intros vlan; by apply same_learning).
  destruct (eth_addr_is_multicast k.1 || negb b); eexists _, _, s, m', L'; split_and!; try done; [by right|].
  destruct (Hrep k) as [Hin|Heq]; [left|right; by rewrite Heq in E2].
  destruct (look_valid m (ml_secret m) k L Hr Ht) as [Hv Hw].
  eapply ok_intersects; [exact Hs'|exact Hw'|by apply word_lor|exact Hin|by apply tag_in_tags].
Qed.

(** *** A change of the flood VLANs *)

(** set_flood_vlans of ofproto/ofproto-dpif.c. *)
Definition set_flood_vlans (bitmap : option (list Z)) (set : tag_set) : mlm tag_set :=
  changed ← mac_learning_set_flood_vlans bitmap;
  if (changed : bool) then r ← mac_learning_flush (Some set); mret (default set r) else mret set.

Definition demo_from (mac : list Z) : flow := with_dl_src mac flow_zero.
Definition mac_a : list Z := [0; 35; 32; 1; 2; 3].
Definition mac_b : list Z := [0; 35; 32; 1; 2; 4].

(** A flow that was flooded because of its VLAN has no tag.  When the VLAN stops being a flood
    VLAN, only the entries of the table are reported, of which there are none in the VLAN; and
    when the destination is then learned, its tag meets no flow without tags.  The cached flow
    keeps flooding, although a lookup would now send the packet to the port. *)
Lemma unflooded_vlan_keeps_flooding :
  exists m0 m s m',
    mac_learning_set_flood_vlans (Some [1]) (mac_learning_create 300 7) = Ret (true, m0)
    /\ determine_output mac_a 0 1 0 m0 = Ret ((Flood, 0), m0)
    /\ set_flood_vlans None tag_set_init m0 = Ret (tag_set_init, m)
    /\ update_learning_table (demo_from mac_a) 0 (Bundle 2 false) 1000 3 tag_set_init m = Ret (s, m')
    /\ determine_output mac_a 0 1 0 m' = Ret ((ToPort 2, 3), m')
    /\ tag_set_intersects s 0 = false.
Proof.
  do 4 eexists. split; [vm_compute; reflexivity|]. split; [vm_compute; reflexivity|].
  split; [vm_compute; reflexivity|]. split; [vm_compute; reflexivity|].
  split; vm_compute; reflexivity.
Qed.

(** ** Witness *)

(** A table that has learned one address; what then happens is that the other address is
    learned, that the first is seen again at its port, and that time passes. *)
Definition demo_first : table_event := EvLearn (demo_from mac_a) 10 (Bundle 1 false) 1000 3.
Definition demo_later : list table_event :=
  [EvLearn (demo_from mac_b) 10 (Bundle 4 true) 1001 5; EvLearn (demo_from mac_a) 10 (Bundle 1 false) 1002 9; EvRun 1100].

Definition demo_table : mac_learning :=
  match run_table_event demo_first tag_set_init (mac_learning_create 300 7) with
  | Ret (_, m) => m
  | Stuck _ => mac_learning_create 300 7
  end.

Lemma demo_table_ok : exists L, ml_rep demo_table L /\ tags_ok L
  /\ (length (remove_dups (keys_of L demo_later)) <= 2048)%nat.
Proof.
  set (ks := [(mac_a, 10)]).
  assert (learning_inv ks (mac_learning_create 300 7) [] tag_set_init []) as Hi.
  { split; [apply create_rep|constructor| |apply init_ok|constructor]. intros p e H. by apply not_elem_of_nil in H. }
  destruct (run_event_reports ks _ _ _ _ demo_first Hi) as (s & m & L & new & E & _ & [Hr Ht Hk _ _] & _).
  - by split; [vm_compute|].
  - vm_compute. lia.
  - done.
  - exists L. unfold demo_table. rewrite E. split; [done|]. split; [done|].
    etransitivity; [apply (dups_le _ (keys_of [] demo_later ++ ks))|vm_compute; lia].
    intros x Hx. apply elem_of_app in Hx as [Hx|Hx].
    + apply list_elem_of_fmap in Hx as ([p e] & -> & Hx). apply elem_of_app. right. by apply (Hk p).
    + apply elem_of_app. left. apply elem_of_app. by right.
Qed.

Example mac_tag_protocol_witness :
  determine_output mac_a 10 7 0 demo_table = Ret ((ToPort 1, 3), demo_table)
  /\ exists L, ml_rep demo_table L /\
  exists out T s m' L',
    determine_output mac_a 10 7 0 demo_table = Ret ((out, T), demo_table)
    /\ run_table_events demo_later tag_set_init demo_table = Ret (s, m')
    /\ ml_rep m' L' /\ tags_ok L' /\ (forall vlan, learning_vlan m' vlan = learning_vlan demo_table vlan)
    /\ (tag_set_intersects s T = true \/ determine_output mac_a 10 7 0 m' = Ret ((out, T), m')).
Proof.
  split; [vm_compute; reflexivity|]. destruct demo_table_ok as (L & Hr & Ht & Hk). exists L. split; [done|].
  apply (mac_tag_protocol demo_table L (mac_a, 10) 7 0 demo_later Hr Ht); [done|by vm_compute| |done].
  repeat (apply Forall_cons; split; [vm_compute; done|]). apply Forall_nil. exact I.
Defined.
